(* ===== verification/_CoqProject ===== *)
-Q . S2P
Prelude.v
Paging.v
Frames.v
PageTable.v
Buddy.v
BuddySpec.v
BuddyInit.v
UserMap.v
Pcid.v
Elf.v
Cow.v
Vma.v
AddressSpace.v
Loader.v
Faults.v
Spaces.v
Pipe.v
Wake.v
PipeSystem.v
Fd.v
ProcTable.v
Wait.v
Signal.v
RunQueue.v
Sched.v
WaitQueue.v
Futex.v
Ramfs.v
Vfs.v
Cpio.v
Initrd.v
Shell.v
ShellExec.v
ExecStack.v
ExecMemory.v
Fork.v
Teardown.v
Spsc.v
Mpsc.v
PageCache.v
PageCacheSpec.v
FileMap.v
Keyboard.v
KeyboardSystem.v
TaggedStack.v
Slab.v
Locks.v
IoApic.v
Acpi.v
Firmware.v
Shootdown.v
CpuTable.v
Virtq.v
VirtioRx.v
VirtioTx.v
Pci.v
PciSpec.v
KernelMap.v
KernelMapSpec.v
KernelBoot.v
VirtioInit.v
Exec.v
ExecBlocks.v
ExecImage.v
ExecStart.v
ExecSpec.v
ExecSwitch.v
ExecDemo.v
ExecCall.v
