(* ===== verification/Prelude.v ===== *)
(** * Rumicos: a verification development for the Rumicos kernel

    Rumicos is an x86_64 kernel in Rust with its user programs.  At boot it reads the
    memory map and the firmware tables, builds its page tables, starts the other
    processors and scans the PCI bus (kernel, crates/paging, smp, pci).  Physical frames
    come from a NUMA buddy allocator (crates/memory).  Address spaces are four-level page
    tables with a small array of memory areas, filled by an ELF loader, shared
    copy-on-write at fork and completed by the page-fault handler, which takes file pages
    from the page cache (crates/proc, crates/fs).  Threads run on per-processor
    multi-level queues and sleep on wait queues and futexes (crates/sched).  Processes own
    descriptors, children and signal state; pipes and files are reached through
    descriptors (crates/proc, crates/fs).  The shell runs pipelines with these calls
    (userspace/shell).

    ** Conventions

    A u64 is a [Z] with its wrap-around written out ([wrap64], [wrap32]): the
    release profile of the workspace disables overflow checks.  A computation that
    can panic returns an [outcome]; [assert!], [expect] and an index out of range
    are [Panic], a [debug_assert!] is nothing.  Fixed arrays are lists of their
    length, physical memory is a finite map from frames to tables or bytes, or a
    function from addresses to bytes where a device shares it.  A definition has the
    name of the function it translates, with its type in front when the source has
    several ([FreeList_push], [PipeRing_read_into]).  A loop with an early exit runs
    under [iterate], which makes up to 2^n rounds and stops at the first result; each
    use comes with a measure that shows the bound is not met ([iterate_total]).  Loops
    over lists are [foldM] or structural.

    Code that runs on several processors at once, or beside a device, is a function from
    a state and an event to the next state, one atomic access or critical section per
    event, with an inductive step relation over it; invariants are proved by rule
    induction ([rtc_invariant]) and hold for every interleaving.

    Hardware that the code talks to (the I/O APIC window, PCI configuration space, the
    registers of a virtio device, control registers, TLBs) is a state with the reads and
    writes that its specification documents.

    ** Files

    Memory
    - Prelude: this text, [outcome], machine integers, bits, loops, lists.
    - Paging: addresses, page flags, page-table entries, CR3
      (crates/paging/src/address.rs, entry.rs).
    - Frames: the allocator interface ([FrameAllocator], with its laws as
      type classes) and the bump allocator (crates/memory/src/buddy.rs).
    - PageTable: tables in memory, the walk, [translate], [map_page] and the
      mapping functions of crates/paging/src/table.rs and
      crates/proc/src/address_space.rs, over any lawful allocator.
    - Buddy, BuddySpec, BuddyInit: free lists, allocation with splitting, freeing
      (which never merges); the node invariant and the instance of the allocator laws;
      NumaBuddy and its initialisation from the boot memory map
      (crates/memory/src/buddy.rs).
    - Pcid: the identifier bitmap (crates/memory/src/pcid.rs).
    - TaggedStack, Slab: the lock-free stack and the slab over it
      (crates/memory/src/tagged_stack.rs, slab.rs).
    - KernelMap, KernelMapSpec, KernelBoot: the page tables of the kernel and the
      control registers, from the memory map to the loaded root
      (crates/paging/src/init.rs, tlb.rs, crates/arch-x86_64/src/cpu.rs, xsave.rs).

    Processes
    - UserMap: the user half of an address space as a map from pages to entries.
    - Elf: the parser (crates/proc/src/elf.rs).
    - Cow: claim counts of shared frames (crates/proc/src/cow.rs).
    - Vma: memory areas and mmap (crates/proc/src/vma.rs and the area functions of
      address_space.rs).
    - AddressSpace: the kernel state of an address space and its operations:
      segments, stack, trampoline, fork, unmap, teardown, faults
      (crates/proc/src/address_space.rs, pagefault.rs).  The page cache is the
      interface [VfsHooks].
    - Loader, Faults: theorems on loading and on faults.
    - Spaces, Fork, Teardown: several address spaces over one memory: the tables a space
      owns, copy-on-write fork, and the teardown of a space (address_space.rs).
    - ExecStack, ExecMemory: the initial stack of a program and its writes through the
      tables of a space that is not active (crates/proc/src/exec.rs, userspace/liblow).
    - Exec: execve from the system call to user mode, with the loader of the file system
      as the interface [ExecLoader] and the blocks of the allocator as [BlockAllocator]
      (crates/proc/src/exec.rs, syscall.rs, process.rs, crates/fs/src/lib.rs).
    - ExecBlocks: the buffer a file is read into, over the buddy allocator, which
      discharges [BlockAllocator].
    - ExecImage, ExecStart, ExecSpec: the pages of the new image, its stack and
      trampoline, and what the program sees.
    - ExecSwitch, ExecDemo: the whole of execve, its failures, and examples.
    - ExecCall: the copies of the strings, and the loader over ramfs.
    - Fd: descriptor tables and the reference counts of pipe ends
      (crates/proc/src/fd.rs, crates/fs/src/syscall.rs, lib.rs, vnode.rs).
    - ProcTable: the pid table and the list of children
      (crates/proc/src/ptable.rs, process.rs).
    - Wait: exit, wait4, reaping (crates/proc/src/process.rs, wait.rs).
    - Signal: pending sets, delivery, sigreturn, sigaction, kill
      (crates/proc/src/signal.rs, syscall.rs, process.rs, crates/cpu/src/syscall.rs).
    - Shootdown: the TLB shootdown protocol over all processors
      (crates/proc/src/shootdown.rs, process.rs).

    Scheduling and synchronisation
    - RunQueue, Sched: run queues, ticks, picking, stealing, yielding, waking
      (crates/sched/src/queue.rs, thread.rs, steal.rs, lib.rs).
    - WaitQueue, Futex: the intrusive list of waiters, the futex table and the kernel
      mutex (crates/sched/src/waitqueue.rs, futex.rs).
    - Wake: the walk of a wait queue that wakes threads, with the answers of the
      scheduler, as pipes, futexes and the keyboard use it (waitqueue.rs).
    - Locks: backoff, spin lock, sequence lock (crates/sync/src).
    - Spsc, Mpsc: the rings between processes (crates/ipc/src/spsc.rs, mpsc.rs).
    - Pipe, PipeSystem: the ring and the blocking protocol (crates/fs/src/pipe.rs,
      crates/sched/src/block.rs, waitqueue.rs).

    Files
    - Ramfs, Vfs: files, directories, path lookup, open (crates/fs/src/ramfs.rs,
      vnode.rs, dentry.rs, syscall.rs).
    - Cpio, Initrd: the archive reader and writer, and the file system after unpacking
      (crates/fs/src/cpio.rs, xtask/src/main.rs).
    - PageCache, PageCacheSpec, FileMap: the page cache, its write-back, and its
      composition with page faults, where it discharges [VfsHooks]
      (crates/fs/src/pagecache.rs).

    Devices and firmware
    - Keyboard, KeyboardSystem: scancodes, the ring, the interrupt handler and blocking
      readers (crates/keyboard/src).
    - IoApic: topology, interrupt resolution and redirection entries
      (crates/apic/src/ioapic.rs).
    - Acpi, Firmware: the tables of the firmware byte for byte, and the routing of the
      keyboard interrupt from those bytes (crates/smp/src/acpi.rs).
    - CpuTable: the processor table and the start of the other processors
      (crates/smp/src/lib.rs, cpuinfo.rs).
    - Pci, PciSpec: configuration space, enumeration, capabilities (crates/pci/src).
    - Virtq, VirtioRx, VirtioTx, VirtioInit: the split queue in memory, receiving and
      sending beside the device, negotiation and queue set-up (crates/virtio/src).

    User programs
    - Shell, ShellExec: the parser of the shell and the execution of pipelines on the
      descriptor tables (userspace/shell/src/parse.rs, exec.rs).

    ** What the theorems show

    Memory: initialisation frees exactly the usable frames outside the exclusions,
    once each, for memory above address 0 and below 16 TiB; allocation returns an aligned free block and takes only it; freeing
    undoes it.  Mapping a page changes the translation of that page only, and
    fails only for lack of frames.  Turning paging on leaves the direct map, the image
    of the kernel and the trampoline mapped with their permissions and nothing else but
    what rounding to pages adds, on a CPU with XSAVE.  The lock-free stack keeps its elements whatever the threads write into nodes they own.

    Address spaces: an accepted ELF file yields segments inside the file and the
    user half; loading one puts its bytes, then zeroes, at its addresses with its
    permissions.  mmap takes the next free range, disjoint from all areas.  A
    copy-on-write fault on a page that was writable gives it its flags back with the same
    contents and keeps the frame exactly when no other claim is recorded; the claim table refines a
    counter per frame as long as its buckets have room.  A fault on a file mapping maps
    the frame the cache has or else the bytes of the file, and write-back stores the dirty
    pages.  After fork each process reads what it read before and, on private pages whose
    claim was recorded, the stores of one do not reach the other; dropping a
    space without shared file pages gives back its frames and no other, so that fork
    followed by the exit of the child restores the free frames and the claims.  execve enters the new program in a
    space that holds its file, its stack with the arguments and nothing else, and gives
    the old space back; when it fails, the caller and the memory are as before.  After a
    shootdown no processor uses the old translation.

    Concurrency: no two threads hold one identifier or one mutex; a thread is in one run
    queue at most, unless it is woken before it has left its processor; pipes and rings deliver what was accepted in order under any interleaving;
    sleepers in pipes, wait4, futexes and the keyboard are not passed over as long as the
    scheduler accepts the threads that are woken; readers of
    a sequence lock return values that were written; the count of a pipe end is the
    number of descriptors that refer to it after any descriptor calls, but for pipes that
    never got descriptors.

    Files and programs: the archive that the build writes is unpacked to the files that
    went in; a write reads back; the parser of the shell accepts exactly its grammar,
    in which redirections may come first; the stages of a pipeline get exactly the ends of
    their pipes when the calls of the shell succeed.

    Devices: from the bytes of the firmware tables the keyboard interrupt is routed to
    the right line and processor; the PCI scan lists the first 32 functions it reaches,
    with their windows; the network driver receives and sends each frame once, in order and
    unchanged.

    A last group of lemmas records where the code does not do what it says; each is named
    beside the code it concerns: among them dropped copy-on-write claims, pages that
    become writable after fork, wake-ups lost with two readers or refused by a busy
    scheduler, OSXSAVE set on a CPU without it, a pipeline that reports success after a
    failed fork, a parent reaping a child still inside exit, unchecked stack pointers in
    signal delivery, cached pages freed at exit, a shootdown that can deadlock, an execve that uses up the large blocks of
    memory and one that stops the kernel on a string at the end of its memory, whole GiB
    missing in the direct map, and a network buffer overwritten after a timeout.

    ** Bounds

    No theorem depends on a fuel.  The probe loop of mmap runs under [iterate]
    with 2^48 rounds, more than the mmap region has pages; the reset of a virtio device
    with 2^20, more than the million reads the code allows; the walks of PCI capabilities
    with 2^6, more than their guard of 48; the loops of the boot tables get one round more
    than their ranges have pages; a measure shows each ends.  All other loops are bounded
    by an order, a page count or a list.  Generation counters are compared modulo 2^32 as
    in the code, and the wake-up theorems ask for fewer than 2^32 events, since a counter
    that wraps between the sample and the test hides an event.  Ring indices of the
    virtio queues wrap at 2^16 as in the code.  Memory is sequentially consistent, also
    between the driver and the device: the sources order the accesses that matter with
    Acquire and Release.

    ** Not modelled, and why

    Assembly and what is mostly privileged instructions: context switch, trap entry, the
    trampoline, descriptor tables, single-instruction wrappers (crates/cpu, arch-x86_64,
    parts of sched and smp).  The registers of the local APIC and of the timers
    (crates/apic).  The boot sequence and its demonstrations (kernel/src), which call the
    parts above.  Of the system calls other than execve, the layer that copies arguments
    from user memory (parts of crates/proc/src/syscall.rs).  Device files (crates/fs/src/devfs.rs).
    Host tools (xtask but for its archive writer, miscompile-repro). *)

From Stdlib Require Import ZArith Lia Btauto.
From stdpp Require Import base gmap list.

#[global] Set Default Goal Selector "!".

Local Open Scope Z_scope.

(** ** Outcomes: a computation returns a value or panics *)

Inductive outcome (A : Type) : Type :=
| Done (a : A)
| Panic.

Arguments Done {A} a.
Arguments Panic {A}.

#[global] Instance outcome_ret : MRet outcome := @Done.

#[global] Instance outcome_bind : MBind outcome := fun A B f m =>
  match m with Done a => f a | Panic => Panic end.

(** [assert!(c)]: panics when the condition is false. *)
Definition assert_ (c : bool) : outcome unit := if c then Done tt else Panic.

(** [Option::expect] and [Option::unwrap]. *)
Definition expect {A} (o : option A) : outcome A :=
  match o with Some a => Done a | None => Panic end.

(** Reduces the monadic structure only, leaving arithmetic alone. *)
Ltac run := cbn [mbind outcome_bind mret outcome_ret assert_ expect option_bind fst snd].

Lemma bind_Done {A B} (m : outcome A) (f : A -> outcome B) b :
  (m ≫= f) = Done b -> exists a, m = Done a /\ f a = Done b.
Proof. destruct m; simpl; [eauto | discriminate]. Qed.

Lemma assert_Done c u : assert_ c = Done u -> c = true.
Proof. destruct c; [done | discriminate]. Qed.

(** ** Machine integers

    A [u64] (and [usize]) is a [Z] in [0, 2^64).  The release profile of the
    repository sets [overflow-checks = false], so [+], [-], [*] and [<<] wrap. *)

Definition wrapw (w z : Z) : Z := z mod 2 ^ w.

Definition wrap64 (z : Z) : Z := wrapw 64 z.

Definition wrap32 (z : Z) : Z := wrapw 32 z.

Definition u64_max : Z := 2 ^ 64 - 1.

Definition is_u64 (z : Z) : Prop := 0 <= z < 2 ^ 64.

Definition is_u32 (z : Z) : Prop := 0 <= z < 2 ^ 32.

#[global] Instance is_u64_dec z : Decision (is_u64 z).
Proof. unfold is_u64. apply _. Defined.

#[global] Instance is_u32_dec z : Decision (is_u32 z).
Proof. unfold is_u32. apply _. Defined.

(** [!x] on a [u64]. *)
Definition not64 (z : Z) : Z := Z.lxor z (Z.ones 64).

(** [a << n] on a [u64], for a shift amount below 64. *)
Definition shl64 (z n : Z) : Z := wrap64 (Z.shiftl z n).

(** [u64::checked_add] and [u64::checked_mul]. *)
Definition checked_add (a b : Z) : option Z :=
  if a + b <? 2 ^ 64 then Some (a + b) else None.

Definition checked_mul (a b : Z) : option Z :=
  if a * b <? 2 ^ 64 then Some (a * b) else None.

(** [u64::saturating_add]. *)
Definition saturating_add64 (a b : Z) : Z := Z.min (a + b) (2 ^ 64 - 1).

(** [is_power_of_two]. *)
Definition is_power_of_two (z : Z) : bool :=
  (0 <? z) && (Z.land z (z - 1) =? 0).

Lemma wrap64_small z : is_u64 z -> wrap64 z = z.
Proof. apply Z.mod_small. Qed.

Lemma wrap64_range z : is_u64 (wrap64 z).
Proof. apply Z.mod_pos_bound. reflexivity. Qed.

Lemma wrap64_idemp z : wrap64 (wrap64 z) = wrap64 z.
Proof. apply wrap64_small, wrap64_range. Qed.

Lemma wrap64_add_l a b : wrap64 (wrap64 a + b) = wrap64 (a + b).
Proof. unfold wrap64, wrapw. by rewrite Zplus_mod_idemp_l. Qed.

Lemma wrap64_add_r a b : wrap64 (a + wrap64 b) = wrap64 (a + b).
Proof. unfold wrap64, wrapw. by rewrite Zplus_mod_idemp_r. Qed.

Lemma wrap64_sub_l a b : wrap64 (wrap64 a - b) = wrap64 (a - b).
Proof. unfold wrap64, wrapw. by rewrite Zminus_mod_idemp_l. Qed.

Lemma wrap64_sub_r a b : wrap64 (a - wrap64 b) = wrap64 (a - b).
Proof. unfold wrap64, wrapw. by rewrite Zminus_mod_idemp_r. Qed.

Lemma checked_add_Some a b c : checked_add a b = Some c <-> c = a + b /\ a + b < 2 ^ 64.
Proof. unfold checked_add. destruct (Z.ltb_spec (a + b) (2 ^ 64)); split; naive_solver lia. Qed.

Lemma checked_mul_Some a b c : checked_mul a b = Some c <-> c = a * b /\ a * b < 2 ^ 64.
Proof. unfold checked_mul. destruct (Z.ltb_spec (a * b) (2 ^ 64)); split; naive_solver lia. Qed.

Create HintDb words.
Create Rewrite HintDb words.
#[export] Hint Resolve wrap64_range : words.
#[export] Hint Rewrite wrap64_idemp wrap64_add_l wrap64_add_r wrap64_sub_l wrap64_sub_r : words.

(** ** Bitwise reasoning *)

Lemma testbit_ones n i : 0 <= n -> Z.testbit (Z.ones n) i = (0 <=? i) && (i <? n).
Proof. apply Z.testbit_ones. Qed.

Lemma testbit_pow2 n i : 0 <= n -> Z.testbit (2 ^ n) i = (n =? i).
Proof. intros. by apply Z.pow2_bits_eqb. Qed.

Lemma testbit_mod_pow2 a n i :
  0 <= n -> Z.testbit (a mod 2 ^ n) i = (i <? n) && Z.testbit a i.
Proof. intros. by apply Z.testbit_mod_pow2. Qed.

Lemma testbit_small a n i : 0 <= a < 2 ^ n -> 0 <= n <= i -> Z.testbit a i = false.
Proof.
  intros Ha Hn. rewrite <- (Z.mod_small a (2 ^ n)) by done.
  by apply Z.mod_pow2_bits_high.
Qed.

Lemma testbit_shiftl a n i :
  0 <= i -> Z.testbit (Z.shiftl a n) i = (n <=? i) && Z.testbit a (i - n).
Proof.
  intros. rewrite Z.shiftl_spec by done.
  destruct (Z.leb_spec n i); [done | by rewrite Z.testbit_neg_r by lia].
Qed.

Lemma testbit_shiftr a n i : 0 <= i -> Z.testbit (Z.shiftr a n) i = Z.testbit a (i + n).
Proof. apply Z.shiftr_spec. Qed.

Create Rewrite HintDb bits.
#[export] Hint Rewrite Z.land_spec Z.lor_spec Z.lxor_spec Z.ldiff_spec Z.testbit_0_l : bits.
#[export] Hint Rewrite andb_false_r andb_true_r andb_false_l andb_true_l orb_false_r orb_true_r
  orb_false_l orb_true_l xorb_false_r xorb_true_r xorb_false_l xorb_true_l : bits.
#[export] Hint Rewrite testbit_ones testbit_pow2 testbit_mod_pow2 testbit_shiftl testbit_shiftr
  using lia : bits.

(** Splits every comparison of bit indices, evaluating out-of-range bits. *)
Ltac bit_cases :=
  repeat match goal with
  | |- context [?a <? ?b] => destruct (Z.ltb_spec a b); try lia
  | |- context [?a <=? ?b] => destruct (Z.leb_spec a b); try lia
  | |- context [?a =? ?b] => destruct (Z.eqb_spec a b); try lia
  end.

(** Bits of a number known to be small vanish above its width. *)
Ltac bit_small :=
  repeat match goal with
  | H : 0 <= ?a < 2 ^ ?n |- context [Z.testbit ?a ?i] =>
      rewrite (testbit_small a n i H) by lia
  | H : 0 <= ?a < 2 ^ ?n |- context [Z.testbit ?a ?i] =>
      assert_fails (assert (i < n) by lia);
      destruct (Z.lt_ge_cases i n)
  | |- context [Z.testbit ?a ?i] => rewrite (Z.testbit_neg_r a i) by lia
  | |- context [Z.testbit ?a (?i - ?n + ?n)] => rewrite (Z.sub_add n i)
  | |- context [Z.testbit ?a (?i + ?n - ?n)] => rewrite (Z.add_simpl_r i n)
  end.

Ltac bitwise :=
  apply Z.bits_inj'; intros ?i ?Hi;
  repeat (progress (autorewrite with bits; bit_cases)); bit_small; autorewrite with bits;
  try done; try lia; try btauto; try (repeat f_equal; lia).

Lemma lor_disjoint_add a b n : 0 <= n -> 0 <= b < 2 ^ n -> Z.lor (Z.shiftl a n) b = a * 2 ^ n + b.
Proof.
  intros Hn Hb. rewrite <- Z.shiftl_mul_pow2 by done.
  assert (Z.land (Z.shiftl a n) b = 0) as Hd by bitwise.
  by rewrite <- Z.lxor_lor, Z.add_nocarry_lxor.
Qed.

Lemma land_ones_low a n : 0 <= n -> Z.land a (Z.ones n) = a mod 2 ^ n.
Proof. intros. by apply Z.land_ones. Qed.

Lemma land_not_ones a n :
  is_u64 a -> 0 <= n <= 64 -> Z.land a (not64 (Z.ones n)) = a - a mod 2 ^ n.
Proof.
  intros Ha Hn. unfold not64, is_u64 in *.
  replace (a - a mod 2 ^ n) with (Z.shiftl (Z.shiftr a n) n).
  - bitwise.
  - rewrite Z.shiftl_mul_pow2, Z.shiftr_div_pow2 by lia.
    pose proof (Z.div_mod a (2 ^ n) ltac:(lia)). lia.
Qed.

Lemma shiftr_range a n m : 0 <= n -> 0 <= m -> 0 <= a < 2 ^ (n + m) -> 0 <= Z.shiftr a n < 2 ^ m.
Proof.
  intros Hn Hm Ha. rewrite Z.shiftr_div_pow2 by lia. rewrite Z.pow_add_r in Ha by lia.
  split; [apply Z.div_pos; lia | apply Z.div_lt_upper_bound; lia].
Qed.

Lemma lor_range a b n : 0 <= n -> 0 <= a < 2 ^ n -> 0 <= b < 2 ^ n -> 0 <= Z.lor a b < 2 ^ n.
Proof.
  intros Hn Ha Hb.
  assert (Z.lor a b = Z.lor a b mod 2 ^ n) as ->.
  - bitwise.
  - apply Z.mod_pos_bound. lia.
Qed.

Lemma land_range a b n : 0 <= n -> 0 <= a < 2 ^ n -> 0 <= b -> 0 <= Z.land a b < 2 ^ n.
Proof.
  intros Hn Ha Hb.
  assert (Z.land a b = Z.land a b mod 2 ^ n) as ->.
  - bitwise.
  - apply Z.mod_pos_bound. lia.
Qed.

(** ** Lists *)

Lemma perm_app_swap {A} (l1 l2 l3 : list A) : l1 ++ l2 ++ l3 ≡ₚ l2 ++ l1 ++ l3.
Proof. rewrite !(assoc_L (++)). apply Permutation_app_tail, Permutation_app_comm. Qed.

Lemma filter_length_le {A} (P Q : A -> Prop) `{!∀ x, Decision (P x), !∀ x, Decision (Q x)} (l : list A) :
  (forall x, x ∈ l -> P x -> Q x) -> (length (filter P l) <= length (filter Q l))%nat.
Proof.
  induction l as [|a l IH]; intros Hi; [done|]. rewrite !filter_cons.
  assert (length (filter P l) <= length (filter Q l))%nat by (apply IH; set_solver).
  destruct (decide (P a)) as [Ha|Ha].
  - rewrite decide_True by (apply Hi; set_solver). simpl. lia.
  - destruct (decide (Q a)); simpl; lia.
Qed.

Lemma filter_length_lt {A} (P Q : A -> Prop) `{!∀ x, Decision (P x), !∀ x, Decision (Q x)} (l : list A) x :
  (forall y, y ∈ l -> P y -> Q y) -> x ∈ l -> ~ P x -> Q x ->
  (length (filter P l) < length (filter Q l))%nat.
Proof.
  induction l as [|a l IH]; intros Hi Hx Hnp Hq; [set_solver|]. rewrite !filter_cons.
  assert (length (filter P l) <= length (filter Q l))%nat
    by (apply filter_length_le; set_solver).
  apply elem_of_cons in Hx as [->|Hx].
  - rewrite decide_False, decide_True by done. simpl. lia.
  - assert (length (filter P l) < length (filter Q l))%nat by (apply IH; set_solver).
    destruct (decide (P a)) as [Ha|Ha].
    + rewrite decide_True by (apply Hi; set_solver). simpl. lia.
    + destruct (decide (Q a)); simpl; lia.
Qed.

(** ** Sums over lists *)

Fixpoint zsum {X} (f : X -> Z) (l : list X) : Z :=
  match l with [] => 0 | x :: l' => f x + zsum f l' end.

Lemma zsum_insert {X} (f : X -> Z) (l : list X) i x y :
  l !! i = Some x -> zsum f (<[i := y]> l) = zsum f l - f x + f y.
Proof.
  revert i. induction l as [|a l IH]; intros [|i] Hi; simplify_eq/=; [lia|].
  rewrite (IH i) by done. lia.
Qed.

Lemma zsum_app {X} (f : X -> Z) (l k : list X) : zsum f (l ++ k) = zsum f l + zsum f k.
Proof. induction l as [|a l IH]; simpl; lia. Qed.

Lemma zsum_nonneg {X} (f : X -> Z) (l : list X) : (forall x, 0 <= f x) -> 0 <= zsum f l.
Proof. intros Hf. induction l as [|a l IH]; simpl; [lia | specialize (Hf a); lia]. Qed.

Lemma zsum_elem {X} (f : X -> Z) (l : list X) x : (forall x, 0 <= f x) -> x ∈ l -> f x <= zsum f l.
Proof.
  intros Hf [i Hi]%list_elem_of_lookup. rewrite <- (take_drop_middle l i x Hi).
  rewrite zsum_app. cbn [zsum].
  pose proof (zsum_nonneg f (take i l) Hf). pose proof (zsum_nonneg f (drop (S i) l) Hf). lia.
Qed.

(** Two different elements count separately. *)
Lemma zsum_two {X} (f : X -> Z) (l : list X) i j x y :
  (forall x, 0 <= f x) -> i <> j -> l !! i = Some x -> l !! j = Some y -> f x + f y <= zsum f l.
Proof.
  intros Hf. revert i j. induction l as [|a l IH]; intros i j Hij Hi Hj; [done|]. cbn [zsum].
  destruct i as [|i], j as [|j]; simplify_eq/=.
  - pose proof (zsum_elem f l y Hf (list_elem_of_lookup_2 _ _ _ Hj)). lia.
  - pose proof (zsum_elem f l x Hf (list_elem_of_lookup_2 _ _ _ Hi)). lia.
  - pose proof (Hf a). assert (f x + f y <= zsum f l) by (apply (IH i j); (done || lia)). lia.
Qed.

(** ** Unbounded loops

    [iterate step n s] runs at most [2^n] rounds of a [loop { .. }] body that
    either yields the next state or leaves with a result.  It stops at the first
    result, so a large [n] costs nothing; a decreasing measure below [2^n] shows
    that the bound is never met. *)

Fixpoint iterate {S R} (step : S -> S + R) (n : nat) (s : S) : S + R :=
  match n with
  | O => step s
  | S n' => match iterate step n' s with inl s' => iterate step n' s' | inr r => inr r end
  end.

Lemma iterate_measure {S R} (step : S -> S + R) (I : S -> Prop) (Q : R -> Prop) (mu : S -> Z) n : forall s,
  (forall s, I s -> match step s with inl s' => I s' /\ 0 <= mu s' < mu s | inr r => Q r end) ->
  I s ->
  match iterate step n s with
  | inl s' => I s' /\ 0 <= mu s' /\ mu s' + 2 ^ Z.of_nat n <= mu s
  | inr r => Q r
  end.
Proof.
  induction n as [|n IH]; intros s Hstep Hs; cbn [iterate].
  - pose proof (Hstep s Hs). destruct (step s); [|done].
    change (2 ^ Z.of_nat 0) with 1. intuition lia.
  - pose proof (IH s Hstep Hs) as H1. destruct (iterate step n s) as [s1|]; [|done].
    destruct H1 as (Hs1 & H0 & H1). pose proof (IH s1 Hstep Hs1) as H2.
    destruct (iterate step n s1) as [s2|]; [|done]. destruct H2 as (? & ? & ?).
    rewrite Nat2Z.inj_succ, Z.pow_succ_r by lia. split_and!; (done || lia).
Qed.

(** A loop that leaves in its first round. *)
Lemma iterate_first {S R} (step : S -> S + R) n s r : step s = inr r -> iterate step n s = inr r.
Proof. intros Hs. induction n as [|n IH]; cbn [iterate]; [done | by rewrite IH]. Qed.

(** The loop leaves, with a result that satisfies [Q]. *)
Lemma iterate_total {S R} (step : S -> S + R) (I : S -> Prop) (Q : R -> Prop) (mu : S -> Z) n s :
  (forall s, I s -> match step s with inl s' => I s' /\ 0 <= mu s' < mu s | inr r => Q r end) ->
  I s -> mu s < 2 ^ Z.of_nat n -> exists r, iterate step n s = inr r /\ Q r.
Proof.
  intros Hstep Hs Hmu. pose proof (iterate_measure step I Q mu n s Hstep Hs) as H.
  destruct (iterate step n s) as [s'|r]; [lia | eauto].
Qed.

(** [Option] slots of a fixed array: the first free one. *)
Definition first_none {X} (l : list (option X)) : option nat := fst <$> list_find (fun o => o = None) l.

Lemma first_none_Some {X} (l : list (option X)) i : first_none l = Some i -> l !! i = Some None.
Proof.
  unfold first_none. destruct (list_find _ l) as [[j o]|] eqn:H; [|done].
  intros [= <-]. apply list_find_Some in H as (Hj & -> & _). done.
Qed.

Lemma replicate_None_lookup {X} n i (x : X) : replicate n None !! i = Some (Some x) -> False.
Proof. rewrite lookup_replicate. by intros [? _]. Qed.

(** ** Counting trailing zeros *)

Fixpoint pos_ctz (p : positive) : Z :=
  match p with xO p' => 1 + pos_ctz p' | _ => 0 end.

(** [u64::trailing_zeros]. *)
Definition trailing_zeros (z : Z) : Z := match z with Zpos p => pos_ctz p | _ => 64 end.

Lemma trailing_zeros_spec z : 0 < z ->
  0 <= trailing_zeros z /\ Z.testbit z (trailing_zeros z) = true /\
  forall i, 0 <= i < trailing_zeros z -> Z.testbit z i = false.
Proof.
  destruct z as [|p|p]; [lia| |lia]. intros _. cbn [trailing_zeros].
  induction p as [p IH|p IH|]; [split_and!; [done..|simpl; lia]| |split_and!; [done..|simpl; lia]].
  destruct IH as (H0 & H1 & H2). cbn [pos_ctz]. rewrite Z.add_comm.
  change (Zpos p~0) with (2 * Zpos p). split_and!; [lia| |].
  - change (pos_ctz p + 1) with (Z.succ (pos_ctz p)). by rewrite Z.testbit_even_succ.
  - intros i Hi. destruct (Z.eq_dec i 0) as [->|]; [apply Z.testbit_even_0|].
    replace i with (Z.succ (i - 1)) by lia. rewrite Z.testbit_even_succ by lia. apply H2. lia.
Qed.

Lemma trailing_zeros_lt z n : 0 < z < 2 ^ n -> 0 <= n -> trailing_zeros z < n.
Proof.
  intros Hz Hn. destruct (trailing_zeros_spec z ltac:(lia)) as (H0 & H1 & _).
  destruct (Z.lt_ge_cases (trailing_zeros z) n); [done|].
  rewrite (testbit_small z n) in H1 by lia. done.
Qed.

(** ** Strings of bytes *)

(** [core::str::from_utf8] accepts the string. *)
Definition utf8_cont (b : Z) : bool := (128 <=? b) && (b <=? 191).

Fixpoint utf8_valid (s : list Z) : bool :=
  match s with
  | [] => true
  | a :: s1 =>
      if a <? 128 then utf8_valid s1 else
      match s1 with
      | [] => false
      | b :: s2 =>
          if (194 <=? a) && (a <=? 223) then utf8_cont b && utf8_valid s2 else
          match s2 with
          | [] => false
          | c :: s3 =>
              if (224 <=? a) && (a <=? 239) then
                (if a =? 224 then (160 <=? b) && (b <=? 191) else if a =? 237 then (128 <=? b) && (b <=? 159) else utf8_cont b) &&
                utf8_cont c && utf8_valid s3
              else
              match s3 with
              | [] => false
              | d :: s4 =>
                  (240 <=? a) && (a <=? 244) &&
                  (if a =? 240 then (144 <=? b) && (b <=? 191) else if a =? 244 then (128 <=? b) && (b <=? 143) else utf8_cont b) &&
                  utf8_cont c && utf8_cont d && utf8_valid s4
              end
          end
      end
  end.

(** [u64::to_le_bytes] and its inverse. *)
Fixpoint to_le_bytes (n : nat) (v : Z) : list Z :=
  match n with O => [] | S n' => v mod 256 :: to_le_bytes n' (v / 256) end.

Fixpoint of_le_bytes (bs : list Z) : Z :=
  match bs with [] => 0 | b :: bs' => b + 256 * of_le_bytes bs' end.

Lemma to_le_bytes_length n : forall v, length (to_le_bytes n v) = n.
Proof. induction n as [|n IH]; intros v; cbn; [done|]. by rewrite IH. Qed.

Lemma of_to_le_bytes n : forall v, 0 <= v < 256 ^ Z.of_nat n -> of_le_bytes (to_le_bytes n v) = v.
Proof.
  induction n as [|n IH]; intros v Hv; cbn [to_le_bytes of_le_bytes]; [cbn in Hv; lia|].
  rewrite Nat2Z.inj_succ, Z.pow_succ_r in Hv by lia. rewrite IH by (Z.div_mod_to_equations; nia). Z.div_mod_to_equations. lia.
Qed.

(** ** Loops over a list in a fallible state *)

Fixpoint foldM {S X} (f : S -> X -> outcome S) (s : S) (l : list X) : outcome S :=
  match l with
  | [] => Done s
  | x :: l' => s' ← f s x; foldM f s' l'
  end.

(** An invariant of the body, indexed by the elements done, holds at the end. *)
Lemma foldM_inv {S X} (f : S -> X -> outcome S) (I : list X -> S -> Prop) l : forall done s s',
  (forall d x s s', I d s -> f s x = Done s' -> I (d ++ [x]) s') ->
  I done s -> foldM f s l = Done s' -> I (done ++ l) s'.
Proof.
  induction l as [|x l IH]; intros d s s' Hstep Hs Hf; cbn [foldM] in Hf.
  - injection Hf as <-. by rewrite app_nil_r.
  - apply bind_Done in Hf as (s1 & H1 & H2).
    replace (d ++ x :: l) with ((d ++ [x]) ++ l) by (by rewrite <- app_assoc).
    eapply IH; [done|by eapply Hstep|done].
Qed.

Lemma foldM_app {S X} (f : S -> X -> outcome S) l k : forall s, foldM f s (l ++ k) = s' ← foldM f s l; foldM f s' k.
Proof. induction l as [|x l IH]; intros s; cbn [foldM app]; [done|]. destruct (f s x) as [s'|]; run; [apply IH|done]. Qed.

Lemma foldM_fmap {S X Y} (f : S -> Y -> outcome S) (g : X -> Y) l : forall s, foldM f s (g <$> l) = foldM (fun s x => f s (g x)) s l.
Proof. induction l as [|x l IH]; intros s; cbn [foldM fmap list_fmap]; [done|]. destruct (f s (g x)) as [s'|]; run; [apply IH|done]. Qed.

Lemma foldM_ext {S X} (f g : S -> X -> outcome S) l : (forall s x, x ∈ l -> f s x = g s x) -> forall s, foldM f s l = foldM g s l.
Proof.
  induction l as [|x l IH]; intros He s; cbn [foldM]; [done|]. rewrite He by left. destruct (g s x) as [s'|]; run; [|done].
  apply IH. intros s0 y Hy. apply He. by right.
Qed.

(** A fold whose steps succeed under an invariant. *)
Lemma foldM_total {S X} (f : S -> X -> outcome S) (I : list X -> S -> Prop) l : forall past s,
  (forall past x s, x ∈ l -> I past s -> exists s', f s x = Done s' /\ I (past ++ [x]) s') -> I past s -> exists s', foldM f s l = Done s' /\ I (past ++ l) s'.
Proof.
  induction l as [|x l IH]; intros past s Hf HI; cbn [foldM]; [exists s; by rewrite app_nil_r|].
  destruct (Hf past x s ltac:(left) HI) as (s1 & -> & H1). run. destruct (IH (past ++ [x]) s1) as (s2 & E & H2); [intros past' y t Hy; apply Hf; by right|done|].
  exists s2. split; [done|]. by rewrite <- app_assoc in H2.
Qed.

(** Taking one element out of a finite set. *)
Lemma size_remove (X : gset Z) x : x ∈ X -> size X = S (size (X ∖ {[x]})).
Proof.
  intros Hx. rewrite (union_difference_singleton_L x X) at 1 by done.
  rewrite size_union by set_solver. by rewrite size_singleton.
Qed.

(** ** Invariants of transition systems *)

Lemma rtc_invariant {X} (R : relation X) (I : X -> Prop) x z :
  I x -> (forall y y', I y -> R y y' -> I y') -> rtc R x z -> I z.
Proof. intros Hx Hstep Hrun. induction Hrun; eauto. Qed.
