(* ===== verification/Paging.v ===== *)
(** * Addresses and page-table entries (crates/paging/src/address.rs, entry.rs)

    Physical addresses, virtual addresses, page flags, page-table entries and
    the CR3 image are all [u64] values; the newtypes of the source are
    transparent, so they are [Z] here. *)

From Stdlib Require Import ZArith Lia Btauto.
From stdpp Require Import prelude.
From S2P Require Import Prelude.

Local Open Scope Z_scope.

(** ** Physical addresses *)

Definition PhysAddr_new (addr : Z) : Z := Z.land addr 0x000FFFFFFFFFFFFF.

Definition PhysAddr_align_down_4k (a : Z) : Z := Z.land a (not64 0xFFF).

Definition PhysAddr_align_up_4k (a : Z) : Z := Z.land (wrap64 (a + 0xFFF)) (not64 0xFFF).

Definition PhysAddr_align_down_2m (a : Z) : Z := Z.land a (not64 0x1FFFFF).

Definition PhysAddr_align_up_2m (a : Z) : Z := Z.land (wrap64 (a + 0x1FFFFF)) (not64 0x1FFFFF).

Definition PhysAddr_align_down_1g (a : Z) : Z := Z.land a (not64 0x3FFFFFFF).

Definition PhysAddr_align_up_1g (a : Z) : Z := Z.land (wrap64 (a + 0x3FFFFFFF)) (not64 0x3FFFFFFF).

Definition PhysAddr_frame_bits (a : Z) : Z := Z.land (Z.shiftr a 12) 0xFFFFFFFFF.

Definition PhysAddr_is_aligned_4k (a : Z) : bool := Z.land a 0xFFF =? 0.

Definition PhysAddr_add (a rhs : Z) : Z := PhysAddr_new (wrap64 (a + rhs)).

Definition PhysAddr_sub (a rhs : Z) : Z := PhysAddr_new (wrap64 (a - rhs)).

(** ** Virtual addresses *)

Definition VirtAddr_is_canonical (addr : Z) : bool :=
  (Z.shiftr addr 47 =? 0) || (Z.shiftr addr 47 =? 0x1FFFF).

Definition VirtAddr_pml4_index (v : Z) : Z := Z.land (Z.shiftr v 39) 0x1FF.

Definition VirtAddr_pdpt_index (v : Z) : Z := Z.land (Z.shiftr v 30) 0x1FF.

Definition VirtAddr_pd_index (v : Z) : Z := Z.land (Z.shiftr v 21) 0x1FF.

Definition VirtAddr_pt_index (v : Z) : Z := Z.land (Z.shiftr v 12) 0x1FF.

Definition VirtAddr_page_offset (v : Z) : Z := Z.land v 0xFFF.

Definition VirtAddr_is_user_space (v : Z) : bool := Z.shiftr v 47 =? 0.

Definition VirtAddr_is_kernel_space (v : Z) : bool := Z.shiftr v 47 =? 0x1FFFF.

Definition VirtAddr_is_direct_map (v : Z) : bool := 0xFFFF800000000000 <=? v.

(** ** Page flags *)

Definition PRESENT : Z := 2 ^ 0.
Definition WRITABLE : Z := 2 ^ 1.
Definition USER_ACCESSIBLE : Z := 2 ^ 2.
Definition WRITE_THROUGH : Z := 2 ^ 3.
Definition CACHE_DISABLE : Z := 2 ^ 4.
Definition ACCESSED : Z := 2 ^ 5.
Definition DIRTY : Z := 2 ^ 6.
Definition HUGE_PAGE : Z := 2 ^ 7.
Definition GLOBAL : Z := 2 ^ 8.
Definition OWNED : Z := 2 ^ 9.
Definition COW : Z := 2 ^ 10.
Definition NO_EXECUTE : Z := 2 ^ 63.

Definition PageFlags_new : Z := 0.

Definition with_present (f : Z) : Z := Z.lor f PRESENT.

Definition with_writable (f : Z) : Z := Z.lor f WRITABLE.

Definition with_user_accessible (f : Z) : Z := Z.lor f USER_ACCESSIBLE.

Definition with_write_through (f : Z) : Z := Z.lor f WRITE_THROUGH.

Definition with_cache_disable (f : Z) : Z := Z.lor f CACHE_DISABLE.

Definition with_accessed (f : Z) : Z := Z.lor f ACCESSED.

Definition with_dirty (f : Z) : Z := Z.lor f DIRTY.

Definition with_huge_page (f : Z) : Z := Z.lor f HUGE_PAGE.

Definition with_global (f : Z) : Z := Z.lor f GLOBAL.

Definition with_no_execute (f : Z) : Z := Z.lor f NO_EXECUTE.

Definition with_cow (f : Z) : Z := Z.lor f COW.

Definition without_writable (f : Z) : Z := Z.land f (not64 WRITABLE).

Definition without_cow (f : Z) : Z := Z.land f (not64 COW).

Definition PageFlags_is_cow (f : Z) : bool := negb (Z.land f COW =? 0).

(** ** Page-table entries *)

Definition PageTableEntry_new_page (phys flags : Z) : Z :=
  Z.lor (shl64 (PhysAddr_frame_bits phys) 12) flags.

Definition PageTableEntry_new_table (phys : Z) : Z :=
  PageTableEntry_new_page phys (with_writable (with_present PageFlags_new)).

Definition PageTableEntry_empty : Z := 0.

Definition PageTableEntry_frame (e : Z) : Z :=
  PhysAddr_new (shl64 (Z.land (Z.shiftr e 12) 0xFFFFFFFFF) 12).

Definition PageTableEntry_flags (e : Z) : Z :=
  Z.lor (Z.land e 0xFFF) (Z.land e (2 ^ 63)).

Definition PageTableEntry_with_flags (e flags : Z) : Z :=
  PageTableEntry_new_page (PageTableEntry_frame e) flags.

Definition is_present (e : Z) : bool := negb (Z.land e PRESENT =? 0).

Definition is_writable (e : Z) : bool := negb (Z.land e WRITABLE =? 0).

Definition is_user_accessible (e : Z) : bool := negb (Z.land e USER_ACCESSIBLE =? 0).

Definition is_huge_page (e : Z) : bool := negb (Z.land e HUGE_PAGE =? 0).

Definition is_global (e : Z) : bool := negb (Z.land e GLOBAL =? 0).

Definition is_no_execute (e : Z) : bool := negb (Z.land e NO_EXECUTE =? 0).

Definition is_cow (e : Z) : bool := negb (Z.land e COW =? 0).

Definition make_cr3 (pml4_phys pcid : Z) (noflush : bool) : Z :=
  let cr3 := Z.lor (shl64 (PhysAddr_frame_bits pml4_phys) 12) (Z.land pcid 0xFFF) in
  if noflush then Z.lor cr3 (2 ^ 63) else cr3.

(** ** Bit-level characterisation

    Every flag test is one bit of the entry; [testbit] facts about the builders
    then decide all questions about flags. *)

(** A flags value: only the low 12 bits and the NX bit may be set. *)
Definition is_flags (f : Z) : Prop :=
  0 <= f /\ forall i, 12 <= i -> i <> 63 -> Z.testbit f i = false.

Lemma land_pow2_test e n : 0 <= n -> negb (Z.land e (2 ^ n) =? 0) = Z.testbit e n.
Proof.
  intros Hn. assert (Z.land e (2 ^ n) = if Z.testbit e n then 2 ^ n else 0) as ->.
  - destruct (Z.testbit e n) eqn:He; bitwise; subst; by rewrite He.
  - destruct (Z.testbit e n); [|done].
    destruct (Z.eqb_spec (2 ^ n) 0); [|done]. lia.
Qed.

Lemma is_present_bit e : is_present e = Z.testbit e 0.
Proof. by apply land_pow2_test. Qed.

Lemma is_writable_bit e : is_writable e = Z.testbit e 1.
Proof. by apply land_pow2_test. Qed.

Lemma is_user_bit e : is_user_accessible e = Z.testbit e 2.
Proof. by apply land_pow2_test. Qed.

Lemma is_huge_bit e : is_huge_page e = Z.testbit e 7.
Proof. by apply land_pow2_test. Qed.

Lemma is_global_bit e : is_global e = Z.testbit e 8.
Proof. by apply land_pow2_test. Qed.

Lemma is_cow_bit e : is_cow e = Z.testbit e 10.
Proof. by apply land_pow2_test. Qed.

Lemma is_nx_bit e : is_no_execute e = Z.testbit e 63.
Proof. by apply land_pow2_test. Qed.

(** Rewrites the masks of the source into [Z.ones] so that [bitwise] sees them. *)
Ltac masks :=
  change 0xFFFFFFFFF with (Z.ones 36) in *;
  change 0x000FFFFFFFFFFFFF with (Z.ones 52) in *;
  change 0x1FF with (Z.ones 9) in *;
  change 0xFFF with (Z.ones 12) in *;
  change 0x1FFFFF with (Z.ones 21) in *;
  change 0x3FFFFFFF with (Z.ones 30) in *.

Lemma new_page_bits p f i :
  0 <= i ->
  Z.testbit (PageTableEntry_new_page p f) i =
  Z.testbit f i || ((12 <=? i) && (i <? 48) && Z.testbit p i).
Proof.
  intros Hi. unfold PageTableEntry_new_page, shl64, wrap64, wrapw, PhysAddr_frame_bits. masks.
  repeat (progress (autorewrite with bits; bit_cases)); rewrite ?Z.sub_add; btauto.
Qed.

Lemma frame_bits_of e i :
  0 <= i ->
  Z.testbit (PageTableEntry_frame e) i = (12 <=? i) && (i <? 48) && Z.testbit e i.
Proof.
  intros Hi. unfold PageTableEntry_frame, PhysAddr_new, shl64, wrap64, wrapw. masks.
  repeat (progress (autorewrite with bits; bit_cases)); rewrite ?Z.sub_add; btauto.
Qed.

Lemma flags_bits_of e i :
  0 <= i ->
  Z.testbit (PageTableEntry_flags e) i = ((i <? 12) || (i =? 63)) && Z.testbit e i.
Proof.
  intros Hi. unfold PageTableEntry_flags. masks.
  repeat (progress (autorewrite with bits; bit_cases)); try lia; btauto.
Qed.

#[export] Hint Rewrite new_page_bits frame_bits_of flags_bits_of using lia : bits.

Lemma frame_range e : 0 <= PageTableEntry_frame e < 2 ^ 48.
Proof.
  assert (PageTableEntry_frame e = PageTableEntry_frame e mod 2 ^ 48) as ->.
  - bitwise.
  - apply Z.mod_pos_bound. lia.
Qed.

Lemma aligned_bits p n i : 0 <= n -> p mod 2 ^ n = 0 -> i < n -> Z.testbit p i = false.
Proof.
  intros Hn Hp Hi. destruct (Z.lt_ge_cases i 0); [by apply Z.testbit_neg_r|].
  rewrite <- (Z.mod_pow2_bits_low p n i) by lia. by rewrite Hp, Z.testbit_0_l.
Qed.

Lemma frame_aligned e : PageTableEntry_frame e mod 4096 = 0.
Proof. change 4096 with (2 ^ 12). bitwise. Qed.

Lemma is_flags_bits f i : is_flags f -> 12 <= i -> i <> 63 -> Z.testbit f i = false.
Proof. intros [_ H]. apply H. Qed.

(** The address stored in an entry is the low 48 bits of the page address. *)
Lemma frame_new_page p f :
  is_flags f -> PageTableEntry_frame (PageTableEntry_new_page p f) = p mod 2 ^ 48 - p mod 2 ^ 12.
Proof.
  intros Hf. assert (p mod 2 ^ 48 - p mod 2 ^ 12 = Z.shiftl (Z.shiftr (p mod 2 ^ 48) 12) 12) as ->.
  - rewrite Z.shiftl_mul_pow2, Z.shiftr_div_pow2 by lia. Z.div_mod_to_equations. lia.
  - bitwise; by rewrite (is_flags_bits f) by (done || lia).
Qed.

Lemma flags_new_page p f :
  is_flags f -> PageTableEntry_flags (PageTableEntry_new_page p f) = f.
Proof.
  intros Hf. bitwise; by rewrite (is_flags_bits f) by (done || lia).
Qed.

Lemma is_flags_of e : 0 <= e -> is_flags (PageTableEntry_flags e).
Proof.
  intros He. split.
  - unfold PageTableEntry_flags. apply Z.lor_nonneg. split; apply Z.land_nonneg; lia.
  - intros i Hi Hn. autorewrite with bits. bit_cases; done.
Qed.

(** Building a leaf entry from a 4 KiB-aligned physical address below
    2^48 and a set of page flags, then reading its frame and its flags back,
    returns exactly that address and those flags, and each single-bit query
    ([is_present], [is_writable], [is_user_accessible], [is_huge_page],
    [is_cow], [is_no_execute]) answers for the flags given. *)
Theorem pte_roundtrip (p f : Z) :
  0 <= p < 2 ^ 48 -> p mod 4096 = 0 -> is_flags f ->
  let e := PageTableEntry_new_page p f in
  PageTableEntry_frame e = p /\ PageTableEntry_flags e = f /\
  PageTableEntry_with_flags e f = e /\
  is_present e = Z.testbit f 0 /\ is_writable e = Z.testbit f 1 /\
  is_user_accessible e = Z.testbit f 2 /\ is_huge_page e = Z.testbit f 7 /\
  is_cow e = Z.testbit f 10 /\ is_no_execute e = Z.testbit f 63.
Proof.
  intros Hp Ha Hf e.
  assert (PageTableEntry_frame e = p) as Hfr.
  { unfold e. rewrite frame_new_page by done. change 4096 with (2 ^ 12) in Ha.
    rewrite Ha, Z.mod_small by done. lia. }
  split_and!; [done | by apply flags_new_page | unfold PageTableEntry_with_flags; by rewrite Hfr | ..].
  all: rewrite ?is_present_bit, ?is_writable_bit, ?is_user_bit, ?is_huge_bit, ?is_cow_bit, ?is_nx_bit.
  all: unfold e; rewrite new_page_bits by lia.
  all: by rewrite ?andb_false_r, ?orb_false_r.
Qed.

Lemma pte_roundtrip_witness :
  let e := PageTableEntry_new_page 0x12345000 (with_no_execute (with_cow (with_present 0))) in
  PageTableEntry_frame e = 0x12345000 /\ is_cow e = true.
Proof.
  assert (is_flags (with_no_execute (with_cow (with_present 0)))) as Hf.
  { split; [vm_compute; discriminate|]. intros i Hi Hn.
    unfold with_no_execute, with_cow, with_present, NO_EXECUTE, COW, PRESENT.
    autorewrite with bits. bit_cases; done. }
  pose proof (pte_roundtrip 0x12345000 _ ltac:(lia) eq_refl Hf) as (H1 & _ & _ & _ & _ & _ & _ & H2 & _).
  split; [exact H1 | exact H2].
Defined.

(** An entry stores only 36 frame-number bits: whatever 52-bit physical
    address it is built from, the frame read back is that address reduced
    modulo 2^48 and aligned down to a page, so an address at or above 2^48 is
    truncated and reads back as a different frame. *)
Theorem pte_frame_truncates (p f : Z) :
  is_u64 p -> is_flags f ->
  PageTableEntry_frame (PageTableEntry_new_page p f) = PhysAddr_align_down_4k (p mod 2 ^ 48) /\
  (2 ^ 48 <= p -> PageTableEntry_frame (PageTableEntry_new_page p f) <> p).
Proof.
  intros Hp Hf. rewrite frame_new_page by done. split.
  - unfold PhysAddr_align_down_4k. masks.
    rewrite land_not_ones by (unfold is_u64; Z.div_mod_to_equations; lia).
    Z.div_mod_to_equations. lia.
  - intros Hbig. Z.div_mod_to_equations. lia.
Qed.

Lemma pte_frame_truncates_witness :
  PageTableEntry_frame (PageTableEntry_new_page (2 ^ 48) (with_present 0)) <> 2 ^ 48.
Proof.
  assert (is_flags (with_present 0)) as Hf.
  { split; [vm_compute; discriminate|]. intros i Hi Hn. unfold with_present, PRESENT.
    autorewrite with bits. bit_cases; done. }
  assert (is_u64 (2 ^ 48)) as Hu by (unfold is_u64; lia).
  exact (proj2 (pte_frame_truncates (2 ^ 48) (with_present 0) Hu Hf) ltac:(lia)).
Defined.

(** ** Virtual address decomposition *)

(** The address rebuilt from the four table indices, as the fork walk of
    crates/proc/src/address_space.rs (lines 648-651) builds it. *)
Definition virt_of_indices (pml4_idx pdpt_idx pd_idx pt_idx : Z) : Z :=
  Z.lor (Z.lor (Z.lor (shl64 pml4_idx 39) (shl64 pdpt_idx 30)) (shl64 pd_idx 21)) (shl64 pt_idx 12).

Lemma index_range v n : 0 <= Z.land (Z.shiftr v n) 0x1FF < 512.
Proof. masks. rewrite Z.land_ones by lia. apply Z.mod_pos_bound. lia. Qed.

Lemma virt_of_indices_page v :
  virt_of_indices (VirtAddr_pml4_index v) (VirtAddr_pdpt_index v)
                  (VirtAddr_pd_index v) (VirtAddr_pt_index v) = v mod 2 ^ 48 - v mod 2 ^ 12.
Proof.
  assert (v mod 2 ^ 48 - v mod 2 ^ 12 = Z.shiftl (Z.shiftr (v mod 2 ^ 48) 12) 12) as ->.
  { rewrite Z.shiftl_mul_pow2, Z.shiftr_div_pow2 by lia. Z.div_mod_to_equations. lia. }
  unfold virt_of_indices, VirtAddr_pml4_index, VirtAddr_pdpt_index, VirtAddr_pd_index,
    VirtAddr_pt_index, shl64, wrap64, wrapw.
  masks. bitwise; rewrite ?Z.sub_add; btauto.
Qed.

(** For every canonical virtual address the four table indices are below
    512 and, recombined with the page offset the way the fork walk recombines
    them, give back the low 48 bits of the address; for a user address that is
    the address itself. *)
Theorem virt_indices_recompose (v : Z) :
  is_u64 v -> VirtAddr_is_canonical v = true ->
  let v' := Z.lor (virt_of_indices (VirtAddr_pml4_index v) (VirtAddr_pdpt_index v)
                     (VirtAddr_pd_index v) (VirtAddr_pt_index v)) (VirtAddr_page_offset v) in
  (0 <= VirtAddr_pml4_index v < 512 /\ 0 <= VirtAddr_pdpt_index v < 512 /\
   0 <= VirtAddr_pd_index v < 512 /\ 0 <= VirtAddr_pt_index v < 512) /\
  v' = v mod 2 ^ 48 /\
  (VirtAddr_is_user_space v = true -> v' = v /\ VirtAddr_pml4_index v < 256) /\
  (VirtAddr_is_kernel_space v = true -> v' + 0xFFFF000000000000 = v /\ 256 <= VirtAddr_pml4_index v).
Proof.
  intros Hv Hc v'. unfold is_u64 in Hv.
  assert (v' = v mod 2 ^ 48) as Hv'.
  { unfold v'. rewrite virt_of_indices_page. unfold VirtAddr_page_offset. masks.
    rewrite Z.land_ones by lia.
    replace (v mod 2 ^ 48 - v mod 2 ^ 12) with (Z.shiftl (v mod 2 ^ 48 / 2 ^ 12) 12)
      by (rewrite Z.shiftl_mul_pow2 by lia; Z.div_mod_to_equations; lia).
    rewrite lor_disjoint_add by (apply Z.mod_pos_bound || lia; lia). Z.div_mod_to_equations. lia. }
  split_and!; [apply index_range.. | done | |].
  all: unfold VirtAddr_is_user_space, VirtAddr_is_kernel_space; intros Hs%Z.eqb_eq.
  all: rewrite Z.shiftr_div_pow2 in Hs by lia; rewrite Hv'.
  all: unfold VirtAddr_pml4_index; masks; rewrite Z.land_ones, Z.shiftr_div_pow2 by lia.
  all: Z.div_mod_to_equations; lia.
Qed.

Lemma virt_indices_recompose_witness :
  VirtAddr_is_kernel_space 0xFFFFFFFF80012345 = true /\ 256 <= VirtAddr_pml4_index 0xFFFFFFFF80012345.
Proof.
  assert (is_u64 0xFFFFFFFF80012345) as Hu by (unfold is_u64; lia).
  split; [reflexivity|].
  apply (virt_indices_recompose 0xFFFFFFFF80012345 Hu eq_refl). reflexivity.
Defined.

(** The CR3 image built from a 4 KiB-aligned PML4 address below 2^48, a
    12-bit PCID and the no-flush flag holds each in its own field: the PML4
    frame in bits 12-47, the PCID in bits 0-11 and no-flush in bit 63, and no
    other bit is set. *)
Theorem make_cr3_fields (pml4 pcid : Z) (noflush : bool) :
  0 <= pml4 < 2 ^ 48 -> pml4 mod 4096 = 0 -> 0 <= pcid < 4096 ->
  let cr3 := make_cr3 pml4 pcid noflush in
  cr3 = pml4 + pcid + (if noflush then 2 ^ 63 else 0) /\ is_u64 cr3 /\
  PageTableEntry_frame cr3 = pml4 /\ Z.land cr3 0xFFF = pcid /\ Z.testbit cr3 63 = noflush.
Proof.
  intros Hp Ha Hc cr3. change 4096 with (2 ^ 12) in *.
  assert (shl64 (PhysAddr_frame_bits pml4) 12 = pml4) as Hs.
  { unfold shl64, PhysAddr_frame_bits, wrap64, wrapw. masks.
    pose proof (aligned_bits pml4 12). bitwise. by rewrite (aligned_bits pml4 12) by (done || lia). }
  assert (Z.lor pml4 (Z.land pcid 0xFFF) = pml4 + pcid) as Hl.
  { masks. rewrite Z.land_ones, Z.mod_small by lia.
    replace pml4 with (Z.shiftl (pml4 / 2 ^ 12) 12) at 1
      by (rewrite Z.shiftl_mul_pow2 by lia; Z.div_mod_to_equations; lia).
    rewrite lor_disjoint_add by lia. Z.div_mod_to_equations. lia. }
  assert (cr3 = pml4 + pcid + (if noflush then 2 ^ 63 else 0)) as Hcr.
  { unfold cr3, make_cr3. rewrite Hs, Hl. destruct noflush; [|lia].
    rewrite Z.lor_comm. change (2 ^ 63) with (Z.shiftl 1 63) at 1.
    rewrite lor_disjoint_add by lia. lia. }
  split_and!; [done | unfold is_u64; rewrite Hcr; destruct noflush; lia | ..].
  - unfold PageTableEntry_frame, PhysAddr_new, shl64, wrap64, wrapw. masks.
    rewrite Z.shiftl_mul_pow2, !Z.land_ones, Z.shiftr_div_pow2, Hcr by lia.
    destruct noflush; Z.div_mod_to_equations; lia.
  - masks. rewrite Z.land_ones, Hcr by lia. destruct noflush; Z.div_mod_to_equations; lia.
  - rewrite Hcr, Z.testbit_odd, Z.shiftr_div_pow2 by lia.
    destruct noflush.
    + replace ((pml4 + pcid + 2 ^ 63) / 2 ^ 63) with 1 by (Z.div_mod_to_equations; lia). done.
    + rewrite Z.div_small by lia. done.
Qed.

Lemma make_cr3_fields_witness : PageTableEntry_frame (make_cr3 0x1000 42 true) = 0x1000.
Proof. apply (make_cr3_fields 0x1000 42 true); [lia | reflexivity | lia]. Defined.
