(* ===== verification/Frames.v ===== *)
(** * The frame-allocator interface (crates/memory/src/buddy.rs, trait FrameAllocator)

    What the page-table code relies on when it asks for a frame.  The trait's
    safety contract ("implementors must return unique, page-aligned frames")
    is the class of laws; the buddy allocator discharges it in [Buddy]. *)

From Stdlib Require Import ZArith Lia.
From stdpp Require Import prelude gmap.
From S2P Require Import Prelude.

Local Open Scope Z_scope.

(** The two operations every implementor provides; an allocation threads the
    allocator's state and fails when no frame is left. *)
Class FrameAllocator (A : Type) := {
  fa_alloc_frame : A -> option (Z * A);
  fa_free_frame : A -> Z -> outcome A
}.

(** The contract of an allocation: relative to a well-formed allocator state
    with a known set of free frames, it hands out one of them, page-aligned,
    non-null and below 2^44, and forgets it; it fails only when none is left. *)
Class FrameAllocatorLaws (A : Type) `{FrameAllocator A} := {
  fa_ok : A -> Prop;
  fa_free : A -> gset Z;
  fa_alloc_Some (a : A) (f : Z) (a' : A) :
    fa_ok a -> fa_alloc_frame a = Some (f, a') ->
    fa_ok a' /\ f ∈ fa_free a /\ fa_free a' = fa_free a ∖ {[f]} /\
    f mod 4096 = 0 /\ 0 < f < 2 ^ 44;
  fa_alloc_None (a : A) : fa_ok a -> fa_alloc_frame a = None -> fa_free a = ∅
}.

(** The contract of a free, which the bump allocator does not meet: the frame
    becomes available again. *)
Class FrameReturnLaws (A : Type) `{FrameAllocatorLaws A} := {
  fa_free_frame_spec (a : A) (f : Z) :
    fa_ok a -> f ∉ fa_free a -> f mod 4096 = 0 -> 0 < f < 2 ^ 44 ->
    exists a', fa_free_frame a f = Done a' /\ fa_ok a' /\ fa_free a' = {[f]} ∪ fa_free a
}.

(** The early-boot allocator of the same file (lines 510-545): frames are
    handed out by a counter and never come back. *)
Record BumpAllocator := { bump_n : Z; bump_next : Z }.

Definition BumpAllocator_alloc_frame (b : BumpAllocator) : option (Z * BumpAllocator) :=
  if bump_n b <=? bump_next b then None
  else Some (wrap64 (bump_next b * 4096),
             {| bump_n := bump_n b; bump_next := bump_next b + 1 |}).

Definition BumpAllocator_free_frame (b : BumpAllocator) (_ : Z) : outcome BumpAllocator := Done b.

Definition BumpAllocator_consumed_range (b : BumpAllocator) : Z * Z :=
  (0, wrap64 (bump_next b * 4096)).

#[export] Instance BumpAllocator_FrameAllocator : FrameAllocator BumpAllocator := {
  fa_alloc_frame := BumpAllocator_alloc_frame;
  fa_free_frame := BumpAllocator_free_frame
}.

(** The frames a bump allocator can still hand out. *)
Definition bump_free (b : BumpAllocator) : gset Z :=
  list_to_set ((fun k => k * 4096) <$> seqZ (bump_next b) (bump_n b - bump_next b)).

Definition bump_ok (b : BumpAllocator) : Prop := 1 <= bump_next b /\ bump_n b <= 2 ^ 32.

Lemma elem_of_bump_free b f :
  f ∈ bump_free b <-> exists k, f = k * 4096 /\ bump_next b <= k < bump_n b.
Proof.
  unfold bump_free. rewrite elem_of_list_to_set, list_elem_of_fmap.
  setoid_rewrite elem_of_seqZ. split; intros (k & -> & Hk); exists k; (split; [done | lia]).
Qed.

(** Past its first frame (whose address is 0), the bump allocator meets the
    allocation contract. *)
#[export] Program Instance BumpAllocator_laws : FrameAllocatorLaws BumpAllocator := {
  fa_ok := bump_ok;
  fa_free := bump_free
}.
Next Obligation.
  intros b f b' [Hn Hm]. simpl. unfold BumpAllocator_alloc_frame.
  destruct (Z.leb_spec (bump_n b) (bump_next b)); [done|]. intros [= <- <-].
  rewrite wrap64_small by (unfold is_u64; lia).
  split_and!; [unfold bump_ok; simpl; lia | apply elem_of_bump_free; eauto with lia | |
    by apply Z.mod_mul | lia | lia].
  apply set_eq. intros x. rewrite elem_of_difference, elem_of_singleton, !elem_of_bump_free.
  simpl. split.
  - intros (k & -> & Hk). split; [exists k; lia | lia].
  - intros ((k & -> & Hk) & Hne). exists k. split; [done|]. assert (k <> bump_next b) by congruence. lia.
Qed.
Next Obligation.
  intros b _. simpl. unfold BumpAllocator_alloc_frame.
  destruct (Z.leb_spec (bump_n b) (bump_next b)); [|done]. intros _.
  apply set_eq. intros x. rewrite elem_of_bump_free. split; [intros (k & _ & ?); lia | set_solver].
Qed.
