(* ===== verification/PageTable.v ===== *)
(** * Four-level page tables

    The page-table walks and updates of crates/paging/src/table.rs,
    crates/paging/src/mmio.rs and crates/proc/src/address_space.rs.  The page
    tables of the machine are a finite map from the physical address of a table
    to its 512 entries; the direct map makes every table reachable at
    [DIRECT_MAP_BASE + phys], so a pointer to a table is its physical address.
    The allocator is any instance of [FrameAllocator]. *)

From Stdlib Require Import ZArith Lia.
From stdpp Require Import prelude gmap list.
From S2P Require Import Prelude Paging Frames.

Local Open Scope Z_scope.

(** ** A single table *)

Definition ENTRIES : nat := 512.

Definition PageTable_get (t : list Z) (index : Z) : outcome Z :=
  if 512 <=? index then Panic else expect (t !! Z.to_nat index).

Definition PageTable_set (t : list Z) (index e : Z) : outcome (list Z) :=
  if 512 <=? index then Panic else Done (<[Z.to_nat index := e]> t).

Definition PageTable_zero : list Z := replicate ENTRIES PageTableEntry_empty.

Section tables.
Context {A : Type} `{FrameAllocator A}.

(** The tables in memory, and the allocator that new tables come from. *)
Record pt_state := { tabs : gmap Z (list Z); pt_alloc : A }.

Definition read_table (s : pt_state) (table index : Z) : outcome Z :=
  t ← expect (tabs s !! table); PageTable_get t index.

Definition write_table (s : pt_state) (table index e : Z) : outcome pt_state :=
  t ← expect (tabs s !! table);
  t' ← PageTable_set t index e;
  Done {| tabs := <[table := t']> (tabs s); pt_alloc := pt_alloc s |}.

(** ** Walking and extending *)

(** The flags given to an intermediate table. *)
Definition table_flags (user : bool) : Z :=
  let flags := with_writable (with_present PageFlags_new) in
  if user then with_user_accessible flags else flags.

Definition ensure_next_table (s : pt_state) (table index : Z) (user : bool) : outcome (Z * pt_state) :=
  entry ← read_table s table index;
  if is_present entry then Done (PageTableEntry_frame entry, s)
  else
    '(frame, a') ← expect (fa_alloc_frame (pt_alloc s));
    let next := PhysAddr_new frame in
    let s1 := {| tabs := <[next := PageTable_zero]> (tabs s); pt_alloc := a' |} in
    let entry' := PageTableEntry_new_page (PhysAddr_new frame) (table_flags user) in
    s2 ← write_table s1 table index entry';
    Done (PageTableEntry_frame entry', s2).

Definition map_page (s : pt_state) (pml4_phys virt phys flags : Z) : outcome pt_state :=
  '(pdpt, s1) ← ensure_next_table s pml4_phys (VirtAddr_pml4_index virt) true;
  '(pd, s2) ← ensure_next_table s1 pdpt (VirtAddr_pdpt_index virt) true;
  '(pt, s3) ← ensure_next_table s2 pd (VirtAddr_pd_index virt) true;
  write_table s3 pt (VirtAddr_pt_index virt) (PageTableEntry_new_page phys flags).

Definition translate (s : pt_state) (pml4_phys virt : Z) : outcome (option Z) :=
  pml4_entry ← read_table s pml4_phys (VirtAddr_pml4_index virt);
  if negb (is_present pml4_entry) then Done None else
  pdpt_entry ← read_table s (PageTableEntry_frame pml4_entry) (VirtAddr_pdpt_index virt);
  if negb (is_present pdpt_entry) then Done None else
  if is_huge_page pdpt_entry
  then Done (Some (PhysAddr_add (PageTableEntry_frame pdpt_entry) (Z.land virt 0x3FFFFFFF))) else
  pd_entry ← read_table s (PageTableEntry_frame pdpt_entry) (VirtAddr_pd_index virt);
  if negb (is_present pd_entry) then Done None else
  if is_huge_page pd_entry
  then Done (Some (PhysAddr_add (PageTableEntry_frame pd_entry) (Z.land virt 0x1FFFFF))) else
  pt_entry ← read_table s (PageTableEntry_frame pd_entry) (VirtAddr_pt_index virt);
  if negb (is_present pt_entry) then Done None else
  Done (Some (PhysAddr_add (PageTableEntry_frame pt_entry) (VirtAddr_page_offset virt))).

(** [leaf_entry_mut]: the table and index of the leaf entry of a user address,
    through which the caller reads and writes it. *)
Definition leaf_entry (s : pt_state) (pml4_phys virt : Z) : outcome (option (Z * Z)) :=
  pml4e ← read_table s pml4_phys (VirtAddr_pml4_index virt);
  if negb (is_present pml4e) || (256 <=? VirtAddr_pml4_index virt) then Done None else
  pdpte ← read_table s (PageTableEntry_frame pml4e) (VirtAddr_pdpt_index virt);
  if negb (is_present pdpte) || is_huge_page pdpte then Done None else
  pde ← read_table s (PageTableEntry_frame pdpte) (VirtAddr_pd_index virt);
  if negb (is_present pde) || is_huge_page pde then Done None else
  Done (Some (PageTableEntry_frame pde, VirtAddr_pt_index virt)).

(** ** The boot-time builder (crates/paging/src/table.rs) *)

Definition walk_to_pd (s : pt_state) (pml4 virt : Z) : outcome (Z * pt_state) :=
  '(pdpt, s1) ← ensure_next_table s pml4 (VirtAddr_pml4_index virt) false;
  ensure_next_table s1 pdpt (VirtAddr_pdpt_index virt) false.

Definition map_page_internal (s : pt_state) (pml4 virt phys flags : Z) : outcome pt_state :=
  '(pd, s1) ← walk_to_pd s pml4 virt;
  '(pt, s2) ← ensure_next_table s1 pd (VirtAddr_pd_index virt) false;
  write_table s2 pt (VirtAddr_pt_index virt) (PageTableEntry_new_page phys flags).

Definition map_huge_2m (s : pt_state) (pml4 virt phys flags : Z) : outcome pt_state :=
  '(pd, s1) ← walk_to_pd s pml4 virt;
  write_table s1 pd (VirtAddr_pd_index virt) (PageTableEntry_new_page phys (with_huge_page flags)).

End tables.

Arguments pt_state A : clear implicits.

(** ** The tree view of a page-table hierarchy

    A path is a list of at most four indices.  [walk] follows present,
    non-huge entries; [entry] is the entry a path ends in; [pentry] keeps it
    only when present, which is all the hardware and [translate] look at. *)

Section tree.
Context {A : Type} `{FrameAllocatorLaws A}.
Implicit Types (s : pt_state A) (p q : list nat).

Definition entry_at (tb : gmap Z (list Z)) (table : Z) (i : nat) : option Z :=
  t ← tb !! table; t !! i.

Fixpoint walk (tb : gmap Z (list Z)) (table : Z) (p : list nat) : option Z :=
  match p with
  | [] => Some table
  | i :: p' =>
      e ← entry_at tb table i;
      if is_present e && negb (is_huge_page e) then walk tb (PageTableEntry_frame e) p' else None
  end.

Definition pentry (tb : gmap Z (list Z)) (root : Z) (p : list nat) (i : nat) : option Z :=
  table ← walk tb root p;
  e ← entry_at tb table i;
  if is_present e then Some e else None.

(** A hierarchy rooted at [root] is well formed when every table on a path of
    length at most three is a full table, no table is reached twice, no table
    is a free frame, and no top-level entry carries the huge bit. *)
Record pt_wf (s : pt_state A) (root : Z) : Prop := {
  wf_alloc : fa_ok (pt_alloc s);
  wf_table p f : (length p <= 3)%nat -> walk (tabs s) root p = Some f ->
    exists t, tabs s !! f = Some t /\ length t = ENTRIES;
  wf_tree p q f : (length p <= 3)%nat -> (length q <= 3)%nat ->
    walk (tabs s) root p = Some f -> walk (tabs s) root q = Some f -> p = q;
  wf_live p f : (length p <= 3)%nat -> walk (tabs s) root p = Some f -> f ∉ fa_free (pt_alloc s);
  wf_top i e : entry_at (tabs s) root i = Some e -> is_present e = true -> is_huge_page e = false
}.

Lemma walk_app tb root p q :
  walk tb root (p ++ q) = table ← walk tb root p; walk tb table q.
Proof.
  revert root. induction p as [|i p IH]; intros root; simpl; [done|].
  destruct (entry_at tb root i) as [e|]; simpl; [|done].
  destruct (is_present e && negb (is_huge_page e)); [apply IH | done].
Qed.

Lemma walk_snoc tb root p i :
  walk tb root (p ++ [i]) =
  e ← pentry tb root p i; if is_huge_page e then None else Some (PageTableEntry_frame e).
Proof.
  rewrite walk_app. unfold pentry. destruct (walk tb root p) as [g|]; simpl; [|done].
  destruct (entry_at tb g i) as [e|]; simpl; [|done].
  destruct (is_present e); simpl; [by destruct (is_huge_page e) | done].
Qed.

(** The state's tables after writing one entry of one table. *)
Definition set_entry (tb : gmap Z (list Z)) (g : Z) (i : nat) (e : Z) : gmap Z (list Z) :=
  alter (fun t => <[i := e]> t) g tb.

Lemma entry_at_set_eq tb g i e t :
  tb !! g = Some t -> (i < length t)%nat -> entry_at (set_entry tb g i e) g i = Some e.
Proof.
  intros Hg Hi. unfold entry_at, set_entry.
  rewrite lookup_alter_eq, Hg. simpl. by apply list_lookup_insert_eq.
Qed.

Lemma entry_at_set_ne tb g i e h j :
  (h, j) <> (g, i) -> entry_at (set_entry tb g i e) h j = entry_at tb h j.
Proof.
  intros Hne. unfold entry_at, set_entry. destruct (decide (h = g)) as [->|].
  - rewrite lookup_alter_eq. destruct (tb !! g); simpl; [|done].
    apply list_lookup_insert_ne. congruence.
  - by rewrite lookup_alter_ne.
Qed.

(** Frame property of a walk: writing entry [i] of the table at path [pg]
    changes no walk that does not go through [pg ++ [i]]. *)
Lemma walk_set_frame s root pg g i e q h r :
  pt_wf s root -> (length pg <= 3)%nat ->
  walk (tabs s) root pg = Some g -> walk (tabs s) root q = Some h ->
  (length (q ++ r) <= 4)%nat -> ~ (pg ++ [i]) `prefix_of` (q ++ r) ->
  walk (set_entry (tabs s) g i e) h r = walk (tabs s) h r.
Proof.
  intros Hwf Hlen Hg. revert q h. induction r as [|j r IH]; intros q h Hq Hl Hp; simpl; [done|].
  rewrite length_app in Hl; simpl in Hl.
  rewrite entry_at_set_ne.
  2:{ intros [= -> ->]. apply Hp. rewrite (wf_tree _ _ Hwf q pg g) by (done || lia).
      exists r. by rewrite <- (assoc_L (++)). }
  destruct (entry_at (tabs s) h j) as [e'|] eqn:He; simpl; [|done].
  destruct (is_present e' && negb (is_huge_page e')) eqn:Hc; [|done].
  apply (IH (q ++ [j])).
  - rewrite walk_app, Hq. simpl. by rewrite He; simpl; rewrite Hc.
  - rewrite !length_app; simpl. lia.
  - by rewrite <- (assoc_L (++)).
Qed.

Lemma pentry_set_frame s root pg g i e p j :
  pt_wf s root -> (length pg <= 3)%nat -> (length p <= 3)%nat ->
  walk (tabs s) root pg = Some g -> ~ (pg ++ [i]) `prefix_of` p -> (p, j) <> (pg, i) ->
  pentry (set_entry (tabs s) g i e) root p j = pentry (tabs s) root p j.
Proof.
  intros Hwf Hl Hlp Hg Hp Hne. unfold pentry.
  rewrite (walk_set_frame s root pg g i e [] root p) by (done || simpl; lia).
  destruct (walk (tabs s) root p) as [h|] eqn:Hh; simpl; [|done].
  rewrite entry_at_set_ne; [done|]. intros [= -> ->].
  apply Hne. f_equal. by eapply wf_tree.
Qed.

(** ** Adding a table: a fresh zeroed frame, then the entry that links it *)

Lemma walk_insert_fresh s root n z p :
  (forall q f, (length q <= 3)%nat -> walk (tabs s) root q = Some f -> f <> n) ->
  (length p <= 4)%nat ->
  walk (<[n := z]> (tabs s)) root p = walk (tabs s) root p.
Proof.
  intros Hn. induction p as [|i p IH] using rev_ind; intros Hl; [done|].
  rewrite length_app in Hl; simpl in Hl.
  rewrite !walk_app, IH by lia. destruct (walk (tabs s) root p) as [g|] eqn:Hg; simpl; [|done].
  unfold entry_at. rewrite lookup_insert_ne; [done|]. symmetry. apply (Hn p); [lia | done].
Qed.

Lemma entry_at_insert_ne tb n z g i : g <> n -> entry_at (<[n := z]> tb) g i = entry_at tb g i.
Proof. intros Hne. unfold entry_at. by rewrite lookup_insert_ne. Qed.

Lemma wf_fresh s root n a' :
  pt_wf s root -> fa_alloc_frame (pt_alloc s) = Some (n, a') ->
  forall q f, (length q <= 3)%nat -> walk (tabs s) root q = Some f -> f <> n.
Proof.
  intros Hwf Ha q f Hl Hw ->. apply (wf_live _ _ Hwf q n Hl Hw).
  by destruct (fa_alloc_Some _ _ _ (wf_alloc _ _ Hwf) Ha) as (_ & ? & _).
Qed.

Lemma wf_add_fresh s root n a' :
  pt_wf s root -> fa_alloc_frame (pt_alloc s) = Some (n, a') ->
  let s1 := {| tabs := <[n := PageTable_zero]> (tabs s); pt_alloc := a' |} in
  pt_wf s1 root /\
  (forall p, (length p <= 4)%nat -> walk (tabs s1) root p = walk (tabs s) root p) /\
  (forall p i, (length p <= 3)%nat -> pentry (tabs s1) root p i = pentry (tabs s) root p i).
Proof.
  intros Hwf Ha s1. pose proof (wf_fresh _ _ _ _ Hwf Ha) as Hn.
  assert (forall p, (length p <= 4)%nat -> walk (tabs s1) root p = walk (tabs s) root p) as Hw.
  { intros p. by apply walk_insert_fresh. }
  destruct (fa_alloc_Some _ _ _ (wf_alloc _ _ Hwf) Ha) as (Hok & _ & Hfree & _).
  split_and!; [constructor | done |].
  - done.
  - intros p f Hl. rewrite Hw by lia. intros Hf. simpl. rewrite lookup_insert_ne.
    + by eapply wf_table.
    + symmetry. by apply (Hn p).
  - intros p q f Hp Hq. rewrite !Hw by lia. by apply wf_tree.
  - intros p f Hl. rewrite Hw by lia. intros Hf. simpl. rewrite Hfree.
    pose proof (wf_live _ _ Hwf p f Hl Hf). set_solver.
  - intros i e. simpl. rewrite entry_at_insert_ne by (by apply (Hn [] root); simpl; try lia).
    apply (wf_top _ _ Hwf).
  - intros p i Hl. unfold pentry. rewrite Hw by lia.
    destruct (walk (tabs s) root p) as [g|] eqn:Hg; simpl; [|done].
    by rewrite entry_at_insert_ne by (by apply (Hn p)).
Qed.

(** Linking a zeroed table [n] below a non-present entry. *)
Record link_pre s root pg g i n e : Prop := {
  lp_wf : pt_wf s root;
  lp_len : (length pg <= 2)%nat;
  lp_g : walk (tabs s) root pg = Some g;
  lp_i : (i < ENTRIES)%nat;
  lp_absent : pentry (tabs s) root pg i = None;
  lp_zero : tabs s !! n = Some PageTable_zero;
  lp_fresh : forall q f, (length q <= 3)%nat -> walk (tabs s) root q = Some f -> f <> n;
  lp_used : n ∉ fa_free (pt_alloc s);
  lp_present : is_present e = true;
  lp_huge : is_huge_page e = false;
  lp_frame : PageTableEntry_frame e = n
}.

Lemma entry_at_zero tb n j e :
  tb !! n = Some PageTable_zero -> entry_at tb n j = Some e -> is_present e = false.
Proof.
  intros Hz. unfold entry_at. rewrite Hz. simpl. unfold PageTable_zero.
  rewrite lookup_replicate. by intros [-> _].
Qed.

Lemma link_entry s root pg g i n e :
  link_pre s root pg g i n e -> entry_at (set_entry (tabs s) g i e) g i = Some e.
Proof.
  intros []. destruct (wf_table _ _ lp_wf0 pg g) as (t & Ht & Hl); [lia | done |].
  eapply entry_at_set_eq; [done | lia].
Qed.

(** Every walk after linking: an old walk, or the new table itself. *)
Lemma link_walk s root pg g i n e p :
  link_pre s root pg g i n e -> (length p <= 4)%nat ->
  walk (set_entry (tabs s) g i e) root p =
  if decide (p = pg ++ [i]) then Some n else walk (tabs s) root p.
Proof.
  intros Hlp Hl. pose proof Hlp as [].
  assert (g <> n) as Hgn by (apply (lp_fresh0 pg); [lia | done]).
  assert (walk (set_entry (tabs s) g i e) root pg = Some g) as Hg'.
  { rewrite (walk_set_frame s root pg g i e [] root pg); try done; simpl; try lia.
    intros Hpre%prefix_length. rewrite length_app in Hpre; simpl in Hpre. lia. }
  assert (walk (set_entry (tabs s) g i e) root (pg ++ [i]) = Some n) as Hn'.
  { rewrite walk_app, Hg'. simpl. rewrite (link_entry _ _ _ _ _ _ _ Hlp). simpl.
    by rewrite lp_present0, lp_huge0, lp_frame0. }
  destruct (decide (p = pg ++ [i])) as [->|Hne]; [done|].
  destruct (decide ((pg ++ [i]) `prefix_of` p)) as [[r ->]|Hnp].
  - destruct r as [|j r]; [by rewrite app_nil_r in Hne|].
    rewrite (walk_app (tabs s)), walk_snoc, lp_absent0. simpl.
    rewrite walk_app, Hn'. simpl. rewrite entry_at_set_ne by congruence.
    destruct (entry_at (tabs s) n j) as [e'|] eqn:He; simpl; [|done].
    by rewrite (entry_at_zero _ _ _ _ lp_zero0 He).
  - apply (walk_set_frame s root pg g i e [] root p); try done. lia.
Qed.

Lemma link_pentry s root pg g i n e p j :
  link_pre s root pg g i n e -> (length p <= 3)%nat ->
  pentry (set_entry (tabs s) g i e) root p j =
  if decide ((p, j) = (pg, i)) then Some e else pentry (tabs s) root p j.
Proof.
  intros Hlp Hl. pose proof Hlp as [].
  unfold pentry at 1. rewrite (link_walk _ _ _ _ _ _ _ _ Hlp) by lia.
  destruct (decide (p = pg ++ [i])) as [->|Hne]; simpl.
  - rewrite decide_False by (intros [= Hc _]; apply (f_equal length) in Hc; rewrite length_app in Hc; simpl in Hc; lia).
    unfold pentry. rewrite walk_snoc, lp_absent0. simpl.
    rewrite entry_at_set_ne by (intros [= Heq _]; by apply (lp_fresh0 pg g ltac:(lia) lp_g0)).
    destruct (entry_at (tabs s) n j) as [e'|] eqn:He; simpl; [|done].
    by rewrite (entry_at_zero _ _ _ _ lp_zero0 He).
  - destruct (decide ((p, j) = (pg, i))) as [[= -> ->]|Hne2].
    + rewrite lp_g0. simpl. rewrite (link_entry _ _ _ _ _ _ _ Hlp). simpl. by rewrite lp_present0.
    + unfold pentry. destruct (walk (tabs s) root p) as [h|] eqn:Hh; simpl; [|done].
      rewrite entry_at_set_ne; [done|]. intros [= -> ->]. apply Hne2. f_equal.
      apply (wf_tree _ _ lp_wf0 _ _ g); (done || lia).
Qed.

Lemma link_wf s root pg g i n e :
  link_pre s root pg g i n e ->
  pt_wf {| tabs := set_entry (tabs s) g i e; pt_alloc := pt_alloc s |} root.
Proof.
  intros Hlp. pose proof Hlp as [].
  assert (forall f t, tabs s !! f = Some t -> length t = ENTRIES ->
          exists t', set_entry (tabs s) g i e !! f = Some t' /\ length t' = ENTRIES) as Htab.
  { intros f t Hf Ht. unfold set_entry. destruct (decide (f = g)) as [->|].
    - rewrite lookup_alter_eq, Hf. eexists. split; [done|]. by rewrite length_insert.
    - rewrite lookup_alter_ne by done. eauto. }
  constructor; simpl.
  - apply lp_wf0.
  - intros p f Hl. rewrite (link_walk _ _ _ _ _ _ _ _ Hlp) by lia.
    destruct (decide _) as [_|_].
    + intros [= <-]. eapply Htab; [done | apply length_replicate].
    + intros Hf. destruct (wf_table _ _ lp_wf0 p f Hl Hf) as (t & ? & ?). eauto.
  - intros p q f Hp Hq. rewrite !(link_walk _ _ _ _ _ _ _ _ Hlp) by lia.
    destruct (decide (p = _)) as [->|], (decide (q = _)) as [->|]; [done | ..].
    + intros [= <-] Hc. by apply lp_fresh0 in Hc.
    + intros Hc [= <-]. by apply lp_fresh0 in Hc.
    + by apply (wf_tree _ _ lp_wf0).
  - intros p f Hl. rewrite (link_walk _ _ _ _ _ _ _ _ Hlp) by lia.
    destruct (decide _) as [_|_]; [by intros [= <-] | by apply (wf_live _ _ lp_wf0)].
  - intros j e'. destruct (decide ((root, j) = (g, i))) as [[= -> ->]|Hne].
    + rewrite (link_entry _ _ _ _ _ _ _ Hlp). by intros [= <-].
    + rewrite entry_at_set_ne by done. apply (wf_top _ _ lp_wf0).
Qed.

(** ** The operations on the tree view *)

Lemma read_table_entry s table index :
  0 <= index < 512 -> read_table s table index = expect (entry_at (tabs s) table (Z.to_nat index)).
Proof.
  intros Hi. unfold read_table, entry_at, PageTable_get.
  destruct (tabs s !! table); simpl; [|done].
  by rewrite (proj2 (Z.leb_gt 512 index)) by lia.
Qed.

Lemma write_table_set s table index e t :
  0 <= index < 512 -> tabs s !! table = Some t ->
  write_table s table index e =
  Done {| tabs := set_entry (tabs s) table (Z.to_nat index) e; pt_alloc := pt_alloc s |}.
Proof.
  intros Hi Ht. unfold write_table, PageTable_set. rewrite Ht. simpl.
  rewrite (proj2 (Z.leb_gt 512 index)) by lia. simpl. do 2 f_equal.
  unfold set_entry. symmetry. apply map_eq. intros k.
  destruct (decide (k = table)) as [->|]; [|by rewrite lookup_alter_ne, lookup_insert_ne].
  by rewrite lookup_alter_eq, lookup_insert_eq, Ht.
Qed.

Lemma entry_at_wf s root p g i :
  pt_wf s root -> (length p <= 3)%nat -> walk (tabs s) root p = Some g -> (i < ENTRIES)%nat ->
  is_Some (entry_at (tabs s) g i).
Proof.
  intros Hwf Hl Hg Hi. destruct (wf_table _ _ Hwf p g Hl Hg) as (t & Ht & Hlen).
  unfold entry_at. rewrite Ht. simpl. apply lookup_lt_is_Some. lia.
Qed.

Lemma table_flags_bits user : is_flags (table_flags user) /\
  Z.testbit (table_flags user) 0 = true /\ Z.testbit (table_flags user) 7 = false.
Proof.
  destruct user; (split_and!; [|done|done]); (split; [vm_compute; discriminate|]).
  all: intros i Hi Hn; unfold table_flags, with_user_accessible, with_writable, with_present,
    PRESENT, WRITABLE, USER_ACCESSIBLE, PageFlags_new; autorewrite with bits; bit_cases; done.
Qed.

Lemma table_entry_props user n :
  n mod 4096 = 0 -> 0 < n < 2 ^ 44 ->
  let e := PageTableEntry_new_page (PhysAddr_new n) (table_flags user) in
  PhysAddr_new n = n /\ is_present e = true /\ is_huge_page e = false /\ PageTableEntry_frame e = n.
Proof.
  intros Hn Hr e. destruct (table_flags_bits user) as (Hf & H1 & H7).
  assert (PhysAddr_new n = n) as Hp.
  { unfold PhysAddr_new. masks. rewrite Z.land_ones, Z.mod_small by lia. done. }
  unfold e. rewrite Hp. change 4096 with (2 ^ 12) in Hn.
  rewrite is_present_bit, is_huge_bit, !new_page_bits, H1, H7 by lia.
  split_and!; [done.. |]. rewrite frame_new_page, Hn, Z.mod_small by (done || lia). lia.
Qed.

(** What [ensure_next_table] promises its callers: the table below entry [i]
    of [pg] exists afterwards, the hierarchy is still well formed, and no other
    present entry has changed.  It panics only when the frame allocator is
    exhausted. *)
Definition ensure_post s root pg (i : nat) (r : outcome (Z * pt_state A)) : Prop :=
  match r with
  | Done (n, s') =>
      pt_wf s' root /\ walk (tabs s') root (pg ++ [i]) = Some n /\
      fa_free (pt_alloc s') ⊆ fa_free (pt_alloc s) /\
      (size (fa_free (pt_alloc s)) <= S (size (fa_free (pt_alloc s'))))%nat /\
      (forall p j, (length p <= 3)%nat -> (p, j) <> (pg, i) ->
         pentry (tabs s') root p j = pentry (tabs s) root p j) /\
      (pentry (tabs s) root pg i = None \/ s' = s)
  | Panic => fa_free (pt_alloc s) = ∅
  end.

Lemma ensure_next_table_spec s root pg g index user :
  pt_wf s root -> (length pg <= 2)%nat -> walk (tabs s) root pg = Some g -> 0 <= index < 512 ->
  (forall e, pentry (tabs s) root pg (Z.to_nat index) = Some e -> is_huge_page e = false) ->
  ensure_post s root pg (Z.to_nat index) (ensure_next_table s g index user).
Proof.
  intros Hwf Hl Hg Hi Hh. unfold ensure_next_table. rewrite read_table_entry by done.
  destruct (entry_at_wf s root pg g (Z.to_nat index) Hwf) as [e He]; [lia | done | unfold ENTRIES; lia |].
  rewrite He. simpl.
  assert (pentry (tabs s) root pg (Z.to_nat index) = if is_present e then Some e else None) as Hpe.
  { unfold pentry. rewrite Hg. simpl. by rewrite He. }
  destruct (is_present e) eqn:Hpres.
  - simpl. split_and!; try done; try lia; [|by right].
    rewrite walk_snoc, Hpe. simpl. by rewrite (Hh e Hpe).
  - destruct (fa_alloc_frame (pt_alloc s)) as [[n a']|] eqn:Ha; simpl.
    2:{ by apply fa_alloc_None; [apply Hwf|]. }
    destruct (fa_alloc_Some _ _ _ (wf_alloc _ _ Hwf) Ha) as (Hok & Hin & Hfree & Hal & Hr).
    destruct (table_entry_props user n Hal Hr) as (Hnew & Hep & Heh & Hef). rewrite Hnew in *.
    destruct (wf_add_fresh s root n a' Hwf Ha) as (Hwf1 & Hw1 & Hp1).
    set (s1 := {| tabs := <[n := PageTable_zero]> (tabs s); pt_alloc := a' |}) in *.
    set (e' := PageTableEntry_new_page n (table_flags user)) in *.
    assert (link_pre s1 root pg g (Z.to_nat index) n e') as Hlp.
    { constructor; try done.
      - by rewrite Hw1 by lia.
      - unfold ENTRIES. lia.
      - by rewrite Hp1 by lia.
      - apply lookup_insert_eq.
      - intros q f Hq. rewrite Hw1 by lia. by eapply wf_fresh.
      - simpl. rewrite Hfree. set_solver. }
    destruct (wf_table _ _ Hwf1 pg g) as (t & Ht & _); [lia | apply Hlp |].
    rewrite (write_table_set s1 g index e' t) by done. simpl. rewrite Hef.
    split_and!.
    + exact (link_wf _ _ _ _ _ _ _ Hlp).
    + rewrite (link_walk _ _ _ _ _ _ _ _ Hlp) by (rewrite length_app; simpl; lia).
      by rewrite decide_True.
    + rewrite Hfree. set_solver.
    + rewrite Hfree. rewrite size_difference by set_solver. rewrite size_singleton. lia.
    + intros p j Hlp' Hne. rewrite (link_pentry _ _ _ _ _ _ _ _ _ Hlp) by done.
      rewrite decide_False by done. by apply Hp1.
    + by left.
Qed.

(** ** Address translation on the tree view *)

Definition ix4 (v : Z) : nat := Z.to_nat (VirtAddr_pml4_index v).
Definition ix3 (v : Z) : nat := Z.to_nat (VirtAddr_pdpt_index v).
Definition ix2 (v : Z) : nat := Z.to_nat (VirtAddr_pd_index v).
Definition ix1 (v : Z) : nat := Z.to_nat (VirtAddr_pt_index v).

(** The abstract meaning of a hierarchy: the present entry that maps an
    address, with the address bits the page leaves untranslated. *)
Definition mapping (tb : gmap Z (list Z)) (root v : Z) : option (Z * Z) :=
  _ ← pentry tb root [] (ix4 v);
  e3 ← pentry tb root [ix4 v] (ix3 v);
  if is_huge_page e3 then Some (e3, Z.land v 0x3FFFFFFF) else
  e2 ← pentry tb root [ix4 v; ix3 v] (ix2 v);
  if is_huge_page e2 then Some (e2, Z.land v 0x1FFFFF) else
  e1 ← pentry tb root [ix4 v; ix3 v; ix2 v] (ix1 v);
  Some (e1, VirtAddr_page_offset v).

Lemma pentry_step tb root p g i e :
  walk tb root p = Some g -> entry_at tb g i = Some e ->
  pentry tb root p i = if is_present e then Some e else None.
Proof. intros Hg He. unfold pentry. rewrite Hg. simpl. by rewrite He. Qed.

(** One level of the walk: reading the entry is reading [pentry]. *)
Lemma read_level s root p g index :
  pt_wf s root -> (length p <= 3)%nat -> walk (tabs s) root p = Some g -> 0 <= index < 512 ->
  exists e, read_table s g index = Done e /\
    pentry (tabs s) root p (Z.to_nat index) = if is_present e then Some e else None.
Proof.
  intros Hwf Hl Hg Hi.
  destruct (entry_at_wf s root p g (Z.to_nat index) Hwf) as [e He]; [done | done | unfold ENTRIES; lia |].
  exists e. rewrite read_table_entry, He by done. split; [done | by eapply pentry_step].
Qed.

Lemma walk_next s root p i e :
  pentry (tabs s) root p i = Some e -> is_huge_page e = false ->
  walk (tabs s) root (p ++ [i]) = Some (PageTableEntry_frame e).
Proof. intros He Hh. rewrite walk_snoc, He. simpl. by rewrite Hh. Qed.

Lemma top_not_huge s root i e :
  pt_wf s root -> pentry (tabs s) root [] i = Some e -> is_huge_page e = false.
Proof.
  intros Hwf. unfold pentry. simpl. destruct (entry_at (tabs s) root i) as [e'|] eqn:He; simpl; [|done].
  destruct (is_present e') eqn:Hp; [|done]. intros [= <-]. by eapply wf_top.
Qed.

Lemma translate_mapping s root v :
  pt_wf s root ->
  translate s root v =
  Done (m ← mapping (tabs s) root v; Some (PhysAddr_add (PageTableEntry_frame m.1) m.2)).
Proof.
  intros Hwf. unfold translate, mapping, ix4, ix3, ix2, ix1.
  destruct (read_level s root [] root (VirtAddr_pml4_index v) Hwf) as (e4 & -> & H4);
    [simpl; lia | done | apply index_range |].
  rewrite H4. simpl. destruct (is_present e4); simpl; [|done].
  assert (is_huge_page e4 = false) as Hh4 by (by eapply top_not_huge).
  destruct (read_level s root [_] _ (VirtAddr_pdpt_index v) Hwf ltac:(simpl; lia)
    (walk_next _ _ _ _ _ H4 Hh4)) as (e3 & -> & H3); [apply index_range|].
  rewrite H3. simpl. destruct (is_present e3); simpl; [|done].
  destruct (is_huge_page e3) eqn:Hh3; simpl; [done|].
  destruct (read_level s root [_; _] _ (VirtAddr_pd_index v) Hwf ltac:(simpl; lia)
    (walk_next _ _ _ _ _ H3 Hh3)) as (e2 & -> & H2); [apply index_range|].
  rewrite H2. simpl. destruct (is_present e2); simpl; [|done].
  destruct (is_huge_page e2) eqn:Hh2; simpl; [done|].
  destruct (read_level s root [_; _; _] _ (VirtAddr_pt_index v) Hwf ltac:(simpl; lia)
    (walk_next _ _ _ _ _ H2 Hh2)) as (e1 & -> & H1); [apply index_range|].
  rewrite H1. simpl. by destruct (is_present e1).
Qed.

(** Adding an intermediate table changes no mapping. *)
Lemma pentry_absent_below tb root pg i p j :
  pentry tb root pg i = None -> (pg ++ [i]) `prefix_of` p -> pentry tb root p j = None.
Proof.
  intros Hn [r ->]. unfold pentry. by rewrite walk_app, walk_snoc, Hn.
Qed.

Lemma ensure_mapping s root pg i n s' v :
  (length pg <= 2)%nat -> ensure_post s root pg i (Done (n, s')) ->
  mapping (tabs s') root v = mapping (tabs s) root v.
Proof.
  intros Hl (Hwf' & Hw & _ & _ & Heq & [Habs | ->]); [|done].
  assert (forall p j, (length p <= 3)%nat -> (pg ++ [i]) `prefix_of` p -> pentry (tabs s') root p j = None) as Hbelow.
  { intros p j Hp Hpre. rewrite Heq; [by eapply pentry_absent_below | done |].
    intros [= -> ->]. apply prefix_length in Hpre. rewrite length_app in Hpre. simpl in Hpre. lia. }
  unfold mapping.
  destruct (decide (([], ix4 v) = (pg, i))) as [[= <- <-]|H4].
  { rewrite Habs. simpl. destruct (pentry (tabs s') root [] (ix4 v)); simpl; [|done].
    by rewrite (Hbelow [ix4 v] (ix3 v)) by first [by exists [] | simpl; lia]. }
  rewrite (Heq [] (ix4 v)) by (done || simpl; lia).
  destruct (pentry (tabs s) root [] (ix4 v)) as [e4|]; simpl; [|done].
  destruct (decide (([ix4 v], ix3 v) = (pg, i))) as [[= <- <-]|H3].
  { rewrite Habs. simpl. rewrite walk_snoc in Hw.
    destruct (pentry (tabs s') root [ix4 v] (ix3 v)) as [e3|]; simpl in *; [|done].
    destruct (is_huge_page e3); [done|]. by rewrite (Hbelow [ix4 v; ix3 v] (ix2 v)) by first [by exists [] | simpl; lia]. }
  rewrite (Heq [ix4 v] (ix3 v)) by (done || simpl; lia).
  destruct (pentry (tabs s) root [ix4 v] (ix3 v)) as [e3|]; simpl; [|done].
  destruct (is_huge_page e3); [done|].
  destruct (decide (([ix4 v; ix3 v], ix2 v) = (pg, i))) as [[= <- <-]|H2].
  { rewrite Habs. simpl. rewrite walk_snoc in Hw.
    destruct (pentry (tabs s') root [ix4 v; ix3 v] (ix2 v)) as [e2|]; simpl in *; [|done].
    destruct (is_huge_page e2); [done|]. by rewrite (Hbelow [ix4 v; ix3 v; ix2 v] (ix1 v)) by first [by exists [] | simpl; lia]. }
  rewrite (Heq [ix4 v; ix3 v] (ix2 v)) by (done || simpl; lia).
  destruct (pentry (tabs s) root [ix4 v; ix3 v] (ix2 v)) as [e2|]; simpl; [|done].
  destruct (is_huge_page e2); [done|].
  rewrite (Heq [ix4 v; ix3 v; ix2 v] (ix1 v)); [done | simpl; lia |].
  intros [= <- _]. simpl in Hl. lia.
Qed.

(** ** Mapping one page *)

(** No present entry on the way to the page table of [v] is a huge page. *)
Definition no_huge (tb : gmap Z (list Z)) (root v : Z) : Prop :=
  (forall e, pentry tb root [ix4 v] (ix3 v) = Some e -> is_huge_page e = false) /\
  (forall e, pentry tb root [ix4 v; ix3 v] (ix2 v) = Some e -> is_huge_page e = false).

(** The three [ensure_next_table] calls both mapping routines start with. *)
Definition ensure3 s (root v : Z) (user : bool) : outcome (Z * pt_state A) :=
  '(pdpt, s1) ← ensure_next_table s root (VirtAddr_pml4_index v) user;
  '(pd, s2) ← ensure_next_table s1 pdpt (VirtAddr_pdpt_index v) user;
  ensure_next_table s2 pd (VirtAddr_pd_index v) user.

Lemma map_page_ensure3 s root v phys flags :
  map_page s root v phys flags =
  '(pt, s') ← ensure3 s root v true;
  write_table s' pt (VirtAddr_pt_index v) (PageTableEntry_new_page phys flags).
Proof.
  unfold map_page, ensure3. destruct (ensure_next_table s root _ true) as [[pdpt s1]|]; simpl; [|done].
  by destruct (ensure_next_table s1 pdpt _ true) as [[pd s2]|].
Qed.

Lemma map_page_internal_ensure3 s root v phys flags :
  map_page_internal s root v phys flags =
  '(pt, s') ← ensure3 s root v false;
  write_table s' pt (VirtAddr_pt_index v) (PageTableEntry_new_page phys flags).
Proof.
  unfold map_page_internal, walk_to_pd, ensure3.
  destruct (ensure_next_table s root _ false) as [[pdpt s1]|]; simpl; [|done].
  by destruct (ensure_next_table s1 pdpt _ false) as [[pd s2]|].
Qed.

Lemma ensure3_spec s root v user :
  pt_wf s root -> no_huge (tabs s) root v ->
  match ensure3 s root v user with
  | Done (pt, s') => pt_wf s' root /\ walk (tabs s') root [ix4 v; ix3 v; ix2 v] = Some pt /\
      fa_free (pt_alloc s') ⊆ fa_free (pt_alloc s) /\
      forall w, mapping (tabs s') root w = mapping (tabs s) root w
  | Panic => (size (fa_free (pt_alloc s)) < 3)%nat
  end.
Proof.
  intros Hwf [Hh3 Hh2]. unfold ensure3.
  pose proof (ensure_next_table_spec s root [] root (VirtAddr_pml4_index v) user Hwf ltac:(simpl; lia)
    eq_refl (index_range _ _) ltac:(by intros e; apply top_not_huge)) as P1.
  destruct (ensure_next_table s root _ user) as [[pdpt s1]|]; simpl in P1 |- *.
  2:{ rewrite P1, size_empty. lia. }
  pose proof P1 as (Hwf1 & Hw1 & Hs1 & Hc1 & Heq1 & _). fold (ix4 v) in *.
  pose proof (ensure_next_table_spec s1 root [ix4 v] pdpt (VirtAddr_pdpt_index v) user Hwf1 ltac:(simpl; lia)
    Hw1 (index_range _ _) ltac:(intros e; rewrite Heq1 by (done || simpl; lia); apply Hh3)) as P2.
  destruct (ensure_next_table s1 pdpt _ user) as [[pd s2]|]; simpl in P2 |- *.
  2:{ rewrite P2, size_empty in Hc1. lia. }
  pose proof P2 as (Hwf2 & Hw2 & Hs2 & Hc2 & Heq2 & _). fold (ix3 v) in *.
  pose proof (ensure_next_table_spec s2 root [ix4 v; ix3 v] pd (VirtAddr_pd_index v) user Hwf2 ltac:(simpl; lia)
    Hw2 (index_range _ _) ltac:(intros e; rewrite Heq2, Heq1 by (done || simpl; lia); apply Hh2)) as P3.
  destruct (ensure_next_table s2 pd _ user) as [[pt s3]|]; simpl in P3 |- *.
  2:{ rewrite P3, size_empty in Hc2. lia. }
  pose proof P3 as (Hwf3 & Hw3 & Hs3 & _). fold (ix2 v) in *.
  split_and!; [done | done | set_solver |].
  intros w. rewrite (ensure_mapping s2 root [ix4 v; ix3 v] (ix2 v) pt s3 w ltac:(simpl; lia) P3).
  rewrite (ensure_mapping s1 root [ix4 v] (ix3 v) pd s2 w ltac:(simpl; lia) P2).
  apply (ensure_mapping s root [] (ix4 v) pdpt s1 w ltac:(simpl; lia) P1).
Qed.

(** Writing a leaf: the last-level table at [pg] gets entry [e]. *)
Lemma leaf_set s root pg g i e :
  pt_wf s root -> length pg = 3%nat -> walk (tabs s) root pg = Some g -> (i < ENTRIES)%nat ->
  let s' := {| tabs := set_entry (tabs s) g i e; pt_alloc := pt_alloc s |} in
  pt_wf s' root /\
  forall p j, (length p <= 3)%nat -> pentry (tabs s') root p j =
    if decide ((p, j) = (pg, i)) then (if is_present e then Some e else None)
    else pentry (tabs s) root p j.
Proof.
  intros Hwf Hl Hg Hi s'.
  assert (forall p, (length p <= 3)%nat -> ~ (pg ++ [i]) `prefix_of` p) as Hnp.
  { intros p Hp Hpre%prefix_length. rewrite length_app in Hpre; simpl in Hpre. lia. }
  assert (forall p, (length p <= 3)%nat -> walk (tabs s') root p = walk (tabs s) root p) as Hw.
  { intros p Hp. apply (walk_set_frame s root pg g i e [] root p); try done; [lia | simpl; lia | by apply Hnp]. }
  assert (g <> root) as Hgr.
  { intros ->. pose proof (wf_tree _ _ Hwf pg [] root ltac:(lia) ltac:(simpl; lia) Hg eq_refl). by subst. }
  split; [constructor; simpl|].
  - apply Hwf.
  - intros p f Hp Hf. rewrite Hw in Hf by done.
    destruct (wf_table _ _ Hwf p f Hp Hf) as (t & Ht & Hlt). unfold set_entry.
    destruct (decide (f = g)) as [->|].
    + rewrite lookup_alter_eq, Ht. eexists. split; [done|]. by rewrite length_insert.
    + rewrite lookup_alter_ne by done. eauto.
  - intros p q f Hp Hq. rewrite !Hw by done. by apply wf_tree.
  - intros p f Hp. rewrite Hw by done. by apply wf_live.
  - intros j e'. rewrite entry_at_set_ne by congruence. apply (wf_top _ _ Hwf).
  - intros p j Hp. destruct (decide ((p, j) = (pg, i))) as [[= -> ->]|Hne].
    + destruct (wf_table _ _ Hwf pg g ltac:(lia) Hg) as (t & Ht & Hlt).
      unfold pentry. rewrite Hw by done. rewrite Hg. simpl.
      rewrite (entry_at_set_eq (tabs s) g i e t) by (done || lia). done.
    + apply (pentry_set_frame s root pg g i e p j); try done; [lia | by apply Hnp].
Qed.

(** The 4 KiB page number of an address, within the 48 translated bits. *)
Definition vpage (v : Z) : Z := v mod 2 ^ 48 / 2 ^ 12.

Lemma index_vpage v n : 12 <= n <= 39 ->
  Z.land (Z.shiftr v n) 0x1FF = Z.land (Z.shiftr (vpage v) (n - 12)) 0x1FF.
Proof.
  intros Hn. unfold vpage. rewrite <- (Z.shiftr_div_pow2 _ 12) by lia. masks.
  bitwise. f_equal. lia.
Qed.

Lemma vpage_path v w :
  vpage v = vpage w <-> (ix4 v = ix4 w /\ ix3 v = ix3 w /\ ix2 v = ix2 w /\ ix1 v = ix1 w).
Proof.
  unfold ix4, ix3, ix2, ix1. split.
  - intros Hp. unfold VirtAddr_pml4_index, VirtAddr_pdpt_index, VirtAddr_pd_index, VirtAddr_pt_index.
    rewrite !(index_vpage v), !(index_vpage w), Hp by lia. done.
  - intros (H4 & H3 & H2 & H1).
    apply Z2Nat.inj in H4, H3, H2, H1; try apply index_range.
    pose proof (virt_of_indices_page v) as Hv. pose proof (virt_of_indices_page w) as Hw.
    rewrite H4, H3, H2, H1, Hw in Hv. unfold vpage. Z.div_mod_to_equations. lia.
Qed.

Lemma write_leaf_mapping s root v pt e :
  pt_wf s root -> walk (tabs s) root [ix4 v; ix3 v; ix2 v] = Some pt -> is_present e = true ->
  exists s', write_table s pt (VirtAddr_pt_index v) e = Done s' /\ pt_wf s' root /\
    pt_alloc s' = pt_alloc s /\
    forall w, mapping (tabs s') root w =
      if decide (vpage w = vpage v) then Some (e, VirtAddr_page_offset w) else mapping (tabs s) root w.
Proof.
  intros Hwf Hw He.
  destruct (wf_table _ _ Hwf [ix4 v; ix3 v; ix2 v] pt ltac:(simpl; lia) Hw) as (t & Ht & _).
  rewrite (write_table_set s pt (VirtAddr_pt_index v) e t (index_range v 12) Ht). fold (ix1 v).
  destruct (leaf_set s root [ix4 v; ix3 v; ix2 v] pt (ix1 v) e Hwf eq_refl Hw) as [Hwf' Hpe].
  { unfold ix1, ENTRIES. pose proof (index_range v 12). unfold VirtAddr_pt_index. lia. }
  eexists. split; [done|]. split; [exact Hwf'|]. split; [done|]. intros w. cbn [tabs] in Hpe |- *.
  rewrite He in Hpe. unfold mapping.
  assert (forall p j, (length p <= 2)%nat ->
    pentry (set_entry (tabs s) pt (ix1 v) e) root p j = pentry (tabs s) root p j) as Hshort.
  { intros p j Hp. rewrite Hpe by lia. rewrite decide_False; [done|]. intros [= -> _]. simpl in Hp. lia. }
  rewrite (Hshort []), (Hshort [_]), (Hshort [_; _]), Hpe by (simpl; lia).
  destruct (decide (vpage w = vpage v)) as [Heq|Hne].
  - apply vpage_path in Heq as (-> & -> & -> & ->). rewrite decide_True by done.
    assert (exists e4 e3 e2, pentry (tabs s) root [] (ix4 v) = Some e4 /\
      pentry (tabs s) root [ix4 v] (ix3 v) = Some e3 /\ is_huge_page e3 = false /\
      pentry (tabs s) root [ix4 v; ix3 v] (ix2 v) = Some e2 /\ is_huge_page e2 = false)
      as (e4 & e3 & e2 & -> & -> & Hh3 & -> & Hh2); [|simpl; by rewrite Hh3; simpl; rewrite Hh2].
    change [ix4 v; ix3 v; ix2 v] with ([ix4 v; ix3 v] ++ [ix2 v]) in Hw. rewrite walk_snoc in Hw.
    destruct (pentry (tabs s) root [ix4 v; ix3 v] (ix2 v)) as [e2|] eqn:He2; simpl in Hw; [|done].
    destruct (is_huge_page e2) eqn:Hh2; [done|].
    unfold pentry in He2. change [ix4 v; ix3 v] with ([ix4 v] ++ [ix3 v]) in He2. rewrite walk_snoc in He2.
    destruct (pentry (tabs s) root [ix4 v] (ix3 v)) as [e3|] eqn:He3; simpl in He2; [|done].
    destruct (is_huge_page e3) eqn:Hh3; [done|].
    unfold pentry in He3. change [ix4 v] with ([] ++ [ix4 v]) in He3. rewrite walk_snoc in He3.
    destruct (pentry (tabs s) root [] (ix4 v)) as [e4|] eqn:He4; simpl in He3; [|done]. eauto 10.
  - rewrite decide_False; [done|]. intros [= H4 H3 H2 H1]. apply Hne. by apply vpage_path.
Qed.

(** A hierarchy whose root is a zeroed table maps nothing and is well formed:
    the state in which [PageTableBuilder::new] leaves a fresh root. *)
Lemma pt_wf_new s root :
  fa_ok (pt_alloc s) -> root ∉ fa_free (pt_alloc s) -> tabs s !! root = Some PageTable_zero ->
  pt_wf s root /\ forall v, mapping (tabs s) root v = None /\ no_huge (tabs s) root v.
Proof.
  intros Ha Hr Hz.
  assert (forall p f, walk (tabs s) root p = Some f -> p = [] /\ f = root) as Hw.
  { intros [|i p] f; simpl; [by intros [= <-]|].
    destruct (entry_at (tabs s) root i) as [e|] eqn:He; simpl; [|done].
    by rewrite (entry_at_zero _ _ _ _ Hz He). }
  split; [constructor|]; try done.
  - intros p f _ [-> ->]%Hw. eexists. split; [done | apply length_replicate].
  - intros p q f _ _ [-> ->]%Hw [-> _]%Hw. done.
  - by intros p f _ [-> ->]%Hw.
  - intros i e He. by rewrite (entry_at_zero _ _ _ _ Hz He).
  - intros v. assert (pentry (tabs s) root [] (ix4 v) = None) as Hn.
    { unfold pentry. simpl. destruct (entry_at (tabs s) root (ix4 v)) as [e|] eqn:He; simpl; [|done].
      by rewrite (entry_at_zero _ _ _ _ Hz He). }
    split; [unfold mapping; by rewrite Hn|].
    split; intros e; rewrite (pentry_absent_below _ _ [] (ix4 v) _ _ Hn); try done.
    by exists [ix3 v].
Qed.

Lemma add_page_offset ph v :
  0 <= ph < 2 ^ 48 -> PhysAddr_add ph (VirtAddr_page_offset v) = ph + v mod 4096.
Proof.
  intros Hp. unfold PhysAddr_add, PhysAddr_new, VirtAddr_page_offset. masks.
  rewrite !Z.land_ones by lia. change (2 ^ 12) with 4096.
  pose proof (Z.mod_pos_bound v 4096 ltac:(lia)).
  rewrite wrap64_small by (unfold is_u64; lia). apply Z.mod_small. lia.
Qed.

(** Both mapping routines, given the tables they have built. *)
Lemma map_via_ensure3 s root v phys flags user :
  pt_wf s root -> no_huge (tabs s) root v ->
  0 <= phys < 2 ^ 48 -> phys mod 4096 = 0 -> is_flags flags -> Z.testbit flags 0 = true ->
  let r := '(pt, s') ← ensure3 s root v user;
           write_table s' pt (VirtAddr_pt_index v) (PageTableEntry_new_page phys flags) in
  match r with
  | Done s' => pt_wf s' root /\ forall w, translate s' root w =
      if decide (vpage w = vpage v) then Done (Some (phys + w mod 4096)) else translate s root w
  | Panic => (size (fa_free (pt_alloc s)) < 3)%nat
  end.
Proof.
  intros Hwf Hh Hp Ha Hf Hpr r. pose proof (ensure3_spec s root v user Hwf Hh) as H3.
  unfold r. destruct (ensure3 s root v user) as [[pt s1]|]; simpl; [|done].
  destruct H3 as (Hwf1 & Hw & _ & Hm).
  destruct (write_leaf_mapping s1 root v pt (PageTableEntry_new_page phys flags) Hwf1 Hw)
    as (s' & -> & Hwf' & _ & Hm').
  { by rewrite is_present_bit, new_page_bits, Hpr by lia. }
  split; [done|]. intros w. rewrite !translate_mapping, Hm', Hm by done.
  destruct (decide (vpage w = vpage v)); [|done]. simpl. do 2 f_equal.
  rewrite frame_new_page by done. change (2 ^ 12) with 4096. rewrite Ha, Z.mod_small by done.
  rewrite Z.sub_0_r. by apply add_page_offset.
Qed.

(** C4: mapping a page in a well-formed address space: afterwards the
    four-level walk translates every address of that page to the frame plus
    the page offset, translates every other address exactly as before, and the
    hierarchy is still well formed; the only failure is running out of frames
    for the at most three new tables. *)
Theorem map_page_correct s root virt phys flags :
  pt_wf s root -> no_huge (tabs s) root virt ->
  0 <= phys < 2 ^ 48 -> phys mod 4096 = 0 -> is_flags flags -> Z.testbit flags 0 = true ->
  match map_page s root virt phys flags with
  | Done s' => pt_wf s' root /\ forall w, translate s' root w =
      if decide (vpage w = vpage virt) then Done (Some (phys + w mod 4096)) else translate s root w
  | Panic => (size (fa_free (pt_alloc s)) < 3)%nat
  end.
Proof. intros. rewrite map_page_ensure3. by apply map_via_ensure3. Qed.
End tree.

(** A fresh root at 0x1000 with seven frames left. *)
Definition demo_state : pt_state BumpAllocator :=
  {| tabs := {[ 0x1000 := PageTable_zero ]}; pt_alloc := {| bump_n := 9; bump_next := 2 |} |}.

Lemma demo_wf :
  pt_wf demo_state 0x1000 /\
  forall v, mapping (tabs demo_state) 0x1000 v = None /\ no_huge (tabs demo_state) 0x1000 v.
Proof.
  apply pt_wf_new; [split; simpl; lia | | done].
  simpl. rewrite elem_of_bump_free. simpl. intros (k & Hk & ?). lia.
Qed.

Definition demo_flags : Z := with_user_accessible (with_writable (with_present PageFlags_new)).

Lemma map_page_correct_witness :
  match map_page demo_state 0x1000 0x400000 0x7000 demo_flags with
  | Done s' => translate s' 0x1000 0x400123 = Done (Some 0x7123)
  | Panic => False
  end.
Proof.
  pose proof (map_page_correct demo_state 0x1000 0x400000 0x7000 demo_flags (proj1 demo_wf)
    (proj2 (proj2 demo_wf 0x400000)) ltac:(lia) eq_refl (proj1 (table_flags_bits true)) eq_refl) as Hm.
  destruct (map_page demo_state 0x1000 0x400000 0x7000 demo_flags) as [s'|] eqn:E.
  - destruct Hm as [_ Ht]. rewrite (Ht 0x400123). reflexivity.
  - vm_compute in E. discriminate E.
Defined.
