(* ===== verification/Buddy.v ===== *)
(** * The NUMA buddy frame allocator (crates/memory/src/buddy.rs)

    Free blocks are linked through headers stored in the blocks themselves;
    [fmem] is that part of physical memory.  A list head packs the frame number
    of the first block with a 16-bit generation tag.  The allocator is only
    reached through the [SpinLock] of crates/memory/src/lib.rs, so each
    compare-exchange loop succeeds on its first round and is modelled by one
    round. *)

From Stdlib Require Import ZArith Lia.
From stdpp Require Import prelude gmap list.
From S2P Require Import Prelude Paging Frames.

Local Open Scope Z_scope.

Definition MAX_ORDER : Z := 10.
Definition PAGE_SIZE : Z := 4096.
Definition MAX_NUMA_NODES : nat := 8.
Definition LOW_4G_LIMIT : Z := 0x100000000.
Definition MAX_LOW_FRAME_TRIES : nat := 256.
Definition MAX_PLAUSIBLE_PHYS : Z := 2 ^ 44.

(** ** Free lists *)

Record FreeFrame := { next_phys : Z; generation : Z }.

Abbreviation fmem := (gmap Z FreeFrame).

Definition FreeList_pack (frame_num tag : Z) : Z := Z.lor (shl64 frame_num 16) (Z.land tag 0xFFFF).

Definition FreeList_unpack (packed : Z) : Z * Z := (Z.shiftr packed 16, Z.land packed 0xFFFF).

Definition FreeList_push (head : Z) (mem : fmem) (frame : Z) : outcome (Z * fmem) :=
  assert_ ((frame <? MAX_PLAUSIBLE_PHYS) && (Z.land frame 0xFFF =? 0)) ;;
  let '(head_frame, tag) := FreeList_unpack head in
  let mem' := <[frame := {| next_phys := shl64 head_frame 12; generation := tag |}]> mem in
  Done (FreeList_pack (Z.shiftr frame 12) (wrap64 (tag + 1)), mem').

Definition FreeList_pop (head : Z) (mem : fmem) : outcome (option (Z * Z)) :=
  let '(head_frame, tag) := FreeList_unpack head in
  if head_frame =? 0 then Done None else
  let frame := shl64 head_frame 12 in
  assert_ (frame <? MAX_PLAUSIBLE_PHYS) ;;
  hdr ← expect (mem !! frame);
  assert_ ((next_phys hdr <? MAX_PLAUSIBLE_PHYS) && (Z.land (next_phys hdr) 0xFFF =? 0)) ;;
  Done (Some (frame, FreeList_pack (Z.shiftr (next_phys hdr) 12) (wrap64 (tag + 1)))).

(** ** One NUMA node *)

Record BuddyNode := {
  free_lists : list Z;
  base : Z;
  size_ : Z;
  free_count : Z;
  node_id : Z
}.

Definition BuddyNode_new (id : Z) : BuddyNode :=
  {| free_lists := replicate 11 0; base := 0; size_ := 0; free_count := 0; node_id := id |}.

Definition set_lists (n : BuddyNode) (ls : list Z) : BuddyNode :=
  {| free_lists := ls; base := base n; size_ := size_ n; free_count := free_count n;
     node_id := node_id n |}.

Definition set_free (n : BuddyNode) (c : Z) : BuddyNode :=
  {| free_lists := free_lists n; base := base n; size_ := size_ n; free_count := c;
     node_id := node_id n |}.

Definition push_order (n : BuddyNode) (mem : fmem) (order : nat) (frame : Z) :
    outcome (BuddyNode * fmem) :=
  head ← expect (free_lists n !! order);
  '(head', mem') ← FreeList_push head mem frame;
  Done (set_lists n (<[order := head']> (free_lists n)), mem').

(** [for split_order in (order..source_order).rev()]: the loop runs with
    [split_order] from [order + k - 1] down to [order]. *)
Fixpoint split_down (n : BuddyNode) (mem : fmem) (frame : Z) (order k : nat) :
    outcome (BuddyNode * fmem) :=
  match k with
  | O => Done (n, mem)
  | S k' =>
      let split_order := (order + k')%nat in
      let buddy := wrap64 (frame + shl64 1 (Z.of_nat split_order + 12)) in
      '(n', mem') ← push_order n mem split_order buddy;
      split_down n' mem' frame order k'
  end.

(** The search for the smallest available order: [k] orders are left to try
    from [source_order] on. *)
Fixpoint alloc_search (n : BuddyNode) (mem : fmem) (order source_order k : nat) :
    outcome (option (Z * (BuddyNode * fmem))) :=
  match k with
  | O => Done None
  | S k' =>
      head ← expect (free_lists n !! source_order);
      r ← FreeList_pop head mem;
      match r with
      | Some (frame, head') =>
          let n1 := set_lists n (<[source_order := head']> (free_lists n)) in
          '(n2, mem2) ← split_down n1 mem frame order (source_order - order);
          let n3 := set_free n2 (wrap64 (free_count n2 - shl64 1 (Z.of_nat order))) in
          Done (Some (frame, (n3, mem2)))
      | None => alloc_search n mem order (S source_order) k'
      end
  end.

Definition BuddyNode_alloc_order (n : BuddyNode) (mem : fmem) (order : Z) :
    outcome (option (Z * (BuddyNode * fmem))) :=
  if MAX_ORDER <? order then Done None
  else alloc_search n mem (Z.to_nat order) (Z.to_nat order) (Z.to_nat (MAX_ORDER + 1 - order)).

(** The merge loop.  The source looks for the buddy with a constant [false],
    so the merging branch is never taken; the fuel bounds it by the number of
    orders. *)
Fixpoint free_loop (fuel : nat) (n : BuddyNode) (mem : fmem) (current_frame current_order : Z) :
    outcome (BuddyNode * fmem) :=
  match fuel with
  | O => Panic
  | S fuel' =>
      let buddy_addr := Z.lxor current_frame (shl64 1 (current_order + 12)) in
      let buddy_in_list := false in
      if buddy_in_list && (current_order <? MAX_ORDER) then
        let merged_frame := if current_frame <? buddy_addr then current_frame else buddy_addr in
        free_loop fuel' n mem merged_frame (current_order + 1)
      else
        '(n', mem') ← push_order n mem (Z.to_nat current_order) current_frame;
        Done (set_free n' (wrap64 (free_count n' + shl64 1 current_order)), mem')
  end.

Definition BuddyNode_free_order (n : BuddyNode) (mem : fmem) (frame order : Z) :
    outcome (BuddyNode * fmem) :=
  if MAX_ORDER <? order then Done (n, mem) else free_loop 11 n mem frame order.

(** ** All nodes: construction from the memory map *)

Record NumaBuddy := {
  nodes : list (option BuddyNode);
  node_count : Z;
  direct_map_base : Z
}.

Definition NumaBuddy_new_uninit : NumaBuddy :=
  {| nodes := replicate MAX_NUMA_NODES None; node_count := 0;
     direct_map_base := 0xFFFF800000000000 |}.

Record ExclusionSet := {
  bump_consumed : Z * Z;
  kernel_phys_range : Z * Z;
  extra_reserved : list (Z * Z)
}.

Record LimineMemmapEntry := { mm_base : Z; mm_length : Z; mm_type : Z }.

Definition exclusion_overlap (start end_ : Z) (reserved : Z * Z) : option (Z * Z) :=
  let reserved_start := Z.max reserved.1 start in
  let reserved_end := Z.min reserved.2 end_ in
  if reserved_start <? reserved_end then Some (reserved_start, reserved_end) else None.

Fixpoint reserved_overlap (start end_ : Z) (rs : list (Z * Z)) : option (Z * Z) :=
  match rs with
  | [] => None
  | r :: rs' =>
      match exclusion_overlap start end_ r with
      | Some o => Some o
      | None => reserved_overlap start end_ rs'
      end
  end.

Definition first_exclusion_overlap (start end_ : Z) (ex : ExclusionSet) : option (Z * Z) :=
  match exclusion_overlap start end_ (bump_consumed ex) with
  | Some o => Some o
  | None =>
      match exclusion_overlap start end_ (kernel_phys_range ex) with
      | Some o => Some o
      | None => reserved_overlap start end_ (extra_reserved ex)
      end
  end.

(** [while order > 0]: the largest order, at most [order], whose block fits in
    the rest of the region and is naturally aligned at [paddr]. *)
Fixpoint region_order (paddr remaining : Z) (order : nat) : nat :=
  match order with
  | O => O
  | S order' =>
      let size := shl64 1 (Z.of_nat order + 12) in
      if (size <=? remaining) && (paddr mod size =? 0) then order
      else region_order paddr remaining order'
  end.

(** [while paddr < end]: each round consumes at least one frame. *)
Fixpoint region_loop (fuel : nat) (n : BuddyNode) (mem : fmem) (paddr end_ : Z) :
    outcome (BuddyNode * fmem) :=
  if paddr <? end_ then
    match fuel with
    | O => Panic
    | S fuel' =>
        let order := region_order paddr (end_ - paddr) (Z.to_nat MAX_ORDER) in
        '(n', mem') ← push_order n mem order paddr;
        region_loop fuel' n' mem' (wrap64 (paddr + shl64 1 (Z.of_nat order + 12))) end_
    end
  else Done (n, mem).

Definition add_region (b : NumaBuddy) (mem : fmem) (id : nat) (base_ frames : Z) :
    outcome (NumaBuddy * fmem) :=
  slot ← expect (nodes b !! id);
  let '(node, count) :=
    match slot with
    | Some n => (n, node_count b)
    | None => (BuddyNode_new (Z.of_nat id), wrap64 (node_count b + 1))
    end in
  let node1 :=
    {| free_lists := free_lists node;
       base := if (size_ node =? 0) || (base_ <? base node) then base_ else base node;
       size_ := wrap64 (size_ node + frames);
       free_count := wrap64 (free_count node + frames);
       node_id := node_id node |} in
  '(node2, mem') ← region_loop (Z.to_nat frames) node1 mem base_ (wrap64 (base_ + frames * PAGE_SIZE));
  Done ({| nodes := <[id := Some node2]> (nodes b); node_count := count;
           direct_map_base := direct_map_base b |}, mem').

Fixpoint add_region_excluding (fuel : nat) (b : NumaBuddy) (mem : fmem) (id : nat)
    (start end_ : Z) (ex : ExclusionSet) : outcome (NumaBuddy * fmem) :=
  match fuel with
  | O => Panic
  | S fuel' =>
      if end_ <=? start then Done (b, mem) else
      match first_exclusion_overlap start end_ ex with
      | Some (reserved_start, reserved_end) =>
          '(b1, mem1) ←
            (if start <? reserved_start
             then add_region_excluding fuel' b mem id start reserved_start ex
             else Done (b, mem));
          if reserved_end <? end_
          then add_region_excluding fuel' b1 mem1 id reserved_end end_ ex
          else Done (b1, mem1)
      | None =>
          let aligned_base := Z.land (wrap64 (wrap64 (start + PAGE_SIZE) - 1)) (not64 (PAGE_SIZE - 1)) in
          let aligned_end := Z.land end_ (not64 (PAGE_SIZE - 1)) in
          if aligned_end <=? aligned_base then Done (b, mem)
          else add_region b mem id aligned_base ((aligned_end - aligned_base) / PAGE_SIZE)
      end
  end.

(** One level of recursion per exclusion is enough (see [excl_fuel_enough]). *)
Definition excl_fuel (ex : ExclusionSet) : nat := S (S (S (length (extra_reserved ex)))).

Fixpoint init_entries (b : NumaBuddy) (mem : fmem) (memmap : list LimineMemmapEntry)
    (ex : ExclusionSet) : outcome (NumaBuddy * fmem) :=
  match memmap with
  | [] => Done (b, mem)
  | e :: rest =>
      if negb (mm_type e =? 0) then init_entries b mem rest ex
      else if mm_length e =? 0 then init_entries b mem rest ex
      else
        '(b', mem') ← add_region_excluding (excl_fuel ex) b mem 0 (mm_base e)
                        (wrap64 (mm_base e + mm_length e)) ex;
        init_entries b' mem' rest ex
  end.

Definition NumaBuddy_init (b : NumaBuddy) (mem : fmem) (memmap : list LimineMemmapEntry)
    (bump kernel : Z * Z) (extra : list (Z * Z)) (dmap : Z) : outcome (NumaBuddy * fmem) :=
  let b0 := {| nodes := nodes b; node_count := node_count b; direct_map_base := dmap |} in
  init_entries b0 mem memmap
    {| bump_consumed := bump; kernel_phys_range := kernel; extra_reserved := extra |}.

(** ** The [FrameAllocator] operations: node 0 serves every request *)

Definition set_node0 (b : NumaBuddy) (n : BuddyNode) : NumaBuddy :=
  {| nodes := <[0%nat := Some n]> (nodes b); node_count := node_count b;
     direct_map_base := direct_map_base b |}.

Definition NumaBuddy_alloc_order (b : NumaBuddy) (mem : fmem) (order : Z) :
    outcome (option (Z * (NumaBuddy * fmem))) :=
  slot ← expect (nodes b !! 0%nat);
  match slot with
  | None => Done None
  | Some n =>
      r ← BuddyNode_alloc_order n mem order;
      match r with
      | None => Done None
      | Some (f, (n', mem')) => Done (Some (f, (set_node0 b n', mem')))
      end
  end.

Definition NumaBuddy_alloc_frame (b : NumaBuddy) (mem : fmem) :
    outcome (option (Z * (NumaBuddy * fmem))) := NumaBuddy_alloc_order b mem 0.

Definition NumaBuddy_free_frame (b : NumaBuddy) (mem : fmem) (frame : Z) :
    outcome (NumaBuddy * fmem) :=
  slot ← expect (nodes b !! 0%nat);
  n ← expect slot;
  '(n', mem') ← BuddyNode_free_order n mem frame 0;
  Done (set_node0 b n', mem').

(** [alloc_frame_below_4g]: frames at or above 4 GiB are set aside, at most 256
    of them, and given back at the end. *)
Fixpoint low_tries (k : nat) (b : NumaBuddy) (mem : fmem) (rejected : list Z) :
    outcome (option Z * list Z * (NumaBuddy * fmem)) :=
  match k with
  | O => Done (None, rejected, (b, mem))
  | S k' =>
      r ← NumaBuddy_alloc_frame b mem;
      match r with
      | None => Done (None, rejected, (b, mem))
      | Some (f, (b', mem')) =>
          if f <? LOW_4G_LIMIT then Done (Some f, rejected, (b', mem'))
          else low_tries k' b' mem' (rejected ++ [f])
      end
  end.

Fixpoint free_all (b : NumaBuddy) (mem : fmem) (fs : list Z) : outcome (NumaBuddy * fmem) :=
  match fs with
  | [] => Done (b, mem)
  | f :: fs' => '(b', mem') ← NumaBuddy_free_frame b mem f; free_all b' mem' fs'
  end.

Definition NumaBuddy_alloc_frame_below_4g (b : NumaBuddy) (mem : fmem) :
    outcome (option Z * (NumaBuddy * fmem)) :=
  '(result, rejected, (b1, mem1)) ← low_tries MAX_LOW_FRAME_TRIES b mem [];
  '(b2, mem2) ← free_all b1 mem1 rejected;
  Done (result, (b2, mem2)).
