(* ===== verification/BuddySpec.v ===== *)
(** * Correctness of the buddy allocator

    The abstract state of a node is the list, per order, of the addresses of
    its free blocks; [nrep] relates it to the packed heads and the in-memory
    links.  Every operation is then described by what it does to the multiset
    of free frames. *)

From Stdlib Require Import ZArith Lia.
From stdpp Require Import prelude gmap list.
From S2P Require Import Prelude Paging Frames Buddy.

Local Open Scope Z_scope.

(** ** Blocks and the frames they cover *)

Definition block_size (k : nat) : Z := 2 ^ (Z.of_nat k + 12).

Definition block_ok (k : nat) (b : Z) : Prop :=
  0 < b /\ b mod block_size k = 0 /\ b + block_size k <= 2 ^ 44.

Definition block_frames (k : nat) (b : Z) : list Z :=
  (fun j => b + j * 4096) <$> seqZ 0 (2 ^ Z.of_nat k).

Fixpoint frames_from (k : nat) (ls : list (list Z)) : list Z :=
  match ls with
  | [] => []
  | l :: ls' => mjoin (block_frames k <$> l) ++ frames_from (S k) ls'
  end.

(** All frames covered by the free blocks of a node. *)
Abbreviation frames := (frames_from 0).

Lemma block_size_pos k : 0 < block_size k.
Proof. unfold block_size. lia. Qed.

Lemma block_size_S k : block_size (S k) = 2 * block_size k.
Proof.
  unfold block_size. replace (Z.of_nat (S k) + 12) with (Z.succ (Z.of_nat k + 12)) by lia.
  apply Z.pow_succ_r. lia.
Qed.

Lemma block_size_frames k : block_size k = 2 ^ Z.of_nat k * 4096.
Proof. unfold block_size. rewrite Z.pow_add_r by lia. lia. Qed.

Lemma shl64_block k : (k <= 10)%nat -> shl64 1 (Z.of_nat k + 12) = block_size k.
Proof.
  intros Hk. unfold shl64, block_size. rewrite Z.shiftl_mul_pow2, Z.mul_1_l by lia.
  apply wrap64_small. unfold is_u64. split; [lia|]. apply Z.pow_lt_mono_r; lia.
Qed.

Lemma elem_of_block_frames k b f :
  f ∈ block_frames k b <-> exists j, f = b + j * 4096 /\ 0 <= j < 2 ^ Z.of_nat k.
Proof.
  unfold block_frames. rewrite list_elem_of_fmap. setoid_rewrite elem_of_seqZ. naive_solver lia.
Qed.

Lemma block_frames_self k b : b ∈ block_frames k b.
Proof. apply elem_of_block_frames. exists 0. lia. Qed.

Lemma block_frames_0 b : block_frames 0 b = [b].
Proof. unfold block_frames. simpl. f_equal. lia. Qed.

(** Splitting a block gives two blocks of the order below. *)
Lemma block_frames_S k b :
  block_frames (S k) b = block_frames k b ++ block_frames k (b + block_size k).
Proof.
  unfold block_frames. rewrite block_size_frames.
  replace (2 ^ Z.of_nat (S k)) with (2 ^ Z.of_nat k + 2 ^ Z.of_nat k)
    by (rewrite Nat2Z.inj_succ, Z.pow_succ_r by lia; lia).
  rewrite seqZ_app by lia. rewrite fmap_app. f_equal.
  rewrite (Z.add_comm 0), <- (fmap_add_seqZ (2 ^ Z.of_nat k) 0), <- list_fmap_compose.
  apply list_fmap_ext. intros i x _. simpl. lia.
Qed.

Lemma block_ok_split k b :
  block_ok (S k) b -> block_ok k b /\ block_ok k (b + block_size k).
Proof.
  unfold block_ok. rewrite block_size_S. pose proof (block_size_pos k). intros (Hp & Ha & Hb).
  apply Z.mod_divide in Ha as [q ->]; [|lia].
  split_and!; try lia.
  - replace (q * (2 * block_size k)) with ((2 * q) * block_size k) by lia. apply Z.mod_mul. lia.
  - replace (q * (2 * block_size k) + block_size k) with ((2 * q + 1) * block_size k) by lia.
    apply Z.mod_mul. lia.
Qed.

Lemma block_ok_frame k b f : block_ok k b -> f ∈ block_frames k b -> block_ok 0 f.
Proof.
  intros (Hp & Ha & Hb) (j & -> & Hj)%elem_of_block_frames. rewrite block_size_frames in *.
  unfold block_ok. change (block_size 0) with 4096.
  split_and!; [lia | | nia].
  rewrite Z.mod_add by lia.
  apply Z.mod_divide; [lia|]. apply Z.mod_divide in Ha as [q ->]; [|lia].
  exists (q * 2 ^ Z.of_nat k). lia.
Qed.

(** ** Pushing and popping an abstract block *)

Lemma frames_insert k ls j l b :
  ls !! j = Some l ->
  frames_from k (<[j := b :: l]> ls) ≡ₚ block_frames (k + j) b ++ frames_from k ls.
Proof.
  revert k j. induction ls as [|l0 ls IH]; intros k j Hj; [done|].
  destruct j as [|j]; simpl in *.
  - injection Hj as ->. rewrite Nat.add_0_r. by rewrite <- (assoc_L (++)).
  - rewrite (IH (S k) j Hj). rewrite Nat.add_succ_comm.
    rewrite !(assoc_L (++)). apply Permutation_app_tail. apply Permutation_app_comm.
Qed.

Lemma frames_pop k ls j l b :
  ls !! j = Some (b :: l) ->
  frames_from k ls ≡ₚ block_frames (k + j) b ++ frames_from k (<[j := l]> ls).
Proof.
  intros Hj. pose proof (lookup_lt_Some _ _ _ Hj) as Hlt.
  pose proof (frames_insert k (<[j := l]> ls) j l b) as Hp.
  rewrite list_lookup_insert_eq, list_insert_insert_eq, (list_insert_id ls) in Hp by done.
  by apply Hp.
Qed.

Lemma frames_elem k ls j l b f :
  ls !! j = Some l -> b ∈ l -> f ∈ block_frames (k + j) b -> f ∈ frames_from k ls.
Proof.
  revert k j. induction ls as [|l0 ls IH]; intros k j Hj Hb Hf; [done|].
  simpl. rewrite elem_of_app. destruct j as [|j]; simpl in *.
  - injection Hj as ->. left. rewrite Nat.add_0_r in Hf. apply list_elem_of_join.
    exists (block_frames k b). split; [done|]. apply list_elem_of_fmap. eauto.
  - right. apply (IH (S k) j Hj Hb). by rewrite Nat.add_succ_comm.
Qed.

Lemma frames_nil k ls : Forall (fun l => l = []) ls -> frames_from k ls = [].
Proof. intros Hl. revert k. induction Hl as [|l ls -> _ IH]; intros k; simpl; [done | apply IH]. Qed.

(** ** Concrete free lists *)

Definition addr_ok (b : Z) : Prop := 0 < b < 2 ^ 44 /\ b mod 4096 = 0.

(** The in-memory list that starts at address [f] (0 terminates it). *)
Fixpoint chain (mem : fmem) (f : Z) (l : list Z) : Prop :=
  match l with
  | [] => f = 0
  | b :: l' => f = b /\ addr_ok b /\ exists h, mem !! b = Some h /\ chain mem (next_phys h) l'
  end.

Definition lrep (mem : fmem) (head : Z) (l : list Z) : Prop :=
  0 <= Z.shiftr head 16 < 2 ^ 32 /\ chain mem (Z.shiftr head 16 * 4096) l.

Lemma chain_start mem f l : chain mem f l -> 0 <= f < 2 ^ 44 /\ f mod 4096 = 0.
Proof. destruct l; simpl; [by intros -> | intros (-> & [? ?] & _); lia]. Qed.

Lemma chain_insert mem f l b h : b ∉ l -> chain mem f l -> chain (<[b := h]> mem) f l.
Proof.
  revert f. induction l as [|c l IH]; intros f Hb; simpl; [done|].
  rewrite not_elem_of_cons in Hb. destruct Hb as [Hne Hb]. intros (-> & Hok & h' & Hh & Hc).
  split_and!; [done | done |]. exists h'. split; [by rewrite lookup_insert_ne | by apply IH].
Qed.

Lemma pack_unpack fn tag :
  0 <= fn < 2 ^ 32 -> FreeList_unpack (FreeList_pack fn tag) = (fn, tag mod 2 ^ 16).
Proof.
  intros Hfn. unfold FreeList_unpack, FreeList_pack, shl64, wrap64, wrapw.
  change 0xFFFF with (Z.ones 16). f_equal; [|rewrite <- Z.land_ones by lia]; bitwise.
Qed.

Lemma addr_checks b :
  addr_ok b -> (b <? MAX_PLAUSIBLE_PHYS) && (Z.land b 0xFFF =? 0) = true.
Proof.
  intros [Hr Ha]. unfold MAX_PLAUSIBLE_PHYS. change 0xFFF with (Z.ones 12).
  rewrite Z.land_ones by lia. change (2 ^ 12) with 4096. rewrite Ha.
  apply andb_true_iff. split; [by apply Z.ltb_lt; lia | done].
Qed.

Lemma shl64_frame fn : 0 <= fn < 2 ^ 32 -> shl64 fn 12 = fn * 4096.
Proof.
  intros Hf. unfold shl64. rewrite Z.shiftl_mul_pow2 by lia. change (2 ^ 12) with 4096.
  apply wrap64_small. unfold is_u64. lia.
Qed.

Lemma addr_frame b : 0 <= b < 2 ^ 44 -> b mod 4096 = 0 ->
  0 <= Z.shiftr b 12 < 2 ^ 32 /\ Z.shiftr b 12 * 4096 = b.
Proof.
  intros Hb Ha. rewrite Z.shiftr_div_pow2 by lia. change (2 ^ 12) with 4096.
  Z.div_mod_to_equations. lia.
Qed.

Lemma push_spec head mem l b :
  lrep mem head l -> addr_ok b -> b ∉ l ->
  exists head' h, FreeList_push head mem b = Done (head', <[b := h]> mem) /\
    lrep (<[b := h]> mem) head' (b :: l).
Proof.
  intros [Hr Hc] Hb Hn. unfold FreeList_push. rewrite addr_checks by done. run.
  eexists _, _. split; [done|].
  destruct (addr_frame b) as [Hf Hbb]; [destruct Hb; lia | apply Hb |].
  pose proof (pack_unpack (Z.shiftr b 12) (wrap64 (Z.land head 0xFFFF + 1)) Hf) as Hp.
  unfold FreeList_unpack in Hp. injection Hp as Hp _.
  split; rewrite Hp; [done|]. simpl. split_and!; [done | done |].
  eexists. split; [by rewrite lookup_insert_eq|]. simpl. rewrite shl64_frame by done.
  by apply chain_insert.
Qed.

Lemma pop_spec head mem l :
  lrep mem head l ->
  match l with
  | [] => FreeList_pop head mem = Done None
  | b :: l' => exists head', FreeList_pop head mem = Done (Some (b, head')) /\ lrep mem head' l'
  end.
Proof.
  intros [Hr Hc]. unfold FreeList_pop, FreeList_unpack. destruct l as [|b l]; simpl in Hc.
  - assert (Z.shiftr head 16 = 0) as -> by lia. done.
  - destruct Hc as (Hb & [Hbr Hba] & h & Hh & Hc).
    rewrite (proj2 (Z.eqb_neq (Z.shiftr head 16) 0)) by lia.
    rewrite shl64_frame, Hb by done.
    rewrite (proj2 (Z.ltb_lt b MAX_PLAUSIBLE_PHYS)) by (unfold MAX_PLAUSIBLE_PHYS; lia). run.
    rewrite Hh. run. destruct (chain_start _ _ _ Hc) as [Hnr Hna].
    assert ((next_phys h <? MAX_PLAUSIBLE_PHYS) && (Z.land (next_phys h) 0xFFF =? 0) = true) as ->.
    { unfold MAX_PLAUSIBLE_PHYS. change 0xFFF with (Z.ones 12). rewrite Z.land_ones by lia.
      change (2 ^ 12) with 4096. rewrite Hna.
      apply andb_true_iff. split; [by apply Z.ltb_lt; lia | done]. }
    run. eexists. split; [done|].
    destruct (addr_frame (next_phys h) Hnr Hna) as [Hf Hff].
    pose proof (pack_unpack _ (wrap64 (Z.land head 0xFFFF + 1)) Hf) as Hp.
    unfold FreeList_unpack in Hp. injection Hp as Hp _. split; rewrite Hp; [done|]. by rewrite Hff.
Qed.

(** ** One node *)

Record nrep (n : BuddyNode) (mem : fmem) (ls : list (list Z)) : Prop := {
  nr_lists : Forall2 (lrep mem) (free_lists n) ls;
  nr_len : length ls = 11%nat;
  nr_nodup : NoDup (frames ls);
  nr_blocks k l b : ls !! k = Some l -> b ∈ l -> block_ok k b
}.

Lemma block_ok_addr k b : block_ok k b -> addr_ok b.
Proof.
  intros Hb. destruct (block_ok_frame k b b Hb (block_frames_self k b)) as (Hp & Ha & Hm).
  change (block_size 0) with 4096 in *. split; [lia | done].
Qed.

Lemma lrep_insert mem head l b h : b ∉ l -> lrep mem head l -> lrep (<[b := h]> mem) head l.
Proof. intros Hb [Hr Hc]. split; [done | by apply chain_insert]. Qed.

(** Pushing a block whose frames are not free yet. *)
Lemma push_order_spec n mem ls k b :
  nrep n mem ls -> (k <= 10)%nat -> block_ok k b -> NoDup (block_frames k b ++ frames ls) ->
  exists l n' mem', ls !! k = Some l /\ push_order n mem k b = Done (n', mem') /\
    nrep n' mem' (<[k := b :: l]> ls) /\ free_count n' = free_count n /\
    (base n' = base n /\ size_ n' = size_ n /\ node_id n' = node_id n) /\
    frames (<[k := b :: l]> ls) ≡ₚ block_frames k b ++ frames ls.
Proof.
  intros Hn Hk Hb Hnd. pose proof Hn as [Hl Hlen Hnd0 Hbl].
  destruct (lookup_lt_is_Some_2 ls k ltac:(lia)) as [l Hlk].
  destruct (Forall2_lookup_r _ _ _ _ _ Hl Hlk) as (head & Hh & Hrep).
  assert (forall j l', ls !! j = Some l' -> b ∉ l') as Hfresh.
  { intros j l' Hj Hin. apply NoDup_app in Hnd as (_ & Hdis & _).
    apply (Hdis b); [apply block_frames_self|].
    apply (frames_elem 0 ls j l' b b Hj Hin). apply block_frames_self. }
  destruct (push_spec head mem l b Hrep (block_ok_addr _ _ Hb) (Hfresh _ _ Hlk)) as (head' & h & Hpush & Hrep').
  exists l, (set_lists n (<[k := head']> (free_lists n))), (<[b := h]> mem).
  assert (frames (<[k := b :: l]> ls) ≡ₚ block_frames k b ++ frames ls) as Hperm by (by apply frames_insert).
  split_and!; try done.
  - unfold push_order. rewrite Hh. simpl. by rewrite Hpush.
  - constructor.
    + simpl. apply Forall2_insert; [|done].
      apply Forall2_same_length_lookup. split; [by eapply Forall2_length|].
      intros j x y Hx Hy. apply lrep_insert; [by eapply Hfresh|].
      by eapply Forall2_lookup_lr.
    + by rewrite length_insert.
    + by rewrite Hperm.
    + intros j l' c Hj Hc. destruct (decide (j = k)) as [->|].
      * rewrite list_lookup_insert_eq in Hj by (apply lookup_lt_Some in Hlk; done). injection Hj as <-.
        apply elem_of_cons in Hc as [->|Hc]; [done | by eapply Hbl].
      * rewrite list_lookup_insert_ne in Hj by done. by eapply Hbl.
Qed.

(** Popping the first block of one order. *)
Lemma pop_order_spec n mem ls k head :
  nrep n mem ls -> free_lists n !! k = Some head ->
  match FreeList_pop head mem with
  | Done None => ls !! k = Some []
  | Done (Some (b, head')) =>
      exists l, ls !! k = Some (b :: l) /\ block_ok k b /\
        nrep (set_lists n (<[k := head']> (free_lists n))) mem (<[k := l]> ls) /\
        frames ls ≡ₚ block_frames k b ++ frames (<[k := l]> ls)
  | Panic => False
  end.
Proof.
  intros [Hl Hlen Hnd Hbl] Hh.
  destruct (Forall2_lookup_l _ _ _ _ _ Hl Hh) as (l & Hlk & Hrep).
  pose proof (pop_spec head mem l Hrep) as Hpop. destruct l as [|b l].
  { by rewrite Hpop. }
  destruct Hpop as (head' & -> & Hrep'). exists l.
  pose proof (frames_pop 0 ls k l b Hlk) as Hperm. simpl in Hperm.
  split_and!; [done | by eapply Hbl, list_elem_of_here | | done].
  pose proof (lookup_lt_Some _ _ _ Hlk) as Hlt.
  constructor; simpl.
  - by apply Forall2_insert.
  - by rewrite length_insert.
  - rewrite Hperm in Hnd. by apply NoDup_app in Hnd as (_ & _ & ?).
  - intros j l' c Hj Hc. destruct (decide (j = k)) as [->|].
    + rewrite list_lookup_insert_eq in Hj by done. injection Hj as <-. by eapply Hbl, list_elem_of_further.
    + rewrite list_lookup_insert_ne in Hj by done. by eapply Hbl.
Qed.

Lemma split_down_spec k : forall n mem ls frame order,
  nrep n mem ls -> (order + k <= 10)%nat -> block_ok (order + k) frame ->
  NoDup (block_frames (order + k) frame ++ frames ls) ->
  exists n' mem' ls', split_down n mem frame order k = Done (n', mem') /\ nrep n' mem' ls' /\
    block_ok order frame /\ free_count n' = free_count n /\
    block_frames (order + k) frame ++ frames ls ≡ₚ block_frames order frame ++ frames ls'.
Proof.
  induction k as [|k IH]; intros n mem ls frame order Hn Hk Hb Hnd; cbn [split_down].
  - rewrite Nat.add_0_r in *. by exists n, mem, ls.
  - rewrite Nat.add_succ_r in *. destruct (block_ok_split _ _ Hb) as [Hb1 Hb2].
    pose proof (block_size_pos (order + k)) as Hpos.
    rewrite shl64_block by lia. rewrite wrap64_small.
    2:{ destruct Hb2 as (? & _ & ?). unfold is_u64. lia. }
    rewrite block_frames_S, <- (assoc_L (++)) in Hnd.
    pose proof Hnd as (_ & Hdis & Hnd2)%NoDup_app.
    destruct (push_order_spec n mem ls (order + k) _ Hn ltac:(lia) Hb2 Hnd2)
      as (l & n1 & mem1 & Hlk & Hpush & Hn1 & Hfc & _ & Hperm).
    rewrite Hpush. run.
    destruct (IH n1 mem1 _ frame order Hn1 ltac:(lia) Hb1) as (n' & mem' & ls' & Hs & Hn' & Hbo & Hfc' & Hp').
    { by rewrite Hperm. }
    exists n', mem', ls'. rewrite Hfc', Hfc. split_and!; try done.
    by rewrite block_frames_S, <- (assoc_L (++)), <- Hperm.
Qed.

Lemma alloc_search_spec k : forall n mem ls order source,
  nrep n mem ls -> (order <= source)%nat -> (source + k = 11)%nat ->
  match alloc_search n mem order source k with
  | Done None => forall j, (source <= j <= 10)%nat -> ls !! j = Some []
  | Done (Some (f, (n', mem'))) =>
      exists ls', nrep n' mem' ls' /\ block_ok order f /\
        free_count n' = wrap64 (free_count n - 2 ^ Z.of_nat order) /\
        frames ls ≡ₚ block_frames order f ++ frames ls'
  | Panic => False
  end.
Proof.
  induction k as [|k IH]; intros n mem ls order source Hn Hos Hk; cbn [alloc_search].
  { intros j Hj. lia. }
  pose proof Hn as [Hl Hlen Hnd _].
  destruct (lookup_lt_is_Some_2 (free_lists n) source) as [head Hh].
  { rewrite (Forall2_length _ _ _ Hl). lia. }
  rewrite Hh. run. pose proof (pop_order_spec n mem ls source head Hn Hh) as Hpop.
  destruct (FreeList_pop head mem) as [[[b head']|]|]; run; [| |done].
  - destruct Hpop as (l & Hlk & Hb & Hn1 & Hperm).
    destruct (split_down_spec (source - order) _ mem _ b order Hn1) as (n2 & mem2 & ls2 & Hs & Hn2 & Hbo & Hfc & Hp2).
    { lia. }
    { by replace (order + (source - order))%nat with source by lia. }
    { replace (order + (source - order))%nat with source by lia. by rewrite <- Hperm. }
    rewrite Hs. run. exists ls2. split_and!; [| done | | ].
    + destruct Hn2. by constructor.
    + simpl. rewrite Hfc. simpl. f_equal. f_equal. unfold shl64.
      rewrite Z.shiftl_mul_pow2, Z.mul_1_l by lia. apply wrap64_small. unfold is_u64.
      split; [lia|]. apply Z.pow_lt_mono_r; lia.
    + replace (order + (source - order))%nat with source in Hp2 by lia. by rewrite Hperm.
  - pose proof (IH n mem ls order (S source) Hn ltac:(lia) ltac:(lia)) as Hrec.
    destruct (alloc_search n mem order (S source) k) as [[[f [n' mem']]|]|]; try done.
    intros j Hj. destruct (decide (j = source)) as [->|]; [done|]. apply Hrec. lia.
Qed.

(** C3: allocating a block of order [order] from a well-formed node never
    panics.  It returns a naturally aligned block all of whose frames were
    free, and removes exactly those frames from the free lists (splitting a
    larger block when needed, with the rest going back to the lists), keeping
    the node well formed and the free counter in step; it returns [None] only
    when no list of order [order] or above has a block. *)
Theorem alloc_order_correct (n : BuddyNode) (mem : fmem) (ls : list (list Z)) (order : Z) :
  nrep n mem ls -> 0 <= order <= MAX_ORDER ->
  match BuddyNode_alloc_order n mem order with
  | Done (Some (f, (n', mem'))) =>
      exists ls', nrep n' mem' ls' /\ block_ok (Z.to_nat order) f /\
        free_count n' = wrap64 (free_count n - 2 ^ order) /\
        frames ls ≡ₚ block_frames (Z.to_nat order) f ++ frames ls'
  | Done None => forall j, (Z.to_nat order <= j <= 10)%nat -> ls !! j = Some []
  | Panic => False
  end.
Proof.
  intros Hn Ho. unfold MAX_ORDER in *. unfold BuddyNode_alloc_order, MAX_ORDER.
  rewrite (proj2 (Z.ltb_ge 10 order)) by lia.
  pose proof (alloc_search_spec (Z.to_nat (10 + 1 - order)) n mem ls (Z.to_nat order) (Z.to_nat order) Hn
    ltac:(lia) ltac:(lia)) as Hs.
  destruct (alloc_search n mem _ _ _) as [[[f [n' mem']]|]|]; try done.
  destruct Hs as (ls' & ? & ? & Hc & ?). exists ls'. rewrite Z2Nat.id in Hc by lia. done.
Qed.

(** Freeing a block whose frames are not free: they become free. *)
Lemma free_order_spec n mem ls f order :
  nrep n mem ls -> 0 <= order <= MAX_ORDER -> block_ok (Z.to_nat order) f ->
  NoDup (block_frames (Z.to_nat order) f ++ frames ls) ->
  exists n' mem' ls', BuddyNode_free_order n mem f order = Done (n', mem') /\ nrep n' mem' ls' /\
    free_count n' = wrap64 (free_count n + 2 ^ order) /\
    frames ls' ≡ₚ block_frames (Z.to_nat order) f ++ frames ls.
Proof.
  intros Hn Ho Hb Hnd. unfold MAX_ORDER in *. unfold BuddyNode_free_order, MAX_ORDER.
  rewrite (proj2 (Z.ltb_ge 10 order)) by lia. cbn [free_loop andb].
  destruct (push_order_spec n mem ls (Z.to_nat order) f Hn ltac:(lia) Hb Hnd)
    as (l & n1 & mem1 & Hlk & -> & Hn1 & Hfc & _ & Hperm).
  run. eexists _, _, _. split; [done|]. split_and!; [destruct Hn1; by constructor | | done].
  simpl. rewrite Hfc. f_equal. f_equal. unfold shl64.
  rewrite Z.shiftl_mul_pow2, Z.mul_1_l by lia. apply wrap64_small. unfold is_u64.
  split; [lia|]. apply Z.pow_lt_mono_r; lia.
Qed.

(** An empty node represents the empty abstract state. *)
Lemma nrep_new id mem : nrep (BuddyNode_new id) mem (replicate 11 []).
Proof.
  constructor.
  - simpl. repeat (constructor; [done|]). constructor.
  - done.
  - rewrite frames_nil; [constructor | by apply Forall_replicate].
  - intros k l b Hl Hb. apply lookup_replicate in Hl as [-> _]. by apply elem_of_nil in Hb.
Qed.

(** Freeing a block that was just allocated gives back exactly the frames
    that were taken: the multiset of free frames and the free counter are those
    of before the allocation, and neither step panics. *)
Theorem alloc_free_roundtrip n mem ls order f n1 mem1 :
  nrep n mem ls -> 0 <= order <= MAX_ORDER -> is_u64 (free_count n) ->
  BuddyNode_alloc_order n mem order = Done (Some (f, (n1, mem1))) ->
  exists n2 mem2 ls2, BuddyNode_free_order n1 mem1 f order = Done (n2, mem2) /\
    nrep n2 mem2 ls2 /\ frames ls2 ≡ₚ frames ls /\ free_count n2 = free_count n.
Proof.
  intros Hn Ho Hc Ha. unfold MAX_ORDER in *.
  pose proof (alloc_search_spec (Z.to_nat (10 + 1 - order)) n mem ls (Z.to_nat order) (Z.to_nat order) Hn
    ltac:(lia) ltac:(lia)) as Hs.
  unfold BuddyNode_alloc_order, MAX_ORDER in Ha. rewrite (proj2 (Z.ltb_ge 10 order)) in Ha by lia.
  rewrite Ha in Hs. destruct Hs as (ls1 & Hn1 & Hb & Hfc & Hperm). rewrite Z2Nat.id in Hfc by lia.
  destruct (free_order_spec n1 mem1 ls1 f order Hn1 Ho Hb) as (n2 & mem2 & ls2 & Hf & Hn2 & Hfc2 & Hp2).
  { rewrite <- Hperm. apply Hn. }
  exists n2, mem2, ls2. split_and!; [done | done | by rewrite Hp2 |].
  rewrite Hfc2, Hfc, wrap64_add_l. rewrite Z.sub_add. by apply wrap64_small.
Qed.

(** A node holding one order-2 block, as in the repository's split test. *)
Definition demo_node : BuddyNode * fmem :=
  match push_order (BuddyNode_new 0) ∅ 2 0x20000000 with
  | Done p => p
  | Panic => (BuddyNode_new 0, ∅)
  end.

Lemma demo_node_rep : exists ls, nrep demo_node.1 demo_node.2 ls /\ free_count demo_node.1 = 0.
Proof.
  assert (block_ok 2 0x20000000) as Hb
    by (split; [reflexivity | split; [reflexivity | vm_compute; discriminate]]).
  assert (NoDup (block_frames 2 0x20000000 ++ frames (replicate 11 []))) as Hd.
  { apply (bool_decide_unpack _). vm_compute. exact I. }
  destruct (push_order_spec (BuddyNode_new 0) ∅ (replicate 11 []) 2 0x20000000 (nrep_new 0 ∅) ltac:(lia) Hb Hd)
    as (l & n & mem & _ & Hp & Hn & Hc & _).
  unfold demo_node. rewrite Hp. eauto.
Qed.

Definition demo_alloc_ok (r : outcome (option (Z * (BuddyNode * fmem)))) : bool :=
  match r with Done (Some _) => true | _ => false end.

Lemma demo_alloc : demo_alloc_ok (BuddyNode_alloc_order demo_node.1 demo_node.2 0) = true.
Proof. vm_compute. reflexivity. Qed.

Lemma alloc_order_correct_witness :
  exists f n' mem', BuddyNode_alloc_order demo_node.1 demo_node.2 0 = Done (Some (f, (n', mem'))) /\
    block_ok 0 f.
Proof.
  destruct demo_node_rep as (ls & Hn & _).
  pose proof (alloc_order_correct demo_node.1 demo_node.2 ls 0 Hn ltac:(unfold MAX_ORDER; lia)) as Ha.
  pose proof demo_alloc as Hd.
  destruct (BuddyNode_alloc_order _ _ 0) as [[[f [n' mem']]|]|]; [|discriminate Hd..].
  destruct Ha as (ls' & _ & Hb & _). exists f, n', mem'. split; [reflexivity | exact Hb].
Defined.

Lemma alloc_free_roundtrip_witness :
  exists f n1 mem1 n2 mem2,
    BuddyNode_alloc_order demo_node.1 demo_node.2 0 = Done (Some (f, (n1, mem1))) /\
    BuddyNode_free_order n1 mem1 f 0 = Done (n2, mem2).
Proof.
  destruct demo_node_rep as (ls & Hn & Hc). pose proof demo_alloc as Hd.
  destruct (BuddyNode_alloc_order demo_node.1 demo_node.2 0) as [[[f [n1 mem1]]|]|] eqn:E;
    [|discriminate Hd..].
  destruct (alloc_free_roundtrip demo_node.1 demo_node.2 ls 0 f n1 mem1 Hn ltac:(unfold MAX_ORDER; lia)
    ltac:(rewrite Hc; unfold is_u64; lia) E) as (n2 & mem2 & _ & Hf & _).
  exists f, n1, mem1, n2, mem2. split; [reflexivity | exact Hf].
Defined.

(** Physical address 0 doubles as the list terminator.  Pushing a block
    that starts there is accepted by the sanity check, and the next pop of that
    list returns [None] whatever the list held before: the block and every
    block pushed before it are no longer reachable. *)
Theorem push_zero_loses_list (head : Z) (mem : fmem) :
  exists head' mem', FreeList_push head mem 0 = Done (head', mem') /\
    FreeList_pop head' mem' = Done None.
Proof.
  eexists _, _. split; [done|]. unfold FreeList_pop.
  change (Z.shiftr 0 12) with 0. by rewrite pack_unpack by lia.
Qed.
