(* ===== verification/BuddyInit.v ===== *)
(** * Building the free lists from the memory map

    [NumaBuddy::init] frees exactly the usable frames that touch no excluded
    range; the resulting allocator meets the frame-allocator contract. *)

From Stdlib Require Import ZArith Lia.
From stdpp Require Import prelude gmap list.
From S2P Require Import Prelude Paging Frames Buddy BuddySpec.

Local Open Scope Z_scope.

(** ** One contiguous region *)

Definition range_frames (lo hi : Z) : list Z :=
  (fun j => lo + j * 4096) <$> seqZ 0 ((hi - lo) / 4096).

Lemma elem_of_range lo hi f :
  lo mod 4096 = 0 -> hi mod 4096 = 0 -> lo <= hi ->
  f ∈ range_frames lo hi <-> lo <= f /\ f + 4096 <= hi /\ f mod 4096 = 0.
Proof.
  intros Hl Hh Hle. unfold range_frames. rewrite list_elem_of_fmap. setoid_rewrite elem_of_seqZ.
  split.
  - intros (j & -> & Hj). Z.div_mod_to_equations. lia.
  - intros (H1 & H2 & H3). exists ((f - lo) / 4096). Z.div_mod_to_equations. lia.
Qed.

Lemma range_frames_split lo mid hi :
  lo mod 4096 = 0 -> mid mod 4096 = 0 -> lo <= mid <= hi ->
  range_frames lo hi = range_frames lo mid ++ range_frames mid hi.
Proof.
  intros Hl Hm Hle. unfold range_frames.
  replace ((hi - lo) / 4096) with ((mid - lo) / 4096 + (hi - mid) / 4096)
    by (Z.div_mod_to_equations; lia).
  rewrite seqZ_app by (apply Z.div_pos; lia). rewrite fmap_app. f_equal.
  rewrite (Z.add_comm 0), <- (fmap_add_seqZ ((mid - lo) / 4096) 0), <- list_fmap_compose.
  apply list_fmap_ext. intros i x _. simpl. Z.div_mod_to_equations. lia.
Qed.

Lemma range_block lo k :
  range_frames lo (lo + block_size k) = block_frames k lo.
Proof.
  unfold range_frames, block_frames. rewrite block_size_frames.
  replace (lo + 2 ^ Z.of_nat k * 4096 - lo) with (2 ^ Z.of_nat k * 4096) by lia.
  by rewrite Z.div_mul.
Qed.

Lemma NoDup_range lo hi : NoDup (range_frames lo hi).
Proof.
  unfold range_frames. apply NoDup_fmap_2_strong; [intros x y _ _; lia | apply NoDup_seqZ].
Qed.

(** The chosen order always fits and is naturally aligned. *)
Lemma region_order_spec paddr remaining order :
  (order <= 10)%nat -> 4096 <= remaining -> paddr mod 4096 = 0 ->
  (region_order paddr remaining order <= order)%nat /\
  block_size (region_order paddr remaining order) <= remaining /\
  paddr mod block_size (region_order paddr remaining order) = 0.
Proof.
  intros Ho Hr Hp. induction order as [|k IH]; cbn [region_order].
  { by change (block_size 0) with 4096. }
  rewrite shl64_block by lia.
  destruct (Z.leb_spec (block_size (S k)) remaining); simpl.
  - destruct (Z.eqb_spec (paddr mod block_size (S k)) 0); [done|].
    destruct IH as (? & ? & ?); [lia|]. split_and!; (done || lia).
  - destruct IH as (? & ? & ?); [lia|]. split_and!; (done || lia).
Qed.

Lemma region_loop_spec fuel : forall n mem ls lo hi,
  nrep n mem ls -> 0 < lo -> lo <= hi -> hi <= 2 ^ 44 -> lo mod 4096 = 0 -> hi mod 4096 = 0 ->
  (hi - lo) / 4096 <= Z.of_nat fuel -> NoDup (range_frames lo hi ++ frames ls) ->
  exists n' mem' ls', region_loop fuel n mem lo hi = Done (n', mem') /\ nrep n' mem' ls' /\
    (free_count n' = free_count n /\ base n' = base n /\ size_ n' = size_ n) /\
    frames ls' ≡ₚ range_frames lo hi ++ frames ls.
Proof.
  induction fuel as [|fuel IH]; intros n mem ls lo hi Hn Hlo Hle Hhi Hl Hh Hf Hnd; cbn [region_loop];
    destruct (Z.ltb_spec lo hi) as [Hlt|Hge].
  1: exfalso; Z.div_mod_to_equations; lia.
  1,3: assert (lo = hi) as -> by lia; exists n, mem, ls; split_and!; try done;
       unfold range_frames; by rewrite Z.sub_diag.
  change (Z.to_nat MAX_ORDER) with 10%nat.
  assert (4096 <= hi - lo) as Hrem by (Z.div_mod_to_equations; lia).
  destruct (region_order_spec lo (hi - lo) 10 ltac:(lia) Hrem Hl) as (Hk & Hsz & Hal).
  set (k := region_order lo (hi - lo) 10) in *.
  pose proof (block_size_pos k) as Hpos.
  assert (block_ok k lo) as Hb by (split_and!; [lia | done | lia]).
  assert (block_size k mod 4096 = 0) as Hbs by (rewrite block_size_frames; apply Z.mod_mul; lia).
  assert ((lo + block_size k) mod 4096 = 0) as Hmid by (Z.div_mod_to_equations; lia).
  rewrite (range_frames_split lo (lo + block_size k) hi), range_block, <- (assoc_L (++)) in Hnd by (done || lia).
  pose proof Hnd as (Hnd1 & Hdis & Hnd2)%NoDup_app.
  destruct (push_order_spec n mem ls k lo Hn ltac:(lia) Hb) as (l & n1 & mem1 & Hlk & -> & Hn1 & Hfc & (Hb1 & Hs1 & _) & Hperm).
  { apply NoDup_app. apply NoDup_app in Hnd2 as (_ & _ & ?). split_and!; [done | | done].
    intros x Hx Hx'. apply (Hdis x Hx). apply elem_of_app. by right. }
  run. rewrite shl64_block by lia. rewrite wrap64_small by (unfold is_u64; lia).
  destruct (IH n1 mem1 _ (lo + block_size k) hi Hn1) as (n' & mem' & ls' & Hr & Hn' & (Hc' & Hb' & Hs') & Hp');
    try (done || lia).
  { rewrite block_size_frames in *. pose proof (Z.pow_pos_nonneg 2 (Z.of_nat k) ltac:(lia) ltac:(lia)).
    Z.div_mod_to_equations. lia. }
  { by rewrite Hperm, perm_app_swap. }
  exists n', mem', ls'. rewrite Hc', Hb', Hs'. split_and!; try done.
  rewrite Hp', Hperm, (range_frames_split lo (lo + block_size k) hi), range_block by (done || lia).
  rewrite <- (assoc_L (++)). apply perm_app_swap.
Qed.

(** ** The whole allocator: node 0 and its counter *)

Definition node0 (b : NumaBuddy) : BuddyNode :=
  match nodes b !! 0%nat with Some (Some n) => n | _ => BuddyNode_new 0 end.

Record brep (b : NumaBuddy) (mem : fmem) (ls : list (list Z)) : Prop := {
  br_len : length (nodes b) = MAX_NUMA_NODES;
  br_node : nrep (node0 b) mem ls;
  br_count : free_count (node0 b) = wrap64 (Z.of_nat (length (frames ls)))
}.

Lemma length_range lo hi : lo <= hi -> Z.of_nat (length (range_frames lo hi)) = (hi - lo) / 4096.
Proof.
  intros Hle. unfold range_frames. rewrite length_fmap, length_seqZ.
  rewrite Z2Nat.id; [done|]. apply Z.div_pos; lia.
Qed.

Lemma add_region_spec b mem ls lo hi :
  brep b mem ls -> 0 < lo -> lo <= hi -> hi <= 2 ^ 44 -> lo mod 4096 = 0 -> hi mod 4096 = 0 ->
  NoDup (range_frames lo hi ++ frames ls) ->
  exists b' mem' ls', add_region b mem 0 lo ((hi - lo) / 4096) = Done (b', mem') /\
    brep b' mem' ls' /\ frames ls' ≡ₚ range_frames lo hi ++ frames ls.
Proof.
  intros [Hlen Hn Hc] Hlo Hle Hhi Hl Hh Hnd. unfold add_region, node0 in *.
  destruct (lookup_lt_is_Some_2 (nodes b) 0%nat) as [slot Hs].
  { rewrite Hlen. unfold MAX_NUMA_NODES. lia. }
  rewrite Hs in *. run.
  assert (lo + (hi - lo) / 4096 * PAGE_SIZE = hi) as Hend
    by (unfold PAGE_SIZE; Z.div_mod_to_equations; lia).
  assert (wrap64 (lo + (hi - lo) / 4096 * PAGE_SIZE) = hi) as ->
    by (rewrite Hend; apply wrap64_small; unfold is_u64; lia).
  set (n := match slot with Some n => n | None => BuddyNode_new 0 end) in *.
  assert (exists c, (match slot with Some n0 => (n0, node_count b)
     | None => (BuddyNode_new (Z.of_nat 0), wrap64 (node_count b + 1)) end) = (n, c)) as [c ->]
    by (destruct slot; eauto).
  match goal with |- context [region_loop _ ?m _ _ _] => set (n1 := m) end.
  assert (nrep n1 mem ls) as Hn1 by (destruct Hn; by constructor).
  destruct (region_loop_spec (Z.to_nat ((hi - lo) / 4096)) n1 mem ls lo hi Hn1)
    as (n' & mem' & ls' & -> & Hn' & (Hfc & _) & Hp); try done.
  { rewrite Z2Nat.id; [done|]. apply Z.div_pos; lia. }
  run. eexists _, mem', ls'. split; [done|]. split; [|done].
  assert (0 < length (nodes b))%nat by (rewrite Hlen; unfold MAX_NUMA_NODES; lia).
  constructor; unfold node0; simpl; rewrite ?length_insert, ?list_lookup_insert_eq by done; try done.
  rewrite Hfc, Hp, length_app, Nat2Z.inj_add, length_range by done. simpl. rewrite Hc.
  rewrite wrap64_add_l. f_equal. lia.
Qed.

(** ** Excluded ranges *)

Definition exclusions (ex : ExclusionSet) : list (Z * Z) :=
  bump_consumed ex :: kernel_phys_range ex :: extra_reserved ex.

Lemma first_overlap_list start end_ ex :
  first_exclusion_overlap start end_ ex = reserved_overlap start end_ (exclusions ex).
Proof. done. Qed.

Lemma overlap_Some start end_ r a b :
  exclusion_overlap start end_ r = Some (a, b) <->
  a = Z.max r.1 start /\ b = Z.min r.2 end_ /\ a < b.
Proof.
  unfold exclusion_overlap. destruct (Z.ltb_spec (Z.max r.1 start) (Z.min r.2 end_)); split;
    naive_solver lia.
Qed.

Lemma overlap_None start end_ r :
  exclusion_overlap start end_ r = None <-> Z.min r.2 end_ <= Z.max r.1 start.
Proof.
  unfold exclusion_overlap. destruct (Z.ltb_spec (Z.max r.1 start) (Z.min r.2 end_)); split;
    naive_solver lia.
Qed.

Lemma reserved_overlap_Some start end_ rs o :
  reserved_overlap start end_ rs = Some o -> exists r, r ∈ rs /\ exclusion_overlap start end_ r = Some o.
Proof.
  induction rs as [|r rs IH]; simpl; [done|].
  destruct (exclusion_overlap start end_ r) eqn:E; intros H.
  - exists r. split; [set_solver | congruence].
  - destruct (IH H) as (r' & ? & ?). exists r'. split; [set_solver | done].
Qed.

Lemma reserved_overlap_None start end_ rs :
  reserved_overlap start end_ rs = None -> forall r, r ∈ rs -> exclusion_overlap start end_ r = None.
Proof.
  induction rs as [|r rs IH]; simpl; [set_solver|].
  destruct (exclusion_overlap start end_ r) eqn:E; [done|]. intros H r' [->|Hr]%elem_of_cons; [done | by apply IH].
Qed.

Definition overlapping (start end_ : Z) (r : Z * Z) : Prop := is_Some (exclusion_overlap start end_ r).

#[local] Instance overlapping_dec start end_ r : Decision (overlapping start end_ r).
Proof. unfold overlapping. apply _. Defined.

(** How many exclusions still meet the interval: what bounds the recursion. *)
Definition n_overlaps (start end_ : Z) (ex : ExclusionSet) : nat :=
  length (filter (overlapping start end_) (exclusions ex)).

Lemma n_overlaps_lt start end_ ex r a b s' e' :
  r ∈ exclusions ex -> exclusion_overlap start end_ r = Some (a, b) ->
  start <= s' -> e' <= end_ -> (e' <= a \/ b <= s') ->
  (n_overlaps s' e' ex < n_overlaps start end_ ex)%nat.
Proof.
  intros Hr Ho Hs He Hd. unfold n_overlaps. apply (filter_length_lt _ _ _ r); [|done| |eexists; done].
  - intros y _ [[c d] Hy%overlap_Some]. unfold overlapping.
    assert (exclusion_overlap start end_ y = Some (Z.max y.1 start, Z.min y.2 end_)) as ->; [|eauto].
    apply overlap_Some. lia.
  - intros [[c d] Hy%overlap_Some]. apply overlap_Some in Ho. lia.
Qed.

(** A frame is clear when it meets no excluded byte. *)
Definition clear_frame (ex : ExclusionSet) (f : Z) : Prop :=
  forall r, r ∈ exclusions ex -> r.2 <= r.1 \/ f + 4096 <= r.1 \/ r.2 <= f.

(** The frames [add_region_excluding] adds for one interval. *)
Definition region_frame (ex : ExclusionSet) (start end_ f : Z) : Prop :=
  f mod 4096 = 0 /\ start <= f /\ f + 4096 <= end_ /\ clear_frame ex f.

Lemma align_up_spec start :
  0 < start <= 2 ^ 44 ->
  Z.land (wrap64 (wrap64 (start + PAGE_SIZE) - 1)) (not64 (PAGE_SIZE - 1)) = (start + 4095) / 4096 * 4096.
Proof.
  intros Hs. unfold PAGE_SIZE. rewrite (wrap64_small (start + 4096)) by (unfold is_u64; lia).
  rewrite (wrap64_small) by (unfold is_u64; lia). change (4096 - 1) with (Z.ones 12).
  rewrite land_not_ones by (unfold is_u64; lia). Z.div_mod_to_equations. lia.
Qed.

Lemma align_down_spec end_ :
  0 <= end_ <= 2 ^ 44 -> Z.land end_ (not64 (PAGE_SIZE - 1)) = end_ / 4096 * 4096.
Proof.
  intros Hs. unfold PAGE_SIZE. change (4096 - 1) with (Z.ones 12).
  rewrite land_not_ones by (unfold is_u64; lia). Z.div_mod_to_equations. lia.
Qed.

Lemma add_region_excluding_spec ex fuel : forall b mem ls start end_,
  brep b mem ls -> 0 < start -> end_ <= 2 ^ 44 -> (n_overlaps start end_ ex < fuel)%nat ->
  (forall f, f ∈ frames ls -> f + 4096 <= start \/ end_ <= f) ->
  exists b' mem' ls', add_region_excluding fuel b mem 0 start end_ ex = Done (b', mem') /\
    brep b' mem' ls' /\
    forall f, f ∈ frames ls' <-> f ∈ frames ls \/ region_frame ex start end_ f.
Proof.
  induction fuel as [|fuel IH]; intros b mem ls start end_ Hb Hs He Hn Hdis; [lia|].
  cbn [add_region_excluding]. destruct (Z.leb_spec end_ start) as [Hse|Hse].
  { exists b, mem, ls. split_and!; [done | done |]. intros f. unfold region_frame. split; [by left|].
    intros [?|(_ & ? & ? & _)]; [done | lia]. }
  rewrite first_overlap_list. destruct (reserved_overlap start end_ (exclusions ex)) as [[a c]|] eqn:Ho.
  - apply reserved_overlap_Some in Ho as (r & Hr & Ho). pose proof Ho as (Ha & Hc & Hac)%overlap_Some.
    assert (forall f, region_frame ex start end_ f <->
      region_frame ex start a f \/ region_frame ex c end_ f) as Hsplit.
    { intros f. unfold region_frame. split.
      - intros (H1 & H2 & H3 & H4). pose proof (H4 r Hr). destruct (decide (f + 4096 <= a)); [left|right]; split_and!; try done; lia.
      - intros [(? & ? & ? & ?)|(? & ? & ? & ?)]; split_and!; try done; lia. }
    assert (exists b1 mem1 ls1, (if start <? a then add_region_excluding fuel b mem 0 start a ex
        else Done (b, mem)) = Done (b1, mem1) /\ brep b1 mem1 ls1 /\
        forall f, f ∈ frames ls1 <-> f ∈ frames ls \/ region_frame ex start a f)
      as (b1 & mem1 & ls1 & -> & Hb1 & Hf1).
    { destruct (Z.ltb_spec start a).
      - apply IH; try done; [lia | | intros f Hf; specialize (Hdis f Hf); lia].
        pose proof (n_overlaps_lt start end_ ex r a c start a Hr Ho). lia.
      - exists b, mem, ls. split_and!; [done | done |]. intros f. unfold region_frame. split; [by left|].
        intros [?|(_ & ? & ? & _)]; [done | lia]. }
    run. destruct (Z.ltb_spec c end_).
    + destruct (IH b1 mem1 ls1 c end_) as (b2 & mem2 & ls2 & -> & Hb2 & Hf2); try done; [lia | | |].
      * pose proof (n_overlaps_lt start end_ ex r a c c end_ Hr Ho). lia.
      * intros f [Hf|(_ & ? & ? & _)]%Hf1; [specialize (Hdis f Hf)|]; lia.
      * exists b2, mem2, ls2. split_and!; [done | done |]. intros f. rewrite Hf2, Hf1, Hsplit. tauto.
    + exists b1, mem1, ls1. split_and!; [done | done |]. intros f. rewrite Hf1, Hsplit.
      unfold region_frame at 3. split; [tauto|]. intros [?|[?|(_ & ? & ? & _)]]; [tauto.. | lia].
  - pose proof (reserved_overlap_None _ _ _ Ho) as Hno.
    rewrite align_up_spec, align_down_spec by lia.
    set (lo := (start + 4095) / 4096 * 4096). set (hi := end_ / 4096 * 4096).
    assert (lo mod 4096 = 0) as Hlo by (apply Z.mod_mul; lia).
    assert (hi mod 4096 = 0) as Hhi by (apply Z.mod_mul; lia).
    assert (start <= lo < start + 4096) by (unfold lo; Z.div_mod_to_equations; lia).
    assert (end_ - 4096 < hi <= end_) by (unfold hi; Z.div_mod_to_equations; lia).
    assert (forall f, region_frame ex start end_ f <-> lo <= f /\ f + 4096 <= hi /\ f mod 4096 = 0) as Hrf.
    { intros f. unfold region_frame, clear_frame. split.
      - intros (Hm & ? & ? & _). split_and!; [ | | done]; Z.div_mod_to_equations; lia.
      - intros (? & ? & ?). split_and!; [done | lia | lia |].
        intros r Hr. specialize (Hno r Hr). apply overlap_None in Hno. lia. }
    destruct (Z.leb_spec hi lo).
    { exists b, mem, ls. split_and!; [done | done |]. intros f. rewrite Hrf. split; [by left|].
      intros [?|(? & ? & _)]; [done | lia]. }
    unfold PAGE_SIZE.
    destruct (add_region_spec b mem ls lo hi) as (b' & mem' & ls' & Hadd & Hb' & Hp); try (done || lia).
    { apply NoDup_app. split_and!; [apply NoDup_range | | apply Hb].
      intros f (? & ? & _)%elem_of_range Hf; [specialize (Hdis f Hf) | done.. | ]; lia. }
    exists b', mem', ls'. split_and!; [exact Hadd | done |]. intros f.
    rewrite Hp, elem_of_app, elem_of_range, Hrf by (done || lia). tauto.
Qed.

(** ** The memory map *)

Definition usable (e : LimineMemmapEntry) : bool := mm_type e =? 0.

(** Usable entries lie above address 0 and below 16 TiB and do not overlap. *)
Fixpoint memmap_ok (mm : list LimineMemmapEntry) : Prop :=
  match mm with
  | [] => True
  | e :: rest =>
      (usable e = true -> 0 < mm_base e /\ 0 <= mm_length e /\ mm_base e + mm_length e <= 2 ^ 44 /\
        forall e', e' ∈ rest -> usable e' = true ->
          mm_base e + mm_length e <= mm_base e' \/ mm_base e' + mm_length e' <= mm_base e) /\
      memmap_ok rest
  end.

Definition usable_frame (mm : list LimineMemmapEntry) (ex : ExclusionSet) (f : Z) : Prop :=
  exists e, e ∈ mm /\ usable e = true /\ region_frame ex (mm_base e) (mm_base e + mm_length e) f.

Lemma n_overlaps_fuel start end_ ex : (n_overlaps start end_ ex < excl_fuel ex)%nat.
Proof.
  unfold n_overlaps, excl_fuel. pose proof (length_filter (overlapping start end_) (exclusions ex)) as Hl.
  unfold exclusions in Hl at 2. simpl in Hl. lia.
Qed.

Lemma init_entries_spec ex mm : forall b mem ls,
  brep b mem ls -> memmap_ok mm ->
  (forall f e, f ∈ frames ls -> e ∈ mm -> usable e = true ->
     f + 4096 <= mm_base e \/ mm_base e + mm_length e <= f) ->
  exists b' mem' ls', init_entries b mem mm ex = Done (b', mem') /\ brep b' mem' ls' /\
    forall f, f ∈ frames ls' <-> f ∈ frames ls \/ usable_frame mm ex f.
Proof.
  induction mm as [|e mm IH]; intros b mem ls Hb Hok Hdis; cbn [init_entries].
  { exists b, mem, ls. split_and!; [done | done |]. intros f. unfold usable_frame. set_solver. }
  destruct Hok as [He Hok]. fold (usable e).
  assert (forall f, usable_frame (e :: mm) ex f <->
    (usable e = true /\ region_frame ex (mm_base e) (mm_base e + mm_length e) f) \/ usable_frame mm ex f) as Hu.
  { intros f. unfold usable_frame. setoid_rewrite elem_of_cons. naive_solver. }
  destruct (usable e) eqn:Hue; cbn [negb].
  2:{ destruct (IH b mem ls Hb Hok) as (b' & mem' & ls' & -> & Hb' & Hf); [set_solver|].
      exists b', mem', ls'. split_and!; [done | done |]. intros f. rewrite Hf, Hu. naive_solver. }
  destruct (He eq_refl) as (H1 & H2 & H3 & H4).
  destruct (Z.eqb_spec (mm_length e) 0) as [Hz|Hz].
  { destruct (IH b mem ls Hb Hok) as (b' & mem' & ls' & -> & Hb' & Hf); [set_solver|].
    exists b', mem', ls'. split_and!; [done | done |]. intros f. rewrite Hf, Hu. unfold region_frame.
    split; [tauto|]. intros [?|[(_ & _ & ? & ? & _)|?]]; [tauto | lia | tauto]. }
  rewrite wrap64_small by (unfold is_u64; lia).
  destruct (add_region_excluding_spec ex (excl_fuel ex) b mem ls (mm_base e) (mm_base e + mm_length e) Hb)
    as (b1 & mem1 & ls1 & -> & Hb1 & Hf1); try (done || lia).
  { apply n_overlaps_fuel. }
  { intros f Hf. apply Hdis; [done | set_solver | done]. }
  run. destruct (IH b1 mem1 ls1 Hb1 Hok) as (b2 & mem2 & ls2 & -> & Hb2 & Hf2).
  { intros f e' [Hf|(_ & ? & ? & _)]%Hf1 Hin Hu'; [apply Hdis; [done | set_solver | done]|].
    specialize (H4 e' Hin Hu'). lia. }
  exists b2, mem2, ls2. split_and!; [done | done |]. intros f. rewrite Hf2, Hf1, Hu. naive_solver.
Qed.

Lemma brep_uninit dmap mem :
  brep {| nodes := nodes NumaBuddy_new_uninit; node_count := 0; direct_map_base := dmap |} mem
       (replicate 11 []).
Proof.
  constructor; [done | apply nrep_new |].
  rewrite frames_nil; [done | by apply Forall_replicate].
Qed.

(** C1: initialising the allocator from a memory map whose usable entries do
    not overlap, start above address 0 and end at 2^44 (16 TiB) at most never panics (in particular the recursion over exclusions needs
    no more than one level per exclusion) and makes free exactly the 4 KiB
    frames that lie entirely inside a usable entry and touch no byte of the
    bump-consumed range, the kernel image or an extra reserved range, each of
    them once; the free counter is the number of those frames. *)
Theorem numa_init_exact (mm : list LimineMemmapEntry) (bump kernel : Z * Z) (extra : list (Z * Z))
    (dmap : Z) (mem : fmem) :
  memmap_ok mm ->
  let ex := {| bump_consumed := bump; kernel_phys_range := kernel; extra_reserved := extra |} in
  exists b' mem' ls',
    NumaBuddy_init NumaBuddy_new_uninit mem mm bump kernel extra dmap = Done (b', mem') /\
    brep b' mem' ls' /\ NoDup (frames ls') /\
    (forall f, f ∈ frames ls' <-> usable_frame mm ex f).
Proof.
  intros Hok ex.
  destruct (init_entries_spec ex mm _ mem _ (brep_uninit dmap mem) Hok) as (b' & mem' & ls' & Hi & Hb & Hf).
  { rewrite frames_nil by (by apply Forall_replicate). set_solver. }
  exists b', mem', ls'. split_and!; [exact Hi | done | apply Hb |].
  intros f. rewrite Hf, frames_nil by (by apply Forall_replicate). set_solver.
Qed.

Definition demo_memmap : list LimineMemmapEntry :=
  [ {| mm_base := 0x1000; mm_length := 0x9000; mm_type := 0 |};
    {| mm_base := 0xA000; mm_length := 0x4000; mm_type := 1 |};
    {| mm_base := 0x100000; mm_length := 0x20000; mm_type := 0 |} ].

Lemma numa_init_exact_witness :
  exists b' mem' ls',
    NumaBuddy_init NumaBuddy_new_uninit ∅ demo_memmap (0, 0) (0x100000, 0x103000) [(0x8000, 0x9000)]
      0xFFFF800000000000 = Done (b', mem') /\ brep b' mem' ls'.
Proof.
  destruct (numa_init_exact demo_memmap (0, 0) (0x100000, 0x103000) [(0x8000, 0x9000)]
    0xFFFF800000000000 ∅) as (b' & mem' & ls' & Hi & Hb & _).
  - simpl. unfold usable. simpl. split_and!; try done; intros _; split_and!; try done.
    all: intros e' He Hu; rewrite ?elem_of_cons, ?elem_of_nil in He.
    all: destruct_or? He; subst; simpl in *; (done || lia).
  - exists b', mem', ls'. split; [exact Hi | exact Hb].
Defined.

(** ** The allocator meets the frame-allocator contract *)

Fixpoint chain_list (fuel : nat) (mem : fmem) (f : Z) : list Z :=
  match fuel with
  | O => []
  | S fuel' =>
      match mem !! f with
      | Some h => if f =? 0 then [] else f :: chain_list fuel' mem (next_phys h)
      | None => []
      end
  end.

(** The free blocks of a node, read back from its heads and links. *)
Definition lists_of (n : BuddyNode) (mem : fmem) : list (list Z) :=
  (fun head => chain_list (size mem) mem (Z.shiftr head 16 * 4096)) <$> free_lists n.

Lemma chain_list_spec mem l : forall f fuel,
  chain mem f l -> (length l <= fuel)%nat -> chain_list fuel mem f = l.
Proof.
  induction l as [|b l IH]; intros f fuel Hc Hl; simpl in *.
  - subst f. destruct fuel; simpl; [done|]. by destruct (mem !! 0).
  - destruct Hc as (-> & [Hb _] & h & Hh & Hc). destruct fuel as [|fuel]; [lia|]. simpl.
    rewrite Hh, (proj2 (Z.eqb_neq b 0)) by lia. f_equal. apply IH; [done | lia].
Qed.

Lemma chain_det mem l1 : forall f l2, chain mem f l1 -> chain mem f l2 -> l1 = l2.
Proof.
  induction l1 as [|b l1 IH]; intros f [|c l2]; simpl; try done.
  - intros -> (<- & [? _] & _). lia.
  - intros (-> & [? _] & _) ?. lia.
  - intros (-> & _ & h & Hh & Hc) (<- & _ & h' & Hh' & Hc'). simplify_eq. f_equal. by eapply IH.
Qed.

Lemma chain_suffix mem l1 : forall f b l2, chain mem f (l1 ++ b :: l2) -> chain mem b (b :: l2).
Proof.
  induction l1 as [|c l1 IH]; intros f b l2; simpl.
  - intros (-> & Hb). done.
  - intros (_ & _ & h & _ & Hc). by eapply IH.
Qed.

Lemma chain_NoDup mem l f : chain mem f l -> NoDup l.
Proof.
  revert f. induction l as [|b l IH]; intros f Hc; constructor.
  - intros (l1 & l2 & ->)%list_elem_of_split.
    change (b :: l1 ++ b :: l2) with ((b :: l1) ++ b :: l2) in Hc.
    pose proof (chain_suffix _ _ _ _ _ Hc) as Hs.
    assert (f = b) as -> by (by destruct Hc).
    pose proof (chain_det _ _ _ _ Hc Hs) as He. apply (f_equal length) in He.
    rewrite length_app in He. simpl in He. lia.
  - destruct Hc as (_ & _ & h & _ & Hc). by eapply IH.
Qed.

Lemma chain_dom mem l : forall f b, chain mem f l -> b ∈ l -> b ∈ dom mem.
Proof.
  induction l as [|c l IH]; intros f b Hc Hb; [set_solver|].
  destruct Hc as (-> & _ & h & Hh & Hc). apply elem_of_cons in Hb as [->|Hb].
  - by apply elem_of_dom_2 in Hh.
  - by eapply IH.
Qed.

Lemma chain_length mem l f : chain mem f l -> (length l <= size mem)%nat.
Proof.
  intros Hc. rewrite <- (size_dom (D := gset Z)).
  rewrite <- (size_list_to_set (C := gset Z) l) by (by eapply chain_NoDup).
  apply subseteq_size. intros b Hb%elem_of_list_to_set. by eapply chain_dom.
Qed.

Lemma lists_of_spec n mem ls : nrep n mem ls -> lists_of n mem = ls.
Proof.
  intros [Hl _ _ _]. unfold lists_of. induction Hl as [|head l heads ls [Hr Hc] Hl IH]; simpl; [done|].
  f_equal; [|done]. apply chain_list_spec; [done | by eapply chain_length].
Qed.

Definition buddy_free (s : NumaBuddy * fmem) : gset Z :=
  list_to_set (frames (lists_of (node0 s.1) s.2)).

Lemma elem_of_buddy_free b mem ls f :
  brep b mem ls -> f ∈ buddy_free (b, mem) <-> f ∈ frames ls.
Proof.
  intros Hb. unfold buddy_free. simpl. rewrite (lists_of_spec _ _ ls) by apply Hb.
  by rewrite elem_of_list_to_set.
Qed.

Lemma nrep_new_inv id mem ls : nrep (BuddyNode_new id) mem ls -> frames ls = [].
Proof.
  intros [Hl _ _ _]. apply frames_nil. simpl in Hl. rewrite Forall_lookup. intros i l Hi.
  destruct (Forall2_lookup_r _ _ _ _ _ Hl Hi) as (head & Hh & _ & Hc).
  apply (lookup_replicate 11) in Hh as [-> _]. change (Z.shiftr 0 16 * 4096) with 0 in Hc.
  destruct l as [|b l]; [done|]. destruct Hc as (<- & [Hc _] & _). lia.
Qed.

Lemma brep_set_node0 b n mem ls :
  length (nodes b) = MAX_NUMA_NODES -> nrep n mem ls ->
  free_count n = wrap64 (Z.of_nat (length (frames ls))) -> brep (set_node0 b n) mem ls.
Proof.
  intros Hl Hn Hc. assert (0 < length (nodes b))%nat by (rewrite Hl; unfold MAX_NUMA_NODES; lia).
  constructor; unfold node0; simpl; by rewrite ?length_insert, ?list_lookup_insert_eq.
Qed.

Lemma alloc_frame_brep b mem ls :
  brep b mem ls ->
  match NumaBuddy_alloc_frame b mem with
  | Done None => frames ls = []
  | Done (Some (f, (b', mem'))) => exists ls', brep b' mem' ls' /\ block_ok 0 f /\
      frames ls ≡ₚ f :: frames ls' /\ exists n', nodes b' !! 0%nat = Some (Some n')
  | Panic => False
  end.
Proof.
  intros [Hlen Hn Hc]. unfold NumaBuddy_alloc_frame, NumaBuddy_alloc_order, node0 in *.
  destruct (lookup_lt_is_Some_2 (nodes b) 0%nat) as [[n|] Hs].
  { rewrite Hlen. unfold MAX_NUMA_NODES. lia. }
  2:{ rewrite Hs in *. run. by eapply nrep_new_inv. }
  rewrite Hs in *. run.
  pose proof (alloc_search_spec 11 n mem ls 0 0 Hn ltac:(lia) ltac:(lia)) as Ha.
  change (BuddyNode_alloc_order n mem 0) with (alloc_search n mem 0 0 11).
  destruct (alloc_search n mem 0 0 11) as [[[f [n' mem']]|]|]; run; [| |done].
  - destruct Ha as (ls' & Hn' & Hb & Hfc & Hp). exists ls'.
    rewrite block_frames_0 in Hp. simpl in Hp.
    split_and!; [|done|done|].
    + apply brep_set_node0; [done | done |]. rewrite Hfc, Hc, Hp. simpl.
      rewrite wrap64_sub_l. f_equal. lia.
    + exists n'. simpl. apply list_lookup_insert_eq. rewrite Hlen. unfold MAX_NUMA_NODES. lia.
  - apply frames_nil. rewrite Forall_lookup. intros j l Hj.
    pose proof (lookup_lt_Some _ _ _ Hj) as Hlt. rewrite (nr_len _ _ _ Hn) in Hlt.
    rewrite Ha in Hj by lia. by injection Hj.
Qed.

Lemma free_frame_brep b mem ls f n :
  brep b mem ls -> nodes b !! 0%nat = Some (Some n) -> block_ok 0 f -> f ∉ frames ls ->
  exists b' mem' ls', NumaBuddy_free_frame b mem f = Done (b', mem') /\ brep b' mem' ls' /\
    frames ls' ≡ₚ f :: frames ls /\ exists n', nodes b' !! 0%nat = Some (Some n').
Proof.
  intros [Hlen Hn Hc] Hs Hb Hf. unfold NumaBuddy_free_frame, node0 in *. rewrite Hs in *. run.
  destruct (free_order_spec n mem ls f 0 Hn) as (n' & mem' & ls' & -> & Hn' & Hfc & Hp).
  { unfold MAX_ORDER. lia. }
  { done. }
  { change (Z.to_nat 0) with 0%nat. rewrite block_frames_0. simpl. constructor; [done | apply Hn]. }
  run. change (Z.to_nat 0) with 0%nat in Hp. rewrite block_frames_0 in Hp. simpl in Hp.
  exists (set_node0 b n'), mem', ls'. split_and!; [done | | done |].
  - apply brep_set_node0; [done | done |]. rewrite Hfc, Hc, Hp. simpl. rewrite wrap64_add_l. f_equal. lia.
  - exists n'. simpl. apply list_lookup_insert_eq. rewrite Hlen. unfold MAX_NUMA_NODES. lia.
Qed.

#[export] Instance NumaBuddy_FrameAllocator : FrameAllocator (NumaBuddy * fmem) := {
  fa_alloc_frame s :=
    match NumaBuddy_alloc_frame s.1 s.2 with Done r => r | Panic => None end;
  fa_free_frame s f := NumaBuddy_free_frame s.1 s.2 f
}.

Definition buddy_ok (s : NumaBuddy * fmem) : Prop :=
  exists ls n, brep s.1 s.2 ls /\ nodes s.1 !! 0%nat = Some (Some n).

Lemma block_ok_0 f : block_ok 0 f <-> f mod 4096 = 0 /\ 0 < f <= 2 ^ 44 - 4096.
Proof. unfold block_ok. change (block_size 0) with 4096. lia. Qed.

#[export] Program Instance NumaBuddy_laws : FrameAllocatorLaws (NumaBuddy * fmem) := {
  fa_ok := buddy_ok;
  fa_free := buddy_free
}.
Next Obligation.
  intros [b mem] f [b' mem'] (ls & n & Hb & _) Ha. simpl in *.
  pose proof (alloc_frame_brep b mem ls Hb) as Hs. destruct (NumaBuddy_alloc_frame b mem) as [r|]; [|done].
  subst r. destruct Hs as (ls' & Hb' & Hok & Hp & n' & Hn').
  apply block_ok_0 in Hok as [Hal Hr].
  assert (NoDup (f :: frames ls')) as Hnd by (rewrite <- Hp; apply Hb).
  apply NoDup_cons in Hnd as [Hnf _].
  split_and!; [by exists ls', n' | | | done | lia | lia].
  - rewrite elem_of_buddy_free by done. rewrite Hp. set_solver.
  - apply set_eq. intros x. rewrite elem_of_difference, elem_of_singleton, !elem_of_buddy_free by done.
    rewrite Hp. set_solver.
Qed.
Next Obligation.
  intros [b mem] (ls & n & Hb & _) Ha. simpl in *.
  pose proof (alloc_frame_brep b mem ls Hb) as Hs. destruct (NumaBuddy_alloc_frame b mem) as [r|]; [|done].
  subst r. apply set_eq. intros x. rewrite elem_of_buddy_free by done. rewrite Hs. set_solver.
Qed.

#[export] Program Instance NumaBuddy_return_laws : FrameReturnLaws (NumaBuddy * fmem).
Next Obligation.
  intros [b mem] f (ls & n & Hb & Hn) Hf Hal Hr. simpl in *.
  destruct (free_frame_brep b mem ls f n Hb Hn) as (b' & mem' & ls' & Hfr & Hb' & Hp & n' & Hn').
  { apply block_ok_0. split; [done|]. Z.div_mod_to_equations. lia. }
  { by rewrite <- elem_of_buddy_free. }
  exists (b', mem'). split_and!; [done | by exists ls', n' |].
  apply set_eq. intros x. rewrite elem_of_union, elem_of_singleton, !elem_of_buddy_free by done.
  rewrite Hp. set_solver.
Qed.

(** ** Frames below 4 GiB *)

Definition high (f : Z) : Prop := LOW_4G_LIMIT <= f.

Lemma low_tries_spec k : forall b mem ls rej n,
  brep b mem ls -> nodes b !! 0%nat = Some (Some n) -> Forall high rej -> Forall (block_ok 0) rej ->
  exists r rej' b' mem' ls' n', low_tries k b mem rej = Done (r, rej', (b', mem')) /\
    brep b' mem' ls' /\ nodes b' !! 0%nat = Some (Some n') /\
    Forall high rej' /\ Forall (block_ok 0) rej' /\
    match r with
    | Some f => f < LOW_4G_LIMIT /\ rej ++ frames ls ≡ₚ f :: rej' ++ frames ls'
    | None => rej ++ frames ls ≡ₚ rej' ++ frames ls' /\
        (frames ls' = [] \/ length rej' = (length rej + k)%nat)
    end.
Proof.
  induction k as [|k IH]; intros b mem ls rej n Hb Hn Hh Hok; cbn [low_tries].
  { exists None, rej, b, mem, ls, n. split_and!; try done. right. lia. }
  pose proof (alloc_frame_brep b mem ls Hb) as Ha.
  destruct (NumaBuddy_alloc_frame b mem) as [[[f [b1 mem1]]|]|]; run; [| |done].
  2:{ exists None, rej, b, mem, ls, n. split_and!; try done. by left. }
  destruct Ha as (ls1 & Hb1 & Hf & Hp & n1 & Hn1).
  destruct (Z.ltb_spec f LOW_4G_LIMIT).
  { exists (Some f), rej, b1, mem1, ls1, n1. split_and!; try done. rewrite Hp. by rewrite Permutation_middle. }
  destruct (IH b1 mem1 ls1 (rej ++ [f]) n1 Hb1 Hn1) as (r & rej' & b' & mem' & ls' & n' & -> & Hb' & Hn' & Hh' & Hok' & Hr).
  { apply Forall_app. by split; [|constructor]. }
  { apply Forall_app. by split; [|constructor]. }
  exists r, rej', b', mem', ls', n'. split_and!; try done.
  assert ((rej ++ [f]) ++ frames ls1 ≡ₚ rej ++ frames ls) as Hq by (by rewrite Hp, <- (assoc_L (++))).
  destruct r as [g|]; destruct Hr as [Hr1 Hr2].
  - split; [done|]. by rewrite <- Hr2, Hq.
  - split; [by rewrite <- Hr1, Hq|]. rewrite length_app in Hr2. simpl in Hr2.
    destruct Hr2 as [?|?]; [by left | right; lia].
Qed.

Lemma free_all_spec fs : forall b mem ls n,
  brep b mem ls -> nodes b !! 0%nat = Some (Some n) -> Forall (block_ok 0) fs ->
  NoDup (fs ++ frames ls) ->
  exists b' mem' ls', free_all b mem fs = Done (b', mem') /\ brep b' mem' ls' /\
    frames ls' ≡ₚ fs ++ frames ls.
Proof.
  induction fs as [|f fs IH]; intros b mem ls n Hb Hn Hok Hnd; cbn [free_all].
  { by exists b, mem, ls. }
  apply Forall_cons in Hok as [Hf Hok]. simpl in Hnd. apply NoDup_cons in Hnd as [Hnf Hnd].
  destruct (free_frame_brep b mem ls f n Hb Hn Hf) as (b1 & mem1 & ls1 & -> & Hb1 & Hp & n1 & Hn1).
  { set_solver. }
  run. destruct (IH b1 mem1 ls1 n1 Hb1 Hn1 Hok) as (b' & mem' & ls' & -> & Hb' & Hp').
  { rewrite Hp. rewrite <- Permutation_middle. by constructor. }
  exists b', mem', ls'. split_and!; [done | done |]. rewrite Hp', Hp. by rewrite <- Permutation_middle.
Qed.

(** [alloc_frame_below_4g] never panics on a well-formed allocator.  A
    frame it returns is below 4 GiB and is the only frame missing afterwards;
    when it returns [None] the free frames are unchanged, and either no free
    frame lies below 4 GiB or at least 256 of them lie above. *)
Theorem alloc_frame_below_4g_correct b mem ls n :
  brep b mem ls -> nodes b !! 0%nat = Some (Some n) ->
  exists r b' mem' ls', NumaBuddy_alloc_frame_below_4g b mem = Done (r, (b', mem')) /\
    brep b' mem' ls' /\
    match r with
    | Some f => f < LOW_4G_LIMIT /\ frames ls ≡ₚ f :: frames ls'
    | None => frames ls' ≡ₚ frames ls /\
        (Forall high (frames ls) \/ exists hs, length hs = 256%nat /\ NoDup hs /\ hs ⊆ frames ls /\ Forall high hs)
    end.
Proof.
  intros Hb Hn. unfold NumaBuddy_alloc_frame_below_4g.
  destruct (low_tries_spec MAX_LOW_FRAME_TRIES b mem ls [] n Hb Hn) as
    (r & rej & b1 & mem1 & ls1 & n1 & -> & Hb1 & Hn1 & Hh & Hok & Hr); [done | done |].
  run. assert (NoDup (rej ++ frames ls1)) as Hnd.
  { pose proof (nr_nodup _ _ _ (br_node _ _ _ Hb)) as H0. destruct r as [f|].
    - destruct Hr as [_ Hr]. simpl in Hr. rewrite Hr in H0. by apply NoDup_cons in H0 as [_ ?].
    - destruct Hr as [Hr _]. simpl in Hr. by rewrite Hr in H0. }
  destruct (free_all_spec rej b1 mem1 ls1 n1 Hb1 Hn1 Hok Hnd) as (b2 & mem2 & ls2 & -> & Hb2 & Hp2).
  run. exists r, b2, mem2, ls2. split_and!; [done | done |].
  destruct r as [f|]; simpl in Hr.
  - destruct Hr as [? Hr]. split; [done|]. by rewrite Hp2.
  - destruct Hr as [Hr Hc]. split; [by rewrite Hp2|]. destruct Hc as [Hnil|Hlen].
    + left. rewrite Hr, Hnil, app_nil_r. done.
    + right. exists rej. apply NoDup_app in Hnd as (? & _ & _).
      split_and!; try done. intros x Hx. rewrite Hr. set_solver.
Qed.

Lemma demo_buddy_rep :
  exists b ls n, brep b demo_node.2 ls /\ nodes b !! 0%nat = Some (Some n).
Proof.
  destruct demo_node_rep as (ls & Hn & _).
  exists {| nodes := Some (set_free demo_node.1 (wrap64 (Z.of_nat (length (frames ls))))) :: replicate 7 None;
            node_count := 1; direct_map_base := 0 |}, ls.
  eexists. split; [constructor|]; simpl; try done. destruct Hn. by constructor.
Qed.

Lemma alloc_frame_below_4g_correct_witness :
  exists b r b' mem', NumaBuddy_alloc_frame_below_4g b demo_node.2 = Done (r, (b', mem')).
Proof.
  destruct demo_buddy_rep as (b & ls & n & Hb & Hn).
  destruct (alloc_frame_below_4g_correct b demo_node.2 ls n Hb Hn) as (r & b' & mem' & ls' & Hr & _).
  exists b, r, b', mem'. exact Hr.
Defined.
