(* ===== verification/UserMap.v ===== *)
(** * User mappings of a page-table hierarchy

    Facts about hierarchies without huge pages, as every user half is: a mapping
    is one leaf entry, and each operation of [AddressSpace] changes one leaf. *)

From Stdlib Require Import ZArith Lia.
From stdpp Require Import prelude gmap list.
From S2P Require Import Prelude Paging Frames PageTable.

Local Open Scope Z_scope.

Section usermap.
Context {A : Type} `{FrameAllocatorLaws A}.
Implicit Types (s : pt_state A) (p q : list nat).

(** The present leaf entry of an address. *)
Definition uleaf (tb : gmap Z (list Z)) (root v : Z) : option Z :=
  pentry tb root [ix4 v; ix3 v; ix2 v] (ix1 v).

(** The user half, below entry 256 of the top table; the kernel half above it is the
    same in every address space and has huge pages. *)
Definition is_user (v : Z) : Prop := (ix4 v < 256)%nat.

Definition all_small (tb : gmap Z (list Z)) (root : Z) : Prop := forall v, is_user v -> no_huge tb root v.

(** An address space's tables: a well-formed tree whose user half is made of 4 KiB
    mappings. *)
Record space_wf s (root : Z) : Prop := {
  sw_wf : pt_wf s root;
  sw_small : all_small (tabs s) root
}.

Lemma uleaf_walk tb root v e :
  uleaf tb root v = Some e -> exists pt, walk tb root [ix4 v; ix3 v; ix2 v] = Some pt /\
    entry_at tb pt (ix1 v) = Some e /\ is_present e = true.
Proof.
  unfold uleaf, pentry. destruct (walk tb root [ix4 v; ix3 v; ix2 v]) as [pt|]; simpl; [|done].
  destruct (entry_at tb pt (ix1 v)) as [e'|] eqn:He; simpl; [|done].
  destruct (is_present e') eqn:Hp; [|done]. intros [= ->]. eauto.
Qed.

(** The walk to a last-level table, entry by entry. *)
Lemma walk3 s root v :
  space_wf s root -> is_user v ->
  walk (tabs s) root [ix4 v; ix3 v; ix2 v] =
  _ ← pentry (tabs s) root [] (ix4 v);
  _ ← pentry (tabs s) root [ix4 v] (ix3 v);
  e2 ← pentry (tabs s) root [ix4 v; ix3 v] (ix2 v);
  Some (PageTableEntry_frame e2).
Proof.
  intros [Hwf Hsm] Hv. destruct (Hsm v Hv) as [H3 H2].
  assert (forall p q, walk (tabs s) root p = None -> walk (tabs s) root (p ++ q) = None) as Hext.
  { intros p q Hp. by rewrite walk_app, Hp. }
  destruct (pentry (tabs s) root [] (ix4 v)) as [e4|] eqn:E4; cbn [mbind option_bind].
  2:{ apply (Hext [ix4 v] [ix3 v; ix2 v]). change [ix4 v] with ([] ++ [ix4 v]). by rewrite walk_snoc, E4. }
  destruct (pentry (tabs s) root [ix4 v] (ix3 v)) as [e3|] eqn:E3; cbn [mbind option_bind].
  2:{ apply (Hext [ix4 v; ix3 v] [ix2 v]).
      change [ix4 v; ix3 v] with ([ix4 v] ++ [ix3 v]). by rewrite walk_snoc, E3. }
  change [ix4 v; ix3 v; ix2 v] with ([ix4 v; ix3 v] ++ [ix2 v]). rewrite walk_snoc.
  destruct (pentry (tabs s) root [ix4 v; ix3 v] (ix2 v)) as [e2|] eqn:E2; cbn [mbind option_bind]; [|done].
  by rewrite (H2 e2 eq_refl).
Qed.

Lemma mapping_uleaf s root v :
  space_wf s root -> is_user v ->
  mapping (tabs s) root v = e ← uleaf (tabs s) root v; Some (e, VirtAddr_page_offset v).
Proof.
  intros Hs Hv. pose proof (walk3 s root v Hs Hv) as W. destruct Hs as [Hwf Hsm].
  destruct (Hsm v Hv) as [H3 H2]. unfold mapping.
  assert (walk (tabs s) root [ix4 v; ix3 v; ix2 v] = None -> uleaf (tabs s) root v = None) as Hn.
  { intros Hw. unfold uleaf, pentry. by rewrite Hw. }
  destruct (pentry (tabs s) root [] (ix4 v)) as [e4|] eqn:E4; cbn [mbind option_bind] in W |- *;
    [|by rewrite Hn].
  destruct (pentry (tabs s) root [ix4 v] (ix3 v)) as [e3|] eqn:E3; cbn [mbind option_bind] in W |- *;
    [|by rewrite Hn].
  rewrite (H3 e3 eq_refl).
  destruct (pentry (tabs s) root [ix4 v; ix3 v] (ix2 v)) as [e2|] eqn:E2; cbn [mbind option_bind] in W |- *;
    [|by rewrite Hn].
  by rewrite (H2 e2 eq_refl).
Qed.

(** Translation, read off the leaf. *)
Lemma translate_uleaf s root v :
  space_wf s root -> is_user v ->
  translate s root v =
  Done (e ← uleaf (tabs s) root v; Some (PhysAddr_add (PageTableEntry_frame e) (VirtAddr_page_offset v))).
Proof.
  intros Hs Hv. rewrite translate_mapping, mapping_uleaf by (done || apply Hs).
  by destruct (uleaf (tabs s) root v).
Qed.

Lemma uleaf_vpage tb root v w : vpage v = vpage w -> uleaf tb root v = uleaf tb root w.
Proof. intros (H4 & H3 & H2 & H1)%vpage_path. unfold uleaf. by rewrite H4, H3, H2, H1. Qed.

(** ** Allocation does not touch the tables *)

Lemma space_wf_alloc s root f a' :
  space_wf s root -> fa_alloc_frame (pt_alloc s) = Some (f, a') ->
  space_wf {| tabs := tabs s; pt_alloc := a' |} root.
Proof.
  intros [Hwf Hsm] Ha. destruct (fa_alloc_Some _ _ _ (wf_alloc _ _ Hwf) Ha) as (Hok & _ & Hfree & _).
  split; [|done]. constructor; simpl; [done|apply Hwf|apply Hwf| |apply Hwf].
  intros p g Hl Hw. rewrite Hfree. pose proof (wf_live _ _ Hwf p g Hl Hw). set_solver.
Qed.

(** ** Mapping a page *)

Lemma ensure_small s root pg i n s' :
  (length pg <= 2)%nat -> all_small (tabs s) root -> ensure_post s root pg i (Done (n, s')) ->
  all_small (tabs s') root.
Proof.
  intros Hl Hsm (Hwf' & Hw & _ & _ & Heq & _).
  assert (forall p j e, (length p <= 3)%nat -> pentry (tabs s') root p j = Some e ->
            (forall e, pentry (tabs s) root p j = Some e -> is_huge_page e = false) ->
            is_huge_page e = false) as Hstep.
  { intros p j e Hp He Hold. destruct (decide ((p, j) = (pg, i))) as [[= -> ->]|Hne].
    - rewrite walk_snoc, He in Hw. simpl in Hw. by destruct (is_huge_page e).
    - rewrite Heq in He by done. by apply Hold. }
  intros v Hv. destruct (Hsm v Hv) as [H3 H2]. split; intros e He.
  - apply (Hstep [ix4 v] (ix3 v) e); [simpl; lia | done..].
  - apply (Hstep [ix4 v; ix3 v] (ix2 v) e); [simpl; lia | done..].
Qed.

Lemma ensure_uleaf s root pg i n s' :
  (length pg <= 2)%nat -> ensure_post s root pg i (Done (n, s')) ->
  forall w, uleaf (tabs s') root w = uleaf (tabs s) root w.
Proof. intros Hl (_ & _ & _ & _ & Heq & _) w. apply Heq; [simpl; lia|]. intros [= <- _]. simpl in Hl. lia. Qed.

Lemma ensure3_small s root v user :
  space_wf s root -> is_user v ->
  match ensure3 s root v user with
  | Done (pt, s') => all_small (tabs s') root /\
      (size (fa_free (pt_alloc s)) <= size (fa_free (pt_alloc s')) + 3)%nat /\
      forall w, uleaf (tabs s') root w = uleaf (tabs s) root w
  | Panic => True
  end.
Proof.
  intros [Hwf Hsm] Hv. unfold ensure3.
  pose proof (ensure_next_table_spec s root [] root (VirtAddr_pml4_index v) user Hwf ltac:(simpl; lia)
    eq_refl (index_range _ _) ltac:(by intros e; apply top_not_huge)) as P1.
  destruct (ensure_next_table s root _ user) as [[pdpt s1]|]; simpl; [|done].
  pose proof P1 as (Hwf1 & Hw1 & _ & Hc1 & _). pose proof (ensure_small s root [] _ pdpt s1 ltac:(simpl; lia) Hsm P1) as Hs1.
  pose proof (ensure_uleaf s root [] _ pdpt s1 ltac:(simpl; lia) P1) as Hu1. fold (ix4 v) in *.
  pose proof (ensure_next_table_spec s1 root [ix4 v] pdpt (VirtAddr_pdpt_index v) user Hwf1 ltac:(simpl; lia)
    Hw1 (index_range _ _) (proj1 (Hs1 v Hv))) as P2.
  destruct (ensure_next_table s1 pdpt _ user) as [[pd s2]|]; simpl; [|done].
  pose proof P2 as (Hwf2 & Hw2 & _ & Hc2 & _). pose proof (ensure_small s1 root [_] _ pd s2 ltac:(simpl; lia) Hs1 P2) as Hs2.
  pose proof (ensure_uleaf s1 root [_] _ pd s2 ltac:(simpl; lia) P2) as Hu2. fold (ix3 v) in *.
  pose proof (ensure_next_table_spec s2 root [ix4 v; ix3 v] pd (VirtAddr_pd_index v) user Hwf2 ltac:(simpl; lia)
    Hw2 (index_range _ _) (proj2 (Hs2 v Hv))) as P3.
  destruct (ensure_next_table s2 pd _ user) as [[pt s3]|]; [|done].
  pose proof P3 as (_ & _ & _ & Hc3 & _). pose proof (ensure_uleaf s2 root [_; _] _ pt s3 ltac:(simpl; lia) P3) as Hu3.
  split_and!; [exact (ensure_small s2 root [_; _] _ pt s3 ltac:(simpl; lia) Hs2 P3) | lia |].
  intros w. by rewrite Hu3, Hu2, Hu1.
Qed.

(** Rewriting the leaf entry of [v] changes the mapping of its page only. *)
Lemma write_leaf s root v pt e :
  space_wf s root -> walk (tabs s) root [ix4 v; ix3 v; ix2 v] = Some pt ->
  exists s', write_table s pt (VirtAddr_pt_index v) e = Done s' /\ space_wf s' root /\
    pt_alloc s' = pt_alloc s /\
    forall w, uleaf (tabs s') root w =
      if decide (vpage w = vpage v) then (if is_present e then Some e else None) else uleaf (tabs s) root w.
Proof.
  intros [Hwf Hsm] Hw.
  destruct (wf_table _ _ Hwf [ix4 v; ix3 v; ix2 v] pt ltac:(simpl; lia) Hw) as (t & Ht & _).
  rewrite (write_table_set s pt (VirtAddr_pt_index v) e t (index_range v 12) Ht). fold (ix1 v).
  destruct (leaf_set s root [ix4 v; ix3 v; ix2 v] pt (ix1 v) e Hwf eq_refl Hw) as [Hwf' Hpe].
  { unfold ix1, ENTRIES. pose proof (index_range v 12). unfold VirtAddr_pt_index. lia. }
  eexists. split; [done|]. split_and!; [split; [exact Hwf'|]|done|].
  - intros w Hv. destruct (Hsm w Hv) as [H3 H2]. split; intros e'; rewrite Hpe by (simpl; lia);
      rewrite decide_False by done; auto.
  - intros w. unfold uleaf. rewrite Hpe by (simpl; lia).
    destruct (decide (vpage w = vpage v)) as [Heq|Hne].
    + apply vpage_path in Heq as (-> & -> & -> & ->). by rewrite decide_True.
    + rewrite decide_False; [done|]. intros [= ?]. apply Hne. by apply vpage_path.
Qed.

(** [map_page] on leaves: one page gains an entry, no other page changes. *)
Lemma map_page_uleaf s root v phys flags :
  space_wf s root -> is_user v -> 0 <= phys < 2 ^ 48 -> is_flags flags -> Z.testbit flags 0 = true ->
  match map_page s root v phys flags with
  | Done s' => space_wf s' root /\ fa_free (pt_alloc s') ⊆ fa_free (pt_alloc s) /\
      (size (fa_free (pt_alloc s)) <= size (fa_free (pt_alloc s')) + 3)%nat /\
      (forall w, vpage w <> vpage v -> translate s' root w = translate s root w) /\
      forall w, uleaf (tabs s') root w =
        if decide (vpage w = vpage v) then Some (PageTableEntry_new_page phys flags)
        else uleaf (tabs s) root w
  | Panic => (size (fa_free (pt_alloc s)) < 3)%nat
  end.
Proof.
  intros Hs Hv Hp Hf Hpr. rewrite map_page_ensure3. pose proof Hs as [Hwf Hsm].
  pose proof (ensure3_spec s root v true Hwf (Hsm v Hv)) as H3.
  pose proof (ensure3_small s root v true Hs Hv) as H4.
  destruct (ensure3 s root v true) as [[pt s1]|]; [|done]. cbn [mbind outcome_bind].
  destruct H3 as (Hwf1 & Hw & Hsub & Hmap), H4 as (Hsm1 & Hsz & Hm).
  assert (space_wf s1 root) as Hs1 by (split; done).
  destruct (write_leaf s1 root v pt (PageTableEntry_new_page phys flags) Hs1 Hw) as (s' & E & Hs' & Ha & Hu). rewrite E.
  assert (is_present (PageTableEntry_new_page phys flags) = true) as Hnp by (by rewrite is_present_bit, new_page_bits, Hpr by lia).
  rewrite Ha. split_and!; [done..| |].
  { intros w Hne. destruct (write_leaf_mapping s1 root v pt _ Hwf1 Hw Hnp) as (s2 & E2 & _ & _ & Hm2). rewrite E in E2. injection E2 as <-.
    rewrite !translate_mapping, Hm2, decide_False, Hmap by (done || apply Hs'). done. }
  intros w. rewrite Hu, Hnp.
  by destruct (decide (vpage w = vpage v)).
Qed.

(** [leaf_entry_mut] finds the table of the leaf entry, when there is one. *)
Lemma leaf_entry_spec s root v :
  space_wf s root -> is_user v ->
  leaf_entry s root v =
  Done (pt ← walk (tabs s) root [ix4 v; ix3 v; ix2 v]; Some (pt, VirtAddr_pt_index v)).
Proof.
  intros Hs H4. rewrite walk3 by done. destruct Hs as [Hwf Hsm]. destruct (Hsm v H4) as [Hh3 Hh2].
  unfold leaf_entry. pose proof (index_range v 39) as R4. fold (VirtAddr_pml4_index v) in R4. unfold is_user, ix4 in H4.
  destruct (read_level s root [] root (VirtAddr_pml4_index v) Hwf) as (e4 & -> & E4);
    [simpl; lia | done | apply index_range |]. fold (ix4 v) in E4. rewrite E4. run.
  rewrite (proj2 (Z.leb_gt 256 (VirtAddr_pml4_index v))), orb_false_r by lia.
  destruct (is_present e4); cbn [negb]; run; [|done].
  assert (is_huge_page e4 = false) as Hh4 by (by eapply top_not_huge).
  pose proof (walk_next _ _ _ _ _ E4 Hh4) as W1. cbn [app] in W1.
  destruct (read_level s root [ix4 v] _ (VirtAddr_pdpt_index v) Hwf ltac:(simpl; lia) W1)
    as (e3 & -> & E3); [apply index_range|]. fold (ix3 v) in E3. rewrite E3 in *. run.
  destruct (is_present e3); cbn [negb orb]; run; [|done]. rewrite (Hh3 e3 eq_refl).
  pose proof (walk_next _ _ _ _ _ E3 (Hh3 e3 eq_refl)) as W2. cbn [app] in W2.
  destruct (read_level s root [ix4 v; ix3 v] _ (VirtAddr_pd_index v) Hwf ltac:(simpl; lia) W2)
    as (e2 & -> & E2); [apply index_range|]. fold (ix2 v) in E2. rewrite E2 in *. run.
  destruct (is_present e2); cbn [negb orb]; run; [|done]. by rewrite (Hh2 e2 eq_refl).
Qed.

(** The entry read through it. *)
Lemma leaf_read s root v pt :
  space_wf s root -> walk (tabs s) root [ix4 v; ix3 v; ix2 v] = Some pt ->
  exists e, read_table s pt (VirtAddr_pt_index v) = Done e /\
    uleaf (tabs s) root v = (if is_present e then Some e else None).
Proof.
  intros [Hwf _] Hw.
  exact (read_level s root [ix4 v; ix3 v; ix2 v] pt (VirtAddr_pt_index v) Hwf ltac:(simpl; lia) Hw
    (index_range _ _)).
Qed.

Lemma is_user_vpage v w : vpage v = vpage w -> is_user w -> is_user v.
Proof. unfold is_user. intros (-> & _)%vpage_path. done. Qed.

Lemma is_user_low v : 0 <= v < 2 ^ 47 -> is_user v.
Proof.
  intros Hv. unfold is_user, ix4, VirtAddr_pml4_index. masks. rewrite Z.land_ones, Z.shiftr_div_pow2 by lia.
  assert (0 <= v / 2 ^ 39 < 2 ^ 8) by (split; [apply Z.div_pos; lia|apply Z.div_lt_upper_bound; lia]).
  rewrite Z.mod_small by lia. lia.
Qed.
End usermap.
