(* ===== verification/Pcid.v ===== *)
(** * The PCID allocator (crates/memory/src/pcid.rs)

    A bitmap of 64 words hands out process-context identifiers 1 to 4095.  The
    allocator is shared by all CPUs without a lock; besides the sequential
    reading of [alloc], its loads and compare-and-swaps are the steps of a
    transition system in which any number of threads interleave. *)

From Stdlib Require Import ZArith Lia Btauto.
From stdpp Require Import prelude gmap list.
From S2P Require Import Prelude.

Local Open Scope Z_scope.

Definition MAX_PCID : Z := 4096.
Definition WORDS : nat := 64.

Record Pcid := { pcid_id : Z; pcid_generation : Z }.

Record PcidAllocator := { pa_generation : Z; pa_bitmap : list Z }.

Definition PcidAllocator_new : PcidAllocator :=
  {| pa_generation := 1; pa_bitmap := replicate WORDS 0 |}.

(** The bit [alloc] tries to claim in a word it has read: the lowest clear one,
    never bit 0 of word 0. *)
Definition pcid_pick (word_index : nat) (word : Z) : option Z :=
  let base := Z.of_nat word_index * 64 in
  let free := not64 word in
  let free := if (word_index =? 0)%nat then Z.land free (not64 1) else free in
  if free =? 0 then None else
  let bit := trailing_zeros free in
  if MAX_PCID <=? base + bit then None else Some bit.

(** The scan over the words from [word_index], [k] of them left, when no other
    CPU interferes. *)
Fixpoint pcid_scan (bitmap : list Z) (word_index : nat) (k : nat) : option (Z * list Z) :=
  match k with
  | O => None
  | S k' =>
      if MAX_PCID <=? Z.of_nat word_index * 64 then None else
      word ← bitmap !! word_index;
      match pcid_pick word_index word with
      | None => pcid_scan bitmap (S word_index) k'
      | Some bit =>
          Some (Z.of_nat word_index * 64 + bit,
                <[word_index := Z.lor word (Z.shiftl 1 bit)]> bitmap)
      end
  end.

Definition PcidAllocator_alloc (a : PcidAllocator) : option (Pcid * PcidAllocator) :=
  '(id, bitmap) ← pcid_scan (pa_bitmap a) 0 WORDS;
  Some ({| pcid_id := id; pcid_generation := pa_generation a |},
        {| pa_generation := pa_generation a; pa_bitmap := bitmap |}).

Definition clear_pcid (bitmap : list Z) (id : Z) : list Z :=
  alter (fun w => Z.land w (not64 (Z.shiftl 1 (id mod 64)))) (Z.to_nat (id / 64)) bitmap.

Definition PcidAllocator_free (a : PcidAllocator) (p : Pcid) : PcidAllocator :=
  let id := pcid_id p in
  if (id =? 0) || (MAX_PCID <=? id) then a
  else {| pa_generation := pa_generation a; pa_bitmap := clear_pcid (pa_bitmap a) id |}.

Definition PcidAllocator_bump_generation (a : PcidAllocator) : Z * PcidAllocator :=
  (wrap64 (pa_generation a + 1),
   {| pa_generation := wrap64 (pa_generation a + 1); pa_bitmap := pa_bitmap a |}).

(** ** The bitmap as a set of identifiers *)

Definition bitmap_ok (bm : list Z) : Prop := length bm = WORDS /\ Forall is_u64 bm.

Definition pcid_used (bm : list Z) (id : Z) : bool :=
  match bm !! Z.to_nat (id / 64) with Some w => Z.testbit w (id mod 64) | None => false end.

Lemma not64_testbit w i : is_u64 w -> 0 <= i < 64 -> Z.testbit (not64 w) i = negb (Z.testbit w i).
Proof.
  intros Hw Hi. unfold not64. rewrite Z.lxor_spec, testbit_ones by lia.
  rewrite (proj2 (Z.leb_le _ _)), (proj2 (Z.ltb_lt _ _)) by lia. by destruct (Z.testbit w i).
Qed.

Lemma not64_range w : is_u64 w -> is_u64 (not64 w).
Proof.
  intros Hw. unfold is_u64, not64 in *.
  assert (Z.lxor w (Z.ones 64) = Z.lxor w (Z.ones 64) mod 2 ^ 64) as -> by bitwise.
  by apply Z.mod_pos_bound.
Qed.

(** The candidates of a word: clear bits that are not the reserved identifier. *)
Definition pcid_free (wi : nat) (w : Z) : Z :=
  if (wi =? 0)%nat then Z.land (not64 w) (not64 1) else not64 w.

Lemma pcid_free_bit wi w i : is_u64 w -> 0 <= i < 64 ->
  Z.testbit (pcid_free wi w) i = negb (Z.testbit w i) && negb ((wi =? 0)%nat && (i =? 0)).
Proof.
  intros Hw Hi. unfold pcid_free. destruct (wi =? 0)%nat; cbn [andb negb].
  - rewrite Z.land_spec, !not64_testbit by (done || (unfold is_u64; lia)).
    assert (Z.testbit 1 i = (i =? 0)) as ->; [|done].
    change 1 with (2 ^ 0). rewrite testbit_pow2 by lia. apply Z.eqb_sym.
  - by rewrite andb_true_r, not64_testbit.
Qed.

Lemma pcid_free_range wi w : is_u64 w -> is_u64 (pcid_free wi w).
Proof.
  intros Hw. unfold pcid_free. destruct (wi =? 0)%nat; [|by apply not64_range].
  pose proof (not64_range w Hw) as Hn. pose proof (not64_range 1 ltac:(unfold is_u64; lia)) as H1.
  unfold is_u64 in *. by apply land_range.
Qed.

Lemma pcid_pick_spec wi w : is_u64 w -> (wi < 64)%nat ->
  match pcid_pick wi w with
  | Some bit =>
      0 <= bit < 64 /\ Z.testbit w bit = false /\ 1 <= Z.of_nat wi * 64 + bit < MAX_PCID /\
      forall i, 0 <= i < bit -> Z.of_nat wi * 64 + i <> 0 -> Z.testbit w i = true
  | None => forall i, 0 <= i < 64 -> Z.of_nat wi * 64 + i <> 0 -> Z.testbit w i = true
  end.
Proof.
  intros Hw Hwi. unfold pcid_pick. fold (pcid_free wi w).
  pose proof (pcid_free_range wi w Hw) as Hr. unfold is_u64 in Hr.
  assert (forall i, 0 <= i < 64 -> Z.of_nat wi * 64 + i <> 0 -> Z.testbit (pcid_free wi w) i = false ->
          Z.testbit w i = true) as Hset.
  { intros i Hi Hne Hf. rewrite pcid_free_bit in Hf by done.
    assert ((wi =? 0)%nat && (i =? 0) = false) as Hz.
    { apply andb_false_iff. destruct (Nat.eqb_spec wi 0); [right; apply Z.eqb_neq; lia | by left]. }
    rewrite Hz, andb_true_r in Hf. by apply negb_false_iff. }
  destruct (Z.eqb_spec (pcid_free wi w) 0) as [Hz|Hnz].
  - intros i Hi Hne. apply Hset; [done..|]. by rewrite Hz, Z.testbit_0_l.
  - destruct (trailing_zeros_spec (pcid_free wi w) ltac:(lia)) as (H0 & H1 & H2).
    pose proof (trailing_zeros_lt (pcid_free wi w) 64 ltac:(lia) ltac:(lia)) as Hlt.
    rewrite (proj2 (Z.leb_gt _ _)) by (unfold MAX_PCID; lia).
    rewrite pcid_free_bit in H1 by (done || lia). apply andb_true_iff in H1 as [H1 H3].
    apply negb_true_iff in H1, H3. split_and!; [lia..|done| |unfold MAX_PCID; lia|].
    + destruct (Nat.eqb_spec wi 0); simpl in H3; [apply Z.eqb_neq in H3; lia | lia].
    + intros i Hi Hne. apply Hset; [lia|done|]. by apply H2.
Qed.

Lemma pcid_word bm wi : bitmap_ok bm -> (wi < 64)%nat -> exists w, bm !! wi = Some w /\ is_u64 w.
Proof.
  intros [Hl Hb] Hwi. destruct (lookup_lt_is_Some_2 bm wi) as [w Hw]; [unfold WORDS in *; lia|].
  exists w. split; [done|]. by eapply Forall_lookup_1.
Qed.

Lemma pcid_used_word bm wi i w :
  bm !! wi = Some w -> 0 <= i < 64 -> pcid_used bm (Z.of_nat wi * 64 + i) = Z.testbit w i.
Proof.
  intros Hw Hi. unfold pcid_used.
  replace ((Z.of_nat wi * 64 + i) / 64) with (Z.of_nat wi) by (Z.div_mod_to_equations; lia).
  replace ((Z.of_nat wi * 64 + i) mod 64) with i by (Z.div_mod_to_equations; lia).
  by rewrite Nat2Z.id, Hw.
Qed.

(** Rewriting one bit of one word changes one identifier. *)
Lemma pcid_used_update bm wi w w' bit id :
  bm !! wi = Some w -> 0 <= bit < 64 -> 0 <= id ->
  (forall i, 0 <= i < 64 -> i <> bit -> Z.testbit w' i = Z.testbit w i) ->
  pcid_used (<[wi := w']> bm) id =
  if id =? Z.of_nat wi * 64 + bit then Z.testbit w' bit else pcid_used bm id.
Proof.
  intros Hw Hb Hid Hsame. pose proof (lookup_lt_Some _ _ _ Hw) as Hlt.
  unfold pcid_used. pose proof (Z.div_mod id 64 ltac:(lia)) as Hd.
  pose proof (Z.mod_pos_bound id 64 ltac:(lia)) as Hm.
  destruct (decide (Z.to_nat (id / 64) = wi)) as [Hq|Hq].
  - rewrite Hq, list_lookup_insert_eq, Hw by done. subst wi.
    assert (0 <= id / 64) by (by apply Z.div_pos). rewrite Z2Nat.id by done.
    destruct (Z.eqb_spec id (id / 64 * 64 + bit)) as [He|He].
    + by replace (id mod 64) with bit by lia.
    + apply Hsame; lia.
  - rewrite list_lookup_insert_ne by done.
    destruct (Z.eqb_spec id (Z.of_nat wi * 64 + bit)) as [He|He]; [|done].
    exfalso. apply Hq. rewrite He.
    replace ((Z.of_nat wi * 64 + bit) / 64) with (Z.of_nat wi) by (Z.div_mod_to_equations; lia). lia.
Qed.

Lemma shiftl_1 bit : 0 <= bit -> Z.shiftl 1 bit = 2 ^ bit.
Proof. intros. rewrite Z.shiftl_mul_pow2 by done. lia. Qed.

Lemma pow2_u64 bit : 0 <= bit < 64 -> is_u64 (2 ^ bit).
Proof. intros Hb. unfold is_u64. split; [lia|]. apply Z.pow_lt_mono_r; lia. Qed.

Lemma claim_bit bm wi w bit :
  bitmap_ok bm -> bm !! wi = Some w -> 0 <= bit < 64 ->
  let bm' := <[wi := Z.lor w (Z.shiftl 1 bit)]> bm in
  bitmap_ok bm' /\ forall id, 0 <= id ->
    pcid_used bm' id = (id =? Z.of_nat wi * 64 + bit) || pcid_used bm id.
Proof.
  intros [Hl Hf] Hw Hb bm'. assert (is_u64 w) as Hu by (by eapply Forall_lookup_1).
  unfold bm'. rewrite shiftl_1 by lia. pose proof (pow2_u64 bit Hb) as Hp. split.
  - split; [by rewrite length_insert|]. apply Forall_insert; [done|].
    unfold is_u64 in *. by apply lor_range.
  - intros id Hid. rewrite (pcid_used_update bm wi w _ bit) by
      (done || (intros i Hi Hne; rewrite Z.lor_spec, testbit_pow2 by lia;
        rewrite (proj2 (Z.eqb_neq _ _)) by done; by rewrite orb_false_r)).
    destruct (id =? Z.of_nat wi * 64 + bit); cbn [orb]; [|done].
    rewrite Z.lor_spec, testbit_pow2, Z.eqb_refl by lia. by rewrite orb_true_r.
Qed.

Lemma clear_bit bm id :
  bitmap_ok bm -> 0 <= id < MAX_PCID ->
  bitmap_ok (clear_pcid bm id) /\ forall id', 0 <= id' ->
    pcid_used (clear_pcid bm id) id' = negb (id' =? id) && pcid_used bm id'.
Proof.
  intros Hok Hid. unfold MAX_PCID in Hid. pose proof (Z.mod_pos_bound id 64 ltac:(lia)) as Hm.
  assert (0 <= id / 64 < 64) as Hq by (Z.div_mod_to_equations; lia).
  destruct (pcid_word bm (Z.to_nat (id / 64)) Hok ltac:(lia)) as (w & Hw & Hu).
  pose proof (pow2_u64 (id mod 64) ltac:(lia)) as Hp.
  unfold clear_pcid. rewrite shiftl_1 by lia.
  assert (alter (fun w => Z.land w (not64 (2 ^ (id mod 64)))) (Z.to_nat (id / 64)) bm =
          <[Z.to_nat (id / 64) := Z.land w (not64 (2 ^ (id mod 64)))]> bm) as ->.
  { apply list_eq. intros j. destruct (decide (Z.to_nat (id / 64) = j)) as [<-|].
    - pose proof (lookup_lt_Some _ _ _ Hw). by rewrite list_lookup_alter_eq, Hw, list_lookup_insert_eq.
    - by rewrite list_lookup_alter_ne, list_lookup_insert_ne. }
  pose proof (not64_range _ Hp) as Hn. destruct Hok as [Hl Hf]. split.
  - split; [by rewrite length_insert|]. apply Forall_insert; [done|]. unfold is_u64 in *. apply land_range; lia.
  - intros id' Hid'. rewrite (pcid_used_update bm _ w _ (id mod 64)); [|done|lia|done|].
    2:{ intros i Hi Hne. rewrite Z.land_spec, not64_testbit, testbit_pow2 by (done || lia).
        rewrite (proj2 (Z.eqb_neq _ _)) by done. by rewrite andb_true_r. }
    rewrite Z2Nat.id by lia. replace (id / 64 * 64 + id mod 64) with id by (Z.div_mod_to_equations; lia).
    destruct (Z.eqb_spec id' id) as [->|]; cbn [negb andb]; [|done].
    rewrite Z.land_spec, not64_testbit, testbit_pow2, Z.eqb_refl by (done || lia). apply andb_false_r.
Qed.

(** ** Sequential behaviour *)

Lemma pcid_scan_spec bm k : forall wi,
  bitmap_ok bm -> (wi + k = 64)%nat ->
  (forall id, 1 <= id < Z.of_nat wi * 64 -> pcid_used bm id = true) ->
  match pcid_scan bm wi k with
  | Some (id, bm') =>
      1 <= id < MAX_PCID /\ pcid_used bm id = false /\ bitmap_ok bm' /\
      (forall id', 1 <= id' < id -> pcid_used bm id' = true) /\
      (forall id', 0 <= id' -> pcid_used bm' id' = (id' =? id) || pcid_used bm id')
  | None => forall id, 1 <= id < MAX_PCID -> pcid_used bm id = true
  end.
Proof.
  induction k as [|k IH]; intros wi Hok Hk Hlow; cbn [pcid_scan].
  { intros id Hid. apply Hlow. unfold MAX_PCID in Hid. lia. }
  rewrite (proj2 (Z.leb_gt _ _)) by (unfold MAX_PCID; lia).
  destruct (pcid_word bm wi Hok ltac:(lia)) as (w & Hw & Hu). rewrite Hw. cbn [mbind option_bind].
  assert (forall id, Z.of_nat wi * 64 <= id < Z.of_nat wi * 64 + 64 ->
          pcid_used bm id = Z.testbit w (id - Z.of_nat wi * 64)) as Hin.
  { intros id Hid. rewrite <- (pcid_used_word bm wi _ w) by (done || lia). f_equal. lia. }
  pose proof (pcid_pick_spec wi w Hu ltac:(lia)) as Hp. destruct (pcid_pick wi w) as [bit|].
  - destruct Hp as (Hb & Hfree & Hr & Hset). destruct (claim_bit bm wi w bit Hok Hw Hb) as [Hok' Hu'].
    split_and!; [lia..| |done| |done].
    + rewrite (pcid_used_word bm wi bit w); done.
    + intros id' Hid'. destruct (Z.lt_ge_cases id' (Z.of_nat wi * 64)); [apply Hlow; lia|].
      rewrite Hin by lia. apply Hset; lia.
  - apply (IH (S wi)); [done|lia|]. intros id Hid.
    destruct (Z.lt_ge_cases id (Z.of_nat wi * 64)); [apply Hlow; lia|].
    rewrite Hin by lia. apply Hp; lia.
Qed.

(** [alloc] hands out the least identifier in 1..4095 that is not in use and
    marks it, and nothing else, as used; it fails only when all are in use.
    Freeing the identifier afterwards restores the set in use. *)
Theorem pcid_alloc_least a :
  bitmap_ok (pa_bitmap a) ->
  match PcidAllocator_alloc a with
  | Some (p, a') =>
      1 <= pcid_id p < MAX_PCID /\ pcid_used (pa_bitmap a) (pcid_id p) = false /\
      bitmap_ok (pa_bitmap a') /\
      (forall id, 1 <= id < pcid_id p -> pcid_used (pa_bitmap a) id = true) /\
      (forall id, 0 <= id -> pcid_used (pa_bitmap a') id = (id =? pcid_id p) || pcid_used (pa_bitmap a) id) /\
      (forall id, 0 <= id ->
         pcid_used (pa_bitmap (PcidAllocator_free a' p)) id = pcid_used (pa_bitmap a) id)
  | None => forall id, 1 <= id < MAX_PCID -> pcid_used (pa_bitmap a) id = true
  end.
Proof.
  intros Hok. unfold PcidAllocator_alloc.
  pose proof (pcid_scan_spec (pa_bitmap a) WORDS 0 Hok eq_refl ltac:(lia)) as H.
  destruct (pcid_scan (pa_bitmap a) 0 WORDS) as [[id bm]|]; cbn [mbind option_bind]; [|done].
  destruct H as (Hr & Hu & Hok' & Hlow & Hnew). cbn [pcid_id pa_bitmap].
  split_and!; [lia..|done|done|done|done|]. intros i Hi. unfold PcidAllocator_free. cbn [pcid_id].
  rewrite (proj2 (Z.eqb_neq id 0)), (proj2 (Z.leb_gt MAX_PCID id)) by lia. cbn [orb pa_bitmap].
  destruct (clear_bit bm id Hok' ltac:(lia)) as [_ Hc]. rewrite Hc, Hnew by done.
  destruct (Z.eqb_spec i id) as [->|]; [by rewrite Hu | done].
Qed.

Lemma bitmap_new_ok : bitmap_ok (pa_bitmap PcidAllocator_new).
Proof. split; [done|]. apply Forall_replicate. unfold is_u64. lia. Qed.

Lemma pcid_alloc_least_witness :
  match PcidAllocator_alloc PcidAllocator_new with
  | Some (p, a') => pcid_id p = 1 /\ pcid_used (pa_bitmap a') 1 = true
  | None => False
  end.
Proof.
  pose proof (pcid_alloc_least PcidAllocator_new bitmap_new_ok) as H.
  destruct (PcidAllocator_alloc PcidAllocator_new) as [[p a']|] eqn:E.
  - destruct H as (_ & _ & _ & _ & Hn & _). vm_compute in E. injection E as <- <-.
    split; [reflexivity | by rewrite Hn].
  - vm_compute in E. discriminate.
Defined.

(** ** Interleaved threads

    A thread is outside the allocator, about to load a word, about to swap with
    the word it last observed, holding an identifier, or was refused. *)

Inductive pthread :=
| TIdle
| TLoad (word_index : nat)
| TTry (word_index : nat) (word : Z)
| THold (id : Z)
| TRefused.

(** One atomic step of a thread; [weak] lets [compare_exchange_weak] fail
    without a conflicting write. *)
Definition pthread_step (bm : list Z) (th : pthread) (weak : bool) : option (list Z * pthread) :=
  match th with
  | TIdle => Some (bm, TLoad 0)
  | TLoad wi =>
      if (WORDS <=? wi)%nat || (MAX_PCID <=? Z.of_nat wi * 64) then Some (bm, TRefused)
      else word ← bm !! wi; Some (bm, TTry wi word)
  | TTry wi word =>
      match pcid_pick wi word with
      | None => Some (bm, TLoad (S wi))
      | Some bit =>
          observed ← bm !! wi;
          if (observed =? word) && negb weak
          then Some (<[wi := Z.lor word (Z.shiftl 1 bit)]> bm, THold (Z.of_nat wi * 64 + bit))
          else Some (bm, TTry wi observed)
      end
  | THold id => Some (clear_pcid bm id, TIdle)
  | TRefused => Some (bm, TIdle)
  end.

Record pcid_system := { ps_bitmap : list Z; ps_threads : gmap nat pthread }.

Inductive pcid_step : pcid_system -> pcid_system -> Prop :=
| pcid_step_thread s t th weak bm' th' :
    ps_threads s !! t = Some th -> pthread_step (ps_bitmap s) th weak = Some (bm', th') ->
    pcid_step s {| ps_bitmap := bm'; ps_threads := <[t := th']> (ps_threads s) |}.

(** The bitmap is exactly the set of identifiers held, each by one thread. *)
Record pcid_inv (s : pcid_system) : Prop := {
  pi_bitmap : bitmap_ok (ps_bitmap s);
  pi_try t wi w : ps_threads s !! t = Some (TTry wi w) -> (wi < 64)%nat /\ is_u64 w;
  pi_held t id : ps_threads s !! t = Some (THold id) ->
    1 <= id < MAX_PCID /\ pcid_used (ps_bitmap s) id = true;
  pi_used id : 0 <= id -> pcid_used (ps_bitmap s) id = true ->
    exists t, ps_threads s !! t = Some (THold id);
  pi_unique t u id : ps_threads s !! t = Some (THold id) -> ps_threads s !! u = Some (THold id) -> t = u
}.

Definition not_holding (th : pthread) : Prop := match th with THold _ => False | _ => True end.
Definition try_ok (th : pthread) : Prop :=
  match th with TTry wi w => (wi < 64)%nat /\ is_u64 w | _ => True end.

(** A step that neither claims nor frees. *)
Lemma pcid_inv_local s t th th' :
  pcid_inv s -> ps_threads s !! t = Some th -> not_holding th -> not_holding th' -> try_ok th' ->
  pcid_inv {| ps_bitmap := ps_bitmap s; ps_threads := <[t := th']> (ps_threads s) |}.
Proof.
  intros Hi Ht Hn Hn' Htry.
  assert (forall u id, <[t := th']> (ps_threads s) !! u = Some (THold id) <->
                       ps_threads s !! u = Some (THold id)) as Hhold.
  { intros u id. destruct (decide (u = t)) as [->|]; [|by rewrite lookup_insert_ne].
    rewrite lookup_insert_eq, Ht. split; intros [= ->]; done. }
  constructor; cbn [ps_bitmap ps_threads]; [apply Hi|..].
  - intros u wi w. rewrite lookup_insert_Some. intros [[-> ->]|[_ Hu]]; [done | by eapply pi_try].
  - intros u id. rewrite Hhold. apply Hi.
  - intros id H0 Hid. destruct (pi_used _ Hi id H0 Hid) as [u Hu]. exists u. by apply Hhold.
  - intros u v id. rewrite !Hhold. apply Hi.
Qed.

Lemma pcid_inv_claim s t wi w bit :
  pcid_inv s -> ps_threads s !! t = Some (TTry wi w) -> ps_bitmap s !! wi = Some w ->
  pcid_pick wi w = Some bit ->
  pcid_inv {| ps_bitmap := <[wi := Z.lor w (Z.shiftl 1 bit)]> (ps_bitmap s);
              ps_threads := <[t := THold (Z.of_nat wi * 64 + bit)]> (ps_threads s) |}.
Proof.
  intros Hi Ht Hw Hp. destruct (pi_try _ Hi t wi w Ht) as [Hwi Hu].
  pose proof (pcid_pick_spec wi w Hu Hwi) as Hs. rewrite Hp in Hs. destruct Hs as (Hb & Hfree & Hr & _).
  destruct (claim_bit _ wi w bit (pi_bitmap _ Hi) Hw Hb) as [Hok' Hused].
  set (id0 := Z.of_nat wi * 64 + bit) in *.
  assert (pcid_used (ps_bitmap s) id0 = false) as Hnew by (unfold id0; by rewrite (pcid_used_word _ wi bit w)).
  assert (forall u, ps_threads s !! u <> Some (THold id0)) as Hnobody.
  { intros u Hc. destruct (pi_held _ Hi u id0 Hc) as [_ ?]. congruence. }
  constructor; cbn [ps_bitmap ps_threads]; [done|..].
  - intros u wi' w'. rewrite lookup_insert_Some. intros [[_ ?]|[_ Hu']]; [done | by eapply pi_try].
  - intros u id. rewrite lookup_insert_Some. intros [[<- [= <-]]|[_ Hu']].
    + split; [done|]. rewrite Hused by lia. by rewrite Z.eqb_refl.
    + destruct (pi_held _ Hi u id Hu') as [? Hid]. split; [done|]. rewrite Hused by lia. by rewrite Hid, orb_true_r.
  - intros id H0. rewrite Hused by done. destruct (Z.eqb_spec id id0) as [->|Hne]; cbn [orb].
    + intros _. exists t. apply lookup_insert_eq.
    + intros Hid. destruct (pi_used _ Hi id H0 Hid) as [u Hu']. exists u.
      rewrite lookup_insert_ne; [done|]. intros ->. congruence.
  - intros u v id. rewrite !lookup_insert_Some.
    intros [[<- [= <-]]|[_ Hu']] [[<- E]|[_ Hv]]; [done| |injection E as <-|by eapply pi_unique].
    + by destruct (Hnobody v).
    + by destruct (Hnobody u).
Qed.

Lemma pcid_inv_free s t id0 :
  pcid_inv s -> ps_threads s !! t = Some (THold id0) ->
  pcid_inv {| ps_bitmap := clear_pcid (ps_bitmap s) id0; ps_threads := <[t := TIdle]> (ps_threads s) |}.
Proof.
  intros Hi Ht. destruct (pi_held _ Hi t id0 Ht) as [Hr _].
  destruct (clear_bit (ps_bitmap s) id0 (pi_bitmap _ Hi) ltac:(lia)) as [Hok' Hused].
  constructor; cbn [ps_bitmap ps_threads]; [done|..].
  - intros u wi w. rewrite lookup_insert_Some. intros [[_ ?]|[_ Hu]]; [done | by eapply pi_try].
  - intros u id. rewrite lookup_insert_Some. intros [[_ ?]|[Hne Hu]]; [done|].
    destruct (pi_held _ Hi u id Hu) as [? Hid]. split; [done|]. rewrite Hused, Hid, andb_true_r by lia.
    apply negb_true_iff, Z.eqb_neq. intros ->. apply Hne. by eapply pi_unique.
  - intros id H0. rewrite Hused by done. intros [Hne Hid]%andb_true_iff.
    apply negb_true_iff, Z.eqb_neq in Hne. destruct (pi_used _ Hi id H0 Hid) as [u Hu]. exists u.
    rewrite lookup_insert_ne; [done|]. intros ->. congruence.
  - intros u v id. rewrite !lookup_insert_Some.
    intros [[_ ?]|[_ Hu]] [[_ ?]|[_ Hv]]; [done..|]. by eapply pi_unique.
Qed.

Lemma pcid_inv_step s s' : pcid_inv s -> pcid_step s s' -> pcid_inv s'.
Proof.
  intros Hi Hs. destruct Hs as [s t th weak bm' th' Ht Hstep]. destruct th as [|wi|wi w|id|]; cbn [pthread_step] in Hstep.
  - injection Hstep as <- <-. by apply (pcid_inv_local _ _ _ _ Hi Ht).
  - destruct ((WORDS <=? wi)%nat || (MAX_PCID <=? Z.of_nat wi * 64)) eqn:Hg.
    + injection Hstep as <- <-. by apply (pcid_inv_local _ _ _ _ Hi Ht).
    + apply orb_false_iff in Hg as [Hg%Nat.leb_gt _]. unfold WORDS in Hg.
      destruct (pcid_word _ wi (pi_bitmap _ Hi) ltac:(lia)) as (w & Hw & Hu).
      rewrite Hw in Hstep. injection Hstep as <- <-. by apply (pcid_inv_local _ _ _ _ Hi Ht).
  - destruct (pi_try _ Hi t wi w Ht) as [Hwi Hu]. destruct (pcid_pick wi w) as [bit|] eqn:Hp.
    + destruct (pcid_word _ wi (pi_bitmap _ Hi) ltac:(lia)) as (w' & Hw & Hu').
      rewrite Hw in Hstep. cbn [mbind option_bind] in Hstep.
      destruct (Z.eqb_spec w' w) as [Heq|]; [destruct weak|]; injection Hstep as <- <-.
      * by apply (pcid_inv_local _ _ _ _ Hi Ht).
      * subst w'. by apply pcid_inv_claim.
      * by apply (pcid_inv_local _ _ _ _ Hi Ht).
    + injection Hstep as <- <-. by apply (pcid_inv_local _ _ _ _ Hi Ht).
  - injection Hstep as <- <-. by apply pcid_inv_free.
  - injection Hstep as <- <-. by apply (pcid_inv_local _ _ _ _ Hi Ht).
Qed.

(** Any number of idle threads over the fresh allocator. *)
Definition pcid_start (n : nat) : pcid_system :=
  {| ps_bitmap := pa_bitmap PcidAllocator_new;
     ps_threads := list_to_map ((fun t => (t, TIdle)) <$> seq 0 n) |}.

Lemma pcid_start_threads n t th : ps_threads (pcid_start n) !! t = Some th -> th = TIdle.
Proof.
  intros Hl. apply elem_of_list_to_map_2, list_elem_of_fmap in Hl as (? & [= _ ->] & _). done.
Qed.

Lemma pcid_inv_start n : pcid_inv (pcid_start n).
Proof.
  constructor.
  - apply bitmap_new_ok.
  - intros t wi w H%pcid_start_threads. done.
  - intros t id H%pcid_start_threads. done.
  - intros id _. unfold pcid_used. cbn [pcid_start ps_bitmap pa_bitmap PcidAllocator_new].
    destruct (replicate WORDS 0 !! Z.to_nat (id / 64)) as [w|] eqn:E; [|done].
    apply lookup_replicate in E as [-> _]. by rewrite Z.testbit_0_l.
  - intros t u id H%pcid_start_threads. done.
Qed.

(** C27: in every interleaving of the loads, compare-and-swaps and clears of any
    number of threads, no identifier is held by two threads, every identifier
    held is in 1..4095, and an identifier is marked in the bitmap exactly while
    some thread holds it. *)
Theorem pcid_mutual_exclusion n s :
  rtc pcid_step (pcid_start n) s ->
  (forall t u id, ps_threads s !! t = Some (THold id) -> ps_threads s !! u = Some (THold id) -> t = u) /\
  (forall id, 0 <= id -> pcid_used (ps_bitmap s) id = true <->
     exists t, ps_threads s !! t = Some (THold id)) /\
  (forall t id, ps_threads s !! t = Some (THold id) -> 1 <= id < MAX_PCID).
Proof.
  intros Hrun. assert (pcid_inv s) as Hi
    by exact (rtc_invariant _ _ _ _ (pcid_inv_start n) pcid_inv_step Hrun).
  split_and!; [apply Hi| |intros t id Hh; by apply (pi_held _ Hi t)].
  intros id H0. split; [by apply pi_used|]. intros [t Ht]. by apply (pi_held _ Hi t).
Qed.

(** Two threads race for the same word: the second one's swap fails and it takes
    the next bit. *)
Definition race : list (nat * bool) :=
  [(0, false); (1, false); (0, false); (1, false); (0, false); (1, false); (1, false)]%nat.

Fixpoint run_schedule (s : pcid_system) (sched : list (nat * bool)) : option pcid_system :=
  match sched with
  | [] => Some s
  | (t, weak) :: sched' =>
      th ← ps_threads s !! t;
      '(bm, th') ← pthread_step (ps_bitmap s) th weak;
      run_schedule {| ps_bitmap := bm; ps_threads := <[t := th']> (ps_threads s) |} sched'
  end.

Lemma run_schedule_steps sched : forall s s', run_schedule s sched = Some s' -> rtc pcid_step s s'.
Proof.
  induction sched as [|[t weak] sched IH]; intros s s' Hr; cbn [run_schedule] in Hr.
  - by injection Hr as ->.
  - destruct (ps_threads s !! t) as [th|] eqn:Ht; [|done]. cbn [mbind option_bind] in Hr.
    destruct (pthread_step (ps_bitmap s) th weak) as [[bm th']|] eqn:Hs; [|done].
    eapply rtc_l; [by econstructor | by apply IH].
Qed.

Lemma pcid_mutual_exclusion_witness : exists s,
  rtc pcid_step (pcid_start 2) s /\ ps_threads s !! 0%nat = Some (THold 1) /\
  ps_threads s !! 1%nat = Some (THold 2) /\ pcid_used (ps_bitmap s) 2 = true.
Proof.
  destruct (run_schedule (pcid_start 2) race) as [s|] eqn:E.
  - assert (rtc pcid_step (pcid_start 2) s) as Hrun by (by eapply run_schedule_steps).
    assert (ps_threads s !! 0%nat = Some (THold 1) /\ ps_threads s !! 1%nat = Some (THold 2)) as [H0 H1].
    { vm_compute in E. injection E as <-. split; reflexivity. }
    destruct (pcid_mutual_exclusion 2 s Hrun) as (_ & Hu & _).
    exists s. split_and!; try done. apply Hu; [lia | by exists 1%nat].
  - vm_compute in E. discriminate.
Defined.
