(* ===== verification/Elf.v ===== *)
(** * The ELF64 loader's parser (crates/proc/src/elf.rs)

    A file is a list of bytes.  Packed headers are read at fixed offsets, little
    endian.  [parse_elf] returns the source's [Result]; a slice out of range
    would panic. *)

From Stdlib Require Import ZArith Lia.
From stdpp Require Import prelude list.
From S2P Require Import Prelude Paging.

Local Open Scope Z_scope.

Definition PT_LOAD : Z := 1.
Definition PT_NULL : Z := 0.
Definition PF_X : Z := 1.
Definition PF_W : Z := 2.
Definition PF_R : Z := 4.
Definition ELF64_PHDR_SIZE : Z := 56.
Definition MAX_LOAD_SEGMENTS : Z := 8.
Definition ELF_PAGE_SIZE : Z := 4096.
Definition USER_TOP : Z := 0x800000000000.

Inductive ElfError :=
| TooShort | BadMagic | NotElf64 | NotLittleEndian | NotExecutable | NotX86_64
| TooManySegments | BadAlignment | SegmentInKernelSpace | OffsetOutOfBounds.

#[export] Instance ElfError_eq_dec : EqDecision ElfError.
Proof. solve_decision. Defined.

Record LoadSegment := {
  seg_vaddr : Z;
  seg_filesz : Z;
  seg_memsz : Z;
  seg_data_off : Z;
  seg_flags : Z
}.

(** The fixed array of segments with its count is the list of the segments
    stored so far. *)
Record ElfInfo := { elf_entry : Z; elf_segments : list LoadSegment }.

(** ** Reading packed structures *)

(** [n] bytes at [off], little endian. *)
Fixpoint le_bytes (bs : list Z) : Z :=
  match bs with
  | [] => 0
  | b :: bs' => Z.lor b (Z.shiftl (le_bytes bs') 8)
  end.

Definition le_at (data : list Z) (off n : nat) : Z := le_bytes (take n (drop off data)).

Record Elf64Header := {
  e_ident : list Z;
  e_type : Z;
  e_machine : Z;
  e_version : Z;
  e_entry : Z;
  e_phoff : Z;
  e_shoff : Z;
  e_flags : Z;
  e_ehsize : Z;
  e_phentsize : Z;
  e_phnum : Z;
  e_shentsize : Z;
  e_shnum : Z;
  e_shstrndx : Z
}.

Record Elf64Phdr := {
  p_type : Z;
  p_flags : Z;
  p_offset : Z;
  p_vaddr : Z;
  p_paddr : Z;
  p_filesz : Z;
  p_memsz : Z;
  p_align : Z
}.

Definition read_header (data : list Z) : Elf64Header + ElfError :=
  if Z.of_nat (length data) <? 64 then inr TooShort
  else inl {| e_ident := take 16 data;
              e_type := le_at data 16 2; e_machine := le_at data 18 2;
              e_version := le_at data 20 4; e_entry := le_at data 24 8;
              e_phoff := le_at data 32 8; e_shoff := le_at data 40 8;
              e_flags := le_at data 48 4; e_ehsize := le_at data 52 2;
              e_phentsize := le_at data 54 2; e_phnum := le_at data 56 2;
              e_shentsize := le_at data 58 2; e_shnum := le_at data 60 2;
              e_shstrndx := le_at data 62 2 |}.

Definition read_phdr (data : list Z) : Elf64Phdr + ElfError :=
  if Z.of_nat (length data) <? 56 then inr OffsetOutOfBounds
  else inl {| p_type := le_at data 0 4; p_flags := le_at data 4 4;
              p_offset := le_at data 8 8; p_vaddr := le_at data 16 8;
              p_paddr := le_at data 24 8;
              p_filesz := le_at data 32 8; p_memsz := le_at data 40 8;
              p_align := le_at data 48 8 |}.

(** [&data[a..b]]: panics unless [a <= b <= data.len()]. *)
Definition slice {A} (data : list A) (a b : Z) : outcome (list A) :=
  if (a <=? b) && (b <=? Z.of_nat (length data))
  then Done (take (Z.to_nat (b - a)) (drop (Z.to_nat a) data)) else Panic.

(** One round of the program-header loop: the new list of segments. *)
Definition parse_phdr (data_len : Z) (segs : list LoadSegment) (ph : Elf64Phdr) :
    list LoadSegment + ElfError :=
  if p_type ph =? PT_NULL then inl segs
  else if negb (p_type ph =? PT_LOAD) then inl segs
  else if Z.of_nat (length segs) =? MAX_LOAD_SEGMENTS then inr TooManySegments
  else if (p_align ph <? ELF_PAGE_SIZE) || negb (is_power_of_two (p_align ph)) then inr BadAlignment
  else if USER_TOP <=? p_vaddr ph then inr SegmentInKernelSpace
  else match checked_add (p_vaddr ph) (p_memsz ph) with
  | None => inr SegmentInKernelSpace
  | Some mem_end =>
      if USER_TOP <? mem_end then inr SegmentInKernelSpace
      else if p_memsz ph <? p_filesz ph then inr OffsetOutOfBounds
      else match checked_add (p_offset ph) (p_filesz ph) with
      | None => inr OffsetOutOfBounds
      | Some file_end =>
          if data_len <? file_end then inr OffsetOutOfBounds
          else
            let page_offset := Z.land (p_vaddr ph) (ELF_PAGE_SIZE - 1) in
            if p_offset ph <? page_offset then inr OffsetOutOfBounds
            else inl (segs ++
              [{| seg_vaddr := Z.land (p_vaddr ph) (not64 (ELF_PAGE_SIZE - 1));
                  seg_filesz := wrap64 (p_filesz ph + page_offset);
                  seg_memsz := wrap64 (p_memsz ph + page_offset);
                  seg_data_off := wrap64 (p_offset ph - page_offset);
                  seg_flags := p_flags ph |}])
      end
  end.

(** [for idx in 0..phnum], with [k] rounds left. *)
Fixpoint parse_phdrs (data : list Z) (phoff phentsize : Z) (idx : Z) (k : nat)
    (segs : list LoadSegment) : outcome (list LoadSegment + ElfError) :=
  match k with
  | O => Done (inl segs)
  | S k' =>
      let off := wrap64 (phoff + wrap64 (idx * phentsize)) in
      sl ← slice data off (wrap64 (off + phentsize));
      match read_phdr sl with
      | inr e => Done (inr e)
      | inl ph =>
          match parse_phdr (Z.of_nat (length data)) segs ph with
          | inr e => Done (inr e)
          | inl segs' => parse_phdrs data phoff phentsize (idx + 1) k' segs'
          end
      end
  end.

Definition parse_elf (data : list Z) : outcome (ElfInfo + ElfError) :=
  if Z.of_nat (length data) <? 64 then Done (inr TooShort) else
  match read_header data with
  | inr e => Done (inr e)
  | inl h =>
      if negb (bool_decide (take 4 (e_ident h) = [0x7f; 0x45; 0x4c; 0x46])) then Done (inr BadMagic)
      else if negb (bool_decide (e_ident h !! 4%nat = Some 2)) then Done (inr NotElf64)
      else if negb (bool_decide (e_ident h !! 5%nat = Some 1)) then Done (inr NotLittleEndian)
      else if negb (e_type h =? 2) then Done (inr NotExecutable)
      else if negb (e_machine h =? 62) then Done (inr NotX86_64)
      else if negb (e_phentsize h =? ELF64_PHDR_SIZE) then Done (inr OffsetOutOfBounds)
      else if MAX_LOAD_SEGMENTS <? e_phnum h then Done (inr TooManySegments)
      else match checked_mul (e_phnum h) (e_phentsize h) with
      | None => Done (inr OffsetOutOfBounds)
      | Some phdr_bytes =>
          match checked_add (e_phoff h) phdr_bytes with
          | None => Done (inr OffsetOutOfBounds)
          | Some phdr_end =>
              if Z.of_nat (length data) <? phdr_end then Done (inr OffsetOutOfBounds)
              else
                r ← parse_phdrs data (e_phoff h) (e_phentsize h) 0 (Z.to_nat (e_phnum h)) [];
                match r with
                | inr e => Done (inr e)
                | inl segs => Done (inl {| elf_entry := e_entry h; elf_segments := segs |})
                end
          end
      end
  end.

(** ** What a successful parse guarantees *)

Definition byte_list (data : list Z) : Prop := Forall (fun b => 0 <= b < 256) data.

(** A segment the loader can copy without further checks. *)
Record seg_ok (len : Z) (s : LoadSegment) : Prop := {
  so_vaddr : 0 <= seg_vaddr s /\ seg_vaddr s mod 4096 = 0;
  so_mem : seg_vaddr s + seg_memsz s <= USER_TOP;
  so_sizes : 0 <= seg_filesz s <= seg_memsz s;
  so_file : 0 <= seg_data_off s /\ seg_data_off s + seg_filesz s <= len
}.

Lemma le_bytes_range bs : byte_list bs -> 0 <= le_bytes bs < 2 ^ (8 * Z.of_nat (length bs)).
Proof.
  induction 1 as [|b bs Hb Hbs IH]; [simpl; lia|]. cbn [le_bytes length].
  rewrite Z.lor_comm, lor_disjoint_add by lia.
  replace (8 * Z.of_nat (S (length bs))) with (8 * Z.of_nat (length bs) + 8) by lia.
  rewrite Z.pow_add_r by lia. lia.
Qed.

Lemma le_at_range data off n : byte_list data -> 0 <= le_at data off n < 2 ^ (8 * Z.of_nat n).
Proof.
  intros Hd. unfold le_at.
  pose proof (le_bytes_range (take n (drop off data)) ltac:(by apply Forall_take, Forall_drop)) as Hr.
  split; [lia|]. eapply Z.lt_le_trans; [apply Hr|]. apply Z.pow_le_mono_r; [lia|].
  rewrite length_take. lia.
Qed.

Definition phdr_ok (ph : Elf64Phdr) : Prop :=
  is_u64 (p_offset ph) /\ is_u64 (p_vaddr ph) /\ is_u64 (p_filesz ph) /\ is_u64 (p_memsz ph).

Lemma read_phdr_ok data ph : byte_list data -> read_phdr data = inl ph -> phdr_ok ph.
Proof.
  intros Hd. unfold read_phdr. destruct (Z.of_nat (length data) <? 56); [done|].
  intros [= <-]. unfold phdr_ok, is_u64. simpl p_offset. simpl p_vaddr. simpl p_filesz. simpl p_memsz.
  pose proof (le_at_range data 8 8 Hd). pose proof (le_at_range data 16 8 Hd).
  pose proof (le_at_range data 32 8 Hd). pose proof (le_at_range data 40 8 Hd).
  change (8 * Z.of_nat 8) with 64 in *. done.
Qed.

(** The segment a loadable header describes, extended down to its page boundary. *)
Definition segment_of (ph : Elf64Phdr) : LoadSegment :=
  let page_offset := p_vaddr ph mod 4096 in
  {| seg_vaddr := p_vaddr ph - page_offset;
     seg_filesz := p_filesz ph + page_offset;
     seg_memsz := p_memsz ph + page_offset;
     seg_data_off := p_offset ph - page_offset;
     seg_flags := p_flags ph |}.

Definition is_load (ph : Elf64Phdr) : bool := p_type ph =? PT_LOAD.

Lemma parse_phdr_inl len segs ph segs' :
  phdr_ok ph -> len < 2 ^ 63 -> parse_phdr len segs ph = inl segs' ->
  if is_load ph
  then segs' = segs ++ [segment_of ph] /\ seg_ok len (segment_of ph) /\ length segs <> 8%nat
  else segs' = segs.
Proof.
  intros (Ho & Hv & Hf & Hm) Hlen. unfold parse_phdr, is_load, PT_NULL, PT_LOAD.
  destruct (Z.eqb_spec (p_type ph) 0) as [->|_]; [by intros [= <-]|].
  destruct (p_type ph =? 1); cbn [negb]; [|by intros [= <-]].
  destruct (Z.eqb_spec (Z.of_nat (length segs)) MAX_LOAD_SEGMENTS) as [|Hn]; [done|].
  destruct ((p_align ph <? ELF_PAGE_SIZE) || negb (is_power_of_two (p_align ph))); [done|].
  destruct (Z.leb_spec USER_TOP (p_vaddr ph)) as [|Hvt]; [done|].
  destruct (checked_add (p_vaddr ph) (p_memsz ph)) as [me|] eqn:Hme; [|done].
  apply checked_add_Some in Hme as [-> Hme].
  destruct (Z.ltb_spec USER_TOP (p_vaddr ph + p_memsz ph)) as [|Hmt]; [done|].
  destruct (Z.ltb_spec (p_memsz ph) (p_filesz ph)) as [|Hfm]; [done|].
  destruct (checked_add (p_offset ph) (p_filesz ph)) as [fe|] eqn:Hfe; [|done].
  apply checked_add_Some in Hfe as [-> Hfe].
  destruct (Z.ltb_spec len (p_offset ph + p_filesz ph)) as [|Hfl]; [done|].
  unfold ELF_PAGE_SIZE. change (4096 - 1) with (Z.ones 12). rewrite Z.land_ones by lia.
  destruct (Z.ltb_spec (p_offset ph) (p_vaddr ph mod 2 ^ 12)) as [|Hop]; [done|].
  intros [= <-]. rewrite land_not_ones by (done || lia).
  unfold USER_TOP, MAX_LOAD_SEGMENTS, is_u64, segment_of in *. change (2 ^ 12) with 4096 in *.
  pose proof (Z.mod_pos_bound (p_vaddr ph) 4096 ltac:(lia)).
  rewrite !wrap64_small by (unfold is_u64; lia).
  split_and!; [done| |lia].
  constructor; simpl; unfold USER_TOP; try lia. Z.div_mod_to_equations. lia.
Qed.

(** The bytes of header [idx], and the loadable headers among the [k] from [idx] on. *)
Definition phdr_at (data : list Z) (phoff idx : Z) : list Z :=
  take 56 (drop (Z.to_nat (phoff + idx * 56)) data).

Fixpoint load_headers (data : list Z) (phoff idx : Z) (k : nat) : list Elf64Phdr :=
  match k with
  | O => []
  | S k' =>
      match read_phdr (phdr_at data phoff idx) with
      | inl ph => (if is_load ph then [ph] else []) ++ load_headers data phoff (idx + 1) k'
      | inr _ => []
      end
  end.

Lemma parse_phdrs_spec data phoff k : forall idx segs,
  byte_list data -> Z.of_nat (length data) < 2 ^ 63 ->
  0 <= phoff -> 0 <= idx -> phoff + (idx + Z.of_nat k) * 56 <= Z.of_nat (length data) ->
  Forall (seg_ok (Z.of_nat (length data))) segs -> (length segs <= 8)%nat ->
  match parse_phdrs data phoff 56 idx k segs with
  | Done (inl segs') =>
      segs' = segs ++ map segment_of (load_headers data phoff idx k) /\
      Forall (seg_ok (Z.of_nat (length data))) segs' /\ (length segs' <= 8)%nat
  | Done (inr _) => True
  | Panic => False
  end.
Proof.
  induction k as [|k IH]; intros idx segs Hd Hlen Hp Hi Hb Hs Hl; cbn [parse_phdrs load_headers].
  - by rewrite app_nil_r.
  - rewrite (wrap64_small (idx * 56)) by (unfold is_u64; lia).
    rewrite (wrap64_small (phoff + idx * 56)) by (unfold is_u64; lia).
    rewrite (wrap64_small (phoff + idx * 56 + 56)) by (unfold is_u64; lia).
    unfold slice. rewrite (proj2 (Z.leb_le _ _)), (proj2 (Z.leb_le _ _)) by lia. cbn [andb]. run.
    rewrite Z.add_simpl_l. change (take (Z.to_nat 56) (drop (Z.to_nat (phoff + idx * 56)) data))
      with (phdr_at data phoff idx).
    assert (byte_list (phdr_at data phoff idx)) as Hsl by (by apply Forall_take, Forall_drop).
    destruct (read_phdr (phdr_at data phoff idx)) as [ph|] eqn:Hr; [|done].
    destruct (parse_phdr (Z.of_nat (length data)) segs ph) as [segs'|] eqn:Hph; [|done].
    apply parse_phdr_inl in Hph; [|by eapply read_phdr_ok|done].
    destruct (is_load ph); [destruct Hph as (-> & Hok & Hn8) | subst segs'].
    + specialize (IH (idx + 1) (segs ++ [segment_of ph])). cbn [map app].
      rewrite <- app_assoc in IH. apply IH; try (done || lia).
      * by apply Forall_app_2; [|apply Forall_singleton].
      * rewrite length_app. simpl. lia.
    + cbn [app]. apply IH; (done || lia).
Qed.

(** [parse_elf] never panics, and what it accepts is loadable: the segments
    are exactly the loadable program headers in file order, each starts on a page
    boundary, lies below the user-space limit, and has its file bytes inside the
    file; there are at most eight. *)
Theorem parse_elf_safe data :
  byte_list data -> Z.of_nat (length data) < 2 ^ 63 ->
  match parse_elf data with
  | Done (inl info) =>
      elf_segments info =
        map segment_of (load_headers data (le_at data 32 8) 0 (Z.to_nat (le_at data 56 2))) /\
      Forall (seg_ok (Z.of_nat (length data))) (elf_segments info) /\
      (length (elf_segments info) <= 8)%nat /\ elf_entry info = le_at data 24 8
  | Done (inr _) => True
  | Panic => False
  end.
Proof.
  intros Hd Hlen. unfold parse_elf, read_header.
  destruct (Z.of_nat (length data) <? 64); [done|]. cbn [e_ident e_type e_machine e_phentsize e_phnum e_phoff].
  destruct (negb (bool_decide _)); [done|]. destruct (negb (bool_decide _)); [done|].
  destruct (negb (bool_decide _)); [done|].
  destruct (negb (le_at data 16 2 =? 2)); [done|]. destruct (negb (le_at data 18 2 =? 62)); [done|].
  unfold ELF64_PHDR_SIZE. destruct (Z.eqb_spec (le_at data 54 2) 56) as [->|]; [|done]. cbn [negb].
  destruct (MAX_LOAD_SEGMENTS <? le_at data 56 2); [done|].
  destruct (checked_mul (le_at data 56 2) 56) as [pb|] eqn:Hm; [|done].
  apply checked_mul_Some in Hm as [-> _].
  destruct (checked_add (le_at data 32 8) _) as [pe|] eqn:Ha; [|done].
  apply checked_add_Some in Ha as [-> _].
  destruct (Z.ltb_spec (Z.of_nat (length data)) (le_at data 32 8 + le_at data 56 2 * 56)); [done|].
  pose proof (le_at_range data 32 8 Hd). pose proof (le_at_range data 56 2 Hd).
  pose proof (parse_phdrs_spec data (le_at data 32 8) (Z.to_nat (le_at data 56 2)) 0 []
    Hd Hlen ltac:(lia) ltac:(lia) ltac:(lia) ltac:(constructor) ltac:(simpl; lia)) as Hs.
  destruct (parse_phdrs data (le_at data 32 8) 56 0 _ []) as [[segs|e]|]; run; [|done..].
  cbn [elf_segments elf_entry]. naive_solver.
Qed.

(** An executable with one loadable header, of 0x10 file bytes at 0x401010. *)
Definition demo_elf : list Z :=
  [0x7f; 0x45; 0x4c; 0x46; 2; 1; 1; 0] ++ replicate 8 0 ++
  [2; 0; 62; 0; 1; 0; 0; 0] ++ [0x10; 0x10; 0x40; 0; 0; 0; 0; 0] ++
  [64; 0; 0; 0; 0; 0; 0; 0] ++ replicate 8 0 ++ [0; 0; 0; 0; 64; 0; 56; 0; 1; 0; 0; 0; 0; 0; 0; 0] ++
  [1; 0; 0; 0; 5; 0; 0; 0] ++ [0x10; 0; 0; 0; 0; 0; 0; 0] ++ [0x10; 0x10; 0x40; 0; 0; 0; 0; 0] ++
  replicate 8 0 ++ [0x10; 0; 0; 0; 0; 0; 0; 0] ++ [0x20; 0; 0; 0; 0; 0; 0; 0] ++
  [0; 0x10; 0; 0; 0; 0; 0; 0].

Lemma parse_elf_safe_witness :
  parse_elf demo_elf =
    Done (inl {| elf_entry := 0x401010;
                 elf_segments := [{| seg_vaddr := 0x401000; seg_filesz := 0x20; seg_memsz := 0x30;
                                     seg_data_off := 0; seg_flags := 5 |}] |}) /\
  match parse_elf demo_elf with
  | Done (inl info) => Forall (seg_ok (Z.of_nat (length demo_elf))) (elf_segments info)
  | _ => False
  end.
Proof.
  split; [vm_compute; reflexivity|].
  assert (byte_list demo_elf) as Hd by (apply (bool_decide_unpack _); vm_compute; exact I).
  pose proof (parse_elf_safe demo_elf Hd ltac:(vm_compute; reflexivity)) as H.
  destruct (parse_elf demo_elf) as [[info|e]|] eqn:E.
  - apply H.
  - vm_compute in E. discriminate.
  - exact H.
Defined.
