(* ===== verification/Cow.v ===== *)
(** * The copy-on-write share table (crates/proc/src/cow.rs)

    A hash table of 256 buckets of 32 slots counts the claims on a shared frame.
    A bucket operation runs under the bucket's lock, so each is one step on the
    table.  The abstract view is the number of claims on each frame: a frame
    without a slot has one. *)

From Stdlib Require Import ZArith Lia.
From stdpp Require Import prelude list.
From S2P Require Import Prelude.

Local Open Scope Z_scope.

Definition COW_BUCKETS : nat := 256.
Definition COW_BUCKET_CAPACITY : nat := 32.

Record CowEntry := { ce_frame : Z; ce_refcount : Z }.

Notation CowBucket := (list (option CowEntry)).

Definition CowBucket_new : CowBucket := replicate COW_BUCKET_CAPACITY None.

Definition COW_TABLE : list CowBucket := replicate COW_BUCKETS CowBucket_new.

Definition cow_bucket_index (frame : Z) : nat :=
  let key := Z.shiftr frame 12 in
  let hash := wrap64 (key * 0x9e3779b97f4a7c15) in
  Z.to_nat (Z.shiftr hash (64 - 8)).

Definition slot_matches (frame : Z) (slot : option CowEntry) : bool :=
  match slot with Some e => ce_frame e =? frame | None => false end.

(** ** Operations on one locked bucket *)

(** The scan of [cow_share]: the slot of [frame] gains a claim, or the first
    free slot seen is reported. *)
Fixpoint share_scan (frame : Z) (idx : nat) (free_slot : option nat) (b : CowBucket) :
    CowBucket + option nat :=
  match b with
  | [] => inr free_slot
  | slot :: b' =>
      match slot with
      | Some e =>
          if ce_frame e =? frame
          then inl (Some {| ce_frame := ce_frame e;
                            ce_refcount := Z.min (ce_refcount e + 1) (2 ^ 32 - 1) |} :: b')
          else match share_scan frame (S idx) free_slot b' with
               | inl r => inl (slot :: r) | inr fs => inr fs end
      | None =>
          match share_scan frame (S idx)
                  (match free_slot with None => Some idx | Some _ => free_slot end) b' with
          | inl r => inl (slot :: r) | inr fs => inr fs end
      end
  end.

Definition bucket_share (frame : Z) (b : CowBucket) : CowBucket :=
  match share_scan frame 0 None b with
  | inl b' => b'
  | inr (Some idx) => <[idx := Some {| ce_frame := frame; ce_refcount := 2 |}]> b
  | inr None => b
  end.

Fixpoint bucket_refcount (frame : Z) (b : CowBucket) : Z :=
  match b with
  | [] => 1
  | Some e :: b' => if ce_frame e =? frame then ce_refcount e else bucket_refcount frame b'
  | None :: b' => bucket_refcount frame b'
  end.

(** The scan shared by [cow_unshare], [cow_release] and [cow_resolve]: drop one
    claim, and whether no slot was found. *)
Fixpoint bucket_release (frame : Z) (b : CowBucket) : bool * CowBucket :=
  match b with
  | [] => (true, [])
  | slot :: b' =>
      match slot with
      | Some e =>
          if ce_frame e =? frame
          then (false, (if 2 <? ce_refcount e
                        then Some {| ce_frame := ce_frame e; ce_refcount := ce_refcount e - 1 |}
                        else None) :: b')
          else let '(sole, r) := bucket_release frame b' in (sole, slot :: r)
      | None => let '(sole, r) := bucket_release frame b' in (sole, slot :: r)
      end
  end.

(** ** Operations on the table *)

Definition cow_share (t : list CowBucket) (frame : Z) : list CowBucket :=
  alter (bucket_share frame) (cow_bucket_index frame) t.

Definition cow_bucket (t : list CowBucket) (frame : Z) : CowBucket :=
  default [] (t !! cow_bucket_index frame).

Definition cow_refcount (t : list CowBucket) (frame : Z) : Z :=
  bucket_refcount frame (cow_bucket t frame).

Definition cow_unshare (t : list CowBucket) (frame : Z) : list CowBucket :=
  alter (fun b => (bucket_release frame b).2) (cow_bucket_index frame) t.

Definition cow_release (t : list CowBucket) (frame : Z) : bool * list CowBucket :=
  ((bucket_release frame (cow_bucket t frame)).1, cow_unshare t frame).

(** [cow_resolve frame action]: the action runs under the bucket lock, on the
    released table. *)
Definition cow_resolve {R} (t : list CowBucket) (frame : Z) (action : bool -> R) :
    R * list CowBucket :=
  let '(sole, t') := cow_release t frame in (action sole, t').

(** ** Invariant *)

(** A bucket keeps its capacity, a slot counts at least two claims and at most
    what a u32 holds, and no frame has two slots. *)
Record bucket_ok (b : CowBucket) : Prop := {
  bo_len : length b = COW_BUCKET_CAPACITY;
  bo_count i e : b !! i = Some (Some e) -> 2 <= ce_refcount e < 2 ^ 32;
  bo_uniq i j e e' : b !! i = Some (Some e) -> b !! j = Some (Some e') ->
    ce_frame e = ce_frame e' -> i = j
}.

Definition cow_ok (t : list CowBucket) : Prop :=
  length t = COW_BUCKETS /\ Forall bucket_ok t.

Lemma cow_bucket_index_lt frame : (cow_bucket_index frame < COW_BUCKETS)%nat.
Proof.
  unfold cow_bucket_index, COW_BUCKETS.
  pose proof (wrap64_range (Z.shiftr frame 12 * 0x9e3779b97f4a7c15)) as Hr. unfold is_u64 in Hr.
  pose proof (shiftr_range (wrap64 (Z.shiftr frame 12 * 0x9e3779b97f4a7c15)) 56 8
    ltac:(lia) ltac:(lia) Hr). change (64 - 8) with 56. change (2 ^ 8) with 256 in *. lia.
Qed.

(** A bucket without a slot for [frame], and one with it at [i]. *)
Lemma slot_cases frame b :
  (Forall (fun s => slot_matches frame s = false) b) \/
  (exists b1 e b2, b = b1 ++ Some e :: b2 /\ ce_frame e = frame /\
     Forall (fun s => slot_matches frame s = false) b1).
Proof.
  induction b as [|s b IH]; [by left|].
  destruct (slot_matches frame s) eqn:Hs.
  - right. destruct s as [e|]; [|done]. exists [], e, b. simpl in Hs. apply Z.eqb_eq in Hs. done.
  - destruct IH as [IH | (b1 & e & b2 & -> & He & Hb1)]; [left; by constructor|].
    right. exists (s :: b1), e, b2. split_and!; [done..|by constructor].
Qed.

Lemma share_scan_hit frame b1 e b2 : forall idx fs,
  Forall (fun s => slot_matches frame s = false) b1 -> ce_frame e = frame ->
  share_scan frame idx fs (b1 ++ Some e :: b2) =
  inl (b1 ++ Some {| ce_frame := frame; ce_refcount := Z.min (ce_refcount e + 1) (2 ^ 32 - 1) |} :: b2).
Proof.
  induction b1 as [|s b1 IH]; intros idx fs Hb He; cbn [app share_scan].
  - by rewrite He, Z.eqb_refl.
  - apply Forall_cons in Hb as [Hs Hb]. destruct s as [e'|]; simpl in Hs; [rewrite Hs|];
      by rewrite IH.
Qed.

Lemma share_scan_miss frame b : forall idx fs,
  Forall (fun s => slot_matches frame s = false) b ->
  share_scan frame idx fs b =
  inr (match fs with Some _ => fs | None =>
         (fun k => (idx + k)%nat) <$> (fst <$> list_find (fun s => s = None) b) end).
Proof.
  induction b as [|s b IH]; intros idx fs Hb; cbn [share_scan list_find]; [by destruct fs|].
  apply Forall_cons in Hb as [Hs Hb]. destruct s as [e'|]; simpl in Hs.
  - rewrite Hs, IH by done. f_equal. destruct fs; [done|]. rewrite decide_False by done.
    destruct (list_find _ b) as [[k x]|]; simpl; [f_equal; lia | done].
  - rewrite IH by done. f_equal. destruct fs; [done|]. rewrite decide_True by done.
    simpl. f_equal. lia.
Qed.

Lemma refcount_hit frame b1 e b2 :
  Forall (fun s => slot_matches frame s = false) b1 -> ce_frame e = frame ->
  bucket_refcount frame (b1 ++ Some e :: b2) = ce_refcount e.
Proof.
  intros Hb He. induction b1 as [|s b1 IH]; cbn [app bucket_refcount].
  - by rewrite He, Z.eqb_refl.
  - apply Forall_cons in Hb as [Hs Hb]. destruct s; simpl in Hs; [rewrite Hs|]; by apply IH.
Qed.

Lemma refcount_miss frame b :
  Forall (fun s => slot_matches frame s = false) b -> bucket_refcount frame b = 1.
Proof.
  induction 1 as [|s b Hs Hb IH]; [done|]. destruct s; simpl in *; [by rewrite Hs | done].
Qed.

Lemma release_hit frame b1 e b2 :
  Forall (fun s => slot_matches frame s = false) b1 -> ce_frame e = frame ->
  bucket_release frame (b1 ++ Some e :: b2) =
  (false, b1 ++ (if 2 <? ce_refcount e
                 then Some {| ce_frame := frame; ce_refcount := ce_refcount e - 1 |} else None) :: b2).
Proof.
  intros Hb He. induction b1 as [|s b1 IH]; cbn [app bucket_release].
  - by rewrite He, Z.eqb_refl.
  - apply Forall_cons in Hb as [Hs Hb]. destruct s; simpl in Hs; [rewrite Hs|];
      by rewrite (IH Hb).
Qed.

Lemma release_miss frame b :
  Forall (fun s => slot_matches frame s = false) b -> bucket_release frame b = (true, b).
Proof.
  induction 1 as [|s b Hs Hb IH]; [done|].
  destruct s; simpl in *; [rewrite Hs|]; by rewrite IH.
Qed.

(** ** Every bucket operation writes one slot *)

Lemma bucket_ok_insert b i s :
  bucket_ok b ->
  (forall e, s = Some e -> 2 <= ce_refcount e < 2 ^ 32 /\
     forall j e', j <> i -> b !! j = Some (Some e') -> ce_frame e' <> ce_frame e) ->
  bucket_ok (<[i := s]> b).
Proof.
  intros [Hl Hc Hu] Hs. constructor; [by rewrite length_insert| |].
  - intros j e. rewrite list_lookup_insert_Some. intros [(-> & -> & _) | (_ & Hj)]; [by apply Hs | by eapply Hc].
  - intros j k e e'. rewrite !list_lookup_insert_Some.
    intros [(<- & Es & _) | (Hj & Ej)] [(<- & Es' & _) | (Hk & Ek)] Hf; [done| | |by eapply Hu].
    + destruct (Hs e Es) as [_ Hd]. by destruct (Hd k e').
    + destruct (Hs e' Es') as [_ Hd]. by destruct (Hd j e).
Qed.

Lemma middle_insert {X} (b1 : list X) s s' b2 : b1 ++ s' :: b2 = <[length b1 := s']> (b1 ++ s :: b2).
Proof. by rewrite insert_app_r_alt, Nat.sub_diag by lia. Qed.

Lemma refcount_insert_other frame b i s s0 :
  b !! i = Some s0 -> slot_matches frame s0 = false -> slot_matches frame s = false ->
  bucket_refcount frame (<[i := s]> b) = bucket_refcount frame b.
Proof.
  revert i. induction b as [|x b IH]; intros [|i] Hi H0 Hs; try done; simpl in *.
  - injection Hi as ->. destruct s0, s; simpl in *; by rewrite ?H0, ?Hs.
  - destruct x as [e|]; [destruct (ce_frame e =? frame); [done|]|]; by apply IH.
Qed.

Lemma miss_lookup frame b i e :
  Forall (fun s => slot_matches frame s = false) b -> b !! i = Some (Some e) -> ce_frame e <> frame.
Proof. intros Hb Hi. eapply Forall_lookup_1 in Hb; [|done]. by apply Z.eqb_neq. Qed.

Lemma matches_other frame g e : ce_frame e = frame -> g <> frame -> slot_matches g (Some e) = false.
Proof. intros <- Hg. simpl. apply Z.eqb_neq. done. Qed.

(** The slot of a tracked frame rewritten: the other frames keep their counts. *)
Lemma bucket_rewrite b1 e b2 frame s :
  bucket_ok (b1 ++ Some e :: b2) -> ce_frame e = frame ->
  (forall e', s = Some e' -> ce_frame e' = frame /\ 2 <= ce_refcount e' < 2 ^ 32) ->
  bucket_ok (b1 ++ s :: b2) /\
  forall g, g <> frame -> bucket_refcount g (b1 ++ s :: b2) = bucket_refcount g (b1 ++ Some e :: b2).
Proof.
  intros Hb He Hs.
  assert ((b1 ++ Some e :: b2) !! length b1 = Some (Some e)) as Hi by (by apply list_lookup_middle).
  rewrite (middle_insert b1 (Some e) s b2). split.
  - apply bucket_ok_insert; [done|]. intros e' ->. destruct (Hs e' eq_refl) as [Hf Hc].
    split; [done|]. intros j e'' Hj Hj' Heq. apply Hj. eapply (bo_uniq _ Hb); [done..|congruence].
  - intros g Hg. eapply refcount_insert_other; [done|by eapply matches_other|].
    destruct s as [e'|]; [|done]. eapply matches_other; [by apply Hs | done].
Qed.

(** Whether a share can be recorded: the frame has a slot, or one is free. *)
Definition bucket_room (frame : Z) (b : CowBucket) : bool :=
  existsb (slot_matches frame) b || existsb (fun s => bool_decide (s = None)) b.

Lemma existsb_miss frame b :
  Forall (fun s => slot_matches frame s = false) b -> existsb (slot_matches frame) b = false.
Proof. induction 1 as [|s b Hs _ IH]; [done|]. simpl. by rewrite Hs. Qed.

Lemma bucket_share_spec frame b :
  bucket_ok b ->
  bucket_ok (bucket_share frame b) /\
  (forall g, g <> frame -> bucket_refcount g (bucket_share frame b) = bucket_refcount g b) /\
  bucket_refcount frame (bucket_share frame b) =
    (if bucket_room frame b then Z.min (bucket_refcount frame b + 1) (2 ^ 32 - 1)
     else bucket_refcount frame b).
Proof.
  intros Hb. unfold bucket_share, bucket_room.
  destruct (slot_cases frame b) as [Hm | (b1 & e & b2 & -> & He & Hb1)].
  - rewrite share_scan_miss, existsb_miss, (refcount_miss frame b) by done. cbn [orb].
    destruct (list_find (fun s => s = None) b) as [[k x]|] eqn:Hf; cbn [fmap option_fmap option_map fst].
    + apply list_find_Some in Hf as (Hk & -> & _). cbn [Nat.add].
      assert (existsb (fun s => bool_decide (s = None)) b = true) as ->.
      { apply existsb_exists. exists None. split; [|done]. apply list_elem_of_In. by eapply list_elem_of_lookup_2. }
      set (s := Some {| ce_frame := frame; ce_refcount := 2 |}).
      split_and!.
      * apply bucket_ok_insert; [done|]. intros e [= <-]. simpl. split; [lia|].
        intros j e' _ Hj. by eapply miss_lookup.
      * intros g Hg. eapply refcount_insert_other; [done..|]. by apply (matches_other frame).
      * pose proof (lookup_lt_Some _ _ _ Hk) as Hlt.
        unfold s. rewrite insert_take_drop by done. rewrite refcount_hit; [done| |done].
        by apply Forall_take.
    + apply list_find_None in Hf.
      assert (existsb (fun s => bool_decide (s = None)) b = false) as ->.
      { clear -Hf. induction Hf as [|x b Hx _ IH]; [done|]. simpl. by rewrite bool_decide_false. }
      by rewrite refcount_miss.
  - rewrite share_scan_hit, (refcount_hit frame b1 e b2) by done.
    assert (existsb (slot_matches frame) (b1 ++ Some e :: b2) = true) as ->.
    { apply existsb_exists. exists (Some e). split; [apply in_elt|]. simpl. by apply Z.eqb_eq. }
    pose proof (bo_count _ Hb (length b1) e ltac:(by apply list_lookup_middle)).
    destruct (bucket_rewrite b1 e b2 frame
      (Some {| ce_frame := frame; ce_refcount := Z.min (ce_refcount e + 1) (2 ^ 32 - 1) |}) Hb He) as [Hok Ho].
    { intros e' [= <-]. simpl. split; [done|lia]. }
    split_and!; [done..|]. by rewrite refcount_hit.
Qed.

Lemma bucket_refcount_range frame b : bucket_ok b -> 1 <= bucket_refcount frame b < 2 ^ 32.
Proof.
  intros Hb. destruct (slot_cases frame b) as [Hm | (b1 & e & b2 & -> & He & Hb1)].
  - rewrite refcount_miss by done. lia.
  - rewrite (refcount_hit _ _ e) by done.
    pose proof (bo_count _ Hb (length b1) e ltac:(by apply list_lookup_middle)). lia.
Qed.

Lemma bucket_release_spec frame b :
  bucket_ok b ->
  let '(sole, b') := bucket_release frame b in
  sole = (bucket_refcount frame b =? 1) /\ bucket_ok b' /\
  (forall g, g <> frame -> bucket_refcount g b' = bucket_refcount g b) /\
  bucket_refcount frame b' = Z.max 1 (bucket_refcount frame b - 1).
Proof.
  intros Hb. destruct (slot_cases frame b) as [Hm | (b1 & e & b2 & -> & He & Hb1)].
  - rewrite release_miss, (refcount_miss frame b) by done. done.
  - rewrite release_hit, (refcount_hit frame b1 e b2) by done.
    pose proof (bo_count _ Hb (length b1) e ltac:(by apply list_lookup_middle)) as Hc.
    match goal with |- context [b1 ++ ?x :: b2] => set (s := x) end.
    destruct (bucket_rewrite b1 e b2 frame s Hb He) as [Hok Ho].
    { intros e'. unfold s. destruct (Z.ltb_spec 2 (ce_refcount e)); [|done].
      intros [= <-]. simpl. split; [done|lia]. }
    split_and!; [|done..|].
    + symmetry. apply Z.eqb_neq. lia.
    + unfold s. destruct (Z.ltb_spec 2 (ce_refcount e)).
      * rewrite refcount_hit by done. simpl. lia.
      * rewrite refcount_miss; [lia|]. apply Forall_app. split; [done|]. constructor; [done|].
        apply Forall_lookup. intros j [e'|] Hj; [|done]. apply Z.eqb_neq. intros Hf.
        assert ((b1 ++ Some e :: b2) !! (length b1 + S j)%nat = Some (Some e')) as Hj2.
        { rewrite lookup_app_r by lia. by replace (length b1 + S j - length b1)%nat with (S j) by lia. }
        pose proof (bo_uniq _ Hb (length b1) _ _ _ ltac:(by apply list_lookup_middle) Hj2 ltac:(congruence)). lia.
Qed.

(** ** The table refines a claim count *)

Lemma cow_bucket_ok t frame : cow_ok t ->
  t !! cow_bucket_index frame = Some (cow_bucket t frame) /\ bucket_ok (cow_bucket t frame).
Proof.
  intros [Hl Hb]. destruct (lookup_lt_is_Some_2 t (cow_bucket_index frame)) as [b Hbk].
  - rewrite Hl. apply cow_bucket_index_lt.
  - unfold cow_bucket. rewrite Hbk. split; [done|]. by eapply Forall_lookup_1.
Qed.

Lemma cow_alter_ok t frame (h : CowBucket -> CowBucket) :
  cow_ok t -> bucket_ok (h (cow_bucket t frame)) ->
  (forall g, g <> frame -> bucket_refcount g (h (cow_bucket t frame)) = bucket_refcount g (cow_bucket t frame)) ->
  let t' := alter h (cow_bucket_index frame) t in
  cow_ok t' /\ (forall g, g <> frame -> cow_refcount t' g = cow_refcount t g) /\
  cow_bucket t' frame = h (cow_bucket t frame).
Proof.
  intros Hok Hh Ho t'. destruct (cow_bucket_ok t frame Hok) as [Hk _]. pose proof Hok as [Hl Hb].
  assert (cow_bucket t' frame = h (cow_bucket t frame)) as Hf.
  { unfold cow_bucket at 1, t'. by rewrite list_lookup_alter_eq, Hk. }
  split_and!; [split; [by unfold t'; rewrite length_alter|]| |done].
  - apply Forall_alter; [done|]. rewrite Hk. by intros b [= <-].
  - intros g Hg. unfold cow_refcount. destruct (decide (cow_bucket_index g = cow_bucket_index frame)) as [He|Hi].
    + assert (forall u, cow_bucket u g = cow_bucket u frame) as Hu by (intros u; unfold cow_bucket; by rewrite He).
      rewrite !Hu, Hf. by apply Ho.
    + unfold cow_bucket, t'. by rewrite list_lookup_alter_ne.
Qed.

Definition cow_room (t : list CowBucket) (frame : Z) : bool := bucket_room frame (cow_bucket t frame).

Lemma cow_share_spec t frame :
  cow_ok t ->
  cow_ok (cow_share t frame) /\
  (forall g, g <> frame -> cow_refcount (cow_share t frame) g = cow_refcount t g) /\
  cow_refcount (cow_share t frame) frame =
    (if cow_room t frame then Z.min (cow_refcount t frame + 1) (2 ^ 32 - 1) else cow_refcount t frame).
Proof.
  intros Hok. destruct (cow_bucket_ok t frame Hok) as [_ Hb].
  destruct (bucket_share_spec frame _ Hb) as (H1 & H2 & H3).
  destruct (cow_alter_ok t frame (bucket_share frame) Hok H1 H2) as (Ha & Ho & Hf).
  split_and!; [done..|]. unfold cow_refcount, cow_share. by rewrite Hf.
Qed.

Lemma cow_release_spec t frame :
  cow_ok t ->
  (cow_release t frame).1 = (cow_refcount t frame =? 1) /\ cow_ok (cow_release t frame).2 /\
  (forall g, g <> frame -> cow_refcount (cow_release t frame).2 g = cow_refcount t g) /\
  cow_refcount (cow_release t frame).2 frame = Z.max 1 (cow_refcount t frame - 1).
Proof.
  intros Hok. destruct (cow_bucket_ok t frame Hok) as [_ Hb].
  pose proof (bucket_release_spec frame _ Hb) as Hr. unfold cow_release, cow_unshare.
  destruct (bucket_release frame (cow_bucket t frame)) as [sole b'] eqn:E.
  destruct Hr as (H0 & H1 & H2 & H3). cbn [fst snd].
  destruct (cow_alter_ok t frame (fun b => (bucket_release frame b).2) Hok) as (Ha & Ho & Hf);
    [by rewrite E..|].
  split_and!; [done..|]. unfold cow_refcount at 1. rewrite Hf, E. done.
Qed.

Lemma cow_table_ok : cow_ok COW_TABLE.
Proof.
  split; [apply length_replicate|]. apply Forall_replicate. constructor.
  - apply length_replicate.
  - intros i e []%replicate_None_lookup.
  - intros i j e e' []%replicate_None_lookup.
Qed.

(** The operations in the order the bucket locks serialise them. *)
Inductive cow_op :=
| OpShare (frame : Z)
| OpResolve (frame : Z).

(** The run of a sequence on the table: what each resolve was told. *)
Fixpoint cow_run (t : list CowBucket) (ops : list cow_op) : list bool * list CowBucket :=
  match ops with
  | [] => ([], t)
  | OpShare f :: ops' => cow_run (cow_share t f) ops'
  | OpResolve f :: ops' =>
      let '(sole, t1) := cow_resolve t f id in
      let '(bs, t2) := cow_run t1 ops' in (sole :: bs, t2)
  end.

(** Whether every share of the run finds its frame's slot or a free one, with
    the count below the saturation point. *)
Fixpoint cow_recordable (t : list CowBucket) (ops : list cow_op) : bool :=
  match ops with
  | [] => true
  | OpShare f :: ops' =>
      cow_room t f && (cow_refcount t f <? 2 ^ 32 - 1) && cow_recordable (cow_share t f) ops'
  | OpResolve f :: ops' => cow_recordable (cow_release t f).2 ops'
  end.

(** The contract: [claims f] owners of each frame; a share adds one, and a
    resolve is told it is alone exactly when one claim is left. *)
Fixpoint claims_run (claims : Z -> Z) (ops : list cow_op) : list bool :=
  match ops with
  | [] => []
  | OpShare f :: ops' => claims_run (fun g => if g =? f then claims g + 1 else claims g) ops'
  | OpResolve f :: ops' =>
      (claims f =? 1) :: claims_run (fun g => if g =? f then Z.max 1 (claims g - 1) else claims g) ops'
  end.

Lemma claims_run_ext ops : forall c1 c2, (forall g, c1 g = c2 g) -> claims_run c1 ops = claims_run c2 ops.
Proof.
  induction ops as [|[f|f] ops IH]; intros c1 c2 Hc; simpl; [done| |rewrite Hc; f_equal].
  all: apply IH; intros g; by rewrite Hc.
Qed.

(** C26: the share table implements a per-frame count of claims.  For every
    sequence of shares and resolves whose shares find room, the answers to the
    resolves are those of the abstract counters, so that no claimant is told it
    is the sole owner while another claim on the same frame is outstanding; the
    table's invariant (capacity, counts of at least two, one slot per frame) is
    kept by every sequence. *)
Theorem cow_refines_claims ops t :
  cow_ok t ->
  cow_ok (cow_run t ops).2 /\
  (cow_recordable t ops = true -> (cow_run t ops).1 = claims_run (cow_refcount t) ops).
Proof.
  revert t. induction ops as [|[f|f] ops IH]; intros t Hok; cbn [cow_run cow_recordable claims_run]; [done|..].
  - destruct (cow_share_spec t f Hok) as (Hok' & Ho & Hf). destruct (IH _ Hok') as [Hi Hr].
    split; [done|]. intros [[Hroom Hlt]%andb_true_iff Hrec]%andb_true_iff. rewrite Hr by done.
    apply claims_run_ext. intros g. destruct (Z.eqb_spec g f) as [->|Hg]; [|by apply Ho].
    rewrite Hf, Hroom. apply Z.ltb_lt in Hlt. lia.
  - unfold cow_resolve. destruct (cow_release_spec t f Hok) as (Hs & Hok' & Ho & Hf).
    destruct (cow_release t f) as [sole t1] eqn:E. cbn [fst snd id] in *. subst sole.
    destruct (IH _ Hok') as [Hi Hr]. destruct (cow_run t1 ops) as [bs t2]. cbn [fst snd] in *.
    split; [done|]. intros Hrec. rewrite Hr by done. f_equal. apply claims_run_ext.
    intros g. destruct (Z.eqb_spec g f) as [->|Hg]; [done | by apply Ho].
Qed.

(** Two forks of one page: three claimants, of which only the last is alone. *)
Lemma cow_refines_claims_witness :
  let ops := [OpShare 0x5000; OpShare 0x5000; OpResolve 0x5000; OpResolve 0x5000; OpResolve 0x5000] in
  (cow_run COW_TABLE ops).1 = claims_run (cow_refcount COW_TABLE) ops /\
  claims_run (cow_refcount COW_TABLE) ops = [false; false; true].
Proof.
  intros ops. split; [|vm_compute; reflexivity].
  destruct (cow_refines_claims ops COW_TABLE cow_table_ok) as [_ H]. apply H.
  vm_compute. reflexivity.
Defined.

(** A frame the table has no room for keeps its implicit single claim. *)
Lemma cow_share_full t frame :
  cow_ok t -> cow_room t frame = false -> cow_refcount (cow_share t frame) frame = 1.
Proof.
  intros Hok Hr. destruct (cow_share_spec t frame Hok) as (_ & _ & ->). rewrite Hr.
  unfold cow_refcount. unfold cow_room, bucket_room in Hr. apply orb_false_iff in Hr as [Hm _].
  destruct (slot_cases frame (cow_bucket t frame)) as [Hf | (b1 & e & b2 & Hb & He & _)];
    [by apply refcount_miss|].
  rewrite Hb in Hm. exfalso. rewrite <- not_true_iff_false in Hm. apply Hm.
  apply existsb_exists. exists (Some e). split; [apply in_elt|]. simpl. by apply Z.eqb_eq.
Qed.

(** When the frame's bucket is full of other frames, [cow_share] drops the
    share: the first of the two claimants to resolve is told it is the sole
    owner while the other one still maps the frame. *)
Theorem cow_full_bucket_loses_claim t frame :
  cow_ok t -> cow_room t frame = false ->
  (cow_run t [OpShare frame; OpResolve frame]).1 = [true] /\
  claims_run (cow_refcount t) [OpShare frame; OpResolve frame] = [false].
Proof.
  intros Hok Hr. destruct (cow_share_spec t frame Hok) as (Hok' & _ & _).
  pose proof (cow_share_full t frame Hok Hr) as H1.
  destruct (cow_release_spec _ frame Hok') as (Hs & _). rewrite H1 in Hs.
  split.
  - cbn [cow_run]. unfold cow_resolve.
    destruct (cow_release (cow_share t frame) frame) as [sole t1]. simpl in *. by rewrite Hs.
  - destruct (cow_bucket_ok t frame Hok) as [_ Hb].
    pose proof (bucket_refcount_range frame _ Hb) as Hc. cbn [claims_run]. rewrite Z.eqb_refl.
    f_equal. apply Z.eqb_neq. unfold cow_refcount. lia.
Qed.

(** Thirty-two frames that hash to bucket 0, as frame 8362 does. *)
Definition crowded : list Z :=
  (fun n => n * 4096) <$>
  [233; 466; 610; 843; 1220; 1453; 1597; 1830; 2207; 2440; 2817; 3050; 3194; 3427; 3804; 4037; 4181;
   4414; 4791; 5024; 5401; 5634; 5778; 6011; 6388; 6621; 6998; 7231; 7375; 7608; 7985; 8218].

Lemma cow_full_bucket_loses_claim_witness :
  let t := (cow_run COW_TABLE (OpShare <$> crowded)).2 in
  cow_room t (8362 * 4096) = false /\
  (cow_run t [OpShare (8362 * 4096); OpResolve (8362 * 4096)]).1 = [true].
Proof.
  assert (forall ops u, cow_ok u -> cow_ok (cow_run u (OpShare <$> ops)).2) as Hrun.
  { induction ops as [|f ops IH]; intros u Hu; [done|]. apply IH. by apply cow_share_spec. }
  pose proof (Hrun crowded COW_TABLE cow_table_ok) as Hok. clear Hrun.
  intros t. assert (cow_room t (8362 * 4096) = false) as Hroom by (vm_compute; reflexivity).
  destruct (cow_full_bucket_loses_claim t (8362 * 4096) Hok Hroom) as [H _].
  exact (conj Hroom H).
Defined.
