(* ===== verification/Vma.v ===== *)
(** * Virtual memory areas (crates/proc/src/vma.rs and the VMA half of
    crates/proc/src/address_space.rs)

    The data of an address space, and the operations that only touch its table
    of areas.  The page-table half is in [AddressSpace]. *)

From Stdlib Require Import ZArith Lia Btauto.
From stdpp Require Import prelude list.
From S2P Require Import Prelude Paging.

Local Open Scope Z_scope.

Definition MAX_VMAS : nat := 32.
Definition MMAP_BASE : Z := 0x400000000000.
Definition MMAP_REGION_END : Z := 0x700000000000.

Definition PROT_READ : Z := 1.
Definition PROT_WRITE : Z := 2.
Definition PROT_EXEC : Z := 4.
Definition MAP_SHARED : Z := 1.
Definition MAP_PRIVATE : Z := 2.
Definition MAP_ANONYMOUS : Z := 0x20.

Inductive Backing :=
| Anonymous
| File (vnode_ptr file_offset : Z) (shared : bool).

Record Vma := { vma_start : Z; vma_end : Z; vma_flags : Z; vma_backing : Backing }.

Definition Vma_contains (v : Vma) (addr : Z) : bool :=
  (vma_start v <=? addr) && (addr <? vma_end v).

Definition Vma_len (v : Vma) : Z := wrap64 (vma_end v - vma_start v).

Definition Vma_is_empty (v : Vma) : bool := vma_start v =? vma_end v.

Definition Vma_is_cow_eligible (v : Vma) : bool :=
  negb (match vma_backing v with File _ _ true => true | _ => false end).

Definition flags_writable (flags : Z) : bool := negb (Z.land flags WRITABLE =? 0).

Definition prot_to_page_flags (prot : Z) : Z :=
  let flags := with_user_accessible (with_present PageFlags_new) in
  let flags := if negb (Z.land prot PROT_WRITE =? 0) then with_writable flags else flags in
  if Z.land prot PROT_EXEC =? 0 then with_no_execute flags else flags.

Definition align_up_page (value : Z) : option Z :=
  v ← checked_add value 4095; Some (Z.land v (not64 4095)).

Definition align_down_page (value : Z) : Z := Z.land value (not64 4095).

(** ** The address space *)

Record AddressSpace := {
  as_pml4_phys : Z;
  as_pcid : Z;
  as_vmas : list (option Vma);
  as_mmap_next : Z;
  as_refcount : Z;
  as_active_cpus : Z
}.

Definition as_with_vmas (a : AddressSpace) (vmas : list (option Vma)) (next : Z) : AddressSpace :=
  {| as_pml4_phys := as_pml4_phys a; as_pcid := as_pcid a; as_vmas := vmas;
     as_mmap_next := next; as_refcount := as_refcount a; as_active_cpus := as_active_cpus a |}.

Definition AddressSpace_inc_ref (a : AddressSpace) : AddressSpace :=
  {| as_pml4_phys := as_pml4_phys a; as_pcid := as_pcid a; as_vmas := as_vmas a;
     as_mmap_next := as_mmap_next a; as_refcount := wrap32 (as_refcount a + 1);
     as_active_cpus := as_active_cpus a |}.

(** The last owner is the one that takes the count from one to zero. *)
Definition AddressSpace_dec_ref (a : AddressSpace) : bool * AddressSpace :=
  (as_refcount a =? 1,
   {| as_pml4_phys := as_pml4_phys a; as_pcid := as_pcid a; as_vmas := as_vmas a;
      as_mmap_next := as_mmap_next a; as_refcount := wrap32 (as_refcount a - 1);
      as_active_cpus := as_active_cpus a |}).

Fixpoint find_vma_in (vmas : list (option Vma)) (addr : Z) : option Vma :=
  match vmas with
  | [] => None
  | Some v :: vs => if Vma_contains v addr then Some v else find_vma_in vs addr
  | None :: vs => find_vma_in vs addr
  end.

Definition find_vma (a : AddressSpace) (addr : Z) : option Vma := find_vma_in (as_vmas a) addr.

Definition vma_overlaps (a : AddressSpace) (start end_ : Z) : bool :=
  existsb (fun o => match o with
                    | Some v => (start <? vma_end v) && (vma_start v <? end_)
                    | None => false end) (as_vmas a).

(** One round of the probing loop of [mmap]. *)
Definition mmap_probe (a : AddressSpace) (len : Z) (slot : nat) (flags : Z) (backing : Backing)
    (start : Z) : Z + option (Z * AddressSpace) :=
  match checked_add start len with
  | None => inr None
  | Some end_ =>
      if MMAP_REGION_END <? end_ then inr None
      else if negb (vma_overlaps a start end_)
      then inr (Some (start, as_with_vmas a
             (<[slot := Some {| vma_start := start; vma_end := end_; vma_flags := flags;
                                vma_backing := backing |}]> (as_vmas a)) end_))
      else inl end_
  end.

(** [None] when no area is reserved; the 2^48 rounds are never used up
    ([mmap_loop_total]). *)
Definition AddressSpace_mmap (a : AddressSpace) (len flags : Z) (backing : Backing) :
    option (Z * AddressSpace) :=
  if (len =? 0) || negb (Z.land len (4096 - 1) =? 0) then None else
  slot ← first_none (as_vmas a);
  start ← align_up_page (as_mmap_next a);
  match iterate (mmap_probe a len slot flags backing) 48 start with
  | inr r => r
  | inl _ => None
  end.

Definition AddressSpace_mmap_anon (a : AddressSpace) (len flags : Z) : option (Z * AddressSpace) :=
  AddressSpace_mmap a len flags Anonymous.

(** The slot that [munmap] releases: the area with exactly these bounds. *)
Definition munmap_slot (a : AddressSpace) (addr end_ : Z) : option (nat * Vma) :=
  '(i, o) ← list_find (fun o => match o with
                     | Some v => (vma_start v =? addr) && (vma_end v =? end_)
                     | None => false end = true) (as_vmas a);
  v ← o; Some (i, v).

Definition clear_slot (a : AddressSpace) (i : nat) : AddressSpace :=
  as_with_vmas a (<[i := None]> (as_vmas a)) (as_mmap_next a).

(** ** The invariant of the area table *)

Definition vma_ok (next : Z) (v : Vma) : Prop :=
  MMAP_BASE <= vma_start v < vma_end v /\ vma_end v <= next /\
  vma_start v mod 4096 = 0 /\ vma_end v mod 4096 = 0.

Record vmas_ok (a : AddressSpace) : Prop := {
  vo_len : length (as_vmas a) = MAX_VMAS;
  vo_next : MMAP_BASE <= as_mmap_next a <= MMAP_REGION_END /\ as_mmap_next a mod 4096 = 0;
  vo_vma i v : as_vmas a !! i = Some (Some v) -> vma_ok (as_mmap_next a) v;
  vo_disjoint i j v w : as_vmas a !! i = Some (Some v) -> as_vmas a !! j = Some (Some w) ->
    i <> j -> vma_end v <= vma_start w \/ vma_end w <= vma_start v
}.

Lemma land_4095 z : is_u64 z -> Z.land z (not64 4095) = z - z mod 4096.
Proof. intros Hz. change 4095 with (Z.ones 12). by rewrite land_not_ones by (done || lia). Qed.

Lemma align_up_page_spec v r : is_u64 v -> align_up_page v = Some r ->
  v <= r < v + 4096 /\ r mod 4096 = 0 /\ r < 2 ^ 64.
Proof.
  intros Hv. unfold align_up_page. destruct (checked_add v 4095) as [s|] eqn:Hs; simpl; [|done].
  apply checked_add_Some in Hs as [-> Hs]. intros [= <-]. unfold is_u64 in *.
  rewrite land_4095 by (unfold is_u64; lia).
  Z.div_mod_to_equations. lia.
Qed.

Lemma align_up_page_aligned v : 0 <= v < 2 ^ 63 -> v mod 4096 = 0 -> align_up_page v = Some v.
Proof.
  intros Hv Hm. unfold align_up_page, checked_add.
  rewrite (proj2 (Z.ltb_lt _ _)) by lia. simpl. f_equal.
  rewrite land_4095 by (unfold is_u64; lia). Z.div_mod_to_equations. lia.
Qed.

Lemma vma_overlaps_false a s e :
  vma_overlaps a s e = false <->
  forall i v, as_vmas a !! i = Some (Some v) -> e <= vma_start v \/ vma_end v <= s.
Proof.
  unfold vma_overlaps. rewrite <- not_true_iff_false, existsb_exists. split.
  - intros H i v Hi. destruct (Z.le_gt_cases e (vma_start v)); [by left|].
    destruct (Z.le_gt_cases (vma_end v) s); [by right|]. exfalso. apply H.
    exists (Some v). split; [apply list_elem_of_In; by eapply list_elem_of_lookup_2|].
    apply andb_true_iff. split; apply Z.ltb_lt; lia.
  - intros H ([v|] & Hin & Hc); [|done]. apply list_elem_of_In, list_elem_of_lookup in Hin as [i Hi].
    apply andb_true_iff in Hc as [H1%Z.ltb_lt H2%Z.ltb_lt]. destruct (H i v Hi); lia.
Qed.

(** The probing loop always leaves: each round moves the start up by the length,
    towards the end of the region. *)
Lemma mmap_loop_total a len slot flags backing start :
  0 < len -> 0 <= start ->
  exists r, iterate (mmap_probe a len slot flags backing) 48 start = inr r.
Proof.
  intros Hlen Hs.
  destruct (iterate_total (mmap_probe a len slot flags backing) (fun s => 0 <= s) (fun _ => True)
    (fun s => MMAP_REGION_END - s) 48 start) as (r & Hr & _); [|done|unfold MMAP_REGION_END; lia|eauto].
  intros s Hs'. unfold mmap_probe. destruct (checked_add s len) as [e|] eqn:He; [|done].
  apply checked_add_Some in He as [-> _].
  destruct (Z.ltb_spec MMAP_REGION_END (s + len)); [done|].
  destruct (negb (vma_overlaps a s (s + len))); [done|]. lia.
Qed.

(** ** Looking an address up *)

Lemma Vma_contains_spec v addr : Vma_contains v addr = true <-> vma_start v <= addr < vma_end v.
Proof. unfold Vma_contains. rewrite andb_true_iff, Z.leb_le, Z.ltb_lt. done. Qed.

Lemma find_vma_in_Some vmas addr v :
  find_vma_in vmas addr = Some v -> exists i, vmas !! i = Some (Some v) /\ Vma_contains v addr = true.
Proof.
  induction vmas as [|[w|] vmas IH]; simpl; [done| |].
  - destruct (Vma_contains w addr) eqn:Hc.
    + intros [= ->]. by exists 0%nat.
    + intros (i & ? & ?)%IH. by exists (S i).
  - intros (i & ? & ?)%IH. by exists (S i).
Qed.

Lemma find_vma_in_None vmas addr :
  find_vma_in vmas addr = None <-> forall i v, vmas !! i = Some (Some v) -> Vma_contains v addr = false.
Proof.
  induction vmas as [|[w|] vmas IH]; simpl.
  - split; [|done]. intros _ i v. by rewrite lookup_nil.
  - destruct (Vma_contains w addr) eqn:Hc.
    + split; [done|]. intros H. by rewrite (H 0%nat w eq_refl) in Hc.
    + rewrite IH. split; [intros H [|i] v; simpl; [by intros [= <-] | apply H] | intros H i v; apply (H (S i))].
  - rewrite IH. split; [intros H [|i] v; simpl; [done | apply H] | intros H i v; apply (H (S i))].
Qed.

(** On disjoint areas the first match is the only one. *)
Lemma find_vma_spec a addr v :
  vmas_ok a ->
  find_vma a addr = Some v <->
  exists i, as_vmas a !! i = Some (Some v) /\ vma_start v <= addr < vma_end v.
Proof.
  intros Hok. unfold find_vma. split.
  - intros (i & Hi & Hc)%find_vma_in_Some. exists i. by rewrite <- Vma_contains_spec.
  - intros (i & Hi & Hc). destruct (find_vma_in (as_vmas a) addr) as [w|] eqn:Hf.
    + apply find_vma_in_Some in Hf as (j & Hj & Hcj%Vma_contains_spec).
      destruct (decide (i = j)) as [->|Hij]; [congruence|].
      destruct (vo_disjoint _ Hok i j v w Hi Hj Hij); lia.
    + eapply find_vma_in_None in Hf; [|done]. apply Vma_contains_spec in Hc. congruence.
Qed.

Lemma option_ext_some {X} (o1 o2 : option X) : (forall x, o1 = Some x <-> o2 = Some x) -> o1 = o2.
Proof.
  intros H. destruct o1 as [x|]; [symmetry; by apply H|].
  destruct o2 as [y|]; [by apply H | done].
Qed.

(** ** Reserving and releasing *)

Definition mmap_vma (a : AddressSpace) (len flags : Z) (backing : Backing) : Vma :=
  {| vma_start := as_mmap_next a; vma_end := as_mmap_next a + len; vma_flags := flags;
     vma_backing := backing |}.

Lemma vmas_ok_insert a i v next :
  vmas_ok a -> as_vmas a !! i = Some None -> vma_ok next v ->
  as_mmap_next a <= next <= MMAP_REGION_END -> next mod 4096 = 0 -> as_mmap_next a <= vma_start v ->
  vmas_ok (as_with_vmas a (<[i := Some v]> (as_vmas a)) next).
Proof.
  intros Hok Hi Hv Hn Hm Hs. pose proof (vo_next _ Hok) as [Hb _].
  constructor; simpl.
  - rewrite length_insert. apply Hok.
  - lia.
  - intros j w. rewrite list_lookup_insert_Some. intros [(-> & [= ->] & _) | (_ & Hj)]; [done|].
    destruct (vo_vma _ Hok j w Hj) as (? & ? & ? & ?). unfold vma_ok. lia.
  - intros j k w w'. rewrite !list_lookup_insert_Some.
    intros [(<- & [= <-] & _) | (Hj & Ej)] [(<- & [= <-] & _) | (Hk & Ek)] Hne; [done| | |].
    + right. destruct (vo_vma _ Hok k w' Ek) as (_ & ? & _). lia.
    + left. destruct (vo_vma _ Hok j w Ej) as (_ & ? & _). lia.
    + by apply (vo_disjoint _ Hok j k).
Qed.

Lemma vmas_ok_clear a i : vmas_ok a -> vmas_ok (clear_slot a i).
Proof.
  intros Hok. constructor; simpl; [rewrite length_insert; apply Hok|apply Hok|..].
  - intros j v. rewrite list_lookup_insert_Some. intros [(_ & ? & _)|(_ & Hj)]; [done|]. by apply (vo_vma _ Hok j).
  - intros j k v w. rewrite !list_lookup_insert_Some.
    intros [(_ & ? & _)|(_ & Hj)] [(_ & ? & _)|(_ & Hk)]; [done..|]. by apply (vo_disjoint _ Hok).
Qed.

Lemma find_vma_insert a i v addr :
  vmas_ok a -> as_vmas a !! i = Some None ->
  vmas_ok (as_with_vmas a (<[i := Some v]> (as_vmas a)) (vma_end v)) ->
  find_vma (as_with_vmas a (<[i := Some v]> (as_vmas a)) (vma_end v)) addr =
  if Vma_contains v addr then Some v else find_vma a addr.
Proof.
  intros Hok Hi Hok'. apply option_ext_some. intros w. rewrite find_vma_spec by done. simpl.
  setoid_rewrite list_lookup_insert_Some. pose proof (lookup_lt_Some _ _ _ Hi) as Hlt.
  destruct (Vma_contains v addr) eqn:Hc.
  - split; [|intros [= <-]; exists i; apply Vma_contains_spec in Hc; naive_solver].
    intros (j & [(-> & [= <-] & _) | (Hj & Ej)] & Hw); [done|].
    apply Vma_contains_spec in Hc.
    destruct (vo_disjoint _ Hok' i j v w); simpl; [by rewrite list_lookup_insert_eq|
      by rewrite list_lookup_insert_ne|done|lia|lia].
  - rewrite find_vma_spec by done. split.
    + intros (j & [(-> & [= <-] & _) | (Hj & Ej)] & Hw); [|by exists j].
      apply Vma_contains_spec in Hw. congruence.
    + intros (j & Hj & Hw). exists j. split; [|done]. right. split; [|done]. intros <-. congruence.
Qed.

(** On a well-formed table the first probe decides: every area lies below the
    allocation pointer. *)
Lemma mmap_probe_first a len slot flags backing :
  vmas_ok a -> 0 <= len ->
  mmap_probe a len slot flags backing (as_mmap_next a) =
  inr (if MMAP_REGION_END <? as_mmap_next a + len then None else
       Some (as_mmap_next a, as_with_vmas a
         (<[slot := Some (mmap_vma a len flags backing)]> (as_vmas a)) (as_mmap_next a + len))).
Proof.
  intros Hok Hlen. unfold mmap_probe, checked_add.
  destruct (Z.ltb_spec (as_mmap_next a + len) (2 ^ 64)).
  - destruct (MMAP_REGION_END <? as_mmap_next a + len); [done|].
    rewrite (proj2 (vma_overlaps_false a _ _)); [done|].
    intros i v Hi. right. by destruct (vo_vma _ Hok i v Hi) as (_ & ? & _).
  - by rewrite (proj2 (Z.ltb_lt _ _)) by (unfold MMAP_REGION_END; lia).
Qed.

(** [mmap] reserves exactly the next [len] bytes of the mmap region.  On a
    well-formed area table it fails precisely when the length is not a positive
    multiple of the page size, no slot is free, or the region is exhausted;
    otherwise the new area starts at the allocation pointer, is disjoint from
    every other area, is what [find_vma] returns for its addresses (and for no
    other), and the table stays well formed. *)
Theorem mmap_exact a len flags backing :
  vmas_ok a -> is_u64 len ->
  match AddressSpace_mmap a len flags backing with
  | None => len = 0 \/ len mod 4096 <> 0 \/ first_none (as_vmas a) = None \/
            MMAP_REGION_END < as_mmap_next a + len
  | Some (start, a') =>
      start = as_mmap_next a /\ as_mmap_next a' = start + len /\ start + len <= MMAP_REGION_END /\
      0 < len /\ len mod 4096 = 0 /\ is_Some (first_none (as_vmas a)) /\ vmas_ok a' /\
      (forall addr, find_vma a' addr =
         if (start <=? addr) && (addr <? start + len) then Some (mmap_vma a len flags backing)
         else find_vma a addr)
  end.
Proof.
  intros Hok Hlen. pose proof (vo_next _ Hok) as [Hb Hm]. unfold AddressSpace_mmap, is_u64 in *.
  change (4096 - 1) with (Z.ones 12). rewrite Z.land_ones by lia. change (2 ^ 12) with 4096.
  destruct (Z.eqb_spec len 0); [by left|]. cbn [orb].
  destruct (Z.eqb_spec (len mod 4096) 0) as [Hl|]; [|by right; left]. cbn [negb].
  destruct (first_none (as_vmas a)) as [slot|] eqn:Hslot; cbn [mbind option_bind]; [|by right; right; left].
  apply first_none_Some in Hslot.
  rewrite align_up_page_aligned by (unfold MMAP_BASE, MMAP_REGION_END in *; lia). cbn [mbind option_bind].
  rewrite (iterate_first _ _ _ _ (mmap_probe_first a len slot flags backing Hok ltac:(lia))).
  destruct (Z.ltb_spec MMAP_REGION_END (as_mmap_next a + len)); [by right; right; right|].
  assert (vmas_ok (as_with_vmas a (<[slot := Some (mmap_vma a len flags backing)]> (as_vmas a))
            (as_mmap_next a + len))) as Hok'.
  { assert ((as_mmap_next a + len) mod 4096 = 0) by (rewrite Z.add_mod, Hm, Hl; done).
    apply vmas_ok_insert; try done; unfold vma_ok; simpl; lia. }
  split_and!; try (done || lia). intros addr. by apply (find_vma_insert a slot (mmap_vma a len flags backing)).
Qed.

Definition empty_space : AddressSpace :=
  {| as_pml4_phys := 0x1000; as_pcid := 1; as_vmas := replicate MAX_VMAS None;
     as_mmap_next := MMAP_BASE; as_refcount := 1; as_active_cpus := 0 |}.

Lemma empty_space_ok : vmas_ok empty_space.
Proof.
  constructor; unfold empty_space; cbn [as_vmas as_mmap_next].
  - done.
  - unfold MMAP_BASE, MMAP_REGION_END. split; [lia | done].
  - intros i v []%replicate_None_lookup.
  - intros i j v w []%replicate_None_lookup.
Qed.

Lemma mmap_exact_witness :
  match AddressSpace_mmap empty_space 0x2000 7 Anonymous with
  | Some (start, a') =>
      start = MMAP_BASE /\ find_vma a' (MMAP_BASE + 0x1fff) = Some (mmap_vma empty_space 0x2000 7 Anonymous)
  | None => False
  end.
Proof.
  pose proof (mmap_exact empty_space 0x2000 7 Anonymous empty_space_ok ltac:(unfold is_u64; lia)) as H.
  destruct (AddressSpace_mmap empty_space 0x2000 7 Anonymous) as [[start a']|] eqn:E.
  - destruct H as (-> & _ & _ & _ & _ & _ & _ & Hf). split; [reflexivity|]. by rewrite Hf.
  - vm_compute in E. discriminate.
Defined.
