(* ===== verification/AddressSpace.v ===== *)
(** * Address spaces (crates/proc/src/address_space.rs, pagefault.rs)

    The page-table half of an address space: loading segments, the user stack
    and the trampoline, demand paging, copy-on-write resolution, [fork], [munmap]
    and teardown.  The state the code mutates is threaded explicitly: the page
    tables and the frame allocator, the contents of the frames, the share table,
    whatever the filesystem hooks own, and the log of TLB shootdowns issued. *)

From Stdlib Require Import ZArith Lia.
From stdpp Require Import prelude gmap list.
From S2P Require Import Prelude Paging Frames PageTable Pcid Elf Cow Vma.

Local Open Scope Z_scope.

Definition USTACK_TOP : Z := 0x7fffffff0000.
Definition USTACK_SIZE : Z := 256 * 1024.
Definition USTACK_PAGES : Z := USTACK_SIZE / 4096.
Definition USER_PML4_ENTRIES : nat := 256.
Definition SIGRETURN_TRAMPOLINE_VA : Z := 0x10000000.
Definition SIGRETURN_TRAMPOLINE_CODE : list Z := [0x48; 0xc7; 0xc0; 0x0f; 0x00; 0x00; 0x00; 0x0f; 0x05].

Definition user_flags_from_elf (elf_flags : Z) : Z :=
  let flags := with_user_accessible (with_present PageFlags_new) in
  let flags := if negb (Z.land elf_flags PF_W =? 0) then with_writable flags else flags in
  if Z.land elf_flags PF_X =? 0 then with_no_execute flags else flags.

Definition align_up (value align : Z) : Z := Z.land (wrap64 (wrap64 (value + align) - 1)) (not64 (align - 1)).

Definition cow_writable_flags (flags : Z) : Z := without_cow (with_writable flags).
Definition cow_readonly_flags (flags : Z) : Z := with_cow (without_writable flags).

Section kernel.
Context {A V : Type} `{FrameAllocator A}.

Record kstate := {
  k_pt : pt_state A;
  k_mem : gmap Z (list Z);
  k_cow : list CowBucket;
  k_vfs : V;
  k_shoot : list (Z * Z)
}.

Definition set_pt (k : kstate) (p : pt_state A) : kstate :=
  {| k_pt := p; k_mem := k_mem k; k_cow := k_cow k; k_vfs := k_vfs k; k_shoot := k_shoot k |}.
Definition set_mem (k : kstate) (m : gmap Z (list Z)) : kstate :=
  {| k_pt := k_pt k; k_mem := m; k_cow := k_cow k; k_vfs := k_vfs k; k_shoot := k_shoot k |}.
Definition set_cow (k : kstate) (c : list CowBucket) : kstate :=
  {| k_pt := k_pt k; k_mem := k_mem k; k_cow := c; k_vfs := k_vfs k; k_shoot := k_shoot k |}.
Definition set_vfs (k : kstate) (v : V) : kstate :=
  {| k_pt := k_pt k; k_mem := k_mem k; k_cow := k_cow k; k_vfs := v; k_shoot := k_shoot k |}.

(** The request a mapping change sends to the other CPUs. *)
Definition shootdown (k : kstate) (mask page : Z) : kstate :=
  {| k_pt := k_pt k; k_mem := k_mem k; k_cow := k_cow k; k_vfs := k_vfs k;
     k_shoot := k_shoot k ++ [(mask, page)] |}.

(** [kernel_memory::alloc_frame] panics when no frame is left. *)
Definition k_alloc_frame (k : kstate) : outcome (Z * kstate) :=
  '(f, a) ← expect (fa_alloc_frame (pt_alloc (k_pt k)));
  Done (f, set_pt k {| tabs := tabs (k_pt k); pt_alloc := a |}).

Definition k_free_frame (k : kstate) (f : Z) : outcome kstate :=
  a ← fa_free_frame (pt_alloc (k_pt k)) f;
  Done (set_pt k {| tabs := tabs (k_pt k); pt_alloc := a |}).

Definition zero_page : list Z := replicate 4096 0.

(** The bytes of a frame; a frame never written reads as zeroes. *)
Definition page_of (k : kstate) (f : Z) : list Z := default zero_page (k_mem k !! f).

(** [copy_nonoverlapping(src, dst, len)] to the start of a frame. *)
Definition overwrite (page bytes : list Z) : list Z := bytes ++ drop (length bytes) page.

Definition k_write_page (k : kstate) (f : Z) (bytes : list Z) : kstate :=
  set_mem k (<[f := overwrite (page_of k f) bytes]> (k_mem k)).

Definition copy_frame (k : kstate) (dst src : Z) : kstate := k_write_page k dst (page_of k src).

Definition k_map_page (k : kstate) (a : AddressSpace) (virt phys flags : Z) : outcome kstate :=
  p ← map_page (k_pt k) (as_pml4_phys a) virt phys flags; Done (set_pt k p).

(** The leaf entry of a user address, with the table and index it lives at. *)
Definition k_leaf (k : kstate) (a : AddressSpace) (virt : Z) : outcome (option (Z * Z * Z)) :=
  o ← leaf_entry (k_pt k) (as_pml4_phys a) virt;
  match o with
  | None => Done None
  | Some (t, i) => e ← read_table (k_pt k) t i; Done (Some (t, i, e))
  end.

Definition k_set_entry (k : kstate) (table index e : Z) : outcome kstate :=
  p ← write_table (k_pt k) table index e; Done (set_pt k p).

(** [while page < end { .. page += PAGE_SIZE }], with [n] rounds allowed. *)
Fixpoint page_loop (body : kstate -> Z -> outcome kstate) (n : nat) (page end_ : Z) (k : kstate) :
    outcome kstate :=
  match n with
  | O => Done k
  | S n' =>
      if page <? end_ then k' ← body k page; page_loop body n' (wrap64 (page + 4096)) end_ k'
      else Done k
  end.

(** The number of rounds of such a loop. *)
Definition page_count (start end_ : Z) : nat := Z.to_nat ((end_ - start + 4095) / 4096).

(** ** Building an image *)

(** One page of a segment: a zeroed frame, the file's bytes, the mapping. *)
Definition map_segment_page (a : AddressSpace) (seg : LoadSegment) (elf_data : list Z)
    (k : kstate) (virt : Z) : outcome kstate :=
  '(frame, k1) ← k_alloc_frame k;
  let k2 := k_write_page k1 frame zero_page in
  let page_start := wrap64 (virt - seg_vaddr seg) in
  k3 ← (if page_start <? seg_filesz seg then
          let copy_len := Z.min 4096 (wrap64 (seg_filesz seg - page_start)) in
          let src_off := wrap64 (seg_data_off seg + page_start) in
          src ← slice elf_data src_off (wrap64 (src_off + copy_len));
          Done (k_write_page k2 frame src)
        else Done k2);
  k_map_page k3 a virt (PhysAddr_new frame) (user_flags_from_elf (seg_flags seg)).

Definition map_segment (a : AddressSpace) (seg : LoadSegment) (elf_data : list Z) (k : kstate) :
    outcome kstate :=
  let map_end := align_up (saturating_add64 (seg_vaddr seg) (seg_memsz seg)) 4096 in
  page_loop (map_segment_page a seg elf_data) (page_count (seg_vaddr seg) map_end)
    (seg_vaddr seg) map_end k.

Definition stack_flags : Z :=
  with_no_execute (with_user_accessible (with_writable (with_present PageFlags_new))).

Definition map_stack_page (a : AddressSpace) (k : kstate) (page : Z) : outcome kstate :=
  '(frame, k1) ← k_alloc_frame k;
  let k2 := k_write_page k1 frame zero_page in
  k_map_page k2 a (wrap64 (USTACK_TOP - USTACK_SIZE + page * 4096)) (PhysAddr_new frame) stack_flags.

(** The new stack pointer, below the top of the stack. *)
Definition map_user_stack (a : AddressSpace) (k : kstate) : outcome (Z * kstate) :=
  k' ← foldM (map_stack_page a) k (seqZ 0 USTACK_PAGES);
  Done (USTACK_TOP - 8, k').

Definition map_sigreturn_trampoline (a : AddressSpace) (k : kstate) : outcome kstate :=
  '(frame, k1) ← k_alloc_frame k;
  let k2 := k_write_page (k_write_page k1 frame zero_page) frame SIGRETURN_TRAMPOLINE_CODE in
  k_map_page k2 a SIGRETURN_TRAMPOLINE_VA (PhysAddr_new frame)
    (with_user_accessible (with_present PageFlags_new)).

(** [AddressSpace::new]: a zeroed PML4 with the kernel half of the current one. *)
Definition AddressSpace_new (current_pml4 : Z) (pcid_enabled : bool) (pcids : PcidAllocator) (k : kstate) :
    outcome (AddressSpace * PcidAllocator * kstate) :=
  '(frame, k1) ← k_alloc_frame k;
  let pml4 := PhysAddr_new frame in
  let k2 := set_pt k1 {| tabs := <[pml4 := PageTable_zero]> (tabs (k_pt k1));
                         pt_alloc := pt_alloc (k_pt k1) |} in
  k3 ← foldM (fun k index =>
                entry ← read_table (k_pt k) current_pml4 (Z.of_nat index);
                k_set_entry k pml4 (Z.of_nat index) entry)
             k2 (seq USER_PML4_ENTRIES (ENTRIES - USER_PML4_ENTRIES));
  '(pcid, pcids') ← (if pcid_enabled
                     then '(p, pa) ← expect (PcidAllocator_alloc pcids); Done (pcid_id p, pa)
                     else Done (0, pcids));
  Done ({| as_pml4_phys := pml4; as_pcid := pcid; as_vmas := replicate MAX_VMAS None;
           as_mmap_next := MMAP_BASE; as_refcount := 1; as_active_cpus := 0 |}, pcids', k3).

(** ** Copy-on-write *)

Definition resolve_cow_fault (a : AddressSpace) (k : kstate) (addr : Z) : outcome (bool * kstate) :=
  let page := Z.land addr (not64 (4096 - 1)) in
  o ← k_leaf k a page;
  match o with
  | None => Done (false, k)
  | Some (table, index, old) =>
      if negb (is_present old) || negb (is_cow old) then Done (false, k) else
      let old_frame := PageTableEntry_frame old in
      let new_flags := cow_writable_flags (PageTableEntry_flags old) in
      let '(action, cow') := cow_resolve (k_cow k) (PhysAddr_new old_frame) (fun sole =>
        if sole then k_set_entry k table index (PageTableEntry_with_flags old new_flags)
        else
          '(new_frame, k1) ← k_alloc_frame k;
          let k2 := copy_frame k1 (PhysAddr_new new_frame) old_frame in
          k_set_entry k2 table index (PageTableEntry_new_page (PhysAddr_new new_frame) new_flags)) in
      k' ← action;
      Done (true, shootdown (set_cow k' cow') (as_active_cpus a) page)
  end.

(** ** Releasing pages *)

(** A frame leaves a mapping: a copy-on-write one is freed by its last claimant. *)
Definition release_leaf (k : kstate) (entry : Z) : outcome kstate :=
  let frame := PageTableEntry_frame entry in
  if is_cow entry then
    let '(action, cow') := cow_resolve (k_cow k) frame (fun sole =>
      if sole then k_free_frame k (PhysAddr_new frame) else Done k) in
    k' ← action; Done (set_cow k' cow')
  else k_free_frame k (PhysAddr_new frame).

Definition unmap_page (a : AddressSpace) (k : kstate) (page : Z) : outcome kstate :=
  o ← k_leaf k a page;
  match o with
  | None => Done k
  | Some (table, index, old) =>
      if is_present old then
        k1 ← k_set_entry k table index PageTableEntry_empty;
        k2 ← release_leaf k1 old;
        Done (shootdown k2 (as_active_cpus a) page)
      else Done k
  end.

Definition unmap_pages (a : AddressSpace) (k : kstate) (start end_ : Z) : outcome kstate :=
  page_loop (unmap_page a) (page_count start end_) start end_ k.

Definition unmap_file_page (a : AddressSpace) (shared : bool) (k : kstate) (page : Z) : outcome kstate :=
  o ← k_leaf k a page;
  match o with
  | None => Done k
  | Some (table, index, old) =>
      if is_present old then
        k1 ← k_set_entry k table index PageTableEntry_empty;
        k2 ← (if shared then Done k1 else release_leaf k1 old);
        Done (shootdown k2 (as_active_cpus a) page)
      else Done k
  end.

Definition unmap_file_pages (a : AddressSpace) (k : kstate) (start end_ : Z) (shared : bool) :
    outcome kstate :=
  page_loop (unmap_file_page a shared) (page_count start end_) start end_ k.

(** [free_table]: the leaves below a table, then the table's own frame. *)
Fixpoint free_table (level : nat) (k : kstate) (phys : Z) : outcome kstate :=
  match level with
  | O => Done k
  | S level' =>
      k1 ← foldM (fun k index =>
             entry ← read_table (k_pt k) phys (Z.of_nat index);
             if negb (is_present entry) then Done k
             else if (level =? 1)%nat || is_huge_page entry then release_leaf k entry
             else free_table level' k (PageTableEntry_frame entry)) k (seq 0 ENTRIES);
      k_free_frame k1 (PhysAddr_new phys)
  end.

Definition free_user_half (k : kstate) (pml4_phys : Z) : outcome kstate :=
  foldM (fun k index =>
    entry ← read_table (k_pt k) pml4_phys (Z.of_nat index);
    if is_present entry then
      k1 ← free_table 3 k (PageTableEntry_frame entry);
      k_set_entry k1 pml4_phys (Z.of_nat index) PageTableEntry_empty
    else Done k) k (seq 0 USER_PML4_ENTRIES).

Definition free_user_mappings (a : AddressSpace) (k : kstate) : outcome kstate :=
  free_user_half k (as_pml4_phys a).

(** ** [fork] *)

(** One present leaf of the parent. *)
Definition clone_leaf (parent child : AddressSpace) (k : kstate) (pt : Z) (pt_idx : nat)
    (virt entry : Z) : outcome kstate :=
  match find_vma parent virt with
  | Some {| vma_backing := File _ _ true |} =>
      k_map_page k child virt (PageTableEntry_frame entry) (PageTableEntry_flags entry)
  | _ =>
      let cow_flags := cow_readonly_flags (PageTableEntry_flags entry) in
      k1 ← k_set_entry k pt (Z.of_nat pt_idx) (PageTableEntry_with_flags entry cow_flags);
      let k2 := set_cow k1 (cow_share (k_cow k1) (PageTableEntry_frame entry)) in
      k3 ← k_map_page k2 child virt (PageTableEntry_frame entry) cow_flags;
      Done (shootdown k3 (as_active_cpus parent) virt)
  end.

Definition clone_pt (parent child : AddressSpace) (i4 i3 i2 : nat) (pt : Z) (k : kstate) : outcome kstate :=
  foldM (fun k pt_idx =>
    entry ← read_table (k_pt k) pt (Z.of_nat pt_idx);
    if negb (is_present entry) then Done k
    else clone_leaf parent child k pt pt_idx
           (virt_of_indices (Z.of_nat i4) (Z.of_nat i3) (Z.of_nat i2) (Z.of_nat pt_idx)) entry)
    k (seq 0 ENTRIES).

Definition clone_pd (parent child : AddressSpace) (i4 i3 : nat) (pd : Z) (k : kstate) : outcome kstate :=
  foldM (fun k pd_idx =>
    pde ← read_table (k_pt k) pd (Z.of_nat pd_idx);
    if negb (is_present pde) || is_huge_page pde then Done k
    else clone_pt parent child i4 i3 pd_idx (PageTableEntry_frame pde) k) k (seq 0 ENTRIES).

Definition clone_pdpt (parent child : AddressSpace) (i4 : nat) (pdpt : Z) (k : kstate) : outcome kstate :=
  foldM (fun k pdpt_idx =>
    pdpte ← read_table (k_pt k) pdpt (Z.of_nat pdpt_idx);
    if negb (is_present pdpte) || is_huge_page pdpte then Done k
    else clone_pd parent child i4 pdpt_idx (PageTableEntry_frame pdpte) k) k (seq 0 ENTRIES).

Definition clone_user_half_cow (parent child : AddressSpace) (k : kstate) : outcome kstate :=
  foldM (fun k pml4_idx =>
    pml4e ← read_table (k_pt k) (as_pml4_phys parent) (Z.of_nat pml4_idx);
    if negb (is_present pml4e) then Done k
    else clone_pdpt parent child pml4_idx (PageTableEntry_frame pml4e) k) k (seq 0 USER_PML4_ENTRIES).

Definition fork_cow (current_pml4 : Z) (pcid_enabled : bool) (pcids : PcidAllocator)
    (parent : AddressSpace) (k : kstate) : outcome (AddressSpace * PcidAllocator * kstate) :=
  '(child0, pcids', k1) ← AddressSpace_new current_pml4 pcid_enabled pcids k;
  let child := as_with_vmas child0 (as_vmas parent) (as_mmap_next parent) in
  k2 ← clone_user_half_cow parent child k1;
  Done (child, pcids', k2).

(** [drop_ref]: the last reference tears the address space down; [own_frame] is
    the frame that holds the [AddressSpace] itself. *)
Definition drop_ref (a : AddressSpace) (own_frame : Z) (pcids : PcidAllocator) (k : kstate) :
    outcome (bool * AddressSpace * PcidAllocator * kstate) :=
  let '(is_last, a') := AddressSpace_dec_ref a in
  if is_last then
    k1 ← free_user_mappings a' k;
    k2 ← k_free_frame k1 (PhysAddr_new (as_pml4_phys a'));
    let pcids' := PcidAllocator_free pcids {| pcid_id := as_pcid a'; pcid_generation := 0 |} in
    k3 ← k_free_frame k2 (PhysAddr_new own_frame);
    Done (true, a', pcids', k3)
  else Done (false, a', pcids, k).

End kernel.

Arguments kstate A V : clear implicits.

(** ** The filesystem hooks (crates/proc/src/syscall.rs)

    The page cache and the vnode reference counts live in another crate and are
    reached through registered function pointers. *)

Class VfsHooks (A V : Type) := {
  page_cache_get_or_fill : kstate A V -> Z -> Z -> outcome (option Z * kstate A V);
  page_cache_mark_dirty : kstate A V -> Z -> Z -> kstate A V;
  page_cache_writeback : kstate A V -> Z -> outcome (Z * kstate A V);
  vnode_inc_ref : kstate A V -> Z -> kstate A V;
  vnode_dec_ref : kstate A V -> Z -> kstate A V
}.

Section faults.
Context {A V : Type} `{FrameAllocator A} `{VfsHooks A V}.
Implicit Types k : kstate A V.

Definition DIRECT_MAP_BASE : Z := 0xffff800000000000.

(** The frame that backs a faulting page, whether it is mapped writable, and
    whether it is marked copy-on-write; [None] on a read error. *)
Definition fault_frame (k : kstate A V) (vma : Vma) (page : Z) :
    outcome (option (Z * bool * bool) * kstate A V) :=
  let page_offset_in_vma := wrap64 (page - vma_start vma) in
  match vma_backing vma with
  | Anonymous =>
      '(frame, k1) ← k_alloc_frame k;
      Done (Some (frame, true, false), k_write_page k1 frame zero_page)
  | File vnode_ptr file_offset shared =>
      assert_ (DIRECT_MAP_BASE <=? vnode_ptr);;
      let file_off := wrap64 (file_offset + page_offset_in_vma) in
      '(o, k1) ← page_cache_get_or_fill k vnode_ptr file_off;
      match o with
      | None => Done (None, k1)
      | Some frame =>
          if shared then
            let writable := flags_writable (vma_flags vma) in
            Done (Some (frame, writable, false),
                  if writable then page_cache_mark_dirty k1 vnode_ptr file_off else k1)
          else Done (Some (frame, false, true), set_cow k1 (cow_share (k_cow k1) (PhysAddr_new frame)))
      end
  end.

Definition fault_flags (vma : Vma) (writable_now mark_cow : bool) : Z :=
  let pte_flags := if writable_now then with_writable (vma_flags vma)
                   else without_writable (vma_flags vma) in
  if mark_cow then with_cow pte_flags else pte_flags.

Definition resolve_file_fault (a : AddressSpace) (k : kstate A V) (addr : Z) :
    outcome (bool * kstate A V) :=
  let page := Z.land addr (not64 (4096 - 1)) in
  match find_vma a page with
  | None => Done (false, k)
  | Some vma =>
      '(o, k1) ← fault_frame k vma page;
      match o with
      | None => Done (false, k1)
      | Some (frame, writable_now, mark_cow) =>
          k2 ← k_map_page k1 a page (PhysAddr_new frame) (fault_flags vma writable_now mark_cow);
          Done (true, shootdown k2 (as_active_cpus a) page)
      end
  end.

(** What the page-fault handler does with a fault: resolve it, kill the process
    (SIGSEGV), or stop the kernel. *)
Inductive fault_result := FaultResolved | FaultKill (code : Z).

Definition PF_PRESENT : Z := 1.
Definition PF_WRITE : Z := 2.
Definition PF_USER : Z := 4.
Definition SIGSEGV_EXIT : Z := -11.

Definition pf_handler (current : option AddressSpace) (k : kstate A V) (fault_addr error_code : Z) :
    outcome (fault_result * kstate A V) :=
  let is_write := negb (Z.land error_code PF_WRITE =? 0) in
  let is_present_ := negb (Z.land error_code PF_PRESENT =? 0) in
  a ← expect current;
  '(resolved, k1) ←
    (if is_present_ && is_write then resolve_cow_fault a k fault_addr
     else if negb is_present_ then resolve_file_fault a k fault_addr
     else Done (false, k));
  if (resolved : bool) then Done (FaultResolved, k1)
  else if negb (Z.land error_code PF_USER =? 0) then Done (FaultKill SIGSEGV_EXIT, k1)
  else Panic.

(** [munmap] of exactly one area. *)
Definition AddressSpace_munmap (a : AddressSpace) (k : kstate A V) (addr len : Z) :
    outcome (bool * AddressSpace * kstate A V) :=
  match checked_add addr len with
  | None => Done (false, a, k)
  | Some end_ =>
      match munmap_slot a addr end_ with
      | None => Done (false, a, k)
      | Some (slot, vma) =>
          k' ← match vma_backing vma with
               | Anonymous => unmap_pages a k addr end_
               | File vnode_ptr _ shared =>
                   k1 ← (if shared then '(_, k1) ← page_cache_writeback k vnode_ptr; Done k1 else Done k);
                   k2 ← unmap_file_pages a k1 addr end_ shared;
                   Done (vnode_dec_ref k2 vnode_ptr)
               end;
          Done (true, clear_slot a slot, k')
      end
  end.

End faults.
