(* ===== verification/Loader.v ===== *)
(** * Loading an image: [map_segment]

    What is in memory after [AddressSpace::map_segment] has loaded a segment that
    [parse_elf] accepted. *)

From Stdlib Require Import ZArith Lia.
From stdpp Require Import prelude gmap list.
From S2P Require Import Prelude Paging Frames PageTable UserMap Elf Cow Vma AddressSpace.

Local Open Scope Z_scope.

Section loader.
Context {A V : Type} `{FrameAllocatorLaws A}.
Implicit Types (k : kstate A V) (a : AddressSpace).

Definition k_free k : gset Z := fa_free (pt_alloc (k_pt k)).
Definition k_uleaf k (root v : Z) : option Z := uleaf (tabs (k_pt k)) root v.

Lemma uleaf_vpage_k k root v w : vpage v = vpage w -> k_uleaf k root v = k_uleaf k root w.
Proof. apply uleaf_vpage. Qed.

(** ** Frames and their contents *)

Lemma k_alloc_frame_spec k root :
  space_wf (k_pt k) root ->
  match k_alloc_frame k with
  | Done (f, k') => space_wf (k_pt k') root /\ f ∈ k_free k /\ k_free k' = k_free k ∖ {[f]} /\
      f mod 4096 = 0 /\ 0 < f < 2 ^ 44 /\ tabs (k_pt k') = tabs (k_pt k) /\ k_mem k' = k_mem k /\
      k_cow k' = k_cow k /\ k_vfs k' = k_vfs k /\ k_shoot k' = k_shoot k
  | Panic => k_free k = ∅
  end.
Proof.
  intros Hs. unfold k_alloc_frame, k_free.
  destruct (fa_alloc_frame (pt_alloc (k_pt k))) as [[f a']|] eqn:Ha; run.
  - destruct (fa_alloc_Some _ _ _ (wf_alloc _ _ (sw_wf _ _ Hs)) Ha) as (_ & Hin & Hf & Hal & Hr).
    split; [by eapply space_wf_alloc | done].
  - by apply fa_alloc_None; [apply (sw_wf _ _ Hs)|].
Qed.

Lemma page_of_write_eq k f bytes : page_of (k_write_page k f bytes) f = overwrite (page_of k f) bytes.
Proof. unfold page_of at 1, k_write_page, set_mem. cbn [k_mem]. by rewrite lookup_insert_eq. Qed.

Lemma page_of_write_ne k f g bytes : g <> f -> page_of (k_write_page k f bytes) g = page_of k g.
Proof. intros Hne. unfold page_of, k_write_page, set_mem. cbn [k_mem]. by rewrite lookup_insert_ne. Qed.

Lemma overwrite_lookup page bytes j :
  overwrite page bytes !! j = if decide (j < length bytes)%nat then bytes !! j else page !! j.
Proof.
  unfold overwrite. destruct (decide (j < length bytes)%nat); [by apply lookup_app_l|].
  rewrite lookup_app_r, lookup_drop by lia. f_equal. lia.
Qed.

Lemma zero_page_length : length zero_page = 4096%nat.
Proof. apply length_replicate. Qed.

Lemma k_map_page_spec k a v phys flags :
  space_wf (k_pt k) (as_pml4_phys a) -> is_user v -> 0 <= phys < 2 ^ 48 -> is_flags flags -> Z.testbit flags 0 = true ->
  match k_map_page k a v phys flags with
  | Done k' => space_wf (k_pt k') (as_pml4_phys a) /\ k_free k' ⊆ k_free k /\
      (size (k_free k) <= size (k_free k') + 3)%nat /\ k_mem k' = k_mem k /\ k_cow k' = k_cow k /\
      k_vfs k' = k_vfs k /\ k_shoot k' = k_shoot k /\
      (forall w, vpage w <> vpage v -> translate (k_pt k') (as_pml4_phys a) w = translate (k_pt k) (as_pml4_phys a) w) /\
      forall w, k_uleaf k' (as_pml4_phys a) w =
        if decide (vpage w = vpage v) then Some (PageTableEntry_new_page phys flags)
        else k_uleaf k (as_pml4_phys a) w
  | Panic => (size (k_free k) < 3)%nat
  end.
Proof.
  intros Hs Hv Hp Hf Hpr. unfold k_map_page, k_free, k_uleaf.
  pose proof (map_page_uleaf (k_pt k) (as_pml4_phys a) v phys flags Hs Hv Hp Hf Hpr) as Hm.
  destruct (map_page (k_pt k) (as_pml4_phys a) v phys flags) as [s'|]; run; [|done].
  by destruct Hm as (? & ? & ? & ? & ?).
Qed.

Lemma PhysAddr_new_frame f : 0 < f < 2 ^ 44 -> PhysAddr_new f = f.
Proof. intros Hf. unfold PhysAddr_new. masks. rewrite Z.land_ones by lia. apply Z.mod_small. lia. Qed.

(** ** Page loops *)

Lemma page_loop_inv (body : kstate A V -> Z -> outcome (kstate A V)) (I : nat -> kstate A V -> Prop) (P : Prop)
    start end_ n : forall i k,
  (forall j k, (j < i + n)%nat -> I j k ->
     match body k (start + Z.of_nat j * 4096) with Done k' => I (S j) k' | Panic => P end) ->
  0 <= start -> (forall j, (j < i + n)%nat -> start + Z.of_nat j * 4096 < end_) -> end_ < 2 ^ 63 ->
  I i k ->
  match page_loop body n (start + Z.of_nat i * 4096) end_ k with Done k' => I (i + n)%nat k' | Panic => P end.
Proof.
  induction n as [|n IH]; intros i k Hbody Hst Hlt He Hi; cbn [page_loop].
  - by rewrite Nat.add_0_r.
  - pose proof (Hlt i ltac:(lia)) as Hi2. rewrite (proj2 (Z.ltb_lt _ _)) by done.
    pose proof (Hbody i k ltac:(lia) Hi) as Hb.
    destruct (body k (start + Z.of_nat i * 4096)) as [k'|]; run; [|done].
    rewrite wrap64_small by (unfold is_u64; lia).
    replace (start + Z.of_nat i * 4096 + 4096) with (start + Z.of_nat (S i) * 4096) by lia.
    replace (i + S n)%nat with (S i + n)%nat in * by lia. by apply IH.
Qed.

(** ** Segments *)

Lemma user_flags_ok f : is_flags (user_flags_from_elf f) /\ Z.testbit (user_flags_from_elf f) 0 = true.
Proof.
  unfold user_flags_from_elf. destruct (negb (Z.land f PF_W =? 0)), (Z.land f PF_X =? 0).
  all: split; [|done]; (split; [vm_compute; discriminate|]).
  all: intros i Hi Hn; unfold with_user_accessible, with_writable, with_present, with_no_execute,
    PRESENT, WRITABLE, USER_ACCESSIBLE, NO_EXECUTE, PageFlags_new; autorewrite with bits; bit_cases; done.
Qed.

(** The byte the image has at offset [o] of the segment: from the file, then zero. *)
Definition seg_byte (seg : LoadSegment) (data : list Z) (o : Z) : option Z :=
  if o <? seg_filesz seg then data !! Z.to_nat (seg_data_off seg + o) else Some 0.

Definition seg_end (seg : LoadSegment) : Z := align_up (saturating_add64 (seg_vaddr seg) (seg_memsz seg)) 4096.

Lemma seg_end_eq len seg : seg_ok len seg ->
  seg_vaddr seg + seg_memsz seg <= seg_end seg < seg_vaddr seg + seg_memsz seg + 4096 /\
  seg_end seg mod 4096 = 0 /\ seg_end seg <= USER_TOP.
Proof.
  intros [[Hv Hm] Ht Hs Hf]. unfold USER_TOP in *. unfold seg_end, align_up, saturating_add64.
  rewrite Z.min_l by lia. rewrite (wrap64_small (_ + 4096)) by (unfold is_u64; lia).
  rewrite wrap64_small by (unfold is_u64; lia). change (4096 - 1) with 4095.
  rewrite land_4095 by (unfold is_u64; lia). Z.div_mod_to_equations. lia.
Qed.

(** The frame's contents after the zeroing and the copy. *)
Lemma segment_copy len seg data page ps :
  seg_ok len seg -> len = Z.of_nat (length data) -> len < 2 ^ 63 -> 0 <= ps < 2 ^ 48 -> ps < seg_filesz seg ->
  exists src, slice data (wrap64 (seg_data_off seg + ps))
      (wrap64 (wrap64 (seg_data_off seg + ps) + Z.min 4096 (wrap64 (seg_filesz seg - ps)))) = Done src /\
    forall j, (j < 4096)%nat ->
      overwrite (overwrite page zero_page) src !! j = seg_byte seg data (ps + Z.of_nat j).
Proof.
  intros [[Hv Hm] Ht Hs Hf] -> Hlen Hps Hlt. unfold USER_TOP in *.
  rewrite (wrap64_small (seg_filesz seg - ps)) by (unfold is_u64; lia).
  rewrite (wrap64_small (seg_data_off seg + ps)) by (unfold is_u64; lia).
  rewrite wrap64_small by (unfold is_u64; lia). unfold slice.
  rewrite (proj2 (Z.leb_le _ _)), (proj2 (Z.leb_le _ _)) by lia. cbn [andb].
  eexists. split; [reflexivity|]. intros j Hj. rewrite Z.add_simpl_l.
  rewrite !overwrite_lookup, length_take, length_drop, zero_page_length.
  unfold seg_byte. destruct (Z.ltb_spec (ps + Z.of_nat j) (seg_filesz seg)).
  - rewrite decide_True by lia. rewrite lookup_take_lt, lookup_drop by lia. f_equal. lia.
  - rewrite decide_False, decide_True by lia. unfold zero_page. by apply lookup_replicate_2.
Qed.

(** One page: a fresh frame holds the page's bytes and is mapped; every frame in
    use keeps its contents.  Four free frames are enough. *)
Lemma map_segment_page_spec a seg data k i :
  space_wf (k_pt k) (as_pml4_phys a) -> seg_ok (Z.of_nat (length data)) seg ->
  Z.of_nat (length data) < 2 ^ 63 -> seg_vaddr seg + Z.of_nat i * 4096 < seg_end seg ->
  let virt := seg_vaddr seg + Z.of_nat i * 4096 in
  match map_segment_page a seg data k virt with
  | Done k' => space_wf (k_pt k') (as_pml4_phys a) /\ k_free k' ⊆ k_free k /\
      (size (k_free k) <= size (k_free k') + 4)%nat /\
      exists f, f ∈ k_free k /\ f ∉ k_free k' /\ f mod 4096 = 0 /\ 0 < f < 2 ^ 44 /\
        (forall w, vpage w <> vpage virt -> translate (k_pt k') (as_pml4_phys a) w = translate (k_pt k) (as_pml4_phys a) w) /\
        (forall w, k_uleaf k' (as_pml4_phys a) w =
           if decide (vpage w = vpage virt)
           then Some (PageTableEntry_new_page f (user_flags_from_elf (seg_flags seg)))
           else k_uleaf k (as_pml4_phys a) w) /\
        (forall j, (j < 4096)%nat -> page_of k' f !! j = seg_byte seg data (Z.of_nat i * 4096 + Z.of_nat j)) /\
        (forall g, g <> f -> page_of k' g = page_of k g)
  | Panic => (size (k_free k) < 4)%nat
  end.
Proof.
  intros Hs Hseg Hlen Hin virt. pose proof (seg_end_eq _ seg Hseg) as (_ & _ & Htop).
  pose proof (so_vaddr _ _ Hseg) as [Hv0 _]. unfold USER_TOP in Htop.
  unfold map_segment_page. pose proof (k_alloc_frame_spec k _ Hs) as Ha.
  destruct (k_alloc_frame k) as [[f k1]|]; run; [|rewrite Ha, size_empty; lia].
  destruct Ha as (Hs1 & Hf & Hfree1 & Hal & Hr & Htabs & Hmem & _).
  replace (wrap64 (virt - seg_vaddr seg)) with (Z.of_nat i * 4096)
    by (rewrite wrap64_small by (unfold is_u64, virt; lia); unfold virt; lia).
  set (k2 := k_write_page k1 f zero_page).
  match goal with |- match ?m ≫= _ with _ => _ end => set (copy := m) end.
  assert (exists k3, copy = Done k3 /\ k_pt k3 = k_pt k1 /\
    (forall j, (j < 4096)%nat -> page_of k3 f !! j = seg_byte seg data (Z.of_nat i * 4096 + Z.of_nat j)) /\
    forall g, g <> f -> page_of k3 g = page_of k g) as (k3 & Hc & Hpt3 & Hbytes & Hother).
  { assert (forall g, g <> f -> page_of k2 g = page_of k g) as Ho.
    { intros g Hg. unfold k2. rewrite page_of_write_ne by done. unfold page_of. by rewrite Hmem. }
    unfold copy. destruct (Z.ltb_spec (Z.of_nat i * 4096) (seg_filesz seg)) as [Hlt|Hge].
    - destruct (segment_copy _ seg data (page_of k1 f) (Z.of_nat i * 4096) Hseg eq_refl Hlen) as (src & Hsl & Hby);
        [lia|done|]. rewrite Hsl. run. eexists. split_and!; [reflexivity|done| |].
      + intros j Hj. rewrite page_of_write_eq. unfold k2. rewrite page_of_write_eq. by apply Hby.
      + intros g Hg. rewrite page_of_write_ne by done. by apply Ho.
    - exists k2. split_and!; [done|done| |done]. intros j Hj. unfold k2.
      rewrite page_of_write_eq, overwrite_lookup, zero_page_length, decide_True by done.
      unfold seg_byte. rewrite (proj2 (Z.ltb_ge _ _)) by lia. by apply lookup_replicate_2. }
  rewrite Hc. run. rewrite PhysAddr_new_frame by done.
  destruct (user_flags_ok (seg_flags seg)) as [Hfl Hpr].
  assert (space_wf (k_pt k3) (as_pml4_phys a)) as Hs3 by (by rewrite Hpt3).
  assert (k_free k3 = k_free k ∖ {[f]}) as Hfree3 by (unfold k_free; rewrite Hpt3; exact Hfree1).
  assert (size (k_free k) = S (size (k_free k3))) as Hsz.
  { rewrite Hfree3. by apply size_remove. }
  pose proof (k_map_page_spec k3 a virt f _ Hs3 ltac:(apply is_user_low; unfold virt; lia) ltac:(lia) Hfl Hpr) as Hm.
  destruct (k_map_page k3 a virt f _) as [k'|]; [|lia].
  destruct Hm as (Hs' & Hsub & Hsz' & Hmem' & _ & _ & _ & Htr & Hu).
  assert (k_free k3 ⊆ k_free k) as Hsub3 by (rewrite Hfree3; apply subseteq_difference_l; done).
  assert (f ∉ k_free k3) as Hf3 by (rewrite Hfree3; apply not_elem_of_difference; right; by apply elem_of_singleton).
  split_and!; [done | by etrans | lia |]. exists f.
  split_and!; [done | by intros ?%Hsub | done | lia | lia | | | |].
  - intros w Hw. rewrite Htr by done. unfold translate, read_table. by rewrite Hpt3, Htabs.
  - intros w. rewrite Hu. unfold k_uleaf. by rewrite Hpt3, Htabs.
  - intros j Hj. unfold page_of. rewrite Hmem'. by apply Hbytes.
  - intros g Hg. unfold page_of at 1. rewrite Hmem'. by apply Hother.
Qed.

Lemma vpage_user v : 0 <= v < 2 ^ 48 -> vpage v = v / 4096.
Proof. intros Hv. unfold vpage. by rewrite Z.mod_small. Qed.

(** What holds after [n] pages of the segment. *)
Record loaded a seg data k0 (n : nat) k : Prop := {
  ld_wf : space_wf (k_pt k) (as_pml4_phys a);
  ld_free : k_free k ⊆ k_free k0;
  ld_size : (size (k_free k0) <= size (k_free k) + 4 * n)%nat;
  ld_page i : (i < n)%nat -> exists f, f ∉ k_free k /\ f mod 4096 = 0 /\ 0 < f < 2 ^ 44 /\
    (forall w, vpage w = seg_vaddr seg / 4096 + Z.of_nat i ->
       k_uleaf k (as_pml4_phys a) w = Some (PageTableEntry_new_page f (user_flags_from_elf (seg_flags seg)))) /\
    (forall j, (j < 4096)%nat -> page_of k f !! j = seg_byte seg data (Z.of_nat i * 4096 + Z.of_nat j));
  ld_other w : ~ (seg_vaddr seg / 4096 <= vpage w < seg_vaddr seg / 4096 + Z.of_nat n) ->
    translate (k_pt k) (as_pml4_phys a) w = translate (k_pt k0) (as_pml4_phys a) w /\
    k_uleaf k (as_pml4_phys a) w = k_uleaf k0 (as_pml4_phys a) w;
  ld_mem g : g ∉ k_free k0 -> page_of k g = page_of k0 g
}.

Lemma loaded_step a seg data k0 n k :
  seg_ok (Z.of_nat (length data)) seg -> Z.of_nat (length data) < 2 ^ 63 ->
  seg_vaddr seg + Z.of_nat n * 4096 < seg_end seg -> loaded a seg data k0 n k ->
  match map_segment_page a seg data k (seg_vaddr seg + Z.of_nat n * 4096) with
  | Done k' => loaded a seg data k0 (S n) k'
  | Panic => (size (k_free k0) < 4 * S n)%nat
  end.
Proof.
  intros Hseg Hlen Hin [Hwf Hfree Hsize Hpage Hother Hmem].
  pose proof (map_segment_page_spec a seg data k n Hwf Hseg Hlen Hin) as Hp. cbv zeta in Hp.
  pose proof (seg_end_eq _ seg Hseg) as (_ & _ & Htop). unfold USER_TOP in Htop.
  pose proof (so_vaddr _ _ Hseg) as [Hv0 Hvm].
  destruct (map_segment_page a seg data k _) as [k'|]; [|lia].
  destruct Hp as (Hwf' & Hfree' & Hsize' & f & Hf & Hf' & Hal & Hr & Htr & Hu & Hby & Hoth).
  assert (vpage (seg_vaddr seg + Z.of_nat n * 4096) = seg_vaddr seg / 4096 + Z.of_nat n) as Hvp.
  { rewrite vpage_user by lia. by rewrite Z.div_add. }
  rewrite Hvp in Hu, Htr. constructor; [done | by etrans | lia | | |].
  - intros i Hi. destruct (decide (i = n)) as [->|Hne].
    + exists f. split_and!; [done..|lia|lia| |done]. intros w Hw. by rewrite Hu, decide_True.
    + destruct (Hpage i ltac:(lia)) as (g & Hg & Hgal & Hgr & Hgu & Hgb).
      assert (g <> f) as Hgf by (by intros ->). exists g. split_and!; [by intros ?%Hfree'|done|lia|lia| |].
      * intros w Hw. rewrite Hu, decide_False by lia. by apply Hgu.
      * intros j Hj. rewrite Hoth by done. by apply Hgb.
  - intros w Hw. destruct (Hother w) as [Ht1 Ht2]; [lia|]. by rewrite Htr, Hu, decide_False by lia.
  - intros g Hg. rewrite Hoth by (intros ->; by apply Hg, Hfree). by apply Hmem.
Qed.

Lemma map_segment_loaded a seg data k :
  seg_ok (Z.of_nat (length data)) seg -> Z.of_nat (length data) < 2 ^ 63 ->
  space_wf (k_pt k) (as_pml4_phys a) ->
  let n := page_count (seg_vaddr seg) (seg_end seg) in
  Z.of_nat n * 4096 = seg_end seg - seg_vaddr seg /\
  match map_segment a seg data k with
  | Done k' => loaded a seg data k n k'
  | Panic => (size (k_free k) < 4 * n)%nat
  end.
Proof.
  intros Hseg Hlen Hs n. pose proof (seg_end_eq _ seg Hseg) as (Hend & Hem & Htop). unfold USER_TOP in Htop.
  pose proof (so_vaddr _ _ Hseg) as [Hv0 Hvm]. pose proof (so_sizes _ _ Hseg).
  assert (Z.of_nat n * 4096 = seg_end seg - seg_vaddr seg) as Hn.
  { unfold n, page_count. Z.div_mod_to_equations. lia. }
  split; [done|]. unfold map_segment. fold (seg_end seg). fold n.
  pose proof (page_loop_inv (map_segment_page a seg data) (loaded a seg data k)
    (size (k_free k) < 4 * n)%nat (seg_vaddr seg) (seg_end seg) n 0 k) as Hl.
  rewrite Z.add_0_r in Hl. apply Hl; [|done|intros; lia|lia|].
  - intros j k1 Hj Hk1. pose proof (loaded_step a seg data k j k1 Hseg Hlen ltac:(lia) Hk1) as Hst.
    destruct (map_segment_page a seg data k1 _); [done|lia].
  - constructor; [done|done|lia|lia|done|done].
Qed.

(** C7: loading a segment that [parse_elf] accepted puts exactly the segment in
    memory.  Every address from the segment's start to the end of its last page
    translates to a frame that was free, with the permissions of the header, and
    holds the file's byte at the corresponding offset, or zero past the file
    size; every other address translates as before and no frame in use is
    written.  The only failure is running out of frames, and four free frames per
    page are enough. *)
Theorem map_segment_image a seg data k :
  seg_ok (Z.of_nat (length data)) seg -> Z.of_nat (length data) < 2 ^ 63 ->
  space_wf (k_pt k) (as_pml4_phys a) ->
  match map_segment a seg data k with
  | Done k' => space_wf (k_pt k') (as_pml4_phys a) /\
      (forall addr, seg_vaddr seg <= addr < seg_end seg -> exists f,
         f ∉ k_free k' /\ translate (k_pt k') (as_pml4_phys a) addr = Done (Some (f + addr mod 4096)) /\
         (e ← k_uleaf k' (as_pml4_phys a) addr; Some (PageTableEntry_flags e)) =
           Some (user_flags_from_elf (seg_flags seg)) /\
         page_of k' f !! Z.to_nat (addr mod 4096) = seg_byte seg data (addr - seg_vaddr seg)) /\
      (forall w, ~ (seg_vaddr seg / 4096 <= vpage w < seg_end seg / 4096) ->
         translate (k_pt k') (as_pml4_phys a) w = translate (k_pt k) (as_pml4_phys a) w) /\
      (forall g, g ∉ k_free k -> page_of k' g = page_of k g)
  | Panic => (size (k_free k) < 4 * page_count (seg_vaddr seg) (seg_end seg))%nat
  end.
Proof.
  intros Hseg Hlen Hs. pose proof (map_segment_loaded a seg data k Hseg Hlen Hs) as [Hn Hl]. cbv zeta in Hl.
  set (n := page_count (seg_vaddr seg) (seg_end seg)) in *.
  destruct (map_segment a seg data k) as [k'|]; [|done]. destruct Hl as [Hwf Hfree _ Hpage Hother Hmem].
  pose proof (seg_end_eq _ seg Hseg) as (_ & Hem & Htop). unfold USER_TOP in Htop.
  pose proof (so_vaddr _ _ Hseg) as [Hv0 Hvm]. split_and!; [done| | |done].
  - intros addr Ha. set (i := Z.to_nat (addr / 4096 - seg_vaddr seg / 4096)).
    assert (addr / 4096 = seg_vaddr seg / 4096 + Z.of_nat i /\ (i < n)%nat) as [Hi Hin].
    { unfold i. Z.div_mod_to_equations. lia. }
    destruct (Hpage i Hin) as (f & Hf & Hal & Hr & Hu & Hby).
    assert (k_uleaf k' (as_pml4_phys a) addr =
            Some (PageTableEntry_new_page f (user_flags_from_elf (seg_flags seg)))) as Hleaf.
    { apply Hu. rewrite vpage_user by lia. done. }
    exists f. rewrite translate_uleaf by (done || apply is_user_low; lia). fold (k_uleaf k' (as_pml4_phys a) addr). rewrite Hleaf.
    cbn [mbind option_bind]. destruct (user_flags_ok (seg_flags seg)) as [Hfl _].
    rewrite frame_new_page, flags_new_page by done. change (2 ^ 12) with 4096.
    rewrite Hal, Z.mod_small, Z.sub_0_r by lia. rewrite add_page_offset by lia.
    split_and!; [done..|]. pose proof (Z.mod_pos_bound addr 4096 ltac:(lia)).
    rewrite Hby by lia. f_equal. rewrite Z2Nat.id by lia. Z.div_mod_to_equations. lia.
  - intros w Hw. apply Hother. intros Hin. apply Hw. split; [lia|]. Z.div_mod_to_equations. lia.
Qed.
End loader.

(** The demo image of [Elf], loaded into an empty address space. *)
Definition demo_seg : LoadSegment :=
  {| seg_vaddr := 0x401000; seg_filesz := 0x20; seg_memsz := 0x30; seg_data_off := 0; seg_flags := 5 |}.

Definition demo_kernel : kstate BumpAllocator unit :=
  {| k_pt := demo_state; k_mem := ∅; k_cow := COW_TABLE; k_vfs := tt; k_shoot := [] |}.

Lemma demo_space : space_wf (k_pt demo_kernel) (as_pml4_phys empty_space).
Proof. split; [apply demo_wf | intros v _; apply demo_wf]. Qed.

Lemma demo_seg_ok : seg_ok (Z.of_nat (length demo_elf)) demo_seg.
Proof. constructor; unfold USER_TOP; vm_compute; intuition discriminate. Qed.

Lemma map_segment_image_witness :
  match map_segment empty_space demo_seg demo_elf demo_kernel with
  | Done k' => exists f, translate (k_pt k') 0x1000 0x401001 = Done (Some (f + 1)) /\
                         page_of k' f !! 1%nat = Some 0x45
  | Panic => False
  end.
Proof.
  pose proof (map_segment_image empty_space demo_seg demo_elf demo_kernel demo_seg_ok
    ltac:(vm_compute; reflexivity) demo_space) as Hm.
  destruct (map_segment empty_space demo_seg demo_elf demo_kernel) as [k'|].
  - destruct Hm as (_ & Hin & _). destruct (Hin 0x401001) as (f & _ & Ht & _ & Hb).
    + vm_compute. split; [discriminate | reflexivity].
    + exists f. split; [exact Ht | exact Hb].
  - assert (4 <= size (k_free demo_kernel))%nat by (apply Nat.leb_le; vm_compute; reflexivity).
    change (page_count (seg_vaddr demo_seg) (seg_end demo_seg)) with 1%nat in Hm. lia.
Defined.
