(* ===== verification/Faults.v ===== *)
(** * Page-fault resolution

    The behaviour of [resolve_cow_fault] and of the anonymous and file-backed
    paths of [resolve_file_fault] on a well-formed address space, and what the
    page-fault handler makes of them. *)

From Stdlib Require Import ZArith Lia Btauto.
From stdpp Require Import prelude gmap list.
From S2P Require Import Prelude Paging Frames PageTable UserMap Elf Cow Vma AddressSpace Loader.

Local Open Scope Z_scope.

(** ** Flags *)

Lemma is_flags_with f n : is_flags f -> 0 <= n < 12 -> is_flags (Z.lor f (2 ^ n)).
Proof.
  intros [H0 Hf] Hn. split; [apply Z.lor_nonneg; lia|].
  intros i Hi Hne. rewrite Z.lor_spec, Hf, testbit_pow2 by lia. cbn [orb]. apply Z.eqb_neq. lia.
Qed.

Lemma is_flags_without f m : is_flags f -> is_flags (Z.land f m).
Proof.
  intros [H0 Hf]. split; [apply Z.land_nonneg; by left|].
  intros i Hi Hne. by rewrite Z.land_spec, Hf.
Qed.

Lemma without_bit f n i : 0 <= n < 64 -> 0 <= i < 64 ->
  Z.testbit (Z.land f (not64 (2 ^ n))) i = Z.testbit f i && negb (n =? i).
Proof.
  intros Hn Hi. unfold not64. rewrite Z.land_spec, Z.lxor_spec, testbit_pow2, testbit_ones by lia.
  rewrite (proj2 (Z.leb_le 0 i)), (proj2 (Z.ltb_lt i 64)) by lia. cbn [andb]. by rewrite xorb_true_r.
Qed.

Lemma with_bit f n i : 0 <= n -> Z.testbit (Z.lor f (2 ^ n)) i = Z.testbit f i || (n =? i).
Proof. intros Hn. by rewrite Z.lor_spec, testbit_pow2. Qed.

(** The flags of a page made writable: the writable bit set, the
    copy-on-write bit clear, every other bit kept. *)
Lemma cow_writable_bits f i : 0 <= i < 64 ->
  Z.testbit (cow_writable_flags f) i = (Z.testbit f i || (i =? 1)) && negb (i =? 10).
Proof.
  intros Hi. unfold cow_writable_flags, without_cow, with_writable, COW, WRITABLE.
  rewrite without_bit, with_bit by lia. by rewrite (Z.eqb_sym 1), (Z.eqb_sym 10).
Qed.

Lemma cow_readonly_bits f i : 0 <= i < 64 ->
  Z.testbit (cow_readonly_flags f) i = (Z.testbit f i && negb (i =? 1)) || (i =? 10).
Proof.
  intros Hi. unfold cow_readonly_flags, without_writable, with_cow, COW, WRITABLE.
  rewrite with_bit, without_bit by lia. by rewrite (Z.eqb_sym 1), (Z.eqb_sym 10).
Qed.

Lemma cow_writable_ok f : is_flags f -> is_flags (cow_writable_flags f).
Proof. intros Hf. by apply is_flags_without, (is_flags_with _ 1). Qed.

Lemma cow_readonly_ok f : is_flags f -> is_flags (cow_readonly_flags f).
Proof. intros Hf. apply (is_flags_with _ 10); [|lia]. by apply is_flags_without. Qed.

(** Marking a writable page copy-on-write and resolving its fault gives back its flags. *)
Lemma cow_flags_restored f : is_flags f -> Z.testbit f 1 = true -> Z.testbit f 10 = false ->
  cow_writable_flags (cow_readonly_flags f) = f.
Proof.
  intros Hf H1 H10. pose proof (cow_readonly_ok f Hf) as Hr. pose proof (cow_writable_ok _ Hr) as [_ Hw].
  apply Z.bits_inj'. intros i Hi. destruct (decide (i < 64)) as [Hlt|Hge].
  - rewrite cow_writable_bits, cow_readonly_bits by lia.
    destruct (Z.eqb_spec i 1) as [->|]; [by rewrite H1|]. destruct (Z.eqb_spec i 10) as [->|]; [by rewrite H10|].
    cbn [negb]. by rewrite !orb_false_r, !andb_true_r.
  - rewrite Hw by lia. symmetry. apply Hf; lia.
Qed.

Section faults.
Context {A V : Type} `{FrameAllocatorLaws A}.
Implicit Types (k : kstate A V) (a : AddressSpace).

Lemma vpage_page addr : is_u64 addr -> vpage (Z.land addr (not64 (4096 - 1))) = vpage addr.
Proof.
  intros Ha. change (4096 - 1) with 4095. rewrite land_4095 by done. unfold vpage, is_u64 in *.
  change (2 ^ 12) with 4096. change (2 ^ 48) with 281474976710656. Z.div_mod_to_equations. lia.
Qed.

(** The leaf entry that a fault handler works on. *)
Lemma k_leaf_spec k a v :
  space_wf (k_pt k) (as_pml4_phys a) -> is_user v ->
  (k_leaf k a v = Done None /\ k_uleaf k (as_pml4_phys a) v = None) \/
  exists t e, k_leaf k a v = Done (Some (t, VirtAddr_pt_index v, e)) /\
    walk (tabs (k_pt k)) (as_pml4_phys a) [ix4 v; ix3 v; ix2 v] = Some t /\
    k_uleaf k (as_pml4_phys a) v = (if is_present e then Some e else None).
Proof.
  intros Hs H4. unfold k_leaf, k_uleaf. rewrite leaf_entry_spec by done.
  destruct (walk (tabs (k_pt k)) (as_pml4_phys a) [ix4 v; ix3 v; ix2 v]) as [t|] eqn:Hw; run.
  - right. destruct (leaf_read (k_pt k) (as_pml4_phys a) v t Hs Hw) as (e & -> & Hu). run. eauto.
  - left. split; [done|]. unfold uleaf, pentry. by rewrite Hw.
Qed.

Lemma k_set_leaf k a v t e :
  space_wf (k_pt k) (as_pml4_phys a) ->
  walk (tabs (k_pt k)) (as_pml4_phys a) [ix4 v; ix3 v; ix2 v] = Some t ->
  exists p, k_set_entry k t (VirtAddr_pt_index v) e = Done (set_pt k p) /\
    space_wf p (as_pml4_phys a) /\ pt_alloc p = pt_alloc (k_pt k) /\
    forall w, uleaf (tabs p) (as_pml4_phys a) w =
      if decide (vpage w = vpage v) then (if is_present e then Some e else None)
      else k_uleaf k (as_pml4_phys a) w.
Proof.
  intros Hs Hw. unfold k_set_entry.
  destruct (write_leaf (k_pt k) (as_pml4_phys a) v t e Hs Hw) as (p & -> & Hp & Ha & Hu). run. by exists p.
Qed.

(** The entry a resolved fault leaves behind. *)
Record cow_resolved (old new frame : Z) : Prop := {
  cr_frame : PageTableEntry_frame new = frame;
  cr_flags : PageTableEntry_flags new = cow_writable_flags (PageTableEntry_flags old);
  cr_present : is_present new = true;
  cr_writable : is_writable new = true;
  cr_cow : is_cow new = false
}.

Lemma cow_resolved_new old frame :
  0 <= old -> is_present old = true -> 0 <= frame < 2 ^ 48 -> frame mod 4096 = 0 ->
  cow_resolved old (PageTableEntry_new_page frame (cow_writable_flags (PageTableEntry_flags old))) frame.
Proof.
  intros H0' Hp Hf Hal. pose proof (cow_writable_ok _ (is_flags_of old H0')) as Hfl.
  rewrite is_present_bit in Hp.
  constructor.
  - rewrite frame_new_page by done. change (2 ^ 12) with 4096. rewrite Hal, Z.mod_small by lia. lia.
  - by apply flags_new_page.
  - rewrite is_present_bit, new_page_bits, cow_writable_bits, flags_bits_of, Hp by lia. done.
  - rewrite is_writable_bit, new_page_bits, cow_writable_bits by lia. cbn. by rewrite orb_true_r.
  - rewrite is_cow_bit, new_page_bits, cow_writable_bits by lia. cbn. by rewrite andb_false_r.
Qed.

(** A fault on a page that is not copy-on-write is refused and changes nothing. *)
Lemma resolve_cow_refused a k addr :
  space_wf (k_pt k) (as_pml4_phys a) -> is_u64 addr -> is_user addr ->
  (forall e, k_uleaf k (as_pml4_phys a) addr = Some e -> is_cow e = false) ->
  resolve_cow_fault a k addr = Done (false, k).
Proof.
  intros Hs Ha H4 Hn. unfold resolve_cow_fault. set (page := Z.land addr _).
  assert (vpage page = vpage addr) as Hvp by (by apply vpage_page).
 
  assert (k_uleaf k (as_pml4_phys a) page = k_uleaf k (as_pml4_phys a) addr) as Hl by (by apply uleaf_vpage).
  destruct (k_leaf_spec k a page Hs (is_user_vpage _ _ Hvp H4)) as [[-> _]|(t & e & -> & _ & Hu)]; run; [done|].
  rewrite Hl in Hu. destruct (is_present e) eqn:Hp; cbn [negb orb]; [|done].
  by rewrite (Hn e Hu).
Qed.

(** The state after a copy-on-write fault on the leaf [old], whose frame now is
    [frame] in the faulting address space. *)
Record cow_fault_post a k addr old k' frame : Prop := {
  cf_wf : space_wf (k_pt k') (as_pml4_phys a);
  cf_leaf : exists new, k_uleaf k' (as_pml4_phys a) addr = Some new /\ cow_resolved old new frame;
  cf_other w : vpage w <> vpage addr -> k_uleaf k' (as_pml4_phys a) w = k_uleaf k (as_pml4_phys a) w;
  cf_bytes : page_of k' frame = page_of k (PageTableEntry_frame old);
  cf_mem g : g ∉ k_free k -> page_of k' g = page_of k g;
  cf_cow : cow_ok (k_cow k') /\
    cow_refcount (k_cow k') (PageTableEntry_frame old) =
      Z.max 1 (cow_refcount (k_cow k) (PageTableEntry_frame old) - 1) /\
    (forall g, g <> PageTableEntry_frame old -> cow_refcount (k_cow k') g = cow_refcount (k_cow k) g);
  cf_shoot : k_shoot k' = k_shoot k ++ [(as_active_cpus a, Z.land addr (not64 (4096 - 1)))]
}.

Lemma overwrite_full page bytes : length page = length bytes -> overwrite page bytes = bytes.
Proof. intros Hl. unfold overwrite. rewrite <- Hl, drop_all. apply app_nil_r. Qed.

(** Every frame's contents is one page long. *)
Definition mem_ok k : Prop := forall f, length (page_of k f) = 4096%nat.

Lemma PhysAddr_new_small f : 0 <= f < 2 ^ 48 -> PhysAddr_new f = f.
Proof. intros Hf. unfold PhysAddr_new. masks. rewrite Z.land_ones by lia. apply Z.mod_small. lia. Qed.

(** Both branches end by storing the new entry: [k2] has the tables of [k]. *)
Lemma cow_commit a k k2 addr t old frame :
  space_wf (k_pt k2) (as_pml4_phys a) -> tabs (k_pt k2) = tabs (k_pt k) ->
  walk (tabs (k_pt k)) (as_pml4_phys a) [ix4 addr; ix3 addr; ix2 addr] = Some t ->
  0 <= old -> is_present old = true -> 0 <= frame < 2 ^ 48 -> frame mod 4096 = 0 ->
  let new := PageTableEntry_new_page frame (cow_writable_flags (PageTableEntry_flags old)) in
  exists p, k_set_entry k2 t (VirtAddr_pt_index addr) new = Done (set_pt k2 p) /\
    space_wf p (as_pml4_phys a) /\ pt_alloc p = pt_alloc (k_pt k2) /\ cow_resolved old new frame /\
    (forall w, vpage w = vpage addr -> uleaf (tabs p) (as_pml4_phys a) w = Some new) /\
    (forall w, vpage w <> vpage addr -> uleaf (tabs p) (as_pml4_phys a) w = k_uleaf k (as_pml4_phys a) w).
Proof.
  intros Hs Ht Hw H0' Hp Hf Hal new. pose proof (cow_resolved_new old frame H0' Hp Hf Hal) as Hnew.
  fold new in Hnew. rewrite <- Ht in Hw.
  destruct (k_set_leaf k2 a addr t new Hs Hw) as (p & Hset & Hwf & Ha & Hu).
  exists p. split_and!; [done..| |].
  - intros w Hv. by rewrite Hu, decide_True, (cr_present _ _ _ Hnew).
  - intros w Hv. rewrite Hu, decide_False by done. unfold k_uleaf. by rewrite Ht.
Qed.

(** What [cow_resolve] runs: the answer of the table, and the released table. *)
Lemma cow_resolve_run {R} k frame (action : bool -> R) :
  cow_ok (k_cow k) ->
  exists cow', cow_resolve (k_cow k) frame action = (action (cow_refcount (k_cow k) frame =? 1), cow') /\
    cow_ok cow' /\ cow_refcount cow' frame = Z.max 1 (cow_refcount (k_cow k) frame - 1) /\
    forall g, g <> frame -> cow_refcount cow' g = cow_refcount (k_cow k) g.
Proof.
  intros Hok. destruct (cow_release_spec (k_cow k) frame Hok) as (Hs & Hok' & Ho & Hr).
  unfold cow_resolve. destruct (cow_release (k_cow k) frame) as [sole cow'].
  cbn [fst snd] in *. subst sole. by exists cow'.
Qed.

Lemma resolve_cow_step a k addr old :
  space_wf (k_pt k) (as_pml4_phys a) -> cow_ok (k_cow k) -> mem_ok k ->
  is_u64 addr -> is_user addr ->
  k_uleaf k (as_pml4_phys a) addr = Some old -> 0 <= old -> is_cow old = true ->
  PageTableEntry_frame old ∉ k_free k ->
  match resolve_cow_fault a k addr with
  | Done (ok, k') => ok = true /\
      if cow_refcount (k_cow k) (PageTableEntry_frame old) =? 1
      then cow_fault_post a k addr old k' (PageTableEntry_frame old) /\ k_free k' = k_free k
      else exists f, f ∈ k_free k /\ k_free k' = k_free k ∖ {[f]} /\ cow_fault_post a k addr old k' f
  | Panic => k_free k = ∅
  end.
Proof.
  intros Hs Hcow Hmem Ha H4 Hold H0' Hc Hused. unfold resolve_cow_fault. set (page := Z.land addr _).
  assert (vpage page = vpage addr) as Hvp by (by apply vpage_page).
  assert (k_uleaf k (as_pml4_phys a) page = Some old) as Hl by (rewrite <- Hold; by apply uleaf_vpage).
  destruct (k_leaf_spec k a page Hs (is_user_vpage _ _ Hvp H4)) as [[_ Hn]|(t & e & -> & Hw & Hu)]; run; [congruence|].
  rewrite Hl in Hu. destruct (is_present e) eqn:Hp; [injection Hu as <-|done]. rewrite Hc. cbn [negb orb].
  pose proof (frame_range old) as Hfr. rewrite PhysAddr_new_small by done.
  match goal with |- context [cow_resolve _ _ ?act] =>
    destruct (cow_resolve_run k (PageTableEntry_frame old) act Hcow) as (cow' & -> & Hok' & Hrc & Hoth) end.
  destruct (cow_refcount (k_cow k) (PageTableEntry_frame old) =? 1).
  - destruct (cow_commit a k k page t old (PageTableEntry_frame old) Hs eq_refl Hw H0' Hp Hfr (frame_aligned old))
      as (p & Hset & Hwf & Hal & Hnew & Hhere & Helse).
    unfold PageTableEntry_with_flags. rewrite Hset. run. split; [done|].
    split; [|unfold k_free; cbn; by rewrite Hal].
    constructor; try done.
    + eexists. split; [by apply Hhere | exact Hnew].
    + intros w Hne. apply Helse. congruence.
  - pose proof (k_alloc_frame_spec k _ Hs) as Hal. destruct (k_alloc_frame k) as [[f k1]|]; run; [|done].
    destruct Hal as (Hs1 & Hf & Hfree & Hfa & Hfr' & Htabs & Hm1 & Hc1 & _ & Hsh).
    rewrite PhysAddr_new_frame by done. set (k2 := copy_frame k1 f (PageTableEntry_frame old)).
    destruct (cow_commit a k k2 page t old f Hs1 Htabs Hw H0' Hp ltac:(lia) Hfa)
      as (p & Hset & Hwf & Hap & Hnew & Hhere & Helse). rewrite Hset. run.
    assert (forall g, page_of k1 g = page_of k g) as Hp1 by (intros g; unfold page_of; by rewrite Hm1).
    split; [done|]. exists f. split; [done|].
    split; [change (fa_free (pt_alloc p) = k_free k ∖ {[f]}); by rewrite Hap|]. constructor; try done.
    + eexists. split; [by apply Hhere | exact Hnew].
    + intros w Hne. apply Helse. congruence.
    + change (page_of k2 f = page_of k (PageTableEntry_frame old)). unfold k2, copy_frame.
      rewrite page_of_write_eq, !Hp1. apply overwrite_full. by rewrite !Hmem.
    + intros g Hg. change (page_of k2 g = page_of k g). unfold k2, copy_frame.
      rewrite page_of_write_ne; [done|]. by intros ->.
    + change (k_shoot k1 ++ [(as_active_cpus a, page)] = k_shoot k ++ [(as_active_cpus a, page)]). by rewrite Hsh.
Qed.

(** The sole owner needs no frame. *)
Lemma resolve_cow_sole a k addr old :
  space_wf (k_pt k) (as_pml4_phys a) -> cow_ok (k_cow k) -> is_u64 addr -> is_user addr ->
  k_uleaf k (as_pml4_phys a) addr = Some old -> 0 <= old -> is_cow old = true ->
  cow_refcount (k_cow k) (PageTableEntry_frame old) = 1 -> resolve_cow_fault a k addr <> Panic.
Proof.
  intros Hs Hcow Ha H4 Hold H0' Hc H1. unfold resolve_cow_fault. set (page := Z.land addr _).
  assert (vpage page = vpage addr) as Hvp by (by apply vpage_page).
  assert (k_uleaf k (as_pml4_phys a) page = Some old) as Hl by (rewrite <- Hold; by apply uleaf_vpage).
  destruct (k_leaf_spec k a page Hs (is_user_vpage _ _ Hvp H4)) as [[_ Hn]|(t & e & -> & Hw & Hu)]; run; [congruence|].
  rewrite Hl in Hu. destruct (is_present e) eqn:Hp; [injection Hu as <-|done]. rewrite Hc. cbn [negb orb].
  pose proof (frame_range old) as Hfr. rewrite PhysAddr_new_small by done.
  match goal with |- context [cow_resolve _ _ ?act] =>
    destruct (cow_resolve_run k (PageTableEntry_frame old) act Hcow) as (cow' & -> & _) end.
  rewrite H1. change (1 =? 1) with true. cbv iota.
  destruct (cow_commit a k k page t old (PageTableEntry_frame old) Hs eq_refl Hw H0' Hp Hfr (frame_aligned old))
    as (p & Hset & _). unfold PageTableEntry_with_flags. by rewrite Hset.
Qed.

Lemma resolve_cow_isolates a k addr old :
  space_wf (k_pt k) (as_pml4_phys a) -> cow_ok (k_cow k) -> mem_ok k ->
  is_u64 addr -> is_user addr ->
  k_uleaf k (as_pml4_phys a) addr = Some old -> 0 <= old -> is_cow old = true ->
  PageTableEntry_frame old ∉ k_free k ->
  match resolve_cow_fault a k addr with
  | Done (ok, k') => ok = true /\ exists f,
      cow_fault_post a k addr old k' f /\ f ∉ k_free k' /\
      (f = PageTableEntry_frame old <-> cow_refcount (k_cow k) (PageTableEntry_frame old) = 1)
  | Panic => k_free k = ∅ /\ cow_refcount (k_cow k) (PageTableEntry_frame old) <> 1
  end.
Proof.
  intros Hs Hcow Hmem Ha H4 Hold H0' Hc Hused.
  pose proof (resolve_cow_step a k addr old Hs Hcow Hmem Ha H4 Hold H0' Hc Hused) as Hst.
  pose proof (resolve_cow_sole a k addr old Hs Hcow Ha H4 Hold H0' Hc) as Hsole.
  destruct (resolve_cow_fault a k addr) as [[ok k']|].
  - destruct Hst as [-> Hst]. split; [done|].
    destruct (Z.eqb_spec (cow_refcount (k_cow k) (PageTableEntry_frame old)) 1) as [H1|H1].
    + destruct Hst as [Hpost Hfree]. exists (PageTableEntry_frame old). by rewrite Hfree.
    + destruct Hst as (f & Hf & Hfree & Hpost). exists f. split; [done|].
      rewrite Hfree. split; [apply not_elem_of_difference; right; by apply elem_of_singleton|].
      split; [by intros ->|done].
  - split; [done|]. intros H1. by destruct (Hsole H1).
Qed.

(** The entry [fork] leaves behind for a page with the flags [fl]. *)
Lemma cow_marked frame fl : 0 <= frame < 2 ^ 48 -> frame mod 4096 = 0 -> is_flags fl ->
  let e := PageTableEntry_new_page frame (cow_readonly_flags fl) in
  PageTableEntry_frame e = frame /\ PageTableEntry_flags e = cow_readonly_flags fl /\ 0 <= e /\ is_cow e = true.
Proof.
  intros Hfr Hal Hfl e. pose proof (cow_readonly_ok fl Hfl) as Hr. split_and!.
  - unfold e. rewrite frame_new_page by done. change (2 ^ 12) with 4096. rewrite Hal, Z.mod_small by lia. lia.
  - by apply flags_new_page.
  - apply Z.lor_nonneg. split; [|apply Hr]. unfold shl64. apply wrap64_range.
  - unfold e. rewrite is_cow_bit, new_page_bits, cow_readonly_bits by lia. by rewrite orb_true_r.
Qed.

(** C13: resolving a write fault on a page that was writable when [fork] marked it
    copy-on-write (or a private file mapping of a writable area was faulted in): the
    entry has the flags [fl] of a writable page, less the writable and with the
    copy-on-write bit.  The fault is resolved (it fails only when a copy is needed and
    no frame is left), the page gets exactly the flags [fl] back, with its contents
    unchanged, no frame in use is written, no other page's mapping changes, one claim
    on the old frame is released and the other CPUs are told.  The page keeps its frame
    exactly when the table records no other claim on it; otherwise it moves to a fresh
    frame, so that later writes cannot be seen through the old one. *)
Theorem cow_fault_isolates a k addr frame fl :
  space_wf (k_pt k) (as_pml4_phys a) -> cow_ok (k_cow k) -> mem_ok k ->
  is_u64 addr -> is_user addr ->
  0 <= frame < 2 ^ 48 -> frame mod 4096 = 0 -> frame ∉ k_free k ->
  is_flags fl -> Z.testbit fl 1 = true -> Z.testbit fl 10 = false ->
  let old := PageTableEntry_new_page frame (cow_readonly_flags fl) in
  k_uleaf k (as_pml4_phys a) addr = Some old ->
  match resolve_cow_fault a k addr with
  | Done (ok, k') => ok = true /\ exists f new,
      k_uleaf k' (as_pml4_phys a) addr = Some new /\
      PageTableEntry_frame new = f /\ PageTableEntry_flags new = fl /\
      cow_fault_post a k addr old k' f /\ f ∉ k_free k' /\
      (f = frame <-> cow_refcount (k_cow k) frame = 1)
  | Panic => k_free k = ∅ /\ cow_refcount (k_cow k) frame <> 1
  end.
Proof.
  intros Hs Hcow Hmem Ha H4 Hfr Hal Hused Hfl H1 H10 old Hold.
  destruct (cow_marked frame fl Hfr Hal Hfl) as (Ef & Efl & H0' & Hc). fold old in Ef, Efl, H0', Hc.
  pose proof (resolve_cow_isolates a k addr old Hs Hcow Hmem Ha H4 Hold H0' Hc) as Hst. rewrite Ef in Hst. specialize (Hst Hused).
  destruct (resolve_cow_fault a k addr) as [[ok k']|]; [|done].
  destruct Hst as [-> (f & Hpost & Hnf & Hiff)]. split; [done|]. destruct (cf_leaf _ _ _ _ _ _ Hpost) as (new & Hn & Hr).
  exists f, new. split_and!; try done; try apply Hr; try apply Hiff.
  by rewrite (cr_flags _ _ _ Hr), Efl, cow_flags_restored.
Qed.
End faults.

Section handler.
Context {A V : Type} `{FrameAllocatorLaws A} `{!VfsHooks A V}.
Implicit Types (k : kstate A V) (a : AddressSpace).

(** A write to a page that [fork] has marked copy-on-write is granted even
    where the page was mapped without write permission: whatever the flags were
    before the fork, the handler resolves the fault and leaves the page writable
    instead of killing the process. *)
Theorem write_fault_unprotects a k addr frame fl :
  space_wf (k_pt k) (as_pml4_phys a) -> cow_ok (k_cow k) -> mem_ok k ->
  is_u64 addr -> is_user addr -> k_free k <> ∅ ->
  0 <= frame < 2 ^ 48 -> frame mod 4096 = 0 -> frame ∉ k_free k ->
  is_flags fl -> Z.testbit fl 0 = true -> Z.testbit fl 1 = false ->
  k_uleaf k (as_pml4_phys a) addr = Some (PageTableEntry_new_page frame (cow_readonly_flags fl)) ->
  exists k' new, pf_handler (Some a) k addr (PF_PRESENT + PF_WRITE + PF_USER) = Done (FaultResolved, k') /\
    k_uleaf k' (as_pml4_phys a) addr = Some new /\ is_writable new = true.
Proof.
  intros Hs Hc Hm Ha H4 Hne Hfr Hal Hused Hfl Hp Hnw Hu.
  destruct (cow_marked frame fl Hfr Hal Hfl) as (Hframe & _ & H0' & Hc').
  pose proof (resolve_cow_step a k addr _ Hs Hc Hm Ha H4 Hu) as Hst. rewrite Hframe in Hst.
  unfold pf_handler. change (negb (Z.land (PF_PRESENT + PF_WRITE + PF_USER) PF_WRITE =? 0)) with true.
  change (negb (Z.land (PF_PRESENT + PF_WRITE + PF_USER) PF_PRESENT =? 0)) with true. cbn [andb]. run.
  destruct (resolve_cow_fault a k addr) as [[ok k']|]; run.
  - assert (exists f, cow_fault_post a k addr (PageTableEntry_new_page frame (cow_readonly_flags fl)) k' f /\ ok = true)
      as (f & Hpost & ->).
    { destruct Hst as [-> Hst]; [done..|].
      destruct (cow_refcount (k_cow k) frame =? 1); [destruct Hst | destruct Hst as (f & _ & _ & ?)]; eauto. }
    destruct (cf_leaf _ _ _ _ _ _ Hpost) as (new & Hn & Hr). exists k', new.
    split_and!; [done..|]. apply Hr.
  - exfalso. by apply Hne, Hst.
Qed.

(** A fault on an untouched page of an anonymous area.  The page gets a
    fresh frame of zeroes, no other mapping changes, no frame in use is written
    and the other CPUs are told; the only failure is running out of frames.  The
    flags of the new mapping are those of the area with the writable bit set,
    whether or not the area was mapped with write permission. *)
Theorem anon_fault_zero_page a k addr vma :
  space_wf (k_pt k) (as_pml4_phys a) -> is_u64 addr -> is_user addr ->
  find_vma a (align_down_page addr) = Some vma -> vma_backing vma = Anonymous ->
  is_flags (vma_flags vma) -> Z.testbit (vma_flags vma) 0 = true ->
  match resolve_file_fault a k addr with
  | Done (ok, k') => ok = true /\ exists f new,
      f ∈ k_free k /\ f ∉ k_free k' /\ space_wf (k_pt k') (as_pml4_phys a) /\
      (forall w, k_uleaf k' (as_pml4_phys a) w =
         if decide (vpage w = vpage addr) then Some new else k_uleaf k (as_pml4_phys a) w) /\
      PageTableEntry_frame new = f /\ PageTableEntry_flags new = with_writable (vma_flags vma) /\
      is_writable new = true /\
      (forall j, (j < 4096)%nat -> page_of k' f !! j = Some 0) /\
      (forall g, g ∉ k_free k -> page_of k' g = page_of k g) /\
      k_shoot k' = k_shoot k ++ [(as_active_cpus a, align_down_page addr)]
  | Panic => (size (k_free k) < 4)%nat
  end.
Proof.
  intros Hs Ha Hua Hv Hb Hfl Hp. unfold resolve_file_fault. change (4096 - 1) with 4095.
  fold (align_down_page addr). rewrite Hv. unfold fault_frame. rewrite Hb.
  pose proof (k_alloc_frame_spec k _ Hs) as Hal.
  destruct (k_alloc_frame k) as [[f k1]|]; run; [|rewrite Hal, size_empty; lia].
  destruct Hal as (Hs1 & Hf & Hfree & Hfa & Hfr & Htabs & Hm1 & _ & _ & Hsh).
  rewrite PhysAddr_new_frame by done. unfold fault_flags.
  set (k2 := k_write_page k1 f zero_page).
  assert (is_flags (with_writable (vma_flags vma))) as Hfl' by (by apply (is_flags_with _ 1)).
  assert (Z.testbit (with_writable (vma_flags vma)) 0 = true) as Hp'
    by (unfold with_writable, WRITABLE; by rewrite with_bit, Hp by lia).
  assert (vpage (align_down_page addr) = vpage addr) as Hvp by (by apply vpage_page).
  pose proof (k_map_page_spec k2 a (align_down_page addr) f _ Hs1 (is_user_vpage _ _ Hvp Hua) ltac:(lia) Hfl' Hp') as Hm.
  assert (k_free k2 = k_free k ∖ {[f]}) as Hfree2 by exact Hfree.
  pose proof (size_remove (k_free k) f Hf) as Hsz. rewrite <- Hfree2 in Hsz.
  destruct (k_map_page k2 a (align_down_page addr) f _) as [k3|]; run; [|lia].
  destruct Hm as (Hs3 & Hsub & _ & Hmem & _ & _ & Hshk & _ & Hu). split; [done|].
  exists f, (PageTableEntry_new_page f (with_writable (vma_flags vma))). split_and!.
  - done.
  - intros Hin%Hsub. rewrite Hfree2 in Hin. apply elem_of_difference in Hin as [_ Hn].
    apply Hn. by apply elem_of_singleton.
  - done.
  - intros w. change (k_uleaf k3 (as_pml4_phys a) w = if decide (vpage w = vpage addr) then
      Some (PageTableEntry_new_page f (with_writable (vma_flags vma))) else k_uleaf k (as_pml4_phys a) w).
    rewrite Hu, Hvp. unfold k_uleaf, k2. cbn [k_pt k_write_page set_mem]. by rewrite Htabs.
  - rewrite frame_new_page by done. change (2 ^ 12) with 4096. rewrite Hfa, Z.mod_small by lia. lia.
  - by apply flags_new_page.
  - rewrite is_writable_bit, new_page_bits by lia. unfold with_writable, WRITABLE.
    rewrite with_bit by lia. cbn. by rewrite orb_true_r.
  - intros j Hj. change (page_of k3 f !! j = Some 0). unfold page_of. rewrite Hmem.
    fold (page_of k2 f). unfold k2. rewrite page_of_write_eq, overwrite_lookup, zero_page_length, decide_True by done.
    by apply lookup_replicate_2.
  - intros g Hg. change (page_of k3 g = page_of k g). unfold page_of at 1. rewrite Hmem. fold (page_of k2 g).
    unfold k2. rewrite page_of_write_ne by (by intros ->). unfold page_of. by rewrite Hm1.
  - cbn. rewrite Hshk. cbn. by rewrite Hsh.
Qed.
End handler.

(** The hooks before the filesystem has registered its own. *)
#[export] Instance NoVfs {A} : VfsHooks A unit := {
  page_cache_get_or_fill k _ _ := Done (None, k);
  page_cache_mark_dirty k _ _ := k;
  page_cache_writeback k _ := Done (0, k);
  vnode_inc_ref k _ := k;
  vnode_dec_ref k _ := k
}.

(** A page at 0x400000 as [fork] leaves it: the frame 0x9000, readable and writable
    before the fork, with two claims. *)
Definition data_flags : Z := user_flags_from_elf (PF_R + PF_W).

Definition forked_kernel : kstate BumpAllocator unit :=
  match map_page demo_state 0x1000 0x400000 0x9000 (cow_readonly_flags data_flags) with
  | Done p => {| k_pt := p; k_mem := ∅; k_cow := cow_share COW_TABLE 0x9000; k_vfs := tt; k_shoot := [] |}
  | Panic => demo_kernel
  end.

Lemma forked_ok :
  space_wf (k_pt forked_kernel) (as_pml4_phys empty_space) /\ cow_ok (k_cow forked_kernel) /\
  mem_ok forked_kernel /\ 0x9000 ∉ k_free forked_kernel /\ k_free forked_kernel <> ∅ /\
  k_uleaf forked_kernel 0x1000 0x400000 = Some (PageTableEntry_new_page 0x9000 (cow_readonly_flags data_flags)).
Proof.
  destruct (user_flags_ok (PF_R + PF_W)) as [Hf Hp].
  pose proof (map_page_uleaf demo_state 0x1000 0x400000 0x9000 (cow_readonly_flags data_flags) demo_space
    ltac:(apply is_user_low; lia) ltac:(lia) (cow_readonly_ok _ Hf) eq_refl) as Hm.
  unfold forked_kernel. destruct (map_page demo_state 0x1000 0x400000 0x9000 _) as [p|] eqn:E.
  - destruct Hm as (Hs & Hsub & Hsz & _ & Hu). split_and!; cbn [k_pt k_cow k_mem].
    + done.
    + apply cow_share_spec, cow_table_ok.
    + intros f. apply zero_page_length.
    + intros Hin%Hsub. change (0x9000 ∈ bump_free {| bump_n := 9; bump_next := 2 |}) in Hin.
      apply elem_of_bump_free in Hin as (n & Hn & Hr). cbn in Hr. lia.
    + change (k_free _) with (fa_free (pt_alloc p)). intros He. rewrite He, size_empty in Hsz.
      assert (4 <= size (fa_free (pt_alloc demo_state)))%nat by (apply Nat.leb_le; vm_compute; reflexivity). lia.
    + unfold k_uleaf. cbn [k_pt]. by rewrite Hu, decide_True.
  - exfalso. assert (4 <= size (fa_free (pt_alloc demo_state)))%nat by (apply Nat.leb_le; vm_compute; reflexivity). lia.
Qed.

Lemma cow_fault_isolates_witness :
  match resolve_cow_fault empty_space forked_kernel 0x400008 with
  | Done (ok, k') => ok = true /\ exists f new, f <> 0x9000 /\ page_of k' f = page_of forked_kernel 0x9000 /\
      k_uleaf k' 0x1000 0x400008 = Some new /\ PageTableEntry_flags new = data_flags
  | Panic => False
  end.
Proof.
  destruct forked_ok as (Hs & Hc & Hm & Hf & Hne & Hu). destruct (user_flags_ok (PF_R + PF_W)) as [Hfl _].
  assert (PageTableEntry_frame (PageTableEntry_new_page 0x9000 (cow_readonly_flags data_flags)) = 0x9000) as Hfr
    by (vm_compute; reflexivity).
  pose proof (cow_fault_isolates empty_space forked_kernel 0x400008 0x9000 data_flags Hs Hc Hm ltac:(unfold is_u64; lia)
    ltac:(apply is_user_low; lia) ltac:(lia) eq_refl Hf Hfl ltac:(vm_compute; reflexivity) ltac:(vm_compute; reflexivity)
    ltac:(rewrite <- Hu; by apply uleaf_vpage)) as H.
  destruct (resolve_cow_fault empty_space forked_kernel 0x400008) as [[ok k']|].
  - destruct H as [-> (f & new & Hn & _ & Hnf & Hp & _ & Hiff)]. split; [done|]. exists f, new. split_and!.
    + rewrite Hiff. unfold forked_kernel. vm_compute. discriminate.
    + rewrite (cf_bytes _ _ _ _ _ _ Hp). by rewrite Hfr.
    + exact Hn.
    + exact Hnf.
  - exact (Hne (proj1 H)).
Defined.
