(* ===== verification/Spaces.v ===== *)
(** * Several address spaces over one memory

    The tables of an address space's user half belong to it alone; the kernel half is
    shared by all of them.  An operation on one space touches the tables of its user
    half and frames that were free, so every other space is left as it was.  The file
    also has what [AddressSpace::new] of crates/proc/src/address_space.rs builds: an
    empty user half and the kernel half of the current space. *)

From Stdlib Require Import ZArith Lia.
From stdpp Require Import prelude gmap list.
From S2P Require Import Prelude Paging Frames PageTable UserMap Pcid Vma AddressSpace Loader Faults.

Local Open Scope Z_scope.

Section Spaces.
Context {A : Type} `{FrameAllocatorLaws A}.
Implicit Types (s : pt_state A) (p q : list nat).

(** ** The tables of a space *)

Definition user_path p : Prop := match p with [] => True | i :: _ => (i < 256)%nat end.

(** A table of the hierarchy, and one of its user half. *)
Definition reach (tb : gmap Z (list Z)) (root g : Z) : Prop := exists p, (length p <= 3)%nat /\ walk tb root p = Some g.
Definition utable (tb : gmap Z (list Z)) (root g : Z) : Prop := exists p, (length p <= 3)%nat /\ user_path p /\ walk tb root p = Some g.

Definition s_free s : gset Z := fa_free (pt_alloc s).

(** What an operation on the user half of [root] may do: write tables of its own or
    frames that were free, take free frames and turn some into tables. *)
Record owned_step s s' (root : Z) : Prop := {
  os_tabs g : g ∉ s_free s -> ~ utable (tabs s) root g -> tabs s' !! g = tabs s !! g;
  os_more g : utable (tabs s) root g -> utable (tabs s') root g;
  os_new g : utable (tabs s') root g -> g ∈ s_free s \/ utable (tabs s) root g;
  os_free : s_free s' ⊆ s_free s;
  os_kernel p : (length p <= 3)%nat -> ~ user_path p -> walk (tabs s') root p = walk (tabs s) root p
}.

(** Every frame taken has become a table. *)
Definition exact_step s s' (root : Z) : Prop :=
  forall g, g ∈ s_free s \/ utable (tabs s) root g <-> g ∈ s_free s' \/ utable (tabs s') root g.

Lemma owned_refl s root : owned_step s s root.
Proof. constructor; auto. Qed.

Lemma exact_trans s1 s2 s3 root : exact_step s1 s2 root -> exact_step s2 s3 root -> exact_step s1 s3 root.
Proof. intros H1 H2 g. by rewrite (H1 g), (H2 g). Qed.

Lemma owned_trans s1 s2 s3 root : owned_step s1 s2 root -> owned_step s2 s3 root -> owned_step s1 s3 root.
Proof.
  intros [T1 M1 C1 F1 K1] [T2 M2 C2 F2 K2]. constructor.
  - intros g Hf Hu. rewrite T2, T1; [done..|by intros ?%F1|]. intros Hu2. by destruct (C1 g Hu2).
  - auto.
  - intros g [Hin|Hu]%C2; [left; by apply F1|by apply C1].
  - by etrans.
  - intros p Hl Hp. by rewrite K2, K1.
Qed.

(** Only the leaves, or nothing, changed. *)
Lemma walk_pentry tb tb' root : (forall p j, (length p <= 2)%nat -> pentry tb' root p j = pentry tb root p j) ->
  forall p, (length p <= 3)%nat -> walk tb' root p = walk tb root p.
Proof.
  intros He p. induction p as [|i p IH] using rev_ind; intros Hl; [done|]. rewrite length_app in Hl; cbn in Hl.
  by rewrite !walk_snoc, He by lia.
Qed.

Lemma owned_same s s' root : (forall p, (length p <= 3)%nat -> walk (tabs s') root p = walk (tabs s) root p) -> pt_alloc s' = pt_alloc s ->
  (forall g, ~ utable (tabs s) root g -> tabs s' !! g = tabs s !! g) -> owned_step s s' root /\ exact_step s s' root.
Proof.
  intros Hw Ha Ht. assert (forall g, utable (tabs s') root g <-> utable (tabs s) root g) as Hu.
  { intros g. split; intros (p & Hl & Hp & Hg); exists p; (rewrite Hw in * by done || rewrite Hw by done); done. }
  split; [|intros g; unfold s_free; by rewrite Ha, Hu]. constructor; unfold s_free; rewrite ?Ha; auto; intros g; rewrite Hu; auto.
Qed.

(** ** Mapping a page *)

(** [ensure_next_table] finds the table, or takes a frame and writes two tables. *)
Lemma ensure_shape s root pg g index user n s' : pt_wf s root -> 0 <= index < 512 ->
  (length pg <= 2)%nat -> walk (tabs s) root pg = Some g ->
  ensure_next_table s g index user = Done (n, s') ->
  s' = s \/ (n ∈ s_free s /\ s_free s' = s_free s ∖ {[n]} /\ forall h, h <> n -> h <> g -> tabs s' !! h = tabs s !! h).
Proof.
  intros Hwf Hi Hl Hg. unfold ensure_next_table. rewrite read_table_entry by done.
  destruct (entry_at (tabs s) g (Z.to_nat index)) as [e|]; run; [|done]. destruct (is_present e); [intros [= <- <-]; by left|].
  destruct (fa_alloc_frame (pt_alloc s)) as [[f a']|] eqn:Ha; run; [|done].
  destruct (fa_alloc_Some _ _ _ (wf_alloc _ _ Hwf) Ha) as (_ & Hin & Hfree & Hal & Hr).
  destruct (table_entry_props user f Hal Hr) as (Hnew & _ & _ & Hef). rewrite Hnew in *.
  unfold write_table. cbn [tabs pt_alloc]. destruct (<[f:=PageTable_zero]> (tabs s) !! g) as [t|]; run; [|done].
  destruct (PageTable_set t index _) as [t'|]; run; [|done]. intros [= <- <-]. right. rewrite Hef. unfold s_free. cbn [pt_alloc tabs].
  split_and!; [done..|]. intros h Hn Hg'. by rewrite !lookup_insert_ne by done.
Qed.

Lemma ensure_walk s root pg i n s' : (length pg <= 2)%nat -> ensure_post s root pg i (Done (n, s')) ->
  forall p, (length p <= 3)%nat -> walk (tabs s') root p = if decide (p = pg ++ [i]) then Some n else walk (tabs s) root p.
Proof.
  intros Hl (_ & Hw & _ & _ & Heq & _) p. destruct p as [|j p _] using rev_ind; intros Hp.
  { rewrite decide_False; [done|]. by destruct pg. }
  rewrite length_app in Hp; cbn in Hp. case_decide as E; [by rewrite E|]. rewrite !walk_snoc, Heq; [done|lia|].
  intros [= -> ->]. done.
Qed.

Lemma ensure_owned s root pg g index user n s' :
  pt_wf s root -> (length pg <= 2)%nat -> walk (tabs s) root pg = Some g -> 0 <= index < 512 -> user_path (pg ++ [Z.to_nat index]) ->
  (forall e, pentry (tabs s) root pg (Z.to_nat index) = Some e -> is_huge_page e = false) ->
  ensure_next_table s g index user = Done (n, s') -> owned_step s s' root /\ exact_step s s' root.
Proof.
  intros Hwf Hl Hg Hi Hup Hh E. pose proof (ensure_next_table_spec s root pg g index user Hwf Hl Hg Hi Hh) as P. rewrite E in P.
  destruct (ensure_shape s root pg g index user n s' Hwf Hi Hl Hg E) as [->|(Hn & Hfr & Ht)]; [split; [apply owned_refl|done]|].
  pose proof (ensure_walk s root pg _ n s' Hl P) as Hw. destruct P as (_ & Hwn & _ & _ & _ & P6). set (pn := pg ++ [Z.to_nat index]) in *.
  assert (length pn <= 3)%nat as Hln by (unfold pn; rewrite length_app; cbn; lia).
  assert (walk (tabs s) root pn = None) as Hnn.
  { destruct P6 as [Hn0| ->]; [by unfold pn; rewrite walk_snoc, Hn0|]. rewrite Hfr in Hn. set_solver. }
  assert (user_path pg) as Hupg by (unfold pn in Hup; by destruct pg).
  assert (forall h, utable (tabs s') root h <-> utable (tabs s) root h \/ h = n) as Hu.
  { intros h. split.
    - intros (p & Hp & Hq & Hh'). rewrite Hw in Hh' by done. case_decide; [right; congruence|]. left. by exists p.
    - intros [(p & Hp & Hq & Hh')| ->]; [|by exists pn]. exists p. split_and!; [done..|]. rewrite Hw by done. rewrite decide_False; [done|congruence]. }
  split; [|intros h; rewrite Hu, Hfr; destruct (decide (h = n)) as [->|]; set_solver]. constructor.
  - intros h Hf Hu'. apply Ht; [by intros ->|]. intros ->. apply Hu'. exists pg. split_and!; [lia|done..].
  - intros h Hh'. apply Hu. by left.
  - intros h [Hh'| ->]%Hu; auto.
  - rewrite Hfr. set_solver.
  - intros p Hp Hk. rewrite Hw by done. rewrite decide_False; [done|]. by intros ->.
Qed.

(** Writing one leaf entry. *)
Lemma leaf_owned s root v pt e s' :
  space_wf s root -> is_user v -> walk (tabs s) root [ix4 v; ix3 v; ix2 v] = Some pt ->
  write_table s pt (VirtAddr_pt_index v) e = Done s' ->
  (owned_step s s' root /\ exact_step s s' root) /\ forall p j, (length p <= 2)%nat -> pentry (tabs s') root p j = pentry (tabs s) root p j.
Proof.
  intros [Hwf _] Hv Hw. destruct (wf_table _ _ Hwf [ix4 v; ix3 v; ix2 v] pt ltac:(simpl; lia) Hw) as (t & Ht & _).
  rewrite (write_table_set s pt (VirtAddr_pt_index v) e t (index_range v 12) Ht). fold (ix1 v). intros [= <-].
  destruct (leaf_set s root [ix4 v; ix3 v; ix2 v] pt (ix1 v) e Hwf eq_refl Hw) as [_ Hpe].
  { unfold ix1, ENTRIES. pose proof (index_range v 12). unfold VirtAddr_pt_index. lia. }
  cbn [tabs] in Hpe |- *.
  assert (forall p j, (length p <= 2)%nat -> pentry (set_entry (tabs s) pt (ix1 v) e) root p j = pentry (tabs s) root p j) as Hs.
  { intros p j Hl. rewrite Hpe by lia. rewrite decide_False; [done|]. intros [= -> _]. cbn in Hl. lia. }
  split; [|done]. apply owned_same; cbn [tabs pt_alloc]; [by apply walk_pentry|done|].
  intros g Hg. unfold set_entry. rewrite lookup_alter_ne; [done|]. intros <-. apply Hg. exists [ix4 v; ix3 v; ix2 v]. split_and!; [cbn; lia|exact Hv|done].
Qed.

Lemma map_page_owned s root v phys flags s' :
  space_wf s root -> is_user v -> map_page s root v phys flags = Done s' -> owned_step s s' root /\ exact_step s s' root.
Proof.
  intros Hs Hv. rewrite map_page_ensure3. pose proof Hs as [Hwf Hsm]. destruct (Hsm v Hv) as [Hh3 Hh2].
  pose proof (ensure3_spec s root v true Hwf (Hsm v Hv)) as H3. pose proof (ensure3_small s root v true Hs Hv) as H4. unfold ensure3 in *. revert H3 H4.
  pose proof (ensure_next_table_spec s root [] root (VirtAddr_pml4_index v) true Hwf ltac:(simpl; lia)
    eq_refl (index_range _ _) ltac:(by intros e; apply top_not_huge)) as P1.
  destruct (ensure_next_table s root _ true) as [[pdpt s1]|] eqn:E1; run; [|done].
  apply (ensure_owned s root []) in E1; [|done|cbn; lia|done|apply index_range|exact Hv|by intros e; apply top_not_huge].
  pose proof P1 as (Hwf1 & Hw1 & _ & _ & Heq1 & _). fold (ix4 v) in *.
  assert (forall e, pentry (tabs s1) root [ix4 v] (ix3 v) = Some e -> is_huge_page e = false) as Hn1 by (intros e; rewrite Heq1 by (done || simpl; lia); apply Hh3).
  pose proof (ensure_next_table_spec s1 root [ix4 v] pdpt (VirtAddr_pdpt_index v) true Hwf1 ltac:(simpl; lia) Hw1 (index_range _ _) Hn1) as P2.
  destruct (ensure_next_table s1 pdpt _ true) as [[pd s2]|] eqn:E2; run; [|done].
  apply (ensure_owned s1 root [ix4 v]) in E2; [|done|cbn; lia|done|apply index_range|exact Hv|exact Hn1].
  pose proof P2 as (Hwf2 & Hw2 & _ & _ & Heq2 & _). fold (ix3 v) in *.
  destruct (ensure_next_table s2 pd _ true) as [[pt s3]|] eqn:E3; run; [|done].
  apply (ensure_owned s2 root [ix4 v; ix3 v]) in E3; [|done|cbn; lia|done|apply index_range|exact Hv|by intros e; rewrite Heq2, Heq1 by (done || simpl; lia); apply Hh2].
  intros (Hwf3 & Hw3 & _) (Hsm3 & _) Ew. apply (leaf_owned s3 root v) in Ew as [Ew _]; [|by split|done|done].
  destruct E1 as [O1 X1], E2 as [O2 X2], E3 as [O3 X3], Ew as [O4 X4].
  split; [by eapply owned_trans, owned_trans, owned_trans|by eapply exact_trans, exact_trans, exact_trans].
Qed.

(** ** The other spaces *)

(** No table of the user half of [r] belongs to the hierarchy of [r']. *)
Definition apart (tb : gmap Z (list Z)) (r r' : Z) : Prop := forall g, utable tb r g -> ~ reach tb r' g.

Lemma walk_agree tb tb' root : (forall g, reach tb root g -> tb' !! g = tb !! g) ->
  forall p, (length p <= 4)%nat -> walk tb' root p = walk tb root p.
Proof.
  intros Ht p. induction p as [|i p IH] using rev_ind; intros Hl; [done|]. rewrite length_app in Hl; cbn in Hl.
  rewrite !walk_app, IH by lia. destruct (walk tb root p) as [g|] eqn:Hg; cbn; [|done].
  unfold entry_at. rewrite Ht; [done|]. exists p. split; [lia|done].
Qed.

Lemma pentry_agree tb tb' root : (forall g, reach tb root g -> tb' !! g = tb !! g) ->
  forall p j, (length p <= 3)%nat -> pentry tb' root p j = pentry tb root p j.
Proof.
  intros Ht p j Hl. unfold pentry. rewrite (walk_agree tb tb' root Ht) by lia. destruct (walk tb root p) as [g|] eqn:Hg; cbn; [|done].
  unfold entry_at. rewrite Ht; [done|]. by exists p.
Qed.

(** A hierarchy whose tables are as they were, with no more free frames than before. *)
Lemma space_agree s s' root : space_wf s root -> (forall g, reach (tabs s) root g -> tabs s' !! g = tabs s !! g) ->
  fa_ok (pt_alloc s') -> (forall g, reach (tabs s) root g -> g ∉ s_free s') -> space_wf s' root.
Proof.
  intros [Hwf Hsm] Ht Hok Hf. pose proof (walk_agree _ _ _ Ht) as Hw. pose proof (pentry_agree _ _ _ Ht) as Hp.
  split; [constructor|].
  - done.
  - intros p f Hl. rewrite Hw by lia. intros E. rewrite Ht by (by exists p). by eapply (wf_table _ _ Hwf).
  - intros p q f Hl Hl'. rewrite !Hw by lia. by apply (wf_tree _ _ Hwf).
  - intros p f Hl. rewrite Hw by lia. intros E. apply Hf. by exists p.
  - intros i e. unfold entry_at. rewrite Ht by (exists []; split; [cbn; lia|done]). apply (wf_top _ _ Hwf).
  - intros v Hv. destruct (Hsm v Hv) as [H3 H2]. split; intros e; rewrite Hp by (cbn; lia); auto.
Qed.

(** An operation on the user half of [r] leaves another space alone. *)
Lemma other_space s s' r r' : owned_step s s' r -> fa_ok (pt_alloc s') -> space_wf s r -> space_wf s r' ->
  apart (tabs s) r r' -> apart (tabs s) r' r ->
  space_wf s' r' /\ (forall g, reach (tabs s) r' g -> tabs s' !! g = tabs s !! g) /\ apart (tabs s') r r' /\ apart (tabs s') r' r.
Proof.
  intros [T M C F K] Hok Hs Hs' Ha Hb. assert (forall g, reach (tabs s) r' g -> g ∉ s_free s) as Hlive.
  { intros g (p & Hl & Hg). by eapply (wf_live _ _ (sw_wf _ _ Hs')). }
  assert (forall g, reach (tabs s) r' g -> tabs s' !! g = tabs s !! g) as Ht.
  { intros g Hg. apply T; [by apply Hlive|]. intros Hu. by apply (Ha g). }
  pose proof (walk_agree _ _ _ Ht) as Hw.
  assert (forall g, reach (tabs s') r' g <-> reach (tabs s) r' g) as Hr.
  { intros g. split; intros (p & Hl & Hg); exists p; (split; [done|]); rewrite Hw in * by lia || rewrite Hw by lia; done. }
  split_and!; [|done| |].
  - apply (space_agree s); [done..|]. intros g Hg Hin. by apply (Hlive g Hg), F.
  - intros g Hu Hg%Hr. destruct (C g Hu) as [Hin|Hu0]; [by apply (Hlive g)|by apply (Ha g)].
  - intros g (p & Hl & Hp & Hg) (q & Hq & Hg'). rewrite Hw in Hg by lia. assert (reach (tabs s) r' g) as Hrg by (by exists p).
    assert (~ utable (tabs s') r g) as Hn.
    { intros Hu. destruct (C g Hu) as [Hin|Hu0]; [by apply (Hlive g)|by apply (Ha g)]. }
    assert (~ user_path q) as Hk by (intros Hq'; apply Hn; by exists q).
    rewrite K in Hg' by done. apply (Hb g); [by exists p|by exists q].
Qed.

(** The kernel half is never written. *)
Lemma owned_kernel s s' r : owned_step s s' r -> space_wf s r ->
  forall p j, (length p <= 3)%nat -> ~ user_path p -> pentry (tabs s') r p j = pentry (tabs s) r p j.
Proof.
  intros Ho [Hwf _] p j Hl Hk. unfold pentry. rewrite (os_kernel _ _ _ Ho) by done. destruct (walk (tabs s) r p) as [g|] eqn:Hg; cbn; [|done].
  unfold entry_at. rewrite (os_tabs _ _ _ Ho); [done|by eapply (wf_live _ _ Hwf)|]. intros (q & Hq & Hu & Hg').
  assert (p = q) as -> by (by apply (wf_tree _ _ Hwf p q g)). done.
Qed.

(** Two spaces that share no table of their user halves. *)
Record two_spaces s r r' : Prop := {
  ts_one : space_wf s r;
  ts_two : space_wf s r';
  ts_apart : apart (tabs s) r r';
  ts_apart' : apart (tabs s) r' r
}.

Lemma two_spaces_sym s r r' : two_spaces s r r' -> two_spaces s r' r.
Proof. intros []. by constructor. Qed.

Lemma two_spaces_step s s' r r' : two_spaces s r r' -> owned_step s s' r -> space_wf s' r ->
  two_spaces s' r r' /\ (forall p j, (length p <= 3)%nat -> pentry (tabs s') r' p j = pentry (tabs s) r' p j).
Proof.
  intros [H1 H2 H3 H4] Ho Hs'. destruct (other_space s s' r r' Ho (wf_alloc _ _ (sw_wf _ _ Hs')) H1 H2 H3 H4) as (G1 & G2 & G3 & G4).
  split; [by constructor|]. by apply pentry_agree.
Qed.
End Spaces.

(** ** A new space *)

Section NewSpace.
Context {A V : Type} `{FrameAllocatorLaws A}.
Implicit Types (k : kstate A V).

(** The kernel half, copied entry by entry. *)
Lemma copy_entries pml4 cur tc : forall n i k t,
  pml4 <> cur -> tabs (k_pt k) !! pml4 = Some t -> tabs (k_pt k) !! cur = Some tc -> length t = ENTRIES -> length tc = ENTRIES -> (i + n <= ENTRIES)%nat ->
  foldM (fun k index => entry ← read_table (k_pt k) cur (Z.of_nat index); k_set_entry k pml4 (Z.of_nat index) entry) k (seq i n) =
  Done (set_pt k {| tabs := <[pml4 := take i t ++ take n (drop i tc) ++ drop (i + n) t]> (tabs (k_pt k)); pt_alloc := pt_alloc (k_pt k) |}).
Proof.
  induction n as [|n IH]; intros i k t Hne Ht Hc Hl Hlc Hi; cbn [seq foldM].
  - change (take 0 (drop i tc)) with (@nil Z). rewrite app_nil_l, Nat.add_0_r, take_drop. destruct k as [[tb al] m c v sh]. cbn in *. by rewrite insert_id.
  - destruct (lookup_lt_is_Some_2 tc i ltac:(lia)) as [e He]. unfold ENTRIES in *.
    rewrite read_table_entry by lia. unfold entry_at. rewrite Hc. cbn [mbind option_bind]. rewrite Nat2Z.id, He. run.
    unfold k_set_entry. rewrite (write_table_set (k_pt k) pml4 (Z.of_nat i) e t) by (done || lia). run. rewrite Nat2Z.id.
    assert (set_entry (tabs (k_pt k)) pml4 i e = <[pml4 := <[i := e]> t]> (tabs (k_pt k))) as Es.
    { unfold set_entry. apply map_eq. intros g. destruct (decide (g = pml4)) as [->|]; [by rewrite lookup_alter_eq, lookup_insert_eq, Ht|by rewrite lookup_alter_ne, lookup_insert_ne]. }
    rewrite Es. rewrite (IH (S i) _ (<[i := e]> t)); cbn [set_pt k_pt tabs pt_alloc].
    + do 2 f_equal. f_equal. rewrite insert_insert_eq. f_equal.
      rewrite (take_S_r _ i e) by (apply list_lookup_insert_eq; lia). rewrite take_insert_ge by lia. rewrite drop_insert_lt by lia.
      rewrite (drop_S tc e i He). cbn [take]. rewrite <- (assoc_L (++)). cbn [app]. do 4 f_equal. lia.
    + done.
    + apply lookup_insert_eq.
    + by rewrite lookup_insert_ne.
    + by rewrite length_insert.
    + done.
    + lia.
Qed.

(** What [AddressSpace::new] promises: a fresh root with nothing in the user half, the
    entries of the current root in the kernel half, one frame taken and nothing else
    touched. *)
Record new_space k cur k' (a : AddressSpace) : Prop := {
  ns_free : as_pml4_phys a ∈ k_free k /\ k_free k' = k_free k ∖ {[as_pml4_phys a]};
  ns_root : as_pml4_phys a mod 4096 = 0 /\ 0 < as_pml4_phys a < 2 ^ 44;
  ns_user i : (i < 256)%nat -> entry_at (tabs (k_pt k')) (as_pml4_phys a) i = Some PageTableEntry_empty;
  ns_kernel i : (256 <= i)%nat -> entry_at (tabs (k_pt k')) (as_pml4_phys a) i = entry_at (tabs (k_pt k)) cur i;
  ns_table : exists t, tabs (k_pt k') !! as_pml4_phys a = Some t /\ length t = ENTRIES;
  ns_tabs g : g <> as_pml4_phys a -> tabs (k_pt k') !! g = tabs (k_pt k) !! g;
  ns_rest : fa_ok (pt_alloc (k_pt k')) /\ k_mem k' = k_mem k /\ k_cow k' = k_cow k /\ k_vfs k' = k_vfs k /\ k_shoot k' = k_shoot k;
  ns_fields : as_vmas a = replicate MAX_VMAS None /\ as_mmap_next a = MMAP_BASE /\ as_refcount a = 1 /\ as_active_cpus a = 0
}.

Lemma AddressSpace_new_spec k cur pcid_enabled pcids :
  space_wf (k_pt k) cur -> (pcid_enabled = true -> PcidAllocator_alloc pcids <> None) ->
  match AddressSpace_new cur pcid_enabled pcids k with
  | Done (a, _, k') => new_space k cur k' a
  | Panic => k_free k = ∅
  end.
Proof.
  intros Hs Hp. unfold AddressSpace_new. pose proof (k_alloc_frame_spec k cur Hs) as Ha.
  destruct (k_alloc_frame k) as [[f k1]|]; run; [|done]. destruct Ha as (Hs1 & Hf & Hfr & Hal & Hr & Htabs & Hm & Hc & Hv & Hsh).
  rewrite PhysAddr_new_frame by done. destruct (wf_table _ _ (sw_wf _ _ Hs) [] cur ltac:(cbn; lia) eq_refl) as (tc & Htc & Hlc).
  assert (f <> cur) as Hne by (intros ->; by apply (wf_live _ _ (sw_wf _ _ Hs) [] cur ltac:(cbn; lia) eq_refl)).
  unfold USER_PML4_ENTRIES. rewrite (copy_entries f cur tc (ENTRIES - 256) 256 _ PageTable_zero); cbn [set_pt k_pt tabs pt_alloc];
    [|done|by rewrite lookup_insert_eq|by rewrite lookup_insert_ne, Htabs|apply length_replicate|done|unfold ENTRIES; lia].
  run. set (root := take 256 PageTable_zero ++ _).
  assert (length root = ENTRIES) as Hlr by (unfold root, PageTable_zero, ENTRIES in *; rewrite !length_app, !length_take, !length_drop, !length_replicate; lia).
  assert (forall i, (i < 256)%nat -> root !! i = Some PageTableEntry_empty) as Hlo.
  { intros i Hi. unfold root. rewrite lookup_app_l by (unfold PageTable_zero, ENTRIES; rewrite length_take, length_replicate; lia).
    rewrite lookup_take_lt by lia. apply lookup_replicate_2. unfold ENTRIES. lia. }
  assert (forall i, (256 <= i)%nat -> root !! i = tc !! i) as Hhi.
  { intros i Hi. unfold root, PageTable_zero, ENTRIES in *. rewrite (drop_ge (replicate _ _)) by (rewrite length_replicate; lia).
    rewrite app_nil_r, (take_ge (drop 256 tc)) by (rewrite length_drop; lia). rewrite lookup_app_r by (rewrite length_take, length_replicate; lia).
    rewrite length_take, length_replicate, lookup_drop. f_equal. lia. }
  match goal with |- context [if pcid_enabled then ?e else _] => assert (exists r, (if pcid_enabled then e else Done (0, pcids)) = Done r) as [[pcid pcids'] ->] end.
  { destruct pcid_enabled; [|by eexists]. destruct (PcidAllocator_alloc pcids) as [[pc pa]|]; run; [by eexists|by destruct Hp]. }
  run. constructor; cbn [as_pml4_phys k_pt tabs pt_alloc set_pt k_mem k_cow k_vfs k_shoot k_free].
  - done.
  - done.
  - intros i Hi. unfold entry_at. rewrite lookup_insert_eq. by apply Hlo.
  - intros i Hi. unfold entry_at. rewrite lookup_insert_eq, Htc. by apply Hhi.
  - exists root. by rewrite lookup_insert_eq.
  - intros g Hg. by rewrite !lookup_insert_ne, Htabs by done.
  - split_and!; [apply (wf_alloc _ _ (sw_wf _ _ Hs1))|done..].
  - done.
Qed.

(** The tables that were there are untouched. *)
Lemma new_space_tables k cur k' a r : space_wf (k_pt k) r -> new_space k cur k' a ->
  forall g, reach (tabs (k_pt k)) r g -> g <> as_pml4_phys a /\ g ∉ k_free k' /\ tabs (k_pt k') !! g = tabs (k_pt k) !! g.
Proof.
  intros Hs [[Hin Hfr] _ _ _ _ Htabs _ _] g (p & Hp & Hg). pose proof (wf_live _ _ (sw_wf _ _ Hs) p g Hp Hg) as Hl. change (g ∉ k_free k) in Hl.
  assert (g <> as_pml4_phys a) as Hne by (by intros ->). split_and!; [done| |by apply Htabs]. rewrite Hfr. set_solver.
Qed.

(** The walks of the new space: its root, or the kernel half of the current space. *)
Lemma new_space_walk k cur k' a i p : space_wf (k_pt k) cur -> new_space k cur k' a -> (length p <= 3)%nat ->
  walk (tabs (k_pt k')) (as_pml4_phys a) (i :: p) = if decide (i < 256)%nat then None else walk (tabs (k_pt k)) cur (i :: p).
Proof.
  intros Hs Hn Hp. pose proof (new_space_tables k cur k' a cur Hs Hn) as Ht.
  rewrite <- (walk_agree (tabs (k_pt k)) (tabs (k_pt k')) cur) by (cbn; (lia || intros g Hg; by apply Ht)).
  destruct Hn as [_ _ Hlo Hhi _ _ _ _]. cbn [walk]. case_decide as Hi; [by rewrite Hlo|].
  destruct (Ht cur) as (_ & _ & E); [exists []; split; [cbn; lia|done]|]. rewrite Hhi by lia. unfold entry_at. by rewrite E.
Qed.

(** The new space is well formed and empty. *)
Lemma new_space_wf k cur k' a : space_wf (k_pt k) cur -> new_space k cur k' a ->
  space_wf (k_pt k') (as_pml4_phys a) /\ (forall v, is_user v -> k_uleaf k' (as_pml4_phys a) v = None) /\
  (forall g, utable (tabs (k_pt k')) (as_pml4_phys a) g <-> g = as_pml4_phys a).
Proof.
  intros Hs Hn. pose proof (new_space_tables k cur k' a cur Hs Hn) as Ht0.
  assert (forall p g, (length p <= 3)%nat -> walk (tabs (k_pt k')) (as_pml4_phys a) p = Some g ->
    (p = [] /\ g = as_pml4_phys a) \/ (~ user_path p /\ walk (tabs (k_pt k)) cur p = Some g)) as Hw.
  { intros [|i p] g Hp Hg; [left; by injection Hg as <-|]. cbn in Hp. rewrite (new_space_walk k cur k' a i p Hs Hn) in Hg by lia. case_decide; [done|]. by right. }
  destruct Hn as [[Hin Hfr] _ Hlo Hhi (t & Ht & Hl) Htabs [Hok _] _]. set (r := as_pml4_phys a) in *. pose proof (sw_wf _ _ Hs) as Hwf.
  assert (forall g, reach (tabs (k_pt k)) cur g -> g <> r) as Hne by (intros g Hg; by apply Ht0).
  assert (forall v p j, is_user v -> pentry (tabs (k_pt k')) r (ix4 v :: p) j = None) as Hnone.
  { intros v p j Hv. unfold pentry. cbn [walk]. by rewrite Hlo. }
  split_and!; [split; [constructor|]| |].
  - done.
  - intros p f Hp Hf. destruct (Hw p f ltac:(lia) Hf) as [[-> ->]|[_ Hc]]; [by exists t|]. rewrite Htabs by (apply Hne; by exists p). by eapply (wf_table _ _ Hwf).
  - intros p q f Hp Hq Hf Hf'. destruct (Hw p f ltac:(lia) Hf) as [[-> ->]|[_ Hc]], (Hw q _ ltac:(lia) Hf') as [[-> E]|[_ Hc']]; [done|..].
    + exfalso. apply (Hne r); [by exists q|done].
    + subst. exfalso. apply (Hne r); [by exists p|done].
    + by apply (wf_tree _ _ Hwf p q f).
  - intros p f Hp Hf. change (f ∉ k_free k'). rewrite Hfr. destruct (Hw p f ltac:(lia) Hf) as [[-> ->]|[_ Hc]]; [set_solver|].
    pose proof (wf_live _ _ Hwf p f Hp Hc) as Hl'. change (f ∉ k_free k) in Hl'. set_solver.
  - intros i e. destruct (decide (i < 256)%nat) as [Hi|Hi]; [rewrite Hlo by done; by intros [= <-]|]. rewrite Hhi by lia. apply (wf_top _ _ Hwf).
  - intros v Hv. split; intros e; by rewrite Hnone.
  - intros v Hv. by apply Hnone.
  - intros g. split; [|intros ->; exists []; split_and!; [cbn; lia|done..]]. intros (p & Hp & Hu & Hg). by destruct (Hw p g ltac:(lia) Hg) as [[_ ->]|[Hn _]].
Qed.

(** Every space there was is as before and shares no table with the new one's user half. *)
Lemma new_space_other k cur k' a r : space_wf (k_pt k) cur -> space_wf (k_pt k) r -> new_space k cur k' a ->
  space_wf (k_pt k') r /\ (forall g, reach (tabs (k_pt k)) r g -> tabs (k_pt k') !! g = tabs (k_pt k) !! g) /\
  apart (tabs (k_pt k')) (as_pml4_phys a) r /\ (apart (tabs (k_pt k)) r cur \/ r = cur -> apart (tabs (k_pt k')) r (as_pml4_phys a)).
Proof.
  intros Hc Hs Hn. pose proof (new_space_tables k cur k' a r Hs Hn) as Ht. pose proof (new_space_wf k cur k' a Hc Hn) as (Hwf & _ & Hu).
  pose proof (walk_agree (tabs (k_pt k)) (tabs (k_pt k')) r ltac:(intros g Hg; by apply Ht)) as Hw.
  split_and!.
  - apply (space_agree (k_pt k)); [done|intros g Hg; by apply Ht|apply (ns_rest _ _ _ _ Hn)|intros g Hg; by apply Ht].
  - intros g Hg. by apply Ht.
  - intros g ->%Hu (p & Hp & Hg). rewrite Hw in Hg by lia. destruct (Ht (as_pml4_phys a)) as [? _]; [by exists p|done].
  - intros Hap g (p & Hp & Hup & Hg) ([|i q] & Hq & Hg').
    { injection Hg' as <-. rewrite Hw in Hg by lia. destruct (Ht (as_pml4_phys a)) as [? _]; [by exists p|done]. }
    cbn in Hq. rewrite Hw in Hg by lia. rewrite (new_space_walk k cur k' a i q Hc Hn) in Hg' by lia. case_decide as Hi; [done|].
    destruct Hap as [Hap| ->]; [apply (Hap g); [by exists p|by exists (i :: q)]|].
    assert (p = i :: q) as -> by (apply (wf_tree _ _ (sw_wf _ _ Hc) p (i :: q) g); [done|cbn; lia|done..]). done.
Qed.

(** ** Operations on one of two spaces *)

Lemma k_map_page_two k a r v phys flags : two_spaces (k_pt k) (as_pml4_phys a) r -> is_user v ->
  0 <= phys < 2 ^ 48 -> is_flags flags -> Z.testbit flags 0 = true ->
  match k_map_page k a v phys flags with
  | Done k' => two_spaces (k_pt k') (as_pml4_phys a) r /\ owned_step (k_pt k) (k_pt k') (as_pml4_phys a) /\ exact_step (k_pt k) (k_pt k') (as_pml4_phys a) /\
      (forall p j, (length p <= 3)%nat -> pentry (tabs (k_pt k')) r p j = pentry (tabs (k_pt k)) r p j) /\
      (size (k_free k) <= size (k_free k') + 3)%nat /\ k_mem k' = k_mem k /\ k_cow k' = k_cow k /\ k_vfs k' = k_vfs k /\ k_shoot k' = k_shoot k /\
      forall w, k_uleaf k' (as_pml4_phys a) w =
        if decide (vpage w = vpage v) then Some (PageTableEntry_new_page phys flags) else k_uleaf k (as_pml4_phys a) w
  | Panic => (size (k_free k) < 3)%nat
  end.
Proof.
  intros Ht Hv Hp Hf Hpr. pose proof (k_map_page_spec k a v phys flags (ts_one _ _ _ Ht) Hv Hp Hf Hpr) as Hm.
  destruct (k_map_page k a v phys flags) as [k'|] eqn:E; [|done]. destruct Hm as (Hs & _ & Hsz & Hmem & Hc & Hvf & Hsh & _ & Hu).
  assert (owned_step (k_pt k) (k_pt k') (as_pml4_phys a) /\ exact_step (k_pt k) (k_pt k') (as_pml4_phys a)) as [Ho Hx].
  { unfold k_map_page in E. destruct (map_page (k_pt k) (as_pml4_phys a) v phys flags) as [p|] eqn:Em; run; [|done]. injection E as <-.
    eapply map_page_owned; [apply Ht|exact Hv|exact Em]. }
  destruct (two_spaces_step _ _ _ _ Ht Ho Hs) as [Ht' Hr]. done.
Qed.

Lemma k_set_leaf_two k a r v t e : two_spaces (k_pt k) (as_pml4_phys a) r -> is_user v ->
  walk (tabs (k_pt k)) (as_pml4_phys a) [ix4 v; ix3 v; ix2 v] = Some t -> is_present e = true ->
  exists k', k_set_entry k t (VirtAddr_pt_index v) e = Done k' /\ two_spaces (k_pt k') (as_pml4_phys a) r /\ owned_step (k_pt k) (k_pt k') (as_pml4_phys a) /\
    (forall p j, (length p <= 2)%nat -> pentry (tabs (k_pt k')) (as_pml4_phys a) p j = pentry (tabs (k_pt k)) (as_pml4_phys a) p j) /\
    (forall p j, (length p <= 3)%nat -> pentry (tabs (k_pt k')) r p j = pentry (tabs (k_pt k)) r p j) /\
    k_free k' = k_free k /\ k_mem k' = k_mem k /\ k_cow k' = k_cow k /\ k_vfs k' = k_vfs k /\ k_shoot k' = k_shoot k /\
    forall w, k_uleaf k' (as_pml4_phys a) w = if decide (vpage w = vpage v) then Some e else k_uleaf k (as_pml4_phys a) w.
Proof.
  intros Ht Hv Hw He. destruct (k_set_leaf k a v t e (ts_one _ _ _ Ht) Hw) as (p & E & Hs & Hal & Hu). rewrite He in Hu.
  assert ((owned_step (k_pt k) p (as_pml4_phys a) /\ exact_step (k_pt k) p (as_pml4_phys a)) /\ forall q j, (length q <= 2)%nat -> pentry (tabs p) (as_pml4_phys a) q j = pentry (tabs (k_pt k)) (as_pml4_phys a) q j) as [[Ho _] Hsh].
  { unfold k_set_entry in E. destruct (write_table (k_pt k) t (VirtAddr_pt_index v) e) as [p'|] eqn:Ew; run; [|done].
    assert (p' = p) as <- by (by injection E as E). eapply leaf_owned; [apply Ht|exact Hv|exact Hw|exact Ew]. }
  destruct (two_spaces_step _ _ _ _ Ht Ho Hs) as [Ht' Hr]. exists (set_pt k p). split_and!; try done. unfold k_free. cbn. by rewrite Hal.
Qed.

End NewSpace.
