(* ===== verification/Pipe.v ===== *)
(** * Pipes (crates/fs/src/pipe.rs): the ring buffer

    The ring of 4096 bytes refines a bounded byte queue.  The blocking protocol
    around it is in [PipeSystem]. *)

From Stdlib Require Import ZArith Lia.
From stdpp Require Import prelude list.
From S2P Require Import Prelude.

Local Open Scope Z_scope.

Definition PIPE_BUF_SIZE : Z := 4096.
Definition EPIPE : Z := -32.

Record PipeRing := { read_pos : Z; write_pos : Z; ring_len : Z }.

Definition PipeRing_new : PipeRing := {| read_pos := 0; write_pos := 0; ring_len := 0 |}.

Definition PipeRing_is_empty (r : PipeRing) : bool := ring_len r =? 0.
Definition PipeRing_is_full (r : PipeRing) : bool := ring_len r =? PIPE_BUF_SIZE.
Definition PipeRing_len (r : PipeRing) : Z := ring_len r.

(** [data[(pos + i) % PIPE_BUF_SIZE]] for the [n] indices from [i] on. *)
Fixpoint ring_read (data : list Z) (pos i : Z) (n : nat) : list Z :=
  match n with
  | O => []
  | S n' => default 0 (data !! Z.to_nat (wrap64 (pos + i) mod PIPE_BUF_SIZE)) :: ring_read data pos (i + 1) n'
  end.

Fixpoint ring_write (data : list Z) (pos i : Z) (src : list Z) : list Z :=
  match src with
  | [] => data
  | b :: src' =>
      ring_write (<[Z.to_nat (wrap64 (pos + i) mod PIPE_BUF_SIZE) := b]> data) pos (i + 1) src'
  end.

(** The bytes copied to a destination of [dst_len] bytes, and the new cursor. *)
Definition PipeRing_read_into (r : PipeRing) (data : list Z) (dst_len : Z) : list Z * PipeRing :=
  let n := Z.min dst_len (ring_len r) in
  (ring_read data (read_pos r) 0 (Z.to_nat n),
   {| read_pos := wrap64 (read_pos r + n) mod PIPE_BUF_SIZE; write_pos := write_pos r;
      ring_len := wrap64 (ring_len r - n) |}).

Definition PipeRing_write_from (r : PipeRing) (data src : list Z) : Z * list Z * PipeRing :=
  let space := wrap64 (PIPE_BUF_SIZE - ring_len r) in
  let n := Z.min (Z.of_nat (length src)) space in
  (n, ring_write data (write_pos r) 0 (take (Z.to_nat n) src),
   {| read_pos := read_pos r; write_pos := wrap64 (write_pos r + n) mod PIPE_BUF_SIZE;
      ring_len := wrap64 (ring_len r + n) |}).

Inductive ReaderStep := ReaderReturn (v : Z) | ReaderBlock.

Definition reader_step_when_empty (writers_present : bool) : ReaderStep :=
  if writers_present then ReaderBlock else ReaderReturn 0.

Inductive WriterStep := WriterReturn (v : Z) | WriterBlock.

Definition writer_step_when_full (readers_present : bool) : WriterStep :=
  if readers_present then WriterBlock else WriterReturn EPIPE.

(** ** The queue a ring represents *)

Record ring_ok (r : PipeRing) (data : list Z) : Prop := {
  ro_data : length data = 4096%nat;
  ro_read : 0 <= read_pos r < 4096;
  ro_len : 0 <= ring_len r <= 4096;
  ro_write : write_pos r = (read_pos r + ring_len r) mod 4096
}.

Definition contents (r : PipeRing) (data : list Z) : list Z :=
  ring_read data (read_pos r) 0 (Z.to_nat (ring_len r)).

Lemma ring_index pos i : wrap64 (pos + i) mod PIPE_BUF_SIZE = (pos + i) mod 4096.
Proof.
  unfold wrap64, wrapw, PIPE_BUF_SIZE. change (2 ^ 64) with (4503599627370496 * 4096).
  symmetry. apply Znumtheory.Zmod_div_mod; [lia|lia|]. by exists 4503599627370496.
Qed.

Lemma ring_read_length data pos n : forall i, length (ring_read data pos i n) = n.
Proof. induction n as [|n IH]; intros i; simpl; [done | by rewrite IH]. Qed.

Lemma contents_length r data : ring_ok r data -> Z.of_nat (length (contents r data)) = ring_len r.
Proof. intros Hr. unfold contents. rewrite ring_read_length. pose proof (ro_len _ _ Hr). lia. Qed.

Lemma ring_read_app data pos m n : forall i,
  ring_read data pos i (n + m) = ring_read data pos i n ++ ring_read data pos (i + Z.of_nat n) m.
Proof.
  induction n as [|n IH]; intros i; cbn [ring_read Nat.add app].
  - f_equal. lia.
  - rewrite IH. do 3 f_equal. lia.
Qed.

(** Only the index modulo the size matters. *)
Lemma ring_read_shift data pos i n j p : (p + j) mod 4096 = (pos + i) mod 4096 ->
  ring_read data p j n = ring_read data pos i n.
Proof.
  revert i j. induction n as [|n IH]; intros i j He; cbn [ring_read]; [done|].
  rewrite !ring_index, He. f_equal. apply IH.
  replace (p + (j + 1)) with ((p + j) + 1) by lia. replace (pos + (i + 1)) with ((pos + i) + 1) by lia.
  by rewrite (Z.add_mod (p + j)), He, <- Z.add_mod by lia.
Qed.

Lemma ring_write_length data pos src : forall i, length (ring_write data pos i src) = length data.
Proof.
  revert data. induction src as [|b src IH]; intros data i; cbn [ring_write]; [done|].
  by rewrite IH, length_insert.
Qed.

(** A write of [length src] bytes at [pos + i] is invisible to a read of at most
    the remaining bytes. *)
Lemma ring_read_insert data pos p b n : forall j,
  (forall x, 0 <= x < Z.of_nat n -> (pos + j + x) mod 4096 <> p) ->
  0 <= p -> ring_read (<[Z.to_nat p := b]> data) pos j n = ring_read data pos j n.
Proof.
  induction n as [|n IH]; intros j Hne Hp; cbn [ring_read]; [done|].
  rewrite ring_index. f_equal.
  - rewrite list_lookup_insert_ne; [done|]. pose proof (Hne 0 ltac:(lia)) as H0.
    rewrite Z.add_0_r in H0. pose proof (Z.mod_pos_bound (pos + j) 4096 ltac:(lia)). lia.
  - apply IH; [|done]. intros x Hx. replace (pos + (j + 1) + x) with (pos + j + (x + 1)) by lia.
    apply Hne. lia.
Qed.

Lemma mod_distinct a x y : 0 <= x < 4096 -> 0 <= y < 4096 -> x <> y -> (a + x) mod 4096 <> (a + y) mod 4096.
Proof. intros Hx Hy Hne He. Z.div_mod_to_equations. lia. Qed.

Lemma ring_write_shift data pos i src j p : (p + j) mod 4096 = (pos + i) mod 4096 ->
  ring_write data p j src = ring_write data pos i src.
Proof.
  revert data i j. induction src as [|b src IH]; intros data i j He; cbn [ring_write]; [done|].
  rewrite !ring_index, He. apply IH.
  replace (p + (j + 1)) with ((p + j) + 1) by lia. replace (pos + (i + 1)) with ((pos + i) + 1) by lia.
  by rewrite (Z.add_mod (p + j)), He, <- Z.add_mod by lia.
Qed.

Lemma ring_write_before data pos src m : forall i j,
  j + Z.of_nat m = i -> 0 <= j -> Z.of_nat m + Z.of_nat (length src) <= 4096 ->
  ring_read (ring_write data pos i src) pos j m = ring_read data pos j m.
Proof.
  revert data m. induction src as [|b src IH]; intros data m i j Hij Hj Hs; cbn [ring_write]; [done|].
  cbn [length] in Hs. rewrite ring_index.
  assert (ring_read (ring_write (<[Z.to_nat ((pos + i) mod 4096) := b]> data) pos (i + 1) src) pos j (m + 1) =
          ring_read (<[Z.to_nat ((pos + i) mod 4096) := b]> data) pos j (m + 1)) as Hr by (apply IH; lia).
  rewrite !ring_read_app in Hr. apply app_inj_1 in Hr as [-> _]; [|by rewrite !ring_read_length].
  apply ring_read_insert; [|by apply Z.mod_pos_bound]. intros x Hx.
  replace (pos + j + x) with ((pos + j) + x) by lia. replace (pos + i) with ((pos + j) + Z.of_nat m) by lia.
  apply mod_distinct; lia.
Qed.

Lemma ring_write_read data pos src : forall i,
  length data = 4096%nat -> 0 <= i -> Z.of_nat (length src) <= 4096 ->
  ring_read (ring_write data pos i src) pos i (length src) = src.
Proof.
  revert data. induction src as [|b src IH]; intros data i Hd Hi Hs; [done|]. cbn [ring_write length ring_read].
  rewrite !ring_index. cbn [length] in Hs. f_equal.
  - set (data' := <[_ := b]> data).
    pose proof (ring_write_before data' pos src 1 (i + 1) i ltac:(lia) Hi ltac:(lia)) as H1.
    cbn [ring_read] in H1. rewrite !ring_index in H1. injection H1 as ->. unfold data'.
    pose proof (Z.mod_pos_bound (pos + i) 4096 ltac:(lia)). by rewrite list_lookup_insert_eq by lia.
  - apply IH; [by rewrite length_insert | lia | lia].
Qed.

Lemma ring_read_spec r data dst_len :
  ring_ok r data -> 0 <= dst_len ->
  let '(out, r') := PipeRing_read_into r data dst_len in
  ring_ok r' data /\ contents r data = out ++ contents r' data /\
  Z.of_nat (length out) = Z.min dst_len (Z.of_nat (length (contents r data))).
Proof.
  intros Hr Hdst. pose proof (contents_length r data Hr) as Hcl. pose proof Hr as [Hd Hp Hl Hw].
  unfold PipeRing_read_into. set (n := Z.min dst_len (ring_len r)).
  rewrite ring_index, wrap64_small by (unfold is_u64; lia).
  pose proof (Z.mod_pos_bound (read_pos r + n) 4096 ltac:(lia)). split_and!.
  - constructor; cbn; try lia. rewrite Hw, Z.add_mod_idemp_l by lia. f_equal. lia.
  - unfold contents. cbn [read_pos ring_len].
    rewrite (ring_read_shift data (read_pos r) (0 + Z.of_nat (Z.to_nat n)) _ 0 ((read_pos r + n) mod 4096))
      by (rewrite Z.add_0_r, Z.mod_mod by lia; f_equal; lia).
    rewrite <- ring_read_app. f_equal. lia.
  - rewrite ring_read_length, Hcl. lia.
Qed.

Lemma ring_write_spec r data src :
  ring_ok r data ->
  let '(n, data', r') := PipeRing_write_from r data src in
  ring_ok r' data' /\ contents r' data' = contents r data ++ take (Z.to_nat n) src /\
  n = Z.min (Z.of_nat (length src)) (4096 - Z.of_nat (length (contents r data))).
Proof.
  intros Hr. pose proof (contents_length r data Hr) as Hcl. pose proof Hr as [Hd Hp Hl Hw].
  unfold PipeRing_write_from. rewrite ring_index.
  replace (wrap64 (PIPE_BUF_SIZE - ring_len r)) with (4096 - ring_len r)
    by (rewrite wrap64_small; unfold is_u64, PIPE_BUF_SIZE; lia).
  set (n := Z.min (Z.of_nat (length src)) (4096 - ring_len r)).
  rewrite (wrap64_small (ring_len r + n)) by (unfold is_u64; lia). split_and!; [| |by rewrite Hcl].
  - constructor; cbn; [by rewrite ring_write_length|lia|lia|].
    rewrite Hw, Z.add_mod_idemp_l by lia. f_equal. lia.
  - unfold contents. cbn [read_pos ring_len].
    assert (length (take (Z.to_nat n) src) = Z.to_nat n) as Hln by (rewrite length_take; lia).
    replace (Z.to_nat (ring_len r + n)) with (Z.to_nat (ring_len r) + Z.to_nat n)%nat by lia.
    rewrite (ring_write_shift data (read_pos r) (ring_len r)) by (rewrite Z.add_0_r, Hw; by apply Z.mod_mod).
    rewrite ring_read_app, ring_write_before by (rewrite ?Hln; lia). f_equal.
    rewrite <- Hln at 2. rewrite Z2Nat.id by lia. apply ring_write_read; [done|lia|lia].
Qed.

(** The ring is a bounded byte queue.  A read takes the first bytes of the
    queue, as many as the destination holds; a write appends the first bytes of
    the source, as many as there is room for; neither loses, duplicates or
    reorders a byte, whatever the positions of the cursors, and both keep the
    ring well formed. *)
Theorem ring_refines_queue r data :
  ring_ok r data ->
  (forall dst_len, 0 <= dst_len ->
     let '(out, r') := PipeRing_read_into r data dst_len in
     ring_ok r' data /\ contents r data = out ++ contents r' data /\
     Z.of_nat (length out) = Z.min dst_len (Z.of_nat (length (contents r data)))) /\
  (forall src,
     let '(n, data', r') := PipeRing_write_from r data src in
     ring_ok r' data' /\ contents r' data' = contents r data ++ take (Z.to_nat n) src /\
     n = Z.min (Z.of_nat (length src)) (4096 - Z.of_nat (length (contents r data)))).
Proof.
  intros Hr. split; [intros dst_len Hd; by apply ring_read_spec | intros src; by apply ring_write_spec].
Qed.

Lemma ring_refines_queue_witness :
  let r := {| read_pos := 4094; write_pos := 4095; ring_len := 1 |} in
  let data := <[4094%nat := 65]> (replicate 4096 0) in
  let '(n, data', r') := PipeRing_write_from r data [66; 67] in
  contents r' data' = [65; 66; 67].
Proof.
  intros r data. assert (ring_ok r data) as Hr by (constructor; vm_compute; intuition discriminate).
  destruct (ring_refines_queue r data Hr) as [_ Hw]. specialize (Hw [66; 67]).
  destruct (PipeRing_write_from r data [66; 67]) as [[n data'] r'] eqn:E.
  destruct Hw as (_ & -> & ->). vm_compute. reflexivity.
Defined.
