(* ===== verification/Wake.v ===== *)
(** * Taking waiters off a wait queue

    [WaitQueue::wake_n_matching] of crates/sched/src/waitqueue.rs on the list of waiting
    threads, as the protocols of pipes, futexes and the keyboard use it.  The queue is
    walked from its head until enough threads are woken; a thread that the scheduler
    refuses (its lock is taken, or its run queue is full) stays in the queue and the walk
    goes on.  WaitQueue.v has the same walk over the linked list. *)

From Stdlib Require Import Lia.
From stdpp Require Import prelude list.

(** The threads woken and the queue left, when the scheduler accepts those of [accept]. *)
Fixpoint wake_n (accept : nat -> bool) (n : nat) (q : list nat) : list nat * list nat :=
  match n, q with
  | O, _ | _, [] => ([], q)
  | S n', u :: q' =>
      if accept u then let '(woken, rest) := wake_n accept n' q' in (u :: woken, rest)
      else let '(woken, rest) := wake_n accept n q' in (woken, u :: rest)
  end.

(** When all are accepted the first [n] are woken. *)
Lemma wake_n_all accept q : forall n, (forall u, u ∈ q -> accept u = true) -> wake_n accept n q = (take n q, drop n q).
Proof.
  induction q as [|u q IH]; intros [|n] Hq; cbn [wake_n take drop]; [done..|]. rewrite (Hq u) by left. rewrite IH; [done|]. intros v Hv. apply Hq. by right.
Qed.

(** Waking one: nobody, when all are refused, or the first that is accepted. *)
Lemma wake_one_cases accept q :
  (wake_n accept 1 q = ([], q) /\ forall u, u ∈ q -> accept u = false) \/
  exists q1 u q2, q = q1 ++ u :: q2 /\ accept u = true /\ (forall v, v ∈ q1 -> accept v = false) /\ wake_n accept 1 q = ([u], q1 ++ q2).
Proof.
  induction q as [|u q IH]; cbn [wake_n].
  - left. split; [done|]. by intros u ?%not_elem_of_nil.
  - destruct (accept u) eqn:Hu.
    + right. exists [], u, q. split_and!; [done..| |by destruct q]. by intros v ?%not_elem_of_nil.
    + destruct IH as [[-> Hq]|(q1 & w & q2 & -> & Hw & Hq1 & ->)].
      * left. split; [done|]. intros v [->|Hv]%elem_of_cons; [done|by apply Hq].
      * right. exists (u :: q1), w, q2. split_and!; [done..| |done]. intros v [->|Hv]%elem_of_cons; [done|by apply Hq1].
Qed.

(** Whom the walk finds is still a waiter; nobody is lost or duplicated. *)
Lemma wake_n_perm accept q : forall n woken rest, wake_n accept n q = (woken, rest) -> woken ++ rest ≡ₚ q.
Proof.
  induction q as [|u q IH]; intros [|n] woken rest E; cbn [wake_n] in E; try (by injection E as <- <-).
  destruct (accept u).
  - destruct (wake_n accept n q) as [w r] eqn:Ew. injection E as <- <-. cbn. by rewrite (IH _ _ _ Ew).
  - destruct (wake_n accept (S n) q) as [w r] eqn:Ew. injection E as <- <-. rewrite <- (IH _ _ _ Ew). symmetry. apply Permutation_middle.
Qed.
