(* ===== verification/PipeSystem.v ===== *)
(** * Pipes: blocking readers and writers

    [pipe_read], [pipe_write], the two release hooks of crates/fs/src/pipe.rs and
    the wait-queue calls they make (crates/sched/src/block.rs), as the atomic
    steps of interleaved threads: a generation counter is sampled, the ring is
    inspected under its lock, the other side's reference count is loaded, and the
    decision to sleep is taken under the wait-queue lock. *)

From Stdlib Require Import ZArith Lia.
From stdpp Require Import prelude gmap list.
From S2P Require Import Prelude Wake Pipe.

Local Open Scope Z_scope.

(** The control block, with the two end vnodes' reference counts.  [p_written]
    and [p_taken] record the bytes accepted and returned so far. *)
Record Pipe := {
  p_ring : PipeRing;
  p_data : list Z;
  p_read_seq : Z;
  p_write_seq : Z;
  p_readers : Z;
  p_writers : Z;
  p_read_waiters : list nat;
  p_write_waiters : list nat;
  p_written : list Z;
  p_taken : list Z
}.

Definition Pipe_new : Pipe :=
  {| p_ring := PipeRing_new; p_data := replicate 4096 0; p_read_seq := 0; p_write_seq := 0;
     p_readers := 1; p_writers := 1; p_read_waiters := []; p_write_waiters := [];
     p_written := []; p_taken := [] |}.

(** Where a thread is: outside, in [pipe_read] with a destination of [len]
    bytes, in [pipe_write] with the bytes [src], or in a release hook. *)
Inductive pc :=
| Outside
| Returned (v : Z)
| RSample (len : Z)
| RRing (len snap : Z)
| RWriters (len snap : Z)
| RBlockIf (len snap : Z)
| RSleep (len : Z)
| RBump (n : Z)
| RWake (n : Z)
| WReadersFirst (src : list Z)
| WSample (src : list Z)
| WRing (src : list Z) (snap : Z)
| WReaders (src : list Z) (snap : Z)
| WBlockIf (src : list Z) (snap : Z)
| WSleep (src : list Z)
| WBump (n : Z)
| WWake (n : Z)
| CloseRDec
| CloseRBump
| CloseRWake
| CloseWDec
| CloseWBump
| CloseWWake.

(** What moves a thread: a new call, or the next step of the current one, in
    which [accept] says which of the threads to wake the scheduler accepts. *)
Inductive action :=
| CallRead (len : Z)
| CallWrite (src : list Z)
| CallCloseRead
| CallCloseWrite
| Proceed (accept : nat -> bool).

Definition upd_ring (p : Pipe) (r : PipeRing) (data : list Z) (written taken : list Z) : Pipe :=
  {| p_ring := r; p_data := data; p_read_seq := p_read_seq p; p_write_seq := p_write_seq p;
     p_readers := p_readers p; p_writers := p_writers p; p_read_waiters := p_read_waiters p;
     p_write_waiters := p_write_waiters p; p_written := written; p_taken := taken |}.

Definition upd_seqs (p : Pipe) (rs ws : Z) : Pipe :=
  {| p_ring := p_ring p; p_data := p_data p; p_read_seq := rs; p_write_seq := ws;
     p_readers := p_readers p; p_writers := p_writers p; p_read_waiters := p_read_waiters p;
     p_write_waiters := p_write_waiters p; p_written := p_written p; p_taken := p_taken p |}.

Definition upd_ends (p : Pipe) (readers writers : Z) : Pipe :=
  {| p_ring := p_ring p; p_data := p_data p; p_read_seq := p_read_seq p; p_write_seq := p_write_seq p;
     p_readers := readers; p_writers := writers; p_read_waiters := p_read_waiters p;
     p_write_waiters := p_write_waiters p; p_written := p_written p; p_taken := p_taken p |}.

Definition upd_waiters (p : Pipe) (rq wq : list nat) : Pipe :=
  {| p_ring := p_ring p; p_data := p_data p; p_read_seq := p_read_seq p; p_write_seq := p_write_seq p;
     p_readers := p_readers p; p_writers := p_writers p; p_read_waiters := rq;
     p_write_waiters := wq; p_written := p_written p; p_taken := p_taken p |}.

(** One atomic step of thread [t]: the new pipe, where it is next, and the
    threads it wakes. *)
Definition pipe_act (t : nat) (p : Pipe) (c : pc) (a : action) : option (Pipe * pc * list nat) :=
  match c, a with
  | Outside, CallRead len => if 0 <? p_readers p then Some (p, RSample len, []) else None
  | Outside, CallWrite src => if 0 <? p_writers p then Some (p, WReadersFirst src, []) else None
  | Outside, CallCloseRead => if 0 <? p_readers p then Some (p, CloseRDec, []) else None
  | Outside, CallCloseWrite => if 0 <? p_writers p then Some (p, CloseWDec, []) else None
  | Returned _, Proceed _ => Some (p, Outside, [])
  (* pipe_read *)
  | RSample len, Proceed _ => Some (p, RRing len (p_read_seq p), [])
  | RRing len snap, Proceed _ =>
      if PipeRing_is_empty (p_ring p) then Some (p, RWriters len snap, []) else
      let was_full := PipeRing_is_full (p_ring p) in
      let '(out, r') := PipeRing_read_into (p_ring p) (p_data p) len in
      let n := Z.of_nat (length out) in
      let p' := upd_ring p r' (p_data p) (p_written p) (p_taken p ++ out) in
      Some (p', if 0 <? n then (if was_full then RBump n else Returned n) else RWriters len snap, [])
  | RBump n, Proceed _ => Some (upd_seqs p (p_read_seq p) (p_write_seq p + 1), RWake n, [])
  | RWake n, Proceed accept =>
      let '(woken, rest) := wake_n accept 1 (p_write_waiters p) in
      Some (upd_waiters p (p_read_waiters p) rest, Returned n, woken)
  | RWriters len snap, Proceed _ =>
      match reader_step_when_empty (0 <? p_writers p) with
      | ReaderReturn v => Some (p, Returned v, [])
      | ReaderBlock => Some (p, RBlockIf len snap, [])
      end
  | RBlockIf len snap, Proceed _ =>
      if wrap32 (p_read_seq p) =? wrap32 snap
      then Some (upd_waiters p (p_read_waiters p ++ [t]) (p_write_waiters p), RSleep len, [])
      else Some (p, RSample len, [])
  (* pipe_write *)
  | WReadersFirst src, Proceed _ =>
      if p_readers p =? 0 then Some (p, Returned EPIPE, []) else Some (p, WSample src, [])
  | WSample src, Proceed _ => Some (p, WRing src (p_write_seq p), [])
  | WRing src snap, Proceed _ =>
      if PipeRing_is_full (p_ring p) then Some (p, WReaders src snap, []) else
      let was_empty := PipeRing_is_empty (p_ring p) in
      let '(n, data', r') := PipeRing_write_from (p_ring p) (p_data p) src in
      let p' := upd_ring p r' data' (p_written p ++ take (Z.to_nat n) src) (p_taken p) in
      Some (p', if 0 <? n then (if was_empty then WBump n else Returned n) else WReaders src snap, [])
  | WBump n, Proceed _ => Some (upd_seqs p (p_read_seq p + 1) (p_write_seq p), WWake n, [])
  | WWake n, Proceed accept =>
      let '(woken, rest) := wake_n accept 1 (p_read_waiters p) in
      Some (upd_waiters p rest (p_write_waiters p), Returned n, woken)
  | WReaders src snap, Proceed _ =>
      match writer_step_when_full (0 <? p_readers p) with
      | WriterReturn v => Some (p, Returned v, [])
      | WriterBlock => Some (p, WBlockIf src snap, [])
      end
  | WBlockIf src snap, Proceed _ =>
      if wrap32 (p_write_seq p) =? wrap32 snap
      then Some (upd_waiters p (p_read_waiters p) (p_write_waiters p ++ [t]), WSleep src, [])
      else Some (p, WSample src, [])
  (* pipe_read_release and pipe_write_release *)
  | CloseRDec, Proceed _ =>
      Some (upd_ends p (p_readers p - 1) (p_writers p),
            if p_readers p =? 1 then CloseRBump else Returned 0, [])
  | CloseRBump, Proceed _ => Some (upd_seqs p (p_read_seq p) (p_write_seq p + 1), CloseRWake, [])
  | CloseRWake, Proceed accept =>
      let '(woken, rest) := wake_n accept (length (p_write_waiters p)) (p_write_waiters p) in
      Some (upd_waiters p (p_read_waiters p) rest, Returned 0, woken)
  | CloseWDec, Proceed _ =>
      Some (upd_ends p (p_readers p) (p_writers p - 1),
            if p_writers p =? 1 then CloseWBump else Returned 0, [])
  | CloseWBump, Proceed _ => Some (upd_seqs p (p_read_seq p + 1) (p_write_seq p), CloseWWake, [])
  | CloseWWake, Proceed accept =>
      let '(woken, rest) := wake_n accept (length (p_read_waiters p)) (p_read_waiters p) in
      Some (upd_waiters p rest (p_write_waiters p), Returned 0, woken)
  | _, _ => None
  end.

(** A woken thread goes round its loop again. *)
Definition resume (c : pc) : pc :=
  match c with RSleep len => RSample len | WSleep src => WSample src | _ => c end.

Record pipe_system := { sys_pipe : Pipe; sys_threads : gmap nat pc }.

Definition wake_all_of (woken : list nat) (ts : gmap nat pc) : gmap nat pc :=
  foldr (fun u m => alter resume u m) ts woken.

(** A step of the system in which the calls are those [allowed] to a thread. *)
Inductive pipe_step (allowed : nat -> action -> Prop) : pipe_system -> pipe_system -> Prop :=
| pipe_step_thread s t c a p' c' woken :
    allowed t a -> sys_threads s !! t = Some c ->
    pipe_act t (sys_pipe s) c a = Some (p', c', woken) ->
    pipe_step allowed s
      {| sys_pipe := p'; sys_threads := wake_all_of woken (<[t := c']> (sys_threads s)) |}.

(** ** Bytes come out in the order they went in *)

Definition fifo_inv (p : Pipe) : Prop :=
  ring_ok (p_ring p) (p_data p) /\ p_written p = p_taken p ++ contents (p_ring p) (p_data p).

(** Buffer lengths are not negative. *)
Definition sane_call (t : nat) (a : action) : Prop :=
  match a with CallRead len => 0 <= len | _ => True end.

Definition pc_sane (c : pc) : Prop :=
  match c with
  | RSample len | RRing len _ | RWriters len _ | RBlockIf len _ | RSleep len => 0 <= len
  | _ => True
  end.

Lemma ring_read_queue r data len :
  ring_ok r data -> 0 <= len ->
  let '(out, r') := PipeRing_read_into r data len in
  ring_ok r' data /\ contents r data = out ++ contents r' data /\
  Z.of_nat (length out) = Z.min len (ring_len r) /\ ring_len r' = ring_len r - Z.min len (ring_len r).
Proof.
  intros Hr Hlen. pose proof (ring_read_spec r data len Hr Hlen) as H.
  destruct (PipeRing_read_into r data len) as [out r']. destruct H as (Hr' & Hc & Hl).
  pose proof (contents_length r data Hr) as H1. pose proof (contents_length r' data Hr') as H2.
  rewrite Hc, length_app in H1. rewrite contents_length in Hl by done. split_and!; [done..|lia].
Qed.

Lemma ring_write_queue r data src :
  ring_ok r data ->
  let '(n, data', r') := PipeRing_write_from r data src in
  ring_ok r' data' /\ contents r' data' = contents r data ++ take (Z.to_nat n) src /\
  n = Z.min (Z.of_nat (length src)) (4096 - ring_len r) /\ ring_len r' = ring_len r + n.
Proof.
  intros Hr. pose proof (ring_write_spec r data src Hr) as H.
  destruct (PipeRing_write_from r data src) as [[n data'] r']. destruct H as (Hr' & Hc & Hl).
  pose proof (contents_length r data Hr) as H1. pose proof (contents_length r' data' Hr') as H2.
  pose proof (ro_len _ _ Hr). rewrite contents_length in Hl by done.
  rewrite Hc, length_app, length_take in H2. split_and!; [done..|lia].
Qed.

Lemma pipe_act_fifo t p c a p' c' woken :
  fifo_inv p -> pc_sane c -> sane_call t a -> pipe_act t p c a = Some (p', c', woken) ->
  fifo_inv p' /\ pc_sane c'.
Proof.
  intros [Hr Hw] Hc Ha Hact.
  destruct c, a; cbn [pipe_act] in Hact; try discriminate;
    cbn [pc_sane sane_call] in *;
    try (repeat (case_match; try discriminate); simplify_eq; (split; [split; [exact Hr|exact Hw]|cbn [pc_sane]; done])).
  - destruct (PipeRing_is_empty (p_ring p)); [simplify_eq; split; [split|cbn [pc_sane]]; done|].
    pose proof (ring_read_queue _ _ len Hr Hc) as Hq.
    destruct (PipeRing_read_into (p_ring p) (p_data p) len) as [out r']. destruct Hq as (Hr' & Hcont & _).
    simplify_eq. split; [|repeat case_match; cbn [pc_sane]; done]. split; [done|]. cbn. by rewrite Hw, Hcont, app_assoc.
  - destruct (PipeRing_is_full (p_ring p)); [simplify_eq; split; [split|cbn [pc_sane]]; done|].
    pose proof (ring_write_queue _ _ src Hr) as Hq.
    destruct (PipeRing_write_from (p_ring p) (p_data p) src) as [[n data'] r']. destruct Hq as (Hr' & Hcont & _).
    simplify_eq. split; [|repeat case_match; cbn [pc_sane]; done]. split; [done|]. cbn. by rewrite Hw, Hcont, app_assoc.
Qed.

Lemma wake_all_of_lookup woken : forall ts u c,
  wake_all_of woken ts !! u = Some c -> exists c0, ts !! u = Some c0 /\ (c = c0 \/ c = resume c0).
Proof.
  unfold wake_all_of. induction woken as [|v woken IH]; intros ts u c; cbn [foldr]; [eauto|].
  rewrite lookup_alter_Some. intros [(-> & c1 & Hc1 & ->)|(_ & Hc)]; [|by apply IH].
  destruct (IH _ _ _ Hc1) as (c0 & Hc0 & [-> | ->]); exists c0; [auto|].
  split; [done|]. right. by destruct c0.
Qed.

(** Through any interleaving of any number of readers and writers, calls of
    any length, closes and wake-ups, the bytes returned to readers so far,
    followed by the bytes in the ring, are exactly the bytes accepted from
    writers, in order; the ring stays well formed. *)
Theorem pipe_fifo threads s :
  (forall t c, threads !! t = Some c -> c = Outside) ->
  rtc (pipe_step sane_call) {| sys_pipe := Pipe_new; sys_threads := threads |} s ->
  ring_ok (p_ring (sys_pipe s)) (p_data (sys_pipe s)) /\
  p_written (sys_pipe s) = p_taken (sys_pipe s) ++ contents (p_ring (sys_pipe s)) (p_data (sys_pipe s)).
Proof.
  intros H0 Hrun.
  assert (fifo_inv (sys_pipe s) /\ forall t c, sys_threads s !! t = Some c -> pc_sane c) as [Hi _]; [|apply Hi].
  eapply (rtc_invariant _ (fun s => fifo_inv (sys_pipe s) /\ forall t c, sys_threads s !! t = Some c -> pc_sane c));
    [| |exact Hrun].
  - split; [|by intros t c ->%H0]. split; [constructor; done | done].
  - intros s1 s2 [Hi Hs] Hstep. destruct Hstep as [s1 t c a p' c' woken Ha Ht Hact].
    destruct (pipe_act_fifo t _ c a p' c' woken Hi (Hs t c Ht) Ha Hact) as [Hi' Hc'].
    split; [done|]. cbn [sys_threads]. intros u d (d0 & Hd0 & Hd)%wake_all_of_lookup.
    assert (pc_sane d0) as Hd0s.
    { apply lookup_insert_Some in Hd0 as [[_ <-]|[_ Hd0]]; [done | by eapply Hs]. }
    destruct Hd as [-> | ->]; [done | by destruct d0].
Qed.

(** A run of the system from a schedule, for witnesses. *)
Fixpoint pipe_run (s : pipe_system) (sched : list (nat * action)) : option pipe_system :=
  match sched with
  | [] => Some s
  | (t, a) :: sched' =>
      c ← sys_threads s !! t;
      '(p', c', woken) ← pipe_act t (sys_pipe s) c a;
      pipe_run {| sys_pipe := p'; sys_threads := wake_all_of woken (<[t := c']> (sys_threads s)) |} sched'
  end.

Lemma pipe_run_steps allowed sched : forall s s',
  Forall (fun ta => allowed ta.1 ta.2) sched -> pipe_run s sched = Some s' -> rtc (pipe_step allowed) s s'.
Proof.
  induction sched as [|[t a] sched IH]; intros s s' Hall Hr; cbn [pipe_run] in Hr; [by injection Hr as ->|].
  apply Forall_cons in Hall as [Ha Hall].
  destruct (sys_threads s !! t) as [c|] eqn:Ht; [|done]. cbn [mbind option_bind] in Hr.
  destruct (pipe_act t (sys_pipe s) c a) as [[[p' c'] woken]|] eqn:Hact; [|done]. cbn [mbind option_bind] in Hr.
  eapply rtc_l; [by econstructor | by apply IH].
Qed.

Definition go : action := Proceed (fun _ => true).

Definition two_threads : gmap nat pc := {[ 0%nat := Outside; 1%nat := Outside ]}.

Lemma pipe_fifo_witness : exists s,
  rtc (pipe_step sane_call) {| sys_pipe := Pipe_new; sys_threads := two_threads |} s /\
  p_taken (sys_pipe s) = [1; 2] /\
  p_written (sys_pipe s) = [1; 2] ++ contents (p_ring (sys_pipe s)) (p_data (sys_pipe s)).
Proof.
  pose (sched := (1%nat, CallWrite [1; 2; 3]) :: replicate 5 (1%nat, go) ++
                 [(0%nat, CallRead 2); (0%nat, go); (0%nat, go)]).
  destruct (pipe_run {| sys_pipe := Pipe_new; sys_threads := two_threads |} sched) as [s|] eqn:E.
  - assert (rtc (pipe_step sane_call) {| sys_pipe := Pipe_new; sys_threads := two_threads |} s) as Hrun.
    { apply (pipe_run_steps sane_call sched); [|done]. unfold sched. repeat constructor; cbn; lia. }
    assert (p_taken (sys_pipe s) = [1; 2]) as Ht.
    { cut (option_map (fun s => p_taken (sys_pipe s))
        (pipe_run {| sys_pipe := Pipe_new; sys_threads := two_threads |} sched) = Some [1; 2]).
      - rewrite E. by intros [= ->].
      - vm_compute. reflexivity. }
    exists s. split; [done|]. split; [done|].
    destruct (pipe_fifo two_threads s) as [_ Hw]; [|done|by rewrite Hw, Ht].
    unfold two_threads. intros t c [[_ <-]|[_ [_ <-]%lookup_singleton_Some]]%lookup_insert_Some; done.
  - exfalso. assert (is_Some (pipe_run {| sys_pipe := Pipe_new; sys_threads := two_threads |} sched)) as [? H].
    { apply (bool_decide_unpack _). vm_compute. exact I. }
    congruence.
Defined.

(** ** One reader and one writer: no wake-up is lost *)

(** Thread 0 reads, thread 1 writes; both pass buffers that are not empty, and
    the scheduler accepts every thread that is woken. *)
Definition spsc_call (t : nat) (a : action) : Prop :=
  match a with
  | CallRead len => t = 0%nat /\ 0 < len
  | CallWrite src => t = 1%nat /\ src <> []
  | CallCloseRead => t = 0%nat
  | CallCloseWrite => t = 1%nat
  | Proceed accept => forall u, accept u = true
  end.

Definition ring_empty (p : Pipe) : Prop := ring_len (p_ring p) = 0.
Definition ring_full (p : Pipe) : Prop := ring_len (p_ring p) = 4096.

Definition w_published (w : pc) : Prop := match w with WBump _ => True | _ => False end.
Definition w_waking (w : pc) : Prop := match w with WBump _ | WWake _ => True | _ => False end.
Definition w_closed (w : pc) : Prop := match w with CloseWBump => True | _ => False end.
Definition w_closing (w : pc) : Prop := match w with CloseWBump | CloseWWake => True | _ => False end.
Definition r_published (r : pc) : Prop := match r with RBump _ => True | _ => False end.
Definition r_waking (r : pc) : Prop := match r with RBump _ | RWake _ => True | _ => False end.
Definition r_closed (r : pc) : Prop := match r with CloseRBump => True | _ => False end.
Definition r_closing (r : pc) : Prop := match r with CloseRBump | CloseRWake => True | _ => False end.

(** What the reader knows at each point, given where the writer is. *)
Definition reader_inv (p : Pipe) (r w : pc) : Prop :=
  match r with
  | Outside | Returned _ | RBump _ | RWake _ | CloseRDec | CloseRBump | CloseRWake => p_read_waiters p = []
  | RSample len => 0 < len /\ p_read_waiters p = []
  | RRing len snap => 0 < len /\ 0 <= snap <= p_read_seq p /\ p_read_waiters p = []
  | RWriters len snap =>
      0 < len /\ 0 <= snap <= p_read_seq p /\ p_read_waiters p = [] /\
      (snap = p_read_seq p -> ring_empty p \/ w_published w)
  | RBlockIf len snap =>
      0 < len /\ 0 <= snap <= p_read_seq p /\ p_read_waiters p = [] /\
      (snap = p_read_seq p -> (ring_empty p \/ w_published w) /\ (0 < p_writers p \/ w_closed w))
  | RSleep len =>
      0 < len /\ p_read_waiters p = [0%nat] /\
      (ring_empty p \/ w_waking w) /\ (0 < p_writers p \/ w_closing w)
  | _ => False
  end.

Definition writer_inv (p : Pipe) (w r : pc) : Prop :=
  match w with
  | Outside | Returned _ | WBump _ | WWake _ | CloseWDec | CloseWBump | CloseWWake => p_write_waiters p = []
  | WReadersFirst src | WSample src => src <> [] /\ p_write_waiters p = []
  | WRing src snap => src <> [] /\ 0 <= snap <= p_write_seq p /\ p_write_waiters p = []
  | WReaders src snap =>
      src <> [] /\ 0 <= snap <= p_write_seq p /\ p_write_waiters p = [] /\
      (snap = p_write_seq p -> ring_full p \/ r_published r)
  | WBlockIf src snap =>
      src <> [] /\ 0 <= snap <= p_write_seq p /\ p_write_waiters p = [] /\
      (snap = p_write_seq p -> (ring_full p \/ r_published r) /\ (0 < p_readers p \/ r_closed r))
  | WSleep src =>
      src <> [] /\ p_write_waiters p = [1%nat] /\
      (ring_full p \/ r_waking r) /\ (0 < p_readers p \/ r_closing r)
  | _ => False
  end.

Record spsc_inv (p : Pipe) (r w : pc) : Prop := {
  si_ring : ring_ok (p_ring p) (p_data p);
  si_seq : 0 <= p_read_seq p /\ 0 <= p_write_seq p;
  si_reader : reader_inv p r w;
  si_writer : writer_inv p w r
}.

(** The state after a step of the reader: where the writer is now. *)
Definition woken_pc (u : nat) (woken : list nat) (c : pc) : pc :=
  if existsb (Nat.eqb u) woken then resume c else c.

Definition seqs_small (p : Pipe) : Prop := p_read_seq p < 2 ^ 32 /\ p_write_seq p < 2 ^ 32.

Lemma seq_eq a b : 0 <= b <= a -> a < 2 ^ 32 -> (wrap32 a =? wrap32 b) = (a =? b).
Proof. intros. unfold wrap32, wrapw. by rewrite !Z.mod_small by lia. Qed.

(** Closes a case in which the ring is not touched: the other thread's position
    decides what the invariants say. *)
Ltac spsc_case w :=
  constructor; cbn [p_ring p_data p_read_seq p_write_seq p_read_waiters p_write_waiters p_readers p_writers
    upd_ring upd_seqs upd_ends upd_waiters]; [done | lia | |];
  unfold woken_pc; cbn [existsb Nat.eqb orb take drop]; destruct w;
  cbn [reader_inv writer_inv resume w_published w_waking w_closed w_closing r_published r_waking r_closed r_closing
    p_ring p_data p_read_seq p_write_seq p_read_waiters p_write_waiters p_readers p_writers
    upd_ring upd_seqs upd_ends upd_waiters] in *;
  unfold ring_empty, ring_full in *; cbn [p_ring upd_ring upd_seqs upd_ends upd_waiters] in *;
  intuition (try congruence; try lia).

Lemma writer_waiters p w r : writer_inv p w r ->
  p_write_waiters p = [] \/ exists src, w = WSleep src /\ p_write_waiters p = [1%nat].
Proof. destruct w; cbn [writer_inv]; intuition eauto. Qed.

Lemma reader_waiters p r w : reader_inv p r w ->
  p_read_waiters p = [] \/ exists len, r = RSleep len /\ p_read_waiters p = [0%nat].
Proof. destruct r; cbn [reader_inv]; intuition eauto. Qed.

(** A step of the reader keeps the invariant. *)
Lemma reader_act_spsc p r w a p' r' woken :
  spsc_inv p r w -> seqs_small p -> spsc_call 0 a -> pipe_act 0 p r a = Some (p', r', woken) ->
  spsc_inv p' r' (woken_pc 1 woken w).
Proof.
  intros [Hr [H1 H2] Hri Hwi] [Hs1 Hs2] Ha Hact. pose proof (ro_len _ _ Hr) as Hl.
  destruct r; try done; destruct a as [l|src| | |pk]; cbn [pipe_act spsc_call] in *; try done;
    try (rewrite wake_n_all in Hact by (intros u _; apply Ha)).
  - destruct (Z.ltb_spec 0 (p_readers p)); simplify_eq. spsc_case w.
  - destruct Ha. by destruct (0 <? p_writers p).
  - destruct (Z.ltb_spec 0 (p_readers p)); simplify_eq. spsc_case w.
  - simplify_eq. spsc_case w.
  - simplify_eq. spsc_case w.
  - (* the ring *)
    destruct (PipeRing_is_empty (p_ring p)) eqn:He; [apply Z.eqb_eq in He; simplify_eq; spsc_case w|].
    apply Z.eqb_neq in He. destruct Hri as (Hlen & Hsnap & Hrq).
    pose proof (ring_read_queue _ _ len Hr ltac:(lia)) as Hq.
    destruct (PipeRing_read_into (p_ring p) (p_data p) len) as [out ring'].
    destruct Hq as (Hr' & _ & Hn & Hl'). rewrite (proj2 (Z.ltb_lt 0 _)) in Hact by lia.
    destruct (PipeRing_is_full (p_ring p)) eqn:Hf; simplify_eq;
      [apply Z.eqb_eq in Hf | apply Z.eqb_neq in Hf]; unfold PIPE_BUF_SIZE in Hf; spsc_case w.
  - destruct (Z.ltb_spec 0 (p_writers p)); cbn [reader_step_when_empty] in Hact; simplify_eq; spsc_case w.
  - destruct Hri as (Hlen & Hsnap & Hrq & Hk). rewrite seq_eq in Hact by lia.
    destruct (Z.eqb_spec (p_read_seq p) snap) as [<-|]; simplify_eq; [|spsc_case w].
    rewrite Hrq. spsc_case w.
  - simplify_eq. spsc_case w.
  - destruct (writer_waiters _ _ _ Hwi) as [Hq | (src & -> & Hq)]; rewrite Hq in Hact; cbn [take drop] in Hact;
      simplify_eq; [spsc_case w|].
    constructor; [done|cbn; lia|done|]. cbn in Hwi |- *. intuition.
  - simplify_eq. destruct (Z.eqb_spec (p_readers p) 1); spsc_case w.
  - simplify_eq. spsc_case w.
  - destruct (writer_waiters _ _ _ Hwi) as [Hq | (src & -> & Hq)]; rewrite Hq in Hact; cbn [length take drop] in Hact;
      simplify_eq; [spsc_case w|].
    constructor; [done|cbn; lia|done|]. cbn in Hwi |- *. intuition.
Qed.

(** A step of the writer keeps the invariant. *)
Lemma writer_act_spsc p r w a p' w' woken :
  spsc_inv p r w -> seqs_small p -> spsc_call 1 a -> pipe_act 1 p w a = Some (p', w', woken) ->
  spsc_inv p' (woken_pc 0 woken r) w'.
Proof.
  intros [Hr [H1 H2] Hri Hwi] [Hs1 Hs2] Ha Hact. pose proof (ro_len _ _ Hr) as Hl.
  destruct w; try done; destruct a as [l|src'| | |pk]; cbn [pipe_act spsc_call] in *; try done;
    try (rewrite wake_n_all in Hact by (intros u _; apply Ha)).
  - destruct Ha. by destruct (0 <? p_readers p).
  - destruct (Z.ltb_spec 0 (p_writers p)); simplify_eq. spsc_case r.
  - destruct (Z.ltb_spec 0 (p_writers p)); simplify_eq. spsc_case r.
  - simplify_eq. spsc_case r.
  - destruct (p_readers p =? 0); simplify_eq; spsc_case r.
  - simplify_eq. spsc_case r.
  - (* the ring *)
    destruct (PipeRing_is_full (p_ring p)) eqn:He;
      [apply Z.eqb_eq in He; unfold PIPE_BUF_SIZE in He; simplify_eq; spsc_case r|].
    apply Z.eqb_neq in He. unfold PIPE_BUF_SIZE in He. destruct Hwi as (Hlen & Hsnap & Hwq).
    pose proof (ring_write_queue _ _ src Hr) as Hq.
    destruct (PipeRing_write_from (p_ring p) (p_data p) src) as [[n data'] ring'].
    destruct Hq as (Hr' & _ & Hn & Hl').
    assert (0 < Z.of_nat (length src)) by (destruct src; [done | cbn; lia]).
    rewrite (proj2 (Z.ltb_lt 0 n)) in Hact by lia.
    destruct (PipeRing_is_empty (p_ring p)) eqn:Hf; simplify_eq;
      [apply Z.eqb_eq in Hf | apply Z.eqb_neq in Hf]; spsc_case r.
  - destruct (Z.ltb_spec 0 (p_readers p)); cbn [writer_step_when_full] in Hact; simplify_eq; spsc_case r.
  - destruct Hwi as (Hlen & Hsnap & Hwq & Hk). rewrite seq_eq in Hact by lia.
    destruct (Z.eqb_spec (p_write_seq p) snap) as [<-|]; simplify_eq; [|spsc_case r].
    rewrite Hwq. spsc_case r.
  - simplify_eq. spsc_case r.
  - destruct (reader_waiters _ _ _ Hri) as [Hq | (len & -> & Hq)]; rewrite Hq in Hact; cbn [take drop] in Hact;
      simplify_eq; [spsc_case r|].
    constructor; [done|cbn; lia| |done]. cbn in Hri |- *. intuition.
  - simplify_eq. destruct (Z.eqb_spec (p_writers p) 1); spsc_case r.
  - simplify_eq. spsc_case r.
  - destruct (reader_waiters _ _ _ Hri) as [Hq | (len & -> & Hq)]; rewrite Hq in Hact; cbn [length take drop] in Hact;
      simplify_eq; [spsc_case r|].
    constructor; [done|cbn; lia| |done]. cbn in Hri |- *. intuition.
Qed.

Lemma pipe_act_mono t p c a p' c' woken : pipe_act t p c a = Some (p', c', woken) ->
  p_read_seq p <= p_read_seq p' /\ p_write_seq p <= p_write_seq p' /\ forall u, woken_pc u woken c' = c'.
Proof.
  intros Hact. destruct c, a; cbn [pipe_act] in Hact; try discriminate;
    repeat (case_match; try discriminate); simplify_eq; cbn; split_and!; try lia; try done;
    intros u; unfold woken_pc; cbn; by case_match.
Qed.

Lemma woken_pc_lookup woken : forall ts u, wake_all_of woken ts !! u = woken_pc u woken <$> ts !! u.
Proof.
  unfold wake_all_of. induction woken as [|v woken IH]; intros ts u; cbn [foldr].
  - by destruct (ts !! u).
  - destruct (decide (u = v)) as [->|Hne].
    + rewrite lookup_alter_eq, IH. destruct (ts !! v) as [c|]; [|done]. cbn. f_equal. unfold woken_pc. cbn.
      rewrite Nat.eqb_refl. cbn. case_match; [by destruct c | done].
    + rewrite lookup_alter_ne, IH by done. destruct (ts !! u) as [c|]; [|done]. cbn. f_equal. unfold woken_pc. cbn.
      by rewrite (proj2 (Nat.eqb_neq u v)).
Qed.

(** The two threads and, while the counters have not wrapped, the invariant. *)
Definition spsc_sys (s : pipe_system) : Prop :=
  exists r w, sys_threads s !! 0%nat = Some r /\ sys_threads s !! 1%nat = Some w /\
    (forall t c, sys_threads s !! t = Some c -> t = 0%nat \/ t = 1%nat) /\
    (seqs_small (sys_pipe s) -> spsc_inv (sys_pipe s) r w).

Lemma spsc_step s s' : spsc_sys s -> pipe_step spsc_call s s' -> spsc_sys s'.
Proof.
  intros (r & w & Hr & Hw & Honly & Hi) Hstep. destruct Hstep as [s t c a p' c' woken Ha Ht Hact].
  destruct (pipe_act_mono _ _ _ _ _ _ _ Hact) as (Hm1 & Hm2 & Hself).
  assert (seqs_small p' -> seqs_small (sys_pipe s)) as Hsm by (intros []; split; lia).
  assert (forall u d, wake_all_of woken (<[t := c']> (sys_threads s)) !! u = Some d -> u = 0%nat \/ u = 1%nat) as Honly'.
  { intros u d. rewrite woken_pc_lookup. destruct (<[t := c']> (sys_threads s) !! u) as [d0|] eqn:Hd; [|done].
    intros _. apply lookup_insert_Some in Hd as [[<- _]|[_ Hd]]; [by eapply Honly | by eapply Honly]. }
  destruct (Honly t c Ht) as [-> | ->]; simplify_eq.
  - exists c', (woken_pc 1 woken w). cbn [sys_threads sys_pipe].
    rewrite !woken_pc_lookup, lookup_insert_eq, lookup_insert_ne, Hw by done. cbn. rewrite Hself.
    split_and!; [done..|]. intros Hs. eapply reader_act_spsc; eauto.
  - exists (woken_pc 0 woken r), c'. cbn [sys_threads sys_pipe].
    rewrite !woken_pc_lookup, lookup_insert_eq, lookup_insert_ne, Hr by done. cbn. rewrite Hself.
    split_and!; [done..|]. intros Hs. eapply writer_act_spsc; eauto.
Qed.

(** A thread that has nothing left to wake. *)
Definition settled (c : pc) : Prop := ~ w_waking c /\ ~ w_closing c /\ ~ r_waking c /\ ~ r_closing c.

(** C17: with one reader and one writer no wake-up is lost, as long as the scheduler
    accepts the threads that are woken.  In every interleaving of their steps (non-empty
    buffers, fewer than 2^32 events), a reader that sleeps while the writer is not in the
    middle of waking it faces an empty pipe whose write end is open, a writer that sleeps
    faces a full pipe whose read end is open, and the two never sleep at the same time. *)
Theorem pipe_no_lost_wakeup s r w :
  rtc (pipe_step spsc_call) {| sys_pipe := Pipe_new; sys_threads := two_threads |} s ->
  seqs_small (sys_pipe s) ->
  sys_threads s !! 0%nat = Some r -> sys_threads s !! 1%nat = Some w ->
  (forall len, r = RSleep len -> settled w -> contents (p_ring (sys_pipe s)) (p_data (sys_pipe s)) = [] /\
     0 < p_writers (sys_pipe s)) /\
  (forall src, w = WSleep src -> settled r ->
     Z.of_nat (length (contents (p_ring (sys_pipe s)) (p_data (sys_pipe s)))) = PIPE_BUF_SIZE /\
     0 < p_readers (sys_pipe s)) /\
  (forall len src, ~ (r = RSleep len /\ w = WSleep src)).
Proof.
  intros Hrun Hsm Hr Hw.
  assert (spsc_sys s) as (r' & w' & Hr' & Hw' & _ & Hi).
  { refine (rtc_invariant _ _ _ _ _ spsc_step Hrun). exists Outside, Outside.
    split_and!; [done..| |].
    - cbn [sys_threads]. unfold two_threads.
      intros t c [[<- _]|[_ [<- _]%lookup_singleton_Some]]%lookup_insert_Some; auto.
    - intros _. constructor; [constructor; done|done|done|done]. }
  simplify_eq. destruct (Hi Hsm) as [Hring _ Hri Hwi].
  pose proof (contents_length _ _ Hring) as Hlen. split_and!.
  - intros len -> (Hn1 & Hn2 & _). cbn in Hri. destruct Hri as (_ & _ & [He|?] & [Hp|?]); try done.
    split; [|done]. apply nil_length_inv. unfold ring_empty in He. lia.
  - intros src -> (_ & _ & Hn1 & Hn2). cbn in Hwi. destruct Hwi as (_ & _ & [He|?] & [Hp|?]); try done.
    split; [|done]. rewrite Hlen. exact He.
  - intros len src [-> ->]. cbn in Hri, Hwi. unfold ring_empty, ring_full in *.
    destruct Hri as (_ & _ & [He|[]] & _), Hwi as (_ & _ & [Hf|[]] & _). lia.
Qed.

(** The reader sleeps on an empty pipe, and is woken by the first byte. *)
Lemma pipe_no_lost_wakeup_witness : exists s,
  rtc (pipe_step spsc_call) {| sys_pipe := Pipe_new; sys_threads := two_threads |} s /\
  sys_threads s !! 0%nat = Some (RSleep 8) /\ sys_threads s !! 1%nat = Some Outside /\
  contents (p_ring (sys_pipe s)) (p_data (sys_pipe s)) = [].
Proof.
  pose (sched := (0%nat, CallRead 8) :: replicate 4 (0%nat, go)).
  pose (s0 := {| sys_pipe := Pipe_new; sys_threads := two_threads |}).
  assert (exists s, pipe_run s0 sched = Some s /\ sys_threads s !! 0%nat = Some (RSleep 8) /\
          sys_threads s !! 1%nat = Some Outside /\ seqs_small (sys_pipe s)) as (s & E & H0 & H1 & Hsm).
  { eexists. split; [vm_compute; reflexivity|]. vm_compute. done. }
  assert (rtc (pipe_step spsc_call) s0 s) as Hrun.
  { apply (pipe_run_steps spsc_call sched); [|done]. unfold sched. repeat constructor; cbn; lia. }
  exists s. split; [exact Hrun|]. split_and!; [done..|].
  destruct (pipe_no_lost_wakeup s (RSleep 8) Outside Hrun Hsm H0 H1) as [Hr _].
  apply (Hr 8 eq_refl). by repeat split; intros [].
Defined.

(** ** Where the protocol loses a wake-up *)

(** A read of length zero on a pipe that holds data does not return: with a
    writer open, the empty transfer is taken for an empty ring and the reader
    goes to sleep, the data still there. *)
Theorem zero_length_read_sleeps t p :
  ring_ok (p_ring p) (p_data p) -> contents (p_ring p) (p_data p) <> [] ->
  0 < p_readers p -> 0 < p_writers p ->
  exists s, pipe_run {| sys_pipe := p; sys_threads := {[ t := Outside ]} |}
              ((t, CallRead 0) :: replicate 4 (t, go)) = Some s /\
    sys_threads s !! t = Some (RSleep 0) /\
    contents (p_ring (sys_pipe s)) (p_data (sys_pipe s)) = contents (p_ring p) (p_data p).
Proof.
  intros Hr Hne Hrd Hwr. pose proof (contents_length _ _ Hr) as Hlen.
  assert (ring_len (p_ring p) <> 0) as Hn0.
  { intros H0. apply Hne, nil_length_inv. lia. }
  assert (PipeRing_is_empty (p_ring p) = false) as He by (by apply Z.eqb_neq).
  pose proof (ring_read_queue _ _ 0 Hr ltac:(lia)) as Hq.
  cbn [pipe_run replicate sys_threads sys_pipe]. rewrite lookup_singleton_eq. cbn [mbind option_bind pipe_act].
  rewrite (proj2 (Z.ltb_lt 0 (p_readers p))) by done. unfold go.
  repeat (cbn [mbind option_bind wake_all_of foldr sys_threads sys_pipe]; rewrite ?lookup_insert_eq;
    cbn [mbind option_bind pipe_act p_read_seq p_writers upd_ring reader_step_when_empty];
    rewrite ?He, ?(proj2 (Z.ltb_lt 0 (p_writers p))), ?Z.eqb_refl by done).
  destruct (PipeRing_read_into (p_ring p) (p_data p) 0) as [out r']. destruct Hq as (Hr' & Hc & Hl & _).
  assert (out = []) as -> by (apply nil_length_inv; pose proof (ro_len _ _ Hr); lia).
  change (0 <? Z.of_nat (length (@nil Z))) with false. cbv iota.
  repeat (cbn [mbind option_bind wake_all_of foldr sys_threads sys_pipe];
    rewrite ?lookup_insert_eq;
    cbn [mbind option_bind pipe_act p_read_seq p_writers upd_ring reader_step_when_empty];
    rewrite ?(proj2 (Z.ltb_lt 0 (p_writers p))), ?Z.eqb_refl by done).
  eexists. split; [reflexivity|]. cbn [sys_threads sys_pipe upd_waiters upd_ring p_ring p_data].
  rewrite lookup_insert_eq. split; [done|]. by rewrite Hc.
Qed.

Lemma zero_length_read_sleeps_witness :
  exists p s, contents (p_ring p) (p_data p) = [7] /\
    pipe_run {| sys_pipe := p; sys_threads := {[ 0%nat := Outside ]} |}
      ((0%nat, CallRead 0) :: replicate 4 (0%nat, go)) = Some s /\
    sys_threads s !! 0%nat = Some (RSleep 0).
Proof.
  pose (p := upd_ring Pipe_new {| read_pos := 0; write_pos := 1; ring_len := 1 |}
               (7 :: replicate 4095 0) [7] []).
  assert (contents (p_ring p) (p_data p) = [7]) as Hc by (vm_compute; reflexivity).
  destruct (zero_length_read_sleeps 0 p) as (s & Hrun & Hs & _).
  - constructor; vm_compute; intuition discriminate.
  - by rewrite Hc.
  - vm_compute. reflexivity.
  - vm_compute. reflexivity.
  - exists p, s. split_and!; [exact Hc | exact Hrun | exact Hs].
Defined.

Definition positive_call (t : nat) (a : action) : Prop :=
  match a with CallRead len => 0 < len | CallWrite src => src <> [] | Proceed accept => forall u, accept u = true | _ => True end.

(** The state a schedule reaches, looked at through a test. *)
Lemma pipe_run_exists allowed s0 sched (test : pipe_system -> bool) :
  Forall (fun ta => allowed ta.1 ta.2) sched ->
  match pipe_run s0 sched with Some s => test s | None => false end = true ->
  exists s, rtc (pipe_step allowed) s0 s /\ test s = true.
Proof.
  intros Hall Ht. destruct (pipe_run s0 sched) as [s|] eqn:E; [|done].
  exists s. split; [by eapply pipe_run_steps | done].
Qed.

Definition is_outside (o : option pc) : bool := match o with Some Outside => true | _ => false end.
Definition is_sleeping_reader (o : option pc) : bool := match o with Some (RSleep _) => true | _ => false end.

(** With two readers a wake-up is lost.  Two readers sleep on an empty pipe;
    one write of two bytes wakes only one of them, which takes one byte.  Every
    call has returned, a byte is in the pipe, and the other reader sleeps; a
    further write finds the ring non-empty and wakes nobody. *)
Theorem two_readers_lose_wakeup : exists s,
  rtc (pipe_step positive_call)
    {| sys_pipe := Pipe_new; sys_threads := {[ 0%nat := Outside; 1%nat := Outside; 2%nat := Outside ]} |} s /\
  (is_outside (sys_threads s !! 0%nat) && is_outside (sys_threads s !! 1%nat) &&
   is_sleeping_reader (sys_threads s !! 2%nat) &&
   bool_decide (contents (p_ring (sys_pipe s)) (p_data (sys_pipe s)) = [6; 7])) = true.
Proof.
  apply (pipe_run_exists positive_call _
    ((1%nat, CallRead 1) :: replicate 4 (1%nat, go) ++ (2%nat, CallRead 1) :: replicate 4 (2%nat, go) ++
     (0%nat, CallWrite [5; 6]) :: replicate 6 (0%nat, go) ++ replicate 3 (1%nat, go) ++
     (0%nat, CallWrite [7]) :: replicate 4 (0%nat, go))).
  - repeat constructor; cbn; (lia || done).
  - vm_compute. reflexivity.
Qed.

(** A wake-up is lost when the scheduler's queue lock is contended.
    [wake_one] gives up on a thread it cannot hand to the scheduler and its
    callers ignore that, so the reader sleeps with the byte in the pipe after the
    write has returned. *)
Theorem contended_wakeup_lost : exists s,
  rtc (pipe_step sane_call) {| sys_pipe := Pipe_new; sys_threads := two_threads |} s /\
  (is_sleeping_reader (sys_threads s !! 0%nat) && is_outside (sys_threads s !! 1%nat) &&
   bool_decide (contents (p_ring (sys_pipe s)) (p_data (sys_pipe s)) = [5])) = true.
Proof.
  apply (pipe_run_exists sane_call _
    ((0%nat, CallRead 1) :: replicate 4 (0%nat, go) ++
     (1%nat, CallWrite [5]) :: replicate 4 (1%nat, go) ++ [(1%nat, Proceed (fun _ => false)); (1%nat, go)])).
  - repeat constructor; cbn; (lia || done).
  - vm_compute. reflexivity.
Qed.
