(* ===== verification/Fd.v ===== *)
(** * Descriptors: per-process tables and the reference counts of pipe ends

    [FdTable] of crates/proc/src/fd.rs, the reference-count hooks of
    crates/fs/src/lib.rs, and the system calls that move descriptors between
    tables: open, pipe, dup, dup2, close, fork and exit. *)

From Stdlib Require Import ZArith Lia.
From stdpp Require Import prelude gmap list.
From S2P Require Import Prelude.

Local Open Scope Z_scope.

(** ** The table *)

Definition MAX_FDS : Z := 64.

Definition O_RDONLY : Z := 0.

Definition O_WRONLY : Z := 1.

Definition O_RDWR : Z := 2.

Definition O_CREAT : Z := 64.

Definition O_TRUNC : Z := 512.

Record FdEntry := {
  fe_vnode_ptr : Z;
  fe_offset : Z;
  fe_flags : Z;
  fe_reserved : Z
}.

Definition FdEntry_can_read (e : FdEntry) : bool :=
  let mode := Z.land (fe_flags e) 3 in (mode =? O_RDONLY) || (mode =? O_RDWR).

Definition FdEntry_can_write (e : FdEntry) : bool :=
  let mode := Z.land (fe_flags e) 3 in (mode =? O_WRONLY) || (mode =? O_RDWR).

Notation FdTable := (list (option FdEntry)).

Definition FdTable_new : FdTable := replicate (Z.to_nat MAX_FDS) None.

Definition FdTable_alloc (t : FdTable) (vnode_ptr flags : Z) : Z * FdTable :=
  match first_none t with
  | Some i =>
      (Z.of_nat i,
       <[i := Some {| fe_vnode_ptr := vnode_ptr; fe_offset := 0; fe_flags := flags; fe_reserved := 0 |}]> t)
  | None => (-24, t)
  end.

Definition fd_out_of_range (fd : Z) : bool := (fd <? 0) || (MAX_FDS <=? fd).

Definition FdTable_get (t : FdTable) (fd : Z) : option FdEntry :=
  if fd_out_of_range fd then None else mjoin (t !! Z.to_nat fd).

(** [get_mut], with the change made through the reference. *)
Definition FdTable_get_mut (t : FdTable) (fd : Z) (f : FdEntry -> FdEntry) : FdTable :=
  if fd_out_of_range fd then t else alter (fmap f) (Z.to_nat fd) t.

Definition FdTable_close (t : FdTable) (fd : Z) : Z * FdTable :=
  if fd_out_of_range fd then (-9, t) else
  match mjoin (t !! Z.to_nat fd) with
  | None => (-9, t)
  | Some _ => (0, <[Z.to_nat fd := None]> t)
  end.

Definition FdTable_get_vnode_ptr (t : FdTable) (fd : Z) : Z :=
  match FdTable_get t fd with Some e => fe_vnode_ptr e | None => 0 end.

(** ** Vnodes, as far as descriptors see them *)

Inductive VNodeOps := PIPE_READ_OPS | PIPE_WRITE_OPS | OTHER_OPS.

Record VNode := { vn_ops : VNodeOps; vn_refcount : Z }.

Definition bump (d : Z) (vn : VNode) : VNode :=
  {| vn_ops := vn_ops vn; vn_refcount := wrap32 (vn_refcount vn + d) |}.

Definition vnode_inc_ref (vs : gmap Z VNode) (v : Z) : gmap Z VNode := alter (bump 1) v vs.

Definition vnode_dec_ref (vs : gmap Z VNode) (v : Z) : gmap Z VNode := alter (bump (-1)) v vs.

Definition is_pipe_end (vn : VNode) : bool :=
  match vn_ops vn with OTHER_OPS => false | _ => true end.

(** The [release] operation: a pipe end drops a reference, other vnodes do nothing. *)
Definition vnode_release (vs : gmap Z VNode) (v : Z) : gmap Z VNode :=
  match vs !! v with
  | Some vn => if is_pipe_end vn then vnode_dec_ref vs v else vs
  | None => vs
  end.

(** [for entry in self.fds.iter().flatten()] over the pointers that are not null. *)
Definition open_vnodes (t : FdTable) : list Z :=
  filter (fun v => v <> 0) (fe_vnode_ptr <$> omap id t).

Definition FdTable_clone_for_fork (vs : gmap Z VNode) (t : FdTable) : gmap Z VNode * FdTable :=
  (foldl vnode_inc_ref vs (open_vnodes t), t).

Definition FdTable_dup (vs : gmap Z VNode) (t : FdTable) (old_fd : Z) : Z * gmap Z VNode * FdTable :=
  match FdTable_get t old_fd with
  | None => (-9, vs, t)
  | Some entry =>
      match first_none t with
      | Some i => (Z.of_nat i, vnode_inc_ref vs (fe_vnode_ptr entry), <[i := Some entry]> t)
      | None => (-24, vs, t)
      end
  end.

Definition FdTable_dup2 (vs : gmap Z VNode) (t : FdTable) (old_fd new_fd : Z) : Z * gmap Z VNode * FdTable :=
  if old_fd =? new_fd then
    (match FdTable_get t old_fd with Some _ => new_fd | None => -9 end, vs, t)
  else
  match FdTable_get t old_fd with
  | None => (-9, vs, t)
  | Some entry =>
      if fd_out_of_range new_fd then (-9, vs, t) else
      let vs1 := match mjoin (t !! Z.to_nat new_fd) with
                 | Some old => vnode_dec_ref vs (fe_vnode_ptr old)
                 | None => vs
                 end in
      (new_fd, vnode_inc_ref vs1 (fe_vnode_ptr entry), <[Z.to_nat new_fd := Some entry]> t)
  end.

(** ** The system calls, over the tables of all processes *)

(** A process is an index into [fs_tables]; pids are never reused.  [fs_leaked]
    records the vnodes of pipes that never got their descriptors. *)
Record fd_system := {
  fs_vnodes : gmap Z VNode;
  fs_tables : list FdTable;
  fs_leaked : gset Z
}.

Inductive fd_call :=
| CallOpen (vn flags : Z)
| CallPipe (read_vn write_vn : Z)
| CallDup (old_fd : Z)
| CallDup2 (old_fd new_fd : Z)
| CallClose (fd : Z)
| CallFork
| CallExit.

(** [sys_close]: the vnode is captured before the slot is cleared. *)
Definition sys_close (vs : gmap Z VNode) (t : FdTable) (fd : Z) : Z * gmap Z VNode * FdTable :=
  let vn_ptr := FdTable_get_vnode_ptr t fd in
  let '(r, t') := FdTable_close t fd in
  (r, if (r =? 0) && negb (vn_ptr =? 0) then vnode_release vs vn_ptr else vs, t').

Definition create_pipe_vnode (vs : gmap Z VNode) (v : Z) (ops : VNodeOps) : gmap Z VNode :=
  <[v := {| vn_ops := ops; vn_refcount := 1 |}]> vs.

(** The descriptor part of [sys_pipe]; the boolean tells whether the two vnodes
    are left without descriptors. *)
Definition sys_pipe (vs : gmap Z VNode) (t : FdTable) (read_vn write_vn : Z)
  : Z * gmap Z VNode * FdTable * bool :=
  let vs1 := create_pipe_vnode (create_pipe_vnode vs read_vn PIPE_READ_OPS) write_vn PIPE_WRITE_OPS in
  let '(r, t1) := FdTable_alloc t read_vn O_RDONLY in
  if r <? 0 then (r, vs1, t1, true) else
  let '(w, t2) := FdTable_alloc t1 write_vn O_WRONLY in
  if w <? 0 then (w, vs1, snd (FdTable_close t2 r), true) else (0, vs1, t2, false).

(** The descriptors of [Process::exit]: every slot is taken, then released. *)
Definition exit_fds (vs : gmap Z VNode) (t : FdTable) : gmap Z VNode * FdTable :=
  (foldl vnode_release vs (open_vnodes t), (fun _ => None) <$> t).

(** The standard descriptors [Process::create] installs. *)
Definition create_fds (serial_ptr keyboard_ptr : Z) : FdTable :=
  if serial_ptr =? 0 then FdTable_new else
  let stdin_ptr := if keyboard_ptr =? 0 then serial_ptr else keyboard_ptr in
  let t0 := snd (FdTable_alloc FdTable_new stdin_ptr O_RDONLY) in
  let t1 := snd (FdTable_alloc t0 serial_ptr O_WRONLY) in
  snd (FdTable_alloc t1 serial_ptr O_WRONLY).

(** A call of process [p].  The vnodes handed to [sys_pipe] are frames just
    allocated, and the one handed to [sys_open] is the result of the lookup. *)
Definition fd_exec (s : fd_system) (p : nat) (c : fd_call) : option (Z * fd_system) :=
  t ← fs_tables s !! p;
  let put vs t' lk := {| fs_vnodes := vs; fs_tables := <[p := t']> (fs_tables s); fs_leaked := lk |} in
  match c with
  | CallOpen vn flags =>
      if bool_decide (is_pipe_end <$> fs_vnodes s !! vn = Some false)
      then let '(r, t') := FdTable_alloc t vn flags in Some (r, put (fs_vnodes s) t' (fs_leaked s))
      else None
  | CallPipe rv wv =>
      if bool_decide (fs_vnodes s !! rv = None) && bool_decide (fs_vnodes s !! wv = None) &&
         negb (rv =? wv) && negb (rv =? 0) && negb (wv =? 0)
      then
        let '(r, vs, t', lost) := sys_pipe (fs_vnodes s) t rv wv in
        Some (r, put vs t' (if lost then {[rv; wv]} ∪ fs_leaked s else fs_leaked s))
      else None
  | CallDup old_fd =>
      let '(r, vs, t') := FdTable_dup (fs_vnodes s) t old_fd in Some (r, put vs t' (fs_leaked s))
  | CallDup2 old_fd new_fd =>
      let '(r, vs, t') := FdTable_dup2 (fs_vnodes s) t old_fd new_fd in Some (r, put vs t' (fs_leaked s))
  | CallClose fd =>
      let '(r, vs, t') := sys_close (fs_vnodes s) t fd in Some (r, put vs t' (fs_leaked s))
  | CallFork =>
      let '(vs, child) := FdTable_clone_for_fork (fs_vnodes s) t in
      Some (Z.of_nat (length (fs_tables s)),
            {| fs_vnodes := vs; fs_tables := fs_tables s ++ [child]; fs_leaked := fs_leaked s |})
  | CallExit =>
      let '(vs, t') := exit_fds (fs_vnodes s) t in Some (0, put vs t' (fs_leaked s))
  end.

(** The system when the first process has been created. *)
Definition fd_boot (vs : gmap Z VNode) (serial keyboard : Z) : fd_system :=
  {| fs_vnodes := vs; fs_tables := [create_fds serial keyboard]; fs_leaked := ∅ |}.

Fixpoint fd_run (s : fd_system) (calls : list (nat * fd_call)) : option fd_system :=
  match calls with
  | [] => Some s
  | (p, c) :: calls' => rs ← fd_exec s p c; fd_run (snd rs) calls'
  end.

Inductive fd_step : fd_system -> fd_system -> Prop :=
| fd_step_call s p c r s' : fd_exec s p c = Some (r, s') -> fd_step s s'.

(** ** Counting the descriptors that refer to a vnode *)

Definition refers (v : Z) (o : option FdEntry) : Z :=
  match o with Some e => if fe_vnode_ptr e =? v then 1 else 0 | None => 0 end.

Definition holders_in (v : Z) (t : FdTable) : Z := zsum (refers v) t.

Definition holders (v : Z) (ts : list FdTable) : Z := zsum (holders_in v) ts.

Lemma refers_nonneg v o : 0 <= refers v o.
Proof. unfold refers. destruct o; [case_match|]; lia. Qed.

Lemma holders_in_nonneg v t : 0 <= holders_in v t.
Proof. apply zsum_nonneg, refers_nonneg. Qed.

Lemma holders_put v ts p t t' :
  ts !! p = Some t -> holders v (<[p := t']> ts) = holders v ts - holders_in v t + holders_in v t'.
Proof. apply zsum_insert. Qed.

Lemma holders_in_put v t i o o' :
  t !! i = Some o -> holders_in v (<[i := o']> t) = holders_in v t - refers v o + refers v o'.
Proof. apply zsum_insert. Qed.

Lemma holders_refers v ts t o : t ∈ ts -> o ∈ t -> refers v o <= holders v ts.
Proof.
  intros Ht Ho. pose proof (zsum_elem (refers v) t o (refers_nonneg v) Ho).
  pose proof (zsum_elem (holders_in v) ts t (holders_in_nonneg v) Ht).
  unfold holders, holders_in in *. lia.
Qed.

Lemma holders_in_cleared v (t : FdTable) : holders_in v ((fun _ => None) <$> t) = 0.
Proof. induction t as [|o t IH]; [done | exact IH]. Qed.

(** ** The counts of pipe ends *)

Definition pipe_rc (vs : gmap Z VNode) (v : Z) : option Z :=
  vn ← vs !! v; if is_pipe_end vn then Some (vn_refcount vn) else None.

Lemma pipe_rc_bump d w vs v :
  pipe_rc (alter (bump d) w vs) v = (fun c => if v =? w then wrap32 (c + d) else c) <$> pipe_rc vs v.
Proof.
  unfold pipe_rc. destruct (Z.eqb_spec v w) as [->|Hne].
  - rewrite lookup_alter_eq. destruct (vs !! w) as [vn|]; [|done]. simpl.
    unfold is_pipe_end, bump. simpl. by destruct (vn_ops vn).
  - rewrite lookup_alter_ne by done. by destruct (vs !! v) as [vn|]; [simpl; destruct (is_pipe_end vn)|].
Qed.

Lemma pipe_rc_release w vs v :
  pipe_rc (vnode_release vs w) v = (fun c => if v =? w then wrap32 (c + -1) else c) <$> pipe_rc vs v.
Proof.
  unfold vnode_release. destruct (vs !! w) as [vn|] eqn:Hw; [destruct (is_pipe_end vn) eqn:He|].
  - apply pipe_rc_bump.
  - destruct (Z.eqb_spec v w) as [->|_]; [|by destruct (pipe_rc vs v)].
    unfold pipe_rc. rewrite Hw. simpl. by rewrite He.
  - destruct (Z.eqb_spec v w) as [->|_]; [|by destruct (pipe_rc vs v)].
    unfold pipe_rc. by rewrite Hw.
Qed.

Lemma wrap32_add_l a b : wrap32 (wrap32 a + b) = wrap32 (a + b).
Proof. unfold wrap32, wrapw. by rewrite Zplus_mod_idemp_l. Qed.

(** How often [v] occurs in a list of vnodes. *)
Definition occurs (v : Z) (l : list Z) : Z := zsum (fun w => if v =? w then 1 else 0) l.

Lemma pipe_rc_fold (f : gmap Z VNode -> Z -> gmap Z VNode) d l : forall vs v c,
  (forall vs w, pipe_rc (f vs w) v = (fun c => if v =? w then wrap32 (c + d) else c) <$> pipe_rc vs v) ->
  pipe_rc vs v = Some (wrap32 c) ->
  pipe_rc (foldl f vs l) v = Some (wrap32 (c + d * occurs v l)).
Proof.
  induction l as [|w l IH]; intros vs v c Hf Hc; cbn [foldl occurs zsum].
  - rewrite Hc. do 2 f_equal; lia.
  - rewrite (IH (f vs w) v (if v =? w then c + d else c)); [|done|].
    + f_equal. f_equal. unfold occurs. case_match; lia.
    + rewrite Hf, Hc. simpl. case_match; [by rewrite wrap32_add_l | done].
Qed.

Lemma occurs_open v t : v <> 0 -> occurs v (open_vnodes t) = holders_in v t.
Proof.
  intros Hv. unfold open_vnodes. induction t as [|[e|] t IH]; [done| |exact IH].
  cbn [omap list_omap id fmap list_fmap]. rewrite filter_cons.
  unfold holders_in in *. cbn [zsum refers]. rewrite <- IH.
  destruct (decide (fe_vnode_ptr e <> 0)) as [He|He].
  - cbn [occurs zsum]. unfold occurs. by rewrite (Z.eqb_sym v).
  - destruct (Z.eqb_spec (fe_vnode_ptr e) v); [lia|done].
Qed.

(** ** The invariant *)

Record fd_ok (s : fd_system) : Prop := {
  fo_null : fs_vnodes s !! 0 = None;
  fo_rc : forall v c, pipe_rc (fs_vnodes s) v = Some c -> v ∉ fs_leaked s ->
    c = wrap32 (holders v (fs_tables s));
  fo_leaked : forall v, v ∈ fs_leaked s ->
    holders v (fs_tables s) = 0 /\ is_Some (pipe_rc (fs_vnodes s) v);
  fo_len : forall t, t ∈ fs_tables s -> length t = 64%nat;
  fo_live : forall t e, t ∈ fs_tables s -> Some e ∈ t -> is_Some (fs_vnodes s !! fe_vnode_ptr e)
}.

(** The operations of the vnodes, which never change. *)
Definition kinds (vs : gmap Z VNode) : gmap Z VNodeOps := vn_ops <$> vs.

Lemma kinds_bump d w vs : kinds (alter (bump d) w vs) = kinds vs.
Proof.
  apply map_eq. intros v. unfold kinds. rewrite !lookup_fmap.
  destruct (decide (v = w)) as [->|]; [rewrite lookup_alter_eq | by rewrite lookup_alter_ne].
  by destruct (vs !! w).
Qed.

Lemma kinds_release w vs : kinds (vnode_release vs w) = kinds vs.
Proof. unfold vnode_release. repeat case_match; [apply kinds_bump | done..]. Qed.

Lemma kinds_fold (f : gmap Z VNode -> Z -> gmap Z VNode) l : forall vs,
  (forall vs w, kinds (f vs w) = kinds vs) -> kinds (foldl f vs l) = kinds vs.
Proof. induction l as [|w l IH]; intros vs Hf; [done|]. cbn [foldl]. by rewrite IH, Hf. Qed.

Lemma kinds_rc vs vs' v : kinds vs' = kinds vs -> is_Some (pipe_rc vs' v) -> is_Some (pipe_rc vs v).
Proof.
  intros Hk. assert (kinds vs' !! v = kinds vs !! v) as H by by rewrite Hk.
  unfold kinds in H. rewrite !lookup_fmap in H. unfold pipe_rc, is_pipe_end.
  destruct (vs' !! v) as [a|], (vs !! v) as [b|]; simplify_eq/=; try (by intros [? ?]).
  rewrite H. destruct (vn_ops b); [eauto..|by intros [? ?]].
Qed.

Lemma kinds_lookup vs vs' v : kinds vs' = kinds vs -> is_Some (vs !! v) <-> is_Some (vs' !! v).
Proof.
  intros Hk. assert (kinds vs' !! v = kinds vs !! v) as H by by rewrite Hk.
  unfold kinds in H. rewrite !lookup_fmap in H.
  destruct (vs' !! v), (vs !! v); simplify_eq/=; split; intros [? ?]; eauto; done.
Qed.

(** A vnode no descriptor refers to has no holders. *)
Lemma holders_none v ts :
  (forall t e, t ∈ ts -> Some e ∈ t -> fe_vnode_ptr e <> v) -> holders v ts = 0.
Proof.
  induction ts as [|t ts IH]; intros Hn; [done|]. unfold holders in *. cbn [zsum].
  rewrite IH by set_solver. assert (forall e, Some e ∈ t -> fe_vnode_ptr e <> v) as Ht by set_solver.
  clear IH Hn. induction t as [|[e|] t IHt]; [done| |].
  - unfold holders_in in *. cbn [zsum refers]. specialize (IHt ltac:(set_solver)).
    destruct (Z.eqb_spec (fe_vnode_ptr e) v); [by exfalso; apply (Ht e); [set_solver|]|]. lia.
  - apply IHt. set_solver.
Qed.

Lemma holders_pos v ts t e : t ∈ ts -> Some e ∈ t -> fe_vnode_ptr e = v -> 1 <= holders v ts.
Proof.
  intros Ht He <-. pose proof (holders_refers (fe_vnode_ptr e) ts t (Some e) Ht He) as H.
  cbn [refers] in H. by rewrite Z.eqb_refl in H.
Qed.

(** A call that changes the counts and the holders alike, and makes descriptors
    only for vnodes that have one already, keeps the invariant. *)
Lemma fd_ok_delta s vs' ts' :
  fd_ok s -> kinds vs' = kinds (fs_vnodes s) ->
  (forall t, t ∈ ts' -> length t = 64%nat) ->
  (forall t e, t ∈ ts' -> Some e ∈ t ->
    exists t0 e0, t0 ∈ fs_tables s /\ Some e0 ∈ t0 /\ fe_vnode_ptr e0 = fe_vnode_ptr e) ->
  (forall v c, v <> 0 -> pipe_rc (fs_vnodes s) v = Some (wrap32 c) ->
    pipe_rc vs' v = Some (wrap32 (c + (holders v ts' - holders v (fs_tables s))))) ->
  fd_ok {| fs_vnodes := vs'; fs_tables := ts'; fs_leaked := fs_leaked s |}.
Proof.
  intros Hs Hk Hlen Hsub Hrc. split; cbn [fs_vnodes fs_tables fs_leaked].
  - destruct (vs' !! 0) eqn:H0; [|done]. assert (is_Some (fs_vnodes s !! 0)) as [? Hn].
    + apply (kinds_lookup _ _ _ Hk). eauto.
    + by rewrite (fo_null _ Hs) in Hn.
  - intros v c Hv Hl. destruct (kinds_rc _ _ v Hk ltac:(eauto)) as [c0 Hc0].
    pose proof (fo_rc _ Hs v c0 Hc0 Hl) as ->.
    assert (v <> 0) as Hv0 by (intros ->; unfold pipe_rc in Hc0; by rewrite (fo_null _ Hs) in Hc0).
    pose proof (Hrc v _ Hv0 Hc0) as H1. rewrite Hv in H1. injection H1 as ->. f_equal. lia.
  - intros v Hl. destruct (fo_leaked _ Hs v Hl) as [Hh Hp]. split.
    + apply holders_none. intros t e Ht He Heq. destruct (Hsub t e Ht He) as (t0 & e0 & Ht0 & He0 & Heq0).
      pose proof (holders_pos v _ t0 e0 Ht0 He0 ltac:(congruence)). lia.
    + symmetry in Hk. by apply (kinds_rc _ _ v Hk).
  - done.
  - intros t e Ht He. destruct (Hsub t e Ht He) as (t0 & e0 & Ht0 & He0 & <-).
    apply (kinds_lookup _ _ _ Hk). by apply (fo_live _ Hs t0).
Qed.

Lemma elem_of_put {X} (l : list X) p x y : y ∈ <[p := x]> l -> y = x \/ y ∈ l.
Proof.
  intros [i Hi]%list_elem_of_lookup.
  apply list_lookup_insert_Some in Hi as [(-> & -> & _)|[_ Hi]]; [by left|right].
  by apply list_elem_of_lookup_2 in Hi.
Qed.

(** The same for a call that changes the table of one process. *)
Lemma fd_ok_put s p t vs' t' :
  fd_ok s -> fs_tables s !! p = Some t -> kinds vs' = kinds (fs_vnodes s) -> length t' = length t ->
  (forall e, Some e ∈ t' -> exists e0, Some e0 ∈ t /\ fe_vnode_ptr e0 = fe_vnode_ptr e) ->
  (forall v c, v <> 0 -> pipe_rc (fs_vnodes s) v = Some (wrap32 c) ->
    pipe_rc vs' v = Some (wrap32 (c + (holders_in v t' - holders_in v t)))) ->
  fd_ok {| fs_vnodes := vs'; fs_tables := <[p := t']> (fs_tables s); fs_leaked := fs_leaked s |}.
Proof.
  intros Hs Hp Hk Hlen Hsub Hrc. pose proof (list_elem_of_lookup_2 _ _ _ Hp) as Hin.
  apply fd_ok_delta; [done..| | |].
  - intros u [->|Hu]%elem_of_put; [|by apply (fo_len _ Hs)]. rewrite Hlen. by apply (fo_len _ Hs).
  - intros u e [->|Hu]%elem_of_put He; [|by exists u, e].
    destruct (Hsub e He) as (e0 & He0 & Heq). by exists t, e0.
  - intros v c Hv Hc. rewrite (Hrc v c Hv Hc), (holders_put v _ p t t') by done. do 2 f_equal; lia.
Qed.

Lemma fd_in_range fd : fd_out_of_range fd = false <-> 0 <= fd < 64.
Proof. unfold fd_out_of_range, MAX_FDS. rewrite orb_false_iff, Z.ltb_ge, Z.leb_gt. done. Qed.

Lemma FdTable_get_elem t fd e :
  FdTable_get t fd = Some e -> Some e ∈ t /\ t !! Z.to_nat fd = Some (Some e) /\ fd_out_of_range fd = false.
Proof.
  unfold FdTable_get. destruct (fd_out_of_range fd); [done|].
  destruct (t !! Z.to_nat fd) as [o|] eqn:Ho; [|done]. cbn. intros ->.
  split; [by apply list_elem_of_lookup_2 in Ho | done].
Qed.

(** Putting [entry] of the table into a slot of it. *)
Lemma elem_of_copy (t : FdTable) i entry e :
  Some entry ∈ t -> Some e ∈ <[i := Some entry]> t ->
  exists e0, Some e0 ∈ t /\ fe_vnode_ptr e0 = fe_vnode_ptr e.
Proof. intros Ht [[= ->]|He]%elem_of_put; eauto. Qed.

Lemma fd_ok_dup s p t old_fd r vs' t' :
  fd_ok s -> fs_tables s !! p = Some t -> FdTable_dup (fs_vnodes s) t old_fd = (r, vs', t') ->
  fd_ok {| fs_vnodes := vs'; fs_tables := <[p := t']> (fs_tables s); fs_leaked := fs_leaked s |}.
Proof.
  intros Hs Hp Hd. unfold FdTable_dup in Hd.
  assert (fd_ok {| fs_vnodes := fs_vnodes s; fs_tables := <[p := t]> (fs_tables s); fs_leaked := fs_leaked s |})
    as Hid by (rewrite list_insert_id by done; by destruct s).
  destruct (FdTable_get t old_fd) as [entry|] eqn:Hg; [|by simplify_eq].
  destruct (first_none t) as [i|] eqn:Hf; [|by simplify_eq]. injection Hd as <- <- <-.
  apply FdTable_get_elem in Hg as (He & _). apply first_none_Some in Hf.
  apply (fd_ok_put s p t); [done..|apply kinds_bump|by rewrite length_insert| |].
  - intros e. by apply elem_of_copy.
  - intros v c Hv Hc. unfold vnode_inc_ref. rewrite pipe_rc_bump, Hc.
    rewrite (holders_in_put v t i None) by done. cbn [refers fmap option_fmap option_map].
    rewrite (Z.eqb_sym v). case_match; [rewrite wrap32_add_l|]; do 2 f_equal; lia.
Qed.

Lemma fd_ok_dup2 s p t old_fd new_fd r vs' t' :
  fd_ok s -> fs_tables s !! p = Some t -> FdTable_dup2 (fs_vnodes s) t old_fd new_fd = (r, vs', t') ->
  fd_ok {| fs_vnodes := vs'; fs_tables := <[p := t']> (fs_tables s); fs_leaked := fs_leaked s |}.
Proof.
  intros Hs Hp Hd. unfold FdTable_dup2 in Hd.
  assert (fd_ok {| fs_vnodes := fs_vnodes s; fs_tables := <[p := t]> (fs_tables s); fs_leaked := fs_leaked s |})
    as Hid by (rewrite list_insert_id by done; by destruct s).
  destruct (old_fd =? new_fd); [by simplify_eq|].
  destruct (FdTable_get t old_fd) as [entry|] eqn:Hg; [|by simplify_eq].
  destruct (fd_out_of_range new_fd) eqn:Hn; [by simplify_eq|]. injection Hd as <- <- <-.
  apply FdTable_get_elem in Hg as (He & _).
  assert (is_Some (t !! Z.to_nat new_fd)) as [o Ho].
  { apply lookup_lt_is_Some. rewrite (fo_len _ Hs) by (by apply list_elem_of_lookup_2 in Hp).
    apply fd_in_range in Hn. lia. }
  rewrite Ho. cbn [mjoin option_join].
  apply (fd_ok_put s p t); [done..| |by rewrite length_insert| |].
  - unfold vnode_inc_ref, vnode_dec_ref. rewrite kinds_bump. destruct o; [apply kinds_bump|done].
  - intros e. by apply elem_of_copy.
  - intros v c Hv Hc. unfold vnode_inc_ref, vnode_dec_ref. rewrite pipe_rc_bump.
    rewrite (holders_in_put v t _ o) by done. cbn [refers]. rewrite (Z.eqb_sym v).
    destruct o as [old|]; [rewrite pipe_rc_bump, (Z.eqb_sym v (fe_vnode_ptr old))|]; rewrite Hc;
      cbn [refers fmap option_fmap option_map]; repeat case_match;
      rewrite ?wrap32_add_l, <- ?Z.add_assoc, ?wrap32_add_l; do 2 f_equal; lia.
Qed.

Lemma fd_ok_close s p t fd r vs' t' :
  fd_ok s -> fs_tables s !! p = Some t -> sys_close (fs_vnodes s) t fd = (r, vs', t') ->
  fd_ok {| fs_vnodes := vs'; fs_tables := <[p := t']> (fs_tables s); fs_leaked := fs_leaked s |}.
Proof.
  intros Hs Hp Hd. unfold sys_close, FdTable_close, FdTable_get_vnode_ptr, FdTable_get in Hd.
  assert (fd_ok {| fs_vnodes := fs_vnodes s; fs_tables := <[p := t]> (fs_tables s); fs_leaked := fs_leaked s |})
    as Hid by (rewrite list_insert_id by done; by destruct s).
  destruct (fd_out_of_range fd); [by simplify_eq|].
  destruct (t !! Z.to_nat fd) as [[e|]|] eqn:He; cbn [mjoin option_join] in Hd; [|by simplify_eq..].
  pose proof (list_elem_of_lookup_2 _ _ _ He) as Hin.
  assert (fe_vnode_ptr e <> 0) as He0.
  { intros H0. destruct (fo_live _ Hs t e) as [vn Hvn]; [by apply list_elem_of_lookup_2 in Hp|done|].
    by rewrite H0, (fo_null _ Hs) in Hvn. }
  apply Z.eqb_neq in He0. rewrite He0 in Hd. cbn in Hd. injection Hd as <- <- <-.
  apply (fd_ok_put s p t); [done..|apply kinds_release|by rewrite length_insert| |].
  - intros e1 [?|He1]%elem_of_put; [done|eauto].
  - intros v c Hv Hc. rewrite pipe_rc_release, Hc, (holders_in_put v t _ (Some e)) by done.
    cbn [refers fmap option_fmap option_map]. rewrite (Z.eqb_sym v).
    case_match; [rewrite wrap32_add_l|]; do 2 f_equal; lia.
Qed.

Lemma fd_ok_exit s p t vs' t' :
  fd_ok s -> fs_tables s !! p = Some t -> exit_fds (fs_vnodes s) t = (vs', t') ->
  fd_ok {| fs_vnodes := vs'; fs_tables := <[p := t']> (fs_tables s); fs_leaked := fs_leaked s |}.
Proof.
  intros Hs Hp Hd. unfold exit_fds in Hd. injection Hd as <- <-.
  apply (fd_ok_put s p t); [done..|apply kinds_fold; intros; apply kinds_release|by rewrite length_fmap| |].
  - intros e (x & ? & _)%list_elem_of_fmap. done.
  - intros v c Hv Hc.
    rewrite (pipe_rc_fold vnode_release (-1) _ _ v c); [|intros; apply pipe_rc_release|done].
    rewrite occurs_open, holders_in_cleared by done. do 2 f_equal; lia.
Qed.

Lemma fd_ok_fork s p t :
  fd_ok s -> fs_tables s !! p = Some t ->
  fd_ok {| fs_vnodes := foldl vnode_inc_ref (fs_vnodes s) (open_vnodes t);
           fs_tables := fs_tables s ++ [t]; fs_leaked := fs_leaked s |}.
Proof.
  intros Hs Hp. pose proof (list_elem_of_lookup_2 _ _ _ Hp) as Hin.
  assert (forall u, u ∈ fs_tables s ++ [t] -> u ∈ fs_tables s) as Hu by set_solver.
  apply fd_ok_delta; [done|apply kinds_fold; intros; apply kinds_bump| | |].
  - intros u Hi%Hu. by apply (fo_len _ Hs).
  - intros u e Hi%Hu He. eauto.
  - intros v c Hv Hc.
    rewrite (pipe_rc_fold vnode_inc_ref 1 _ _ v c); [|intros; apply pipe_rc_bump|done].
    rewrite occurs_open by done. unfold holders. rewrite zsum_app. cbn [zsum].
    do 2 f_equal; lia.
Qed.

Lemma FdTable_alloc_cases t v flags r t' :
  FdTable_alloc t v flags = (r, t') ->
  (r = -24 /\ t' = t /\ first_none t = None) \/
  (exists i, r = Z.of_nat i /\ first_none t = Some i /\
    t' = <[i := Some {| fe_vnode_ptr := v; fe_offset := 0; fe_flags := flags; fe_reserved := 0 |}]> t).
Proof. unfold FdTable_alloc. intros H. destruct (first_none t); simplify_eq; eauto 6. Qed.

Lemma fd_ok_open s p t v flags r t' :
  fd_ok s -> fs_tables s !! p = Some t -> is_pipe_end <$> fs_vnodes s !! v = Some false ->
  FdTable_alloc t v flags = (r, t') ->
  fd_ok {| fs_vnodes := fs_vnodes s; fs_tables := <[p := t']> (fs_tables s); fs_leaked := fs_leaked s |}.
Proof.
  intros Hs Hp Hv [(_ & -> & _)|(i & _ & Hi & ->)]%FdTable_alloc_cases.
  { rewrite list_insert_id by done. by destruct s. }
  apply first_none_Some in Hi. pose proof (list_elem_of_lookup_2 _ _ _ Hp) as Hin.
  destruct (fs_vnodes s !! v) as [vn|] eqn:Hvn; [|done]. injection Hv as Hv.
  assert (pipe_rc (fs_vnodes s) v = None) as Hnp by (unfold pipe_rc; rewrite Hvn; simpl; by rewrite Hv).
  assert (forall w, is_Some (pipe_rc (fs_vnodes s) w) -> forall e,
    holders w (<[p := <[i := Some e]> t]> (fs_tables s)) =
    holders w (fs_tables s) + refers w (Some e)) as Hh.
  { intros w _ e. rewrite (holders_put w _ p t), (holders_in_put w t i None) by done. cbn [refers]. lia. }
  split; cbn [fs_vnodes fs_tables fs_leaked].
  - apply (fo_null _ Hs).
  - intros w c Hc Hl. rewrite Hh by eauto. cbn [refers fe_vnode_ptr].
    destruct (Z.eqb_spec v w) as [->|]; [by rewrite Hnp in Hc|]. rewrite Z.add_0_r. by apply (fo_rc _ Hs).
  - intros w Hl. destruct (fo_leaked _ Hs w Hl) as [Hz Hp']. split; [|done]. rewrite Hh by done.
    cbn [refers fe_vnode_ptr]. destruct (Z.eqb_spec v w) as [->|]; [|lia]. rewrite Hnp in Hp'. by destruct Hp'.
  - intros u [->|Hu]%elem_of_put; [rewrite length_insert|]; by apply (fo_len _ Hs).
  - intros u e [->|Hu]%elem_of_put; [intros [[= ->]|He]%elem_of_put|intros He];
      [by eauto|by apply (fo_live _ Hs t)|by apply (fo_live _ Hs u)].
Qed.

(** New pipe ends: nothing refers to them yet. *)
Lemma pipe_rc_create vs v ops w :
  pipe_rc (create_pipe_vnode vs v ops) w =
  if w =? v then (match ops with OTHER_OPS => None | _ => Some 1 end) else pipe_rc vs w.
Proof.
  unfold pipe_rc, create_pipe_vnode. destruct (Z.eqb_spec w v) as [->|].
  - rewrite lookup_insert_eq. by destruct ops.
  - by rewrite lookup_insert_ne.
Qed.

Lemma create_pipe_lookup vs v ops w :
  is_Some (create_pipe_vnode vs v ops !! w) <-> w = v \/ is_Some (vs !! w).
Proof.
  unfold create_pipe_vnode. destruct (decide (w = v)) as [->|].
  - rewrite lookup_insert_eq. naive_solver.
  - rewrite lookup_insert_ne by done. naive_solver.
Qed.

Lemma fresh_no_holders s v : fd_ok s -> fs_vnodes s !! v = None -> holders v (fs_tables s) = 0.
Proof.
  intros Hs Hv. apply holders_none. intros t e Ht He <-.
  destruct (fo_live _ Hs t e Ht He) as [? H]. by rewrite Hv in H.
Qed.

(** Creating the two vnodes of a pipe, with the descriptors counted by [n]. *)
Lemma fd_ok_pipe_vnodes s rv wv ts' lk :
  fd_ok s -> fs_vnodes s !! rv = None -> fs_vnodes s !! wv = None -> rv <> wv -> rv <> 0 -> wv <> 0 ->
  (forall t, t ∈ ts' -> length t = 64%nat) ->
  (forall t e, t ∈ ts' -> Some e ∈ t -> fe_vnode_ptr e = rv \/ fe_vnode_ptr e = wv \/
    exists t0, t0 ∈ fs_tables s /\ Some e ∈ t0) ->
  (forall v, v <> rv -> v <> wv -> holders v ts' = holders v (fs_tables s)) ->
  (lk = fs_leaked s /\ holders rv ts' = 1 /\ holders wv ts' = 1) \/
  (lk = {[rv; wv]} ∪ fs_leaked s /\ holders rv ts' = 0 /\ holders wv ts' = 0) ->
  fd_ok {| fs_vnodes := create_pipe_vnode (create_pipe_vnode (fs_vnodes s) rv PIPE_READ_OPS) wv PIPE_WRITE_OPS;
           fs_tables := ts'; fs_leaked := lk |}.
Proof.
  intros Hs Hrv Hwv Hne Hr0 Hw0 Hlen Hsub Hh Hnew.
  assert (rv ∉ fs_leaked s /\ wv ∉ fs_leaked s) as [Hrl Hwl].
  { split; intros Hl; destruct (fo_leaked _ Hs _ Hl) as [_ [? Hp]]; unfold pipe_rc in Hp;
      [by rewrite Hrv in Hp | by rewrite Hwv in Hp]. }
  split; cbn [fs_vnodes fs_tables fs_leaked].
  - unfold create_pipe_vnode. rewrite !lookup_insert_ne by done. apply (fo_null _ Hs).
  - intros v c. rewrite !pipe_rc_create.
    destruct (Z.eqb_spec v wv) as [->|Hw]; [|destruct (Z.eqb_spec v rv) as [->|Hr]].
    + intros [= <-] Hl. destruct Hnew as [(_ & _ & ->)|(-> & _ & _)]; [done|set_solver].
    + intros [= <-] Hl. destruct Hnew as [(_ & -> & _)|(-> & _ & _)]; [done|set_solver].
    + intros Hc Hl. rewrite Hh by done. apply (fo_rc _ Hs); [done|].
      destruct Hnew as [(-> & _)|(-> & _)]; set_solver.
  - intros v Hv. rewrite !pipe_rc_create.
    assert (v ∈ fs_leaked s \/ (holders rv ts' = 0 /\ holders wv ts' = 0 /\ (v = rv \/ v = wv))) as Hc
      by (destruct Hnew as [(-> & _)|(-> & ? & ?)]; set_solver).
    destruct Hc as [Hl|(H1 & H2 & [-> | ->])].
    + destruct (fo_leaked _ Hs v Hl) as [Hz Hp]. rewrite Hh by set_solver.
      destruct (Z.eqb_spec v wv); [set_solver|]. destruct (Z.eqb_spec v rv); [set_solver|done].
    + destruct (Z.eqb_spec rv wv); [done|]. rewrite Z.eqb_refl. eauto.
    + rewrite Z.eqb_refl. eauto.
  - done.
  - intros t e Ht He. rewrite !create_pipe_lookup.
    destruct (Hsub t e Ht He) as [?|[?|(t0 & Ht0 & He0)]]; [by auto..|].
    right. right. by apply (fo_live _ Hs t0).
Qed.

Lemma fd_ok_pipe s p t rv wv r vs' t' lost :
  fd_ok s -> fs_tables s !! p = Some t -> fs_vnodes s !! rv = None -> fs_vnodes s !! wv = None ->
  rv <> wv -> rv <> 0 -> wv <> 0 -> sys_pipe (fs_vnodes s) t rv wv = (r, vs', t', lost) ->
  fd_ok {| fs_vnodes := vs'; fs_tables := <[p := t']> (fs_tables s);
           fs_leaked := if lost then {[rv; wv]} ∪ fs_leaked s else fs_leaked s |}.
Proof.
  intros Hs Hp Hrv Hwv Hne Hr0 Hw0 H. unfold sys_pipe in H.
  pose proof (list_elem_of_lookup_2 _ _ _ Hp) as Hin. pose proof (fo_len _ Hs t Hin) as Hlen.
  pose proof (fresh_no_holders s rv Hs Hrv) as Hhr. pose proof (fresh_no_holders s wv Hs Hwv) as Hhw.
  assert (fd_ok {| fs_vnodes := create_pipe_vnode (create_pipe_vnode (fs_vnodes s) rv PIPE_READ_OPS) wv PIPE_WRITE_OPS;
           fs_tables := <[p := t]> (fs_tables s); fs_leaked := {[rv; wv]} ∪ fs_leaked s |}) as Hlost.
  { rewrite list_insert_id by done. apply fd_ok_pipe_vnodes; [done..|apply (fo_len _ Hs)| |done|by right].
    intros t0 e Ht0 He. eauto. }
  destruct (FdTable_alloc t rv O_RDONLY) as [r1 t1] eqn:H1.
  apply FdTable_alloc_cases in H1 as [(-> & -> & _)|(i & -> & Hi & ->)]; [by simplify_eq/=|].
  apply first_none_Some in Hi. pose proof (lookup_lt_Some _ _ _ Hi) as Hil.
  rewrite (proj2 (Z.ltb_ge _ _)) in H by lia.
  destruct (FdTable_alloc _ wv O_WRONLY) as [w t2] eqn:H2.
  apply FdTable_alloc_cases in H2 as [(-> & -> & _)|(j & -> & Hj & ->)].
  - cbn [Z.ltb Z.compare] in H. unfold FdTable_close in H.
    rewrite (proj2 (fd_in_range _)), Nat2Z.id, list_lookup_insert_eq in H by lia. simpl in H.
    rewrite list_insert_insert_eq, (list_insert_id t i None) in H by done. by simplify_eq.
  - apply first_none_Some in Hj. rewrite (proj2 (Z.ltb_ge _ _)) in H by lia. injection H as <- <- <- <-.
    set (er := {| fe_vnode_ptr := rv; fe_offset := 0; fe_flags := O_RDONLY; fe_reserved := 0 |}) in *.
    set (ew := {| fe_vnode_ptr := wv; fe_offset := 0; fe_flags := O_WRONLY; fe_reserved := 0 |}) in *.
    assert (forall v, holders v (<[p := <[j := Some ew]> (<[i := Some er]> t)]> (fs_tables s)) =
      holders v (fs_tables s) + refers v (Some er) + refers v (Some ew)) as Hh.
    { intros v. rewrite (holders_put v _ p t), (holders_in_put v _ j None), (holders_in_put v t i None) by done.
      cbn [refers]. lia. }
    apply fd_ok_pipe_vnodes; [done..| | | |].
    + intros u [->|Hu]%elem_of_put; [rewrite !length_insert|]; by apply (fo_len _ Hs).
    + intros u e [->|Hu]%elem_of_put; [|by eauto].
      intros [[= ->]|[[= ->]|He]%elem_of_put]%elem_of_put; [by auto..|eauto].
    + intros v Hv1 Hv2. rewrite Hh. unfold er, ew. cbn [refers fe_vnode_ptr].
      destruct (Z.eqb_spec rv v), (Z.eqb_spec wv v); lia.
    + left. rewrite !Hh, Hhr, Hhw. unfold er, ew. cbn [refers fe_vnode_ptr]. rewrite !Z.eqb_refl.
      destruct (Z.eqb_spec rv wv), (Z.eqb_spec wv rv); split_and!; (done || lia).
Qed.

Lemma fd_step_ok s s' : fd_ok s -> fd_step s s' -> fd_ok s'.
Proof.
  intros Hs Hstep. destruct Hstep as [s0 p c r s1 He]. unfold fd_exec in He.
  destruct (fs_tables s0 !! p) as [t|] eqn:Hp; [|done]. cbn [mbind option_bind] in He.
  destruct c.
  - case_bool_decide; [|done]. destruct (FdTable_alloc t vn flags) as [r1 t'] eqn:Ha.
    injection He as _ <-. by eapply fd_ok_open.
  - destruct (_ && _) eqn:Hg; [|done]. apply andb_prop in Hg as [Hg Hw0]. apply andb_prop in Hg as [Hg Hr0].
    apply andb_prop in Hg as [Hg Hne]. apply andb_prop in Hg as [Hr Hw].
    destruct (sys_pipe _ t read_vn write_vn) as [[[r1 vs'] t'] lost] eqn:Ha. simplify_eq.
    apply bool_decide_eq_true in Hr, Hw. apply negb_true_iff, Z.eqb_neq in Hne, Hr0, Hw0.
    by eapply fd_ok_pipe.
  - destruct (FdTable_dup _ t old_fd) as [[r1 vs'] t'] eqn:Ha. simplify_eq. by eapply fd_ok_dup.
  - destruct (FdTable_dup2 _ t old_fd new_fd) as [[r1 vs'] t'] eqn:Ha. simplify_eq. by eapply fd_ok_dup2.
  - destruct (sys_close _ t fd) as [[r1 vs'] t'] eqn:Ha. simplify_eq. by eapply fd_ok_close.
  - unfold FdTable_clone_for_fork in He. simplify_eq. by eapply fd_ok_fork.
  - destruct (exit_fds _ t) as [vs' t'] eqn:Ha. simplify_eq. by eapply fd_ok_exit.
Qed.

Lemma create_fds_elem serial keyboard e :
  Some e ∈ create_fds serial keyboard ->
  (fe_vnode_ptr e = serial /\ serial <> 0) \/ (fe_vnode_ptr e = keyboard /\ keyboard <> 0).
Proof.
  unfold create_fds. destruct (Z.eqb_spec serial 0) as [->|Hs].
  - unfold FdTable_new. intros [Hx _]%elem_of_replicate. done.
  - intros He. assert (exists v1, In (fe_vnode_ptr e) [v1; serial; serial] /\
      v1 = if keyboard =? 0 then serial else keyboard) as (v1 & Hin & ->).
    + eexists. split; [|reflexivity].
      change (snd (FdTable_alloc (snd (FdTable_alloc (snd (FdTable_alloc FdTable_new
        (if keyboard =? 0 then serial else keyboard) O_RDONLY)) serial O_WRONLY)) serial O_WRONLY))
        with (Some {| fe_vnode_ptr := if keyboard =? 0 then serial else keyboard; fe_offset := 0; fe_flags := O_RDONLY; fe_reserved := 0 |}
          :: Some {| fe_vnode_ptr := serial; fe_offset := 0; fe_flags := O_WRONLY; fe_reserved := 0 |}
          :: Some {| fe_vnode_ptr := serial; fe_offset := 0; fe_flags := O_WRONLY; fe_reserved := 0 |}
          :: replicate 61 None) in He.
      apply elem_of_cons in He as [[= ->]|He]; [by left|].
      apply elem_of_cons in He as [[= ->]|He]; [by right; left|].
      apply elem_of_cons in He as [[= ->]|He]; [by right; left|].
      by apply elem_of_replicate in He as [? _].
    + destruct (Z.eqb_spec keyboard 0); simpl in Hin; naive_solver.
Qed.

Lemma fd_boot_ok vs serial keyboard :
  vs !! 0 = None -> (forall v, pipe_rc vs v = None) ->
  (serial <> 0 -> is_Some (vs !! serial)) -> (keyboard <> 0 -> is_Some (vs !! keyboard)) ->
  fd_ok (fd_boot vs serial keyboard).
Proof.
  intros H0 Hp Hser Hk. split; cbn [fd_boot fs_vnodes fs_tables fs_leaked].
  - done.
  - intros v c Hc. by rewrite Hp in Hc.
  - set_solver.
  - intros t Ht. apply list_elem_of_singleton in Ht as ->. unfold create_fds. case_match; reflexivity.
  - intros t e Ht He. apply list_elem_of_singleton in Ht as ->.
    apply create_fds_elem in He as [[-> ?]|[-> ?]]; auto.
Qed.

Lemma fd_run_rtc calls : forall s s', fd_run s calls = Some s' -> rtc fd_step s s'.
Proof.
  induction calls as [|[p c] calls IH]; intros s s' H; cbn [fd_run] in H; [by simplify_eq|].
  destruct (fd_exec s p c) as [[r s1]|] eqn:He; [|done].
  eapply rtc_l; [by econstructor|]. by apply IH.
Qed.

(** ** Claims *)

(** C25: after any sequence of open, pipe, dup, dup2, close, fork and exit calls of
    any processes, starting from the first process, the reference count of a pipe
    end is exactly the number of descriptors, over all processes, that refer to
    it.  So a reader sees end of file when, and only when, the last write
    descriptor is gone.  Left out are the pipes whose descriptors
    [sys_pipe] could not allocate, which it leaves with a count and no descriptor, and
    ends with 2^32 descriptors or more. *)
Theorem fd_refcounts_exact vs serial keyboard s v c :
  vs !! 0 = None -> (forall w, pipe_rc vs w = None) ->
  (serial <> 0 -> is_Some (vs !! serial)) -> (keyboard <> 0 -> is_Some (vs !! keyboard)) ->
  rtc fd_step (fd_boot vs serial keyboard) s ->
  pipe_rc (fs_vnodes s) v = Some c -> v ∉ fs_leaked s -> holders v (fs_tables s) < 2 ^ 32 ->
  c = holders v (fs_tables s).
Proof.
  intros H0 Hp Hser Hk Hrun Hc Hl Hlt.
  assert (fd_ok s) as Hs by (apply (rtc_invariant fd_step fd_ok (fd_boot vs serial keyboard) s); [by apply fd_boot_ok|apply fd_step_ok|done]).
  rewrite (fo_rc _ Hs v c Hc Hl). apply Z.mod_small. split; [|done].
  apply zsum_nonneg, holders_in_nonneg.
Qed.

Definition demo_vnodes : gmap Z VNode := {[ 7 := {| vn_ops := OTHER_OPS; vn_refcount := 1 |} ]}.

(** A pipeline: pipe, fork, each side closes the end it does not use, the child
    duplicates its write end over its standard output. *)
Definition demo_calls : list (nat * fd_call) :=
  [(0%nat, CallPipe 100 200); (0%nat, CallFork); (1%nat, CallClose 3);
   (1%nat, CallDup2 4 1); (0%nat, CallClose 4)].

Lemma fd_refcounts_exact_witness :
  exists s, fd_run (fd_boot demo_vnodes 7 0) demo_calls = Some s /\
    pipe_rc (fs_vnodes s) 200 = Some 2 /\ 2 = holders 200 (fs_tables s).
Proof.
  assert (match fd_run (fd_boot demo_vnodes 7 0) demo_calls with
          | Some s => bool_decide (pipe_rc (fs_vnodes s) 200 = Some 2) &&
              negb (bool_decide (200 ∈ fs_leaked s)) && (holders 200 (fs_tables s) <? 2 ^ 32)
          | None => false
          end = true) as H by (vm_compute; reflexivity).
  destruct (fd_run (fd_boot demo_vnodes 7 0) demo_calls) as [s|] eqn:Hrun; [|done].
  apply andb_prop in H as [H Hh]. apply andb_prop in H as [Hc Hl].
  apply bool_decide_eq_true in Hc. apply negb_true_iff in Hl. exists s. split; [done|].
  split; [done|].
  apply (fd_refcounts_exact demo_vnodes 7 0 s 200 2).
  - reflexivity.
  - intros w. unfold pipe_rc, demo_vnodes. destruct (decide (w = 7)) as [->|].
    + reflexivity.
    + by rewrite lookup_singleton_ne.
  - intros _. by exists {| vn_ops := OTHER_OPS; vn_refcount := 1 |}.
  - done.
  - by eapply fd_run_rtc.
  - done.
  - by apply bool_decide_eq_false in Hl.
  - by apply Z.ltb_lt.
Defined.

(** [dup2] makes the new descriptor refer to the same vnode, with the old one's
    offset and flags, keeps every other descriptor, and moves one reference from
    the vnode it replaced to the vnode it copied. *)
Theorem dup2_aliases vs t old_fd new_fd e :
  length t = 64%nat -> FdTable_get t old_fd = Some e -> 0 <= new_fd < 64 -> old_fd <> new_fd ->
  exists vs' t', FdTable_dup2 vs t old_fd new_fd = (new_fd, vs', t') /\
    FdTable_get t' new_fd = Some e /\
    (forall fd, fd <> new_fd -> FdTable_get t' fd = FdTable_get t fd) /\
    forall v c, pipe_rc vs v = Some (wrap32 c) -> pipe_rc vs' v =
      Some (wrap32 (c + refers v (Some e) - refers v (FdTable_get t new_fd))).
Proof.
  intros Hlen Hg Hn Hne. unfold FdTable_dup2. rewrite (proj2 (Z.eqb_neq _ _) Hne), Hg.
  rewrite (proj2 (fd_in_range new_fd) Hn). do 2 eexists. split; [reflexivity|].
  assert (is_Some (t !! Z.to_nat new_fd)) as [o Ho] by (apply lookup_lt_is_Some; lia). split_and!.
  - unfold FdTable_get. rewrite (proj2 (fd_in_range new_fd) Hn), list_lookup_insert_eq by lia. done.
  - intros fd Hfd. unfold FdTable_get. destruct (fd_out_of_range fd) eqn:Hr; [done|].
    apply fd_in_range in Hr. by rewrite list_lookup_insert_ne by lia.
  - intros v c Hc. unfold FdTable_get. rewrite (proj2 (fd_in_range new_fd) Hn), Ho.
    cbn [mjoin option_join refers]. unfold vnode_inc_ref, vnode_dec_ref.
    destruct o as [old|]; rewrite !pipe_rc_bump, Hc, ?(Z.eqb_sym v);
      cbn [refers fmap option_fmap option_map]; repeat case_match;
      rewrite ?wrap32_add_l, <- ?Z.add_assoc, ?wrap32_add_l; do 2 f_equal; lia.
Qed.

Lemma dup2_aliases_witness :
  exists vs' t', FdTable_dup2 demo_vnodes (create_fds 7 0) 1 5 = (5, vs', t') /\
    fe_vnode_ptr <$> FdTable_get t' 5 = Some 7.
Proof.
  destruct (dup2_aliases demo_vnodes (create_fds 7 0) 1 5
    {| fe_vnode_ptr := 7; fe_offset := 0; fe_flags := O_WRONLY; fe_reserved := 0 |})
    as (vs' & t' & Hd & Hg & _); [reflexivity|reflexivity|lia|lia|].
  exists vs', t'. by rewrite Hd, Hg.
Defined.
