(* ===== verification/ProcTable.v ===== *)
(** * Processes by pid, and the children of a process

    The global pid table of crates/proc/src/ptable.rs and the list of children
    kept in a [Process] (crates/proc/src/process.rs). *)

From Stdlib Require Import ZArith Lia.
From stdpp Require Import prelude gmap list.
From S2P Require Import Prelude.

Local Open Scope Z_scope.

(** ** The pid table *)

Definition PTABLE_BUCKETS : Z := 64.

Definition PTABLE_BUCKET_CAP : Z := 16.

Record PTableEntry := { pte_pid : Z; pte_proc_ptr : Z }.

Notation PBucket := (list (option PTableEntry)).
Notation PTable := (list (list (option PTableEntry))).

Definition PTABLE_new : PTable :=
  replicate (Z.to_nat PTABLE_BUCKETS) (replicate (Z.to_nat PTABLE_BUCKET_CAP) None).

(** [pid.wrapping_mul(0x9e37_79b9) >> (32 - 6)]. *)
Definition ptable_bucket (pid : Z) : nat := Z.to_nat (Z.shiftr (wrap32 (pid * 0x9e3779b9)) 26).

(** The slot [ptable_insert] writes: that of the pid, else the first free one. *)
Fixpoint bucket_target (b : PBucket) (pid : Z) (i : nat) (target : option nat) : option nat :=
  match b with
  | [] => target
  | Some e :: b' => if pte_pid e =? pid then Some i else bucket_target b' pid (S i) target
  | None :: b' =>
      bucket_target b' pid (S i) (match target with None => Some i | Some _ => target end)
  end.

Definition bucket_insert (b : PBucket) (pid proc : Z) : PBucket :=
  match bucket_target b pid 0 None with
  | Some i => <[i := Some {| pte_pid := pid; pte_proc_ptr := proc |}]> b
  | None => b
  end.

Definition bucket_remove (b : PBucket) (pid : Z) : PBucket :=
  (fun slot => match slot with
               | Some e => if pte_pid e =? pid then None else Some e
               | None => None
               end) <$> b.

Fixpoint bucket_find (b : PBucket) (pid : Z) : option Z :=
  match b with
  | [] => None
  | Some e :: b' => if pte_pid e =? pid then Some (pte_proc_ptr e) else bucket_find b' pid
  | None :: b' => bucket_find b' pid
  end.

Definition ptable_insert (t : PTable) (pid proc : Z) : PTable :=
  alter (fun b => bucket_insert b pid proc) (ptable_bucket pid) t.

Definition ptable_remove (t : PTable) (pid : Z) : PTable :=
  alter (fun b => bucket_remove b pid) (ptable_bucket pid) t.

Definition ptable_find (t : PTable) (pid : Z) : option Z :=
  b ← t !! ptable_bucket pid; bucket_find b pid.

(** ** Children *)

Definition MAX_CHILDREN : Z := 32.

Record Children := { ch_slots : list Z; ch_count : Z }.

Definition Children_new : Children :=
  {| ch_slots := replicate (Z.to_nat MAX_CHILDREN) 0; ch_count := 0 |}.

(** The first slot that holds [x]. *)
Fixpoint slot_of (x : Z) (l : list Z) : option nat :=
  match l with
  | [] => None
  | y :: l' => if y =? x then Some 0%nat else S <$> slot_of x l'
  end.

Definition add_child (c : Children) (child_pid : Z) : bool * Children :=
  match slot_of 0 (ch_slots c) with
  | Some i => (true, {| ch_slots := <[i := child_pid]> (ch_slots c); ch_count := wrap32 (ch_count c + 1) |})
  | None => (false, c)
  end.

Definition remove_child (c : Children) (child_pid : Z) : Children :=
  match slot_of child_pid (ch_slots c) with
  | Some i => {| ch_slots := <[i := 0]> (ch_slots c); ch_count := wrap32 (ch_count c - 1) |}
  | None => c
  end.

Definition children_full (c : Children) : bool := forallb (fun s => negb (s =? 0)) (ch_slots c).

(** ** The pid table as a partial map *)

Lemma ptable_bucket_lt pid : (ptable_bucket pid < 64)%nat.
Proof.
  unfold ptable_bucket. assert (0 <= Z.shiftr (wrap32 (pid * 0x9e3779b9)) 26 < 2 ^ 6); [|lia].
  apply shiftr_range; [lia..|]. apply Z.mod_pos_bound. lia.
Qed.

Definition slot_pid (o : option PTableEntry) : option Z := pte_pid <$> o.

(** What the scan for a slot finds. *)
Lemma bucket_target_spec b pid : forall i tgt,
  match bucket_target b pid i tgt with
  | Some k =>
      (exists j, k = (i + j)%nat /\ slot_pid <$> b !! j = Some (Some pid) /\
        forall m, (m < j)%nat -> slot_pid <$> b !! m <> Some (Some pid)) \/
      ((forall m, slot_pid <$> b !! m <> Some (Some pid)) /\
       (tgt = Some k \/ (tgt = None /\ exists j, k = (i + j)%nat /\ b !! j = Some None)))
  | None => tgt = None /\ (forall m, slot_pid <$> b !! m <> Some (Some pid)) /\
      forall m, b !! m <> Some None
  end.
Proof.
  induction b as [|[e|] b IH]; intros i tgt; cbn [bucket_target].
  - destruct tgt as [k|]; [right|]; split_and!; try done; by left.
  - destruct (Z.eqb_spec (pte_pid e) pid) as [Heq|Hne].
    + left. exists 0%nat. split_and!; [lia | simpl; unfold slot_pid; simpl; by rewrite Heq | lia].
    + specialize (IH (S i) tgt). destruct (bucket_target b pid (S i) tgt) as [k|].
      * destruct IH as [(j & -> & Hj & Hm)|(Hm & Ht)]; [left|right].
        -- exists (S j). split_and!; [lia|done|]. intros [|m] Hlt; [simpl; unfold slot_pid; simpl; congruence|].
           apply Hm. lia.
        -- split; [intros [|m]; [simpl; unfold slot_pid; simpl; congruence|apply Hm]|].
           destruct Ht as [->|(-> & j & -> & Hj)]; [by left|right]. split; [done|]. exists (S j). split; [lia|done].
      * destruct IH as (-> & Hm & Hn). split_and!; [done|..].
        -- intros [|m]; [simpl; unfold slot_pid; simpl; congruence|apply Hm].
        -- intros [|m]; [done|apply Hn].
  - specialize (IH (S i) (match tgt with None => Some i | Some _ => tgt end)).
    destruct (bucket_target b pid (S i) _) as [k|].
    + destruct IH as [(j & -> & Hj & Hm)|(Hm & Ht)]; [left|right].
      * exists (S j). split_and!; [lia|done|]. intros [|m] Hlt; [done|]. apply Hm. lia.
      * split; [intros [|m]; [done|apply Hm]|].
        destruct tgt as [k0|]; [destruct Ht as [Ht|[Ht _]]; [by left|done]|right; split; [done|]].
        destruct Ht as [[= <-]|[Ht _]]; [|done]. exists 0%nat. split; [lia|done].
    + destruct IH as (Ht & _). by destruct tgt.
Qed.

Lemma bucket_find_None b pid :
  (forall m, slot_pid <$> b !! m <> Some (Some pid)) -> bucket_find b pid = None.
Proof.
  induction b as [|o b IH]; intros Hm; [done|]. pose proof (Hm 0%nat) as H0.
  specialize (IH (fun m => Hm (S m))). destruct o as [e|]; cbn [bucket_find]; [|done].
  destruct (Z.eqb_spec (pte_pid e) pid) as [<-|]; [done|exact IH].
Qed.

Lemma bucket_find_insert_eq b pid p i o :
  b !! i = Some o -> (forall m, (m < i)%nat -> slot_pid <$> b !! m <> Some (Some pid)) ->
  bucket_find (<[i := Some {| pte_pid := pid; pte_proc_ptr := p |}]> b) pid = Some p.
Proof.
  revert i. induction b as [|[e|] b IH]; intros [|i] Hi Hm; try done;
    cbn [insert list_insert bucket_find pte_pid pte_proc_ptr]; rewrite ?Z.eqb_refl; try done.
  - destruct (Z.eqb_spec (pte_pid e) pid) as [<-|]; [by exfalso; apply (Hm 0%nat); [lia|]|].
    apply IH; [done|]. intros m ?. apply (Hm (S m)). lia.
  - apply IH; [done|]. intros m ?. apply (Hm (S m)). lia.
Qed.

Lemma bucket_find_insert_ne b pid p q i o :
  b !! i = Some o -> slot_pid o <> Some q -> pid <> q ->
  bucket_find (<[i := Some {| pte_pid := pid; pte_proc_ptr := p |}]> b) q = bucket_find b q.
Proof.
  revert i. induction b as [|a b IH]; intros [|i] Hi Ho Hne; try done; simplify_eq/=.
  - destruct (Z.eqb_spec pid q); [done|]. destruct o as [e|]; [|done]. unfold slot_pid in Ho. simpl in Ho.
    destruct (Z.eqb_spec (pte_pid e) q); [congruence|done].
  - destruct a as [e|]; [case_match; [done|]|]; by eapply IH.
Qed.

Lemma bucket_find_remove b pid q :
  bucket_find (bucket_remove b pid) q = if q =? pid then None else bucket_find b q.
Proof.
  induction b as [|[e|] b IH]; [by case_match| |exact IH].
  cbn [bucket_remove fmap list_fmap bucket_find]. unfold bucket_remove in IH.
  destruct (Z.eqb_spec (pte_pid e) pid) as [He|He]; cbn [bucket_find]; rewrite IH.
  - rewrite He, (Z.eqb_sym pid q). by case_match.
  - destruct (Z.eqb_spec (pte_pid e) q), (Z.eqb_spec q pid); congruence || done.
Qed.

(** There is a slot for [pid]: its own or a free one. *)
Definition ptable_room (t : PTable) (pid : Z) : bool :=
  match t !! ptable_bucket pid with
  | Some b => match bucket_target b pid 0 None with Some _ => true | None => false end
  | None => false
  end.

Lemma ptable_find_alter_ne t f pid q :
  ptable_bucket q <> ptable_bucket pid -> ptable_find (alter f (ptable_bucket pid) t) q = ptable_find t q.
Proof. intros Hne. unfold ptable_find. by rewrite list_lookup_alter_ne by done. Qed.

Lemma ptable_find_insert t pid p q :
  length t = 64%nat ->
  ptable_find (ptable_insert t pid p) q =
  if (q =? pid) && ptable_room t pid then Some p else ptable_find t q.
Proof.
  intros Hlen. pose proof (ptable_bucket_lt pid) as Hlt. rewrite <- Hlen in Hlt.
  destruct (lookup_lt_is_Some_2 t _ Hlt) as [b Hb]. unfold ptable_insert, ptable_room. rewrite Hb.
  destruct (decide (ptable_bucket q = ptable_bucket pid)) as [Hq|Hq].
  2: { rewrite ptable_find_alter_ne by done. destruct (Z.eqb_spec q pid); [congruence|done]. }
  unfold ptable_find. rewrite Hq, list_lookup_alter_eq, Hb. cbn [fmap option_fmap option_map mbind option_bind].
  unfold bucket_insert. pose proof (bucket_target_spec b pid 0 None) as Hs.
  destruct (bucket_target b pid 0 None) as [i|]; [|by rewrite andb_false_r].
  rewrite andb_true_r. destruct (Z.eqb_spec q pid) as [->|Hne].
  - destruct Hs as [(j & -> & Hj & Hm)|(Hm & [?|(_ & j & -> & Hj)])]; [|done|].
    + destruct (b !! j) as [o|] eqn:Ho; [|done]. by eapply bucket_find_insert_eq.
    + eapply bucket_find_insert_eq; [done|]. intros. apply Hm.
  - destruct Hs as [(j & -> & Hj & Hm)|(Hm & [?|(_ & j & -> & Hj)])]; [|done|].
    + destruct (b !! j) as [o|] eqn:Ho; [|done]. eapply bucket_find_insert_ne; [done| |done].
      simpl in Hj. congruence.
    + by eapply bucket_find_insert_ne.
Qed.

Lemma ptable_find_remove t pid q :
  length t = 64%nat ->
  ptable_find (ptable_remove t pid) q = if q =? pid then None else ptable_find t q.
Proof.
  intros Hlen. destruct (decide (ptable_bucket q = ptable_bucket pid)) as [Hq|Hq].
  - unfold ptable_remove, ptable_find. rewrite Hq, list_lookup_alter_eq.
    destruct (t !! ptable_bucket pid) as [b|]; [|by case_match]. apply bucket_find_remove.
  - unfold ptable_remove. rewrite ptable_find_alter_ne by done.
    destruct (Z.eqb_spec q pid); [congruence|done].
Qed.

Lemma ptable_length_insert t pid p : length (ptable_insert t pid p) = length t.
Proof. apply length_alter. Qed.

Lemma ptable_length_remove t pid : length (ptable_remove t pid) = length t.
Proof. apply length_alter. Qed.

Lemma PTABLE_new_find q : ptable_find PTABLE_new q = None.
Proof.
  unfold ptable_find, PTABLE_new. rewrite lookup_replicate_2 by apply ptable_bucket_lt.
  apply bucket_find_None. intros m Hm. destruct (replicate _ None !! m) as [o|] eqn:Ho; [|done].
  apply lookup_replicate in Ho as [-> _]. done.
Qed.

(** The table [t] holds the map [m]. *)
Definition ptable_models (t : PTable) (m : gmap Z Z) : Prop :=
  length t = 64%nat /\ forall q, ptable_find t q = m !! q.

Inductive ptable_op := PInsert (pid proc : Z) | PRemove (pid : Z).

Definition ptable_exec (t : PTable) (o : ptable_op) : PTable :=
  match o with PInsert pid p => ptable_insert t pid p | PRemove pid => ptable_remove t pid end.

(** What the map does: an insert that finds no slot is dropped. *)
Definition map_exec (t : PTable) (m : gmap Z Z) (o : ptable_op) : gmap Z Z :=
  match o with
  | PInsert pid p => if ptable_room t pid then <[pid := p]> m else m
  | PRemove pid => delete pid m
  end.

Fixpoint ptable_run (t : PTable) (m : gmap Z Z) (os : list ptable_op) : PTable * gmap Z Z :=
  match os with
  | [] => (t, m)
  | o :: os' => ptable_run (ptable_exec t o) (map_exec t m o) os'
  end.

Lemma ptable_models_exec t m o : ptable_models t m -> ptable_models (ptable_exec t o) (map_exec t m o).
Proof.
  intros [Hlen Hf]. destruct o as [pid p|pid]; cbn [ptable_exec map_exec]; split.
  - by rewrite ptable_length_insert.
  - intros q. rewrite ptable_find_insert by done. destruct (ptable_room t pid).
    + rewrite andb_true_r. destruct (Z.eqb_spec q pid) as [->|]; [by rewrite lookup_insert_eq|].
      rewrite lookup_insert_ne by done. apply Hf.
    + rewrite andb_false_r. apply Hf.
  - by rewrite ptable_length_remove.
  - intros q. rewrite ptable_find_remove by done. destruct (Z.eqb_spec q pid) as [->|].
    + by rewrite lookup_delete_eq.
    + rewrite lookup_delete_ne by done. apply Hf.
Qed.

Lemma count_slots_insert l i x y :
  l !! i = Some x ->
  (length (filter (fun z => z <> 0%Z) (<[i := y]> l)) + (if decide (x <> 0%Z) then 1 else 0) =
   length (filter (fun z => z <> 0%Z) l) + (if decide (y <> 0%Z) then 1 else 0))%nat.
Proof.
  revert i. induction l as [|a l IH]; intros [|i] Hi; try done.
  - injection Hi as <-. change (<[0%nat := y]> (a :: l)) with (y :: l). rewrite !filter_cons. repeat case_decide; simpl; lia.
  - specialize (IH i Hi). change (<[S i := y]> (a :: l)) with (a :: <[i := y]> l).
    rewrite !filter_cons. destruct (decide (a <> 0%Z)); cbn [length]; lia.
Qed.

Lemma slot_of_Some x l i : slot_of x l = Some i -> l !! i = Some x.
Proof.
  revert i. induction l as [|a l IH]; intros i; [done|]. cbn [slot_of].
  destruct (Z.eqb_spec a x) as [->|]; [by intros [= <-]|].
  destruct (slot_of x l) as [k|]; [|done]. intros [= <-]. by apply IH.
Qed.

Lemma slot_of_None x l : slot_of x l = None -> x ∉ l.
Proof.
  induction l as [|a l IH]; [set_solver|]. cbn [slot_of].
  destruct (Z.eqb_spec a x) as [->|]; [done|]. destruct (slot_of x l); [done|]. set_solver.
Qed.

(** The cached count is the number of occupied slots. *)
Definition children_ok (c : Children) : Prop :=
  length (ch_slots c) = 32%nat /\ ch_count c = Z.of_nat (length (filter (fun z => z <> 0) (ch_slots c))).

(** ** Claims *)

(** The hashed pid table is a partial map from pids to processes: after any
    sequence of inserts and removals a lookup gives what the map gives, where an
    insert is lost only when no slot of its bucket is free. *)
Theorem ptable_refines_map os t m :
  ptable_run PTABLE_new ∅ os = (t, m) -> forall q, ptable_find t q = m !! q.
Proof.
  intros Hrun. assert (ptable_models t m) as [_ H]; [|done]. revert Hrun.
  assert (ptable_models PTABLE_new ∅) as H0 by (split; [done|]; intros q; by rewrite PTABLE_new_find, lookup_empty).
  revert H0. generalize PTABLE_new as t0, (∅ : gmap Z Z) as m0.
  induction os as [|o os IH]; intros t0 m0 H0 Hrun; cbn [ptable_run] in Hrun; [by simplify_eq|].
  eapply IH; [|done]. by apply ptable_models_exec.
Qed.

Lemma ptable_refines_map_witness :
  ptable_find (fst (ptable_run PTABLE_new ∅ [PInsert 5 500; PInsert 94 940; PRemove 5])) 94 = Some 940.
Proof.
  destruct (ptable_run PTABLE_new ∅ [PInsert 5 500; PInsert 94 940; PRemove 5]) as [t m] eqn:Hrun.
  cbn [fst]. rewrite (ptable_refines_map _ t m Hrun 94).
  assert (m !! 94 = snd (ptable_run PTABLE_new ∅ [PInsert 5 500; PInsert 94 940; PRemove 5]) !! 94) as ->
    by by rewrite Hrun.
  vm_compute. reflexivity.
Defined.

(** Adding and removing children keeps the cached count equal to the number
    of occupied slots; a child is refused exactly when all 32 slots are taken,
    which is what [children_full] tests. *)
Theorem children_count_exact c pid :
  children_ok c -> pid <> 0 ->
  children_ok (snd (add_child c pid)) /\ children_ok (remove_child c pid) /\
  fst (add_child c pid) = negb (children_full c) /\
  (fst (add_child c pid) = true -> pid ∈ ch_slots (snd (add_child c pid))).
Proof.
  intros [Hlen Hcnt] Hp. split_and!.
  - unfold add_child. destruct (slot_of 0 (ch_slots c)) as [i|] eqn:Hi; [|done].
    apply slot_of_Some in Hi. pose proof (count_slots_insert _ _ _ pid Hi) as Hc.
    rewrite decide_False in Hc by auto. rewrite decide_True in Hc by done.
    split; cbn [snd ch_slots ch_count]; [by rewrite length_insert|]. rewrite Hcnt.
    pose proof (length_filter (fun z => z <> 0) (ch_slots c)). unfold wrap32, wrapw. rewrite Z.mod_small; lia.
  - unfold remove_child. destruct (slot_of pid (ch_slots c)) as [i|] eqn:Hi; [|done].
    apply slot_of_Some in Hi. pose proof (count_slots_insert _ _ _ 0 Hi) as Hc.
    rewrite decide_True in Hc by done. rewrite decide_False in Hc by auto.
    split; cbn [ch_slots ch_count]; [by rewrite length_insert|]. rewrite Hcnt.
    pose proof (length_filter (fun z => z <> 0) (ch_slots c)). unfold wrap32, wrapw. rewrite Z.mod_small; lia.
  - unfold add_child, children_full. destruct (slot_of 0 (ch_slots c)) as [i|] eqn:Hi; cbn [fst].
    + apply slot_of_Some in Hi. symmetry. apply negb_true_iff, not_true_is_false. intros Hf.
      rewrite forallb_forall in Hf. apply list_elem_of_lookup_2, list_elem_of_In in Hi.
      apply Hf in Hi. done.
    + apply slot_of_None in Hi. symmetry. apply negb_false_iff, forallb_forall. intros x Hx.
      apply list_elem_of_In in Hx. apply negb_true_iff, Z.eqb_neq. congruence.
  - unfold add_child. destruct (slot_of 0 (ch_slots c)) as [i|] eqn:Hi; [|done]. intros _.
    apply slot_of_Some, lookup_lt_Some in Hi. cbn [snd ch_slots].
    apply list_elem_of_lookup_2 with i. by apply list_lookup_insert_eq.
Qed.

Lemma children_count_exact_witness : children_ok (snd (add_child Children_new 7)).
Proof. apply (children_count_exact Children_new 7); [split; reflexivity | lia]. Defined.
