(* ===== verification/Wait.v ===== *)
(** * Exit and wait4

    [Process::exit] (crates/proc/src/process.rs) on the children's threads and
    [sys_wait4] (crates/proc/src/wait.rs) on the parent's, as the atomic steps of
    threads on different processors. *)

From Stdlib Require Import ZArith Lia.
From stdpp Require Import prelude gmap list.
From S2P Require Import Prelude ProcTable.

Local Open Scope Z_scope.

Definition WNOHANG : Z := 1.

Definition ECHILD : Z := -10.

Definition SIGCHLD : Z := 17.

(** [((exit_code as u32) & 0xFF) << 8]. *)
Definition encode_exit_status (exit_code : Z) : Z := Z.shiftl (Z.land (wrap32 exit_code) 0xFF) 8.

Inductive ProcessState := Running | Zombie.

(** The fields of a [Process] this protocol uses. *)
Record Process := {
  pr_pid : Z;
  pr_state : ProcessState;
  pr_exit_code : Z;
  pr_parent_pid : Z
}.

(** Where a child's thread is: in user code, or in [exit] before the store of
    its code, the lookup of its parent, the three notifications, or past them. *)
Inductive exit_pc :=
| XUser
| XCode (code : Z)
| XFind
| XRaise
| XBump
| XWake
| XDead.

(** Where the parent's thread is: in user code, or in [sys_wait4] with its
    arguments, the generation it sampled and the slot it looks at next. *)
Inductive wait_pc :=
| PUser
| PReturned (r : Z)
| WTop (pid options : Z)
| WSample (pid options : Z)
| WScan (pid options seen : Z) (i : nat)
| WReap (child code : Z)
| WBlockIf (pid options seen : Z)
| WSleep (pid options : Z).

(** The parent, its children and the tables they share.  [w_reaped] records the
    pids and status words handed out. *)
Record wait_system := {
  w_self : Z;
  w_ptable : PTable;
  w_procs : gmap Z Process;
  w_threads : gmap Z exit_pc;
  w_children : Children;
  w_child_exit_seq : Z;
  w_pending : Z;
  w_pc : wait_pc;
  w_reaped : list (Z * Z)
}.

Definition set_pc (s : wait_system) (c : wait_pc) : wait_system :=
  {| w_self := w_self s; w_ptable := w_ptable s; w_procs := w_procs s; w_threads := w_threads s;
     w_children := w_children s; w_child_exit_seq := w_child_exit_seq s; w_pending := w_pending s;
     w_pc := c; w_reaped := w_reaped s |}.

Definition set_thread (s : wait_system) (c : Z) (x : exit_pc) : wait_system :=
  {| w_self := w_self s; w_ptable := w_ptable s; w_procs := w_procs s; w_threads := <[c := x]> (w_threads s);
     w_children := w_children s; w_child_exit_seq := w_child_exit_seq s; w_pending := w_pending s;
     w_pc := w_pc s; w_reaped := w_reaped s |}.

Definition set_procs (s : wait_system) (procs : gmap Z Process) : wait_system :=
  {| w_self := w_self s; w_ptable := w_ptable s; w_procs := procs; w_threads := w_threads s;
     w_children := w_children s; w_child_exit_seq := w_child_exit_seq s; w_pending := w_pending s;
     w_pc := w_pc s; w_reaped := w_reaped s |}.

Definition set_notice (s : wait_system) (seq pending : Z) : wait_system :=
  {| w_self := w_self s; w_ptable := w_ptable s; w_procs := w_procs s; w_threads := w_threads s;
     w_children := w_children s; w_child_exit_seq := seq; w_pending := pending;
     w_pc := w_pc s; w_reaped := w_reaped s |}.

(** [wake_one] on the parent's own wait queue, where only its thread sleeps. *)
Definition wake_parent (s : wait_system) (push_ok : bool) : wait_system :=
  match w_pc s with
  | WSleep pid options => if push_ok then set_pc s (WTop pid options) else s
  | _ => s
  end.

(** ** [Process::exit], on the thread of the process at [c] *)

Definition set_state (st : ProcessState) (p : Process) : Process :=
  {| pr_pid := pr_pid p; pr_state := st; pr_exit_code := pr_exit_code p; pr_parent_pid := pr_parent_pid p |}.

Definition set_code (code : Z) (p : Process) : Process :=
  {| pr_pid := pr_pid p; pr_state := pr_state p; pr_exit_code := code; pr_parent_pid := pr_parent_pid p |}.

Definition exit_act (s : wait_system) (c : Z) (x : exit_pc) (push_ok : bool) : option wait_system :=
  match x with
  | XUser => None
  | XCode code => Some (set_thread (set_procs s (alter (set_code code) c (w_procs s))) c XFind)
  | XFind =>
      match ptable_find (w_ptable s) (w_self s) with
      | Some _ => Some (set_thread s c XRaise)
      | None => Some (set_thread s c XDead)
      end
  | XRaise => Some (set_thread (set_notice s (w_child_exit_seq s) (Z.lor (w_pending s) (2 ^ SIGCHLD))) c XBump)
  | XBump => Some (set_thread (set_notice s (w_child_exit_seq s + 1) (w_pending s)) c XWake)
  | XWake => Some (set_thread (wake_parent s push_ok) c XDead)
  | XDead => None
  end.

(** ** [sys_wait4], on the parent's thread *)

(** The child in a slot, when it passes the pid filter and is a zombie. *)
Definition zombie_in_slot (s : wait_system) (pid child_pid : Z) : option Z :=
  if child_pid =? 0 then None else
  if (0 <? pid) && negb (child_pid =? wrap32 pid) then None else
  c ← ptable_find (w_ptable s) child_pid;
  p ← w_procs s !! c;
  match pr_state p with Zombie => Some (pr_exit_code p) | Running => None end.

(** [reap_zombie]: out of the list of children and the pid table, and freed. *)
Definition reap_zombie (s : wait_system) (child_pid : Z) : wait_system :=
  match ptable_find (w_ptable s) child_pid with
  | None => s
  | Some c =>
      {| w_self := w_self s; w_ptable := ptable_remove (w_ptable s) child_pid;
         w_procs := delete c (w_procs s); w_threads := w_threads s;
         w_children := remove_child (w_children s) child_pid;
         w_child_exit_seq := w_child_exit_seq s; w_pending := w_pending s;
         w_pc := w_pc s; w_reaped := w_reaped s |}
  end.

Definition record_status (s : wait_system) (child_pid code : Z) : wait_system :=
  {| w_self := w_self s; w_ptable := w_ptable s; w_procs := w_procs s; w_threads := w_threads s;
     w_children := w_children s; w_child_exit_seq := w_child_exit_seq s; w_pending := w_pending s;
     w_pc := w_pc s; w_reaped := w_reaped s ++ [(child_pid, encode_exit_status code)] |}.

Definition wait_act (s : wait_system) : option wait_system :=
  match w_pc s with
  | PUser => None
  | PReturned _ => Some (set_pc s PUser)
  | WTop pid options =>
      if ch_count (w_children s) =? 0 then Some (set_pc s (PReturned ECHILD))
      else Some (set_pc s (WSample pid options))
  | WSample pid options => Some (set_pc s (WScan pid options (w_child_exit_seq s) 0))
  | WScan pid options seen i =>
      match ch_slots (w_children s) !! i with
      | Some child_pid =>
          match zombie_in_slot s pid child_pid with
          | Some code => Some (set_pc s (WReap child_pid code))
          | None => Some (set_pc s (WScan pid options seen (S i)))
          end
      | None =>
          if Z.land options WNOHANG =? 0 then Some (set_pc s (WBlockIf pid options seen))
          else Some (set_pc s (PReturned 0))
      end
  | WReap child_pid code => Some (set_pc (reap_zombie (record_status s child_pid code) child_pid) (PReturned child_pid))
  | WBlockIf pid options seen =>
      if wrap32 (w_child_exit_seq s) =? wrap32 seen then Some (set_pc s (WSleep pid options))
      else Some (set_pc s (WTop pid options))
  | WSleep _ _ => None
  end.

(** Entry: a pid below -1 selects a process group, which is not supported. *)
Definition sys_wait4 (s : wait_system) (pid options : Z) : wait_system :=
  if pid <? -1 then set_pc s (PReturned ECHILD) else set_pc s (WTop pid options).

(** The tables after [sys_fork] or [sys_clone] of the process at [c]. *)
Definition fork_child (s : wait_system) (child_pid c : Z) : option wait_system :=
  if children_full (w_children s) then None else
  Some {| w_self := w_self s; w_ptable := ptable_insert (w_ptable s) child_pid c;
     w_procs := <[c := {| pr_pid := child_pid; pr_state := Running; pr_exit_code := 0;
                          pr_parent_pid := w_self s |}]> (w_procs s);
     w_threads := <[c := XUser]> (w_threads s);
     w_children := snd (add_child (w_children s) child_pid);
     w_child_exit_seq := w_child_exit_seq s; w_pending := w_pending s;
     w_pc := w_pc s; w_reaped := w_reaped s |}.

Inductive wait_event :=
| ParentFork (child_pid c : Z)
| ParentWait (pid options : Z)
| ParentStep
| ChildExit (c code : Z)
| ChildStep (c : Z) (push_ok : bool).

Definition wait_exec (s : wait_system) (e : wait_event) : option wait_system :=
  match e with
  | ParentFork child_pid c =>
      match w_pc s with
      | PUser =>
          if (0 <? child_pid) && (child_pid <? 2 ^ 32) && negb (child_pid =? w_self s) &&
             (match w_threads s !! c with None | Some XDead => true | _ => false end) &&
             bool_decide (w_procs s !! c = None)
          then fork_child s child_pid c else None
      | _ => None
      end
  | ParentWait pid options =>
      match w_pc s with PUser => Some (sys_wait4 s pid options) | _ => None end
  | ParentStep => wait_act s
  | ChildExit c code =>
      match w_threads s !! c with
      | Some XUser => Some (set_thread (set_procs s (alter (set_state Zombie) c (w_procs s))) c (XCode code))
      | _ => None
      end
  | ChildStep c push_ok => x ← w_threads s !! c; exit_act s c x push_ok
  end.

Inductive wait_step (allowed : wait_event -> Prop) : wait_system -> wait_system -> Prop :=
| wait_step_event s e s' : allowed e -> wait_exec s e = Some s' -> wait_step allowed s s'.

(** The parent, listed in the pid table, before its first fork. *)
Definition wait_boot (self c : Z) : wait_system :=
  {| w_self := self; w_ptable := ptable_insert PTABLE_new self c; w_procs := ∅; w_threads := ∅;
     w_children := Children_new; w_child_exit_seq := 0; w_pending := 0; w_pc := PUser; w_reaped := [] |}.

Fixpoint wait_run (s : wait_system) (es : list wait_event) : option wait_system :=
  match es with
  | [] => Some s
  | e :: es' => s' ← wait_exec s e; wait_run s' es'
  end.

(** ** No exit is slept through *)

Definition pre_bump (x : option exit_pc) : Prop :=
  match x with Some (XCode _ | XFind | XRaise | XBump) => True | _ => False end.

Definition pre_wake (x : option exit_pc) : Prop :=
  match x with Some (XCode _ | XFind | XRaise | XBump | XWake) => True | _ => False end.

Lemma pre_bump_wake x : pre_bump x -> pre_wake x.
Proof. by destruct x as [[]|]. Qed.

Definition is_zombie (s : wait_system) (c : Z) : Prop :=
  exists p, w_procs s !! c = Some p /\ pr_state p = Zombie.

Lemma is_zombie_dec s c : is_zombie s c \/ ~ is_zombie s c.
Proof.
  unfold is_zombie. destruct (w_procs s !! c) as [p|]; [|right; by intros (? & ? & ?)].
  destruct (pr_state p) eqn:Hp; [right; intros (? & ? & ?); congruence | left; eauto].
Qed.

(** The zombie at [c] is a child that a wait for [pid] looks for. *)
Definition zombie_child (s : wait_system) (pid child_pid c : Z) : Prop :=
  child_pid <> 0 /\ (0 < pid -> child_pid = wrap32 pid) /\
  ptable_find (w_ptable s) child_pid = Some c /\ is_zombie s c.

Lemma zombie_in_slot_None s pid child_pid c :
  zombie_in_slot s pid child_pid = None -> zombie_child s pid child_pid c -> False.
Proof.
  intros Hn (H0 & Hpid & Hf & p & Hp & Hz). unfold zombie_in_slot in Hn.
  rewrite (proj2 (Z.eqb_neq _ _) H0), Hf in Hn. cbn [mbind option_bind] in Hn. rewrite Hp in Hn.
  cbn [mbind option_bind] in Hn. rewrite Hz in Hn.
  destruct (Z.ltb_spec 0 pid) as [Hlt|]; [|done].
  rewrite (Hpid Hlt), Z.eqb_refl in Hn. done.
Qed.

(** Every zombie looked for in the first [n] slots is at a place in [P]. *)
Definition covered (s : wait_system) (P : option exit_pc -> Prop) (pid : Z) (n : nat) : Prop :=
  forall j child_pid c, (j < n)%nat -> ch_slots (w_children s) !! j = Some child_pid ->
    zombie_child s pid child_pid c -> P (w_threads s !! c).

Definition pc_inv (s : wait_system) : Prop :=
  match w_pc s with
  | WScan pid _ seen i =>
      0 <= seen <= w_child_exit_seq s /\ (w_child_exit_seq s = seen -> covered s pre_bump pid i)
  | WBlockIf pid _ seen =>
      0 <= seen <= w_child_exit_seq s /\
      (w_child_exit_seq s = seen -> covered s pre_bump pid (length (ch_slots (w_children s))))
  | WSleep pid _ =>
      w_child_exit_seq s < 2 ^ 32 -> covered s pre_wake pid (length (ch_slots (w_children s)))
  | WReap child_pid _ => child_pid <> w_self s
  | _ => True
  end.

Record wait_inv (s : wait_system) : Prop := {
  wi_seq : 0 <= w_child_exit_seq s;
  wi_len : length (w_ptable s) = 64%nat;
  wi_self : is_Some (ptable_find (w_ptable s) (w_self s));
  wi_pids : Forall (fun c => c <> w_self s) (ch_slots (w_children s));
  wi_exit : forall c, is_zombie s c -> w_threads s !! c <> Some XUser /\ w_threads s !! c <> None;
  wi_pc : pc_inv s
}.

(** The wakes reach the scheduler. *)
Definition pushes_ok (e : wait_event) : Prop :=
  match e with ChildStep _ push_ok => push_ok = true | _ => True end.

(** A step of the child at [c] that leaves the zombies as they are. *)
Lemma covered_thread s s' c x (P : option exit_pc -> Prop) pid n :
  w_children s' = w_children s -> w_ptable s' = w_ptable s -> w_threads s' = <[c := x]> (w_threads s) ->
  (forall d, is_zombie s' d -> is_zombie s d \/ d = c) -> (P (w_threads s !! c) -> P (Some x)) ->
  (~ is_zombie s c -> P (Some x)) ->
  covered s P pid n -> covered s' P pid n.
Proof.
  intros Hc Hp Ht Hz Hx Hnew Hcov j child_pid d Hj Hs (H0 & Hpid & Hf & Hzd).
  rewrite Hc in Hs. rewrite Hp in Hf. rewrite Ht.
  destruct (decide (d = c)) as [->|Hne].
  - rewrite lookup_insert_eq. destruct (is_zombie_dec s c) as [H|H].
    + apply Hx. by eapply Hcov.
    + by apply Hnew.
  - rewrite lookup_insert_ne by done. eapply Hcov; [done..|]. split_and!; [done..|].
    destruct (Hz d Hzd); done.
Qed.

(** A step of the child's thread preserves what the parent relies on. *)
Lemma pc_inv_child s s' c x :
  pc_inv s -> w_self s' = w_self s -> w_pc s' = w_pc s -> w_child_exit_seq s' = w_child_exit_seq s ->
  w_children s' = w_children s -> w_ptable s' = w_ptable s -> w_threads s' = <[c := x]> (w_threads s) ->
  (forall d, is_zombie s' d -> is_zombie s d \/ d = c) ->
  (pre_bump (w_threads s !! c) -> pre_bump (Some x)) ->
  (pre_wake (w_threads s !! c) -> match w_pc s with WSleep _ _ => pre_wake (Some x) | _ => True end) ->
  (~ is_zombie s c -> pre_bump (Some x)) ->
  pc_inv s'.
Proof.
  intros Hinv Hself Hpc Hseq Hch Hpt Hth Hz Hb Hw Hnew. unfold pc_inv in *. rewrite Hself, Hpc, Hseq, Hch.
  destruct (w_pc s); try done.
  - destruct Hinv as [Hr Hcov]. split; [done|]. intros He.
    eapply covered_thread; [done..|by apply Hcov].
  - destruct Hinv as [Hr Hcov]. split; [done|]. intros He.
    eapply covered_thread; [done..|by apply Hcov].
  - intros Hlt. apply (covered_thread s s' c x); [done..| |by apply Hinv].
    intros H. by apply pre_bump_wake, Hnew.
Qed.

Lemma is_zombie_alter_code s c code d s' :
  w_procs s' = alter (set_code code) c (w_procs s) -> is_zombie s' d -> is_zombie s d.
Proof.
  intros Hp (p & Hd & Hz). rewrite Hp in Hd. unfold is_zombie. destruct (decide (d = c)) as [->|].
  - rewrite lookup_alter_eq in Hd. destruct (w_procs s !! c) as [q|]; [|done].
    injection Hd as <-. by exists q.
  - rewrite lookup_alter_ne in Hd by done. by exists p.
Qed.

Lemma is_zombie_alter_state s c d s' :
  w_procs s' = alter (set_state Zombie) c (w_procs s) -> is_zombie s' d -> is_zombie s d \/ d = c.
Proof.
  intros Hp (p & Hd & Hz). rewrite Hp in Hd. destruct (decide (d = c)) as [->|]; [by right|left].
  rewrite lookup_alter_ne in Hd by done. by exists p.
Qed.

(** The parts of the invariant a step of a child's thread keeps. *)
Lemma wait_inv_child s s' c x :
  wait_inv s -> w_self s' = w_self s -> w_ptable s' = w_ptable s -> w_children s' = w_children s ->
  0 <= w_child_exit_seq s' -> w_threads s' = <[c := x]> (w_threads s) ->
  x <> XUser -> (forall d, is_zombie s' d -> is_zombie s d \/ d = c) -> pc_inv s' -> wait_inv s'.
Proof.
  intros Hs Hself Hpt Hch Hseq Hth Hx Hz Hpc. split; rewrite ?Hself, ?Hpt, ?Hch, ?Hth; try apply Hs; try done.
  intros d Hd. destruct (decide (d = c)) as [->|Hne].
  - rewrite lookup_insert_eq. split; congruence.
  - rewrite lookup_insert_ne by done. apply (wi_exit _ Hs). destruct (Hz d Hd); done.
Qed.

Lemma wait_inv_exit s c code :
  wait_inv s -> w_threads s !! c = Some XUser ->
  wait_inv (set_thread (set_procs s (alter (set_state Zombie) c (w_procs s))) c (XCode code)).
Proof.
  intros Hs Hc.
  assert (forall d, is_zombie (set_thread (set_procs s (alter (set_state Zombie) c (w_procs s))) c (XCode code)) d ->
    is_zombie s d \/ d = c) as Hz by (intros d; by apply is_zombie_alter_state).
  apply (wait_inv_child s _ c (XCode code)); try done; [apply Hs|].
  apply (pc_inv_child s _ c (XCode code)); try done; [apply Hs|]. by rewrite Hc.
Qed.

Lemma wait_inv_bump s c :
  wait_inv s -> w_threads s !! c = Some XBump ->
  wait_inv (set_thread (set_notice s (w_child_exit_seq s + 1) (w_pending s)) c XWake).
Proof.
  intros Hs Hc. pose proof (wi_seq _ Hs) as H0.
  apply (wait_inv_child s _ c XWake); try done; [cbn; lia|by left|].
  pose proof (wi_pc _ Hs) as Hpc. unfold pc_inv in *. cbn [set_thread set_notice w_pc w_child_exit_seq w_self].
  destruct (w_pc s); try done.
  - split; [lia|]. intros. lia.
  - split; [lia|]. intros. lia.
  - intros Hlt. apply (covered_thread s _ c XWake); try done; [by left|apply Hpc; lia].
Qed.

Lemma wait_inv_wake s c :
  wait_inv s -> w_threads s !! c = Some XWake -> wait_inv (set_thread (wake_parent s true) c XDead).
Proof.
  intros Hs Hc.
  assert (is_zombie s c \/ ~ is_zombie s c) as Hzc by apply is_zombie_dec.
  apply (wait_inv_child s _ c XDead); unfold wake_parent; [done| | | | | |done| |].
  1-5: try apply Hs; destruct (w_pc s); try done; try apply Hs.
  - destruct (w_pc s); by left.
  - pose proof (wi_pc _ Hs) as Hpc. unfold pc_inv in *.
    destruct (w_pc s) as [|?|? ?|? ?|pid ? seen i|? ?|pid ? seen|? ?] eqn:Hw; cbn [set_thread set_pc w_pc w_child_exit_seq w_self];
      rewrite ?Hw; try done.
    + destruct Hpc as [Hr Hcov]. split; [done|]. intros He j ch d Hj Hsl Hz.
      specialize (Hcov He j ch d Hj Hsl Hz). cbn. destruct (decide (d = c)) as [->|]; [by rewrite Hc in Hcov|].
      by rewrite lookup_insert_ne.
    + destruct Hpc as [Hr Hcov]. split; [done|]. intros He j ch d Hj Hsl Hz.
      specialize (Hcov He j ch d Hj Hsl Hz). cbn. destruct (decide (d = c)) as [->|]; [by rewrite Hc in Hcov|].
      by rewrite lookup_insert_ne.
Qed.

Lemma wait_inv_child_step s c x s' :
  wait_inv s -> w_threads s !! c = Some x -> exit_act s c x true = Some s' -> wait_inv s'.
Proof.
  intros Hs Hc He. destruct x as [|code| | | | |]; cbn [exit_act] in He; try discriminate.
  - injection He as <-.
    assert (forall d, is_zombie (set_thread (set_procs s (alter (set_code code) c (w_procs s))) c XFind) d ->
      is_zombie s d \/ d = c) as Hz by (intros d Hd; left; revert Hd; by apply is_zombie_alter_code with c code).
    apply (wait_inv_child s _ c XFind); try done; [apply Hs|].
    apply (pc_inv_child s _ c XFind); try done; [apply Hs|]. by destruct (w_pc s).
  - destruct (ptable_find (w_ptable s) (w_self s)) as [?|] eqn:Hf.
    2: { pose proof (wi_self _ Hs) as [? Hx]. by rewrite Hf in Hx. }
    injection He as <-. apply (wait_inv_child s _ c XRaise); try done; [apply Hs|by left|].
    apply (pc_inv_child s _ c XRaise); try done; [apply Hs|by left|]. by destruct (w_pc s).
  - injection He as <-. apply (wait_inv_child s _ c XBump); try done; [apply Hs|by left|].
    apply (pc_inv_child s _ c XBump); try done; [apply Hs|by left|]. by destruct (w_pc s).
  - injection He as <-. by apply wait_inv_bump.
  - injection He as <-. by apply wait_inv_wake.
Qed.

(** A step of the parent that only moves its program counter. *)
Lemma wait_inv_pc s c : wait_inv s -> pc_inv (set_pc s c) -> wait_inv (set_pc s c).
Proof. intros Hs Hc. split; try apply Hs. done. Qed.

Lemma wait_inv_scan s pid options seen i :
  wait_inv s -> w_pc s = WScan pid options seen i ->
  match ch_slots (w_children s) !! i with
  | Some child_pid =>
      match zombie_in_slot s pid child_pid with
      | Some code => wait_inv (set_pc s (WReap child_pid code))
      | None => wait_inv (set_pc s (WScan pid options seen (S i)))
      end
  | None => wait_inv (set_pc s (WBlockIf pid options seen))
  end.
Proof.
  intros Hs Hw. pose proof (wi_pc _ Hs) as Hpc. unfold pc_inv in Hpc. rewrite Hw in Hpc.
  destruct Hpc as [Hr Hcov]. destruct (ch_slots (w_children s) !! i) as [child_pid|] eqn:Hi.
  - destruct (zombie_in_slot s pid child_pid) as [code|] eqn:Hz; apply wait_inv_pc; try done.
    + pose proof (wi_pids _ Hs) as Hp. by eapply (Forall_lookup_1 _ _ _ _ Hp) in Hi.
    + split; [done|]. intros He j ch d Hj Hsl Hzd.
      destruct (decide (j = i)) as [->|Hne].
      * cbn in Hsl. rewrite Hi in Hsl. injection Hsl as <-. by destruct (zombie_in_slot_None s pid child_pid d).
      * apply (Hcov He j ch d); [lia|done..].
  - apply wait_inv_pc; [done|]. split; [done|]. intros He j ch d Hj Hsl Hzd.
    apply lookup_ge_None in Hi. cbn in Hj. apply (Hcov He j ch d); [lia|done..].
Qed.

Lemma remove_child_pids c child (P : Z -> Prop) :
  P 0 -> Forall P (ch_slots c) -> Forall P (ch_slots (remove_child c child)).
Proof.
  intros H0 Hc. unfold remove_child. case_match; [|done]. cbn [ch_slots].
  by apply Forall_insert.
Qed.

Lemma add_child_pids c child (P : Z -> Prop) :
  P child -> Forall P (ch_slots c) -> Forall P (ch_slots (snd (add_child c child))).
Proof.
  intros H0 Hc. unfold add_child. case_match; [|done]. cbn [ch_slots snd].
  by apply Forall_insert.
Qed.

Lemma wait_inv_reap s child code :
  wait_inv s -> w_self s <> 0 -> w_pc s = WReap child code ->
  wait_inv (set_pc (reap_zombie (record_status s child code) child) (PReturned child)).
Proof.
  intros Hs H0 Hw. pose proof (wi_pc _ Hs) as Hpc. unfold pc_inv in Hpc. rewrite Hw in Hpc.
  unfold reap_zombie. cbn [record_status w_ptable].
  destruct (ptable_find (w_ptable s) child) as [c|] eqn:Hf.
  2: { apply wait_inv_pc; [|done]. split; try apply Hs. }
  split; cbn [set_pc w_child_exit_seq w_ptable w_self w_children w_threads w_pc record_status].
  - apply Hs.
  - rewrite ptable_length_remove. apply Hs.
  - rewrite ptable_find_remove by apply Hs. rewrite (proj2 (Z.eqb_neq _ _)) by congruence. apply Hs.
  - apply remove_child_pids; [congruence|apply Hs].
  - intros d (p & Hd & Hz). cbn in Hd. apply lookup_delete_Some in Hd as [_ Hd].
    apply (wi_exit _ Hs). by exists p.
  - done.
Qed.

Lemma wait_inv_fork s child c s' :
  wait_inv s -> w_pc s = PUser -> 0 < child < 2 ^ 32 -> child <> w_self s -> w_procs s !! c = None ->
  fork_child s child c = Some s' -> wait_inv s'.
Proof.
  intros Hs Hw Hc Hne Hp Hf. unfold fork_child in Hf.
  destruct (children_full (w_children s)); [done|]. injection Hf as <-. split; cbn.
  - apply Hs.
  - rewrite ptable_length_insert. apply Hs.
  - rewrite ptable_find_insert by apply Hs. rewrite (proj2 (Z.eqb_neq _ _)) by congruence. apply Hs.
  - apply add_child_pids; [done|apply Hs].
  - intros d (p & Hd & Hz). cbn in Hd. destruct (decide (d = c)) as [->|Hdc].
    + rewrite lookup_insert_eq in Hd. injection Hd as <-. done.
    + rewrite lookup_insert_ne in Hd by done. rewrite lookup_insert_ne by done. apply (wi_exit _ Hs). by exists p.
  - unfold pc_inv. cbn. by rewrite Hw.
Qed.

Lemma wait_inv_act s s' : wait_inv s -> w_self s <> 0 -> wait_act s = Some s' -> wait_inv s'.
Proof.
  intros Hs H0 Ha. unfold wait_act in Ha. pose proof (wi_seq _ Hs) as Hseq.
  pose proof (wi_pc _ Hs) as Hpc. unfold pc_inv in Hpc.
  destruct (w_pc s) as [|?|? ?|? ?|pid ? seen i|? ?|pid ? seen|? ?] eqn:Hw; try discriminate.
  - injection Ha as <-. by apply wait_inv_pc.
  - destruct (_ =? 0); injection Ha as <-; by apply wait_inv_pc.
  - injection Ha as <-. apply wait_inv_pc; [done|]. split; [cbn; lia|]. intros _ j ? ? Hj. lia.
  - pose proof (wait_inv_scan s _ _ _ _ Hs Hw) as H.
    destruct (ch_slots (w_children s) !! i); [|destruct (_ =? 0); injection Ha as <-; [done|by apply wait_inv_pc]].
    destruct (zombie_in_slot s _ _); injection Ha as <-; done.
  - injection Ha as <-. by apply wait_inv_reap.
  - destruct (Z.eqb_spec (wrap32 (w_child_exit_seq s)) (wrap32 seen)) as [He|He]; injection Ha as <-;
      apply wait_inv_pc; try done.
    destruct Hpc as [Hr Hcov]. intros Hlt j ch d Hj Hsl Hz. cbn in Hlt.
    unfold wrap32, wrapw in He. rewrite !Z.mod_small in He by lia.
    apply pre_bump_wake, (Hcov He j ch d); done.
Qed.

Lemma self_act s s' : wait_act s = Some s' -> w_self s' = w_self s.
Proof.
  unfold wait_act, reap_zombie. intros H. repeat case_match; simplify_eq; try done.
Qed.

Lemma self_exit s c x b s' : exit_act s c x b = Some s' -> w_self s' = w_self s.
Proof.
  destruct x; cbn [exit_act]; try (by intros [= <-]); try done.
  - case_match; by intros [= <-].
  - intros [= <-]. unfold wake_parent. destruct (w_pc s); try done. by destruct b.
Qed.

Lemma wait_step_inv s s' :
  wait_inv s /\ w_self s <> 0 -> wait_step pushes_ok s s' -> wait_inv s' /\ w_self s' <> 0.
Proof.
  intros [Hs H0] Hstep. destruct Hstep as [s e s' Hok He]. destruct e as [child c|pid options| |c code|c b].
  - cbn [wait_exec] in He. destruct (w_pc s) eqn:Hw; try discriminate.
    destruct (_ && _) eqn:Hg; [|done]. apply andb_prop in Hg as [Hg Hp]. apply andb_prop in Hg as [Hg _].
    apply andb_prop in Hg as [Hg Hne]. apply andb_prop in Hg as [Hc1 Hc2].
    apply Z.ltb_lt in Hc1, Hc2. apply negb_true_iff, Z.eqb_neq in Hne. apply bool_decide_eq_true in Hp.
    split; [by eapply wait_inv_fork|]. unfold fork_child in He. case_match; [done|]. by injection He as <-.
  - cbn [wait_exec] in He. destruct (w_pc s); try discriminate. injection He as <-. unfold sys_wait4.
    case_match; (split; [by apply wait_inv_pc|done]).
  - split; [by eapply wait_inv_act|]. by rewrite (self_act s s').
  - cbn [wait_exec] in He. destruct (w_threads s !! c) as [[]|] eqn:Hc; try discriminate.
    injection He as <-. split; [by apply wait_inv_exit|done].
  - cbn [wait_exec] in He. destruct (w_threads s !! c) as [x|] eqn:Hc; [|done].
    cbn [mbind option_bind] in He. simpl in Hok. subst b. split; [by eapply wait_inv_child_step|].
    by rewrite (self_exit s c x true s').
Qed.

Lemma wait_boot_inv self c : 0 < self < 2 ^ 32 -> wait_inv (wait_boot self c).
Proof.
  intros Hself. split; cbn [wait_boot w_child_exit_seq w_ptable w_self w_children w_pc].
  - lia.
  - by rewrite ptable_length_insert.
  - rewrite ptable_find_insert by done. rewrite Z.eqb_refl.
    replace (ptable_room PTABLE_new self) with true; [by eexists|].
    unfold ptable_room, PTABLE_new. rewrite lookup_replicate_2 by apply ptable_bucket_lt. done.
  - cbn [Children_new ch_slots]. apply Forall_replicate. lia.
  - intros d (p & Hd & _). cbn in Hd. by rewrite lookup_empty in Hd.
  - done.
Qed.

Lemma wait_run_rtc allowed es : forall s s',
  Forall allowed es -> wait_run s es = Some s' -> rtc (wait_step allowed) s s'.
Proof.
  induction es as [|e es IH]; intros s s' Hall H; cbn [wait_run] in H; [by simplify_eq|].
  apply Forall_cons in Hall as [He Hes]. destruct (wait_exec s e) as [s1|] eqn:H1; [|done].
  eapply rtc_l; [by econstructor|]. by apply IH.
Qed.

(** ** Claims *)

(** C18: a parent never sleeps through the exit of a child it waits for, if the scheduler
    accepts every wake-up an exit asks for (the lock of the processor's queue is not
    contended) and there are fewer than 2^32 exits.  Whatever
    the interleaving of the children's exits with the scan and the decision to
    block, while the parent sleeps in [wait4] every zombie it waits for that the
    pid table lists still has its wake-up ahead of it. *)
Theorem wait4_no_lost_wakeup self c0 s pid options j child_pid c :
  0 < self < 2 ^ 32 -> rtc (wait_step pushes_ok) (wait_boot self c0) s ->
  w_child_exit_seq s < 2 ^ 32 -> w_pc s = WSleep pid options ->
  ch_slots (w_children s) !! j = Some child_pid -> zombie_child s pid child_pid c ->
  pre_wake (w_threads s !! c).
Proof.
  intros Hself Hrun Hlt Hw Hj Hz.
  assert (wait_inv s /\ w_self s <> 0) as [Hs _].
  { apply (rtc_invariant (wait_step pushes_ok) (fun s => wait_inv s /\ w_self s <> 0) (wait_boot self c0) s).
    - split; [by apply wait_boot_inv|cbn; lia].
    - intros y y'. apply wait_step_inv.
    - done. }
  pose proof (wi_pc _ Hs) as Hpc. unfold pc_inv in Hpc. rewrite Hw in Hpc.
  apply (Hpc Hlt j child_pid c); [by apply lookup_lt_Some in Hj|done..].
Qed.

(** The child becomes a zombie after the parent's scan and before it blocks. *)
Definition late_exit : list wait_event :=
  [ParentFork 2 100; ParentWait (-1) 0] ++ replicate 35 ParentStep ++ [ChildExit 100 42; ParentStep].

Lemma wait4_no_lost_wakeup_witness :
  exists s, wait_run (wait_boot 1 50) late_exit = Some s /\ w_pc s = WSleep (-1) 0 /\
    zombie_child s (-1) 2 100 /\ pre_wake (w_threads s !! 100).
Proof.
  assert (match wait_run (wait_boot 1 50) late_exit with
          | Some s => match w_pc s with WSleep (-1) 0 => true | _ => false end &&
              (w_child_exit_seq s <? 2 ^ 32) && bool_decide (ch_slots (w_children s) !! 0%nat = Some 2) &&
              bool_decide (ptable_find (w_ptable s) 2 = Some 100) &&
              match w_procs s !! 100 with Some p => match pr_state p with Zombie => true | _ => false end | _ => false end
          | None => false
          end = true) as H by (vm_compute; reflexivity).
  destruct (wait_run (wait_boot 1 50) late_exit) as [s|] eqn:Hrun; [|done].
  apply andb_prop in H as [H Hz]. apply andb_prop in H as [H Hf]. apply andb_prop in H as [H Hc].
  apply andb_prop in H as [Hw Hlt]. apply bool_decide_eq_true in Hf, Hc. apply Z.ltb_lt in Hlt.
  assert (w_pc s = WSleep (-1) 0) as Hpc by (repeat case_match; done). clear Hw.
  assert (zombie_child s (-1) 2 100) as Hzc.
  { split_and!; [done|done|done|]. destruct (w_procs s !! 100) as [p|] eqn:Hp; [|done]. exists p.
    split; [done|]. by destruct (pr_state p). }
  exists s. split_and!; [done..|].
  apply (wait4_no_lost_wakeup 1 50 s (-1) 0 0 2 100); try done.
  apply (wait_run_rtc pushes_ok late_exit); [|done].
  repeat (apply Forall_cons; split; [done|]). apply Forall_nil. done.
Defined.

(** [exit] publishes the zombie state before it stores the exit code and
    before it is done with the process frame, so a parent on another processor
    can reap a child that is still inside [exit]: the status it gets is that of
    exit code 0 and the frame the child goes on using has been freed. *)
Theorem wait4_reaps_exiting_child :
  exists s, rtc (wait_step pushes_ok) (wait_boot 1 50) s /\
    w_pc s = PReturned 2 /\ w_threads s !! 100 = Some (XCode 42) /\
    w_procs s !! 100 = None /\ w_reaped s = [(2, encode_exit_status 0)].
Proof.
  set (es := [ParentFork 2 100; ChildExit 100 42; ParentWait (-1) 0; ParentStep; ParentStep; ParentStep; ParentStep]).
  destruct (wait_run (wait_boot 1 50) es) as [s|] eqn:Hrun.
  - exists s. split.
    + apply (wait_run_rtc pushes_ok es); [|done]. repeat (apply Forall_cons; split; [done|]). by apply Forall_nil.
    + assert (option_map w_pc (wait_run (wait_boot 1 50) es) = Some (PReturned 2) /\
        option_map (fun s => w_threads s !! 100) (wait_run (wait_boot 1 50) es) = Some (Some (XCode 42)) /\
        option_map (fun s => w_procs s !! 100) (wait_run (wait_boot 1 50) es) = Some None /\
        option_map w_reaped (wait_run (wait_boot 1 50) es) = Some [(2, encode_exit_status 0)]) as H
        by (vm_compute; done).
      rewrite Hrun in H. simpl in H. naive_solver.
  - vm_compute in Hrun. discriminate.
Qed.

(** The parent is inside the loop of [wait4]. *)
Definition in_wait (pid options : Z) (c : wait_pc) : bool :=
  match c with
  | WTop p o | WSample p o | WScan p o _ _ | WBlockIf p o _ | WSleep p o => (p =? pid) && (o =? options)
  | _ => false
  end.

(** No slot names a process that the scan could find. *)
Definition nothing_to_find (s : wait_system) (pid : Z) : Prop :=
  forall j child_pid, ch_slots (w_children s) !! j = Some child_pid -> child_pid <> 0 ->
    (0 < pid -> child_pid = wrap32 pid) -> ptable_find (w_ptable s) child_pid = None.

Lemma nothing_in_slot s pid j child_pid :
  nothing_to_find s pid -> ch_slots (w_children s) !! j = Some child_pid -> zombie_in_slot s pid child_pid = None.
Proof.
  intros Hn Hj. unfold zombie_in_slot. destruct (Z.eqb_spec child_pid 0); [done|].
  destruct (Z.ltb_spec 0 pid); cbn [andb].
  - destruct (Z.eqb_spec child_pid (wrap32 pid)); [|done]. cbn [negb]. by rewrite (Hn j child_pid).
  - rewrite (Hn j child_pid); [done..|lia].
Qed.

Definition stuck_inv (s0 s : wait_system) (pid options : Z) : Prop :=
  in_wait pid options (w_pc s) = true /\ w_children s = w_children s0 /\ w_ptable s = w_ptable s0.

Lemma stuck_act s0 s s' pid options :
  nothing_to_find s0 pid -> ch_count (w_children s0) <> 0 -> Z.land options WNOHANG = 0 ->
  stuck_inv s0 s pid options -> wait_act s = Some s' -> stuck_inv s0 s' pid options.
Proof.
  intros Hn Hc Ho (Hw & Hch & Hpt) Ha. unfold wait_act in Ha.
  assert (nothing_to_find s pid) as Hns by (unfold nothing_to_find; by rewrite Hch, Hpt).
  destruct (w_pc s) as [|?|p o|p o|p o seen i|? ?|p o seen|? ?] eqn:Hpc; try discriminate;
    cbn [in_wait] in Hw; apply andb_prop in Hw as [->%Z.eqb_eq ->%Z.eqb_eq].
  - rewrite Hch, (proj2 (Z.eqb_neq _ _) Hc) in Ha. injection Ha as <-.
    split_and!; [cbn; by rewrite !Z.eqb_refl|done..].
  - injection Ha as <-. split_and!; [cbn; by rewrite !Z.eqb_refl|done..].
  - destruct (ch_slots (w_children s) !! i) as [ch|] eqn:Hi.
    + rewrite (nothing_in_slot s pid i ch Hns Hi) in Ha. injection Ha as <-.
      split_and!; [cbn; by rewrite !Z.eqb_refl|done..].
    + rewrite Ho in Ha. injection Ha as <-. split_and!; [cbn; by rewrite !Z.eqb_refl|done..].
  - case_match; injection Ha as <-; split_and!; (done || cbn; by rewrite !Z.eqb_refl).
Qed.

Lemma stuck_exit s0 s c x b s' pid options :
  stuck_inv s0 s pid options -> exit_act s c x b = Some s' -> stuck_inv s0 s' pid options.
Proof.
  intros (Hw & Hch & Hpt) He. destruct x; cbn [exit_act] in He; try discriminate.
  - by injection He as <-.
  - case_match; by injection He as <-.
  - by injection He as <-.
  - by injection He as <-.
  - injection He as <-. unfold wake_parent, stuck_inv.
    destruct (w_pc s) eqn:Hpc; try (cbn [set_thread w_pc w_children w_ptable]; by rewrite ?Hpc).
    destruct b; cbn [set_thread set_pc w_pc w_children w_ptable]; by rewrite ?Hpc.
Qed.

(** A [wait4] that blocks never returns when none of the caller's children is
    both selected by the pid and listed in the pid table: not when the pid is no
    child of the caller, and not when the table dropped the child because its
    bucket was full. *)
Theorem wait4_unmatched_never_returns s0 pid options s :
  w_pc s0 = WTop pid options -> Z.land options WNOHANG = 0 -> ch_count (w_children s0) <> 0 ->
  nothing_to_find s0 pid -> rtc (wait_step (fun _ => True)) s0 s -> in_wait pid options (w_pc s) = true.
Proof.
  intros Hw Ho Hc Hn Hrun.
  assert (stuck_inv s0 s pid options) as [H _]; [|done].
  apply (rtc_invariant (wait_step (fun _ => True)) (fun s => stuck_inv s0 s pid options) s0 s); [| |done].
  - split_and!; [rewrite Hw; cbn; by rewrite !Z.eqb_refl|done..].
  - intros y y' Hy Hstep. destruct Hstep as [y e y' _ He]. destruct e; cbn [wait_exec] in He.
    + destruct Hy as [Hy _]. destruct (w_pc y); done.
    + destruct Hy as [Hy _]. destruct (w_pc y); done.
    + by eapply stuck_act.
    + destruct (w_threads y !! c) as [[]|]; try discriminate. by injection He as <-.
    + destruct (w_threads y !! c) as [x|]; [|done]. by eapply stuck_exit.
Qed.

(** Waiting for pid 77 with pid 2 the only child, which exits. *)
Lemma wait4_unmatched_never_returns_witness :
  exists s0 s, wait_run (wait_boot 1 50) [ParentFork 2 100; ParentWait 77 0] = Some s0 /\
    wait_run s0 [ChildExit 100 0; ChildStep 100 true; ChildStep 100 true; ParentStep; ParentStep] = Some s /\
    in_wait 77 0 (w_pc s) = true.
Proof.
  destruct (wait_run (wait_boot 1 50) [ParentFork 2 100; ParentWait 77 0]) as [s0|] eqn:H0;
    [|vm_compute in H0; discriminate].
  destruct (wait_run s0 [ChildExit 100 0; ChildStep 100 true; ChildStep 100 true; ParentStep; ParentStep]) as [s|] eqn:H1.
  2: { vm_compute in H0. injection H0 as <-. vm_compute in H1. discriminate. }
  exists s0, s. split_and!; [done..|].
  apply (wait4_unmatched_never_returns s0 77 0 s).
  - vm_compute in H0. by injection H0 as <-.
  - done.
  - vm_compute in H0. by injection H0 as <-.
  - assert (ch_slots (w_children s0) = 2 :: replicate 31 0) as Hs by (vm_compute in H0; by injection H0 as <-).
    intros j ch Hj Hne Hp. rewrite Hs in Hj. specialize (Hp ltac:(lia)). exfalso. subst ch.
    apply list_elem_of_lookup_2, elem_of_cons in Hj as [Hx|[Hx _]%elem_of_replicate]; by vm_compute in Hx.
  - eapply (wait_run_rtc _ _ s0 s); [|exact H1]. by repeat constructor.
Defined.
