(* ===== verification/Signal.v ===== *)
(** * Signals: dispositions, delivery on the way back to user mode, sigreturn

    crates/proc/src/signal.rs, the signal calls of crates/proc/src/syscall.rs, the
    return to user mode of crates/proc/src/process.rs and the per-processor frame
    of the interrupted user code in crates/cpu/src/syscall.rs. *)

From Stdlib Require Import ZArith Lia.
From stdpp Require Import prelude gmap list.
From S2P Require Import Prelude AddressSpace ProcTable.

Local Open Scope Z_scope.

Definition NSIG : Z := 32.

Definition SIGKILL : Z := 9.

Definition SIGTERM : Z := 15.

Definition SIGNAL_HANDLER_RFLAGS : Z := 0x202.

Inductive SigAction :=
| SigDefault
| SigIgnore
| SigHandler (user_fn : Z).

Notation SigTable := (list SigAction).

Definition SigTable_new : SigTable := replicate (Z.to_nat NSIG) SigDefault.

(** ** The pending set *)

Definition PendingSet_raise (bits signum : Z) : Z := Z.lor bits (shl64 1 signum).

(** [take_any]: the compare-exchange succeeds on the value whose lowest bit it
    took, so the loop removes one bit of one observed value. *)
Definition PendingSet_take_any (bits : Z) : option Z * Z :=
  if bits =? 0 then (None, bits) else
  let signum := trailing_zeros bits in
  (Some signum, Z.land bits (not64 (shl64 1 signum))).

Inductive SignalOutcome :=
| OutcomeNone
| Terminate (signum : Z)
| Deliver (user_fn signum : Z).

Definition decide_next_signal (bits : Z) (table : SigTable) : SignalOutcome * Z :=
  match PendingSet_take_any bits with
  | (None, bits') => (OutcomeNone, bits')
  | (Some signum, bits') =>
      (if signum =? SIGKILL then Terminate signum else
       if NSIG <=? signum then OutcomeNone else
       match table !! Z.to_nat signum with
       | Some (SigHandler user_fn) => Deliver user_fn signum
       | Some SigIgnore => OutcomeNone
       | Some SigDefault => if signum =? SIGTERM then Terminate signum else OutcomeNone
       | None => OutcomeNone
       end, bits')
  end.

Definition signal_is_catchable (signum : Z) : bool :=
  negb (signum =? 0) && negb (signum =? SIGKILL) && (signum <? NSIG).

Definition returning_to_user (cs : Z) : bool := Z.land cs 3 =? 3.

(** ** Register snapshots *)

Record SavedUserContext := {
  ctx_rip : Z; ctx_rsp : Z; ctx_rflags : Z; ctx_rax : Z; ctx_rbx : Z; ctx_rcx : Z;
  ctx_rdx : Z; ctx_rsi : Z; ctx_rdi : Z; ctx_rbp : Z; ctx_r8 : Z; ctx_r9 : Z;
  ctx_r10 : Z; ctx_r11 : Z; ctx_r12 : Z; ctx_r13 : Z; ctx_r14 : Z; ctx_r15 : Z
}.

(** The [#[repr(C)]] layout, one word per field. *)
Definition ctx_words (c : SavedUserContext) : list Z :=
  [ctx_rip c; ctx_rsp c; ctx_rflags c; ctx_rax c; ctx_rbx c; ctx_rcx c; ctx_rdx c; ctx_rsi c; ctx_rdi c;
   ctx_rbp c; ctx_r8 c; ctx_r9 c; ctx_r10 c; ctx_r11 c; ctx_r12 c; ctx_r13 c; ctx_r14 c; ctx_r15 c].

Definition CTX_SIZE : Z := 144.

Record SignalFrameLayout := { ctx_addr : Z; ret_addr_slot : Z }.

Definition compute_signal_frame_layout (user_rsp : Z) : SignalFrameLayout :=
  let red_zone_bottom := wrap64 (user_rsp - 128) in
  let addr := Z.land (wrap64 (red_zone_bottom - CTX_SIZE)) (not64 0xf) in
  {| ctx_addr := addr; ret_addr_slot := wrap64 (addr - 8) |}.

(** Memory as words at their addresses. *)
Fixpoint write_words (m : gmap Z Z) (addr : Z) (ws : list Z) : gmap Z Z :=
  match ws with
  | [] => m
  | w :: ws' => write_words (<[addr := w]> m) (addr + 8) ws'
  end.

Definition write_signal_frame (m : gmap Z Z) (c : SavedUserContext) (user_rsp : Z) : Z * gmap Z Z :=
  let layout := compute_signal_frame_layout user_rsp in
  (ret_addr_slot layout,
   <[ret_addr_slot layout := SIGRETURN_TRAMPOLINE_VA]> (write_words m (ctx_addr layout) (ctx_words c))).

(** ** The frame of the interrupted user code, one per processor *)

Record SyscallFrame := {
  sf_rip : Z; sf_rsp : Z; sf_rflags : Z;
  sf_rbx : Z; sf_rbp : Z; sf_r12 : Z; sf_r13 : Z; sf_r14 : Z; sf_r15 : Z
}.

Definition update_current_syscall_frame (f : SyscallFrame) (rip rsp rflags : Z) : SyscallFrame :=
  {| sf_rip := rip; sf_rsp := rsp; sf_rflags := rflags; sf_rbx := sf_rbx f; sf_rbp := sf_rbp f;
     sf_r12 := sf_r12 f; sf_r13 := sf_r13 f; sf_r14 := sf_r14 f; sf_r15 := sf_r15 f |}.

Definition update_syscall_callee_saved (f : SyscallFrame) (rbx rbp r12 r13 r14 r15 : Z) : SyscallFrame :=
  {| sf_rip := sf_rip f; sf_rsp := sf_rsp f; sf_rflags := sf_rflags f; sf_rbx := rbx; sf_rbp := rbp;
     sf_r12 := r12; sf_r13 := r13; sf_r14 := r14; sf_r15 := r15 |}.

(** What [syscall_entry] stores: SYSCALL leaves the return address in RCX and the
    flags in R11; here the user registers are given as they were before it. *)
Definition syscall_entry (f : SyscallFrame) (u : SavedUserContext) : SyscallFrame :=
  update_syscall_callee_saved (update_current_syscall_frame f (ctx_rip u) (ctx_rsp u) (ctx_rflags u))
    (ctx_rbx u) (ctx_rbp u) (ctx_r12 u) (ctx_r13 u) (ctx_r14 u) (ctx_r15 u).

(** ** Delivery *)

(** The signal state of a process. *)
Record sig_state := {
  ss_pending : Z;
  ss_table : SigTable;
  ss_frame : option SavedUserContext
}.

(** How the kernel is left: to the interrupted code with a value in RAX, not at
    all, to a handler, or to a restored context. *)
Inductive departure :=
| ResumeSyscall (rax : Z)
| ExitProcess (code : Z)
| EnterHandler (rip rsp rflags rdi : Z)
| RestoreAll (regs : SavedUserContext).

(** The snapshot [setup_and_enter_handler] builds. *)
Definition syscall_context (f : SyscallFrame) (retval : Z) : SavedUserContext :=
  {| ctx_rip := sf_rip f; ctx_rsp := sf_rsp f; ctx_rflags := sf_rflags f; ctx_rax := wrap64 retval;
     ctx_rbx := sf_rbx f; ctx_rcx := 0; ctx_rdx := 0; ctx_rsi := 0; ctx_rdi := 0; ctx_rbp := sf_rbp f;
     ctx_r8 := 0; ctx_r9 := 0; ctx_r10 := 0; ctx_r11 := 0; ctx_r12 := sf_r12 f; ctx_r13 := sf_r13 f;
     ctx_r14 := sf_r14 f; ctx_r15 := sf_r15 f |}.

Definition setup_and_enter_handler (f : SyscallFrame) (s : sig_state) (m : gmap Z Z)
    (user_fn signum retval : Z) : departure * sig_state * gmap Z Z :=
  let c := syscall_context f retval in
  let '(slot, m') := write_signal_frame m c (sf_rsp f) in
  (EnterHandler user_fn slot SIGNAL_HANDLER_RFLAGS signum,
   {| ss_pending := ss_pending s; ss_table := ss_table s; ss_frame := Some c |}, m').

Definition set_pending (s : sig_state) (bits : Z) : sig_state :=
  {| ss_pending := bits; ss_table := ss_table s; ss_frame := ss_frame s |}.

Definition deliver_on_syscall_return (f : SyscallFrame) (s : sig_state) (m : gmap Z Z) (retval : Z)
    : departure * sig_state * gmap Z Z :=
  match ss_frame s with
  | Some _ => (ResumeSyscall retval, s, m)
  | None =>
      let '(outcome, bits) := decide_next_signal (ss_pending s) (ss_table s) in
      let s' := set_pending s bits in
      match outcome with
      | OutcomeNone => (ResumeSyscall retval, s', m)
      | Terminate signum => (ExitProcess (- signum), s', m)
      | Deliver user_fn signum => setup_and_enter_handler f s' m user_fn signum retval
      end
  end.

(** Delivery on an interrupt return, which edits the interrupt frame [u]; the
    frame afterwards is what [iretq] loads. *)
Definition check_and_deliver_iret (u : SavedUserContext) (s : sig_state) (m : gmap Z Z)
    : option SavedUserContext * sig_state * gmap Z Z :=
  match ss_frame s with
  | Some _ => (Some u, s, m)
  | None =>
      let '(outcome, bits) := decide_next_signal (ss_pending s) (ss_table s) in
      match outcome with
      | OutcomeNone => (Some u, set_pending s bits, m)
      | Terminate _ => (None, set_pending s bits, m)
      | Deliver user_fn signum =>
          let '(slot, m') := write_signal_frame m u (ctx_rsp u) in
          (Some {| ctx_rip := user_fn; ctx_rsp := slot; ctx_rflags := SIGNAL_HANDLER_RFLAGS;
                   ctx_rax := ctx_rax u; ctx_rbx := ctx_rbx u; ctx_rcx := ctx_rcx u; ctx_rdx := ctx_rdx u;
                   ctx_rsi := ctx_rsi u; ctx_rdi := signum; ctx_rbp := ctx_rbp u; ctx_r8 := ctx_r8 u;
                   ctx_r9 := ctx_r9 u; ctx_r10 := ctx_r10 u; ctx_r11 := ctx_r11 u; ctx_r12 := ctx_r12 u;
                   ctx_r13 := ctx_r13 u; ctx_r14 := ctx_r14 u; ctx_r15 := ctx_r15 u |},
           {| ss_pending := bits; ss_table := ss_table s; ss_frame := Some u |}, m')
      end
  end.

(** The registers after [sysretq], which takes RIP from RCX and RFLAGS from R11. *)
Definition enter_user_mode_restoring (c : SavedUserContext) : SavedUserContext :=
  {| ctx_rip := ctx_rip c; ctx_rsp := ctx_rsp c; ctx_rflags := ctx_rflags c; ctx_rax := ctx_rax c;
     ctx_rbx := ctx_rbx c; ctx_rcx := ctx_rip c; ctx_rdx := ctx_rdx c; ctx_rsi := ctx_rsi c;
     ctx_rdi := ctx_rdi c; ctx_rbp := ctx_rbp c; ctx_r8 := ctx_r8 c; ctx_r9 := ctx_r9 c;
     ctx_r10 := ctx_r10 c; ctx_r11 := ctx_rflags c; ctx_r12 := ctx_r12 c; ctx_r13 := ctx_r13 c;
     ctx_r14 := ctx_r14 c; ctx_r15 := ctx_r15 c |}.

Definition sys_sigreturn (s : sig_state) : departure * sig_state :=
  match ss_frame s with
  | Some c => (RestoreAll (enter_user_mode_restoring c),
               {| ss_pending := ss_pending s; ss_table := ss_table s; ss_frame := None |})
  | None => (ExitProcess (- SIGKILL), s)
  end.

(** ** sigaction and kill *)

Definition EINVAL : Z := -22.

Definition ESRCH : Z := -3.

Definition EFAULT : Z := -14.

Definition USER_MIN : Z := 0x1000.

Definition SYSCALL_USER_TOP : Z := 0x800000000000.

Definition is_user_ptr (addr len : Z) : bool :=
  match checked_add addr len with
  | None => false
  | Some e => (USER_MIN <=? addr) && (e <=? SYSCALL_USER_TOP)
  end.

Definition action_to_user (a : SigAction) : Z :=
  match a with SigDefault => 0 | SigIgnore => 1 | SigHandler user_fn => user_fn end.

Definition action_from_user (v : Z) : SigAction :=
  if v =? 0 then SigDefault else if v =? 1 then SigIgnore else SigHandler v.

(** [m] holds the words of user memory; a word that is not there reads as 0. *)
Definition sys_sigaction (s : sig_state) (m : gmap Z Z) (signum act_ptr oldact_ptr : Z)
    : Z * sig_state * gmap Z Z :=
  if negb (signal_is_catchable signum) then (EINVAL, s, m) else
  let old := default SigDefault (ss_table s !! Z.to_nat signum) in
  if negb (act_ptr =? 0) && negb (is_user_ptr act_ptr 8) then (EFAULT, s, m) else
  let s' := if act_ptr =? 0 then s else
    {| ss_pending := ss_pending s;
       ss_table := <[Z.to_nat signum := action_from_user (default 0 (m !! act_ptr))]> (ss_table s);
       ss_frame := ss_frame s |} in
  if oldact_ptr =? 0 then (0, s', m) else
  if negb (is_user_ptr oldact_ptr 8) then (EFAULT, s', m) else
  (0, s', <[oldact_ptr := action_to_user old]> m).

(** [pend] gives the pending set of each process. *)
Definition sys_kill (t : PTable) (pend : gmap Z Z) (pid signum : Z) : Z * gmap Z Z :=
  if (signum =? 0) || (NSIG <=? signum) then (EINVAL, pend) else
  match ptable_find t pid with
  | Some target => (0, alter (fun bits => PendingSet_raise bits signum) target pend)
  | None => (ESRCH, pend)
  end.

(** ** The frame on the user stack *)

Lemma signal_frame_layout user_rsp :
  280 + 8 <= user_rsp < 2 ^ 64 ->
  let l := compute_signal_frame_layout user_rsp in
  ctx_addr l mod 16 = 0 /\ ret_addr_slot l = ctx_addr l - 8 /\
  ctx_addr l + CTX_SIZE <= user_rsp - 128 < ctx_addr l + CTX_SIZE + 16.
Proof.
  intros Hr. unfold compute_signal_frame_layout, CTX_SIZE. cbn [ctx_addr ret_addr_slot].
  rewrite (wrap64_small (user_rsp - 128)) by (unfold is_u64; lia).
  rewrite (wrap64_small (user_rsp - 128 - 144)) by (unfold is_u64; lia).
  change 0xf with (Z.ones 4). rewrite land_not_ones by (unfold is_u64; lia).
  change (2 ^ 4) with 16. set (a := user_rsp - 128 - 144) in *.
  pose proof (Z.mod_pos_bound a 16 ltac:(lia)). pose proof (Z.div_mod a 16 ltac:(lia)).
  assert (a - a mod 16 = 16 * (a / 16)) as Ha by lia.
  rewrite wrap64_small by (unfold is_u64, a in *; lia). split_and!; [|done|lia..].
  rewrite Ha, Z.mul_comm. by apply Z.mod_mul.
Qed.

Lemma write_words_lookup ws : forall m addr a,
  write_words m addr ws !! a =
  match (if (addr <=? a) && ((a - addr) mod 8 =? 0) then ws !! Z.to_nat ((a - addr) / 8) else None) with
  | Some w => Some w
  | None => m !! a
  end.
Proof.
  induction ws as [|w ws IH]; intros m addr a; cbn [write_words]; [destruct (_ && _); by rewrite ?lookup_nil|].
  rewrite IH. destruct (Z.leb_spec (addr + 8) a) as [H1|H1].
  - rewrite (proj2 (Z.leb_le addr a)) by lia. cbn [andb].
    replace ((a - (addr + 8)) mod 8) with ((a - addr) mod 8)
      by (replace (a - addr) with (a - (addr + 8) + 1 * 8) by lia; by rewrite Z.mod_add by lia).
    rewrite lookup_insert_ne by lia. destruct (Z.eqb_spec ((a - addr) mod 8) 0) as [Hm|]; [|done].
    replace (Z.to_nat ((a - addr) / 8)) with (S (Z.to_nat ((a - (addr + 8)) / 8))); [done|].
    replace (a - addr) with (a - (addr + 8) + 1 * 8) by lia. rewrite Z.div_add by lia.
    assert (0 <= (a - (addr + 8)) / 8) by (apply Z.div_pos; lia). lia.
  - cbn [andb]. destruct (Z.leb_spec addr a) as [H2|H2]; cbn [andb].
    + destruct (decide (a = addr)) as [->|Hne].
      * by rewrite Z.sub_diag, lookup_insert_eq.
      * rewrite lookup_insert_ne by lia. rewrite Z.mod_small by lia.
        by rewrite (proj2 (Z.eqb_neq _ _)) by lia.
    + rewrite lookup_insert_ne by lia. done.
Qed.

(** Word [i] of the context is found where its layout says. *)
Lemma signal_frame_word m c user_rsp i w :
  288 <= user_rsp < 2 ^ 64 -> ctx_words c !! i = Some w ->
  snd (write_signal_frame m c user_rsp) !!
    (ctx_addr (compute_signal_frame_layout user_rsp) + 8 * Z.of_nat i) = Some w.
Proof.
  intros Hr Hi. destruct (signal_frame_layout user_rsp ltac:(lia)) as (_ & Hs & _).
  unfold write_signal_frame. cbn [snd].
  set (a := ctx_addr (compute_signal_frame_layout user_rsp)) in *. rewrite Hs.
  rewrite lookup_insert_ne by lia. rewrite write_words_lookup.
  replace (a + 8 * Z.of_nat i - a) with (Z.of_nat i * 8) by lia.
  rewrite Z.mod_mul, Z.div_mul, Nat2Z.id by lia. rewrite (proj2 (Z.leb_le _ _)) by lia.
  cbn [andb Z.eqb]. by rewrite Hi.
Qed.

(** A delivered signal was pending. *)
Lemma decide_next_signal_pending bits table fn signum bits' :
  decide_next_signal bits table = (Deliver fn signum, bits') -> Z.testbit bits signum = true.
Proof.
  unfold decide_next_signal, PendingSet_take_any. destruct (Z.eqb_spec bits 0); [done|]. intros Hd.
  assert (signum = trailing_zeros bits) as -> by (repeat case_match; simplify_eq; done).
  destruct bits as [|p|p]; [done| |].
  - by apply (trailing_zeros_spec (Zpos p)).
  - cbn [trailing_zeros] in Hd. by simplify_eq.
Qed.

(** The handler set up on the stack of the code that entered the kernel last. *)
Lemma setup_handler_eq f u s m fn signum retval :
  setup_and_enter_handler (syscall_entry f u) s m fn signum retval =
  (EnterHandler fn (ret_addr_slot (compute_signal_frame_layout (ctx_rsp u))) 0x202 signum,
   {| ss_pending := ss_pending s; ss_table := ss_table s;
      ss_frame := Some (syscall_context (syscall_entry f u) retval) |},
   <[ret_addr_slot (compute_signal_frame_layout (ctx_rsp u)) := SIGRETURN_TRAMPOLINE_VA]>
     (write_words m (ctx_addr (compute_signal_frame_layout (ctx_rsp u)))
       (ctx_words (syscall_context (syscall_entry f u) retval)))).
Proof. reflexivity. Qed.

(** ** Claims *)

(** One call takes exactly the lowest pending signal and leaves the others.
    SIGKILL terminates whatever the table says; a handler is delivered with its
    signal number; an ignored signal, or a default one other than SIGTERM, has no
    effect. *)
Theorem decide_next_signal_correct bits table outcome bits' :
  is_u64 bits -> length table = 32%nat -> decide_next_signal bits table = (outcome, bits') ->
  (bits = 0 /\ outcome = OutcomeNone /\ bits' = 0) \/
  exists n, 0 <= n < 64 /\ Z.testbit bits n = true /\ (forall i, 0 <= i < n -> Z.testbit bits i = false) /\
    (forall i, 0 <= i -> Z.testbit bits' i = Z.testbit bits i && negb (i =? n)) /\
    (n = SIGKILL -> outcome = Terminate SIGKILL) /\
    (n <> SIGKILL -> outcome =
      match table !! Z.to_nat n with
      | Some (SigHandler f) => Deliver f n
      | Some SigDefault => if n =? SIGTERM then Terminate n else OutcomeNone
      | _ => OutcomeNone
      end).
Proof.
  intros Hb Hlen. unfold decide_next_signal, PendingSet_take_any.
  destruct (Z.eqb_spec bits 0) as [->|Hne]; [intros [= <- <-]; by left|]. intros [= Ho <-]. right.
  unfold is_u64 in Hb. destruct (trailing_zeros_spec bits ltac:(lia)) as (H0 & H1 & H2).
  pose proof (trailing_zeros_lt bits 64 ltac:(lia) ltac:(lia)) as Hlt.
  exists (trailing_zeros bits). set (n := trailing_zeros bits) in *. split_and!; try done.
  - intros i Hi. unfold not64, shl64, wrap64, wrapw.
    rewrite Z.land_spec, Z.lxor_spec, testbit_ones, testbit_mod_pow2, testbit_shiftl by lia.
    rewrite (proj2 (Z.leb_le 0 i)) by lia. destruct (Z.ltb_spec i 64) as [Hi64|Hi64].
    + cbn [andb]. rewrite xorb_true_r. f_equal. f_equal.
      destruct (Z.leb_spec n i) as [Hni|Hni]; cbn [andb].
      * change (Z.testbit 1 (i - n)) with (Z.testbit (2 ^ 0) (i - n)). rewrite testbit_pow2 by lia.
        destruct (Z.eqb_spec 0 (i - n)), (Z.eqb_spec i n); lia || done.
      * destruct (Z.eqb_spec i n); [lia|done].
    + rewrite (testbit_small bits 64 i) by lia. done.
  - intros Hk. rewrite <- Ho, Hk. done.
  - intros Hk. rewrite <- Ho, (proj2 (Z.eqb_neq _ _) Hk). unfold NSIG.
    destruct (Z.leb_spec 32 n) as [H|H].
    + rewrite lookup_ge_None_2 by lia. done.
    + destruct (lookup_lt_is_Some_2 table (Z.to_nat n) ltac:(lia)) as [a ->]. by destruct a.
Qed.

Lemma decide_next_signal_correct_witness :
  exists n, Z.testbit (2 ^ 9 + 2 ^ 15) n = true /\ (n = SIGKILL -> Terminate 9 = Terminate SIGKILL).
Proof.
  destruct (decide_next_signal_correct (2 ^ 9 + 2 ^ 15) SigTable_new (Terminate 9) (2 ^ 15))
    as [[Hx _]|(n & _ & Hn & _ & _ & Hk & _)];
    [unfold is_u64; lia | reflexivity | vm_compute; reflexivity | discriminate | by exists n].
Defined.

(** The registers a system call must preserve. *)
Definition same_user_state (u v : SavedUserContext) : Prop :=
  ctx_rip v = ctx_rip u /\ ctx_rsp v = ctx_rsp u /\ ctx_rflags v = ctx_rflags u /\ ctx_rbx v = ctx_rbx u /\
  ctx_rbp v = ctx_rbp u /\ ctx_r12 v = ctx_r12 u /\ ctx_r13 v = ctx_r13 u /\ ctx_r14 v = ctx_r14 u /\
  ctx_r15 v = ctx_r15 u.

(** A handler that runs on the way out of a system call is entered below the
    red zone of the interrupted stack, on a stack aligned as a call leaves it,
    with the signal number as its argument and the trampoline as its return
    address; [sigreturn] then resumes the interrupted code with the result of
    the system call and its registers, whatever the handler did to memory. *)
Theorem signal_handler_roundtrip f u s m retval d s' m' :
  288 <= ctx_rsp u < 2 ^ 64 -> ss_frame s = None ->
  deliver_on_syscall_return (syscall_entry f u) s m retval = (d, s', m') ->
  (exists r, d = ResumeSyscall r /\ r = retval) \/ (exists code, d = ExitProcess code) \/
  exists fn rsp signum regs s'', d = EnterHandler fn rsp 0x202 signum /\
    Z.testbit (ss_pending s) signum = true /\
    rsp mod 16 = 8 /\ rsp + 8 + CTX_SIZE <= ctx_rsp u - 128 /\ m' !! rsp = Some SIGRETURN_TRAMPOLINE_VA /\
    sys_sigreturn s' = (RestoreAll regs, s'') /\ ss_frame s'' = None /\
    same_user_state u regs /\ ctx_rax regs = wrap64 retval.
Proof.
  intros Hr Hs. unfold deliver_on_syscall_return. rewrite Hs.
  destruct (decide_next_signal (ss_pending s) (ss_table s)) as [outcome bits] eqn:Hd.
  destruct outcome as [|signum|fn signum]; [intros [= <- <- <-]; eauto..|].
  destruct (signal_frame_layout (ctx_rsp u) ltac:(lia)) as (Ha & Hslot & Hb).
  rewrite setup_handler_eq, Hslot. set (a := ctx_addr (compute_signal_frame_layout (ctx_rsp u))) in *.
  clearbody a. intros [= <- <- <-]. right. right.
  exists fn, (a - 8), signum. do 2 eexists. split; [reflexivity|]. split_and!; try done.
  - by eapply decide_next_signal_pending.
  - replace (a - 8) with (8 + (a - 16)) by lia. rewrite Z.add_mod by lia.
    replace (a - 16) with (a + (-1) * 16) by lia. rewrite Z.mod_add, Ha by lia. done.
  - lia.
  - apply lookup_insert_eq.
Qed.

Definition regs_at (rip rsp rbx : Z) : SavedUserContext :=
  {| ctx_rip := rip; ctx_rsp := rsp; ctx_rflags := 0x202; ctx_rax := 0; ctx_rbx := rbx; ctx_rcx := 0;
     ctx_rdx := 0; ctx_rsi := 0; ctx_rdi := 0; ctx_rbp := 0; ctx_r8 := 0; ctx_r9 := 0; ctx_r10 := 0;
     ctx_r11 := 0; ctx_r12 := 0; ctx_r13 := 0; ctx_r14 := 0; ctx_r15 := 0 |}.

Definition idle_frame : SyscallFrame :=
  {| sf_rip := 0; sf_rsp := 0; sf_rflags := 0; sf_rbx := 0; sf_rbp := 0; sf_r12 := 0; sf_r13 := 0;
     sf_r14 := 0; sf_r15 := 0 |}.

(** SIGUSR1 pending with the handler at 0x401000. *)
Definition usr1_state : sig_state :=
  {| ss_pending := 2 ^ 10; ss_table := <[10%nat := SigHandler 0x401000]> SigTable_new; ss_frame := None |}.

Lemma signal_handler_roundtrip_witness :
  exists regs s'', sys_sigreturn (snd (fst (deliver_on_syscall_return
      (syscall_entry idle_frame (regs_at 0x400100 0x7fffffff0000 7)) usr1_state ∅ 42))) = (RestoreAll regs, s'') /\
    ctx_rip regs = 0x400100 /\ ctx_rbx regs = 7 /\ ctx_rax regs = 42.
Proof.
  assert (match fst (fst (deliver_on_syscall_return
      (syscall_entry idle_frame (regs_at 0x400100 0x7fffffff0000 7)) usr1_state ∅ 42)) with
    | EnterHandler _ _ _ _ => true | _ => false end = true) as He by (vm_compute; reflexivity).
  destruct (deliver_on_syscall_return (syscall_entry idle_frame (regs_at 0x400100 0x7fffffff0000 7)) usr1_state ∅ 42)
    as [[d s'] m'] eqn:Hd. cbn [fst] in He.
  destruct (signal_handler_roundtrip idle_frame (regs_at 0x400100 0x7fffffff0000 7) usr1_state ∅ 42 d s' m')
    as [(r & -> & _)|[(code & ->)|(fn & rsp & n & regs & s'' & _ & _ & _ & _ & _ & Hr & _ & Hsame & Hrax)]].
  - cbn [regs_at ctx_rsp]. lia.
  - reflexivity.
  - exact Hd.
  - discriminate He.
  - discriminate He.
  - exists regs, s''. split; [exact Hr|]. destruct Hsame as (H1 & _ & _ & H2 & _). split_and!; [exact H1|exact H2|exact Hrax].
Defined.

(** The stack pointer the frame is written below is the user's, and it is not
    checked.  For every aligned address [a], a kernel address included, a process
    with a pending signal and a handler makes the kernel write a word of its
    choice at [a]: the value of its RBX. *)
Theorem signal_frame_writes_anywhere a v f s m retval user_fn signum bits :
  512 <= a -> a + 512 < 2 ^ 64 -> a mod 16 = 0 -> ss_frame s = None ->
  decide_next_signal (ss_pending s) (ss_table s) = (Deliver user_fn signum, bits) ->
  snd (deliver_on_syscall_return (syscall_entry f (regs_at 0x400000 (a + 240) v)) s m retval) !! a = Some v.
Proof.
  intros Ha Htop Hal Hs Hd. unfold deliver_on_syscall_return. rewrite Hs, Hd, setup_handler_eq.
  pose proof (signal_frame_word m (syscall_context (syscall_entry f (regs_at 0x400000 (a + 240) v)) retval)
    (a + 240) 4 v ltac:(lia) eq_refl) as Hw.
  destruct (signal_frame_layout (a + 240) ltac:(lia)) as (Hm & _ & Hb).
  unfold write_signal_frame in Hw. cbn [snd] in Hw.
  replace (ctx_addr (compute_signal_frame_layout (a + 240)) + 8 * Z.of_nat 4) with a in Hw; [exact Hw|].
  set (c := ctx_addr (compute_signal_frame_layout (a + 240))) in *.
  unfold CTX_SIZE in Hb. apply Z.mod_divide in Hm as [k Hk]; [|lia]. apply Z.mod_divide in Hal as [j Hj]; [|lia]. lia.
Qed.

(** A word of the direct map of physical memory. *)
Lemma signal_frame_writes_anywhere_witness :
  snd (deliver_on_syscall_return
    (syscall_entry idle_frame (regs_at 0x400000 (0xffff800000001000 + 240) 0xbad)) usr1_state ∅ 0)
    !! 0xffff800000001000 = Some 0xbad.
Proof.
  apply (signal_frame_writes_anywhere 0xffff800000001000 0xbad idle_frame usr1_state ∅ 0 0x401000 10 0);
    [lia | lia | reflexivity | reflexivity | vm_compute; reflexivity].
Defined.

(** The registers saved for [sigreturn] come from a slot of the processor, not
    of the thread.  When a system call of [u] blocks and another process [v]
    enters the kernel on the same processor before a handler of the first is set
    up, the handler is entered on the stack of [v] and [sigreturn] resumes the
    first process with the registers of [v]. *)
Theorem blocked_syscall_saves_foreign_context f u v s m retval user_fn signum bits :
  ss_frame s = None ->
  decide_next_signal (ss_pending s) (ss_table s) = (Deliver user_fn signum, bits) ->
  exists rsp s' m' regs s'',
    deliver_on_syscall_return (syscall_entry (syscall_entry f u) v) s m retval =
      (EnterHandler user_fn rsp 0x202 signum, s', m') /\
    rsp = ret_addr_slot (compute_signal_frame_layout (ctx_rsp v)) /\
    sys_sigreturn s' = (RestoreAll regs, s'') /\ same_user_state v regs.
Proof.
  intros Hs Hd. unfold deliver_on_syscall_return. rewrite Hs, Hd, setup_handler_eq.
  do 5 eexists. split; [reflexivity|]. split; [reflexivity|]. split; [reflexivity|].
  unfold same_user_state. cbn. split_and!; reflexivity.
Qed.

Lemma blocked_syscall_saves_foreign_context_witness :
  exists regs s'', sys_sigreturn (snd (fst (deliver_on_syscall_return
      (syscall_entry (syscall_entry idle_frame (regs_at 0x400100 0x7fffffff0000 7))
        (regs_at 0x500200 0x7ffffffe0000 8)) usr1_state ∅ 0))) = (RestoreAll regs, s'') /\
    ctx_rip regs = 0x500200.
Proof.
  destruct (blocked_syscall_saves_foreign_context idle_frame (regs_at 0x400100 0x7fffffff0000 7)
    (regs_at 0x500200 0x7ffffffe0000 8) usr1_state ∅ 0 0x401000 10 0)
    as (rsp & s' & m' & regs & s'' & Hd & _ & Hr & Hsame).
  - reflexivity.
  - vm_compute. reflexivity.
  - exists regs, s''. rewrite Hd. split; [exact Hr|]. apply Hsame.
Defined.

(** While a handler is in flight nothing is delivered, SIGKILL included: a
    process that stays in a handler is not terminated by any pending signal. *)
Theorem sigkill_waits_for_handler f s m retval c n :
  ss_frame s = Some c ->
  let killed := set_pending s (PendingSet_raise (ss_pending s) n) in
  deliver_on_syscall_return f killed m retval = (ResumeSyscall retval, killed, m) /\
  check_and_deliver_iret c killed m = (Some c, killed, m).
Proof.
  intros Hs killed. unfold deliver_on_syscall_return, check_and_deliver_iret, killed.
  cbn [set_pending ss_frame]. by rewrite Hs.
Qed.

Lemma sigkill_waits_for_handler_witness :
  fst (fst (deliver_on_syscall_return idle_frame
    (set_pending {| ss_pending := 0; ss_table := SigTable_new; ss_frame := Some (regs_at 0x400000 0x7fffffff0000 0) |}
       (PendingSet_raise 0 SIGKILL)) ∅ 5)) = ResumeSyscall 5.
Proof.
  destruct (sigkill_waits_for_handler idle_frame
    {| ss_pending := 0; ss_table := SigTable_new; ss_frame := Some (regs_at 0x400000 0x7fffffff0000 0) |}
    ∅ 5 (regs_at 0x400000 0x7fffffff0000 0) SIGKILL eq_refl) as [H _].
  cbn [ss_pending] in H. rewrite H. reflexivity.
Defined.
