(* ===== verification/RunQueue.v ===== *)
(** * Run queues: rings of thread pointers, one per priority level

    [RingQueue] and [MlfqQueue] of crates/sched/src/queue.rs.  A queue belongs to a
    processor and is used under the lock of that processor, so its operations are
    sequential here. *)

From Stdlib Require Import ZArith Lia.
From stdpp Require Import prelude list.
From S2P Require Import Prelude.

Local Open Scope Z_scope.

Definition MLFQ_LEVELS : nat := 8.

Definition QUEUE_DEPTH : Z := 256.

Definition BOOST_INTERVAL : Z := 1000.

(** [1 << level] on a u32. *)
Definition timeslice (level : Z) : Z := wrap32 (Z.shiftl 1 level).

Record RingQueue := { rq_buf : list Z; rq_head : Z; rq_tail : Z }.

Definition RingQueue_new : RingQueue :=
  {| rq_buf := replicate (Z.to_nat QUEUE_DEPTH) 0; rq_head := 0; rq_tail := 0 |}.

Definition RingQueue_push (r : RingQueue) (thread : Z) : bool * RingQueue :=
  let tail := rq_tail r in
  let next := (tail + 1) mod QUEUE_DEPTH in
  if next =? rq_head r then (false, r)
  else (true, {| rq_buf := <[Z.to_nat tail := thread]> (rq_buf r); rq_head := rq_head r; rq_tail := next |}).

Definition RingQueue_pop (r : RingQueue) : option Z * RingQueue :=
  let head := rq_head r in
  if head =? rq_tail r then (None, r)
  else
    let raw := default 0 (rq_buf r !! Z.to_nat head) in
    (Some raw, {| rq_buf := rq_buf r; rq_head := (head + 1) mod QUEUE_DEPTH; rq_tail := rq_tail r |}).

Record MlfqQueue := { mq_levels : list RingQueue; mq_total : Z }.

Definition MlfqQueue_new : MlfqQueue :=
  {| mq_levels := replicate MLFQ_LEVELS RingQueue_new; mq_total := 0 |}.

(** [self.levels[level].push(thread)] with the counter left alone. *)
Definition level_push (ls : list RingQueue) (level : nat) (thread : Z) : bool * list RingQueue :=
  match ls !! level with
  | Some r => let '(ok, r') := RingQueue_push r thread in (ok, <[level := r']> ls)
  | None => (false, ls)
  end.

Definition MlfqQueue_push (q : MlfqQueue) (thread : Z) (level : nat) : bool * MlfqQueue :=
  let level := Nat.min level (MLFQ_LEVELS - 1) in
  let '(ok, ls) := level_push (mq_levels q) level thread in
  (ok, {| mq_levels := ls; mq_total := if ok then wrap32 (mq_total q + 1) else mq_total q |}).

(** The first level that yields a thread. *)
Fixpoint pop_levels (ls : list RingQueue) : option Z * list RingQueue :=
  match ls with
  | [] => (None, [])
  | r :: ls' =>
      match RingQueue_pop r with
      | (Some t, r') => (Some t, r' :: ls')
      | (None, r') => let '(o, ls'') := pop_levels ls' in (o, r' :: ls'')
      end
  end.

Definition MlfqQueue_pop (q : MlfqQueue) : option Z * MlfqQueue :=
  let '(o, ls) := pop_levels (mq_levels q) in
  (o, {| mq_levels := ls;
         mq_total := match o with Some _ => wrap32 (mq_total q - 1) | None => mq_total q end |}).

(** [steal_into]: [prio] gives the priority field of a thread. *)
Fixpoint steal_into (prio : Z -> nat) (src dst : MlfqQueue) (n : nat) : nat * MlfqQueue * MlfqQueue :=
  match n with
  | O => (O, src, dst)
  | S n' =>
      match MlfqQueue_pop src with
      | (None, src') => (O, src', dst)
      | (Some thread, src') =>
          let level := prio thread in
          match MlfqQueue_push dst thread level with
          | (false, dst') => (O, snd (MlfqQueue_push src' thread level), dst')
          | (true, dst') =>
              let '(stolen, src'', dst'') := steal_into prio src' dst' n' in
              (S stolen, src'', dst'')
          end
      end
  end.

(** The inner loop of [boost_all] on one level, at most [fuel] rounds; the list
    collects the threads whose priority and ticks it resets. *)
Fixpoint boost_level (fuel : nat) (ls : list RingQueue) (level : nat) : list Z * list RingQueue :=
  match fuel with
  | O => ([], ls)
  | S fuel' =>
      match ls !! level with
      | None => ([], ls)
      | Some r =>
          match RingQueue_pop r with
          | (None, _) => ([], ls)
          | (Some thread, r') =>
              let ls1 := <[level := r']> ls in
              match level_push ls1 0 thread with
              | (true, ls2) => let '(boosted, ls3) := boost_level fuel' ls2 level in (thread :: boosted, ls3)
              | (false, ls2) => ([thread], snd (level_push ls2 level thread))
              end
          end
      end
  end.

(** [boost_all]: levels 1 and up are emptied into level 0. *)
Definition boost_all (q : MlfqQueue) : list Z * MlfqQueue :=
  let '(boosted, ls) :=
    foldl (fun '(acc, ls) level =>
             let '(b, ls') := boost_level (Z.to_nat QUEUE_DEPTH) ls level in (acc ++ b, ls'))
          ([], mq_levels q) (seq 1 (MLFQ_LEVELS - 1)) in
  (boosted, {| mq_levels := ls; mq_total := mq_total q |}).

(** ** A ring holds a list *)

Definition rq_len (r : RingQueue) : Z := (rq_tail r - rq_head r) mod 256.

Definition rq_contents (r : RingQueue) : list Z :=
  (fun i => default 0 (rq_buf r !! Z.to_nat ((rq_head r + Z.of_nat i) mod 256))) <$> seq 0 (Z.to_nat (rq_len r)).

Record rq_ok (r : RingQueue) : Prop := {
  rqo_buf : length (rq_buf r) = 256%nat;
  rqo_head : 0 <= rq_head r < 256;
  rqo_tail : 0 <= rq_tail r < 256
}.

Lemma rq_contents_length r : Z.of_nat (length (rq_contents r)) = rq_len r.
Proof.
  unfold rq_contents. rewrite length_fmap, length_seq.
  pose proof (Z.mod_pos_bound (rq_tail r - rq_head r) 256 ltac:(lia)). unfold rq_len. lia.
Qed.

Lemma ring_push_spec r t :
  rq_ok r ->
  (Z.of_nat (length (rq_contents r)) = 255 /\ RingQueue_push r t = (false, r)) \/
  (Z.of_nat (length (rq_contents r)) < 255 /\
   exists r', RingQueue_push r t = (true, r') /\ rq_ok r' /\ rq_contents r' = rq_contents r ++ [t]).
Proof.
  intros [Hb Hh Ht]. rewrite rq_contents_length. unfold RingQueue_push, QUEUE_DEPTH, rq_len.
  destruct (Z.eqb_spec ((rq_tail r + 1) mod 256) (rq_head r)) as [He|He]; [left|right].
  - split; [|done]. Z.div_mod_to_equations. lia.
  - assert ((rq_tail r - rq_head r) mod 256 < 255) as Hlt by (Z.div_mod_to_equations; lia).
    split; [done|]. eexists. split; [reflexivity|]. split.
    + constructor; cbn [rq_buf rq_head rq_tail]; [by rewrite length_insert|done|].
      apply Z.mod_pos_bound. lia.
    + unfold rq_contents, rq_len. cbn [rq_buf rq_head rq_tail].
      set (n := (rq_tail r - rq_head r) mod 256) in *.
      assert (((rq_tail r + 1) mod 256 - rq_head r) mod 256 = n + 1) as -> by (unfold n in *; Z.div_mod_to_equations; lia).
      assert (0 <= n) as Hn by (apply Z.mod_pos_bound; lia).
      replace (Z.to_nat (n + 1)) with (Z.to_nat n + 1)%nat by lia.
      rewrite seq_app, fmap_app. f_equal.
      * apply list_fmap_ext. intros i x Hi. apply lookup_seq in Hi as [-> Hi].
        rewrite list_lookup_insert_ne; [done|]. unfold n in *. Z.div_mod_to_equations. lia.
      * cbn [seq fmap list_fmap]. f_equal.
        replace (Z.to_nat ((rq_head r + Z.of_nat (0 + Z.to_nat n)) mod 256)) with (Z.to_nat (rq_tail r))
          by (unfold n in *; f_equal; Z.div_mod_to_equations; lia).
        rewrite list_lookup_insert_eq by lia. done.
Qed.

Lemma ring_pop_spec r :
  rq_ok r ->
  (rq_contents r = [] /\ RingQueue_pop r = (None, r)) \/
  (exists t r', rq_contents r = t :: rq_contents r' /\ RingQueue_pop r = (Some t, r') /\ rq_ok r').
Proof.
  intros [Hb Hh Ht]. unfold RingQueue_pop, QUEUE_DEPTH.
  destruct (Z.eqb_spec (rq_head r) (rq_tail r)) as [He|He]; [left|right].
  - split; [|done]. unfold rq_contents, rq_len. rewrite He, Z.sub_diag. done.
  - do 2 eexists. split; [|split; [reflexivity|]].
    + unfold rq_contents, rq_len. cbn [rq_buf rq_head rq_tail].
      set (n := (rq_tail r - rq_head r) mod 256).
      assert (((rq_tail r - (rq_head r + 1) mod 256) mod 256) = n - 1) as -> by (unfold n; Z.div_mod_to_equations; lia).
      assert (0 < n) as Hn by (unfold n; Z.div_mod_to_equations; lia).
      replace (Z.to_nat n) with (S (Z.to_nat (n - 1))) by lia. cbn [seq fmap list_fmap]. f_equal.
      * f_equal. rewrite Z.add_0_r, Z.mod_small by lia. done.
      * rewrite <- fmap_S_seq, <- list_fmap_compose. apply list_fmap_ext. intros i x Hi. unfold compose.
        f_equal. rewrite Zplus_mod_idemp_l. do 3 f_equal. lia.
    + constructor; cbn [rq_buf rq_head rq_tail]; [done| |done]. apply Z.mod_pos_bound. lia.
Qed.

(** ** The levels as lists *)

Definition mq_view (q : MlfqQueue) : list (list Z) := rq_contents <$> mq_levels q.

(** The threads of a queue, highest priority first. *)
Definition mq_threads (q : MlfqQueue) : list Z := concat (mq_view q).

Record mq_ok (q : MlfqQueue) : Prop := {
  mqo_len : length (mq_levels q) = 8%nat;
  mqo_rings : Forall rq_ok (mq_levels q);
  mqo_total : mq_total q = Z.of_nat (length (mq_threads q))
}.

Lemma ring_bound r : (length (rq_contents r) < 256)%nat.
Proof.
  pose proof (rq_contents_length r) as H.
  pose proof (Z.mod_pos_bound (rq_tail r - rq_head r) 256 ltac:(lia)). unfold rq_len in H. lia.
Qed.

Lemma concat_bound (ls : list RingQueue) : (length (concat (rq_contents <$> ls)) <= 255 * length ls)%nat.
Proof.
  induction ls as [|r ls IH]; [done|]. cbn [fmap list_fmap concat length].
  rewrite length_app. pose proof (ring_bound r). lia.
Qed.

Lemma mq_threads_bound q : mq_ok q -> Z.of_nat (length (mq_threads q)) <= 2040.
Proof. intros Hq. pose proof (concat_bound (mq_levels q)). rewrite (mqo_len _ Hq) in *. unfold mq_threads, mq_view. lia. Qed.

Lemma level_push_spec ls level t :
  Forall rq_ok ls -> (level < length ls)%nat ->
  (exists l, (rq_contents <$> ls) !! level = Some l /\ length l = 255%nat /\ level_push ls level t = (false, ls)) \/
  (exists l ls', (rq_contents <$> ls) !! level = Some l /\ (length l < 255)%nat /\
     level_push ls level t = (true, ls') /\ Forall rq_ok ls' /\
     rq_contents <$> ls' = <[level := l ++ [t]]> (rq_contents <$> ls)).
Proof.
  intros Hall Hlt. destruct (lookup_lt_is_Some_2 ls level Hlt) as [r Hr].
  pose proof (Forall_lookup_1 _ _ _ _ Hall Hr) as Hok. unfold level_push. rewrite Hr, list_lookup_fmap, Hr.
  destruct (ring_push_spec r t Hok) as [[Hl ->]|(Hl & r' & -> & Hok' & Hc)]; [left|right].
  - exists (rq_contents r). rewrite list_insert_id by done. split_and!; [done|lia|done].
  - exists (rq_contents r), (<[level := r']> ls). split_and!; [done|lia|done| |].
    + by apply Forall_insert.
    + by rewrite list_fmap_insert, Hc.
Qed.

Lemma concat_insert_snoc (ls : list (list Z)) i l t :
  ls !! i = Some l -> concat (<[i := l ++ [t]]> ls) ≡ₚ t :: concat ls.
Proof.
  revert i. induction ls as [|a ls IH]; intros [|i] Hi; try done; cbn [lookup list_lookup] in Hi.
  - injection Hi as ->. cbn [insert list_insert concat]. rewrite <- app_assoc.
    rewrite (Permutation_app_comm l ([t] ++ concat ls)). simpl. by rewrite (Permutation_app_comm l).
  - change (<[S i := l ++ [t]]> (a :: ls)) with (a :: <[i := l ++ [t]]> ls). cbn [concat].
    rewrite (IH i Hi). by rewrite Permutation_middle.
Qed.

Lemma concat_insert_tail (ls : list (list Z)) i l t :
  ls !! i = Some (t :: l) -> concat ls ≡ₚ t :: concat (<[i := l]> ls).
Proof.
  revert i. induction ls as [|a ls IH]; intros [|i] Hi; try done; cbn [lookup list_lookup] in Hi.
  - by injection Hi as ->.
  - change (<[S i := l]> (a :: ls)) with (a :: <[i := l]> ls). cbn [concat].
    rewrite (IH i Hi). by rewrite Permutation_middle.
Qed.

Lemma mlfq_push_spec q t level :
  mq_ok q ->
  let lv := Nat.min level 7 in
  (exists l, mq_view q !! lv = Some l /\ length l = 255%nat /\ MlfqQueue_push q t level = (false, q)) \/
  (exists l q', mq_view q !! lv = Some l /\ (length l < 255)%nat /\ MlfqQueue_push q t level = (true, q') /\
     mq_ok q' /\ mq_view q' = <[lv := l ++ [t]]> (mq_view q)).
Proof.
  intros Hq lv. pose proof (mqo_len _ Hq) as Hlen. unfold MlfqQueue_push, MLFQ_LEVELS.
  change (8 - 1)%nat with 7%nat. fold lv.
  destruct (level_push_spec (mq_levels q) lv t (mqo_rings _ Hq) ltac:(lia))
    as [(l & Hl & Hfull & ->)|(l & ls' & Hl & Hroom & -> & Hok & Hv)]; [left|right].
  - exists l. split_and!; [done..|]. by destruct q.
  - exists l. eexists. split_and!; [done|done|reflexivity| |done].
    assert (concat (rq_contents <$> ls') ≡ₚ t :: mq_threads q) as Hp
      by (rewrite Hv; by apply concat_insert_snoc).
    constructor; cbn [mq_levels mq_total]; [|done|].
    + apply (f_equal length) in Hv. rewrite length_insert, !length_fmap in Hv. lia.
    + unfold mq_threads at 1, mq_view. cbn [mq_levels]. rewrite (Permutation_length Hp). cbn [length].
      rewrite (mqo_total _ Hq). pose proof (mq_threads_bound q Hq). unfold wrap32, wrapw. rewrite Z.mod_small; lia.
Qed.

Lemma pop_levels_spec ls :
  Forall rq_ok ls ->
  (concat (rq_contents <$> ls) = [] /\ pop_levels ls = (None, ls)) \/
  (exists lv t l ls', (forall j, (j < lv)%nat -> (rq_contents <$> ls) !! j = Some []) /\
     (rq_contents <$> ls) !! lv = Some (t :: l) /\ pop_levels ls = (Some t, ls') /\
     Forall rq_ok ls' /\ rq_contents <$> ls' = <[lv := l]> (rq_contents <$> ls)).
Proof.
  induction ls as [|r ls IH]; intros Hall; [by left|]. apply Forall_cons in Hall as [Hr Hls].
  cbn [pop_levels fmap list_fmap concat].
  destruct (ring_pop_spec r Hr) as [[He ->]|(t & r' & Hc & -> & Hr')].
  - rewrite He. destruct (IH Hls) as [[Hn ->]|(lv & t & l & ls' & Hj & Hl & -> & Hok & Hv)]; [by left|right].
    exists (S lv), t, l, (r :: ls'). split_and!.
    + intros [|j] Hlt; [done|]. apply Hj. lia.
    + done.
    + done.
    + by constructor.
    + change (<[S lv := l]> ([] :: (rq_contents <$> ls))) with ([] :: <[lv := l]> (rq_contents <$> ls)).
      rewrite <- Hv, <- He. done.
  - right. exists 0%nat, t, (rq_contents r'), (r' :: ls). split_and!; [lia|by rewrite Hc|done|by constructor|done].
Qed.

Lemma mlfq_pop_spec q :
  mq_ok q ->
  (mq_threads q = [] /\ MlfqQueue_pop q = (None, q)) \/
  (exists lv t l q', (forall j, (j < lv)%nat -> mq_view q !! j = Some []) /\
     mq_view q !! lv = Some (t :: l) /\ MlfqQueue_pop q = (Some t, q') /\ mq_ok q' /\
     mq_view q' = <[lv := l]> (mq_view q)).
Proof.
  intros Hq. unfold MlfqQueue_pop.
  destruct (pop_levels_spec (mq_levels q) (mqo_rings _ Hq))
    as [[Hn ->]|(lv & t & l & ls' & Hj & Hl & -> & Hok & Hv)]; [left|right].
  - split; [done|]. by destruct q.
  - exists lv, t, l. eexists. split_and!; [done|done|reflexivity| |done].
    assert (mq_threads q ≡ₚ t :: concat (rq_contents <$> ls')) as Hp
      by (rewrite Hv; by apply concat_insert_tail).
    constructor; cbn [mq_levels mq_total]; [|done|].
    + apply (f_equal length) in Hv. rewrite length_insert, !length_fmap in Hv. rewrite Hv. apply Hq.
    + unfold mq_threads at 1, mq_view. cbn [mq_levels]. apply Permutation_length in Hp. cbn [length] in Hp.
      rewrite (mqo_total _ Hq). pose proof (mq_threads_bound q Hq). unfold wrap32, wrapw. rewrite Z.mod_small; lia.
Qed.

Lemma mlfq_push_threads q t level ok q' :
  mq_ok q -> MlfqQueue_push q t level = (ok, q') ->
  mq_ok q' /\ mq_threads q' ≡ₚ if ok then t :: mq_threads q else mq_threads q.
Proof.
  intros Hq Hp. destruct (mlfq_push_spec q t level Hq) as [(l & _ & _ & H)|(l & q1 & Hl & _ & H & Hok & Hv)];
    rewrite H in Hp; injection Hp as <- <-; [done|]. split; [done|].
  unfold mq_threads at 1. rewrite Hv. by apply concat_insert_snoc.
Qed.

Lemma mlfq_pop_threads q o q' :
  mq_ok q -> MlfqQueue_pop q = (o, q') ->
  mq_ok q' /\ mq_threads q ≡ₚ option_list o ++ mq_threads q'.
Proof.
  intros Hq Hp. destruct (mlfq_pop_spec q Hq) as [[Hn H]|(lv & t & l & q1 & _ & Hl & H & Hok & Hv)];
    rewrite H in Hp; injection Hp as <- <-; [done|]. split; [done|]. simpl.
  unfold mq_threads at 2. rewrite Hv. by apply concat_insert_tail.
Qed.

(** ** Stealing and boosting lose no thread *)

(** A queue with fewer than 255 threads has room at every level. *)
Lemma mlfq_push_room q t level :
  mq_ok q -> (length (mq_threads q) < 255)%nat ->
  exists q', MlfqQueue_push q t level = (true, q') /\ mq_ok q' /\ mq_threads q' ≡ₚ t :: mq_threads q.
Proof.
  intros Hq Hlt. destruct (mlfq_push_spec q t level Hq) as [(l & Hl & Hfull & _)|(l & q' & Hl & _ & E & Hok & _)].
  - apply list_elem_of_lookup_2, list_elem_of_split in Hl as (l1 & l2 & Hv).
    unfold mq_threads in Hlt. rewrite Hv, concat_app in Hlt. cbn [concat] in Hlt. rewrite !length_app in Hlt. lia.
  - exists q'. split_and!; [done..|]. by apply (mlfq_push_threads q t level true q' Hq E).
Qed.

Lemma steal_into_threads prio n : forall src dst k src' dst',
  mq_ok src -> mq_ok dst -> (length (mq_threads src ++ mq_threads dst) <= 255)%nat ->
  steal_into prio src dst n = (k, src', dst') ->
  mq_ok src' /\ mq_ok dst' /\ mq_threads src' ++ mq_threads dst' ≡ₚ mq_threads src ++ mq_threads dst.
Proof.
  induction n as [|n IH]; intros src dst k src' dst' Hs Hd Hlen H; cbn [steal_into] in H; [by simplify_eq|].
  destruct (MlfqQueue_pop src) as [o src1] eqn:Hpop. pose proof (mlfq_pop_threads _ _ _ Hs Hpop) as [Hs1 Hth].
  destruct o as [t|]; [|simplify_eq; by rewrite Hth].
  change (option_list (Some t) ++ mq_threads src1) with (t :: mq_threads src1) in Hth.
  rewrite length_app in Hlen. pose proof (Permutation_length Hth) as Hl. cbn [length] in Hl.
  destruct (mlfq_push_room dst t (prio t) Hd ltac:(lia)) as (dst1 & E & Hd1 & Hth1). rewrite E in H.
  destruct (steal_into prio src1 dst1 n) as [[k1 src2] dst2] eqn:Hrec. simplify_eq.
  pose proof (Permutation_length Hth1) as Hl1. cbn [length] in Hl1.
  assert (length (mq_threads src1 ++ mq_threads dst1) <= 255)%nat as Hlen1 by (rewrite length_app; lia).
  destruct (IH _ _ _ _ _ Hs1 Hd1 Hlen1 Hrec) as (? & ? & Hperm).
  split_and!; try done. rewrite Hperm, Hth1, Hth. by rewrite <- Permutation_middle.
Qed.

Lemma level_pop_view (ls : list RingQueue) level r t r' :
  Forall rq_ok ls -> ls !! level = Some r -> RingQueue_pop r = (Some t, r') ->
  Forall rq_ok (<[level := r']> ls) /\ rq_contents r = t :: rq_contents r' /\
  concat (rq_contents <$> ls) ≡ₚ t :: concat (rq_contents <$> <[level := r']> ls).
Proof.
  intros Hall Hr Hp. pose proof (Forall_lookup_1 _ _ _ _ Hall Hr) as Hok.
  destruct (ring_pop_spec r Hok) as [[_ E]|(t1 & r1 & Hc & E & Hok1)]; rewrite E in Hp; [done|].
  injection Hp as <- <-. split_and!; [by apply Forall_insert|done|].
  rewrite list_fmap_insert. apply concat_insert_tail. rewrite list_lookup_fmap, Hr. simpl. by rewrite Hc.
Qed.

Lemma boost_level_threads fuel : forall ls level boosted ls',
  Forall rq_ok ls -> (0 < level < length ls)%nat -> boost_level fuel ls level = (boosted, ls') ->
  Forall rq_ok ls' /\ length ls' = length ls /\ concat (rq_contents <$> ls') ≡ₚ concat (rq_contents <$> ls).
Proof.
  induction fuel as [|fuel IH]; intros ls level boosted ls' Hall Hlv H; cbn [boost_level] in H; [by simplify_eq|].
  destruct (ls !! level) as [r|] eqn:Hr; [|by simplify_eq].
  destruct (RingQueue_pop r) as [o r'] eqn:Hpop. destruct o as [t|]; [|by simplify_eq].
  destruct (level_pop_view _ _ _ _ _ Hall Hr Hpop) as (Hall1 & Hc & Hp1).
  set (ls1 := <[level := r']> ls) in *. assert (length ls1 = length ls) as Hlen1 by apply length_insert.
  destruct (level_push_spec ls1 0 t Hall1 ltac:(lia)) as [(l & _ & _ & E)|(l & ls2 & Hl & _ & E & Hall2 & Hv)];
    rewrite E in H.
  - destruct (level_push_spec ls1 level t Hall1 ltac:(lia))
      as [(l1 & Hl1 & Hf1 & _)|(l1 & ls3 & Hl1 & _ & E3 & Hall3 & Hv3)].
    + unfold ls1 in Hl1. rewrite list_lookup_fmap, list_lookup_insert_eq in Hl1 by lia. injection Hl1 as <-.
      pose proof (ring_bound r). rewrite Hc in *. cbn [length] in *. lia.
    + rewrite E3 in H. cbn [snd] in H. injection H as <- <-. split; [done|].
      assert (length ls3 = length ls) as ->.
      { apply (f_equal length) in Hv3. rewrite length_insert, !length_fmap in Hv3. lia. }
      split; [done|]. rewrite Hv3, Hp1. by apply concat_insert_snoc.
  - destruct (boost_level fuel ls2 level) as [b ls3] eqn:Hrec. injection H as <- <-.
    assert (length ls2 = length ls) as Hlen2.
    { apply (f_equal length) in Hv. rewrite length_insert, !length_fmap in Hv. lia. }
    destruct (IH ls2 level b ls3 Hall2 ltac:(lia) Hrec) as (Hall3 & Hlen3 & Hp3).
    split_and!; [done|lia|]. rewrite Hp3, Hv, Hp1. by apply concat_insert_snoc.
Qed.

Lemma boost_all_threads q boosted q' :
  mq_ok q -> boost_all q = (boosted, q') -> mq_ok q' /\ mq_threads q' ≡ₚ mq_threads q.
Proof.
  intros Hq H. unfold boost_all in H.
  destruct (foldl _ ([], mq_levels q) _) as [b ls] eqn:Hf. injection H as <- <-.
  assert (Forall rq_ok ls /\ length ls = 8%nat /\ concat (rq_contents <$> ls) ≡ₚ mq_threads q) as (Ha & Hl & Hp).
  { assert (forall lvs acc ls0 acc' ls1,
      Forall (fun lv => 0 < lv < 8)%nat lvs -> Forall rq_ok ls0 -> length ls0 = 8%nat ->
      foldl (fun '(acc, ls) level =>
        let '(b, ls') := boost_level (Z.to_nat QUEUE_DEPTH) ls level in (acc ++ b, ls')) (acc, ls0) lvs = (acc', ls1) ->
      Forall rq_ok ls1 /\ length ls1 = 8%nat /\ concat (rq_contents <$> ls1) ≡ₚ concat (rq_contents <$> ls0)) as Hgen.
    { induction lvs as [|lv lvs IH]; intros acc ls0 acc' ls1 Hlvs Ha Hl E; cbn [foldl] in E; [by simplify_eq|].
      apply Forall_cons in Hlvs as [Hlv Hlvs].
      destruct (boost_level (Z.to_nat QUEUE_DEPTH) ls0 lv) as [b1 ls2] eqn:E1.
      destruct (boost_level_threads (Z.to_nat QUEUE_DEPTH) ls0 lv b1 ls2 Ha ltac:(lia) E1) as (Ha2 & Hl2 & Hp2).
      destruct (IH _ ls2 _ _ Hlvs Ha2 ltac:(lia) E) as (? & ? & Hp3). split_and!; [done..|]. by rewrite Hp3. }
    eapply Hgen; [|apply Hq|apply Hq|exact Hf]. apply Forall_seq. unfold MLFQ_LEVELS. lia. }
  split; [|done]. constructor; cbn [mq_levels mq_total]; [done..|].
  rewrite (mqo_total _ Hq). unfold mq_threads at 2, mq_view. cbn [mq_levels]. by rewrite (Permutation_length Hp).
Qed.

Lemma mlfq_new_ok : mq_ok MlfqQueue_new /\ mq_threads MlfqQueue_new = [].
Proof.
  assert (rq_contents RingQueue_new = []) as Hr by reflexivity.
  split; [constructor; [done| |reflexivity]|reflexivity].
  apply Forall_replicate. constructor; cbn [RingQueue_new rq_buf rq_head rq_tail]; [done|lia|lia].
Qed.

(** ** Claims *)

(** A run queue is eight first-in first-out lists.  A push appends to the list
    of its level and fails only when that list holds 255 threads; a pop takes the
    first thread of the lowest non-empty level and fails only when all are empty;
    the thread count is exact. *)
Theorem mlfq_priority_fifo q :
  mq_ok q ->
  (forall t level, let lv := Nat.min level 7 in
     exists l, mq_view q !! lv = Some l /\
     ((length l = 255%nat /\ MlfqQueue_push q t level = (false, q)) \/
      ((length l < 255)%nat /\ exists q', MlfqQueue_push q t level = (true, q') /\ mq_ok q' /\
         mq_view q' = <[lv := l ++ [t]]> (mq_view q)))) /\
  ((mq_threads q = [] /\ MlfqQueue_pop q = (None, q)) \/
   exists lv t l q', (forall j, (j < lv)%nat -> mq_view q !! j = Some []) /\
     mq_view q !! lv = Some (t :: l) /\ MlfqQueue_pop q = (Some t, q') /\ mq_ok q' /\
     mq_view q' = <[lv := l]> (mq_view q)) /\
  mq_total q = Z.of_nat (length (mq_threads q)).
Proof.
  intros Hq. split_and!; [|by apply mlfq_pop_spec|apply Hq]. intros t level lv.
  destruct (mlfq_push_spec q t level Hq) as [(l & Hl & Hf & E)|(l & q' & Hl & Hr & E & Hok & Hv)];
    exists l; (split; [done|]); [by left | right; eauto 6].
Qed.

Lemma mlfq_priority_fifo_witness :
  exists q', MlfqQueue_push MlfqQueue_new 77 3 = (true, q') /\ mq_view q' = [[]; []; []; [77]; []; []; []; []].
Proof.
  destruct (mlfq_priority_fifo MlfqQueue_new (proj1 mlfq_new_ok)) as [Hp _].
  destruct (Hp 77 3%nat) as (l & Hl & [[Hf _]|(_ & q' & E & _ & Hv)]).
  - injection Hl as <-. discriminate.
  - exists q'. split; [exact E|]. rewrite Hv. injection Hl as <-. reflexivity.
Defined.
