(* ===== verification/Sched.v ===== *)
(** * The scheduler: picking the next thread

    [schedule], [schedule_yield] and [enqueue_thread] of crates/sched/src/lib.rs,
    stealing (steal.rs), time slices (thread.rs) and the wake-up of a blocked thread
    (waitqueue.rs), over the run queues of all processors.  The switch of kernel
    stacks is assembly and not modelled; the extended register state is. *)

From Stdlib Require Import ZArith Lia.
From stdpp Require Import prelude gmap list.
From S2P Require Import Prelude RunQueue.

Local Open Scope Z_scope.

Inductive ThreadState := TRunnable | TRunning | TBlocked | TDead.

(** The scheduling fields of a [Thread]; [th_fpu] is its saved extended state. *)
Record Thread := {
  th_state : ThreadState;
  th_cpu_id : Z;
  th_priority : Z;
  th_ticks_used : Z;
  th_fpu : Z
}.

(** A processor; [sc_fpu] is the content of its extended registers.  The null
    pointer is 0. *)
Record SchedCpu := {
  sc_current : Z;
  sc_idle_thread : Z;
  sc_run_queue : MlfqQueue;
  sc_tick_count : Z;
  sc_steal_cursor : Z;
  sc_fpu : Z
}.

Record sched := { sd_cpus : list SchedCpu; sd_threads : gmap Z Thread }.

Definition MAX_STEAL_BATCH : Z := 8.

Definition set_th_state (st : ThreadState) (th : Thread) : Thread :=
  {| th_state := st; th_cpu_id := th_cpu_id th; th_priority := th_priority th;
     th_ticks_used := th_ticks_used th; th_fpu := th_fpu th |}.

Definition set_th_ticks (ticks : Z) (th : Thread) : Thread :=
  {| th_state := th_state th; th_cpu_id := th_cpu_id th; th_priority := th_priority th;
     th_ticks_used := ticks; th_fpu := th_fpu th |}.

Definition set_th_fpu (fpu : Z) (th : Thread) : Thread :=
  {| th_state := th_state th; th_cpu_id := th_cpu_id th; th_priority := th_priority th;
     th_ticks_used := th_ticks_used th; th_fpu := fpu |}.

(** What [boost_all] does to a thread it moves. *)
Definition boost_thread (th : Thread) : Thread :=
  {| th_state := th_state th; th_cpu_id := th_cpu_id th; th_priority := 0; th_ticks_used := 0; th_fpu := th_fpu th |}.

(** The thread taken to run on processor [cpu]. *)
Definition start_on (cpu : Z) (th : Thread) : Thread :=
  {| th_state := TRunning; th_cpu_id := cpu; th_priority := th_priority th;
     th_ticks_used := th_ticks_used th; th_fpu := th_fpu th |}.

Definition charge_tick (th : Thread) : bool * Thread :=
  let ticks := Z.min (th_ticks_used th + 1) (2 ^ 32 - 1) in
  if ticks <? timeslice (th_priority th) then (false, set_th_ticks ticks th)
  else
    (true, {| th_state := th_state th; th_cpu_id := th_cpu_id th;
              th_priority := if th_priority th <? 7 then th_priority th + 1 else th_priority th;
              th_ticks_used := 0; th_fpu := th_fpu th |}).

Definition prio_of (ths : gmap Z Thread) (t : Z) : nat :=
  match ths !! t with Some th => Z.to_nat (th_priority th) | None => O end.

Definition set_rq (c : SchedCpu) (q : MlfqQueue) : SchedCpu :=
  {| sc_current := sc_current c; sc_idle_thread := sc_idle_thread c; sc_run_queue := q;
     sc_tick_count := sc_tick_count c; sc_steal_cursor := sc_steal_cursor c; sc_fpu := sc_fpu c |}.

Definition set_cursor (c : SchedCpu) (cursor : Z) : SchedCpu :=
  {| sc_current := sc_current c; sc_idle_thread := sc_idle_thread c; sc_run_queue := sc_run_queue c;
     sc_tick_count := sc_tick_count c; sc_steal_cursor := cursor; sc_fpu := sc_fpu c |}.

Definition set_ticks (c : SchedCpu) (ticks : Z) : SchedCpu :=
  {| sc_current := sc_current c; sc_idle_thread := sc_idle_thread c; sc_run_queue := sc_run_queue c;
     sc_tick_count := ticks; sc_steal_cursor := sc_steal_cursor c; sc_fpu := sc_fpu c |}.

Definition set_current (c : SchedCpu) (t fpu : Z) : SchedCpu :=
  {| sc_current := t; sc_idle_thread := sc_idle_thread c; sc_run_queue := sc_run_queue c;
     sc_tick_count := sc_tick_count c; sc_steal_cursor := sc_steal_cursor c; sc_fpu := fpu |}.

(** ** Stealing

    [try_steal] on processor [me] with its own state [sc] (whose lock is held).
    [busy v] says that the lock of processor [v] is taken, in which case it is
    passed over.  The loop looks at each processor once. *)
Fixpoint steal_loop (ths : gmap Z Thread) (me : nat) (busy : nat -> bool) (scans : nat) (attempts count : Z)
    (cpus : list SchedCpu) (sc : SchedCpu) : option Z * list SchedCpu * SchedCpu :=
  match scans with
  | O => (None, cpus, sc)
  | S scans' =>
      if negb (attempts <? count - 1) then (None, cpus, sc) else
      let victim := sc_steal_cursor sc mod count in
      let sc := set_cursor sc ((victim + 1) mod count) in
      if victim =? Z.of_nat me then steal_loop ths me busy scans' attempts count cpus sc else
      let attempts := attempts + 1 in
      if busy (Z.to_nat victim) then steal_loop ths me busy scans' attempts count cpus sc else
      match cpus !! Z.to_nat victim with
      | None => steal_loop ths me busy scans' attempts count cpus sc
      | Some v =>
          let len := mq_total (sc_run_queue v) in
          if len <? 1 then steal_loop ths me busy scans' attempts count cpus sc else
          let batch := Z.to_nat (Z.min (Z.max (len / 2) 1) MAX_STEAL_BATCH) in
          let '(stolen, q_v, q_me) := steal_into (prio_of ths) (sc_run_queue v) (sc_run_queue sc) batch in
          let cpus := <[Z.to_nat victim := set_rq v q_v]> cpus in
          let sc := set_rq sc q_me in
          match stolen with
          | O => steal_loop ths me busy scans' attempts count cpus sc
          | S _ => let '(o, q) := MlfqQueue_pop (sc_run_queue sc) in (o, cpus, set_rq sc q)
          end
      end
  end.

Definition try_steal (ths : gmap Z Thread) (me : nat) (busy : nat -> bool) (cpus : list SchedCpu) (sc : SchedCpu)
    : option Z * list SchedCpu * SchedCpu :=
  let count := Z.of_nat (length cpus) in
  if count <=? 1 then (None, cpus, sc) else steal_loop ths me busy (length cpus) 0 count cpus sc.

(** ** Choosing and switching *)

(** The next thread: from the own queue, else stolen, else the idle thread. *)
Definition pick_next (ths : gmap Z Thread) (me : nat) (busy : nat -> bool) (cpus : list SchedCpu) (sc : SchedCpu)
    : Z * list SchedCpu * SchedCpu :=
  match MlfqQueue_pop (sc_run_queue sc) with
  | (Some t, q) => (t, cpus, set_rq sc q)
  | (None, _) =>
      match try_steal ths me busy cpus sc with
      | (Some t, cpus', sc') => (t, cpus', sc')
      | (None, cpus', sc') => (sc_idle_thread sc', cpus', sc')
      end
  end.

(** The first part of [schedule]: the tick, and every thousandth the boost. *)
Definition tick (ths : gmap Z Thread) (sc : SchedCpu) : gmap Z Thread * SchedCpu :=
  let sc := set_ticks sc (wrap64 (sc_tick_count sc + 1)) in
  if sc_tick_count sc mod BOOST_INTERVAL =? 0 then
    let '(boosted, q) := boost_all (sc_run_queue sc) in
    (foldr (fun t m => alter boost_thread t m) ths boosted, set_rq sc q)
  else (ths, sc).

(** What happens to the thread that was running: [None] when it keeps the
    processor because its time slice is not used up. *)
Definition requeue_current (ths : gmap Z Thread) (sc : SchedCpu) : option (gmap Z Thread * SchedCpu) * gmap Z Thread :=
  let cur := sc_current sc in
  if (cur =? 0) || (cur =? sc_idle_thread sc) then (Some (ths, sc), ths) else
  match ths !! cur with
  | None => (Some (ths, sc), ths)
  | Some th =>
      match th_state th with
      | TRunning =>
          let '(expired, th') := charge_tick th in
          if negb expired then (None, <[cur := th']> ths) else
          let ths' := <[cur := set_th_state TRunnable th']> ths in
          (Some (ths', set_rq sc (snd (MlfqQueue_push (sc_run_queue sc) cur (Z.to_nat (th_priority th'))))), ths')
      | TRunnable =>
          (Some (ths, set_rq sc (snd (MlfqQueue_push (sc_run_queue sc) cur (Z.to_nat (th_priority th))))), ths)
      | TBlocked | TDead =>
          let ths' := <[cur := set_th_ticks 0 th]> ths in (Some (ths', sc), ths')
      end
  end.

(** Saving the extended state of the outgoing thread and loading the next one's. *)
Definition switch_fpu (ths : gmap Z Thread) (sc : SchedCpu) (next : Z) : gmap Z Thread * Z :=
  let ths' := if sc_current sc =? 0 then ths else alter (set_th_fpu (sc_fpu sc)) (sc_current sc) ths in
  (ths', match ths' !! next with Some th => th_fpu th | None => 0 end).

Definition schedule (s : sched) (me : nat) (busy : nat -> bool) : sched :=
  match sd_cpus s !! me with
  | None => s
  | Some sc0 =>
      let '(ths1, sc1) := tick (sd_threads s) sc0 in
      match requeue_current ths1 sc1 with
      | (None, ths2) => {| sd_cpus := <[me := sc1]> (sd_cpus s); sd_threads := ths2 |}
      | (Some (ths2, sc2), _) =>
          let '(next, cpus3, sc3) := pick_next ths2 me busy (sd_cpus s) sc2 in
          if next =? sc_current sc3 then
            {| sd_cpus := <[me := sc3]> cpus3;
               sd_threads := if sc_current sc3 =? 0 then ths2 else alter (set_th_state TRunning) next ths2 |}
          else
            let '(ths4, fpu) := switch_fpu (alter (start_on (Z.of_nat me)) next ths2) sc3 next in
            {| sd_cpus := <[me := set_current sc3 next fpu]> cpus3; sd_threads := ths4 |}
      end
  end.

(** [schedule_yield]: the running thread goes to the back of its level; the
    extended registers are neither saved nor loaded. *)
Definition schedule_yield (s : sched) (me : nat) (busy : nat -> bool) : sched :=
  match sd_cpus s !! me with
  | None => s
  | Some sc =>
      let cur := sc_current sc in
      if (cur =? 0) || (cur =? sc_idle_thread sc) then schedule s me busy else
      let ths1 := alter (fun th => set_th_ticks 0 (set_th_state TRunnable th)) cur (sd_threads s) in
      let sc1 := set_rq sc (snd (MlfqQueue_push (sc_run_queue sc) cur (prio_of ths1 cur))) in
      let '(next, cpus2, sc2) := pick_next ths1 me busy (sd_cpus s) sc1 in
      if next =? cur then
        {| sd_cpus := <[me := sc2]> cpus2; sd_threads := alter (set_th_state TRunning) cur ths1 |}
      else
        {| sd_cpus := <[me := set_current sc2 next (sc_fpu sc2)]> cpus2;
           sd_threads := alter (start_on (Z.of_nat me)) next ths1 |}
  end.

(** [try_push_to_cpu]: the wake-up of a blocked thread, which gives up when the lock of
    the processor is taken ([busy]) or its queue is full. *)
Definition try_push_to_cpu (busy : nat -> bool) (s : sched) (thread : Z) (cpu : nat) : bool * sched :=
  if busy cpu then (false, s) else
  match sd_cpus s !! cpu with
  | None => (false, s)
  | Some sc =>
      let ths := alter (set_th_state TRunnable) thread (sd_threads s) in
      let '(ok, q) := MlfqQueue_push (sc_run_queue sc) thread (prio_of ths thread) in
      (ok, {| sd_cpus := <[cpu := set_rq sc q]> (sd_cpus s); sd_threads := ths |})
  end.

(** [enqueue_thread]: a new thread goes to the queue of the first processor. *)
Definition enqueue_thread (s : sched) (thread : Z) (priority : nat) : outcome sched :=
  match sd_cpus s !! 0%nat with
  | None => Panic
  | Some sc =>
      let '(queued, q) := MlfqQueue_push (sc_run_queue sc) thread priority in
      assert_ queued;;
      Done {| sd_cpus := <[0%nat := set_rq sc q]> (sd_cpus s); sd_threads := sd_threads s |}
  end.

(** [least_loaded_cpu] and [busiest_cpu]: one pass over the processors. *)
Fixpoint least_loaded_from (cpu best_cpu best_len : Z) (cpus : list SchedCpu) : Z :=
  match cpus with
  | [] => best_cpu
  | c :: cpus' =>
      let len := mq_total (sc_run_queue c) in
      if len <? best_len then least_loaded_from (cpu + 1) cpu len cpus'
      else least_loaded_from (cpu + 1) best_cpu best_len cpus'
  end.

Definition least_loaded_cpu (s : sched) : Z := least_loaded_from 0 0 (2 ^ 32 - 1) (sd_cpus s).

Fixpoint busiest_from (cpu best_cpu best_len : Z) (cpus : list SchedCpu) : Z :=
  match cpus with
  | [] => best_cpu
  | c :: cpus' =>
      let len := mq_total (sc_run_queue c) in
      if best_len <? len then busiest_from (cpu + 1) cpu len cpus'
      else busiest_from (cpu + 1) best_cpu best_len cpus'
  end.

Definition busiest_cpu (s : sched) : Z := busiest_from 0 0 0 (sd_cpus s).

(** [Thread::new_kernel] for the scheduling fields. *)
Definition new_kernel (priority fpu : Z) : Thread :=
  {| th_state := TRunnable; th_cpu_id := 0; th_priority := Z.min priority 7; th_ticks_used := 0; th_fpu := fpu |}.

(** [spawn]: a new thread at address [thread] goes to the least loaded processor. *)
Definition spawn (s : sched) (thread fpu : Z) : outcome sched :=
  let ths := <[thread := new_kernel 0 fpu]> (sd_threads s) in
  let target_cpu := Z.to_nat (least_loaded_cpu s) in
  match sd_cpus s !! target_cpu with
  | None => Panic
  | Some sc =>
      let '(queued, q) := MlfqQueue_push (sc_run_queue sc) thread 0 in
      assert_ queued;;
      Done {| sd_cpus := <[target_cpu := set_rq sc q]> (sd_cpus s); sd_threads := ths |}
  end.

(** [init]: [init_sched_cpu] and [register_idle] for each processor; [idles] are the
    addresses of the idle threads, [fpu] the fresh extended state. *)
Definition init_sched_cpu (cpu_id idle fpu : Z) : SchedCpu :=
  {| sc_current := idle; sc_idle_thread := idle; sc_run_queue := MlfqQueue_new; sc_tick_count := 0;
     sc_steal_cursor := (cpu_id + 1) mod 64; sc_fpu := fpu |}.

Definition create_idle_thread (cpu_id fpu : Z) : Thread :=
  {| th_state := TRunning; th_cpu_id := cpu_id; th_priority := 7; th_ticks_used := 0; th_fpu := fpu |}.

Definition sched_init (idles : list Z) (fpu : Z) : sched :=
  {| sd_cpus := imap (fun i idle => init_sched_cpu (Z.of_nat i) idle fpu) (take 64 idles);
     sd_threads := list_to_map (imap (fun i idle => (idle, create_idle_thread (Z.of_nat i) fpu)) (take 64 idles)) |}.

(** ** Which threads the scheduler holds *)

Lemma zsum_perm (w : Z -> Z) (l l' : list Z) : l ≡ₚ l' -> zsum w l = zsum w l'.
Proof. induction 1; simpl; lia. Qed.

(** Lists with the same weight for every weight are permutations. *)
Lemma perm_of_zsum (l l' : list Z) : (forall w, zsum w l = zsum w l') -> l ≡ₚ l'.
Proof.
  intros H. apply (Permutation_count_occ Z.eq_dec). intros x.
  assert (forall k, Z.of_nat (count_occ Z.eq_dec k x) = zsum (fun y => if Z.eq_dec y x then 1 else 0) k) as Hc.
  { induction k as [|y k IH]; [done|]. cbn [count_occ zsum]. destruct (Z.eq_dec y x); lia. }
  apply Nat2Z.inj. rewrite !Hc. apply H.
Qed.

(** The weight of a processor's queue and of its running thread. *)
Definition queue_weight (w : Z -> Z) (c : SchedCpu) : Z := zsum w (mq_threads (sc_run_queue c)).

Definition is_idle (c : SchedCpu) : bool := (sc_current c =? 0) || (sc_current c =? sc_idle_thread c).

Definition running (c : SchedCpu) : list Z := if is_idle c then [] else [sc_current c].

(** The threads that are queued on or running on some processor. *)
Definition held (cpus : list SchedCpu) : list Z :=
  concat ((fun c => mq_threads (sc_run_queue c) ++ running c) <$> cpus).

Definition owned (s : sched) : list Z := held (sd_cpus s).

Lemma zsum_concat {X} (w : Z -> Z) (f : X -> list Z) (l : list X) :
  zsum w (concat (f <$> l)) = zsum (fun x => zsum w (f x)) l.
Proof. induction l as [|x l IH]; [done|]. cbn [fmap list_fmap concat zsum]. by rewrite zsum_app, IH. Qed.

Lemma zsum_plus {X} (f g : X -> Z) (l : list X) : zsum (fun x => f x + g x) l = zsum f l + zsum g l.
Proof. induction l as [|x l IH]; simpl; lia. Qed.

Lemma zsum_ext {X} (f g : X -> Z) (l : list X) : (forall x, f x = g x) -> zsum f l = zsum g l.
Proof. intros H. induction l as [|x l IH]; simpl; [done|]. by rewrite H, IH. Qed.

Definition running_weight (w : Z -> Z) (c : SchedCpu) : Z := zsum w (running c).

Lemma held_weight w cpus : zsum w (held cpus) = zsum (queue_weight w) cpus + zsum (running_weight w) cpus.
Proof. unfold held. rewrite zsum_concat, <- zsum_plus. apply zsum_ext. intros c. apply zsum_app. Qed.

Definition cpus_ok (cpus : list SchedCpu) : Prop := Forall (fun c => mq_ok (sc_run_queue c)) cpus.

(** What stealing leaves alone on every processor. *)
Definition fixed (c : SchedCpu) : Z * Z * Z := (sc_current c, sc_idle_thread c, sc_fpu c).

Lemma running_fixed w l l' :
  fixed <$> l = fixed <$> l' -> zsum (running_weight w) l = zsum (running_weight w) l'.
Proof.
  revert l'. induction l as [|c l IH]; intros [|c' l'] H; try done. cbn [fmap list_fmap] in H.
  injection H as H1 H2 H3 H. cbn [zsum]. rewrite (IH l' H). unfold running_weight, running, is_idle.
  by rewrite H1, H2.
Qed.

Definition one (t : Z) : Z := 1.

Lemma zsum_one l : zsum one l = Z.of_nat (length l).
Proof. induction l as [|x l IH]; [done|]. cbn [zsum length]. unfold one in *. lia. Qed.

(** The result of looking for a thread elsewhere: [me] is the own processor, whose
    current state is [sc]. *)
Record steal_result (me : nat) (cpus : list SchedCpu) (sc : SchedCpu)
    (o : option Z) (cpus' : list SchedCpu) (sc' : SchedCpu) : Prop := {
  sr_ok : cpus_ok cpus' /\ mq_ok (sc_run_queue sc');
  sr_me : cpus' !! me = cpus !! me;
  sr_fixed : fixed <$> cpus' = fixed <$> cpus;
  sr_self : fixed sc' = fixed sc;
  sr_weight : forall w, zsum (queue_weight w) (<[me := sc']> cpus') + zsum w (option_list o) =
                        zsum (queue_weight w) (<[me := sc]> cpus)
}.

Lemma fixed_put (cpus : list SchedCpu) i v q :
  cpus !! i = Some v -> fixed <$> <[i := set_rq v q]> cpus = fixed <$> cpus.
Proof.
  intros Hi. rewrite list_fmap_insert. change (fixed (set_rq v q)) with (fixed v).
  apply list_insert_id. by rewrite list_lookup_fmap, Hi.
Qed.

Lemma weight_put w me (cpus : list SchedCpu) old sc :
  cpus !! me = Some old ->
  zsum (queue_weight w) (<[me := sc]> cpus) = zsum (queue_weight w) cpus - queue_weight w old + queue_weight w sc.
Proof. apply zsum_insert. Qed.

Lemma steal_result_refl me cpus sc : cpus_ok cpus -> mq_ok (sc_run_queue sc) -> steal_result me cpus sc None cpus sc.
Proof. intros H1 H2. constructor; try done. intros w. simpl. lia. Qed.

Lemma steal_result_trans me cpus sc cpus1 sc1 o cpus2 sc2 :
  steal_result me cpus sc None cpus1 sc1 -> steal_result me cpus1 sc1 o cpus2 sc2 ->
  steal_result me cpus sc o cpus2 sc2.
Proof.
  intros H1 H2. constructor.
  - apply H2.
  - by rewrite (sr_me _ _ _ _ _ _ H2), (sr_me _ _ _ _ _ _ H1).
  - by rewrite (sr_fixed _ _ _ _ _ _ H2), (sr_fixed _ _ _ _ _ _ H1).
  - by rewrite (sr_self _ _ _ _ _ _ H2), (sr_self _ _ _ _ _ _ H1).
  - intros w. rewrite (sr_weight _ _ _ _ _ _ H2 w), <- (sr_weight _ _ _ _ _ _ H1 w). simpl. lia.
Qed.

(** Only the cursor moves. *)
Lemma steal_result_cursor me cpus sc k :
  cpus_ok cpus -> mq_ok (sc_run_queue sc) -> is_Some (cpus !! me) ->
  steal_result me cpus sc None cpus (set_cursor sc k).
Proof.
  intros H1 H2 [old Hme]. constructor; try done. intros w. rewrite !(weight_put w me cpus old) by done.
  unfold queue_weight. cbn [set_cursor sc_run_queue]. simpl. lia.
Qed.

(** One batch moved from processor [v] to [me]. *)
Lemma steal_result_batch me cpus sc i v prio n k q_v q_me :
  cpus_ok cpus -> mq_ok (sc_run_queue sc) -> is_Some (cpus !! me) -> i <> me -> cpus !! i = Some v ->
  zsum (queue_weight one) (<[me := sc]> cpus) <= 255 ->
  steal_into prio (sc_run_queue v) (sc_run_queue sc) n = (k, q_v, q_me) ->
  steal_result me cpus sc None (<[i := set_rq v q_v]> cpus) (set_rq sc q_me).
Proof.
  intros Hok Hsc [old Hme] Hne Hi Hlen Hst.
  pose proof (Forall_lookup_1 _ _ _ _ Hok Hi) as Hv.
  assert (Z.of_nat (length (mq_threads (sc_run_queue v) ++ mq_threads (sc_run_queue sc))) <= 255) as Hb.
  { rewrite <- zsum_one, zsum_app. etransitivity; [|exact Hlen].
    apply (zsum_two (queue_weight one) _ i me v sc); [|done| |].
    - intros c. unfold queue_weight. rewrite zsum_one. lia.
    - by rewrite list_lookup_insert_ne.
    - apply list_lookup_insert_eq. by apply lookup_lt_Some in Hme. }
  destruct (steal_into_threads _ _ _ _ _ _ _ Hv Hsc ltac:(lia) Hst) as (Hqv & Hqm & Hperm).
  assert (<[i := set_rq v q_v]> cpus !! me = Some old) as Hme' by by rewrite list_lookup_insert_ne.
  constructor; cbn [set_rq sc_run_queue].
  - split; [|done]. by apply Forall_insert.
  - by rewrite Hme', Hme.
  - by apply fixed_put.
  - done.
  - intros w. rewrite (weight_put w me _ old) by done. rewrite (weight_put w me cpus old) by done.
    rewrite (zsum_insert (queue_weight w) cpus i v) by done. unfold queue_weight. cbn [set_rq sc_run_queue].
    pose proof (zsum_perm w _ _ Hperm) as Hw. rewrite !zsum_app in Hw. simpl. lia.
Qed.

(** The thread taken at the end from the own queue. *)
Lemma steal_result_pop me cpus sc o q :
  cpus_ok cpus -> mq_ok (sc_run_queue sc) -> is_Some (cpus !! me) ->
  MlfqQueue_pop (sc_run_queue sc) = (o, q) -> steal_result me cpus sc o cpus (set_rq sc q).
Proof.
  intros Hok Hsc [old Hme] Hp. destruct (mlfq_pop_threads _ _ _ Hsc Hp) as [Hq Hperm].
  constructor; try done. intros w. rewrite !(weight_put w me cpus old) by done.
  unfold queue_weight. cbn [set_rq sc_run_queue]. rewrite (zsum_perm w _ _ Hperm), zsum_app. lia.
Qed.

(** The room hypothesis travels along a step that takes nothing. *)
Lemma steal_result_room me cpus sc cpus' sc' :
  steal_result me cpus sc None cpus' sc' ->
  zsum (queue_weight one) (<[me := sc]> cpus) <= 255 -> zsum (queue_weight one) (<[me := sc']> cpus') <= 255.
Proof. intros H. pose proof (sr_weight _ _ _ _ _ _ H one) as Hw. simpl in Hw. lia. Qed.

Lemma steal_result_then me cpus sc cpus1 sc1 o cpus2 sc2 :
  steal_result me cpus sc None cpus1 sc1 -> is_Some (cpus !! me) ->
  zsum (queue_weight one) (<[me := sc]> cpus) <= 255 ->
  (cpus_ok cpus1 -> mq_ok (sc_run_queue sc1) -> is_Some (cpus1 !! me) ->
   zsum (queue_weight one) (<[me := sc1]> cpus1) <= 255 -> steal_result me cpus1 sc1 o cpus2 sc2) ->
  steal_result me cpus sc o cpus2 sc2.
Proof.
  intros H Hme Hroom K. eapply steal_result_trans; [exact H|]. destruct (sr_ok _ _ _ _ _ _ H) as [H1 H2].
  apply K; [done|done| |by eapply steal_result_room]. by rewrite (sr_me _ _ _ _ _ _ H).
Qed.

Lemma steal_loop_spec ths me busy scans attempts count cpus sc o cpus' sc' :
  0 < count -> cpus_ok cpus -> mq_ok (sc_run_queue sc) -> is_Some (cpus !! me) ->
  zsum (queue_weight one) (<[me := sc]> cpus) <= 255 ->
  steal_loop ths me busy scans attempts count cpus sc = (o, cpus', sc') ->
  steal_result me cpus sc o cpus' sc'.
Proof.
  intros Hcount. revert attempts cpus sc.
  induction scans as [|scans IH]; intros attempts cpus sc Hok Hsc Hme Hroom H; cbn [steal_loop] in H.
  { injection H as <- <- <-. by apply steal_result_refl. }
  destruct (negb _); [injection H as <- <- <-; by apply steal_result_refl|].
  set (victim := sc_steal_cursor sc mod count) in *.
  assert (0 <= victim) as Hv by (apply Z.mod_pos_bound; lia).
  eapply (steal_result_then me cpus sc cpus); [by apply steal_result_cursor|done|done|].
  clear Hok Hsc Hroom. intros Hok Hsc Hme' Hroom.
  destruct (victim =? Z.of_nat me) eqn:Hvm; [by eapply IH|].
  destruct (busy _); [by eapply IH|].
  destruct (cpus !! Z.to_nat victim) as [v|] eqn:Hi; [|by eapply IH].
  destruct (_ <? 1); [by eapply IH|].
  destruct (steal_into _ _ _ _) as [[stolen q_v] q_me] eqn:Hst.
  eapply steal_result_then; [|exact Hme|exact Hroom|].
  { eapply (steal_result_batch me cpus _ (Z.to_nat victim)); try done. lia. }
  intros Hok2 Hsc2 Hme2 Hroom2. destruct stolen; [by eapply IH|].
  destruct (MlfqQueue_pop _) as [o1 q] eqn:Hp. injection H as <- <- <-. by apply steal_result_pop.
Qed.

Lemma pick_next_spec ths me busy cpus sc next cpus' sc' :
  cpus_ok cpus -> mq_ok (sc_run_queue sc) -> is_Some (cpus !! me) ->
  zsum (queue_weight one) (<[me := sc]> cpus) <= 255 ->
  pick_next ths me busy cpus sc = (next, cpus', sc') ->
  exists o, steal_result me cpus sc o cpus' sc' /\ next = default (sc_idle_thread sc) o.
Proof.
  intros Hok Hsc Hme Hroom H. unfold pick_next in H.
  destruct (MlfqQueue_pop _) as [[t|] q] eqn:Hp.
  { injection H as <- <- <-. exists (Some t). split; [|done]. by apply steal_result_pop. }
  destruct (try_steal ths me busy cpus sc) as [[o cpus1] sc1] eqn:Hs.
  assert (steal_result me cpus sc o cpus1 sc1) as Hr.
  { unfold try_steal in Hs. destruct (_ <=? 1) eqn:Hc.
    - injection Hs as <- <- <-. by apply steal_result_refl.
    - eapply steal_loop_spec; [|done..]. lia. }
  exists o. pose proof (sr_self _ _ _ _ _ _ Hr) as Hf. unfold fixed in Hf. injection Hf as _ Hf _.
  destruct o; injection H as <- <- <-; done.
Qed.

(** ** Every thread stays where it is expected *)

(** The threads that the scheduler gives up when processor [sc] switches. *)
Definition leaving (ths : gmap Z Thread) (sc : SchedCpu) : list Z :=
  if is_idle sc then [] else
  match th_state <$> ths !! sc_current sc with
  | Some TBlocked | Some TDead => [sc_current sc]
  | _ => []
  end.

Lemma elem_of_held cpus t :
  t ∈ held cpus <-> exists i c, cpus !! i = Some c /\ (t ∈ mq_threads (sc_run_queue c) \/ t ∈ running c).
Proof.
  unfold held. rewrite list_elem_of_In, in_concat. split.
  - intros (l & Hl & Ht). apply list_elem_of_In, list_elem_of_fmap in Hl as (c & -> & Hc).
    apply list_elem_of_lookup in Hc as [i Hi]. exists i, c. split; [done|].
    by apply list_elem_of_In, elem_of_app in Ht.
  - intros (i & c & Hi & Ht). exists (mq_threads (sc_run_queue c) ++ running c). split.
    + apply list_elem_of_In, list_elem_of_fmap. exists c. split; [done|]. by eapply list_elem_of_lookup_2.
    + by apply list_elem_of_In, elem_of_app.
Qed.

Lemma queue_weight_nonneg w c : (forall t, 0 <= w t) -> 0 <= queue_weight w c.
Proof. apply zsum_nonneg. Qed.

Lemma running_weight_nonneg w c : (forall t, 0 <= w t) -> 0 <= running_weight w c.
Proof. apply zsum_nonneg. Qed.

Lemma zsum_pos_elem (l : list Z) t : 0 < zsum (fun x => if x =? t then 1 else 0) l -> t ∈ l.
Proof.
  induction l as [|x l IH]; cbn [zsum]; [lia|]. destruct (x =? t) eqn:E; intros H.
  - apply Z.eqb_eq in E as ->. left.
  - right. apply IH. lia.
Qed.

(** The queues after the old thread was put back hold no more than before. *)
Lemma requeued_weight w me (cpus : list SchedCpu) sc0 sc2 gone :
  (forall t, 0 <= w t) -> cpus !! me = Some sc0 ->
  queue_weight w sc2 + zsum w gone = queue_weight w sc0 + running_weight w sc0 ->
  zsum (queue_weight w) (<[me := sc2]> cpus) <= zsum w (held cpus).
Proof.
  intros Hw Hme H. rewrite held_weight, (weight_put w me cpus sc0) by done.
  pose proof (zsum_nonneg w gone Hw).
  pose proof (zsum_elem (running_weight w) cpus sc0 (fun c => running_weight_nonneg w c Hw)
    (list_elem_of_lookup_2 _ _ _ Hme)). lia.
Qed.

(** The heart of every switch on processor [me]: [sc2] is its state after the old
    thread was put back or given up ([gone]); afterwards the processor [c] runs the
    thread that was picked. *)
Lemma switch_held ths me busy cpus sc0 sc2 gone next cpus3 sc3 c :
  cpus !! me = Some sc0 -> cpus_ok cpus -> mq_ok (sc_run_queue sc2) -> fixed sc2 = fixed sc0 ->
  (forall w, queue_weight w sc2 + zsum w gone = queue_weight w sc0 + running_weight w sc0) ->
  (length (held cpus) <= 255)%nat -> 0 ∉ held cpus -> sc_idle_thread sc0 ∉ held cpus ->
  pick_next ths me busy cpus sc2 = (next, cpus3, sc3) ->
  sc_run_queue c = sc_run_queue sc3 -> sc_current c = next -> sc_idle_thread c = sc_idle_thread sc3 ->
  cpus_ok (<[me := c]> cpus3) /\ held (<[me := c]> cpus3) ++ gone ≡ₚ held cpus /\
  fixed <$> cpus3 = fixed <$> cpus /\ sc_idle_thread c = sc_idle_thread sc0 /\ fixed sc3 = fixed sc0.
Proof.
  intros Hme Hok Hsc2 Hfix Hw Hlen H0 Hidle Hp Hcq Hcc Hci.
  assert (zsum (queue_weight one) (<[me := sc2]> cpus) <= 255) as Hroom.
  { etransitivity; [by apply (requeued_weight one me cpus sc0 sc2 gone)|]. rewrite zsum_one. lia. }
  destruct (pick_next_spec _ _ _ _ _ _ _ _ Hok Hsc2 ltac:(by eexists) Hroom Hp) as (o & Hr & ->).
  pose proof (sr_self _ _ _ _ _ _ Hr) as Hf3. rewrite Hfix in Hf3. pose proof Hf3 as Hf. injection Hf as Hf1 Hf2 _.
  assert (cpus3 !! me = Some sc0) as Hme3 by by rewrite (sr_me _ _ _ _ _ _ Hr).
  assert (sc_idle_thread sc2 = sc_idle_thread sc0) as Hi2 by (injection Hfix; done).
  assert (running c = option_list o) as Hrun.
  { unfold running, is_idle. rewrite Hci, Hf2, Hcc, Hi2. destruct o as [t|]; simpl.
    - assert (t ∈ held cpus) as Ht.
      { apply zsum_pos_elem. set (w := fun x => if x =? t then 1 else 0).
        assert (forall x, 0 <= w x) as Hn by (intros x; unfold w; destruct (x =? t); lia).
        pose proof (sr_weight _ _ _ _ _ _ Hr w) as Hs. pose proof (requeued_weight w me cpus sc0 sc2 gone Hn Hme (Hw w)).
        pose proof (zsum_nonneg (queue_weight w) (<[me:=sc3]> cpus3) (fun c => queue_weight_nonneg w c Hn)).
        assert (zsum w (option_list (Some t)) = 1) by (simpl; unfold w; rewrite Z.eqb_refl; lia). lia. }
      destruct (t =? 0) eqn:E1; [by apply Z.eqb_eq in E1 as ->|].
      by destruct (t =? sc_idle_thread sc0) eqn:E2; [apply Z.eqb_eq in E2 as ->|].
    - by rewrite Z.eqb_refl, orb_true_r. }
  split_and!; [| |apply Hr|by rewrite Hci|done].
  - apply Forall_insert; [apply Hr|]. rewrite Hcq. apply Hr.
  - apply perm_of_zsum. intros w. rewrite zsum_app, !held_weight. pose proof (sr_weight _ _ _ _ _ _ Hr w) as Hs.
    rewrite (weight_put w me cpus3 sc0) in * by done. rewrite (weight_put w me cpus sc0) in Hs by done.
    rewrite (zsum_insert (running_weight w) cpus3 me sc0) by done.
    rewrite (running_fixed w cpus3 cpus) by apply Hr.
    assert (queue_weight w c = queue_weight w sc3) as -> by (unfold queue_weight; by rewrite Hcq).
    assert (running_weight w c = zsum w (option_list o)) as -> by (unfold running_weight; by rewrite Hrun).
    specialize (Hw w). lia.
Qed.

(** The tick changes neither the set of queued threads nor any state. *)
Lemma tick_spec ths sc ths1 sc1 :
  mq_ok (sc_run_queue sc) -> tick ths sc = (ths1, sc1) ->
  mq_ok (sc_run_queue sc1) /\ fixed sc1 = fixed sc /\ (forall w, queue_weight w sc1 = queue_weight w sc) /\
  forall t, th_state <$> ths1 !! t = th_state <$> ths !! t.
Proof.
  intros Hq H. unfold tick in H. destruct (_ =? 0); [|by injection H as <- <-].
  destruct (boost_all _) as [boosted q] eqn:Hb. injection H as <- <-.
  destruct (boost_all_threads _ _ _ Hq Hb) as [Hq' Hp]. split_and!; [done|done| |].
  - intros w. by apply zsum_perm.
  - intros t. clear Hb. induction boosted as [|b l IH]; [done|]. cbn [foldr]. rewrite <- IH.
    rewrite lookup_alter. case_decide as E; [subst|done].
    rewrite <- option_fmap_compose. by apply option_fmap_ext.
Qed.

Definition live (ths : gmap Z Thread) (t : Z) : Prop := is_Some (ths !! t).

Lemma push_weight q t level q' w :
  mq_ok q -> (length (mq_threads q) < 255)%nat -> snd (MlfqQueue_push q t level) = q' ->
  mq_ok q' /\ zsum w (mq_threads q') = w t + zsum w (mq_threads q).
Proof.
  intros Hq Hl H. destruct (mlfq_push_room q t level Hq Hl) as (q1 & E & Hok & Hp).
  rewrite E in H. simpl in H. subst. split; [done|]. by rewrite (zsum_perm w _ _ Hp).
Qed.

(** Putting the running thread back or giving it up. *)
Lemma requeue_spec ths sc ths2 sc2 ths' :
  mq_ok (sc_run_queue sc) -> Forall (live ths) (running sc) ->
  (length (mq_threads (sc_run_queue sc)) + length (running sc) <= 255)%nat ->
  requeue_current ths sc = (Some (ths2, sc2), ths') ->
  mq_ok (sc_run_queue sc2) /\ fixed sc2 = fixed sc /\
  (forall w, queue_weight w sc2 + zsum w (leaving ths sc) = queue_weight w sc + running_weight w sc) /\
  (forall t, t ∉ running sc -> ths2 !! t = ths !! t) /\ (forall t, live ths t -> live ths2 t) /\
  (Forall (fun t => t ∈ leaving ths sc \/ th_state <$> ths2 !! t = Some TRunnable) (running sc)).
Proof.
  intros Hq Hlive Hroom H. unfold requeue_current in H. unfold leaving, running_weight. unfold running in *.
  change ((sc_current sc =? 0) || (sc_current sc =? sc_idle_thread sc)) with (is_idle sc) in H.
  destruct (is_idle sc).
  { injection H as <- <- <-. split_and!; try done. }
  apply Forall_singleton in Hlive as [th Hth]. rewrite Hth in *. cbn [length] in Hroom. simpl.
  assert (forall x t, t ∉ [sc_current sc] -> <[sc_current sc := x]> ths !! t = ths !! t) as Hother.
  { intros x t Ht. rewrite lookup_insert_ne; [done|]. intros <-. apply Ht. left. }
  assert (forall x t, live ths t -> live (<[sc_current sc := x]> ths) t) as Hlive.
  { intros x t Ht. unfold live. destruct (decide (t = sc_current sc)) as [->|].
    - by rewrite lookup_insert_eq.
    - by rewrite lookup_insert_ne. }
  destruct (th_state th) eqn:Hst.
  - injection H as <- <- <-. split_and!; try done.
    + apply (push_weight _ _ _ _ (fun _ => 0) Hq ltac:(lia) eq_refl).
    + intros w. unfold queue_weight. cbn [set_rq sc_run_queue].
      destruct (push_weight (sc_run_queue sc) (sc_current sc) (Z.to_nat (th_priority th)) _ w Hq ltac:(lia) eq_refl) as [_ ->].
      simpl. lia.
    + apply Forall_singleton. right. rewrite Hth. simpl. by rewrite Hst.
  - destruct (charge_tick th) as [[] th']; [|done]. cbn [negb] in H. injection H as <- <- <-.
    split_and!; try done.
    + apply (push_weight _ _ _ _ (fun _ => 0) Hq ltac:(lia) eq_refl).
    + intros w. unfold queue_weight. cbn [set_rq sc_run_queue].
      destruct (push_weight (sc_run_queue sc) (sc_current sc) (Z.to_nat (th_priority th')) _ w Hq ltac:(lia) eq_refl) as [_ ->].
      simpl. lia.
    + auto.
    + auto.
    + apply Forall_singleton. right. by rewrite lookup_insert_eq.
  - injection H as <- <- <-. split_and!; try done; auto.
    apply Forall_singleton. left. by left.
  - injection H as <- <- <-. split_and!; try done; auto.
    apply Forall_singleton. left. by left.
Qed.

(** Well-formedness.  A run queue level has room for 255 threads; the process table
    has 64 entries, so [so_room] leaves a wide margin. *)
Record sched_wf (s : sched) : Prop := {
  so_cpus : cpus_ok (sd_cpus s);
  so_room : (length (owned s) <= 255)%nat;
  so_null : 0 ∉ owned s;
  so_idle : Forall (fun c => sc_idle_thread c ∉ owned s) (sd_cpus s);
  so_live : Forall (live (sd_threads s)) (owned s)
}.

(** The scheduler's invariant: every thread is in one place, and the queued ones
    can run. *)
Record sched_ok (s : sched) : Prop := {
  so_wf : sched_wf s;
  so_nodup : NoDup (owned s);
  so_runnable : forall i c t, sd_cpus s !! i = Some c -> t ∈ mq_threads (sc_run_queue c) ->
    th_state <$> sd_threads s !! t = Some TRunnable
}.

Lemma elem_zsum_pos (l : list Z) t : t ∈ l -> 1 <= zsum (fun x => if x =? t then 1 else 0) l.
Proof.
  intros H. etransitivity; [|apply (zsum_elem _ _ t); [|exact H]]; simpl.
  - by rewrite Z.eqb_refl.
  - intros x. destruct (x =? t); lia.
Qed.

Lemma nodup_zsum (l : list Z) t : NoDup l -> zsum (fun x => if x =? t then 1 else 0) l <= 1.
Proof.
  induction 1 as [|x l Hx _ IH]; cbn [zsum]; [lia|]. destruct (x =? t) eqn:E; [|lia].
  apply Z.eqb_eq in E as ->. destruct (decide (0 < zsum (fun x => if x =? t then 1 else 0) l)) as [H|]; [|lia].
  by apply zsum_pos_elem in H.
Qed.

(** A thread is not queued and running at once. *)
Lemma held_once cpus i c j d t :
  NoDup (held cpus) -> cpus !! i = Some c -> t ∈ mq_threads (sc_run_queue c) ->
  cpus !! j = Some d -> t ∈ running d -> False.
Proof.
  intros Hnd Hi Hq Hj Hr. pose proof (nodup_zsum _ t Hnd) as H. rewrite held_weight in H.
  set (w := fun x => if x =? t then 1 else 0) in *.
  assert (forall x, 0 <= w x) as Hw by (intros x; unfold w; destruct (x =? t); lia).
  pose proof (elem_zsum_pos _ _ Hq) as H1. pose proof (elem_zsum_pos _ _ Hr) as H2. fold w in H1, H2.
  pose proof (zsum_elem (queue_weight w) cpus c (fun c => queue_weight_nonneg w c Hw) (list_elem_of_lookup_2 _ _ _ Hi)).
  pose proof (zsum_elem (running_weight w) cpus d (fun c => running_weight_nonneg w c Hw) (list_elem_of_lookup_2 _ _ _ Hj)).
  unfold queue_weight, running_weight in *. lia.
Qed.

Lemma fixed_running c d : fixed c = fixed d -> running c = running d.
Proof. unfold fixed, running, is_idle. intros [= -> -> _]. done. Qed.

(** What a switch on processor [me] leaves of the other processors. *)
Lemma fixed_lookup (cpus3 cpus : list SchedCpu) i d3 :
  fixed <$> cpus3 = fixed <$> cpus -> cpus3 !! i = Some d3 -> exists d, cpus !! i = Some d /\ fixed d3 = fixed d.
Proof.
  intros Hfix Hi. assert (fixed <$> cpus !! i = Some (fixed d3)) as E
    by (rewrite <- list_lookup_fmap, <- Hfix, list_lookup_fmap, Hi; done).
  destruct (cpus !! i) as [d|]; [|done]. exists d. split; [done|]. simpl in E. congruence.
Qed.

Lemma insert_me (cpus3 cpus : list SchedCpu) me sc c :
  fixed <$> cpus3 = fixed <$> cpus -> cpus !! me = Some sc -> <[me := c]> cpus3 !! me = Some c.
Proof.
  intros Hf Hme. apply list_lookup_insert_eq. rewrite <- (length_fmap fixed cpus3), Hf, length_fmap.
  by apply lookup_lt_Some in Hme.
Qed.

Lemma sched_wf_after s me sc0 c cpus3 gone ths' :
  sched_wf s -> sd_cpus s !! me = Some sc0 -> cpus_ok (<[me := c]> cpus3) ->
  held (<[me := c]> cpus3) ++ gone ≡ₚ owned s -> fixed <$> cpus3 = fixed <$> sd_cpus s ->
  sc_idle_thread c = sc_idle_thread sc0 -> (forall t, live (sd_threads s) t -> live ths' t) ->
  sched_wf {| sd_cpus := <[me := c]> cpus3; sd_threads := ths' |}.
Proof.
  intros Hs Hme Hok Hp Hfix Hidle Hlive.
  assert (forall t, t ∈ held (<[me := c]> cpus3) -> t ∈ owned s) as Hsub.
  { intros t Ht. rewrite <- Hp. apply elem_of_app. by left. }
  constructor; unfold owned; cbn [sd_cpus sd_threads]; try done.
  - pose proof (so_room _ Hs) as Hr. rewrite <- Hp, length_app in Hr. lia.
  - intros H. by apply (so_null _ Hs), Hsub.
  - apply Forall_lookup_2. intros i d Hi H. apply Hsub in H.
    pose proof (proj1 (Forall_lookup _ _) (so_idle _ Hs)) as Hid.
    apply list_lookup_insert_Some in Hi as [(<- & <- & _)|[_ Hi]].
    + rewrite Hidle in H. by apply (Hid me sc0).
    + destruct (fixed_lookup _ _ _ _ Hfix Hi) as (d0 & Hi0 & E). unfold fixed in E. injection E as _ E _.
      rewrite E in H. by apply (Hid i d0).
  - apply Forall_forall. intros t Ht. apply Hlive. pose proof (so_live _ Hs) as Hl.
    rewrite Forall_forall in Hl. by apply Hl, Hsub.
Qed.

(** What the switch has to establish about the threads' states. *)
Lemma sched_ok_after s me sc0 c cpus3 gone ths' :
  sched_ok s -> sd_cpus s !! me = Some sc0 -> cpus_ok (<[me := c]> cpus3) ->
  held (<[me := c]> cpus3) ++ gone ≡ₚ owned s -> fixed <$> cpus3 = fixed <$> sd_cpus s ->
  sc_idle_thread c = sc_idle_thread sc0 -> (forall t, live (sd_threads s) t -> live ths' t) ->
  (forall t, t ∈ owned s -> t ∉ gone -> t ∉ running c ->
     t ∈ running sc0 \/ th_state <$> sd_threads s !! t = Some TRunnable -> th_state <$> ths' !! t = Some TRunnable) ->
  sched_ok {| sd_cpus := <[me := c]> cpus3; sd_threads := ths' |}.
Proof.
  intros Hs Hme Hok Hp Hfix Hidle Hlive Hst.
  pose proof (so_nodup _ Hs) as Hnd. rewrite <- Hp in Hnd. apply NoDup_app in Hnd as (Hnd & Hdisj & _).
  constructor; [by eapply sched_wf_after; [apply Hs|..]|done|]. cbn [sd_cpus sd_threads]. intros i d t Hi Ht.
  assert (t ∈ held (<[me := c]> cpus3)) as Hh by (apply elem_of_held; eauto).
  assert (forall j e, <[me := c]> cpus3 !! j = Some e -> t ∉ running e) as Hnr
    by (intros j e Hj He; by eapply (held_once _ i d j e t)).
  assert (t ∈ owned s) as Ho by (rewrite <- Hp; apply elem_of_app; by left).
  apply Hst; [done|by apply Hdisj|exact (Hnr me c (insert_me _ _ _ _ _ Hfix Hme))|].
  apply elem_of_held in Ho as (j & e & Hj & [Hq|Hr]); [right; by eapply so_runnable|].
  destruct (decide (j = me)) as [->|Hne]; [left; congruence|]. exfalso.
  symmetry in Hfix. destruct (fixed_lookup _ _ _ _ Hfix Hj) as (e3 & Hj3 & E).
  apply (Hnr j e3); [by rewrite list_lookup_insert_ne|]. by rewrite <- (fixed_running _ _ E).
Qed.

(** ** Claims *)

Lemma running_tick sc sc1 : fixed sc1 = fixed sc -> running sc1 = running sc /\ is_idle sc1 = is_idle sc.
Proof. unfold fixed, running, is_idle. intros [= -> -> _]. done. Qed.

Lemma leaving_tick ths ths1 sc sc1 :
  fixed sc1 = fixed sc -> (forall t, th_state <$> ths1 !! t = th_state <$> ths !! t) ->
  leaving ths1 sc1 = leaving ths sc.
Proof.
  intros Hf Hst. unfold leaving. destruct (running_tick _ _ Hf) as [_ ->].
  unfold fixed in Hf. injection Hf as -> _ _. by rewrite Hst.
Qed.

Lemma live_state ths ths' : (forall t, th_state <$> ths' !! t = th_state <$> ths !! t) -> forall t, live ths t -> live ths' t.
Proof.
  intros H t [th Hth]. specialize (H t). rewrite Hth in H. unfold live. by destruct (ths' !! t).
Qed.

Lemma live_alter ths f k t : live ths t -> live (alter f k ths) t.
Proof. intros [th H]. unfold live. rewrite lookup_alter. case_decide as E; [subst k|]; rewrite H; by eexists. Qed.

Lemma switch_fpu_state ths sc next ths' fpu t :
  switch_fpu ths sc next = (ths', fpu) -> th_state <$> ths' !! t = th_state <$> ths !! t.
Proof.
  unfold switch_fpu. intros [= <- _]. destruct (sc_current sc =? 0); [done|].
  rewrite lookup_alter. case_decide as E; [subst|done]. rewrite <- option_fmap_compose. by apply option_fmap_ext.
Qed.

(** The room for the running thread in the own queue. *)
Lemma own_room s me sc :
  sched_wf s -> sd_cpus s !! me = Some sc ->
  (length (mq_threads (sc_run_queue sc)) + length (running sc) <= 255)%nat /\ Forall (live (sd_threads s)) (running sc) /\
  mq_ok (sc_run_queue sc) /\ sc_idle_thread sc ∉ owned s.
Proof.
  intros Hs Hme. split_and!.
  - pose proof (so_room _ Hs) as Hr. apply list_elem_of_lookup_2, list_elem_of_split in Hme as (l1 & l2 & E).
    unfold owned, held in Hr. rewrite E, fmap_app, concat_app in Hr. cbn [fmap list_fmap concat] in Hr.
    rewrite !length_app in Hr. lia.
  - pose proof (so_live _ Hs) as Hl. rewrite Forall_forall in *. intros t Ht. apply Hl, elem_of_held. eauto.
  - apply (Forall_lookup_1 _ _ _ _ (so_cpus _ Hs) Hme).
  - apply (Forall_lookup_1 _ _ _ _ (so_idle _ Hs) Hme).
Qed.

Lemma alter_state f (ths : gmap Z Thread) k t :
  t <> k -> th_state <$> alter f k ths !! t = th_state <$> ths !! t.
Proof. intros H. by rewrite lookup_alter_ne. Qed.

(** The end of [schedule]: whether the thread changes or not, [next] runs. *)
Lemma finish_switch ths2 me next (cpus3 : list SchedCpu) sc3 :
  exists c ths',
    (if next =? sc_current sc3 then
       {| sd_cpus := <[me := sc3]> cpus3;
          sd_threads := if sc_current sc3 =? 0 then ths2 else alter (set_th_state TRunning) next ths2 |}
     else
       let '(ths4, fpu) := switch_fpu (alter (start_on (Z.of_nat me)) next ths2) sc3 next in
       {| sd_cpus := <[me := set_current sc3 next fpu]> cpus3; sd_threads := ths4 |}) =
    {| sd_cpus := <[me := c]> cpus3; sd_threads := ths' |} /\
    sc_run_queue c = sc_run_queue sc3 /\ sc_current c = next /\ sc_idle_thread c = sc_idle_thread sc3 /\
    (forall t, live ths2 t -> live ths' t) /\ (forall t, t <> next -> th_state <$> ths' !! t = th_state <$> ths2 !! t) /\
    (next <> 0 -> live ths2 next -> th_state <$> ths' !! next = Some TRunning).
Proof.
  destruct (next =? sc_current sc3) eqn:E.
  - apply Z.eqb_eq in E. exists sc3. eexists. split_and!; [reflexivity|done|done|done|..].
    + intros t Ht. destruct (_ =? 0); [done|by apply live_alter].
    + intros t Ht. destruct (_ =? 0); [done|by apply alter_state].
    + intros Hn [th Hth]. rewrite (proj2 (Z.eqb_neq _ _)) by lia. by rewrite lookup_alter_eq, Hth.
  - destruct (switch_fpu _ sc3 next) as [ths4 fpu] eqn:Hf. exists (set_current sc3 next fpu), ths4.
    pose proof (fun t => switch_fpu_state _ _ _ _ _ t Hf) as Hst. split_and!; try done.
    + intros t Ht. by apply (live_state _ _ Hst), live_alter.
    + intros t Ht. rewrite Hst. by apply alter_state.
    + intros _ [th Hth]. by rewrite Hst, lookup_alter_eq, Hth.
Qed.

(** The time slice is not used up: only the counters change. *)
Lemma schedule_keeps s me sc ths1 sc1 ths2 :
  sched_wf s -> sd_cpus s !! me = Some sc -> tick (sd_threads s) sc = (ths1, sc1) ->
  requeue_current ths1 sc1 = (None, ths2) ->
  let s' := {| sd_cpus := <[me := sc1]> (sd_cpus s); sd_threads := ths2 |} in
  sched_wf s' /\ (sched_ok s -> sched_ok s') /\ owned s' ++ leaving (sd_threads s) sc ≡ₚ owned s /\
  Forall (fun t => th_state <$> ths2 !! t = Some TRunning) (running sc1).
Proof.
  intros Hs Hme Htick Hrq s'. destruct (own_room s me sc Hs Hme) as (_ & _ & Hq & _).
  destruct (tick_spec _ _ _ _ Hq Htick) as (Hq1 & Hf1 & Hw1 & Hst1).
  rewrite <- (leaving_tick _ _ _ _ Hf1 Hst1). pose proof (fixed_running _ _ Hf1) as Hrun.
  unfold requeue_current in Hrq. unfold leaving, running. unfold running in Hrun at 1. unfold is_idle in *.
  destruct (_ || _); [done|]. destruct (ths1 !! sc_current sc1) as [th|] eqn:Hth; [|done].
  simpl. destruct (th_state th) eqn:Hrunning; try done. destruct (charge_tick th) as [[] th'] eqn:Hc; [done|].
  injection Hrq as <-. assert (th_state th' = TRunning) as Hth'.
  { unfold charge_tick in Hc. destruct (_ <? _); [|done]. by injection Hc as <-. }
  assert (forall t, th_state <$> <[sc_current sc1 := th']> ths1 !! t = th_state <$> sd_threads s !! t) as Hst2.
  { intros t. rewrite <- Hst1. destruct (decide (t = sc_current sc1)) as [->|].
    - rewrite lookup_insert_eq, Hth. simpl. congruence.
    - by rewrite lookup_insert_ne. }
  assert (held (<[me := sc1]> (sd_cpus s)) ++ [] ≡ₚ owned s) as Hp.
  { rewrite app_nil_r. apply perm_of_zsum. intros w. unfold owned. rewrite !held_weight.
    rewrite (weight_put w me _ sc), (zsum_insert (running_weight w) _ me sc) by done.
    rewrite Hw1. unfold running_weight. rewrite (fixed_running _ _ Hf1). lia. }
  assert (cpus_ok (<[me := sc1]> (sd_cpus s))) as Hok by (apply Forall_insert; [apply Hs|done]).
  assert (sc_idle_thread sc1 = sc_idle_thread sc) as Hid by (unfold fixed in Hf1; by injection Hf1).
  split_and!; [| |done|by apply Forall_singleton; rewrite lookup_insert_eq; simpl; rewrite Hth'].
  - eapply (sched_wf_after s me sc sc1 _ []); try done. apply (live_state _ _ Hst2).
  - intros Hso. eapply (sched_ok_after s me sc sc1 _ []); try done; [apply (live_state _ _ Hst2)|].
    intros t _ _ Hnr [Hr|Hr]; [by rewrite <- (fixed_running _ _ Hf1) in Hr|]. by rewrite Hst2.
Qed.

(** A held thread that a processor does not run is not its current one. *)
Lemma not_running_ne s sc c t :
  sched_wf s -> sc_idle_thread sc ∉ owned s -> sc_idle_thread c = sc_idle_thread sc ->
  t ∈ owned s -> t ∉ running c -> t <> sc_current c.
Proof.
  intros Hs Hidle Hi Ht Hn ->. apply Hn. unfold running, is_idle. rewrite Hi.
  destruct (sc_current c =? 0) eqn:E1.
  { apply Z.eqb_eq in E1. rewrite E1 in Ht. by apply (so_null _ Hs) in Ht. }
  destruct (sc_current c =? sc_idle_thread sc) eqn:E2; [|by left]. apply Z.eqb_eq in E2. by rewrite E2 in Ht.
Qed.

(** The end of [schedule_yield]. *)
Lemma finish_yield ths1 me next cur (cpus2 : list SchedCpu) sc2 :
  sc_current sc2 = cur -> cur <> 0 ->
  exists c ths',
    (if next =? cur then
       {| sd_cpus := <[me := sc2]> cpus2; sd_threads := alter (set_th_state TRunning) cur ths1 |}
     else
       {| sd_cpus := <[me := set_current sc2 next (sc_fpu sc2)]> cpus2;
          sd_threads := alter (start_on (Z.of_nat me)) next ths1 |}) =
    {| sd_cpus := <[me := c]> cpus2; sd_threads := ths' |} /\
    sc_run_queue c = sc_run_queue sc2 /\ sc_current c = next /\ sc_idle_thread c = sc_idle_thread sc2 /\
    (forall t, live ths1 t -> live ths' t) /\ (forall t, t <> next -> th_state <$> ths' !! t = th_state <$> ths1 !! t).
Proof.
  intros Hcur H0. destruct (next =? cur) eqn:E.
  - apply Z.eqb_eq in E as ->. exists sc2. eexists. split_and!; [reflexivity|done|done|done|..].
    + intros t. apply live_alter.
    + intros t. apply alter_state.
  - exists (set_current sc2 next (sc_fpu sc2)). eexists. split_and!; [reflexivity|done|done|done|..].
    + intros t. apply live_alter.
    + intros t. apply alter_state.
Qed.

Lemma schedule_yield_conserves s me busy sc :
  sched_wf s -> sd_cpus s !! me = Some sc -> is_idle sc = false ->
  sched_wf (schedule_yield s me busy) /\ (sched_ok s -> sched_ok (schedule_yield s me busy)) /\ owned (schedule_yield s me busy) ≡ₚ owned s.
Proof.
  intros Hs Hme Hni. destruct (own_room s me sc Hs Hme) as (Hroom & Hlive & Hq & Hidle).
  assert (running sc = [sc_current sc]) as Hrun by (unfold running; by rewrite Hni).
  rewrite Hrun in *. cbn [length] in Hroom. apply Forall_singleton in Hlive as [th Hth].
  unfold schedule_yield. rewrite Hme. unfold is_idle in Hni. rewrite Hni. apply orb_false_iff in Hni as [Hn0 _].
  set (ths1 := alter _ _ _). set (sc1 := set_rq _ _).
  assert (mq_ok (sc_run_queue sc1) /\ forall w, queue_weight w sc1 = queue_weight w sc + w (sc_current sc)) as [Hq1 Hw1].
  { split; [apply (push_weight _ _ _ _ (fun _ => 0) Hq ltac:(lia) eq_refl)|]. intros w. unfold queue_weight.
    destruct (push_weight _ (sc_current sc) (prio_of ths1 (sc_current sc)) _ w Hq ltac:(lia) eq_refl) as [_ H].
    etransitivity; [exact H|]. lia. }
  destruct (pick_next ths1 me busy (sd_cpus s) sc1) as [[next cpus2] sc2] eqn:Hpick.
  assert (sc_current sc <> 0) as Hc0 by lia.
  destruct (switch_held ths1 me busy (sd_cpus s) sc sc1 [] next cpus2 sc2 (set_current sc2 next 0))
    as (_ & _ & _ & _ & Hfx); try done; try apply Hs.
  { intros w. rewrite Hw1. unfold running_weight. rewrite Hrun. simpl. lia. }
  assert (sc_current sc2 = sc_current sc) as Hcur2 by (unfold fixed in Hfx; by injection Hfx).
  destruct (finish_yield ths1 me next (sc_current sc) cpus2 sc2 Hcur2 Hc0) as (c & ths' & -> & Hcq & Hcc & Hci & Hl' & Hst').
  destruct (switch_held ths1 me busy (sd_cpus s) sc sc1 [] next cpus2 sc2 c)
    as (Hok3 & Hp3 & Hfix3 & Hidle3 & _); try done; try apply Hs.
  { intros w. rewrite Hw1. unfold running_weight. rewrite Hrun. simpl. lia. }
  assert (forall t, live (sd_threads s) t -> live ths' t) as Hlv by (intros t Ht; by apply Hl', live_alter).
  split_and!; [by eapply (sched_wf_after s me sc c cpus2 [] ths')| |unfold owned; cbn [sd_cpus]; by rewrite app_nil_r in Hp3].
  intros Hso. eapply (sched_ok_after s me sc c cpus2 [] ths'); try done.
  - intros t Ht _ Hnr Hor. rewrite Hst' by (subst next; by eapply not_running_ne).
    destruct (decide (t = sc_current sc)) as [->|Hne].
    + unfold ths1. by rewrite lookup_alter_eq, Hth.
    + unfold ths1. rewrite lookup_alter_ne by done. rewrite Hrun in Hor.
      destruct Hor as [Hr|]; [|done]. by apply list_elem_of_singleton in Hr.
Qed.

(** One call of [schedule], whether or not every thread is in one place. *)
Lemma schedule_switch s me busy sc :
  sched_wf s -> sd_cpus s !! me = Some sc ->
  let s' := schedule s me busy in
  sched_wf s' /\ (sched_ok s -> sched_ok s') /\ owned s' ++ leaving (sd_threads s) sc ≡ₚ owned s /\
  forall c, sd_cpus s' !! me = Some c -> Forall (fun t => th_state <$> sd_threads s' !! t = Some TRunning) (running c).
Proof.
  intros Hs Hme s'. destruct (own_room s me sc Hs Hme) as (Hroom & Hlive & Hq & Hidle).
  unfold s', schedule. rewrite Hme. destruct (tick (sd_threads s) sc) as [ths1 sc1] eqn:Htick.
  destruct (tick_spec _ _ _ _ Hq Htick) as (Hq1 & Hf1 & Hw1 & Hst1).
  destruct (running_tick _ _ Hf1) as [Hrun1 Hidle1].
  pose proof (leaving_tick _ _ _ _ Hf1 Hst1) as Hleave.
  destruct (requeue_current ths1 sc1) as [[[ths2 sc2]|] ths2'] eqn:Hrq.
  2: { destruct (schedule_keeps s me sc ths1 sc1 ths2' Hs Hme Htick Hrq) as (H1 & H2 & H3 & H4). split_and!; [done..|].
       intros c Hc. cbn [sd_cpus sd_threads] in *.
       rewrite list_lookup_insert_eq in Hc by (by apply lookup_lt_Some in Hme). by injection Hc as <-. }
  destruct (requeue_spec ths1 sc1 ths2 sc2 ths2' Hq1) as (Hq2 & Hf2 & Hw2 & Hoth & Hl2 & Hrun2).
  { rewrite Hrun1. eapply Forall_impl; [exact Hlive|]. apply (live_state _ _ Hst1). }
  { pose proof (Hw1 one) as Hl. unfold queue_weight in Hl. rewrite !zsum_one in Hl. rewrite Hrun1. lia. }
  { done. }
  destruct (pick_next ths2 me busy (sd_cpus s) sc2) as [[next cpus3] sc3] eqn:Hpick.
  destruct (finish_switch ths2 me next cpus3 sc3) as (c & ths' & -> & Hcq & Hcc & Hci & Hl' & Hst' & Hnext).
  destruct (switch_held ths2 me busy (sd_cpus s) sc sc2 (leaving ths1 sc1) next cpus3 sc3 c)
    as (Hok3 & Hp3 & Hfix3 & Hidle3 & Hf3); try done; try apply Hs.
  { congruence. }
  { intros w. by rewrite Hw2, Hw1; unfold running_weight; rewrite Hrun1. }
  rewrite Hleave in *. split_and!; [| |done|].
  - eapply (sched_wf_after s me sc c cpus3 _ ths'); try done.
    intros t Ht. by apply Hl', Hl2, (live_state _ _ Hst1).
  - intros Hso. eapply (sched_ok_after s me sc c cpus3 _ ths'); try done.
    + intros t Ht. by apply Hl', Hl2, (live_state _ _ Hst1).
    + intros t Ht Hg Hnr Hor. rewrite Hst' by (subst next; by eapply not_running_ne).
      destruct (decide (t ∈ running sc1)) as [Hr|Hr].
      * rewrite Forall_forall in Hrun2. by destruct (Hrun2 t Hr).
      * rewrite (Hoth t Hr), Hst1. rewrite Hrun1 in Hr. by destruct Hor.
  - intros c' Hc'. cbn [sd_cpus sd_threads] in *.
    assert (<[me := c]> cpus3 !! me = Some c) as Hmc by by apply (insert_me cpus3 (sd_cpus s) me sc).
    rewrite Hmc in Hc'. injection Hc' as <-.
    apply Forall_forall. intros t Ht. assert (t = next /\ next <> 0) as [-> Hn0].
    { unfold running, is_idle in Ht. rewrite Hcc in Ht. destruct (next =? 0) eqn:E0; [by apply not_elem_of_nil in Ht|].
      destruct (_ || _); [by apply not_elem_of_nil in Ht|]. apply list_elem_of_singleton in Ht. lia. }
    apply Hnext; [done|]. apply Hl2, (live_state _ _ Hst1). pose proof (so_live _ Hs) as Hl. rewrite Forall_forall in Hl.
    apply Hl. rewrite <- Hp3. apply elem_of_app. left. apply elem_of_held. exists me, c. split; [done|]. by right.
Qed.

(** One call of [schedule] on any processor, whichever other processors' locks
    are taken, keeps the scheduler's invariant: no thread is lost, queued twice or
    run by two processors.  The threads held afterwards are those held before,
    except the caller's own thread if it had blocked or died; every queued thread is
    runnable, and the thread that runs now is marked running.  [schedule_yield] called
    by a thread keeps the invariant and every thread. *)
Theorem schedule_conserves_threads s me busy sc :
  sched_ok s -> sd_cpus s !! me = Some sc ->
  let s' := schedule s me busy in
  sched_ok s' /\ owned s' ++ leaving (sd_threads s) sc ≡ₚ owned s /\
  (forall c, sd_cpus s' !! me = Some c ->
     Forall (fun t => th_state <$> sd_threads s' !! t = Some TRunning) (running c)) /\
  (is_idle sc = false ->
     sched_ok (schedule_yield s me busy) /\ owned (schedule_yield s me busy) ≡ₚ owned s).
Proof.
  intros Hs Hme s'. destruct (schedule_switch s me busy sc (so_wf _ Hs) Hme) as (_ & H1 & H2 & H3).
  split_and!; [by apply H1|done|done|]. intros Hi.
  destruct (schedule_yield_conserves s me busy sc (so_wf _ Hs) Hme Hi) as (_ & H4 & H5). split; [by apply H4|done].
Qed.

(** Two processors: thread 10 runs on the first, thread 11 waits on the second. *)
Definition two_cpus (st : ThreadState) (fpu : Z) : sched :=
  let cpu cur idle q := {| sc_current := cur; sc_idle_thread := idle; sc_run_queue := q; sc_tick_count := 0;
                           sc_steal_cursor := 1; sc_fpu := fpu |} in
  let th st fpu := {| th_state := st; th_cpu_id := 0; th_priority := 0; th_ticks_used := 0; th_fpu := fpu |} in
  {| sd_cpus := [cpu 10 1 MlfqQueue_new; cpu 2 2 (snd (MlfqQueue_push MlfqQueue_new 11 0))];
     sd_threads := <[10 := th st 0]> (<[11 := th TRunnable 111]> (<[1 := th TRunning 0]> {[2 := th TRunning 0]})) |}.

Lemma two_cpus_ok st fpu : sched_ok (two_cpus st fpu).
Proof.
  assert (forall st, owned (two_cpus st fpu) = [10; 11]) as Ho by (intros; vm_compute; reflexivity).
  constructor; [constructor|..]; rewrite ?Ho.
  - constructor; [apply mlfq_new_ok|]. constructor; [|constructor].
    apply (mlfq_push_threads MlfqQueue_new 11 0 true _ (proj1 mlfq_new_ok)). reflexivity.
  - simpl. lia.
  - set_solver.
  - repeat constructor; simpl; set_solver.
  - repeat constructor; eexists; reflexivity.
  - repeat constructor; set_solver.
  - intros i c t Hc Ht.
    assert (Forall (fun c => mq_threads (sc_run_queue c) ⊆ [11]) (sd_cpus (two_cpus st fpu))) as Hall.
    { constructor; [vm_compute; by intros ? ?%not_elem_of_nil|]. constructor; [|constructor]. vm_compute. done. }
    apply (Forall_lookup_1 _ _ _ _ Hall Hc), list_elem_of_singleton in Ht as ->. reflexivity.
Qed.

(** Thread 10 has blocked: the first processor steals thread 11. *)
Lemma schedule_conserves_threads_witness :
  owned (schedule (two_cpus TBlocked 7) 0 (fun _ => false)) = [11] /\
  owned (schedule (two_cpus TBlocked 7) 0 (fun _ => false)) ++ [10] ≡ₚ owned (two_cpus TBlocked 7).
Proof.
  split; [vm_compute; reflexivity|].
  assert (exists sc, sd_cpus (two_cpus TBlocked 7) !! 0%nat = Some sc /\
    leaving (sd_threads (two_cpus TBlocked 7)) sc = [10]) as (sc & Hsc & Hl)
    by (eexists; split; [reflexivity|vm_compute; reflexivity]).
  destruct (schedule_conserves_threads (two_cpus TBlocked 7) 0 (fun _ => false) sc (two_cpus_ok _ _) Hsc) as (_ & H & _).
  rewrite <- Hl. exact H.
Defined.

(** Queueing a thread on processor [i], whatever else holds it. *)
Lemma push_held s i c t level :
  sched_wf s -> (length (owned s) < 255)%nat -> sd_cpus s !! i = Some c ->
  exists q, MlfqQueue_push (sc_run_queue c) t level = (true, q) /\ mq_threads q ≡ₚ t :: mq_threads (sc_run_queue c) /\
    cpus_ok (<[i := set_rq c q]> (sd_cpus s)) /\ held (<[i := set_rq c q]> (sd_cpus s)) ≡ₚ t :: owned s.
Proof.
  intros Hs Hlt Hi. destruct (own_room s i c Hs Hi) as (_ & _ & Hq & _).
  destruct (mlfq_push_room (sc_run_queue c) t level Hq) as (q & E & Hq' & Hp).
  { apply (Nat.le_lt_trans _ (length (owned s))); [|done]. apply list_elem_of_lookup_2, list_elem_of_split in Hi as (l1 & l2 & E).
    unfold owned, held. rewrite E, fmap_app, concat_app. cbn [fmap list_fmap concat]. rewrite !length_app. lia. }
  exists q. split_and!; [done|done|apply Forall_insert; [apply Hs|done]|].
  apply perm_of_zsum. intros w. unfold owned. cbn [zsum]. rewrite !held_weight.
  rewrite (weight_put w i _ c), (zsum_insert (running_weight w) _ i c) by done.
  unfold queue_weight at 3. cbn [set_rq sc_run_queue]. rewrite (zsum_perm w _ _ Hp). cbn [zsum].
  change (running_weight w (set_rq c q)) with (running_weight w c). unfold queue_weight. lia.
Qed.

(** A thread that can be given to the scheduler, whether or not it holds it already. *)
Record wakeable (s : sched) (t : Z) : Prop := {
  wk_null : t <> 0;
  wk_idle : Forall (fun c => sc_idle_thread c <> t) (sd_cpus s);
  wk_room : (length (owned s) < 255)%nat
}.

(** Adding a thread to the queue of processor [i] keeps the queues well formed. *)
Lemma push_wf s i c t level ths ok q :
  sched_wf s -> sd_cpus s !! i = Some c -> wakeable s t ->
  (forall x, live (sd_threads s) x -> live ths x) -> live ths t -> MlfqQueue_push (sc_run_queue c) t level = (ok, q) ->
  let s' := {| sd_cpus := <[i := set_rq c q]> (sd_cpus s); sd_threads := ths |} in
  ok = true /\ sched_wf s' /\ owned s' ≡ₚ t :: owned s /\ mq_threads q ≡ₚ t :: mq_threads (sc_run_queue c) /\ fixed <$> sd_cpus s' = fixed <$> sd_cpus s.
Proof.
  intros Hwf Hi [H0 Hidle Hlt] Hlive Ht Hpush s'. destruct (push_held s i c t level Hwf Hlt Hi) as (q1 & E & Hp & Hok & Hheld).
  rewrite E in Hpush. injection Hpush as <- <-. pose proof (fixed_put (sd_cpus s) i c q1 Hi) as Hfix. split_and!; [done| |done..].
  constructor; unfold owned, s'; cbn [sd_cpus sd_threads].
  - done.
  - rewrite Hheld. simpl. lia.
  - rewrite Hheld. intros [|]%elem_of_cons; [lia|]. by apply (so_null _ Hwf).
  - apply Forall_lookup_2. intros j d Hj. rewrite Hheld. destruct (fixed_lookup _ _ _ _ Hfix Hj) as (d0 & Hj0 & Ef). unfold fixed in Ef. injection Ef as _ -> _.
    intros [E1|E1]%elem_of_cons; [by apply (Forall_lookup_1 _ _ _ _ Hidle Hj0)|by apply (Forall_lookup_1 _ _ _ _ (so_idle _ Hwf) Hj0)].
  - rewrite Hheld. constructor; [done|]. eapply Forall_impl; [apply (so_live _ Hwf)|done].
Qed.

(** A thread that the scheduler holds is no idle thread. *)
Lemma owned_wakeable s t : sched_wf s -> t ∈ owned s -> (length (owned s) < 255)%nat -> wakeable s t.
Proof.
  intros Hs Ht Hlt. constructor; [intros ->; by apply (so_null _ Hs)| |done]. eapply Forall_impl; [apply (so_idle _ Hs)|]. cbn. intros c Hc <-. done.
Qed.

(** A wake-up: the thread is added to what the scheduler holds. *)
Lemma try_push_spec busy s t c0 :
  sched_wf s -> wakeable s t -> live (sd_threads s) t -> busy 0%nat = false -> sd_cpus s !! 0%nat = Some c0 ->
  exists s1, try_push_to_cpu busy s t 0 = (true, s1) /\ sched_wf s1 /\ owned s1 ≡ₚ t :: owned s /\
    fixed <$> sd_cpus s1 = fixed <$> sd_cpus s /\ th_state <$> sd_threads s1 !! t = Some TRunnable.
Proof.
  intros Hs Hw [th Hth] Hb Hc0. unfold try_push_to_cpu. rewrite Hb, Hc0. set (ths := alter _ _ _).
  destruct (MlfqQueue_push (sc_run_queue c0) t (prio_of ths t)) as [ok q] eqn:Hp.
  destruct (push_wf s 0 c0 t (prio_of ths t) ths ok q Hs Hc0 Hw) as (-> & H1 & H2 & _ & H3); [intros x; apply live_alter|by apply live_alter; eexists|done|].
  eexists. split_and!; [reflexivity|done..|]. unfold ths. cbn [sd_threads]. by rewrite lookup_alter_eq, Hth.
Qed.

(** The wake-up that arrives early.  A thread that is about to sleep is marked
    blocked and visible in its wait queue before it calls [schedule].  A waker on
    another processor makes it runnable and queues it in that window; the sleeper's
    own [schedule] then finds it runnable and queues it again.  Afterwards the
    scheduler holds the thread twice, so two processors can run it at once. *)
Theorem early_wake_duplicates_thread s me busy sc c0 :
  sched_ok s -> (length (owned s) < 255)%nat -> busy 0%nat = false ->
  sd_cpus s !! me = Some sc -> sd_cpus s !! 0%nat = Some c0 -> is_idle sc = false ->
  let cur := sc_current sc in
  exists s1, try_push_to_cpu busy s cur 0 = (true, s1) /\
    owned (schedule s1 me busy) ≡ₚ cur :: owned s /\ cur ∈ owned s /\ ~ NoDup (owned (schedule s1 me busy)).
Proof.
  intros Hs Hlt Hb Hme Hc0 Hni cur.
  assert (cur ∈ owned s) as Hcur.
  { apply elem_of_held. exists me, sc. split; [done|]. right. unfold running. rewrite Hni. by left. }
  pose proof (proj1 (Forall_forall _ _) (so_live _ (so_wf _ Hs)) _ Hcur) as Hlv.
  destruct (try_push_spec busy s cur c0 (so_wf _ Hs) (owned_wakeable s cur (so_wf _ Hs) Hcur Hlt) Hlv Hb Hc0) as (s1 & E & Hwf & Hp & Hfix & Hst).
  symmetry in Hfix. destruct (fixed_lookup _ _ _ _ Hfix Hme) as (sc1 & Hme1 & Hf).
  destruct (schedule_switch s1 me busy sc1 Hwf Hme1) as (_ & _ & Hp2 & _).
  assert (leaving (sd_threads s1) sc1 = []) as Hleave.
  { unfold leaving. destruct (is_idle sc1); [done|]. unfold fixed in Hf. injection Hf as <- _ _. fold cur. by rewrite Hst. }
  rewrite Hleave, app_nil_r in Hp2. exists s1. rewrite Hp2. split_and!; [done..|].
  rewrite Hp. intros Hnd. by apply NoDup_cons in Hnd as [? _].
Qed.

Lemma early_wake_duplicates_thread_witness :
  exists s1, try_push_to_cpu (fun _ => false) (two_cpus TBlocked 7) 10 0 = (true, s1) /\ ~ NoDup (owned (schedule s1 0 (fun _ => false))).
Proof.
  assert (exists sc, sd_cpus (two_cpus TBlocked 7) !! 0%nat = Some sc /\ is_idle sc = false /\ sc_current sc = 10)
    as (sc & Hsc & Hi & Hc) by (eexists; split_and!; reflexivity).
  destruct (early_wake_duplicates_thread (two_cpus TBlocked 7) 0 (fun _ => false) sc sc (two_cpus_ok _ _)
    (proj1 (Nat.ltb_lt (length (owned (two_cpus TBlocked 7))) 255) eq_refl) eq_refl Hsc Hsc Hi) as (s1 & E & _ & _ & H).
  exists s1. rewrite Hc in E. split; [exact E|exact H].
Defined.

Lemma pick_next_fpu ths me busy s sc sc1 next cpus3 sc3 :
  sched_wf s -> sd_cpus s !! me = Some sc -> mq_ok (sc_run_queue sc1) -> fixed sc1 = fixed sc ->
  (forall w, (forall t, 0 <= w t) -> queue_weight w sc1 <= queue_weight w sc + running_weight w sc) ->
  pick_next ths me busy (sd_cpus s) sc1 = (next, cpus3, sc3) ->
  fixed sc3 = fixed sc /\ fixed <$> cpus3 = fixed <$> sd_cpus s.
Proof.
  intros Hs Hme Hq Hf Hw Hp.
  destruct (pick_next_spec ths me busy (sd_cpus s) sc1 next cpus3 sc3) as (o & Hr & _); try done; [apply Hs| |].
  - rewrite (weight_put one me _ sc) by done. pose proof (so_room _ Hs) as Hl.
    assert (zsum one (owned s) <= 255) as Hl' by (rewrite zsum_one; lia).
    unfold owned in Hl'. rewrite held_weight in Hl'. specialize (Hw one ltac:(done)).
    pose proof (zsum_elem (running_weight one) (sd_cpus s) sc (fun c => running_weight_nonneg one c ltac:(done))
      (list_elem_of_lookup_2 _ _ _ Hme)). lia.
  - split; [|apply Hr]. by rewrite (sr_self _ _ _ _ _ _ Hr).
Qed.

Lemma alter_fpu f (ths : gmap Z Thread) k t :
  (forall th, th_fpu (f th) = th_fpu th) -> th_fpu <$> alter f k ths !! t = th_fpu <$> ths !! t.
Proof.
  intros Hf. rewrite lookup_alter. case_decide as E; [subst|done].
  rewrite <- option_fmap_compose. by apply option_fmap_ext.
Qed.

(** [schedule_yield] hands the processor over without saving or loading the
    extended registers: whichever thread runs next, the registers hold what the
    caller left in them, and no thread's save area has changed. *)
Theorem yield_mixes_fpu s me busy sc c :
  sched_ok s -> sd_cpus s !! me = Some sc -> is_idle sc = false ->
  sd_cpus (schedule_yield s me busy) !! me = Some c ->
  sc_fpu c = sc_fpu sc /\
  forall t, th_fpu <$> sd_threads (schedule_yield s me busy) !! t = th_fpu <$> sd_threads s !! t.
Proof.
  intros Hs Hme Hni. destruct (own_room s me sc (so_wf _ Hs) Hme) as (Hroom & _ & Hq & _).
  assert (running sc = [sc_current sc]) as Hrun by (unfold running; by rewrite Hni).
  rewrite Hrun in Hroom. cbn [length] in Hroom.
  unfold schedule_yield. rewrite Hme. unfold is_idle in Hni. rewrite Hni.
  set (ths1 := alter _ _ _). set (sc1 := set_rq _ _).
  assert (forall w, mq_ok (sc_run_queue sc1) /\ queue_weight w sc1 = w (sc_current sc) + queue_weight w sc) as Hpush
    by (intros w; apply (push_weight _ _ _ _ w Hq ltac:(lia) eq_refl)).
  destruct (pick_next ths1 me busy (sd_cpus s) sc1) as [[next cpus2] sc2] eqn:Hpick.
  destruct (pick_next_fpu ths1 me busy s sc sc1 next cpus2 sc2) as [Hf2 Hfix]; try done; [apply Hs|apply (Hpush one)| |].
  { intros w Hw. rewrite (proj2 (Hpush w)). unfold running_weight. rewrite Hrun. simpl. lia. }
  assert (forall t, th_fpu <$> ths1 !! t = th_fpu <$> sd_threads s !! t) as Hths by (intros t; by apply alter_fpu).
  unfold fixed in Hf2. injection Hf2 as _ _ Hf2.
  destruct (next =? sc_current sc); cbn [sd_cpus sd_threads];
    rewrite (insert_me _ (sd_cpus s) me sc) by done; intros [= <-]; (split; [done|]);
    intros t; by rewrite alter_fpu.
Qed.

(** A thread with registers 555 is preempted by a kernel thread, which yields: the
    first thread runs again, its save area still holds 555, and the registers do not. *)
Lemma yield_mixes_fpu_witness :
  let s := {| sd_cpus := [{| sc_current := 11; sc_idle_thread := 1;
                             sc_run_queue := snd (MlfqQueue_push MlfqQueue_new 10 0); sc_tick_count := 5;
                             sc_steal_cursor := 0; sc_fpu := 0 |}];
              sd_threads := <[10 := {| th_state := TRunnable; th_cpu_id := 0; th_priority := 0; th_ticks_used := 0; th_fpu := 555 |}]>
                {[11 := {| th_state := TRunning; th_cpu_id := 0; th_priority := 0; th_ticks_used := 0; th_fpu := 0 |}]} |} in
  sc_current <$> sd_cpus (schedule_yield s 0 (fun _ => false)) !! 0%nat = Some 10 /\
  sc_fpu <$> sd_cpus (schedule_yield s 0 (fun _ => false)) !! 0%nat = Some 0 /\
  th_fpu <$> sd_threads (schedule_yield s 0 (fun _ => false)) !! 10 = Some 555.
Proof.
  intros s. assert (sched_ok s) as Hs.
  { assert (owned s = [10; 11]) as Ho by (vm_compute; reflexivity).
    constructor; [constructor|..]; rewrite ?Ho.
    - constructor; [|constructor]. apply (mlfq_push_threads MlfqQueue_new 10 0 true _ (proj1 mlfq_new_ok)). reflexivity.
    - simpl. lia.
    - set_solver.
    - constructor; [|constructor]. simpl. set_solver.
    - repeat constructor; eexists; reflexivity.
    - repeat constructor; set_solver.
    - intros i c t Hc Ht.
      assert (Forall (fun c => mq_threads (sc_run_queue c) ⊆ [10]) (sd_cpus s)) as Hall
        by (constructor; [vm_compute; done|constructor]).
      apply (Forall_lookup_1 _ _ _ _ Hall Hc), list_elem_of_singleton in Ht as ->. reflexivity. }
  destruct (sd_cpus (schedule_yield s 0 (fun _ => false)) !! 0%nat) as [c|] eqn:Hc; [|vm_compute in Hc; discriminate].
  destruct (yield_mixes_fpu s 0 (fun _ => false) _ c Hs eq_refl eq_refl Hc) as [H1 H2].
  split_and!; [rewrite <- Hc; vm_compute; reflexivity|simpl; by rewrite H1|by rewrite H2].
Defined.

(** ** Every history *)

(** Adding a thread that the scheduler does not hold to the queue of processor [i]. *)
Lemma push_new_ok s i c t level ths ok q :
  sched_ok s -> sd_cpus s !! i = Some c -> wakeable s t -> t ∉ owned s ->
  (forall x, x <> t -> ths !! x = sd_threads s !! x) -> th_state <$> ths !! t = Some TRunnable ->
  MlfqQueue_push (sc_run_queue c) t level = (ok, q) ->
  sched_ok {| sd_cpus := <[i := set_rq c q]> (sd_cpus s); sd_threads := ths |}.
Proof.
  intros Hs Hi Hw Hnew Hoth Hst Hpush. assert (live ths t) as Ht by (destruct (ths !! t) eqn:Et; [by eexists|discriminate]).
  destruct (push_wf s i c t level ths ok q (so_wf _ Hs) Hi Hw) as (_ & H1 & H2 & Hp & _); try done.
  { intros x Hx. destruct (decide (x = t)) as [->|Hne]; [done|]. unfold live. by rewrite Hoth. }
  constructor; [done|rewrite H2; constructor; [done|apply Hs]|]. cbn [sd_cpus sd_threads].
  intros j d x Hj Hx. destruct (decide (x = t)) as [->|Hne]; [done|]. rewrite Hoth by done.
  apply list_lookup_insert_Some in Hj as [(<- & <- & _)|[_ Hj]]; [|by eapply so_runnable].
  cbn [set_rq sc_run_queue] in Hx. rewrite Hp in Hx. apply elem_of_cons in Hx as [|Hx]; [done|]. by eapply so_runnable.
Qed.

(** The scheduler's steps: a processor switches or yields, the running thread
    changes its own state (it blocks or dies), a new thread is allocated, enqueued or
    spawned, and a waiting thread is woken.  A thread can be woken while it is still on
    its way to [schedule], so that the scheduler still holds it: [early] says whether the
    history has such wake-ups. *)
Inductive sched_step (early : bool) : sched -> sched -> Prop :=
| step_schedule s me busy : sched_step early s (schedule s me busy)
| step_yield s me busy : sched_step early s (schedule_yield s me busy)
| step_own_state s me sc st :
    sd_cpus s !! me = Some sc -> is_idle sc = false ->
    sched_step early s {| sd_cpus := sd_cpus s; sd_threads := alter (set_th_state st) (sc_current sc) (sd_threads s) |}
| step_enqueue s t priority s' :
    wakeable s t -> t ∉ owned s -> th_state <$> sd_threads s !! t = Some TRunnable ->
    enqueue_thread s t priority = Done s' -> sched_step early s s'
| step_spawn s t fpu s' : wakeable s t -> t ∉ owned s -> spawn s t fpu = Done s' -> sched_step early s s'
| step_wake s t busy :
    wakeable s t -> live (sd_threads s) t -> t ∉ owned s \/ early = true ->
    sched_step early s (snd (try_push_to_cpu busy s t 0))
| step_new s t fpu : t ∉ owned s ->
    sched_step early s {| sd_cpus := sd_cpus s; sd_threads := <[t := new_kernel 0 fpu]> (sd_threads s) |}.

Lemma own_state_wf s f t : sched_wf s -> sched_wf {| sd_cpus := sd_cpus s; sd_threads := alter f t (sd_threads s) |}.
Proof. intros []. constructor; try done. eapply Forall_impl; [done|]. intros x. apply live_alter. Qed.

Lemma own_state_ok s me sc st :
  sched_ok s -> sd_cpus s !! me = Some sc -> is_idle sc = false ->
  sched_ok {| sd_cpus := sd_cpus s; sd_threads := alter (set_th_state st) (sc_current sc) (sd_threads s) |}.
Proof.
  intros Hs Hme Hni. constructor; [by apply own_state_wf, Hs|apply Hs|].
  - cbn [sd_cpus sd_threads]. intros i c t Hi Ht. rewrite alter_state; [by eapply so_runnable|]. intros ->.
    apply (held_once (sd_cpus s) i c me sc (sc_current sc) (so_nodup _ Hs) Hi Ht Hme).
    unfold running. rewrite Hni. by left.
Qed.

Lemma new_thread_wf s t th : sched_wf s -> t ∉ owned s -> sched_wf {| sd_cpus := sd_cpus s; sd_threads := <[t := th]> (sd_threads s) |}.
Proof.
  intros [? ? ? ? Hl] Hn. constructor; try done. unfold owned in *. cbn [sd_cpus sd_threads]. rewrite Forall_forall in *. intros x Hx. unfold live.
  rewrite lookup_insert_ne; [by apply Hl|]. by intros <-.
Qed.

Lemma new_thread_ok s t th :
  sched_ok s -> t ∉ owned s -> sched_ok {| sd_cpus := sd_cpus s; sd_threads := <[t := th]> (sd_threads s) |}.
Proof.
  intros Hs Hn. constructor; [by apply new_thread_wf; [apply Hs|]|apply Hs|].
  cbn [sd_cpus sd_threads]. intros i c x Hi Hx. rewrite lookup_insert_ne; [by eapply so_runnable|].
  intros <-. apply Hn, elem_of_held. eauto.
Qed.

(** Every step keeps the queues well formed, and each thread in one place unless it was
    woken early. *)
Lemma sched_step_ok early s s' : sched_step early s s' -> sched_wf s -> sched_wf s' /\ (early = false -> sched_ok s -> sched_ok s').
Proof.
  intros H Hs. destruct H as [s me busy|s me busy|s me sc st Hme Hni|s t priority s' Hw Hn Hst H|s t fpu s' Hw Hn H|s t busy Hw Hl Hor|s t fpu Hn].
  - destruct (sd_cpus s !! me) as [sc|] eqn:Hme; [|unfold schedule; by rewrite Hme].
    destruct (schedule_switch s me busy sc Hs Hme) as (H1 & H2 & _). split; [done|]. intros _. exact H2.
  - destruct (sd_cpus s !! me) as [sc|] eqn:Hme; [|unfold schedule_yield; by rewrite Hme]. destruct (is_idle sc) eqn:Hi.
    + unfold schedule_yield. rewrite Hme. unfold is_idle in Hi. rewrite Hi.
      destruct (schedule_switch s me busy sc Hs Hme) as (H1 & H2 & _). split; [done|]. intros _. exact H2.
    + destruct (schedule_yield_conserves s me busy sc Hs Hme Hi) as (H1 & H2 & _). split; [done|]. intros _. exact H2.
  - split; [by apply own_state_wf|]. intros _ Hso. by eapply own_state_ok.
  - unfold enqueue_thread in H. destruct (sd_cpus s !! 0%nat) as [sc|] eqn:H0; [|done].
    destruct (MlfqQueue_push _ t priority) as [ok q] eqn:Hp. destruct ok; [|done]. injection H as <-.
    split; [|intros _ Hso; by eapply (push_new_ok s 0 sc t priority)].
    eapply (push_wf s 0 sc t priority); try done. by destruct (sd_threads s !! t) eqn:E; [eexists|].
  - unfold spawn in H. destruct (sd_cpus s !! _) as [sc|] eqn:H0; [|done].
    destruct (MlfqQueue_push _ t 0) as [ok q] eqn:Hp. destruct ok; [|done]. injection H as <-. split.
    + eapply (push_wf s _ sc t 0); try done; unfold live; [|by rewrite lookup_insert_eq].
      intros x Hx. destruct (decide (x = t)) as [->|]; [by rewrite lookup_insert_eq|by rewrite lookup_insert_ne].
    + intros _ Hso. eapply (push_new_ok s _ sc t 0); try done; [|by rewrite lookup_insert_eq]. intros x Hx. by rewrite lookup_insert_ne.
  - unfold try_push_to_cpu. destruct (busy 0%nat); [done|]. destruct (sd_cpus s !! 0%nat) as [sc|] eqn:H0; [|done].
    destruct (MlfqQueue_push _ t _) as [ok q] eqn:Hp. cbn [snd]. split.
    + eapply (push_wf s 0 sc t); try done; [intros x|]; by apply live_alter.
    + intros -> Hso. destruct Hor as [Hn|]; [|done]. destruct Hl as [th Hth]. eapply (push_new_ok s 0 sc t); try done; [|by rewrite lookup_alter_eq, Hth].
      intros x Hx. by rewrite lookup_alter_ne.
  - split; [by apply new_thread_wf|]. intros _ Hso. by apply new_thread_ok.
Qed.

Lemma sched_init_ok idles fpu : sched_ok (sched_init idles fpu).
Proof.
  assert (forall i c, sd_cpus (sched_init idles fpu) !! i = Some c ->
    exists idle, c = init_sched_cpu (Z.of_nat i) idle fpu) as Hcpu.
  { intros i c Hi. unfold sched_init in Hi. cbn [sd_cpus] in Hi. rewrite list_lookup_imap in Hi.
    destruct (take 64 idles !! i) as [idle|]; [|done]. exists idle. by injection Hi as <-. }
  assert (owned (sched_init idles fpu) = []) as Ho.
  { destruct (owned (sched_init idles fpu)) as [|t l] eqn:E; [done|]. exfalso.
    assert (t ∈ owned (sched_init idles fpu)) as Ht by (rewrite E; left).
    apply elem_of_held in Ht as (i & c & Hi & Ht). destruct (Hcpu i c Hi) as [idle ->].
    unfold running, is_idle in Ht. cbn [init_sched_cpu sc_current sc_idle_thread sc_run_queue] in Ht.
    rewrite Z.eqb_refl, orb_true_r, (proj2 mlfq_new_ok) in Ht. destruct Ht as [Ht|Ht]; by apply not_elem_of_nil in Ht. }
  constructor; [constructor|..]; rewrite ?Ho.
  - apply Forall_lookup_2. intros i c Hi. destruct (Hcpu i c Hi) as [idle ->]. apply mlfq_new_ok.
  - simpl. lia.
  - apply not_elem_of_nil.
  - apply Forall_lookup_2. intros i c Hi. apply not_elem_of_nil.
  - constructor.
  - constructor.
  - intros i c t Hi Ht. destruct (Hcpu i c Hi) as [idle ->]. cbn [init_sched_cpu sc_run_queue] in Ht.
    rewrite (proj2 mlfq_new_ok) in Ht. by apply not_elem_of_nil in Ht.
Qed.

(** The processor found has the shortest queue of those looked at. *)
Lemma least_loaded_from_spec cpus cpu best len r :
  least_loaded_from cpu best len cpus = r ->
  (r = best /\ Forall (fun c => len <= mq_total (sc_run_queue c)) cpus) \/
  (exists i c, cpus !! i = Some c /\ r = cpu + Z.of_nat i /\ mq_total (sc_run_queue c) < len /\
     Forall (fun d => mq_total (sc_run_queue c) <= mq_total (sc_run_queue d)) cpus).
Proof.
  revert cpu best len. induction cpus as [|c cpus IH]; intros cpu best len H; cbn [least_loaded_from] in H; [by left|].
  destruct (mq_total (sc_run_queue c) <? len) eqn:E.
  - right. destruct (IH _ _ _ H) as [[-> Hall]|(i & d & Hi & -> & Hlt & Hall)].
    + exists 0%nat, c. split_and!; [done|lia|lia|]. by constructor.
    + exists (S i), d. split_and!; [done|lia|lia|]. constructor; [lia|done].
  - destruct (IH _ _ _ H) as [[-> Hall]|(i & d & Hi & -> & Hlt & Hall)].
    + left. split; [done|]. constructor; [lia|done].
    + right. exists (S i), d. split_and!; [done|lia|lia|]. constructor; [lia|done].
Qed.

Lemma least_loaded_cpu_spec s :
  sched_wf s -> sd_cpus s <> [] ->
  exists i c, least_loaded_cpu s = Z.of_nat i /\ sd_cpus s !! i = Some c /\
    Forall (fun d => (length (mq_threads (sc_run_queue c)) <= length (mq_threads (sc_run_queue d)))%nat) (sd_cpus s).
Proof.
  intros Hs Hne.
  assert (Forall (fun d => mq_total (sc_run_queue d) = Z.of_nat (length (mq_threads (sc_run_queue d))) /\
    mq_total (sc_run_queue d) < 2 ^ 32 - 1) (sd_cpus s)) as Hall.
  { apply Forall_lookup_2. intros i c Hi. destruct (own_room s i c Hs Hi) as (Hl & _ & Hq & _).
    pose proof (mqo_total _ Hq) as Ht. split; [done|lia]. }
  destruct (least_loaded_from_spec (sd_cpus s) 0 0 (2 ^ 32 - 1) _ eq_refl) as [[_ Hge]|(i & c & Hi & E & _ & Hmin)].
  - destruct (sd_cpus s) as [|c cs]; [done|]. apply Forall_cons_1 in Hge as [Hge _].
    apply Forall_cons_1 in Hall as [[_ Hall] _]. lia.
  - exists i, c. split_and!; [exact E|done|]. pose proof (Forall_lookup_1 _ _ _ _ Hall Hi) as [Hc _].
    rewrite Forall_forall in *. intros d Hd. specialize (Hmin d Hd). destruct (Hall d Hd) as [Hd' _]. lia.
Qed.

(** C19: through every history of switches, yields, spawns, blocking and wake-ups, with
    fewer than 255 threads in the scheduler at each addition, the run queues stay well
    formed and hold only threads that exist, none of them an idle thread; and if no thread
    is woken while it is still on its way off its processor, each thread is in at most one
    place and every queued thread is runnable.  As long as fewer than 255 threads are
    queued or running, neither [enqueue_thread] nor [spawn] panics on a full queue: the
    new thread is added, by [spawn] to a shortest queue. *)
Theorem sched_invariant early idles fpu s :
  rtc (sched_step early) (sched_init idles fpu) s ->
  sched_wf s /\ (early = false -> sched_ok s) /\
  forall t, wakeable s t -> sd_cpus s <> [] ->
    (forall priority, exists s', enqueue_thread s t priority = Done s' /\ owned s' ≡ₚ t :: owned s) /\
    (forall fpu', exists s' i c, spawn s t fpu' = Done s' /\ owned s' ≡ₚ t :: owned s /\
       sd_cpus s !! i = Some c /\ least_loaded_cpu s = Z.of_nat i /\
       Forall (fun d => (length (mq_threads (sc_run_queue c)) <= length (mq_threads (sc_run_queue d)))%nat) (sd_cpus s)).
Proof.
  intros Hr. assert (sched_wf s /\ (early = false -> sched_ok s)) as [Hwf Hs].
  { apply (rtc_invariant (sched_step early) (fun s => sched_wf s /\ (early = false -> sched_ok s)) (sched_init idles fpu)); [|..|done].
    - split; [apply sched_init_ok|intros _; apply sched_init_ok].
    - intros x y [Hx Hx'] Hxy. destruct (sched_step_ok early x y Hxy Hx) as [H1 H2]. split; [done|]. intros E. apply H2; [done|by apply Hx']. }
  split; [done|]. split; [done|]. intros t Hf Hne. split.
  - intros priority. unfold enqueue_thread. destruct (sd_cpus s !! 0%nat) as [c|] eqn:Hc; [|by destruct (sd_cpus s)].
    destruct (push_held s 0 c t priority Hwf (wk_room _ _ Hf) Hc) as (q & -> & _ & _ & Hp). run. by eexists.
  - intros fpu'. destruct (least_loaded_cpu_spec s Hwf Hne) as (i & c & Hi & Hc & Hmin).
    destruct (push_held s i c t 0 Hwf (wk_room _ _ Hf) Hc) as (q & E & _ & _ & Hp).
    unfold spawn. rewrite Hi, Nat2Z.id, Hc, E. run. by eexists _, i, c.
Qed.

(** Two processors: thread 9 is spawned, runs, blocks, leaves its processor and is woken;
    it is then in one queue, and thread 10 can be spawned. *)
Definition demo_history : list (sched -> sched) :=
  let spawned t s := match spawn s t 0 with Done s' => s' | Panic => s end in
  [spawned 9; fun s => schedule s 0 (fun _ => false);
   fun s => {| sd_cpus := sd_cpus s; sd_threads := alter (set_th_state TBlocked) 9 (sd_threads s) |};
   fun s => schedule s 0 (fun _ => false); fun s => snd (try_push_to_cpu (fun _ => false) s 9 0)].

Definition demo_sched (n : nat) : sched := foldl (fun s f => f s) (sched_init [1; 2] 0) (take n demo_history).

Lemma sched_invariant_witness :
  rtc (sched_step false) (sched_init [1; 2] 0) (demo_sched 5) /\ owned (demo_sched 5) = [9] /\ sched_ok (demo_sched 5) /\
  exists s', spawn (demo_sched 5) 10 0 = Done s' /\ owned s' ≡ₚ [10; 9].
Proof.
  assert (forall n t, (length (owned (demo_sched n)) <? 255)%nat && negb (t =? 0) && forallb (fun c => negb (sc_idle_thread c =? t)) (sd_cpus (demo_sched n)) = true -> wakeable (demo_sched n) t) as Hw.
  { intros n t [[H1 H2]%andb_prop H3]%andb_prop. constructor; [lia| |by apply Nat.ltb_lt]. rewrite forallb_forall in H3. apply Forall_forall. intros c Hc.
    apply list_elem_of_In, H3 in Hc. lia. }
  assert (exists sc, sd_cpus (demo_sched 2) !! 0%nat = Some sc /\ is_idle sc = false /\ sc_current sc = 9) as Hcpu
    by (eexists; split; [vm_compute; reflexivity|vm_compute; by split]).
  assert (rtc (sched_step false) (sched_init [1; 2] 0) (demo_sched 5)) as Hr.
  { apply (rtc_l _ _ (demo_sched 1)). { apply (step_spawn false (demo_sched 0) 9 0); [by apply Hw|apply not_elem_of_nil|vm_compute; reflexivity]. }
    apply (rtc_l _ _ (demo_sched 2)). { apply (step_schedule false (demo_sched 1) 0 (fun _ => false)). }
    apply (rtc_l _ _ (demo_sched 3)). { destruct Hcpu as (sc & E1 & E2 & E3).
      change (demo_sched 3) with {| sd_cpus := sd_cpus (demo_sched 2); sd_threads := alter (set_th_state TBlocked) 9 (sd_threads (demo_sched 2)) |}.
      rewrite <- E3. exact (step_own_state false (demo_sched 2) 0 sc TBlocked E1 E2). }
    apply (rtc_l _ _ (demo_sched 4)). { apply (step_schedule false (demo_sched 3) 0 (fun _ => false)). }
    apply (rtc_l _ _ (demo_sched 5)); [|apply rtc_refl].
    apply (step_wake false (demo_sched 4) 9 (fun _ => false)); [by apply Hw|apply (bool_decide_unpack _); vm_compute; exact I|]. left. apply (bool_decide_unpack _). vm_compute. exact I. }
  destruct (sched_invariant false [1; 2] 0 (demo_sched 5) Hr) as (_ & H1 & H2).
  assert (owned (demo_sched 5) = [9]) as Ho by (vm_compute; reflexivity). split; [exact Hr|]. split; [exact Ho|]. split; [by apply H1|].
  destruct (H2 10) as [_ Hs]; [by apply Hw|by vm_compute|]. destruct (Hs 0) as (s' & i & c & E & Hp & _). exists s'. split; [exact E|]. by rewrite Ho in Hp.
Defined.
