(* ===== verification/WaitQueue.v ===== *)
(** * Wait queues: the intrusive doubly linked list

    [WaitQueue] of crates/sched/src/waitqueue.rs.  The nodes live on the kernel
    stacks of the sleeping threads; a queue is a circular list through its sentinel.
    The heap maps the address of a node to its fields, 0 is the null pointer, and an
    access through an address that is not a node is [Panic].  Every operation runs
    under the queue's lock, so the operations are sequential here. *)

From Stdlib Require Import ZArith Lia.
From stdpp Require Import prelude gmap list.
From S2P Require Import Prelude.

Local Open Scope Z_scope.

Record WaitNode := {
  wn_thread : Z;
  wn_next : Z;
  wn_prev : Z;
  wn_woken : bool;
  wn_key : Z
}.

Definition WaitNode_new (thread : Z) : WaitNode :=
  {| wn_thread := thread; wn_next := 0; wn_prev := 0; wn_woken := false; wn_key := 0 |}.

Notation wheap := (gmap Z WaitNode).

Record WaitQueueInner := { wi_head : Z; wi_len : Z }.

Definition WaitQueueInner_new : WaitQueueInner := {| wi_head := 0; wi_len := 0 |}.

Definition set_wn_next (p : Z) (n : WaitNode) : WaitNode :=
  {| wn_thread := wn_thread n; wn_next := p; wn_prev := wn_prev n; wn_woken := wn_woken n; wn_key := wn_key n |}.

Definition set_wn_prev (p : Z) (n : WaitNode) : WaitNode :=
  {| wn_thread := wn_thread n; wn_next := wn_next n; wn_prev := p; wn_woken := wn_woken n; wn_key := wn_key n |}.

Definition set_wn_woken (b : bool) (n : WaitNode) : WaitNode :=
  {| wn_thread := wn_thread n; wn_next := wn_next n; wn_prev := wn_prev n; wn_woken := b; wn_key := wn_key n |}.

Definition set_wn_key (k : Z) (n : WaitNode) : WaitNode :=
  {| wn_thread := wn_thread n; wn_next := wn_next n; wn_prev := wn_prev n; wn_woken := wn_woken n; wn_key := k |}.

(** Reading and writing through a node pointer. *)
Definition wn_load (h : wheap) (p : Z) : outcome WaitNode := expect (h !! p).

Definition wn_store (h : wheap) (p : Z) (f : WaitNode -> WaitNode) : outcome wheap :=
  n ← wn_load h p; Done (<[p := f n]> h).

Definition ensure_initialized (h : wheap) (q : WaitQueueInner) (sentinel : Z) : outcome (wheap * WaitQueueInner) :=
  if wi_head q =? 0 then
    h1 ← wn_store h sentinel (fun _ =>
      {| wn_thread := 0; wn_next := sentinel; wn_prev := sentinel; wn_woken := false; wn_key := 0 |});
    Done (h1, {| wi_head := sentinel; wi_len := wi_len q |})
  else Done (h, q).

Definition enqueue_raw (h : wheap) (q : WaitQueueInner) (node : Z) : outcome (wheap * WaitQueueInner) :=
  hd ← wn_load h (wi_head q);
  let tail := wn_prev hd in
  h1 ← wn_store h node (fun n => set_wn_woken false (set_wn_prev tail (set_wn_next (wi_head q) n)));
  h2 ← wn_store h1 tail (set_wn_next node);
  h3 ← wn_store h2 (wi_head q) (set_wn_prev node);
  Done (h3, {| wi_head := wi_head q; wi_len := Z.min (wi_len q + 1) (2 ^ 32 - 1) |}).

Definition dequeue_raw (h : wheap) (q : WaitQueueInner) (node : Z) : outcome (wheap * WaitQueueInner) :=
  n ← wn_load h node;
  if (wn_next n =? 0) || (wn_prev n =? 0) then Done (h, q) else
  h1 ← wn_store h (wn_prev n) (set_wn_next (wn_next n));
  h2 ← wn_store h1 (wn_next n) (set_wn_prev (wn_prev n));
  h3 ← wn_store h2 node (fun m => set_wn_prev 0 (set_wn_next 0 m));
  Done (h3, {| wi_head := wi_head q; wi_len := Z.max (wi_len q - 1) 0 |}).

(** The scheduler that wake-ups are handed to: its state, and one attempt to put a
    thread on a run queue, which fails when the lock is taken or the queue is full. *)
Section Wake.
Context {X : Type} (push : X -> Z -> bool * X).

Definition try_make_runnable (x : X) (thread : Z) : bool * X :=
  if thread =? 0 then (false, x) else
  let '(ok, x1) := push x thread in
  if ok then (true, x1) else push x1 thread.

(** The loop of [wake_n_matching], [fuel] bounding the nodes looked at. *)
Fixpoint wake_loop (fuel : nat) (key n : Z) (node woken : Z) (h : wheap) (q : WaitQueueInner) (x : X)
    : outcome (Z * wheap * WaitQueueInner * X) :=
  match fuel with
  | O => Panic
  | S fuel' =>
      if (node =? wi_head q) || negb (woken <? n) then Done (woken, h, q, x) else
      nd ← wn_load h node;
      let next := wn_next nd in
      if (key =? 0) || (wn_key nd =? key) then
        let '(ok, x1) := try_make_runnable x (wn_thread nd) in
        if ok then
          h1 ← wn_store h node (set_wn_woken true);
          '(h2, q2) ← dequeue_raw h1 q node;
          wake_loop fuel' key n next (woken + 1) h2 q2 x1
        else wake_loop fuel' key n next woken h q x1
      else wake_loop fuel' key n next woken h q x
  end.

Definition wake_n_matching (fuel : nat) (sentinel key n : Z) (h : wheap) (q : WaitQueueInner) (x : X)
    : outcome (Z * wheap * WaitQueueInner * X) :=
  if n =? 0 then Done (0, h, q, x) else
  '(h1, q1) ← ensure_initialized h q sentinel;
  hd ← wn_load h1 (wi_head q1);
  wake_loop fuel key n (wn_next hd) 0 h1 q1 x.

Definition WaitQueue_wake_n (fuel : nat) (sentinel n : Z) := wake_n_matching fuel sentinel 0 n.

Definition WaitQueue_wake_all (fuel : nat) (sentinel : Z) := WaitQueue_wake_n fuel sentinel (2 ^ 32 - 1).

End Wake.

(** [requeue_matching] within one queue: the keys change, nothing moves. *)
Fixpoint rekey_loop (fuel : nat) (key new_key n node moved head : Z) (h : wheap) : outcome (Z * wheap) :=
  match fuel with
  | O => Panic
  | S fuel' =>
      if (node =? head) || negb (moved <? n) then Done (moved, h) else
      nd ← wn_load h node;
      if wn_key nd =? key then
        h1 ← wn_store h node (set_wn_key new_key);
        nd1 ← wn_load h1 node;
        rekey_loop fuel' key new_key n (wn_next nd1) (moved + 1) head h1
      else rekey_loop fuel' key new_key n (wn_next nd) moved head h
  end.

(** [requeue_matching] between two queues. *)
Fixpoint requeue_loop (fuel : nat) (key new_key n node moved : Z) (h : wheap) (src dst : WaitQueueInner)
    : outcome (Z * wheap * WaitQueueInner * WaitQueueInner) :=
  match fuel with
  | O => Panic
  | S fuel' =>
      if (node =? wi_head src) || negb (moved <? n) then Done (moved, h, src, dst) else
      nd ← wn_load h node;
      let next := wn_next nd in
      if wn_key nd =? key then
        '(h1, src1) ← dequeue_raw h src node;
        h2 ← wn_store h1 node (fun m => set_wn_woken false (set_wn_key new_key m));
        '(h3, dst1) ← enqueue_raw h2 dst node;
        requeue_loop fuel' key new_key n next (moved + 1) h3 src1 dst1
      else requeue_loop fuel' key new_key n next moved h src dst
  end.

Definition requeue_matching (fuel : nat) (s_src s_dst key new_key n : Z) (h : wheap) (src dst : WaitQueueInner)
    : outcome (Z * wheap * WaitQueueInner * WaitQueueInner) :=
  if n =? 0 then Done (0, h, src, dst) else
  if s_src =? s_dst then
    '(h1, src1) ← ensure_initialized h src s_src;
    hd ← wn_load h1 (wi_head src1);
    '(moved, h2) ← rekey_loop fuel key new_key n (wn_next hd) 0 (wi_head src1) h1;
    Done (moved, h2, src1, src1)
  else
    '(h1, src1) ← ensure_initialized h src s_src;
    '(h2, dst1) ← ensure_initialized h1 dst s_dst;
    hd ← wn_load h2 (wi_head src1);
    requeue_loop fuel key new_key n (wn_next hd) 0 h2 src1 dst1.

(** ** Chains

    [chain h src l dst]: the nodes [l] are linked in order, the first one's [prev]
    is [src] and the last one's [next] is [dst]. *)
Fixpoint chain (h : wheap) (src : Z) (l : list Z) (dst : Z) : Prop :=
  match l with
  | [] => True
  | p :: l' => (exists n, h !! p = Some n /\ wn_prev n = src /\ wn_next n = default dst (head l')) /\ chain h p l' dst
  end.

Lemma chain_app h src l1 l2 dst :
  chain h src (l1 ++ l2) dst <-> chain h src l1 (default dst (head l2)) /\ chain h (default src (last l1)) l2 dst.
Proof.
  revert src. induction l1 as [|p l1 IH]; intros src; [cbn; tauto|]. cbn [app chain].
  rewrite IH. rewrite last_cons. destruct l1 as [|p1 l1]; cbn [app head last default].
  - cbn [chain]. tauto.
  - assert (default src (match last (p1 :: l1) with Some y => Some y | None => Some p end) = default p (last (p1 :: l1))) as ->
      by (by destruct (last (p1 :: l1))). tauto.
Qed.

Lemma chain_frame h h' src l dst : (forall p, p ∈ l -> h' !! p = h !! p) -> chain h src l dst -> chain h' src l dst.
Proof.
  revert src. induction l as [|p l IH]; intros src Hf; [done|]. cbn [chain]. intros [(n & Hn & H) Hc]. split.
  - exists n. split; [|done]. rewrite Hf; [done|left].
  - apply IH; [|done]. intros x Hx. apply Hf. by right.
Qed.

Lemma wq_chain_insert h src l dst p n : p ∉ l -> chain h src l dst -> chain (<[p := n]> h) src l dst.
Proof. intros Hp. apply chain_frame. intros x Hx. rewrite lookup_insert_ne; [done|]. by intros <-. Qed.

(** Redirecting the [next] of the last node and the [prev] of the first. *)
Lemma chain_set_last h src l t dst dst' n :
  t ∉ l -> h !! t = Some n -> chain h src (l ++ [t]) dst ->
  chain (<[t := set_wn_next dst' n]> h) src (l ++ [t]) dst'.
Proof.
  rewrite !chain_app. cbn [chain head default]. intros Ht Hn [H1 [(m & Hm & Hp & _) _]].
  split; [by apply wq_chain_insert|]. split; [|done]. exists (set_wn_next dst' n).
  rewrite lookup_insert_eq. assert (m = n) as -> by congruence. done.
Qed.

Lemma chain_set_first h src src' x l dst n :
  x ∉ l -> h !! x = Some n -> chain h src (x :: l) dst ->
  chain (<[x := set_wn_prev src' n]> h) src' (x :: l) dst.
Proof.
  cbn [chain]. intros Hx Hn [(m & Hm & _ & Hnext) H2]. split; [|by apply wq_chain_insert].
  exists (set_wn_prev src' n). rewrite lookup_insert_eq. assert (m = n) as -> by congruence. done.
Qed.

Lemma chain_lookup h src l dst p : chain h src l dst -> p ∈ l -> is_Some (h !! p).
Proof.
  revert src. induction l as [|x l IH]; intros src H Hp; [by apply not_elem_of_nil in Hp|].
  destruct H as [(n & Hn & _) H]. apply elem_of_cons in Hp as [->|Hp]; [by exists n|by eapply IH].
Qed.

(** ** A queue as the list of its nodes *)
Record wq_repr (h : wheap) (q : WaitQueueInner) (sentinel : Z) (l : list Z) : Prop := {
  wr_head : wi_head q = sentinel;
  wr_chain : chain h (default sentinel (last l)) (sentinel :: l) sentinel;
  wr_nodup : NoDup (sentinel :: l);
  wr_null : 0 ∉ sentinel :: l;
  wr_len : wi_len q = Z.of_nat (length l);
  wr_room : Z.of_nat (length l) < 2 ^ 32 - 1
}.

(** What an operation on the links leaves alone. *)
Definition wdata (n : WaitNode) : Z * bool * Z := (wn_thread n, wn_woken n, wn_key n).

Lemma wn_store_Done h p f n : h !! p = Some n -> wn_store h p f = Done (<[p := f n]> h).
Proof. intros H. unfold wn_store, wn_load. by rewrite H. Qed.

Lemma wdata_insert (h : wheap) p n m x :
  h !! p = Some n -> wdata m = wdata n -> wdata <$> <[p := m]> h !! x = wdata <$> h !! x.
Proof.
  intros Hn Hm. destruct (decide (x = p)) as [->|].
  - rewrite lookup_insert_eq, Hn. simpl. by rewrite Hm.
  - by rewrite lookup_insert_ne.
Qed.

Lemma last_snoc_default (s : Z) l : s :: l = removelast (s :: l) ++ [default s (last l)].
Proof.
  destruct l as [|x l] using rev_ind; [done|]. rewrite last_snoc. cbn [default].
  change (s :: l ++ [x]) with ((s :: l) ++ [x]). by rewrite removelast_last.
Qed.

Lemma enqueue_raw_spec h q s l p n :
  wq_repr h q s l -> p ∉ s :: l -> p <> 0 -> h !! p = Some n -> Z.of_nat (length l) + 1 < 2 ^ 32 - 1 ->
  exists h' q', enqueue_raw h q p = Done (h', q') /\ wq_repr h' q' s (l ++ [p]) /\
    wdata <$> h' !! p = Some (wn_thread n, false, wn_key n) /\
    (forall x, x <> p -> wdata <$> h' !! x = wdata <$> h !! x) /\
    (forall x, x ∉ p :: s :: l -> h' !! x = h !! x).
Proof.
  intros [Hhead Hch Hnd Hnull Hlen Hroom] Hp Hp0 Hn Hr.
  set (tail := default s (last l)) in *.
  assert (s :: l = removelast (s :: l) ++ [tail]) as Hsplit by apply last_snoc_default.
  assert (tail ∈ s :: l) as Htail by (rewrite Hsplit; apply elem_of_app; right; left).
  pose proof Hch as Hch0. cbn [chain] in Hch0. destruct Hch0 as [(sn & Hsn & Hsp & _) _].
  unfold enqueue_raw, wn_load. rewrite Hhead, Hsn. run. rewrite Hsp.
  set (n' := set_wn_woken false (set_wn_prev tail (set_wn_next s n))).
  rewrite (wn_store_Done h p _ n Hn). run. fold n'.
  assert (chain (<[p := n']> h) tail (s :: l) s) as Hch1 by by apply wq_chain_insert.
  destruct (chain_lookup _ _ _ _ _ Hch1 Htail) as [tn Htn].
  rewrite (wn_store_Done _ tail _ tn Htn). run. set (h2 := <[tail := _]> _).
  assert (tail ∉ removelast (s :: l)) as Htr.
  { rewrite Hsplit in Hnd. apply NoDup_app in Hnd as (_ & Hd & _). intros H. by apply (Hd _ H); left. }
  assert (chain h2 tail (s :: l) p) as Hch2.
  { rewrite Hsplit in Hch1 |- *. by apply (chain_set_last _ _ _ _ s). }
  destruct (chain_lookup _ _ _ _ s Hch2 ltac:(left)) as [sn2 Hsn2].
  rewrite (wn_store_Done _ s _ sn2 Hsn2). run. set (h3 := <[s := _]> _).
  assert (s ∉ l) as Hsl by (by apply NoDup_cons in Hnd as [? _]).
  assert (chain h3 p (s :: l) p) as Hch3 by by apply (chain_set_first _ tail).
  assert (h2 !! p = Some n') as Hp2 by (unfold h2; rewrite lookup_insert_ne, lookup_insert_eq; [done|by intros <-]).
  assert (h3 !! p = Some n') as Hp3 by (unfold h3; rewrite lookup_insert_ne; [done|intros <-; apply Hp; left]).
  eexists _, _. split; [reflexivity|]. split_and!.
  - constructor; cbn [wi_head wi_len]; [done| | | |rewrite length_app; simpl; lia|rewrite length_app; simpl; lia].
    + rewrite last_snoc. cbn [default]. rewrite app_comm_cons. apply chain_app. split; [done|].
      cbn [chain head default]. split; [|done]. exists n'. split_and!; [done| |done].
      cbn. unfold tail. rewrite last_cons. by destruct (last l).
    + rewrite app_comm_cons. apply NoDup_app. split_and!; [done| |apply NoDup_singleton].
      intros x Hx Hx2. apply list_elem_of_singleton in Hx2 as ->. done.
    + rewrite app_comm_cons. intros [|H]%elem_of_app; [done|]. apply list_elem_of_singleton in H. done.
  - by rewrite Hp3.
  - intros x Hx. unfold h3. rewrite (wdata_insert h2 s sn2) by done. unfold h2.
    rewrite (wdata_insert _ tail tn) by done. by rewrite lookup_insert_ne.
  - intros x Hx. unfold h3, h2. rewrite !lookup_insert_ne; [done|..]; intros <-; apply Hx; [left|by right|right; left].
Qed.

(** Unlinking: the node in front points past [p], the one behind points back. *)
Lemma unlink_chain h s l1 p l2 pn :
  chain h (default s (last (l1 ++ p :: l2))) (s :: l1 ++ p :: l2) s -> NoDup (s :: l1 ++ p :: l2) ->
  h !! p = Some pn ->
  let a := default s (last l1) in let b := default s (head l2) in
  wn_prev pn = a /\ wn_next pn = b /\
  exists an bn, h !! a = Some an /\ <[a := set_wn_next b an]> h !! b = Some bn /\
    chain (<[b := set_wn_prev a bn]> (<[a := set_wn_next b an]> h)) (default s (last (l1 ++ l2))) (s :: l1 ++ l2) s.
Proof.
  intros Hch Hnd Hp a b. rewrite app_comm_cons in Hch, Hnd. apply chain_app in Hch as [H1 H2].
  apply NoDup_app in Hnd as (Hnd1 & Hdisj & Hnd2). apply NoDup_cons in Hnd2 as [Hp2 Hnd2].
  assert (default (default s (last (l1 ++ p :: l2))) (last (s :: l1)) = a) as Ea
    by (rewrite last_cons; unfold a; by destruct (last l1)).
  rewrite Ea in H2. cbn [chain] in H2. destruct H2 as [(m & Hm & Hmp & Hmn) H2]. assert (m = pn) as -> by congruence.
  cbn [head default] in H1. split; [done|]. split; [done|].
  assert (s :: l1 = removelast (s :: l1) ++ [a]) as Hsplit by apply last_snoc_default.
  assert (a ∈ s :: l1) as Ha by (rewrite Hsplit; apply elem_of_app; right; left).
  assert (a ∉ removelast (s :: l1)) as Har.
  { rewrite Hsplit in Hnd1. apply NoDup_app in Hnd1 as (_ & Hd & _). intros H. by apply (Hd _ H); left. }
  assert (a ∉ l2) as Hal by (intros H; apply (Hdisj a Ha); by right).
  destruct (chain_lookup _ _ _ _ _ H1 Ha) as [an Han]. exists an. set (h1 := <[a := _]> h).
  assert (chain h1 (default s (last (l1 ++ p :: l2))) (s :: l1) b) as H1'.
  { rewrite Hsplit in H1 |- *. by apply (chain_set_last _ _ _ _ p). }
  assert (chain h1 p l2 s) as H2' by by apply wq_chain_insert.
  destruct l2 as [|y l2].
  - cbn [head default] in b. assert (b = s) as Eb by done.
    destruct (chain_lookup _ _ _ _ s H1' ltac:(left)) as [bn Hbn]. exists bn. rewrite Eb. split_and!; [done|done|].
    rewrite app_nil_r. fold a. apply NoDup_cons in Hnd1 as [Hs1 _]. rewrite Eb in H1'. by eapply chain_set_first.
  - cbn [head default] in b. destruct (chain_lookup _ _ _ _ y H2' ltac:(left)) as [bn Hbn]. exists bn.
    split_and!; [done|done|]. apply NoDup_cons in Hnd2 as [Hy _].
    assert (y ∉ s :: l1) as Hys by (intros H; apply (Hdisj y H); right; left).
    rewrite app_comm_cons. apply chain_app. cbn [head default]. split.
    + apply wq_chain_insert; [done|].
      assert (default s (last (l1 ++ y :: l2)) = default s (last (l1 ++ p :: y :: l2))) as ->; [|done].
      rewrite !last_app. cbn [last]. by destruct (last (y :: l2)) eqn:E; rewrite ?last_cons, ?E.
    + assert (default (default s (last (l1 ++ y :: l2))) (last (s :: l1)) = a) as ->
        by (rewrite last_cons; unfold a; by destruct (last l1)).
      by eapply chain_set_first.
Qed.

Lemma dequeue_raw_spec h q s l1 p l2 pn :
  wq_repr h q s (l1 ++ p :: l2) -> h !! p = Some pn ->
  wn_next pn = default s (head l2) /\
  exists h' q', dequeue_raw h q p = Done (h', q') /\ wq_repr h' q' s (l1 ++ l2) /\
    h' !! p = Some (set_wn_prev 0 (set_wn_next 0 pn)) /\
    (forall x, wdata <$> h' !! x = wdata <$> h !! x) /\
    (forall x, x ∉ s :: l1 ++ p :: l2 -> h' !! x = h !! x).
Proof.
  intros [Hhead Hch Hnd Hnull Hlen Hroom] Hp.
  destruct (unlink_chain h s l1 p l2 pn Hch Hnd Hp) as (Hprev & Hnext & an & bn & Han & Hbn & Hch').
  set (a := default s (last l1)) in *. set (b := default s (head l2)) in *. split; [done|].
  assert (a ∈ s :: l1) as Ha by (rewrite (last_snoc_default s l1); apply elem_of_app; right; left).
  assert (b ∈ s :: l2) as Hb by (unfold b; destruct l2; [left|right; left]).
  assert (p ∉ s :: l1 /\ p ∉ l2 /\ s <> p) as (Hp1 & Hp2 & Hsp).
  { rewrite app_comm_cons in Hnd. apply NoDup_app in Hnd as (_ & Hd & Hd2). apply NoDup_cons in Hd2 as [Hd2 _].
    split_and!; [intros H; apply (Hd _ H); left|done|]. intros ->. apply (Hd p); left. }
  assert (a <> p /\ b <> p) as [Hap Hbp].
  { split; [by intros ->|]. intros ->. apply elem_of_cons in Hb as [|]; [by subst|done]. }
  assert (a <> 0 /\ b <> 0) as [Ha0 Hb0].
  { split; intros E; rewrite E in *; apply Hnull.
    - apply elem_of_cons in Ha as [->|Ha]; [left|]. right. apply elem_of_app. by left.
    - apply elem_of_cons in Hb as [->|Hb]; [left|]. right. apply elem_of_app. right. by right. }
  unfold dequeue_raw, wn_load. rewrite Hp. run. rewrite Hprev, Hnext.
  rewrite !(proj2 (Z.eqb_neq _ _)) by done. cbn [orb].
  rewrite (wn_store_Done _ a _ an Han). run. rewrite (wn_store_Done _ b _ bn Hbn). run.
  set (h2 := <[b := _]> _) in *.
  assert (h2 !! p = Some pn) as Hp2' by (unfold h2; by rewrite !lookup_insert_ne).
  rewrite (wn_store_Done _ p _ pn Hp2'). run. eexists _, _. split; [reflexivity|].
  assert (s :: l1 ++ l2 ⊆ s :: l1 ++ p :: l2) as Hsub by set_solver.
  split_and!.
  - constructor; cbn [wi_head wi_len]; [done| | | |rewrite length_app in *; simpl in *; lia|rewrite length_app in *; simpl in *; lia].
    + apply wq_chain_insert; [|done]. set_solver.
    + revert Hnd. rewrite !NoDup_cons, !NoDup_app, NoDup_cons. set_solver.
    + intros H. by apply Hnull, Hsub.
  - by rewrite lookup_insert_eq.
  - intros x. rewrite (wdata_insert h2 p pn) by done. unfold h2. rewrite (wdata_insert _ b bn) by done.
    by apply (wdata_insert h a an).
  - intros x Hx. unfold h2. rewrite !lookup_insert_ne; [done|..]; intros <-; set_solver.
Qed.

(** Changing the data of a node leaves every list alone. *)
Lemma chain_data h src l dst p n m :
  h !! p = Some n -> wn_next m = wn_next n -> wn_prev m = wn_prev n -> chain h src l dst -> chain (<[p := m]> h) src l dst.
Proof.
  intros Hn H1 H2. revert src. induction l as [|x l IH]; intros src; [done|]. cbn [chain].
  intros [(k & Hk & Hp & Hx) Hc]. split; [|by apply IH]. destruct (decide (x = p)) as [->|].
  - exists m. rewrite lookup_insert_eq. split; [done|]. assert (k = n) as -> by congruence. by rewrite H1, H2.
  - exists k. by rewrite lookup_insert_ne.
Qed.

Lemma wq_repr_data h q s l p n m :
  h !! p = Some n -> wn_next m = wn_next n -> wn_prev m = wn_prev n -> wq_repr h q s l -> wq_repr (<[p := m]> h) q s l.
Proof. intros Hn H1 H2 [? ? ? ? ? ?]. constructor; try done. by eapply chain_data. Qed.

Lemma wq_repr_lookup h q s l p : wq_repr h q s l -> p ∈ l -> is_Some (h !! p).
Proof. intros H Hp. eapply chain_lookup; [apply (wr_chain _ _ _ _ H)|]. by right. Qed.

(** ** Waking, on the list of nodes

    Of the nodes in order, those that match and whose thread the scheduler takes,
    until [n] are woken: the woken nodes, the remaining ones, and the scheduler. *)
Section WakeSpec.
Context {X : Type} (push : X -> Z -> bool * X).

Fixpoint wake_list (h : wheap) (key n : Z) (l : list Z) (x : X) : list Z * list Z * X :=
  match l with
  | [] => ([], [], x)
  | p :: l' =>
      if negb (0 <? n) then ([], l, x) else
      match h !! p with
      | None => ([], l, x)
      | Some nd =>
          if (key =? 0) || (wn_key nd =? key) then
            let '(ok, x1) := try_make_runnable push x (wn_thread nd) in
            if ok then let '(w, r, x2) := wake_list h key (n - 1) l' x1 in (p :: w, r, x2)
            else let '(w, r, x2) := wake_list h key n l' x1 in (w, p :: r, x2)
          else let '(w, r, x2) := wake_list h key n l' x in (w, p :: r, x2)
      end
  end.

Lemma wake_list_ext h h' key n l x :
  (forall p, p ∈ l -> wdata <$> h' !! p = wdata <$> h !! p) -> wake_list h' key n l x = wake_list h key n l x.
Proof.
  revert n x. induction l as [|p l IH]; intros n x H; [done|]. cbn [wake_list].
  assert (forall q, q ∈ l -> wdata <$> h' !! q = wdata <$> h !! q) as H' by (intros q Hq; apply H; by right).
  pose proof (H p ltac:(left)) as Hp.
  destruct (h !! p) as [nd|], (h' !! p) as [nd'|]; try discriminate; [|done].
  unfold wdata in Hp. cbn in Hp. injection Hp as -> _ ->.
  destruct (try_make_runnable push x (wn_thread nd)) as [[] x1]; by rewrite !IH.
Qed.

Lemma wake_list_subset h key n l x w r x' :
  wake_list h key n l x = (w, r, x') -> w ++ r ≡ₚ l.
Proof.
  revert n x w r. induction l as [|p l IH]; intros n x w r H; cbn [wake_list] in H; [by injection H as <- <- <-|].
  destruct (negb _); [by injection H as <- <- <-|]. destruct (h !! p) as [nd|]; [|by injection H as <- <- <-].
  destruct (_ || _).
  - destruct (try_make_runnable push x (wn_thread nd)) as [[] x1];
      destruct (wake_list h key _ l x1) as [[w1 r1] x2] eqn:E; injection H as <- <- <-; apply IH in E.
    + cbn [app]. by rewrite E.
    + by rewrite <- Permutation_middle, E.
  - destruct (wake_list h key n l x) as [[w1 r1] x2] eqn:E. injection H as <- <- <-. apply IH in E.
    by rewrite <- Permutation_middle, E.
Qed.

(** A node after it was woken. *)
Definition woken_node (nd : WaitNode) : WaitNode :=
  {| wn_thread := wn_thread nd; wn_next := 0; wn_prev := 0; wn_woken := true; wn_key := wn_key nd |}.

(** The effect of waking the nodes [w] of the list [l]. *)
Record woke (h h' : wheap) (s : Z) (l w : list Z) : Prop := {
  wk_woken : forall p nd, p ∈ w -> h !! p = Some nd -> h' !! p = Some (woken_node nd);
  wk_data : forall p, p ∉ w -> wdata <$> h' !! p = wdata <$> h !! p;
  wk_frame : forall p, p ∉ s :: l -> h' !! p = h !! p
}.

Lemma woke_refl h s l : woke h h s l [].
Proof. constructor; try done. by intros p nd ?%not_elem_of_nil. Qed.

(** Waking [p] first and then [w]. *)
Lemma woke_cons h h1 h' s l1 p l2 nd w :
  h !! p = Some nd -> NoDup (s :: l1 ++ p :: l2) -> w ⊆ l2 -> h1 !! p = Some (woken_node nd) ->
  (forall x, x <> p -> wdata <$> h1 !! x = wdata <$> h !! x) ->
  (forall x, x ∉ s :: l1 ++ p :: l2 -> h1 !! x = h !! x) ->
  woke h1 h' s (l1 ++ l2) w -> woke h h' s (l1 ++ p :: l2) (p :: w).
Proof.
  intros Hp Hnd Hw Hp1 Hdata Hframe [K1 K2 K3].
  assert (p ∉ s :: l1 ++ l2 /\ p ∉ l2) as [Hpl Hp2].
  { rewrite app_comm_cons in *. apply NoDup_app in Hnd as (_ & Hd & Hd2). apply NoDup_cons in Hd2 as [Hd2 _].
    split; [|done]. intros [H|H]%elem_of_app; [|done]. apply (Hd _ H). left. }
  constructor.
  - intros x m Hx Hm. destruct (decide (x = p)) as [->|Hne].
    + rewrite (K3 p Hpl). congruence.
    + apply elem_of_cons in Hx as [|Hx]; [done|]. specialize (Hdata x Hne). rewrite Hm in Hdata.
      destruct (h1 !! x) as [m1|] eqn:E; [|done]. rewrite (K1 x m1 Hx E). unfold woken_node.
      unfold wdata in Hdata. cbn in Hdata. by injection Hdata as -> _ ->.
  - intros x Hx. apply not_elem_of_cons in Hx as [Hx1 Hx2]. by rewrite (K2 x Hx2), Hdata.
  - intros x Hx. rewrite K3, Hframe; [done|done|]. set_solver.
Qed.

(** The loop, with [kept] the nodes already passed over and [l] those ahead. *)
Lemma wake_loop_spec fuel key n woken h q x s kept l w r x' :
  (length l < fuel)%nat -> wq_repr h q s (kept ++ l) ->
  wake_list h key (n - woken) l x = (w, r, x') ->
  exists h' q', wake_loop push fuel key n (default s (head l)) woken h q x =
      Done (woken + Z.of_nat (length w), h', q', x') /\
    wq_repr h' q' s (kept ++ r) /\ woke h h' s (kept ++ l) w.
Proof.
  revert woken h q x kept l w r. induction fuel as [|fuel IH]; intros woken h q x kept l w r Hfuel Hr Hw; [lia|].
  cbn [wake_loop]. rewrite (wr_head _ _ _ _ Hr). destruct l as [|p l].
  { cbn [head default]. rewrite Z.eqb_refl. cbn [orb]. injection Hw as <- <- <-. exists h, q.
    split_and!; [do 4 f_equal; simpl; lia|done|apply woke_refl]. }
  cbn [head default from_option id wake_list] in *. pose proof (wr_nodup _ _ _ _ Hr) as Hnodup.
  assert (p <> s) as Hps.
  { apply NoDup_cons in Hnodup as [Hn _]. intros ->. apply Hn, elem_of_app. right. left. }
  rewrite (proj2 (Z.eqb_neq p s)) by done. cbn [orb].
  assert ((0 <? n - woken) = (woken <? n)) as En by lia. rewrite En in Hw.
  destruct (negb (woken <? n)).
  { injection Hw as <- <- <-. exists h, q. split_and!; [do 4 f_equal; simpl; lia|done|apply woke_refl]. }
  destruct (wq_repr_lookup _ _ _ _ p Hr ltac:(apply elem_of_app; right; left)) as [nd Hnd].
  rewrite Hnd in Hw. unfold wn_load. rewrite Hnd. run.
  destruct (dequeue_raw_spec h q s kept p l nd Hr Hnd) as [Hnext _]. rewrite Hnext.
  assert (forall x1 w1 r1, wake_list h key (n - woken) l x1 = (w1, r1, x') ->
    exists h' q', wake_loop push fuel key n (default s (head l)) woken h q x1 = Done (woken + Z.of_nat (length w1), h', q', x') /\
      wq_repr h' q' s (kept ++ p :: r1) /\ woke h h' s (kept ++ p :: l) w1) as Hskip.
  { intros x1 w1 r1 E. assert (wq_repr h q s ((kept ++ [p]) ++ l)) as Hr2 by by rewrite <- app_assoc.
    destruct (IH woken h q x1 (kept ++ [p]) l w1 r1 ltac:(simpl in Hfuel; lia) Hr2 E) as (h' & q' & H1 & H2 & H3).
    rewrite <- !app_assoc in *. by exists h', q'. }
  destruct (_ || _).
  2: { destruct (wake_list h key (n - woken) l x) as [[w1 r1] x2] eqn:E. injection Hw as <- <- ->. by apply Hskip. }
  destruct (try_make_runnable push x (wn_thread nd)) as [[] x1].
  2: { destruct (wake_list h key (n - woken) l x1) as [[w1 r1] x2] eqn:E. injection Hw as <- <- ->. by apply Hskip. }
  destruct (wake_list h key (n - woken - 1) l x1) as [[w1 r1] x2] eqn:E. injection Hw as <- <- ->.
  rewrite (wn_store_Done h p _ nd Hnd). run. set (h1 := <[p := _]> h).
  assert (wq_repr h1 q s (kept ++ p :: l)) as Hr1 by by apply (wq_repr_data h q s _ p nd).
  assert (h1 !! p = Some (set_wn_woken true nd)) as Hp1 by (unfold h1; by rewrite lookup_insert_eq).
  destruct (dequeue_raw_spec h1 q s kept p l _ Hr1 Hp1) as (_ & h2 & q2 & -> & Hr2 & Hp2 & Hd2 & Hf2). run.
  assert (forall y, y <> p -> wdata <$> h2 !! y = wdata <$> h !! y) as Hd.
  { intros y Hy. rewrite Hd2. unfold h1. by rewrite lookup_insert_ne. }
  pose proof (wake_list_subset _ _ _ _ _ _ _ _ E) as Hsub.
  destruct (IH (woken + 1) h2 q2 x1 kept l w1 r1) as (h' & q' & H1 & H2 & H3); [simpl in Hfuel; lia|done| |].
  { rewrite (wake_list_ext h); [by replace (n - (woken + 1)) with (n - woken - 1) by lia|].
    intros y Hy. apply Hd. intros ->. rewrite app_comm_cons in Hnodup. apply NoDup_app in Hnodup as (_ & _ & H).
    by apply NoDup_cons in H as [? _]. }
  exists h', q'. split_and!; [rewrite H1; do 4 f_equal; simpl; lia|done|].
  eapply (woke_cons h h2 h' s kept p l nd w1); try done.
  - intros y Hy. rewrite <- Hsub. apply elem_of_app. by left.
  - intros y Hy. rewrite Hf2 by done. unfold h1. rewrite lookup_insert_ne; [done|]. set_solver.
Qed.

End WakeSpec.

(** ** Moving waiters to another queue, on the lists of nodes *)

Fixpoint requeue_list (h : wheap) (key n : Z) (l : list Z) : list Z * list Z :=
  match l with
  | [] => ([], [])
  | p :: l' =>
      if negb (0 <? n) then ([], l) else
      match h !! p with
      | None => ([], l)
      | Some nd =>
          if wn_key nd =? key then let '(m, r) := requeue_list h key (n - 1) l' in (p :: m, r)
          else let '(m, r) := requeue_list h key n l' in (m, p :: r)
      end
  end.

Lemma requeue_list_ext h h' key n l :
  (forall p, p ∈ l -> wdata <$> h' !! p = wdata <$> h !! p) -> requeue_list h' key n l = requeue_list h key n l.
Proof.
  revert n. induction l as [|p l IH]; intros n H; [done|]. cbn [requeue_list].
  assert (forall q, q ∈ l -> wdata <$> h' !! q = wdata <$> h !! q) as H' by (intros q Hq; apply H; by right).
  pose proof (H p ltac:(left)) as Hp.
  destruct (h !! p) as [nd|], (h' !! p) as [nd'|]; try discriminate; [|done].
  unfold wdata in Hp. cbn in Hp. injection Hp as _ _ ->. by rewrite !IH.
Qed.

Lemma requeue_list_subset h key n l m r : requeue_list h key n l = (m, r) -> m ++ r ≡ₚ l.
Proof.
  revert n m r. induction l as [|p l IH]; intros n m r H; cbn [requeue_list] in H; [by injection H as <- <-|].
  destruct (negb _); [by injection H as <- <-|]. destruct (h !! p) as [nd|]; [|by injection H as <- <-].
  destruct (_ =? _); destruct (requeue_list h key _ l) as [m1 r1] eqn:E; injection H as <- <-; apply IH in E.
  - cbn [app]. by rewrite E.
  - by rewrite <- Permutation_middle, E.
Qed.

Lemma wq_repr_frame h h' q s l : (forall p, p ∈ s :: l -> h' !! p = h !! p) -> wq_repr h q s l -> wq_repr h' q s l.
Proof. intros Hf [? ? ? ? ? ?]. constructor; try done. by eapply chain_frame. Qed.

Record requeued (h h' : wheap) (new_key : Z) (m : list Z) : Prop := {
  rqd_moved : forall p nd, p ∈ m -> h !! p = Some nd -> wdata <$> h' !! p = Some (wn_thread nd, false, new_key);
  rqd_data : forall p, p ∉ m -> wdata <$> h' !! p = wdata <$> h !! p
}.

Lemma requeued_refl h new_key : requeued h h new_key [].
Proof. constructor; [|done]. by intros p nd ?%not_elem_of_nil. Qed.

Lemma requeued_cons h h1 h' new_key p nd m :
  h !! p = Some nd -> p ∉ m -> wdata <$> h1 !! p = Some (wn_thread nd, false, new_key) ->
  (forall x, x <> p -> wdata <$> h1 !! x = wdata <$> h !! x) ->
  requeued h1 h' new_key m -> requeued h h' new_key (p :: m).
Proof.
  intros Hp Hpm Hp1 Hd [K1 K2]. constructor.
  - intros x k Hx Hk. destruct (decide (x = p)) as [->|Hne].
    + rewrite (K2 p Hpm), Hp1. congruence.
    + apply elem_of_cons in Hx as [|Hx]; [done|]. specialize (Hd x Hne). rewrite Hk in Hd.
      destruct (h1 !! x) as [k1|] eqn:E; [|done]. rewrite (K1 x k1 Hx E). unfold wdata in Hd. cbn in Hd.
      by injection Hd as -> _ _.
  - intros x [Hx1 Hx2]%not_elem_of_cons. by rewrite (K2 x Hx2), Hd.
Qed.

(** Moving one node from the middle of one queue to the end of another. *)
Lemma move_node h src dst s1 s2 l1 p l2 d nd new_key :
  wq_repr h src s1 (l1 ++ p :: l2) -> wq_repr h dst s2 d -> (forall x, x ∈ s1 :: l1 ++ p :: l2 -> x ∉ s2 :: d) ->
  Z.of_nat (length d) + 1 < 2 ^ 32 - 1 -> h !! p = Some nd ->
  exists h1 src1 h2 h3 dst1, dequeue_raw h src p = Done (h1, src1) /\
    wn_store h1 p (fun m => set_wn_woken false (set_wn_key new_key m)) = Done h2 /\
    enqueue_raw h2 dst p = Done (h3, dst1) /\
    wq_repr h3 src1 s1 (l1 ++ l2) /\ wq_repr h3 dst1 s2 (d ++ [p]) /\
    wdata <$> h3 !! p = Some (wn_thread nd, false, new_key) /\
    (forall x, x <> p -> wdata <$> h3 !! x = wdata <$> h !! x).
Proof.
  intros Hs Hd Hdisj Hroom Hnd.
  assert (p ∈ s1 :: l1 ++ p :: l2) as Hpin by (right; apply elem_of_app; right; left).
  assert (p <> 0) as Hp0 by (intros ->; by apply (wr_null _ _ _ _ Hs)).
  assert (p ∉ s1 :: l1 ++ l2) as Hpl.
  { pose proof (wr_nodup _ _ _ _ Hs) as Hn. rewrite app_comm_cons in Hn |- *. apply NoDup_app in Hn as (_ & Hk & H2).
    apply NoDup_cons in H2 as [H2 _]. intros [H|H]%elem_of_app; [|done]. apply (Hk _ H). left. }
  destruct (dequeue_raw_spec h src s1 l1 p l2 nd Hs Hnd) as (_ & h1 & src1 & E1 & Hs1 & Hp1 & Hd1 & Hf1).
  set (n2 := set_wn_woken false (set_wn_key new_key (set_wn_prev 0 (set_wn_next 0 nd)))).
  pose proof (wn_store_Done h1 p (fun m => set_wn_woken false (set_wn_key new_key m)) _ Hp1) as E2. fold n2 in E2.
  assert (wq_repr (<[p := n2]> h1) dst s2 d) as Hd2.
  { eapply wq_repr_frame; [|exact Hd]. intros x Hx.
    rewrite lookup_insert_ne by (intros <-; by apply (Hdisj p)). apply Hf1. intros H. by apply (Hdisj x H). }
  destruct (enqueue_raw_spec (<[p := n2]> h1) dst s2 d p n2 Hd2) as (h3 & dst1 & E3 & Hd3 & Hp3 & Hx3 & Hf3);
    [by apply Hdisj|done|by rewrite lookup_insert_eq|lia|].
  exists h1, src1, (<[p := n2]> h1), h3, dst1. split_and!; try done.
  - eapply wq_repr_frame; [|exact Hs1]. intros x Hx. assert (x <> p) as Hne by (by intros ->).
    rewrite Hf3; [by rewrite lookup_insert_ne|]. apply not_elem_of_cons. split; [done|]. apply Hdisj. set_solver.
  - intros x Hx. rewrite (Hx3 x Hx), lookup_insert_ne by done. apply Hd1.
Qed.

Lemma requeue_loop_spec fuel key new_key n moved h src dst s1 s2 kept l d m r :
  (length l < fuel)%nat -> wq_repr h src s1 (kept ++ l) -> wq_repr h dst s2 d ->
  (forall p, p ∈ s1 :: kept ++ l -> p ∉ s2 :: d) ->
  Z.of_nat (length d + length l) < 2 ^ 32 - 1 -> requeue_list h key (n - moved) l = (m, r) ->
  exists h' src' dst', requeue_loop fuel key new_key n (default s1 (head l)) moved h src dst =
      Done (moved + Z.of_nat (length m), h', src', dst') /\
    wq_repr h' src' s1 (kept ++ r) /\ wq_repr h' dst' s2 (d ++ m) /\ requeued h h' new_key m.
Proof.
  revert moved h src dst kept l d m r.
  induction fuel as [|fuel IH]; intros moved h src dst kept l d m r Hfuel Hs Hd Hdisj Hroom Hl; [lia|].
  cbn [requeue_loop]. rewrite (wr_head _ _ _ _ Hs).
  destruct l as [|p l].
  { cbn [head default from_option]. rewrite Z.eqb_refl. cbn [orb]. injection Hl as <- <-. exists h, src, dst.
    cbn [length Z.of_nat]. rewrite !app_nil_r in *. rewrite Z.add_0_r. split_and!; [done..|apply requeued_refl]. }
  cbn [head default from_option id requeue_list] in *. pose proof (wr_nodup _ _ _ _ Hs) as Hnodup.
  assert (p <> s1 /\ p ∉ l) as (Hps & Hpl).
  { apply NoDup_cons in Hnodup as [Hn Hn2]. apply NoDup_app in Hn2 as (_ & Hk & H2). apply NoDup_cons in H2 as [H2 _].
    split; [|done]. intros ->. apply Hn, elem_of_app. right. left. }
  rewrite (proj2 (Z.eqb_neq p s1)) by done. cbn [orb].
  assert ((0 <? n - moved) = (moved <? n)) as En by lia. rewrite En in *.
  destruct (negb (moved <? n)).
  { injection Hl as <- <-. exists h, src, dst.
    cbn [length Z.of_nat]. rewrite !app_nil_r, Z.add_0_r. split_and!; [done..|apply requeued_refl]. }
  destruct (wq_repr_lookup _ _ _ _ p Hs ltac:(apply elem_of_app; right; left)) as [nd Hnd].
  rewrite Hnd in Hl. unfold wn_load. rewrite Hnd. run.
  destruct (dequeue_raw_spec h src s1 kept p l nd Hs Hnd) as (Hnext & _). rewrite Hnext.
  destruct (wn_key nd =? key).
  2: { destruct (requeue_list h key (n - moved) l) as [m1 r1] eqn:E. injection Hl as <- <-.
       destruct (IH moved h src dst (kept ++ [p]) l d m1 r1) as (h' & src' & dst' & H1 & H2 & H3 & H4);
         [simpl in *; lia|by rewrite <- app_assoc|done|by rewrite <- app_assoc|simpl in *; lia|done|].
       rewrite <- app_assoc in H2. by exists h', src', dst'. }
  destruct (requeue_list h key (n - moved - 1) l) as [m1 r1] eqn:E. injection Hl as <- <-.
  destruct (move_node h src dst s1 s2 kept p l d nd new_key Hs Hd Hdisj ltac:(simpl in *; lia) Hnd)
    as (h1 & src1 & h2 & h3 & dst1 & -> & E2 & E3 & Hs3 & Hd3 & Hp3 & Hx3). run. rewrite E2. run. rewrite E3. run.
  destruct (IH (moved + 1) h3 src1 dst1 kept l (d ++ [p]) m1 r1) as (h' & src' & dst' & H1 & H2 & H3 & H4);
    [simpl in *; lia|done|done| |rewrite length_app; simpl in *; lia| |].
  { intros x Hx. pose proof (wr_nodup _ _ _ _ Hs3) as Hn3. specialize (Hdisj x ltac:(set_solver)).
    assert (x <> p) as Hne; [|set_solver]. intros ->. rewrite app_comm_cons in Hnodup.
    apply NoDup_app in Hnodup as (_ & Hk & _). rewrite app_comm_cons in Hx. apply elem_of_app in Hx as [Hx|Hx]; [|done].
    apply (Hk _ Hx). left. }
  { rewrite (requeue_list_ext h); [by replace (n - (moved + 1)) with (n - moved - 1) by lia|].
    intros y Hy. apply Hx3. by intros ->. }
  exists h', src', dst'. rewrite <- app_assoc in H3. split_and!; [rewrite H1; do 4 f_equal; simpl; lia|done|done|].
  apply (requeued_cons h h3 h' new_key p nd m1); try done.
  intros H. apply Hpl. rewrite <- (requeue_list_subset _ _ _ _ _ _ E). apply elem_of_app. by left.
Qed.

(** Within one queue the matching waiters only change their key. *)
Lemma rekey_loop_spec fuel key new_key n moved h q s kept l m r :
  (length l < fuel)%nat -> wq_repr h q s (kept ++ l) -> requeue_list h key (n - moved) l = (m, r) ->
  exists h', rekey_loop fuel key new_key n (default s (head l)) moved s h = Done (moved + Z.of_nat (length m), h') /\
    wq_repr h' q s (kept ++ l) /\
    (forall p nd, p ∈ m -> h !! p = Some nd -> h' !! p = Some (set_wn_key new_key nd)) /\
    (forall p, p ∉ m -> h' !! p = h !! p).
Proof.
  revert moved h kept l m r. induction fuel as [|fuel IH]; intros moved h kept l m r Hfuel Hr Hl; [lia|].
  assert (forall kept l, wq_repr h q s (kept ++ l) -> exists h', Done (moved, h) = Done (moved + Z.of_nat (@length Z []), h') /\
    wq_repr h' q s (kept ++ l) /\ (forall p nd, p ∈ [] -> h !! p = Some nd -> h' !! p = Some (set_wn_key new_key nd)) /\
    (forall p, p ∉ [] -> h' !! p = h !! p)) as Hstop.
  { intros k l0 H. exists h. cbn [length Z.of_nat]. rewrite Z.add_0_r. split_and!; try done. by intros p nd ?%not_elem_of_nil. }
  cbn [rekey_loop]. destruct l as [|p l].
  { cbn [head default from_option]. rewrite Z.eqb_refl. cbn [orb]. injection Hl as <- <-. by apply Hstop. }
  cbn [head default from_option id requeue_list] in *. pose proof (wr_nodup _ _ _ _ Hr) as Hnodup.
  assert (p <> s /\ p ∉ l) as (Hps & Hpl).
  { apply NoDup_cons in Hnodup as [Hn Hn2]. apply NoDup_app in Hn2 as (_ & Hk & H2). apply NoDup_cons in H2 as [H2 _].
    split; [|done]. intros ->. apply Hn, elem_of_app. right. left. }
  rewrite (proj2 (Z.eqb_neq p s)) by done. cbn [orb].
  assert ((0 <? n - moved) = (moved <? n)) as En by lia. rewrite En in *.
  destruct (negb (moved <? n)); [injection Hl as <- <-; by apply Hstop|]. clear Hstop.
  destruct (wq_repr_lookup _ _ _ _ p Hr ltac:(apply elem_of_app; right; left)) as [nd Hnd].
  rewrite Hnd in Hl. unfold wn_load. rewrite Hnd. run.
  destruct (dequeue_raw_spec h q s kept p l nd Hr Hnd) as (Hnext & _).
  assert (forall h, wq_repr h q s (kept ++ p :: l) -> wq_repr h q s ((kept ++ [p]) ++ l)) as Happ
    by (intros ? ?; by rewrite <- app_assoc).
  destruct (wn_key nd =? key).
  2: { destruct (requeue_list h key (n - moved) l) as [m1 r1] eqn:E. injection Hl as <- <-. rewrite Hnext.
       destruct (IH moved h (kept ++ [p]) l m1 r1) as (h' & H1 & H2 & H3 & H4); [simpl in *; lia|by apply Happ|done|].
       rewrite <- app_assoc in H2. by exists h'. }
  destruct (requeue_list h key (n - moved - 1) l) as [m1 r1] eqn:E. injection Hl as <- <-.
  rewrite (wn_store_Done h p _ nd Hnd). run. set (h1 := <[p := _]> h).
  assert (h1 !! p = Some (set_wn_key new_key nd)) as -> by (unfold h1; by rewrite lookup_insert_eq). run.
  cbn [set_wn_key wn_next]. rewrite Hnext.
  pose proof (requeue_list_subset _ _ _ _ _ _ E) as Hsub.
  assert (p ∉ m1) as Hpm by (intros H; apply Hpl; rewrite <- Hsub; apply elem_of_app; by left).
  assert (forall x, x <> p -> h1 !! x = h !! x) as Hne by (intros x Hx; unfold h1; by rewrite lookup_insert_ne).
  destruct (IH (moved + 1) h1 (kept ++ [p]) l m1 r1) as (h' & H1 & H2 & H3 & H4); [simpl in *; lia| | |].
  { by apply Happ, (wq_repr_data h q s _ p nd). }
  { rewrite (requeue_list_ext h); [by replace (n - (moved + 1)) with (n - moved - 1) by lia|].
    intros y Hy. rewrite Hne; [done|]. by intros ->. }
  exists h'. rewrite <- app_assoc in H2. split_and!; [rewrite H1; do 2 f_equal; simpl; lia|done|..].
  - intros x k Hx Hk. destruct (decide (x = p)) as [->|Hxp].
    + rewrite (H4 p Hpm). unfold h1. rewrite lookup_insert_eq. congruence.
    + apply elem_of_cons in Hx as [|Hx]; [done|]. apply (H3 x k Hx). by rewrite Hne.
  - intros x [Hx1 Hx2]%not_elem_of_cons. by rewrite (H4 x Hx2), Hne.
Qed.

(** ** Claims *)

Lemma initialized_Done h q s l : wq_repr h q s l -> ensure_initialized h q s = Done (h, q).
Proof.
  intros H. unfold ensure_initialized. rewrite (wr_head _ _ _ _ H).
  rewrite (proj2 (Z.eqb_neq s 0)); [done|]. intros ->. apply (wr_null _ _ _ _ H). left.
Qed.

Lemma wq_first h q s l : wq_repr h q s l -> exists hd, wn_load h s = Done hd /\ wn_next hd = default s (head l).
Proof.
  intros H. pose proof (wr_chain _ _ _ _ H) as Hc. cbn [chain] in Hc. destruct Hc as [(n & Hn & _ & Hx) _].
  exists n. unfold wn_load. by rewrite Hn.
Qed.

(** The first use of a queue makes it empty. *)
Lemma ensure_initialized_spec h s n :
  s <> 0 -> h !! s = Some n ->
  exists h' q', ensure_initialized h WaitQueueInner_new s = Done (h', q') /\ wq_repr h' q' s [] /\
    forall p, p <> s -> h' !! p = h !! p.
Proof.
  intros Hs Hn. unfold ensure_initialized. cbn [WaitQueueInner_new wi_head Z.eqb]. rewrite (wn_store_Done h s _ n Hn). run.
  eexists _, _. split; [reflexivity|]. split.
  - constructor; try done.
    + cbn [chain last head default from_option]. split; [|done]. eexists. rewrite lookup_insert_eq. done.
    + apply NoDup_singleton.
    + by intros H%list_elem_of_singleton.
  - intros p Hp. by rewrite lookup_insert_ne.
Qed.

(** C28: The linked list implements a queue of waiters.  Whatever nodes [l] it holds,
    appending and unlinking a node and moving waiters to another queue do that to the
    list, in order; waking takes, in order, the nodes whose key matches and whose
    thread the scheduler accepts, until the number asked for, marks and unlinks
    exactly them, and returns how many.  Every loop ends after one step per node,
    and the threads, keys and flags of all other nodes are untouched. *)
Theorem wait_queue_refines_list {X} (push : X -> Z -> bool * X) h q s l :
  wq_repr h q s l ->
  (forall p n, p ∉ s :: l -> p <> 0 -> h !! p = Some n -> Z.of_nat (length l) + 1 < 2 ^ 32 - 1 ->
     exists h' q', enqueue_raw h q p = Done (h', q') /\ wq_repr h' q' s (l ++ [p]) /\
       wdata <$> h' !! p = Some (wn_thread n, false, wn_key n) /\ (forall x, x <> p -> wdata <$> h' !! x = wdata <$> h !! x)) /\
  (forall l1 p l2, l = l1 ++ p :: l2 ->
     exists h' q', dequeue_raw h q p = Done (h', q') /\ wq_repr h' q' s (l1 ++ l2) /\ dequeue_raw h' q' p = Done (h', q') /\
       forall x, wdata <$> h' !! x = wdata <$> h !! x) /\
  (forall fuel key n x w r x', (length l < fuel)%nat -> 0 <= n -> wake_list push h key n l x = (w, r, x') ->
     exists h' q', wake_n_matching push fuel s key n h q x = Done (Z.of_nat (length w), h', q', x') /\
       wq_repr h' q' s r /\ woke h h' s l w) /\
  (forall fuel dst s2 d key new_key n m r, (length l < fuel)%nat -> 0 <= n -> s <> s2 -> wq_repr h dst s2 d ->
     (forall p, p ∈ s :: l -> p ∉ s2 :: d) -> Z.of_nat (length d + length l) < 2 ^ 32 - 1 ->
     requeue_list h key n l = (m, r) ->
     exists h' q' dst', requeue_matching fuel s s2 key new_key n h q dst = Done (Z.of_nat (length m), h', q', dst') /\
       wq_repr h' q' s r /\ wq_repr h' dst' s2 (d ++ m) /\ requeued h h' new_key m).
Proof.
  intros Hr. destruct (wq_first _ _ _ _ Hr) as (hd & Hhd & Hnext). pose proof (initialized_Done _ _ _ _ Hr) as Hini.
  split_and!.
  - intros p n Hp H0 Hn Hroom. destruct (enqueue_raw_spec h q s l p n Hr Hp H0 Hn Hroom) as (h' & q' & H1 & H2 & H3 & H4 & _).
    by exists h', q'.
  - intros l1 p l2 ->. destruct (wq_repr_lookup _ _ _ _ p Hr ltac:(apply elem_of_app; right; left)) as [pn Hpn].
    destruct (dequeue_raw_spec h q s l1 p l2 pn Hr Hpn) as (_ & h' & q' & H1 & H2 & H3 & H4 & _).
    exists h', q'. split_and!; try done. unfold dequeue_raw, wn_load. by rewrite H3.
  - intros fuel key n x w r x' Hfuel Hn Hw. unfold wake_n_matching. destruct (n =? 0) eqn:E0.
    + assert (n = 0) as -> by lia. assert (wake_list push h key 0 l x = ([], l, x)) as E by by destruct l.
      rewrite E in Hw. injection Hw as <- <- <-. exists h, q. split_and!; [done|done|apply woke_refl].
    + rewrite Hini. run. rewrite (wr_head _ _ _ _ Hr), Hhd. run. rewrite Hnext.
      apply (wake_loop_spec push fuel key n 0 h q x s [] l w r x'); [done|done|by rewrite Z.sub_0_r].
  - intros fuel dst s2 d key new_key n m r Hfuel Hn Hne Hd Hdisj Hroom Hl. unfold requeue_matching.
    destruct (n =? 0) eqn:E0.
    + assert (n = 0) as -> by lia. assert (requeue_list h key 0 l = ([], l)) as E by by destruct l.
      rewrite E in Hl. injection Hl as <- <-. exists h, q, dst. rewrite app_nil_r. split_and!; [done|done|done|apply requeued_refl].
    + rewrite (proj2 (Z.eqb_neq s s2)) by done. rewrite Hini. run. rewrite (initialized_Done _ _ _ _ Hd). run.
      rewrite (wr_head _ _ _ _ Hr), Hhd. run. rewrite Hnext.
      apply (requeue_loop_spec fuel key new_key n 0 h q dst s s2 [] l d m r); try done. by rewrite Z.sub_0_r.
Qed.

(** Two waiters with keys 5 and 7; a wake-up for key 7 takes the second. *)
Lemma wait_queue_refines_list_witness :
  exists h' q', wake_n_matching (fun (x : list Z) t => (true, t :: x)) 5 100 7 9
      {[ 100 := {| wn_thread := 0; wn_next := 1; wn_prev := 2; wn_woken := false; wn_key := 0 |};
         1 := {| wn_thread := 11; wn_next := 2; wn_prev := 100; wn_woken := false; wn_key := 5 |};
         2 := {| wn_thread := 22; wn_next := 100; wn_prev := 1; wn_woken := false; wn_key := 7 |} ]}
      {| wi_head := 100; wi_len := 2 |} [] = Done (1, h', q', [22]) /\ wq_repr h' q' 100 [1].
Proof.
  set (h := {[ 100 := _; 1 := _; 2 := _ ]} : wheap). set (q := {| wi_head := 100; wi_len := 2 |}).
  assert (wq_repr h q 100 [1; 2]) as Hr.
  { constructor; [done| | |set_solver|done|done].
    - cbn [chain]. split_and!; try done; eexists; (split; [reflexivity|done]).
    - repeat constructor; set_solver. }
  destruct (wait_queue_refines_list (fun (x : list Z) t => (true, t :: x)) h q 100 [1; 2] Hr) as (_ & _ & Hw & _).
  destruct (Hw 5%nat 7 9 [] [2] [1] [22]) as (h' & q' & E & Hr' & _); [simpl; lia|lia|vm_compute; reflexivity|].
  exists h', q'. split; [exact E|exact Hr'].
Defined.
