(* ===== verification/Futex.v ===== *)
(** * Futexes and the kernel mutex

    crates/sched/src/futex.rs.  The hash of an address to its bucket and the waking
    and requeueing of waiters over the wait queues of WaitQueue.v; and [KMutex] as the
    interleaving of the atomic steps of any number of threads, [futex_wait] and
    [futex_wake] among them. *)

From Stdlib Require Import ZArith Lia.
From stdpp Require Import prelude gmap list relations.
From S2P Require Import Prelude Wake WaitQueue.

Local Open Scope Z_scope.

Definition FUTEX_BUCKETS : nat := 256.

Definition futex_bucket_index (addr : Z) : Z :=
  let key := Z.shiftr addr 2 in
  let hash := wrap64 (key * 0x9e3779b97f4a7c15) in
  Z.shiftr hash (64 - 8).

(** A bucket: the address of its sentinel and its queue. *)
Record FutexBucket := { fb_sentinel : Z; fb_queue : WaitQueueInner }.

Section Futex.
Context {X : Type} (push : X -> Z -> bool * X).

Record futex_state := { fx_heap : wheap; fx_table : list FutexBucket; fx_sched : X }.

Definition futex_wake (fuel : nat) (s : futex_state) (addr count : Z) : outcome (Z * futex_state) :=
  let i := Z.to_nat (futex_bucket_index addr) in
  b ← expect (fx_table s !! i);
  '(woken, h, q, x) ← wake_n_matching push fuel (fb_sentinel b) addr count (fx_heap s) (fb_queue b) (fx_sched s);
  Done (woken, {| fx_heap := h; fx_sched := x;
                  fx_table := <[i := {| fb_sentinel := fb_sentinel b; fb_queue := q |}]> (fx_table s) |}).

(** [requeue_same_bucket] and [requeue_across_buckets]: some waiters are woken, then
    others move to the second address. *)
Definition requeue_buckets (fuel : nat) (s : futex_state) (src_idx dst_idx : nat) (src_key dst_key wake_n requeue_n : Z)
    : outcome (Z * futex_state) :=
  src ← expect (fx_table s !! src_idx);
  '(woken, h1, q1, x1) ← wake_n_matching push fuel (fb_sentinel src) src_key wake_n (fx_heap s) (fb_queue src) (fx_sched s);
  let table1 := <[src_idx := {| fb_sentinel := fb_sentinel src; fb_queue := q1 |}]> (fx_table s) in
  dst ← expect (table1 !! dst_idx);
  '(moved, h2, q2, d2) ← requeue_matching fuel (fb_sentinel src) (fb_sentinel dst) src_key dst_key requeue_n h1 q1 (fb_queue dst);
  Done (wrap32 (woken + moved),
        {| fx_heap := h2; fx_sched := x1;
           fx_table := <[dst_idx := {| fb_sentinel := fb_sentinel dst; fb_queue := d2 |}]>
                       (<[src_idx := {| fb_sentinel := fb_sentinel src; fb_queue := q2 |}]> table1) |}).

Definition futex_requeue (fuel : nat) (s : futex_state) (addr wake_n addr2 requeue_n : Z) : outcome (Z * futex_state) :=
  requeue_buckets fuel s (Z.to_nat (futex_bucket_index addr)) (Z.to_nat (futex_bucket_index addr2)) addr addr2 wake_n requeue_n.

End Futex.

(** Every address has a bucket. *)
Lemma futex_bucket_index_bounds addr : 0 <= futex_bucket_index addr < Z.of_nat FUTEX_BUCKETS.
Proof.
  unfold futex_bucket_index, FUTEX_BUCKETS, wrap64, wrapw. rewrite Z.shiftr_div_pow2 by lia.
  pose proof (Z.mod_pos_bound (Z.shiftr addr 2 * 0x9e3779b97f4a7c15) (2 ^ 64) ltac:(lia)).
  split; [apply Z.div_pos; lia|]. apply Z.div_lt_upper_bound; lia.
Qed.

(** ** The mutex *)

(** Where a thread is: in [lock] about to swap, in [futex_wait] before its first and
    its second look at the word, asleep, holding the lock, and in the destructor of
    the guard with a wake-up owed. *)
Inductive kpc := KIdle | KSwap | KCheck | KEnqueue | KAsleep | KCrit | KWake.

#[global] Instance kpc_eq_dec : EqDecision kpc.
Proof. solve_decision. Defined.

(** The word, the threads and the queue.  [km_lost] records that the scheduler has refused
    every waiter of some wake-up; the code does not keep it. *)
Record kmutex := { km_state : Z; km_pcs : list kpc; km_sleepers : list nat; km_lost : bool }.

Definition km_init (n : nat) : kmutex := {| km_state := 0; km_pcs := replicate n KIdle; km_sleepers := []; km_lost := false |}.

Definition km_set (s : kmutex) (state : Z) (t : nat) (pc : kpc) : kmutex :=
  {| km_state := state; km_pcs := <[t := pc]> (km_pcs s); km_sleepers := km_sleepers s; km_lost := km_lost s |}.

(** [lock] and [try_lock] of an idle thread: the compare-exchange from 0 to 1. *)
Definition km_lock (blocking : bool) (s : kmutex) (t : nat) : kmutex :=
  if km_state s =? 0 then km_set s 1 t KCrit
  else km_set s (km_state s) t (if blocking then KSwap else KIdle).

(** [futex_wait] under the lock of the wait queue. *)
Definition km_enqueue (s : kmutex) (t : nat) : kmutex :=
  if km_state s =? 2 then
    {| km_state := km_state s; km_pcs := <[t := KAsleep]> (km_pcs s); km_sleepers := km_sleepers s ++ [t]; km_lost := km_lost s |}
  else km_set s (km_state s) t KSwap.

(** [futex_wake] of one thread: the first waiter that the scheduler accepts goes round the
    loop of [lock]; the destructor does not look at the number woken. *)
Definition km_wake (accept : nat -> bool) (s : kmutex) (t : nat) : kmutex :=
  let '(woken, rest) := wake_n accept 1 (km_sleepers s) in
  {| km_state := km_state s; km_pcs := <[t := KIdle]> (foldr (fun u pcs => <[u := KSwap]> pcs) (km_pcs s) woken); km_sleepers := rest;
     km_lost := km_lost s || (negb (bool_decide (km_sleepers s = [])) && bool_decide (woken = [])) |}.

(** The next atomic step of thread [t]; a sleeping thread has none. *)
Definition km_step (blocking : bool) (accept : nat -> bool) (s : kmutex) (t : nat) : option kmutex :=
  match km_pcs s !! t with
  | None | Some KAsleep => None
  | Some KIdle => Some (km_lock blocking s t)
  | Some KSwap => Some (km_set s 2 t (if km_state s =? 0 then KCrit else KCheck))
  | Some KCheck => Some (km_set s (km_state s) t (if km_state s =? 2 then KEnqueue else KSwap))
  | Some KEnqueue => Some (km_enqueue s t)
  | Some KCrit => Some (km_set s 0 t (if km_state s =? 2 then KWake else KIdle))
  | Some KWake => Some (km_wake accept s t)
  end.

Definition km_next (s s' : kmutex) : Prop := exists blocking accept t, km_step blocking accept s t = Some s'.

(** The number of threads at [pc]. *)
Definition at_pc (pc : kpc) (s : kmutex) : Z := zsum (fun p => if decide (p = pc) then 1 else 0) (km_pcs s).

Record km_ok (s : kmutex) : Prop := {
  ko_state : 0 <= km_state s <= 2;
  ko_owner : at_pc KCrit s = if km_state s =? 0 then 0 else 1;
  ko_nodup : NoDup (km_sleepers s);
  ko_asleep : forall t, t ∈ km_sleepers s <-> km_pcs s !! t = Some KAsleep;
  ko_waker : km_lost s = false -> km_sleepers s <> [] -> km_state s = 2 \/ 0 < at_pc KWake s \/ 0 < at_pc KSwap s
}.

Lemma at_pc_insert s pc t old new :
  km_pcs s !! t = Some old ->
  zsum (fun p => if decide (p = pc) then 1 else 0) (<[t := new]> (km_pcs s)) =
  at_pc pc s - (if decide (old = pc) then 1 else 0) + (if decide (new = pc) then 1 else 0).
Proof. intros H. by rewrite (zsum_insert _ _ t old). Qed.

Lemma at_pc_nonneg pc s : 0 <= at_pc pc s.
Proof. apply zsum_nonneg. intros p. destruct (decide _); lia. Qed.

Lemma at_pc_pos pc s t : km_pcs s !! t = Some pc -> 1 <= at_pc pc s.
Proof.
  intros H. unfold at_pc. etransitivity; [|apply (zsum_elem _ _ pc); [|by eapply list_elem_of_lookup_2]]; simpl.
  - by rewrite decide_True.
  - intros p. destruct (decide _); lia.
Qed.

Lemma at_pc_pos_inv pc s : 0 < at_pc pc s -> exists t, km_pcs s !! t = Some pc.
Proof.
  unfold at_pc. induction (km_pcs s) as [|p l IH]; cbn [zsum]; [lia|]. intros H. destruct (decide (p = pc)) as [->|].
  - by exists 0%nat.
  - destruct IH as [t Ht]; [lia|]. by exists (S t).
Qed.

(** A step of one thread that neither falls asleep nor was asleep. *)
Lemma km_set_ok s st t old new :
  km_ok s -> km_pcs s !! t = Some old -> old <> KAsleep -> new <> KAsleep -> 0 <= st <= 2 ->
  at_pc KCrit s - (if decide (old = KCrit) then 1 else 0) + (if decide (new = KCrit) then 1 else 0) =
    (if st =? 0 then 0 else 1) ->
  (km_lost s = false -> km_sleepers s <> [] -> st = 2 \/
     0 < at_pc KWake s - (if decide (old = KWake) then 1 else 0) + (if decide (new = KWake) then 1 else 0) \/
     0 < at_pc KSwap s - (if decide (old = KSwap) then 1 else 0) + (if decide (new = KSwap) then 1 else 0)) ->
  km_ok (km_set s st t new).
Proof.
  intros Hs Ht Hold Hnew Hst Hc Hw. constructor; unfold at_pc; cbn [km_set km_state km_pcs km_sleepers km_lost].
  - done.
  - by rewrite (at_pc_insert s _ t old).
  - apply Hs.
  - intros u. rewrite (ko_asleep _ Hs u). destruct (decide (u = t)) as [->|Hne].
    + rewrite list_lookup_insert_eq by (by apply lookup_lt_Some in Ht). rewrite Ht. split; intros [= E]; done.
    + by rewrite list_lookup_insert_ne.
  - intros Hlo Hne. rewrite !(at_pc_insert s _ t old) by done. by apply Hw.
Qed.

Ltac km_count := cbn [Z.eqb]; repeat (case_decide; simplify_eq); try lia.

Lemma km_enqueue_ok s t : km_ok s -> km_pcs s !! t = Some KEnqueue -> km_ok (km_enqueue s t).
Proof.
  intros Hs Ht. pose proof (ko_owner _ Hs) as Ho. pose proof (ko_state _ Hs) as Hst. unfold km_enqueue.
  destruct (km_state s =? 2) eqn:E2.
  - assert (t ∉ km_sleepers s) as Hn by (rewrite (ko_asleep _ Hs); congruence).
    constructor; unfold at_pc; cbn [km_state km_pcs km_sleepers km_lost].
    + done.
    + rewrite (at_pc_insert s _ t KEnqueue) by done. km_count.
    + apply NoDup_app. split_and!; [apply Hs| |apply NoDup_singleton]. intros x Hx ->%list_elem_of_singleton. done.
    + intros u. rewrite elem_of_app, list_elem_of_singleton, (ko_asleep _ Hs u).
      pose proof (lookup_lt_Some _ _ _ Ht) as Hlt. destruct (decide (u = t)) as [->|Hne].
      * rewrite list_lookup_insert_eq by done. tauto.
      * rewrite list_lookup_insert_ne by done. tauto.
    + intros _ _. left. lia.
  - eapply (km_set_ok s _ t KEnqueue); try done.
    + km_count.
    + intros _ Hne. pose proof (at_pc_nonneg KSwap s). right. right. km_count.
Qed.

(** The queue gives up the waiter [u]. *)
Lemma km_dequeue_ok s q1 u q2 : km_ok s -> km_sleepers s = q1 ++ u :: q2 ->
  km_pcs s !! u = Some KAsleep /\
  km_ok {| km_state := km_state s; km_pcs := <[u := KSwap]> (km_pcs s); km_sleepers := q1 ++ q2; km_lost := km_lost s |} /\
  forall pc, zsum (fun p => if decide (p = pc) then 1 else 0) (<[u := KSwap]> (km_pcs s)) =
    at_pc pc s - (if decide (KAsleep = pc) then 1 else 0) + (if decide (KSwap = pc) then 1 else 0).
Proof.
  intros Hs Hsl. pose proof (ko_asleep _ Hs) as Hel. pose proof (ko_nodup _ Hs) as Hnd. rewrite Hsl in Hel, Hnd.
  assert (u :: q1 ++ q2 ≡ₚ q1 ++ u :: q2) as Hp by apply Permutation_middle. rewrite <- Hp in Hnd. apply NoDup_cons in Hnd as [Hnu Hnd].
  assert (km_pcs s !! u = Some KAsleep) as Hpu by (apply Hel; set_solver). pose proof (lookup_lt_Some _ _ _ Hpu) as Hlt.
  assert (forall pc, zsum (fun p => if decide (p = pc) then 1 else 0) (<[u := KSwap]> (km_pcs s)) =
    at_pc pc s - (if decide (KAsleep = pc) then 1 else 0) + (if decide (KSwap = pc) then 1 else 0)) as Hat by (intros pc; by apply at_pc_insert).
  split_and!; [done| |done]. constructor; unfold at_pc; cbn [km_state km_pcs km_sleepers km_lost]; [apply Hs| |done| |].
  - rewrite Hat, (ko_owner _ Hs). case_decide; [done|]. case_decide; [done|]. lia.
  - intros x. destruct (decide (x = u)) as [->|Hne]; [rewrite list_lookup_insert_eq by done; split; [done|by intros [=]]|].
    rewrite list_lookup_insert_ne by done. rewrite <- Hel. set_solver.
  - intros _ _. right. right. rewrite Hat. pose proof (at_pc_nonneg KSwap s). repeat case_decide; (done || lia).
Qed.

Lemma km_wake_ok accept s t : km_ok s -> km_pcs s !! t = Some KWake -> km_ok (km_wake accept s t).
Proof.
  intros Hs Ht. pose proof (ko_owner _ Hs) as Ho. pose proof (ko_state _ Hs) as Hst. unfold km_wake.
  destruct (wake_one_cases accept (km_sleepers s)) as [[-> Hno]|(q1 & u & q2 & Hsl & _ & _ & ->)].
  - cbn [foldr]. rewrite (bool_decide_eq_true_2 ([] = [])), andb_true_r by done.
    assert (km_ok {| km_state := km_state s; km_pcs := <[t := KIdle]> (km_pcs s); km_sleepers := km_sleepers s; km_lost := true |} /\
      (km_sleepers s = [] -> km_ok (km_set s (km_state s) t KIdle))) as [H1 H2].
    { split; [|intros E; eapply (km_set_ok s _ t KWake); try done; km_count].
      set (s0 := {| km_state := km_state s; km_pcs := km_pcs s; km_sleepers := km_sleepers s; km_lost := true |}).
      assert (km_ok s0) as Hs0 by (destruct Hs; by constructor). apply (km_set_ok s0 (km_state s) t KWake KIdle); try done. change (at_pc KCrit s0) with (at_pc KCrit s). km_count. }
    destruct (bool_decide_reflect (km_sleepers s = [])) as [E|]; cbn [negb]; [rewrite orb_false_r; by apply H2|by rewrite orb_true_r].
  - destruct (km_dequeue_ok s q1 u q2 Hs Hsl) as (Hpu & Hs1 & Hat). cbn [foldr]. rewrite (bool_decide_eq_false_2 ([u] = [])), andb_false_r, orb_false_r by done.
    assert (u <> t) as Hut by congruence. set (s1 := {| km_state := km_state s |}) in Hs1.
    assert (km_pcs s1 !! t = Some KWake) as Ht1 by (cbn; by rewrite list_lookup_insert_ne).
    apply (km_set_ok s1 (km_state s) t KWake KIdle); try done; unfold at_pc, s1; cbn [km_pcs]; rewrite !Hat; pose proof (at_pc_nonneg KSwap s); [km_count|]. intros _ _. right. right. km_count.
Qed.

Lemma km_step_ok blocking accept s t s' : km_ok s -> km_step blocking accept s t = Some s' -> km_ok s'.
Proof.
  intros Hs H. unfold km_step in H. destruct (km_pcs s !! t) as [pc|] eqn:Ht; [|done].
  pose proof (ko_owner _ Hs) as Ho. pose proof (ko_state _ Hs) as Hst. pose proof (ko_waker _ Hs) as Hw.
  pose proof (at_pc_nonneg KSwap s) as Hsw. pose proof (at_pc_nonneg KWake s) as Hwk.
  destruct pc; simplify_eq.
  - unfold km_lock. destruct (km_state s =? 0) eqn:E0; [|destruct blocking];
      eapply (km_set_ok s _ t KIdle); rewrite ?E0; try done; try (km_count; fail); intros Hlo Hne; specialize (Hw Hlo Hne); km_count.
  - destruct (km_state s =? 0) eqn:E0; eapply (km_set_ok s 2 t KSwap); try done; try (km_count; fail); by left.
  - destruct (km_state s =? 2) eqn:E2;
      eapply (km_set_ok s _ t KCheck); try done; try (km_count; fail); intros Hlo Hne; specialize (Hw Hlo Hne); km_count.
  - by apply km_enqueue_ok.
  - pose proof (at_pc_pos _ _ _ Ht) as Hp.
    assert (at_pc KCrit s = 1 /\ (km_state s =? 0) = false) as [Hc E0] by (destruct (km_state s =? 0); lia).
    destruct (km_state s =? 2) eqn:E2;
      eapply (km_set_ok s 0 t KCrit); try done; try (km_count; fail); intros Hlo Hne; specialize (Hw Hlo Hne); right; km_count.
  - by apply km_wake_ok.
Qed.

(** ** Claims *)

Lemma km_init_ok n : km_ok (km_init n).
Proof.
  assert (forall pc, pc <> KIdle -> at_pc pc (km_init n) = 0) as Hz.
  { intros pc Hpc. unfold at_pc. cbn [km_init km_pcs]. induction n as [|n IH]; [done|]. cbn [replicate zsum].
    rewrite decide_False by done. lia. }
  constructor; cbn [km_init km_state km_pcs km_sleepers]; [lia|by apply Hz|constructor| |done].
  intros t. split; [by intros ?%not_elem_of_nil|]. intros H. apply lookup_replicate in H as [H _]. done.
Qed.

(** C21: [KMutex] with any number of threads, in every interleaving of their atomic
    steps and whatever wake-ups the scheduler refuses: at most one thread holds the
    lock, and one holds it exactly while the word is not 0.  As long as no unlock has
    had all its waiters refused: while a thread sleeps, the word is 2 or a wake-up is
    under way or a woken thread is about to write 2, so no unlock leaves it asleep for
    good: unless every thread is outside the lock, some thread that is not can step. *)
Theorem kmutex_correct n s :
  rtc km_next (km_init n) s ->
  (forall t u, km_pcs s !! t = Some KCrit -> km_pcs s !! u = Some KCrit -> t = u) /\
  (km_state s <> 0 <-> exists t, km_pcs s !! t = Some KCrit) /\
  (km_lost s = false -> forall t, km_pcs s !! t = Some KAsleep ->
     km_state s = 2 \/ exists u, km_pcs s !! u = Some KWake \/ km_pcs s !! u = Some KSwap) /\
  (km_lost s = false -> (exists t pc, km_pcs s !! t = Some pc /\ pc <> KIdle) ->
     exists u pc, km_pcs s !! u = Some pc /\ pc <> KIdle /\ forall b accept, is_Some (km_step b accept s u)).
Proof.
  intros Hr. assert (km_ok s) as Hs.
  { apply (rtc_invariant km_next km_ok (km_init n)); [apply km_init_ok| |done]. intros x y Hx (b & a & t & H). by eapply km_step_ok. }
  pose proof (ko_owner _ Hs) as Ho. pose proof (ko_state _ Hs) as Hst.
  assert (km_lost s = false -> forall t, km_pcs s !! t = Some KAsleep ->
    km_state s = 2 \/ exists u, km_pcs s !! u = Some KWake \/ km_pcs s !! u = Some KSwap) as Hsleep.
  { intros Hlo t Ht. destruct (ko_waker _ Hs Hlo) as [H|[H|H]].
    - apply (ko_asleep _ Hs) in Ht. intros E. rewrite E in Ht. by apply not_elem_of_nil in Ht.
    - by left.
    - right. apply at_pc_pos_inv in H as [u Hu]. eauto.
    - right. apply at_pc_pos_inv in H as [u Hu]. eauto. }
  assert (km_state s <> 0 <-> exists t, km_pcs s !! t = Some KCrit) as Hiff.
  { split.
    - intros H. apply at_pc_pos_inv. rewrite Ho, (proj2 (Z.eqb_neq _ _) H). lia.
    - intros [t Ht] E. apply at_pc_pos in Ht. rewrite Ho, E in Ht. cbn in Ht. lia. }
  assert (forall u pc, km_pcs s !! u = Some pc -> pc <> KIdle -> pc <> KAsleep ->
    exists u pc, km_pcs s !! u = Some pc /\ pc <> KIdle /\ forall b accept, is_Some (km_step b accept s u)) as Hcan.
  { intros u pc Hu H1 H2. exists u, pc. split_and!; [done..|]. intros b a. unfold km_step. rewrite Hu. by destruct pc. }
  split_and!; [|done|done|].
  - intros t u Ht Hu. destruct (decide (t = u)) as [|Hne]; [done|]. exfalso.
    assert (2 <= at_pc KCrit s) as H2.
    { unfold at_pc. change 2 with ((if decide (KCrit = KCrit) then 1 else 0) + (if decide (KCrit = KCrit) then 1 else 0)).
      apply (zsum_two (fun p => if decide (p = KCrit) then 1 else 0) _ t u KCrit KCrit); [|done..]. intros p. destruct (decide _); lia. }
    rewrite Ho in H2. destruct (_ =? 0); lia.
  - intros Hlo (t & pc & Ht & Hpc). destruct (decide (pc = KAsleep)) as [->|]; [|by eapply Hcan].
    destruct (Hsleep Hlo t Ht) as [E|(u & [Hu|Hu])]; [|by eapply Hcan..].
    destruct (proj1 Hiff ltac:(lia)) as [u Hu]. by eapply Hcan.
Qed.

(** A run from a list of moves: who steps, and whether the scheduler accepts. *)
Fixpoint km_run (s : kmutex) (moves : list (nat * bool)) : option kmutex :=
  match moves with
  | [] => Some s
  | (t, ok) :: moves' => s' ← km_step true (fun _ => ok) s t; km_run s' moves'
  end.

Lemma km_run_steps moves : forall s s', km_run s moves = Some s' -> rtc km_next s s'.
Proof.
  induction moves as [|[t ok] moves IH]; intros s s' E; cbn [km_run] in E; [by injection E as ->|].
  apply bind_Some in E as (s1 & E1 & E). eapply rtc_l; [by exists true, (fun _ => ok), t|by apply IH].
Qed.

(** Two threads: the second sleeps while the first holds the lock, and then gets it. *)
Lemma kmutex_correct_witness :
  exists s, rtc km_next (km_init 2) s /\ km_pcs s = [KCrit; KAsleep] /\ km_lost s = false /\
    (km_state s <> 0 <-> exists t, km_pcs s !! t = Some KCrit) /\ (km_state s = 2 \/ exists u, km_pcs s !! u = Some KWake \/ km_pcs s !! u = Some KSwap).
Proof.
  eassert (rtc km_next (km_init 2) _) as Hr by (apply (km_run_steps [(0, true); (1, true); (1, true); (1, true); (1, true)]%nat); vm_compute; reflexivity).
  eexists. split; [exact Hr|]. split; [reflexivity|]. split; [reflexivity|].
  destruct (kmutex_correct 2 _ Hr) as (_ & H1 & H2 & _). split; [exact H1|]. exact (H2 eq_refl 1%nat eq_refl).
Defined.

(** A wake-up that the scheduler refuses is lost: the lock is free, nobody is in it, and
    the waiter sleeps. *)
Lemma kmutex_refused_wake_lost : exists s, rtc km_next (km_init 2) s /\ km_pcs s = [KIdle; KAsleep] /\ km_state s = 0.
Proof.
  eexists. split; [apply (km_run_steps [(0, true); (1, true); (1, true); (1, true); (1, true); (0, true); (0, false)]%nat); vm_compute; reflexivity|]. done.
Qed.
