(* ===== verification/Ramfs.v ===== *)
(** * The RAM file system

    crates/fs/src/ramfs.rs: files as lists of 4 KiB blocks, directories as lists of
    named children.  Inodes, vnodes and blocks live in frames of the frame allocator;
    an inode is found by the physical address of its frame, a vnode by its address in
    the direct map.  The array slots behind [block_count] and [child_count] are never
    read, so the arrays are lists of the slots in use. *)

From Stdlib Require Import ZArith Lia.
From stdpp Require Import prelude gmap list.
From S2P Require Import Prelude Frames.

Local Open Scope Z_scope.

Definition RAMFS_BLOCK_SIZE : Z := 4096.
Definition RAMFS_MAX_BLOCKS : Z := 256.
Definition RAMFS_MAX_CHILDREN : Z := 128.
Definition RAMFS_NAME_LEN : Z := 22.
Definition FS_DMAP : Z := 0xFFFF800000000000.

Inductive VNodeType := VRegular | VDirectory | VCharDevice | VSymlink.

(** The operation tables of the vnodes; [DEV_OPS] stands for the devices, which have
    no directory operations. *)
Inductive FsOps := RAMFS_FILE_OPS | RAMFS_DIR_OPS | DEV_OPS.

Record FsVNode := { fv_vtype : VNodeType; fv_ino : Z; fv_size : Z; fv_ops : FsOps; fv_fs_data : Z }.

Record RamfsChild := { rc_vnode_ptr : Z; rc_name : list Z }.

Record RamfsInode := {
  ri_vtype : VNodeType;
  ri_size : Z;
  ri_blocks : list Z;
  ri_children_phys : Z;
  ri_children : list RamfsChild
}.

Definition ri_block_count (i : RamfsInode) : Z := Z.of_nat (length (ri_blocks i)).

Definition ri_child_count (i : RamfsInode) : Z := Z.of_nat (length (ri_children i)).

(** [l[at..at+len(bs)].copy_from_slice(bs)]. *)
Definition splice (l : list Z) (at_ : nat) (bs : list Z) : list Z :=
  take at_ l ++ bs ++ drop (at_ + length bs) l.

Definition sub_bytes (l : list Z) (from len : Z) : list Z := take (Z.to_nat len) (drop (Z.to_nat from) l).

(** ** Reading and writing a file *)

(** The loop of [ramfs_read]; each round copies what one block has. *)
Fixpoint read_loop (fuel : nat) (data : gmap Z (list Z)) (ino : RamfsInode) (done to_read fpos : Z) : list Z :=
  match fuel with
  | O => []
  | S fuel' =>
      if negb (done <? to_read) then [] else
      let bi := fpos / RAMFS_BLOCK_SIZE in
      let bof := fpos mod RAMFS_BLOCK_SIZE in
      match ri_blocks ino !! Z.to_nat bi with
      | None => []
      | Some blk =>
          let chunk := Z.min (RAMFS_BLOCK_SIZE - bof) (to_read - done) in
          sub_bytes (default [] (data !! blk)) bof chunk ++
          read_loop fuel' data ino (done + chunk) to_read (fpos + chunk)
      end
  end.

(** [ramfs_read] into a buffer of [len] bytes: the bytes it copies to its start. *)
Definition ramfs_read (data : gmap Z (list Z)) (ino : RamfsInode) (len offset : Z) : list Z :=
  if ri_size ino <=? offset then [] else
  let avail := ri_size ino - offset in
  let to_read := Z.min len avail in
  read_loop (S (length (ri_blocks ino))) data ino 0 to_read offset.

(** A fresh page after [write_bytes(.., 0, ..)]. *)
Definition zero_page : list Z := replicate 4096 0.

Section Ramfs.
Context {A : Type} `{FrameAllocator A}.

(** [kernel_memory::alloc_frame], which panics without memory, then a zeroed page. *)
Definition alloc_frame (a : A) : outcome (Z * A) := expect (fa_alloc_frame a).

(** The blocks added in front of a write. *)
Fixpoint provision (fuel : nat) (need : Z) (blocks : list Z) (data : gmap Z (list Z)) (a : A)
    : outcome (list Z * gmap Z (list Z) * A) :=
  match fuel with
  | O => Done (blocks, data, a)
  | S fuel' =>
      let count := Z.of_nat (length blocks) in
      if (count <? need) && (count <? RAMFS_MAX_BLOCKS) then
        '(frame, a1) ← alloc_frame a;
        provision fuel' need (blocks ++ [frame]) (<[frame := zero_page]> data) a1
      else Done (blocks, data, a)
  end.

Fixpoint write_loop (fuel : nat) (blocks : list Z) (buf : list Z) (done fpos : Z) (data : gmap Z (list Z))
    : Z * gmap Z (list Z) :=
  match fuel with
  | O => (done, data)
  | S fuel' =>
      let len := Z.of_nat (length buf) in
      if negb (done <? len) then (done, data) else
      let bi := fpos / RAMFS_BLOCK_SIZE in
      let bof := fpos mod RAMFS_BLOCK_SIZE in
      match blocks !! Z.to_nat bi with
      | None => (done, data)
      | Some blk =>
          let chunk := Z.min (RAMFS_BLOCK_SIZE - bof) (len - done) in
          let page := splice (default [] (data !! blk)) (Z.to_nat bof) (sub_bytes buf done chunk) in
          write_loop fuel' blocks buf (done + chunk) (fpos + chunk) (<[blk := page]> data)
      end
  end.

(** [ramfs_write]: the number of bytes written and the changed inode and blocks. *)
Definition ramfs_write (data : gmap Z (list Z)) (ino : RamfsInode) (a : A) (buf : list Z) (offset : Z)
    : outcome (Z * gmap Z (list Z) * RamfsInode * A) :=
  let end_ := wrap64 (offset + Z.of_nat (length buf)) in
  let need := end_ / RAMFS_BLOCK_SIZE + (if end_ mod RAMFS_BLOCK_SIZE =? 0 then 0 else 1) in
  '(blocks, data1, a1) ← provision (Z.to_nat RAMFS_MAX_BLOCKS) need (ri_blocks ino) data a;
  let '(done, data2) := write_loop (S (length blocks)) blocks buf 0 offset data1 in
  Done (done, data2,
        {| ri_vtype := ri_vtype ino; ri_size := if ri_size ino <? end_ then end_ else ri_size ino;
           ri_blocks := blocks; ri_children_phys := ri_children_phys ino; ri_children := ri_children ino |}, a1).

End Ramfs.

(** [ramfs_truncate]: only the size changes. *)
Definition ramfs_truncate (ino : RamfsInode) (new_size : Z) : RamfsInode :=
  {| ri_vtype := ri_vtype ino; ri_size := new_size; ri_blocks := ri_blocks ino;
     ri_children_phys := ri_children_phys ino; ri_children := ri_children ino |}.

(** ** Files as byte strings *)

(** The bytes of the blocks, whatever the size says. *)
Definition block_bytes (data : gmap Z (list Z)) (blocks : list Z) : list Z :=
  concat ((fun b => default [] (data !! b)) <$> blocks).

Definition is_block (data : gmap Z (list Z)) (b : Z) : Prop := exists p, data !! b = Some p /\ length p = 4096%nat.

Lemma block_bytes_length data blocks :
  Forall (is_block data) blocks -> length (block_bytes data blocks) = (4096 * length blocks)%nat.
Proof.
  unfold block_bytes. induction 1 as [|b l (p & Hp & Hl) _ IH]; [done|]. cbn [fmap list_fmap concat length].
  rewrite length_app, IH, Hp. cbn [default from_option id]. lia.
Qed.

(** One block is a window of the whole. *)
Lemma block_bytes_drop data blocks bi blk :
  Forall (is_block data) blocks -> blocks !! bi = Some blk ->
  exists rest, drop (4096 * bi) (block_bytes data blocks) = default [] (data !! blk) ++ rest.
Proof.
  intros Hb. revert bi. induction Hb as [|b l (p & Hp & Hl) _ IH]; intros [|bi] Hi; cbn in Hi; try done.
  - injection Hi as <-. exists (block_bytes data l). by rewrite Nat.mul_0_r.
  - destruct (IH bi Hi) as [rest Hrest]. exists rest. rewrite <- Hrest. unfold block_bytes.
    cbn [fmap list_fmap concat]. rewrite Hp. cbn [default from_option id].
    replace (4096 * S bi)%nat with (length p + 4096 * bi)%nat by lia. by rewrite drop_app_add.
Qed.

Lemma sub_bytes_block data blocks bi blk bof chunk :
  Forall (is_block data) blocks -> blocks !! bi = Some blk -> (bof + chunk <= 4096)%nat ->
  take chunk (drop bof (default [] (data !! blk))) = take chunk (drop (4096 * bi + bof) (block_bytes data blocks)).
Proof.
  intros Hb Hi Hc. destruct (block_bytes_drop data blocks bi blk Hb Hi) as [rest Hr].
  rewrite <- drop_drop, Hr. destruct (Forall_lookup_1 _ _ _ _ Hb Hi) as (p & Hp & Hl). rewrite Hp.
  cbn [default from_option id]. rewrite drop_app_le by lia. rewrite take_app_le; [done|]. rewrite length_drop. lia.
Qed.

(** Linear arithmetic with divisions by constants. *)
Ltac zdm := Z.div_mod_to_equations; lia.

Lemma read_loop_spec data ino fuel done to_read fpos :
  Forall (is_block data) (ri_blocks ino) -> 0 <= fpos -> 0 <= done ->
  Z.of_nat (length (ri_blocks ino)) - fpos / 4096 < Z.of_nat fuel ->
  read_loop fuel data ino done to_read fpos =
  take (Z.to_nat (to_read - done)) (drop (Z.to_nat fpos) (block_bytes data (ri_blocks ino))).
Proof.
  intros Hb. revert done fpos. induction fuel as [|fuel IH]; intros done fpos Hf Hd Hfuel.
  - cbn [read_loop]. rewrite drop_ge; [by rewrite take_nil|]. rewrite block_bytes_length by done. zdm.
  - cbn [read_loop]. destruct (done <? to_read) eqn:Hlt; cbn [negb].
    2: { replace (Z.to_nat (to_read - done)) with 0%nat by lia. done. }
    unfold RAMFS_BLOCK_SIZE. destruct (ri_blocks ino !! Z.to_nat (fpos / 4096)) as [blk|] eqn:Hi.
    2: { apply lookup_ge_None in Hi. rewrite drop_ge; [by rewrite take_nil|]. rewrite block_bytes_length by done. zdm. }
    set (bof := fpos mod 4096). set (chunk := Z.min (4096 - bof) (to_read - done)).
    assert (0 <= bof < 4096) as Hbof by (apply Z.mod_pos_bound; lia).
    assert (0 < chunk <= 4096 - bof /\ chunk <= to_read - done) as Hchunk by (unfold chunk; lia).
    assert (fpos = 4096 * (fpos / 4096) + bof) as Hfp by (apply Z.div_mod; lia).
    replace (Z.to_nat (to_read - done)) with (Z.to_nat chunk + Z.to_nat (to_read - (done + chunk)))%nat by lia.
    rewrite <- take_take_drop, drop_drop. f_equal.
    + unfold sub_bytes. rewrite (sub_bytes_block data (ri_blocks ino) (Z.to_nat (fpos / 4096)) blk) by (done || lia).
      do 2 f_equal. assert (0 <= fpos / 4096) by zdm. lia.
    + replace (Z.to_nat fpos + Z.to_nat chunk)%nat with (Z.to_nat (fpos + chunk)) by lia.
      destruct (Z.eq_dec (done + chunk) to_read) as [E|Hne].
      * replace (Z.to_nat (to_read - (done + chunk))) with 0%nat by lia. cbn [take].
        destruct fuel; [done|]. cbn [read_loop]. by rewrite (proj2 (Z.ltb_ge _ _)) by lia.
      * apply IH; [lia|lia|]. assert (chunk = 4096 - bof) as E by (unfold chunk in *; lia).
        replace ((fpos + chunk) / 4096) with (fpos / 4096 + 1); [lia|].
        replace (fpos + chunk) with ((fpos / 4096 + 1) * 4096) by lia. by rewrite Z.div_mul.
Qed.

(** [ramfs_read] is a window of the bytes of the blocks. *)
Lemma ramfs_read_spec data ino len offset :
  Forall (is_block data) (ri_blocks ino) -> 0 <= offset -> 0 <= len ->
  ramfs_read data ino len offset =
  take (Z.to_nat (Z.min len (ri_size ino - offset))) (drop (Z.to_nat offset) (block_bytes data (ri_blocks ino))).
Proof.
  intros Hb Ho Hl. unfold ramfs_read. destruct (ri_size ino <=? offset) eqn:Hs.
  - replace (Z.to_nat (Z.min len (ri_size ino - offset))) with 0%nat by lia. done.
  - rewrite read_loop_spec; [by rewrite Z.sub_0_r|done|done|lia|]. assert (0 <= offset / 4096) by zdm. lia.
Qed.

Lemma splice_nil l at_ : splice l at_ [] = l.
Proof. unfold splice. cbn [app length]. rewrite Nat.add_0_r. apply take_drop. Qed.

Lemma splice_length l at_ bs : (at_ + length bs <= length l)%nat -> length (splice l at_ bs) = length l.
Proof. intros Hl. unfold splice. rewrite !length_app, length_take, length_drop. lia. Qed.

Lemma splice_splice l at_ b1 b2 :
  (at_ + length b1 <= length l)%nat -> splice (splice l at_ b1) (at_ + length b1) b2 = splice l at_ (b1 ++ b2).
Proof.
  intros Hl. unfold splice. rewrite (app_assoc (take at_ l) b1 (drop (at_ + length b1) l)), length_app.
  assert (length (take at_ l ++ b1) = (at_ + length b1)%nat) as E by (rewrite length_app, length_take; lia).
  rewrite take_app_length' by done. rewrite drop_app_ge by lia. rewrite E, drop_drop.
  rewrite <- !app_assoc. do 4 f_equal. lia.
Qed.

Lemma splice_middle l1 p l2 at_ bs :
  (at_ + length bs <= length p)%nat -> splice (l1 ++ p ++ l2) (length l1 + at_) bs = l1 ++ splice p at_ bs ++ l2.
Proof.
  intros Hl. unfold splice. rewrite take_app_add. rewrite take_app_le by lia.
  replace (length l1 + at_ + length bs)%nat with (length l1 + (at_ + length bs))%nat by lia.
  rewrite drop_app_add, drop_app_le by lia. by rewrite <- !app_assoc.
Qed.

(** Bytes read where they were written, and elsewhere. *)
Lemma splice_take_drop l at_ bs : (at_ + length bs <= length l)%nat -> take (length bs) (drop at_ (splice l at_ bs)) = bs.
Proof.
  intros Hl. unfold splice. rewrite drop_app_length' by (rewrite length_take; lia). by rewrite take_app_length.
Qed.

Lemma splice_lookup l at_ bs i :
  (at_ + length bs <= length l)%nat -> (i < at_ \/ at_ + length bs <= i)%nat -> splice l at_ bs !! i = l !! i.
Proof.
  intros Hl Hi. unfold splice. destruct Hi as [Hi|Hi].
  - rewrite lookup_app_l by (rewrite length_take; lia). by apply lookup_take_lt.
  - rewrite lookup_app_r by (rewrite length_take; lia). rewrite length_take, Nat.min_l by lia.
    rewrite lookup_app_r by lia. rewrite lookup_drop. f_equal. lia.
Qed.

Lemma block_bytes_app data l1 l2 : block_bytes data (l1 ++ l2) = block_bytes data l1 ++ block_bytes data l2.
Proof. unfold block_bytes. by rewrite fmap_app, concat_app. Qed.

Lemma block_bytes_ext data data' l : (forall b, b ∈ l -> data' !! b = data !! b) -> block_bytes data' l = block_bytes data l.
Proof.
  intros He. unfold block_bytes. f_equal. apply list_fmap_ext. intros i b Hi. by rewrite (He b (list_elem_of_lookup_2 _ _ _ Hi)).
Qed.

Lemma is_block_insert data b p x : length p = 4096%nat -> is_block data x -> is_block (<[b := p]> data) x.
Proof.
  intros Hp (y & Hy & Hl). destruct (decide (x = b)) as [->|].
  - exists p. by rewrite lookup_insert_eq.
  - exists y. by rewrite lookup_insert_ne.
Qed.

(** Writing into one block. *)
Lemma block_bytes_write data blocks bi blk bof bs :
  Forall (is_block data) blocks -> NoDup blocks -> blocks !! bi = Some blk -> (bof + length bs <= 4096)%nat ->
  let data' := <[blk := splice (default [] (data !! blk)) bof bs]> data in
  block_bytes data' blocks = splice (block_bytes data blocks) (4096 * bi + bof) bs /\ Forall (is_block data') blocks.
Proof.
  intros Hb Hnd Hi Hl data'. destruct (Forall_lookup_1 _ _ _ _ Hb Hi) as (p & Hp & Hlp).
  assert (length (splice p bof bs) = 4096%nat) as Hls by (rewrite splice_length; lia).
  split.
  - pose proof (take_drop_middle _ _ _ Hi) as Hsplit. pose proof (lookup_lt_Some _ _ _ Hi) as Hlt.
    rewrite <- Hsplit in Hnd, Hb |- *. apply NoDup_app in Hnd as (_ & Hd1 & Hd2). apply NoDup_cons in Hd2 as [Hd2 _].
    apply Forall_app in Hb as [Hb1 _].
    change (?a ++ blk :: ?b) with (a ++ [blk] ++ b). rewrite !block_bytes_app.
    rewrite (block_bytes_ext data data' (take bi blocks)), (block_bytes_ext data data' (drop (S bi) blocks)).
    + assert (block_bytes data [blk] = p) as -> by (unfold block_bytes; cbn; rewrite Hp; cbn; by rewrite app_nil_r).
      assert (block_bytes data' [blk] = splice p bof bs) as ->.
      { unfold block_bytes, data'. cbn. rewrite lookup_insert_eq, Hp. cbn. by rewrite app_nil_r. }
      symmetry. replace (4096 * bi)%nat with (length (block_bytes data (take bi blocks))).
      * apply splice_middle. lia.
      * rewrite block_bytes_length by done. rewrite length_take. lia.
    + intros b Hb'. unfold data'. rewrite lookup_insert_ne; [done|]. by intros <-.
    + intros b Hb'. unfold data'. rewrite lookup_insert_ne; [done|]. intros <-. by apply (Hd1 blk Hb'); left.
  - eapply Forall_impl; [exact Hb|]. intros x Hx. apply is_block_insert; [|done]. rewrite Hp. cbn [default from_option id]. done.
Qed.

(** How many bytes of a write at [fpos] the blocks have room for. *)
Definition room (blocks : list Z) (fpos want : Z) : Z :=
  Z.min want (Z.max 0 (4096 * Z.of_nat (length blocks) - fpos)).

Lemma sub_bytes_app buf from a b :
  0 <= from -> 0 <= a -> 0 <= b -> sub_bytes buf from a ++ sub_bytes buf (from + a) b = sub_bytes buf from (a + b).
Proof.
  intros Hf Ha Hb. unfold sub_bytes. rewrite !Z2Nat.inj_add by lia. rewrite <- drop_drop. apply take_take_drop.
Qed.

Lemma sub_bytes_length buf from len :
  0 <= from -> 0 <= len -> from + len <= Z.of_nat (length buf) -> Z.of_nat (length (sub_bytes buf from len)) = len.
Proof. intros. unfold sub_bytes. rewrite length_take, length_drop. lia. Qed.

(** What a write of [k] more bytes from position [done] of the buffer does. *)
Definition wrote (blocks buf : list Z) (done fpos k : Z) (data data' : gmap Z (list Z)) : Prop :=
  block_bytes data' blocks = splice (block_bytes data blocks) (Z.to_nat fpos) (sub_bytes buf done k) /\
  Forall (is_block data') blocks /\ (forall b, b ∉ blocks -> data' !! b = data !! b).

Lemma wrote_nothing blocks buf done fpos data : Forall (is_block data) blocks -> wrote blocks buf done fpos 0 data data.
Proof. intros Hb. unfold wrote, sub_bytes. cbn [Z.to_nat take]. by rewrite splice_nil. Qed.

(** One chunk, then the rest. *)
Lemma wrote_chunk blocks buf done fpos chunk k data data' blk :
  Forall (is_block data) blocks -> NoDup blocks -> 0 <= fpos -> 0 <= done -> 0 <= chunk -> 0 <= k ->
  done + chunk <= Z.of_nat (length buf) -> fpos mod 4096 + chunk <= 4096 -> blocks !! Z.to_nat (fpos / 4096) = Some blk ->
  let data1 := <[blk := splice (default [] (data !! blk)) (Z.to_nat (fpos mod 4096)) (sub_bytes buf done chunk)]> data in
  Forall (is_block data1) blocks /\
  (wrote blocks buf (done + chunk) (fpos + chunk) k data1 data' -> wrote blocks buf done fpos (chunk + k) data data').
Proof.
  intros Hb Hnd Hf Hd Hc Hk Hbuf Hcb Hi data1. pose proof (lookup_lt_Some _ _ _ Hi) as Hbi.
  assert (0 <= fpos mod 4096) as Hbof by (apply Z.mod_pos_bound; lia).
  pose proof (sub_bytes_length buf done chunk Hd Hc ltac:(lia)) as Hls.
  destruct (block_bytes_write data blocks _ blk (Z.to_nat (fpos mod 4096)) (sub_bytes buf done chunk) Hb Hnd Hi ltac:(lia))
    as [Hbytes Hb1]. fold data1 in Hbytes, Hb1. split; [done|]. intros (H1 & H2 & H3). split_and!; [|done|].
  - assert (0 <= fpos / 4096) as Hq by zdm. assert (fpos = 4096 * (fpos / 4096) + fpos mod 4096) as Hfp by (apply Z.div_mod; lia).
    rewrite H1, Hbytes, <- sub_bytes_app by lia.
    replace (Z.to_nat (fpos + chunk)) with (Z.to_nat fpos + length (sub_bytes buf done chunk))%nat by lia.
    replace (4096 * Z.to_nat (fpos / 4096) + Z.to_nat (fpos mod 4096))%nat with (Z.to_nat fpos) by lia.
    apply splice_splice. rewrite block_bytes_length by done. lia.
  - intros b Hn. rewrite H3 by done. unfold data1. rewrite lookup_insert_ne; [done|]. intros <-.
    by apply Hn, (list_elem_of_lookup_2 _ _ _ Hi).
Qed.

Lemma write_loop_end fuel blocks buf done fpos data :
  Z.of_nat (length buf) <= done -> write_loop fuel blocks buf done fpos data = (done, data).
Proof. intros Hd. destruct fuel; [done|]. cbn [write_loop]. by rewrite (proj2 (Z.ltb_ge _ _)) by lia. Qed.

Lemma write_loop_spec blocks buf fuel done fpos data :
  Forall (is_block data) blocks -> NoDup blocks -> 0 <= fpos -> 0 <= done <= Z.of_nat (length buf) ->
  Z.of_nat (length blocks) - fpos / 4096 < Z.of_nat fuel ->
  let k := room blocks fpos (Z.of_nat (length buf) - done) in
  exists data', write_loop fuel blocks buf done fpos data = (done + k, data') /\ wrote blocks buf done fpos k data data'.
Proof.
  intros Hb Hnd. revert done fpos data Hb. induction fuel as [|fuel IH]; intros done fpos data Hb Hf Hd Hfuel k.
  { exists data. assert (k = 0) as -> by (unfold k, room; zdm). rewrite Z.add_0_r. split; [done|by apply wrote_nothing]. }
  assert (k = 0 -> exists data', (done, data) = (done + k, data') /\ wrote blocks buf done fpos k data data') as Hstop.
  { intros ->. exists data. rewrite Z.add_0_r. split; [done|by apply wrote_nothing]. }
  cbn [write_loop]. destruct (done <? Z.of_nat (length buf)) eqn:Hlt; cbn [negb]; [|apply Hstop; unfold k, room; lia].
  unfold RAMFS_BLOCK_SIZE. destruct (blocks !! Z.to_nat (fpos / 4096)) as [blk|] eqn:Hi.
  2: { apply lookup_ge_None in Hi. apply Hstop. unfold k, room. zdm. }
  clear Hstop. set (chunk := Z.min (4096 - fpos mod 4096) (Z.of_nat (length buf) - done)).
  assert (0 <= fpos mod 4096 < 4096) as Hbof by (apply Z.mod_pos_bound; lia).
  pose proof (lookup_lt_Some _ _ _ Hi) as Hbi.
  assert (fpos = 4096 * (fpos / 4096) + fpos mod 4096) as Hfp by (apply Z.div_mod; lia).
  assert (0 <= fpos / 4096) as Hq by zdm.
  set (k' := room blocks (fpos + chunk) (Z.of_nat (length buf) - (done + chunk))).
  assert (k = chunk + k') as Hk by (unfold k, k', room, chunk; lia).
  assert (0 <= k') as Hk' by (unfold k', room, chunk; lia).
  set (data1 := <[blk := _]> data).
  destruct (Z.eq_dec (done + chunk) (Z.of_nat (length buf))) as [E|Hne].
  - assert (k' = 0) as E' by (unfold k', room; lia). rewrite write_loop_end by lia. exists data1.
    destruct (wrote_chunk blocks buf done fpos chunk 0 data data1 blk) as [Hb1 Hw]; try done; try lia.
    rewrite Hk, E', Z.add_0_r in *. split; [done|]. apply Hw. by apply wrote_nothing.
  - assert (chunk = 4096 - fpos mod 4096) as E by (unfold chunk in *; lia).
    assert (Forall (is_block data1) blocks) as Hb1
      by (apply (wrote_chunk blocks buf done fpos chunk 0 data data blk); (done || lia)).
    destruct (IH (done + chunk) (fpos + chunk) data1 Hb1) as (data' & E1 & Hw); [lia|lia| |].
    { replace ((fpos + chunk) / 4096) with (fpos / 4096 + 1); [lia|].
      replace (fpos + chunk) with ((fpos / 4096 + 1) * 4096) by lia. by rewrite Z.div_mul. }
    exists data'. fold k' in E1, Hw. rewrite E1, Hk, Z.add_assoc. split; [done|].
    by apply (wrote_chunk blocks buf done fpos chunk k' data data' blk); (done || lia).
Qed.

(** ** Growing a file *)

Lemma ramfs_zero_page_length : length zero_page = 4096%nat.
Proof. apply length_replicate. Qed.

#[local] Opaque zero_page.

Section Grow.
Context {A : Type} `{FrameAllocatorLaws A}.

Definition missing (need : Z) (blocks : list Z) : nat := Z.to_nat (Z.min need 256 - Z.of_nat (length blocks)).

Record provisioned (a : A) (blocks news : list Z) (data : gmap Z (list Z)) (a' : A) (data' : gmap Z (list Z)) : Prop := {
  pv_ok : fa_ok a';
  pv_nodup : NoDup news;
  pv_from : forall b, b ∈ news -> b ∈ fa_free a;
  pv_free : fa_free a' = fa_free a ∖ list_to_set news;
  pv_zero : forall b, b ∈ news -> data' !! b = Some (zero_page);
  pv_other : forall b, b ∉ news -> data' !! b = data !! b
}.

Lemma provision_spec fuel need blocks data a :
  fa_ok a -> (missing need blocks <= size (fa_free a))%nat -> (missing need blocks <= fuel)%nat ->
  exists news data' a', provision fuel need blocks data a = Done (blocks ++ news, data', a') /\
    length news = missing need blocks /\ provisioned a blocks news data a' data'.
Proof.
  revert blocks data a. induction fuel as [|fuel IH]; intros blocks data a Ha Hfree Hfuel.
  - exists [], data, a. rewrite app_nil_r. split_and!; [done|simpl; lia|].
    constructor; [done|constructor|by intros ? ?%not_elem_of_nil|set_solver|by intros ? ?%not_elem_of_nil|done].
  - cbn [provision]. unfold RAMFS_MAX_BLOCKS. destruct (_ && _) eqn:Hc.
    2: { apply andb_false_iff in Hc. exists [], data, a. rewrite app_nil_r. split_and!; [done|unfold missing; simpl; lia|].
         constructor; [done|constructor|by intros ? ?%not_elem_of_nil|set_solver|by intros ? ?%not_elem_of_nil|done]. }
    apply andb_true_iff in Hc as [Hc1 Hc2].
    assert (missing need blocks = S (missing need (blocks ++ [0]))) as Em by (unfold missing; rewrite length_app; simpl; lia).
    assert (forall x, missing need (blocks ++ [x]) = missing need (blocks ++ [0])) as Ex
      by (intros x; unfold missing; by rewrite !length_app).
    unfold alloc_frame. destruct (fa_alloc_frame a) as [[f a1]|] eqn:Hal.
    2: { pose proof (fa_alloc_None _ Ha Hal) as Hempty. rewrite Hempty in Hfree. rewrite size_empty in Hfree. lia. }
    destruct (fa_alloc_Some _ _ _ Ha Hal) as (Ha1 & Hf & Hfr & _ & _). run.
    pose proof (size_remove _ _ Hf) as Hsz. rewrite <- Hfr in Hsz.
    destruct (IH (blocks ++ [f]) (<[f := zero_page]> data) a1 Ha1) as (news & data' & a' & E & Hl & [P1 P2 P3 P4 P5 P6]);
      [rewrite Ex; lia|rewrite Ex; lia|].
    assert (f ∉ news) as Hfn by (intros Hin; apply P3 in Hin; rewrite Hfr in Hin; set_solver).
    exists (f :: news), data', a'. rewrite E, <- app_assoc. split_and!; [done|simpl; rewrite Hl, Ex, Em; done|].
    constructor.
    + done.
    + by constructor.
    + intros b [->|Hb]%elem_of_cons; [done|]. apply P3 in Hb. rewrite Hfr in Hb. set_solver.
    + rewrite P4, Hfr. cbn [list_to_set]. set_solver.
    + intros b [->|Hb]%elem_of_cons; [|by apply P5]. rewrite P6 by done. by rewrite lookup_insert_eq.
    + intros b [Hb1 Hb2]%not_elem_of_cons. rewrite P6 by done. by rewrite lookup_insert_ne.
Qed.

(** A file whose blocks are its own. *)
Record file_ok (data : gmap Z (list Z)) (ino : RamfsInode) (a : A) : Prop := {
  fo_blocks : Forall (is_block data) (ri_blocks ino);
  fo_nodup : NoDup (ri_blocks ino);
  fo_used : forall b, b ∈ ri_blocks ino -> b ∉ fa_free a;
  fo_count : (length (ri_blocks ino) <= 256)%nat
}.

Lemma provisioned_file data ino a news a' data' :
  file_ok data ino a -> (length (ri_blocks ino ++ news) <= 256)%nat -> provisioned a (ri_blocks ino) news data a' data' ->
  block_bytes data' (ri_blocks ino ++ news) = block_bytes data (ri_blocks ino) ++ concat (replicate (length news) zero_page) /\
  Forall (is_block data') (ri_blocks ino ++ news) /\ NoDup (ri_blocks ino ++ news) /\
  (forall b, b ∈ ri_blocks ino ++ news -> b ∉ fa_free a').
Proof.
  intros [Hb Hnd Hu Hc] Hl [P1 P2 P3 P4 P5 P6].
  assert (forall b, b ∈ ri_blocks ino -> b ∉ news) as Hdisj by (intros b Hb1 Hb2; by apply (Hu b Hb1), P3).
  split_and!.
  - rewrite block_bytes_app. f_equal; [apply block_bytes_ext; intros b Hin; by apply P6, Hdisj|].
    clear -P5. unfold block_bytes. induction news as [|n news IH]; [done|]. cbn [fmap list_fmap concat length replicate].
    rewrite P5 by left. cbn [default from_option id]. f_equal. apply IH. intros b Hin. apply P5. by right.
  - apply Forall_app. split.
    + rewrite Forall_forall in *. intros b Hin. destruct (Hb b Hin) as (p & Hp & Hlp). exists p. split; [|done].
      rewrite P6 by (by apply Hdisj). done.
    + apply Forall_forall. intros b Hin. exists (zero_page). split; [by apply P5|apply ramfs_zero_page_length].
  - apply NoDup_app. split_and!; [done|done|done].
  - intros b Hin. rewrite P4. apply elem_of_app in Hin as [Hin|Hin]; [specialize (Hu b Hin); set_solver|set_solver].
Qed.

(** The blocks a file needs to reach [end_]. *)
Definition blocks_for (end_ : Z) : Z := end_ / 4096 + (if end_ mod 4096 =? 0 then 0 else 1).

Lemma blocks_for_spec end_ : 0 <= end_ -> end_ <= 4096 * blocks_for end_ < end_ + 4096.
Proof. intros He. unfold blocks_for. destruct (end_ mod 4096 =? 0) eqn:E; zdm. Qed.

(** The result of a write: the blocks grow by [news], the bytes that fit are written. *)
Lemma ramfs_write_spec data ino a buf offset :
  let len := Z.of_nat (length buf) in let end_ := offset + len in
  fa_ok a -> file_ok data ino a -> 0 <= offset -> end_ < 2 ^ 64 ->
  (missing (blocks_for end_) (ri_blocks ino) <= size (fa_free a))%nat ->
  exists news data' a', let blocks' := ri_blocks ino ++ news in let n := room blocks' offset len in
    let ino' := {| ri_vtype := ri_vtype ino; ri_size := Z.max (ri_size ino) end_; ri_blocks := blocks';
                   ri_children_phys := ri_children_phys ino; ri_children := ri_children ino |} in
    ramfs_write data ino a buf offset = Done (n, data', ino', a') /\
    length news = missing (blocks_for end_) (ri_blocks ino) /\ fa_ok a' /\ file_ok data' ino' a' /\
    block_bytes data' blocks' =
      splice (block_bytes data (ri_blocks ino) ++ concat (replicate (length news) zero_page)) (Z.to_nat offset) (sub_bytes buf 0 n) /\
    (forall b, b ∈ news -> b ∈ fa_free a) /\ (forall b, b ∈ fa_free a' -> b ∈ fa_free a) /\
    (forall b, b ∉ blocks' -> data' !! b = data !! b).
Proof.
  intros len end_ Ha Hf Ho He Hfree. pose proof (fo_count _ _ _ Hf) as Hcnt.
  unfold ramfs_write. assert (wrap64 (offset + Z.of_nat (length buf)) = end_) as -> by (apply wrap64_small; unfold is_u64, end_, len in *; lia).
  unfold RAMFS_BLOCK_SIZE. fold (blocks_for end_).
  destruct (provision_spec (Z.to_nat RAMFS_MAX_BLOCKS) (blocks_for end_) (ri_blocks ino) data a Ha Hfree)
    as (news & data1 & a' & -> & Hl & Hpv); [unfold missing, RAMFS_MAX_BLOCKS; lia|]. run.
  assert (length (ri_blocks ino ++ news) <= 256)%nat as Hl256 by (rewrite length_app, Hl; unfold missing; lia).
  destruct (provisioned_file data ino a news a' data1 Hf Hl256 Hpv) as (Hbytes & Hb & Hnd & Hu).
  destruct (write_loop_spec (ri_blocks ino ++ news) buf (S (length (ri_blocks ino ++ news))) 0 offset data1 Hb Hnd Ho)
    as (data' & -> & Hw1 & Hw2 & Hw3); [lia|assert (0 <= offset / 4096) by zdm; lia|].
  exists news, data', a'. cbv zeta. rewrite Z.sub_0_r, Z.add_0_l in *. fold len in Hw1. fold len end_. split_and!.
  - do 3 f_equal. f_equal. destruct (ri_size ino <? end_) eqn:E; lia.
  - done.
  - apply Hpv.
  - by constructor.
  - by rewrite Hw1, Hbytes.
  - apply Hpv.
  - rewrite (pv_free _ _ _ _ _ _ Hpv). set_solver.
  - intros b Hn. rewrite Hw3 by done. apply (pv_other _ _ _ _ _ _ Hpv). set_solver.
Qed.

(** ** Claims about files *)

Lemma room_all blocks offset len :
  0 <= len -> offset + len <= 4096 * Z.of_nat (length blocks) -> room blocks offset len = len.
Proof. intros. unfold room. lia. Qed.

Lemma grown_length end_ (blocks news : list Z) :
  0 <= end_ <= 2 ^ 20 -> (length blocks <= 256)%nat -> length news = missing (blocks_for end_) blocks ->
  end_ <= 4096 * Z.of_nat (length (blocks ++ news)).
Proof.
  intros He Hb Hn. rewrite length_app, Hn. unfold missing. pose proof (blocks_for_spec end_ ltac:(lia)). lia.
Qed.

Lemma zeros_length n : length (concat (replicate n zero_page)) = (4096 * n)%nat.
Proof. induction n as [|k IH]; [done|]. cbn [replicate concat]. rewrite length_app, IH, ramfs_zero_page_length. lia. Qed.

(** A file whose blocks were not touched. *)
Lemma file_frame data data' a a' other l o :
  file_ok data other a -> (forall b, b ∈ ri_blocks other -> data' !! b = data !! b) ->
  (forall b, b ∈ fa_free a' -> b ∈ fa_free a) -> 0 <= o -> 0 <= l ->
  file_ok data' other a' /\ ramfs_read data' other l o = ramfs_read data other l o.
Proof.
  intros [G1 G2 G3 G4] Hsame Hfree Ho Hl.
  assert (Forall (is_block data') (ri_blocks other)) as G1'.
  { rewrite Forall_forall in *. intros b Hb. destruct (G1 b Hb) as (p & Hp & Hlp). exists p. by rewrite Hsame. }
  split; [constructor; try done; intros b Hb Hin; by apply (G3 b Hb), Hfree|].
  rewrite !ramfs_read_spec by done. by rewrite (block_bytes_ext data data' (ri_blocks other)).
Qed.

(** A write that fits in 1 MiB: all of it is stored. *)
Lemma ramfs_write_all data ino a buf offset :
  let len := Z.of_nat (length buf) in let end_ := offset + len in
  fa_ok a -> file_ok data ino a -> 0 <= offset -> end_ <= 2 ^ 20 ->
  (missing (blocks_for end_) (ri_blocks ino) <= size (fa_free a))%nat ->
  exists news data' a', let blocks' := ri_blocks ino ++ news in
    let ino' := {| ri_vtype := ri_vtype ino; ri_size := Z.max (ri_size ino) end_; ri_blocks := blocks';
                   ri_children_phys := ri_children_phys ino; ri_children := ri_children ino |} in
    ramfs_write data ino a buf offset = Done (len, data', ino', a') /\
    ramfs_read data' ino' len offset = buf /\ fa_ok a' /\ file_ok data' ino' a' /\
    (forall i, (i < Z.to_nat offset \/ Z.to_nat end_ <= i)%nat -> (i < 4096 * length (ri_blocks ino))%nat ->
       block_bytes data' blocks' !! i = block_bytes data (ri_blocks ino) !! i) /\
    (forall b, b ∈ news -> b ∈ fa_free a) /\ (forall b, b ∈ fa_free a' -> b ∈ fa_free a) /\
    (forall b, b ∉ blocks' -> data' !! b = data !! b).
Proof.
  intros len end_ Ha Hf Ho He Hfree.
  destruct (ramfs_write_spec data ino a buf offset Ha Hf Ho ltac:(unfold end_, len in *; lia) Hfree)
    as (news & data' & a' & E & Hl & Ha' & Hf' & Hbytes & Hnews & Hfr & Hoth). fold len end_ in E, Hl, Hf', Hbytes.
  set (blocks' := ri_blocks ino ++ news) in *.
  pose proof (grown_length end_ _ _ ltac:(unfold end_, len in *; lia) (fo_count _ _ _ Hf) Hl) as Hgrown. fold blocks' in Hgrown.
  assert (room blocks' offset len = len) as Hroom by (apply room_all; unfold end_, len in *; lia).
  rewrite Hroom in *. assert (sub_bytes buf 0 len = buf) as Hsub by (unfold sub_bytes; rewrite drop_0; apply take_ge; unfold len; lia).
  rewrite Hsub in Hbytes. pose proof (fo_blocks _ _ _ Hf') as Hb'. cbn [ri_blocks] in Hb'.
  pose proof (block_bytes_length data' blocks' Hb') as Hlen'.
  set (old := block_bytes data (ri_blocks ino) ++ concat (replicate (length news) zero_page)) in *.
  assert (length old = (4096 * length blocks')%nat) as Hold.
  { unfold old. rewrite length_app, zeros_length, (block_bytes_length data _ (fo_blocks _ _ _ Hf)). unfold blocks'.
    rewrite length_app. lia. }
  exists news, data', a'. split; [exact E|]. split_and!; try done.
  - rewrite ramfs_read_spec; [|done|done|unfold len; lia]. cbn [ri_size ri_blocks]. fold len end_ blocks'. rewrite Hbytes.
    replace (Z.to_nat (Z.min len (Z.max (ri_size ino) end_ - offset))) with (length buf) by (unfold end_, len; lia).
    apply splice_take_drop. unfold end_, len in *. lia.
  - intros i Hi Hlt. fold blocks'. rewrite Hbytes, splice_lookup; [|unfold end_, len in *; lia..].
    unfold old. apply lookup_app_l. by rewrite (block_bytes_length data _ (fo_blocks _ _ _ Hf)).
Qed.

(** C39: A write to a file that stays within 1 MiB and finds memory stores every byte:
    it returns the length, reading back that range gives the bytes written, every
    other byte that was in the file is unchanged, the size covers the write, and the
    contents of every file on other blocks is unchanged. *)
Theorem ramfs_write_read_roundtrip data ino a buf offset :
  let len := Z.of_nat (length buf) in let end_ := offset + len in
  fa_ok a -> file_ok data ino a -> 0 <= offset -> end_ <= 2 ^ 20 ->
  (missing (blocks_for end_) (ri_blocks ino) <= size (fa_free a))%nat ->
  exists data' ino' a', ramfs_write data ino a buf offset = Done (len, data', ino', a') /\
    ramfs_read data' ino' len offset = buf /\ fa_ok a' /\ file_ok data' ino' a' /\ ri_size ino' = Z.max (ri_size ino) end_ /\
    (forall i, (i < Z.to_nat offset \/ Z.to_nat end_ <= i)%nat -> (i < 4096 * length (ri_blocks ino))%nat ->
       block_bytes data' (ri_blocks ino') !! i = block_bytes data (ri_blocks ino) !! i) /\
    (forall other l o, file_ok data other a -> (forall b, b ∈ ri_blocks other -> b ∉ ri_blocks ino) -> 0 <= o -> 0 <= l ->
       file_ok data' other a' /\ ramfs_read data' other l o = ramfs_read data other l o).
Proof.
  intros len end_ Ha Hf Ho He Hfree.
  destruct (ramfs_write_all data ino a buf offset Ha Hf Ho He Hfree)
    as (news & data' & a' & E & Hrd & Ha' & Hf' & Hbytes & Hnews & Hfr & Hoth). fold len end_ in E, Hrd, Hf'.
  exists data'. eexists. exists a'. split; [exact E|]. split_and!; try done.
  intros other l o Hfo Hd Ho' Hl'. apply (file_frame data data' a a'); try done. intros b Hb. apply Hoth.
  intros [Hin|Hin]%elem_of_app; [by apply (Hd b Hb)|]. apply (fo_used _ _ _ Hfo b Hb). by apply Hnews.
Qed.

(** A write past 1 MiB stores only what fits but records the full size. *)
Lemma ramfs_size_overstated data ino a buf offset :
  let end_ := offset + Z.of_nat (length buf) in
  fa_ok a -> file_ok data ino a -> 0 <= offset -> 2 ^ 20 < end_ < 2 ^ 64 ->
  (missing (blocks_for end_) (ri_blocks ino) <= size (fa_free a))%nat ->
  exists n data' ino' a', ramfs_write data ino a buf offset = Done (n, data', ino', a') /\
    n = Z.max 0 (2 ^ 20 - offset) /\ end_ <= ri_size ino' /\ ramfs_read data' ino' 4096 (2 ^ 20) = [].
Proof.
  intros end_ Ha Hf Ho He Hfree.
  destruct (ramfs_write_spec data ino a buf offset Ha Hf Ho ltac:(lia) Hfree)
    as (news & data' & a' & E & Hl & Ha' & Hf' & Hbytes & _). cbv zeta in *.
  set (blocks' := ri_blocks ino ++ news) in *. pose proof (fo_count _ _ _ Hf) as Hc.
  assert (length blocks' = 256%nat) as Hl256.
  { unfold blocks'. rewrite length_app, Hl. unfold missing. pose proof (blocks_for_spec end_ ltac:(lia)). fold end_. lia. }
  eexists _, data', _, a'. split; [exact E|]. cbn [ri_size]. fold end_. split_and!; [unfold room; lia|lia|].
  rewrite ramfs_read_spec; [|apply Hf'|lia|lia]. cbn [ri_size ri_blocks]. rewrite drop_ge; [apply take_nil|].
  rewrite block_bytes_length by apply Hf'. rewrite Hl256. lia.
Qed.

(** Truncation keeps the blocks: after cutting a file to nothing and writing at
    [offset], the bytes in front of [offset] are the old ones, not zeroes. *)
Lemma truncate_exposes_old_bytes data ino a buf offset :
  let end_ := offset + Z.of_nat (length buf) in
  fa_ok a -> file_ok data ino a -> 0 < offset <= 4096 * Z.of_nat (length (ri_blocks ino)) -> buf <> [] -> end_ <= 2 ^ 20 ->
  (missing (blocks_for end_) (ri_blocks ino) <= size (fa_free a))%nat ->
  exists data' ino' a', ramfs_write data (ramfs_truncate ino 0) a buf offset = Done (Z.of_nat (length buf), data', ino', a') /\
    ramfs_read data' ino' offset 0 = take (Z.to_nat offset) (block_bytes data (ri_blocks ino)).
Proof.
  intros end_ Ha Hf Ho Hne He Hfree.
  assert (file_ok data (ramfs_truncate ino 0) a) as Hf0 by (destruct Hf; by constructor).
  destruct (ramfs_write_spec data (ramfs_truncate ino 0) a buf offset Ha Hf0 ltac:(lia) ltac:(lia) Hfree)
    as (news & data' & a' & E & Hl & Ha' & Hf' & Hbytes & _). cbv zeta in *. cbn [ramfs_truncate ri_blocks ri_size] in *.
  pose proof (grown_length end_ _ _ ltac:(lia) (fo_count _ _ _ Hf) Hl) as Hgrown.
  rewrite room_all in * by lia. eexists data', _, a'. split; [exact E|].
  rewrite ramfs_read_spec; [|apply Hf'|lia|lia]. cbn [ri_size ri_blocks]. rewrite Hbytes.
  assert (0 < Z.of_nat (length buf)) by (destruct buf; [done|simpl; lia]).
  replace (Z.to_nat (Z.min offset (Z.max 0 (offset + Z.of_nat (length buf)) - 0))) with (Z.to_nat offset) by lia.
  rewrite drop_0. unfold splice. pose proof (block_bytes_length _ _ (fo_blocks _ _ _ Hf)) as Hlen.
  rewrite take_app_le by (rewrite length_take, length_app; lia). rewrite take_take, Nat.min_id.
  apply take_app_le. lia.
Qed.

End Grow.

(** A write across the end of the first block of an empty file. *)
Lemma ramfs_write_read_roundtrip_witness :
  let ino := {| ri_vtype := VRegular; ri_size := 0; ri_blocks := []; ri_children_phys := 0; ri_children := [] |} in
  let a := {| bump_n := 10; bump_next := 1 |} in
  exists data' ino' a', ramfs_write ∅ ino a [7; 8; 9] 4095 = Done (3, data', ino', a') /\ ramfs_read data' ino' 3 4095 = [7; 8; 9].
Proof.
  intros ino a.
  destruct (ramfs_write_read_roundtrip ∅ ino a [7; 8; 9] 4095) as (data' & ino' & a' & E & R & _).
  - split; simpl; lia.
  - constructor; cbn [ino ri_blocks]; [constructor|constructor|by intros ? ?%not_elem_of_nil|simpl; lia].
  - lia.
  - simpl. lia.
  - apply Nat.leb_le. vm_compute. reflexivity.
  - exists data', ino', a'. split; [exact E|exact R].
Defined.
