(* ===== verification/Vfs.v ===== *)
(** * Directories and paths

    The directory half of crates/fs/src/ramfs.rs, path lookup (dentry.rs), the part
    of [sys_open] that finds or creates a file (syscall.rs), and the helpers with
    which the initrd unpacker builds directories (cpio.rs).  A string is the list of
    its bytes. *)

From Stdlib Require Import ZArith Lia.
From stdpp Require Import prelude gmap list.
From S2P Require Import Prelude Frames Ramfs.

Local Open Scope Z_scope.

Definition SLASH : Z := 47.

(** [str::split('/')]: never empty; two separators in a row give an empty part. *)
Fixpoint split_slash (s : list Z) : list (list Z) :=
  match s with
  | [] => [[]]
  | c :: s' =>
      if c =? SLASH then [] :: split_slash s'
      else match split_slash s' with
           | p :: ps => (c :: p) :: ps
           | [] => [[c]]
           end
  end.

(** [trim_start_matches('/')]. *)
Fixpoint trim_slashes (s : list Z) : list Z :=
  match s with
  | c :: s' => if c =? SLASH then trim_slashes s' else s
  | [] => []
  end.

Definition starts_with_slash (s : list Z) : bool :=
  match s with c :: _ => c =? SLASH | [] => false end.

(** [rfind('/')]. *)
Fixpoint rfind_slash (s : list Z) : option nat :=
  match s with
  | [] => None
  | c :: s' =>
      match rfind_slash s' with
      | Some i => Some (S i)
      | None => if c =? SLASH then Some O else None
      end
  end.

Definition split_parent (path : list Z) : option (list Z * list Z) :=
  if negb (starts_with_slash path) || (default 0 (last path) =? SLASH) then None else
  match rfind_slash path with
  | None => None
  | Some idx =>
      let base := drop (S idx) path in
      match base with
      | [] => None
      | _ => Some (match idx with O => [SLASH] | _ => take idx path end, base)
      end
  end.

Section Vfs.
Context {A : Type} `{FrameAllocator A}.

Record ramfs := {
  rf_vnodes : gmap Z FsVNode;
  rf_inodes : gmap Z RamfsInode;
  rf_data : gmap Z (list Z);
  rf_alloc : A;
  rf_next_ino : Z
}.

Definition set_inode (s : ramfs) (phys : Z) (i : RamfsInode) : ramfs :=
  {| rf_vnodes := rf_vnodes s; rf_inodes := <[phys := i]> (rf_inodes s); rf_data := rf_data s;
     rf_alloc := rf_alloc s; rf_next_ino := rf_next_ino s |}.

Definition set_alloc (s : ramfs) (a : A) : ramfs :=
  {| rf_vnodes := rf_vnodes s; rf_inodes := rf_inodes s; rf_data := rf_data s; rf_alloc := a; rf_next_ino := rf_next_ino s |}.

Definition alloc_inode (s : ramfs) (vtype : VNodeType) : outcome (Z * ramfs) :=
  '(frame, a) ← alloc_frame (rf_alloc s);
  Done (frame, set_inode (set_alloc s a) frame
    {| ri_vtype := vtype; ri_size := 0; ri_blocks := []; ri_children_phys := 0; ri_children := [] |}).

Definition alloc_vnode (s : ramfs) (ops : FsOps) (vtype : VNodeType) (inode_phys : Z) : outcome (Z * ramfs) :=
  '(frame, a) ← alloc_frame (rf_alloc s);
  let vn := wrap64 (FS_DMAP + frame) in
  Done (vn, {| rf_vnodes := <[vn := {| fv_vtype := vtype; fv_ino := rf_next_ino s; fv_size := 0;
                                       fv_ops := ops; fv_fs_data := inode_phys |}]> (rf_vnodes s);
               rf_inodes := rf_inodes s; rf_data := rf_data s; rf_alloc := a;
               rf_next_ino := wrap64 (rf_next_ino s + 1) |}).

Definition inode_of (s : ramfs) (vn : FsVNode) : outcome RamfsInode := expect (rf_inodes s !! fv_fs_data vn).

Definition ramfs_dir_lookup (s : ramfs) (vn : FsVNode) (name : list Z) : outcome (option Z) :=
  ino ← inode_of s vn;
  if (ri_children_phys ino =? 0) || (ri_child_count ino =? 0) then Done None else
  Done ((fun '(_, c) => rc_vnode_ptr c) <$> list_find (fun c => rc_name c = name) (ri_children ino)).

(** [vn.ops.lookup]: only a directory has one. *)
(** [DirEntry]. *)
Record DirEntry := { de_ino : Z; de_vtype : VNodeType; de_name : list Z }.

(** The entries [ramfs_dir_readdir] fills in, at most [out_len] from position [offset]. *)
Fixpoint readdir_loop (s : ramfs) (l : list RamfsChild) : outcome (list DirEntry) :=
  match l with
  | [] => Done []
  | c :: l' =>
      child_vn ← expect (rf_vnodes s !! rc_vnode_ptr c);
      es ← readdir_loop s l';
      Done ({| de_ino := fv_ino child_vn; de_vtype := fv_vtype child_vn; de_name := rc_name c |} :: es)
  end.

Definition ramfs_dir_readdir (s : ramfs) (vn : FsVNode) (offset : Z) (out_len : nat) : outcome (list DirEntry) :=
  ino ← inode_of s vn;
  if ri_children_phys ino =? 0 then Done [] else
  readdir_loop s (take out_len (drop (Z.to_nat offset) (ri_children ino))).

Definition vnode_lookup (s : ramfs) (vn : Z) (name : list Z) : outcome (option Z) :=
  n ← expect (rf_vnodes s !! vn);
  match fv_ops n with
  | RAMFS_DIR_OPS => ramfs_dir_lookup s n name
  | RAMFS_FILE_OPS | DEV_OPS => Done None
  end.

Definition ramfs_dir_add_child (s : ramfs) (dir_vn : Z) (name : list Z) (child : Z) : outcome ramfs :=
  if (dir_vn =? 0) || (child =? 0) then Done s else
  n ← expect (rf_vnodes s !! dir_vn);
  ino ← inode_of s n;
  if RAMFS_MAX_CHILDREN <=? ri_child_count ino then Done s else
  '(phys, a) ← (if ri_children_phys ino =? 0 then alloc_frame (rf_alloc s) else Done (ri_children_phys ino, rf_alloc s));
  Done (set_inode (set_alloc s a) (fv_fs_data n)
    {| ri_vtype := ri_vtype ino; ri_size := ri_size ino; ri_blocks := ri_blocks ino; ri_children_phys := phys;
       ri_children := ri_children ino ++ [{| rc_vnode_ptr := child; rc_name := take (Z.to_nat RAMFS_NAME_LEN) name |}] |}).

Definition ramfs_create_child (s : ramfs) (dir_vn : Z) (name : list Z) (vtype : VNodeType) : outcome (option Z * ramfs) :=
  if dir_vn =? 0 then Done (None, s) else
  match (match vtype with VRegular => Some RAMFS_FILE_OPS | VDirectory => Some RAMFS_DIR_OPS | _ => None end) with
  | None => Done (None, s)
  | Some ops =>
      '(phys, s1) ← alloc_inode s vtype;
      '(child, s2) ← alloc_vnode s1 ops vtype phys;
      s3 ← ramfs_dir_add_child s2 dir_vn name child;
      Done (Some child, s3)
  end.

Definition ramfs_create_root (s : ramfs) : outcome (Z * ramfs) :=
  '(phys, s1) ← alloc_inode s VDirectory;
  alloc_vnode s1 RAMFS_DIR_OPS VDirectory phys.

(** [vn.ops.create]. *)
Definition vnode_create (s : ramfs) (vn : Z) (name : list Z) (vtype : VNodeType) : outcome (option Z * ramfs) :=
  n ← expect (rf_vnodes s !! vn);
  match fv_ops n with
  | RAMFS_DIR_OPS => ramfs_create_child s vn name vtype
  | RAMFS_FILE_OPS | DEV_OPS => Done (None, s)
  end.

(** The loop of [path_lookup_from]. *)
Fixpoint walk_path (s : ramfs) (current : Z) (parts : list (list Z)) : outcome (option Z) :=
  match parts with
  | [] => Done (Some current)
  | [] :: parts' => walk_path s current parts'
  | part :: parts' =>
      o ← vnode_lookup s current part;
      match o with
      | None => Done None
      | Some next => walk_path s next parts'
      end
  end.

(** [path_lookup_from] with the root vnode of the root dentry. *)
Definition path_lookup (s : ramfs) (root : Z) (path : list Z) : outcome (option Z) :=
  if negb (starts_with_slash path) then Done None else
  if root =? 0 then Done None else
  match trim_slashes path with
  | [] => Done (Some root)
  | rest => walk_path s root (split_slash rest)
  end.

Definition lookup_or_create (s : ramfs) (dir : Z) (name : list Z) (vtype : VNodeType) : outcome (option Z * ramfs) :=
  if dir =? 0 then Done (None, s) else
  o ← vnode_lookup s dir name;
  match o with
  | Some ex => Done (Some ex, s)
  | None => ramfs_create_child s dir name vtype
  end.

(** [ensure_path]: directories down to the last part, which is a regular file. *)
Fixpoint ensure_parts (s : ramfs) (dir : Z) (parts : list (list Z)) : outcome (Z * ramfs) :=
  match parts with
  | [] => Done (0, s)
  | [] :: parts' => ensure_parts s dir parts'
  | [part] =>
      '(o, s1) ← lookup_or_create s dir part VRegular;
      Done (default 0 o, s1)
  | part :: parts' =>
      '(o, s1) ← lookup_or_create s dir part VDirectory;
      match o with
      | None => Done (0, s1)
      | Some v => ensure_parts s1 v parts'
      end
  end.

Definition ensure_path (s : ramfs) (root : Z) (path : list Z) : outcome (Z * ramfs) :=
  ensure_parts s root (split_slash path).

Fixpoint ensure_dir_parts (s : ramfs) (cur : Z) (parts : list (list Z)) : outcome (Z * ramfs) :=
  match parts with
  | [] => Done (cur, s)
  | [] :: parts' => ensure_dir_parts s cur parts'
  | part :: parts' =>
      '(o, s1) ← lookup_or_create s cur part VDirectory;
      match o with
      | None => Done (0, s1)
      | Some v => ensure_dir_parts s1 v parts'
      end
  end.

Definition ensure_dir (s : ramfs) (root : Z) (path : list Z) : outcome (Z * ramfs) :=
  ensure_dir_parts s root (split_slash path).

(** [vn.ops.write] and [vn.ops.truncate] of a regular file; both also set the size
    of the vnode. *)
Definition set_vnode_size (s : ramfs) (vn : Z) (size : Z) : gmap Z FsVNode :=
  alter (fun n => {| fv_vtype := fv_vtype n; fv_ino := fv_ino n; fv_size := size; fv_ops := fv_ops n; fv_fs_data := fv_fs_data n |})
    vn (rf_vnodes s).

Definition ramfs_write_file (s : ramfs) (vn : Z) (bytes : list Z) : outcome ramfs :=
  if vn =? 0 then Done s else
  n ← expect (rf_vnodes s !! vn);
  ino ← inode_of s n;
  '(_, data, ino', a) ← ramfs_write (rf_data s) ino (rf_alloc s) bytes 0;
  Done {| rf_vnodes := if ri_size ino <? ri_size ino' then set_vnode_size s vn (ri_size ino') else rf_vnodes s;
          rf_inodes := <[fv_fs_data n := ino']> (rf_inodes s); rf_data := data; rf_alloc := a; rf_next_ino := rf_next_ino s |}.

Definition vnode_truncate (s : ramfs) (vn : Z) (new_size : Z) : outcome ramfs :=
  n ← expect (rf_vnodes s !! vn);
  match fv_ops n with
  | RAMFS_FILE_OPS =>
      ino ← inode_of s n;
      Done {| rf_vnodes := set_vnode_size s vn new_size; rf_inodes := <[fv_fs_data n := ramfs_truncate ino new_size]> (rf_inodes s);
              rf_data := rf_data s; rf_alloc := rf_alloc s; rf_next_ino := rf_next_ino s |}
  | RAMFS_DIR_OPS | DEV_OPS => Done s
  end.

(** The file [sys_open] finds or creates, or its error. *)
Definition open_vnode (s : ramfs) (root : Z) (path : list Z) (creat trunc : bool) : outcome ((Z + Z) * ramfs) :=
  o ← path_lookup s root path;
  match o with
  | Some v => if trunc then s1 ← vnode_truncate s v 0; Done (inr v, s1) else Done (inr v, s)
  | None =>
      if negb creat then Done (inl (-2), s) else
      match split_parent path with
      | None => Done (inl (-2), s)
      | Some (parent, base) =>
          d ← path_lookup s root parent;
          match d with
          | None => Done (inl (-2), s)
          | Some dir =>
              '(v, s1) ← vnode_create s dir base VRegular;
              match v with None => Done (inl (-2), s1) | Some v => Done (inr v, s1) end
          end
      end
  end.

End Vfs.

Arguments ramfs A : clear implicits.

(** ** Creating and finding names *)

Section Names.
Context {A : Type} `{FrameAllocatorLaws A}.

Notation fs := (ramfs A).

(** The frames of inodes and vnodes are in use, and every vnode of the RAM file
    system has an inode. *)
Record fs_ok (s : fs) : Prop := {
  fk_alloc : fa_ok (rf_alloc s);
  fk_inode : forall p, is_Some (rf_inodes s !! p) -> p ∉ fa_free (rf_alloc s);
  fk_vnode : forall v, is_Some (rf_vnodes s !! v) -> exists f, v = wrap64 (FS_DMAP + f) /\ 0 < f < 2 ^ 44 /\ f ∉ fa_free (rf_alloc s);
  fk_data : forall v n, rf_vnodes s !! v = Some n -> fv_ops n <> DEV_OPS -> is_Some (rf_inodes s !! fv_fs_data n);
  fk_own : forall v n v' n', rf_vnodes s !! v = Some n -> rf_vnodes s !! v' = Some n' -> fv_ops n <> DEV_OPS ->
    fv_ops n' <> DEV_OPS -> fv_fs_data n = fv_fs_data n' -> v = v';
  fk_page : forall p i, rf_inodes s !! p = Some i -> ri_children i <> [] -> ri_children_phys i <> 0;
  fk_child : forall p i c, rf_inodes s !! p = Some i -> c ∈ ri_children i -> is_Some (rf_vnodes s !! rc_vnode_ptr c)
}.

(** The direct-map address determines the frame. *)
Lemma dmap_inj f g : 0 < f < 2 ^ 44 -> 0 < g < 2 ^ 44 -> wrap64 (FS_DMAP + f) = wrap64 (FS_DMAP + g) -> f = g.
Proof. intros Hf Hg. unfold FS_DMAP. rewrite !wrap64_small by (unfold is_u64; lia). lia. Qed.

Lemma dmap_nonnull f : 0 < f < 2 ^ 44 -> wrap64 (FS_DMAP + f) <> 0.
Proof. intros Hf. unfold FS_DMAP. rewrite wrap64_small by (unfold is_u64; lia). lia. Qed.

Lemma alloc_frame_spec (a : A) :
  fa_ok a -> fa_free a <> ∅ ->
  exists f a', alloc_frame a = Done (f, a') /\ fa_ok a' /\ f ∈ fa_free a /\ fa_free a' = fa_free a ∖ {[f]} /\ 0 < f < 2 ^ 44.
Proof.
  intros Ha Hne. unfold alloc_frame. destruct (fa_alloc_frame a) as [[f a']|] eqn:E.
  - destruct (fa_alloc_Some _ _ _ Ha E) as (? & ? & ? & ? & ?). exists f, a'. done.
  - by apply fa_alloc_None in E.
Qed.

Lemma size_nonempty (X : gset Z) n : (S n <= size X)%nat -> X <> ∅.
Proof. intros Hs ->. rewrite size_empty in Hs. lia. Qed.

Definition empty_inode (vtype : VNodeType) : RamfsInode :=
  {| ri_vtype := vtype; ri_size := 0; ri_blocks := []; ri_children_phys := 0; ri_children := [] |}.

(** A new node: an inode and a vnode in two fresh frames. *)
Lemma new_node_spec (s : fs) ops vtype :
  fs_ok s -> (2 <= size (fa_free (rf_alloc s)))%nat ->
  exists phys s1 v s2, alloc_inode s vtype = Done (phys, s1) /\ alloc_vnode s1 ops vtype phys = Done (v, s2) /\
    fs_ok s2 /\ v <> 0 /\ rf_vnodes s !! v = None /\ rf_inodes s !! phys = None /\
    rf_vnodes s2 = <[v := {| fv_vtype := vtype; fv_ino := rf_next_ino s; fv_size := 0; fv_ops := ops; fv_fs_data := phys |}]> (rf_vnodes s) /\
    rf_inodes s2 = <[phys := empty_inode vtype]> (rf_inodes s) /\ rf_data s2 = rf_data s /\
    (size (fa_free (rf_alloc s)) = 2 + size (fa_free (rf_alloc s2)))%nat /\
    (forall f, f ∈ fa_free (rf_alloc s2) -> f ∈ fa_free (rf_alloc s)).
Proof.
  intros Hs Hsz. pose proof (fk_alloc _ Hs) as Ha.
  destruct (alloc_frame_spec _ Ha (size_nonempty _ _ Hsz)) as (p & a1 & E1 & Ha1 & Hp & Hfr1 & Hpr).
  pose proof (size_remove _ _ Hp) as Hs1. rewrite <- Hfr1 in Hs1.
  destruct (alloc_frame_spec a1 Ha1 (size_nonempty (fa_free a1) 0 ltac:(lia))) as (f & a2 & E2 & Ha2 & Hf & Hfr2 & Hfr).
  pose proof (size_remove _ _ Hf) as Hs2. rewrite <- Hfr2 in Hs2.
  unfold alloc_inode. rewrite E1. run. eexists _, _, _, _. split; [reflexivity|].
  unfold alloc_vnode. cbn [set_inode set_alloc rf_alloc]. rewrite E2. run. split; [reflexivity|].
  cbn [set_inode set_alloc rf_vnodes rf_inodes rf_data rf_alloc rf_next_ino].
  assert (f ∈ fa_free (rf_alloc s) /\ f <> p) as [Hf0 Hfp] by (rewrite Hfr1 in Hf; set_solver).
  split_and!; try done.
  - constructor; cbn [set_inode set_alloc rf_vnodes rf_inodes rf_alloc].
    + done.
    + intros x Hx. rewrite Hfr2, Hfr1. destruct (decide (x = p)) as [->|]; [set_solver|].
      rewrite lookup_insert_ne in Hx by done. apply (fk_inode _ Hs) in Hx. set_solver.
    + intros x Hx. destruct (decide (x = wrap64 (FS_DMAP + f))) as [->|].
      * exists f. split_and!; [done|lia|lia|]. rewrite Hfr2. set_solver.
      * rewrite lookup_insert_ne in Hx by done. destruct (fk_vnode _ Hs x Hx) as (g & -> & Hg & Hng).
        exists g. split_and!; [done|lia|lia|]. rewrite Hfr2, Hfr1. set_solver.
    + intros x n Hx Hops. destruct (decide (fv_fs_data n = p)) as [->|]; [by rewrite lookup_insert_eq|].
      rewrite lookup_insert_ne by done. destruct (decide (x = wrap64 (FS_DMAP + f))) as [->|].
      * rewrite lookup_insert_eq in Hx. by injection Hx as <-.
      * rewrite lookup_insert_ne in Hx by done. by eapply fk_data.
    + assert (forall y n, rf_vnodes s !! y = Some n -> fv_ops n <> DEV_OPS -> fv_fs_data n <> p) as Hold.
      { intros y n Hy Hops E. apply (fk_inode _ Hs p); [|done]. rewrite <- E. by eapply fk_data. }
      intros x n x' n'. rewrite !lookup_insert_Some. intros [[<- <-]|[_ Hx]] [[<- <-]|[_ Hx']] Ho Ho' E; try done.
      * cbn in E. symmetry in E. by destruct (Hold x' n' Hx' Ho' E).
      * cbn in E. by destruct (Hold x n Hx Ho E).
      * by eapply (fk_own _ Hs x n x' n').
    + intros x i. rewrite lookup_insert_Some. intros [[<- <-]|[_ Hi]]; [done|by eapply fk_page].
    + intros x i c. rewrite lookup_insert_Some. intros [[<- <-]|[_ Hi]] Hc; [by apply not_elem_of_nil in Hc|].
      apply lookup_insert_is_Some'. right. by eapply (fk_child _ Hs).
  - by apply dmap_nonnull.
  - destruct (rf_vnodes s !! wrap64 (FS_DMAP + f)) as [n|] eqn:E; [|done]. exfalso.
    destruct (fk_vnode _ Hs _ ltac:(by exists n)) as (g & Hg & Hgr & Hng). apply dmap_inj in Hg; [|done..]. by subst.
  - destruct (rf_inodes s !! p) as [n|] eqn:E; [|done]. exfalso. by apply (fk_inode _ Hs p ltac:(by exists n)).
  - lia.
  - intros x. rewrite Hfr2, Hfr1. set_solver.
Qed.

(** The children of the directory [d]. *)
Definition children (s : fs) (d : Z) : list RamfsChild :=
  match rf_vnodes s !! d with
  | Some n => match rf_inodes s !! fv_fs_data n with Some i => ri_children i | None => [] end
  | None => []
  end.

Definition find_child (l : list RamfsChild) (name : list Z) : option Z :=
  (fun '(_, c) => rc_vnode_ptr c) <$> list_find (fun c => rc_name c = name) l.

Definition is_dir (s : fs) (d : Z) : Prop := fv_ops <$> rf_vnodes s !! d = Some RAMFS_DIR_OPS.

Lemma vnode_lookup_spec (s : fs) d name :
  fs_ok s -> is_dir s d -> vnode_lookup s d name = Done (find_child (children s d) name).
Proof.
  intros Hs Hd. unfold is_dir in Hd. destruct (rf_vnodes s !! d) as [n|] eqn:Hn; [|done]. injection Hd as Hops.
  unfold vnode_lookup, children. rewrite Hn. run. rewrite Hops.
  destruct (fk_data _ Hs d n Hn) as [i Hi]; [congruence|]. unfold ramfs_dir_lookup, inode_of. rewrite Hi. run.
  unfold ri_child_count, find_child. destruct (ri_children i) as [|c l] eqn:Hc.
  - cbn [length Z.of_nat Z.eqb]. by rewrite orb_true_r.
  - pose proof (fk_page _ Hs _ _ Hi ltac:(by rewrite Hc)) as Hp. rewrite (proj2 (Z.eqb_neq _ _)) by done.
    rewrite (proj2 (Z.eqb_neq _ _)) by (simpl; lia). done.
Qed.

(** Listing a directory from [offset] gives the names of its children in order. *)
Lemma readdir_names (s : fs) d n offset out_len :
  fs_ok s -> rf_vnodes s !! d = Some n -> fv_ops n = RAMFS_DIR_OPS ->
  exists es, ramfs_dir_readdir s n offset out_len = Done es /\
    de_name <$> es = rc_name <$> take out_len (drop (Z.to_nat offset) (children s d)).
Proof.
  intros Hs Hn Ho. destruct (fk_data _ Hs d n Hn ltac:(congruence)) as [i Hi]. unfold ramfs_dir_readdir, children, inode_of.
  rewrite Hn, Hi. run. destruct (Z.eqb_spec (ri_children_phys i) 0) as [E|E].
  - exists []. split; [done|]. destruct (decide (ri_children i = [])) as [->|Hne]; [by rewrite drop_nil, take_nil|].
    by destruct (fk_page _ Hs _ _ Hi Hne).
  - assert (Forall (fun c => is_Some (rf_vnodes s !! rc_vnode_ptr c)) (take out_len (drop (Z.to_nat offset) (ri_children i)))) as Hall.
    { apply Forall_take, Forall_drop, Forall_forall. intros c Hc. by eapply (fk_child _ Hs). }
    induction Hall as [|c l [m Hm] _ (es & E' & Hes)]; [by exists []|]. cbn [readdir_loop]. rewrite Hm. run. rewrite E'. run.
    eexists. split; [done|]. cbn. by rewrite Hes.
Qed.

(** Nothing but a directory finds anything. *)
Lemma vnode_lookup_other (s : fs) d name :
  is_Some (rf_vnodes s !! d) -> ~ is_dir s d -> vnode_lookup s d name = Done None.
Proof.
  intros [n Hn] Hd. unfold vnode_lookup, is_dir in *. rewrite Hn in *. run. destruct (fv_ops n) eqn:E; [done| |done].
  cbn in Hd. congruence.
Qed.

(** The contents of files stay: no block is written, inodes keep their blocks, new
    inodes have none. *)
Record fs_keep (s s' : fs) : Prop := {
  kp_data : rf_data s' = rf_data s;
  kp_free : forall f, f ∈ fa_free (rf_alloc s') -> f ∈ fa_free (rf_alloc s);
  kp_vnodes : forall v n, rf_vnodes s !! v = Some n -> rf_vnodes s' !! v = Some n;
  kp_inodes : forall p i, rf_inodes s !! p = Some i ->
    exists i', rf_inodes s' !! p = Some i' /\ ri_blocks i' = ri_blocks i /\ ri_size i' = ri_size i;
  kp_new : forall p i, rf_inodes s' !! p = Some i -> rf_inodes s !! p = None -> ri_blocks i = [] /\ ri_size i = 0;
  kp_fresh : forall v n, rf_vnodes s' !! v = Some n -> rf_vnodes s !! v = None -> rf_inodes s !! fv_fs_data n = None
}.

Lemma fs_keep_refl s : fs_keep s s.
Proof. constructor; try done; [by eauto|..]; intros p i; congruence. Qed.

Lemma fs_keep_trans s1 s2 s3 : fs_keep s1 s2 -> fs_keep s2 s3 -> fs_keep s1 s3.
Proof.
  intros [D1 F1 V1 I1 N1 R1] [D2 F2 V2 I2 N2 R2]. constructor; [congruence|by eauto|by eauto| | |].
  - intros p i Hi. destruct (I1 p i Hi) as (j & Hj & ? & ?). destruct (I2 p j Hj) as (k & Hk & ? & ?). exists k. split_and!; congruence.
  - intros p k Hk Hn. destruct (rf_inodes s2 !! p) as [j|] eqn:Hj; [|by eapply N2].
    destruct (N1 p j Hj Hn) as [? ?]. destruct (I2 p j Hj) as (k' & Hk' & ? & ?). split; congruence.
  - intros v n Hv Hn. destruct (rf_vnodes s2 !! v) as [m|] eqn:Hm; [rewrite (V2 v m Hm) in Hv; injection Hv as <-; by eapply R1|].
    destruct (rf_inodes s1 !! fv_fs_data n) as [i|] eqn:Hi; [|done]. destruct (I1 _ i Hi) as (j & Hj & _).
    by rewrite (R2 v n Hv Hm) in Hj.
Qed.

Record child_added (s s' : fs) (d : Z) (name : list Z) (v : Z) (vtype : VNodeType) : Prop := {
  ca_ok : fs_ok s';
  ca_fresh : rf_vnodes s !! v = None;
  ca_nonnull : v <> 0;
  ca_vnodes : exists n, rf_vnodes s' = <[v := n]> (rf_vnodes s) /\ fv_vtype n = vtype /\
    fv_ops n = (match vtype with VDirectory => RAMFS_DIR_OPS | _ => RAMFS_FILE_OPS end);
  ca_children : children s' d = children s d ++ [{| rc_vnode_ptr := v; rc_name := take 22 name |}];
  ca_empty : children s' v = [];
  ca_others : forall d', is_Some (rf_vnodes s !! d') -> d' <> d -> fv_ops <$> rf_vnodes s !! d' <> Some DEV_OPS ->
    children s' d' = children s d';
  ca_frames : (size (fa_free (rf_alloc s)) <= 3 + size (fa_free (rf_alloc s')))%nat;
  ca_keep : fs_keep s s'
}.

(** The children page: the one there is, or a fresh frame. *)
Lemma children_page_spec (s : fs) (i : RamfsInode) :
  fs_ok s -> fa_free (rf_alloc s) <> ∅ ->
  exists phys a, (if ri_children_phys i =? 0 then alloc_frame (rf_alloc s) else Done (ri_children_phys i, rf_alloc s)) = Done (phys, a) /\
    phys <> 0 /\ fa_ok a /\ (forall f, f ∈ fa_free a -> f ∈ fa_free (rf_alloc s)) /\
    (size (fa_free (rf_alloc s)) <= 1 + size (fa_free a))%nat.
Proof.
  intros Hs Hne. destruct (ri_children_phys i =? 0) eqn:E.
  - destruct (alloc_frame_spec _ (fk_alloc _ Hs) Hne) as (f & a & -> & Ha & Hf & Hfr & Hr). exists f, a.
    pose proof (size_remove _ _ Hf). rewrite <- Hfr in *. split_and!; [done|lia|done|rewrite Hfr; set_solver|lia].
  - exists (ri_children_phys i), (rf_alloc s). split_and!; [done|lia|apply Hs|done|lia].
Qed.

(** Appending to the children of [d] keeps the invariant. *)
Lemma add_child_ok (s : fs) d n i phys a c :
  fs_ok s -> rf_vnodes s !! d = Some n -> rf_inodes s !! fv_fs_data n = Some i -> phys <> 0 -> fa_ok a ->
  is_Some (rf_vnodes s !! rc_vnode_ptr c) -> (forall f, f ∈ fa_free a -> f ∈ fa_free (rf_alloc s)) ->
  fs_ok (set_inode (set_alloc s a) (fv_fs_data n)
    {| ri_vtype := ri_vtype i; ri_size := ri_size i; ri_blocks := ri_blocks i; ri_children_phys := phys; ri_children := ri_children i ++ [c] |}).
Proof.
  intros Hs Hn Hi Hp Ha Hc Hsub. constructor; cbn [set_inode set_alloc rf_vnodes rf_inodes rf_alloc].
  - done.
  - intros p Hx Hin. apply Hsub in Hin. revert Hin. apply (fk_inode _ Hs). destruct (decide (p = fv_fs_data n)) as [->|]; [by exists i|].
    by rewrite lookup_insert_ne in Hx.
  - intros v Hv. destruct (fk_vnode _ Hs v Hv) as (f & -> & Hf & Hnf). exists f. split_and!; [done|lia|lia|]. intros Hin. by apply Hnf, Hsub.
  - intros v m Hv Ho. destruct (decide (fv_fs_data m = fv_fs_data n)) as [->|]; [by rewrite lookup_insert_eq|].
    rewrite lookup_insert_ne by done. by eapply fk_data.
  - apply Hs.
  - intros p j. rewrite lookup_insert_Some. intros [[<- <-]|[_ Hj]]; [done|by eapply fk_page].
  - intros p j c'. rewrite lookup_insert_Some. intros [[<- <-]|[_ Hj]]; [|by eapply (fk_child _ Hs)]. cbn [ri_children].
    intros [Hc'|Hc']%elem_of_app; [by eapply (fk_child _ Hs)|]. by apply list_elem_of_singleton in Hc' as ->.
Qed.

Lemma create_child_spec (s : fs) d n name vtype :
  fs_ok s -> rf_vnodes s !! d = Some n -> fv_ops n <> DEV_OPS -> vtype = VRegular \/ vtype = VDirectory ->
  (length (children s d) < 128)%nat -> (3 <= size (fa_free (rf_alloc s)))%nat ->
  exists v s', ramfs_create_child s d name vtype = Done (Some v, s') /\ child_added s s' d name v vtype.
Proof.
  intros Hs Hn Hops Hvt Hlen Hsz.
  assert (d <> 0) as Hd0 by (destruct (fk_vnode _ Hs d ltac:(by exists n)) as (f & -> & Hf & _); by apply dmap_nonnull).
  set (ops := match vtype with VDirectory => RAMFS_DIR_OPS | _ => RAMFS_FILE_OPS end).
  destruct (new_node_spec s ops vtype Hs ltac:(lia))
    as (phys & s1 & v & s2 & E1 & E2 & Hs2 & Hv0 & Hfv & Hfi & Hvn & Hin & Hda & Hsize & Hfsub).
  unfold ramfs_create_child. rewrite (proj2 (Z.eqb_neq d 0)) by done.
  assert ((match vtype with VRegular => Some RAMFS_FILE_OPS | VDirectory => Some RAMFS_DIR_OPS | _ => None end) = Some ops) as ->
    by (destruct Hvt as [-> | ->]; done).
  rewrite E1. run. rewrite E2. run. unfold ramfs_dir_add_child.
  rewrite (proj2 (Z.eqb_neq d 0)), (proj2 (Z.eqb_neq v 0)) by done. cbn [orb].
  assert (v <> d) as Hvd by congruence.
  assert (rf_vnodes s2 !! d = Some n) as Hn2 by (rewrite Hvn; by rewrite lookup_insert_ne).
  destruct (fk_data _ Hs d n Hn Hops) as [i Hi]. assert (fv_fs_data n <> phys) as Hne by congruence.
  assert (rf_inodes s2 !! fv_fs_data n = Some i) as Hi2 by (rewrite Hin; by rewrite lookup_insert_ne).
  unfold children in Hlen. rewrite Hn, Hi in Hlen.
  unfold inode_of. rewrite Hn2. run. rewrite Hi2. run. unfold RAMFS_MAX_CHILDREN, ri_child_count.
  rewrite (proj2 (Z.leb_gt _ _)) by lia.
  destruct (children_page_spec s2 i Hs2 (size_nonempty (fa_free (rf_alloc s2)) 0 ltac:(lia))) as (pg & a & -> & Hpg & Ha & Hsub & Hsz2). run.
  eexists v, _. split; [reflexivity|].
  constructor.
  - apply (add_child_ok s2 d); try done. cbn [rc_vnode_ptr]. rewrite Hvn. by rewrite lookup_insert_eq.
  - done.
  - done.
  - eexists. split; [exact Hvn|]. done.
  - unfold children. cbn [set_inode set_alloc rf_vnodes rf_inodes]. rewrite Hn2, lookup_insert_eq, Hn, Hi. done.
  - unfold children. cbn [set_inode set_alloc rf_vnodes rf_inodes]. rewrite Hvn, lookup_insert_eq. cbn [fv_fs_data].
    rewrite lookup_insert_ne by done. by rewrite Hin, lookup_insert_eq.
  - intros d' [m Hm] Hd' Hdev. unfold children. cbn [set_inode set_alloc rf_vnodes rf_inodes].
    rewrite Hvn, lookup_insert_ne by congruence. rewrite Hm in *. cbn in Hdev.
    destruct (fk_data _ Hs d' m Hm ltac:(congruence)) as [j Hj].
    rewrite lookup_insert_ne by (intros E; apply Hd', (fk_own _ Hs d' m d n Hm Hn); congruence).
    rewrite Hin, lookup_insert_ne by congruence. done.
  - cbn [set_inode set_alloc rf_alloc]. lia.
  - constructor; cbn [set_inode set_alloc rf_alloc rf_data rf_vnodes rf_inodes].
    + done.
    + intros f Hf. by apply Hfsub, Hsub.
    + intros w m Hw. rewrite Hvn, lookup_insert_ne by congruence. done.
    + intros p j Hj. destruct (decide (p = fv_fs_data n)) as [->|]; [rewrite lookup_insert_eq; eexists; split_and!; [done|cbn; congruence..]|].
      rewrite lookup_insert_ne, Hin by done. exists j. rewrite lookup_insert_ne by congruence. done.
    + intros p j. rewrite lookup_insert_Some, Hin, lookup_insert_Some. intros [[<- _]|[_ [[_ <-]|[_ Hj]]]]; [congruence|done|congruence].
    + intros w m. rewrite Hvn, lookup_insert_Some. intros [[_ <-]|[_ Hm]]; [done|congruence].
Qed.

Lemma find_child_cons c l name :
  find_child (c :: l) name = if decide (rc_name c = name) then Some (rc_vnode_ptr c) else find_child l name.
Proof.
  unfold find_child. cbn [list_find]. destruct (decide (rc_name c = name)); [done|]. by destruct (list_find _ l) as [[i c']|].
Qed.

Lemma find_child_app l c name :
  find_child (l ++ [c]) name =
  match find_child l name with Some v => Some v | None => if decide (rc_name c = name) then Some (rc_vnode_ptr c) else None end.
Proof.
  induction l as [|x l IH]; [apply find_child_cons|]. cbn [app]. rewrite !find_child_cons, IH. by destruct (decide (rc_name x = name)).
Qed.

Lemma find_child_mono l l' name v : find_child l name = Some v -> find_child (l ++ l') name = Some v.
Proof.
  induction l as [|x l IH]; [done|]. cbn [app]. rewrite !find_child_cons. by destruct (decide (rc_name x = name)).
Qed.

(** ** Claims *)

(** In a directory with room, a new name of at most 22 bytes is created as a fresh
    node; afterwards looking up that name finds this node, every other name in that
    directory and everything in every other directory is found as before. *)
Theorem create_lookup_roundtrip (s : fs) d name vtype :
  fs_ok s -> is_dir s d -> vtype = VRegular \/ vtype = VDirectory -> (length name <= 22)%nat ->
  find_child (children s d) name = None -> (length (children s d) < 128)%nat -> (3 <= size (fa_free (rf_alloc s)))%nat ->
  exists v s', vnode_create s d name vtype = Done (Some v, s') /\ fs_ok s' /\ rf_vnodes s !! v = None /\
    vnode_lookup s' d name = Done (Some v) /\
    (forall name', name' <> name -> vnode_lookup s' d name' = vnode_lookup s d name') /\
    (forall d' name', d' <> d -> is_dir s d' -> vnode_lookup s' d' name' = vnode_lookup s d' name') /\
    (vtype = VDirectory -> forall name', vnode_lookup s' v name' = Done None).
Proof.
  intros Hs Hd Hvt Hlen Hnone Hroom Hfree. pose proof Hd as Hd'. unfold is_dir in Hd'.
  destruct (rf_vnodes s !! d) as [n|] eqn:Hn; [|done]. injection Hd' as Hops.
  destruct (create_child_spec s d n name vtype Hs Hn ltac:(congruence) Hvt Hroom Hfree) as (v & s' & E & Hc).
  destruct (ca_vnodes _ _ _ _ _ _ Hc) as (m & Hvn & Hmt & Hmo). pose proof (ca_ok _ _ _ _ _ _ Hc) as Hs'.
  pose proof (ca_fresh _ _ _ _ _ _ Hc) as Hfresh.
  assert (forall x, is_dir s x -> is_dir s' x) as Hdirs.
  { intros x Hx. unfold is_dir in *. rewrite Hvn. destruct (decide (x = v)) as [->|]; [by rewrite Hfresh in Hx|].
    by rewrite lookup_insert_ne. }
  assert (take 22 name = name) as Hname by (by apply take_ge).
  exists v, s'. unfold vnode_create. rewrite Hn. run. rewrite Hops. split_and!; try done.
  - rewrite vnode_lookup_spec by auto. rewrite (ca_children _ _ _ _ _ _ Hc), find_child_app, Hnone, Hname. cbn [rc_name rc_vnode_ptr].
    by rewrite decide_True.
  - intros name' Hne. rewrite !vnode_lookup_spec by auto. rewrite (ca_children _ _ _ _ _ _ Hc), find_child_app, Hname. cbn [rc_name].
    rewrite decide_False by done. by destruct (find_child (children s d) name').
  - intros d' name' Hne Hdir. rewrite !vnode_lookup_spec by auto. f_equal. f_equal. apply Hc; [|done|].
    + unfold is_dir in Hdir. destruct (rf_vnodes s !! d'); [by eexists|discriminate].
    + unfold is_dir in Hdir. by rewrite Hdir.
  - intros -> name'. rewrite vnode_lookup_spec; [|done|].
    + by rewrite (ca_empty _ _ _ _ _ _ Hc).
    + unfold is_dir. rewrite Hvn, lookup_insert_eq. cbn. by rewrite Hmo.
Qed.

(** A longer name is cut to 22 bytes when it is stored but compared whole when it is
    looked up: creation succeeds and the file cannot be found. *)
Lemma long_name_unreachable (s : fs) d name vtype :
  fs_ok s -> is_dir s d -> vtype = VRegular \/ vtype = VDirectory -> (22 < length name)%nat ->
  find_child (children s d) name = None -> (length (children s d) < 128)%nat -> (3 <= size (fa_free (rf_alloc s)))%nat ->
  exists v s', vnode_create s d name vtype = Done (Some v, s') /\ vnode_lookup s' d name = Done None.
Proof.
  intros Hs Hd Hvt Hlen Hnone Hroom Hfree. pose proof Hd as Hd'. unfold is_dir in Hd'.
  destruct (rf_vnodes s !! d) as [n|] eqn:Hn; [|done]. injection Hd' as Hops.
  destruct (create_child_spec s d n name vtype Hs Hn ltac:(congruence) Hvt Hroom Hfree) as (v & s' & E & Hc).
  destruct (ca_vnodes _ _ _ _ _ _ Hc) as (m & Hvn & _ & _). pose proof (ca_fresh _ _ _ _ _ _ Hc) as Hfresh.
  exists v, s'. unfold vnode_create. rewrite Hn. run. rewrite Hops. split; [done|].
  rewrite vnode_lookup_spec; [|apply Hc|unfold is_dir; rewrite Hvn, lookup_insert_ne by congruence; by rewrite Hn; cbn; rewrite Hops].
  rewrite (ca_children _ _ _ _ _ _ Hc), find_child_app, Hnone. cbn [rc_name]. rewrite decide_False; [done|].
  intros E'. apply (f_equal length) in E'. rewrite length_take in E'. lia.
Qed.

(** In a full directory creation reports success and adds nothing. *)
Lemma full_directory_creates_orphan (s : fs) d name :
  fs_ok s -> is_dir s d -> (128 <= length (children s d))%nat -> (2 <= size (fa_free (rf_alloc s)))%nat ->
  exists v s', vnode_create s d name VRegular = Done (Some v, s') /\ children s' d = children s d.
Proof.
  intros Hs Hd Hfull Hfree. unfold is_dir in Hd. destruct (rf_vnodes s !! d) as [n|] eqn:Hn; [|done]. injection Hd as Hops.
  assert (d <> 0) as Hd0 by (destruct (fk_vnode _ Hs d ltac:(by exists n)) as (f & -> & Hf & _); by apply dmap_nonnull).
  destruct (new_node_spec s RAMFS_FILE_OPS VRegular Hs Hfree)
    as (phys & s1 & v & s2 & E1 & E2 & Hs2 & Hv0 & Hfv & Hfi & Hvn & Hin & Hda & Hsize & Hfsub).
  unfold vnode_create. rewrite Hn. run. rewrite Hops. unfold ramfs_create_child. rewrite (proj2 (Z.eqb_neq d 0)) by done.
  rewrite E1. run. rewrite E2. run. unfold ramfs_dir_add_child.
  rewrite (proj2 (Z.eqb_neq d 0)), (proj2 (Z.eqb_neq v 0)) by done. cbn [orb].
  assert (rf_vnodes s2 !! d = Some n) as Hn2 by (rewrite Hvn; rewrite lookup_insert_ne; [done|congruence]).
  destruct (fk_data _ Hs d n Hn ltac:(congruence)) as [i Hi]. assert (fv_fs_data n <> phys) as Hne by congruence.
  assert (rf_inodes s2 !! fv_fs_data n = Some i) as Hi2 by (rewrite Hin; by rewrite lookup_insert_ne).
  unfold children in *. rewrite Hn, Hi in Hfull. unfold inode_of. rewrite Hn2. run. rewrite Hi2. run.
  unfold RAMFS_MAX_CHILDREN, ri_child_count. rewrite (proj2 (Z.leb_le _ _)) by lia. run.
  exists v, s2. split; [done|]. by rewrite Hn2, Hi2, Hn, Hi.
Qed.

(** ** Paths *)

(** The file system only grows: what was found is still found. *)
Definition fs_ext (s s' : fs) : Prop :=
  forall d, is_dir s d -> is_dir s' d /\ exists l, children s' d = children s d ++ l.

Lemma fs_ext_refl s : fs_ext s s.
Proof. intros d Hd. split; [done|]. exists []. by rewrite app_nil_r. Qed.

Lemma fs_ext_trans s1 s2 s3 : fs_ext s1 s2 -> fs_ext s2 s3 -> fs_ext s1 s3.
Proof.
  intros H1 H2 d Hd. destruct (H1 d Hd) as [Hd2 [l1 E1]]. destruct (H2 d Hd2) as [Hd3 [l2 E2]]. split; [done|].
  exists (l1 ++ l2). by rewrite E2, E1, app_assoc.
Qed.

Lemma child_added_ext s s' d name v vtype : is_dir s d -> child_added s s' d name v vtype -> fs_ext s s'.
Proof.
  intros Hd Hc x Hx. destruct (ca_vnodes _ _ _ _ _ _ Hc) as (m & Hvn & _). split.
  - unfold is_dir in *. rewrite Hvn. destruct (decide (x = v)) as [->|]; [|by rewrite lookup_insert_ne].
    by rewrite (ca_fresh _ _ _ _ _ _ Hc) in Hx.
  - destruct (decide (x = d)) as [->|Hne]; [eexists; apply Hc|]. exists []. rewrite app_nil_r. unfold is_dir in Hx. apply Hc; [|done|].
    + destruct (rf_vnodes s !! x); [by eexists|discriminate].
    + by rewrite Hx.
Qed.

Lemma lookup_ext s s' d name v :
  fs_ok s -> fs_ok s' -> fs_ext s s' -> is_dir s d -> vnode_lookup s d name = Done (Some v) -> vnode_lookup s' d name = Done (Some v).
Proof.
  intros Hs Hs' Hext Hd. destruct (Hext d Hd) as [Hd' [l E]]. rewrite !vnode_lookup_spec by done. intros [= Hf].
  rewrite E. by rewrite (find_child_mono _ l name v Hf).
Qed.

Definition good_part (p : list Z) : Prop := p <> [] /\ (length p <= 22)%nat.

(** The path can be made: its parts are names that fit, those that exist are
    directories on the way, and the first one to be made has room. *)
Fixpoint creatable (s : fs) (d : Z) (parts : list (list Z)) : Prop :=
  match parts with
  | [] => False
  | p :: ps =>
      good_part p /\ is_dir s d /\
      match find_child (children s d) p with
      | Some v => match ps with [] => True | _ => creatable s v ps end
      | None => (length (children s d) < 128)%nat /\ Forall good_part ps
      end
  end.

Lemma creatable_new (s : fs) d parts :
  is_dir s d -> children s d = [] -> parts <> [] -> Forall good_part parts -> creatable s d parts.
Proof.
  intros Hd Hc Hne Hall. destruct parts as [|p ps]; [done|]. apply Forall_cons in Hall as [Hp Hps]. cbn [creatable].
  rewrite Hc. split; [done|]. split; [done|]. cbn. split; [lia|done].
Qed.

Lemma lookup_or_create_spec (s : fs) d name vtype :
  fs_ok s -> is_dir s d -> vtype = VRegular \/ vtype = VDirectory -> good_part name ->
  (find_child (children s d) name = None -> (length (children s d) < 128)%nat) -> (3 <= size (fa_free (rf_alloc s)))%nat ->
  exists v s', lookup_or_create s d name vtype = Done (Some v, s') /\ fs_ok s' /\ fs_ext s s' /\ v <> 0 /\
    vnode_lookup s' d name = Done (Some v) /\ (size (fa_free (rf_alloc s)) <= 3 + size (fa_free (rf_alloc s')))%nat /\
    ((find_child (children s d) name = Some v /\ s' = s) \/
     (find_child (children s d) name = None /\ children s' v = [] /\ (vtype = VDirectory -> is_dir s' v) /\
      rf_vnodes s !! v = None /\ (vtype = VRegular -> fv_ops <$> rf_vnodes s' !! v = Some RAMFS_FILE_OPS))) /\ fs_keep s s'.
Proof.
  intros Hs Hd Hvt [Hne Hlen] Hroom Hfree. pose proof Hd as Hd'. unfold is_dir in Hd'.
  destruct (rf_vnodes s !! d) as [n|] eqn:Hn; [|done]. injection Hd' as Hops.
  destruct (fk_vnode _ Hs d ltac:(by exists n)) as (f & Ef & Hf & _).
  assert (d <> 0) as Hd0 by (rewrite Ef; by apply dmap_nonnull).
  unfold lookup_or_create. rewrite (proj2 (Z.eqb_neq d 0)) by done. rewrite vnode_lookup_spec by done. run.
  destruct (find_child (children s d) name) as [v|] eqn:Hfind.
  - exists v, s. split_and!; [done|done|apply fs_ext_refl| |by rewrite vnode_lookup_spec, Hfind|lia|by left|apply fs_keep_refl].
    destruct (fk_data _ Hs d n Hn ltac:(congruence)) as [i Hi]. unfold children in Hfind. rewrite Hn, Hi in Hfind.
    unfold find_child in Hfind. destruct (list_find _ _) as [[k c]|] eqn:Hl; [|done]. injection Hfind as <-.
    apply list_find_Some in Hl as (Hk & _). destruct (fk_child _ Hs _ i c Hi (list_elem_of_lookup_2 _ _ _ Hk)) as [m Hm].
    destruct (fk_vnode _ Hs _ ltac:(by exists m)) as (g & -> & Hg & _). by apply dmap_nonnull.
  - destruct (create_child_spec s d n name vtype Hs Hn ltac:(congruence) Hvt (Hroom eq_refl) Hfree) as (v & s' & E & Hc).
    pose proof (child_added_ext _ _ _ _ _ _ Hd Hc) as Hext. destruct (ca_vnodes _ _ _ _ _ _ Hc) as (m & Hvn & _ & Hmo).
    exists v, s'. split_and!; try done; try apply Hc.
    + rewrite vnode_lookup_spec; [|apply Hc|by apply Hext]. rewrite (ca_children _ _ _ _ _ _ Hc), find_child_app, Hfind.
      cbn [rc_name rc_vnode_ptr]. rewrite decide_True; [done|]. by apply take_ge.
    + right. split_and!; [done|apply Hc| |apply Hc|]; intros ->; unfold is_dir; rewrite Hvn, lookup_insert_eq; cbn; by rewrite Hmo.
Qed.

Lemma ensure_parts_more (s : fs) d p p2 ps :
  p <> [] ->
  ensure_parts s d (p :: p2 :: ps) =
  ('(o, s1) ← lookup_or_create s d p VDirectory;
   match o with None => Done (0, s1) | Some v => ensure_parts s1 v (p2 :: ps) end).
Proof. intros Hp. by destruct p. Qed.

Lemma walk_path_more (s : fs) d p ps :
  p <> [] -> walk_path s d (p :: ps) = (o ← vnode_lookup s d p; match o with None => Done None | Some v => walk_path s v ps end).
Proof. intros Hp. by destruct p. Qed.

(** Nothing is found in an empty directory. *)
Lemma walk_empty (s : fs) d p ps :
  fs_ok s -> is_dir s d -> children s d = [] -> p <> [] -> walk_path s d (p :: ps) = Done None.
Proof. intros Hs Hd Hc Hp. rewrite walk_path_more, vnode_lookup_spec, Hc by done. by run. Qed.

(** After [ensure_path] the path leads to the file it returned. *)
Lemma ensure_parts_spec (s : fs) d parts :
  fs_ok s -> creatable s d parts -> (3 * length parts <= size (fa_free (rf_alloc s)))%nat ->
  exists v s', ensure_parts s d parts = Done (v, s') /\ v <> 0 /\ fs_ok s' /\ fs_ext s s' /\
    walk_path s' d parts = Done (Some v) /\ (size (fa_free (rf_alloc s)) <= 3 * length parts + size (fa_free (rf_alloc s')))%nat /\
    fs_keep s s' /\
    (walk_path s d parts = Done None -> rf_vnodes s !! v = None /\ fv_ops <$> rf_vnodes s' !! v = Some RAMFS_FILE_OPS).
Proof.
  revert s d. induction parts as [|p ps IH]; intros s d Hs Hcr Hfree; [done|].
  cbn [creatable] in Hcr. destruct Hcr as (Hp & Hd & Hcr). cbn [length] in Hfree.
  destruct p as [|c p']; [by destruct Hp|]. set (part := c :: p') in *.
  assert (find_child (children s d) part = None -> (length (children s d) < 128)%nat) as Hroom
    by (intros E; rewrite E in Hcr; by destruct Hcr).
  destruct ps as [|p2 ps].
  - cbn [ensure_parts]. unfold part. fold part.
    destruct (lookup_or_create_spec s d part VRegular Hs Hd ltac:(by left) Hp Hroom ltac:(lia))
      as (v & s' & -> & Hs' & Hext & Hv & Hl & Hsz & Hcase & Hkeep). run. exists v, s'. cbn [default from_option id length].
    split_and!; [done|done|done|done| |lia|done|].
    + unfold part in *. cbn [walk_path]. rewrite Hl. by run.
    + unfold part in *. cbn [walk_path]. rewrite vnode_lookup_spec by done. run.
      destruct Hcase as [[-> _]|(-> & _ & _ & Hfr & Hfo)]; [done|]. intros _. split; [done|by apply Hfo].
  - rewrite ensure_parts_more by done.
    destruct (lookup_or_create_spec s d part VDirectory Hs Hd ltac:(by right) Hp Hroom ltac:(lia))
      as (v & s1 & -> & Hs1 & Hext1 & Hv & Hl & Hsz1 & Hcase & Hkeep1). run.
    assert (creatable s1 v (p2 :: ps)) as Hcr2.
    { destruct Hcase as [[E ->]|(E & Hc & Hdir & _)]; rewrite E in Hcr; [done|]. apply creatable_new; [by apply Hdir|done|done|by destruct Hcr]. }
    destruct (IH s1 v Hs1 Hcr2 ltac:(lia)) as (w & s' & -> & Hw & Hs' & Hext2 & Hwalk & Hsz2 & Hkeep2 & Hnew).
    exists w, s'. split_and!; [done|done|done|by eapply fs_ext_trans| |cbn [length] in *; lia|by eapply fs_keep_trans|].
    + unfold part in *. cbn [walk_path].
      rewrite (lookup_ext s1 s' d (c :: p') v Hs1 Hs' Hext2 ltac:(by apply Hext1) Hl). by run.
    + unfold part in *. intros Hno. rewrite walk_path_more, vnode_lookup_spec in Hno by done.
      destruct Hcase as [[E ->]|(E & Hc & Hdir & Hfr & _)]; rewrite E in Hno; revert Hno; run; intros Hno; [by apply Hnew|].
      destruct Hnew as [Hw1 Hw2].
      * apply walk_empty; [done|by apply Hdir|done|by destruct Hcr2 as [[? _] _]].
      * split; [|done]. destruct (rf_vnodes s !! w) as [m|] eqn:Hm; [|done]. by rewrite (kp_vnodes _ _ Hkeep1 w m Hm) in Hw1.
Qed.

(** After [ensure_dir] too. *)
Lemma ensure_dir_parts_spec (s : fs) d parts :
  fs_ok s -> creatable s d parts -> (3 * length parts <= size (fa_free (rf_alloc s)))%nat ->
  exists v s', ensure_dir_parts s d parts = Done (v, s') /\ fs_ok s' /\ fs_ext s s' /\ walk_path s' d parts = Done (Some v) /\ fs_keep s s'.
Proof.
  revert s d. induction parts as [|p ps IH]; intros s d Hs Hcr Hfree; [done|].
  cbn [creatable] in Hcr. destruct Hcr as (Hp & Hd & Hcr). cbn [length] in Hfree.
  destruct p as [|c p']; [by destruct Hp|]. cbn [ensure_dir_parts].
  assert (find_child (children s d) (c :: p') = None -> (length (children s d) < 128)%nat) as Hroom
    by (intros E; rewrite E in Hcr; by destruct Hcr).
  destruct (lookup_or_create_spec s d (c :: p') VDirectory Hs Hd ltac:(by right) Hp Hroom ltac:(lia))
    as (v & s1 & -> & Hs1 & Hext1 & Hv & Hl & Hsz1 & Hcase & Hkeep1). run.
  destruct ps as [|p2 ps].
  { exists v, s1. cbn [ensure_dir_parts]. split_and!; try done. rewrite walk_path_more, Hl by done. by run. }
  assert (creatable s1 v (p2 :: ps)) as Hcr2.
  { destruct Hcase as [[E ->]|(E & Hc & Hdir & _)]; rewrite E in Hcr; [done|]. apply creatable_new; [by apply Hdir|done|done|by destruct Hcr]. }
  destruct (IH s1 v Hs1 Hcr2 ltac:(lia)) as (w & s' & -> & Hs' & Hext2 & Hwalk & Hkeep2).
  exists w, s'. split_and!; [done|done|by eapply fs_ext_trans| |by eapply fs_keep_trans].
  rewrite walk_path_more by done.
  rewrite (lookup_ext s1 s' d (c :: p') v Hs1 Hs' Hext2 ltac:(by apply Hext1) Hl). by run.
Qed.

Lemma split_slash_ne path : split_slash path <> [].
Proof. destruct path as [|c path]; [done|]. cbn [split_slash]. destruct (c =? SLASH); [done|]. by destruct (split_slash path). Qed.

Lemma trim_good_path path p ps : split_slash path = p :: ps -> p <> [] -> trim_slashes path = path /\ path <> [].
Proof.
  destruct path as [|c path]; cbn [split_slash trim_slashes].
  - by intros [= <- _].
  - destruct (c =? SLASH); [by intros [= <- _]|]. done.
Qed.

(** A path of names is looked up part by part. *)
Lemma path_lookup_walk (s : fs) root path p ps :
  split_slash path = p :: ps -> p <> [] -> root <> 0 -> path_lookup s root (SLASH :: path) = walk_path s root (split_slash path).
Proof.
  intros Hsp Hp Hr0. destruct (trim_good_path path p ps Hsp Hp) as [Htrim Hne].
  unfold path_lookup. cbn [starts_with_slash trim_slashes]. rewrite Z.eqb_refl, Htrim. cbn [negb].
  rewrite (proj2 (Z.eqb_neq root 0)) by done. by destruct path as [|c path].
Qed.

Lemma is_dir_nonnull (s : fs) d : fs_ok s -> is_dir s d -> d <> 0.
Proof.
  intros Hs Hd. unfold is_dir in Hd. destruct (rf_vnodes s !! d) as [n|] eqn:Hn; [|done].
  destruct (fk_vnode _ Hs d ltac:(by exists n)) as (f & -> & Hf & _). by apply dmap_nonnull.
Qed.

(** A walk that ended in a file still does when the file system grew. *)
Lemma walk_ext (s s' : fs) parts : forall d v,
  fs_ok s -> fs_ok s' -> fs_ext s s' -> walk_path s d parts = Done (Some v) -> walk_path s' d parts = Done (Some v).
Proof.
  induction parts as [|p ps IH]; intros d v Hs Hs' Hext; [done|].
  destruct p as [|c p]; [cbn [walk_path]; by apply IH|]. rewrite !walk_path_more by done.
  intros (o & Hl & Hrest)%bind_Done. destruct o as [w|]; [|done].
  assert (is_dir s d) as Hd.
  { unfold vnode_lookup in Hl. destruct (rf_vnodes s !! d) as [n|] eqn:Hn; [|done]. revert Hl. run. unfold is_dir. rewrite Hn.
    destruct (fv_ops n) eqn:E; [done| |done]. intros _. cbn. by rewrite E. }
  rewrite (lookup_ext s s' d _ w) by done. run. by apply IH.
Qed.

(** Making a path and looking it up agree: for a path whose parts are names of at
    most 22 bytes, of which the existing ones are directories on the way, and with
    memory for three frames per part, [ensure_path] returns a file, looking up the
    path from the root then finds exactly that file, and everything that could be
    found before is still found. *)
Theorem ensure_path_lookup (s : fs) root path :
  fs_ok s -> creatable s root (split_slash path) -> (3 * length (split_slash path) <= size (fa_free (rf_alloc s)))%nat ->
  exists v s', ensure_path s root path = Done (v, s') /\ v <> 0 /\ fs_ok s' /\
    path_lookup s' root (SLASH :: path) = Done (Some v) /\
    forall d name w, is_dir s d -> vnode_lookup s d name = Done (Some w) -> vnode_lookup s' d name = Done (Some w).
Proof.
  intros Hs Hcr Hfree. destruct (ensure_parts_spec s root _ Hs Hcr Hfree) as (v & s' & E & Hv & Hs' & Hext & Hwalk & _ & _).
  exists v, s'. split_and!; try done.
  - destruct (split_slash path) as [|p ps] eqn:Hsp; [done|]. pose proof Hcr as ([Hp _] & Hd & _).
    rewrite (path_lookup_walk s' root path p ps Hsp Hp (is_dir_nonnull s root Hs Hd)). by rewrite Hsp.
  - intros d name w Hd Hl. by apply (lookup_ext s s').
Qed.

(** The file system right after [ramfs_create_root]. *)
Lemma ramfs_create_root_spec (s : fs) :
  fs_ok s -> (2 <= size (fa_free (rf_alloc s)))%nat ->
  exists root s', ramfs_create_root s = Done (root, s') /\ fs_ok s' /\ is_dir s' root /\ children s' root = [] /\
    (size (fa_free (rf_alloc s)) = 2 + size (fa_free (rf_alloc s')))%nat.
Proof.
  intros Hs Hsz. destruct (new_node_spec s RAMFS_DIR_OPS VDirectory Hs Hsz)
    as (phys & s1 & v & s2 & E1 & E2 & Hs2 & Hv0 & Hfv & Hfi & Hvn & Hin & Hda & Hsize & Hfsub).
  exists v, s2. unfold ramfs_create_root. rewrite E1. run. split_and!; [done|done| | |done].
  - unfold is_dir. by rewrite Hvn, lookup_insert_eq.
  - unfold children. rewrite Hvn, lookup_insert_eq. cbn [fv_fs_data]. by rewrite Hin, lookup_insert_eq.
Qed.

Lemma empty_fs_ok (a : A) : fa_ok a -> fs_ok {| rf_vnodes := ∅; rf_inodes := ∅; rf_data := ∅; rf_alloc := a; rf_next_ino := 1 |}.
Proof.
  intros Ha. constructor; cbn [rf_vnodes rf_inodes rf_alloc]; try done.
  all: try (intros x [y Hy]; by rewrite lookup_empty in Hy).
  all: intros x y; intros; rewrite lookup_empty in *; done.
Qed.
End Names.

(** The file system with an empty root and forty frames. *)
Definition demo_alloc : BumpAllocator := {| bump_n := 41; bump_next := 1 |}.

Lemma demo_root :
  exists root (s : ramfs BumpAllocator), fs_ok s /\ is_dir s root /\ children s root = [] /\ (30 <= size (fa_free (rf_alloc s)))%nat.
Proof.
  assert (fa_ok demo_alloc) as Ha by (split; simpl; lia).
  assert (40 <= size (fa_free demo_alloc))%nat as Hsz by (apply Nat.leb_le; vm_compute; reflexivity).
  destruct (ramfs_create_root_spec _ (empty_fs_ok demo_alloc Ha)) as (root & s & _ & Hs & Hd & Hc & He); [cbn [rf_alloc]; lia|].
  exists root, s. cbn [rf_alloc] in He. split_and!; [done..|lia].
Defined.

(** [tmp/a] in an empty root. *)
Lemma ensure_path_lookup_witness :
  exists root (s : ramfs BumpAllocator) v s', ensure_path s root [116; 109; 112; 47; 97] = Done (v, s') /\
    path_lookup s' root [47; 116; 109; 112; 47; 97] = Done (Some v).
Proof.
  destruct demo_root as (root & s & Hs & Hd & Hc & Hsz).
  destruct (ensure_path_lookup s root [116; 109; 112; 47; 97] Hs) as (v & s' & E & _ & _ & P & _).
  - apply creatable_new; [done|done|done|]. repeat constructor; simpl; (done || lia).
  - etransitivity; [|exact Hsz]. apply Nat.leb_le. reflexivity.
  - exists root, s, v, s'. split; [exact E|exact P].
Defined.

Lemma create_lookup_roundtrip_witness :
  exists root (s : ramfs BumpAllocator) v s', vnode_create s root [97] VRegular = Done (Some v, s') /\
    vnode_lookup s' root [97] = Done (Some v).
Proof.
  destruct demo_root as (root & s & Hs & Hd & Hc & Hsz).
  destruct (create_lookup_roundtrip s root [97] VRegular Hs Hd) as (v & s' & E & _ & _ & L & _).
  - by left.
  - simpl. lia.
  - by rewrite Hc.
  - rewrite Hc. simpl. lia.
  - lia.
  - exists root, s, v, s'. split; [exact E|exact L].
Defined.
