(* ===== verification/Cpio.v ===== *)
(** * The initial RAM disk: packing and unpacking

    The archive is written at build time by xtask/src/main.rs
    ([cpio_newc_record], [mkinitrd]) and read at boot by crates/fs/src/cpio.rs
    ([unpack_cpio]) into the file system of Vfs.v.  Bytes are integers below 256. *)

From Stdlib Require Import ZArith Lia.
From stdpp Require Import prelude gmap list.
From S2P Require Import Prelude Frames Ramfs Vfs.

Local Open Scope Z_scope.

(** ** Writing *)

(** One digit of [{:08X}]. *)
Definition hex_digit (d : Z) : Z := if d <? 10 then 48 + d else 55 + d.

Definition hex8 (v : Z) : list Z :=
  [hex_digit (v / 16 ^ 7 mod 16); hex_digit (v / 16 ^ 6 mod 16); hex_digit (v / 16 ^ 5 mod 16); hex_digit (v / 16 ^ 4 mod 16);
   hex_digit (v / 16 ^ 3 mod 16); hex_digit (v / 16 ^ 2 mod 16); hex_digit (v / 16 ^ 1 mod 16); hex_digit (v / 16 ^ 0 mod 16)].

Definition CPIO_MAGIC : list Z := [48; 55; 48; 55; 48; 49].
Definition CPIO_HEADER_SIZE : Z := 110.

Definition pad4 (len : Z) : list Z := replicate (Z.to_nat (Z.land (4 - Z.land len 3) 3)) 0.

(** What [cpio_newc_record] appends. *)
Definition cpio_newc_record (name : list Z) (mode : Z) (data : list Z) : list Z :=
  let namesize := wrap32 (Z.of_nat (length name) + 1) in
  CPIO_MAGIC ++ hex8 0 ++ hex8 mode ++ hex8 0 ++ hex8 0 ++ hex8 1 ++ hex8 0 ++ hex8 (wrap32 (Z.of_nat (length data))) ++
  hex8 0 ++ hex8 0 ++ hex8 0 ++ hex8 0 ++ hex8 namesize ++ hex8 0 ++
  name ++ [0] ++ pad4 (110 + namesize) ++ data ++ pad4 (Z.of_nat (length data)).

(** [TRAILER!!!]. *)
Definition TRAILER : list Z := [84; 82; 65; 73; 76; 69; 82; 33; 33; 33].

Record cpio_file := { cf_name : list Z; cf_mode : Z; cf_data : list Z }.

(** The records of [mkinitrd] in order, then the trailer. *)
Definition cpio_archive (files : list cpio_file) : list Z :=
  concat ((fun f => cpio_newc_record (cf_name f) (cf_mode f) (cf_data f)) <$> files) ++ cpio_newc_record TRAILER 0 [].

(** ** Reading *)

Definition hex_value (b : Z) : option Z :=
  if (48 <=? b) && (b <=? 57) then Some (b - 48)
  else if (65 <=? b) && (b <=? 70) then Some (b - 65 + 10)
  else if (97 <=? b) && (b <=? 102) then Some (b - 97 + 10)
  else None.

Fixpoint parse_hex_from (v : Z) (s : list Z) : Z :=
  match s with
  | [] => v
  | b :: s' =>
      match hex_value b with
      | None => 0
      | Some d => parse_hex_from (Z.lor (wrap32 (Z.shiftl v 4)) d) s'
      end
  end.

Definition parse_hex8 (s : list Z) : Z := parse_hex_from 0 s.

Definition align4 (x : Z) : Z := Z.land (wrap64 (x + 3)) (not64 3).

Record CpioEntry := { ce_mode : Z; ce_filesize : Z; ce_namesize : Z }.

Definition parse_header (d : list Z) : option CpioEntry :=
  if Z.of_nat (length d) <? CPIO_HEADER_SIZE then None else
  if decide (take 6 d = CPIO_MAGIC) then
    Some {| ce_mode := parse_hex8 (sub_bytes d 14 8); ce_filesize := parse_hex8 (sub_bytes d 54 8);
            ce_namesize := parse_hex8 (sub_bytes d 94 8) |}
  else None.

Section Unpack.
Context {S : Type} (handle : S -> Z -> list Z -> list Z -> outcome S).

(** One round of the loop of [unpack_cpio] at [pos]; slicing past the end panics. *)
Definition unpack_step (data : list Z) (st : Z * S) : (Z * S) + outcome S :=
  let '(pos, s) := st in
  let len := Z.of_nat (length data) in
  if len <? pos then inr Panic else
  match parse_header (drop (Z.to_nat pos) data) with
  | None => inr (Done s)
  | Some e =>
      let pos := pos + CPIO_HEADER_SIZE in
      if len <? pos + ce_namesize e then inr (Done s) else
      let name_bytes := sub_bytes data pos (Z.max (ce_namesize e - 1) 0) in
      let pos := align4 (pos + ce_namesize e) in
      let data_end := pos + ce_filesize e in
      if len <? data_end then inr (Done s) else
      let file_data := sub_bytes data pos (ce_filesize e) in
      let pos := align4 data_end in
      if decide (name_bytes = TRAILER) then inr (Done s) else
      match handle s (ce_mode e) name_bytes file_data with
      | Done s' => inl (pos, s')
      | Panic => inr Panic
      end
  end.

Definition unpack_loop (data : list Z) (s : S) : (Z * S) + outcome S := iterate (unpack_step data) 64 (0, s).

Definition unpack_cpio (data : list Z) (s : S) : outcome S :=
  match unpack_loop data s with inr r => r | inl _ => Panic end.

End Unpack.

(** [trim_start_matches("./")]. *)
Fixpoint trim_dot_slash (s : list Z) : list Z :=
  match s with
  | a :: (b :: s') as s0 => if (a =? 46) && (b =? SLASH) then trim_dot_slash s' else s
  | _ => s
  end.

(** What the loop does with a record. *)
Definition unpack_entry {A : Type} `{FrameAllocator A} (root : Z) (s : ramfs A) (mode : Z) (name data : list Z) : outcome (ramfs A) :=
  if utf8_valid name then
    match trim_dot_slash name with
    | [] => Done s
    | path =>
        if Z.land mode 0xF000 =? 0x8000 then
          '(vn, s1) ← ensure_path s root path;
          if vn =? 0 then Done s1 else ramfs_write_file s1 vn data
        else if Z.land mode 0xF000 =? 0x4000 then
          '(_, s1) ← ensure_dir s root path; Done s1
        else Done s
    end
  else Done s.

(** ** Fields *)

Lemma hex_value_digit d : 0 <= d < 16 -> hex_value (hex_digit d) = Some d.
Proof.
  intros Hd. unfold hex_digit. destruct (Z.ltb_spec d 10); unfold hex_value.
  - rewrite (proj2 (Z.leb_le 48 _)), (proj2 (Z.leb_le _ 57)) by lia. cbn [andb]. f_equal. lia.
  - rewrite (proj2 (Z.leb_gt _ 57)), andb_false_r, (proj2 (Z.leb_le 65 _)), (proj2 (Z.leb_le _ 70)) by lia.
    cbn [andb]. f_equal. lia.
Qed.

Lemma parse_hex_digit v d s :
  0 <= v < 2 ^ 28 -> 0 <= d < 16 -> parse_hex_from v (hex_digit d :: s) = parse_hex_from (v * 16 + d) s.
Proof.
  intros Hv Hd. cbn [parse_hex_from]. rewrite hex_value_digit by done.
  f_equal. unfold wrap32, wrapw. rewrite (Z.mod_small (Z.shiftl v 4)) by (rewrite Z.shiftl_mul_pow2 by lia; lia).
  by rewrite lor_disjoint_add by lia.
Qed.

(** A field is read back as it was written. *)
Lemma parse_hex8_hex8 v : 0 <= v < 2 ^ 32 -> parse_hex8 (hex8 v) = v.
Proof.
  intros Hv. unfold parse_hex8, hex8. change (16 ^ 7) with 268435456. change (16 ^ 6) with 16777216.
  change (16 ^ 5) with 1048576. change (16 ^ 4) with 65536. change (16 ^ 3) with 4096. change (16 ^ 2) with 256.
  change (16 ^ 1) with 16. change (16 ^ 0) with 1. change (2 ^ 32) with 4294967296 in Hv.
  do 8 (rewrite parse_hex_digit; [|Z.div_mod_to_equations; lia|apply Z.mod_pos_bound; lia]).
  cbn [parse_hex_from]. Z.div_mod_to_equations. lia.
Qed.

Lemma align4_round x : 0 <= x < 2 ^ 63 -> align4 x = x + 3 - (x + 3) mod 4.
Proof.
  intros Hx. unfold align4. rewrite wrap64_small by (unfold is_u64; lia). change 3 with (Z.ones 2) at 2.
  by rewrite land_not_ones by (unfold is_u64; lia).
Qed.

Lemma pad4_length n : 0 <= n -> Z.of_nat (length (pad4 n)) = (- n) mod 4.
Proof.
  intros Hn. unfold pad4. rewrite length_replicate. change 3 with (Z.ones 2). rewrite !Z.land_ones by lia.
  change (2 ^ 2) with 4. Z.div_mod_to_equations. lia.
Qed.

Lemma sub_bytes_mid (l a b c : list Z) from len :
  l = a ++ b ++ c -> from = Z.of_nat (length a) -> len = Z.of_nat (length b) -> sub_bytes l from len = b.
Proof.
  intros -> -> ->. unfold sub_bytes. rewrite !Nat2Z.id, drop_app_length. apply take_app_length.
Qed.

(** ** Records *)

(** The fixed part of a record. *)
Definition header_bytes (mode filesize namesize : Z) : list Z :=
  CPIO_MAGIC ++ hex8 0 ++ hex8 mode ++ hex8 0 ++ hex8 0 ++ hex8 1 ++ hex8 0 ++ hex8 filesize ++
  hex8 0 ++ hex8 0 ++ hex8 0 ++ hex8 0 ++ hex8 namesize ++ hex8 0.

Lemma header_bytes_length mode filesize namesize : length (header_bytes mode filesize namesize) = 110%nat.
Proof. reflexivity. Qed.

Lemma parse_header_bytes mode filesize namesize post :
  0 <= mode < 2 ^ 32 -> 0 <= filesize < 2 ^ 32 -> 0 <= namesize < 2 ^ 32 ->
  parse_header (header_bytes mode filesize namesize ++ post) =
  Some {| ce_mode := mode; ce_filesize := filesize; ce_namesize := namesize |}.
Proof.
  intros Hm Hf Hn. unfold parse_header. rewrite length_app, header_bytes_length.
  rewrite (proj2 (Z.ltb_ge _ CPIO_HEADER_SIZE)) by (unfold CPIO_HEADER_SIZE; lia).
  rewrite decide_True by reflexivity.
  change (sub_bytes (header_bytes mode filesize namesize ++ post) 14 8) with (hex8 mode).
  change (sub_bytes (header_bytes mode filesize namesize ++ post) 54 8) with (hex8 filesize).
  change (sub_bytes (header_bytes mode filesize namesize ++ post) 94 8) with (hex8 namesize).
  by rewrite !parse_hex8_hex8.
Qed.

(** A record whose sizes fit their fields. *)
Definition file_fits (f : cpio_file) : Prop :=
  0 <= cf_mode f < 2 ^ 32 /\ Z.of_nat (length (cf_name f)) + 1 < 2 ^ 32 /\ Z.of_nat (length (cf_data f)) < 2 ^ 32.

Definition file_record (f : cpio_file) : list Z := cpio_newc_record (cf_name f) (cf_mode f) (cf_data f).

Lemma file_record_eq f :
  file_fits f ->
  let namesize := Z.of_nat (length (cf_name f)) + 1 in
  file_record f = header_bytes (cf_mode f) (Z.of_nat (length (cf_data f))) namesize ++
    cf_name f ++ ([0] ++ pad4 (110 + namesize)) ++ cf_data f ++ pad4 (Z.of_nat (length (cf_data f))).
Proof.
  intros (Hm & Hn & Hd) namesize. unfold file_record, cpio_newc_record, header_bytes.
  replace (wrap32 (Z.of_nat (length (cf_name f)) + 1)) with namesize
    by (unfold namesize, wrap32, wrapw; rewrite Z.mod_small; lia).
  replace (wrap32 (Z.of_nat (length (cf_data f)))) with (Z.of_nat (length (cf_data f)))
    by (unfold wrap32, wrapw; rewrite Z.mod_small; lia).
  by rewrite <- !app_assoc.
Qed.

Lemma file_record_length f :
  file_fits f ->
  Z.of_nat (length (file_record f)) =
  align4 (align4 (110 + (Z.of_nat (length (cf_name f)) + 1)) + Z.of_nat (length (cf_data f))).
Proof.
  intros Hf. rewrite file_record_eq by done. rewrite !length_app, header_bytes_length. destruct Hf as (_ & Hn & Hd).
  rewrite !Nat2Z.inj_add, !pad4_length by lia. cbn [length].
  rewrite (align4_round (110 + _)) by lia. rewrite align4_round by (Z.div_mod_to_equations; lia).
  Z.div_mod_to_equations. lia.
Qed.

(** ** The loop *)

Lemma parse_hex_from_range s : forall v, 0 <= v < 2 ^ 32 -> 0 <= parse_hex_from v s < 2 ^ 32.
Proof.
  induction s as [|b s IH]; intros v Hv; cbn [parse_hex_from]; [done|].
  destruct (hex_value b) as [d|] eqn:E; [|lia]. apply IH. apply lor_range; [lia| |].
  - unfold wrap32, wrapw. apply Z.mod_pos_bound. lia.
  - unfold hex_value in E. repeat case_match; simplify_eq; lia.
Qed.

Lemma parse_header_sizes d e : parse_header d = Some e -> 0 <= ce_filesize e < 2 ^ 32 /\ 0 <= ce_namesize e < 2 ^ 32.
Proof.
  unfold parse_header. intros E. repeat case_match; simplify_eq. cbn. split; apply parse_hex_from_range; lia.
Qed.

Section UnpackSpec.
Context {S : Type} (handle : S -> Z -> list Z -> list Z -> outcome S).

(** A round that starts at a record sees its name, mode and contents and moves to
    the byte after its padding. *)
Lemma unpack_step_record pre f post s :
  file_fits f -> Z.of_nat (length pre) mod 4 = 0 -> Z.of_nat (length (pre ++ file_record f ++ post)) < 2 ^ 63 ->
  unpack_step handle (pre ++ file_record f ++ post) (Z.of_nat (length pre), s) =
  if decide (cf_name f = TRAILER) then inr (Done s) else
  match handle s (cf_mode f) (cf_name f) (cf_data f) with
  | Done s' => inl (Z.of_nat (length pre) + Z.of_nat (length (file_record f)), s')
  | Panic => inr Panic
  end.
Proof.
  intros Hf Hpre Hlen. pose proof (file_record_length f Hf) as Hr. rewrite !length_app, !Nat2Z.inj_add in Hlen.
  unfold unpack_step. rewrite !length_app, !Nat2Z.inj_add, Nat2Z.id, drop_app_length.
  rewrite (proj2 (Z.ltb_ge _ (Z.of_nat (length pre)))) by lia.
  pose proof (file_record_eq f Hf) as Heq. cbn zeta in Heq. destruct Hf as (Hm & Hn & Hd).
  set (ns := Z.of_nat (length (cf_name f)) + 1) in *. set (fs := Z.of_nat (length (cf_data f))) in *.
  assert (forall q, parse_header (header_bytes (cf_mode f) fs ns ++ q) =
    Some {| ce_mode := cf_mode f; ce_filesize := fs; ce_namesize := ns |}) as Hparse by (intros q; apply parse_header_bytes; lia).
  set (hd := header_bytes (cf_mode f) fs ns) in *.
  set (pd := [0] ++ pad4 (110 + ns)) in *.
  assert (Z.of_nat (length pd) = 1 + (- (110 + ns)) mod 4) as Hpd
    by (unfold pd; rewrite length_app, Nat2Z.inj_add, pad4_length by lia; done).
  assert (length hd = 110%nat) as Hhd by apply header_bytes_length.
  assert (fs = Z.of_nat (length (cf_data f))) as Hfs by done. assert (ns = Z.of_nat (length (cf_name f)) + 1) as Hns by done.
  clearbody hd pd fs ns.
  rewrite (align4_round (110 + ns)) in Hr by lia. rewrite align4_round in Hr by (Z.div_mod_to_equations; lia).
  assert (parse_header (file_record f ++ post) = Some {| ce_mode := cf_mode f; ce_filesize := fs; ce_namesize := ns |}) as ->
    by (rewrite Heq, <- app_assoc; apply Hparse).
  cbn [ce_mode ce_filesize ce_namesize]. unfold CPIO_HEADER_SIZE.
  rewrite (align4_round (_ + 110 + ns)) by (Z.div_mod_to_equations; lia). rewrite align4_round by (Z.div_mod_to_equations; lia).
  rewrite !(proj2 (Z.ltb_ge _ _)) by (Z.div_mod_to_equations; lia).
  rewrite (sub_bytes_mid _ (pre ++ hd) (cf_name f) (pd ++ cf_data f ++ pad4 fs ++ post));
    [|by rewrite Heq, <- !app_assoc|rewrite length_app; lia|lia].
  rewrite (sub_bytes_mid _ (pre ++ hd ++ cf_name f ++ pd) (cf_data f) (pad4 fs ++ post));
    [|by rewrite Heq, <- !app_assoc|rewrite !length_app, !Nat2Z.inj_add, Hpd; Z.div_mod_to_equations; lia|done].
  case_decide; [done|]. destruct (handle _ _ _ _); [|done]. do 2 f_equal. Z.div_mod_to_equations; lia.
Qed.

(** Every round that goes on moves past a header, so the loop ends whatever the
    bytes are. *)
Lemma unpack_step_advances data pos s :
  0 <= pos -> Z.of_nat (length data) < 2 ^ 62 ->
  match unpack_step handle data (pos, s) with
  | inl (pos', _) => pos + CPIO_HEADER_SIZE <= pos' <= Z.of_nat (length data) + 3 /\ pos' mod 4 = 0
  | inr r => (forall st m n d, handle st m n d <> Panic) -> pos <= Z.of_nat (length data) -> exists s', r = Done s'
  end.
Proof.
  intros Hpos Hlen. unfold unpack_step. destruct (Z.ltb_spec (Z.of_nat (length data)) pos) as [|Hp]; [lia|].
  destruct (parse_header _) as [[m fs ns]|] eqn:E; [|by eexists]. apply parse_header_sizes in E. cbn [ce_mode ce_filesize ce_namesize] in *.
  unfold CPIO_HEADER_SIZE. destruct (Z.ltb_spec (Z.of_nat (length data)) (pos + 110 + ns)) as [|E1]; [by eexists|].
  destruct (Z.ltb_spec (Z.of_nat (length data)) (align4 (pos + 110 + ns) + fs)) as [|E2]; [by eexists|].
  case_decide; [by eexists|]. destruct (handle s m _ _) eqn:Eh; [|intros Hno; by apply Hno in Eh].
  rewrite (align4_round (pos + 110 + ns)) in * by lia. rewrite align4_round by (Z.div_mod_to_equations; lia).
  Z.div_mod_to_equations. lia.
Qed.

Definition write_files (s : S) (files : list cpio_file) : outcome S :=
  foldM (fun s f => handle s (cf_mode f) (cf_name f) (cf_data f)) s files.

Definition records (files : list cpio_file) : list Z := concat (file_record <$> files).

Lemma records_aligned files : Forall file_fits files -> Z.of_nat (length (records files)) mod 4 = 0.
Proof.
  induction 1 as [|f files Hf _ IH]; [done|]. unfold records in *. cbn [fmap list_fmap concat].
  rewrite length_app, Nat2Z.inj_add, file_record_length by done. destruct Hf as (_ & ? & ?).
  rewrite (align4_round (110 + _)) by lia. rewrite align4_round by (Z.div_mod_to_equations; lia).
  Z.div_mod_to_equations. lia.
Qed.

Definition trailer_file : cpio_file := {| cf_name := TRAILER; cf_mode := 0; cf_data := [] |}.

Lemma trailer_fits : file_fits trailer_file.
Proof. unfold file_fits. cbn. lia. Qed.

(** Where the loop is after some of the records of an archive. *)
Definition unpack_at (files : list cpio_file) (s0 : S) (st : Z * S) : Prop :=
  exists before after, files = before ++ after /\ fst st = Z.of_nat (length (records before)) /\
    write_files (snd st) after = write_files s0 files.

Lemma unpack_at_step files s0 st :
  Forall file_fits files -> Forall (fun f => cf_name f <> TRAILER) files ->
  Z.of_nat (length (cpio_archive files)) < 2 ^ 62 -> unpack_at files s0 st ->
  match unpack_step handle (cpio_archive files) st with
  | inl st' => unpack_at files s0 st'
  | inr r => r = write_files s0 files
  end.
Proof.
  intros Hfit Hnt Hlen (before & after & -> & Hpos & Hs). destruct st as [pos s]. cbn [fst snd] in Hpos, Hs.
  apply Forall_app in Hfit as [Hfb Hfa]. apply Forall_app in Hnt as [_ Hna]. pose proof (records_aligned before Hfb) as Hal.
  subst pos. destruct after as [|f after].
  - assert (cpio_archive (before ++ []) = records before ++ file_record trailer_file ++ []) as Ha
      by (unfold cpio_archive; by rewrite !app_nil_r).
    rewrite Ha in *. rewrite unpack_step_record by (apply trailer_fits || done || lia).
    rewrite decide_True by done. rewrite <- Hs. done.
  - apply Forall_cons in Hfa as [Hff Hfa]. apply Forall_cons in Hna as [Hnf Hna].
    assert (cpio_archive (before ++ f :: after) = records before ++ file_record f ++ (records after ++ file_record trailer_file)) as Ha.
    { unfold cpio_archive. fold file_record. rewrite fmap_app, concat_app. cbn [fmap list_fmap concat].
      unfold records. by rewrite <- !app_assoc. }
    rewrite Ha in *. rewrite unpack_step_record by (done || lia). rewrite decide_False by done.
    unfold write_files in Hs at 1. cbn [foldM] in Hs. destruct (handle s _ _ _) as [s'|]; [|done].
    exists (before ++ [f]), after. rewrite <- app_assoc. split; [done|]. split; [|done].
    cbn [fst]. unfold records. rewrite fmap_app, concat_app, !length_app. cbn [fmap list_fmap concat]. rewrite app_nil_r. lia.
Qed.

(** The loop over a whole archive. *)
Lemma unpack_loop_archive (files : list cpio_file) (s : S) :
  Forall file_fits files -> Forall (fun f => cf_name f <> TRAILER) files ->
  Z.of_nat (length (cpio_archive files)) < 2 ^ 62 ->
  unpack_loop handle (cpio_archive files) s = inr (write_files s files).
Proof.
  intros Hfit Hnt Hlen. unfold unpack_loop.
  destruct (iterate_total (unpack_step handle (cpio_archive files))
    (fun st => unpack_at files s st /\ 0 <= fst st <= Z.of_nat (length (cpio_archive files)) + 3)
    (fun r => r = write_files s files) (fun st => Z.of_nat (length (cpio_archive files)) + 3 - fst st) 64 (0, s)) as (r & -> & Hr).
  - intros [pos st] [Hat Hp]. cbn [fst] in Hp.
    pose proof (unpack_at_step files s (pos, st) Hfit Hnt Hlen Hat) as H1.
    pose proof (unpack_step_advances (cpio_archive files) pos st ltac:(lia) Hlen) as H2.
    destruct (unpack_step _ _ _) as [[pos' st']|]; [|done]. unfold CPIO_HEADER_SIZE in H2. cbn [fst]. split; [split; [done|]|]; lia.
  - split; [|cbn [fst]; lia]. by exists [], files.
  - cbn [fst]. lia.
  - by rewrite Hr.
Qed.

(** C33: the archive that the build writes is unpacked to the files it was made of.
    For any list of files whose mode and sizes fit their 32-bit fields and none of
    which is named TRAILER!!!, reading the records and the trailer that
    [cpio_newc_record] wrote hands exactly those names, modes and contents, in
    order, to the code that stores a file, and then stops; if storing one panics,
    so does unpacking. *)
Theorem cpio_roundtrip (files : list cpio_file) (s : S) :
  Forall file_fits files -> Forall (fun f => cf_name f <> TRAILER) files ->
  Z.of_nat (length (cpio_archive files)) < 2 ^ 62 ->
  unpack_cpio handle (cpio_archive files) s = write_files s files.
Proof. intros Hfit Hnt Hlen. unfold unpack_cpio. by rewrite unpack_loop_archive. Qed.

(** C40: unpacking ends on every input below 2^62 bytes.  Whatever the bytes of the
    archive are and whatever storing a file does, each round that goes on moves at least
    a header of 110 bytes ahead, to at most three bytes past the end, and the loop leaves
    with a result.  The result is no panic when the length of the archive is a multiple of
    four and storing a file never panics. *)
Theorem unpack_cpio_terminates (data : list Z) (s : S) :
  Z.of_nat (length data) < 2 ^ 62 ->
  (forall pos st pos' st', 0 <= pos -> unpack_step handle data (pos, st) = inl (pos', st') ->
     pos + CPIO_HEADER_SIZE <= pos' <= Z.of_nat (length data) + 3) /\
  exists r, unpack_loop handle data s = inr r /\ unpack_cpio handle data s = r /\
    (Z.of_nat (length data) mod 4 = 0 -> (forall st m n d, handle st m n d <> Panic) -> exists s', r = Done s').
Proof.
  intros Hlen. split.
  { intros pos st pos' st' Hp E. pose proof (unpack_step_advances data pos st Hp Hlen) as H. rewrite E in H. apply H. }
  unfold unpack_cpio, unpack_loop.
  destruct (iterate_total (unpack_step handle data) (fun st => 0 <= fst st <= Z.of_nat (length data) + 3 /\ fst st mod 4 = 0)
    (fun r => Z.of_nat (length data) mod 4 = 0 -> (forall st m n d, handle st m n d <> Panic) -> exists s', r = Done s')
    (fun st => Z.of_nat (length data) + 3 - fst st) 64 (0, s)) as (r & -> & Hr); [|cbn [fst]; split; [lia|done]|cbn [fst]; lia|by exists r].
  intros [pos st] [Hp H4]. cbn [fst] in Hp, H4. pose proof (unpack_step_advances data pos st ltac:(lia) Hlen) as H2.
  destruct (unpack_step _ _ _) as [[pos' st']|r].
  - unfold CPIO_HEADER_SIZE in H2. cbn [fst]. lia.
  - intros Hl Hno. apply H2; [done|]. Z.div_mod_to_equations. lia.
Qed.

End UnpackSpec.

(** A reader that only lists what it is given. *)
Definition list_entry (s : list (Z * list Z * list Z)) (mode : Z) (name data : list Z) : outcome (list (Z * list Z * list Z)) :=
  Done (s ++ [(mode, name, data)]).

Definition demo_file (name : list Z) (data : list Z) : cpio_file := {| cf_name := name; cf_mode := 0x81A4; cf_data := data |}.

Lemma cpio_roundtrip_witness :
  unpack_cpio list_entry (cpio_archive [demo_file [97] [1; 2; 3]; demo_file [98; 99] []]) [] =
  Done [(0x81A4, [97], [1; 2; 3]); (0x81A4, [98; 99], [])].
Proof.
  rewrite (cpio_roundtrip list_entry [demo_file [97] [1; 2; 3]; demo_file [98; 99] []] []).
  - reflexivity.
  - repeat constructor; simpl; lia.
  - repeat constructor; discriminate.
  - apply Z.ltb_lt. vm_compute. reflexivity.
Defined.

(** An archive of one record without a trailer. *)
Lemma unpack_cpio_terminates_witness :
  let data := cpio_newc_record [97] 0x81A4 [1; 2; 3] in
  (exists st, unpack_step list_entry data (0, []) = inl (Z.of_nat (length data), st) /\ 110 <= Z.of_nat (length data)) /\
  exists s', unpack_cpio list_entry data [] = Done s'.
Proof.
  intros data. destruct (unpack_cpio_terminates list_entry data [] ltac:(apply Z.ltb_lt; vm_compute; reflexivity)) as [H1 (r & _ & H2 & H3)]. split.
  - eexists. split; [vm_compute; reflexivity|]. apply (H1 0 [] (Z.of_nat (length data)) [(0x81A4, [97], [1; 2; 3])] ltac:(lia)). vm_compute. reflexivity.
  - rewrite H2. apply H3; [vm_compute; reflexivity|]. intros st m n d. discriminate.
Defined.

(** A well-formed record whose data ends at the end of the archive, off a multiple
    of four, makes the next round slice past the end. *)
Lemma cpio_unaligned_end_panics :
  let record := cpio_newc_record [97] 0x81A4 [1; 2; 3] in
  unpack_cpio list_entry (take (length record - 1) record) [] = Panic /\
  unpack_cpio list_entry record [] = Done [(0x81A4, [97], [1; 2; 3])].
Proof. split; vm_compute; reflexivity. Qed.
