(* ===== verification/Initrd.v ===== *)
(** * The initial RAM disk in the file system

    What the file system of Ramfs.v and Vfs.v holds after crates/fs/src/cpio.rs has
    unpacked the archive that xtask/src/main.rs wrote (Cpio.v). *)

From Stdlib Require Import ZArith Lia.
From stdpp Require Import prelude gmap list.
From S2P Require Import Prelude Frames Ramfs Vfs Cpio.

Local Open Scope Z_scope.

Section Store.
Context {A : Type} `{FrameAllocatorLaws A}.

Notation fs := (ramfs A).

(** Every inode owns its blocks. *)
Record store_ok (s : fs) : Prop := {
  so_fs : fs_ok s;
  so_files : forall p i, rf_inodes s !! p = Some i -> file_ok (rf_data s) i (rf_alloc s);
  so_disjoint : forall p i q j b, rf_inodes s !! p = Some i -> rf_inodes s !! q = Some j ->
    b ∈ ri_blocks i -> b ∈ ri_blocks j -> p = q
}.

(** What reading a file from the start to its end gives. *)
Definition contents_at (s : fs) (p : Z) : option (list Z) :=
  (fun i => ramfs_read (rf_data s) i (ri_size i) 0) <$> rf_inodes s !! p.

Definition file_contents (s : fs) (v : Z) : option (list Z) :=
  n ← rf_vnodes s !! v;
  match fv_ops n with RAMFS_FILE_OPS => contents_at s (fv_fs_data n) | _ => None end.

Lemma store_keep (s s' : fs) :
  store_ok s -> fs_ok s' -> fs_keep s s' ->
  store_ok s' /\ forall v c, file_contents s v = Some c -> file_contents s' v = Some c.
Proof.
  intros [Hs Hf Hd] Hs' [Kd Kf Kv Ki Kn _].
  assert (forall p i', rf_inodes s' !! p = Some i' -> ri_blocks i' = [] \/
    exists i, rf_inodes s !! p = Some i /\ ri_blocks i' = ri_blocks i) as Hold.
  { intros p i' Hi'. destruct (rf_inodes s !! p) as [i|] eqn:Hi; [|left; by eapply Kn].
    right. exists i. split; [done|]. destruct (Ki p i Hi) as (j & Hj & Hb & _). congruence. }
  split; [constructor; [done|..]|].
  - intros p i' Hi'. rewrite Kd. destruct (Hold p i' Hi') as [Hb|(i & Hi & Hb)].
    + constructor; rewrite Hb; [constructor|constructor|by intros b ?%not_elem_of_nil|simpl; lia].
    + destruct (Hf p i Hi) as [F1 F2 F3 F4]. constructor; rewrite Hb; try done. intros b Hin Hfr. by apply (F3 b Hin), Kf.
  - intros p i' q j' b Hi' Hj' Hb Hb'. destruct (Hold p i' Hi') as [E|(i & Hi & E)]; rewrite E in Hb; [by apply not_elem_of_nil in Hb|].
    destruct (Hold q j' Hj') as [E'|(j & Hj & E')]; rewrite E' in Hb'; [by apply not_elem_of_nil in Hb'|]. by eapply (Hd p i q j b).
  - intros v c Hc. unfold file_contents in *. destruct (rf_vnodes s !! v) as [n|] eqn:Hn; [|done]. rewrite (Kv v n Hn).
    unfold contents_at in *. cbn in *. destruct (fv_ops n); [|done..]. destruct (rf_inodes s !! fv_fs_data n) as [i|] eqn:Hi; [|done].
    destruct (Ki _ i Hi) as (i' & -> & Hb & Hsz). cbn in *. rewrite <- Hc, Kd. pose proof (fo_blocks _ _ _ (Hf _ i Hi)).
    rewrite Hsz. destruct (Z.le_gt_cases 0 (ri_size i)).
    + rewrite !ramfs_read_spec by (rewrite ?Hb; done). by rewrite Hb, Hsz.
    + unfold ramfs_read. rewrite Hsz. by rewrite (proj2 (Z.leb_le _ _)) by lia.
Qed.

(** A step that keeps the shape of the tree: vnodes keep their operations and inode,
    inodes their children. *)
Definition same_tree (s s' : fs) : Prop :=
  (forall w, (fun n => (fv_ops n, fv_fs_data n)) <$> rf_vnodes s' !! w = (fun n => (fv_ops n, fv_fs_data n)) <$> rf_vnodes s !! w) /\
  (forall p, (fun i => (ri_children_phys i, ri_children i)) <$> rf_inodes s' !! p =
             (fun i => (ri_children_phys i, ri_children i)) <$> rf_inodes s !! p).

Lemma fmap_eq_Some {X Y} (f : X -> Y) (o o' : option X) x : f <$> o = f <$> o' -> o = Some x -> exists x', o' = Some x' /\ f x' = f x.
Proof. intros E ->. destruct o' as [x'|]; [|done]. exists x'. by injection E as ->. Qed.

Lemma same_tree_vnode s s' w n : same_tree s s' -> rf_vnodes s' !! w = Some n ->
  exists n', rf_vnodes s !! w = Some n' /\ fv_ops n' = fv_ops n /\ fv_fs_data n' = fv_fs_data n.
Proof. intros [Hv _] Hn. destruct (fmap_eq_Some _ _ _ _ (Hv w) Hn) as (n' & Hn' & [= ? ?]). by exists n'. Qed.

Lemma same_tree_inode s s' p i : same_tree s s' -> rf_inodes s' !! p = Some i ->
  exists i', rf_inodes s !! p = Some i' /\ ri_children_phys i' = ri_children_phys i /\ ri_children i' = ri_children i.
Proof. intros [_ Hi] Hn. destruct (fmap_eq_Some _ _ _ _ (Hi p) Hn) as (i' & Hi' & [= ? ?]). by exists i'. Qed.

Lemma same_tree_sym s s' : same_tree s s' -> same_tree s' s.
Proof. intros [Hv Hi]. by split. Qed.

Lemma same_tree_ok s s' :
  fs_ok s -> same_tree s s' -> fa_ok (rf_alloc s') -> (forall f, f ∈ fa_free (rf_alloc s') -> f ∈ fa_free (rf_alloc s)) -> fs_ok s'.
Proof.
  intros Hs Ht Ha Hfr. pose proof (same_tree_sym _ _ Ht) as Ht'. constructor.
  - done.
  - intros p [i Hi] Hin. destruct (same_tree_inode _ _ _ _ Ht Hi) as (i' & Hi' & _). by apply (fk_inode _ Hs p ltac:(by exists i')), Hfr.
  - intros v [n Hn]. destruct (same_tree_vnode _ _ _ _ Ht Hn) as (n' & Hn' & _).
    destruct (fk_vnode _ Hs v ltac:(by exists n')) as (f & E & Hf & Hnf). exists f. split_and!; [done|lia|lia|]. intros Hin. by apply Hnf, Hfr.
  - intros v n Hn Ho. destruct (same_tree_vnode _ _ _ _ Ht Hn) as (n' & Hn' & Eo & Ed).
    destruct (fk_data _ Hs v n' Hn' ltac:(congruence)) as [i Hi]. rewrite Ed in Hi.
    destruct (same_tree_inode _ _ _ _ Ht' Hi) as (i' & Hi' & _). by exists i'.
  - intros v n w m Hn Hm Ho Ho' E. destruct (same_tree_vnode _ _ _ _ Ht Hn) as (n' & Hn' & Eo & Ed).
    destruct (same_tree_vnode _ _ _ _ Ht Hm) as (m' & Hm' & Eo' & Ed').
    apply (fk_own _ Hs v n' w m'); congruence.
  - intros p i Hi Hne. destruct (same_tree_inode _ _ _ _ Ht Hi) as (i' & Hi' & <- & E). apply (fk_page _ Hs p i' Hi'). congruence.
  - intros p i c Hi Hc. destruct (same_tree_inode _ _ _ _ Ht Hi) as (i' & Hi' & _ & E). rewrite <- E in Hc.
    destruct (fk_child _ Hs p i' c Hi' Hc) as [n Hn]. destruct (same_tree_vnode _ _ _ _ Ht' Hn) as (n' & Hn' & _). by exists n'.
Qed.

Lemma same_tree_ext s s' : same_tree s s' -> fs_ext s s'.
Proof.
  intros Ht d Hd. pose proof (same_tree_sym _ _ Ht) as Ht'. unfold is_dir in *. destruct (rf_vnodes s !! d) as [n|] eqn:Hn; [|done].
  injection Hd as Ho. destruct (same_tree_vnode _ _ _ _ Ht' Hn) as (n' & Hn' & Eo & Ed). split; [rewrite Hn'; cbn; congruence|].
  exists []. rewrite app_nil_r. unfold children. rewrite Hn, Hn', Ed. destruct (rf_inodes s !! fv_fs_data n) as [i|] eqn:Hi.
  - by destruct (same_tree_inode _ _ _ _ Ht' Hi) as (i' & -> & _ & ->).
  - destruct (rf_inodes s' !! fv_fs_data n) as [i'|] eqn:Hi'; [|done]. destruct (same_tree_inode _ _ _ _ Ht Hi') as (j & Hj & _). congruence.
Qed.

Lemma set_vnode_size_same (s : fs) v size w :
  (fun n => (fv_ops n, fv_fs_data n)) <$> set_vnode_size s v size !! w = (fun n => (fv_ops n, fv_fs_data n)) <$> rf_vnodes s !! w.
Proof.
  unfold set_vnode_size. destruct (decide (w = v)) as [->|]; [rewrite lookup_alter_eq|by rewrite lookup_alter_ne].
  by destruct (rf_vnodes s !! v).
Qed.

Lemma file_contents_same (s s' : fs) w n :
  same_tree s s' -> rf_vnodes s !! w = Some n ->
  file_contents s' w = match fv_ops n with RAMFS_FILE_OPS => contents_at s' (fv_fs_data n) | _ => None end.
Proof.
  intros Ht Hn. destruct (same_tree_vnode _ _ _ _ (same_tree_sym _ _ Ht) Hn) as (n' & Hn' & Eo & Ed).
  unfold file_contents. rewrite Hn'. cbn. by rewrite Eo, Ed.
Qed.

(** An inode without blocks gets fresh ones: files still own their blocks, and the
    other files keep their contents. *)
Lemma give_blocks (s s' : fs) p ino' :
  store_ok s -> fs_ok s' -> rf_inodes s' = <[p := ino']> (rf_inodes s) -> file_ok (rf_data s') ino' (rf_alloc s') ->
  (forall b, b ∈ ri_blocks ino' -> b ∈ fa_free (rf_alloc s)) ->
  (forall f, f ∈ fa_free (rf_alloc s') -> f ∈ fa_free (rf_alloc s)) ->
  (forall b, b ∉ ri_blocks ino' -> rf_data s' !! b = rf_data s !! b) ->
  store_ok s' /\ forall q, q <> p -> contents_at s' q = contents_at s q.
Proof.
  intros Hst Hs' Hin Hf' Hnews Hfr Hoth.
  assert (forall q j, rf_inodes s !! q = Some j -> forall b, b ∈ ri_blocks j -> b ∉ ri_blocks ino') as Hdis
    by (intros q j Hj b Hb Hb'; by apply (fo_used _ _ _ (so_files _ Hst q j Hj) b Hb), Hnews).
  assert (forall q j l, rf_inodes s !! q = Some j -> 0 <= l ->
    file_ok (rf_data s') j (rf_alloc s') /\ ramfs_read (rf_data s') j l 0 = ramfs_read (rf_data s) j l 0) as Hkeep.
  { intros q j l Hj Hl. apply (file_frame (rf_data s) (rf_data s') (rf_alloc s) (rf_alloc s') j l 0); [by eapply so_files| |done|lia|done].
    intros b Hb. apply Hoth. by eapply Hdis. }
  split; [constructor; [done|..]|].
  - intros q j. rewrite Hin, lookup_insert_Some. intros [[<- <-]|[_ Hj]]; [done|]. by apply (Hkeep q j 0).
  - intros q j r k b. rewrite Hin, !lookup_insert_Some. intros [[<- <-]|[_ Hj]] [[<- <-]|[_ Hk]] Hb Hb'; [done| | |by eapply so_disjoint].
    + by destruct (Hdis _ _ Hk b Hb').
    + by destruct (Hdis _ _ Hj b Hb).
  - intros q Hq. unfold contents_at. rewrite Hin, lookup_insert_ne by done. destruct (rf_inodes s !! q) as [j|] eqn:Hj; [|done].
    cbn. f_equal. destruct (Z.le_gt_cases 0 (ri_size j)); [by eapply Hkeep|]. unfold ramfs_read. by rewrite (proj2 (Z.leb_le _ _)) by lia.
Qed.

(** Writing a new file: its contents are the bytes, all other files stay. *)
Lemma write_file_spec (s : fs) v n i bytes :
  store_ok s -> v <> 0 -> rf_vnodes s !! v = Some n -> fv_ops n = RAMFS_FILE_OPS -> rf_inodes s !! fv_fs_data n = Some i ->
  ri_size i = 0 -> ri_blocks i = [] -> Z.of_nat (length bytes) <= 2 ^ 20 ->
  (Z.to_nat (blocks_for (Z.of_nat (length bytes))) <= size (fa_free (rf_alloc s)))%nat ->
  exists s', ramfs_write_file s v bytes = Done s' /\ store_ok s' /\ fs_ext s s' /\ file_contents s' v = Some bytes /\
    forall w c, w <> v -> file_contents s w = Some c -> file_contents s' w = Some c.
Proof.
  intros Hst Hv0 Hn Ho Hi Hsz Hbl Hlen Hfree. pose proof (so_fs _ Hst) as Hs. pose proof (so_files _ Hst _ i Hi) as Hfi.
  destruct (ramfs_write_all (rf_data s) i (rf_alloc s) bytes 0 (fk_alloc _ Hs) Hfi ltac:(lia) ltac:(lia))
    as (news & data' & a' & E & Hrd & Ha' & Hf' & _ & Hnews & Hfr & Hoth).
  { unfold missing. rewrite Hbl, Z.add_0_l. cbn [length]. lia. }
  rewrite Hbl, Hsz, Z.add_0_l in *. cbn [app] in *. rewrite Z.max_r in * by lia.
  set (ino' := {| ri_vtype := ri_vtype i; ri_size := Z.of_nat (length bytes); ri_blocks := news;
                  ri_children_phys := ri_children_phys i; ri_children := ri_children i |}) in *.
  unfold ramfs_write_file. rewrite (proj2 (Z.eqb_neq v 0)), Hn by done. run. unfold inode_of. rewrite Hi. run. rewrite E. run.
  eexists. split; [reflexivity|]. set (s' := {| rf_vnodes := _ |}).
  assert (same_tree s s') as Ht.
  { split; cbn [s' rf_vnodes rf_inodes].
    - intros w. destruct (_ <? _); [apply set_vnode_size_same|done].
    - intros p. destruct (decide (p = fv_fs_data n)) as [->|]; [by rewrite lookup_insert_eq, Hi|by rewrite lookup_insert_ne]. }
  destruct (give_blocks s s' (fv_fs_data n) ino' Hst (same_tree_ok s s' Hs Ht Ha' Hfr) eq_refl Hf' Hnews Hfr Hoth) as [Hst' Hkeep].
  split_and!; [done|by apply same_tree_ext| |].
  - rewrite (file_contents_same s s' v n Ht Hn), Ho. unfold contents_at. cbn [s' rf_inodes rf_data]. rewrite lookup_insert_eq. cbn. by f_equal.
  - intros w c Hne Hc. unfold file_contents in Hc. destruct (rf_vnodes s !! w) as [m|] eqn:Hm; [|done]. cbn in Hc.
    rewrite (file_contents_same s s' w m Ht Hm). destruct (fv_ops m) eqn:Hom; [|done..]. rewrite Hkeep; [done|].
    intros Ed. apply Hne, (fk_own _ Hs w m v n); congruence.
Qed.

(** ** Unpacking *)

(** Why a record can be stored: its name is valid, its path can be made, and there is
    memory; a regular file is new and at most 1 MiB long. *)
Definition storable_one (root : Z) (s : fs) (f : cpio_file) : Prop :=
  let parts := split_slash (trim_dot_slash (cf_name f)) in
  utf8_valid (cf_name f) = true /\ creatable s root parts /\
  ((Z.land (cf_mode f) 0xF000 = 0x8000 /\ walk_path s root parts = Done None /\ Z.of_nat (length (cf_data f)) <= 2 ^ 20 /\
    (3 * length parts + Z.to_nat (blocks_for (Z.of_nat (length (cf_data f)))) <= size (fa_free (rf_alloc s)))%nat) \/
   (Z.land (cf_mode f) 0xF000 = 0x4000 /\ (3 * length parts <= size (fa_free (rf_alloc s)))%nat)).

(** The record is in the file system: its path is found, and a regular file has its
    contents. *)
Definition stored (root : Z) (s : fs) (f : cpio_file) : Prop :=
  exists v, path_lookup s root (SLASH :: trim_dot_slash (cf_name f)) = Done (Some v) /\
    (Z.land (cf_mode f) 0xF000 = 0x8000 -> file_contents s v = Some (cf_data f)).

(** What is in the file system stays in it. *)
Definition fs_grows (s s' : fs) : Prop := fs_ext s s' /\ forall v c, file_contents s v = Some c -> file_contents s' v = Some c.

Lemma path_lookup_parts (s s0 : fs) root path :
  fs_ok s0 -> creatable s0 root (split_slash path) -> path_lookup s root (SLASH :: path) = walk_path s root (split_slash path).
Proof.
  intros Hs Hcr. destruct (split_slash path) as [|p ps] eqn:Hsp; [done|]. pose proof Hcr as ([Hp _] & Hd & _).
  rewrite (path_lookup_walk s root path p ps Hsp Hp (is_dir_nonnull s0 root Hs Hd)). by rewrite Hsp.
Qed.

Lemma unpack_entry_named (root : Z) (s s0 : fs) mode name data :
  utf8_valid name = true -> creatable s0 root (split_slash (trim_dot_slash name)) ->
  unpack_entry root s mode name data =
  (if Z.land mode 0xF000 =? 0x8000 then
     '(vn, s1) ← ensure_path s root (trim_dot_slash name);
     if vn =? 0 then Done s1 else ramfs_write_file s1 vn data
   else if Z.land mode 0xF000 =? 0x4000 then '(_, s1) ← ensure_dir s root (trim_dot_slash name); Done s1
   else Done s).
Proof.
  intros Hu Hcr. unfold unpack_entry. rewrite Hu. destruct (trim_dot_slash name) as [|c path]; [|done].
  cbn in Hcr. by destruct Hcr as [[? _] _].
Qed.

(** Storing one record. *)
Lemma unpack_entry_spec (root : Z) (s : fs) f :
  store_ok s -> storable_one root s f ->
  exists s', unpack_entry root s (cf_mode f) (cf_name f) (cf_data f) = Done s' /\ store_ok s' /\ fs_grows s s' /\ stored root s' f.
Proof.
  intros Hst (Hu & Hcr & Hcase). pose proof (so_fs _ Hst) as Hs. rewrite (unpack_entry_named root s s) by done. unfold stored.
  destruct Hcase as [(Hm & Hnew & Hlen & Hfree)|(Hm & Hfree)]; rewrite Hm; cbn [Z.eqb Pos.eqb].
  - destruct (ensure_parts_spec s root _ Hs Hcr ltac:(lia)) as (v & s1 & E & Hv & Hs1 & Hext & Hwalk & Hsz & Hkeep & Hfresh).
    unfold ensure_path. rewrite E. run. rewrite (proj2 (Z.eqb_neq v 0)) by done.
    destruct (store_keep s s1 Hst Hs1 Hkeep) as [Hst1 Hc1]. destruct (Hfresh Hnew) as [Hv0 Hops].
    destruct (rf_vnodes s1 !! v) as [n|] eqn:Hn; [|done]. injection Hops as Hops.
    destruct (fk_data _ Hs1 v n Hn ltac:(congruence)) as [i Hi].
    destruct (kp_new _ _ Hkeep _ i Hi (kp_fresh _ _ Hkeep v n Hn Hv0)) as [Hb Hz].
    destruct (write_file_spec s1 v n i (cf_data f) Hst1 Hv Hn Hops Hi Hz Hb Hlen ltac:(lia)) as (s' & E' & Hst' & Hext' & Hc & Hoth).
    exists s'. split; [done|]. split; [done|]. split; [split; [by eapply fs_ext_trans|]|].
    + intros w c Hw. apply Hoth; [|by apply Hc1]. intros ->. unfold file_contents in Hw. by rewrite Hv0 in Hw.
    + exists v. split; [|done]. rewrite (path_lookup_parts s' s) by done. apply (walk_ext s1 s'); [done|apply Hst'|done|done].
  - destruct (ensure_dir_parts_spec s root _ Hs Hcr Hfree) as (v & s1 & E & Hs1 & Hext & Hwalk & Hkeep).
    unfold ensure_dir. rewrite E. run. destruct (store_keep s s1 Hst Hs1 Hkeep) as [Hst1 Hc1].
    exists s1. split; [done|]. split; [done|]. split; [done|]. exists v. rewrite (path_lookup_parts s1 s) by done. split; [done|lia].
Qed.

(** Each record can be stored when its turn comes. *)
Fixpoint storable (root : Z) (s : fs) (files : list cpio_file) : Prop :=
  match files with
  | [] => True
  | f :: files' => storable_one root s f /\
      forall s', unpack_entry root s (cf_mode f) (cf_name f) (cf_data f) = Done s' -> storable root s' files'
  end.

Lemma path_lookup_ext (s s' : fs) root path v :
  fs_ok s -> fs_ok s' -> fs_ext s s' -> path_lookup s root path = Done (Some v) -> path_lookup s' root path = Done (Some v).
Proof.
  intros Hs Hs' Hext. unfold path_lookup. repeat case_match; try done. by apply walk_ext.
Qed.

Lemma stored_grows (root : Z) (s s' : fs) f : fs_ok s -> fs_ok s' -> fs_grows s s' -> stored root s f -> stored root s' f.
Proof. intros Hs Hs' [Hext Hc] (v & Hl & Hd). exists v. split; [by apply (path_lookup_ext s s')|auto]. Qed.

Lemma fs_grows_trans s1 s2 s3 : fs_grows s1 s2 -> fs_grows s2 s3 -> fs_grows s1 s3.
Proof. intros [E1 C1] [E2 C2]. split; [by eapply fs_ext_trans|auto]. Qed.

Lemma write_files_spec (root : Z) files : forall s,
  store_ok s -> storable root s files ->
  exists s', write_files (unpack_entry root) s files = Done s' /\ store_ok s' /\ fs_grows s s' /\ Forall (stored root s') files.
Proof.
  induction files as [|f files IH]; intros s Hst Hsb.
  - exists s. split_and!; [done|done|split; [apply fs_ext_refl|done]|done].
  - destruct Hsb as [H1 Hrest]. destruct (unpack_entry_spec root s f Hst H1) as (s1 & E & Hst1 & Hg1 & Hstd).
    destruct (IH s1 Hst1 (Hrest s1 E)) as (s' & E' & Hst' & Hg' & Hall). exists s'.
    unfold write_files in *. cbn [foldM]. rewrite E. run. split_and!; [done|done|by eapply fs_grows_trans|].
    constructor; [|done]. apply (stored_grows root s1 s'); [apply Hst1|apply Hst'|done|done].
Qed.

(** C15: the files packed into the initial RAM disk are in the file system after
    boot.  If each record of the list can be stored when its turn comes, unpacking
    the archive made of the list succeeds; then every path of the list is found from
    the root, every regular file reads back with the bytes that were packed, whatever
    was in the file system before is still there, and no two files share a block. *)
Theorem initrd_unpacked (root : Z) (s : fs) (files : list cpio_file) :
  store_ok s -> storable root s files ->
  Forall file_fits files -> Forall (fun f => cf_name f <> TRAILER) files -> Z.of_nat (length (cpio_archive files)) < 2 ^ 62 ->
  exists s', unpack_cpio (unpack_entry root) (cpio_archive files) s = Done s' /\ store_ok s' /\ fs_grows s s' /\
    Forall (stored root s') files.
Proof.
  intros Hst Hsb Hfit Hnt Hlen. unfold unpack_cpio. rewrite unpack_loop_archive by done. by apply write_files_spec.
Qed.

Lemma create_root_store (a : A) :
  fa_ok a -> (2 <= size (fa_free a))%nat ->
  exists root s, ramfs_create_root {| rf_vnodes := ∅; rf_inodes := ∅; rf_data := ∅; rf_alloc := a; rf_next_ino := 1 |} = Done (root, s) /\
    store_ok s.
Proof.
  intros Ha Hsz. set (s0 := {| rf_vnodes := ∅ |}). pose proof (empty_fs_ok a Ha) as Hs0. fold s0 in Hs0.
  destruct (new_node_spec s0 RAMFS_DIR_OPS VDirectory Hs0 Hsz)
    as (phys & s1 & v & s2 & E1 & E2 & Hs2 & _ & _ & _ & _ & Hin & _).
  exists v, s2. unfold ramfs_create_root. rewrite E1. run. split; [done|]. cbn [s0 rf_inodes] in Hin.
  constructor; [done|..].
  - intros p i. rewrite Hin, lookup_insert_Some, lookup_empty. intros [[_ <-]|[_ ?]]; [|done].
    constructor; cbn; [constructor|constructor|by intros b ?%not_elem_of_nil|lia].
  - intros p i q j b. rewrite Hin, !lookup_insert_Some, lookup_empty. intros [[<- _]|[_ ?]] [[<- _]|[_ ?]]; done.
Qed.

End Store.

(** [tmp], [bin] and [bin/sh], as in the image. *)
Definition demo_files : list cpio_file :=
  [{| cf_name := [116; 109; 112]; cf_mode := 0x41ED; cf_data := [] |};
   {| cf_name := [98; 105; 110]; cf_mode := 0x41ED; cf_data := [] |};
   {| cf_name := [98; 105; 110; 47; 115; 104]; cf_mode := 0x81ED; cf_data := [127; 69; 76; 70] |}].

Ltac storable_dir :=
  split; [split; [reflexivity|]; split;
    [split; [split; [discriminate|simpl; lia]|]; split; [vm_compute; reflexivity|vm_compute; split; [lia|constructor]]
    |right; split; [reflexivity|apply Nat.leb_le; vm_compute; reflexivity]]|];
  let s' := fresh "s" in let E := fresh "E" in intros s' E; vm_compute in E; injection E as <-.

Lemma initrd_unpacked_witness :
  exists root (s s' : ramfs BumpAllocator), unpack_cpio (unpack_entry root) (cpio_archive demo_files) s = Done s' /\
    Forall (stored root s') demo_files.
Proof.
  assert (fa_ok demo_alloc) as Ha by (split; simpl; lia).
  destruct (create_root_store demo_alloc Ha) as (root & s & E & Hst); [apply Nat.leb_le; vm_compute; reflexivity|].
  destruct (initrd_unpacked root s demo_files Hst) as (s' & U & _ & _ & Hall).
  - vm_compute in E. injection E as <- <-. clear Hst. unfold demo_files. storable_dir. storable_dir.
    split; [|intros; exact I]. split; [reflexivity|]. split; [|left; split_and!].
    + split; [split; [discriminate|simpl; lia]|]. split; [vm_compute; reflexivity|].
      split; [split; [discriminate|simpl; lia]|]. split; [vm_compute; reflexivity|vm_compute; split; [lia|constructor]].
    + reflexivity.
    + vm_compute. reflexivity.
    + simpl. lia.
    + apply Nat.leb_le. vm_compute. reflexivity.
  - repeat constructor; simpl; lia.
  - repeat constructor; discriminate.
  - apply Z.ltb_lt. vm_compute. reflexivity.
  - exists root, s, s'. split; [exact U|exact Hall].
Defined.
