(* ===== verification/Shell.v ===== *)
(** * The shell's command-line parser

    userspace/shell/src/parse.rs, byte by byte: the tokenizer with its position in the
    line, and the loop that fills the stages of a pipeline.  A word is the list of its
    bytes, [argv] and [stages] are the filled parts of the arrays ([argc] and
    [stage_count] are their lengths).  Operators and blanks are ASCII, so every slice
    the code takes lies on character boundaries.

    The reference is a grammar on token lists; the parser accepts exactly the lines
    whose tokens it derives. *)

From Stdlib Require Import ZArith Lia.
From stdpp Require Import prelude list.
From Equations Require Import Equations.
From S2P Require Import Prelude.

Local Open Scope Z_scope.

Definition MAX_ARGS : nat := 16.
Definition MAX_PIPELINE_STAGES : nat := 8.

Inductive RedirectKind := RK_None | RK_Out | RK_OutAppend | RK_In.

#[global] Instance RedirectKind_eq_dec : EqDecision RedirectKind.
Proof. solve_decision. Defined.

Record Stage := {
  argv : list (list Z);
  redirect_out : option (list Z * RedirectKind);
  redirect_in : option (list Z)
}.

#[global] Instance Stage_eq_dec : EqDecision Stage.
Proof. solve_decision. Defined.

Definition Stage_empty : Stage := {| argv := []; redirect_out := None; redirect_in := None |}.

Inductive ParseError := PE_Empty | TooManyStages | TooManyArgs | EmptyStage | MissingRedirectTarget | TrailingPipe.

Inductive Tok := Word (w : list Z) | TPipe | Great | GreatGreat | Less.

Definition is_space (b : Z) : bool := (b =? 32) || (b =? 9) || (b =? 13).
Definition is_op (b : Z) : bool := (b =? 124) || (b =? 62) || (b =? 60).
Definition is_word (b : Z) : bool := negb (is_space b) && negb (is_op b).

(** How far [while i < b.len() && p(b[i]) { i += 1 }] moves. *)
Fixpoint count_while (p : Z -> bool) (l : list Z) : nat :=
  match l with
  | [] => 0
  | b :: l' => if p b then S (count_while p l') else 0
  end.

Definition next_token (line : list Z) (i : nat) : option (Tok * nat) :=
  let i := (i + count_while is_space (drop i line))%nat in
  match line !! i with
  | None => None
  | Some b =>
      if b =? 124 then Some (TPipe, i + 1)%nat
      else if b =? 60 then Some (Less, i + 1)%nat
      else if b =? 62 then
        if decide (line !! (i + 1)%nat = Some 62) then Some (GreatGreat, i + 2)%nat else Some (Great, i + 1)%nat
      else
        let n := count_while is_word (drop i line) in
        Some (Word (take n (drop i line)), i + n)%nat
  end.

Definition add_arg (s : Stage) (w : list Z) : Stage :=
  {| argv := argv s ++ [w]; redirect_out := redirect_out s; redirect_in := redirect_in s |}.
Definition set_out (s : Stage) (w : list Z) (k : RedirectKind) : Stage :=
  {| argv := argv s; redirect_out := Some (w, k); redirect_in := redirect_in s |}.
Definition set_in (s : Stage) (w : list Z) : Stage :=
  {| argv := argv s; redirect_out := redirect_out s; redirect_in := Some w |}.

(** The variables of the loop of [parse_line]. *)
Record pstate := { ps_stages : list Stage; ps_cur : Stage; ps_has_content : bool; ps_any_token : bool; ps_i : nat }.

Definition pstate_init : pstate :=
  {| ps_stages := []; ps_cur := Stage_empty; ps_has_content := false; ps_any_token := false; ps_i := 0 |}.

(** After the loop. *)
Definition parse_end (s : pstate) : list Stage + ParseError :=
  if negb (ps_any_token s) then inr PE_Empty else
  if negb (ps_has_content s) then inr (if decide (ps_stages s = []) then EmptyStage else TrailingPipe) else
  if decide (length (ps_stages s) = MAX_PIPELINE_STAGES) then inr TooManyStages else
  inl (ps_stages s ++ [ps_cur s]).

(** One round of the loop. *)
Definition parse_step (line : list Z) (s : pstate) : pstate + (list Stage + ParseError) :=
  match next_token line (ps_i s) with
  | None => inr (parse_end s)
  | Some (tok, next) =>
      match tok with
      | Word w =>
          if decide (length (argv (ps_cur s)) = MAX_ARGS) then inr (inr TooManyArgs) else
          inl {| ps_stages := ps_stages s; ps_cur := add_arg (ps_cur s) w; ps_has_content := true; ps_any_token := true; ps_i := next |}
      | TPipe =>
          if negb (ps_has_content s) then inr (inr EmptyStage) else
          if decide (length (ps_stages s) = MAX_PIPELINE_STAGES) then inr (inr TooManyStages) else
          inl {| ps_stages := ps_stages s ++ [ps_cur s]; ps_cur := Stage_empty; ps_has_content := false; ps_any_token := true; ps_i := next |}
      | Great | GreatGreat | Less =>
          match next_token line next with
          | Some (Word w, after) =>
              let cur := match tok with
                         | Great => set_out (ps_cur s) w RK_Out
                         | GreatGreat => set_out (ps_cur s) w RK_OutAppend
                         | _ => set_in (ps_cur s) w
                         end in
              inl {| ps_stages := ps_stages s; ps_cur := cur; ps_has_content := ps_has_content s; ps_any_token := true; ps_i := after |}
          | _ => inr (inr MissingRedirectTarget)
          end
      end
  end.

Definition parse_line (line : list Z) : list Stage + ParseError :=
  match iterate (parse_step line) 64 pstate_init with inr r => r | inl _ => inr PE_Empty end.

(** ** Tokens of a line *)

(** The next token and what follows it. *)
Definition lex (l : list Z) : option (Tok * list Z) :=
  match drop (count_while is_space l) l with
  | [] => None
  | b :: l' =>
      if b =? 124 then Some (TPipe, l')
      else if b =? 60 then Some (Less, l')
      else if b =? 62 then
        match l' with c :: l'' => if c =? 62 then Some (GreatGreat, l'') else Some (Great, l') | [] => Some (Great, l') end
      else Some (Word (take (count_while is_word (b :: l')) (b :: l')), drop (count_while is_word (b :: l')) (b :: l'))
  end.

Lemma count_while_le p l : (count_while p l <= length l)%nat.
Proof. induction l as [|b l IH]; cbn; [lia|]. destruct (p b); lia. Qed.

Lemma drop_count_while p l : match drop (count_while p l) l with [] => True | b :: _ => p b = false end.
Proof. induction l as [|b l IH]; cbn; [done|]. by destruct (p b) eqn:E. Qed.

(** What is neither blank nor an operator starts a word. *)
Lemma word_head l b l' :
  drop (count_while is_space l) l = b :: l' -> b <> 124 -> b <> 60 -> b <> 62 -> is_word b = true.
Proof.
  intros E H1 H2 H3. pose proof (drop_count_while is_space l) as H. rewrite E in H. unfold is_word, is_op. rewrite H.
  by rewrite !(proj2 (Z.eqb_neq _ _)).
Qed.

Lemma lex_shorter l t l' : lex l = Some (t, l') -> (length l' < length l)%nat.
Proof.
  unfold lex. pose proof (count_while_le is_space l) as Hle.
  assert (length (drop (count_while is_space l) l) <= length l)%nat as Hd by (rewrite length_drop; lia).
  destruct (drop (count_while is_space l) l) as [|b r] eqn:E; [done|]. cbn [length] in Hd.
  destruct (Z.eqb_spec b 124); [intros [= _ <-]; lia|]. destruct (Z.eqb_spec b 60); [intros [= _ <-]; lia|].
  destruct (Z.eqb_spec b 62).
  - destruct r as [|c r]; [intros [= _ <-]; cbn in *; lia|]. destruct (c =? 62); intros [= _ <-]; cbn in *; lia.
  - intros [= _ <-]. rewrite (word_head l b r E) by done. cbn [drop]. rewrite length_drop. lia.
Qed.

Definition inspect {X} (x : X) : {y | x = y} := exist _ x eq_refl.

Equations tokens (l : list Z) : list Tok by wf (length l) lt :=
  tokens l with inspect (lex l) => {
    | exist _ None _ => []
    | exist _ (Some (t, l')) H => t :: tokens l'
  }.
Next Obligation. by eapply lex_shorter. Qed.

Lemma tokens_lex l : tokens l = match lex l with None => [] | Some (t, l') => t :: tokens l' end.
Proof. simp tokens. destruct (inspect (lex l)) as [[[t l']|] E]; cbn; by rewrite E. Qed.

Lemma drop_cons {X} (l : list X) k b r :
  drop k l = b :: r -> l !! k = Some b /\ (k < length l)%nat /\ r = drop (k + 1) l.
Proof.
  intros E. assert (l !! k = Some b) as Hk.
  { replace k with (k + 0)%nat by lia. rewrite <- lookup_drop, E. done. }
  split; [done|]. split; [by eapply lookup_lt_Some|]. rewrite <- drop_drop, E. done.
Qed.

Lemma drop_nil_lookup {X} (l : list X) k : drop k l = [] -> l !! k = None.
Proof. intros E. apply lookup_ge_None. pose proof (length_drop l k) as Hl. rewrite E in Hl. cbn in Hl. lia. Qed.

(** The position-based tokenizer reads the same token. *)
Lemma next_token_lex line i :
  (i <= length line)%nat ->
  match next_token line i, lex (drop i line) with
  | None, None => True
  | Some (t, j), Some (t', r) => t = t' /\ (i < j <= length line)%nat /\ r = drop j line
  | _, _ => False
  end.
Proof.
  intros Hi. unfold next_token, lex. pose proof (word_head (drop i line)) as Hw. rewrite drop_drop in *.
  assert (i <= i + count_while is_space (drop i line))%nat as Hk by lia.
  revert Hk Hw. generalize (i + count_while is_space (drop i line))%nat. intros k Hk Hw.
  destruct (drop k line) as [|b r] eqn:E; [by rewrite (drop_nil_lookup _ _ E)|].
  destruct (drop_cons _ _ _ _ E) as (-> & Hlt & ->).
  destruct (b =? 124) eqn:E1; [split_and!; (done || lia)|]. destruct (b =? 60) eqn:E2; [split_and!; (done || lia)|].
  destruct (b =? 62) eqn:E3.
  - destruct (drop (k + 1) line) as [|c r'] eqn:E'.
    + rewrite decide_False by (by rewrite (drop_nil_lookup _ _ E')). split_and!; (done || lia).
    + destruct (drop_cons _ _ _ _ E') as (-> & Hlt' & ->). destruct (Z.eqb_spec c 62) as [->|Hc].
      * rewrite decide_True by done. split; [done|]. split; [lia|]. f_equal. lia.
      * rewrite decide_False by congruence. split; [done|]. split; [lia|]. done.
  - rewrite <- E. split; [done|]. rewrite drop_drop. pose proof (count_while_le is_word (drop k line)) as Hle. rewrite length_drop in Hle.
    assert (0 < count_while is_word (drop k line))%nat by (rewrite E; cbn; rewrite (Hw b _ eq_refl) by lia; lia).
    split; [lia|done].
Qed.

(** ** The reference parser *)

(** The loop on a list of tokens. *)
Fixpoint parse_toks (stages : list Stage) (cur : Stage) (any : bool) (ts : list Tok) : list Stage + ParseError :=
  match ts with
  | [] => parse_end {| ps_stages := stages; ps_cur := cur; ps_has_content := negb (bool_decide (argv cur = [])); ps_any_token := any; ps_i := 0 |}
  | Word w :: ts' => if decide (length (argv cur) = MAX_ARGS) then inr TooManyArgs else parse_toks stages (add_arg cur w) true ts'
  | TPipe :: ts' =>
      if decide (argv cur = []) then inr EmptyStage else
      if decide (length stages = MAX_PIPELINE_STAGES) then inr TooManyStages else parse_toks (stages ++ [cur]) Stage_empty true ts'
  | Great :: Word w :: ts' => parse_toks stages (set_out cur w RK_Out) true ts'
  | GreatGreat :: Word w :: ts' => parse_toks stages (set_out cur w RK_OutAppend) true ts'
  | Less :: Word w :: ts' => parse_toks stages (set_in cur w) true ts'
  | _ => inr MissingRedirectTarget
  end.

(** What the state of the loop will lead to. *)
Definition parse_rest (line : list Z) (s : pstate) : list Stage + ParseError :=
  parse_toks (ps_stages s) (ps_cur s) (ps_any_token s) (tokens (drop (ps_i s) line)).

Record pstate_ok (line : list Z) (s : pstate) : Prop := {
  pk_i : (ps_i s <= length line)%nat;
  pk_content : ps_has_content s = negb (bool_decide (argv (ps_cur s) = []))
}.

Definition redirect (tok : Tok) (cur : Stage) (w : list Z) : Stage :=
  match tok with
  | Great => set_out cur w RK_Out
  | GreatGreat => set_out cur w RK_OutAppend
  | _ => set_in cur w
  end.

(** The lookahead of a redirection. *)
Lemma parse_redirect line j tok stages cur any :
  (j <= length line)%nat -> tok = Great \/ tok = GreatGreat \/ tok = Less ->
  parse_toks stages cur any (tok :: tokens (drop j line)) =
  match next_token line j with
  | Some (Word w, after) => parse_toks stages (redirect tok cur w) true (tokens (drop after line))
  | _ => inr MissingRedirectTarget
  end /\
  forall w after, next_token line j = Some (Word w, after) -> (j < after <= length line)%nat.
Proof.
  intros Hj Htok. rewrite (tokens_lex (drop j line)). pose proof (next_token_lex line j Hj) as H.
  destruct (next_token line j) as [[t after]|], (lex (drop j line)) as [[t' r]|]; try done.
  - destruct H as (<- & Ha & ->). split; [|intros w a [= _ <-]; done].
    destruct Htok as [->|[->| ->]]; destruct t; done.
  - split; [|done]. by destruct Htok as [->|[->| ->]].
Qed.

Lemma parse_step_rest line s :
  pstate_ok line s ->
  match parse_step line s with
  | inl s' => pstate_ok line s' /\ (ps_i s < ps_i s')%nat /\ parse_rest line s' = parse_rest line s
  | inr r => r = parse_rest line s
  end.
Proof.
  intros [Hi Hc]. unfold parse_rest, parse_step. rewrite (tokens_lex (drop (ps_i s) line)).
  pose proof (next_token_lex line (ps_i s) Hi) as H. destruct (next_token line (ps_i s)) as [[t j]|], (lex (drop (ps_i s) line)) as [[t' r]|]; try done.
  2: { cbn [parse_toks]. unfold parse_end. cbn. by rewrite Hc. }
  destruct H as (<- & Hj & ->). pose proof (parse_redirect line j t (ps_stages s) (ps_cur s) (ps_any_token s) ltac:(lia)) as Hred.
  destruct t as [w| | | |].
  3, 4, 5: destruct Hred as [-> Ha]; [tauto|]; destruct (next_token line j) as [[[w| | | |] after]|]; try done;
    specialize (Ha w after eq_refl); split; [|split; [cbn; lia|done]]; by constructor; cbn; [lia|].
  - cbn [parse_toks]. case_decide; [done|]. split; [|split; [cbn; lia|done]]. constructor; cbn; [lia|].
    rewrite bool_decide_eq_false_2; [done|]. by destruct (argv (ps_cur s)).
  - cbn [parse_toks]. rewrite Hc. destruct (decide (argv (ps_cur s) = [])) as [E|E].
    + by rewrite bool_decide_eq_true_2.
    + rewrite bool_decide_eq_false_2 by done. cbn [negb]. case_decide; [done|]. split; [|split; [cbn; lia|done]]. by constructor; cbn; [lia|].
Qed.

(** The parser is the reference parser on the tokens of the line. *)
Lemma parse_line_toks line :
  Z.of_nat (length line) < 2 ^ 63 -> parse_line line = parse_toks [] Stage_empty false (tokens line).
Proof.
  intros Hlen. unfold parse_line.
  destruct (iterate_total (parse_step line) (fun s => pstate_ok line s /\ parse_rest line s = parse_toks [] Stage_empty false (tokens line))
    (fun r => r = parse_toks [] Stage_empty false (tokens line)) (fun s => Z.of_nat (length line) - Z.of_nat (ps_i s)) 64 pstate_init)
    as (r & -> & Hr); [| |cbn; lia|done].
  - intros s [Hs E]. pose proof (parse_step_rest line s Hs) as H. destruct (parse_step line s) as [s'|r]; [|congruence].
    destruct H as (Hs' & Hi & E'). pose proof (pk_i _ _ Hs'). split; [split; [done|congruence]|lia].
  - split; [|done]. constructor; cbn; [lia|done].
Qed.

(** ** The grammar *)

(** The tokens of one command as the parser takes them: words in order, redirections
    anywhere, also before the first word; the last of a kind counts; at most sixteen
    words. *)
Inductive stage_of : list Tok -> Stage -> Prop :=
  | so_empty : stage_of [] Stage_empty
  | so_word ts s w : stage_of ts s -> (length (argv s) < MAX_ARGS)%nat -> stage_of (ts ++ [Word w]) (add_arg s w)
  | so_redirect ts s tok w : stage_of ts s -> tok = Great \/ tok = GreatGreat \/ tok = Less ->
      stage_of (ts ++ [tok; Word w]) (redirect tok s w).

(** Commands with at least one word, separated by bars; at most eight. *)
Inductive pipeline_of : list Tok -> list Stage -> Prop :=
  | po_one ts s : stage_of ts s -> argv s <> [] -> pipeline_of ts [s]
  | po_more ts p ts' s : pipeline_of ts p -> (length p < MAX_PIPELINE_STAGES)%nat -> stage_of ts' s -> argv s <> [] ->
      pipeline_of (ts ++ TPipe :: ts') (p ++ [s]).

(** The grammar in the module's comment, [stage := token+ (redirect | token)*]: every
    command opens with a word. *)
Definition word_first (ts : list Tok) : Prop := exists w r, ts = Word w :: r.

Inductive doc_pipeline : list Tok -> list Stage -> Prop :=
  | dp_one ts s : word_first ts -> stage_of ts s -> doc_pipeline ts [s]
  | dp_more ts p ts' s : doc_pipeline ts p -> (length p < MAX_PIPELINE_STAGES)%nat -> word_first ts' -> stage_of ts' s ->
      doc_pipeline (ts ++ TPipe :: ts') (p ++ [s]).

Lemma stage_of_word_first ts s : stage_of ts s -> word_first ts -> argv s <> [].
Proof.
  induction 1 as [|ts s w _ IH _|ts s tok w _ IH Htok]; intros (v & r & E); [done|..].
  - cbn. by destruct (argv s).
  - destruct ts as [|t ts]; [cbn in E; injection E as -> _; by destruct Htok as [|[|]]|].
    injection E as -> _. enough (argv s <> []) by (by destruct tok). apply IH. by exists v, ts.
Qed.

Lemma doc_pipeline_word ts p : doc_pipeline ts p -> word_first ts.
Proof. induction 1 as [|ts q ts' s _ (w & r & ->)]; [done|]. by exists w, (r ++ TPipe :: ts'). Qed.

(** What the comment's grammar derives the parser's does. *)
Lemma doc_pipeline_of ts p : doc_pipeline ts p -> pipeline_of ts p.
Proof. induction 1; constructor; eauto using stage_of_word_first. Qed.

Lemma pipeline_of_length ts p : pipeline_of ts p -> (1 <= length p <= MAX_PIPELINE_STAGES)%nat.
Proof. induction 1; unfold MAX_PIPELINE_STAGES in *; rewrite ?length_app; cbn in *; lia. Qed.

Lemma stage_of_length ts s : stage_of ts s -> (length (argv s) <= MAX_ARGS)%nat.
Proof.
  induction 1 as [|ts s w _ IH Hl|ts s tok w _ IH Htok]; unfold MAX_ARGS in *; [cbn; lia| |by destruct tok].
  cbn. rewrite length_app. cbn. lia.
Qed.

Lemma parse_stage ts s : stage_of ts s -> forall stages any rest,
  parse_toks stages Stage_empty any (ts ++ rest) = parse_toks stages s (any || negb (bool_decide (ts = []))) rest.
Proof.
  induction 1 as [|ts s w _ IH Hl|ts s tok w _ IH Htok]; intros stages any rest.
  - by rewrite orb_false_r.
  - rewrite <- app_assoc, IH, (bool_decide_eq_false_2 (ts ++ _ = [])), orb_true_r by (by destruct ts). cbn [app parse_toks].
    rewrite decide_False by lia. done.
  - rewrite <- app_assoc, IH, (bool_decide_eq_false_2 (ts ++ _ = [])), orb_true_r by (by destruct ts).
    by destruct Htok as [->|[->| ->]].
Qed.

Lemma parse_pipeline ts p : pipeline_of ts p -> forall rest,
  exists stages s, p = stages ++ [s] /\ argv s <> [] /\ (length stages < MAX_PIPELINE_STAGES)%nat /\
    parse_toks [] Stage_empty false (ts ++ rest) = parse_toks stages s true rest.
Proof.
  induction 1 as [ts s Hs Hne|ts p ts' s Hp IH Hl Hs Hne]; intros rest.
  - exists [], s. split_and!; [done|done|unfold MAX_PIPELINE_STAGES; cbn; lia|]. rewrite (parse_stage ts s Hs).
    rewrite bool_decide_eq_false_2; [done|]. intros ->. inversion Hs as [| |]; subst; [done|..]; by destruct ts.
  - destruct (IH (TPipe :: ts' ++ rest)) as (stages & s0 & -> & Hne0 & Hl0 & E). exists (stages ++ [s0]), s.
    split_and!; [done|done|done|]. rewrite <- app_assoc. cbn [app]. rewrite E. cbn [parse_toks].
    rewrite decide_False by done. rewrite decide_False by lia. by rewrite (parse_stage ts' s Hs).
Qed.

(** The tokens read so far, when the loop has [stages] and [cur]. *)
Definition partial (pre : list Tok) (stages : list Stage) (cur : Stage) : Prop :=
  (stages = [] /\ stage_of pre cur) \/ exists a b, pre = a ++ TPipe :: b /\ pipeline_of a stages /\ stage_of b cur.

Lemma partial_stage pre stages cur ts cur' :
  (forall b, stage_of b cur -> stage_of (b ++ ts) cur') -> partial pre stages cur -> partial (pre ++ ts) stages cur'.
Proof.
  intros Hstep [[-> Hs]|(a & b & -> & Hp & Hs)]; [left; auto|]. right. exists a, (b ++ ts). rewrite <- app_assoc. auto.
Qed.

Lemma partial_end pre stages cur :
  partial pre stages cur -> argv cur <> [] -> length stages <> MAX_PIPELINE_STAGES -> pipeline_of pre (stages ++ [cur]).
Proof.
  intros [[-> Hs]|(a & b & -> & Hp & Hs)] Hne Hl; [by constructor|]. pose proof (pipeline_of_length _ _ Hp). constructor; (done || lia).
Qed.

Lemma parse_toks_sound n : forall ts pre stages cur any p,
  (length ts <= n)%nat -> partial pre stages cur -> parse_toks stages cur any ts = inl p -> pipeline_of (pre ++ ts) p.
Proof.
  induction n as [|n IH]; intros ts pre stages cur any p Hn Hpre E.
  all: destruct ts as [|t ts]; cbn [length] in Hn; [|try lia].
  1, 2: rewrite app_nil_r; cbn [parse_toks] in E; unfold parse_end in E; cbn in E;
    destruct any; [|done]; destruct (decide (argv cur = [])) as [Ha|Ha]; [by rewrite bool_decide_eq_true_2 in E|];
    rewrite bool_decide_eq_false_2 in E by done; cbn in E; case_decide; [done|]; injection E as <-; by apply partial_end.
  assert (forall tok w ts', ts = Word w :: ts' -> tok = Great \/ tok = GreatGreat \/ tok = Less ->
    parse_toks stages (redirect tok cur w) true ts' = inl p -> pipeline_of (pre ++ tok :: ts) p) as Hred.
  { intros tok w ts' -> Htok E'. replace (pre ++ tok :: Word w :: ts') with ((pre ++ [tok; Word w]) ++ ts') by (by rewrite <- app_assoc).
    eapply IH; [cbn in Hn; lia| |exact E']. eapply partial_stage; [|done]. intros b Hb. by constructor. }
  destruct t as [w| | | |]; cbn [parse_toks] in E.
  3, 4, 5: destruct ts as [|[w| | | |] ts']; try done; eapply Hred; [done|tauto|done].
  - case_decide as Hl; [done|]. replace (pre ++ Word w :: ts) with ((pre ++ [Word w]) ++ ts) by (by rewrite <- app_assoc).
    eapply IH; [lia| |exact E]. eapply partial_stage; [|done]. intros b Hb. pose proof (stage_of_length _ _ Hb). constructor; [done|lia].
  - case_decide; [done|]. case_decide; [done|]. replace (pre ++ TPipe :: ts) with ((pre ++ [TPipe]) ++ ts) by (by rewrite <- app_assoc).
    eapply IH; [lia| |exact E]. right. exists pre, []. split; [done|]. split; [by apply partial_end|constructor].
Qed.

(** What the grammar derives is what the reference parser returns. *)
Lemma parse_toks_complete ts p : pipeline_of ts p -> parse_toks [] Stage_empty false ts = inl p.
Proof.
  intros Hp. destruct (parse_pipeline _ _ Hp []) as (stages & s & -> & Hne & Hl & E). rewrite app_nil_r in E. rewrite E.
  cbn [parse_toks]. unfold parse_end. cbn. rewrite bool_decide_eq_false_2 by done. cbn. by rewrite decide_False by lia.
Qed.

Lemma parse_line_sound line p : Z.of_nat (length line) < 2 ^ 63 -> parse_line line = inl p -> pipeline_of (tokens line) p.
Proof.
  intros Hlen. rewrite parse_line_toks by done. intros E.
  apply (parse_toks_sound (length (tokens line)) (tokens line) [] [] Stage_empty false p); [lia| |done]. left. split; [done|constructor].
Qed.

Lemma parse_line_complete line p : Z.of_nat (length line) < 2 ^ 63 -> pipeline_of (tokens line) p -> parse_line line = inl p.
Proof. intros Hlen. rewrite parse_line_toks by done. apply parse_toks_complete. Qed.

(** C30: the parser accepts exactly the language of the grammar in which a command is
    words and redirections in any order with at least one word: a line is turned
    into a pipeline if and only if that grammar derives the pipeline from the tokens
    of the line, for every line; so words and redirections end up in the stage and
    order they were written in, no operator is lost or glued to a word, and the
    limits of eight stages and sixteen words are exact.  The grammar is larger than the
    one in the module's comment, which wants a word first: every line the comment's
    grammar derives within those limits is parsed to that pipeline, and so are lines
    with leading redirections. *)
Theorem shell_parse_grammar (line : list Z) (p : list Stage) :
  Z.of_nat (length line) < 2 ^ 63 ->
  (parse_line line = inl p <-> pipeline_of (tokens line) p) /\ (doc_pipeline (tokens line) p -> parse_line line = inl p).
Proof.
  intros Hlen. split; [split|]; eauto using parse_line_sound, parse_line_complete, doc_pipeline_of.
Qed.

(** The line "> f c", which the comment's grammar does not derive, is accepted. *)
Theorem leading_redirection_accepted :
  parse_line [62; 32; 102; 32; 99] = inl [{| argv := [[99]]; redirect_out := Some ([102], RK_Out); redirect_in := None |}] /\
  forall p, ~ doc_pipeline (tokens [62; 32; 102; 32; 99]) p.
Proof.
  split; [vm_compute; reflexivity|]. intros p (w & r & E)%doc_pipeline_word. vm_compute in E. discriminate E.
Qed.

(** ** Printing *)

Definition print_tok (t : Tok) : list Z :=
  match t with
  | Word w => w
  | TPipe => [124]
  | Great => [62]
  | GreatGreat => [62; 62]
  | Less => [60]
  end.

(** Tokens with a blank after each. *)
Definition print_toks (ts : list Tok) : list Z := concat ((fun t => print_tok t ++ [32]) <$> ts).

Definition good_word (w : list Z) : Prop := w <> [] /\ Forall (fun b => is_word b = true) w.

Definition good_tok (t : Tok) : Prop := match t with Word w => good_word w | _ => True end.

Lemma count_while_all p l b r : Forall (fun b => p b = true) l -> p b = false -> count_while p (l ++ b :: r) = length l.
Proof. intros Hl Hb. induction Hl as [|x l Hx _ IH]; cbn; [by rewrite Hb|]. by rewrite Hx, IH. Qed.

Lemma lex_print t r : good_tok t -> lex (print_tok t ++ 32 :: r) = Some (t, 32 :: r).
Proof.
  destruct t as [w| | | |]; cbn [print_tok good_tok]; intros Hg; [|reflexivity..].
  destruct Hg as [Hne Hw]. destruct w as [|b w]; [done|]. pose proof Hw as Hw'. apply Forall_cons in Hw as [Hb _].
  assert (is_space b = false /\ b <> 124 /\ b <> 62 /\ b <> 60) as (Hsp & H1 & H2 & H3).
  { unfold is_word, is_op in Hb. destruct (is_space b); [done|]. cbn in Hb. split; [done|]. lia. }
  unfold lex. replace (count_while is_space ((b :: w) ++ 32 :: r)) with 0%nat by (cbn; by rewrite Hsp).
  cbn [drop app]. rewrite !(proj2 (Z.eqb_neq _ _)) by done.
  change (b :: w ++ 32 :: r) with ((b :: w) ++ 32 :: r). rewrite (count_while_all is_word (b :: w) 32 r Hw' eq_refl).
  by rewrite take_app_length, drop_app_length.
Qed.

Lemma lex_blank r : lex (32 :: r) = lex r.
Proof. unfold lex. cbn [count_while]. by change (is_space 32) with true. Qed.

Lemma tokens_print ts : Forall good_tok ts -> tokens (print_toks ts) = ts.
Proof.
  unfold print_toks. induction 1 as [|t ts Ht _ IH]; [by rewrite tokens_lex|]. cbn [fmap list_fmap concat].
  rewrite tokens_lex, <- app_assoc. cbn [app]. rewrite lex_print by done. f_equal. by rewrite tokens_lex, lex_blank, <- tokens_lex.
Qed.

(** The tokens of a stage: its words, then its redirections. *)
Definition stage_toks (s : Stage) : list Tok :=
  (Word <$> argv s) ++
  (match redirect_in s with Some w => [Less; Word w] | None => [] end) ++
  (match redirect_out s with
   | Some (w, RK_OutAppend) => [GreatGreat; Word w]
   | Some (w, _) => [Great; Word w]
   | None => []
   end).

Fixpoint pipeline_toks (p : list Stage) : list Tok :=
  match p with
  | [] => []
  | [s] => stage_toks s
  | s :: p' => stage_toks s ++ TPipe :: pipeline_toks p'
  end.

Definition print_pipeline (p : list Stage) : list Z := print_toks (pipeline_toks p).

(** What the parser can return. *)
Record stage_wf (s : Stage) : Prop := {
  sw_args : (1 <= length (argv s) <= MAX_ARGS)%nat;
  sw_words : Forall good_word (argv s);
  sw_in : match redirect_in s with Some w => good_word w | None => True end;
  sw_out : match redirect_out s with Some (w, k) => good_word w /\ (k = RK_Out \/ k = RK_OutAppend) | None => True end
}.

Definition pipeline_wf (p : list Stage) : Prop := (1 <= length p <= MAX_PIPELINE_STAGES)%nat /\ Forall stage_wf p.

Lemma stage_of_words ws : (length ws <= MAX_ARGS)%nat ->
  stage_of (Word <$> ws) {| argv := ws; redirect_out := None; redirect_in := None |}.
Proof.
  induction ws as [|w ws IH] using rev_ind; intros Hl; [constructor|]. rewrite length_app in Hl. cbn in Hl.
  rewrite fmap_app. apply (so_word _ {| argv := ws; redirect_out := None; redirect_in := None |}); [apply IH; lia|cbn; lia].
Qed.

Lemma stage_of_toks s : stage_wf s -> stage_of (stage_toks s) s.
Proof.
  intros [Ha _ _ Ho]. unfold stage_toks. rewrite app_assoc. destruct s as [ws o i]. cbn [argv redirect_in redirect_out] in *.
  assert (stage_of ((Word <$> ws) ++ match i with Some w => [Less; Word w] | None => [] end) {| argv := ws; redirect_out := None; redirect_in := i |}) as Hi.
  { pose proof (stage_of_words ws ltac:(lia)) as Hw. destruct i as [w|]; [|by rewrite app_nil_r].
    apply (so_redirect _ _ Less w) in Hw; [done|tauto]. }
  destruct o as [[w k]|]; [|by rewrite app_nil_r]. destruct Ho as [_ [->| ->]].
  - apply (so_redirect _ _ Great w) in Hi; [done|tauto].
  - apply (so_redirect _ _ GreatGreat w) in Hi; [done|tauto].
Qed.

Lemma pipeline_toks_snoc p s : p <> [] -> pipeline_toks (p ++ [s]) = pipeline_toks p ++ TPipe :: stage_toks s.
Proof.
  induction p as [|s0 p IH]; [done|]. intros _. destruct p as [|s1 p]; [done|].
  change (pipeline_toks ((s0 :: s1 :: p) ++ [s])) with (stage_toks s0 ++ TPipe :: pipeline_toks ((s1 :: p) ++ [s])).
  rewrite IH by done. cbn [pipeline_toks]. by rewrite <- app_assoc.
Qed.

Lemma pipeline_of_toks p : pipeline_wf p -> pipeline_of (pipeline_toks p) p.
Proof.
  intros [Hl Hp]. induction p as [|s p IH] using rev_ind; [cbn in Hl; lia|]. apply Forall_app in Hp as [Hp [Hs _]%Forall_cons].
  assert (argv s <> []) as Hne by (intros E; pose proof (sw_args _ Hs) as Ha; rewrite E in Ha; cbn in Ha; lia).
  rewrite length_app in Hl. cbn in Hl. destruct (decide (p = [])) as [->|Hp0].
  - constructor; [by apply stage_of_toks|done].
  - rewrite pipeline_toks_snoc by done. constructor; [|lia|by apply stage_of_toks|done].
    apply IH; [|done]. destruct p; [done|]. cbn in *. lia.
Qed.

Lemma stage_toks_good s : stage_wf s -> Forall good_tok (stage_toks s).
Proof.
  intros [_ Hw Hi Ho]. unfold stage_toks. rewrite !Forall_app. split_and!.
  - by rewrite Forall_fmap.
  - destruct (redirect_in s); repeat constructor; apply Hi.
  - destruct (redirect_out s) as [[w []]|]; repeat constructor; apply Ho.
Qed.

Lemma pipeline_toks_good p : Forall stage_wf p -> Forall good_tok (pipeline_toks p).
Proof.
  induction 1 as [|s p Hs Hp IH]; [constructor|]. apply stage_toks_good in Hs. destruct p as [|s' p]; [done|].
  change (pipeline_toks (s :: s' :: p)) with (stage_toks s ++ TPipe :: pipeline_toks (s' :: p)). rewrite Forall_app, Forall_cons. done.
Qed.

(** Printing a pipeline and parsing the line gives the pipeline back, for every
    pipeline of one to eight commands of one to sixteen words, with any
    redirections, whose words are not empty and contain no blank and no operator. *)
Theorem shell_print_parse (p : list Stage) :
  pipeline_wf p -> Z.of_nat (length (print_pipeline p)) < 2 ^ 63 -> parse_line (print_pipeline p) = inl p.
Proof.
  intros Hp Hlen. rewrite parse_line_toks by done. unfold print_pipeline.
  rewrite tokens_print by (apply pipeline_toks_good, Hp). by apply parse_toks_complete, pipeline_of_toks.
Qed.

Lemma count_while_take p l : Forall (fun b => p b = true) (take (count_while p l) l).
Proof. induction l as [|b l IH]; cbn; [constructor|]. destruct (p b) eqn:E; [by constructor|constructor]. Qed.

Lemma lex_good l t r : lex l = Some (t, r) -> good_tok t.
Proof.
  unfold lex. destruct (drop (count_while is_space l) l) as [|b l'] eqn:E; [done|].
  destruct (Z.eqb_spec b 124); [by intros [= <- _]|]. destruct (Z.eqb_spec b 60); [by intros [= <- _]|].
  destruct (Z.eqb_spec b 62).
  - destruct l' as [|c l'']; [by intros [= <- _]|]. destruct (c =? 62); by intros [= <- _].
  - intros [= <- _]. split; [|apply (count_while_take is_word (b :: l'))]. cbn [count_while]. by rewrite (word_head l b l' E) by done.
Qed.

Lemma tokens_good l : Forall good_tok (tokens l).
Proof. funelim (tokens l); [|constructor]. constructor; [by eapply lex_good|done]. Qed.

Lemma stage_of_wf ts s : stage_of ts s -> Forall good_tok ts -> argv s <> [] -> stage_wf s.
Proof.
  intros Hs Hg Hne. pose proof (stage_of_length _ _ Hs) as Hl.
  assert (Forall good_word (argv s) /\ match redirect_in s with Some w => good_word w | None => True end /\
    match redirect_out s with Some (w, k) => good_word w /\ (k = RK_Out \/ k = RK_OutAppend) | None => True end) as (H1 & H2 & H3).
  { clear Hne Hl. induction Hs as [|ts s w _ IH Hl|ts s tok w _ IH Htok]; [by split_and!; [constructor|..]|..];
      apply Forall_app in Hg as [Hg Hw]; destruct (IH Hg) as (H1 & H2 & H3).
    - apply Forall_cons in Hw as [Hw _]. split_and!; [|done|done]. cbn. by apply Forall_app; split; [|constructor].
    - apply Forall_cons in Hw as [_ [Hw _]%Forall_cons]. destruct Htok as [->|[->| ->]]; cbn; split_and!; auto. }
  constructor; try done. destruct (argv s); [done|]. cbn in *. lia.
Qed.

(** C38: every pipeline the parser returns has one to eight commands of one to sixteen
    words; no word and no file name is empty or contains a blank or an operator, and
    the kind of an output redirection is truncate or append.  So the executor never
    sees a command without a program, and its arrays of eight and sixteen suffice. *)
Theorem shell_parse_type (line : list Z) (p : list Stage) :
  Z.of_nat (length line) < 2 ^ 63 -> parse_line line = inl p -> pipeline_wf p.
Proof.
  intros Hlen E. pose proof (parse_line_sound line p Hlen E) as Hp. pose proof (tokens_good line) as Hg.
  split; [by eapply pipeline_of_length|]. clear E. induction Hp as [ts s Hs Hne|ts p ts' s _ IH _ Hs Hne].
  - constructor; [by eapply stage_of_wf|constructor].
  - apply Forall_app in Hg as [Hg [_ Hg']%Forall_cons]. apply Forall_app. split; [by apply IH|].
    constructor; [by eapply stage_of_wf|constructor].
Qed.

(** [/bin/echo hi>/tmp/o|/bin/cat]. *)
Definition demo_line : list Z :=
  [47; 98; 105; 110; 47; 101; 99; 104; 111; 32; 104; 105; 62; 47; 116; 109; 112; 47; 111; 124; 47; 98; 105; 110; 47; 99; 97; 116].

Definition demo_pipeline : list Stage :=
  [{| argv := [[47; 98; 105; 110; 47; 101; 99; 104; 111]; [104; 105]]; redirect_out := Some ([47; 116; 109; 112; 47; 111], RK_Out);
      redirect_in := None |};
   {| argv := [[47; 98; 105; 110; 47; 99; 97; 116]]; redirect_out := None; redirect_in := None |}].

Lemma shell_parse_grammar_witness : pipeline_of (tokens demo_line) demo_pipeline.
Proof. apply (proj1 (shell_parse_grammar demo_line demo_pipeline ltac:(simpl; lia))). vm_compute. reflexivity. Defined.

Lemma shell_print_parse_witness : parse_line (print_pipeline demo_pipeline) = inl demo_pipeline.
Proof.
  apply (shell_print_parse demo_pipeline).
  - split; [vm_compute; lia|]. repeat constructor; try discriminate; (vm_compute; lia) || (left; reflexivity).
  - apply Z.ltb_lt. vm_compute. reflexivity.
Defined.

Lemma shell_parse_type_witness : pipeline_wf demo_pipeline.
Proof. apply (shell_parse_type demo_line demo_pipeline); [simpl; lia|vm_compute; reflexivity]. Defined.
