(* ===== verification/ShellExec.v ===== *)
(** * Running a pipeline

    userspace/shell/src/exec.rs on the descriptor tables of Fd.v: the pipes the shell
    makes, what each child does to its copy of the table before it becomes the
    command, what the shell closes, and the status it reports.

    A table changes only through the calls of its own process, so the tables are
    followed one by one here; the reference counts of the pipe ends are then the
    numbers of descriptors that refer to them, whatever the interleaving (Fd.v).
    The kernel's answers to fork and wait4 are arguments, and so is the file
    that opening a path finds.  Messages to standard error are left out. *)

From Stdlib Require Import ZArith Lia.
From stdpp Require Import prelude gmap list.
From S2P Require Import Prelude Fd Wait Shell.

Local Open Scope Z_scope.

Definition STDIN : Z := 0.
Definition STDOUT : Z := 1.
Definition EXIT_NOT_FOUND : Z := 127.
Definition EXIT_REDIRECT_FAIL : Z := 1.

Definition wifexited (status : Z) : bool := Z.land status 127 =? 0.
Definition wexitstatus (status : Z) : Z := Z.land (Z.shiftr status 8) 255.

(** ** The calls, as seen by one table *)

Definition dup2 (t : FdTable) (old_fd new_fd : Z) : Z * FdTable :=
  let '(r, _, t') := FdTable_dup2 ∅ t old_fd new_fd in (r, t').

Definition close (t : FdTable) (fd : Z) : FdTable := snd (FdTable_close t fd).

(** [pipe()] with the vnodes of the new pipe; the two numbers are those [sys_pipe]
    stores for the caller. *)
Definition pipe (t : FdTable) (read_vn write_vn : Z) : option (Z * Z) * FdTable :=
  let '(r, t1) := FdTable_alloc t read_vn O_RDONLY in
  if r <? 0 then (None, t1) else
  let '(w, t2) := FdTable_alloc t1 write_vn O_WRONLY in
  if w <? 0 then (None, snd (FdTable_close t2 r)) else (Some (r, w), t2).

Record PipeFds := { pf_read : Z; pf_write : Z }.

Definition close_pipe (t : FdTable) (pf : PipeFds) : FdTable := close (close t (pf_read pf)) (pf_write pf).

(** Step 1: all pipes, or none. *)
Fixpoint make_pipes (t : FdTable) (pipes : list PipeFds) (vnodes : list (Z * Z)) : list PipeFds * FdTable + FdTable :=
  match vnodes with
  | [] => inl (pipes, t)
  | (rv, wv) :: vnodes' =>
      match pipe t rv wv with
      | (Some (r, w), t1) => make_pipes t1 (pipes ++ [{| pf_read := r; pf_write := w |}]) vnodes'
      | (None, t1) => inr (foldl close_pipe t1 pipes)
      end
  end.

Section Exec.
(** What [open] of a path finds or creates. *)
Context (fs_open : list Z -> Z -> option Z).

Definition open (t : FdTable) (path : list Z) (flags : Z) : Z * FdTable :=
  match fs_open path flags with Some vn => FdTable_alloc t vn flags | None => (-2, t) end.

(** A file on descriptor [fd], as [<] and [>] do it. *)
Definition redirect_to (t : FdTable) (path : list Z) (flags fd : Z) : option FdTable :=
  let '(f, t1) := open t path flags in
  if f <? 0 then None else
  let '(r, t2) := dup2 t1 f fd in
  if r <? 0 then None else Some (close t2 f).

Definition out_flags (kind : RedirectKind) : Z :=
  match kind with
  | RK_OutAppend => Z.lor O_WRONLY O_CREAT
  | _ => Z.lor (Z.lor O_WRONLY O_CREAT) O_TRUNC
  end.

Definition child_stdin (t : FdTable) (pipes : list PipeFds) (i : nat) : option FdTable :=
  match i with
  | O => Some t
  | S i' =>
      pf ← pipes !! i';
      let '(r, t') := dup2 t (pf_read pf) STDIN in if r <? 0 then None else Some t'
  end.

Definition child_stdout (t : FdTable) (pipes : list PipeFds) (i n : nat) : option FdTable :=
  if decide (i + 1 < n)%nat then
    pf ← pipes !! i;
    let '(r, t') := dup2 t (pf_write pf) STDOUT in if r <? 0 then None else Some t'
  else Some t.

(** [child_setup_and_exec] up to the call of execve: the table the command starts
    with, or the code of an early exit. *)
Definition child_setup_and_exec (t : FdTable) (stage : Stage) (i n : nat) (pipes : list PipeFds) : FdTable + Z :=
  match
    t1 ← child_stdin t pipes i;
    t2 ← child_stdout t1 pipes i n;
    t3 ← (match redirect_in stage with Some path => redirect_to t2 path O_RDONLY STDIN | None => Some t2 end);
    match redirect_out stage with Some (path, kind) => redirect_to t3 path (out_flags kind) STDOUT | None => Some t3 end
  with
  | None => inr EXIT_REDIRECT_FAIL
  | Some t4 =>
      let t5 := foldl close_pipe t4 pipes in
      match argv stage with [] => inr EXIT_NOT_FOUND | _ => inl t5 end
  end.

(** Step 2: fork every stage; a negative answer stops the loop. *)
Fixpoint fork_stages (t : FdTable) (pipes : list PipeFds) (n i : nat) (stages : list Stage) (answers : list Z)
  : list Z * list (FdTable + Z) :=
  match stages, answers with
  | s :: stages', pid :: answers' =>
      if pid <? 0 then ([], []) else
      let '(pids, cs) := fork_stages t pipes n (S i) stages' answers' in
      (pid :: pids, child_setup_and_exec t s i n pipes :: cs)
  | _, _ => ([], [])
  end.

(** Step 4: as many answers as there are children. *)
Fixpoint reap (forked : nat) (last_pid last_status : Z) (answers : list (Z * Z)) : Z :=
  match forked, answers with
  | S k, (reaped, status) :: answers' =>
      if reaped <? 0 then last_status else reap k last_pid (if reaped =? last_pid then status else last_status) answers'
  | _, _ => last_status
  end.

(** The status, the table of the shell afterwards, and the tables of the children. *)
Definition execute_pipeline (t : FdTable) (p : list Stage) (vnodes : list (Z * Z)) (forks : list Z) (waits : list (Z * Z))
  : Z * FdTable * list (FdTable + Z) :=
  let n := length p in
  if decide (n = 0)%nat then (0, t, []) else
  match make_pipes t [] vnodes with
  | inr t1 => (1, t1, [])
  | inl (pipes, t1) =>
      let '(pids, children) := fork_stages t1 pipes n 0 p forks in
      let t2 := foldl close_pipe t1 pipes in
      let last_pid := if decide (length pids = n) then default 0 (last pids) else -1 in
      let last_status := reap (length pids) last_pid 0 waits in
      (if wifexited last_status then wexitstatus last_status else 1, t2, children)
  end.

End Exec.

(** ** Single calls *)

Definition fd_entry (vn flags : Z) : FdEntry := {| fe_vnode_ptr := vn; fe_offset := 0; fe_flags := flags; fe_reserved := 0 |}.

(** The number of free slots. *)
Definition nfree (t : FdTable) : Z := zsum (fun o => match o with None => 1 | Some _ => 0 end) t.

Lemma nfree_take t i e : t !! i = Some None -> nfree (<[i := Some e]> t) = nfree t - 1.
Proof. intros Hi. unfold nfree. rewrite (zsum_insert _ t i None) by done. lia. Qed.

Lemma nfree_swap t i e e' : t !! i = Some (Some e) -> nfree (<[i := Some e']> t) = nfree t.
Proof. intros Hi. unfold nfree. rewrite (zsum_insert _ t i (Some e)) by done. lia. Qed.

Lemma first_none_free t : 0 < nfree t -> exists i, first_none t = Some i.
Proof.
  intros Hf. unfold first_none. destruct (list_find _ t) as [[i o]|] eqn:E; [by eexists|]. exfalso.
  apply list_find_None in E. revert Hf. unfold nfree. induction E as [|o t Ho _ IH]; [cbn; lia|]. destruct o; [|done]. cbn. done.
Qed.

Lemma alloc_free t vn flags :
  0 < nfree t -> exists i, t !! i = Some None /\ FdTable_alloc t vn flags = (Z.of_nat i, <[i := Some (fd_entry vn flags)]> t).
Proof.
  intros Hf. destruct (first_none_free t Hf) as [i Hi]. exists i. split; [by apply first_none_Some|]. unfold FdTable_alloc. by rewrite Hi.
Qed.

Lemma close_lookup (t : FdTable) (f s : nat) :
  length t = 64%nat -> (f < 64)%nat -> close t (Z.of_nat f) !! s = if decide (s = f) then Some None else t !! s.
Proof.
  intros Hl Hf. unfold close, FdTable_close. rewrite (proj2 (fd_in_range _)) by lia. rewrite Nat2Z.id.
  destruct (lookup_lt_is_Some_2 t f ltac:(lia)) as [o Ho]. rewrite Ho. destruct o as [e|]; cbn [mjoin option_join snd].
  - case_decide as E; [subst; apply list_lookup_insert_eq; lia|by apply list_lookup_insert_ne].
  - case_decide as E; [by subst|done].
Qed.

Lemma close_length t fd : length (close t fd) = length t.
Proof. unfold close, FdTable_close. repeat case_match; try done. cbn. apply length_insert. Qed.

Lemma dup2_open t (old new : nat) e :
  length t = 64%nat -> t !! old = Some (Some e) -> (new < 64)%nat -> old <> new ->
  dup2 t (Z.of_nat old) (Z.of_nat new) = (Z.of_nat new, <[new := Some e]> t).
Proof.
  intros Hl Ho Hn Hne. pose proof (lookup_lt_Some _ _ _ Ho) as Hlt. unfold dup2, FdTable_dup2, FdTable_get.
  rewrite (proj2 (Z.eqb_neq _ _)) by lia. rewrite !(proj2 (fd_in_range _)) by lia. rewrite !Nat2Z.id, Ho. done.
Qed.

(** ** The pipes in a table *)

Definition pf_slots (pf : PipeFds) : list nat := [Z.to_nat (pf_read pf); Z.to_nat (pf_write pf)].
Definition slots (pipes : list PipeFds) : list nat := concat (pf_slots <$> pipes).

(** Table [t] is [u] with the ends of [pipes] added in slots that are free in [u]. *)
Record with_pipes (u t : FdTable) (pipes : list PipeFds) (vnodes : list (Z * Z)) : Prop := {
  wp_len : length u = 64%nat /\ length t = 64%nat;
  wp_pairs : Forall2 (fun pf v => 0 <= pf_read pf /\ 0 <= pf_write pf /\
    t !! Z.to_nat (pf_read pf) = Some (Some (fd_entry (fst v) O_RDONLY)) /\
    t !! Z.to_nat (pf_write pf) = Some (Some (fd_entry (snd v) O_WRONLY))) pipes vnodes;
  wp_free : forall s, s ∈ slots pipes -> u !! s = Some None;
  wp_other : forall s, s ∉ slots pipes -> t !! s = u !! s
}.

Lemma with_pipes_slot u t pipes vnodes s : with_pipes u t pipes vnodes -> s ∈ slots pipes -> exists e, t !! s = Some (Some e).
Proof.
  intros [_ Hp _ _] Hs. unfold slots in Hs. induction Hp as [|pf v pipes vnodes (_ & _ & H1 & H2) _ IH]; [by apply not_elem_of_nil in Hs|].
  cbn in Hs. rewrite !elem_of_cons in Hs. destruct Hs as [->|[->|Hs]]; eauto.
Qed.

Lemma with_pipes_nil t : length t = 64%nat -> with_pipes t t [] [].
Proof. intros Hl. constructor; try done; by intros s ?%not_elem_of_nil. Qed.

(** A free slot is free on both sides. *)
Lemma with_pipes_None u t pipes vnodes s :
  with_pipes u t pipes vnodes -> t !! s = Some None -> s ∉ slots pipes /\ u !! s = Some None.
Proof.
  intros Hw Hs. assert (s ∉ slots pipes) as Hn by (intros Hin; destruct (with_pipes_slot _ _ _ _ _ Hw Hin); congruence).
  split; [done|]. by rewrite <- (wp_other _ _ _ _ Hw).
Qed.

Lemma with_pipes_frame u t pipes vnodes s o :
  with_pipes u t pipes vnodes -> s ∉ slots pipes -> with_pipes (<[s := o]> u) (<[s := o]> t) pipes vnodes.
Proof.
  intros [[Hu Ht] Hp Hf Ho] Hs. constructor.
  - by rewrite !length_insert.
  - revert Hs. clear Hf Ho. unfold slots. induction Hp as [|pf v pipes vnodes (H1 & H2 & H3 & H4) _ IH]; intros Hs; [constructor|].
    cbn in Hs. rewrite !not_elem_of_cons in Hs. destruct Hs as (Hs1 & Hs2 & Hs3). constructor; [|by apply IH].
    by rewrite !list_lookup_insert_ne.
  - intros s' Hs'. rewrite list_lookup_insert_ne by congruence. auto.
  - intros s' Hs'. destruct (decide (s' = s)) as [->|]; [|by rewrite !list_lookup_insert_ne by done; auto].
    destruct (decide (s < 64)%nat); [by rewrite !list_lookup_insert_eq by lia|].
    by rewrite !lookup_ge_None_2 by (rewrite length_insert; lia).
Qed.

Lemma with_pipes_add u t pipes vnodes (a b : nat) rv wv :
  with_pipes u t pipes vnodes -> t !! a = Some None -> t !! b = Some None -> a <> b ->
  with_pipes u (<[b := Some (fd_entry wv O_WRONLY)]> (<[a := Some (fd_entry rv O_RDONLY)]> t))
    (pipes ++ [{| pf_read := Z.of_nat a; pf_write := Z.of_nat b |}]) (vnodes ++ [(rv, wv)]).
Proof.
  intros Hw Ha Hb Hne. destruct (with_pipes_None _ _ _ _ _ Hw Ha) as [Hna Hua]. destruct (with_pipes_None _ _ _ _ _ Hw Hb) as [Hnb Hub].
  pose proof (with_pipes_frame _ _ _ _ b (Some (fd_entry wv O_WRONLY)) (with_pipes_frame _ _ _ _ a (Some (fd_entry rv O_RDONLY)) Hw Hna) Hnb) as Hw'.
  pose proof (lookup_lt_Some _ _ _ Ha). pose proof (lookup_lt_Some _ _ _ Hb).
  assert (forall s, s ∈ slots (pipes ++ [{| pf_read := Z.of_nat a; pf_write := Z.of_nat b |}]) <-> s ∈ slots pipes \/ s = a \/ s = b) as Hsl.
  { intros s. unfold slots. rewrite fmap_app, concat_app, elem_of_app. cbn. rewrite !Nat2Z.id, !elem_of_cons, elem_of_nil. tauto. }
  constructor.
  - rewrite !length_insert. apply Hw.
  - apply Forall2_app; [apply Hw'|]. constructor; [|constructor]. cbn [pf_read pf_write fst snd]. rewrite !Nat2Z.id.
    split_and!; [lia|lia| |apply list_lookup_insert_eq; rewrite length_insert; lia].
    rewrite list_lookup_insert_ne by done. apply list_lookup_insert_eq. lia.
  - intros s [Hs|[->| ->]]%Hsl; [by apply Hw|done|done].
  - intros s Hs. rewrite Hsl in Hs. rewrite !list_lookup_insert_ne by (intros ->; tauto). apply Hw. tauto.
Qed.

(** Closing every end gives the table without the pipes. *)
Lemma with_pipes_close u t pipes vnodes : with_pipes u t pipes vnodes -> foldl close_pipe t pipes = u.
Proof.
  intros [[Hu Ht] Hp Hf Ho].
  assert (Forall (fun pf => 0 <= pf_read pf < 64 /\ 0 <= pf_write pf < 64) pipes) as Hr.
  { clear Hf Ho. induction Hp as [|pf v pipes vnodes (H1 & H2 & H3 & H4) _ IH]; constructor; [|done].
    apply lookup_lt_Some in H3, H4. lia. }
  assert (forall s, foldl close_pipe t pipes !! s = if decide (s ∈ slots pipes) then Some None else t !! s) as Hl.
  { clear Hp Hf Ho. revert t Ht. induction Hr as [|pf pipes [H1 H2] _ IH]; intros t Ht s; [by rewrite decide_False by apply not_elem_of_nil|].
    cbn [foldl]. rewrite IH by (unfold close_pipe; by rewrite !close_length). unfold close_pipe.
    replace (pf_read pf) with (Z.of_nat (Z.to_nat (pf_read pf))) by lia. replace (pf_write pf) with (Z.of_nat (Z.to_nat (pf_write pf))) by lia.
    rewrite !close_lookup by (rewrite ?close_length; (done || lia)).
    unfold slots. cbn [fmap list_fmap concat pf_slots app]. repeat case_decide; set_solver. }
  apply list_eq. intros s. rewrite Hl. case_decide as Hs; [by rewrite Hf|by apply Ho].
Qed.

Lemma alloc_cases t vn flags :
  (exists i, t !! i = Some None /\ FdTable_alloc t vn flags = (Z.of_nat i, <[i := Some (fd_entry vn flags)]> t)) \/
  (nfree t <= 0 /\ FdTable_alloc t vn flags = (-24, t)).
Proof.
  destruct (Z.lt_ge_cases 0 (nfree t)) as [Hf|Hf]; [left; by apply alloc_free|]. unfold FdTable_alloc.
  destruct (first_none t) as [i|] eqn:E; [left; exists i; split; [by apply first_none_Some|done]|by right].
Qed.

(** A slot taken and given back. *)
Lemma close_undo t (i : nat) e : length t = 64%nat -> t !! i = Some None -> close (<[i := Some e]> t) (Z.of_nat i) = t.
Proof.
  intros Hl Hi. pose proof (lookup_lt_Some _ _ _ Hi). apply list_eq. intros s. rewrite close_lookup by (rewrite ?length_insert; lia).
  case_decide as E; [by subst|by rewrite list_lookup_insert_ne].
Qed.

(** Making the pipes: all of them are there, or the table is as it was. *)
Lemma make_pipes_spec u vnodes : forall t pipes vs0,
  with_pipes u t pipes vs0 ->
  match make_pipes t pipes vnodes with
  | inl (pipes', t') => with_pipes u t' pipes' (vs0 ++ vnodes) /\ nfree t' = nfree t - 2 * Z.of_nat (length vnodes)
  | inr t' => t' = u /\ nfree t < 2 * Z.of_nat (length vnodes)
  end.
Proof.
  induction vnodes as [|[rv wv] vnodes IH]; intros t pipes vs0 Hw; cbn [make_pipes].
  { rewrite app_nil_r. split; [done|cbn; lia]. }
  pose proof (proj2 (wp_len _ _ _ _ Hw)) as Hl. unfold pipe.
  destruct (alloc_cases t rv O_RDONLY) as [(a & Ha & ->)|[Hf ->]].
  2: { cbn. split; [by eapply with_pipes_close|lia]. }
  rewrite (proj2 (Z.ltb_ge _ 0)) by lia. set (t1 := <[a := _]> t).
  assert (nfree t1 = nfree t - 1) as Hf1 by (by apply nfree_take).
  destruct (alloc_cases t1 wv O_WRONLY) as [(b & Hb & ->)|[Hf ->]].
  2: { cbn [Z.ltb Z.compare]. change (snd (FdTable_close t1 (Z.of_nat a))) with (close t1 (Z.of_nat a)). unfold t1. rewrite close_undo by done.
       cbn [length]. split; [by eapply with_pipes_close|lia]. }
  rewrite (proj2 (Z.ltb_ge _ 0)) by lia. assert (b <> a) as Hne.
  { intros ->. unfold t1 in Hb. rewrite list_lookup_insert_eq in Hb by (by eapply lookup_lt_Some). done. }
  assert (t !! b = Some None) as Hb0 by (unfold t1 in Hb; by rewrite list_lookup_insert_ne in Hb).
  pose proof (with_pipes_add _ _ _ _ a b rv wv Hw Ha Hb0 ltac:(done)) as Hw2.
  specialize (IH _ _ _ Hw2). fold t1 in IH. rewrite (nfree_take t1 b _ Hb) in IH.
  destruct (make_pipes _ _ _) as [[pipes' t']|t']; cbn [length] in *; [|split; [tauto|lia]].
  rewrite <- app_assoc in IH. split; [tauto|lia].
Qed.

(** ** A child *)

Section Child.
Context (fs_open : list Z -> Z -> option Z).

(** Standard input and output of stage [i]: the file it is redirected to, else the
    end of the pipe, else that of the shell. *)
Definition child_in (u : FdTable) (vnodes : list (Z * Z)) (stage : Stage) (i : nat) : option FdEntry :=
  match redirect_in stage, i with
  | Some path, _ => (fun vn => fd_entry vn O_RDONLY) <$> fs_open path O_RDONLY
  | None, O => mjoin (u !! 0%nat)
  | None, S i' => (fun v => fd_entry (fst v) O_RDONLY) <$> vnodes !! i'
  end.

Definition child_out (u : FdTable) (vnodes : list (Z * Z)) (stage : Stage) (i n : nat) : option FdEntry :=
  match redirect_out stage with
  | Some (path, kind) => (fun vn => fd_entry vn (out_flags kind)) <$> fs_open path (out_flags kind)
  | None => if decide (i + 1 < n)%nat then (fun v => fd_entry (snd v) O_WRONLY) <$> vnodes !! i else mjoin (u !! 1%nat)
  end.

(** What the command starts with: these two, and otherwise the table of the shell. *)
Definition child_table (u : FdTable) (vnodes : list (Z * Z)) (stage : Stage) (i n : nat) : FdTable :=
  <[1%nat := child_out u vnodes stage i n]> (<[0%nat := child_in u vnodes stage i]> u).

(** The files a stage is redirected to can be opened. *)
Definition opens (stage : Stage) : Prop :=
  match redirect_in stage with Some path => is_Some (fs_open path O_RDONLY) | None => True end /\
  match redirect_out stage with Some (path, kind) => is_Some (fs_open path (out_flags kind)) | None => True end.

(** A table in which standard input and output are open, as the shell's. *)
Record std_open (u : FdTable) : Prop := {
  sd_in : exists e, u !! 0%nat = Some (Some e);
  sd_out : exists e, u !! 1%nat = Some (Some e)
}.

Lemma std_open_put u s e : length u = 64%nat -> std_open u -> std_open (<[s := Some e]> u).
Proof.
  intros Hl [[e0 H0] [e1 H1]]. constructor.
  - destruct (decide (s = 0)%nat) as [->|]; [rewrite list_lookup_insert_eq by lia|rewrite list_lookup_insert_ne by done]; eauto.
  - destruct (decide (s = 1)%nat) as [->|]; [rewrite list_lookup_insert_eq by lia|rewrite list_lookup_insert_ne by done]; eauto.
Qed.

(** The state of the child while it arranges its descriptors: [u] is what it will
    have when the pipes are closed. *)
Record arranging (u t : FdTable) (pipes : list PipeFds) (vnodes : list (Z * Z)) : Prop := {
  ar_pipes : with_pipes u t pipes vnodes;
  ar_std : std_open u;
  ar_free : 0 < nfree t
}.

Lemma std_not_slot u t pipes vnodes (fd : nat) : arranging u t pipes vnodes -> (fd < 2)%nat ->
  fd ∉ slots pipes /\ exists e, t !! fd = Some (Some e).
Proof.
  intros [Hw [[e0 H0] [e1 H1]] _] Hfd. assert (exists e, u !! fd = Some (Some e)) as [e He].
  { destruct fd as [|[|]]; [by eauto|by eauto|lia]. }
  assert (fd ∉ slots pipes) as Hn by (intros Hin; rewrite (wp_free _ _ _ _ Hw fd Hin) in He; done).
  split; [done|]. exists e. by rewrite (wp_other _ _ _ _ Hw).
Qed.

(** Replacing a standard descriptor. *)
Lemma arranging_put u t pipes vnodes (fd : nat) e :
  arranging u t pipes vnodes -> (fd < 2)%nat -> arranging (<[fd := Some e]> u) (<[fd := Some e]> t) pipes vnodes.
Proof.
  intros Ha Hfd. destruct (std_not_slot _ _ _ _ fd Ha Hfd) as [Hn [e' He]]. destruct Ha as [Hw Hs Hf]. constructor.
  - by apply with_pipes_frame.
  - apply std_open_put; [apply Hw|done].
  - by rewrite (nfree_swap _ _ e').
Qed.

Lemma arranging_dup2 u t pipes vnodes (s fd : nat) e :
  arranging u t pipes vnodes -> (fd < 2)%nat -> s ∈ slots pipes -> t !! s = Some (Some e) ->
  dup2 t (Z.of_nat s) (Z.of_nat fd) = (Z.of_nat fd, <[fd := Some e]> t).
Proof.
  intros Ha Hfd Hs He. apply dup2_open; [apply Ha|done|lia|]. intros ->. by apply (std_not_slot _ _ _ _ fd Ha Hfd).
Qed.

Lemma redirect_to_spec u t pipes vnodes (fd : nat) path flags vn :
  arranging u t pipes vnodes -> (fd < 2)%nat -> fs_open path flags = Some vn ->
  redirect_to fs_open t path flags (Z.of_nat fd) = Some (<[fd := Some (fd_entry vn flags)]> t).
Proof.
  intros Ha Hfd Ho. destruct (std_not_slot _ _ _ _ fd Ha Hfd) as [_ [e' He]]. pose proof (proj2 (wp_len _ _ _ _ (ar_pipes _ _ _ _ Ha))) as Hl.
  unfold redirect_to, open. rewrite Ho. destruct (alloc_free t vn flags (ar_free _ _ _ _ Ha)) as (f & Hf & ->).
  rewrite (proj2 (Z.ltb_ge _ 0)) by lia. assert (f <> fd) as Hne by congruence. pose proof (lookup_lt_Some _ _ _ Hf) as Hlt.
  rewrite (dup2_open _ f fd (fd_entry vn flags)); [|by rewrite length_insert|by rewrite list_lookup_insert_eq by lia|lia|done].
  rewrite (proj2 (Z.ltb_ge _ 0)) by lia. f_equal. rewrite list_insert_insert_ne by done. apply close_undo; [by rewrite length_insert|].
  by rewrite list_lookup_insert_ne.
Qed.

Lemma pipe_slot u t pipes vnodes i pf v :
  with_pipes u t pipes vnodes -> pipes !! i = Some pf -> vnodes !! i = Some v ->
  (Z.to_nat (pf_read pf) ∈ slots pipes /\ pf_read pf = Z.of_nat (Z.to_nat (pf_read pf)) /\
   t !! Z.to_nat (pf_read pf) = Some (Some (fd_entry (fst v) O_RDONLY))) /\
  (Z.to_nat (pf_write pf) ∈ slots pipes /\ pf_write pf = Z.of_nat (Z.to_nat (pf_write pf)) /\
   t !! Z.to_nat (pf_write pf) = Some (Some (fd_entry (snd v) O_WRONLY))).
Proof.
  intros Hw Hpf Hv. destruct (Forall2_lookup_lr _ _ _ _ _ _ (wp_pairs _ _ _ _ Hw) Hpf Hv) as (H1 & H2 & H3 & H4).
  assert (forall s, s ∈ pf_slots pf -> s ∈ slots pipes) as Hin.
  { intros s Hs. apply list_elem_of_In, in_concat. exists (pf_slots pf). split; [|by apply list_elem_of_In].
    apply list_elem_of_In, list_elem_of_fmap. exists pf. split; [done|by eapply list_elem_of_lookup_2]. }
  split; (split_and!; [apply Hin; unfold pf_slots; set_solver|lia|done]).
Qed.

Lemma child_stdin_spec u t pipes vnodes i :
  arranging u t pipes vnodes -> (i <= length vnodes)%nat ->
  exists t', child_stdin t pipes i = Some t' /\
    arranging (match i with O => u | S i' => <[0%nat := (fun v => fd_entry (fst v) O_RDONLY) <$> vnodes !! i']> u end) t' pipes vnodes.
Proof.
  intros Ha Hi. pose proof (Forall2_length _ _ _ (wp_pairs _ _ _ _ (ar_pipes _ _ _ _ Ha))) as Hlp. destruct i as [|i']; [by exists t|]. cbn [child_stdin].
  destruct (lookup_lt_is_Some_2 vnodes i' ltac:(lia)) as [v Hv]. destruct (lookup_lt_is_Some_2 pipes i' ltac:(lia)) as [pf Hpf]. rewrite Hv, Hpf.
  destruct (pipe_slot _ _ _ _ _ _ _ (ar_pipes _ _ _ _ Ha) Hpf Hv) as [(Hs & E & He) _]. cbn [mbind option_bind]. rewrite E.
  change STDIN with (Z.of_nat 0). rewrite (arranging_dup2 u t pipes vnodes _ 0 _ Ha ltac:(lia) Hs He). cbn [Z.of_nat Z.ltb Z.compare].
  eexists. split; [done|]. by apply arranging_put; [|lia].
Qed.

Lemma child_stdout_spec u t pipes vnodes i n :
  arranging u t pipes vnodes -> (n <= S (length vnodes))%nat ->
  exists t', child_stdout t pipes i n = Some t' /\
    arranging (if decide (i + 1 < n)%nat then <[1%nat := (fun v => fd_entry (snd v) O_WRONLY) <$> vnodes !! i]> u else u) t' pipes vnodes.
Proof.
  intros Ha Hn. pose proof (Forall2_length _ _ _ (wp_pairs _ _ _ _ (ar_pipes _ _ _ _ Ha))) as Hlp.
  unfold child_stdout. case_decide as Hlast; [|by exists t].
  destruct (lookup_lt_is_Some_2 vnodes i ltac:(lia)) as [v Hv]. destruct (lookup_lt_is_Some_2 pipes i ltac:(lia)) as [pf Hpf]. rewrite Hv, Hpf.
  destruct (pipe_slot _ _ _ _ _ _ _ (ar_pipes _ _ _ _ Ha) Hpf Hv) as [_ (Hs & E & He)]. cbn [mbind option_bind]. rewrite E.
  change STDOUT with (Z.of_nat 1). rewrite (arranging_dup2 u t pipes vnodes _ 1 _ Ha ltac:(lia) Hs He). cbn [Z.of_nat Pos.of_succ_nat Z.ltb Z.compare].
  eexists. split; [done|]. by apply arranging_put; [|lia].
Qed.

Lemma redirect_some u t pipes vnodes (fd : nat) path flags :
  arranging u t pipes vnodes -> (fd < 2)%nat -> is_Some (fs_open path flags) ->
  exists t', redirect_to fs_open t path flags (Z.of_nat fd) = Some t' /\
    arranging (<[fd := (fun vn => fd_entry vn flags) <$> fs_open path flags]> u) t' pipes vnodes.
Proof.
  intros Ha Hfd [vn Hvn]. rewrite (redirect_to_spec u t pipes vnodes fd path flags vn Ha Hfd Hvn), Hvn.
  eexists. split; [done|]. by apply arranging_put.
Qed.

(** Putting back what is there. *)
Lemma put_back (u w : FdTable) s : length u = 64%nat -> (s < 64)%nat -> w !! s = u !! s -> <[s := mjoin (u !! s)]> w = w.
Proof. intros Hl Hs E. destruct (lookup_lt_is_Some_2 u s ltac:(lia)) as [o Ho]. rewrite Ho in *. by apply list_insert_id. Qed.

Lemma child_spec u t pipes vnodes stage i n :
  arranging u t pipes vnodes -> length vnodes = (n - 1)%nat -> (i < n)%nat -> opens stage -> argv stage <> [] ->
  child_setup_and_exec fs_open t stage i n pipes = inl (child_table u vnodes stage i n).
Proof.
  intros Ha Hn Hi [Hoi Hoo] Hargs. pose proof (proj1 (wp_len _ _ _ _ (ar_pipes _ _ _ _ Ha))) as Hlu. unfold child_setup_and_exec.
  destruct (child_stdin_spec u t pipes vnodes i Ha ltac:(lia)) as (t1 & -> & Ha1). cbn [mbind option_bind].
  destruct (child_stdout_spec _ t1 pipes vnodes i n Ha1 ltac:(lia)) as (t2 & -> & Ha2). cbn [mbind option_bind].
  set (u2 := if decide (i + 1 < n)%nat then _ else _) in Ha2.
  assert (exists t3, (match redirect_in stage with Some path => redirect_to fs_open t2 path O_RDONLY STDIN | None => Some t2 end) = Some t3 /\
    arranging (match redirect_in stage with Some path => <[0%nat := (fun vn => fd_entry vn O_RDONLY) <$> fs_open path O_RDONLY]> u2 | None => u2 end)
      t3 pipes vnodes) as (t3 & -> & Ha3).
  { destruct (redirect_in stage) as [path|]; [|by eauto]. apply (redirect_some u2 t2 pipes vnodes 0); [done|lia|done]. }
  cbn [mbind option_bind]. set (u3 := match redirect_in stage with Some _ => _ | None => _ end) in Ha3.
  assert (exists t4, (match redirect_out stage with Some (path, kind) => redirect_to fs_open t3 path (out_flags kind) STDOUT | None => Some t3 end) = Some t4 /\
    arranging (match redirect_out stage with Some (path, kind) => <[1%nat := (fun vn => fd_entry vn (out_flags kind)) <$> fs_open path (out_flags kind)]> u3
               | None => u3 end) t4 pipes vnodes) as (t4 & -> & Ha4).
  { destruct (redirect_out stage) as [[path kind]|]; [|by eauto]. apply (redirect_some u3 t3 pipes vnodes 1); [done|lia|done]. }
  destruct (argv stage); [done|]. f_equal. rewrite (with_pipes_close _ _ _ vnodes (ar_pipes _ _ _ _ Ha4)).
  unfold child_table, child_in, child_out, u3, u2. clear -Hlu.
  assert (<[0%nat := mjoin (u !! 0%nat)]> u = u) as E0 by (apply put_back; (done || lia)).
  assert (forall x, <[1%nat := mjoin (u !! 1%nat)]> (<[0%nat := x]> u) = <[0%nat := x]> u) as E1
    by (intros x; apply put_back; [done|lia|by rewrite list_lookup_insert_ne]).
  assert (<[1%nat := mjoin (u !! 1%nat)]> u = u) as E2 by (apply put_back; (done || lia)).
  destruct (redirect_in stage), (redirect_out stage) as [[? ?]|], i; case_decide;
    rewrite ?(list_insert_insert_ne _ 0 1), ?list_insert_insert_eq, ?E0, ?E1, ?E2 by done; done.
Qed.

(** ** The whole pipeline *)

Lemma fork_stages_spec t pipes n stages : forall i pids,
  length pids = length stages -> Forall (fun pid => 0 <= pid) pids ->
  fork_stages fs_open t pipes n i stages pids = (pids, imap (fun k s => child_setup_and_exec fs_open t s (i + k) n pipes) stages).
Proof.
  induction stages as [|s stages IH]; intros i pids Hl Hp; destruct pids as [|pid pids]; try done.
  apply Forall_cons in Hp as [H0 Hp]. cbn [fork_stages]. rewrite (proj2 (Z.ltb_ge _ 0)) by done.
  rewrite (IH (S i) pids) by (done || (cbn in Hl; lia)). cbn [imap]. rewrite Nat.add_0_r. do 2 f_equal.
  apply imap_ext. intros k x _. cbn. f_equal. lia.
Qed.

(** The answers of wait4 name every child once: the status kept is that of the last stage. *)
Lemma reap_spec pid st waits : forall n last,
  length waits = n -> NoDup (fst <$> waits) -> Forall (fun w => 0 <= fst w) waits -> (pid, st) ∈ waits ->
  reap n pid last waits = st.
Proof.
  assert (forall ws n last, length ws = n -> Forall (fun w => 0 <= fst w) ws -> pid ∉ (fst <$> ws) -> reap n pid last ws = last) as Hnot.
  { induction ws as [|[q s] ws IH]; intros n last <- Hp Hn; [done|]. apply Forall_cons in Hp as [H0 Hp]. cbn [fst] in H0.
    cbn [length reap]. rewrite (proj2 (Z.ltb_ge _ 0)) by done. cbn in Hn. apply not_elem_of_cons in Hn as [Hq Hn].
    rewrite (proj2 (Z.eqb_neq q pid)) by congruence. by apply IH. }
  induction waits as [|[q s] ws IH]; intros n last <- Hnd Hp Hin; [by apply not_elem_of_nil in Hin|].
  apply Forall_cons in Hp as [H0 Hp]. cbn [fst] in H0. cbn in Hnd. apply NoDup_cons in Hnd as [Hq Hnd].
  cbn [length reap]. rewrite (proj2 (Z.ltb_ge _ 0)) by done. apply elem_of_cons in Hin as [[= -> ->]|Hin].
  - rewrite Z.eqb_refl. by apply Hnot.
  - by apply IH.
Qed.

(** C37: whatever the kernel answers, the shell keeps its descriptors: when running a
    pipeline fails to make a pipe, to fork a stage or to wait for a child, and when
    it succeeds, the table of the shell afterwards is exactly what it was, with no
    end of a pipe left open. *)
Theorem shell_keeps_descriptors (u : FdTable) p vnodes forks waits :
  length u = 64%nat -> snd (fst (execute_pipeline fs_open u p vnodes forks waits)) = u.
Proof.
  intros Hl. unfold execute_pipeline. case_decide; [done|].
  pose proof (make_pipes_spec u vnodes u [] [] (with_pipes_nil u Hl)) as Hm. destruct (make_pipes u [] vnodes) as [[pipes t1]|t1].
  - destruct (fork_stages _ _ _ _ _ _ _) as [pids cs]. cbn. destruct Hm as [Hw _]. by eapply with_pipes_close.
  - cbn. apply Hm.
Qed.

Lemma make_pipes_enough (u : FdTable) vnodes :
  length u = 64%nat -> 2 * Z.of_nat (length vnodes) <= nfree u ->
  exists pipes t, make_pipes u [] vnodes = inl (pipes, t) /\ with_pipes u t pipes vnodes /\ nfree t = nfree u - 2 * Z.of_nat (length vnodes).
Proof.
  intros Hl Hf. pose proof (make_pipes_spec u vnodes u [] [] (with_pipes_nil u Hl)) as Hm.
  destruct (make_pipes u [] vnodes) as [[pipes t]|t]; [|lia]. by exists pipes, t.
Qed.

(** The vnodes of the pipes: all ends are different, and nothing else refers to them. *)
Record fresh_pipes (u : FdTable) (vnodes : list (Z * Z)) : Prop := {
  fp_read : forall j k v w, vnodes !! j = Some v -> vnodes !! k = Some w -> fst v = fst w -> j = k;
  fp_write : forall j k v w, vnodes !! j = Some v -> vnodes !! k = Some w -> snd v = snd w -> j = k;
  fp_cross : forall j k v w, vnodes !! j = Some v -> vnodes !! k = Some w -> fst v <> snd w;
  fp_table : forall j v, vnodes !! j = Some v -> holders_in (fst v) u = 0 /\ holders_in (snd v) u = 0;
  fp_files : forall j v path flags, vnodes !! j = Some v -> fs_open path flags <> Some (fst v) /\ fs_open path flags <> Some (snd v)
}.

Lemma refers_zero v (u : FdTable) s o : holders_in v u = 0 -> u !! s = Some o -> refers v o = 0.
Proof.
  intros Hz Hs. pose proof (refers_nonneg v o).
  pose proof (zsum_elem (refers v) u o (refers_nonneg v) (list_elem_of_lookup_2 _ _ _ Hs)). unfold holders_in in Hz. lia.
Qed.

Lemma holders_in_child u vnodes stage i n v :
  length u = 64%nat -> holders_in v u = 0 ->
  holders_in v (child_table u vnodes stage i n) = refers v (child_in u vnodes stage i) + refers v (child_out u vnodes stage i n).
Proof.
  intros Hl Hz. unfold child_table.
  destruct (lookup_lt_is_Some_2 u 0 ltac:(lia)) as [o0 H0]. destruct (lookup_lt_is_Some_2 u 1 ltac:(lia)) as [o1 H1].
  rewrite (holders_in_put v _ 1 o1) by (by rewrite list_lookup_insert_ne). rewrite (holders_in_put v u 0 o0) by done.
  rewrite (refers_zero v u 0 o0), (refers_zero v u 1 o1) by done. lia.
Qed.

Lemma refers_std v (u : FdTable) s : holders_in v u = 0 -> refers v (mjoin (u !! s)) = 0.
Proof. intros Hz. destruct (u !! s) as [o|] eqn:Ho; [|done]. by apply (refers_zero v u s). Qed.

Lemma refers_file v flags path : fs_open path flags <> Some v -> refers v ((fun vn => fd_entry vn flags) <$> fs_open path flags) = 0.
Proof.
  intros Hne. destruct (fs_open path flags) as [w|]; [|done]. cbn. rewrite (proj2 (Z.eqb_neq w v)); [done|]. congruence.
Qed.

(** Who holds the ends of pipe [j]: stage [j] its write end, stage [j + 1] its read end. *)
Lemma child_ends u vnodes stage i n j v :
  length u = 64%nat -> fresh_pipes u vnodes -> vnodes !! j = Some v -> length vnodes = (n - 1)%nat -> (i < n)%nat ->
  holders_in (snd v) (child_table u vnodes stage i n) = (if decide (i = j /\ redirect_out stage = None) then 1 else 0) /\
  holders_in (fst v) (child_table u vnodes stage i n) = (if decide (i = S j /\ redirect_in stage = None) then 1 else 0).
Proof.
  intros Hl Hfp Hj Hn Hi. destruct (fp_table _ _ Hfp j v Hj) as [Hz1 Hz2]. pose proof (lookup_lt_Some _ _ _ Hj) as Hjl.
  rewrite !holders_in_child by done. unfold child_in, child_out.
  assert (forall k, refers (snd v) ((fun w => fd_entry (snd w) O_WRONLY) <$> vnodes !! k) = if decide (k = j) then 1 else 0) as Hw.
  { intros k. destruct (vnodes !! k) as [w|] eqn:Hk; cbn; [|rewrite decide_False; [done|congruence]].
    case_decide as E; [subst; rewrite Hj in Hk; injection Hk as ->; by rewrite Z.eqb_refl|].
    rewrite (proj2 (Z.eqb_neq _ _)); [done|]. intros Ew. by apply E, (fp_write _ _ Hfp k j w v). }
  assert (forall k, refers (fst v) ((fun w => fd_entry (fst w) O_RDONLY) <$> vnodes !! k) = if decide (k = j) then 1 else 0) as Hr.
  { intros k. destruct (vnodes !! k) as [w|] eqn:Hk; cbn; [|rewrite decide_False; [done|congruence]].
    case_decide as E; [subst; rewrite Hj in Hk; injection Hk as ->; by rewrite Z.eqb_refl|].
    rewrite (proj2 (Z.eqb_neq _ _)); [done|]. intros Ew. by apply E, (fp_read _ _ Hfp k j w v). }
  assert (forall k, refers (snd v) ((fun w => fd_entry (fst w) O_RDONLY) <$> vnodes !! k) = 0 /\
    refers (fst v) ((fun w => fd_entry (snd w) O_WRONLY) <$> vnodes !! k) = 0) as Hx.
  { intros k. destruct (vnodes !! k) as [w|] eqn:Hk; [|done]. cbn. pose proof (fp_cross _ _ Hfp k j w v Hk Hj). pose proof (fp_cross _ _ Hfp j k v w Hj Hk).
    by rewrite !(proj2 (Z.eqb_neq _ _)). }
  pose proof (fun path flags => proj1 (fp_files _ _ Hfp j v path flags Hj)) as Hf1. pose proof (fun path flags => proj2 (fp_files _ _ Hfp j v path flags Hj)) as Hf2.
  split; destruct (redirect_in stage), (redirect_out stage) as [[? ?]|], i; repeat case_decide;
    rewrite ?refers_file, ?refers_std, ?Hw, ?Hr, ?(proj1 (Hx _)), ?(proj2 (Hx _)) by done; repeat case_decide; (lia || naive_solver lia).
Qed.

Lemma fork_stages_refused t pipes n stages : forall i answers, Exists (fun pid => pid < 0) (take (length stages) answers) ->
  (length (fst (fork_stages fs_open t pipes n i stages answers)) < length stages)%nat.
Proof.
  induction stages as [|s stages IH]; intros i [|pid answers] He; cbn in He |- *; [by inversion He..|].
  destruct (Z.ltb_spec pid 0); [cbn; lia|]. inversion He as [|x y Hx]; subst; [lia|]. specialize (IH (S i) answers Hx).
  destruct (fork_stages fs_open t pipes n (S i) stages answers). cbn in IH |- *. lia.
Qed.

Lemma reap_nobody waits : forall n, reap n (-1) 0 waits = 0.
Proof.
  induction waits as [|[reaped status] waits IH]; intros [|n]; cbn; [done..|].
  destruct (Z.ltb_spec reaped 0); [done|]. by rewrite (proj2 (Z.eqb_neq reaped (-1))) by lia.
Qed.

(** A pipeline one of whose stages could not be forked, so that the last one never ran,
    reports success, whatever the stages that did run report. *)
Theorem failed_fork_reports_success (u : FdTable) p vnodes forks waits :
  length u = 64%nat -> p <> [] -> 2 * Z.of_nat (length vnodes) < nfree u -> Exists (fun pid => pid < 0) (take (length p) forks) ->
  fst (fst (execute_pipeline fs_open u p vnodes forks waits)) = 0.
Proof.
  intros Hl Hp Hf He. unfold execute_pipeline. rewrite decide_False by (by destruct p).
  destruct (make_pipes_enough u vnodes Hl ltac:(lia)) as (pipes & t & -> & _ & _).
  pose proof (fork_stages_refused t pipes (length p) p 0 forks He) as Hlt.
  destruct (fork_stages fs_open t pipes (length p) 0 p forks) as [pids cs]. cbn in Hlt.
  rewrite decide_False by lia. by rewrite reap_nobody.
Qed.

(** C16: a pipeline is plumbed as it was written.  With enough free descriptors,
    standard input and output open, pipes whose ends are new vnodes, no command empty, and
    every fork, redirection and wait successful, stage [i] starts with the table of the
    shell in which only standard input and output are replaced: input is the file it
    is redirected from, else the read end of pipe [i - 1]; output is the file it is
    redirected to, else the write end of pipe [i]; no other end of any pipe is left
    in any table.  The shell has its table back and reports the status of the last
    stage. *)
Theorem pipeline_plumbing (u : FdTable) p vnodes pids waits last st :
  length u = 64%nat -> std_open u -> length vnodes = (length p - 1)%nat -> 2 * Z.of_nat (length vnodes) < nfree u ->
  Forall opens p -> Forall (fun s => argv s <> []) p ->
  length pids = length p -> Forall (fun pid => 0 <= pid) pids -> list.last pids = Some last ->
  fst <$> waits ≡ₚ pids -> NoDup pids -> (last, st) ∈ waits -> fresh_pipes u vnodes ->
  execute_pipeline fs_open u p vnodes pids waits =
    (if wifexited st then wexitstatus st else 1, u, imap (fun i s => inl (child_table u vnodes s i (length p))) p) /\
  forall i s j v, p !! i = Some s -> vnodes !! j = Some v ->
    holders_in (snd v) (child_table u vnodes s i (length p)) = (if decide (i = j /\ redirect_out s = None) then 1 else 0) /\
    holders_in (fst v) (child_table u vnodes s i (length p)) = (if decide (i = S j /\ redirect_in s = None) then 1 else 0).
Proof.
  intros Hl Hstd Hv Hf Hop Hargs Hpl Hpos Hlast Hperm Hnd Hin Hfresh.
  split; [|intros i s j v Hs Hj; apply child_ends; try done; by eapply lookup_lt_Some]. unfold execute_pipeline.
  assert (length p <> 0%nat) as Hp0 by (intros E; rewrite E in Hpl; destruct pids; [done|cbn in Hpl; lia]). rewrite decide_False by done.
  destruct (make_pipes_enough u vnodes Hl ltac:(lia)) as (pipes & t & -> & Hw & Hnf). rewrite fork_stages_spec by done.
  rewrite (with_pipes_close _ _ _ _ Hw), decide_True, Hlast by done. cbn [default from_option id].
  rewrite (reap_spec last st waits).
  - f_equal. apply imap_ext. intros i s Hs. cbn. apply child_spec; [by constructor; [| |lia]|done|by eapply lookup_lt_Some| |].
    + by eapply (Forall_lookup_1 _ _ _ _ Hop Hs).
    + by eapply (Forall_lookup_1 _ _ _ _ Hargs Hs).
  - rewrite <- (Permutation_length Hperm). by rewrite length_fmap.
  - by rewrite Hperm.
  - rewrite <- Hperm, Forall_fmap in Hpos. by apply (Forall_impl _ _ _ Hpos).
  - done.
Qed.

End Child.

(** The status a child passes to exit comes back from a pipeline. *)
Lemma exit_status_roundtrip code : wifexited (encode_exit_status code) = true /\ wexitstatus (encode_exit_status code) = code mod 256.
Proof.
  unfold wifexited, wexitstatus, encode_exit_status. set (c := Z.land (wrap32 code) 255).
  assert (c = code mod 256) as Hc.
  { unfold c, wrap32, wrapw. change 255 with (Z.ones 8). rewrite Z.land_ones by lia. change (2 ^ 8) with 256.
    rewrite <- Znumtheory.Zmod_div_mod; [done|lia|lia|]. exists (2 ^ 24). done. }
  assert (0 <= c < 256) as Hr by (rewrite Hc; apply Z.mod_pos_bound; lia).
  split.
  - apply Z.eqb_eq. change 127 with (Z.ones 7). rewrite Z.land_ones, Z.shiftl_mul_pow2 by lia. change (2 ^ 8) with (2 * 2 ^ 7).
    rewrite Z.mul_assoc. apply Z.mod_mul. lia.
  - rewrite Z.shiftr_shiftl_l by lia. rewrite Z.sub_diag, Z.shiftl_0_r. change 255 with (Z.ones 8). rewrite Z.land_ones by lia.
    rewrite Z.mod_small by (change (2 ^ 8) with 256; lia). done.
Qed.

(** [echo hi | cat > o] from a shell with three descriptors. *)
Definition demo_shell_table : FdTable :=
  Some (fd_entry 7 O_RDONLY) :: Some (fd_entry 7 O_WRONLY) :: Some (fd_entry 7 O_WRONLY) :: replicate 61 None.

Definition demo_stages : list Stage :=
  [{| argv := [[101]; [104]]; redirect_out := None; redirect_in := None |};
   {| argv := [[99]]; redirect_out := Some ([111], RK_Out); redirect_in := None |}].

Definition demo_open (path : list Z) (flags : Z) : option Z := Some 9.

Lemma shell_keeps_descriptors_witness :
  snd (fst (execute_pipeline demo_open demo_shell_table demo_stages [(100, 101)] [5; -11] [])) = demo_shell_table.
Proof. apply (shell_keeps_descriptors demo_open demo_shell_table demo_stages [(100, 101)] [5; -11] []). reflexivity. Defined.

Lemma pipeline_plumbing_witness :
  exists c0 c1, execute_pipeline demo_open demo_shell_table demo_stages [(100, 101)] [5; 6] [(6, 0x300); (5, 0)] =
    (3, demo_shell_table, [inl c0; inl c1]) /\ holders_in 101 c0 = 1 /\ holders_in 100 c1 = 1.
Proof.
  destruct (pipeline_plumbing demo_open demo_shell_table demo_stages [(100, 101)] [5; 6] [(6, 0x300); (5, 0)] 6 0x300) as [E H].
  - reflexivity.
  - constructor; eexists; reflexivity.
  - reflexivity.
  - vm_compute. reflexivity.
  - repeat constructor; eexists; reflexivity.
  - repeat constructor; discriminate.
  - reflexivity.
  - repeat constructor; lia.
  - reflexivity.
  - simpl. constructor.
  - repeat constructor; set_solver.
  - set_solver.
  - constructor.
    1, 2: intros [|j] [|k] v w Hj Hk; done.
    + intros [|j] [|k] v w Hj Hk; cbn in *; try done. by simplify_eq.
    + intros [|j] v Hj; cbn in *; [|done]. simplify_eq. done.
    + intros [|j] v path flags Hj; cbn in *; [|done]. simplify_eq. done.
  - eexists _, _. split; [exact E|]. split.
    + exact (proj1 (H 0%nat _ 0%nat (100, 101) eq_refl eq_refl)).
    + exact (proj2 (H 1%nat _ 0%nat (100, 101) eq_refl eq_refl)).
Defined.
