(* ===== verification/ExecStack.v ===== *)
(** * The initial stack of a program

    [setup_stack] of crates/proc/src/exec.rs writes the arguments of execve to the
    stack of the new image; [args_from_stack] of userspace/liblow/src/lib.rs reads
    them when the program starts.  Both are defined over an interface of user memory:
    writing bytes at a user address, which panics when the address is not mapped, and
    the byte a load at an address gives.  ExecMemory.v implements it with the page
    tables. *)

From Stdlib Require Import ZArith Lia.
From stdpp Require Import prelude list.
From S2P Require Import Prelude.

Local Open Scope Z_scope.

Definition MAX_ARGV : nat := 32.
Definition MAX_ENVP : nat := 32.
Definition MAX_ARG_LEN : nat := 128.
Definition MAX_ARGC : Z := 16.

(** ** User memory *)

Class UserMemory (M : Type) := {
  um_write : M -> Z -> list Z -> outcome M;
  um_byte : M -> Z -> option Z
}.

(** A range that can be written: writing inside it succeeds and changes exactly the
    bytes written. *)
Class UserMemoryLaws (M : Type) `{UserMemory M} := {
  um_range : M -> Z -> Z -> Prop;
  um_write_range : forall m lo hi a bs,
    um_range m lo hi -> 0 <= lo -> hi < 2 ^ 63 -> lo <= a -> a + Z.of_nat (length bs) <= hi ->
    exists m', um_write m a bs = Done m' /\ um_range m' lo hi /\
      forall x, lo <= x < hi ->
        um_byte m' x = if decide (a <= x < a + Z.of_nat (length bs)) then bs !! Z.to_nat (x - a) else um_byte m x
}.

(** ** Writing the stack *)

Section SetupStack.
Context {M : Type} `{UserMemory M}.

(** One string and its terminator, below what is there. *)
Definition push_str (st : M * Z * list Z) (s : list Z) : outcome (M * Z * list Z) :=
  let '(m, str_rsp, ptrs) := st in
  let str_rsp := wrap64 (str_rsp - (Z.of_nat (length s) + 1)) in
  m1 ← um_write m str_rsp s;
  m2 ← um_write m1 (wrap64 (str_rsp + Z.of_nat (length s))) [0];
  Done (m2, str_rsp, ptrs ++ [str_rsp]).

(** [rsp -= 8; write_u64_to_user(.., rsp, v)]. *)
Definition push_u64 (st : M * Z) (v : Z) : outcome (M * Z) :=
  let '(m, rsp) := st in
  let rsp := wrap64 (rsp - 8) in
  m1 ← um_write m rsp (to_le_bytes 8 v);
  Done (m1, rsp).

Definition setup_stack (m : M) (stack_top : Z) (argv envp : list (list Z)) : outcome (M * Z) :=
  '(m1, str_rsp, ptrs) ← foldM push_str (m, stack_top, []) (argv ++ envp);
  let argc := Z.of_nat (length argv) in
  let envc := Z.of_nat (length envp) in
  let block_bytes := (5 + argc + envc) * 8 in
  let rsp := Z.land str_rsp (not64 15) in
  let rsp := if rsp mod 16 =? block_bytes mod 16 then rsp else wrap64 (rsp - 8) in
  foldM push_u64 (m1, rsp) ([0; 0] ++ [0] ++ rev (drop (length argv) ptrs) ++ [0] ++ rev (take (length argv) ptrs) ++ [argc]).

(** ** Reading it *)

Fixpoint load_bytes (m : M) (a : Z) (n : nat) : outcome (list Z) :=
  match n with
  | O => Done []
  | S n' => b ← expect (um_byte m a); bs ← load_bytes m (a + 1) n'; Done (b :: bs)
  end.

Definition load_u64 (m : M) (a : Z) : outcome Z := bs ← load_bytes m a 8; Done (of_le_bytes bs).

(** The scan of [cstr_to_str]: at most [n] bytes, up to the terminator. *)
Fixpoint cstr_bytes (m : M) (p : Z) (n : nat) : outcome (list Z) :=
  match n with
  | O => Done []
  | S n' =>
      b ← expect (um_byte m p);
      if b =? 0 then Done [] else bs ← cstr_bytes m (p + 1) n'; Done (b :: bs)
  end.

Definition cstr_to_str (m : M) (p : Z) : outcome (list Z) :=
  bytes ← cstr_bytes m p MAX_ARG_LEN;
  Done (if utf8_valid bytes then bytes else []).

(** The loop of [args_from_stack] over the pointers at [a]. *)
Fixpoint args_loop (m : M) (a : Z) (n : nat) : outcome (list (list Z)) :=
  match n with
  | O => Done []
  | S n' =>
      p ← load_u64 m a;
      if p =? 0 then Done [] else
      s ← cstr_to_str m p;
      rest ← args_loop m (a + 8) n';
      Done (s :: rest)
  end.

Definition args_from_stack (m : M) (stack : Z) : outcome (list (list Z)) :=
  if stack =? 0 then Done [] else
  argc ← load_u64 m stack;
  args_loop m (stack + 8) (Z.to_nat (if MAX_ARGC <? argc then MAX_ARGC else argc)).

End SetupStack.

(** ** What the stack holds *)

Section StackSpec.
Context {M : Type} `{UserMemoryLaws M}.

Definition bytes_at (m : M) (a : Z) (bs : list Z) : Prop :=
  forall j b, bs !! j = Some b -> um_byte m (a + Z.of_nat j) = Some b.

Lemma bytes_at_app m a bs cs : bytes_at m a (bs ++ cs) <-> bytes_at m a bs /\ bytes_at m (a + Z.of_nat (length bs)) cs.
Proof.
  unfold bytes_at. split.
  - intros Ha. split; intros j b Hj.
    + apply Ha. by apply lookup_app_l_Some.
    + replace (a + Z.of_nat (length bs) + Z.of_nat j) with (a + Z.of_nat (length bs + j)) by lia. apply Ha.
      rewrite lookup_app_r by lia. by replace (length bs + j - length bs)%nat with j by lia.
  - intros [H1 H2] j b [Hj|[Hl Hj]]%lookup_app_Some; [by apply H1|].
    replace (a + Z.of_nat j) with (a + Z.of_nat (length bs) + Z.of_nat (j - length bs)) by lia. by apply H2.
Qed.

Lemma bytes_at_keep m m' a bs lo hi :
  bytes_at m a bs -> lo <= a -> a + Z.of_nat (length bs) <= hi -> (forall x, lo <= x < hi -> um_byte m' x = um_byte m x) -> bytes_at m' a bs.
Proof.
  intros Hb Hlo Hhi Hk j b Hj. pose proof (lookup_lt_Some _ _ _ Hj). rewrite Hk by lia. by apply Hb.
Qed.

Lemma load_bytes_at m bs : forall a, bytes_at m a bs -> load_bytes m a (length bs) = Done bs.
Proof.
  induction bs as [|b bs IH]; intros a Ha; [done|]. cbn [length load_bytes].
  pose proof (Ha 0%nat b eq_refl) as Hz. rewrite Z.add_0_r in Hz. rewrite Hz. run.
  rewrite IH; [by run|]. change (b :: bs) with ([b] ++ bs) in Ha. apply bytes_at_app in Ha as [_ Ha]. done.
Qed.

Lemma load_u64_at m a v : 0 <= v < 2 ^ 64 -> bytes_at m a (to_le_bytes 8 v) -> load_u64 m a = Done v.
Proof.
  intros Hv Ha. unfold load_u64. apply load_bytes_at in Ha. rewrite to_le_bytes_length in Ha. rewrite Ha. run.
  by rewrite of_to_le_bytes by (cbn; lia).
Qed.

Lemma cstr_bytes_at m s n : forall p,
  bytes_at m p (s ++ [0]) -> Forall (fun b => b <> 0) s -> (length s <= n)%nat -> cstr_bytes m p n = Done s.
Proof.
  revert n. induction s as [|b s IH]; intros n p Ha Hnz Hl.
  - destruct n; [done|]. cbn [cstr_bytes]. pose proof (Ha 0%nat 0 eq_refl) as Hz. rewrite Z.add_0_r in Hz. rewrite Hz. by run.
  - apply Forall_cons in Hnz as [Hb Hnz]. destruct n as [|n]; [cbn in Hl; lia|]. cbn [cstr_bytes].
    pose proof (Ha 0%nat b eq_refl) as Hz. rewrite Z.add_0_r in Hz. rewrite Hz. run. rewrite (proj2 (Z.eqb_neq b 0)) by done.
    rewrite IH; [by run| |done|cbn in Hl; lia]. change ((b :: s) ++ [0]) with ([b] ++ (s ++ [0])) in Ha. by apply bytes_at_app in Ha as [_ Ha].
Qed.

(** The bytes a list of strings takes. *)
Definition strings_size (l : list (list Z)) : Z := zsum (fun s => Z.of_nat (length s) + 1) l.

Lemma strings_size_nonneg l : 0 <= strings_size l.
Proof. apply zsum_nonneg. lia. Qed.

Lemma push_str_eq (m : M) sp ptrs s :
  push_str (m, sp, ptrs) s =
  (m1 ← um_write m (wrap64 (sp - (Z.of_nat (length s) + 1))) s;
   m2 ← um_write m1 (wrap64 (wrap64 (sp - (Z.of_nat (length s) + 1)) + Z.of_nat (length s))) [0];
   Done (m2, wrap64 (sp - (Z.of_nat (length s) + 1)), ptrs ++ [wrap64 (sp - (Z.of_nat (length s) + 1))])).
Proof. done. Qed.

Lemma push_u64_eq (m : M) rsp v :
  push_u64 (m, rsp) v = (m1 ← um_write m (wrap64 (rsp - 8)) (to_le_bytes 8 v); Done (m1, wrap64 (rsp - 8))).
Proof. done. Qed.

(** The strings: each is stored with its terminator below [sp], nothing above changes. *)
Lemma push_strs lo hi l : forall m sp ptrs,
  um_range m lo hi -> 0 <= lo -> hi < 2 ^ 63 -> lo + strings_size l <= sp -> sp <= hi ->
  exists m' news, foldM push_str (m, sp, ptrs) l = Done (m', sp - strings_size l, ptrs ++ news) /\ um_range m' lo hi /\
    Forall2 (fun p s => bytes_at m' p (s ++ [0]) /\ sp - strings_size l <= p /\ p + Z.of_nat (length s) < sp) news l /\
    (forall x, sp <= x < hi -> um_byte m' x = um_byte m x).
Proof.
  induction l as [|s l IH]; intros m sp ptrs Hr Hlo Hhi Hsp Hsph; cbn [foldM].
  { exists m, []. unfold strings_size. cbn. rewrite Z.sub_0_r, app_nil_r. split_and!; [done|done|constructor|done]. }
  unfold strings_size in Hsp. cbn [zsum] in Hsp. fold (strings_size l) in Hsp. pose proof (strings_size_nonneg l) as Hn.
  set (p := sp - (Z.of_nat (length s) + 1)). rewrite push_str_eq. fold p.
  rewrite (wrap64_small p) by (unfold is_u64, p; lia). rewrite (wrap64_small (p + _)) by (unfold is_u64, p; lia).
  destruct (um_write_range m lo hi p s Hr Hlo Hhi) as (m1 & -> & Hr1 & Hb1); [unfold p; lia..|]. run.
  destruct (um_write_range m1 lo hi (p + Z.of_nat (length s)) [0] Hr1 Hlo Hhi) as (m2 & -> & Hr2 & Hb2); [unfold p; cbn; lia..|]. run.
  destruct (IH m2 p (ptrs ++ [p]) Hr2 Hlo Hhi) as (m' & news & E & Hr' & Hall & Hk); [unfold p; lia..|].
  assert (p - strings_size l = sp - strings_size (s :: l)) as Esz by (unfold p, strings_size; cbn [zsum]; lia).
  exists m', (p :: news). rewrite <- app_assoc in E. rewrite <- Esz. split_and!; [exact E|done| |].
  - constructor.
    + split; [|unfold p; lia]. apply (bytes_at_keep m2 m' p _ p hi); [|lia|rewrite length_app; unfold p; cbn; lia|done].
      apply bytes_at_app. split.
      * intros j b Hj. pose proof (lookup_lt_Some _ _ _ Hj). rewrite Hb2 by (unfold p; lia). rewrite decide_False by (cbn; lia).
        rewrite Hb1 by (unfold p; lia). rewrite decide_True by lia. by replace (Z.to_nat (p + Z.of_nat j - p)) with j by lia.
      * intros [|j] b Hj; [|done]. rewrite Z.add_0_r. rewrite Hb2 by (unfold p; lia). rewrite decide_True by (cbn; lia).
        by replace (Z.to_nat _) with 0%nat by lia.
    + eapply Forall2_impl; [exact Hall|]. cbn. intros q t (Hq & H1 & H2). split; [done|unfold p in *; lia].
  - intros x Hx. rewrite Hk by (unfold p; lia). rewrite Hb2 by (unfold p; lia). rewrite decide_False by (unfold p; cbn; lia).
    rewrite Hb1 by (unfold p; lia). by rewrite decide_False by (unfold p; lia).
Qed.

Definition words_bytes (ws : list Z) : list Z := concat (to_le_bytes 8 <$> ws).

Lemma words_bytes_length ws : length (words_bytes ws) = (8 * length ws)%nat.
Proof. unfold words_bytes. induction ws as [|w ws IH]; [done|]. cbn [fmap list_fmap concat]. rewrite length_app, to_le_bytes_length, IH. cbn. lia. Qed.

(** The words: they lie below [rsp] in reverse order, nothing above changes. *)
Lemma push_words lo hi ws : forall m rsp,
  um_range m lo hi -> 0 <= lo -> hi < 2 ^ 63 -> lo + 8 * Z.of_nat (length ws) <= rsp -> rsp <= hi ->
  exists m', foldM push_u64 (m, rsp) ws = Done (m', rsp - 8 * Z.of_nat (length ws)) /\ um_range m' lo hi /\
    bytes_at m' (rsp - 8 * Z.of_nat (length ws)) (words_bytes (rev ws)) /\
    (forall x, rsp <= x < hi -> um_byte m' x = um_byte m x).
Proof.
  induction ws as [|w ws IH]; intros m rsp Hr Hlo Hhi Hl Hh; cbn [foldM].
  { exists m. cbn. rewrite Z.sub_0_r. split_and!; [done|done|by intros j b Hj|done]. }
  cbn [length] in *. set (p := rsp - 8). rewrite push_u64_eq. fold p. rewrite (wrap64_small p) by (unfold is_u64, p; lia).
  destruct (um_write_range m lo hi p (to_le_bytes 8 w) Hr Hlo Hhi) as (m1 & -> & Hr1 & Hb1);
    [unfold p; lia|rewrite to_le_bytes_length; unfold p; lia|]. run. rewrite to_le_bytes_length in Hb1.
  destruct (IH m1 p Hr1 Hlo Hhi) as (m' & E & Hr' & Hws & Hk); [unfold p; lia..|].
  replace (rsp - 8 * Z.of_nat (S (length ws))) with (p - 8 * Z.of_nat (length ws)) by (unfold p; lia).
  exists m'. split_and!; [exact E|done| |].
  - cbn [rev]. unfold words_bytes. rewrite fmap_app, concat_app. apply bytes_at_app. fold (words_bytes (rev ws)). split; [done|].
    rewrite words_bytes_length, length_rev. replace (p - 8 * Z.of_nat (length ws) + Z.of_nat (8 * length ws)) with p by lia.
    cbn [fmap list_fmap concat]. rewrite app_nil_r. apply (bytes_at_keep m1 m' p _ p hi); [|lia|rewrite to_le_bytes_length; unfold p; lia|done].
    intros j b Hj. pose proof (lookup_lt_Some _ _ _ Hj) as Hjl. rewrite to_le_bytes_length in Hjl. rewrite Hb1 by (unfold p; lia).
    rewrite decide_True by lia. by replace (Z.to_nat (p + Z.of_nat j - p)) with j by lia.
  - intros x Hx. rewrite Hk by (unfold p; lia). rewrite Hb1 by (unfold p; lia). by rewrite decide_False by (unfold p; lia).
Qed.

(** The layout of the initial stack at [rsp]. *)
Record stack_image (m : M) (rsp : Z) (argv envp : list (list Z)) (ptrs : list Z) : Prop := {
  si_aligned : rsp mod 16 = 0;
  si_words : bytes_at m rsp (words_bytes ([Z.of_nat (length argv)] ++ take (length argv) ptrs ++ [0] ++ drop (length argv) ptrs ++ [0] ++ [0; 0]));
  si_strings : Forall2 (fun p s => bytes_at m p (s ++ [0]) /\ rsp < p < 2 ^ 63) ptrs (argv ++ envp)
}.

Lemma aligned_rsp sp words :
  0 <= sp < 2 ^ 63 -> 0 <= words -> 16 <= sp ->
  let rsp := Z.land sp (not64 15) in
  let rsp' := if rsp mod 16 =? (words * 8) mod 16 then rsp else wrap64 (rsp - 8) in
  (rsp' - 8 * words) mod 16 = 0 /\ sp - 24 < rsp' <= sp.
Proof.
  intros Hsp Hw H16 rsp. assert (rsp = sp - sp mod 16) as Er.
  { unfold rsp. change 15 with (Z.ones 4). by rewrite land_not_ones by (unfold is_u64; lia). }
  clearbody rsp. subst rsp. assert ((sp - sp mod 16) mod 16 = 0) as Hm by (Z.div_mod_to_equations; lia).
  intros rsp'. unfold rsp'. rewrite Hm. pose proof (Z.mod_pos_bound sp 16 ltac:(lia)).
  destruct (Z.eqb_spec 0 (words * 8 mod 16)) as [E|E].
  - split; [|lia]. Z.div_mod_to_equations. lia.
  - rewrite wrap64_small by (unfold is_u64; Z.div_mod_to_equations; lia). split; [|lia]. Z.div_mod_to_equations. lia.
Qed.

(** Nothing of it lies at [top] or above. *)
Definition stack_within (top rsp : Z) (argv envp : list (list Z)) (ptrs : list Z) : Prop :=
  rsp + 8 * (5 + Z.of_nat (length argv) + Z.of_nat (length envp)) <= top /\
  Forall2 (fun p s => p + Z.of_nat (length s) < top) ptrs (argv ++ envp).

Lemma stack_image_keep m m' lo top rsp argv envp ptrs : stack_image m rsp argv envp ptrs -> stack_within top rsp argv envp ptrs -> lo <= rsp ->
  (forall x, lo <= x < top -> um_byte m' x = um_byte m x) -> stack_image m' rsp argv envp ptrs.
Proof.
  intros [I1 I2 I3] [W1 W2] Hlo Hk. constructor; [done| |].
  - apply (bytes_at_keep m m' rsp _ lo top); [done|done| |done]. rewrite words_bytes_length, !length_app, length_take, length_drop. cbn [length].
    apply Forall2_length in W2. rewrite length_app in W2. lia.
  - apply Forall2_same_length_lookup. split; [by eapply Forall2_length|]. intros i p s Hp Hs.
    destruct (Forall2_lookup_lr _ _ _ _ _ _ I3 Hp Hs) as [Hb Hr]. pose proof (Forall2_lookup_lr _ _ _ _ _ _ W2 Hp Hs) as Hw. cbn in Hw.
    split; [|done]. apply (bytes_at_keep m m' p _ lo top); [done|lia|rewrite length_app; cbn [length]; lia|done].
Qed.

Lemma setup_stack_spec m lo top argv envp :
  um_range m lo top -> 0 < lo -> top < 2 ^ 63 ->
  lo + strings_size (argv ++ envp) + 8 * (5 + Z.of_nat (length argv) + Z.of_nat (length envp)) + 24 <= top ->
  exists m' rsp ptrs, setup_stack m top argv envp = Done (m', rsp) /\ um_range m' lo top /\ stack_image m' rsp argv envp ptrs /\
    lo <= rsp < top /\ stack_within top rsp argv envp ptrs.
Proof.
  intros Hr Hlo Htop Hfit. unfold setup_stack. set (l := argv ++ envp) in *. pose proof (strings_size_nonneg l) as Hn.
  destruct (push_strs lo top l m top [] Hr ltac:(lia) Htop ltac:(lia) ltac:(lia)) as (m1 & ptrs & -> & Hr1 & Hstr & _). run.
  rewrite app_nil_l in *. set (sp := top - strings_size l) in *. pose proof (Forall2_length _ _ _ Hstr) as Hlp.
  set (ws := [0; 0] ++ [0] ++ rev (drop (length argv) ptrs) ++ [0] ++ rev (take (length argv) ptrs) ++ [Z.of_nat (length argv)]).
  assert (Z.of_nat (length ws) = 5 + Z.of_nat (length argv) + Z.of_nat (length envp)) as Hws.
  { unfold ws. rewrite !length_app, !length_rev, length_drop, length_take. unfold l in Hlp. rewrite length_app in Hlp. cbn [length]. lia. }
  pose proof (aligned_rsp sp (5 + Z.of_nat (length argv) + Z.of_nat (length envp)) ltac:(lia) ltac:(lia) ltac:(lia)) as Ha. cbv zeta in Ha.
  set (rsp := if _ =? _ then _ else _) in *. destruct Ha as [Hal Hrange].
  destruct (push_words lo top ws m1 rsp Hr1 ltac:(lia) Htop ltac:(lia) ltac:(lia)) as (m' & -> & Hr' & Hb & Hk).
  rewrite Hws in *. exists m', (rsp - 8 * (5 + Z.of_nat (length argv) + Z.of_nat (length envp))), ptrs.
  split_and!; [done|done| |lia|lia|]; [|split; [lia|]; eapply Forall2_impl; [exact Hstr|]; cbn; lia]. constructor; [done| |].
  - unfold ws in Hb. rewrite !rev_app_distr, !rev_involutive in Hb. rewrite <- !app_assoc in Hb. exact Hb.
  - eapply Forall2_impl; [exact Hstr|]. cbn. intros p s (Hp & H1 & H2). split; [|lia].
    apply (bytes_at_keep m1 m' p _ sp top); [done|lia|rewrite length_app; cbn; lia|]. intros x Hx. apply Hk. lia.
Qed.

(** Strings a program can receive. *)
Definition arg_ok (s : list Z) : Prop := Forall (fun b => b <> 0) s /\ utf8_valid s = true /\ (length s <= MAX_ARG_LEN)%nat.

Lemma args_loop_spec m ptrs strs : forall a,
  bytes_at m a (words_bytes ptrs) -> Forall arg_ok strs ->
  Forall2 (fun p s => bytes_at m p (s ++ [0]) /\ 0 < p < 2 ^ 63) ptrs strs -> args_loop m a (length ptrs) = Done strs.
Proof.
  revert strs. induction ptrs as [|p ptrs IH]; intros strs a Hb Hok Hall; inversion Hall as [|? s ? strs' [Hp Hr] Hall']; subst; [done|].
  apply Forall_cons in Hok as [(Hnz & Hu & Hl) Hok]. unfold words_bytes in Hb. cbn [fmap list_fmap concat] in Hb.
  apply bytes_at_app in Hb as [Hb1 Hb2]. rewrite to_le_bytes_length in Hb2. cbn [length args_loop].
  rewrite (load_u64_at m a p) by (done || lia). run. rewrite (proj2 (Z.eqb_neq p 0)) by lia. unfold cstr_to_str.
  rewrite (cstr_bytes_at m s) by done. run. rewrite Hu. rewrite (IH strs' (a + 8)) by done. by run.
Qed.

(** A program that starts on such a stack gets its arguments. *)
Lemma args_of_image m rsp argv envp ptrs :
  stack_image m rsp argv envp ptrs -> 0 < rsp -> Z.of_nat (length argv) <= MAX_ARGC -> Forall arg_ok argv ->
  args_from_stack m rsp = Done argv.
Proof.
  intros [_ Hw Hs] Hrsp Hc Hok. unfold args_from_stack. unfold MAX_ARGC in *.
  pose proof (Forall2_length _ _ _ Hs) as Hlp. rewrite length_app in Hlp.
  rewrite (proj2 (Z.eqb_neq rsp 0)) by lia. unfold words_bytes in Hw. rewrite fmap_app, concat_app in Hw. apply bytes_at_app in Hw as [Hw1 Hw2].
  cbn [fmap list_fmap concat] in Hw1, Hw2. rewrite app_nil_r in *. rewrite to_le_bytes_length in Hw2.
  rewrite (load_u64_at m rsp (Z.of_nat (length argv))) by (done || lia). run. rewrite (proj2 (Z.ltb_ge _ _)) by lia. rewrite Nat2Z.id.
  rewrite fmap_app, concat_app in Hw2. apply bytes_at_app in Hw2 as [Hw2 _]. fold (words_bytes (take (length argv) ptrs)) in Hw2.
  replace (length argv) with (length (take (length argv) ptrs)) at 1 by (rewrite length_take; lia).
  apply args_loop_spec; [done|done|].
  apply (Forall2_take _ _ _ (length argv)) in Hs. rewrite take_app_length in Hs. eapply Forall2_impl; [exact Hs|]. cbn. intros p s [? ?]. split; [done|lia].
Qed.

Lemma strings_size_bound l n : Forall (fun s => Z.of_nat (length s) <= n) l -> strings_size l <= (n + 1) * Z.of_nat (length l).
Proof. unfold strings_size. induction 1 as [|s l Hs _ IH]; cbn [zsum length]; lia. Qed.

End StackSpec.
