(* ===== verification/ExecMemory.v ===== *)
(** * The user memory of a new image

    The interface of ExecStack.v implemented with page tables: [write_bytes_to_user]
    of crates/proc/src/exec.rs walks the tables of the new address space, which is not
    the active one, and writes through the direct map; a load of the program goes
    through the same tables.  The stack that [map_user_stack] maps is a range that
    can be written, so the arguments of execve arrive. *)

From Stdlib Require Import ZArith Lia.
From stdpp Require Import prelude gmap list.
From S2P Require Import Prelude Paging Frames PageTable UserMap Cow Vma AddressSpace Loader ExecStack.

Local Open Scope Z_scope.

Section UserSpace.
Context {A V : Type} `{FrameAllocator A}.

(** An address space whose tables are rooted at [us_root]. *)
Record uspace := { us_k : kstate A V; us_root : Z }.

(** Bytes at a physical address inside one frame. *)
Definition k_write_at (k : kstate A V) (phys : Z) (bytes : list Z) : kstate A V :=
  let f := phys - phys mod 4096 in
  let off := Z.to_nat (phys mod 4096) in
  set_mem k (<[f := take off (page_of k f) ++ bytes ++ drop (off + length bytes) (page_of k f)]> (k_mem k)).

(** [virt_to_phys_via_pagewalk]. *)
Definition virt_to_phys_via_pagewalk (k : kstate A V) (pml4_phys virt : Z) : outcome (option Z) := translate (k_pt k) pml4_phys virt.

(** The loop of [write_bytes_to_user] on the bytes left; each round writes at least one. *)
Fixpoint write_bytes_loop (fuel : nat) (k : kstate A V) (pml4_phys cur_virt : Z) (data : list Z) : outcome (kstate A V) :=
  match fuel, data with
  | S fuel', _ :: _ =>
      let page_off := Z.land cur_virt 0xFFF in
      let chunk := Z.min (4096 - page_off) (Z.of_nat (length data)) in
      o ← virt_to_phys_via_pagewalk k pml4_phys cur_virt;
      phys ← expect o;
      write_bytes_loop fuel' (k_write_at k phys (take (Z.to_nat chunk) data)) pml4_phys (wrap64 (cur_virt + chunk)) (drop (Z.to_nat chunk) data)
  | _, _ => Done k
  end.

Definition write_bytes_to_user (k : kstate A V) (pml4_phys virt : Z) (data : list Z) : outcome (kstate A V) :=
  write_bytes_loop (length data) k pml4_phys virt data.

(** What a load at a user address gives. *)
Definition user_byte (k : kstate A V) (pml4_phys virt : Z) : option Z :=
  match translate (k_pt k) pml4_phys virt with
  | Done (Some phys) => page_of k (phys - phys mod 4096) !! Z.to_nat (phys mod 4096)
  | _ => None
  end.

#[global] Instance uspace_memory : UserMemory uspace := {
  um_write s virt data := k ← write_bytes_to_user (us_k s) (us_root s) virt data; Done {| us_k := k; us_root := us_root s |};
  um_byte s virt := user_byte (us_k s) (us_root s) virt
}.

(** Every page of the range has a frame of its own. *)
Definition mapped (k : kstate A V) (root lo hi : Z) : Prop :=
  exists F : Z -> Z,
    (forall x, lo <= x < hi -> translate (k_pt k) root x = Done (Some (F (x / 4096) + x mod 4096)) /\
       F (x / 4096) mod 4096 = 0 /\ 4096 <= Z.of_nat (length (page_of k (F (x / 4096))))) /\
    (forall x y, lo <= x < hi -> lo <= y < hi -> F (x / 4096) = F (y / 4096) -> x / 4096 = y / 4096).

Lemma frame_split f x : f mod 4096 = 0 -> f + x mod 4096 - (f + x mod 4096) mod 4096 = f /\ (f + x mod 4096) mod 4096 = x mod 4096.
Proof. intros Hf. Z.div_mod_to_equations. lia. Qed.

Lemma same_page x a : x / 4096 = a / 4096 -> x mod 4096 = x - a + a mod 4096.
Proof. intros E. Z.div_mod_to_equations. lia. Qed.

Lemma in_page x a n : a <= x < a + n -> a mod 4096 + n <= 4096 -> x / 4096 = a / 4096.
Proof. intros Hx Hn. Z.div_mod_to_equations. lia. Qed.

(** A write inside one page. *)
Lemma write_at_byte k root lo hi a bytes phys :
  mapped k root lo hi -> lo <= a -> a + Z.of_nat (length bytes) <= hi -> bytes <> [] ->
  a mod 4096 + Z.of_nat (length bytes) <= 4096 -> translate (k_pt k) root a = Done (Some phys) ->
  mapped (k_write_at k phys bytes) root lo hi /\
  forall x, lo <= x < hi ->
    user_byte (k_write_at k phys bytes) root x =
    if decide (a <= x < a + Z.of_nat (length bytes)) then bytes !! Z.to_nat (x - a) else user_byte k root x.
Proof.
  intros (F & HF & Hinj) Hlo Hhi Hne Hpage Htr. assert (0 < Z.of_nat (length bytes)) as Hpos by (destruct bytes; [done|cbn; lia]).
  destruct (HF a ltac:(lia)) as (Ha & Hal & Hlen). rewrite Htr in Ha. injection Ha as ->.
  unfold k_write_at. destruct (frame_split _ a Hal) as [-> ->]. set (fa := F (a / 4096)) in *. pose proof (Z.mod_pos_bound a 4096 ltac:(lia)) as Hm.
  set (off := Z.to_nat (a mod 4096)). set (page' := take off (page_of k fa) ++ bytes ++ drop (off + length bytes) (page_of k fa)).
  assert (4096 <= Z.of_nat (length page')) as Hlen'.
  { unfold page', off. rewrite !length_app, length_take, length_drop. lia. }
  assert (forall g, page_of (set_mem k (<[fa := page']> (k_mem k))) g = if decide (g = fa) then page' else page_of k g) as Hpg.
  { intros g. unfold page_of, set_mem. cbn [k_mem]. case_decide as E; [subst; by rewrite lookup_insert_eq|by rewrite lookup_insert_ne]. }
  split.
  - exists F. split; [|done]. intros x Hx. destruct (HF x Hx) as (H1 & H2 & H3). split_and!; [done|done|]. rewrite Hpg. by case_decide.
  - intros x Hx. unfold user_byte. cbn [set_mem k_pt]. destruct (HF x Hx) as (-> & Hxal & Hxl). destruct (frame_split _ x Hxal) as [-> ->].
    rewrite Hpg. pose proof (Z.mod_pos_bound x 4096 ltac:(lia)) as Hmx. destruct (decide (x / 4096 = a / 4096)) as [Ep|Ep].
    + pose proof (same_page x a Ep) as Hsp. rewrite Ep. fold fa. rewrite decide_True by done. unfold page', off.
      destruct (decide (x mod 4096 < a mod 4096)) as [Hl|Hl].
      * rewrite lookup_app_l by (rewrite length_take; lia). rewrite lookup_take_lt by lia. rewrite decide_False by lia. done.
      * rewrite lookup_app_r by (rewrite length_take; lia). rewrite length_take.
        replace (_ - _ `min` _)%nat with (Z.to_nat (x - a)) by lia.
        case_decide as Hc; [by rewrite lookup_app_l by lia|]. rewrite lookup_app_r by lia. rewrite lookup_drop. f_equal. lia.
    + rewrite decide_False by (intros E; apply Ep, (Hinj x a Hx ltac:(lia) E)). rewrite decide_False; [done|].
      intros Hc. apply Ep. by eapply in_page.
Qed.

Lemma write_bytes_loop_spec root lo hi fuel : forall k a data,
  (length data <= fuel)%nat -> mapped k root lo hi -> 0 <= lo -> hi < 2 ^ 63 -> lo <= a -> a + Z.of_nat (length data) <= hi ->
  exists k', write_bytes_loop fuel k root a data = Done k' /\ mapped k' root lo hi /\
    forall x, lo <= x < hi ->
      user_byte k' root x = if decide (a <= x < a + Z.of_nat (length data)) then data !! Z.to_nat (x - a) else user_byte k root x.
Proof.
  induction fuel as [|fuel IH]; intros k a data Hf Hm Hlo Hhi Ha Hah.
  { destruct data; [|cbn in Hf; lia]. exists k. split_and!; [done|done|]. intros x Hx. by rewrite decide_False by (cbn; lia). }
  destruct data as [|b data]; [exists k; split_and!; [done|done|]; intros x Hx; by rewrite decide_False by (cbn; lia)|].
  cbn [write_bytes_loop]. set (all := b :: data) in *. assert (0 < Z.of_nat (length all)) as Hpos by (cbn; lia).
  change 0xFFF with (Z.ones 12). rewrite Z.land_ones by lia. change (2 ^ 12) with 4096. pose proof (Z.mod_pos_bound a 4096 ltac:(lia)) as Hmod.
  set (n := Z.min (4096 - a mod 4096) (Z.of_nat (length all))). assert (0 < n <= Z.of_nat (length all)) as Hn by lia.
  pose proof Hm as (F & HF & _). destruct (HF a ltac:(lia)) as (Htr & _). unfold virt_to_phys_via_pagewalk. rewrite Htr. run.
  assert (length (take (Z.to_nat n) all) = Z.to_nat n) as Hlt by (rewrite length_take; lia).
  destruct (write_at_byte k root lo hi a (take (Z.to_nat n) all) (F (a / 4096) + a mod 4096) Hm Ha) as [Hm1 Hb1]; [lia|intros E; rewrite E in Hlt; cbn in Hlt; lia|lia|exact Htr|].
  rewrite wrap64_small by (unfold is_u64; lia).
  destruct (IH _ (a + n) (drop (Z.to_nat n) all) ltac:(rewrite length_drop; cbn in *; lia) Hm1 Hlo Hhi ltac:(lia)) as (k' & -> & Hm' & Hb');
    [rewrite length_drop; lia|].
  exists k'. split_and!; [done|done|]. intros x Hx. rewrite Hb', Hb1, length_drop, Hlt by done.
  destruct (decide (a + n <= x < a + n + Z.of_nat (length all - Z.to_nat n))) as [H1|H1].
  - rewrite decide_True by lia. rewrite lookup_drop. f_equal. lia.
  - destruct (decide (a <= x < a + Z.of_nat (Z.to_nat n))) as [H2|H2].
    + rewrite decide_True by lia. apply lookup_take_lt. lia.
    + by rewrite decide_False by lia.
Qed.

#[global] Instance uspace_laws : UserMemoryLaws uspace.
Proof.
  refine {| um_range s lo hi := mapped (us_k s) (us_root s) lo hi |}.
  intros m lo hi a bs Hr Hlo Hhi Ha Hah. cbn [um_write uspace_memory]. unfold write_bytes_to_user.
  destruct (write_bytes_loop_spec (us_root m) lo hi (length bs) (us_k m) a bs ltac:(lia) Hr Hlo Hhi Ha Hah) as (k' & -> & Hm' & Hb). run.
  eexists. split; [reflexivity|]. split; [exact Hm'|]. exact Hb.
Defined.

End UserSpace.

Arguments uspace A V : clear implicits.

(** ** The stack that execve maps *)

Section StackPages.
Context {A V : Type} `{FrameAllocatorLaws A}.
Implicit Types (k : kstate A V) (a : AddressSpace).

Definition USTACK_BOTTOM : Z := USTACK_TOP - USTACK_SIZE.

(** What holds when [n] pages of the stack are mapped. *)
Record stacked a k0 (n : nat) k (F : nat -> Z) : Prop := {
  st_wf : space_wf (k_pt k) (as_pml4_phys a);
  st_size : (size (k_free k0) <= size (k_free k) + 4 * n)%nat;
  st_page i : (i < n)%nat -> F i ∉ k_free k /\ F i mod 4096 = 0 /\ 0 < F i < 2 ^ 44 /\ (4096 <= length (page_of k (F i)))%nat /\
    forall w, vpage w = USTACK_BOTTOM / 4096 + Z.of_nat i -> k_uleaf k (as_pml4_phys a) w = Some (PageTableEntry_new_page (F i) stack_flags);
  st_inj i j : (i < n)%nat -> (j < n)%nat -> F i = F j -> i = j
}.

Lemma stack_flags_ok : is_flags stack_flags /\ Z.testbit stack_flags 0 = true.
Proof.
  split; [|done]. split; [vm_compute; discriminate|].
  intros i Hi Hn; unfold stack_flags, with_user_accessible, with_writable, with_present, with_no_execute,
    PRESENT, WRITABLE, USER_ACCESSIBLE, NO_EXECUTE, PageFlags_new; autorewrite with bits; bit_cases; done.
Qed.

Lemma stacked_step a k0 n k F :
  stacked a k0 n k F -> (n < 64)%nat ->
  match map_stack_page a k (Z.of_nat n) with
  | Done k' => exists F', stacked a k0 (S n) k' F'
  | Panic => (size (k_free k0) < 4 * S n)%nat
  end.
Proof.
  intros [Hwf Hsz Hpg Hinj] Hn. unfold map_stack_page.
  pose proof (k_alloc_frame_spec k (as_pml4_phys a) Hwf) as Ha. destruct (k_alloc_frame k) as [[f k1]|]; run.
  2: { rewrite Ha in Hsz. rewrite size_empty in Hsz. lia. }
  destruct Ha as (Hwf1 & Hf & Hfr & Hal & Hr & Htabs & Hmem & _). set (k2 := k_write_page k1 f zero_page).
  assert (space_wf (k_pt k2) (as_pml4_phys a)) as Hwf2 by exact Hwf1.
  pose proof (size_remove _ _ Hf) as Hsr. rewrite <- Hfr in Hsr.
  assert (k_free k2 = k_free k1) as Hfr2 by done.
  destruct stack_flags_ok as [Hfl Hpr]. set (v := wrap64 (USTACK_TOP - USTACK_SIZE + Z.of_nat n * 4096)).
  assert (vpage v = USTACK_BOTTOM / 4096 + Z.of_nat n) as Hv.
  { unfold v, USTACK_BOTTOM, USTACK_TOP, USTACK_SIZE. rewrite wrap64_small by (unfold is_u64; lia). rewrite vpage_user by lia. clear. Z.div_mod_to_equations. lia. }
  rewrite PhysAddr_new_frame by done.
  assert (is_user v) as Huv by (apply is_user_low; unfold v, USTACK_TOP, USTACK_SIZE; rewrite wrap64_small by (unfold is_u64; lia); lia).
  pose proof (k_map_page_spec k2 a v f stack_flags Hwf2 Huv ltac:(lia) Hfl Hpr) as Hm. destruct (k_map_page k2 a v f stack_flags) as [k'|].
  2: { rewrite Hfr2 in Hm. lia. }
  destruct Hm as (Hwf' & Hsub & Hsz' & Hmem' & _ & _ & _ & _ & Hu). rewrite Hfr2 in *.
  assert (forall g, page_of k' g = if decide (g = f) then overwrite (page_of k1 f) zero_page else page_of k g) as Hpage.
  { intros g. unfold page_of at 1. rewrite Hmem'. fold (page_of k2 g). unfold k2. case_decide as E; [subst; apply page_of_write_eq|].
    rewrite page_of_write_ne by done. unfold page_of. by rewrite Hmem. }
  assert (forall w, k_uleaf k2 (as_pml4_phys a) w = k_uleaf k (as_pml4_phys a) w) as Hold by (intros w; unfold k_uleaf; cbn; by rewrite Htabs).
  exists (fun i => if decide (i = n) then f else F i). constructor; [done|lia| |].
  - intros i Hi. case_decide as E.
    + subst i. split_and!; [intros Hin; apply Hsub in Hin; rewrite Hfr, elem_of_difference, elem_of_singleton in Hin; tauto|done|lia|lia| |].
      * rewrite Hpage, decide_True by done. unfold overwrite. rewrite length_app, zero_page_length. lia.
      * intros w Hw. by rewrite Hu, decide_True by lia.
    + destruct (Hpg i ltac:(lia)) as (H1 & H2 & H3 & H4 & H5). assert (F i <> f) as Hne by (intros <-; done).
      split_and!; [intros Hin; apply Hsub in Hin; rewrite Hfr, elem_of_difference, elem_of_singleton in Hin; tauto|done|lia|lia|rewrite Hpage, decide_False by done; lia|].
      intros w Hw. rewrite Hu, decide_False, Hold by lia. by apply H5.
  - intros i j Hi Hj. repeat case_decide; subst; try done.
    + intros ->. by destruct (Hpg j ltac:(lia)) as [? _].
    + intros <-. by destruct (Hpg i ltac:(lia)) as [? _].
    + apply Hinj; lia.
Qed.

Lemma map_user_stack_pages a k0 ns : forall n k F,
  ns = seqZ (Z.of_nat n) (64 - Z.of_nat n) -> (n <= 64)%nat -> stacked a k0 n k F ->
  match foldM (map_stack_page a) k ns with
  | Done k' => exists F', stacked a k0 64 k' F'
  | Panic => (size (k_free k0) < 4 * 64)%nat
  end.
Proof.
  induction ns as [|x ns IH]; intros n k F Hns Hn Hst; cbn [foldM].
  - assert (n = 64)%nat as ->; [|by exists F]. destruct (decide (n = 64)%nat) as [|Hne]; [done|].
    rewrite seqZ_cons in Hns by lia. done.
  - assert (n < 64)%nat as Hlt by (destruct (decide (n = 64)%nat) as [->|]; [by rewrite seqZ_nil in Hns by lia|lia]).
    rewrite seqZ_cons in Hns by lia. injection Hns as -> ->. pose proof (stacked_step a k0 n k F Hst Hlt) as Hs.
    destruct (map_stack_page a k (Z.of_nat n)) as [k1|]; run; [|lia]. destruct Hs as [F1 Hs].
    apply (IH (S n) k1 F1); [f_equal; lia|lia|done].
Qed.

(** The 256 KiB below the top of the stack can be written, if there were frames. *)
Lemma map_user_stack_mapped a k :
  space_wf (k_pt k) (as_pml4_phys a) ->
  match map_user_stack a k with
  | Done (top, k') => top = USTACK_TOP - 8 /\ space_wf (k_pt k') (as_pml4_phys a) /\ mapped k' (as_pml4_phys a) USTACK_BOTTOM USTACK_TOP
  | Panic => (size (k_free k) < 4 * 64)%nat
  end.
Proof.
  intros Hwf. unfold map_user_stack. pose proof (map_user_stack_pages a k (seqZ 0 USTACK_PAGES) 0 k (fun _ => 0) eq_refl ltac:(lia)) as Hp.
  destruct (foldM (map_stack_page a) k (seqZ 0 USTACK_PAGES)) as [k'|]; run; [|apply Hp; by constructor; [|lia|lia|lia]].
  destruct Hp as [F [Hwf' _ Hpg Hinj]]; [by constructor; [|lia|lia|lia]|]. split_and!; [done|done|].
  set (ix := fun x => Z.to_nat (x - USTACK_BOTTOM / 4096)).
  assert (forall x, USTACK_BOTTOM <= x < USTACK_TOP -> (ix (x / 4096)%Z < 64)%nat /\ x / 4096 = USTACK_BOTTOM / 4096 + Z.of_nat (ix (x / 4096))) as Hix.
  { intros x Hx. unfold ix, USTACK_BOTTOM, USTACK_TOP, USTACK_SIZE in *. clear -Hx. Z.div_mod_to_equations. lia. }
  exists (fun p => F (ix p)). split.
  - intros x Hx. destruct (Hix x Hx) as [Hlt Hpx]. destruct (Hpg _ Hlt) as (_ & Hal & Hr & Hlen & Hu).
    split_and!; [|done|lia]. rewrite translate_uleaf by (done || apply is_user_low; unfold USTACK_BOTTOM, USTACK_TOP, USTACK_SIZE in Hx; lia). fold (k_uleaf k' (as_pml4_phys a) x).
    rewrite Hu by (rewrite vpage_user by (unfold USTACK_BOTTOM, USTACK_TOP, USTACK_SIZE in Hx; lia); exact Hpx).
    cbn [mbind option_bind]. destruct stack_flags_ok as [Hfl _]. rewrite frame_new_page by done. change (2 ^ 12) with 4096.
    rewrite Hal, Z.mod_small, Z.sub_0_r by lia. by rewrite add_page_offset by lia.
  - intros x y Hx Hy E. destruct (Hix x Hx) as [Hlx Hpx]. destruct (Hix y Hy) as [Hly Hpy]. rewrite Hpx, Hpy.
    do 2 f_equal. by apply Hinj.
Qed.

Lemma mapped_sub k root lo hi lo' hi' : mapped k root lo hi -> lo <= lo' -> hi' <= hi -> mapped k root lo' hi'.
Proof. intros (F & HF & Hinj) Hlo Hhi. exists F. split; [intros x Hx; apply HF; lia|intros x y Hx Hy; apply Hinj; lia]. Qed.

(** Execve delivers the arguments.  For an address space with 256 free frames,
    at most 32 argument and 32 environment strings of at most 256 bytes, mapping the
    user stack and laying it out both succeed; the stack pointer is aligned to 16
    and points at the argument count, the pointers to the arguments, a null, the
    pointers to the environment, a null and an empty auxiliary vector, all read
    through the page tables of the new address space, each pointer leading to its
    string and a terminator; and the start-up code of a program finds exactly the
    arguments there, when there are at most 16, each of at most 128 bytes. *)
Theorem execve_arguments a k argv envp :
  space_wf (k_pt k) (as_pml4_phys a) -> (256 <= size (k_free k))%nat ->
  (length argv <= MAX_ARGV)%nat -> (length envp <= MAX_ENVP)%nat -> Forall (fun s => Z.of_nat (length s) <= 256) (argv ++ envp) ->
  exists top k1 m rsp ptrs, map_user_stack a k = Done (top, k1) /\
    setup_stack {| us_k := k1; us_root := as_pml4_phys a |} top argv envp = Done (m, rsp) /\ stack_image m rsp argv envp ptrs /\
    (Z.of_nat (length argv) <= MAX_ARGC -> Forall arg_ok argv -> args_from_stack m rsp = Done argv).
Proof.
  intros Hwf Hfree Ha He Hlen. pose proof (map_user_stack_mapped a k Hwf) as Hm. destruct (map_user_stack a k) as [[top k1]|]; [|lia].
  destruct Hm as (-> & _ & Hm). apply strings_size_bound in Hlen. rewrite length_app in Hlen. unfold MAX_ARGV, MAX_ENVP in *.
  apply (mapped_sub _ _ _ _ USTACK_BOTTOM (USTACK_TOP - 8)) in Hm; [|lia|lia].
  assert (um_range {| us_k := k1; us_root := as_pml4_phys a |} USTACK_BOTTOM (USTACK_TOP - 8)) as Hrg by exact Hm.
  destruct (setup_stack_spec {| us_k := k1; us_root := as_pml4_phys a |} USTACK_BOTTOM (USTACK_TOP - 8) argv envp Hrg)
    as (m & rsp & ptrs & E & _ & Hsi & Hrsp & _); [unfold USTACK_BOTTOM, USTACK_TOP, USTACK_SIZE; lia..|].
  exists (USTACK_TOP - 8), k1, m, rsp, ptrs. split_and!; [done|exact E|done|]. intros Hc Hok. apply (args_of_image m rsp argv envp ptrs); try done.
  unfold USTACK_BOTTOM, USTACK_TOP, USTACK_SIZE in Hrsp. lia.
Qed.

End StackPages.

(** [echo hi] in an empty address space with 300 frames. *)
Definition exec_kernel : kstate BumpAllocator unit :=
  {| k_pt := {| tabs := {[ 0x1000 := PageTable_zero ]}; pt_alloc := {| bump_n := 302; bump_next := 2 |} |}; k_mem := ∅; k_cow := COW_TABLE;
     k_vfs := tt; k_shoot := [] |}.

Lemma exec_kernel_wf : space_wf (k_pt exec_kernel) 0x1000.
Proof.
  assert (pt_wf (k_pt exec_kernel) 0x1000 /\ forall v, mapping (tabs (k_pt exec_kernel)) 0x1000 v = None /\ no_huge (tabs (k_pt exec_kernel)) 0x1000 v) as [H1 H2].
  { apply pt_wf_new; [split; simpl; lia| |done]. simpl. rewrite elem_of_bump_free. simpl. intros (k & Hk & ?). lia. }
  split; [done|]. intros v _. apply H2.
Qed.

Lemma execve_arguments_witness :
  exists top k1 m rsp, map_user_stack empty_space exec_kernel = Done (top, k1) /\
    setup_stack {| us_k := k1; us_root := 0x1000 |} top [[101; 99; 104; 111]; [104; 105]] [] = Done (m, rsp) /\ rsp mod 16 = 0 /\
    args_from_stack m rsp = Done [[101; 99; 104; 111]; [104; 105]].
Proof.
  destruct (execve_arguments empty_space exec_kernel [[101; 99; 104; 111]; [104; 105]] []) as (top & k1 & m & rsp & ptrs & E1 & E2 & Hsi & Harg).
  - exact exec_kernel_wf.
  - apply Nat.leb_le. vm_compute. reflexivity.
  - apply Nat.leb_le. reflexivity.
  - apply Nat.leb_le. reflexivity.
  - repeat constructor; simpl; lia.
  - exists top, k1, m, rsp. split; [exact E1|]. split; [exact E2|]. split; [exact (si_aligned _ _ _ _ _ Hsi)|].
    apply Harg; [unfold MAX_ARGC; simpl; lia|]. repeat constructor; (discriminate || (apply Nat.leb_le; reflexivity)).
Defined.
