(* ===== verification/Fork.v ===== *)
(** * fork

    [AddressSpace::fork_cow] of crates/proc/src/address_space.rs: the child gets the
    pages of the parent, each with the same frame; a page of a shared file mapping
    keeps its permissions, every other page becomes read-only and copy-on-write in
    both, with a claim recorded for the child and the other CPUs told.  What the loops
    over the four levels have done is a function of the number of the next page. *)

From Stdlib Require Import ZArith Lia.
From stdpp Require Import prelude gmap list.
From S2P Require Import Prelude Paging Frames PageTable UserMap Pcid Cow Vma AddressSpace Loader Faults Spaces ExecStack ExecMemory.

Local Open Scope Z_scope.

(** ** Pages and indices *)

Lemma index_div v n : 12 <= n <= 39 -> Z.land (Z.shiftr v n) 0x1FF = vpage v / 2 ^ (n - 12) mod 512.
Proof.
  intros Hn. rewrite index_vpage by done. change 0x1FF with (Z.ones 9). rewrite Z.land_ones, Z.shiftr_div_pow2 by lia. done.
Qed.

Lemma ix_vpage v : Z.of_nat (ix1 v) = vpage v mod 512 /\ Z.of_nat (ix2 v) = vpage v / 2 ^ 9 mod 512 /\
  Z.of_nat (ix3 v) = vpage v / 2 ^ 18 mod 512 /\ Z.of_nat (ix4 v) = vpage v / 2 ^ 27 mod 512.
Proof.
  unfold ix1, ix2, ix3, ix4, VirtAddr_pt_index, VirtAddr_pd_index, VirtAddr_pdpt_index, VirtAddr_pml4_index.
  rewrite !index_div by lia. change (2 ^ (12 - 12)) with 1. rewrite Z.div_1_r. change (21 - 12) with 9. change (30 - 12) with 18. change (39 - 12) with 27.
  pose proof (fun x => Z.mod_pos_bound x 512 ltac:(lia)) as Hm. rewrite !Z2Nat.id by apply Hm. done.
Qed.

Lemma vpage_range v : 0 <= vpage v < 2 ^ 36.
Proof. unfold vpage. Z.div_mod_to_equations. lia. Qed.

Lemma is_user_page v : is_user v <-> vpage v < 2 ^ 35.
Proof.
  unfold is_user. pose proof (ix_vpage v) as (_ & _ & _ & H4). pose proof (vpage_range v).
  assert (vpage v / 2 ^ 27 mod 512 = vpage v / 2 ^ 27) as E by (apply Z.mod_small; Z.div_mod_to_equations; lia). rewrite E in H4.
  split; intros Hu; Z.div_mod_to_equations; lia.
Qed.

Definition page_addr (pg : Z) : Z := pg * 4096.

Lemma vpage_addr pg : 0 <= pg < 2 ^ 36 -> vpage (page_addr pg) = pg.
Proof. intros Hp. unfold vpage, page_addr. Z.div_mod_to_equations. lia. Qed.

(** The page of a path. *)
Definition page_number (i4 i3 i2 i1 : nat) : Z := ((Z.of_nat i4 * 512 + Z.of_nat i3) * 512 + Z.of_nat i2) * 512 + Z.of_nat i1.

Lemma page_number_ix v i4 i3 i2 i1 : (i4 < 512)%nat -> (i3 < 512)%nat -> (i2 < 512)%nat -> (i1 < 512)%nat ->
  vpage v = page_number i4 i3 i2 i1 <-> ix4 v = i4 /\ ix3 v = i3 /\ ix2 v = i2 /\ ix1 v = i1.
Proof.
  intros H4 H3 H2 H1. pose proof (ix_vpage v) as (E1 & E2 & E3 & E4). pose proof (vpage_range v). unfold page_number.
  split; [intros E; split_and!|intros (<- & <- & <- & <-)]; Z.div_mod_to_equations; lia.
Qed.

Lemma virt_of_indices_addr i4 i3 i2 i1 : (i4 < 512)%nat -> (i3 < 512)%nat -> (i2 < 512)%nat -> (i1 < 512)%nat ->
  virt_of_indices (Z.of_nat i4) (Z.of_nat i3) (Z.of_nat i2) (Z.of_nat i1) = page_addr (page_number i4 i3 i2 i1).
Proof.
  intros H4 H3 H2 H1. set (v := page_addr (page_number i4 i3 i2 i1)).
  assert (0 <= page_number i4 i3 i2 i1 < 2 ^ 36) as Hr by (unfold page_number; lia).
  destruct (proj1 (page_number_ix v i4 i3 i2 i1 H4 H3 H2 H1) (vpage_addr _ Hr)) as (E4 & E3 & E2 & E1).
  pose proof (virt_of_indices_page v) as Hv. unfold ix4, ix3, ix2, ix1 in *.
  rewrite <- E4, <- E3, <- E2, <- E1, !Z2Nat.id by apply index_range. rewrite Hv. unfold v, page_addr. Z.div_mod_to_equations. lia.
Qed.

Lemma omap_fun_ext {X B} (f g : X -> option B) (l : list X) : (forall x, f x = g x) -> omap f l = omap g l.
Proof. intros Hfg. induction l as [|x l IH]; cbn; [done|]. by rewrite Hfg, IH. Qed.

Lemma small_entries {A} `{FrameAllocatorLaws A} (s : pt_state A) root i4 i3 i2 : space_wf s root -> (i4 < 256)%nat -> (i3 < 512)%nat -> (i2 < 512)%nat ->
  (forall e, pentry (tabs s) root [i4] i3 = Some e -> is_huge_page e = false) /\
  (forall e, pentry (tabs s) root [i4; i3] i2 = Some e -> is_huge_page e = false).
Proof.
  intros Hwf H4 H3 H2. set (n := page_number i4 i3 i2 0). assert (0 <= n < 2 ^ 35) as Hn by (unfold n, page_number; lia).
  destruct (proj1 (page_number_ix (page_addr n) i4 i3 i2 0 ltac:(lia) H3 H2 ltac:(lia))) as (E4 & E3 & E2 & _); [by rewrite vpage_addr by lia|].
  destruct (sw_small _ _ Hwf (page_addr n)) as [S3 S2]; [apply is_user_page; rewrite vpage_addr; lia|]. by rewrite E4, E3, ?E2 in *.
Qed.

(** ** What a page becomes *)

(** Whether an address is in a shared mapping of a file. *)
Definition shared_file (a : AddressSpace) (virt : Z) : bool :=
  match find_vma a virt with Some {| vma_backing := File _ _ true |} => true | _ => false end.

(** The flags of the child's entry, and the entry the parent is left with. *)
Definition fork_flags (a : AddressSpace) (virt entry : Z) : Z :=
  if shared_file a virt then PageTableEntry_flags entry else cow_readonly_flags (PageTableEntry_flags entry).
Definition child_entry (a : AddressSpace) (virt entry : Z) : Z := PageTableEntry_with_flags entry (fork_flags a virt entry).
Definition parent_entry (a : AddressSpace) (virt entry : Z) : Z :=
  if shared_file a virt then entry else PageTableEntry_with_flags entry (cow_readonly_flags (PageTableEntry_flags entry)).

Section Fork.
Context {A V : Type} `{FrameAllocatorLaws A}.
Implicit Types (k : kstate A V) (a : AddressSpace).

Lemma clone_leaf_eq (parent child : AddressSpace) k pt pt_idx virt entry :
  clone_leaf parent child k pt pt_idx virt entry =
  if shared_file parent virt then k_map_page k child virt (PageTableEntry_frame entry) (fork_flags parent virt entry)
  else
    k1 ← k_set_entry k pt (Z.of_nat pt_idx) (parent_entry parent virt entry);
    let k2 := set_cow k1 (cow_share (k_cow k1) (PageTableEntry_frame entry)) in
    k3 ← k_map_page k2 child virt (PageTableEntry_frame entry) (fork_flags parent virt entry);
    Done (shootdown k3 (as_active_cpus parent) virt).
Proof.
  unfold clone_leaf, fork_flags, parent_entry, shared_file.
  destruct (find_vma parent virt) as [[s e f [|vn off [|]]]|]; try done.
Qed.

(** The frames and the notices of the pages that are not of a shared file. *)
Definition private_frame k a (pg : Z) : option Z :=
  e ← k_uleaf k (as_pml4_phys a) (page_addr pg); if shared_file a (page_addr pg) then None else Some (PageTableEntry_frame e).
Definition private_notice k a (pg : Z) : option (Z * Z) := _ ← private_frame k a pg; Some (as_active_cpus a, page_addr pg).
Definition mapped_pages k a (n : Z) : nat := length (omap (fun pg => k_uleaf k (as_pml4_phys a) (page_addr pg)) (seqZ 0 n)).

Section Loop.
Variables (parent child : AddressSpace) (k0 : kstate A V).
Notation pr := (as_pml4_phys parent).
Notation cr := (as_pml4_phys child).
Hypothesis Hent : forall w e, is_user w -> k_uleaf k0 pr w = Some e -> 0 <= e.

(** The state when the pages below [n] have been cloned. *)
Record forked (n : Z) k : Prop := {
  fk_spaces : two_spaces (k_pt k) pr cr;
  fk_tables p j : (length p <= 2)%nat -> pentry (tabs (k_pt k)) pr p j = pentry (tabs (k_pt k0)) pr p j;
  fk_pleaf w : is_user w -> k_uleaf k pr w =
    (e ← k_uleaf k0 pr w; Some (if vpage w <? n then parent_entry parent (page_addr (vpage w)) e else e));
  fk_cleaf w : is_user w -> k_uleaf k cr w =
    if vpage w <? n then e ← k_uleaf k0 pr w; Some (child_entry parent (page_addr (vpage w)) e) else None;
  fk_kernel p j : (length p <= 3)%nat -> ~ user_path p ->
    pentry (tabs (k_pt k)) pr p j = pentry (tabs (k_pt k0)) pr p j /\ pentry (tabs (k_pt k)) cr p j = pentry (tabs (k_pt k0)) cr p j;
  fk_mem : k_mem k = k_mem k0 /\ k_vfs k = k_vfs k0;
  fk_cow : k_cow k = foldl cow_share (k_cow k0) (omap (private_frame k0 parent) (seqZ 0 n));
  fk_shoot : k_shoot k = k_shoot k0 ++ omap (private_notice k0 parent) (seqZ 0 n);
  fk_cons g : g ∈ k_free k0 \/ utable (tabs (k_pt k0)) cr g <-> g ∈ k_free k \/ utable (tabs (k_pt k)) cr g;
  fk_free : k_free k ⊆ k_free k0;
  fk_size : (size (k_free k0) <= size (k_free k) + 3 * mapped_pages k0 parent n)%nat
}.

Lemma seqZ_more n m : 0 <= n -> 0 <= m -> seqZ 0 (n + m) = seqZ 0 n ++ seqZ n m.
Proof. intros Hn Hm. by rewrite seqZ_app, Z.add_0_l by lia. Qed.

(** Pages that are not mapped are passed over. *)
Lemma forked_skip n m k : 0 <= n -> 0 <= m -> n + m <= 2 ^ 35 ->
  (forall w, n <= vpage w < n + m -> k_uleaf k0 pr w = None) -> forked n k -> forked (n + m) k.
Proof.
  intros Hn Hm Hb Hnone Hf.
  assert (forall {B} (f : Z -> option B), (forall pg, n <= pg < n + m -> f pg = None) -> omap f (seqZ 0 (n + m)) = omap f (seqZ 0 n)) as Homap.
  { intros B f Hf'. rewrite seqZ_more, omap_app by done. assert (omap f (seqZ n m) = []) as ->; [|apply app_nil_r].
    assert (Forall (fun pg => f pg = None) (seqZ n m)) as HF by (apply Forall_forall; intros pg Hpg%elem_of_seqZ; apply Hf'; lia).
    induction HF as [|pg l Hx _ IH]; cbn; [done|]. by rewrite Hx. }
  assert (forall pg, n <= pg < n + m -> k_uleaf k0 pr (page_addr pg) = None) as Hpg.
  { intros pg Hp. apply Hnone. rewrite vpage_addr by lia. lia. }
  destruct Hf. constructor; try done.
  - intros w Hw. rewrite fk_pleaf0 by done. destruct (k_uleaf k0 pr w) as [e|] eqn:He; cbn; [|done]. do 2 f_equal.
    destruct (Z.ltb_spec (vpage w) n), (Z.ltb_spec (vpage w) (n + m)); try done; [lia|]. by rewrite Hnone in He by lia.
  - intros w Hw. rewrite fk_cleaf0 by done. destruct (Z.ltb_spec (vpage w) n), (Z.ltb_spec (vpage w) (n + m)); try done; [lia|]. by rewrite Hnone by lia.
  - rewrite Homap; [done|]. intros pg Hp. unfold private_frame. by rewrite Hpg.
  - rewrite Homap; [done|]. intros pg Hp. unfold private_notice, private_frame. by rewrite Hpg.
  - unfold mapped_pages in *. rewrite Homap by done. done.
Qed.

(** The flags a page is cloned with are flags of a present page. *)
Lemma fork_flags_ok w e : is_user w -> k_uleaf k0 pr w = Some e -> is_present e = true -> forall v,
  is_flags (fork_flags parent v e) /\ Z.testbit (fork_flags parent v e) 0 = true /\ is_present (parent_entry parent v e) = true.
Proof.
  intros Hw He Hp v. pose proof (is_flags_of e (Hent _ _ Hw He)) as Hf. rewrite is_present_bit in Hp.
  assert (Z.testbit (PageTableEntry_flags e) 0 = true) as H0f by (by rewrite flags_bits_of, Hp by lia).
  assert (Z.testbit (cow_readonly_flags (PageTableEntry_flags e)) 0 = true) as H1f by (by rewrite cow_readonly_bits, H0f by lia).
  unfold fork_flags, parent_entry. destruct (shared_file parent v); split_and!; rewrite ?is_present_bit; try done; [by apply cow_readonly_ok|].
  unfold PageTableEntry_with_flags. by rewrite new_page_bits, H1f by lia.
Qed.

Lemma k_uleaf_present k r w e : k_uleaf k r w = Some e -> is_present e = true.
Proof. intros (pt & _ & _ & Hp)%uleaf_walk. done. Qed.

(** The pages below [n + 1] are those below [n] and the page [n]. *)
Lemma page_below w n : (vpage w <? n + 1) = if decide (vpage w = n) then true else vpage w <? n.
Proof. case_decide; [apply Z.ltb_lt; lia|]. destruct (Z.ltb_spec (vpage w) n); [apply Z.ltb_lt; lia|apply Z.ltb_ge; lia]. Qed.

Lemma omap_next {B} (f : Z -> option B) n : 0 <= n -> omap f (seqZ 0 (n + 1)) = omap f (seqZ 0 n) ++ match f n with Some x => [x] | None => [] end.
Proof. intros Hn. rewrite seqZ_more, omap_app by lia. done. Qed.

(** One page: the parent's entry is rewritten (or not), then the child's is made. *)
Lemma forked_page n k k1 e : 0 <= n < 2 ^ 35 -> k_uleaf k0 pr (page_addr n) = Some e -> forked n k ->
  two_spaces (k_pt k1) pr cr -> owned_step (k_pt k) (k_pt k1) pr ->
  (forall p j, (length p <= 2)%nat -> pentry (tabs (k_pt k1)) pr p j = pentry (tabs (k_pt k)) pr p j) ->
  (forall p j, (length p <= 3)%nat -> pentry (tabs (k_pt k1)) cr p j = pentry (tabs (k_pt k)) cr p j) ->
  (forall w, k_uleaf k1 pr w = if decide (vpage w = n) then Some (parent_entry parent (page_addr n) e) else k_uleaf k pr w) ->
  k_free k1 = k_free k -> k_mem k1 = k_mem k -> k_vfs k1 = k_vfs k ->
  k_cow k1 = foldl cow_share (k_cow k) (match private_frame k0 parent n with Some f => [f] | None => [] end) -> k_shoot k1 = k_shoot k ->
  match k_map_page k1 child (page_addr n) (PageTableEntry_frame e) (fork_flags parent (page_addr n) e) with
  | Done k' => forall k'', k_pt k'' = k_pt k' -> k_mem k'' = k_mem k' -> k_cow k'' = k_cow k' -> k_vfs k'' = k_vfs k' ->
      k_shoot k'' = k_shoot k' ++ (match private_notice k0 parent n with Some x => [x] | None => [] end) -> forked (n + 1) k''
  | Panic => (size (k_free k0) < 3 * mapped_pages k0 parent (n + 1))%nat
  end.
Proof.
  intros Hn He Hf Ht Ho Hsh Hcp Hu Hfr Hm Hv Hc Hs.
  assert (vpage (page_addr n) = n) as Hvp by (apply vpage_addr; lia).
  destruct (fork_flags_ok (page_addr n) e ltac:(apply is_user_page; lia) He (k_uleaf_present _ _ _ _ He) (page_addr n)) as (F1 & F2 & _).
  pose proof (k_map_page_two k1 child pr (page_addr n) (PageTableEntry_frame e) (fork_flags parent (page_addr n) e) (two_spaces_sym _ _ _ Ht)
    ltac:(apply is_user_page; lia) (frame_range e) F1 F2) as Hmp.
  assert (mapped_pages k0 parent (n + 1) = S (mapped_pages k0 parent n)) as Hmpn.
  { unfold mapped_pages. rewrite omap_next, He by lia. rewrite length_app. cbn. lia. }
  destruct Hf as [S1 S2 S3 S4 S5 S6 S7 S8 S9 S10 S11].
  destruct (k_map_page k1 child (page_addr n) _ _) as [k'|]; [|rewrite Hfr in Hmp; lia].
  destruct Hmp as (T1 & T2 & T2x & T3 & T4 & T5 & T6 & T7 & T8 & T9). rewrite Hvp in T9. intros k'' E1 E2 E3 E4 E5.
  assert (k_free k'' = k_free k') as Efr by (unfold k_free; by rewrite E1).
  assert (forall r w, k_uleaf k'' r w = k_uleaf k' r w) as Eul by (intros r w; unfold k_uleaf; by rewrite E1).
  constructor; rewrite ?E1, ?E2, ?E3, ?E4, ?E5, ?Efr.
  - by apply two_spaces_sym.
  - intros p j Hl. by rewrite T3, Hsh, S2 by lia.
  - intros w Hw. rewrite Eul, page_below. transitivity (k_uleaf k1 pr w); [apply T3; cbn; lia|]. rewrite Hu.
    case_decide as Ew; [|by apply S3]. rewrite Ew. by rewrite (uleaf_vpage_k k0 pr w (page_addr n)), He by lia.
  - intros w Hw. rewrite Eul, T9, page_below. case_decide as Ew.
    + rewrite Ew. by rewrite (uleaf_vpage_k k0 pr w (page_addr n)), He by lia.
    + transitivity (k_uleaf k cr w); [apply Hcp; cbn; lia|]. by apply S4.
  - intros p j Hl Hk. rewrite T3 by done. rewrite (owned_kernel _ _ _ T2 (ts_two _ _ _ Ht)), (owned_kernel _ _ _ Ho (ts_one _ _ _ S1)), Hcp by done. by apply S5.
  - rewrite T5, T7, Hm, Hv. done.
  - by rewrite omap_next, foldl_app, <- S7, T6, Hc by lia.
  - by rewrite omap_next, (assoc_L (++)), <- S8, T8, Hs by lia.
  - intros g. rewrite S9. rewrite <- (T2x g). unfold s_free. fold (k_free k1). rewrite Hfr. apply or_iff_compat_l.
    split; intros (p & Hp & Hup & Hg); exists p; (split_and!; [done..|]); rewrite <- Hg; [|symmetry]; apply walk_pentry; auto.
  - etrans; [|exact S10]. rewrite <- Hfr. exact (os_free _ _ _ T2).
  - rewrite Hmpn. rewrite Hfr in T4. lia.
Qed.

(** The outcome of a loop that has reached page [n]. *)
Definition forked_to (n : Z) (r : outcome (kstate A V)) : Prop :=
  match r with Done k => forked n k | Panic => (size (k_free k0) < 3 * mapped_pages k0 parent (2 ^ 35))%nat end.

Lemma mapped_pages_mono n m : 0 <= n <= m -> (mapped_pages k0 parent n <= mapped_pages k0 parent m)%nat.
Proof. intros Hn. unfold mapped_pages. replace m with (n + (m - n)) by lia. rewrite seqZ_more, omap_app, length_app by lia. lia. Qed.

Lemma clone_leaf_step n k pt e : 0 <= n < 2 ^ 35 -> forked n k -> k_uleaf k0 pr (page_addr n) = Some e ->
  walk (tabs (k_pt k)) pr [ix4 (page_addr n); ix3 (page_addr n); ix2 (page_addr n)] = Some pt ->
  forked_to (n + 1) (clone_leaf parent child k pt (ix1 (page_addr n)) (page_addr n) e).
Proof.
  intros Hn Hf He Hw. rewrite clone_leaf_eq. assert (vpage (page_addr n) = n) as Hvp by (apply vpage_addr; lia).
  pose proof (mapped_pages_mono (n + 1) (2 ^ 35) ltac:(lia)) as Hmono. pose proof (fk_spaces _ _ Hf) as Ht.
  assert (private_frame k0 parent n = if shared_file parent (page_addr n) then None else Some (PageTableEntry_frame e)) as Hpf by (unfold private_frame; by rewrite He).
  destruct (shared_file parent (page_addr n)) eqn:Hsf.
  - pose proof (forked_page n k k e Hn He Hf Ht (owned_refl _ _) ltac:(done) ltac:(done)) as Hp. rewrite Hpf in Hp. unfold private_notice in Hp. rewrite Hpf in Hp.
    destruct (k_map_page k child (page_addr n) _ _) as [k'|]; cbn [forked_to].
    + apply Hp; try done; [|by rewrite app_nil_r]. intros w. case_decide as Ew; [|done].
      rewrite (fk_pleaf _ _ Hf) by (apply is_user_page; lia). rewrite (uleaf_vpage_k k0 pr w (page_addr n)), He by lia. cbn.
      rewrite (proj2 (Z.ltb_ge _ _)) by lia. unfold parent_entry. by rewrite Hsf.
    + assert (size (k_free k0) < 3 * mapped_pages k0 parent (n + 1))%nat; [|lia]. apply Hp; try done. intros w. case_decide as Ew; [|done].
      rewrite (fk_pleaf _ _ Hf) by (apply is_user_page; lia). rewrite (uleaf_vpage_k k0 pr w (page_addr n)), He by lia. cbn.
      rewrite (proj2 (Z.ltb_ge _ _)) by lia. unfold parent_entry. by rewrite Hsf.
  - destruct (fork_flags_ok (page_addr n) e ltac:(apply is_user_page; lia) He (k_uleaf_present _ _ _ _ He) (page_addr n)) as (_ & _ & Hpe).
    destruct (k_set_leaf_two k parent cr (page_addr n) pt (parent_entry parent (page_addr n) e) Ht ltac:(apply is_user_page; lia) Hw Hpe)
      as (k1 & E & T1 & T2 & T3 & T4 & T5 & T6 & T7 & T8 & T9 & T10).
    unfold ix1. rewrite Z2Nat.id by apply index_range. rewrite E. run. set (k2 := set_cow k1 _). rewrite Hvp in T10.
    pose proof (forked_page n k k2 e Hn He Hf T1 T2 T3 T4 T10 T5 T6 T8) as Hp. rewrite Hpf in Hp. unfold private_notice in Hp. rewrite Hpf in Hp.
    specialize (Hp ltac:(cbn; by rewrite T7) T9).
    destruct (k_map_page k2 child (page_addr n) _ _) as [k'|]; run; cbn [forked_to]; [by apply Hp|lia].
Qed.

(** ** The loops *)

Lemma foldM_seq (f : kstate A V -> nat -> outcome (kstate A V)) (I : nat -> outcome (kstate A V) -> Prop) n :
  (forall i j, I i Panic -> I j Panic) ->
  (forall i k, (i < n)%nat -> I i (Done k) -> I (S i) (f k i)) ->
  forall m i k, (i + m = n)%nat -> I i (Done k) -> I n (foldM f k (seq i m)).
Proof.
  intros Hp Hf m. induction m as [|m IH]; intros i k Hi HI; cbn [seq foldM]; [by replace n with i by lia|].
  pose proof (Hf i k ltac:(lia) HI) as Hs. destruct (f k i) as [k'|]; run; [apply (IH (S i)); [lia|done]|by eapply Hp].
Qed.

(** The walk to the tables of the parent never changes. *)
Lemma forked_walk n k p : forked n k -> (length p <= 3)%nat -> walk (tabs (k_pt k)) pr p = walk (tabs (k_pt k0)) pr p.
Proof. intros Hf. apply walk_pentry. intros q j Hq. by apply (fk_tables _ _ Hf). Qed.

Lemma clone_pt_step i4 i3 i2 pt k : (i4 < 256)%nat -> (i3 < 512)%nat -> (i2 < 512)%nat ->
  walk (tabs (k_pt k0)) pr [i4; i3; i2] = Some pt -> forked (page_number i4 i3 i2 0) k ->
  forked_to (page_number i4 i3 i2 0 + 512) (clone_pt parent child i4 i3 i2 pt k).
Proof.
  intros H4 H3 H2 Hw Hf. unfold clone_pt.
  apply (foldM_seq _ (fun i r => forked_to (page_number i4 i3 i2 0 + Z.of_nat i) r) ENTRIES); [done| |done|cbn; by rewrite Z.add_0_r].
  intros i1 k1 Hi Hk1. unfold ENTRIES in Hi. cbn [forked_to] in Hk1. set (n := page_number i4 i3 i2 0 + Z.of_nat i1) in *.
  replace (page_number i4 i3 i2 0 + Z.of_nat (S i1)) with (n + 1) by (unfold n; lia).
  assert (n = page_number i4 i3 i2 i1) as Hn by (unfold n, page_number; lia). assert (0 <= n < 2 ^ 35) as Hnr by (rewrite Hn; unfold page_number; lia).
  destruct (proj1 (page_number_ix (page_addr n) i4 i3 i2 i1 ltac:(lia) H3 H2 Hi)) as (E4 & E3 & E2 & E1); [rewrite vpage_addr by lia; done|].
  assert (walk (tabs (k_pt k1)) pr [ix4 (page_addr n); ix3 (page_addr n); ix2 (page_addr n)] = Some pt) as Hw1 by (rewrite E4, E3, E2, (forked_walk n k1) by (done || cbn; lia); done).
  destruct (leaf_read (k_pt k1) pr (page_addr n) pt (ts_one _ _ _ (fk_spaces _ _ Hk1)) Hw1) as (e & He & Hu).
  replace (Z.of_nat i1) with (VirtAddr_pt_index (page_addr n)) by (rewrite <- E1; unfold ix1; rewrite Z2Nat.id; [done|apply index_range]).
  rewrite He. run. fold (k_uleaf k1 pr (page_addr n)) in Hu. rewrite (fk_pleaf _ _ Hk1) in Hu by (apply is_user_page; rewrite vpage_addr; lia).
  rewrite vpage_addr, (proj2 (Z.ltb_ge n n)) in Hu by lia. destruct (is_present e); cbn [negb].
  - assert (k_uleaf k0 pr (page_addr n) = Some e) as He0 by (destruct (k_uleaf k0 pr (page_addr n)); cbn in Hu; congruence).
    pose proof (clone_leaf_step n k1 pt e Hnr Hk1 He0 Hw1) as Hs. rewrite E1 in Hs.
    replace (VirtAddr_pt_index (page_addr n)) with (Z.of_nat i1) by (rewrite <- E1; unfold ix1; rewrite Z2Nat.id; [done|apply index_range]).
    rewrite virt_of_indices_addr, <- Hn by lia. exact Hs.
  - apply forked_skip; [lia|lia|lia| |done]. intros w Hw'. rewrite (uleaf_vpage_k k0 pr w (page_addr n)) by (rewrite vpage_addr; lia).
    by destruct (k_uleaf k0 pr (page_addr n)).
Qed.

(** One of the upper levels, whose entries stand for [stride] pages each. *)
Lemma clone_level N stride base p g skip (body : nat -> Z -> kstate A V -> outcome (kstate A V)) k :
  (length p <= 2)%nat -> (N <= 512)%nat -> walk (tabs (k_pt k0)) pr p = Some g -> 0 <= base -> 0 < stride -> base + Z.of_nat N * stride <= 2 ^ 35 ->
  (forall i w, base + Z.of_nat i * stride <= vpage w < base + Z.of_nat (S i) * stride -> (i < N)%nat -> (p ++ [i]) `prefix_of` [ix4 w; ix3 w; ix2 w]) ->
  (forall e, is_huge_page e = false -> skip e = false) ->
  (forall i e, (i < N)%nat -> pentry (tabs (k_pt k0)) pr p i = Some e -> is_huge_page e = false) ->
  (forall i f k, (i < N)%nat -> walk (tabs (k_pt k0)) pr (p ++ [i]) = Some f -> forked (base + Z.of_nat i * stride) k ->
     forked_to (base + Z.of_nat (S i) * stride) (body i f k)) ->
  forked base k ->
  forked_to (base + Z.of_nat N * stride) (foldM (fun k i => entry ← read_table (k_pt k) g (Z.of_nat i);
    if negb (is_present entry) || skip entry then Done k else body i (PageTableEntry_frame entry) k) k (seq 0 N)).
Proof.
  intros Hl HN Hw Hb Hst Hend Hpre Hskip Hhuge Hbody Hf.
  apply (foldM_seq _ (fun i r => forked_to (base + Z.of_nat i * stride) r) N); [done| |done|cbn; by rewrite Z.add_0_r].
  intros i k1 Hi Hk1. cbn [forked_to] in Hk1. pose proof (ts_one _ _ _ (fk_spaces _ _ Hk1)) as [Hwf _].
  destruct (read_level (k_pt k1) pr p g (Z.of_nat i) Hwf ltac:(lia) ltac:(rewrite (forked_walk _ _ _ Hk1) by lia; done) ltac:(lia)) as (e & -> & He). run.
  rewrite Nat2Z.id, (fk_tables _ _ Hk1) in He by lia. destruct (is_present e); cbn [negb orb].
  - rewrite (Hskip e) by (by apply (Hhuge i)). apply Hbody; [done| |done]. apply walk_next; [done|by apply (Hhuge i)].
  - cbn [forked_to]. replace (base + Z.of_nat (S i) * stride) with (base + Z.of_nat i * stride + stride) by lia.
    apply forked_skip; [lia|lia|nia| |done]. intros w Hr. apply (pentry_absent_below _ _ p i); [done|]. apply Hpre; [lia|done].
Qed.

Hypothesis Hwf0 : space_wf (k_pt k0) pr.

Lemma clone_pd_step i4 i3 pd k : (i4 < 256)%nat -> (i3 < 512)%nat -> walk (tabs (k_pt k0)) pr [i4; i3] = Some pd ->
  forked (page_number i4 i3 0 0) k -> forked_to (page_number i4 i3 0 0 + 2 ^ 18) (clone_pd parent child i4 i3 pd k).
Proof.
  intros H4 H3 Hw Hf. unfold clone_pd. change (2 ^ 18) with (Z.of_nat ENTRIES * 512). unfold ENTRIES.
  apply (clone_level 512 512 (page_number i4 i3 0 0) [i4; i3] pd is_huge_page (fun i f k => clone_pt parent child i4 i3 i f k));
    [cbn; lia|lia|done|unfold page_number; lia|lia|unfold page_number; lia| |done| | |done].
  - intros i w Hr Hi. pose proof (ix_vpage w) as (_ & E2 & E3 & E4). pose proof (vpage_range w). unfold page_number in Hr.
    assert (ix4 w = i4 /\ ix3 w = i3 /\ ix2 w = i) as (-> & -> & ->) by (split_and!; Z.div_mod_to_equations; lia). by exists [].
  - intros i e Hi. by apply (small_entries (k_pt k0) pr i4 i3 i).
  - intros i f k1 Hi Hw1 Hk1. replace (page_number i4 i3 0 0 + Z.of_nat (S i) * 512) with (page_number i4 i3 i 0 + 512) by (unfold page_number; lia).
    apply clone_pt_step; [done..|]. by replace (page_number i4 i3 i 0) with (page_number i4 i3 0 0 + Z.of_nat i * 512) by (unfold page_number; lia).
Qed.

Lemma clone_pdpt_step i4 pdpt k : (i4 < 256)%nat -> walk (tabs (k_pt k0)) pr [i4] = Some pdpt ->
  forked (page_number i4 0 0 0) k -> forked_to (page_number i4 0 0 0 + 2 ^ 27) (clone_pdpt parent child i4 pdpt k).
Proof.
  intros H4 Hw Hf. unfold clone_pdpt. change (2 ^ 27) with (Z.of_nat ENTRIES * 2 ^ 18). unfold ENTRIES.
  apply (clone_level 512 (2 ^ 18) (page_number i4 0 0 0) [i4] pdpt is_huge_page (fun i f k => clone_pd parent child i4 i f k));
    [cbn; lia|lia|done|unfold page_number; lia|lia|unfold page_number; lia| |done| | |done].
  - intros i w Hr Hi. pose proof (ix_vpage w) as (_ & _ & E3 & E4). pose proof (vpage_range w). unfold page_number in Hr.
    assert (ix4 w = i4 /\ ix3 w = i) as (-> & ->) by (split_and!; Z.div_mod_to_equations; lia). by exists [ix2 w].
  - intros i e Hi. by apply (small_entries (k_pt k0) pr i4 i 0); [| |done|lia].
  - intros i f k1 Hi Hw1 Hk1. replace (page_number i4 0 0 0 + Z.of_nat (S i) * 2 ^ 18) with (page_number i4 i 0 0 + 2 ^ 18) by (unfold page_number; lia).
    apply clone_pd_step; [done..|]. by replace (page_number i4 i 0 0) with (page_number i4 0 0 0 + Z.of_nat i * 2 ^ 18) by (unfold page_number; lia).
Qed.

Lemma clone_user_half_step k : forked 0 k -> forked_to (2 ^ 35) (clone_user_half_cow parent child k).
Proof.
  intros Hf. unfold clone_user_half_cow, USER_PML4_ENTRIES. rewrite (foldM_ext _ (fun k i => entry ← read_table (k_pt k) pr (Z.of_nat i);
    if negb (is_present entry) || false then Done k else clone_pdpt parent child i (PageTableEntry_frame entry) k)).
  2: { intros k1 i _. destruct (read_table (k_pt k1) pr (Z.of_nat i)) as [e|]; run; [|done]. by rewrite orb_false_r. }
  change (2 ^ 35) with (0 + Z.of_nat 256 * 2 ^ 27).
  apply (clone_level 256 (2 ^ 27) 0 [] pr (fun _ => false) (fun i f k => clone_pdpt parent child i f k));
    [cbn; lia|lia|done|lia|lia|lia| |done| | |done].
  - intros i w Hr Hi. pose proof (ix_vpage w) as (_ & _ & _ & E4). pose proof (vpage_range w).
    assert (ix4 w = i) as -> by (Z.div_mod_to_equations; lia). by exists [ix3 w; ix2 w].
  - intros i e Hi. by apply top_not_huge, Hwf0.
  - intros i f k1 Hi Hw1 Hk1. replace (0 + Z.of_nat (S i) * 2 ^ 27) with (page_number i 0 0 0 + 2 ^ 27) by (unfold page_number; lia).
    apply clone_pdpt_step; [done..|]. by replace (page_number i 0 0 0) with (0 + Z.of_nat i * 2 ^ 27) by (unfold page_number; lia).
Qed.

End Loop.

(** ** The whole of fork *)

(** What fork leaves: the spaces of parent and child in [k'], from the parent's in [k]. *)
Record fork_result (parent child : AddressSpace) k k' : Prop := {
  fr_spaces : two_spaces (k_pt k') (as_pml4_phys parent) (as_pml4_phys child);
  fr_parent w : is_user w ->
    k_uleaf k' (as_pml4_phys parent) w = parent_entry parent (page_addr (vpage w)) <$> k_uleaf k (as_pml4_phys parent) w;
  fr_child w : is_user w ->
    k_uleaf k' (as_pml4_phys child) w = child_entry parent (page_addr (vpage w)) <$> k_uleaf k (as_pml4_phys parent) w;
  fr_kernel i p j : (256 <= i)%nat -> (length p <= 2)%nat ->
    pentry (tabs (k_pt k')) (as_pml4_phys parent) (i :: p) j = pentry (tabs (k_pt k)) (as_pml4_phys parent) (i :: p) j /\
    pentry (tabs (k_pt k')) (as_pml4_phys child) (i :: p) j = pentry (tabs (k_pt k)) (as_pml4_phys parent) (i :: p) j;
  fr_mem : k_mem k' = k_mem k /\ k_vfs k' = k_vfs k;
  fr_claims : k_cow k' = foldl cow_share (k_cow k) (omap (private_frame k parent) (seqZ 0 (2 ^ 35)));
  fr_notices : k_shoot k' = k_shoot k ++ omap (private_notice k parent) (seqZ 0 (2 ^ 35));
  fr_frames g : g ∈ k_free k <-> g ∈ k_free k' \/ utable (tabs (k_pt k')) (as_pml4_phys child) g;
  fr_fields : as_vmas child = as_vmas parent /\ as_mmap_next child = as_mmap_next parent /\ as_refcount child = 1 /\ as_active_cpus child = 0
}.

Lemma fork_cow_result pcid_enabled pcids parent k :
  space_wf (k_pt k) (as_pml4_phys parent) -> (forall w e, is_user w -> k_uleaf k (as_pml4_phys parent) w = Some e -> 0 <= e) ->
  (pcid_enabled = true -> PcidAllocator_alloc pcids <> None) ->
  match fork_cow (as_pml4_phys parent) pcid_enabled pcids parent k with
  | Done (child, _, k') => fork_result parent child k k'
  | Panic => (size (k_free k) < 1 + 3 * mapped_pages k parent (2 ^ 35))%nat
  end.
Proof.
  intros Hs Hent Hp. unfold fork_cow. pose proof (AddressSpace_new_spec k (as_pml4_phys parent) pcid_enabled pcids Hs Hp) as Hn.
  destruct (AddressSpace_new (as_pml4_phys parent) pcid_enabled pcids k) as [[[c0 pc] k0]|]; run; [|rewrite Hn, size_empty; lia].
  set (child := as_with_vmas c0 (as_vmas parent) (as_mmap_next parent)).
  destruct (new_space_wf k _ k0 c0 Hs Hn) as (Hcw & Hcu & Hct). destruct (new_space_other k _ k0 c0 (as_pml4_phys parent) Hs Hs Hn) as (Hpw & Hpt & Ha & Hb).
  pose proof (pentry_agree _ _ _ Hpt) as Hpe. assert (forall w, k_uleaf k0 (as_pml4_phys parent) w = k_uleaf k (as_pml4_phys parent) w) as Hul by (intros w; apply Hpe; cbn; lia).
  assert (forall pg, private_frame k0 parent pg = private_frame k parent pg) as Hpf by (intros pg; unfold private_frame; by rewrite Hul).
  assert (forall pg, private_notice k0 parent pg = private_notice k parent pg) as Hpn by (intros pg; unfold private_notice; by rewrite Hpf).
  pose proof Hn as [[Hin Hfr] Hr _ _ _ _ (Hok & Hm & Hc & Hv & Hsh) (_ & _ & Href & Hact)].
  assert (mapped_pages k0 parent (2 ^ 35) = mapped_pages k parent (2 ^ 35)) as Hmp by (unfold mapped_pages; f_equal; by apply omap_fun_ext).
  pose proof (size_remove _ _ Hin) as Hsz. rewrite <- Hfr in Hsz.
  assert (forked parent child k0 0 k0) as Hf0.
  { constructor.
    - constructor; [exact Hpw|exact Hcw|apply Hb; by right|exact Ha].
    - intros p j _. reflexivity.
    - intros w Hw. rewrite (proj2 (Z.ltb_ge _ _)) by apply vpage_range. by destruct (k_uleaf k0 (as_pml4_phys parent) w).
    - intros w Hw. rewrite (proj2 (Z.ltb_ge _ _)) by apply vpage_range. by apply Hcu.
    - intros p j _ _. split; reflexivity.
    - split; reflexivity.
    - reflexivity.
    - symmetry. apply app_nil_r.
    - intros g. reflexivity.
    - reflexivity.
    - apply Nat.le_add_r. }
  pose proof (clone_user_half_step parent child k0 ltac:(intros w e; rewrite Hul; apply Hent) Hpw k0 Hf0) as Hcl.
  destruct (clone_user_half_cow parent child k0) as [k'|]; run; cbn [forked_to] in Hcl; [|lia].
  destruct Hcl as [S1 _ S3 S4 S5 [S6 S6'] S7 S8 S9 _ _]. constructor.
  - exact S1.
  - intros w Hw. rewrite (S3 w Hw), Hul, (proj2 (Z.ltb_lt _ _) (proj1 (is_user_page w) Hw)). by destruct (k_uleaf k (as_pml4_phys parent) w).
  - intros w Hw. rewrite (S4 w Hw), Hul, (proj2 (Z.ltb_lt _ _) (proj1 (is_user_page w) Hw)). by destruct (k_uleaf k (as_pml4_phys parent) w).
  - intros i p j Hi Hl. destruct (S5 (i :: p) j) as [-> ->]; [cbn; lia|cbn; lia|]. clear S7 S8 Hmp. rewrite Hpe by (cbn; lia). split; [done|].
    unfold pentry. change (as_pml4_phys child) with (as_pml4_phys c0). rewrite (new_space_walk k (as_pml4_phys parent) k0 c0 i p Hs Hn ltac:(lia)). rewrite decide_False by lia.
    destruct (walk (tabs (k_pt k)) (as_pml4_phys parent) (i :: p)) as [g|] eqn:Hg; cbn; [|done]. unfold entry_at. rewrite Hpt; [done|]. exists (i :: p). split; [cbn; lia|done].
  - rewrite S6, S6'. split; [exact Hm|exact Hv].
  - rewrite S7, Hc, (omap_fun_ext _ _ _ Hpf). reflexivity.
  - rewrite S8, Hsh, (omap_fun_ext _ _ _ Hpn). reflexivity.
  - clear S7 S8 Hmp. intros g. rewrite <- S9. change (as_pml4_phys child) with (as_pml4_phys c0). rewrite Hct, Hfr. destruct (decide (g = as_pml4_phys c0)) as [->|]; set_solver.
  - split_and!; [reflexivity|reflexivity|exact Href|exact Hact].
Qed.

(** ** Isolation *)

Lemma owned_tabs (s s' : pt_state A) root : tabs s' = tabs s -> s_free s' ⊆ s_free s -> owned_step s s' root.
Proof. intros Ht Hf. constructor; rewrite ?Ht; auto. Qed.

(** Resolving a fault writes one leaf of the space and takes at most one frame. *)
Lemma resolve_cow_owned a k addr ok k' :
  space_wf (k_pt k) (as_pml4_phys a) -> cow_ok (k_cow k) -> is_u64 addr -> is_user addr ->
  resolve_cow_fault a k addr = Done (ok, k') -> owned_step (k_pt k) (k_pt k') (as_pml4_phys a).
Proof.
  intros Hs Hc Ha Hu. unfold resolve_cow_fault. set (page := Z.land addr _).
  assert (vpage page = vpage addr) as Hvp by (by apply vpage_page). pose proof (is_user_vpage _ _ Hvp Hu) as Hup.
  destruct (k_leaf_spec k a page Hs Hup) as [[-> _]|(t & e & -> & Hw & _)]; run; [intros [= _ <-]; apply owned_refl|].
  destruct (negb (is_present e) || negb (is_cow e)); [intros [= _ <-]; apply owned_refl|].
  match goal with |- context [cow_resolve _ ?f ?act] => destruct (cow_resolve_run k f act Hc) as (cow' & -> & _) end.
  destruct (cow_refcount (k_cow k) _ =? 1).
  - unfold k_set_entry. destruct (write_table (k_pt k) t (VirtAddr_pt_index page) _) as [p|] eqn:Ew; run; [|done]. intros [= _ <-].
    by apply (leaf_owned (k_pt k) (as_pml4_phys a) page) in Ew as [[Ho _] _].
  - pose proof (k_alloc_frame_spec k _ Hs) as Hal. destruct (k_alloc_frame k) as [[f k1]|]; run; [|done]. destruct Hal as (Hs1 & _ & Hfr & _ & _ & Ht & _).
    unfold k_set_entry, copy_frame, k_write_page. cbn [set_mem k_pt].
    destruct (write_table (k_pt k1) t (VirtAddr_pt_index page) _) as [p|] eqn:Ew; run; [|done]. intros [= _ <-].
    apply (leaf_owned (k_pt k1) (as_pml4_phys a) page) in Ew as [[Ho _] _]; [|done|done|by rewrite Ht]. eapply owned_trans; [|exact Ho].
    apply owned_tabs; [done|]. change (k_free k1 ⊆ k_free k). rewrite Hfr. set_solver.
Qed.

(** The frames a space maps are in use. *)
Definition leaves_live k (root : Z) : Prop := forall w e, is_user w -> k_uleaf k root w = Some e -> 0 <= e /\ PageTableEntry_frame e ∉ k_free k.

Lemma user_byte_leaf k root x : space_wf (k_pt k) root -> is_user x ->
  user_byte k root x = e ← k_uleaf k root x; page_of k (PageTableEntry_frame e) !! Z.to_nat (x mod 4096).
Proof.
  intros Hs Hx. unfold user_byte. rewrite translate_uleaf by done. fold (k_uleaf k root x). destruct (k_uleaf k root x) as [e|]; cbn [mbind option_bind]; [|done].
  rewrite add_page_offset by apply frame_range. by destruct (frame_split _ x (frame_aligned e)) as [-> ->].
Qed.

(** A store of one space to a page of its own does not show in another. *)
Lemma store_hidden k root f off bytes x : space_wf (k_pt k) root -> is_user x -> f mod 4096 = 0 -> 0 <= off < 4096 ->
  (forall e, k_uleaf k root x = Some e -> PageTableEntry_frame e <> f) -> user_byte (k_write_at k (f + off) bytes) root x = user_byte k root x.
Proof.
  intros Hs Hx Hf Ho Hne. rewrite !user_byte_leaf by done. change (k_uleaf (k_write_at k (f + off) bytes) root x) with (k_uleaf k root x).
  destruct (k_uleaf k root x) as [e|]; cbn [mbind option_bind]; [|done]. specialize (Hne e eq_refl). f_equal.
  unfold k_write_at. replace (f + off - (f + off) mod 4096) with f by (Z.div_mod_to_equations; lia). unfold page_of, set_mem. cbn [k_mem].
  by rewrite lookup_insert_ne by done.
Qed.

(** A write fault on a page with another claim: the page is copied, the space reads what
    it read before, and whatever it then stores there the other space does not see. *)
Lemma fault_then_store a r k addr old :
  two_spaces (k_pt k) (as_pml4_phys a) r -> leaves_live k (as_pml4_phys a) -> leaves_live k r -> cow_ok (k_cow k) -> mem_ok k ->
  0 <= addr < 2 ^ 47 -> k_uleaf k (as_pml4_phys a) addr = Some old -> is_cow old = true -> 2 <= cow_refcount (k_cow k) (PageTableEntry_frame old) ->
  match resolve_cow_fault a k addr with
  | Done (ok, k1) => ok = true /\ exists f new, k_uleaf k1 (as_pml4_phys a) addr = Some new /\ PageTableEntry_frame new = f /\ is_writable new = true /\
      (forall x, is_user x -> user_byte k1 (as_pml4_phys a) x = user_byte k (as_pml4_phys a) x) /\
      (forall bytes x, is_user x -> user_byte (k_write_at k1 (f + addr mod 4096) bytes) r x = user_byte k r x)
  | Panic => k_free k = ∅
  end.
Proof.
  intros Ht Hla Hlr Hc Hm Ha Hold Hcw H2. pose proof (ts_one _ _ _ Ht) as Hs. assert (is_user addr) as Hu by (by apply is_user_low).
  destruct (Hla addr old Hu Hold) as [H0' Hused].
  pose proof (resolve_cow_step a k addr old Hs Hc Hm ltac:(unfold is_u64; lia) Hu Hold H0' Hcw Hused) as Hst.
  destruct (resolve_cow_fault a k addr) as [[ok k1]|] eqn:E; [|done]. destruct Hst as [-> Hst]. rewrite (proj2 (Z.eqb_neq _ _)) in Hst by lia.
  destruct Hst as (f & Hf & Hfr & [P1 (new & Hnew & [N1 N2 N3 N4 N5]) P3 P4 P5 P6 P7]).
  apply resolve_cow_owned in E as Ho; [|done|done|unfold is_u64; lia|done]. destruct (two_spaces_step _ _ _ _ Ht Ho P1) as [Ht1 Hr].
  split; [done|]. exists f, new. split_and!; [done..| |].
  - intros x Hx. rewrite !user_byte_leaf by done. destruct (decide (vpage x = vpage addr)) as [Ev|Ev].
    + rewrite (uleaf_vpage_k k1 _ x addr Ev), (uleaf_vpage_k k _ x addr Ev), Hnew, Hold. cbn. by rewrite N1, P4.
    + rewrite P3 by done. destruct (k_uleaf k (as_pml4_phys a) x) as [e|] eqn:He; cbn; [|done]. by rewrite P5 by (by apply (Hla x)).
  - intros bytes x Hx. assert (k_uleaf k1 r x = k_uleaf k r x) as Hkr by (apply Hr; cbn; lia).
    rewrite store_hidden; [|apply Ht1|done|subst f; apply frame_aligned|apply Z.mod_pos_bound; lia|].
    + rewrite !user_byte_leaf by (done || apply Ht1 || apply Ht). rewrite Hkr. destruct (k_uleaf k r x) as [e|] eqn:He; cbn; [|done]. by rewrite P5 by (by apply (Hlr x)).
    + intros e. rewrite Hkr. intros He Hef. apply (Hlr x e Hx He). by rewrite Hef.
Qed.

Lemma cow_shares_ok l : forall t, cow_ok t -> cow_ok (foldl cow_share t l).
Proof. induction l as [|f l IH]; intros t Ht; cbn [foldl]; [done|]. by apply IH, cow_share_spec. Qed.

(** The entries fork makes have the frame of the parent's and, unless shared, are
    read-only and copy-on-write. *)
Lemma fork_entry_frame a v e : 0 <= e -> PageTableEntry_frame (child_entry a v e) = PageTableEntry_frame e /\ PageTableEntry_frame (parent_entry a v e) = PageTableEntry_frame e.
Proof.
  intros He. pose proof (frame_range e) as Hr. pose proof (frame_aligned e) as Hal. pose proof (is_flags_of e He) as Hf.
  assert (forall f, is_flags f -> PageTableEntry_frame (PageTableEntry_with_flags e f) = PageTableEntry_frame e) as Hw.
  { intros f Hff. unfold PageTableEntry_with_flags. rewrite frame_new_page by done. change (2 ^ 12) with 4096. rewrite Hal, Z.mod_small by lia. lia. }
  unfold child_entry, parent_entry, fork_flags. destruct (shared_file a v); (split; [|done || apply Hw]); try apply Hw; try done; by apply cow_readonly_ok.
Qed.

Lemma fork_entry_private a v e : 0 <= e -> shared_file a v = false ->
  child_entry a v e = parent_entry a v e /\ is_cow (child_entry a v e) = true /\ is_writable (child_entry a v e) = false /\ 0 <= child_entry a v e.
Proof.
  intros He Hs. unfold child_entry, parent_entry, fork_flags. rewrite Hs. unfold PageTableEntry_with_flags. split_and!; [done|..].
  - rewrite is_cow_bit, new_page_bits, cow_readonly_bits by lia. by rewrite orb_true_r.
  - rewrite is_writable_bit, new_page_bits, cow_readonly_bits by lia. cbn. by rewrite andb_false_r.
  - apply Z.lor_nonneg. split; [unfold shl64; apply wrap64_range|]. by apply cow_readonly_ok, is_flags_of.
Qed.

Lemma fork_result_live parent child k k' : fork_result parent child k k' -> leaves_live k (as_pml4_phys parent) ->
  leaves_live k' (as_pml4_phys parent) /\ leaves_live k' (as_pml4_phys child).
Proof.
  intros [_ Hp Hc _ _ _ _ Hfr _] Hl.
  assert (forall f, f ∉ k_free k -> f ∉ k_free k') as Hsub by (intros f Hf Hin; apply Hf, Hfr; by left).
  split; intros w e Hw; [rewrite Hp by done|rewrite Hc by done]; destruct (k_uleaf k (as_pml4_phys parent) w) as [e0|] eqn:E; cbn; try done; intros [= <-];
    destruct (Hl w e0 Hw E) as [He Hf]; destruct (fork_entry_frame parent (page_addr (vpage w)) e0 He) as [F1 F2]; rewrite ?F1, ?F2;
    (split; [|by apply Hsub]); destruct (shared_file parent (page_addr (vpage w))) eqn:Hs.
  - unfold parent_entry. by rewrite Hs.
  - destruct (fork_entry_private parent _ e0 He Hs) as (<- & _ & _ & ?). done.
  - unfold child_entry, fork_flags. rewrite Hs. apply Z.lor_nonneg. split; [unfold shl64; apply wrap64_range|]. by apply is_flags_of.
  - by apply fork_entry_private.
Qed.

Lemma fork_result_bytes parent child k k' : space_wf (k_pt k) (as_pml4_phys parent) -> fork_result parent child k k' -> leaves_live k (as_pml4_phys parent) ->
  forall x, is_user x -> user_byte k' (as_pml4_phys parent) x = user_byte k (as_pml4_phys parent) x /\
    user_byte k' (as_pml4_phys child) x = user_byte k (as_pml4_phys parent) x.
Proof.
  intros Hs [Ht Hp Hc _ [Hm _] _ _ _ _] Hl x Hx. destruct Ht as [T1 T2 _ _]. rewrite !user_byte_leaf by done. rewrite Hp, Hc by done.
  destruct (k_uleaf k (as_pml4_phys parent) x) as [e|] eqn:E; cbn; [|done]. destruct (Hl x e Hx E) as [He _].
  destruct (fork_entry_frame parent (page_addr (vpage x)) e He) as [F1 F2]. rewrite F1, F2. unfold page_of. by rewrite Hm.
Qed.

(** C8: fork gives the child the parent's memory and keeps the two apart.  For a parent
    whose pages are in use, with a PCID left if PCIDs are on, the child's space is built (the only failure is running out of frames, one for the root and
    three for each page mapped being enough): both spaces are well formed, share no
    table of their user halves and have the parent's kernel half; each page of the
    child has the parent's frame, with the parent's permissions in a shared mapping of
    a file and read-only and copy-on-write in both spaces otherwise; nothing in memory
    changes, so every load in either gives what it gave the parent; every frame taken
    is a table of the child; and the child has the parent's areas.  After that, a write fault
    of either on a page that is not shared and whose claim the share table recorded (its
    bucket had room, so that the frame has two claims at least) is resolved with
    a frame of its own, writable if the page was, unless no frame is left: it reads what
    it read before, and whatever it then stores there, the other reads what it read
    before.  For a page whose claim found no room nothing is shown. *)
Theorem fork_isolates pcid_enabled pcids parent k :
  space_wf (k_pt k) (as_pml4_phys parent) -> leaves_live k (as_pml4_phys parent) -> cow_ok (k_cow k) -> mem_ok k ->
  (pcid_enabled = true -> PcidAllocator_alloc pcids <> None) ->
  match fork_cow (as_pml4_phys parent) pcid_enabled pcids parent k with
  | Done (child, _, k') => fork_result parent child k k' /\
      (forall x, is_user x -> user_byte k' (as_pml4_phys parent) x = user_byte k (as_pml4_phys parent) x /\
         user_byte k' (as_pml4_phys child) x = user_byte k (as_pml4_phys parent) x) /\
      forall a b addr e, (a = parent /\ b = child) \/ (a = child /\ b = parent) -> 0 <= addr < 2 ^ 47 ->
        k_uleaf k (as_pml4_phys parent) addr = Some e -> shared_file parent (page_addr (vpage addr)) = false ->
        2 <= cow_refcount (k_cow k') (PageTableEntry_frame e) ->
        match resolve_cow_fault a k' addr with
        | Done (ok, k1) => ok = true /\ exists f new, k_uleaf k1 (as_pml4_phys a) addr = Some new /\ PageTableEntry_frame new = f /\ (is_writable e = true -> is_writable new = true) /\
            (forall x, is_user x -> user_byte k1 (as_pml4_phys a) x = user_byte k (as_pml4_phys parent) x) /\
            (forall bytes x, is_user x -> user_byte (k_write_at k1 (f + addr mod 4096) bytes) (as_pml4_phys b) x = user_byte k (as_pml4_phys parent) x)
        | Panic => k_free k' = ∅
        end
  | Panic => (size (k_free k) < 1 + 3 * mapped_pages k parent (2 ^ 35))%nat
  end.
Proof.
  intros Hs Hl Hc Hm Hp. pose proof (fork_cow_result pcid_enabled pcids parent k Hs ltac:(intros w e Hw He; by apply (Hl w)) Hp) as Hf.
  destruct (fork_cow (as_pml4_phys parent) pcid_enabled pcids parent k) as [[[child pc] k']|]; [|exact Hf].
  pose proof (fork_result_bytes parent child k k' Hs Hf Hl) as Hb. split; [exact Hf|]. split; [exact Hb|].
  destruct (fork_result_live parent child k k' Hf Hl) as [Lp Lc].
  assert (cow_ok (k_cow k')) as Hc' by (rewrite (fr_claims _ _ _ _ Hf); by apply cow_shares_ok).
  assert (mem_ok k') as Hm' by (intros g; unfold page_of; rewrite (proj1 (fr_mem _ _ _ _ Hf)); apply Hm).
  intros a b addr e Hab Ha He Hsh H2. assert (is_user addr) as Hu by (by apply is_user_low). destruct (Hl addr e Hu He) as [He0 _].
  destruct (fork_entry_private parent _ e He0 Hsh) as (Ece & Hcw & _). destruct (fork_entry_frame parent (page_addr (vpage addr)) e He0) as [Hfe _].
  set (ce := child_entry parent (page_addr (vpage addr)) e) in *. rewrite <- Hfe in H2.
  assert (k_uleaf k' (as_pml4_phys a) addr = Some ce /\ two_spaces (k_pt k') (as_pml4_phys a) (as_pml4_phys b) /\
    leaves_live k' (as_pml4_phys a) /\ leaves_live k' (as_pml4_phys b)) as (Hla & Ht & La & Lb).
  { pose proof (fr_spaces _ _ _ _ Hf) as Ht. destruct Hab as [[-> ->]|[-> ->]].
    - rewrite (fr_parent _ _ _ _ Hf addr Hu), He. cbn. by rewrite Ece.
    - rewrite (fr_child _ _ _ _ Hf addr Hu), He. split_and!; [done|by apply two_spaces_sym|done|done]. }
  pose proof (fault_then_store a (as_pml4_phys b) k' addr ce Ht La Lb Hc' Hm' Ha Hla Hcw H2) as Hst.
  destruct (resolve_cow_fault a k' addr) as [[ok k1]|]; [|exact Hst]. destruct Hst as (-> & f & new & N1 & N2 & N3 & N4 & N5). split; [done|].
  assert (forall c, c = a \/ c = b -> forall x, is_user x -> user_byte k' (as_pml4_phys c) x = user_byte k (as_pml4_phys parent) x) as Hbb.
  { intros c Hcab x Hx. destruct (Hb x Hx) as [B1 B2]. destruct Hab as [[-> ->]|[-> ->]], Hcab as [->| ->]; done. }
  exists f, new. split_and!; [done..| |].
  - intros x Hx. rewrite N4 by done. apply Hbb; [by left|done].
  - intros bytes x Hx. rewrite N5 by done. apply Hbb; [by right|done].
Qed.

End Fork.

(** ** An example: a process with one page of data *)

Section Example.
Context {A : Type} `{FrameAllocatorLaws A}.

Definition one_page (al : A) : kstate A unit :=
  let empty := {| tabs := {[ 0x1000 := PageTable_zero ]}; pt_alloc := al |} in
  {| k_pt := match map_page empty 0x1000 0x400000 0x200000 demo_flags with Done p => p | Panic => empty end;
     k_mem := {[ 0x200000 := 7 :: replicate 4095 0 ]}; k_cow := COW_TABLE; k_vfs := tt; k_shoot := [] |}.

Definition one_entry : Z := PageTableEntry_new_page 0x200000 demo_flags.

Lemma one_entry_frame : PageTableEntry_frame one_entry = 0x200000 /\ 0 <= one_entry.
Proof. split; [vm_compute; reflexivity|vm_compute; discriminate]. Qed.

Lemma one_page_ok (al : A) : fa_ok al -> 0x1000 ∉ fa_free al -> 0x200000 ∉ fa_free al -> (3 <= size (fa_free al))%nat ->
  space_wf (k_pt (one_page al)) 0x1000 /\ leaves_live (one_page al) 0x1000 /\ mem_ok (one_page al) /\
  (forall w, is_user w -> k_uleaf (one_page al) 0x1000 w = if decide (vpage w = 0x400) then Some one_entry else None) /\
  (k_free (one_page al) ⊆ fa_free al) /\ (forall g, utable (tabs (k_pt (one_page al))) 0x1000 g -> g = 0x1000 \/ g ∈ fa_free al).
Proof.
  intros Hok H1 H2 H3. set (empty := {| tabs := {[ 0x1000 := PageTable_zero ]}; pt_alloc := al |} : pt_state A).
  destruct (pt_wf_new empty 0x1000 Hok H1 ltac:(apply lookup_singleton_eq)) as [Hwf Hno].
  assert (space_wf empty 0x1000) as Hs0 by (split; [done|intros v _; apply Hno]).
  assert (forall i, (i < 512)%nat -> entry_at (tabs empty) 0x1000 i = Some PageTableEntry_empty) as Hz.
  { intros i Hi. unfold entry_at. cbn [tabs empty]. rewrite lookup_singleton_eq. cbn [mbind option_bind]. by apply lookup_replicate_2. }
  pose proof (map_page_uleaf empty 0x1000 0x400000 0x200000 demo_flags Hs0 ltac:(apply is_user_low; lia) ltac:(lia) (proj1 (table_flags_bits true)) eq_refl) as Hm.
  unfold one_page. fold empty. destruct (map_page empty 0x1000 0x400000 0x200000 demo_flags) as [p|] eqn:E; [|exfalso; change (fa_free (pt_alloc empty)) with (fa_free al) in Hm; lia].
  destruct Hm as (Hs & Hsub & _ & _ & Hu). change (fa_free (pt_alloc empty)) with (fa_free al) in Hsub.
  destruct (map_page_owned empty 0x1000 0x400000 _ _ p Hs0 ltac:(apply is_user_low; lia) E) as [Ho _]. destruct one_entry_frame as [Hf Hpos].
  assert (forall w, is_user w -> uleaf (tabs p) 0x1000 w = if decide (vpage w = 0x400) then Some one_entry else None) as Hul.
  { intros w Hw. rewrite Hu. change (vpage 0x400000) with 0x400. case_decide; [done|]. unfold uleaf, pentry. cbn [walk]. rewrite Hz; [done|unfold is_user in Hw; lia]. }
  split_and!; cbn [k_pt].
  - done.
  - intros w e Hw. unfold k_uleaf. cbn [k_pt]. rewrite Hul by done. case_decide; [|done]. intros [= <-]. rewrite Hf. split; [done|]. intros Hin. apply H2, Hsub, Hin.
  - intros g. unfold page_of. cbn [k_mem]. destruct (decide (g = 0x200000)) as [->|]; [by rewrite lookup_singleton_eq|by rewrite lookup_singleton_ne].
  - exact Hul.
  - exact Hsub.
  - intros g Hg. destruct (os_new _ _ _ Ho g Hg) as [Hin|(q & Hl & Hq & Hw)]; [by right|]. left. destruct q as [|i q]; [by injection Hw|].
    cbn [walk user_path] in *. by rewrite Hz in Hw by lia.
Qed.
End Example.

Lemma bump_page_ok (al := pt_alloc (k_pt exec_kernel)) : fa_ok al /\ 0x1000 ∉ fa_free al /\ 0x200000 ∉ fa_free al /\ (3 <= size (fa_free al))%nat.
Proof.
  split_and!; [split; cbn; lia|..|apply Nat.leb_le; vm_compute; reflexivity].
  all: change (fa_free al) with (bump_free {| bump_n := 302; bump_next := 2 |}); rewrite elem_of_bump_free; cbn; intros (n & Hn & Hr); lia.
Qed.

Definition bump_kernel : kstate BumpAllocator unit := one_page (pt_alloc (k_pt exec_kernel)).

(** The child stores 9 over the 7; the parent still reads 7. *)
Lemma fork_isolates_witness :
  match fork_cow 0x1000 false PcidAllocator_new empty_space bump_kernel with
  | Done (child, _, k') => user_byte k' (as_pml4_phys child) 0x400000 = Some 7 /\
      match resolve_cow_fault child k' 0x400000 with
      | Done (ok, k1) => ok = true /\ exists f, user_byte (k_write_at k1 (f + 0) [9]) 0x1000 0x400000 = Some 7
      | Panic => False
      end
  | Panic => False
  end.
Proof.
  destruct bump_page_ok as (A1 & A2 & A3 & A4). destruct (one_page_ok _ A1 A2 A3 A4) as (Hs & Hl & Hm & Hu & _ & _).
  assert (match fork_cow 0x1000 false PcidAllocator_new empty_space bump_kernel with
    | Done (child, _, k') => (2 <=? cow_refcount (k_cow k') 0x200000) && negb (bool_decide (k_free k' = ∅))
    | Panic => false end = true) as Hd by (vm_compute; reflexivity).
  pose proof (fork_isolates false PcidAllocator_new empty_space bump_kernel Hs Hl cow_table_ok Hm ltac:(discriminate)) as Hf.
  change (as_pml4_phys empty_space) with 0x1000 in Hf.
  assert (user_byte bump_kernel 0x1000 0x400000 = Some 7) as H7 by (vm_compute; reflexivity).
  destruct one_entry_frame as [Hfr _].
  destruct (fork_cow 0x1000 false PcidAllocator_new empty_space bump_kernel) as [[[child pc] k']|]; [|discriminate Hd].
  apply andb_true_iff in Hd as [H2 He]. apply Z.leb_le in H2. apply negb_true_iff, bool_decide_eq_false in He.
  destruct Hf as (_ & Hb & Hst). assert (is_user 0x400000) as Hus by (apply is_user_low; lia). split.
  { destruct (Hb 0x400000 Hus) as [_ B2]. rewrite B2. exact H7. }
  pose proof (Hst child empty_space 0x400000 _ (or_intror (conj eq_refl eq_refl)) ltac:(lia) (Hu 0x400000 Hus) ltac:(vm_compute; reflexivity) ltac:(rewrite Hfr; exact H2)) as Hw.
  destruct (resolve_cow_fault child k' 0x400000) as [[ok k1]|]; [|by apply He].
  destruct Hw as (-> & f & new & _ & _ & _ & _ & Hx). split; [reflexivity|]. exists f.
  exact (eq_trans (Hx [9] 0x400000 Hus) H7).
Defined.
