(* ===== verification/Teardown.v ===== *)
(** * Tearing an address space down

    [drop_ref], [free_user_half] and [free_table] of crates/proc/src/address_space.rs:
    the last reference to a space gives back the frames of its user half, the tables
    and the pages that nobody else claims, its root and its own frame.  A walk over
    the tables is a list of items (a leaf or a table) in the order they are released. *)

From Stdlib Require Import ZArith Lia.
From stdpp Require Import prelude gmap list.
From S2P Require Import Prelude Paging Frames PageTable UserMap Pcid Cow Vma AddressSpace Loader Faults Spaces ExecStack ExecMemory Fork Buddy BuddySpec BuddyInit.

Local Open Scope Z_scope.

(** ** What is released, in order *)

Inductive item :=
| Leaf (entry : Z)
| Table (phys : Z).

Definition item_frame (it : item) : Z := match it with Leaf e => PageTableEntry_frame e | Table f => f end.

(** The items below the table [phys], which is at path [p] and [level] levels above the
    pages, with their paths. *)
Fixpoint items (level : nat) (tb : gmap Z (list Z)) (phys : Z) (p : list nat) : list (list nat * item) :=
  match level with
  | O => []
  | S level' =>
      (i ← seq 0 ENTRIES;
       match entry_at tb phys i with
       | Some e => if negb (is_present e) then [] else if (level =? 1)%nat then [(p ++ [i], Leaf e)] else items level' tb (PageTableEntry_frame e) (p ++ [i])
       | None => []
       end) ++ [(p, Table phys)]
  end.

Lemma items_prefix level : forall tb phys p q it, (q, it) ∈ items level tb phys p -> p `prefix_of` q.
Proof.
  induction level as [|level IH]; intros tb phys p q it; cbn [items]; [by intros ?%not_elem_of_nil|].
  rewrite elem_of_app, list_elem_of_singleton. intros [Hin|[= -> ->]]; [|done]. apply list_elem_of_bind in Hin as (i & Hi & _).
  destruct (entry_at tb phys i) as [e|]; [|by apply not_elem_of_nil in Hi]. destruct (negb (is_present e)); [by apply not_elem_of_nil in Hi|].
  destruct (S level =? 1)%nat; [apply list_elem_of_singleton in Hi as [= -> ->]; by exists [i]|].
  apply IH in Hi as [r ->]. exists (i :: r). by rewrite <- (assoc_L (++)).
Qed.

(** The items below one entry. *)
Definition entry_items (level' : nat) (tb : gmap Z (list Z)) (phys : Z) (p : list nat) (i : nat) : list (list nat * item) :=
  match entry_at tb phys i with
  | Some e => if negb (is_present e) then [] else if (S level' =? 1)%nat then [(p ++ [i], Leaf e)] else items level' tb (PageTableEntry_frame e) (p ++ [i])
  | None => []
  end.

Lemma entry_items_prefix level tb phys p i q it : (q, it) ∈ entry_items level tb phys p i -> (p ++ [i]) `prefix_of` q.
Proof.
  unfold entry_items. destruct (entry_at tb phys i) as [e|]; [|by intros ?%not_elem_of_nil]. destruct (negb (is_present e)); [by intros ?%not_elem_of_nil|].
  destruct (S level =? 1)%nat; [by intros [= -> ->]%list_elem_of_singleton|]. apply items_prefix.
Qed.

Lemma fmap_bind_list {X Y W} (g : Y -> W) (f : X -> list Y) (l : list X) : g <$> (l ≫= f) = l ≫= (fun x => g <$> f x).
Proof. induction l as [|x l IH]; cbn; [done|]. by rewrite fmap_app, IH. Qed.

(** No path occurs twice. *)
Lemma items_NoDup level : forall tb phys p, NoDup (items level tb phys p).*1.
Proof.
  induction level as [|level IH]; intros tb phys p; cbn [items]; [apply NoDup_nil_2|]. rewrite fmap_app, fmap_bind_list. apply NoDup_app. split_and!.
  - apply NoDup_bind.
    + intros i j q _ _ ([q1 it1] & -> & H1)%list_elem_of_fmap ([q2 it2] & E & H2)%list_elem_of_fmap. cbn in E. subst q2.
      apply entry_items_prefix in H1 as [r1 E1], H2 as [r2 E2]. rewrite E1, <- !(assoc_L (++)) in E2. apply (inj (p ++.)) in E2. by injection E2.
    + intros i _. fold (entry_items level tb phys p i). unfold entry_items. destruct (entry_at tb phys i) as [e|]; [|apply NoDup_nil_2].
      destruct (negb (is_present e)); [apply NoDup_nil_2|]. destruct (S level =? 1)%nat; [apply NoDup_singleton|apply IH].
    + apply NoDup_seq.
  - intros q (i & ([q' it] & -> & Hi)%list_elem_of_fmap & _)%list_elem_of_bind [= Hq]%list_elem_of_singleton. cbn in Hq. subst q'.
    apply entry_items_prefix, prefix_length in Hi. rewrite length_app in Hi. cbn in Hi. lia.
  - apply NoDup_singleton.
Qed.

(** A walk that goes on below a table goes through one of its entries. *)
Lemma walk_cons tb root p g i q f : walk tb root p = Some g -> walk tb root (p ++ i :: q) = Some f ->
  exists e, entry_at tb g i = Some e /\ is_present e = true /\ is_huge_page e = false /\ walk tb root (p ++ [i]) = Some (PageTableEntry_frame e).
Proof.
  intros Hg. rewrite !walk_app, Hg. cbn. destruct (entry_at tb g i) as [e|]; cbn; [|done].
  destruct (is_present e) eqn:Hp, (is_huge_page e) eqn:Hh; cbn; try done. intros _. by exists e.
Qed.

(** What is in the list: the tables and the leaves below, by their paths. *)
Definition item_at (tb : gmap Z (list Z)) (root : Z) (q : list nat) (it : item) : Prop :=
  match it with
  | Table f => (length q <= 3)%nat /\ walk tb root q = Some f
  | Leaf e => exists q0 i, q = q0 ++ [i] /\ length q0 = 3%nat /\ pentry tb root q0 i = Some e
  end.

Lemma item_at_below tb root q it p g i r : item_at tb root q it -> q = p ++ i :: r -> (length p <= 2)%nat -> walk tb root p = Some g ->
  exists e, entry_at tb g i = Some e /\ is_present e = true /\ is_huge_page e = false /\ walk tb root (p ++ [i]) = Some (PageTableEntry_frame e).
Proof.
  intros Hit -> Hl Hg. destruct it as [e|f]; cbn in Hit.
  - destruct Hit as (q0 & j & E & H3 & He). destruct r as [|y r _] using rev_ind.
    { apply app_inj_tail in E as [-> _]. lia. }
    replace (p ++ i :: r ++ [y]) with ((p ++ i :: r) ++ [y]) in E by (by rewrite <- (assoc_L (++))). apply app_inj_tail in E as [<- <-].
    unfold pentry in He. destruct (walk tb root (p ++ i :: r)) as [g'|] eqn:Hw; [|done]. by eapply walk_cons.
  - destruct Hit as [_ Hw]. by eapply walk_cons.
Qed.

Lemma elem_of_items level : forall tb root phys p q it, (1 <= level <= 3)%nat -> length p = (4 - level)%nat -> walk tb root p = Some phys ->
  (forall p' i e, p `prefix_of` p' -> (length p' <= 2)%nat -> pentry tb root p' i = Some e -> is_huge_page e = false) ->
  (forall p' f i e, (length p' <= 3)%nat -> walk tb root p' = Some f -> entry_at tb f i = Some e -> (i < ENTRIES)%nat) ->
  (q, it) ∈ items level tb phys p <-> p `prefix_of` q /\ item_at tb root q it.
Proof.
  induction level as [|level IH]; intros tb root phys p q it Hl Hp Hw Hh Ht; [lia|]. cbn [items].
  rewrite elem_of_app, list_elem_of_singleton, list_elem_of_bind. setoid_rewrite elem_of_seq.
  assert (forall i e, entry_at tb phys i = Some e -> is_present e = true -> level <> 0%nat -> is_huge_page e = false /\ walk tb root (p ++ [i]) = Some (PageTableEntry_frame e)) as Hnext.
  { intros i e He Hpr Hne. pose proof (pentry_step _ _ _ _ _ _ Hw He) as Hpe. rewrite Hpr in Hpe.
    assert (is_huge_page e = false) as Hhu by (apply (Hh p i); [done|lia|done]). split; [done|]. rewrite walk_snoc, Hpe. cbn. by rewrite Hhu. }
  assert (forall i e, walk tb root (p ++ [i]) = Some (PageTableEntry_frame e) -> level <> 0%nat ->
    (q, it) ∈ items level tb (PageTableEntry_frame e) (p ++ [i]) <-> (p ++ [i]) `prefix_of` q /\ item_at tb root q it) as IH'.
  { intros i e He Hne. apply IH; [lia|rewrite length_app; cbn; lia|done| |done]. intros p' j e' Hpre. apply Hh. etrans; [|exact Hpre]. by exists [i]. }
  split.
  - intros [(i & Hin & _)|[= -> ->]]; [|split; [done|]; cbn; split; [lia|done]].
    destruct (entry_at tb phys i) as [e|] eqn:He; [|by apply not_elem_of_nil in Hin].
    destruct (is_present e) eqn:Hpr; cbn [negb] in Hin; [|by apply not_elem_of_nil in Hin]. destruct (Nat.eqb_spec (S level) 1) as [E1|E1].
    + apply list_elem_of_singleton in Hin as [= -> ->]. split; [by exists [i]|]. exists p, i. split_and!; [done|lia|]. rewrite (pentry_step _ _ _ _ _ _ Hw He). by rewrite Hpr.
    + apply IH' in Hin as [Hpre Hit]; [|by apply Hnext; [| |lia]|lia]. split; [|done]. etrans; [|exact Hpre]. by exists [i].
  - intros [[r ->] Hit]. destruct r as [|i r].
    + rewrite app_nil_r in *. destruct it as [e|f]; cbn in Hit.
      * destruct Hit as (q0 & i & -> & H3 & _). rewrite length_app in Hp. cbn in Hp. lia.
      * right. destruct Hit as [_ Hf]. congruence.
    + left. exists i. destruct (Nat.eqb_spec (S level) 1) as [E1|E1].
      * destruct it as [e|f]; cbn in Hit; [|destruct Hit as [Hlen _]; rewrite length_app in Hlen; cbn in Hlen; lia].
        destruct Hit as (q0 & j & E & H3 & He). assert (r = []) as ->.
        { apply (f_equal length) in E. rewrite !length_app in E. cbn in E. destruct r; [done|cbn in E; lia]. }
        apply app_inj_tail in E as [<- <-]. unfold pentry in He. rewrite Hw in He. cbn in He. destruct (entry_at tb phys i) as [e'|] eqn:He'; cbn in He; [|done].
        destruct (is_present e') eqn:Hpr; [|done]. injection He as <-. cbn [negb]. split; [by apply list_elem_of_singleton|]. split; [lia|]. cbn. eapply (Ht p phys); [lia|done|done].
      * destruct (item_at_below _ _ _ _ _ phys i r Hit eq_refl ltac:(lia) Hw) as (e & He & Hpr & _ & Hwi). rewrite He, Hpr. cbn [negb].
        split; [|split; [lia|cbn; eapply (Ht p phys); [lia|done|done]]]. apply IH'; [done|lia|]. split; [|done]. exists r. by rewrite <- (assoc_L (++)).
Qed.

(** ** Releasing the items *)

Section Release.
Context {A V : Type} `{FrameReturnLaws A}.
Implicit Types (k : kstate A V).

Definition free_item k (it : item) : outcome (kstate A V) :=
  match it with Leaf e => release_leaf k e | Table f => k_free_frame k (PhysAddr_new f) end.

(** Whether releasing an item frees its frame: a copy-on-write page has other owners
    unless its claim is the last. *)
Definition item_freed k (it : item) : Prop :=
  match it with Leaf e => is_cow e = false \/ cow_refcount (k_cow k) (PageTableEntry_frame e) = 1 | Table _ => True end.

Definition item_claim (it : item) (f : Z) : Prop := match it with Leaf e => is_cow e = true /\ PageTableEntry_frame e = f | Table _ => False end.

(** A frame that can be given back. *)
Definition can_free k (f : Z) : Prop := f ∉ k_free k /\ f mod 4096 = 0 /\ 0 < f < 2 ^ 44.

(** The state after the items [its] have been released, from [k]. *)
Record released k (its : list item) k' : Prop := {
  rl_alloc : fa_ok (pt_alloc (k_pt k'));
  rl_cow : cow_ok (k_cow k');
  rl_free f : f ∈ k_free k' <-> f ∈ k_free k \/ exists it, it ∈ its /\ item_freed k it /\ item_frame it = f;
  rl_claimed it : it ∈ its -> forall f, item_claim it f -> cow_refcount (k_cow k') f = Z.max 1 (cow_refcount (k_cow k) f - 1);
  rl_unclaimed f : (forall it, it ∈ its -> ~ item_claim it f) -> cow_refcount (k_cow k') f = cow_refcount (k_cow k) f;
  rl_rest : k_mem k' = k_mem k /\ k_vfs k' = k_vfs k /\ k_shoot k' = k_shoot k
}.

Lemma k_free_frame_spec k f : fa_ok (pt_alloc (k_pt k)) -> can_free k f ->
  exists a', k_free_frame k (PhysAddr_new f) = Done (set_pt k {| tabs := tabs (k_pt k); pt_alloc := a' |}) /\ fa_ok a' /\ fa_free a' = {[f]} ∪ k_free k.
Proof.
  intros Hok (Hn & Hal & Hr). rewrite PhysAddr_new_frame by done. unfold k_free_frame.
  destruct (fa_free_frame_spec (pt_alloc (k_pt k)) f Hok Hn Hal Hr) as (a' & -> & Hok' & Hfr). run. by exists a'.
Qed.

Lemma released_nil k : fa_ok (pt_alloc (k_pt k)) -> cow_ok (k_cow k) -> released k [] k.
Proof. intros Ha Hc. constructor; try done; [|by intros it ?%not_elem_of_nil]. intros f. split; [by left|]. intros [?|(it & Hit & _)]; [done|by apply not_elem_of_nil in Hit]. Qed.

(** One more item, in terms of what the step did to the free frames and the claims. *)
Section Step.
Variables (k k1 : kstate A V) (its : list item) (it : item).
Hypothesis HR : released k its k1.
Hypothesis Hnew : item_frame it ∉ item_frame <$> its.

Lemma item_claim_new x f : x ∈ its -> item_claim x f -> f <> item_frame it.
Proof.
  intros Hx Hf ->. destruct x as [e'|?]; [|done]. destruct Hf as [_ E]. apply Hnew. rewrite <- E.
  change (PageTableEntry_frame e') with (item_frame (Leaf e')). by apply list_elem_of_fmap_2.
Qed.

Lemma claim_kept f : f = item_frame it -> cow_refcount (k_cow k1) f = cow_refcount (k_cow k) f.
Proof. intros ->. apply (rl_unclaimed _ _ _ HR). intros y Hy Hyx. by eapply item_claim_new. Qed.

Lemma can_free_kept : can_free k (item_frame it) -> can_free k1 (item_frame it).
Proof.
  intros (C1 & C2 & C3). split_and!; [|done|lia|lia]. rewrite (rl_free _ _ _ HR). intros [?|(x & Hx & _ & E)]; [done|].
  apply Hnew. rewrite <- E. by apply list_elem_of_fmap_2.
Qed.

Lemma released_free (X : gset Z) (b : Prop) : (forall f, f ∈ X <-> f ∈ k_free k1 \/ b /\ f = item_frame it) -> (b <-> item_freed k it) ->
  forall f, f ∈ X <-> f ∈ k_free k \/ exists x, x ∈ its ++ [it] /\ item_freed k x /\ item_frame x = f.
Proof.
  intros HX Hb f. rewrite HX, (rl_free _ _ _ HR). setoid_rewrite elem_of_app. setoid_rewrite list_elem_of_singleton. rewrite Hb. split.
  - intros [[?|(x & ? & ? & ?)]|[? ->]]; [by left|right; exists x; auto|right; exists it; auto].
  - intros [?|(x & [?| ->] & ? & <-)]; [by left; left|left; right; by exists x|by right].
Qed.

(** An item without a claim. *)
Lemma released_plain a' : fa_ok a' -> fa_free a' = {[item_frame it]} ∪ k_free k1 -> item_freed k it -> (forall f, ~ item_claim it f) ->
  released k (its ++ [it]) (set_pt k1 {| tabs := tabs (k_pt k1); pt_alloc := a' |}).
Proof.
  intros G1 G2 Hf Hnc. pose proof HR as [R1 R2 R3 R4 R5 R6]. constructor; cbn; [done|done| | | |done].
  - apply (released_free (fa_free a') True); [|tauto]. intros f. rewrite G2. set_solver.
  - intros x Hx f Hxf. apply elem_of_app in Hx as [Hx|Hx%list_elem_of_singleton]; [by eapply R4|subst; by apply Hnc in Hxf].
  - intros f Hx. apply R5. intros x Hx'. apply Hx, elem_of_app. by left.
Qed.

(** An item with a claim. *)
Lemma released_claim e a' cow' (b : Prop) : it = Leaf e -> is_cow e = true -> fa_ok a' ->
  (forall f, f ∈ fa_free a' <-> f ∈ k_free k1 \/ b /\ f = item_frame it) -> (b <-> item_freed k it) -> cow_ok cow' ->
  cow_refcount cow' (PageTableEntry_frame e) = Z.max 1 (cow_refcount (k_cow k1) (PageTableEntry_frame e) - 1) ->
  (forall g, g <> PageTableEntry_frame e -> cow_refcount cow' g = cow_refcount (k_cow k1) g) ->
  released k (its ++ [it]) (set_cow (set_pt k1 {| tabs := tabs (k_pt k1); pt_alloc := a' |}) cow').
Proof.
  intros Eit Hcw G1 G2 Gb G3 G4 G5. pose proof HR as [R1 R2 R3 R4 R5 R6]. assert (item_frame it = PageTableEntry_frame e) as Ef by (by rewrite Eit).
  constructor; cbn; [done|done|by apply (released_free (fa_free a') b)| | |done].
  - intros x Hx f Hxf. apply elem_of_app in Hx as [Hx|Hx%list_elem_of_singleton].
    + rewrite G5; [by eapply R4|]. rewrite <- Ef. by eapply item_claim_new.
    + subst x. rewrite Eit in Hxf. destruct Hxf as [_ <-]. rewrite G4. by rewrite claim_kept.
  - intros f Hx. rewrite G5; [apply R5; intros x Hx'; apply Hx, elem_of_app; by left|].
    intros ->. apply (Hx it); [apply elem_of_app; right; by apply list_elem_of_singleton|]. by rewrite Eit.
Qed.

End Step.

Lemma released_step k its k1 it : released k its k1 -> item_frame it ∉ item_frame <$> its -> (item_freed k it -> can_free k (item_frame it)) ->
  exists k2, free_item k1 it = Done k2 /\ tabs (k_pt k2) = tabs (k_pt k1) /\ released k (its ++ [it]) k2.
Proof.
  intros HR Hnew Hcan. assert (item_freed k it -> can_free k1 (item_frame it)) as Hcan1 by (intros Hf; by eapply can_free_kept, Hcan).
  pose proof (rl_alloc _ _ _ HR) as Ha. destruct it as [e|f]; cbn [free_item item_frame item_freed] in *.
  - unfold release_leaf. destruct (is_cow e) eqn:Hcw.
    + match goal with |- context [cow_resolve _ ?f ?act] => destruct (cow_resolve_run k1 f act (rl_cow _ _ _ HR)) as (cow' & -> & Hok' & Hrc & Hoth) end.
      rewrite (claim_kept k k1 its (Leaf e) HR Hnew (PageTableEntry_frame e) eq_refl).
      destruct (Z.eqb_spec (cow_refcount (k_cow k) (PageTableEntry_frame e)) 1) as [E1|E1].
      * destruct (k_free_frame_spec k1 (PageTableEntry_frame e) Ha (Hcan1 (or_intror E1))) as (a' & -> & Ha' & Hfr). run. eexists. split_and!; [done|done|].
        apply (released_claim k k1 its (Leaf e) HR Hnew e a' cow' True); try done; [intros f; rewrite Hfr; cbn; set_solver|cbn; tauto].
      * run. exists (set_cow k1 cow'). split_and!; [done|done|].
        replace (set_cow k1 cow') with (set_cow (set_pt k1 {| tabs := tabs (k_pt k1); pt_alloc := pt_alloc (k_pt k1) |}) cow') by (by destruct k1 as [[]]).
        apply (released_claim k k1 its (Leaf e) HR Hnew e _ cow' False); try done; [intros f; unfold k_free; tauto|]. split; [done|]. cbn. rewrite Hcw. by intros [?|?].
    + destruct (k_free_frame_spec k1 (PageTableEntry_frame e) Ha (Hcan1 (or_introl eq_refl))) as (a' & -> & Ha' & Hfr). eexists. split_and!; [done|done|].
      apply (released_plain k k1 its (Leaf e) HR Hnew a'); [done|done|by left|]. cbn. rewrite Hcw. by intros f [? _].
  - destruct (k_free_frame_spec k1 f Ha (Hcan1 I)) as (a' & -> & Ha' & Hfr). eexists. split_and!; [done|done|].
    apply (released_plain k k1 its (Table f) HR Hnew a'); [done|done|done|by intros g []].
Qed.

(** A whole list. *)
Lemma released_list k : forall its done k1, released k done k1 -> NoDup (item_frame <$> (done ++ its)) ->
  (forall it, it ∈ its -> item_freed k it -> can_free k (item_frame it)) ->
  exists k2, foldM free_item k1 its = Done k2 /\ tabs (k_pt k2) = tabs (k_pt k1) /\ released k (done ++ its) k2.
Proof.
  induction its as [|it its IH]; intros done k1 HR Hnd Hcan; cbn [foldM]; [exists k1; by rewrite app_nil_r|].
  replace (done ++ it :: its) with ((done ++ [it]) ++ its) in * by (by rewrite <- (assoc_L (++))).
  destruct (released_step k done k1 it HR) as (k2 & -> & Ht & HR2); [|apply Hcan; left|].
  { rewrite !fmap_app in Hnd. apply NoDup_app in Hnd as (Hnd & _ & _). apply NoDup_app in Hnd as (_ & Hdis & _). intros Hin. apply (Hdis _ Hin). by left. }
  run. destruct (IH (done ++ [it]) k2 HR2 Hnd) as (k3 & -> & Ht3 & HR3); [intros x Hx; apply Hcan; by right|]. exists k3. by rewrite Ht3, Ht.
Qed.

(** ** [free_table] releases the items below a table *)

Lemma free_item_tabs k it k' : free_item k it = Done k' -> tabs (k_pt k') = tabs (k_pt k).
Proof.
  assert (forall k f k', k_free_frame k f = Done k' -> tabs (k_pt k') = tabs (k_pt k)) as Hf.
  { intros k0 f k1. unfold k_free_frame. destruct (fa_free_frame (pt_alloc (k_pt k0)) f); run; [|done]. by intros [= <-]. }
  destruct it as [e|f]; cbn; [|apply Hf]. unfold release_leaf. destruct (is_cow e); [|apply Hf].
  unfold cow_resolve. destruct (cow_release (k_cow k) (PageTableEntry_frame e)) as [sole cow']. destruct sole.
  - destruct (k_free_frame k (PhysAddr_new (PageTableEntry_frame e))) as [k1|] eqn:E; run; [|done]. intros [= <-]. by apply Hf in E.
  - run. by intros [= <-].
Qed.

Lemma free_items_tabs its : forall k k', foldM free_item k its = Done k' -> tabs (k_pt k') = tabs (k_pt k).
Proof.
  induction its as [|it its IH]; intros k k'; cbn [foldM]; [by intros [= <-]|]. destruct (free_item k it) as [k1|] eqn:E; run; [|done].
  intros Hk. apply free_item_tabs in E. apply IH in Hk. by rewrite Hk.
Qed.

Lemma foldM_bind {S X Y} (f : S -> Y -> outcome S) (g : X -> list Y) l : forall s, foldM f s (l ≫= g) = foldM (fun s x => foldM f s (g x)) s l.
Proof. induction l as [|x l IH]; intros s; cbn [mbind list_bind foldM]; [done|]. rewrite foldM_app. destruct (foldM f s (g x)) as [s'|]; run; [apply IH|done]. Qed.

Lemma foldM_ext_inv {S X} (I : S -> Prop) (f g : S -> X -> outcome S) l : (forall s x, I s -> x ∈ l -> f s x = g s x) -> (forall s x s', I s -> g s x = Done s' -> I s') ->
  forall s, I s -> foldM f s l = foldM g s l.
Proof.
  induction l as [|x l IH]; intros He Hi s Hs; cbn [foldM]; [done|]. rewrite He by (done || left). destruct (g s x) as [s'|] eqn:E; run; [|done].
  apply IH; [intros s0 y Hs0 Hy; apply He; [done|by right]|done|by eapply Hi].
Qed.

Lemma free_table_items tb root : (forall p f, (length p <= 3)%nat -> walk tb root p = Some f -> exists t, tb !! f = Some t /\ length t = ENTRIES) ->
  forall level phys p k, (1 <= level <= 3)%nat -> length p = (4 - level)%nat -> walk tb root p = Some phys ->
  (forall p' i e, p `prefix_of` p' -> (length p' <= 2)%nat -> pentry tb root p' i = Some e -> is_huge_page e = false) ->
  tabs (k_pt k) = tb -> free_table level k phys = foldM free_item k (items level tb phys p).*2.
Proof.
  intros Ht level. induction level as [|level IH]; intros phys p k Hl Hp Hw Hh Htb; [lia|]. cbn [free_table].
  change (items (S level) tb phys p) with ((seq 0 ENTRIES ≫= entry_items level tb phys p) ++ [(p, Table phys)]).
  rewrite fmap_app, foldM_app, fmap_bind_list, foldM_bind. destruct (Ht p phys ltac:(lia) Hw) as (t & Htp & Hlen).
  rewrite (foldM_ext_inv (fun k => tabs (k_pt k) = tb) _ (fun k i => foldM free_item k (entry_items level tb phys p i).*2)); [| | |done].
  - destruct (foldM _ k (seq 0 ENTRIES)) as [k1|]; run; cbn [fmap list_fmap foldM free_item snd]; [|done]. by destruct (k_free_frame k1 (PhysAddr_new phys)).
  - intros k1 i Hk1 Hi%elem_of_seq. unfold ENTRIES in *. rewrite read_table_entry by lia. rewrite Nat2Z.id, Hk1. destruct (lookup_lt_is_Some_2 t i ltac:(lia)) as [e He].
    assert (entry_at tb phys i = Some e) as Hea by (unfold entry_at; by rewrite Htp). unfold entry_items. rewrite Hea. run.
    destruct (is_present e) eqn:Hpr; cbn [negb]; [|done]. pose proof (pentry_step _ _ _ _ _ _ Hw Hea) as Hpe. rewrite Hpr in Hpe.
    destruct (Nat.eqb_spec (S level) 1) as [E1|E1]; cbn [orb].
    + cbn [fmap list_fmap foldM free_item snd]. by destruct (release_leaf k1 e).
    + assert (is_huge_page e = false) as Hhu by (apply (Hh p i); (done || lia)). rewrite Hhu.
      apply IH; [lia|rewrite length_app; cbn; lia|rewrite walk_snoc, Hpe; cbn; by rewrite Hhu| |done]. intros p' j e' Hpre. apply Hh. etrans; [|exact Hpre]. by exists [i].
  - intros k1 i k2 Hk1 E. rewrite <- Hk1. by eapply free_items_tabs.
Qed.

(** ** A space that owns what it maps *)

(** The frames of the space can be given back: the tables of the user half, and the
    pages no other space claims; no frame is there twice. *)
Record owned_space k (root : Z) : Prop := {
  ow_wf : space_wf (k_pt k) root;
  ow_table g : utable (tabs (k_pt k)) root g -> g mod 4096 = 0 /\ 0 < g < 2 ^ 44;
  ow_leaf w e : is_user w -> k_uleaf k root w = Some e -> item_freed k (Leaf e) -> can_free k (PageTableEntry_frame e);
  ow_once w w' e e' : is_user w -> is_user w' -> k_uleaf k root w = Some e -> k_uleaf k root w' = Some e' ->
    PageTableEntry_frame e = PageTableEntry_frame e' -> vpage w = vpage w';
  ow_page w e : is_user w -> k_uleaf k root w = Some e -> ~ utable (tabs (k_pt k)) root (PageTableEntry_frame e)
}.

(** The items of the user half: everything below the root. *)
Definition user_item k (root : Z) (q : list nat) (it : item) : Prop := q <> [] /\ user_path q /\ item_at (tabs (k_pt k)) root q it.

Lemma entry_below (s : pt_state A) root p f i e : pt_wf s root -> (length p <= 3)%nat -> walk (tabs s) root p = Some f -> entry_at (tabs s) f i = Some e -> (i < ENTRIES)%nat.
Proof.
  intros Hwf Hl Hw. destruct (wf_table _ _ Hwf p f Hl Hw) as (t & Ht & <-). unfold entry_at. rewrite Ht. cbn. intros He. by eapply lookup_lt_Some.
Qed.

Lemma walk_bound (s : pt_state A) root p f : pt_wf s root -> (length p <= 4)%nat -> walk (tabs s) root p = Some f -> Forall (fun i => i < 512)%nat p.
Proof.
  intros Hwf. revert f. induction p as [|i p IH] using rev_ind; intros f Hl Hw; [constructor|]. rewrite length_app in Hl. cbn in Hl.
  rewrite walk_snoc in Hw. unfold pentry in Hw. destruct (walk (tabs s) root p) as [g|] eqn:Hg; cbn in Hw; [|done].
  destruct (entry_at (tabs s) g i) as [e|] eqn:He; cbn in Hw; [|done].
  apply Forall_app. split; [by apply (IH g); [lia|]|]. apply Forall_singleton. by apply (entry_below s root p g i e Hwf ltac:(lia)).
Qed.

(** A leaf item is the leaf of a page. *)
Lemma leaf_item k root q e : space_wf (k_pt k) root -> user_item k root q (Leaf e) ->
  exists w, is_user w /\ k_uleaf k root w = Some e /\ q = [ix4 w; ix3 w; ix2 w; ix1 w].
Proof.
  intros [Hwf Hsm] (_ & Hu & q0 & i1 & -> & H3 & He). destruct q0 as [|i4 [|i3 [|i2 [|]]]]; try (cbn in H3; lia). cbn [app user_path] in *.
  assert (exists pt, walk (tabs (k_pt k)) root [i4; i3; i2] = Some pt /\ is_Some (entry_at (tabs (k_pt k)) pt i1)) as (pt & Hw & e' & He1).
  { unfold pentry in He. destruct (walk (tabs (k_pt k)) root [i4; i3; i2]) as [pt|]; [|done]. exists pt. split; [done|]. cbn in He. destruct (entry_at (tabs (k_pt k)) pt i1); [by eexists|done]. }
  pose proof (entry_below (k_pt k) root [i4; i3; i2] pt i1 e' Hwf ltac:(cbn; lia) Hw He1) as L1. unfold ENTRIES in L1.
  pose proof (walk_bound (k_pt k) root [i4; i3; i2] pt Hwf ltac:(cbn; lia) Hw) as L. rewrite !Forall_cons in L. destruct L as (L4 & L3 & L2 & _).
  set (n := page_number i4 i3 i2 i1). assert (0 <= n < 2 ^ 35) as Hn by (unfold n, page_number; lia).
  destruct (proj1 (page_number_ix (page_addr n) i4 i3 i2 i1 L4 L3 L2 L1) (vpage_addr n ltac:(lia))) as (E4 & E3 & E2 & E1).
  exists (page_addr n). split_and!; [apply is_user_page; rewrite vpage_addr; lia| |by rewrite E4, E3, E2, E1].
  unfold k_uleaf, uleaf. by rewrite E4, E3, E2, E1.
Qed.

Lemma leaf_is_item k root w e : is_user w -> k_uleaf k root w = Some e -> user_item k root [ix4 w; ix3 w; ix2 w; ix1 w] (Leaf e).
Proof. intros Hu He. split_and!; [done|exact Hu|]. exists [ix4 w; ix3 w; ix2 w], (ix1 w). done. Qed.

(** The items have frames of their own, and the ones to be freed can be. *)
Lemma item_once k root q q' it it' : owned_space k root -> user_item k root q it -> user_item k root q' it' -> item_frame it = item_frame it' -> q = q'.
Proof.
  intros [Hs Ht Hl Hone Hpg] Hi Hi'. assert (forall q f, user_item k root q (Table f) -> utable (tabs (k_pt k)) root f) as Hut.
  { intros q0 f (_ & Hu & Hq & Hw). by exists q0. }
  destruct it as [e|f], it' as [e'|f']; cbn [item_frame].
  - destruct (leaf_item k root q e Hs Hi) as (w & Hw & Hwe & ->), (leaf_item k root q' e' Hs Hi') as (w' & Hw' & Hwe' & ->). intros E.
    destruct (proj1 (vpage_path w w')) as (-> & -> & -> & ->); [by eapply Hone|done].
  - intros E. destruct (leaf_item k root q e Hs Hi) as (w & Hw & Hwe & _). exfalso. apply (Hpg w e Hw Hwe). rewrite E. by eapply Hut.
  - intros E. destruct (leaf_item k root q' e' Hs Hi') as (w & Hw & Hwe & _). exfalso. apply (Hpg w e' Hw Hwe). rewrite <- E. by eapply Hut.
  - intros ->. destruct Hi as (_ & _ & Hq & Hw), Hi' as (_ & _ & Hq' & Hw'). by apply (wf_tree _ _ (sw_wf _ _ Hs) q q' f').
Qed.

Lemma item_can_free k root q it : owned_space k root -> user_item k root q it -> item_freed k it -> can_free k (item_frame it).
Proof.
  intros [Hs Ht Hl Hone Hpg] Hi Hf. destruct it as [e|f]; cbn [item_frame].
  - destruct (leaf_item k root q e Hs Hi) as (w & Hw & Hwe & _). by apply (Hl w).
  - destruct Hi as (_ & Hu & Hq & Hw). split; [by apply (wf_live _ _ (sw_wf _ _ Hs) q)|]. apply Ht. by exists q.
Qed.

(** ** The loop over the root *)

(** The tables when the first [i] entries of the root have been cleared. *)
Record cleared (tb tb' : gmap Z (list Z)) (root : Z) (i : nat) : Prop := {
  cl_other g : g <> root -> tb' !! g = tb !! g;
  cl_rest j : (i <= j)%nat -> entry_at tb' root j = entry_at tb root j;
  cl_done j e : (j < i)%nat -> entry_at tb' root j = Some e -> is_present e = false;
  cl_root : exists t, tb' !! root = Some t /\ length t = ENTRIES
}.

Lemma cleared_walk (s : pt_state A) root tb' i j q : pt_wf s root -> cleared (tabs s) tb' root i -> (length q <= 3)%nat ->
  walk tb' root (j :: q) = if decide (i <= j)%nat then walk (tabs s) root (j :: q) else None.
Proof.
  intros Hwf [C1 C2 C3 C4] Hl. assert (walk tb' root [j] = if decide (i <= j)%nat then walk (tabs s) root [j] else None) as Hone.
  { cbn [walk]. case_decide as Hij; [by rewrite C2|]. destruct (entry_at tb' root j) as [e|] eqn:E; cbn; [|done]. by rewrite (C3 j e) by (done || lia). }
  revert Hl. induction q as [|m q IH] using rev_ind; intros Hl; [exact Hone|]. rewrite length_app in Hl. cbn in Hl.
  change (j :: q ++ [m]) with ((j :: q) ++ [m]). rewrite !walk_app, IH by lia. case_decide; [|done].
  destruct (walk (tabs s) root (j :: q)) as [g|] eqn:Hg; cbn; [|done]. unfold entry_at. rewrite C1; [done|]. intros ->.
  by assert (j :: q = []) as E by (apply (wf_tree _ _ Hwf (j :: q) [] root); [cbn; lia|cbn; lia|done|done]).
Qed.

Lemma cleared_item k root tb' i j q it : pt_wf (k_pt k) root -> cleared (tabs (k_pt k)) tb' root i -> (i <= j)%nat ->
  item_at tb' root (j :: q) it <-> item_at (tabs (k_pt k)) root (j :: q) it.
Proof.
  intros Hwf Hc Hij. pose proof Hc as [C1 _ _ _].
  assert (forall q, (length q <= 3)%nat -> walk tb' root (j :: q) = walk (tabs (k_pt k)) root (j :: q)) as Hw.
  { intros q0 Hl. rewrite (cleared_walk (k_pt k) root tb' i j q0 Hwf Hc Hl). by rewrite decide_True. }
  destruct it as [e|f]; cbn [item_at].
  - assert (forall q0 m, j :: q = q0 ++ [m] -> length q0 = 3%nat -> pentry tb' root q0 m = pentry (tabs (k_pt k)) root q0 m) as Hp.
    { intros [|j' q0] m Eq Hl; [done|]. injection Eq as <- ->. unfold pentry. cbn in Hl. rewrite Hw by lia.
      destruct (walk (tabs (k_pt k)) root (j :: q0)) as [g|] eqn:Hg; cbn; [|done]. unfold entry_at. rewrite C1; [done|]. intros ->.
      by assert (j :: q0 = []) as E by (apply (wf_tree _ _ Hwf (j :: q0) [] root); [cbn; lia|cbn; lia|done|done]). }
    split; intros (q0 & m & E & Hl & He); exists q0, m; (split_and!; [done..|]); [rewrite <- Hp by done|rewrite Hp by done]; done.
  - split; intros [Hl Hf]; (split; [done|]); cbn in Hl; [rewrite <- Hw by lia|rewrite Hw by lia]; done.
Qed.

(** The state when the first [i] entries are done. *)
Definition torn k root (i : nat) k1 : Prop := exists pits : list (list nat * item),
  NoDup pits.*1 /\ (forall q it, (q, it) ∈ pits <-> user_item k root q it /\ exists j q', q = j :: q' /\ (j < i)%nat) /\
  released k pits.*2 k1 /\ cleared (tabs (k_pt k)) (tabs (k_pt k1)) root i.

Lemma NoDup_frames k root (pits : list (list nat * item)) : owned_space k root -> NoDup pits.*1 -> (forall q it, (q, it) ∈ pits -> user_item k root q it) ->
  NoDup (item_frame <$> pits.*2).
Proof.
  intros Ho. induction pits as [|[q it] pits IH]; intros Hnd Hu; cbn; [constructor|]. cbn in Hnd. apply NoDup_cons in Hnd as [Hq Hnd]. apply NoDup_cons. split.
  - intros (it' & E & ([q' it2] & -> & Hin)%list_elem_of_fmap)%list_elem_of_fmap. cbn in E. apply Hq.
    assert (q = q') as -> by (apply (item_once k root q q' it it2 Ho); [apply Hu; left|apply Hu; by right|done]). change q' with (q', it2).1. by apply list_elem_of_fmap_2.
  - apply IH; [done|]. intros q' it' Hin. apply Hu. by right.
Qed.

Lemma cleared_pentry k root tb' i j q m : pt_wf (k_pt k) root -> cleared (tabs (k_pt k)) tb' root i -> (i <= j)%nat -> (length q <= 2)%nat ->
  pentry tb' root (j :: q) m = pentry (tabs (k_pt k)) root (j :: q) m.
Proof.
  intros Hwf Hc Hij Hl. unfold pentry. rewrite (cleared_walk (k_pt k) root tb' i j q Hwf Hc) by lia. rewrite decide_True by done.
  destruct (walk (tabs (k_pt k)) root (j :: q)) as [g|] eqn:Hg; cbn; [|done]. unfold entry_at. rewrite (cl_other _ _ _ _ Hc); [done|]. intros ->.
  by assert (j :: q = []) as E by (apply (wf_tree _ _ Hwf (j :: q) [] root); [cbn; lia|cbn; lia|done|done]).
Qed.

(** No entry of the user half below the top is huge. *)
Lemma user_small k root i p' m e : space_wf (k_pt k) root -> (i < 256)%nat -> [i] `prefix_of` p' -> (length p' <= 2)%nat ->
  pentry (tabs (k_pt k)) root p' m = Some e -> is_huge_page e = false.
Proof.
  intros Hs Hi [r ->] Hl He. pose proof (sw_wf _ _ Hs) as Hwf. assert (m < 512)%nat as Hm.
  { unfold pentry in He. destruct (walk (tabs (k_pt k)) root ([i] ++ r)) as [g|] eqn:Hw; [|done]. cbn in He. destruct (entry_at (tabs (k_pt k)) g m) as [e'|] eqn:E; cbn in He; [|done].
    eapply (entry_below (k_pt k) root ([i] ++ r)); [done|lia|done|done]. }
  destruct r as [|i3 [|]]; [exact (proj1 (small_entries (k_pt k) root i m 0 Hs Hi Hm ltac:(lia)) e He)| |cbn in Hl; lia].
  assert (i3 < 512)%nat as H3.
  { unfold pentry in He. destruct (walk (tabs (k_pt k)) root ([i] ++ [i3])) as [g|] eqn:Hw; [|done].
    pose proof (walk_bound (k_pt k) root ([i] ++ [i3]) g Hwf ltac:(cbn; lia) Hw) as L. cbn in L. rewrite !Forall_cons in L. tauto. }
  exact (proj2 (small_entries (k_pt k) root i i3 m Hs Hi H3 Hm) e He).
Qed.

(** An entry that is not present. *)
Lemma torn_absent k root i k1 e : space_wf (k_pt k) root -> torn k root i k1 -> entry_at (tabs (k_pt k)) root i = Some e -> is_present e = false -> torn k root (S i) k1.
Proof.
  intros Hs (pits & P1 & P2 & P3 & P4) He Hp. exists pits. split_and!; [done| |done|].
  - intros q it. rewrite P2. split; intros [Hu (j & q' & -> & Hj)]; (split; [done|]); exists j, q'; (split; [done|]); [lia|].
    destruct (decide (j = i)) as [->|]; [|lia]. exfalso. destruct Hu as (_ & _ & Hit).
    destruct (item_at_below _ _ _ _ [] root i q' Hit eq_refl ltac:(cbn; lia) eq_refl) as (e' & He' & Hp' & _). congruence.
  - destruct P4 as [C1 C2 C3 C4]. constructor; [done|intros j Hj; apply C2; lia| |done].
    intros j e' Hj. destruct (decide (j = i)) as [->|]; [rewrite C2, He by lia; by intros [= <-]|apply C3; lia].
Qed.

(** [free_table] on the table below an entry that is present: the items with that index. *)
Lemma cleared_items k root i k1 e : space_wf (k_pt k) root -> (i < 256)%nat -> cleared (tabs (k_pt k)) (tabs (k_pt k1)) root i ->
  entry_at (tabs (k_pt k)) root i = Some e -> is_present e = true ->
  exists new, free_table 3 k1 (PageTableEntry_frame e) = foldM free_item k1 new.*2 /\ NoDup new.*1 /\
    forall q it, (q, it) ∈ new <-> user_item k root q it /\ exists q', q = i :: q'.
Proof.
  intros Hs Hi P4 He Hp. pose proof (sw_wf _ _ Hs) as Hwf.
  assert (is_huge_page e = false) as Hhu by (by apply (wf_top _ _ Hwf i)). set (tb1 := tabs (k_pt k1)) in *.
  assert (walk tb1 root [i] = Some (PageTableEntry_frame e)) as Hwi by (cbn [walk]; rewrite (cl_rest _ _ _ _ P4), He by lia; cbn; by rewrite Hp, Hhu).
  assert (forall p' m e', [i] `prefix_of` p' -> (length p' <= 2)%nat -> pentry tb1 root p' m = Some e' -> is_huge_page e' = false) as Hh.
  { intros p' m e' Hpre Hl. pose proof Hpre as [r ->]. cbn [app] in *. rewrite (cleared_pentry k root tb1 i i r m Hwf P4) by (done || cbn in Hl; lia). by apply (user_small k root i). }
  assert (forall p f, (length p <= 3)%nat -> walk tb1 root p = Some f -> exists t, tb1 !! f = Some t /\ length t = ENTRIES) as Ht.
  { intros [|j q] f Hl Hw; [injection Hw as <-; apply P4|]. cbn in Hl. rewrite (cleared_walk (k_pt k) root tb1 i j q Hwf P4) in Hw by lia. case_decide; [|done].
    rewrite (cl_other _ _ _ _ P4); [apply (wf_table _ _ Hwf (j :: q)); [cbn; lia|done]|]. intros ->.
    by assert (j :: q = []) as E by (apply (wf_tree _ _ Hwf (j :: q) [] root); [cbn; lia|cbn; lia|done|done]). }
  exists (items 3 tb1 (PageTableEntry_frame e) [i]). split_and!; [by apply (free_table_items tb1 root Ht); [lia| | | |]|apply items_NoDup|].
  intros q it. rewrite (elem_of_items 3 tb1 root _ [i] q it ltac:(lia) eq_refl Hwi Hh).
  - split.
    + intros [[q' ->] Hit]. cbn [app] in *. rewrite (cleared_item k root tb1 i i q' it Hwf P4) in Hit by lia. split; [done|]. by exists q'.
    + intros [(_ & _ & Hit) (q' & ->)]. split; [by exists q'|]. by apply (cleared_item k root tb1 i i q' it Hwf P4).
  - intros p' f m e' Hl Hw Hm. destruct (Ht p' f Hl Hw) as (t & Htf & <-). unfold entry_at in Hm. rewrite Htf in Hm. by eapply lookup_lt_Some.
Qed.

(** Clearing the entry of the root. *)
Lemma cleared_next tb tb' root i : cleared tb tb' root i -> cleared tb (set_entry tb' root i PageTableEntry_empty) root (S i).
Proof.
  intros [C1 C2 C3 (t & Ht & Hl)]. constructor.
  - intros g Hg. unfold set_entry. rewrite lookup_alter_ne by done. by apply C1.
  - intros j Hj. rewrite entry_at_set_ne by (intros [= ->]; lia). apply C2. lia.
  - intros j e Hj. destruct (decide (j = i)) as [->|Hne]; [|rewrite entry_at_set_ne by congruence; apply C3; lia].
    unfold entry_at, set_entry. rewrite lookup_alter_eq, Ht. cbn. rewrite list_lookup_insert_Some. intros [(_ & <- & _)|[? _]]; done.
  - exists (<[i := PageTableEntry_empty]> t). unfold set_entry. rewrite lookup_alter_eq, Ht. split; [done|]. by rewrite length_insert.
Qed.

Lemma released_tabs k its k1 tb : released k its k1 -> released k its (set_pt k1 {| tabs := tb; pt_alloc := pt_alloc (k_pt k1) |}).
Proof. intros []. by constructor. Qed.

(** An entry that is: the tables and pages below go, then the entry. *)
Lemma torn_present k root i k1 e : owned_space k root -> (i < 256)%nat -> torn k root i k1 -> entry_at (tabs (k_pt k)) root i = Some e -> is_present e = true ->
  exists k2 k3, free_table 3 k1 (PageTableEntry_frame e) = Done k2 /\ k_set_entry k2 root (Z.of_nat i) PageTableEntry_empty = Done k3 /\ torn k root (S i) k3.
Proof.
  intros Ho Hi (pits & P1 & P2 & P3 & P4) He Hp. destruct (cleared_items k root i k1 e (ow_wf _ _ Ho) Hi P4 He Hp) as (new & -> & Nn & Hnew).
  assert (NoDup (pits ++ new).*1) as Hnd.
  { rewrite fmap_app. apply NoDup_app. split_and!; [done| |done].
    intros q ([q1 it1] & -> & H1')%list_elem_of_fmap ([q2 it2] & E & H2')%list_elem_of_fmap. cbn in E. subst q2.
    apply P2 in H1' as (_ & j & q' & E1 & Hj). apply Hnew in H2' as (_ & q'' & E2). cbn in E1. rewrite E1 in E2. injection E2 as -> _. lia. }
  assert (forall q it, (q, it) ∈ pits ++ new -> user_item k root q it) as Hall.
  { intros q it [Hin|Hin]%elem_of_app; [by apply (proj1 (P2 _ _) Hin)|by apply (proj1 (Hnew _ _) Hin)]. }
  pose proof (NoDup_frames k root (pits ++ new) Ho Hnd Hall) as Hfr. rewrite fmap_app in Hfr.
  destruct (released_list k new.*2 pits.*2 k1 P3 Hfr) as (k2 & -> & Ht2 & HR).
  { intros it ([q it'] & -> & Hin)%list_elem_of_fmap. cbn. apply (item_can_free k root q it' Ho). apply Hall, elem_of_app. by right. }
  rewrite <- fmap_app in HR. destruct (cl_root _ _ _ _ P4) as (t & Ht & Hlt). eexists k2, _. split; [done|].
  unfold k_set_entry. rewrite (write_table_set (k_pt k2) root (Z.of_nat i) PageTableEntry_empty t) by (rewrite ?Ht2; (done || lia)). run. split; [done|].
  exists (pits ++ new). split_and!; [done| |by apply released_tabs|cbn; rewrite Nat2Z.id, Ht2; by apply cleared_next].
  intros q it. rewrite elem_of_app, P2, Hnew. split.
  - intros [[Hu (j & q' & -> & Hj)]|[Hu (q' & ->)]]; (split; [done|]); [exists j, q'|exists i, q']; (split; [done|lia]).
  - intros [Hu (j & q' & -> & Hj)]. destruct (decide (j = i)) as [->|]; [right; split; [done|by exists q']|left; split; [done|]; exists j, q'; split; [done|lia]].
Qed.

(** The whole user half. *)
Lemma free_user_half_spec k root : owned_space k root -> cow_ok (k_cow k) -> exists k', free_user_half k root = Done k' /\ torn k root 256 k'.
Proof.
  intros Ho Hc. pose proof (ow_wf _ _ Ho) as Hs. pose proof (sw_wf _ _ Hs) as Hwf. unfold free_user_half, USER_PML4_ENTRIES.
  assert (torn k root 0 k) as H0t.
  { exists []. split_and!; [apply NoDup_nil_2| |by apply released_nil; [apply Hwf|]|].
    - intros q it. split; [by intros ?%not_elem_of_nil|]. intros [_ (j & q' & _ & Hj)]. lia.
    - constructor; [done|done|lia|]. by apply (wf_table _ _ Hwf [] root ltac:(cbn; lia)). }
  assert (forall k1 i, (i < 256)%nat -> torn k root i k1 -> exists k2,
    (entry ← read_table (k_pt k1) root (Z.of_nat i); if is_present entry then k' ← free_table 3 k1 (PageTableEntry_frame entry);
      k_set_entry k' root (Z.of_nat i) PageTableEntry_empty else Done k1) = Done k2 /\ torn k root (S i) k2) as Hstep.
  { intros k1 i Hi Hk1. destruct (entry_at_wf (k_pt k) root [] root i Hwf) as [e He]; [cbn; lia|done|unfold ENTRIES; lia|].
    pose proof Hk1 as (_ & _ & _ & _ & P4). rewrite read_table_entry by lia. rewrite Nat2Z.id, (cl_rest _ _ _ _ P4), He by lia. run. destruct (is_present e) eqn:Hp.
    - destruct (torn_present k root i k1 e Ho Hi Hk1 He Hp) as (k2 & k3 & -> & E3 & HT). run. by exists k3.
    - exists k1. split; [done|]. by eapply torn_absent. }
  match goal with |- exists k', ?r = Done k' /\ _ => assert (match r with Done k1 => torn k root 256 k1 | Panic => False end) as Hl end.
  { apply (foldM_seq _ (fun i r => match r with Done k1 => torn k root i k1 | Panic => False end) 256); [done| |done|exact H0t].
    intros i k1 Hi Hk1. by destruct (Hstep k1 i Hi Hk1) as (k2 & -> & HT). }
  destruct (foldM _ k (seq 0 256)) as [k'|]; [by exists k'|done].
Qed.

(** ** [drop_ref] *)

(** A frame that the teardown of the space at [root] gives back. *)
Definition gives_back k (root f : Z) : Prop := utable (tabs (k_pt k)) root f \/
  exists w e, is_user w /\ k_uleaf k root w = Some e /\ item_freed k (Leaf e) /\ PageTableEntry_frame e = f.

(** Another space that uses none of these frames, nor the frame [own]. *)
Record keeps k (root own r : Z) : Prop := {
  kp_two : two_spaces (k_pt k) root r;
  kp_live : leaves_live k r;
  kp_tables f : gives_back k root f \/ f = own -> ~ reach (tabs (k_pt k)) r f;
  kp_pages f w e : gives_back k root f \/ f = own -> is_user w -> k_uleaf k r w = Some e -> PageTableEntry_frame e <> f
}.

Lemma torn_free k root k' : owned_space k root -> torn k root 256 k' ->
  (forall f, f ∈ k_free k' <-> f ∈ k_free k \/ gives_back k root f /\ f <> root) /\
  (forall w e, is_user w -> k_uleaf k root w = Some e -> is_cow e = true -> cow_refcount (k_cow k') (PageTableEntry_frame e) = Z.max 1 (cow_refcount (k_cow k) (PageTableEntry_frame e) - 1)) /\
  (forall f, (forall w e, is_user w -> k_uleaf k root w = Some e -> is_cow e = true -> PageTableEntry_frame e <> f) -> cow_refcount (k_cow k') f = cow_refcount (k_cow k) f).
Proof.
  intros Ho (pits & P1 & P2 & [R1 R2 R3 R4 R5 R6] & P4). pose proof (ow_wf _ _ Ho) as Hs. pose proof (sw_wf _ _ Hs) as Hwf.
  assert (forall it, it ∈ pits.*2 <-> exists q, user_item k root q it) as Hel.
  { intros it. rewrite list_elem_of_fmap. split.
    - intros ([q it'] & -> & Hin). exists q. by apply P2.
    - intros [q Hu]. exists (q, it). split; [done|]. apply P2. split; [done|]. destruct Hu as (Hne & Hup & _). destruct q as [|j q']; [done|]. by exists j, q'. }
  split_and!.
  - intros f. rewrite R3. apply or_iff_compat_l. split.
    + intros (it & (q & Hu)%Hel & Hf & <-). destruct it as [e|g]; cbn [item_frame].
      * destruct (leaf_item k root q e Hs Hu) as (w & Hw & He & _). split; [right; by exists w, e|]. intros E. apply (ow_page _ _ Ho w e Hw He). rewrite E. exists []. split_and!; [cbn; lia|done..].
      * destruct Hu as (Hne & Hup & Hl & Hw). split; [left; by exists q|]. intros ->. apply Hne. apply (wf_tree _ _ Hwf q [] root); [done|cbn; lia|done|done].
    + intros [[(p & Hl & Hup & Hw)|(w & e & Hw & He & Hf & <-)] Hne].
      * exists (Table f). split_and!; [|done|done]. apply Hel. exists p. split_and!; [|done|done]. intros ->. by injection Hw.
      * exists (Leaf e). split_and!; [|done|done]. apply Hel. eexists. by apply leaf_is_item.
  - intros w e Hw He Hc. apply (R4 (Leaf e)); [|done]. apply Hel. eexists. by apply leaf_is_item.
  - intros f Hno. apply R5. intros it (q & Hu)%Hel. destruct it as [e|g]; [|by intros []]. intros [Hc Ef]. destruct (leaf_item k root q e Hs Hu) as (w & Hw & He & _). by apply (Hno w e Hw He Hc).
Qed.

(** What [drop_ref] leaves when the reference was the last. *)
Record dropped (a : AddressSpace) (own : Z) k k' : Prop := {
  dr_free f : f ∈ k_free k' <-> f ∈ k_free k \/ gives_back k (as_pml4_phys a) f \/ f = own;
  dr_ok : fa_ok (pt_alloc (k_pt k')) /\ cow_ok (k_cow k');
  dr_claim w e : is_user w -> k_uleaf k (as_pml4_phys a) w = Some e -> is_cow e = true ->
    cow_refcount (k_cow k') (PageTableEntry_frame e) = Z.max 1 (cow_refcount (k_cow k) (PageTableEntry_frame e) - 1);
  dr_claims f : (forall w e, is_user w -> k_uleaf k (as_pml4_phys a) w = Some e -> is_cow e = true -> PageTableEntry_frame e <> f) ->
    cow_refcount (k_cow k') f = cow_refcount (k_cow k) f;
  dr_tabs g : g <> as_pml4_phys a -> tabs (k_pt k') !! g = tabs (k_pt k) !! g;
  dr_mem : k_mem k' = k_mem k /\ k_vfs k' = k_vfs k /\ k_shoot k' = k_shoot k
}.

Lemma drop_ref_last a own pcids k : owned_space k (as_pml4_phys a) -> cow_ok (k_cow k) -> as_refcount a = 1 ->
  can_free k own -> ~ gives_back k (as_pml4_phys a) own ->
  exists a' k', drop_ref a own pcids k = Done (true, a', PcidAllocator_free pcids {| pcid_id := as_pcid a; pcid_generation := 0 |}, k') /\ dropped a own k k'.
Proof.
  intros Ho Hc Href Hown Hnb. unfold drop_ref, AddressSpace_dec_ref. rewrite Href. change (1 =? 1) with true. cbv iota zeta beta. cbn [as_pml4_phys as_pcid]. unfold free_user_mappings. cbn [as_pml4_phys].
  set (root := as_pml4_phys a) in *. destruct (free_user_half_spec k root Ho Hc) as (k1 & -> & HT). run.
  destruct (torn_free k root k1 Ho HT) as (F1 & F2 & F3). destruct HT as (pits & _ & _ & [R1 R2 _ _ _ R6] & P4).
  assert (utable (tabs (k_pt k)) root root) as Hur by (exists []; split_and!; [cbn; lia|done..]).
  assert (can_free k1 root) as Hroot.
  { split; [|by apply (ow_table _ _ Ho)]. rewrite F1. intros [Hin|[_ ?]]; [|done]. by apply (wf_live _ _ (sw_wf _ _ (ow_wf _ _ Ho)) [] root ltac:(cbn; lia) eq_refl). }
  destruct (k_free_frame_spec k1 root R1 Hroot) as (a1 & -> & Ha1 & Hf1). run. set (k2 := set_pt k1 {| tabs := tabs (k_pt k1); pt_alloc := a1 |}).
  assert (own <> root) as Hne by (intros ->; apply Hnb; by left).
  assert (can_free k2 own) as Hown2.
  { destruct Hown as (O1 & O2 & O3). split_and!; [|done|lia|lia]. change (k_free k2) with (fa_free a1). rewrite Hf1, elem_of_union, elem_of_singleton, F1. by intros [?|[?|[? _]]]. }
  destruct (k_free_frame_spec k2 own Ha1 Hown2) as (a2 & -> & Ha2 & Hf2). run. eexists _, _. split; [reflexivity|].
  constructor; cbn [set_pt k_pt pt_alloc k_cow k_mem k_vfs k_shoot tabs k2]; [|done|exact F2|exact F3|apply P4|done].
  intros f. etrans; [apply (iff_refl (f ∈ fa_free a2))|]. rewrite Hf2, elem_of_union. etrans; [apply (iff_refl (f ∈ ({[own]} : gset Z) \/ f ∈ fa_free a1))|]. rewrite Hf1, !elem_of_union, !elem_of_singleton, F1.
  destruct (decide (f = root)) as [->|]; [|tauto]. split; [|by intros _; right; left]. intros _. right. left. by left.
Qed.

(** A space that keeps what is given back apart is left as it was. *)
Lemma dropped_keeps a own k k' r : space_wf (k_pt k) (as_pml4_phys a) -> dropped a own k k' -> keeps k (as_pml4_phys a) own r ->
  space_wf (k_pt k') r /\ leaves_live k' r /\ (forall p j, (length p <= 3)%nat -> pentry (tabs (k_pt k')) r p j = pentry (tabs (k_pt k)) r p j) /\
  forall x, is_user x -> user_byte k' r x = user_byte k r x.
Proof.
  intros Hs [D1 [D2 D2'] _ _ D5 [D6 _]] [Ht Hl Hkt Hkp].
  assert (utable (tabs (k_pt k)) (as_pml4_phys a) (as_pml4_phys a)) as Hur by (exists []; split_and!; [cbn; lia|done..]).
  assert (forall g, reach (tabs (k_pt k)) r g -> tabs (k_pt k') !! g = tabs (k_pt k) !! g) as Htab.
  { intros g Hg. apply D5. intros ->. by apply (ts_apart _ _ _ Ht _ Hur). }
  pose proof (pentry_agree _ _ _ Htab) as Hpe. assert (forall w, k_uleaf k' r w = k_uleaf k r w) as Hul by (intros w; apply Hpe; cbn; lia).
  assert (space_wf (k_pt k') r) as Hs'.
  { apply (space_agree (k_pt k)); [apply Ht|done|done|]. intros g Hg. change (g ∉ k_free k'). rewrite D1. intros [Hin|Hgb]; [|by apply (Hkt g)].
    destruct Hg as (p & Hp & Hg). by apply (wf_live _ _ (sw_wf _ _ (ts_two _ _ _ Ht)) p g Hp Hg). }
  split_and!; [done| |done|].
  - intros w e Hw. rewrite Hul. intros He. destruct (Hl w e Hw He) as [H0' Hn]. split; [done|]. rewrite D1. intros [?|Hgb]; [done|]. by apply (Hkp _ w e Hgb Hw He).
  - intros x Hx. rewrite !user_byte_leaf by (done || apply Ht). rewrite Hul. unfold page_of. by rewrite D6.
Qed.

(** No page of a shared file mapping is mapped: such a page belongs to the page cache. *)
Definition private_pages k (a : AddressSpace) : Prop :=
  forall w e, is_user w -> k_uleaf k (as_pml4_phys a) w = Some e -> shared_file a (page_addr (vpage w)) = false.

(** C9: dropping the last reference to an address space gives back exactly its frames.
    For a space whose frames are its own (no frame is mapped twice or is also a
    table) and which has no page of a shared file mapping mapped, [drop_ref] succeeds: the tables of the user half, the root, the space's own
    frame, every page that is not copy-on-write and every copy-on-write page whose
    claim is the last become free, and no other frame does; every other copy-on-write
    page loses one claim; memory is not written.  A space that uses none of the frames
    given back stays well formed, its frames stay in use and it reads what it read. *)
Theorem drop_ref_exact a own pcids k : owned_space k (as_pml4_phys a) -> cow_ok (k_cow k) -> as_refcount a = 1 ->
  private_pages k a -> can_free k own -> ~ gives_back k (as_pml4_phys a) own ->
  exists a' pcids' k', drop_ref a own pcids k = Done (true, a', pcids', k') /\ dropped a own k k' /\
    forall r, keeps k (as_pml4_phys a) own r -> space_wf (k_pt k') r /\ leaves_live k' r /\
      (forall p j, (length p <= 3)%nat -> pentry (tabs (k_pt k')) r p j = pentry (tabs (k_pt k)) r p j) /\
      forall x, is_user x -> user_byte k' r x = user_byte k r x.
Proof.
  intros Ho Hc Href _ Hown Hnb. destruct (drop_ref_last a own pcids k Ho Hc Href Hown Hnb) as (a' & k' & E & Hd).
  exists a', (PcidAllocator_free pcids {| pcid_id := as_pcid a; pcid_generation := 0 |}), k'. split_and!; [done|done|].
  intros r Hr. eapply dropped_keeps; [apply Ho|exact Hd|exact Hr].
Qed.

(** ** A child that forks and exits *)

(** [AddressSpace::alloc_shared]: the space moves to a frame of its own. *)
Definition alloc_shared (value : AddressSpace) k : outcome (Z * kstate A V) := k_alloc_frame k.

Lemma shares_other l f : forall t, cow_ok t -> f ∉ l -> cow_refcount (foldl cow_share t l) f = cow_refcount t f.
Proof.
  induction l as [|g l IH]; intros t Ht Hf; cbn [foldl]; [done|]. apply not_elem_of_cons in Hf as [Hne Hf]. destruct (cow_share_spec t g Ht) as (Ht' & Ho & _).
  rewrite IH by done. by apply Ho.
Qed.

(** The conditions under which a fork can be undone: the pages are in use, none is mapped
    twice or shared with a file, and free frames are frames. *)
Record plain_space k (a : AddressSpace) : Prop := {
  pl_wf : space_wf (k_pt k) (as_pml4_phys a);
  pl_live : leaves_live k (as_pml4_phys a);
  pl_cow : cow_ok (k_cow k);
  pl_once w w' e e' : is_user w -> is_user w' -> k_uleaf k (as_pml4_phys a) w = Some e -> k_uleaf k (as_pml4_phys a) w' = Some e' ->
    PageTableEntry_frame e = PageTableEntry_frame e' -> vpage w = vpage w';
  pl_private : private_pages k a;
  pl_frames f : f ∈ k_free k -> f mod 4096 = 0 /\ 0 < f < 2 ^ 44
}.

(** Every claim fork makes has been recorded. *)
Definition recorded k (parent : AddressSpace) k1 : Prop := forall w e, is_user w -> k_uleaf k (as_pml4_phys parent) w = Some e ->
  cow_refcount (k_cow k1) (PageTableEntry_frame e) = cow_refcount (k_cow k) (PageTableEntry_frame e) + 1.

(** The child's leaves are the parent's, copy-on-write and claimed. *)
Lemma forked_leaf parent child k k1 w e' : plain_space k parent -> fork_result parent child k k1 -> recorded k parent k1 -> is_user w ->
  k_uleaf k1 (as_pml4_phys child) w = Some e' -> exists e, k_uleaf k (as_pml4_phys parent) w = Some e /\
    PageTableEntry_frame e' = PageTableEntry_frame e /\ is_cow e' = true /\ 2 <= cow_refcount (k_cow k1) (PageTableEntry_frame e').
Proof.
  intros Hp Hf Hr Hw. rewrite (fr_child _ _ _ _ Hf w Hw). destruct (k_uleaf k (as_pml4_phys parent) w) as [e|] eqn:E; cbn; [|done]. intros [= <-]. exists e.
  destruct (pl_live _ _ Hp w e Hw E) as [He _]. destruct (fork_entry_frame parent (page_addr (vpage w)) e He) as [-> _].
  destruct (fork_entry_private parent _ e He (pl_private _ _ Hp w e Hw E)) as (_ & Hc & _). split_and!; [done..|]. rewrite (Hr w e Hw E).
  destruct (cow_bucket_ok (k_cow k) (PageTableEntry_frame e) (pl_cow _ _ Hp)) as [_ Hb]. pose proof (bucket_refcount_range (PageTableEntry_frame e) _ Hb). unfold cow_refcount. lia.
Qed.

Section Undo.
Variables (parent child : AddressSpace) (k k1 k2 : kstate A V) (own : Z).
Hypothesis Hp : plain_space k parent.
Hypothesis Hf : fork_result parent child k k1.
Hypothesis Hr : recorded k parent k1.
Hypothesis Ha : alloc_shared child k1 = Done (own, k2).
Notation pr := (as_pml4_phys parent).
Notation cr := (as_pml4_phys child).

Lemma undo_alloc : two_spaces (k_pt k2) cr pr /\ own ∈ k_free k1 /\ k_free k2 = k_free k1 ∖ {[own]} /\ tabs (k_pt k2) = tabs (k_pt k1) /\
  k_mem k2 = k_mem k1 /\ k_cow k2 = k_cow k1.
Proof.
  pose proof (two_spaces_sym _ _ _ (fr_spaces _ _ _ _ Hf)) as Ht. pose proof (k_alloc_frame_spec k1 cr (ts_one _ _ _ Ht)) as Hal. unfold alloc_shared in Ha. rewrite Ha in Hal.
  destruct Hal as (Hs & Hin & Hfr & _ & _ & Htb & Hm & Hc & _). split_and!; try done.
  apply (two_spaces_step _ _ _ _ Ht); [|done]. apply owned_tabs; [done|]. change (k_free k2 ⊆ k_free k1). rewrite Hfr. set_solver.
Qed.

Lemma undo_free f : f ∈ k_free k1 -> f ∈ k_free k.
Proof. intros Hin. apply (fr_frames _ _ _ _ Hf). by left. Qed.

Lemma undo_table g : utable (tabs (k_pt k2)) cr g <-> g ∈ k_free k /\ g ∉ k_free k1.
Proof.
  destruct undo_alloc as (_ & _ & _ & -> & _). rewrite (fr_frames _ _ _ _ Hf g). split; [|tauto]. intros Hu. split; [by right|].
  destruct Hu as (p & Hl & _ & Hw). by apply (wf_live _ _ (sw_wf _ _ (ts_two _ _ _ (fr_spaces _ _ _ _ Hf))) p g Hl Hw).
Qed.

Lemma undo_leaf w e' : is_user w -> k_uleaf k2 cr w = Some e' -> exists e, k_uleaf k pr w = Some e /\
  PageTableEntry_frame e' = PageTableEntry_frame e /\ is_cow e' = true /\ 2 <= cow_refcount (k_cow k2) (PageTableEntry_frame e') /\ PageTableEntry_frame e' ∉ k_free k.
Proof.
  intros Hw He. destruct undo_alloc as (_ & _ & _ & Ht & _ & Hc). unfold k_uleaf in He. rewrite Ht in He. rewrite Hc.
  destruct (forked_leaf parent child k k1 w e' Hp Hf Hr Hw He) as (e & E & E1 & E2 & E3). exists e. split_and!; [done..|]. rewrite E1. by apply (pl_live _ _ Hp w).
Qed.

Lemma undo_not_freed w e' : is_user w -> k_uleaf k2 cr w = Some e' -> ~ item_freed k2 (Leaf e').
Proof. intros Hw He. destruct (undo_leaf w e' Hw He) as (e & _ & _ & Hc & H2 & _). cbn. intros [?|?]; [congruence|lia]. Qed.

Lemma undo_back g : gives_back k2 cr g <-> g ∈ k_free k /\ g ∉ k_free k1.
Proof.
  unfold gives_back. rewrite undo_table. split; [|by left]. intros [?|(w & e & Hw & He & Hfr & _)]; [done|]. by destruct (undo_not_freed w e Hw He).
Qed.

Lemma undo_owned : owned_space k2 cr.
Proof.
  destruct undo_alloc as (Ht & Hown & Hfr & Htb & _ & _). constructor.
  - apply Ht.
  - intros g [Hin _]%undo_table. by apply (pl_frames _ _ Hp).
  - intros w e Hw He Hfd. by destruct (undo_not_freed w e Hw He).
  - intros w w' e e' Hw Hw' He He' E. destruct (undo_leaf w e Hw He) as (x & Ex & Fx & _), (undo_leaf w' e' Hw' He') as (y & Ey & Fy & _).
    apply (pl_once _ _ Hp w w' x y); [done..|congruence].
  - intros w e Hw He [Hin _]%undo_table. by destruct (undo_leaf w e Hw He) as (x & _ & _ & _ & _ & Hn).
Qed.

Lemma undo_keeps : keeps k2 cr own pr.
Proof.
  destruct undo_alloc as (Ht & Hown & Hfr & Htb & _ & _). destruct (fork_result_live parent child k k1 Hf (pl_live _ _ Hp)) as [Lp _].
  assert (forall f, gives_back k2 cr f \/ f = own -> f ∈ k_free k) as Hin.
  { intros f [Hb%undo_back| ->]; [tauto|by apply undo_free]. }
  assert (leaves_live k2 pr) as L2.
  { intros w e Hw He. unfold k_uleaf in He. rewrite Htb in He. destruct (Lp w e Hw He) as [? Hn]. split; [done|]. rewrite Hfr. set_solver. }
  constructor; [done|done| |].
  - intros f Hb (p & Hl & Hw). destruct Hb as [Hb| ->].
    + apply undo_back, undo_table in Hb. apply (ts_apart _ _ _ Ht f Hb). by exists p.
    + rewrite Htb in Hw. by apply (wf_live _ _ (sw_wf _ _ (ts_one _ _ _ (fr_spaces _ _ _ _ Hf))) p own Hl Hw).
  - intros f w e Hb Hw He E. apply Hin in Hb. unfold k_uleaf in He. rewrite Htb in He. change (k_uleaf k1 pr w = Some e) in He. rewrite (fr_parent _ _ _ _ Hf w Hw) in He.
    destruct (k_uleaf k pr w) as [e0|] eqn:E0; cbn in He; [|done]. injection He as <-. destruct (pl_live _ _ Hp w e0 Hw E0) as [Hpos Hn].
    destruct (fork_entry_frame parent (page_addr (vpage w)) e0 Hpos) as [_ F2]. rewrite F2 in E. by subst f.
Qed.
End Undo.

(** The claims are those of before the fork. *)
Lemma undo_claims parent child k k1 k2 k3 own : plain_space k parent -> fork_result parent child k k1 -> recorded k parent k1 -> alloc_shared child k1 = Done (own, k2) ->
  dropped child own k2 k3 -> forall f, cow_refcount (k_cow k3) f = cow_refcount (k_cow k) f.
Proof.
  intros Hp Hf Hr Ha Hd f. destruct (undo_alloc parent child k k1 k2 own Hp Hf Hr Ha) as (_ & _ & _ & Htb & _ & Hc).
  assert (forall w, is_user w -> k_uleaf k2 (as_pml4_phys child) w = child_entry parent (page_addr (vpage w)) <$> k_uleaf k (as_pml4_phys parent) w) as Hul.
  { intros w Hw. unfold k_uleaf at 1. rewrite Htb. apply (fr_child _ _ _ _ Hf w Hw). }
  destruct (decide (f ∈ omap (private_frame k parent) (seqZ 0 (2 ^ 35)))) as [Hin|Hin].
  - apply list_elem_of_omap in Hin as (pg & Hpg%elem_of_seqZ & Hpf). unfold private_frame in Hpf.
    destruct (k_uleaf k (as_pml4_phys parent) (page_addr pg)) as [e|] eqn:E; [|discriminate Hpf]. cbn in Hpf. destruct (shared_file parent (page_addr pg)) eqn:Hsf; [discriminate Hpf|].
    injection Hpf as Hpf. assert (vpage (page_addr pg) = pg) as Hvp by (apply vpage_addr; lia). assert (is_user (page_addr pg)) as Hu by (apply is_user_page; lia).
    destruct (pl_live _ _ Hp _ e Hu E) as [He _]. destruct (fork_entry_frame parent (page_addr pg) e He) as [F1 _]. destruct (fork_entry_private parent _ e He Hsf) as (_ & Hcw & _).
    pose proof (dr_claim _ _ _ _ Hd (page_addr pg) (child_entry parent (page_addr pg) e) Hu) as Hcl. rewrite Hul, E, Hvp in Hcl by exact Hu. specialize (Hcl eq_refl Hcw).
    rewrite F1, Hpf, Hc in Hcl. pose proof (Hr (page_addr pg) e Hu E) as Hre. rewrite Hpf in Hre. rewrite Hre in Hcl.
    destruct (cow_bucket_ok (k_cow k) f (pl_cow _ _ Hp)) as [_ Hb]. pose proof (bucket_refcount_range f _ Hb) as Hrg. fold (cow_refcount (k_cow k) f) in Hrg. lia.
  - rewrite (dr_claims _ _ _ _ Hd), Hc, (fr_claims _ _ _ _ Hf); [exact (shares_other _ f (k_cow k) (pl_cow _ _ Hp) Hin)|].
    intros w e Hw He _ Ef. apply Hin. apply list_elem_of_omap. exists (vpage w). rewrite Hul in He by exact Hw.
    destruct (k_uleaf k (as_pml4_phys parent) w) as [e0|] eqn:E; [|discriminate He]. injection He as He. pose proof (proj1 (is_user_page w) Hw) as Hlt. pose proof (vpage_range w) as Hge.
    split; [apply elem_of_seqZ; lia|]. destruct (pl_live _ _ Hp w e0 Hw E) as [Hpos _]. destruct (fork_entry_frame parent (page_addr (vpage w)) e0 Hpos) as [F1 _]. rewrite He, Ef in F1.
    unfold private_frame. rewrite (uleaf_vpage_k k _ (page_addr (vpage w)) w) by (rewrite vpage_addr; lia). rewrite E. cbn. rewrite (pl_private _ _ Hp w e0 Hw E), F1. reflexivity.
Qed.

(** C10: a child that exits gives back what fork took, for a process whose pages are
    private (none of a shared file mapping), mapped once and in use, and if the share table
    had room to record the claim of every page.  After forking it, giving the child's space
    its frame and dropping it, the teardown succeeds and the free
    frames are the ones there were before the fork, every frame has as many claims as
    before, and the parent's space is well formed, its pages are in use and read as
    before. *)
Theorem fork_exit_restores pcid_enabled pcids parent k : plain_space k parent -> (pcid_enabled = true -> PcidAllocator_alloc pcids <> None) ->
  match fork_cow (as_pml4_phys parent) pcid_enabled pcids parent k with
  | Done (child, pcids1, k1) => recorded k parent k1 ->
      match alloc_shared child k1 with
      | Done (own, k2) => exists a' pcids2 k3, drop_ref child own pcids1 k2 = Done (true, a', pcids2, k3) /\
          k_free k3 = k_free k /\ (forall f, cow_refcount (k_cow k3) f = cow_refcount (k_cow k) f) /\
          space_wf (k_pt k3) (as_pml4_phys parent) /\ leaves_live k3 (as_pml4_phys parent) /\
          forall x, is_user x -> user_byte k3 (as_pml4_phys parent) x = user_byte k (as_pml4_phys parent) x
      | Panic => k_free k1 = ∅
      end
  | Panic => (size (k_free k) < 1 + 3 * mapped_pages k parent (2 ^ 35))%nat
  end.
Proof.
  intros Hp Hpc. pose proof (fork_cow_result pcid_enabled pcids parent k (pl_wf _ _ Hp) ltac:(intros w e Hw He; by apply (pl_live _ _ Hp w)) Hpc) as Hf.
  destruct (fork_cow (as_pml4_phys parent) pcid_enabled pcids parent k) as [[[child pcids1] k1]|]; [|exact Hf]. intros Hr.
  pose proof (k_alloc_frame_spec k1 _ (ts_one _ _ _ (fr_spaces _ _ _ _ Hf))) as Hal.
  destruct (alloc_shared child k1) as [[own k2]|] eqn:Ha; unfold alloc_shared in Ha; rewrite Ha in Hal; [|exact Hal].
  destruct (undo_alloc parent child k k1 k2 own Hp Hf Hr Ha) as (Ht & Hown & Hfr & Htb & Hm & Hc). destruct Hal as (_ & _ & _ & Hoal & Hor & _).
  pose proof (undo_back parent child k k1 k2 own Hp Hf Hr Ha) as Hb. pose proof (undo_owned parent child k k1 k2 own Hp Hf Hr Ha) as Ho.
  assert (cow_ok (k_cow k2)) as Hc2 by (rewrite Hc, (fr_claims _ _ _ _ Hf); apply cow_shares_ok, (pl_cow _ _ Hp)).
  destruct (drop_ref_last child own pcids1 k2 Ho Hc2) as (a' & k3 & E & Hd).
  { apply (fr_fields _ _ _ _ Hf). }
  { split; [rewrite Hfr; set_solver|done]. }
  { rewrite Hb. intros [_ Hn]. done. }
  destruct (dropped_keeps child own k2 k3 (as_pml4_phys parent) (ts_one _ _ _ Ht) Hd (undo_keeps parent child k k1 k2 own Hp Hf Hr Ha)) as (K1 & K2 & _ & K4).
  eexists a', _, k3. split_and!; [exact E| | |exact K1|exact K2|].
  - clear -Hd Hfr Hown Hb Hf. apply set_eq. intros f. rewrite (dr_free _ _ _ _ Hd f), Hb, Hfr, elem_of_difference, elem_of_singleton.
    assert (f ∈ k_free k1 -> f ∈ k_free k) as Hsub by (intros Hin; apply (fr_frames _ _ _ _ Hf); by left).
    destruct (decide (f = own)) as [->|]; [|destruct (decide (f ∈ k_free k1)); tauto]. split; [intros _; by apply Hsub|tauto].
  - exact (undo_claims parent child k k1 k2 k3 own Hp Hf Hr Ha Hd).
  - intros x Hx. rewrite (K4 x Hx). destruct (fork_result_bytes parent child k k1 (pl_wf _ _ Hp) Hf (pl_live _ _ Hp) x Hx) as [B _]. rewrite <- B.
    unfold user_byte, translate, read_table, page_of. rewrite Htb, Hm. reflexivity.
Qed.

End Release.

(** ** Examples: the one-page process over the buddy allocator *)

Section GiveAll.
Context {A : Type} `{FrameReturnLaws A}.

(** Frames given to an allocator one by one. *)
Definition give_all (al : A) (l : list Z) : A := foldl (fun a f => match fa_free_frame a f with Done a' => a' | Panic => a end) al l.

Lemma give_all_spec l : forall al : A, fa_ok al -> NoDup l -> Forall (fun f => f ∉ fa_free al /\ f mod 4096 = 0 /\ 0 < f < 2 ^ 44) l ->
  fa_ok (give_all al l) /\ fa_free (give_all al l) = list_to_set l ∪ fa_free al.
Proof.
  induction l as [|f l IH]; intros al Hok Hnd Hall; cbn [give_all foldl]; [split; [done|]; set_solver|].
  apply NoDup_cons in Hnd as [Hnf Hnd]. apply Forall_cons in Hall as [(Hf & Hal & Hr) Hall].
  destruct (fa_free_frame_spec al f Hok Hf Hal Hr) as (a' & -> & Hok' & Hfr). destruct (IH a' Hok' Hnd) as [G1 G2].
  - rewrite Forall_forall in *. intros g Hg. destruct (Hall g Hg) as (? & ? & ?). rewrite Hfr. split_and!; [|done|lia|lia]. set_solver.
  - split; [exact G1|]. fold (give_all a' l). rewrite G2, Hfr. cbn. set_solver.
Qed.
End GiveAll.

(** Thirty frames from 0x2000. *)
Definition thirty : list Z := (fun n => n * 4096) <$> seqZ 2 30.

Definition empty_buddy : NumaBuddy * fmem :=
  ({| nodes := Some (BuddyNode_new 0) :: replicate 7 None; node_count := 1; direct_map_base := 0xFFFF800000000000 |}, ∅).

Definition demo_buddy : NumaBuddy * fmem := give_all empty_buddy thirty.

Lemma demo_buddy_ok : fa_ok demo_buddy /\ fa_free demo_buddy = list_to_set thirty.
Proof.
  assert (fa_ok empty_buddy) as Hok.
  { exists (replicate 11 []). eexists. split; [|reflexivity]. constructor; [done|apply nrep_new|]. rewrite frames_nil; [done|by apply Forall_replicate]. }
  assert (fa_free empty_buddy = ∅) as He by (vm_compute; reflexivity).
  destruct (give_all_spec thirty empty_buddy Hok) as [G1 G2].
  - apply (bool_decide_unpack _). vm_compute. exact I.
  - rewrite He. apply Forall_forall. intros f (n & -> & Hn%elem_of_seqZ)%list_elem_of_fmap. split_and!; [set_solver|apply Z.mod_mul; lia|lia|lia].
  - split; [exact G1|]. unfold demo_buddy. rewrite G2, He. apply union_empty_r_L.
Qed.

Lemma demo_buddy_page : fa_ok demo_buddy /\ 0x1000 ∉ fa_free demo_buddy /\ 0x200000 ∉ fa_free demo_buddy /\ (3 <= size (fa_free demo_buddy))%nat /\
  forall f, f ∈ fa_free demo_buddy -> f mod 4096 = 0 /\ 0x2000 <= f < 0x20000.
Proof.
  destruct demo_buddy_ok as [Hok ->].
  assert (forall f, f ∈ (list_to_set thirty : gset Z) -> f mod 4096 = 0 /\ 0x2000 <= f < 0x20000) as Hf.
  { intros f (n & -> & Hn%elem_of_seqZ)%elem_of_list_to_set%list_elem_of_fmap. split; [apply Z.mod_mul; lia|lia]. }
  split_and!; [done|intros ?%Hf; lia|intros ?%Hf; lia|apply Nat.leb_le; vm_compute; reflexivity|done].
Qed.

Definition buddy_kernel : kstate (NumaBuddy * fmem) unit := one_page demo_buddy.

Lemma buddy_kernel_plain : plain_space buddy_kernel empty_space.
Proof.
  destruct demo_buddy_page as (A1 & A2 & A3 & A4 & A5). destruct (one_page_ok _ A1 A2 A3 A4) as (Hs & Hl & Hm & Hu & Hsub & _).
  constructor; [exact Hs|exact Hl|apply cow_table_ok|..].
  - intros w w' e e' Hw Hw' He He' _. change (as_pml4_phys empty_space) with 0x1000 in *. unfold buddy_kernel in *. rewrite Hu in He, He' by done. do 2 case_decide; try discriminate; congruence.
  - intros w e Hw He. change (as_pml4_phys empty_space) with 0x1000 in *. unfold buddy_kernel in *. rewrite Hu in He by done. case_decide as E; [|done]. rewrite E. vm_compute. reflexivity.
  - intros f Hf%Hsub%A5. split; [apply Hf|lia].
Qed.

Lemma fork_exit_restores_witness :
  match fork_cow 0x1000 false PcidAllocator_new empty_space buddy_kernel with
  | Done (child, pcids1, k1) =>
      match alloc_shared child k1 with
      | Done (own, k2) => exists a' pcids2 k3, drop_ref child own pcids1 k2 = Done (true, a', pcids2, k3) /\ k_free k3 = k_free buddy_kernel
      | Panic => False
      end
  | Panic => False
  end.
Proof.
  destruct demo_buddy_page as (A1 & A2 & A3 & A4 & A5). destruct (one_page_ok _ A1 A2 A3 A4) as (_ & _ & _ & Hu & _ & _).
  assert (match fork_cow 0x1000 false PcidAllocator_new empty_space buddy_kernel with
    | Done (child, _, k1) => (cow_refcount (k_cow k1) 0x200000 =? 2) && negb (bool_decide (k_free k1 = ∅)) | Panic => false end = true) as Hd by (vm_compute; reflexivity).
  pose proof (fork_exit_restores false PcidAllocator_new empty_space buddy_kernel buddy_kernel_plain ltac:(discriminate)) as Hf.
  change (as_pml4_phys empty_space) with 0x1000 in Hf.
  destruct (fork_cow 0x1000 false PcidAllocator_new empty_space buddy_kernel) as [[[child pcids1] k1]|]; [|discriminate Hd].
  apply andb_true_iff in Hd as [H2 He]. apply Z.eqb_eq in H2. apply negb_true_iff, bool_decide_eq_false in He.
  assert (recorded buddy_kernel empty_space k1) as Hr.
  { intros w e Hw Hwe. change (as_pml4_phys empty_space) with 0x1000 in Hwe. unfold buddy_kernel in Hwe. rewrite Hu in Hwe by exact Hw. case_decide; [|discriminate Hwe].
    injection Hwe as <-. rewrite (proj1 one_entry_frame), H2. vm_compute. reflexivity. }
  specialize (Hf Hr). destruct (alloc_shared child k1) as [[own k2]|]; [|by apply He].
  destruct Hf as (a' & pcids2 & k3 & E & Hfr & _). exists a', pcids2, k3. split; [exact E|exact Hfr].
Defined.

(** The process itself exits; its [AddressSpace] is at 0x300000. *)
Lemma drop_ref_exact_witness : exists a' pcids' k', drop_ref empty_space 0x300000 PcidAllocator_new buddy_kernel = Done (true, a', pcids', k') /\
  0x200000 ∈ k_free k' /\ 0x1000 ∈ k_free k' /\ 0x300000 ∈ k_free k'.
Proof.
  destruct demo_buddy_page as (A1 & A2 & A3 & A4 & A5). destruct (one_page_ok _ A1 A2 A3 A4) as (Hs & Hl & Hm & Hu & Hsub & Ht). fold buddy_kernel in *.
  assert (forall w e, is_user w -> k_uleaf buddy_kernel 0x1000 w = Some e -> e = one_entry /\ PageTableEntry_frame e = 0x200000) as Hone.
  { intros w e Hw He. rewrite Hu in He by exact Hw. case_decide; [|done]. injection He as <-. split; [done|apply one_entry_frame]. }
  assert (forall g, utable (tabs (k_pt buddy_kernel)) 0x1000 g -> g mod 4096 = 0 /\ 0 < g < 0x20000) as Htab.
  { intros g [->|Hin%A5]%Ht; [done|]. split; [apply Hin|lia]. }
  assert (owned_space buddy_kernel 0x1000) as Ho.
  { constructor; [exact Hs|intros g Hg%Htab; split; [apply Hg|lia]|..].
    - intros w e Hw He _. destruct (Hone w e Hw He) as [-> Hf]. destruct (Hl w _ Hw He) as [_ Hn]. rewrite Hf in Hn |- *. split_and!; [exact Hn|reflexivity|lia|lia].
    - intros w w' e e' Hw Hw' He He' _. rewrite Hu in He, He' by done. do 2 case_decide; try discriminate; congruence.
    - intros w e Hw He Hut%Htab. destruct (Hone w e Hw He) as [_ Hf]. rewrite Hf in Hut. lia. }
  destruct (drop_ref_exact empty_space 0x300000 PcidAllocator_new buddy_kernel Ho cow_table_ok eq_refl ltac:(intros w e _ _; reflexivity)) as (a' & pcids' & k' & E & Hd & _).
  - split_and!; [|reflexivity|lia|lia]. intros Hin%Hsub%A5. lia.
  - intros [Hut%Htab|(w & e & Hw & He & _ & Hf)]; [lia|]. destruct (Hone w e Hw He) as [_ Hf']. rewrite Hf' in Hf. discriminate Hf.
  - exists a', pcids', k'. split; [exact E|]. rewrite !(dr_free _ _ _ _ Hd). split_and!; right; [left; right|left; left; exists []; split_and!; [cbn; lia|exact I|reflexivity]|right; reflexivity].
    assert (is_user 0x400000) as Hus by (apply is_user_low; lia). exists 0x400000, one_entry. split_and!; [exact Hus|exact (Hu 0x400000 Hus)|left; vm_compute; reflexivity|apply one_entry_frame].
Defined.
