(* ===== verification/Spsc.v ===== *)
(** * The single-producer single-consumer ring

    [SpscRing] of crates/ipc/src/spsc.rs.  Producer and consumer run on different
    processors; each shared access (a load or store of [head] or [tail], a slot) is
    one step, so every interleaving is covered.  The counters are 64-bit and wrap
    around; the capacity is a power of two.  Reading a slot that was never written is
    the undefined behaviour the code must avoid: the step is then not possible, and
    the theorem shows that this does not happen. *)

From Stdlib Require Import ZArith Lia.
From stdpp Require Import prelude list relations.
From S2P Require Import Prelude.

Local Open Scope Z_scope.

(** Between the accesses of [push] and [pop]. *)
Inductive push_pc := PushIdle | PushTail (value tail : Z) | PushWrite (value tail : Z) | PushStore (value tail : Z).
Inductive pop_pc := PopIdle | PopHead (head : Z) | PopRead (head : Z) | PopStore (value head : Z).

(** [sr_pushed] and [sr_popped] record the values for which [push] returned Ok and
    those [pop] returned. *)
Record SpscRing := {
  sr_head : Z;
  sr_tail : Z;
  sr_slots : list (option Z);
  sr_push : push_pc;
  sr_pop : pop_pc;
  sr_pushed : list Z;
  sr_popped : list Z
}.

Section Ring.
(** The capacity is [2^b]. *)
Context (b : Z).

Definition capacity : Z := 2 ^ b.

Definition SpscRing_new : SpscRing :=
  {| sr_head := 0; sr_tail := 0; sr_slots := replicate (Z.to_nat capacity) None; sr_push := PushIdle; sr_pop := PopIdle;
     sr_pushed := []; sr_popped := [] |}.

Definition set_push (r : SpscRing) (pc : push_pc) : SpscRing :=
  {| sr_head := sr_head r; sr_tail := sr_tail r; sr_slots := sr_slots r; sr_push := pc; sr_pop := sr_pop r;
     sr_pushed := sr_pushed r; sr_popped := sr_popped r |}.

Definition set_pop (r : SpscRing) (pc : pop_pc) : SpscRing :=
  {| sr_head := sr_head r; sr_tail := sr_tail r; sr_slots := sr_slots r; sr_push := sr_push r; sr_pop := pc;
     sr_pushed := sr_pushed r; sr_popped := sr_popped r |}.

Definition slot_index (pos : Z) : nat := Z.to_nat (Z.land pos (capacity - 1)).

(** The next access of [push(value)]. *)
Definition push_step (value : Z) (r : SpscRing) : SpscRing :=
  match sr_push r with
  | PushIdle => set_push r (PushTail value (sr_tail r))
  | PushTail v tail => if wrap64 (tail - sr_head r) =? capacity then set_push r PushIdle else set_push r (PushWrite v tail)
  | PushWrite v tail =>
      set_push {| sr_head := sr_head r; sr_tail := sr_tail r; sr_slots := <[slot_index tail := Some v]> (sr_slots r); sr_push := sr_push r;
                  sr_pop := sr_pop r; sr_pushed := sr_pushed r; sr_popped := sr_popped r |} (PushStore v tail)
  | PushStore v tail =>
      {| sr_head := sr_head r; sr_tail := wrap64 (tail + 1); sr_slots := sr_slots r; sr_push := PushIdle; sr_pop := sr_pop r;
         sr_pushed := sr_pushed r ++ [v]; sr_popped := sr_popped r |}
  end.

(** The next access of [pop()]; none when the slot is not initialised. *)
Definition pop_step (r : SpscRing) : option SpscRing :=
  match sr_pop r with
  | PopIdle => Some (set_pop r (PopHead (sr_head r)))
  | PopHead head => Some (if head =? sr_tail r then set_pop r PopIdle else set_pop r (PopRead head))
  | PopRead head => v ← mjoin (sr_slots r !! slot_index head); Some (set_pop r (PopStore v head))
  | PopStore v head =>
      Some {| sr_head := wrap64 (head + 1); sr_tail := sr_tail r; sr_slots := sr_slots r; sr_push := sr_push r; sr_pop := PopIdle;
              sr_pushed := sr_pushed r; sr_popped := sr_popped r ++ [v] |}
  end.

Inductive ring_step : SpscRing -> SpscRing -> Prop :=
| ring_push v r : ring_step r (push_step v r)
| ring_pop r r' : pop_step r = Some r' -> ring_step r r'.

(** ** Counters without wrap-around *)

Definition npush (r : SpscRing) : Z := Z.of_nat (length (sr_pushed r)).
Definition npop (r : SpscRing) : Z := Z.of_nat (length (sr_popped r)).

Definition slot_of (pos : Z) : nat := Z.to_nat (pos mod capacity).

Record ring_ok (r : SpscRing) : Prop := {
  ro_tail : sr_tail r = wrap64 (npush r);
  ro_head : sr_head r = wrap64 (npop r);
  ro_room : npop r <= npush r <= npop r + capacity;
  ro_slots : length (sr_slots r) = Z.to_nat capacity;
  ro_data : forall i, npop r <= i < npush r -> sr_slots r !! slot_of i = Some (sr_pushed r !! Z.to_nat i);
  ro_prefix : sr_popped r = take (length (sr_popped r)) (sr_pushed r);
  ro_push : match sr_push r with
    | PushIdle => True
    | PushTail _ t => t = sr_tail r
    | PushWrite _ t => t = sr_tail r /\ npush r < npop r + capacity
    | PushStore v t => t = sr_tail r /\ npush r < npop r + capacity /\ sr_slots r !! slot_of (npush r) = Some (Some v)
    end;
  ro_pop : match sr_pop r with
    | PopIdle => True
    | PopHead h => h = sr_head r
    | PopRead h => h = sr_head r /\ npop r < npush r
    | PopStore v h => h = sr_head r /\ npop r < npush r /\ sr_pushed r !! Z.to_nat (npop r) = Some v
    end
}.

Context (Hb : 0 <= b <= 63).

Lemma capacity_pos : 0 < capacity.
Proof. unfold capacity. apply Z.pow_pos_nonneg; lia. Qed.

Lemma capacity_le : capacity <= 2 ^ 63.
Proof. unfold capacity. apply Z.pow_le_mono_r; lia. Qed.

(** The index of a wrapped position. *)
Lemma slot_index_wrap i : slot_index (wrap64 i) = slot_of i.
Proof.
  unfold slot_index, slot_of, wrap64, wrapw. f_equal. unfold capacity. replace (2 ^ b - 1) with (Z.ones b) by (rewrite Z.ones_equiv; lia).
  rewrite Z.land_ones by lia. symmetry. apply Znumtheory.Zmod_div_mod; [lia|lia|]. exists (2 ^ (64 - b)). rewrite <- Z.pow_add_r by lia. f_equal. lia.
Qed.

(** Wrapped positions that are close differ. *)
Lemma wrap_distance a c : 0 <= a - c <= 2 ^ 63 -> wrap64 (wrap64 a - wrap64 c) = a - c.
Proof. intros Hd. rewrite wrap64_sub_l, wrap64_sub_r. apply wrap64_small. unfold is_u64. lia. Qed.

Lemma slot_of_inj i j : Z.abs (i - j) < capacity -> slot_of i = slot_of j -> i = j.
Proof.
  pose proof capacity_pos as Hc. intros Hd E. unfold slot_of in E.
  pose proof (Z.mod_pos_bound i capacity Hc). pose proof (Z.mod_pos_bound j capacity Hc).
  assert (i mod capacity = j mod capacity) as Em by lia. clear E.
  pose proof (Z.div_mod i capacity ltac:(lia)). pose proof (Z.div_mod j capacity ltac:(lia)).
  assert (i - j = capacity * (i / capacity - j / capacity)) by lia. assert (i / capacity - j / capacity = 0) by nia. nia.
Qed.

Lemma slot_of_lt i : (slot_of i < Z.to_nat capacity)%nat.
Proof. pose proof capacity_pos as Hc. unfold slot_of. pose proof (Z.mod_pos_bound i capacity Hc). lia. Qed.

Lemma ring_new_ok : ring_ok SpscRing_new.
Proof.
  pose proof capacity_pos. constructor; cbn [SpscRing_new sr_head sr_tail sr_slots sr_push sr_pop sr_pushed sr_popped]; try done.
  - unfold npop, npush. cbn. lia.
  - apply length_replicate.
  - unfold npop, npush. cbn. lia.
Qed.

Lemma push_step_ok v r : ring_ok r -> ring_ok (push_step v r).
Proof.
  intros H. destruct H as [Ht Hh Hr Hl Hd Hp Hpu Hpo]. unfold push_step. pose proof capacity_pos. pose proof capacity_le.
  destruct (sr_push r) as [|x t|x t|x t] eqn:E.
  - by constructor.
  - destruct (Z.eqb_spec (wrap64 (t - sr_head r)) capacity) as [|Hne]; constructor; try done. cbn. split; [done|].
    assert (npush r - npop r <> capacity); [|unfold npush, npop in *; cbn in *; lia].
    rewrite Hpu, Ht, Hh, wrap_distance in Hne by lia. done.
  - destruct Hpu as [-> Hroom]. rewrite Ht, slot_index_wrap.
    assert (forall i, npop r <= i < npush r -> <[slot_of (npush r) := Some x]> (sr_slots r) !! slot_of i = Some (sr_pushed r !! Z.to_nat i)) as Hkeep.
    { intros i Hi. rewrite list_lookup_insert_ne; [by apply Hd|]. intros Es. apply slot_of_inj in Es; lia. }
    constructor; cbn; try done.
    + by rewrite length_insert.
    + repeat split; try done. apply list_lookup_insert_eq. rewrite Hl. apply slot_of_lt.
  - destruct Hpu as (-> & Hroom & Hs).
    assert (npush r = Z.of_nat (length (sr_pushed r))) as En by done. set (P := npush r) in *.
    constructor; unfold npush, npop in *; cbn [sr_head sr_tail sr_slots sr_push sr_pop sr_pushed sr_popped]; try rewrite length_app; cbn [length]; try done.
    + rewrite Ht, wrap64_add_l. f_equal. lia.
    + lia.
    + intros i Hi. destruct (decide (i = P)) as [->|].
      * rewrite Hs, En, Nat2Z.id, lookup_app_r, Nat.sub_diag by lia. done.
      * rewrite Hd by lia. rewrite lookup_app_l by lia. done.
    + rewrite take_app_le by lia. done.
    + destruct (sr_pop r) as [|h|h|y h]; try done.
      * destruct Hpo. split; [done|lia].
      * destruct Hpo as (? & ? & Hy). repeat split; [done|lia|]. by apply lookup_app_l_Some.
Qed.

Lemma pop_step_ok r r' : ring_ok r -> pop_step r = Some r' -> ring_ok r'.
Proof.
  intros H. destruct H as [Ht Hh Hr Hl Hd Hp Hpu Hpo]. unfold pop_step. pose proof capacity_pos. pose proof capacity_le.
  destruct (sr_pop r) as [|h|h|y h] eqn:E.
  - intros [= <-]. by constructor.
  - intros [= <-]. destruct (Z.eqb_spec h (sr_tail r)) as [|Hne]; constructor; try done. cbn. split; [done|].
    assert (npop r <> npush r); [|unfold npush, npop in *; cbn in *; lia]. congruence.
  - destruct Hpo as [-> Hlt]. rewrite Hh, slot_index_wrap, Hd by lia. cbn.
    destruct (sr_pushed r !! Z.to_nat (npop r)) as [v|] eqn:Ev; [|done]. intros [= <-]. by constructor.
  - destruct Hpo as (-> & Hlt & Hv). intros [= <-].
    assert (npop r = Z.of_nat (length (sr_popped r))) as En by done. set (C := npop r) in *.
    constructor; unfold npush, npop in *; cbn [sr_head sr_tail sr_slots sr_push sr_pop sr_pushed sr_popped]; try rewrite length_app; cbn [length]; try done.
    + rewrite Hh, wrap64_add_l. f_equal. lia.
    + lia.
    + intros i Hi. apply Hd. lia.
    + rewrite Nat.add_1_r. rewrite (take_S_r _ _ y), <- Hp; [done|]. rewrite <- Hv. f_equal. lia.
    + destruct (sr_push r) as [|? t|? t|? t]; try done; [|destruct Hpu as (? & ? & ?)]; repeat split; intuition lia.
Qed.

Lemma ring_steps_ok r : rtc ring_step SpscRing_new r -> ring_ok r.
Proof.
  apply rtc_invariant; [apply ring_new_ok|]. intros y y' Hy Hs. destruct Hs; [by apply push_step_ok|by eapply pop_step_ok].
Qed.

(** [pop] never reads an uninitialised slot. *)
Lemma pop_step_possible r : ring_ok r -> is_Some (pop_step r).
Proof.
  intros H. unfold pop_step. destruct (sr_pop r) as [|h|h|y h] eqn:E; try (by eexists).
  pose proof (ro_pop _ H) as Hp. rewrite E in Hp. destruct Hp as [-> Hlt].
  rewrite (ro_head _ H), slot_index_wrap, (ro_data _ H) by lia. cbn.
  destruct (sr_pushed r !! Z.to_nat (npop r)) as [v|] eqn:Ev; [by eexists|].
  apply lookup_ge_None in Ev. unfold npush, npop in *. lia.
Qed.

(** C32: in every interleaving of one producer and one consumer, and however often the
    64-bit counters wrap around, [pop] returns the pushed values in the order of the
    pushes, none lost, duplicated or invented; at most [capacity] values are in the
    ring; [pop] never reads a slot that was not written; [push] refuses exactly when
    the ring is full at the time it loads [head], and [pop] returns none exactly when
    the ring is empty at the time it loads [tail]. *)
Theorem spsc_fifo r : rtc ring_step SpscRing_new r ->
  sr_popped r `prefix_of` sr_pushed r /\
  (length (sr_pushed r) <= length (sr_popped r) + Z.to_nat capacity)%nat /\
  is_Some (pop_step r) /\
  (forall v t x, sr_push r = PushTail v t ->
     sr_push (push_step x r) = PushIdle <-> length (sr_pushed r) = (length (sr_popped r) + Z.to_nat capacity)%nat) /\
  (forall h, sr_pop r = PopHead h -> sr_pop <$> pop_step r = Some PopIdle <-> sr_popped r = sr_pushed r).
Proof.
  intros Hrun. pose proof (ring_steps_ok _ Hrun) as H. pose proof capacity_pos. pose proof capacity_le.
  pose proof (ro_room _ H) as Hr. pose proof (ro_prefix _ H) as Hp. unfold npush, npop in Hr. split_and!.
  - rewrite Hp. apply prefix_take.
  - lia.
  - by apply pop_step_possible.
  - intros v t x E. pose proof (ro_push _ H) as Hpu. rewrite E in Hpu. unfold push_step. rewrite E, Hpu, (ro_tail _ H), (ro_head _ H).
    unfold npush, npop. rewrite wrap_distance by lia. destruct (Z.eqb_spec (Z.of_nat (length (sr_pushed r)) - Z.of_nat (length (sr_popped r))) capacity); cbn; (split; [intros; try done; lia|intros; try done; lia]).
  - intros h E. pose proof (ro_pop _ H) as Hpo. rewrite E in Hpo. unfold pop_step. rewrite E, Hpo, (ro_tail _ H), (ro_head _ H). cbn.
    destruct (Z.eqb_spec (wrap64 (npop r)) (wrap64 (npush r))) as [Ee|Hne]; cbn; (split; [intros Ex; try done|intros Ex; try done]).
    + assert (npush r - npop r = 0) as Ez.
      { rewrite <- (wrap_distance (npush r) (npop r)) by (unfold npush, npop; lia). rewrite Ee, Z.sub_diag. done. }
      rewrite Hp. apply take_ge. unfold npush, npop in Ez. lia.
    + unfold npop, npush in Hne. by rewrite Ex in Hne.
Qed.

End Ring.

(** The ring of capacity one: a push, its pop, and a push refused in between. *)
Lemma spsc_fifo_witness : exists r, rtc (ring_step 0) (SpscRing_new 0) r /\ sr_popped r = [7] /\ sr_popped r `prefix_of` sr_pushed r.
Proof.
  assert (rtc (ring_step 0) (SpscRing_new 0) {| sr_head := 1; sr_tail := 1; sr_slots := [Some 7]; sr_push := PushIdle; sr_pop := PopIdle; sr_pushed := [7]; sr_popped := [7] |}) as Hrun.
  { do 6 (eapply rtc_l; [apply (ring_push 0 7)|]). do 4 (eapply rtc_l; [apply ring_pop; vm_compute; reflexivity|]). apply rtc_refl. }
  eexists. split; [exact Hrun|]. split; [reflexivity|]. apply (spsc_fifo 0 ltac:(lia) _ Hrun).
Defined.
