(* ===== verification/Mpsc.v ===== *)
(** * The multi-producer single-consumer ring

    [MpscRing] of crates/ipc/src/mpsc.rs.  Any number of producers claim positions by
    compare-and-swap on [tail], fill their slot and publish it through its [ready]
    word; one consumer takes the slots in order.  Each shared access is one step, the
    compare-and-swap may fail spuriously (it is the weak one), and every interleaving
    is covered.  The position counters are taken to stay below [2^64 - 1] (in
    the theorem below [2^63], so that a producer stalled for long cannot take a huge
    lag for a full ring): past that the [ready] word of an empty slot equals the one
    [pop] waits for. *)

From Stdlib Require Import ZArith Lia.
From stdpp Require Import prelude list relations.
From S2P Require Import Prelude Spsc.

Local Open Scope Z_scope.

Record MpscSlot := { ms_ready : Z; ms_value : option Z }.

(** Between the accesses of a [push] and of [pop]. *)
Inductive mpush_pc :=
| MIdle | MLoop (value tail : Z) | MCas (value tail : Z) | MWrite (value position : Z) | MReady (value position : Z).
Inductive mpop_pc :=
| QIdle | QHead (head : Z) | QRead (head : Z) | QClear (value head : Z) | QStore (value head : Z).

(** [mr_claimed] records the values in the order of the successful compare-and-swaps,
    [mr_popped] what [pop] returned. *)
Record MpscRing := {
  mr_head : Z;
  mr_tail : Z;
  mr_slots : list MpscSlot;
  mr_push : list mpush_pc;
  mr_pop : mpop_pc;
  mr_claimed : list Z;
  mr_popped : list Z
}.

Definition with_push (r : MpscRing) (i : nat) (pc : mpush_pc) : MpscRing :=
  {| mr_head := mr_head r; mr_tail := mr_tail r; mr_slots := mr_slots r; mr_push := <[i := pc]> (mr_push r); mr_pop := mr_pop r;
     mr_claimed := mr_claimed r; mr_popped := mr_popped r |}.

Definition with_pop (r : MpscRing) (pc : mpop_pc) : MpscRing :=
  {| mr_head := mr_head r; mr_tail := mr_tail r; mr_slots := mr_slots r; mr_push := mr_push r; mr_pop := pc;
     mr_claimed := mr_claimed r; mr_popped := mr_popped r |}.

Definition with_slot (r : MpscRing) (j : nat) (f : MpscSlot -> MpscSlot) : MpscRing :=
  {| mr_head := mr_head r; mr_tail := mr_tail r; mr_slots := alter f j (mr_slots r); mr_push := mr_push r; mr_pop := mr_pop r;
     mr_claimed := mr_claimed r; mr_popped := mr_popped r |}.

Definition set_value (v : Z) (s : MpscSlot) : MpscSlot := {| ms_ready := ms_ready s; ms_value := Some v |}.
Definition set_ready (p : Z) (s : MpscSlot) : MpscSlot := {| ms_ready := p; ms_value := ms_value s |}.

Section Ring.
Context (b : Z).

Definition MpscRing_new (producers : nat) : MpscRing :=
  {| mr_head := 0; mr_tail := 0; mr_slots := replicate (Z.to_nat (capacity b)) {| ms_ready := 0; ms_value := None |};
     mr_push := replicate producers MIdle; mr_pop := QIdle; mr_claimed := []; mr_popped := [] |}.

(** The successful compare-and-swap of producer [i]. *)
Definition claim (r : MpscRing) (i : nat) (v tail : Z) : MpscRing :=
  {| mr_head := mr_head r; mr_tail := wrap64 (tail + 1); mr_slots := mr_slots r; mr_push := <[i := MWrite v tail]> (mr_push r); mr_pop := mr_pop r;
     mr_claimed := mr_claimed r ++ [v]; mr_popped := mr_popped r |}.

(** The next access of [push(value)] by producer [i], whose state is [pc]. *)
Definition mpush_step (value : Z) (spurious : bool) (i : nat) (pc : mpush_pc) (r : MpscRing) : MpscRing :=
  match pc with
  | MIdle => with_push r i (MLoop value (mr_tail r))
  | MLoop v tail => with_push r i (if wrap64 (tail - mr_head r) =? capacity b then MIdle else MCas v tail)
  | MCas v tail => if (mr_tail r =? tail) && negb spurious then claim r i v tail else with_push r i (MLoop v (mr_tail r))
  | MWrite v position => with_push (with_slot r (slot_index b position) (set_value v)) i (MReady v position)
  | MReady v position => with_push (with_slot r (slot_index b position) (set_ready (wrap64 (position + 1)))) i MIdle
  end.

(** The next access of [pop()]; none when the slot is not initialised. *)
Definition mpop_step (r : MpscRing) : option MpscRing :=
  match mr_pop r with
  | QIdle => Some (with_pop r (QHead (mr_head r)))
  | QHead head =>
      s ← mr_slots r !! slot_index b head;
      Some (with_pop r (if ms_ready s =? wrap64 (head + 1) then QRead head else QIdle))
  | QRead head => s ← mr_slots r !! slot_index b head; v ← ms_value s; Some (with_pop r (QClear v head))
  | QClear v head => Some (with_pop (with_slot r (slot_index b head) (set_ready 0)) (QStore v head))
  | QStore v head =>
      Some {| mr_head := wrap64 (head + 1); mr_tail := mr_tail r; mr_slots := mr_slots r; mr_push := mr_push r; mr_pop := QIdle;
              mr_claimed := mr_claimed r; mr_popped := mr_popped r ++ [v] |}
  end.

Inductive mring_step : MpscRing -> MpscRing -> Prop :=
| mring_push v spurious i pc r : mr_push r !! i = Some pc -> mring_step r (mpush_step v spurious i pc r)
| mring_pop r r' : mpop_step r = Some r' -> mring_step r r'.

(** ** The invariant *)

Definition nclaim (r : MpscRing) : Z := Z.of_nat (length (mr_claimed r)).
Definition ntaken (r : MpscRing) : Z := Z.of_nat (length (mr_popped r)).

(** The first position still to be consumed. *)
Definition low (r : MpscRing) : Z := ntaken r + match mr_pop r with QStore _ _ => 1 | _ => 0 end.

(** The position a producer has claimed and not yet published. *)
Definition owned (pc : mpush_pc) : option (Z * Z) :=
  match pc with MWrite v k | MReady v k => Some (v, k) | _ => None end.

Definition published (r : MpscRing) (k : Z) (s : MpscSlot) : Prop :=
  low r <= k < nclaim r /\ ms_ready s = k + 1 /\ is_Some (ms_value s) /\ ms_value s = mr_claimed r !! Z.to_nat k.

Definition owner_ok (r : MpscRing) (pc : mpush_pc) (v k : Z) : Prop :=
  low r <= k < nclaim r /\ mr_claimed r !! Z.to_nat k = Some v /\
  exists s, mr_slots r !! slot_of b k = Some s /\ ms_ready s = 0 /\ (pc = MReady v k -> ms_value s = Some v).

Definition producer_ok (r : MpscRing) (pc : mpush_pc) : Prop :=
  match pc with
  | MIdle => True
  | MLoop _ t => 0 <= t <= nclaim r
  | MCas _ t => t <= nclaim r /\ (t = nclaim r -> nclaim r < ntaken r + capacity b)
  | MWrite v k | MReady v k => owner_ok r pc v k
  end.

Definition consumer_ok (r : MpscRing) : Prop :=
  match mr_pop r with
  | QIdle => True
  | QHead h => h = mr_head r
  | QRead h => h = mr_head r /\ exists s, mr_slots r !! slot_of b h = Some s /\ ms_ready s = h + 1
  | QClear v h => h = mr_head r /\ mr_claimed r !! Z.to_nat h = Some v /\ exists s, mr_slots r !! slot_of b h = Some s /\ ms_ready s = h + 1
  | QStore v h => h = mr_head r /\ mr_claimed r !! Z.to_nat h = Some v /\ exists s, mr_slots r !! slot_of b h = Some s /\ ms_ready s = 0
  end.

Definition distinct_owned (l : list mpush_pc) : Prop :=
  forall i j pi pj vi vj k, l !! i = Some pi -> l !! j = Some pj -> owned pi = Some (vi, k) -> owned pj = Some (vj, k) -> i = j.

Record mring_ok (r : MpscRing) : Prop := {
  mo_tail : mr_tail r = nclaim r;
  mo_head : mr_head r = ntaken r;
  mo_room : ntaken r <= nclaim r <= ntaken r + capacity b;
  mo_prefix : mr_popped r = take (length (mr_popped r)) (mr_claimed r);
  mo_slots : forall k, ntaken r <= k < ntaken r + capacity b ->
    exists s, mr_slots r !! slot_of b k = Some s /\ (ms_ready s = 0 \/ published r k s);
  mo_push : forall i pc, mr_push r !! i = Some pc -> producer_ok r pc;
  mo_distinct : distinct_owned (mr_push r);
  mo_cover : forall k, low r <= k < nclaim r ->
    (exists i pc v, mr_push r !! i = Some pc /\ owned pc = Some (v, k)) \/
    exists s, mr_slots r !! slot_of b k = Some s /\ ms_ready s = k + 1;
  mo_pop : consumer_ok r
}.

Context (Hb : 0 <= b <= 63).

Lemma mring_new_ok n : mring_ok (MpscRing_new n).
Proof.
  pose proof (capacity_pos b Hb). constructor; cbn [MpscRing_new mr_head mr_tail mr_slots mr_push mr_pop mr_claimed mr_popped]; try done.
  - unfold nclaim, ntaken. cbn. lia.
  - intros k _. eexists. split; [apply lookup_replicate; split; [done|apply slot_of_lt, Hb]|by left].
  - intros i pc Hi. apply lookup_replicate in Hi as [-> _]. done.
  - intros i j pi pj vi vj k Hi _ Ho _. apply lookup_replicate in Hi as [-> _]. done.
  - intros k Hk. unfold low, nclaim, ntaken in Hk. cbn in Hk. lia.
Qed.


Lemma window_upd f (l : list MpscSlot) k k' C : C <= k < C + capacity b -> C <= k' < C + capacity b ->
  alter f (slot_of b k) l !! slot_of b k' = if decide (k' = k) then f <$> (l !! slot_of b k) else l !! slot_of b k'.
Proof.
  intros Hk Hk'. case_decide as E; [subst; by rewrite list_lookup_alter_eq|].
  apply list_lookup_alter_ne. intros Es. apply slot_of_inj in Es; [by subst|done|lia].
Qed.

Lemma slot_index_small k : is_u64 k -> slot_index b k = slot_of b k.
Proof. intros Hk. rewrite <- (slot_index_wrap b Hb), wrap64_small by done. done. Qed.

Lemma low_between r : ntaken r <= low r <= ntaken r + 1.
Proof. unfold low. destruct (mr_pop r); lia. Qed.

(** Ownership stays exclusive when a producer keeps or gives up its position. *)
Lemma distinct_insert l i pc pc' : distinct_owned l -> l !! i = Some pc ->
  (forall v k, owned pc' = Some (v, k) -> owned pc = Some (v, k)) -> distinct_owned (<[i := pc']> l).
Proof.
  intros Hd Hi Hkeep j1 j2 p1 p2 v1 v2 k H1 H2 Ho1 Ho2.
  apply list_lookup_insert_Some in H1 as [(<- & <- & _)|[Hn1 H1]]; apply list_lookup_insert_Some in H2 as [(<- & <- & _)|[Hn2 H2]]; try done.
  - apply Hkeep in Ho1. by eapply Hd.
  - apply Hkeep in Ho2. by eapply Hd.
  - by eapply Hd.
Qed.

(** A producer's next position, while it owns none. *)
Lemma with_push_ok r i pc pc' : mring_ok r -> mr_push r !! i = Some pc -> owned pc = None -> owned pc' = None -> producer_ok r pc' ->
  mring_ok (with_push r i pc').
Proof.
  intros H Hi Ho Ho' Hp. destruct H as [Ht Hh Hr Hx Hs Hpu Hd Hc Hpo]. constructor; try done; cbn [with_push mr_push].
  - intros j pj Hj. apply list_lookup_insert_Some in Hj as [(-> & <- & _)|[_ Hj]]; [by destruct pc'|]. apply (Hpu _ _) in Hj. by destruct pj.
  - eapply distinct_insert; [done..|]. intros v k E. congruence.
  - intros k Hk. destruct (Hc k Hk) as [(j & pj & v & Hj & Hoj)|]; [left|by right].
    exists j, pj, v. split; [|done]. rewrite list_lookup_insert_ne; [done|]. intros <-. congruence.
Qed.

(** The consumer's next position, while it has not cleared the slot. *)
Lemma with_pop_ok r q : mring_ok r -> low (with_pop r q) = low r -> consumer_ok (with_pop r q) -> mring_ok (with_pop r q).
Proof.
  intros H El Hq. destruct H as [Ht Hh Hr Hx Hs Hpu Hd Hc Hpo].
  assert (forall pc v k, owner_ok r pc v k -> owner_ok (with_pop r q) pc v k) as Hown.
  { intros pc v k. unfold owner_ok. rewrite El. done. }
  constructor; try done.
  - intros k Hk. destruct (Hs k Hk) as (s & Es & [Hz|Hp]); exists s; (split; [done|]); [by left|right]. unfold published in *. by rewrite El.
  - intros i pc Hi. specialize (Hpu i pc Hi). destruct pc; try done; by apply Hown.
  - intros k Hk. rewrite El in Hk. by apply Hc.
Qed.

(** The consumer is not at a position a producer owns. *)
Lemma owned_consumer r pc v k f : mring_ok r -> owner_ok r pc v k -> consumer_ok (with_slot r (slot_of b k) f).
Proof.
  intros H (Hk & Ev & s0 & Es0 & Hz0 & _). pose proof (mo_pop _ H) as Hp. pose proof (mo_head _ H) as Hh. pose proof (mo_room _ H) as Hr.
  pose proof (capacity_pos b Hb). pose proof (low_between r) as Hl. assert (0 <= ntaken r) by (unfold ntaken; lia).
  assert (k <> mr_head r -> alter f (slot_of b k) (mr_slots r) !! slot_of b (mr_head r) = mr_slots r !! slot_of b (mr_head r)) as Hupd.
  { intros Hne. rewrite (window_upd _ _ _ _ (ntaken r)) by lia. by rewrite decide_False. }
  unfold consumer_ok, low in *. cbn. destruct (mr_pop r) as [|h|h|y h|y h]; try done.
  - destruct Hp as (-> & s & Es & Hs). split; [done|]. exists s. rewrite Hupd; [done|]. intros ->. rewrite Es0 in Es. injection Es as ->. lia.
  - destruct Hp as (-> & Ey & s & Es & Hs). repeat split; try done. exists s. rewrite Hupd; [done|]. intros ->. rewrite Es0 in Es. injection Es as ->. lia.
  - destruct Hp as (-> & Ey & s & Es & Hs). repeat split; try done. exists s. rewrite Hupd; [done|]. lia.
Qed.

(** The owners of other positions do not see the slot change. *)
Lemma owners_keep r i pc v k f : mring_ok r -> mr_push r !! i = Some pc -> owned pc = Some (v, k) ->
  forall j pj, i <> j -> mr_push r !! j = Some pj -> producer_ok (with_slot r (slot_of b k) f) pj.
Proof.
  intros H Hi Ho j pj Hne Hj. pose proof (mo_push _ H j pj Hj) as Hpj. pose proof (low_between r). pose proof (mo_room _ H).
  assert (low r <= k < nclaim r) as Hk. { pose proof (mo_push _ H i pc Hi) as Hpi. destruct pc; try done; injection Ho as -> ->; apply Hpi. }
  destruct pj as [| | |v' k'|v' k']; try done;
    (destruct Hpj as (Hk' & Ev' & s' & Es' & Hz' & Hv'); split; [done|]; split; [done|]; exists s'; cbn;
     rewrite (window_upd _ _ _ _ (ntaken r)) by lia; rewrite decide_False; [done|]; intros ->; apply Hne; by eapply (mo_distinct _ H)).
Qed.

(** A step of the owner of position [k] on its slot: it writes the value and keeps the
    position, or publishes it. *)
Lemma owner_step_ok r i pc pc' v k f : mring_ok r -> mr_push r !! i = Some pc -> owned pc = Some (v, k) ->
  (forall w j, owned pc' = Some (w, j) -> w = v /\ j = k) ->
  (forall s, mr_slots r !! slot_of b k = Some s -> owner_ok r pc v k -> 
     (owned pc' = Some (v, k) /\ ms_ready (f s) = 0 /\ ms_value (f s) = Some v) \/
     (pc' = MIdle /\ ms_ready (f s) = k + 1 /\ ms_value (f s) = Some v)) ->
  mring_ok (with_push (with_slot r (slot_of b k) f) i pc').
Proof.
  intros H Hi Ho Hkeep Hf. pose proof (low_between r) as Hl. pose proof (mo_room _ H) as Hr.
  assert (owner_ok r pc v k) as Hown. { pose proof (mo_push _ H i pc Hi) as Hpi. destruct pc; try done; by injection Ho as -> ->. }
  pose proof Hown as (Hk & Ev & s0 & Es0 & Hz0 & _). specialize (Hf s0 Es0 Hown).
  assert (forall k', ntaken r <= k' < ntaken r + capacity b -> alter f (slot_of b k) (mr_slots r) !! slot_of b k' = if decide (k' = k) then Some (f s0) else mr_slots r !! slot_of b k') as Hupd.
  { intros k' Hk'. rewrite (window_upd _ _ _ _ (ntaken r)) by lia. by rewrite Es0. }
  constructor; try apply H; cbn [with_push with_slot mr_push mr_slots].
  - intros k' Hk'. rewrite Hupd by done. case_decide; [subst k'|by apply (mo_slots _ H)]. exists (f s0). split; [done|].
    destruct Hf as [(_ & Hz & _)|(_ & Hz & Hv)]; [by left|right]. unfold published. cbn. rewrite Ev, Hv. repeat split; try done; apply Hk.
  - intros j pj Hj. apply list_lookup_insert_Some in Hj as [(-> & <- & _)|[Hne Hj]].
    + destruct Hf as [(Ho' & Hz & Hv)|(-> & _)]; [|done].
      assert (owner_ok (with_push (with_slot r (slot_of b k) f) j pc') pc' v k) as Hn.
      { split; [done|]. split; [done|]. exists (f s0). cbn. rewrite Hupd by lia. by rewrite decide_True. }
      destruct pc'; try done; cbn in Ho'; by injection Ho' as -> ->.
    + by eapply (owners_keep r i pc v k f).
  - eapply distinct_insert; [apply H|done|]. intros w j E. apply Hkeep in E as [-> ->]. done.
  - intros k' Hk'. change (low r <= k' < nclaim r) in Hk'. rewrite Hupd by lia. case_decide as E.
    + subst k'. destruct Hf as [(Ho' & _)|(_ & Hz & _)]; [left|right; by eexists].
      exists i, pc', v. split; [apply list_lookup_insert_eq; by eapply lookup_lt_Some|done].
    + destruct (mo_cover _ H k' Hk') as [(j & pj & v' & Hj & Hoj)|]; [left|by right]. exists j, pj, v'.
      rewrite list_lookup_insert_ne; [done|]. intros <-. congruence.
  - by eapply owned_consumer.
Qed.


(** The successful compare-and-swap makes the producer the owner of the next position. *)
Lemma claim_ok r i v t : mring_ok r -> nclaim r < 2 ^ 64 - 1 -> mr_push r !! i = Some (MCas v t) -> mr_tail r = t -> mring_ok (claim r i v t).
Proof.
  intros H Hn Hi Et. pose proof (low_between r) as Hl. pose proof (mo_room _ H) as Hr. rewrite (mo_tail _ H) in Et. subst t.
  destruct (mo_push _ H i _ Hi) as [_ Hfree]. specialize (Hfree eq_refl).
  assert (nclaim (claim r i v (nclaim r)) = nclaim r + 1) as En. { unfold nclaim. cbn. rewrite length_app. cbn. lia. }
  assert (0 <= ntaken r) by (unfold ntaken; lia).
  assert (forall k w, mr_claimed r !! k = Some w -> (mr_claimed r ++ [v]) !! k = Some w) as Happ by (intros; by apply lookup_app_l_Some).
  assert (forall pc w k, owner_ok r pc w k -> owner_ok (claim r i v (nclaim r)) pc w k) as Hown.
  { intros pc w k (Hk & Ew & Hs). split; [rewrite En; change (low (claim r i v (nclaim r))) with (low r); lia|]. split; [by apply Happ|done]. }
  constructor; try rewrite En; change (ntaken (claim r i v (nclaim r))) with (ntaken r); change (low (claim r i v (nclaim r))) with (low r); try apply H; try lia.
  - cbn. apply wrap64_small. unfold is_u64. lia.
  - cbn. pose proof (mo_prefix _ H). rewrite take_app_le; [done|]. unfold nclaim, ntaken in Hr. lia.
  - intros k Hk. destruct (mo_slots _ H k Hk) as (s & Es & [Hz|(Hp1 & Hp2 & [w Hw] & Hp3)]); exists s; (split; [done|]); [by left|right].
    unfold published. rewrite En, Hw. change (low (claim r i v (nclaim r))) with (low r). repeat split; try lia; [by eexists|]. symmetry. apply Happ. congruence.
  - cbn. intros j pj Hj. apply list_lookup_insert_Some in Hj as [(-> & <- & _)|[Hne Hj]].
    + destruct (mo_slots _ H (nclaim r) ltac:(lia)) as (s & Es & [Hz|[Hp _]]); [|lia].
      split; [rewrite En; change (low (claim r j v (nclaim r))) with (low r)|]; last split.
      * unfold low. pose proof (mo_pop _ H) as Hpo. unfold consumer_ok in Hpo. destruct (mr_pop r); try lia.
        destruct Hpo as (Eh & Ey & _). apply lookup_lt_Some in Ey. rewrite (mo_head _ H) in Eh. unfold nclaim in *. lia.
      * cbn. unfold nclaim. rewrite Nat2Z.id. apply list_lookup_middle. done.
      * by exists s.
    + pose proof (mo_push _ H j pj Hj) as Hpj. destruct pj; cbn in *; try lia; by apply Hown.
  - assert (forall j pj w, i <> j -> mr_push r !! j = Some pj -> owned pj = Some (w, nclaim r) -> False) as Hno.
    { intros j pj w _ Hj Ho. pose proof (mo_push _ H j pj Hj) as Hpj. destruct pj; try done; injection Ho as -> ->; destruct Hpj; lia. }
    cbn. intros j1 j2 p1 p2 v1 v2 k H1 H2 Ho1 Ho2.
    apply list_lookup_insert_Some in H1 as [(<- & <- & _)|[Hn1 H1]]; apply list_lookup_insert_Some in H2 as [(<- & <- & _)|[Hn2 H2]]; try done.
    + injection Ho1 as -> <-. exfalso. by eapply Hno.
    + injection Ho2 as -> <-. exfalso. by eapply Hno.
    + by eapply (mo_distinct _ H).
  - intros k Hk. cbn. destruct (decide (k = nclaim r)) as [->|].
    + left. exists i, (MWrite v (nclaim r)), v. rewrite list_lookup_insert_eq by (by eapply lookup_lt_Some). done.
    + destruct (mo_cover _ H k ltac:(lia)) as [(j & pj & w & Hj & Ho)|]; [left|by right]. exists j, pj, w.
      rewrite list_lookup_insert_ne; [done|]. intros <-. rewrite Hi in Hj. by injection Hj as <-.
  - pose proof (mo_pop _ H) as Hpo. unfold consumer_ok in *. cbn. destruct (mr_pop r); try done; destruct Hpo as (? & Ey & ?); auto using Happ.
Qed.

Lemma owner_bounds r i pc v k : mring_ok r -> mr_push r !! i = Some pc -> owned pc = Some (v, k) -> owner_ok r pc v k.
Proof. intros H Hi Ho. pose proof (mo_push _ H i pc Hi) as Hpi. destruct pc; try done; by injection Ho as -> ->. Qed.

Lemma mpush_step_ok v sp i pc r : mring_ok r -> nclaim r < 2 ^ 64 - 1 -> mr_push r !! i = Some pc -> mring_ok (mpush_step v sp i pc r).
Proof.
  intros H Hn Hi. pose proof (mo_push _ H i pc Hi) as Hp. pose proof (mo_room _ H) as Hr. pose proof (capacity_le b Hb) as Hcap.
  assert (0 <= ntaken r) by (unfold ntaken; lia). pose proof (low_between r).
  destruct pc as [|x t|x t|x k|x k]; cbn [mpush_step].
  - eapply with_push_ok; try done. cbn. rewrite (mo_tail _ H). lia.
  - eapply with_push_ok; try done; [by case_match|]. destruct (Z.eqb_spec (wrap64 (t - mr_head r)) (capacity b)) as [|Hne]; [done|].
    split; [apply Hp|]. intros ->. rewrite (mo_head _ H), wrap64_small in Hne; [lia|]. unfold is_u64. lia.
  - destruct (Z.eqb_spec (mr_tail r) t), sp; cbn [andb negb]; try by apply claim_ok.
    all: eapply with_push_ok; try done; cbn; rewrite (mo_tail _ H); lia.
  - destruct Hp as (Hk & _). rewrite slot_index_small by (unfold is_u64; lia).
    eapply (owner_step_ok _ _ _ _ x k); try done; [by intros ? ? [= -> ->]|]. intros s Es (_ & _ & s' & Es' & Hz & _). left.
    rewrite Es in Es'. by injection Es' as <-.
  - destruct Hp as (Hk & _). rewrite slot_index_small by (unfold is_u64; lia). rewrite wrap64_small by (unfold is_u64; lia).
    eapply (owner_step_ok _ _ _ _ x k); try done. intros s Es (_ & _ & s' & Es' & _ & Hv). right.
    rewrite Es in Es'. injection Es' as <-. cbn. auto.
Qed.

(** Clearing the [ready] word of the slot just read. *)
Lemma clear_ok r v h : mring_ok r -> mr_pop r = QClear v h ->
  mring_ok (with_pop (with_slot r (slot_of b h) (set_ready 0)) (QStore v h)).
Proof.
  intros H Eq. pose proof (mo_pop _ H) as Hp. unfold consumer_ok in Hp. rewrite Eq in Hp. destruct Hp as (Eh & Ev & s0 & Es0 & Hs0).
  pose proof (mo_room _ H) as Hr. rewrite (mo_head _ H) in Eh. subst h. pose proof (capacity_pos b Hb).
  assert (low r = ntaken r) as El by (unfold low; rewrite Eq; lia). assert (0 <= ntaken r) by (unfold ntaken; lia).
  set (r' := with_pop _ _). assert (low r' = ntaken r + 1) as El' by done.
  assert (forall k', ntaken r <= k' < ntaken r + capacity b -> mr_slots r' !! slot_of b k' = if decide (k' = ntaken r) then Some (set_ready 0 s0) else mr_slots r !! slot_of b k') as Hupd.
  { intros k' Hk'. cbn. rewrite (window_upd _ _ _ _ (ntaken r)) by lia. by rewrite Es0. }
  assert (forall pc w k, owner_ok r pc w k -> owner_ok r' pc w k) as Hown.
  { intros pc w k (Hk & Ew & s & Es & Hz & Hv).
    assert (k <> ntaken r) by (intros ->; rewrite Es0 in Es; injection Es as ->; lia). split; [rewrite El'; change (nclaim r') with (nclaim r); lia|].
    split; [done|]. exists s. rewrite Hupd by lia. by rewrite decide_False. }
  constructor; try apply H.
  - intros k Hk. change (ntaken r') with (ntaken r) in Hk. rewrite Hupd by done. case_decide; [eexists; split; [done|by left]|].
    destruct (mo_slots _ H k Hk) as (s & Es & [Hz|(Hp1 & Hp2)]); exists s; (split; [done|]); [by left|right]. split; [|done].
    rewrite El'. change (nclaim r') with (nclaim r). lia.
  - intros i pc Hi. pose proof (mo_push _ H i pc Hi) as Hpi. destruct pc; try done; by apply Hown.
  - intros k Hk. rewrite El' in Hk. change (nclaim r') with (nclaim r) in Hk. rewrite Hupd by lia. rewrite decide_False by lia. apply (mo_cover _ H). lia.
  - unfold consumer_ok. cbn [r' with_pop mr_pop mr_head]. repeat split; [symmetry; apply H|done|].
    exists (set_ready 0 s0). rewrite Hupd by lia. by rewrite decide_True.
Qed.

(** Giving the slot back. *)
Lemma take_ok r r' v h : mring_ok r -> mr_pop r = QStore v h -> nclaim r < 2 ^ 64 - 1 -> mpop_step r = Some r' -> mring_ok r'.
Proof.
  intros H Eq Hn. unfold mpop_step. rewrite Eq. intros [= Er].
  pose proof (mo_pop _ H) as Hp. unfold consumer_ok in Hp. rewrite Eq in Hp. destruct Hp as (Eh & Ev & s0 & Es0 & Hs0).
  pose proof (mo_room _ H) as Hr. rewrite (mo_head _ H) in Eh. subst h. pose proof (capacity_pos b Hb).
  assert (low r = ntaken r + 1) as El by (unfold low; by rewrite Eq). assert (0 <= ntaken r) by (unfold ntaken; lia).
  assert (ntaken r < nclaim r) as Hlt. { apply lookup_lt_Some in Ev. unfold nclaim. lia. }
  assert (ntaken r' = ntaken r + 1) as En. { rewrite <- Er. unfold ntaken. cbn. rewrite length_app. cbn. lia. }
  assert (low r' = low r) as El'. { unfold low at 1. rewrite En. rewrite <- Er. cbn. lia. }
  assert (nclaim r' = nclaim r /\ mr_slots r' = mr_slots r /\ mr_push r' = mr_push r /\ mr_claimed r' = mr_claimed r) as (Enc & Esl & Epu & Ecl) by by rewrite <- Er.
  constructor; rewrite ?En, ?El', ?Enc, ?Esl, ?Epu, ?Ecl; try apply H; try lia.
  - rewrite <- Er. cbn. apply H.
  - rewrite <- Er. cbn. apply wrap64_small. unfold is_u64. lia.
  - rewrite <- Er. cbn. rewrite length_app, Nat.add_1_r. rewrite (take_S_r _ _ v), <- (mo_prefix _ H); [done|]. rewrite <- Ev. f_equal. unfold ntaken. lia.
  - intros k Hk. destruct (decide (k = ntaken r + capacity b)) as [->|].
    + exists s0. split; [|by left]. rewrite <- Es0. f_equal. unfold slot_of. rewrite <- (Z.mul_1_l (capacity b)) at 1. by rewrite Z_mod_plus_full.
    + destruct (mo_slots _ H k ltac:(lia)) as (s & Es & [Hz|Hp]); exists s; (split; [done|]); [by left|right].
      unfold published in *. by rewrite El', Enc, Ecl.
  - intros i pc Hi. pose proof (mo_push _ H i pc Hi) as Hpi. unfold producer_ok, owner_ok in *. rewrite El', Enc, Esl, Ecl, En. destruct pc; try done. cbn in Hpi. lia.
  - rewrite <- Er. done.
Qed.

Lemma mpop_step_ok r r' : mring_ok r -> nclaim r < 2 ^ 64 - 1 -> mpop_step r = Some r' -> mring_ok r'.
Proof.
  intros H Hn Hs. pose proof (mo_pop _ H) as Hp. pose proof (mo_room _ H) as Hr. pose proof (mo_head _ H) as Hh.
  assert (0 <= ntaken r) by (unfold ntaken; lia). pose proof (capacity_pos b Hb).
  assert (slot_index b (mr_head r) = slot_of b (mr_head r)) as Ei by (apply slot_index_small; unfold is_u64; lia).
  destruct (mr_pop r) as [|h|h|y h|y h] eqn:Eq; [..|by eapply take_ok]; unfold mpop_step, consumer_ok in *; rewrite Eq in *.
  - injection Hs as <-. apply with_pop_ok; [done|unfold low; by rewrite Eq|done].
  - subst h. rewrite Ei in Hs. destruct (mr_slots r !! slot_of b (mr_head r)) as [s|] eqn:Es; [|done]. cbn in Hs. injection Hs as <-.
    rewrite wrap64_small by (unfold is_u64; lia).
    apply with_pop_ok; [done|unfold low; rewrite Eq; cbn; by case_match|]. unfold consumer_ok. cbn. destruct (Z.eqb_spec (ms_ready s) (mr_head r + 1)); [|done].
    split; [done|]. by exists s.
  - destruct Hp as (-> & s & Es & Hs1). rewrite Ei, Es in Hs. cbn in Hs. destruct (mo_slots _ H (mr_head r) ltac:(lia)) as (s' & Es' & Hpub).
    rewrite Es in Es'. injection Es' as <-. destruct Hpub as [Hz|(_ & _ & _ & Hv)]; [lia|]. destruct (ms_value s) as [v|] eqn:Ev; [|done].
    cbn in Hs. injection Hs as <-. apply with_pop_ok; [done|unfold low; by rewrite Eq|]. unfold consumer_ok. cbn. repeat split; [done..|]. by exists s.
  - injection Hs as <-. destruct Hp as (-> & _). rewrite Ei. by apply clear_ok.
Qed.

Lemma nclaim_mono r r' : mring_step r r' -> nclaim r <= nclaim r'.
Proof.
  intros Hs. destruct Hs as [v sp i pc r Hi|r r' Hs].
  - destruct pc; cbn [mpush_step]; try done. case_match; [|done]. unfold nclaim. cbn. rewrite length_app. lia.
  - unfold mpop_step in Hs. destruct (mr_pop r); [| | | |]; try (injection Hs as <-; done).
    + destruct (mr_slots r !! _); [|done]. by injection Hs as <-.
    + destruct (mr_slots r !! _) as [s|]; [|done]. cbn in Hs. destruct (ms_value s); [|done]. by injection Hs as <-.
Qed.

Lemma mring_steps_ok n r : rtc mring_step (MpscRing_new n) r -> nclaim r < 2 ^ 64 - 1 -> mring_ok r.
Proof.
  apply (rtc_invariant _ (fun r => nclaim r < 2 ^ 64 - 1 -> mring_ok r)); [intros; apply mring_new_ok|].
  intros y y' Hy Hs Hn. pose proof (nclaim_mono _ _ Hs). specialize (Hy ltac:(lia)).
  destruct Hs as [v sp i pc y Hi|y y' Hs]; [apply mpush_step_ok|eapply mpop_step_ok]; eauto; lia.
Qed.

(** [pop] never reads an uninitialised slot. *)
Lemma mpop_step_possible r : mring_ok r -> nclaim r < 2 ^ 64 - 1 -> is_Some (mpop_step r).
Proof.
  intros H Hn. pose proof (mo_pop _ H) as Hp. pose proof (mo_room _ H) as Hr. pose proof (mo_head _ H) as Hh. pose proof (capacity_pos b Hb).
  assert (0 <= ntaken r) by (unfold ntaken; lia).
  assert (slot_index b (mr_head r) = slot_of b (mr_head r)) as Ei by (apply slot_index_small; unfold is_u64; lia).
  destruct (mo_slots _ H (mr_head r) ltac:(lia)) as (s & Es & Hpub).
  unfold mpop_step, consumer_ok in *. destruct (mr_pop r) as [|h|h|y h|y h]; try (by eexists).
  - subst h. rewrite Ei, Es. by eexists.
  - destruct Hp as (-> & s' & Es' & Hs'). rewrite Es in Es'. injection Es' as <-. rewrite Ei, Es. cbn.
    destruct Hpub as [|(_ & _ & [v ->] & _)]; [lia|by eexists].
Qed.

(** C31: in every interleaving of any number of producers and one consumer, while fewer
    than [2^63] positions have been claimed, [pop] returns the values in the order
    in which their producers claimed a position, none lost, duplicated or invented; at
    most [capacity] positions are in use; [pop] never reads a slot that was not
    written; [pop] returns none only when the ring is empty or the producer of the next
    position has not published it yet; and [push] refuses only when the ring is full. *)
Theorem mpsc_fifo n r : rtc mring_step (MpscRing_new n) r -> Z.of_nat (length (mr_claimed r)) < 2 ^ 63 ->
  mr_popped r `prefix_of` mr_claimed r /\
  (length (mr_claimed r) <= length (mr_popped r) + Z.to_nat (capacity b))%nat /\
  is_Some (mpop_step r) /\
  (forall h, mr_pop r = QHead h -> mr_pop <$> mpop_step r = Some QIdle ->
     mr_popped r = mr_claimed r \/ exists i pc v, mr_push r !! i = Some pc /\ owned pc = Some (v, Z.of_nat (length (mr_popped r)))) /\
  (forall i v t x sp, mr_push r !! i = Some (MLoop v t) -> mr_push (mpush_step x sp i (MLoop v t) r) !! i = Some MIdle ->
     length (mr_claimed r) = (length (mr_popped r) + Z.to_nat (capacity b))%nat).
Proof.
  intros Hrun Hn. assert (mring_ok r) as H by (eapply mring_steps_ok; [done|unfold nclaim; lia]). pose proof (capacity_pos b Hb).
  pose proof (mo_room _ H) as Hr. pose proof (mo_prefix _ H) as Hp. pose proof (mo_head _ H) as Hh. unfold nclaim, ntaken in Hr, Hh. split_and!.
  - rewrite Hp. apply prefix_take.
  - lia.
  - apply mpop_step_possible; [done|unfold nclaim; lia].
  - intros h Eq Hnone. destruct (decide (length (mr_popped r) = length (mr_claimed r))) as [El|Hne]; [left; rewrite Hp; apply take_ge; lia|right].
    pose proof (mo_pop _ H) as Hpo. unfold consumer_ok in Hpo. rewrite Eq in Hpo. subst h.
    assert (low r = ntaken r) as Elow by (unfold low; rewrite Eq; lia).
    destruct (mo_cover _ H (ntaken r)) as [|(s & Es & Hs)]; [unfold nclaim, ntaken in *; lia|done|]. exfalso.
    unfold mpop_step in Hnone. rewrite Eq, slot_index_small, Hh in Hnone by (unfold is_u64; lia). unfold ntaken in *. rewrite Es in Hnone. cbn in Hnone.
    rewrite wrap64_small, Hs, Z.eqb_refl in Hnone by (unfold is_u64; lia). done.
  - intros i v t x sp Hi. cbn. rewrite list_lookup_insert_eq by (by eapply lookup_lt_Some). intros [= E].
    destruct (Z.eqb_spec (wrap64 (t - mr_head r)) (capacity b)) as [Ew|]; [|done]. pose proof (mo_push _ H i _ Hi) as Ht. cbn in Ht. unfold nclaim in Ht.
    pose proof (capacity_le b Hb). destruct (Z.ltb_spec t (mr_head r)).
    + unfold wrap64, wrapw in Ew. rewrite <- (Z_mod_plus_full _ 1), Z.mod_small in Ew by lia. lia.
    + rewrite wrap64_small in Ew by (unfold is_u64; lia). lia.
Qed.

End Ring.

(** Two producers on a ring of capacity one: the second claims, publishes and is popped
    while the first has only loaded the tail; the first then retries and publishes. *)
Lemma mpsc_fifo_witness : exists r, rtc (mring_step 0) (MpscRing_new 0 2) r /\ mr_popped r = [8] /\ mr_claimed r = [8; 7] /\ mr_popped r `prefix_of` mr_claimed r.
Proof.
  eassert (rtc (mring_step 0) (MpscRing_new 0 2) _) as Hrun.
  { do 2 (eapply rtc_l; [apply (mring_push 0 7 false 0); reflexivity|]). do 5 (eapply rtc_l; [apply (mring_push 0 8 false 1); reflexivity|]).
    do 5 (eapply rtc_l; [apply mring_pop; vm_compute; reflexivity|]). do 5 (eapply rtc_l; [apply (mring_push 0 9 false 0); vm_compute; reflexivity|]).
    apply rtc_refl. }
  eexists. split; [exact Hrun|]. split; [vm_compute; reflexivity|]. split; [vm_compute; reflexivity|].
  apply (mpsc_fifo 0 ltac:(lia) 2 _ Hrun). vm_compute. reflexivity.
Defined.
