(* ===== verification/PageCache.v ===== *)
(** * The page cache

    crates/fs/src/pagecache.rs, and its registration as the hooks through which the
    page-fault handler and munmap reach it (crates/fs/src/lib.rs).  The cache is a
    hash table of 256 buckets of 32 slots from a vnode and a page-aligned offset to a
    frame.  Its frames, the blocks of the files and the pages of the processes are all
    in the one memory of the kernel state, so that reading a page of a file into the
    cache and writing it back are the operations of Ramfs on that memory.  A vnode is
    a file of ramfs or a node without data, whose read and write return an error; the
    size of a vnode is that of its inode, which ramfs keeps equal. *)

From Stdlib Require Import ZArith Lia.
From stdpp Require Import prelude gmap list.
From S2P Require Import Prelude Frames PageTable Vma AddressSpace Ramfs.

Local Open Scope Z_scope.

Definition PAGECACHE_BUCKETS : nat := 256.
Definition PAGECACHE_BUCKET_CAP : nat := 32.

Record PageCacheEntry := { pe_vnode_ptr : Z; pe_file_offset : Z; pe_frame : Z; pe_dirty : bool }.

#[global] Instance PageCacheEntry_eq_dec : EqDecision PageCacheEntry.
Proof. solve_decision. Defined.

Notation PageCacheBucket := (list (option PageCacheEntry)).

Definition PageCacheBucket_new : PageCacheBucket := replicate PAGECACHE_BUCKET_CAP None.

Definition PAGE_CACHE : list PageCacheBucket := replicate PAGECACHE_BUCKETS PageCacheBucket_new.

Definition bucket_index (vnode_ptr file_offset : Z) : nat :=
  let page_no := Z.shiftr file_offset 12 in
  let key := Z.lxor vnode_ptr (wrap64 (page_no * 0x2545F4914F6CDD1D)) in
  let hash := wrap64 (key * 0x9e3779b97f4a7c15) in
  Z.to_nat (Z.shiftr hash (64 - 8)).

Inductive fs_file := RamfsFile (ino : RamfsInode) | NoData.

Record vfs_state := { vs_files : gmap Z fs_file; vs_cache : list PageCacheBucket; vs_refs : gmap Z Z }.

Definition is_key (vnode_ptr file_offset : Z) (e : PageCacheEntry) : bool :=
  (pe_vnode_ptr e =? vnode_ptr) && (pe_file_offset e =? file_offset).

(** [entries.iter().flatten().find(..)]. *)
Fixpoint find_entry (vnode_ptr file_offset : Z) (b : PageCacheBucket) : option PageCacheEntry :=
  match b with
  | [] => None
  | Some e :: b' => if is_key vnode_ptr file_offset e then Some e else find_entry vnode_ptr file_offset b'
  | None :: b' => find_entry vnode_ptr file_offset b'
  end.

(** The first empty slot takes the entry; a full bucket does not remember it. *)
Fixpoint fill_slot (e : PageCacheEntry) (b : PageCacheBucket) : PageCacheBucket :=
  match b with
  | [] => []
  | None :: b' => Some e :: b'
  | s :: b' => s :: fill_slot e b'
  end.

Definition set_dirty (d : bool) (e : PageCacheEntry) : PageCacheEntry :=
  {| pe_vnode_ptr := pe_vnode_ptr e; pe_file_offset := pe_file_offset e; pe_frame := pe_frame e; pe_dirty := d |}.

(** The loop of [mark_dirty]. *)
Fixpoint dirty_slot (vnode_ptr file_offset : Z) (b : PageCacheBucket) : PageCacheBucket :=
  match b with
  | [] => []
  | Some e :: b' => if is_key vnode_ptr file_offset e then Some (set_dirty true e) :: b' else Some e :: dirty_slot vnode_ptr file_offset b'
  | None :: b' => None :: dirty_slot vnode_ptr file_offset b'
  end.

Definition bucket_at (c : list PageCacheBucket) (vnode_ptr file_offset : Z) : PageCacheBucket :=
  default [] (c !! bucket_index vnode_ptr file_offset).

Definition cache_lookup (c : list PageCacheBucket) (vnode_ptr file_offset : Z) : option Z :=
  pe_frame <$> find_entry vnode_ptr file_offset (bucket_at c vnode_ptr file_offset).

Section PageCache.
Context {A : Type} `{FrameAllocator A}.
Implicit Types k : kstate A vfs_state.

Definition k_cache k : list PageCacheBucket := vs_cache (k_vfs k).
Definition k_file k (v : Z) : option fs_file := vs_files (k_vfs k) !! v.

Definition set_cache k (c : list PageCacheBucket) : kstate A vfs_state :=
  set_vfs k {| vs_files := vs_files (k_vfs k); vs_cache := c; vs_refs := vs_refs (k_vfs k) |}.

Definition set_file k (v : Z) (f : fs_file) : kstate A vfs_state :=
  set_vfs k {| vs_files := <[v := f]> (vs_files (k_vfs k)); vs_cache := vs_cache (k_vfs k); vs_refs := vs_refs (k_vfs k) |}.

(** [vn.ops.read] into the start of [dst], then the zero fill; a vnode without data
    returns -22 (EINVAL). *)
Definition fill_page_from_vnode k (v file_offset frame : Z) : outcome (Z * kstate A vfs_state) :=
  file ← expect (k_file k v);
  match file with
  | NoData => Done (-22, k)
  | RamfsFile ino =>
      let bytes := ramfs_read (k_mem k) ino 4096 file_offset in
      let n := length bytes in
      Done (Z.of_nat n, k_write_page k frame (bytes ++ replicate (4096 - n) 0))
  end.

(** The second critical section of [get_or_fill]: the frame to return, and the new
    cache or none when another frame won. *)
Definition cache_insert (c : list PageCacheBucket) (v file_offset frame : Z) : Z * option (list PageCacheBucket) :=
  let b := bucket_at c v file_offset in
  match find_entry v file_offset b with
  | Some existing => (pe_frame existing, None)
  | None =>
      (frame, Some (<[bucket_index v file_offset :=
        fill_slot {| pe_vnode_ptr := v; pe_file_offset := file_offset; pe_frame := frame; pe_dirty := false |} b]> c))
  end.

Definition get_or_fill k (v file_offset : Z) : outcome (option Z * kstate A vfs_state) :=
  match cache_lookup (k_cache k) v file_offset with
  | Some frame => Done (Some frame, k)
  | None =>
      '(frame, k1) ← k_alloc_frame k;
      let k2 := k_write_page k1 frame AddressSpace.zero_page in
      '(n, k3) ← fill_page_from_vnode k2 v file_offset frame;
      if n <? 0 then k4 ← k_free_frame k3 frame; Done (None, k4) else
      match cache_insert (k_cache k3) v file_offset frame with
      | (winner, None) => k4 ← k_free_frame k3 frame; Done (Some winner, k4)
      | (winner, Some c) => Done (Some winner, set_cache k3 c)
      end
  end.

Definition mark_dirty k (v file_offset : Z) : kstate A vfs_state :=
  set_cache k (<[bucket_index v file_offset := dirty_slot v file_offset (bucket_at (k_cache k) v file_offset)]> (k_cache k)).

(** [vn.ops.write]. *)
Definition write_vnode k (v : Z) (buf : list Z) (offset : Z) : outcome (Z * kstate A vfs_state) :=
  file ← expect (k_file k v);
  match file with
  | NoData => Done (-22, k)
  | RamfsFile ino =>
      '(n, data, ino', a) ← ramfs_write (k_mem k) ino (pt_alloc (k_pt k)) buf offset;
      let k1 := set_pt (set_mem k data) {| tabs := tabs (k_pt k); pt_alloc := a |} in
      Done (n, set_file k1 v (RamfsFile ino'))
  end.

Definition vnode_size (f : fs_file) : Z := match f with RamfsFile ino => ri_size ino | NoData => 0 end.

(** The entries of one bucket; the flag tells whether the loop ran to its end. *)
Fixpoint writeback_bucket k (v vsize : Z) (b : PageCacheBucket) : outcome (bool * PageCacheBucket * kstate A vfs_state) :=
  match b with
  | [] => Done (true, [], k)
  | s :: b' =>
      let go k1 s' := '(ok, b1, k2) ← writeback_bucket k1 v vsize b'; Done (ok, s' :: b1, k2) in
      match s with
      | None => go k None
      | Some e =>
          if negb (pe_vnode_ptr e =? v) || negb (pe_dirty e) then go k (Some e) else
          if vsize <=? pe_file_offset e then go k (Some (set_dirty false e)) else
          let len := Z.min (vsize - pe_file_offset e) 4096 in
          '(n, k1) ← write_vnode k v (take (Z.to_nat len) (page_of k (pe_frame e))) (pe_file_offset e);
          if n <? 0 then Done (false, s :: b', k1) else go k1 (Some (set_dirty false e))
      end
  end.

Fixpoint writeback_buckets k (v vsize : Z) (bs : list PageCacheBucket) : outcome (bool * list PageCacheBucket * kstate A vfs_state) :=
  match bs with
  | [] => Done (true, [], k)
  | b :: bs' =>
      '(ok, b1, k1) ← writeback_bucket k v vsize b;
      if (ok : bool) then '(ok', bs1, k2) ← writeback_buckets k1 v vsize bs'; Done (ok', b1 :: bs1, k2)
      else Done (false, b1 :: bs', k1)
  end.

Definition writeback_vnode k (v : Z) : outcome (Z * kstate A vfs_state) :=
  file ← expect (k_file k v);
  '(ok, c, k1) ← writeback_buckets k v (vnode_size file) (k_cache k);
  Done (if (ok : bool) then 0 else -5, set_cache k1 c).

(** [evict_vnode]: the slots of a vnode are emptied and their frames freed. *)
Definition evict_slot (v : Z) (st : PageCacheBucket * kstate A vfs_state) (s : option PageCacheEntry) : outcome (PageCacheBucket * kstate A vfs_state) :=
  let '(b, k) := st in
  match s with
  | Some e => if pe_vnode_ptr e =? v then k1 ← k_free_frame k (pe_frame e); Done (b ++ [None], k1) else Done (b ++ [s], k)
  | None => Done (b ++ [None], k)
  end.

Definition evict_vnode k (v : Z) : outcome (kstate A vfs_state) :=
  '(c, k1) ← foldM (fun '(c, k) b => '(b1, k1) ← foldM (evict_slot v) ([], k) b; Done (c ++ [b1], k1)) ([], k) (k_cache k);
  Done (set_cache k1 c).

(** The reference counts, through the registered hooks. *)
Definition bump_ref (d : Z) k (v : Z) : kstate A vfs_state :=
  set_vfs k {| vs_files := vs_files (k_vfs k); vs_cache := vs_cache (k_vfs k); vs_refs := alter (fun n => wrap32 (n + d)) v (vs_refs (k_vfs k)) |}.

#[global] Instance page_cache_hooks : VfsHooks A vfs_state := {
  page_cache_get_or_fill := get_or_fill;
  page_cache_mark_dirty := mark_dirty;
  page_cache_writeback := writeback_vnode;
  vnode_inc_ref := bump_ref 1;
  vnode_dec_ref := bump_ref (-1)
}.

End PageCache.
