(* ===== verification/PageCacheSpec.v ===== *)
(** * What the page cache holds

    The invariant of the cache next to the files it caches, and theorems on filling a
    page and on writing back. *)

From Stdlib Require Import ZArith Lia.
From stdpp Require Import prelude gmap list.
From S2P Require Import Prelude Frames PageTable UserMap Cow Vma AddressSpace Loader Faults Ramfs PageCache.

Local Open Scope Z_scope.

Definition pe_key (e : PageCacheEntry) : Z * Z := (pe_vnode_ptr e, pe_file_offset e).

(** The entries of a bucket, and of the cache. *)
Definition held (b : PageCacheBucket) : list PageCacheEntry := omap id b.
Definition cached (c : list PageCacheBucket) : list PageCacheEntry := c ≫= held.

Lemma is_key_true v o e : is_key v o e = true <-> pe_key e = (v, o).
Proof. unfold is_key, pe_key. rewrite andb_true_iff, !Z.eqb_eq. split; [by intros [-> ->]|by intros [= -> ->]]. Qed.

Lemma elem_of_bucket_held b e : e ∈ held b <-> Some e ∈ b.
Proof. unfold held. rewrite list_elem_of_omap. split; [intros (x & Hx & E); cbn in E; by subst|intros Hb; by exists (Some e)]. Qed.

Lemma find_entry_Some v o b e : find_entry v o b = Some e -> e ∈ held b /\ pe_key e = (v, o).
Proof.
  induction b as [|[e'|] b IH]; cbn; [done| |exact IH]. destruct (is_key v o e') eqn:E.
  - intros [= <-]. split; [left|by apply is_key_true].
  - intros Hf. destruct (IH Hf). split; [by right|done].
Qed.

Lemma find_entry_None v o b : find_entry v o b = None -> (v, o) ∉ pe_key <$> held b.
Proof.
  induction b as [|[e'|] b IH]; cbn; [intros _; apply not_elem_of_nil| |exact IH]. destruct (is_key v o e') eqn:E; [done|].
  intros Hf. apply not_elem_of_cons. split; [|by apply IH]. intros Hk. symmetry in Hk. apply is_key_true in Hk. congruence.
Qed.

Lemma fill_slot_held e b : None ∈ b -> held (fill_slot e b) ≡ₚ e :: held b.
Proof.
  induction b as [|[e'|] b IH]; cbn; [by intros ?%not_elem_of_nil| |done]. intros [|Hn]%elem_of_cons; [done|].
  rewrite (IH Hn). apply perm_swap.
Qed.

Lemma fill_slot_full e b : None ∉ b -> fill_slot e b = b.
Proof. induction b as [|[e'|] b IH]; cbn; [done| |]; rewrite not_elem_of_cons; [|tauto]. intros [_ Hn]. by rewrite IH. Qed.

Lemma fill_slot_length e b : length (fill_slot e b) = length b.
Proof. induction b as [|[e'|] b IH]; cbn; [done| |done]. by rewrite IH. Qed.

(** Replacing one bucket. *)
Lemma cached_insert c i b b' x : c !! i = Some b -> held b' ≡ₚ x ++ held b -> cached (<[i := b']> c) ≡ₚ x ++ cached c.
Proof.
  intros Hi Hp. rewrite insert_take_drop by (by eapply lookup_lt_Some). rewrite <- (take_drop_middle c i b Hi) at 3.
  unfold cached. rewrite !bind_app, !bind_cons, Hp, <- !app_assoc. apply Permutation_app_swap_app.
Qed.

Section Spec.
Context {A : Type} `{FrameAllocatorLaws A}.
Implicit Types k : kstate A vfs_state.

Definition placed (c : list PageCacheBucket) : Prop :=
  forall i b e, c !! i = Some b -> e ∈ held b -> bucket_index (pe_vnode_ptr e) (pe_file_offset e) = i.

(** A frame that holds a cached page. *)
Definition frame_ok k (f : Z) : Prop :=
  is_block (k_mem k) f /\ f ∉ k_free k /\ f mod 4096 = 0 /\ 0 < f < 2 ^ 44.

Record pc_ok k : Prop := {
  po_alloc : fa_ok (pt_alloc (k_pt k));
  po_length : length (k_cache k) = PAGECACHE_BUCKETS;
  po_caps : Forall (fun b => length b = PAGECACHE_BUCKET_CAP) (k_cache k);
  po_placed : placed (k_cache k);
  po_keys : NoDup (pe_key <$> cached (k_cache k));
  po_nodup : NoDup (pe_frame <$> cached (k_cache k));
  po_frames : Forall (frame_ok k) (pe_frame <$> cached (k_cache k));
  po_files v ino : k_file k v = Some (RamfsFile ino) ->
    file_ok (k_mem k) ino (pt_alloc (k_pt k)) /\ forall b, b ∈ ri_blocks ino -> b ∉ pe_frame <$> cached (k_cache k);
  po_apart v v' ino ino' b : k_file k v = Some (RamfsFile ino) -> k_file k v' = Some (RamfsFile ino') ->
    b ∈ ri_blocks ino -> b ∈ ri_blocks ino' -> v = v'
}.

Lemma bucket_index_lt v o : (bucket_index v o < PAGECACHE_BUCKETS)%nat.
Proof.
  unfold bucket_index, PAGECACHE_BUCKETS. set (h := wrap64 _). pose proof (wrap64_range (Z.lxor v (wrap64 (Z.shiftr o 12 * 0x2545F4914F6CDD1D)) * 0x9e3779b97f4a7c15)) as Hh.
  fold h in Hh. unfold is_u64 in Hh. rewrite Z.shiftr_div_pow2 by lia. change (2 ^ (64 - 8)) with (2 ^ 56).
  assert (0 <= h / 2 ^ 56 < 256) by (split; [apply Z.div_pos; lia|apply Z.div_lt_upper_bound; lia]). lia.
Qed.

Lemma bucket_at_lookup k v o : pc_ok k -> k_cache k !! bucket_index v o = Some (bucket_at (k_cache k) v o).
Proof.
  intros Hk. unfold bucket_at. destruct (k_cache k !! bucket_index v o) eqn:E; [done|].
  apply lookup_ge_None in E. rewrite (po_length _ Hk) in E. pose proof (bucket_index_lt v o). lia.
Qed.

Lemma cached_bucket c e : e ∈ cached c <-> exists i b, c !! i = Some b /\ e ∈ held b.
Proof.
  unfold cached. rewrite list_elem_of_bind. split.
  - intros (b & Hb & Hc). apply list_elem_of_lookup in Hc as [i Hi]. eauto.
  - intros (i & b & Hi & Hb). exists b. split; [done|by eapply list_elem_of_lookup_2].
Qed.

(** The lookup finds exactly what is cached. *)
Lemma cache_lookup_iff k v o f : pc_ok k ->
  cache_lookup (k_cache k) v o = Some f <-> exists e, e ∈ cached (k_cache k) /\ pe_key e = (v, o) /\ pe_frame e = f.
Proof.
  intros Hk. pose proof (bucket_at_lookup k v o Hk) as Hb. unfold cache_lookup. rewrite fmap_Some. split.
  - intros (e & He & ->). apply find_entry_Some in He as [Hh Hkey]. exists e. split; [|done]. apply cached_bucket. eauto.
  - intros (e & Hc & Hkey & <-). pose proof Hc as Hc'. apply cached_bucket in Hc as (i & b & Hi & Hin). pose proof (po_placed _ Hk i b e Hi Hin) as Hp.
    injection Hkey as Hv Ho. rewrite Hv, Ho in Hp. subst i. rewrite Hb in Hi. injection Hi as <-.
    destruct (find_entry v o (bucket_at (k_cache k) v o)) as [e'|] eqn:E.
    + exists e'. split; [done|]. apply find_entry_Some in E as [Hin' Hkey'].
      assert (e' ∈ cached (k_cache k)) as Hc2 by (apply cached_bucket; eauto). f_equal.
      apply list_elem_of_lookup in Hc' as [i1 Hi1]. apply list_elem_of_lookup in Hc2 as [i2 Hi2].
      assert (i1 = i2) as <-.
      { apply (NoDup_lookup (pe_key <$> cached (k_cache k)) i1 i2 (v, o)); [apply Hk|..]; rewrite list_lookup_fmap.
        - rewrite Hi1. cbn. f_equal. unfold pe_key. congruence.
        - rewrite Hi2. cbn. by f_equal. }
      congruence.
    + apply find_entry_None in E. exfalso. apply E. apply list_elem_of_fmap. exists e. split; [|done]. unfold pe_key. congruence.
Qed.

(** ** Filling a page *)

Lemma is_block_same (m m' : gmap Z (list Z)) f : m' !! f = m !! f -> is_block m f -> is_block m' f.
Proof. intros E (p & Hp & Hl). exists p. by rewrite E. Qed.

Lemma used_frame k f : pc_ok k -> f ∈ k_free k ->
  f ∉ pe_frame <$> cached (k_cache k) /\ forall v ino, k_file k v = Some (RamfsFile ino) -> f ∉ ri_blocks ino.
Proof.
  intros Hk Hf. split.
  - intros Hin. pose proof (po_frames _ Hk) as Hfr. rewrite Forall_forall in Hfr. by destruct (Hfr f Hin) as (_ & Hn & _).
  - intros v ino Hv Hin. destruct (po_files _ Hk v ino Hv) as [Hok _]. by apply (fo_used _ _ _ Hok f Hin).
Qed.

(** Taking a free frame and writing to it does not concern the cache or the files. *)
Lemma pc_ok_fresh k k' f : pc_ok k -> f ∈ k_free k -> fa_ok (pt_alloc (k_pt k')) -> k_free k' = k_free k ∖ {[f]} -> k_vfs k' = k_vfs k ->
  (forall g, g <> f -> k_mem k' !! g = k_mem k !! g) -> pc_ok k'.
Proof.
  intros Hk Hf Ha Hfr Hv Hm. destruct (used_frame k f Hk Hf) as [Hc Hb].
  assert (k_cache k' = k_cache k) as Ec by (unfold k_cache; by rewrite Hv).
  assert (forall v, k_file k' v = k_file k v) as Ef by (intros v; unfold k_file; by rewrite Hv).
  destruct Hk as [P1 P2 P3 P4 P5 P6 P7 P8 P9]. constructor; rewrite ?Ec; try done.
  - rewrite Forall_forall in *. intros g Hg. destruct (P7 g Hg) as (Hg1 & Hg2 & Hg3). assert (g <> f) by congruence.
    split; [eapply is_block_same; [by apply Hm|done]|]. split; [rewrite Hfr; set_solver|done].
  - intros v ino. rewrite Ef. intros E. destruct (P8 v ino E) as [[F1 F2 F3 F4] Hd]. split; [|done]. constructor; try done.
    + rewrite Forall_forall in *. intros b Hin. eapply is_block_same; [apply Hm; intros ->; by apply (Hb v ino E)|by apply F1].
    + intros b Hin. fold (k_free k'). rewrite Hfr. pose proof (F3 b Hin). fold (k_free k) in *. set_solver.
  - intros v v' ino ino' b. rewrite !Ef. apply P9.
Qed.

(** The frame becomes the page of a key that was not cached, if the bucket has room. *)
Lemma pc_ok_insert k f v o : pc_ok k -> frame_ok k f -> f ∉ pe_frame <$> cached (k_cache k) ->
  (forall w ino, k_file k w = Some (RamfsFile ino) -> f ∉ ri_blocks ino) -> (v, o) ∉ pe_key <$> cached (k_cache k) ->
  let b := bucket_at (k_cache k) v o in
  let e := {| pe_vnode_ptr := v; pe_file_offset := o; pe_frame := f; pe_dirty := false |} in
  let k' := set_cache k (<[bucket_index v o := fill_slot e b]> (k_cache k)) in
  pc_ok k' /\ (None ∈ b -> cached (k_cache k') ≡ₚ e :: cached (k_cache k)) /\ (None ∉ b -> k_cache k' = k_cache k).
Proof.
  intros Hk Hf Hnc Hnb Hnk b e k'. pose proof (bucket_at_lookup k v o Hk) as Hb. fold b in Hb.
  assert (None ∉ b -> k_cache k' = k_cache k) as Hfull by (intros Hn; cbn; rewrite fill_slot_full by done; by apply list_insert_id).
  destruct (decide (None ∈ b)) as [Hn|Hn].
  2: { split; [|done]. specialize (Hfull Hn). destruct Hk. constructor; try done; by rewrite Hfull. }
  assert (cached (k_cache k') ≡ₚ e :: cached (k_cache k)) as Hp by (apply (cached_insert _ _ b _ [e] Hb), fill_slot_held, Hn).
  split; [|done]. destruct Hk as [P1 P2 P3 P4 P5 P6 P7 P8 P9]. constructor; try done.
  - cbn. by rewrite length_insert.
  - cbn. apply Forall_insert; [done|]. rewrite fill_slot_length. by apply (Forall_lookup_1 _ _ _ _ P3 Hb).
  - intros i b' e' Hi Hin. cbn in Hi. apply list_lookup_insert_Some in Hi as [(<- & <- & _)|[_ Hi]]; [|by eapply P4].
    rewrite fill_slot_held in Hin by done. apply elem_of_cons in Hin as [->|Hin]; [done|by eapply P4].
  - rewrite Hp. by apply NoDup_cons.
  - rewrite Hp. by apply NoDup_cons.
  - rewrite Hp. by apply Forall_cons.
  - intros w ino Hw. destruct (P8 w ino Hw) as [F1 F2]. split; [done|]. intros x Hx. rewrite Hp. cbn. apply not_elem_of_cons.
    split; [|by apply F2]. intros ->. by apply (Hnb w ino).
Qed.

(** The page of a file at an offset: its bytes, then zeroes. *)
Definition file_page (m : gmap Z (list Z)) (ino : RamfsInode) (o : Z) : list Z :=
  let bytes := ramfs_read m ino 4096 o in bytes ++ replicate (4096 - length bytes) 0.

Lemma ramfs_read_length m ino o : Forall (is_block m) (ri_blocks ino) -> 0 <= o -> (length (ramfs_read m ino 4096 o) <= 4096)%nat.
Proof. intros Hb Ho. rewrite ramfs_read_spec by (try done; lia). rewrite length_take. lia. Qed.

Lemma file_page_length m ino o : Forall (is_block m) (ri_blocks ino) -> 0 <= o -> length (file_page m ino o) = 4096%nat.
Proof. intros Hb Ho. unfold file_page. rewrite length_app, length_replicate. pose proof (ramfs_read_length m ino o Hb Ho). lia. Qed.

Lemma key_not_cached k v o : pc_ok k -> cache_lookup (k_cache k) v o = None -> (v, o) ∉ pe_key <$> cached (k_cache k).
Proof.
  intros Hk Hn Hin. apply list_elem_of_fmap in Hin as (e & Hkey & He).
  assert (cache_lookup (k_cache k) v o = Some (pe_frame e)) by (apply cache_lookup_iff; eauto). congruence.
Qed.

(** What filling a page that was not cached does. *)
Record filled k (v o : Z) (ino : RamfsInode) (f : Z) k' : Prop := {
  fi_frame : f ∈ k_free k /\ f mod 4096 = 0 /\ 0 < f < 2 ^ 44;
  fi_free : k_free k' = k_free k ∖ {[f]};
  fi_page : page_of k' f = file_page (k_mem k) ino o;
  fi_other : forall g, g <> f -> k_mem k' !! g = k_mem k !! g;
  fi_files : vs_files (k_vfs k') = vs_files (k_vfs k);
  fi_cached : None ∈ bucket_at (k_cache k) v o -> cache_lookup (k_cache k') v o = Some f;
  fi_keep : forall w p, (w, p) <> (v, o) -> cache_lookup (k_cache k') w p = cache_lookup (k_cache k) w p;
  fi_rest : tabs (k_pt k') = tabs (k_pt k) /\ k_cow k' = k_cow k /\ k_shoot k' = k_shoot k
}.

Lemma lookup_after_insert k k' e : pc_ok k -> pc_ok k' -> cached (k_cache k') ≡ₚ e :: cached (k_cache k) ->
  cache_lookup (k_cache k') (pe_vnode_ptr e) (pe_file_offset e) = Some (pe_frame e) /\
  forall w p, (w, p) <> pe_key e -> cache_lookup (k_cache k') w p = cache_lookup (k_cache k) w p.
Proof.
  intros Hk Hk' Hp. split; [apply cache_lookup_iff; [done|]; exists e; split; [rewrite Hp; left|done]|].
  intros w p Hne. apply option_eq. intros f. rewrite !cache_lookup_iff by done. split; intros (x & Hx & Hkx & Hfx); exists x.
  - rewrite Hp in Hx. apply elem_of_cons in Hx as [->|Hx]; [congruence|done].
  - split; [rewrite Hp; by right|done].
Qed.

Lemma k_alloc_frame_ok k : pc_ok k ->
  match k_alloc_frame k with
  | Done (f, k') => f ∈ k_free k /\ f mod 4096 = 0 /\ 0 < f < 2 ^ 44 /\ k_free k' = k_free k ∖ {[f]} /\ fa_ok (pt_alloc (k_pt k')) /\
      k_mem k' = k_mem k /\ k_vfs k' = k_vfs k /\ tabs (k_pt k') = tabs (k_pt k) /\ k_cow k' = k_cow k /\ k_shoot k' = k_shoot k
  | Panic => k_free k = ∅
  end.
Proof.
  intros Hk. unfold k_alloc_frame, k_free. destruct (fa_alloc_frame (pt_alloc (k_pt k))) as [[f a']|] eqn:Ha; run.
  - destruct (fa_alloc_Some _ _ _ (po_alloc _ Hk) Ha) as (? & ? & ? & ? & ?). done.
  - by apply fa_alloc_None; [apply Hk|].
Qed.

Lemma overwrite_page (page bytes : list Z) : length bytes = 4096%nat -> (length page <= 4096)%nat -> overwrite page bytes = bytes.
Proof. intros Hb Hp. unfold overwrite. rewrite drop_ge by lia. apply app_nil_r. Qed.

Lemma zeroed_length : length AddressSpace.zero_page = 4096%nat.
Proof. apply length_replicate. Qed.

(** A fresh frame with the page of the file, before it enters the cache. *)
Record loaded k k1 (o : Z) (ino : RamfsInode) (f : Z) k3 : Prop := {
  lo_ok : pc_ok k3;
  lo_frame : frame_ok k3 f;
  lo_page : page_of k3 f = file_page (k_mem k) ino o;
  lo_other : forall g, g <> f -> k_mem k3 !! g = k_mem k !! g;
  lo_vfs : k_vfs k3 = k_vfs k;
  lo_rest : k_pt k3 = k_pt k1 /\ k_cow k3 = k_cow k1 /\ k_shoot k3 = k_shoot k1
}.

Lemma fill_fresh k k1 v o ino f : pc_ok k -> k_file k v = Some (RamfsFile ino) -> 0 <= o -> length (page_of k f) = 4096%nat ->
  k_alloc_frame k = Done (f, k1) ->
  exists n k3, fill_page_from_vnode (k_write_page k1 f AddressSpace.zero_page) v o f = Done (n, k3) /\ 0 <= n /\ loaded k k1 o ino f k3.
Proof.
  intros Hk Hv Ho Hlen Ea. pose proof (k_alloc_frame_ok k Hk) as Ha. rewrite Ea in Ha.
  destruct Ha as (Hf & Hal & Hr & Hfr & Hok & Hm1 & Hv1 & _). destruct (used_frame k f Hk Hf) as [Hnc Hnb].
  set (k2 := k_write_page k1 f AddressSpace.zero_page). unfold fill_page_from_vnode.
  assert (k_file k2 v = Some (RamfsFile ino)) as -> by (rewrite <- Hv; unfold k_file; cbn; by rewrite Hv1). run.
  destruct (po_files _ Hk v ino Hv) as [Hfo _].
  assert (ramfs_read (k_mem k2) ino 4096 o = ramfs_read (k_mem k) ino 4096 o) as ->.
  { apply (file_frame (k_mem k) (k_mem k2) (pt_alloc (k_pt k)) (pt_alloc (k_pt k)) ino 4096 o Hfo); [|done|done|lia].
    intros b Hb. cbn. rewrite lookup_insert_ne by (intros ->; by apply (Hnb v ino)). by rewrite Hm1. }
  fold (file_page (k_mem k) ino o). set (k3 := k_write_page k2 f (file_page (k_mem k) ino o)).
  eexists _, k3. split; [done|]. split; [lia|].
  pose proof (file_page_length (k_mem k) ino o (fo_blocks _ _ _ Hfo) Ho) as Hpl.
  assert (page_of k3 f = file_page (k_mem k) ino o) as Hpage.
  { unfold k3. rewrite page_of_write_eq. apply overwrite_page; [done|]. unfold k2. rewrite page_of_write_eq, overwrite_page by (rewrite ?zeroed_length; try done; unfold page_of; rewrite Hm1; fold (page_of k f); lia).
    by rewrite zeroed_length. }
  assert (forall g, g <> f -> k_mem k3 !! g = k_mem k !! g) as Hoth by (intros g Hg; cbn; rewrite !lookup_insert_ne by done; by rewrite Hm1).
  constructor; try done.
  - by apply (pc_ok_fresh k k3 f).
  - split; [exists (file_page (k_mem k) ino o); split; [|done]; rewrite <- Hpage; unfold page_of; cbn; by rewrite lookup_insert_eq|].
    split; [change (k_free k3) with (k_free k1); rewrite Hfr; set_solver|done].
Qed.

(** Looking up a page, or filling it from the file. *)
Lemma get_or_fill_spec k v o ino : pc_ok k -> k_file k v = Some (RamfsFile ino) -> 0 <= o -> (forall f, f ∈ k_free k -> length (page_of k f) = 4096%nat) ->
  match get_or_fill k v o with
  | Done (r, k') => exists f, r = Some f /\ pc_ok k' /\
      match cache_lookup (k_cache k) v o with Some f' => f = f' /\ k' = k | None => filled k v o ino f k' end
  | Panic => cache_lookup (k_cache k) v o = None /\ k_free k = ∅
  end.
Proof.
  intros Hk Hv Ho Hlen. unfold get_or_fill. destruct (cache_lookup (k_cache k) v o) as [f|] eqn:Hc; [by exists f|].
  pose proof (k_alloc_frame_ok k Hk) as Ha. destruct (k_alloc_frame k) as [[f k1]|] eqn:Ea; run; [|done].
  destruct Ha as (Hf & Hal & Hr & Hfr & Hok & Hm1 & Hv1 & Ht1 & Hc1 & Hs1). destruct (used_frame k f Hk Hf) as [Hnc Hnb].
  destruct (fill_fresh k k1 v o ino f Hk Hv Ho (Hlen f Hf) Ea) as (n & k3 & -> & Hn & [Hk3 Hfok Hpage Hoth Hv3 (Hpt & Hcw & Hsh)]). run.
  rewrite (proj2 (Z.ltb_ge n 0)) by lia. assert (k_cache k3 = k_cache k) as Ec by (unfold k_cache; by rewrite Hv3).
  assert (forall w ino', k_file k3 w = Some (RamfsFile ino') -> f ∉ ri_blocks ino') as Hnb3 by (intros w ino' Hw; apply (Hnb w); rewrite <- Hw; unfold k_file; by rewrite Hv3).
  pose proof (key_not_cached k v o Hk Hc) as Hkey. rewrite <- Ec in Hnc, Hkey.
  destruct (pc_ok_insert k3 f v o Hk3 Hfok Hnc Hnb3 Hkey) as (Hk4 & Hroom & Hfull).
  unfold cache_insert. destruct (find_entry v o (bucket_at (k_cache k3) v o)) eqn:Ef.
  { exfalso. apply find_entry_Some in Ef as [He Hke]. apply Hkey. apply list_elem_of_fmap. eexists. split; [symmetry; exact Hke|].
    apply cached_bucket. eexists _, _. split; [by apply bucket_at_lookup|done]. }
  set (k4 := set_cache k3 _) in *. exists f. split; [done|]. split; [exact Hk4|].
  assert (None ∈ bucket_at (k_cache k) v o -> cache_lookup (k_cache k4) v o = Some f /\ forall w p, (w, p) <> (v, o) -> cache_lookup (k_cache k4) w p = cache_lookup (k_cache k) w p) as Hin.
  { intros Hnn. rewrite <- Ec in Hnn |- *. exact (lookup_after_insert k3 k4 _ Hk3 Hk4 (Hroom Hnn)). }
  constructor; try done.
  - change (k_free k4) with (k_free k3). unfold k_free at 1. by rewrite Hpt.
  - cbn. by rewrite Hv3.
  - by apply Hin.
  - destruct (decide (None ∈ bucket_at (k_cache k) v o)) as [Hnn|Hnn]; [by apply Hin|]. intros w p _. rewrite <- Ec in Hnn |- *. by rewrite (Hfull Hnn).
  - cbn. rewrite Hpt, Hcw, Hsh. done.
Qed.

(** ** Writing back *)

Lemma provision_enough fuel need blocks data (a : A) : need <= Z.of_nat (length blocks) -> provision fuel need blocks data a = Done (blocks, data, a).
Proof. intros Hn. destruct fuel; [done|]. cbn [provision]. by rewrite (proj2 (Z.ltb_ge (Z.of_nat (length blocks)) need)) by lia. Qed.

(** A file that has all blocks its size asks for. *)
Definition backed (ino : RamfsInode) : Prop := 0 <= ri_size ino <= 4096 * Z.of_nat (length (ri_blocks ino)).

(** A write inside a file changes its bytes there and nothing else. *)
Lemma write_vnode_inside k v ino buf o : k_file k v = Some (RamfsFile ino) -> file_ok (k_mem k) ino (pt_alloc (k_pt k)) -> backed ino ->
  0 <= o -> o + Z.of_nat (length buf) <= ri_size ino ->
  exists m, write_vnode k v buf o = Done (Z.of_nat (length buf), set_mem k m) /\
    block_bytes m (ri_blocks ino) = splice (block_bytes (k_mem k) (ri_blocks ino)) (Z.to_nat o) buf /\
    Forall (is_block m) (ri_blocks ino) /\ (forall b, b ∉ ri_blocks ino -> m !! b = k_mem k !! b).
Proof.
  intros Hv Hf Hb Ho He. destruct Hf as [F1 F2 F3 F4]. unfold backed in Hb.
  unfold write_vnode. rewrite Hv. run. unfold ramfs_write.
  rewrite (wrap64_small (o + Z.of_nat (length buf))) by (unfold is_u64; lia). unfold RAMFS_BLOCK_SIZE. fold (blocks_for (o + Z.of_nat (length buf))).
  pose proof (blocks_for_spec (o + Z.of_nat (length buf)) ltac:(lia)). rewrite provision_enough by lia. run.
  destruct (write_loop_spec (ri_blocks ino) buf (S (length (ri_blocks ino))) 0 o (k_mem k) F1 F2 Ho ltac:(lia)) as (m & E & W1 & W2 & W3).
  { assert (0 <= o / 4096) by (apply Z.div_pos; lia). lia. }
  rewrite Z.sub_0_r in *. rewrite room_all in * by lia. rewrite E. exists m. split_and!; [|rewrite W1; f_equal; unfold sub_bytes; rewrite drop_0, take_ge; [done|lia]|done|done].
  rewrite Z.add_0_l, (proj2 (Z.ltb_ge (ri_size ino) _)) by lia. f_equal. f_equal. unfold set_file, set_vfs, set_pt, set_mem. cbn.
  assert ({| ri_vtype := ri_vtype ino; ri_size := ri_size ino; ri_blocks := ri_blocks ino; ri_children_phys := ri_children_phys ino; ri_children := ri_children ino |} = ino) as -> by by destruct ino.
  rewrite insert_id by exact Hv. by destruct k as [[] ? ? [] ?].
Qed.

(** What writing back one entry puts into the bytes of the file. *)
Definition flushes (v : Z) (ino : RamfsInode) (e : PageCacheEntry) : bool :=
  (pe_vnode_ptr e =? v) && pe_dirty e && (pe_file_offset e <? ri_size ino).

Definition flush k (ino : RamfsInode) (content : list Z) (e : PageCacheEntry) : list Z :=
  splice content (Z.to_nat (pe_file_offset e)) (take (Z.to_nat (Z.min (ri_size ino - pe_file_offset e) 4096)) (page_of k (pe_frame e))).

Definition clean (v : Z) (e : PageCacheEntry) : PageCacheEntry := if pe_vnode_ptr e =? v then set_dirty false e else e.

Record wrote_back k (v : Z) (ino : RamfsInode) (es : list PageCacheEntry) k' : Prop := {
  wb_state : exists m, k' = set_mem k m;
  wb_bytes : block_bytes (k_mem k') (ri_blocks ino) = foldl (flush k ino) (block_bytes (k_mem k) (ri_blocks ino)) (filter (fun e => flushes v ino e = true) es);
  wb_blocks : Forall (is_block (k_mem k')) (ri_blocks ino);
  wb_other : forall b, b ∉ ri_blocks ino -> k_mem k' !! b = k_mem k !! b
}.

Lemma set_dirty_false e : pe_dirty e = false -> set_dirty false e = e.
Proof. destruct e. cbn. by intros ->. Qed.

Definition clean_bucket (v : Z) (b : PageCacheBucket) : PageCacheBucket := map (option_map (clean v)) b.

(** One more entry. *)
Lemma wrote_back_flush k0 v ino es k e : backed ino -> file_ok (k_mem k0) ino (pt_alloc (k_pt k0)) -> k_file k0 v = Some (RamfsFile ino) ->
  wrote_back k0 v ino es k -> flushes v ino e = true -> 0 <= pe_file_offset e -> pe_frame e ∉ ri_blocks ino -> length (page_of k0 (pe_frame e)) = 4096%nat ->
  exists n k1, write_vnode k v (take (Z.to_nat (Z.min (ri_size ino - pe_file_offset e) 4096)) (page_of k (pe_frame e))) (pe_file_offset e) = Done (n, k1) /\
    0 <= n /\ wrote_back k0 v ino (es ++ [e]) k1.
Proof.
  intros Hb Hf Hv [[m ->] W2 W3 W4] Hfl Ho Hnb Hlen. cbn [k_mem set_mem] in *.
  assert (page_of (set_mem k0 m) (pe_frame e) = page_of k0 (pe_frame e)) as -> by (unfold page_of; cbn; by rewrite W4).
  unfold flushes in Hfl. apply andb_prop in Hfl as [[Hev Hd]%andb_prop Hlt]. apply Z.ltb_lt in Hlt.
  set (buf := take _ _). assert (Z.of_nat (length buf) = Z.min (ri_size ino - pe_file_offset e) 4096) as Hbuf by (unfold buf; rewrite length_take; lia).
  destruct (write_vnode_inside (set_mem k0 m) v ino buf (pe_file_offset e) Hv) as (m' & E & B1 & B2 & B3); [|done|done|lia|].
  { destruct Hf as [F1 F2 F3 F4]. by constructor. }
  eexists _, _. split; [exact E|]. split; [lia|]. constructor; cbn [k_mem set_mem] in *.
  - exists m'. done.
  - rewrite B1, W2, filter_app, foldl_app, filter_cons_True by (unfold flushes; by rewrite Hev, Hd, (proj2 (Z.ltb_lt _ _))). done.
  - done.
  - intros x Hx. rewrite B3, W4 by done. done.
Qed.

Lemma writeback_bucket_spec k0 v ino : backed ino -> file_ok (k_mem k0) ino (pt_alloc (k_pt k0)) -> k_file k0 v = Some (RamfsFile ino) ->
  forall b es k, wrote_back k0 v ino es k ->
  (forall e, e ∈ held b -> 0 <= pe_file_offset e /\ pe_frame e ∉ ri_blocks ino /\ length (page_of k0 (pe_frame e)) = 4096%nat) ->
  exists k', writeback_bucket k v (ri_size ino) b = Done (true, clean_bucket v b, k') /\ wrote_back k0 v ino (es ++ held b) k'.
Proof.
  intros Hb Hf Hv. induction b as [|s b IH]; intros es k Hw Hall.
  { exists k. split; [done|]. cbn. by rewrite app_nil_r. }
  cbn [writeback_bucket]. destruct s as [e|].
  2: { destruct (IH es k Hw) as (k' & E & Hw'); [intros e He; apply Hall; exact He|]. exists k'. rewrite E. done. }
  assert (forall k1, wrote_back k0 v ino (es ++ [e]) k1 -> exists k', ('(ok, b1, k2) ← writeback_bucket k1 v (ri_size ino) b; Done (ok, Some (clean v e) :: b1, k2)) = Done (true, clean_bucket v (Some e :: b), k') /\ wrote_back k0 v ino (es ++ held (Some e :: b)) k') as Hgo.
  { intros k1 Hw1. destruct (IH (es ++ [e]) k1 Hw1) as (k' & E & Hw'); [intros x Hx; apply Hall; by right|]. exists k'. rewrite E. split; [done|]. by rewrite <- app_assoc in Hw'. }
  assert (flushes v ino e = false -> wrote_back k0 v ino (es ++ [e]) k) as Hskip.
  { intros Hfl. destruct Hw as [W1 W2 W3 W4]. constructor; try done. rewrite filter_app, filter_cons_False, app_nil_r by (by rewrite Hfl). done. }
  unfold flushes in Hskip. destruct (Z.eqb_spec (pe_vnode_ptr e) v) as [Ev|Ev]; cbn [negb orb].
  2: { assert (clean v e = e) as Hcl by (unfold clean; by rewrite (proj2 (Z.eqb_neq _ _))). rewrite Hcl in Hgo. by apply Hgo, Hskip. }
  assert (clean v e = set_dirty false e) as Hcl by (unfold clean; by rewrite (proj2 (Z.eqb_eq _ _))). rewrite Hcl in Hgo.
  destruct (pe_dirty e) eqn:Ed; cbn [negb].
  2: { rewrite set_dirty_false in Hgo by done. by apply Hgo, Hskip. }
  destruct (Z.leb_spec (ri_size ino) (pe_file_offset e)) as [Hle|Hlt]; [apply Hgo, Hskip; cbn; lia|].
  assert (flushes v ino e = true) as Hfl by (unfold flushes; rewrite Ed, (proj2 (Z.eqb_eq _ _)), (proj2 (Z.ltb_lt _ _)) by done; done).
  destruct (Hall e) as (Ho & Hnb & Hlen); [left|]. destruct (wrote_back_flush k0 v ino es k e Hb Hf Hv Hw Hfl Ho Hnb Hlen) as (n & k1 & -> & Hn & Hw1).
  run. rewrite (proj2 (Z.ltb_ge n 0)) by lia. by apply Hgo.
Qed.

Lemma writeback_buckets_spec k0 v ino : backed ino -> file_ok (k_mem k0) ino (pt_alloc (k_pt k0)) -> k_file k0 v = Some (RamfsFile ino) ->
  forall bs es k, wrote_back k0 v ino es k ->
  (forall e, e ∈ cached bs -> 0 <= pe_file_offset e /\ pe_frame e ∉ ri_blocks ino /\ length (page_of k0 (pe_frame e)) = 4096%nat) ->
  exists k', writeback_buckets k v (ri_size ino) bs = Done (true, map (clean_bucket v) bs, k') /\ wrote_back k0 v ino (es ++ cached bs) k'.
Proof.
  intros Hb Hf Hv. induction bs as [|b bs IH]; intros es k Hw Hall.
  { exists k. split; [done|]. cbn. by rewrite app_nil_r. }
  cbn [writeback_buckets]. unfold cached in *. rewrite bind_cons in *.
  destruct (writeback_bucket_spec k0 v ino Hb Hf Hv b es k Hw) as (k1 & -> & Hw1); [intros e He; apply Hall, elem_of_app; by left|]. run.
  destruct (IH _ k1 Hw1) as (k2 & -> & Hw2); [intros e He; apply Hall, elem_of_app; by right|]. run.
  exists k2. split; [done|]. by rewrite <- app_assoc in Hw2.
Qed.

(** Cleaning keeps keys and frames. *)
Lemma clean_key v e : pe_key (clean v e) = pe_key e.
Proof. unfold clean. by destruct (pe_vnode_ptr e =? v). Qed.

Lemma clean_frame v e : pe_frame (clean v e) = pe_frame e.
Proof. unfold clean. by destruct (pe_vnode_ptr e =? v). Qed.

Lemma held_clean v b : held (clean_bucket v b) = clean v <$> held b.
Proof. induction b as [|[e|] b IH]; [done|..]; cbn; [f_equal|]; exact IH. Qed.

Lemma cached_clean v c : cached (map (clean_bucket v) c) = clean v <$> cached c.
Proof. induction c as [|b c IH]; [done|]. unfold cached in *. cbn [map]. rewrite !bind_cons, fmap_app, held_clean, IH. done. Qed.

(** The cache and files after a change of the bytes of one file and of dirty marks. *)
Lemma pc_ok_written k v ino m : pc_ok k -> k_file k v = Some (RamfsFile ino) -> Forall (is_block m) (ri_blocks ino) ->
  (forall b, b ∉ ri_blocks ino -> m !! b = k_mem k !! b) -> pc_ok (set_cache (set_mem k m) (map (clean_bucket v) (k_cache k))).
Proof.
  intros Hk Hv Hb Hm. pose proof (po_files _ Hk v ino Hv) as [_ Hsep]. destruct Hk as [P1 P2 P3 P4 P5 P6 P7 P8 P9].
  assert (pe_frame <$> cached (map (clean_bucket v) (k_cache k)) = pe_frame <$> cached (k_cache k)) as Ef.
  { rewrite cached_clean, <- list_fmap_compose. apply list_fmap_ext. intros i e _. apply clean_frame. }
  assert (pe_key <$> cached (map (clean_bucket v) (k_cache k)) = pe_key <$> cached (k_cache k)) as Ek.
  { rewrite cached_clean, <- list_fmap_compose. apply list_fmap_ext. intros i e _. apply clean_key. }
  constructor; try done; cbn [k_cache set_cache set_mem set_vfs k_vfs vs_cache k_mem k_pt].
  - rewrite length_map. exact P2.
  - apply Forall_map. eapply Forall_impl; [exact P3|]. intros b' Hl. cbn. unfold clean_bucket. by rewrite length_map.
  - intros i b' e Hi He. change (map (clean_bucket v)) with (fmap (M := list) (clean_bucket v)) in Hi. apply list_lookup_fmap_Some in Hi as (b0 & -> & Hi). rewrite held_clean in He. apply list_elem_of_fmap in He as (e0 & -> & He0).
    pose proof (P4 i b0 e0 Hi He0) as Hp. pose proof (clean_key v e0) as Hck. unfold pe_key in Hck. by injection Hck as -> ->.
  - fold (k_cache k). rewrite Ek. exact P5.
  - fold (k_cache k). rewrite Ef. exact P6.
  - fold (k_cache k). rewrite Ef. rewrite Forall_forall in *. intros f Hf. destruct (P7 f Hf) as (Hb1 & Hb2). split; [|done].
    eapply is_block_same; [|exact Hb1]. apply Hm. intros Hin. by apply (Hsep f Hin).
  - fold (k_cache k). rewrite Ef. intros w ino' Hw. destruct (P8 w ino' Hw) as [[F1 F2 F3 F4] Hd]. split; [|exact Hd]. constructor; try done. cbn.
    rewrite Forall_forall in *. intros b' Hin. destruct (decide (b' ∈ ri_blocks ino)) as [Hi|Hi]; [by apply Hb|]. eapply is_block_same; [by apply Hm|by apply F1].
Qed.

(** ** The bytes of the file afterwards *)

Definition in_page (e : PageCacheEntry) (x : Z) : Prop := pe_file_offset e <= x < pe_file_offset e + 4096.

#[global] Instance in_page_dec e x : Decision (in_page e x).
Proof. unfold in_page. apply _. Defined.

Lemma splice_inside l at_ bs i : (at_ + length bs <= length l)%nat -> (at_ <= i < at_ + length bs)%nat -> splice l at_ bs !! i = bs !! (i - at_)%nat.
Proof.
  intros Hl Hi. unfold splice. rewrite lookup_app_r by (rewrite length_take; lia). rewrite length_take, Nat.min_l by lia. by rewrite lookup_app_l by lia.
Qed.

Lemma flush_length k ino content e : 0 <= pe_file_offset e < ri_size ino -> (Z.to_nat (ri_size ino) <= length content)%nat ->
  length (page_of k (pe_frame e)) = 4096%nat -> length (flush k ino content e) = length content.
Proof. intros Ho Hl Hp. apply splice_length. rewrite length_take. lia. Qed.

Lemma flush_lookup k ino content e x : 0 <= pe_file_offset e < ri_size ino -> (Z.to_nat (ri_size ino) <= length content)%nat ->
  length (page_of k (pe_frame e)) = 4096%nat -> 0 <= x < ri_size ino ->
  flush k ino content e !! Z.to_nat x = if decide (in_page e x) then page_of k (pe_frame e) !! Z.to_nat (x - pe_file_offset e) else content !! Z.to_nat x.
Proof.
  intros Ho Hl Hp Hx. unfold flush, in_page. set (buf := take _ _). assert (length buf = Z.to_nat (Z.min (ri_size ino - pe_file_offset e) 4096)) as Hb by (unfold buf; rewrite length_take; lia).
  case_decide as Hin.
  - rewrite splice_inside by lia. unfold buf. rewrite lookup_take_lt by lia. f_equal. lia.
  - apply splice_lookup; lia.
Qed.

Lemma foldl_flush k ino content es x : (Z.to_nat (ri_size ino) <= length content)%nat -> 0 <= x < ri_size ino ->
  (forall e, e ∈ es -> 0 <= pe_file_offset e < ri_size ino /\ pe_file_offset e mod 4096 = 0 /\ length (page_of k (pe_frame e)) = 4096%nat) ->
  NoDup (pe_file_offset <$> es) ->
  length (foldl (flush k ino) content es) = length content /\
  (forall e, e ∈ es -> in_page e x -> foldl (flush k ino) content es !! Z.to_nat x = page_of k (pe_frame e) !! Z.to_nat (x - pe_file_offset e)) /\
  ((forall e, e ∈ es -> ~ in_page e x) -> foldl (flush k ino) content es !! Z.to_nat x = content !! Z.to_nat x).
Proof.
  intros Hl Hx. induction es as [|e es IH] using rev_ind; intros Hall Hnd.
  { split_and!; [done|by intros e ?%not_elem_of_nil|done]. }
  rewrite fmap_app in Hnd. apply NoDup_app in Hnd as (Hnd & Hdis & _).
  destruct (IH ltac:(intros e' He'; apply Hall, elem_of_app; by left) Hnd) as (IHl & IHin & IHout). rewrite foldl_app. cbn [foldl].
  destruct (Hall e ltac:(apply elem_of_app; right; left)) as (Ho & Ha & Hp).
  split_and!; [by rewrite flush_length by (try done; lia)|..].
  - intros e' He' Hin. rewrite flush_lookup by (try done; lia). apply elem_of_app in He' as [He'|He'].
    + rewrite decide_False; [by apply IHin|]. intros Hin2. destruct (Hall e' ltac:(apply elem_of_app; by left)) as (Ho' & Ha' & _).
      apply (Hdis (pe_file_offset e)); [|by left]. apply list_elem_of_fmap. exists e'. split; [|done]. unfold in_page in *. clear -Hin Hin2 Ha Ha'. Z.div_mod_to_equations. lia.
    + apply list_elem_of_singleton in He' as ->. by rewrite decide_True.
  - intros Hno. rewrite flush_lookup by (try done; lia). rewrite decide_False by (apply Hno, elem_of_app; right; left).
    apply IHout. intros e' He'. apply Hno, elem_of_app. by left.
Qed.

(** The pages of [v] that a write back has to store. *)
Definition dirty_page k (v : Z) (e : PageCacheEntry) : Prop := e ∈ cached (k_cache k) /\ pe_vnode_ptr e = v /\ pe_dirty e = true.

Definition aligned_keys k : Prop := forall e, e ∈ cached (k_cache k) -> 0 <= pe_file_offset e /\ pe_file_offset e mod 4096 = 0.

Lemma cached_page_length k e : pc_ok k -> e ∈ cached (k_cache k) -> length (page_of k (pe_frame e)) = 4096%nat.
Proof.
  intros Hk He. pose proof (po_frames _ Hk) as Hf. rewrite Forall_forall in Hf. destruct (Hf (pe_frame e)) as ((p & Hp & Hl) & _).
  - apply list_elem_of_fmap. by exists e.
  - unfold page_of. by rewrite Hp.
Qed.

Lemma NoDup_fmap_filter {X Y} (f : X -> Y) (P : X -> Prop) `{forall x, Decision (P x)} l : NoDup (f <$> l) -> NoDup (f <$> filter P l).
Proof.
  induction l as [|x l IH]; [done|]. cbn [fmap list_fmap]. intros [Hn Hl]%NoDup_cons. rewrite filter_cons. case_decide; [|by apply IH].
  cbn. apply NoDup_cons. split; [|by apply IH]. intros (y & Hy & [_ Hin]%list_elem_of_filter)%list_elem_of_fmap. apply Hn. rewrite Hy. by apply list_elem_of_fmap_2.
Qed.

(** The entries written back have different offsets. *)
Lemma flushed_offsets k v ino : pc_ok k -> NoDup (pe_file_offset <$> filter (fun e => flushes v ino e = true) (cached (k_cache k))).
Proof.
  intros Hk. assert (NoDup (pe_key <$> filter (fun e => flushes v ino e = true) (cached (k_cache k)))) as Hn.
  { apply NoDup_fmap_filter, Hk. }
  assert (forall l, (forall e, e ∈ l -> pe_vnode_ptr e = v) -> NoDup (pe_key <$> l) -> NoDup (pe_file_offset <$> l)) as Hgen.
  { intros l Hl Hnd. apply (NoDup_fmap_1 (fun o => (v, o))). rewrite <- list_fmap_compose. erewrite list_fmap_ext; [exact Hnd|].
    intros i e Hi. cbn. unfold pe_key. by rewrite (Hl e (list_elem_of_lookup_2 _ _ _ Hi)). }
  apply Hgen; [|exact Hn]. intros e [He _]%list_elem_of_filter. unfold flushes in He. apply andb_prop in He as [[He _]%andb_prop _]. by apply Z.eqb_eq.
Qed.

(** C29: Writing back a file whose blocks cover its size, from a cache whose pages have
    page-aligned offsets, stores exactly the dirty cached
    pages: every byte of the file that lies in a dirty page is the byte of that page,
    every other byte is what it was, the file does not grow, no frame outside the file
    changes, no page of the file is dirty afterwards and every cached page is still
    found; the cache and the files stay well formed. *)
Theorem writeback_exact k v ino :
  pc_ok k -> aligned_keys k -> k_file k v = Some (RamfsFile ino) -> backed ino ->
  exists k', writeback_vnode k v = Done (0, k') /\ pc_ok k' /\ vs_files (k_vfs k') = vs_files (k_vfs k) /\ k_pt k' = k_pt k /\
    (forall x e, 0 <= x < ri_size ino -> dirty_page k v e -> in_page e x ->
       block_bytes (k_mem k') (ri_blocks ino) !! Z.to_nat x = page_of k (pe_frame e) !! Z.to_nat (x - pe_file_offset e)) /\
    (forall x, 0 <= x < ri_size ino -> (forall e, dirty_page k v e -> ~ in_page e x) ->
       block_bytes (k_mem k') (ri_blocks ino) !! Z.to_nat x = block_bytes (k_mem k) (ri_blocks ino) !! Z.to_nat x) /\
    (forall b, b ∉ ri_blocks ino -> k_mem k' !! b = k_mem k !! b) /\
    (forall e, ~ dirty_page k' v e) /\
    (forall w o, cache_lookup (k_cache k') w o = cache_lookup (k_cache k) w o).
Proof.
  intros Hk Hal Hv Hb. destruct (po_files _ Hk v ino Hv) as [Hfo Hsep]. pose proof (block_bytes_length _ _ (fo_blocks _ _ _ Hfo)) as Hlen.
  assert (wrote_back k v ino [] k) as Hw0 by (constructor; [exists (k_mem k); by destruct k|done|apply Hfo|done]).
  destruct (writeback_buckets_spec k v ino Hb Hfo Hv (k_cache k) [] k Hw0) as (k1 & E & [[m ->] W2 W3 W4]).
  { intros e He. split; [by apply Hal|]. split; [|by apply cached_page_length]. intros Hin. apply (Hsep _ Hin). apply list_elem_of_fmap. by exists e. }
  pose proof (pc_ok_written k v ino m Hk Hv W3 W4) as Hk'. cbn [app k_mem set_mem] in *.
  set (fl := filter (fun e => flushes v ino e = true) (cached (k_cache k))) in *.
  assert (forall x, 0 <= x < ri_size ino -> forall e, dirty_page k v e -> in_page e x -> e ∈ fl) as Hfl.
  { intros x Hx e (He & Hev & Hd) Hin. apply list_elem_of_filter. split; [|done]. unfold flushes, in_page in *. rewrite Hd, (proj2 (Z.eqb_eq _ _)), (proj2 (Z.ltb_lt _ _)) by lia. done. }
  assert (forall e, e ∈ fl -> dirty_page k v e /\ 0 <= pe_file_offset e < ri_size ino /\ pe_file_offset e mod 4096 = 0 /\ length (page_of k (pe_frame e)) = 4096%nat) as Hfl2.
  { intros e [Hf He]%list_elem_of_filter. unfold flushes in Hf. apply andb_prop in Hf as [[Hf1%Z.eqb_eq Hf2]%andb_prop Hf3%Z.ltb_lt].
    destruct (Hal e He). split; [done|]. split; [lia|]. split; [done|]. by apply cached_page_length. }
  unfold backed in Hb. eexists. unfold writeback_vnode. rewrite Hv. run. cbn [vnode_size]. rewrite E. run. split; [done|]. split; [exact Hk'|].
  split; [done|]. split; [done|]. split_and!.
  - intros x e Hx He Hin. change (block_bytes m (ri_blocks ino) !! Z.to_nat x = page_of k (pe_frame e) !! Z.to_nat (x - pe_file_offset e)). rewrite W2.
    apply (foldl_flush k ino _ fl x); [lia|done|by intros e' He'; apply Hfl2|by apply flushed_offsets|by apply (Hfl x)|done].
  - intros x Hx Hno. change (block_bytes m (ri_blocks ino) !! Z.to_nat x = block_bytes (k_mem k) (ri_blocks ino) !! Z.to_nat x). rewrite W2.
    apply (foldl_flush k ino _ fl x); [lia|done|by intros e' He'; apply Hfl2|by apply flushed_offsets|]. intros e He. apply Hno. by apply Hfl2.
  - exact W4.
  - intros e (He & Hev & Hd). cbn in He. rewrite cached_clean in He. apply list_elem_of_fmap in He as (e0 & -> & _). unfold clean in *.
    destruct (Z.eqb_spec (pe_vnode_ptr e0) v); done.
  - intros w o. apply option_eq. intros f. rewrite !cache_lookup_iff by done. cbn. rewrite cached_clean. setoid_rewrite list_elem_of_fmap. split.
    + intros (e & (e0 & -> & He0) & Hk1 & Hf1). exists e0. by rewrite clean_key in Hk1; rewrite clean_frame in Hf1.
    + intros (e & He & Hk1 & Hf1). exists (clean v e). rewrite clean_key, clean_frame. eauto.
Qed.

End Spec.
