(* ===== verification/FileMap.v ===== *)
(** * File mappings

    A page fault in a file mapping, through the page cache to the file and back: the
    handler of AddressSpace with the hooks of PageCache. *)

From Stdlib Require Import ZArith Lia.
From stdpp Require Import prelude gmap list.
From S2P Require Import Prelude Paging Frames PageTable UserMap Cow Vma AddressSpace Loader Faults Ramfs PageCache PageCacheSpec.

Local Open Scope Z_scope.

(** ** Marking pages *)

Definition tag (e : PageCacheEntry) : Z * Z * Z := (pe_key e, pe_frame e).

Definition same_tags (b b' : PageCacheBucket) : Prop := length b' = length b /\ tag <$> held b' = tag <$> held b.

Lemma dirty_slot_tags v o b : same_tags b (dirty_slot v o b).
Proof.
  induction b as [|[e|] b [IHl IHt]]; [done|..]; cbn; [destruct (is_key v o e)|]; split; cbn; try done; try by rewrite IHl.
  - f_equal. exact IHt.
Qed.

Lemma tags_elem b b' e : tag <$> held b' = tag <$> held b -> e ∈ held b' -> exists e0, e0 ∈ held b /\ tag e0 = tag e.
Proof.
  intros Ht He. assert (tag e ∈ tag <$> held b) as Hin by (rewrite <- Ht; by apply list_elem_of_fmap_2).
  apply list_elem_of_fmap in Hin as (e0 & E & He0). by exists e0.
Qed.

Lemma cached_tags c c' : Forall2 same_tags c c' -> tag <$> cached c' = tag <$> cached c.
Proof.
  unfold cached. induction 1 as [|b b' c c' [_ Hb] _ IH]; [done|]. rewrite !bind_cons, !fmap_app. by f_equal.
Qed.

Section FileMap.
Context {A : Type} `{FrameAllocatorLaws A}.
Implicit Types k : kstate A vfs_state.

Lemma tag_lookup c e : e ∈ cached c -> tag e ∈ tag <$> cached c.
Proof. intros He. by apply list_elem_of_fmap_2. Qed.

(** A change of dirty marks only. *)
Lemma pc_ok_relabel k c' : pc_ok k -> Forall2 same_tags (k_cache k) c' ->
  pc_ok (set_cache k c') /\ forall w o, cache_lookup c' w o = cache_lookup (k_cache k) w o.
Proof.
  intros Hk Hs. pose proof (cached_tags _ _ Hs) as Ht.
  assert (pe_key <$> cached c' = pe_key <$> cached (k_cache k)) as Ek.
  { change pe_key with (fst ∘ tag). by rewrite !(list_fmap_compose tag), Ht. }
  assert (pe_frame <$> cached c' = pe_frame <$> cached (k_cache k)) as Ef.
  { change pe_frame with (snd ∘ tag). by rewrite !(list_fmap_compose tag), Ht. }
  assert (pc_ok (set_cache k c')) as Hk'.
  { destruct Hk as [P1 P2 P3 P4 P5 P6 P7 P8 P9]. constructor; try done; cbn [k_cache set_cache set_vfs k_vfs vs_cache]; rewrite ?Ek, ?Ef; try done.
    - by rewrite <- (Forall2_length _ _ _ Hs).
    - apply Forall_lookup_2. intros i b' Hi. destruct (Forall2_lookup_r _ _ _ _ _ Hs Hi) as (b & Hb & Hl & _). rewrite Hl. by apply (Forall_lookup_1 _ _ _ _ P3 Hb).
    - intros i b' e Hi He. destruct (Forall2_lookup_r _ _ _ _ _ Hs Hi) as (b & Hb & _ & Htb). destruct (tags_elem _ _ _ Htb He) as (e0 & He0 & E).
      rewrite <- (P4 i b e0 Hb He0). injection E as -> -> _. done. }
  split; [done|]. intros w o. apply option_eq. intros f. pose proof (cache_lookup_iff (set_cache k c') w o f Hk') as L. cbn in L. rewrite L, (cache_lookup_iff k) by done.
  assert (forall c1 c2, tag <$> cached c1 = tag <$> cached c2 -> (exists e, e ∈ cached c1 /\ pe_key e = (w, o) /\ pe_frame e = f) -> exists e, e ∈ cached c2 /\ pe_key e = (w, o) /\ pe_frame e = f) as Hgen.
  { intros c1 c2 E (e & He & H1 & H2). apply tag_lookup in He. rewrite E in He. apply list_elem_of_fmap in He as (e2 & E2 & He2). exists e2. split; [done|].
    unfold tag in E2. injection E2 as E3 E4. unfold pe_key in *. split; congruence. }
  split; apply Hgen; congruence.
Qed.

Lemma mark_dirty_spec k v o : pc_ok k ->
  pc_ok (mark_dirty k v o) /\ (forall w p, cache_lookup (k_cache (mark_dirty k v o)) w p = cache_lookup (k_cache k) w p).
Proof.
  intros Hk. apply pc_ok_relabel; [done|]. rewrite <- (list_insert_id (k_cache k) _ _ (bucket_at_lookup k v o Hk)) at 1.
  apply Forall2_insert; [|apply dirty_slot_tags]. apply Forall_Forall2_diag, Forall_forall. done.
Qed.

(** ** The fault *)

Lemma space_wf_less k k' root : space_wf (k_pt k) root -> fa_ok (pt_alloc (k_pt k')) -> tabs (k_pt k') = tabs (k_pt k) -> k_free k' ⊆ k_free k ->
  space_wf (k_pt k') root.
Proof.
  intros [Hwf Hsm] Ha Ht Hf. split; [|by rewrite Ht]. destruct Hwf as [W1 W2 W3 W4 W5]. constructor; rewrite ?Ht; try done.
  intros p f Hp Hw. pose proof (W4 p f Hp Hw). fold (k_free k') (k_free k) in *. set_solver.
Qed.

Lemma fault_flags_ok vma w c : is_flags (vma_flags vma) -> Z.testbit (vma_flags vma) 0 = true -> Z.testbit (vma_flags vma) 10 = false ->
  is_flags (fault_flags vma w c) /\ Z.testbit (fault_flags vma w c) 0 = true /\
  Z.testbit (fault_flags vma w c) 1 = w /\ Z.testbit (fault_flags vma w c) 10 = c.
Proof.
  intros Hf H0' H10. unfold fault_flags.
  set (g := if w then _ else _).
  assert (is_flags g /\ Z.testbit g 0 = true /\ Z.testbit g 1 = w /\ Z.testbit g 10 = false) as (G1 & G2 & G3 & G4).
  { unfold g, with_writable, without_writable, WRITABLE. destruct w.
    - split; [by apply (is_flags_with _ 1)|]. rewrite !with_bit, H0', H10 by lia. cbn. by rewrite orb_true_r.
    - split; [by apply is_flags_without|]. rewrite !without_bit, H0', H10 by lia. cbn. by rewrite andb_false_r. }
  destruct c; [|done]. unfold with_cow, COW. split; [by apply (is_flags_with _ 10)|]. rewrite !with_bit, G2, G3, G4 by lia. cbn. by rewrite orb_false_r.
Qed.

Lemma pc_ok_less k k' : pc_ok k -> fa_ok (pt_alloc (k_pt k')) -> k_free k' ⊆ k_free k -> k_vfs k' = k_vfs k -> k_mem k' = k_mem k -> pc_ok k'.
Proof.
  intros [P1 P2 P3 P4 P5 P6 P7 P8 P9] Ha Hf Hv Hm. constructor; unfold k_cache, k_file in *; rewrite ?Hv, ?Hm; try done.
  - eapply Forall_impl; [exact P7|]. intros f (F1 & F2 & F3). split; [by rewrite Hm|]. split; [set_solver|done].
  - intros v ino Hi. destruct (P8 v ino Hi) as [[F1 F2 F3 F4] Hd]. split; [|done]. constructor; try done.
    intros b Hb. pose proof (F3 b Hb). fold (k_free k') (k_free k) in *. set_solver.
Qed.

Record faulted k root (v o : Z) (ino : RamfsInode) (f : Z) k1 : Prop := {
  ft_ok : pc_ok k1;
  ft_wf : space_wf (k_pt k1) root;
  ft_frame : f mod 4096 = 0 /\ 0 < f < 2 ^ 44 /\ f ∉ k_free k1;
  ft_page : match cache_lookup (k_cache k) v o with Some f0 => f = f0 /\ page_of k1 f = page_of k f0 | None => f ∈ k_free k /\ page_of k1 f = file_page (k_mem k) ino o end;
  ft_keep : forall g, g ∉ k_free k -> k_mem k1 !! g = k_mem k !! g;
  ft_free : k_free k1 ⊆ k_free k /\ (size (k_free k) <= size (k_free k1) + 1)%nat;
  ft_tabs : tabs (k_pt k1) = tabs (k_pt k);
  ft_shoot : k_shoot k1 = k_shoot k;
  ft_cached : (None ∈ bucket_at (k_cache k) v o \/ is_Some (cache_lookup (k_cache k) v o)) -> cache_lookup (k_cache k1) v o = Some f
}.

Lemma get_or_fill_faulted k root v o ino : space_wf (k_pt k) root -> pc_ok k -> mem_ok k -> k_file k v = Some (RamfsFile ino) -> 0 <= o ->
  match get_or_fill k v o with
  | Done (r, k1) => exists f, r = Some f /\ faulted k root v o ino f k1
  | Panic => k_free k = ∅
  end.
Proof.
  intros Hs Hk Hm Hv Ho. pose proof (get_or_fill_spec k v o ino Hk Hv Ho ltac:(intros f _; apply Hm)) as Hg.
  destruct (get_or_fill k v o) as [[r k1]|]; [|by destruct Hg]. destruct Hg as (f & -> & Hk1 & Hc). exists f. split; [done|].
  destruct (cache_lookup (k_cache k) v o) as [f'|] eqn:El.
  - destruct Hc as [-> ->]. assert (frame_ok k f') as (_ & Hf2 & Hf3).
    { apply (cache_lookup_iff k v o f' Hk) in El as (e & He & _ & <-). pose proof (po_frames _ Hk) as Hf. rewrite Forall_forall in Hf. apply Hf. by apply list_elem_of_fmap_2. }
    constructor; try done.
    + by destruct Hf3.
    + by rewrite El.
    + split; [done|lia].
  - destruct Hc as [(Hf & Hal & Hr) Hfr Hpage Hoth Hfi Hcd Hkp (Ht & Hcw & Hsh)]. pose proof (size_remove _ _ Hf) as Hsz.
    assert (k_free k1 ⊆ k_free k) as Hsub by (rewrite Hfr; set_solver). constructor; try done.
    + eapply space_wf_less; [done|apply Hk1|done|done].
    + split; [done|]. split; [done|]. rewrite Hfr. set_solver.
    + by rewrite El.
    + intros g Hg. apply Hoth. by intros ->.
    + split; [done|]. rewrite Hfr. lia.
    + intros [Hn|[x Hx]]; [by apply Hcd|congruence].
Qed.

(** The area's part: dirty mark or claim. *)
Lemma fault_frame_file k root vma page v foff shared ino : space_wf (k_pt k) root -> pc_ok k -> mem_ok k ->
  vma_backing vma = File v foff shared -> DIRECT_MAP_BASE <= v -> k_file k v = Some (RamfsFile ino) ->
  let o := wrap64 (foff + wrap64 (page - vma_start vma)) in
  match fault_frame k vma page with
  | Done (r, k1) => exists f, r = Some (f, shared && flags_writable (vma_flags vma), negb shared) /\ faulted k root v o ino f k1
  | Panic => k_free k = ∅
  end.
Proof.
  intros Hs Hk Hm Hb Hd Hv o. unfold fault_frame. rewrite Hb. rewrite (proj2 (Z.leb_le DIRECT_MAP_BASE v)) by done. run. fold o.
  change (page_cache_get_or_fill k v o) with (get_or_fill k v o).
  pose proof (get_or_fill_faulted k root v o ino Hs Hk Hm Hv ltac:(apply wrap64_range)) as Hg.
  destruct (get_or_fill k v o) as [[r k1]|]; run; [|done]. destruct Hg as (f & -> & Hf).
  destruct shared; run; cbn [andb negb]; [destruct (flags_writable (vma_flags vma))|].
  - exists f. split; [done|]. change (page_cache_mark_dirty k1 v o) with (mark_dirty k1 v o). destruct Hf as [F1 F2 F3 F4 F5 F6 F7 F8 F9].
    destruct (mark_dirty_spec k1 v o F1) as [Hk2 Hl]. constructor; try done. intros Hx. rewrite Hl. by apply F9.
  - by exists f.
  - exists f. split; [done|]. destruct Hf as [F1 F2 F3 F4 F5 F6 F7 F8 F9]. constructor; try done.
    destruct F1 as [P1 P2 P3 P4 P5 P6 P7 P8 P9]. by constructor.
Qed.

(** C14: A fault on an untouched page of a mapping of a ramfs file.  When the page cache
    has a frame for that offset, the page is mapped to that very frame, whose bytes stay
    as they are, be they older or newer than those of the file; otherwise it is mapped to
    a frame that was free, filled with the bytes of the file and zeroes past its end.
    The cache remembers the fresh frame if its bucket for that offset has room, so that
    later mappings of the offset share it; without room it does not.  A shared mapping
    is writable when the area is, a private one is mapped read-only and copy-on-write; no
    other mapping and no frame in use changes, and the cache stays well formed.  The only
    failure is having fewer than four free frames. *)
Theorem file_fault_maps_file a k addr vma v foff shared ino :
  space_wf (k_pt k) (as_pml4_phys a) -> pc_ok k -> mem_ok k -> is_u64 addr -> is_user addr ->
  find_vma a (align_down_page addr) = Some vma -> vma_backing vma = File v foff shared -> DIRECT_MAP_BASE <= v -> k_file k v = Some (RamfsFile ino) ->
  is_flags (vma_flags vma) -> Z.testbit (vma_flags vma) 0 = true -> Z.testbit (vma_flags vma) 10 = false ->
  let o := wrap64 (foff + wrap64 (align_down_page addr - vma_start vma)) in
  match resolve_file_fault a k addr with
  | Done (ok, k') => ok = true /\ exists f new, pc_ok k' /\ space_wf (k_pt k') (as_pml4_phys a) /\
      (forall w, k_uleaf k' (as_pml4_phys a) w = if decide (vpage w = vpage addr) then Some new else k_uleaf k (as_pml4_phys a) w) /\
      PageTableEntry_frame new = f /\
      match cache_lookup (k_cache k) v o with Some f0 => f = f0 /\ page_of k' f = page_of k f0 | None => f ∈ k_free k /\ page_of k' f = file_page (k_mem k) ino o end /\
      is_writable new = shared && flags_writable (vma_flags vma) /\ is_cow new = negb shared /\
      ((None ∈ bucket_at (k_cache k) v o \/ is_Some (cache_lookup (k_cache k) v o)) -> cache_lookup (k_cache k') v o = Some f) /\
      (forall g, g ∉ k_free k -> page_of k' g = page_of k g) /\ k_shoot k' = k_shoot k ++ [(as_active_cpus a, align_down_page addr)]
  | Panic => (size (k_free k) < 4)%nat
  end.
Proof.
  intros Hs Hk Hm Ha Hua Hvma Hb Hd Hv Hfl H0' H10 o. unfold resolve_file_fault. change (4096 - 1) with 4095. fold (align_down_page addr). rewrite Hvma.
  pose proof (fault_frame_file k _ vma (align_down_page addr) v foff shared ino Hs Hk Hm Hb Hd Hv) as Hff. fold o in Hff.
  destruct (fault_frame k vma (align_down_page addr)) as [[r k1]|]; run; [|rewrite Hff, size_empty; lia].
  destruct Hff as (f & -> & [Hk1 Hs1 (Hal & Hr & Hnf) Hpage Hkeep [Hsub Hsz] Ht Hsh Hcd]).
  destruct (fault_flags_ok vma (shared && flags_writable (vma_flags vma)) (negb shared) Hfl H0' H10) as (G1 & G2 & G3 & G4).
  set (fl := fault_flags _ _ _) in *. rewrite PhysAddr_new_frame by done.
  assert (vpage (align_down_page addr) = vpage addr) as Hvp by (by apply vpage_page).
  pose proof (k_map_page_spec k1 a (align_down_page addr) f fl Hs1 (is_user_vpage _ _ Hvp Hua) ltac:(lia) G1 G2) as Hmp.
  destruct (k_map_page k1 a (align_down_page addr) f fl) as [k2|]; run; [|lia].
  destruct Hmp as (Hs2 & Hsub2 & _ & Hmem & _ & Hvfs & Hsh2 & _ & Hu). split; [done|]. exists f, (PageTableEntry_new_page f fl).
  assert (forall g, page_of (shootdown k2 (as_active_cpus a) (align_down_page addr)) g = page_of k1 g) as Hpg by (intros g; unfold page_of; cbn; by rewrite Hmem).
  assert (pc_ok k2) as Hk2 by (eapply pc_ok_less; [exact Hk1|apply Hs2|done|done|done]).
  split_and!.
  - destruct Hk2. by constructor.
  - done.
  - intros w. change (k_uleaf k2 (as_pml4_phys a) w = if decide (vpage w = vpage addr) then Some (PageTableEntry_new_page f fl) else k_uleaf k (as_pml4_phys a) w).
    rewrite Hu, Hvp. unfold k_uleaf. by rewrite Ht.
  - rewrite frame_new_page by done. change (2 ^ 12) with 4096. rewrite Hal, Z.mod_small by lia. lia.
  - by rewrite !Hpg.
  - rewrite is_writable_bit, new_page_bits, G3 by lia. by rewrite orb_false_r.
  - rewrite is_cow_bit, new_page_bits, G4 by lia. by rewrite orb_false_r.
  - intros Hx. change (cache_lookup (vs_cache (k_vfs k2)) v o = Some f). rewrite Hvfs. by apply Hcd.
  - intros g Hg. rewrite Hpg. unfold page_of. by rewrite Hkeep.
  - cbn. by rewrite Hsh2, Hsh.
Qed.

(** A user's store to a cached page. *)
Lemma pc_ok_store k f p : pc_ok k -> f ∈ pe_frame <$> cached (k_cache k) -> length p = 4096%nat -> pc_ok (set_mem k (<[f := p]> (k_mem k))).
Proof.
  intros [P1 P2 P3 P4 P5 P6 P7 P8 P9] Hf Hl.
  constructor; try done.
  - eapply Forall_impl; [exact P7|]. intros g (F1 & F2). split; [by apply is_block_insert|done].
  - intros v ino Hi. destruct (P8 v ino Hi) as [[F1 F2 F3 F4] Hd]. split; [|done]. constructor; try done. eapply Forall_impl; [exact F1|]. intros b Hb. by apply is_block_insert.
Qed.

(** ** Where the cache falls short *)

(** [free_table] releases every present leaf this way when a process exits.  The leaf of
    a shared file mapping is not copy-on-write, so its frame is freed although the
    cache still hands it out. *)
Lemma exit_frees_cached_page `{!FrameReturnLaws A} k v o f e : pc_ok k -> cache_lookup (k_cache k) v o = Some f ->
  is_cow e = false -> PageTableEntry_frame e = f ->
  exists k', release_leaf k e = Done k' /\ f ∈ k_free k' /\ cache_lookup (k_cache k') v o = Some f.
Proof.
  intros Hk Hl Hc He. assert (frame_ok k f) as (_ & Hn & Hal & Hr).
  { apply (cache_lookup_iff k v o f Hk) in Hl as (e' & He' & _ & <-). pose proof (po_frames _ Hk) as Hf. rewrite Forall_forall in Hf. apply Hf. by apply list_elem_of_fmap_2. }
  unfold release_leaf. rewrite Hc, He, PhysAddr_new_frame by done. unfold k_free_frame.
  destruct (fa_free_frame_spec (pt_alloc (k_pt k)) f (po_alloc _ Hk) Hn Hal Hr) as (a' & -> & _ & Hfr). run.
  eexists. split; [done|]. split; [|exact Hl]. unfold k_free. cbn. rewrite Hfr. set_solver.
Qed.

(** A vnode that cannot be read gives no page, whatever room its bucket has. *)
Lemma fill_error_any_bucket k v o : pc_ok k -> cache_lookup (k_cache k) v o = None -> k_file k v = Some NoData -> k_free k <> ∅ ->
  (forall a f, exists a', fa_free_frame (A := A) a f = Done a') -> exists k', get_or_fill k v o = Done (None, k').
Proof.
  intros Hk Hl Hv Hfree Hret. unfold get_or_fill. rewrite Hl. pose proof (k_alloc_frame_ok k Hk) as Ha.
  destruct (k_alloc_frame k) as [[f k1]|]; run; [|done]. destruct Ha as (_ & _ & _ & _ & _ & _ & Hv1 & _). unfold fill_page_from_vnode.
  assert (k_file (k_write_page k1 f AddressSpace.zero_page) v = Some NoData) as -> by (rewrite <- Hv; unfold k_file; cbn; by rewrite Hv1). run.
  change (-22 <? 0) with true. cbn iota. unfold k_free_frame. destruct (Hret (pt_alloc (k_pt (k_write_page k1 f AddressSpace.zero_page))) f) as [a' ->]. run. by eexists.
Qed.

End FileMap.

(** ** An example: a file of six bytes, mapped shared *)

Definition demo_vnode : Z := DIRECT_MAP_BASE + 0xa000.

Definition demo_inode : RamfsInode :=
  {| ri_vtype := VRegular; ri_size := 6; ri_blocks := [0x9000]; ri_children_phys := 0; ri_children := [] |}.

Definition file_kernel : kstate BumpAllocator vfs_state :=
  {| k_pt := demo_state; k_mem := {[ 0x9000 := [1; 2; 3; 4; 5; 6] ++ replicate 4090 0 ]}; k_cow := COW_TABLE;
     k_vfs := {| vs_files := {[ demo_vnode := RamfsFile demo_inode ]}; vs_cache := PAGE_CACHE; vs_refs := ∅ |}; k_shoot := [] |}.

Definition shared_vma : Vma :=
  {| vma_start := MMAP_BASE; vma_end := MMAP_BASE + 4096; vma_flags := prot_to_page_flags (PROT_READ + PROT_WRITE);
     vma_backing := File demo_vnode 0 true |}.

Definition shared_space : AddressSpace :=
  as_with_vmas empty_space (<[0%nat := Some shared_vma]> (as_vmas empty_space)) (MMAP_BASE + 4096).

Lemma file_kernel_ok : pc_ok file_kernel /\ mem_ok file_kernel /\ space_wf (k_pt file_kernel) 0x1000.
Proof.
  assert (cached (k_cache file_kernel) = []) as Ec by (vm_compute; reflexivity).
  split_and!; [|intros f; unfold page_of; cbn [file_kernel k_mem]; destruct (decide (f = 0x9000)) as [->|]; [by rewrite lookup_singleton_eq|by rewrite lookup_singleton_ne]|exact demo_space].
  assert (0x9000 ∉ k_free file_kernel) as Hf by (unfold k_free; cbn; rewrite elem_of_bump_free; intros (x & E & Hx); cbn in Hx; lia).
  assert (forall v ino, k_file file_kernel v = Some (RamfsFile ino) -> v = demo_vnode /\ ino = demo_inode) as Hfile.
  { intros v ino. unfold k_file. cbn. rewrite lookup_singleton_Some. by intros [<- [= <-]]. }
  constructor; rewrite ?Ec; try apply NoDup_nil_2; try done.
  - apply Forall_replicate. done.
  - intros i b e Hi He. assert (e ∈ cached (k_cache file_kernel)) as Hx by (apply cached_bucket; eauto). rewrite Ec in Hx. by apply not_elem_of_nil in Hx.
  - intros v ino [-> ->]%Hfile. split; [|intros b _; apply not_elem_of_nil]. constructor.
    + constructor; [|constructor]. eexists. split; [apply lookup_singleton_eq|reflexivity].
    + apply NoDup_singleton.
    + intros b ->%list_elem_of_singleton. exact Hf.
    + cbn. lia.
  - intros v v' ino ino' b [-> _]%Hfile [-> _]%Hfile. done.
Qed.

Lemma shared_flags_ok : is_flags (vma_flags shared_vma) /\ Z.testbit (vma_flags shared_vma) 0 = true /\ Z.testbit (vma_flags shared_vma) 10 = false.
Proof.
  split_and!; [|vm_compute; reflexivity|vm_compute; reflexivity]. split; [vm_compute; discriminate|].
  intros i Hi Hn. unfold shared_vma, vma_flags, prot_to_page_flags. change (Z.land (PROT_READ + PROT_WRITE) PROT_WRITE =? 0) with false.
  change (Z.land (PROT_READ + PROT_WRITE) PROT_EXEC =? 0) with true. cbn [negb].
  unfold with_user_accessible, with_present, with_writable, with_no_execute, PRESENT, WRITABLE, USER_ACCESSIBLE, NO_EXECUTE, PageFlags_new; autorewrite with bits; bit_cases; done.
Qed.

Lemma file_fault_maps_file_witness :
  match resolve_file_fault shared_space file_kernel (MMAP_BASE + 5) with
  | Done (ok, k') => ok = true /\ exists new, k_uleaf k' 0x1000 (MMAP_BASE + 5) = Some new /\ is_writable new = true /\
      take 8 (page_of k' (PageTableEntry_frame new)) = [1; 2; 3; 4; 5; 6; 0; 0]
  | Panic => False
  end.
Proof.
  destruct file_kernel_ok as (Hk & Hm & Hs). destruct shared_flags_ok as (F1 & F2 & F3).
  pose proof (file_fault_maps_file shared_space file_kernel (MMAP_BASE + 5) shared_vma demo_vnode 0 true demo_inode Hs Hk Hm
    ltac:(unfold is_u64, MMAP_BASE; lia) ltac:(apply is_user_low; unfold MMAP_BASE; lia) ltac:(vm_compute; reflexivity) eq_refl ltac:(vm_compute; discriminate) ltac:(vm_compute; reflexivity) F1 F2 F3) as Hw. cbv zeta in Hw.
  destruct (resolve_file_fault shared_space file_kernel (MMAP_BASE + 5)) as [[ok k']|].
  - destruct Hw as (-> & f & new & _ & _ & Hu & Hf & Hp & Hwr & _). split; [done|].
    assert (cache_lookup (k_cache file_kernel) demo_vnode (wrap64 (0 + wrap64 (align_down_page (MMAP_BASE + 5) - vma_start shared_vma))) = None) as En by (vm_compute; reflexivity).
    rewrite En in Hp. destruct Hp as [_ Hp]. exists new. split_and!.
    + change 0x1000 with (as_pml4_phys shared_space). by rewrite Hu, decide_True.
    + rewrite Hwr. vm_compute. reflexivity.
    + rewrite Hf, Hp. vm_compute. reflexivity.
  - assert (4 <= size (k_free file_kernel))%nat by (apply Nat.leb_le; vm_compute; reflexivity). lia.
Defined.

(** The cache after that fault, and after a store of 9 to the first byte. *)
Definition mapped_kernel : kstate BumpAllocator vfs_state :=
  match fault_frame file_kernel shared_vma MMAP_BASE with Done (_, k) => k | Panic => file_kernel end.

Definition stored_kernel : kstate BumpAllocator vfs_state :=
  set_mem mapped_kernel (<[0x2000 := 9 :: drop 1 (page_of mapped_kernel 0x2000)]> (k_mem mapped_kernel)).

Lemma stored_kernel_ok : pc_ok stored_kernel /\
  cached (k_cache stored_kernel) = [{| pe_vnode_ptr := demo_vnode; pe_file_offset := 0; pe_frame := 0x2000; pe_dirty := true |}].
Proof.
  destruct file_kernel_ok as (Hk & Hm & Hs).
  assert (cached (k_cache mapped_kernel) = [{| pe_vnode_ptr := demo_vnode; pe_file_offset := 0; pe_frame := 0x2000; pe_dirty := true |}]) as Ec by (vm_compute; reflexivity).
  split; [|exact Ec]. apply pc_ok_store; [|rewrite Ec; left|vm_compute; reflexivity].
  pose proof (fault_frame_file file_kernel 0x1000 shared_vma MMAP_BASE demo_vnode 0 true demo_inode Hs Hk Hm eq_refl ltac:(vm_compute; discriminate) ltac:(vm_compute; reflexivity)) as Hf.
  unfold mapped_kernel. destruct (fault_frame file_kernel shared_vma MMAP_BASE) as [[r k1]|]; [|exact Hk]. destruct Hf as (f & _ & Hf). apply Hf.
Qed.

Lemma writeback_exact_witness : exists k', writeback_vnode stored_kernel demo_vnode = Done (0, k') /\
  block_bytes (k_mem k') [0x9000] !! 0%nat = Some 9.
Proof.
  destruct stored_kernel_ok as [Hk Ec].
  destruct (writeback_exact stored_kernel demo_vnode demo_inode Hk) as (k' & E & _ & _ & _ & Hd & _).
  - intros e He. rewrite Ec in He. apply list_elem_of_singleton in He as ->. cbn. split; [lia|reflexivity].
  - vm_compute. reflexivity.
  - split; cbn; lia.
  - exists k'. split; [exact E|]. specialize (Hd 0 {| pe_vnode_ptr := demo_vnode; pe_file_offset := 0; pe_frame := 0x2000; pe_dirty := true |}).
    change [0x9000] with (ri_blocks demo_inode). change 0%nat with (Z.to_nat 0). rewrite Hd.
    + vm_compute. reflexivity.
    + cbn. lia.
    + unfold dirty_page. rewrite Ec. split_and!; [by apply list_elem_of_singleton|reflexivity|reflexivity].
    + split; cbn; lia.
Defined.

(** A write to the file does not reach its cached page, and the next write back of that
    page undoes the write. *)
Lemma write_undone_by_writeback :
  match write_vnode mapped_kernel demo_vnode [7; 7] 0 with
  | Done (n, k1) => n = 2 /\ ramfs_read (k_mem k1) demo_inode 6 0 = [7; 7; 3; 4; 5; 6] /\
      match writeback_vnode k1 demo_vnode with
      | Done (r, k2) => r = 0 /\ ramfs_read (k_mem k2) demo_inode 6 0 = [1; 2; 3; 4; 5; 6]
      | Panic => False
      end
  | Panic => False
  end.
Proof. vm_compute. repeat split. Qed.
