(* ===== verification/Keyboard.v ===== *)
(** * The keyboard: scancodes and the byte ring

    crates/keyboard/src/scancode.rs (the decoder of Scancode Set 1 for a US layout) and
    the ring of crates/keyboard/src/lib.rs that collects the decoded bytes and drops
    the oldest one when it is full. *)

From Stdlib Require Import ZArith Lia.
From stdpp Require Import prelude list.
From S2P Require Import Prelude.

Local Open Scope Z_scope.

Inductive ModKey := LShift | RShift | LCtrl | LAlt | CapsLock.

Inductive KeyEvent := Char (b : Z) | Modifier (key : ModKey) (pressed : bool) | Ignored.

Definition EXTENDED_PREFIX : Z := 0xE0.
Definition BREAK_BIT : Z := 0x80.
Definition SC_LSHIFT : Z := 0x2A.
Definition SC_RSHIFT : Z := 0x36.
Definition SC_LCTRL : Z := 0x1D.
Definition SC_LALT : Z := 0x38.
Definition SC_CAPS : Z := 0x3A.

Record KeyboardState := { lshift : bool; rshift : bool; lctrl : bool; caps_lock : bool; pending_extended : bool }.

#[global] Instance KeyboardState_eq_dec : EqDecision KeyboardState.
Proof. solve_decision. Defined.

Definition KeyboardState_new : KeyboardState :=
  {| lshift := false; rshift := false; lctrl := false; caps_lock := false; pending_extended := false |}.

Definition shift (s : KeyboardState) : bool := lshift s || rshift s.

Definition set1_chars (code : Z) : Z * Z :=
  match code with
  | 0x02 => (49, 33) | 0x03 => (50, 64) | 0x04 => (51, 35) | 0x05 => (52, 36) | 0x06 => (53, 37) | 0x07 => (54, 94)
  | 0x08 => (55, 38) | 0x09 => (56, 42) | 0x0A => (57, 40) | 0x0B => (48, 41) | 0x0C => (45, 95) | 0x0D => (61, 43)
  | 0x0E => (8, 8) | 0x0F => (9, 9) | 0x10 => (113, 81) | 0x11 => (119, 87) | 0x12 => (101, 69) | 0x13 => (114, 82)
  | 0x14 => (116, 84) | 0x15 => (121, 89) | 0x16 => (117, 85) | 0x17 => (105, 73) | 0x18 => (111, 79) | 0x19 => (112, 80)
  | 0x1A => (91, 123) | 0x1B => (93, 125) | 0x1C => (10, 10) | 0x1E => (97, 65) | 0x1F => (115, 83) | 0x20 => (100, 68)
  | 0x21 => (102, 70) | 0x22 => (103, 71) | 0x23 => (104, 72) | 0x24 => (106, 74) | 0x25 => (107, 75) | 0x26 => (108, 76)
  | 0x27 => (59, 58) | 0x28 => (39, 34) | 0x29 => (96, 126) | 0x2B => (92, 124) | 0x2C => (122, 90) | 0x2D => (120, 88)
  | 0x2E => (99, 67) | 0x2F => (118, 86) | 0x30 => (98, 66) | 0x31 => (110, 78) | 0x32 => (109, 77) | 0x33 => (44, 60)
  | 0x34 => (46, 62) | 0x35 => (47, 63) | 0x37 => (42, 42) | 0x39 => (32, 32)
  | _ => (0, 0)
  end.

Definition apply_modifiers (s : KeyboardState) (base shifted : Z) : Z :=
  if (97 <=? base) && (base <=? 122) then if xorb (shift s) (caps_lock s) then base - 0x20 else base
  else if shift s && negb (shifted =? 0) then shifted else base.

Definition with_extended (s : KeyboardState) (x : bool) : KeyboardState :=
  {| lshift := lshift s; rshift := rshift s; lctrl := lctrl s; caps_lock := caps_lock s; pending_extended := x |}.

Definition feed_scancode (s : KeyboardState) (byte : Z) : KeyEvent * KeyboardState :=
  if pending_extended s then (Ignored, with_extended s false) else
  if byte =? EXTENDED_PREFIX then (Ignored, with_extended s true) else
  let released := negb (Z.land byte BREAK_BIT =? 0) in
  let code := Z.land byte (255 - BREAK_BIT) in
  if code =? SC_LSHIFT then
    (Modifier LShift (negb released),
     {| lshift := negb released; rshift := rshift s; lctrl := lctrl s; caps_lock := caps_lock s; pending_extended := pending_extended s |})
  else if code =? SC_RSHIFT then
    (Modifier RShift (negb released),
     {| lshift := lshift s; rshift := negb released; lctrl := lctrl s; caps_lock := caps_lock s; pending_extended := pending_extended s |})
  else if code =? SC_LCTRL then
    (Modifier LCtrl (negb released),
     {| lshift := lshift s; rshift := rshift s; lctrl := negb released; caps_lock := caps_lock s; pending_extended := pending_extended s |})
  else if code =? SC_LALT then (Modifier LAlt (negb released), s)
  else if code =? SC_CAPS then
    if released then (Ignored, s) else
    (Modifier CapsLock true,
     {| lshift := lshift s; rshift := rshift s; lctrl := lctrl s; caps_lock := negb (caps_lock s); pending_extended := pending_extended s |})
  else if released then (Ignored, s) else
  let '(base, shifted) := set1_chars code in
  if base =? 0 then (Ignored, s) else (Char (apply_modifiers s base shifted), s).

(** ** The ring *)

Definition KBD_RING_SIZE : Z := 256.

Record KeyboardRing := { kr_buf : list Z; kr_read_pos : Z; kr_write_pos : Z; kr_len : Z; kr_state : KeyboardState }.

Definition KeyboardRing_new : KeyboardRing :=
  {| kr_buf := replicate 256 0; kr_read_pos := 0; kr_write_pos := 0; kr_len := 0; kr_state := KeyboardState_new |}.

Definition KeyboardRing_is_empty (r : KeyboardRing) : bool := kr_len r =? 0.

Definition KeyboardRing_push (r : KeyboardRing) (byte : Z) : KeyboardRing :=
  let full := kr_len r =? KBD_RING_SIZE in
  let read_pos := if full then (kr_read_pos r + 1) mod KBD_RING_SIZE else kr_read_pos r in
  let len := if full then kr_len r - 1 else kr_len r in
  {| kr_buf := <[Z.to_nat (kr_write_pos r) := byte]> (kr_buf r); kr_read_pos := read_pos;
     kr_write_pos := (kr_write_pos r + 1) mod KBD_RING_SIZE; kr_len := len + 1; kr_state := kr_state r |}.

(** [pop_into] with a destination of [dst] bytes: the bytes copied. *)
Definition KeyboardRing_pop_into (r : KeyboardRing) (dst : Z) : list Z * KeyboardRing :=
  let n := Z.min dst (kr_len r) in
  ((fun i => default 0 (kr_buf r !! Z.to_nat ((kr_read_pos r + i) mod KBD_RING_SIZE))) <$> seqZ 0 n,
   {| kr_buf := kr_buf r; kr_read_pos := (kr_read_pos r + n) mod KBD_RING_SIZE; kr_write_pos := kr_write_pos r;
      kr_len := kr_len r - n; kr_state := kr_state r |}).

Definition KeyboardRing_feed (r : KeyboardRing) (scancode : Z) : bool * KeyboardRing :=
  let '(e, st) := feed_scancode (kr_state r) scancode in
  let r1 := {| kr_buf := kr_buf r; kr_read_pos := kr_read_pos r; kr_write_pos := kr_write_pos r; kr_len := kr_len r; kr_state := st |} in
  match e with Char b => (true, KeyboardRing_push r1 b) | _ => (false, r1) end.

(** ** The ring as a queue that forgets its oldest byte *)

Definition at_ring (r : KeyboardRing) (i : Z) : Z := default 0 (kr_buf r !! Z.to_nat ((kr_read_pos r + i) mod KBD_RING_SIZE)).

Definition kbd_contents (r : KeyboardRing) : list Z := at_ring r <$> seqZ 0 (kr_len r).

Record kring_ok (r : KeyboardRing) : Prop := {
  ko_buf : length (kr_buf r) = 256%nat;
  ko_read : 0 <= kr_read_pos r < 256;
  ko_len : 0 <= kr_len r <= 256;
  ko_write : kr_write_pos r = (kr_read_pos r + kr_len r) mod 256
}.

(** The last 256 bytes. *)
Definition newest (l : list Z) : list Z := drop (length l - 256) l.

Lemma kbd_contents_length r : kring_ok r -> Z.of_nat (length (kbd_contents r)) = kr_len r.
Proof. intros H. unfold kbd_contents. rewrite length_fmap, length_seqZ. pose proof (ko_len _ H). lia. Qed.

Lemma contents_lookup r i : 0 <= i < kr_len r -> kbd_contents r !! Z.to_nat i = Some (at_ring r i).
Proof. intros Hi. unfold kbd_contents. rewrite list_lookup_fmap, lookup_seqZ_lt by lia. cbn. do 2 f_equal. lia. Qed.

Lemma ring_mod_ne read i len : 0 <= read < 256 -> 0 <= i < len -> len <= 255 \/ (len = 256 /\ 0 < i) ->
  (read + i) mod 256 <> (read + len) mod 256.
Proof. intros Hr Hi Hl. Z.div_mod_to_equations. lia. Qed.

Lemma push_ok r b : kring_ok r -> kring_ok (KeyboardRing_push r b) /\ kbd_contents (KeyboardRing_push r b) = newest (kbd_contents r ++ [b]).
Proof.
  intros H. pose proof H as [H1 H2 H3 H4]. unfold KeyboardRing_push, KBD_RING_SIZE. pose proof (kbd_contents_length r H) as Hl.
  assert (Hb : forall j, <[Z.to_nat (kr_write_pos r) := b]> (kr_buf r) !! Z.to_nat ((kr_read_pos r + j) mod 256) =
    if decide ((kr_read_pos r + j) mod 256 = kr_write_pos r) then Some b else kr_buf r !! Z.to_nat ((kr_read_pos r + j) mod 256)).
  { intros j. pose proof (Z.mod_pos_bound (kr_read_pos r + j) 256 ltac:(lia)). pose proof (Z.mod_pos_bound (kr_read_pos r + kr_len r) 256 ltac:(lia)).
    case_decide as E; [rewrite E; apply list_lookup_insert_eq; lia|apply list_lookup_insert_ne; lia]. }
  destruct (Z.eqb_spec (kr_len r) 256) as [Ef|Ef].
  - split.
    + constructor; cbn; [by rewrite length_insert|apply Z.mod_pos_bound; lia|lia|]. rewrite H4, Ef. clear. Z.div_mod_to_equations. lia.
    + unfold newest. rewrite length_app. cbn [length]. replace (length (kbd_contents r) + 1 - 256)%nat with 1%nat by lia.
      apply list_eq_same_length with 256%nat; [rewrite length_drop, length_app; cbn; lia|unfold kbd_contents; rewrite length_fmap, length_seqZ; cbn; lia|].
      intros j x y Hj Hx Hy. rewrite lookup_drop in Hy. rewrite <- (Nat2Z.id j) in Hx. rewrite contents_lookup in Hx by (cbn; lia). unfold at_ring, KBD_RING_SIZE in Hx. cbn [kr_buf kr_read_pos] in Hx.
      rewrite Z.add_mod_idemp_l, <- Z.add_assoc, Hb in Hx by lia. destruct (decide (j = 255%nat)) as [->|Hne].
      * rewrite lookup_app_r in Hy by lia. replace (1 + 255 - length (kbd_contents r))%nat with 0%nat in Hy by lia. injection Hy as <-.
        rewrite decide_True in Hx by (rewrite H4, Ef; f_equal; lia). by injection Hx.
      * rewrite lookup_app_l in Hy by lia. replace (1 + j)%nat with (Z.to_nat (1 + Z.of_nat j)) in Hy by lia. rewrite contents_lookup in Hy by lia.
        rewrite decide_False in Hx by (rewrite H4; apply ring_mod_ne; lia). unfold at_ring, KBD_RING_SIZE in Hy. congruence.
  - split.
    + constructor; cbn; [by rewrite length_insert|done|lia|]. rewrite H4. clear. Z.div_mod_to_equations. lia.
    + unfold newest. rewrite length_app. cbn [length]. replace (length (kbd_contents r) + 1 - 256)%nat with 0%nat by lia. rewrite drop_0.
      apply list_eq_same_length with (length (kbd_contents r) + 1)%nat; [rewrite length_app; cbn; lia|unfold kbd_contents at 1; rewrite length_fmap, length_seqZ; cbn; lia|].
      intros j x y Hj Hx Hy. rewrite <- (Nat2Z.id j) in Hx. rewrite contents_lookup in Hx by (cbn; lia). unfold at_ring, KBD_RING_SIZE in Hx. cbn [kr_buf kr_read_pos] in Hx. rewrite Hb in Hx.
      destruct (decide (j = length (kbd_contents r))) as [->|Hne].
      * rewrite list_lookup_middle in Hy by done. injection Hy as <-. rewrite decide_True in Hx by (rewrite H4; f_equal; lia). by injection Hx.
      * rewrite lookup_app_l in Hy by lia. rewrite <- (Nat2Z.id j), contents_lookup in Hy by lia.
        rewrite decide_False in Hx by (rewrite H4; apply ring_mod_ne; lia). unfold at_ring, KBD_RING_SIZE in Hy. congruence.
Qed.

Lemma pop_into_ok r dst : kring_ok r -> 0 <= dst ->
  kring_ok (snd (KeyboardRing_pop_into r dst)) /\ fst (KeyboardRing_pop_into r dst) = take (Z.to_nat dst) (kbd_contents r) /\
  kbd_contents (snd (KeyboardRing_pop_into r dst)) = drop (Z.to_nat dst) (kbd_contents r).
Proof.
  intros H Hd. pose proof H as [H1 H2 H3 H4]. unfold KeyboardRing_pop_into, KBD_RING_SIZE. cbn [fst snd]. set (n := Z.min dst (kr_len r)).
  assert (seqZ 0 (kr_len r) = seqZ 0 n ++ seqZ n (kr_len r - n)) as Es.
  { rewrite <- (Z.add_0_l n) at 2. rewrite <- seqZ_app by lia. f_equal. lia. }
  split_and!.
  - constructor; cbn; [done|apply Z.mod_pos_bound; lia|lia|]. rewrite H4. clear. Z.div_mod_to_equations. lia.
  - unfold kbd_contents. rewrite Es, fmap_app. destruct (decide (dst <= kr_len r)).
    + rewrite take_app_length'; [done|]. rewrite length_fmap, length_seqZ. lia.
    + rewrite take_ge; [|rewrite length_app, !length_fmap, !length_seqZ; lia]. replace (kr_len r - n) with 0 by lia. cbn. by rewrite app_nil_r.
  - unfold kbd_contents at 2. rewrite Es, fmap_app. transitivity (at_ring r <$> seqZ n (kr_len r - n)).
    + unfold kbd_contents. cbn [kr_len]. replace (seqZ n (kr_len r - n)) with (Z.add n <$> seqZ 0 (kr_len r - n)) by (rewrite fmap_add_seqZ; f_equal; lia).
      rewrite <- list_fmap_compose. apply list_fmap_ext. intros i x _. cbn. unfold at_ring, KBD_RING_SIZE. cbn.
      do 3 f_equal. rewrite Z.add_mod_idemp_l by lia. f_equal. lia.
    + destruct (decide (dst <= kr_len r)).
      * rewrite drop_app_length'; [done|]. rewrite length_fmap, length_seqZ. lia.
      * replace (kr_len r - n) with 0 by lia. cbn. rewrite app_nil_r. symmetry. apply drop_ge. rewrite length_fmap, length_seqZ. lia.
Qed.

(** ** Typing *)

Lemma newest_app l b : newest (newest l ++ b) = newest (l ++ b).
Proof.
  unfold newest. rewrite !length_app, length_drop. destruct (decide (length l <= 256)%nat).
  - replace (length l - 256)%nat with 0%nat by lia. rewrite drop_0. do 2 f_equal. lia.
  - rewrite <- drop_app_le by lia. rewrite drop_drop. f_equal. lia.
Qed.

Lemma newest_short l : (length l <= 256)%nat -> newest l = l.
Proof. intros Hl. unfold newest. replace (length l - 256)%nat with 0%nat by lia. apply drop_0. Qed.

(** A key pressed and released, with or without shift held, or the two bytes of an
    extended key, such as an arrow. *)
Inductive stroke := Key (code : Z) (with_shift : bool) | Extended (byte : Z).

Definition stroke_codes (k : stroke) : list Z :=
  match k with
  | Key code false => [code; Z.lor code BREAK_BIT]
  | Key code true => [SC_LSHIFT; code; Z.lor code BREAK_BIT; Z.lor SC_LSHIFT BREAK_BIT]
  | Extended byte => [EXTENDED_PREFIX; byte]
  end.

Definition stroke_text (k : stroke) : list Z :=
  match k with
  | Key code sh => let '(base, shifted) := set1_chars code in [if sh : bool then shifted else base]
  | Extended _ => []
  end.

Definition on_layout (k : stroke) : Prop :=
  match k with Key code _ => 0 <= code < 128 /\ fst (set1_chars code) <> 0 | Extended _ => True end.

Definition feed_all (r : KeyboardRing) (codes : list Z) : KeyboardRing := foldl (fun r c => snd (KeyboardRing_feed r c)) r codes.

(** The decoder alone. *)
Fixpoint decode (s : KeyboardState) (codes : list Z) : list Z * KeyboardState :=
  match codes with
  | [] => ([], s)
  | c :: codes' =>
      let '(e, s1) := feed_scancode s c in
      let '(bs, s2) := decode s1 codes' in
      (match e with Char b => b :: bs | _ => bs end, s2)
  end.

Lemma feed_all_decode codes r : kring_ok r ->
  kring_ok (feed_all r codes) /\ kbd_contents (feed_all r codes) = newest (kbd_contents r ++ fst (decode (kr_state r) codes)) /\
  kr_state (feed_all r codes) = snd (decode (kr_state r) codes).
Proof.
  revert r. induction codes as [|c codes IH]; intros r H.
  { cbn. rewrite app_nil_r, newest_short; [done|]. pose proof (kbd_contents_length r H). pose proof (ko_len _ H). lia. }
  cbn [feed_all foldl decode]. unfold KeyboardRing_feed. destruct (feed_scancode (kr_state r) c) as [e s1].
  set (r1 := {| kr_buf := kr_buf r |}). assert (kring_ok r1) as H1 by (by destruct H). assert (kbd_contents r1 = kbd_contents r) as E1 by done.
  destruct (decode s1 codes) as [bs s2] eqn:Ed. destruct e as [b| |]; cbn [snd fst].
  - destruct (push_ok r1 b H1) as [H2 E2]. destruct (IH _ H2) as (H3 & E3 & E4). change (kr_state (KeyboardRing_push r1 b)) with s1 in *.
    rewrite Ed in *. split; [exact H3|]. split; [|exact E4]. etrans; [exact E3|]. rewrite E2, newest_app, E1, <- app_assoc. done.
  - destruct (IH r1 H1) as (H3 & E3 & E4). change (kr_state r1) with s1 in *. rewrite Ed in *. done.
  - destruct (IH r1 H1) as (H3 & E3 & E4). change (kr_state r1) with s1 in *. rewrite Ed in *. done.
Qed.

Lemma decode_app s c1 c2 : decode s (c1 ++ c2) =
  (fst (decode s c1) ++ fst (decode (snd (decode s c1)) c2), snd (decode (snd (decode s c1)) c2)).
Proof.
  revert s. induction c1 as [|c c1 IH]; intros s; [cbn; by destruct (decode s c2)|].
  cbn [app decode]. destruct (feed_scancode s c) as [e s1]. rewrite IH. destruct (decode s1 c1) as [bs s2]. cbn [fst snd]. by destruct e.
Qed.

Definition key_checked (code : Z) : bool :=
  (fst (set1_chars code) =? 0) ||
  forallb (fun sh => bool_decide (decode KeyboardState_new (stroke_codes (Key code sh)) = (stroke_text (Key code sh), KeyboardState_new))) [false; true].

Lemma stroke_decodes k : on_layout k -> decode KeyboardState_new (stroke_codes k) = (stroke_text k, KeyboardState_new).
Proof.
  destruct k as [code sh|byte]; [|done]. intros [Hc Hm].
  assert (forallb key_checked (seqZ 0 128) = true) as Hall by (vm_compute; reflexivity).
  rewrite forallb_forall in Hall. specialize (Hall code). rewrite <- list_elem_of_In, elem_of_seqZ in Hall. specialize (Hall ltac:(lia)).
  unfold key_checked in Hall. rewrite (proj2 (Z.eqb_neq _ 0)) in Hall by done. cbn [orb forallb] in Hall.
  apply andb_prop in Hall as [H1 [H2 _]%andb_prop]. apply bool_decide_eq_true in H1, H2. by destruct sh.
Qed.

(** Typing.  Starting with no key held and any bytes waiting, any sequence of keys
    of the layout, each pressed and released with or without shift, and of extended
    keys leaves exactly the text of the keys behind the waiting bytes, in order, of
    which the ring keeps the last 256; no key is left held and the extended prefix
    never leaks into the next key; and a read of [dst] bytes returns the oldest of
    them and leaves the rest. *)
Theorem keyboard_typing r keys dst :
  kring_ok r -> kr_state r = KeyboardState_new -> Forall on_layout keys -> 0 <= dst ->
  let r1 := feed_all r (concat (stroke_codes <$> keys)) in
  let waiting := newest (kbd_contents r ++ concat (stroke_text <$> keys)) in
  kring_ok r1 /\ kr_state r1 = KeyboardState_new /\ kbd_contents r1 = waiting /\
  fst (KeyboardRing_pop_into r1 dst) = take (Z.to_nat dst) waiting /\
  kbd_contents (snd (KeyboardRing_pop_into r1 dst)) = drop (Z.to_nat dst) waiting.
Proof.
  intros H Hs Hk Hd r1 waiting.
  assert (decode KeyboardState_new (concat (stroke_codes <$> keys)) = (concat (stroke_text <$> keys), KeyboardState_new)) as Ed.
  { clear -Hk. induction Hk as [|k keys Hk _ IH]; [done|]. cbn [fmap list_fmap concat]. rewrite decode_app, stroke_decodes by done. cbn [fst snd]. by rewrite IH. }
  destruct (feed_all_decode (concat (stroke_codes <$> keys)) r H) as (H1 & E1 & E2). rewrite Hs, Ed in E1, E2. cbn [fst snd] in E1, E2.
  fold r1 waiting in E1, E2, H1. destruct (pop_into_ok r1 dst H1 Hd) as (_ & P1 & P2). rewrite E1 in P1, P2. done.
Qed.

(** "Hi", an arrow key, and a read of one byte. *)
Lemma keyboard_typing_witness :
  let r1 := feed_all KeyboardRing_new [0x2A; 0x23; 0xA3; 0xAA; 0x17; 0x97; 0xE0; 0x48] in
  fst (KeyboardRing_pop_into r1 1) = [72] /\ kbd_contents (snd (KeyboardRing_pop_into r1 1)) = [105].
Proof.
  destruct (keyboard_typing KeyboardRing_new [Key 0x23 true; Key 0x17 false; Extended 0x48] 1) as (_ & _ & _ & E1 & E2).
  - constructor; [reflexivity|cbn; lia|cbn; lia|reflexivity].
  - reflexivity.
  - repeat constructor; cbn; lia.
  - lia.
  - split; [exact E1|exact E2].
Defined.
