(* ===== verification/KeyboardSystem.v ===== *)
(** * The keyboard: interrupt handler and blocked readers

    [keyboard_irq_handler] and [keyboard_read] of crates/keyboard/src/lib.rs as atomic
    steps: the handler feeds the ring under its lock, bumps the generation counter and
    wakes the first reader that the scheduler accepts; a reader samples the counter, inspects the ring under its lock
    and decides to sleep under the lock of the wait queue.  Any number of readers; one
    handler at a time, since the interrupt is routed to one processor and runs with
    interrupts off. *)

From Stdlib Require Import ZArith Lia.
From stdpp Require Import prelude list relations.
From S2P Require Import Prelude Wake Keyboard.

Local Open Scope Z_scope.

Inductive irq_pc := IrqIdle | IrqBump | IrqWake.

(** Where a reader is, with the length of its buffer and the counter it sampled. *)
Inductive kread_pc := KOutside | KSample (len : Z) | KRing (len snap : Z) | KBlockIf (len snap : Z) | KSleep (len : Z).

(** [kb_lost] records that the scheduler has refused every waiting reader of some
    keystroke; the code does not keep it. *)
Record kbd_state := {
  kb_ring : KeyboardRing;
  kb_seq : Z;
  kb_waiters : list nat;
  kb_irq : irq_pc;
  kb_readers : list kread_pc;
  kb_lost : bool
}.

Definition kbd_init (readers : nat) : kbd_state :=
  {| kb_ring := KeyboardRing_new; kb_seq := 0; kb_waiters := []; kb_irq := IrqIdle; kb_readers := replicate readers KOutside; kb_lost := false |}.

(** A woken reader goes round its loop. *)
Definition kread_resume (c : kread_pc) : kread_pc := match c with KSleep len => KSample len | _ => c end.

(** The next step of the handler; [scancode] is read when it starts, and [accept] says
    which threads the scheduler takes.  The handler does not look at the result of
    [wake_one_from_irq]. *)
Definition irq_step (scancode : Z) (accept : nat -> bool) (s : kbd_state) : kbd_state :=
  match kb_irq s with
  | IrqIdle =>
      let '(produced, r) := KeyboardRing_feed (kb_ring s) scancode in
      {| kb_ring := r; kb_seq := kb_seq s; kb_waiters := kb_waiters s;
         kb_irq := if produced then IrqBump else IrqIdle; kb_readers := kb_readers s; kb_lost := kb_lost s |}
  | IrqBump =>
      {| kb_ring := kb_ring s; kb_seq := kb_seq s + 1; kb_waiters := kb_waiters s; kb_irq := IrqWake; kb_readers := kb_readers s; kb_lost := kb_lost s |}
  | IrqWake =>
      let '(woken, rest) := wake_n accept 1 (kb_waiters s) in
      {| kb_ring := kb_ring s; kb_seq := kb_seq s; kb_waiters := rest; kb_irq := IrqIdle; kb_readers := foldr (alter kread_resume) (kb_readers s) woken;
         kb_lost := kb_lost s || (negb (bool_decide (kb_waiters s = [])) && bool_decide (woken = [])) |}
  end.

Definition set_reader (s : kbd_state) (t : nat) (c : kread_pc) : kbd_state :=
  {| kb_ring := kb_ring s; kb_seq := kb_seq s; kb_waiters := kb_waiters s; kb_irq := kb_irq s; kb_readers := <[t := c]> (kb_readers s); kb_lost := kb_lost s |}.

(** The next step of reader [t], or its call with a buffer of [len] bytes. *)
Definition kread_step (len : Z) (t : nat) (c : kread_pc) (s : kbd_state) : kbd_state :=
  match c with
  | KOutside => if len =? 0 then s else set_reader s t (KSample len)
  | KSample n => set_reader s t (KRing n (kb_seq s))
  | KRing n snap =>
      if KeyboardRing_is_empty (kb_ring s) then set_reader s t (KBlockIf n snap) else
      {| kb_ring := snd (KeyboardRing_pop_into (kb_ring s) n); kb_seq := kb_seq s; kb_waiters := kb_waiters s; kb_irq := kb_irq s;
         kb_readers := <[t := KOutside]> (kb_readers s); kb_lost := kb_lost s |}
  | KBlockIf n snap =>
      if wrap32 (kb_seq s) =? wrap32 snap then
        {| kb_ring := kb_ring s; kb_seq := kb_seq s; kb_waiters := kb_waiters s ++ [t]; kb_irq := kb_irq s;
           kb_readers := <[t := KSleep n]> (kb_readers s); kb_lost := kb_lost s |}
      else set_reader s t (KSample n)
  | KSleep _ => s
  end.

Inductive kbd_step : kbd_state -> kbd_state -> Prop :=
| kbd_irq sc accept s : kbd_step s (irq_step sc accept s)
| kbd_read len t c s : 0 <= len -> kb_readers s !! t = Some c -> kbd_step s (kread_step len t c s).

(** ** The invariant *)

(** A reader that will look at the ring before it can sleep. *)
Definition looks (seq : Z) (c : kread_pc) : bool :=
  match c with KSample _ | KRing _ _ => true | KBlockIf _ snap => negb (snap =? seq) | _ => false end.

Definition lookers (s : kbd_state) : Z := zsum (fun c => if looks (kb_seq s) c then 1 else 0) (kb_readers s).

Definition pending (s : kbd_state) : Z := match kb_irq s with IrqIdle => 0 | _ => 1 end.

(** A reader about to sleep. *)
Definition dozing (s : kbd_state) : Prop := exists t len, kb_readers s !! t = Some (KBlockIf len (kb_seq s)).

Definition reader_sane (seq : Z) (c : kread_pc) : Prop :=
  match c with
  | KOutside => True
  | KSample len | KSleep len => 0 < len
  | KRing len snap | KBlockIf len snap => 0 < len /\ 0 <= snap <= seq
  end.

Record kbd_ok (s : kbd_state) : Prop := {
  kk_ring : kring_ok (kb_ring s);
  kk_seq : 0 <= kb_seq s;
  kk_readers : Forall (reader_sane (kb_seq s)) (kb_readers s);
  kk_queue : NoDup (kb_waiters s) /\ forall t, t ∈ kb_waiters s <-> exists len, kb_readers s !! t = Some (KSleep len);
  kk_woken : kb_lost s = false -> kb_waiters s <> [] \/ dozing s -> kr_len (kb_ring s) <= lookers s + pending s;
  kk_waking : kb_irq s = IrqWake -> dozing s -> kr_len (kb_ring s) = 0
}.

Definition asleep (c : kread_pc) : bool := match c with KSleep _ => true | _ => false end.

Lemma lookers_nonneg s : 0 <= lookers s.
Proof. apply zsum_nonneg. intros c. by destruct (looks (kb_seq s) c). Qed.

Lemma pending_nonneg s : 0 <= pending s.
Proof. unfold pending. by destruct (kb_irq s). Qed.

(** The waiting readers when reader [t] moves between states in which it is awake. *)
Lemma queue_awake (q : list nat) (l : list kread_pc) t c c' : l !! t = Some c -> asleep c = false -> asleep c' = false ->
  (forall u, u ∈ q <-> exists len, l !! u = Some (KSleep len)) -> forall u, u ∈ q <-> exists len, <[t := c']> l !! u = Some (KSleep len).
Proof.
  intros Ht Hc Hc' Hq u. rewrite Hq. destruct (decide (u = t)) as [->|Hne]; [|by rewrite list_lookup_insert_ne].
  rewrite Ht, list_lookup_insert_eq by (by eapply lookup_lt_Some). split; intros [len E]; injection E as ->; done.
Qed.

(** A reader that stays awake, and the ring it leaves. *)
Lemma reader_move_ok s t c c' r : kbd_ok s -> kb_readers s !! t = Some c -> asleep c = false -> asleep c' = false -> reader_sane (kb_seq s) c' ->
  kring_ok r -> kr_len r <= kr_len (kb_ring s) ->
  kr_len r = 0 \/ (kr_len r <= kr_len (kb_ring s) - (if looks (kb_seq s) c then 1 else 0) + (if looks (kb_seq s) c' then 1 else 0) /\ forall len, c' <> KBlockIf len (kb_seq s)) ->
  kbd_ok {| kb_ring := r; kb_seq := kb_seq s; kb_waiters := kb_waiters s; kb_irq := kb_irq s; kb_readers := <[t := c']> (kb_readers s); kb_lost := kb_lost s |}.
Proof.
  intros [K1 K2 K3 [K4 K5] K6 K7] Ht Hc Hc' Hs Hr Hle Hcase. set (s' := {| kb_ring := r |}). pose proof (lookers_nonneg s') as Hl. pose proof (pending_nonneg s') as Hp.
  assert (lookers s' = lookers s - (if looks (kb_seq s) c then 1 else 0) + (if looks (kb_seq s) c' then 1 else 0)) as El.
  { unfold lookers. cbn. by rewrite (zsum_insert _ _ _ c). }
  assert (kr_len r = 0 \/ (dozing s' -> dozing s)) as Hd.
  { destruct Hcase as [|[_ Hno]]; [by left|right]. intros (u & len & Hu). cbn in Hu. apply list_lookup_insert_Some in Hu as [(_ & E & _)|[_ Hu]]; [by destruct (Hno len)|by exists u, len]. }
  constructor; try done.
  - cbn. by apply Forall_insert.
  - split; [done|]. cbn. by eapply queue_awake.
  - intros Hlo Hx. cbn in Hlo, Hx. change (kr_len r <= lookers s' + pending s'). destruct Hcase as [|[Hcase Hno]]; [lia|]. destruct Hd as [|Hd]; [lia|]. change (pending s') with (pending s). rewrite El.
    assert (kr_len (kb_ring s) <= lookers s + pending s) by (apply K6; [done|]; destruct Hx; auto). lia.
  - intros Hi Hx. cbn. pose proof (ko_len _ Hr). destruct Hd as [|Hd]; [done|]. specialize (K7 Hi (Hd Hx)). lia.
Qed.

Lemma kread_step_ok len t c s : kbd_ok s -> kb_seq s < 2 ^ 32 -> 0 <= len -> kb_readers s !! t = Some c -> kbd_ok (kread_step len t c s).
Proof.
  intros H Hb Hlen Ht. pose proof H as [K1 K2 K3 [K4 K5] K6 K7]. pose proof (Forall_lookup_1 _ _ _ _ K3 Ht) as Hs.
  destruct c as [|n|n snap|n snap|n]; cbn [kread_step]; [| | | |done].
  - destruct (Z.eqb_spec len 0); [done|]. eapply reader_move_ok; try done; [cbn; lia..|]. right. cbn. split; [lia|done].
  - eapply reader_move_ok; try done; [cbn in *; lia..|]. right. cbn. split; [lia|done].
  - unfold KeyboardRing_is_empty. destruct Hs as [Hn Hsn]. destruct (Z.eqb_spec (kr_len (kb_ring s)) 0) as [E|E]; [eapply reader_move_ok; try done; by (left || lia)|].
    destruct (pop_into_ok (kb_ring s) n K1 ltac:(lia)) as (R1 & _ & _). pose proof (ko_len _ K1).
    eapply reader_move_ok; try done; cbn [snd KeyboardRing_pop_into kr_len]; [lia..|]. right. cbn [looks]. split; [lia|done].
  - destruct Hs as [Hn Hsn]. unfold wrap32, wrapw. rewrite !Z.mod_small by lia. destruct (Z.eqb_spec (kb_seq s) snap) as [<-|E].
    + assert (dozing s) as Hd by (by exists t, n).
      assert (forall s', kb_readers s' = <[t := KSleep n]> (kb_readers s) -> kb_seq s' = kb_seq s -> lookers s' = lookers s /\ (dozing s' -> dozing s)) as Hk.
      { intros s' E1 E2. unfold lookers, dozing. rewrite E1, E2. rewrite (zsum_insert _ _ _ _ _ Ht). cbn [looks]. rewrite Z.eqb_refl. cbn. split; [lia|].
        intros (u & l & Hu). apply list_lookup_insert_Some in Hu as [(_ & Hx & _)|[_ Hu]]; [done|by exists u, l]. }
      set (s' := {| kb_ring := kb_ring s |}). destruct (Hk s' eq_refl eq_refl) as [El Hdd].
      constructor; try done.
      * cbn. by apply Forall_insert.
      * cbn. split; [apply NoDup_app; split_and!; [done| |apply NoDup_singleton]|].
        -- intros u Hu ->%list_elem_of_singleton. apply K5 in Hu as [l Hl]. congruence.
        -- intros u. rewrite elem_of_app, list_elem_of_singleton, K5. destruct (decide (u = t)) as [->|Hne].
           ++ rewrite list_lookup_insert_eq by (by eapply lookup_lt_Some). naive_solver.
           ++ rewrite list_lookup_insert_ne by done. naive_solver.
      * intros Hlo _. rewrite El. change (pending s') with (pending s). apply K6; [done|]. by right.
      * intros Hi _. by apply K7.
    + eapply reader_move_ok; try done; [lia..|]. right. cbn. rewrite (proj2 (Z.eqb_neq snap (kb_seq s))) by done. cbn. split; [lia|done].
Qed.

Lemma feed_ring_ok r sc : kring_ok r -> kring_ok (snd (KeyboardRing_feed r sc)) /\
  kr_len (snd (KeyboardRing_feed r sc)) <= kr_len r + (if fst (KeyboardRing_feed r sc) then 1 else 0).
Proof.
  intros H. unfold KeyboardRing_feed. destruct (feed_scancode (kr_state r) sc) as [e st]. set (r1 := {| kr_buf := kr_buf r |}).
  assert (kring_ok r1) as H1 by (by destruct H). destruct e as [b| |]; cbn [fst snd]; [|split; [done|cbn; lia]..].
  split; [by apply push_ok|]. unfold KeyboardRing_push, r1. cbn [kr_len]. cbv zeta. destruct (kr_len r =? KBD_RING_SIZE); cbn; lia.
Qed.

Lemma lookers_bump s s' : kbd_ok s -> kb_readers s' = kb_readers s -> kb_seq s' = kb_seq s + 1 -> lookers s <= lookers s'.
Proof.
  intros H Er Es. unfold lookers. rewrite Er, Es. pose proof (kk_readers _ H) as Hr. clear Er. induction Hr as [|c l Hc _ IH]; [done|]. cbn [zsum].
  assert ((if looks (kb_seq s) c then 1 else 0) <= (if looks (kb_seq s + 1) c then 1 else 0)); [|lia].
  destruct c; cbn in *; try lia. destruct (Z.eqb_spec snap (kb_seq s + 1)), (Z.eqb_spec snap (kb_seq s)); cbn; lia.
Qed.

Lemma irq_step_ok sc accept s : kbd_ok s -> kbd_ok (irq_step sc accept s).
Proof.
  intros H. pose proof H as [K1 K2 K3 [K4 K5] K6 K7]. unfold irq_step. destruct (kb_irq s) eqn:Ei.
  - destruct (feed_ring_ok (kb_ring s) sc K1) as [R1 R2]. destruct (KeyboardRing_feed (kb_ring s) sc) as [produced r]. cbn [fst snd] in *.
    constructor; try done; [|by destruct produced]. intros Hlo Hx. change (lookers _) with (lookers s). specialize (K6 Hlo Hx). unfold pending in *. rewrite Ei in K6. cbn. destruct produced; lia.
  - set (s' := {| kb_ring := kb_ring s |}). pose proof (lookers_bump s s' H eq_refl eq_refl) as Hl.
    assert (~ dozing s') as Hno. { intros (t & len & Ht). cbn in Ht. pose proof (Forall_lookup_1 _ _ _ _ K3 Ht) as Hs. cbn in Hs. lia. }
    constructor; try done.
    + cbn. lia.
    + cbn. eapply Forall_impl; [exact K3|]. intros c. destruct c; cbn; lia.
    + intros Hlo [Hx|Hx]; [|done]. specialize (K6 Hlo (or_introl Hx)). unfold pending in K6. rewrite Ei in K6. change (kr_len (kb_ring s) <= lookers s' + 1). lia.
  - destruct (wake_one_cases accept (kb_waiters s)) as [[-> Hno]|(q1 & t & q2 & Eq & _ & _ & ->)]; cbn [foldr].
    + rewrite (bool_decide_eq_true_2 ([] = [])), andb_true_r by done. constructor; try done. cbn. intros Hlo [Hx|Hx].
      * apply orb_false_iff in Hlo as [_ Hlo]. by rewrite bool_decide_eq_false_2 in Hlo.
      * rewrite (K7 eq_refl Hx). apply Z.add_nonneg_nonneg; [apply lookers_nonneg|done].
    + rewrite (bool_decide_eq_false_2 ([t] = [])), andb_false_r, orb_false_r by done. rewrite Eq in K4, K5.
      assert (exists len, kb_readers s !! t = Some (KSleep len)) as [len Ht] by (apply K5; set_solver).
      assert (alter kread_resume t (kb_readers s) = <[t := KSample len]> (kb_readers s)) as Ea.
      { apply list_eq. intros j. destruct (decide (j = t)) as [->|Hne]; [rewrite list_lookup_alter_eq, Ht, list_lookup_insert_eq by (by eapply lookup_lt_Some); done|].
        by rewrite list_lookup_alter_ne, list_lookup_insert_ne. }
      rewrite Ea. set (s' := {| kb_ring := kb_ring s |}).
      assert (t :: q1 ++ q2 ≡ₚ q1 ++ t :: q2) as Hp by apply Permutation_middle. rewrite <- Hp in K4. apply NoDup_cons in K4 as [Hnt K4].
      assert (lookers s' = lookers s + 1) as El by (unfold lookers; cbn; rewrite (zsum_insert _ _ _ _ _ Ht); cbn; lia).
      constructor; try done.
      * cbn. apply Forall_insert; [done|]. exact (Forall_lookup_1 _ _ _ _ K3 Ht).
      * split; [done|]. intros u. cbn. destruct (decide (u = t)) as [->|Hne].
        -- rewrite list_lookup_insert_eq by (by eapply lookup_lt_Some). split; [done|by intros [l [=]]].
        -- rewrite list_lookup_insert_ne by done. rewrite <- K5. clear -Hne. set_solver.
      * intros Hlo _. rewrite El. assert (kr_len (kb_ring s) <= lookers s + pending s) as K6' by (apply K6; [done|]; left; rewrite Eq; by destruct q1).
        unfold pending in K6'. rewrite Ei in K6'. change (kr_len (kb_ring s) <= lookers s + 1 + 0). lia.
Qed.

Lemma kbd_seq_mono s s' : kbd_step s s' -> kb_seq s <= kb_seq s'.
Proof.
  intros Hs. destruct Hs as [sc accept s|len t c s _ _].
  - unfold irq_step. destruct (kb_irq s); cbn; [destruct (KeyboardRing_feed _ _)|lia|destruct (wake_n _ _ _)]; cbn; lia.
  - destruct c; cbn [kread_step]; repeat case_match; cbn; lia.
Qed.

Lemma kbd_init_ok n : kbd_ok (kbd_init n).
Proof.
  constructor; cbn; try done.
  - by apply Forall_replicate.
  - split; [apply NoDup_nil_2|]. intros t. split; [by intros ?%not_elem_of_nil|]. intros [len Hl]. apply lookup_replicate in Hl as [E _]. done.
  - intros _ _. apply Z.add_nonneg_nonneg; [apply (lookers_nonneg (kbd_init n))|done].
Qed.

(** C20: No keystroke is slept through, with any number of readers, as long as the
    scheduler accepts one of the waiting readers at each keystroke.  In every
    interleaving of the interrupt handler and the readers, with fewer than 2^32
    keystrokes, whenever a reader sleeps and the handler is not about to wake one,
    there are at least as many readers on their way to the ring as there are bytes in
    it; so readers sleep only while every byte has a reader coming for it, and all
    sleep only on an empty ring. *)
Theorem keyboard_no_lost_wakeup n s : rtc kbd_step (kbd_init n) s -> kb_seq s < 2 ^ 32 ->
  kb_lost s = false -> kb_waiters s <> [] -> kb_irq s = IrqIdle ->
  Z.of_nat (length (kbd_contents (kb_ring s))) <= lookers s /\
  (Forall (fun c => c = KOutside \/ asleep c = true) (kb_readers s) -> kbd_contents (kb_ring s) = []).
Proof.
  intros Hrun Hb Hlo Hq Hi.
  assert (kbd_ok s) as H.
  { revert Hb. apply (rtc_invariant kbd_step (fun s => kb_seq s < 2 ^ 32 -> kbd_ok s) (kbd_init n)); [intros _; apply kbd_init_ok| |exact Hrun].
    intros y y' Hy Hs Hb. pose proof (kbd_seq_mono _ _ Hs). specialize (Hy ltac:(lia)). destruct Hs; [by apply irq_step_ok|apply kread_step_ok; (done || lia)]. }
  pose proof (kbd_contents_length _ (kk_ring _ H)) as Hc. pose proof (kk_woken _ H Hlo (or_introl Hq)) as Hw. unfold pending in Hw. rewrite Hi in Hw.
  split; [lia|]. intros Hall. assert (lookers s = 0) as Hl.
  { unfold lookers. induction Hall as [|c l Hcl _ IH]; [done|]. cbn [zsum]. rewrite IH. destruct Hcl as [->|Ha]; [done|by destruct c]. }
  apply nil_length_inv. lia.
Qed.

(** Two readers sleep, a key arrives whose handler finds the first reader refused: the
    second is on its way. *)
Lemma keyboard_no_lost_wakeup_witness : exists s, rtc kbd_step (kbd_init 2) s /\ kbd_contents (kb_ring s) = [97] /\ kb_waiters s = [0%nat] /\ 1 <= lookers s.
Proof.
  eassert (rtc kbd_step (kbd_init 2) _) as Hrun.
  { do 4 (eapply rtc_l; [apply (kbd_read 16 0); [lia|reflexivity]|]). do 4 (eapply rtc_l; [apply (kbd_read 16 1); [lia|reflexivity]|]).
    do 3 (eapply rtc_l; [apply (kbd_irq 0x1E (fun t => Nat.eqb t 1))|]). apply rtc_refl. }
  eexists. split; [exact Hrun|]. split; [vm_compute; reflexivity|]. split; [vm_compute; reflexivity|].
  apply (keyboard_no_lost_wakeup 2 _ Hrun); [vm_compute; reflexivity|vm_compute; reflexivity|vm_compute; discriminate|vm_compute; reflexivity].
Defined.

(** A keystroke whose wake-up the scheduler refuses waits in the ring while the only
    reader sleeps. *)
Lemma keyboard_refused_wake_lost : exists s, rtc kbd_step (kbd_init 1) s /\ kbd_contents (kb_ring s) = [97] /\ kb_irq s = IrqIdle /\ kb_readers s = [KSleep 16].
Proof.
  eassert (rtc kbd_step (kbd_init 1) _) as Hrun.
  { do 4 (eapply rtc_l; [apply (kbd_read 16 0); [lia|reflexivity]|]). do 3 (eapply rtc_l; [apply (kbd_irq 0x1E (fun _ => false))|]). apply rtc_refl. }
  eexists. split; [exact Hrun|]. split_and!; vm_compute; reflexivity.
Qed.

(** ** The reader and the handler on one processor

    Here the lock of the ring and the interrupt flag are explicit.  The system call
    starts with interrupts off; [thread_block_if] ends with [sti] whether it slept or
    not, so from the second round on the reader holds the lock of the ring with
    interrupts on. *)
Inductive local_pc := LLoop | LHolds | LBlockIf | LReturn.

(** [lc_irq] is the handler: not running, spinning on the lock, or done with it. *)
Inductive local_irq := NoIrq | IrqSpins | IrqFed.

Record local_cpu := { lc_if : bool; lc_locked : bool; lc_pc : local_pc; lc_irq : local_irq }.

Definition local_entry : local_cpu := {| lc_if := false; lc_locked := false; lc_pc := LLoop; lc_irq := NoIrq |}.

(** One step of the processor; [empty] is what the reader finds in the ring. *)
Definition local_step (empty : bool) (arrive : bool) (s : local_cpu) : local_cpu :=
  match lc_irq s with
  | IrqSpins => if lc_locked s then s else {| lc_if := lc_if s; lc_locked := false; lc_pc := lc_pc s; lc_irq := IrqFed |}
  | IrqFed => {| lc_if := true; lc_locked := lc_locked s; lc_pc := lc_pc s; lc_irq := NoIrq |}
  | NoIrq =>
      if lc_if s && arrive then {| lc_if := false; lc_locked := lc_locked s; lc_pc := lc_pc s; lc_irq := IrqSpins |} else
      match lc_pc s with
      | LLoop => if lc_locked s then s else {| lc_if := lc_if s; lc_locked := true; lc_pc := LHolds; lc_irq := NoIrq |}
      | LHolds => {| lc_if := lc_if s; lc_locked := false; lc_pc := if empty then LBlockIf else LReturn; lc_irq := NoIrq |}
      | LBlockIf => {| lc_if := true; lc_locked := lc_locked s; lc_pc := LLoop; lc_irq := NoIrq |}
      | LReturn => s
      end
  end.

Definition local_run (steps : list (bool * bool)) (s : local_cpu) : local_cpu := foldl (fun s '(e, a) => local_step e a s) s steps.

(** A key that arrives while the reader holds the lock in its second round stops the
    processor for good: the handler waits for a lock whose holder it has interrupted. *)
Lemma keyboard_irq_deadlock : exists s, s = local_run [(true, false); (true, false); (true, false); (true, false); (true, true)] local_entry /\
  lc_irq s = IrqSpins /\ lc_locked s = true /\ forall steps, local_run steps s = s.
Proof.
  eexists. split; [reflexivity|]. cbn. split; [reflexivity|]. split; [reflexivity|].
  induction steps as [|[e a] steps IH]; [reflexivity|]. exact IH.
Qed.
