(* ===== verification/TaggedStack.v ===== *)
(** * The tagged stack

    [AtomicTaggedStack] of crates/memory/src/tagged_stack.rs: a lock-free stack of
    intrusive nodes whose head is one 128-bit word of a pointer and a tag.  The tag
    grows with every successful exchange, so that an exchange fails when the head was
    popped and pushed again in between.  Each shared access of [push] and [pop] is one
    step of its thread; a thread owns the nodes it popped, writes to them and pushes
    them back as it likes. *)

From Stdlib Require Import ZArith Lia.
From stdpp Require Import prelude gmap list relations.
From S2P Require Import Prelude.

Local Open Scope Z_scope.

Definition pack (ptr tag : Z) : Z := Z.lor (Z.shiftl tag 64) ptr.

Definition unpack (value : Z) : Z * Z := (value mod 2 ^ 64, Z.shiftr value 64 mod 2 ^ 64).

(** Between the accesses of [push(node)] and [pop()]; [current] is the head loaded. *)
Inductive stack_pc :=
| SIdle
| SPushLoad (node : Z)
| SPushWrite (node current : Z)
| SPushCas (node current : Z)
| SPopLoad
| SPopNext (current : Z)
| SPopCas (current next_ptr : Z).

Inductive stack_event := EPush (node : Z) | EPop (node : Z) | EPopNull.

Record stack_thread := { st_pc : stack_pc; st_own : list Z }.

(** [ts_log] records the calls at the access that decides them. *)
Record stack_sys := {
  ts_head : Z;
  ts_next : gmap Z Z;
  ts_threads : list stack_thread;
  ts_log : list stack_event
}.

Definition stack_init (owns : list (list Z)) : stack_sys :=
  {| ts_head := 0; ts_next := ∅; ts_threads := (fun o => {| st_pc := SIdle; st_own := o |}) <$> owns; ts_log := [] |}.

Definition AtomicTaggedStack_is_empty (s : stack_sys) : bool := fst (unpack (ts_head s)) =? 0.

Definition stack_set (s : stack_sys) (t : nat) (th : stack_thread) : stack_sys :=
  {| ts_head := ts_head s; ts_next := ts_next s; ts_threads := <[t := th]> (ts_threads s); ts_log := ts_log s |}.

Definition stack_go (s : stack_sys) (t : nat) (th : stack_thread) (pc : stack_pc) : stack_sys :=
  stack_set s t {| st_pc := pc; st_own := st_own th |}.

(** The store of [v] to the next word of [node], then [pc]. *)
Definition write_next (s : stack_sys) (t : nat) (th : stack_thread) (node v : Z) (pc : stack_pc) : stack_sys :=
  {| ts_head := ts_head s; ts_next := <[node := v]> (ts_next s);
     ts_threads := <[t := {| st_pc := pc; st_own := st_own th |}]> (ts_threads s); ts_log := ts_log s |}.

(** The successful exchange. *)
Definition stack_commit (s : stack_sys) (t : nat) (head : Z) (own : list Z) (e : stack_event) : stack_sys :=
  {| ts_head := head; ts_next := ts_next s; ts_threads := <[t := {| st_pc := SIdle; st_own := own |}]> (ts_threads s); ts_log := ts_log s ++ [e] |}.

Definition remove_one (n : Z) (l : list Z) : list Z := filter (fun x => x <> n) l.

(** The next access of thread [t]; an idle one starts a push of a node it owns, or a
    pop. *)
Definition stack_act (call : option Z) (t : nat) (th : stack_thread) (s : stack_sys) : stack_sys :=
  match st_pc th with
  | SIdle =>
      match call with
      | Some node => if decide (node ∈ st_own th) then stack_go s t th (SPushLoad node) else s
      | None => stack_go s t th SPopLoad
      end
  | SPushLoad node => stack_go s t th (SPushWrite node (ts_head s))
  | SPushWrite node current =>
      write_next s t th node (fst (unpack current)) (SPushCas node current)
  | SPushCas node current =>
      if ts_head s =? current then
        stack_commit s t (pack node (wrap64 (snd (unpack current) + 1))) (remove_one node (st_own th)) (EPush node)
      else stack_go s t th (SPushLoad node)
  | SPopLoad =>
      if fst (unpack (ts_head s)) =? 0 then stack_commit s t (ts_head s) (st_own th) EPopNull
      else stack_go s t th (SPopNext (ts_head s))
  | SPopNext current => stack_go s t th (SPopCas current (default 0 (ts_next s !! fst (unpack current))))
  | SPopCas current next_ptr =>
      let '(head, tag) := unpack current in
      if ts_head s =? current then stack_commit s t (pack next_ptr (wrap64 (tag + 1))) (head :: st_own th) (EPop head)
      else stack_go s t th SPopLoad
  end.

(** A thread uses the nodes it owns as it likes between its calls. *)
Inductive stack_step : stack_sys -> stack_sys -> Prop :=
| stack_thread_step call t th s : ts_threads s !! t = Some th -> stack_step s (stack_act call t th s)
| stack_use_step t th node v s : ts_threads s !! t = Some th -> node ∈ st_own th -> st_pc th = SIdle -> stack_step s (write_next s t th node v SIdle).

(** ** The specification: a list *)

Definition stack_spec (l : list Z) (e : stack_event) : option (list Z) :=
  match e, l with
  | EPush n, _ => Some (n :: l)
  | EPop n, x :: l' => if x =? n then Some l' else None
  | EPopNull, [] => Some []
  | _, _ => None
  end.

Definition replay (log : list stack_event) : option (list Z) :=
  foldl (fun o e => l ← o; stack_spec l e) (Some []) log.

Lemma replay_snoc log e l : replay log = Some l -> replay (log ++ [e]) = stack_spec l e.
Proof. intros E. unfold replay in *. rewrite foldl_app, E. done. Qed.

Definition exchanges (log : list stack_event) : Z := zsum (fun e => match e with EPopNull => 0 | _ => 1 end) log.

(** The nodes linked from [p]. *)
Fixpoint linked (m : gmap Z Z) (p : Z) (l : list Z) : Prop :=
  match l with
  | [] => p = 0
  | n :: l' => p = n /\ exists q, m !! n = Some q /\ linked m q l'
  end.

Definition is_node (n : Z) : Prop := 0 < n < 2 ^ 64.

Lemma unpack_pack p t : 0 <= p < 2 ^ 64 -> 0 <= t < 2 ^ 64 -> unpack (pack p t) = (p, t).
Proof.
  intros Hp Ht. unfold unpack, pack. rewrite lor_disjoint_add by lia.
  rewrite Z.shiftr_div_pow2 by lia. f_equal; [rewrite Z.add_comm, Z_mod_plus_full; apply Z.mod_small; lia|].
  rewrite Z.div_add_l, Z.div_small, Z.add_0_r by lia. apply Z.mod_small. lia.
Qed.

(** ** The invariant *)

Definition head_ptr (s : stack_sys) : Z := fst (unpack (ts_head s)).
Definition head_tag (s : stack_sys) : Z := snd (unpack (ts_head s)).

Definition owned_nodes (s : stack_sys) : list Z := concat (st_own <$> ts_threads s).

(** A loaded head is older than the current one, or it is the current one. *)
Definition loaded_ok (s : stack_sys) (current : Z) : Prop :=
  snd (unpack current) <= head_tag s /\ (snd (unpack current) = head_tag s -> current = ts_head s).

Definition thread_ok (s : stack_sys) (th : stack_thread) : Prop :=
  match st_pc th with
  | SIdle | SPopLoad => True
  | SPushLoad node => node ∈ st_own th
  | SPushWrite node current => node ∈ st_own th /\ loaded_ok s current
  | SPushCas node current => node ∈ st_own th /\ loaded_ok s current /\ ts_next s !! node = Some (fst (unpack current))
  | SPopNext current => loaded_ok s current /\ fst (unpack current) <> 0
  | SPopCas current next_ptr => loaded_ok s current /\ fst (unpack current) <> 0 /\
      (current = ts_head s -> ts_next s !! head_ptr s = Some next_ptr)
  end.

Record stack_ok (nodes : list Z) (s : stack_sys) (l : list Z) : Prop := {
  so_replay : replay (ts_log s) = Some l;
  so_linked : linked (ts_next s) (head_ptr s) l;
  so_tag : head_tag s = exchanges (ts_log s);
  so_perm : l ++ owned_nodes s ≡ₚ nodes;
  so_threads : Forall (thread_ok s) (ts_threads s)
}.

Lemma remove_one_perm n l : NoDup l -> n ∈ l -> l ≡ₚ n :: remove_one n l.
Proof.
  intros Hnd Hn. unfold remove_one. apply NoDup_Permutation; [done| |].
  - constructor; [rewrite list_elem_of_filter; naive_solver|by apply NoDup_filter].
  - intros x. rewrite elem_of_cons, list_elem_of_filter. destruct (decide (x = n)); naive_solver.
Qed.

Section Stack.
Context (nodes : list Z) (Hnodup : NoDup nodes) (Hnodes : Forall is_node nodes).

Lemma owned_split s t th : ts_threads s !! t = Some th ->
  exists rest, owned_nodes s ≡ₚ st_own th ++ rest /\
    (forall s' th', ts_threads s' = <[t := th']> (ts_threads s) -> owned_nodes s' ≡ₚ st_own th' ++ rest) /\
    (forall u th' n, u <> t -> ts_threads s !! u = Some th' -> n ∈ st_own th' -> n ∈ rest).
Proof.
  intros Ht. exists (concat (st_own <$> take t (ts_threads s)) ++ concat (st_own <$> drop (S t) (ts_threads s))). unfold owned_nodes. split_and!.
  - rewrite <- (take_drop_middle _ _ _ Ht) at 1. rewrite fmap_app, fmap_cons, concat_app. cbn. apply Permutation_app_swap_app.
  - intros s' th' ->. rewrite insert_take_drop by (by eapply lookup_lt_Some). rewrite fmap_app, fmap_cons, concat_app. cbn. apply Permutation_app_swap_app.
  - intros u th' n Hne Hu Hn. rewrite <- concat_app, <- fmap_app. apply list_elem_of_In, in_concat. exists (st_own th'). rewrite <- !list_elem_of_In. split; [|done].
    apply list_elem_of_fmap_2, elem_of_app. destruct (decide (u < t)%nat).
    + left. apply (list_elem_of_lookup_2 _ u). by rewrite lookup_take_lt.
    + right. apply (list_elem_of_lookup_2 _ (u - S t)). rewrite lookup_drop. rewrite <- Hu. f_equal. lia.
Qed.

(** The next words that matter to the links are those of the nodes on the stack. *)
Lemma linked_insert m p l n q : n ∉ l -> linked m p l -> linked (<[n := q]> m) p l.
Proof.
  revert p. induction l as [|x l IH]; intros p Hn; [done|]. apply not_elem_of_cons in Hn as [Hx Hl]. cbn. intros [-> (y & Hy & Hlk)].
  split; [done|]. exists y. rewrite lookup_insert_ne by done. auto.
Qed.

Lemma stack_nodes s l : stack_ok nodes s l -> NoDup (l ++ owned_nodes s) /\ Forall is_node (l ++ owned_nodes s).
Proof. intros H. rewrite (so_perm _ _ _ H). done. Qed.

Lemma node_owned s l t th n : stack_ok nodes s l -> ts_threads s !! t = Some th -> n ∈ st_own th ->
  n ∉ l /\ is_node n /\ forall u th', u <> t -> ts_threads s !! u = Some th' -> n ∉ st_own th'.
Proof.
  intros H Ht Hn. destruct (stack_nodes s l H) as [Hnd Hall]. destruct (owned_split s t th Ht) as (rest & Hp & _ & Hoth).
  assert (n ∈ owned_nodes s) as Hin by (rewrite Hp; apply elem_of_app; by left). split_and!.
  - intros Hl. apply NoDup_app in Hnd as (_ & Hd & _). by apply (Hd n Hl).
  - rewrite Forall_forall in Hall. apply Hall, elem_of_app. by right.
  - intros u th' Hne Hu Hn'. apply NoDup_app in Hnd as (_ & _ & Ho). rewrite Hp in Ho. apply NoDup_app in Ho as (_ & Ho & _).
    apply (Ho n Hn). by eapply Hoth.
Qed.

(** A thread that only moves on. *)
Lemma go_ok s l t th pc : stack_ok nodes s l -> ts_threads s !! t = Some th -> thread_ok s {| st_pc := pc; st_own := st_own th |} ->
  stack_ok nodes (stack_go s t th pc) l.
Proof.
  intros H Ht Hok. destruct (owned_split s t th Ht) as (rest & Hp & Hp' & _). destruct H as [S1 S2 S3 S5 S6]. constructor; try done.
  - rewrite (Hp' (stack_go s t th pc) _ eq_refl). cbn [st_own]. by rewrite <- Hp.
  - cbn. apply Forall_insert; [|done]. eapply Forall_impl; [exact S6|]. done.
Qed.

(** Writing the first word of an owned node. *)
Lemma write_next_ok s l t th node v pc : stack_ok nodes s l -> ts_threads s !! t = Some th -> node ∈ st_own th ->
  thread_ok (write_next s t th node v pc) {| st_pc := pc; st_own := st_own th |} -> stack_ok nodes (write_next s t th node v pc) l.
Proof.
  intros H Ht Hn Hpc. destruct (owned_split s t th Ht) as (rest & Hp & Hp' & _).
  destruct (node_owned s l t th node H Ht Hn) as (Hnl & Hnode & Hoth). destruct H as [S1 S2 S3 S5 S6]. constructor; try done.
  - cbn. by apply linked_insert.
  - rewrite (Hp' (write_next s t th node v pc) _ eq_refl). cbn [st_own]. by rewrite <- Hp.
  - cbn [ts_threads write_next]. apply Forall_lookup_2. intros u th' Hu. apply list_lookup_insert_Some in Hu as [(<- & <- & _)|[Hne Hu]]; [done|].
    pose proof (Forall_lookup_1 _ _ _ _ S6 Hu) as Hok. unfold thread_ok in Hok |- *. destruct (st_pc th') as [| | |n' c'| |c'|c' q']; try done.
    + destruct Hok as (Hn' & Hl' & Hnx). split; [done|]. split; [done|]. cbn. rewrite lookup_insert_ne; [done|]. intros ->. by apply (Hoth u th').
    + destruct Hok as (Hl' & Hnz & Hnx). split; [done|]. split; [done|]. cbn. intros E. rewrite lookup_insert_ne; [by apply Hnx|].
      intros E'. apply Hnl. destruct l as [|x l]; [exfalso; subst c'; by apply Hnz|]. destruct S2 as [S2 _]. rewrite E', <- S2. left.
Qed.

Lemma loaded_advance s s' current : loaded_ok s current -> head_tag s < head_tag s' -> loaded_ok s' current /\ current <> ts_head s'.
Proof. intros [H1 H2] Hlt. unfold loaded_ok, head_tag in *. split; [lia|]. intros ->. lia. Qed.

(** A successful exchange, seen by the other threads. *)
Lemma commit_ok s l l' t th head own e : stack_ok nodes s l -> ts_threads s !! t = Some th -> 
  let s' := stack_commit s t head own e in
  stack_spec l e = Some l' -> e <> EPopNull -> head_tag s' = head_tag s + 1 ->
  linked (ts_next s) (head_ptr s') l' -> l' ++ own ≡ₚ l ++ st_own th -> stack_ok nodes s' l'.
Proof.
  intros H Ht s' Hspec Hne Htag Hlk Hperm. destruct (owned_split s t th Ht) as (rest & Hp & Hp' & _). destruct H as [S1 S2 S3 S5 S6].
  constructor; try done.
  - cbn. by rewrite (replay_snoc _ _ _ S1).
  - rewrite Htag, S3. cbn. unfold exchanges. rewrite zsum_app. cbn. destruct e; [lia|lia|done].
  - rewrite (Hp' s' _ eq_refl). cbn [st_own]. rewrite app_assoc, Hperm, <- app_assoc, <- Hp. done.
  - cbn. apply Forall_insert; [|done]. eapply Forall_impl; [exact S6|]. intros x Hx. unfold thread_ok in *.
    assert (forall c, loaded_ok s c -> loaded_ok s' c /\ c <> ts_head s') as Hadv by (intros c Hc; apply (loaded_advance s); [done|lia]).
    destruct (st_pc x) as [| | | | |c|c q]; try done.
    + destruct Hx as [? Hc]. split; [done|by apply Hadv].
    + destruct Hx as (? & Hc & ?). split; [done|]. split; [by apply Hadv|done].
    + destruct Hx as [Hc ?]. split; [by apply Hadv|done].
    + destruct Hx as (Hc & ? & _). split; [by apply Hadv|]. split; [done|]. intros E. by destruct (Hadv c Hc).
Qed.

Lemma pop_null_ok s l t th : stack_ok nodes s l -> ts_threads s !! t = Some th -> head_ptr s = 0 ->
  stack_ok nodes (stack_commit s t (ts_head s) (st_own th) EPopNull) l.
Proof.
  intros H Ht Hz. assert (l = []) as ->.
  { destruct l as [|x l]; [done|]. destruct (stack_nodes _ _ H) as [_ Hall]. apply Forall_cons in Hall as [Hx _].
    destruct (so_linked _ _ _ H) as [Hp _]. unfold is_node in Hx. lia. }
  destruct (owned_split s t th Ht) as (rest & Hp & Hp' & _). destruct H as [S1 S2 S3 S5 S6]. constructor; try done.
  - cbn. by rewrite (replay_snoc _ _ _ S1).
  - cbn. unfold exchanges. rewrite zsum_app. cbn. fold (exchanges (ts_log s)). change (head_tag s = exchanges (ts_log s) + 0). lia.
  - rewrite (Hp' (stack_commit s t (ts_head s) (st_own th) EPopNull) _ eq_refl). cbn [st_own]. by rewrite <- Hp.
  - cbn. apply Forall_insert; [|done]. eapply Forall_impl; [exact S6|]. done.
Qed.

Lemma push_cas_ok s l t th node current : stack_ok nodes s l -> ts_threads s !! t = Some th -> st_pc th = SPushCas node current ->
  ts_head s = current -> exchanges (ts_log s) + 1 < 2 ^ 64 ->
  stack_ok nodes (stack_commit s t (pack node (wrap64 (snd (unpack current) + 1))) (remove_one node (st_own th)) (EPush node)) (node :: l).
Proof.
  intros H Ht Epc Hc Hx. subst current. fold (head_tag s). pose proof (Forall_lookup_1 _ _ _ _ (so_threads _ _ _ H) Ht) as Hth.
  unfold thread_ok in Hth. rewrite Epc in Hth. destruct Hth as (Hn & _ & Hnx). destruct (node_owned s l t th node H Ht Hn) as (Hnl & Hnode & _).
  pose proof (so_tag _ _ _ H) as Htag. assert (0 <= head_tag s) by (rewrite Htag; apply zsum_nonneg; intros []; lia).
  rewrite wrap64_small by (unfold is_u64; lia). unfold is_node in Hnode.
  assert (unpack (pack node (head_tag s + 1)) = (node, head_tag s + 1)) as Hu by (apply unpack_pack; lia).
  apply (commit_ok s l _ t th); try done.
  - unfold head_tag at 1. cbn [ts_head stack_commit]. by rewrite Hu.
  - unfold head_ptr at 1. cbn [ts_head stack_commit]. rewrite Hu. split; [done|]. exists (head_ptr s). split; [done|apply (so_linked _ _ _ H)].
  - cbn. rewrite Permutation_middle. f_equiv. symmetry. apply remove_one_perm; [|done]. destruct (stack_nodes s l H) as [Hnd _].
    apply NoDup_app in Hnd as (_ & _ & Hnd). destruct (owned_split s t th Ht) as (rest & Hp & _). rewrite Hp in Hnd. by apply NoDup_app in Hnd as (Hnd & _).
Qed.

Lemma pop_cas_ok s l t th current next_ptr : stack_ok nodes s l -> ts_threads s !! t = Some th -> st_pc th = SPopCas current next_ptr ->
  ts_head s = current -> exchanges (ts_log s) + 1 < 2 ^ 64 ->
  exists l', stack_ok nodes (stack_commit s t (pack next_ptr (wrap64 (head_tag s + 1))) (head_ptr s :: st_own th) (EPop (head_ptr s))) l'.
Proof.
  intros H Ht Epc Hc Hx. subst current. pose proof (Forall_lookup_1 _ _ _ _ (so_threads _ _ _ H) Ht) as Hth.
  unfold thread_ok in Hth. rewrite Epc in Hth. destruct Hth as (_ & Hnz & Hnx). specialize (Hnx eq_refl).
  pose proof (so_tag _ _ _ H) as Htag. assert (0 <= head_tag s) by (rewrite Htag; apply zsum_nonneg; intros []; lia).
  pose proof (so_linked _ _ _ H) as Hlk. destruct l as [|x l]; [done|]. destruct Hlk as [Hp (q & Hq & Hlk)]. rewrite <- Hp, Hnx in Hq.
  injection Hq as <-. assert (0 <= next_ptr < 2 ^ 64) as Hr.
  { destruct l as [|y l]; cbn in Hlk; [lia|]. destruct Hlk as [-> _]. destruct (stack_nodes _ _ H) as [_ Hall].
    apply Forall_cons in Hall as [_ Hall]. apply Forall_cons in Hall as [Hy _]. unfold is_node in Hy. lia. }
  assert (unpack (pack next_ptr (head_tag s + 1)) = (next_ptr, head_tag s + 1)) as Hu by (apply unpack_pack; lia).
  rewrite wrap64_small by (unfold is_u64; lia). exists l. apply (commit_ok s (x :: l) _ t th); try done.
  - unfold stack_spec. by rewrite Hp, Z.eqb_refl.
  - unfold head_tag at 1. cbn [ts_head stack_commit]. by rewrite Hu.
  - unfold head_ptr at 1. cbn [ts_head stack_commit]. by rewrite Hu.
  - rewrite Hp. cbn. symmetry. apply Permutation_middle.
Qed.

Lemma exchanges_mono s s' : stack_step s s' -> exchanges (ts_log s) <= exchanges (ts_log s').
Proof.
  assert (forall s t h o e, exchanges (ts_log s) <= exchanges (ts_log (stack_commit s t h o e))) as Hc.
  { intros s0 t h o e. cbn. unfold exchanges. rewrite zsum_app. cbn. destruct e; lia. }
  intros Hs. destruct Hs as [call t th s Ht|]; [|apply Z.le_refl]. unfold stack_act.
  destruct (st_pc th) as [| | |n c| |c|c q]; [| | | | | |destruct (unpack c)]; repeat case_match; first [apply Hc|apply Z.le_refl].
Qed.

Lemma stack_act_ok call s l t th : stack_ok nodes s l -> ts_threads s !! t = Some th ->
  exchanges (ts_log (stack_act call t th s)) < 2 ^ 64 -> exists l', stack_ok nodes (stack_act call t th s) l'.
Proof.
  intros H Ht Hx. pose proof (Forall_lookup_1 _ _ _ _ (so_threads _ _ _ H) Ht) as Hth.
  assert (forall h o e, exchanges (ts_log (stack_commit s t h o e)) = exchanges (ts_log s) + match e with EPopNull => 0 | _ => 1 end) as Hcm.
  { intros h o e. cbn. unfold exchanges. rewrite zsum_app. cbn. lia. }
  unfold stack_act, thread_ok in *. destruct (st_pc th) as [|node|node c|node c| |c|c q] eqn:Epc.
  - destruct call as [node|]; [destruct (decide _)|]; exists l; [|done|]; by apply go_ok.
  - exists l. apply go_ok; [done..|]. split; [done|]. by split.
  - exists l. destruct Hth as [Hn Hl]. apply write_next_ok; [done..|]. split; [done|]. split; [done|]. cbn. apply lookup_insert_eq.
  - destruct (Z.eqb_spec (ts_head s) c) as [E|_]; [|exists l; by apply go_ok; [..|destruct Hth]].
    exists (node :: l). rewrite Hcm in Hx. by apply push_cas_ok.
  - destruct (Z.eqb_spec (fst (unpack (ts_head s))) 0); exists l; [by apply pop_null_ok|]. apply go_ok; [done..|]. by split.
  - exists l. destruct Hth as [Hl Hnz]. apply go_ok; [done..|]. split; [done|]. split; [done|]. intros ->.
    pose proof (so_linked _ _ _ H) as Hlk. destruct l as [|x l]; [done|]. destruct Hlk as [E (y & Hy & _)]. fold (head_ptr s). rewrite E, Hy. done.
  - destruct (unpack c) as [hd tag] eqn:Eu. destruct (Z.eqb_spec (ts_head s) c) as [E|_]; [|exists l; by apply go_ok].
    rewrite Hcm in Hx. destruct (pop_cas_ok s l t th c q H Ht Epc E Hx) as [l' Hl']. exists l'.
    unfold head_ptr, head_tag in Hl'. rewrite E, Eu in Hl'. exact Hl'.
Qed.

Lemma stack_step_ok s s' : stack_step s s' -> (exchanges (ts_log s) < 2 ^ 64 -> exists l, stack_ok nodes s l) ->
  exchanges (ts_log s') < 2 ^ 64 -> exists l, stack_ok nodes s' l.
Proof.
  intros Hs IH Hx. pose proof (exchanges_mono _ _ Hs). destruct IH as [l H']; [lia|]. destruct Hs as [call t th s Ht|t th node v s Ht Hn Hpc].
  - by eapply stack_act_ok.
  - exists l. by apply write_next_ok.
Qed.

End Stack.

Lemma stack_init_ok owns : stack_ok (concat owns) (stack_init owns) [].
Proof.
  constructor; try done.
  - cbn. unfold owned_nodes. cbn. rewrite <- list_fmap_compose. replace (_ <$> owns) with owns; [done|]. symmetry. apply list_fmap_id.
  - apply Forall_fmap. by apply Forall_true.
Qed.

(** C23: tagged_stack.rs refines a list: whatever the interleaving of the threads and
    whatever they write to the nodes they own, the pushes, pops and empty pops, in the
    order in which they took effect, are those of a sequential stack; the head leads to
    exactly its nodes; and every node is either on it or owned by exactly one thread,
    none lost and none handed out twice.  The bound is on the 64-bit tag. *)
Theorem tagged_stack_refines owns s : NoDup (concat owns) -> Forall is_node (concat owns) ->
  rtc stack_step (stack_init owns) s -> exchanges (ts_log s) < 2 ^ 64 ->
  exists l, replay (ts_log s) = Some l /\ linked (ts_next s) (head_ptr s) l /\ l ++ owned_nodes s ≡ₚ concat owns /\ NoDup (l ++ owned_nodes s).
Proof.
  intros Hnd Hall Hr Hx. assert (exists l, stack_ok (concat owns) s l) as [l H].
  { revert Hx. apply (rtc_invariant stack_step (fun s => exchanges (ts_log s) < 2 ^ 64 -> exists l, stack_ok (concat owns) s l) (stack_init owns)); [| |done].
    - intros _. exists []. apply stack_init_ok.
    - intros s1 s2 IH Hs. by apply (stack_step_ok (concat owns) Hnd Hall s1). }
  exists l. split_and!; [apply H|apply H|apply H|]. by apply (stack_nodes (concat owns) Hnd Hall).
Qed.

(** A schedule: which thread makes the next access, and the call an idle one starts. *)
Definition stack_run (s : stack_sys) (sched : list (nat * option Z)) : stack_sys :=
  foldl (fun s '(t, call) => match ts_threads s !! t with Some th => stack_act call t th s | None => s end) s sched.

Lemma stack_run_steps s sched : rtc stack_step s (stack_run s sched).
Proof.
  revert s. induction sched as [|[t call] sched IH]; intros s; [done|]. cbn. destruct (ts_threads s !! t) as [th|] eqn:Ht; [|apply IH].
  eapply rtc_l; [by apply (stack_thread_step call t th)|apply IH].
Qed.

Definition push_run (t : nat) (n : Z) : list (nat * option Z) := [(t, Some n); (t, None); (t, None); (t, None)].
Definition pop_run (t : nat) : list (nat * option Z) := [(t, None); (t, None); (t, None); (t, None)].

(** Thread 1 loads the head 32 and its next word 16; thread 0 pops both nodes and pushes
    32 back; the exchange of thread 1 fails on the tag, and it pops 32 in its second round. *)
Definition aba_run : list (nat * option Z) :=
  push_run 0 16 ++ push_run 0 32 ++ take 3 (pop_run 1) ++ pop_run 0 ++ pop_run 0 ++ push_run 0 32 ++ [(1%nat, None)] ++ drop 1 (pop_run 1).

Lemma tagged_stack_refines_witness :
  exists l, replay [EPush 16; EPush 32; EPop 32; EPop 16; EPush 32; EPop 32] = Some l /\ l ++ [16; 32] ≡ₚ [16; 32].
Proof.
  destruct (tagged_stack_refines [[16; 32]; []] (stack_run (stack_init [[16; 32]; []]) aba_run)) as (l & Hr & _ & Hp & _).
  - apply (bool_decide_unpack _). vm_compute. exact I.
  - repeat constructor.
  - apply stack_run_steps.
  - vm_compute. reflexivity.
  - exists l. split; [exact Hr|exact Hp].
Defined.
