(* ===== verification/Slab.v ===== *)
(** * The slab

    [PerCpuSlab] of crates/memory/src/slab.rs: objects of one size and alignment on a
    tagged stack.  [alloc] and [free] are its [pop] and [push]; [add_slab] cuts a backing
    range into objects.  The calls here are those of one CPU whose exchanges succeed at
    the first attempt; TaggedStack.v has their interleavings. *)

From Stdlib Require Import ZArith Lia.
From stdpp Require Import prelude gmap list.
From S2P Require Import Prelude TaggedStack.

Local Open Scope Z_scope.

(** The head and the next words. *)
Definition stack_mem : Type := Z * gmap Z Z.

Definition AtomicTaggedStack_new : stack_mem := (0, ∅).

Definition AtomicTaggedStack_push (m : stack_mem) (node : Z) : stack_mem :=
  let '(head, tag) := unpack (fst m) in
  (pack node (wrap64 (tag + 1)), <[node := head]> (snd m)).

Definition AtomicTaggedStack_pop (m : stack_mem) : Z * stack_mem :=
  let '(head, tag) := unpack (fst m) in
  if head =? 0 then (0, m)
  else (head, (pack (default 0 (snd m !! head)) (wrap64 (tag + 1)), snd m)).

(** The stack of a state of TaggedStack.v. *)
Definition mem_of (s : stack_sys) : stack_mem := (ts_head s, ts_next s).

Lemma stack_run_cons s t call th sched : ts_threads s !! t = Some th ->
  stack_run s ((t, call) :: sched) = stack_run (stack_act call t th s) sched.
Proof. intros Ht. cbn. by rewrite Ht. Qed.

Lemma push_run_uncontended s t th node : ts_threads s !! t = Some th -> st_pc th = SIdle -> node ∈ st_own th ->
  mem_of (stack_run s (push_run t node)) = AtomicTaggedStack_push (mem_of s) node.
Proof.
  intros Ht Hpc Hn. pose proof (lookup_lt_Some _ _ _ Ht) as Hlt. unfold push_run. rewrite (stack_run_cons _ _ _ th) by done.
  unfold stack_act. rewrite Hpc, decide_True by done.
  do 3 (erewrite stack_run_cons; [|cbn [ts_threads stack_go stack_set write_next]; apply list_lookup_insert_eq; by rewrite ?length_insert];
        unfold stack_act; cbn [st_pc st_own ts_head stack_go stack_set write_next]).
  rewrite Z.eqb_refl. unfold mem_of, AtomicTaggedStack_push. cbn. by destruct (unpack (ts_head s)).
Qed.

Lemma pop_run_uncontended s t th : ts_threads s !! t = Some th -> st_pc th = SIdle -> head_ptr s <> 0 ->
  AtomicTaggedStack_pop (mem_of s) = (head_ptr s, mem_of (stack_run s (pop_run t))).
Proof.
  intros Ht Hpc Hnz. pose proof (lookup_lt_Some _ _ _ Ht) as Hlt. unfold pop_run. rewrite (stack_run_cons _ _ _ th) by done.
  unfold stack_act. rewrite Hpc. unfold head_ptr in *. rewrite <- Z.eqb_neq in Hnz.
  erewrite stack_run_cons; [|cbn; by apply list_lookup_insert_eq]. unfold stack_act. cbn [st_pc st_own ts_head stack_go stack_set]. rewrite Hnz.
  do 2 (erewrite stack_run_cons; [|cbn [ts_threads stack_go stack_set]; apply list_lookup_insert_eq; by rewrite ?length_insert];
        unfold stack_act; cbn [st_pc st_own ts_head stack_go stack_set]).
  unfold mem_of, AtomicTaggedStack_pop. cbn [fst snd]. destruct (unpack (ts_head s)) as [h tag]. cbn [fst] in *. rewrite Hnz, Z.eqb_refl. done.
Qed.

(** ** The slab *)

Section Slab.
Context (OBJECT_SIZE OBJECT_ALIGN : Z).

(** The assertions of [new]. *)
Definition PerCpuSlab_new : outcome stack_mem :=
  if (OBJECT_SIZE <? 8) || (OBJECT_ALIGN <? 8) || negb (is_power_of_two OBJECT_ALIGN) then Panic else Done AtomicTaggedStack_new.

Definition PerCpuSlab_alloc (m : stack_mem) : option Z * stack_mem :=
  let '(p, m') := AtomicTaggedStack_pop m in (if p =? 0 then None else Some p, m').

Definition PerCpuSlab_free (m : stack_mem) (object : Z) : stack_mem := AtomicTaggedStack_push m object.

Definition slab_align_up (value align : Z) : Z := Z.land (wrap64 (wrap64 (value + align) - 1)) (not64 (align - 1)).

Definition add_slab_step (end_ stride : Z) (s : stack_mem * Z * Z) : stack_mem * Z * Z + stack_mem * Z :=
  let '(m, cursor, count) := s in
  if wrap64 (cursor + stride) <=? end_ then inl (AtomicTaggedStack_push m cursor, wrap64 (cursor + stride), wrap64 (count + 1))
  else inr (m, count).

Definition PerCpuSlab_add_slab (m : stack_mem) (base bytes : Z) : (stack_mem * Z * Z) + (stack_mem * Z) :=
  let start := slab_align_up base OBJECT_ALIGN in
  let end_ := wrap64 (base + bytes) in
  let stride := slab_align_up OBJECT_SIZE OBJECT_ALIGN in
  iterate (add_slab_step end_ stride) 64 (m, start, 0).

Lemma slab_align_up_spec v k : 0 <= v -> 0 <= k < 64 -> v + 2 ^ k < 2 ^ 64 ->
  v <= slab_align_up v (2 ^ k) < v + 2 ^ k /\ slab_align_up v (2 ^ k) mod 2 ^ k = 0.
Proof.
  intros Hv Hk Hr. pose proof (Z.pow_pos_nonneg 2 k ltac:(lia) ltac:(lia)). unfold slab_align_up. rewrite (wrap64_small (v + _)) by (unfold is_u64; lia).
  rewrite wrap64_small by (unfold is_u64; lia). replace (2 ^ k - 1) with (Z.ones k) by (rewrite Z.ones_equiv; lia).
  rewrite land_not_ones by (unfold is_u64; lia). pose proof (Z.mod_pos_bound (v + 2 ^ k - 1) (2 ^ k) ltac:(lia)). split; [lia|].
  rewrite Zminus_mod_idemp_r, Z.sub_diag. done.
Qed.

Lemma aligned_le p s a : 0 < p -> s mod p = 0 -> a mod p = 0 -> s < a + p -> s <= a.
Proof.
  intros Hp Hs Ha Hlt. apply Z.mod_divide in Hs as [x ->]; [|lia]. apply Z.mod_divide in Ha as [y ->]; [|lia].
  apply Z.mul_le_mono_nonneg_r; [lia|]. assert (x < y + 1); [|lia]. apply (Z.mul_lt_mono_pos_r p); lia.
Qed.

(** The free objects, the last one freed first. *)
Definition free_list (m : stack_mem) (l : list Z) : Prop := linked (snd m) (fst (unpack (fst m))) l.

Lemma push_free_list m l node : free_list m l -> is_node node -> node ∉ l -> free_list (AtomicTaggedStack_push m node) (node :: l).
Proof.
  intros Hl Hn Hnl. unfold free_list, AtomicTaggedStack_push in *. destruct (unpack (fst m)) as [h tag]. cbn [fst snd] in *. unfold is_node in Hn.
  rewrite unpack_pack by (lia || apply wrap64_range). cbn. split; [done|]. exists h. rewrite lookup_insert_eq. split; [done|]. by apply linked_insert.
Qed.

Lemma is_power_of_two_pow z : is_power_of_two z = true -> exists k, 0 <= k /\ z = 2 ^ k.
Proof.
  unfold is_power_of_two. intros H. apply andb_true_iff in H as [H1 H2]. apply Z.ltb_lt in H1. apply Z.eqb_eq in H2. exists (Z.log2 z).
  pose proof (Z.log2_nonneg z) as Hk. split; [done|]. destruct (Z.log2_spec z H1) as [Hlo Hhi]. destruct (decide (z = 2 ^ Z.log2 z)) as [|Hne]; [done|].
  exfalso. assert (Z.log2 (z - 1) = Z.log2 z) as E by (apply Z.log2_unique; lia).
  assert (Z.testbit (Z.land z (z - 1)) (Z.log2 z) = true) as Hb; [|by rewrite H2, Z.bits_0 in Hb].
  rewrite Z.land_spec, Z.bit_log2, <- E, Z.bit_log2 by lia. done.
Qed.

Lemma PerCpuSlab_new_Done m : PerCpuSlab_new = Done m -> 8 <= OBJECT_SIZE /\ exists k, 0 <= k /\ OBJECT_ALIGN = 2 ^ k.
Proof.
  unfold PerCpuSlab_new. destruct (Z.ltb_spec OBJECT_SIZE 8); [done|]. destruct (OBJECT_ALIGN <? 8); [done|].
  destruct (is_power_of_two OBJECT_ALIGN) eqn:E; [|done]. intros _. split; [done|]. by apply is_power_of_two_pow.
Qed.

Definition objects (start stride count : Z) : list Z := (fun i => start + i * stride) <$> seqZ 0 count.

Lemma elem_of_objects start stride count o : o ∈ objects start stride count <-> exists i, 0 <= i < count /\ o = start + i * stride.
Proof. unfold objects. rewrite list_elem_of_fmap. setoid_rewrite elem_of_seqZ. naive_solver. Qed.

Lemma objects_S start stride count : 0 <= count -> objects start stride (count + 1) = objects start stride count ++ [start + count * stride].
Proof. intros Hc. unfold objects. rewrite seqZ_app by lia. rewrite fmap_app. done. Qed.

(** One object after the other, until no further one fits. *)
Lemma add_slab_loop m l start stride end_ : free_list m l -> 0 < start -> 0 < stride -> Z.max start end_ + stride < 2 ^ 64 ->
  (forall n, n ∈ l -> n < start \/ end_ <= n) ->
  exists r, iterate (add_slab_step end_ stride) 64 (m, start, 0) = inr r /\
    free_list (fst r) (reverse (objects start stride (snd r)) ++ l) /\ 0 <= snd r /\
    (snd r = 0 \/ start + snd r * stride <= end_) /\ end_ < start + (snd r + 1) * stride.
Proof.
  intros Hl Hs Hst Hr Hdis.
  set (I := fun s : stack_mem * Z * Z => let '(m, c, n) := s in
    free_list m (reverse (objects start stride n) ++ l) /\ 0 <= n /\ c = start + n * stride /\ (n = 0 \/ c <= end_)).
  apply (iterate_total _ I _ (fun s => end_ - snd (fst s))).
  - intros [[m' c] n] (Hf & Hn & -> & Hc). unfold add_slab_step. rewrite (wrap64_small (_ + stride)) by (unfold is_u64; nia).
    destruct (Z.leb_spec (start + n * stride + stride) end_); cbn [fst snd]; [|split_and!; [done|lia|nia|nia]].
    assert (n < 2 ^ 64 - 1) by nia. rewrite wrap64_small by (unfold is_u64; lia). split; [|lia]. unfold I.
    rewrite objects_S, reverse_snoc by done. split_and!; [|lia|lia|lia]. apply push_free_list; [done|unfold is_node; nia|].
    rewrite elem_of_app, elem_of_reverse, elem_of_objects. intros [(i & Hi & E)|Hin]; [nia|]. specialize (Hdis _ Hin). nia.
  - unfold I. split_and!; [done|lia|lia|lia].
  - cbn. lia.
Qed.

End Slab.

(** C36: [add_slab] terminates and frees, on top of the objects already free, objects that are
    aligned, inside the backing range, one [OBJECT_SIZE] apart at least, so that no two
    overlap.  The range is cut into slots of [OBJECT_SIZE] rounded up to the alignment: every
    aligned address of the range with room for a whole slot lies in the slot of one of
    them (a rest that holds an object but not a slot is not used).  The range starts
    above 0, ends at least an object and two alignments below 2^64 and holds none of the
    objects already free. *)
Theorem add_slab_bounds OBJECT_SIZE OBJECT_ALIGN m0 m l base bytes :
  PerCpuSlab_new OBJECT_SIZE OBJECT_ALIGN = Done m0 -> 0 < base -> 0 <= bytes -> base + bytes + OBJECT_SIZE + 2 * OBJECT_ALIGN < 2 ^ 64 ->
  free_list m l -> (forall n, n ∈ l -> n < base \/ base + bytes <= n) ->
  exists m' objs, PerCpuSlab_add_slab OBJECT_SIZE OBJECT_ALIGN m base bytes = inr (m', Z.of_nat (length objs)) /\
    free_list m' (reverse objs ++ l) /\
    Forall (fun o => o mod OBJECT_ALIGN = 0 /\ base <= o /\ o + OBJECT_SIZE <= base + bytes) objs /\
    (forall i j o o', (i < j)%nat -> objs !! i = Some o -> objs !! j = Some o' -> o + OBJECT_SIZE <= o') /\
    (forall a, a mod OBJECT_ALIGN = 0 -> base <= a -> a + slab_align_up OBJECT_SIZE OBJECT_ALIGN <= base + bytes ->
       exists o, o ∈ objs /\ o <= a < o + slab_align_up OBJECT_SIZE OBJECT_ALIGN).
Proof.
  intros Hnew Hb Hby Hr Hl Hdis. destruct (PerCpuSlab_new_Done _ _ _ Hnew) as (Hsz & k & Hk & ->).
  pose proof (Z.pow_pos_nonneg 2 k ltac:(lia) ltac:(lia)). assert (k < 64) by (apply (Z.pow_lt_mono_r_iff 2); lia).
  destruct (slab_align_up_spec base k) as [Hst1 Hst2]; [lia..|]. destruct (slab_align_up_spec OBJECT_SIZE k) as [Hsd1 Hsd2]; [lia..|].
  unfold PerCpuSlab_add_slab. rewrite (wrap64_small (base + bytes)) by (unfold is_u64; lia).
  set (start := slab_align_up base (2 ^ k)) in *. set (stride := slab_align_up OBJECT_SIZE (2 ^ k)) in *. clearbody start stride.
  destruct (add_slab_loop m l start stride (base + bytes)) as ([m' count] & E & Hf & Hc & Hin & Hmax); [done|lia|lia|lia| |].
  { intros n Hn. specialize (Hdis n Hn). lia. }
  cbn [fst snd] in *. exists m', (objects start stride count). unfold objects at 1. rewrite length_fmap, length_seqZ, Z2Nat.id by done.
  split_and!; [done|done| | |].
  - apply Forall_forall. intros o (i & Hi & ->)%elem_of_objects. split_and!; [|nia|nia].
    rewrite <- Zplus_mod_idemp_l, Hst2, Z.add_0_l, <- Zmult_mod_idemp_r, Hsd2, Z.mul_0_r. done.
  - intros i j o o' Hij Hi Hj. unfold objects in *. apply list_lookup_fmap_Some in Hi as (x & -> & Hi). apply list_lookup_fmap_Some in Hj as (y & -> & Hj).
    apply lookup_seqZ in Hi as [-> _]. apply lookup_seqZ in Hj as [-> _]. nia.
  - intros a Ha Hba Hfit. assert (start <= a) as Hsa by (apply (aligned_le (2 ^ k)); lia).
    exists (start + (a - start) / stride * stride). pose proof (Z.div_mod (a - start) stride ltac:(lia)) as H1.
    pose proof (Z.mod_pos_bound (a - start) stride ltac:(lia)). split; [|lia]. apply elem_of_objects. exists ((a - start) / stride). split; [|done].
    split; [apply Z.div_pos; lia|]. apply Z.div_lt_upper_bound; [lia|]. nia.
Qed.

(** Objects of 24 bytes aligned to 16 in the 100 bytes at 0x1003: 0x1010, 0x1030. *)
Lemma add_slab_bounds_witness : exists m' objs,
  PerCpuSlab_add_slab 24 16 AtomicTaggedStack_new 0x1003 100 = inr (m', Z.of_nat (length objs)) /\ free_list m' (reverse objs ++ []).
Proof.
  destruct (add_slab_bounds 24 16 AtomicTaggedStack_new AtomicTaggedStack_new [] 0x1003 100) as (m' & objs & H1 & H2 & _).
  - reflexivity.
  - lia.
  - lia.
  - lia.
  - reflexivity.
  - intros n Hn. by apply elem_of_nil in Hn.
  - exists m', objs. split; [exact H1|exact H2].
Defined.

(** The round trip of one object: what [free] gives back is what [alloc] returns next,
    with the rest of the free list as it was. *)
Lemma free_alloc_roundtrip m l object : free_list m l -> is_node object -> object ∉ l ->
  exists m', PerCpuSlab_alloc (PerCpuSlab_free m object) = (Some object, m') /\ free_list m' l.
Proof.
  intros Hl Hn Hnl. pose proof (push_free_list m l object Hl Hn Hnl) as Hp. unfold PerCpuSlab_alloc, PerCpuSlab_free, AtomicTaggedStack_pop.
  unfold free_list in Hp |- *. destruct (unpack (fst (AtomicTaggedStack_push m object))) as [h tag]. cbn [fst] in Hp. destruct Hp as [-> (q & Hq & Hlk)].
  unfold is_node in Hn. rewrite (proj2 (Z.eqb_neq object 0)) by lia. rewrite Hq, (proj2 (Z.eqb_neq object 0)) by lia.
  eexists. split; [done|]. cbn [fst snd]. assert (0 <= q < 2 ^ 64) as Hq64.
  { unfold AtomicTaggedStack_push in Hq. destruct (unpack (fst m)) as [h' tag'] eqn:Eu. cbn in Hq. rewrite lookup_insert_eq in Hq. injection Hq as <-.
    unfold unpack in Eu. injection Eu as <- _. apply Z.mod_pos_bound. lia. }
  rewrite unpack_pack by (done || apply wrap64_range). done.
Qed.
