(* ===== verification/Locks.v ===== *)
(** * Locks

    [SpinLock] and [SeqLock] of crates/sync/src: the test-and-set lock with a waiting
    loop, and the sequence lock over it, as the atomic accesses of interleaved threads.
    The value of a sequence lock is read and written word by word, so a reader can see
    half of a write; the two loads of the sequence are what makes it notice.  A
    writer's closure is any series of stores to the words. *)

From Stdlib Require Import ZArith Lia.
From stdpp Require Import prelude list relations.
From S2P Require Import Prelude.

Local Open Scope Z_scope.

(** ** Backoff *)

Record Backoff := { bo_step : Z; bo_max_step : Z }.

Definition Backoff_new : Backoff := {| bo_step := 1; bo_max_step := 64 |}.
Definition Backoff_with_max (max_step : Z) : Backoff := {| bo_step := 1; bo_max_step := max_step |}.

(** [snooze]: the pauses it makes, and the next step. *)
Definition Backoff_snooze (b : Backoff) : Z * Backoff :=
  (bo_step b, {| bo_step := Z.max (Z.min (wrap32 (Z.shiftl (bo_step b) 1)) (bo_max_step b)) 1; bo_max_step := bo_max_step b |}).

Definition Backoff_reset (b : Backoff) : Backoff := {| bo_step := 1; bo_max_step := bo_max_step b |}.

Fixpoint snoozes (n : nat) (b : Backoff) : list Z :=
  match n with O => [] | S n' => let '(p, b') := Backoff_snooze b in p :: snoozes n' b' end.

(** The waits double up to the limit, and stay there. *)
Lemma snoozes_bounded n b : 1 <= bo_step b -> bo_step b <= Z.max (bo_max_step b) 1 -> bo_max_step b < 2 ^ 31 ->
  Forall (fun p => 1 <= p <= Z.max (bo_max_step b) 1) (snoozes n b).
Proof.
  revert b. induction n as [|n IH]; intros b H1 H2 H3; [constructor|]. cbn. constructor; [lia|].
  specialize (IH (snd (Backoff_snooze b))). cbn in IH. apply IH; lia.
Qed.

(** ** The spin lock *)

(** In the loop of [lock]: about to exchange, watching the flag, holding the guard. *)
Inductive spin_pc := SpTry | SpWatch | SpHeld.

Definition SpinLock_try_lock (locked : bool) : bool * bool := (negb locked, true).

Definition spin_step (locked : bool) (pc : spin_pc) : bool * spin_pc :=
  match pc with
  | SpTry => let '(ok, l) := SpinLock_try_lock locked in (l, if (ok : bool) then SpHeld else SpWatch)
  | SpWatch => (locked, if locked then SpWatch else SpTry)
  | SpHeld => (locked, SpHeld)
  end.

Definition SpinLock_unlock (locked : bool) : bool := false.

(** ** The sequence lock *)

Inductive seq_pc :=
| QIdle
| RBefore
| RCopy (before : Z) (start : nat) (words : list Z)
| WLock (pc : spin_pc)
| WBump
| WStore
| WUnlock.

(** [sq_published]: the values between writes, [sq_reads]: the reads that returned, with
    the values published before they began and before they returned. *)
Record seq_state := {
  sq_sequence : Z;
  sq_locked : bool;
  sq_value : list Z;
  sq_threads : list seq_pc;
  sq_published : list (list Z);
  sq_reads : list (nat * nat * list Z)
}.

Definition SeqLock_new (v : list Z) (threads : nat) : seq_state :=
  {| sq_sequence := 0; sq_locked := false; sq_value := v; sq_threads := replicate threads QIdle; sq_published := [v]; sq_reads := [] |}.

Definition sq_set (s : seq_state) (t : nat) (pc : seq_pc) : seq_state :=
  {| sq_sequence := sq_sequence s; sq_locked := sq_locked s; sq_value := sq_value s; sq_threads := <[t := pc]> (sq_threads s);
     sq_published := sq_published s; sq_reads := sq_reads s |}.

(** One access of [read]: the first load of the sequence, the next word, or the second
    load. *)
Definition seq_read_step (t : nat) (pc : seq_pc) (s : seq_state) : seq_state :=
  match pc with
  | RBefore =>
      let before := sq_sequence s in
      if negb (Z.land before 1 =? 0) then s else sq_set s t (RCopy before (length (sq_published s)) [])
  | RCopy before start words =>
      match sq_value s !! length words with
      | Some w => sq_set s t (RCopy before start (words ++ [w]))
      | None =>
          if before =? sq_sequence s then
            {| sq_sequence := sq_sequence s; sq_locked := sq_locked s; sq_value := sq_value s; sq_threads := <[t := QIdle]> (sq_threads s);
               sq_published := sq_published s; sq_reads := sq_reads s ++ [(start, length (sq_published s), words)] |}
          else sq_set s t RBefore
      end
  | _ => s
  end.

(** One access of [write]: the lock, the first increment, a store of the closure or its
    end with the second increment, and the release of the guard. *)
Definition seq_write_step (store : option (nat * Z)) (t : nat) (pc : seq_pc) (s : seq_state) : seq_state :=
  match pc with
  | WLock l =>
      let '(locked, l') := spin_step (sq_locked s) l in
      {| sq_sequence := sq_sequence s; sq_locked := locked; sq_value := sq_value s;
         sq_threads := <[t := match l' with SpHeld => WBump | _ => WLock l' end]> (sq_threads s);
         sq_published := sq_published s; sq_reads := sq_reads s |}
  | WBump =>
      {| sq_sequence := wrap64 (sq_sequence s + 1); sq_locked := sq_locked s; sq_value := sq_value s;
         sq_threads := <[t := WStore]> (sq_threads s); sq_published := sq_published s; sq_reads := sq_reads s |}
  | WStore =>
      match store with
      | Some (i, x) =>
          {| sq_sequence := sq_sequence s; sq_locked := sq_locked s; sq_value := <[i := x]> (sq_value s);
             sq_threads := sq_threads s; sq_published := sq_published s; sq_reads := sq_reads s |}
      | None =>
          {| sq_sequence := wrap64 (sq_sequence s + 1); sq_locked := sq_locked s; sq_value := sq_value s;
             sq_threads := <[t := WUnlock]> (sq_threads s); sq_published := sq_published s ++ [sq_value s]; sq_reads := sq_reads s |}
      end
  | WUnlock =>
      {| sq_sequence := sq_sequence s; sq_locked := SpinLock_unlock (sq_locked s); sq_value := sq_value s;
         sq_threads := <[t := QIdle]> (sq_threads s); sq_published := sq_published s; sq_reads := sq_reads s |}
  | _ => s
  end.

Inductive seq_step : seq_state -> seq_state -> Prop :=
| seq_call_read t s : sq_threads s !! t = Some QIdle -> seq_step s (sq_set s t RBefore)
| seq_call_write t s : sq_threads s !! t = Some QIdle -> seq_step s (sq_set s t (WLock SpTry))
| seq_read t pc s : sq_threads s !! t = Some pc -> seq_step s (seq_read_step t pc s)
| seq_write store t pc s : sq_threads s !! t = Some pc -> seq_step s (seq_write_step store t pc s).

(** ** The invariant *)

Definition holds (pc : seq_pc) : Z := match pc with WBump | WStore | WUnlock => 1 | _ => 0 end.
Definition writes (pc : seq_pc) : Z := match pc with WStore => 1 | _ => 0 end.

Definition holders (s : seq_state) : Z := zsum holds (sq_threads s).
Definition writers (s : seq_state) : Z := zsum writes (sq_threads s).

(** A reader's words are the current ones as long as the sequence stands. *)
Definition reader_ok (s : seq_state) (pc : seq_pc) : Prop :=
  match pc with
  | RCopy before start words =>
      before mod 2 = 0 /\ 0 <= before <= sq_sequence s /\ 2 * (Z.of_nat start - 1) = before /\
      (before = sq_sequence s -> words = take (length words) (sq_value s) /\ (length words <= length (sq_value s))%nat)
  | WLock SpHeld => False
  | _ => True
  end.

Record seq_ok (s : seq_state) : Prop := {
  qk_lock : holders s = if sq_locked s then 1 else 0;
  qk_sequence : sq_sequence s = 2 * (Z.of_nat (length (sq_published s)) - 1) + writers s;
  qk_value : writers s = 0 -> last (sq_published s) = Some (sq_value s);
  qk_published : sq_published s <> [];
  qk_readers : Forall (reader_ok s) (sq_threads s);
  qk_reads : Forall (fun '(i, j, v) => (1 <= i <= j)%nat /\ (j <= length (sq_published s))%nat /\
    exists m, (i - 1 <= m < j)%nat /\ sq_published s !! m = Some v) (sq_reads s)
}.

Lemma writers_holders s : 0 <= writers s <= holders s.
Proof.
  unfold writers, holders. split; [apply zsum_nonneg; by intros []|]. induction (sq_threads s) as [|pc l IH]; [done|]. cbn [zsum].
  destruct pc; cbn [writes holds]; lia.
Qed.

Lemma holders_insert s t pc pc' : sq_threads s !! t = Some pc -> zsum holds (<[t := pc']> (sq_threads s)) = holders s - holds pc + holds pc'.
Proof. intros Ht. unfold holders. by rewrite (zsum_insert _ _ _ pc). Qed.

Lemma writers_insert s t pc pc' : sq_threads s !! t = Some pc -> zsum writes (<[t := pc']> (sq_threads s)) = writers s - writes pc + writes pc'.
Proof. intros Ht. unfold writers. by rewrite (zsum_insert _ _ _ pc). Qed.

(** A thread that moves without touching the shared state, but perhaps the lock. *)
Lemma move_ok s t pc pc' locked : seq_ok s -> sq_threads s !! t = Some pc -> reader_ok s pc' -> writes pc = 0 -> writes pc' = 0 ->
  holders s - holds pc + holds pc' = (if locked : bool then 1 else 0) ->
  seq_ok {| sq_sequence := sq_sequence s; sq_locked := locked; sq_value := sq_value s; sq_threads := <[t := pc']> (sq_threads s);
            sq_published := sq_published s; sq_reads := sq_reads s |}.
Proof.
  intros [Q1 Q2 Q3 Q4 Q5 Q6] Ht Hr Hw Hw' Hl. assert (zsum writes (<[t := pc']> (sq_threads s)) = writers s) as Ew.
  { rewrite (writers_insert s t pc) by done. lia. }
  constructor; try done.
  - unfold holders. cbn. by rewrite (holders_insert s t pc).
  - unfold writers. cbn. by rewrite Ew.
  - unfold writers. cbn. rewrite Ew. exact Q3.
  - cbn. apply Forall_insert; done.
Qed.

(** The two increments of a writer: a reader's first load is older. *)
Lemma bump_reader_ok s s' pc : seq_ok s -> sq_sequence s' = sq_sequence s + 1 -> reader_ok s pc -> reader_ok s' pc.
Proof.
  intros _ E Hr. destruct pc as [| |b st ws|[]| | |]; try done. destruct Hr as (H1 & H2 & H3 & _). cbn. rewrite E.
  split; [done|]. split; [lia|]. split; [done|]. lia.
Qed.

Lemma seq_read_ok t pc s : seq_ok s -> sq_threads s !! t = Some pc -> seq_ok (seq_read_step t pc s).
Proof.
  intros H Ht. pose proof (Forall_lookup_1 _ _ _ _ (qk_readers _ H) Ht) as Hr. pose proof (qk_sequence _ H) as Hsq. pose proof (writers_holders s) as Hwh.
  pose proof (qk_lock _ H) as Hlk. assert (writers s <= 1) by (destruct (sq_locked s); lia).
  assert (0 < Z.of_nat (length (sq_published s))) by (pose proof (qk_published _ H); destruct (sq_published s); [done|cbn; lia]).
  unfold seq_read_step. destruct pc as [| |b st ws|[]| | |]; try done.
  - destruct (Z.eqb_spec (Z.land (sq_sequence s) 1) 0) as [E|]; [|done]. change 1 with (Z.ones 1) in E. rewrite Z.land_ones in E by lia. change (2 ^ 1) with 2 in E.
    apply (move_ok s t RBefore); try done; [|cbn; lia]. cbn.
    assert (writers s = 0) by (rewrite Hsq in E; Z.div_mod_to_equations; lia). split; [done|]. split; [lia|]. split; [lia|]. intros _. split; [done|lia].
  - destruct Hr as (R1 & R2 & R3 & R4). destruct (sq_value s !! length ws) as [w|] eqn:Hw.
    + apply (move_ok s t (RCopy b st ws)); try done; [|cbn; lia]. cbn. split; [done|]. split; [lia|]. split; [done|]. intros Eb. split.
      * rewrite length_app. cbn. rewrite Nat.add_1_r, (take_S_r _ _ w) by done. f_equal. by apply R4.
      * rewrite length_app. cbn. apply lookup_lt_Some in Hw. lia.
    + destruct (Z.eqb_spec b (sq_sequence s)) as [Eb|]; [|apply (move_ok s t (RCopy b st ws)); try done; cbn; lia].
      destruct (move_ok s t (RCopy b st ws) QIdle (sq_locked s) H Ht) as [Q1 Q2 Q3 Q4 Q5 Q6]; [done..|cbn; lia|]. constructor; try done.
      cbn. apply Forall_app. split; [done|]. apply Forall_singleton. destruct (R4 Eb) as [Ews Hle]. apply lookup_ge_None in Hw.
      assert (writers s = 0) as Hw0 by (rewrite Hsq in Eb; subst b; Z.div_mod_to_equations; lia). split_and!; [lia|lia|lia|].
      exists (length (sq_published s) - 1)%nat. split; [lia|]. pose proof (qk_value _ H Hw0) as Hl. rewrite last_lookup in Hl.
      replace (length (sq_published s) - 1)%nat with (Nat.pred (length (sq_published s))) by lia. rewrite Hl, Ews, take_ge by lia. done.
Qed.

Lemma published_pos s : seq_ok s -> 0 < Z.of_nat (length (sq_published s)).
Proof. intros H. pose proof (qk_published _ H). destruct (sq_published s); [done|cbn; lia]. Qed.

(** The thread between the increments is the only one. *)
Lemma storing s t : seq_ok s -> sq_threads s !! t = Some WStore -> writers s = 1 /\ holders s = 1 /\ sq_locked s = true.
Proof.
  intros H Ht. pose proof (writers_holders s). pose proof (qk_lock _ H). assert (1 <= writers s).
  { apply (zsum_elem writes _ WStore); [by intros []|by eapply list_elem_of_lookup_2]. }
  destruct (sq_locked s); lia.
Qed.

Lemma holding s t pc : seq_ok s -> sq_threads s !! t = Some pc -> holds pc = 1 -> holders s = 1 /\ sq_locked s = true.
Proof.
  intros H Ht Hp. pose proof (qk_lock _ H). assert (holds pc <= holders s) by (apply zsum_elem; [by intros []|by eapply list_elem_of_lookup_2]).
  destruct (sq_locked s); lia.
Qed.

Lemma bump_ok s t : seq_ok s -> sq_threads s !! t = Some WBump -> 2 * Z.of_nat (length (sq_published s)) < 2 ^ 64 ->
  seq_ok (seq_write_step None t WBump s).
Proof.
  intros H Ht Hb. pose proof (published_pos s H). destruct (holding s t WBump H Ht eq_refl) as [Hh Hl]. pose proof (writers_holders s) as Hwh.
  assert (writers s = 0) as Hw0.
  { destruct (decide (writers s = 0)) as [|Hne]; [done|exfalso]. assert (writers s = 1) as E by lia. unfold writers, holders in *.
    pose proof (zsum_app writes (take t (sq_threads s)) (drop t (sq_threads s))) as E1. pose proof (zsum_app holds (take t (sq_threads s)) (drop t (sq_threads s))) as E2.
    rewrite take_drop in E1, E2. rewrite (drop_S _ WBump t Ht) in E1, E2. cbn [zsum writes holds] in E1, E2.
    assert (forall l, zsum writes l <= zsum holds l) as Hle by (induction l as [|[] l IH]; cbn [zsum writes holds]; lia).
    pose proof (Hle (take t (sq_threads s))). pose proof (Hle (drop (S t) (sq_threads s))). lia. }
  pose proof (qk_sequence _ H) as Hsq. cbn [seq_write_step]. rewrite wrap64_small by (unfold is_u64; lia). destruct H as [Q1 Q2 Q3 Q4 Q5 Q6]. constructor; try done.
  - unfold holders. cbn. rewrite (holders_insert s t WBump) by done. rewrite Hl. cbn. lia.
  - unfold writers. cbn. rewrite (writers_insert s t WBump) by done. cbn. lia.
  - unfold writers. cbn. rewrite (writers_insert s t WBump) by done. cbn. lia.
  - cbn. apply Forall_insert; [|done]. eapply Forall_impl; [exact Q5|]. intros pc Hpc. eapply bump_reader_ok; [by constructor|reflexivity|done].
Qed.

Lemma store_ok s t i x : seq_ok s -> sq_threads s !! t = Some WStore -> seq_ok (seq_write_step (Some (i, x)) t WStore s).
Proof.
  intros H Ht. destruct (storing s t H Ht) as (Hw & _ & _). pose proof (qk_sequence _ H) as Hsq. cbn [seq_write_step]. destruct H as [Q1 Q2 Q3 Q4 Q5 Q6].
  constructor; try done.
  - intros E. exfalso. unfold writers in E, Hw. cbn in E. lia.
  - eapply Forall_impl; [exact Q5|]. intros [| |b st ws|[]| | |] Hpc; try done. destruct Hpc as (H1 & H2 & H3 & _). cbn. split; [done|]. split; [done|].
    split; [done|]. intros E. exfalso. rewrite E, Hsq, Hw in H1. Z.div_mod_to_equations. lia.
Qed.

Lemma publish_ok s t : seq_ok s -> sq_threads s !! t = Some WStore -> 2 * Z.of_nat (length (sq_published s)) < 2 ^ 64 ->
  seq_ok (seq_write_step None t WStore s).
Proof.
  intros H Ht Hb. destruct (storing s t H Ht) as (Hw & Hh & Hl). pose proof (qk_sequence _ H) as Hsq. pose proof (published_pos s H). cbn [seq_write_step].
  rewrite wrap64_small by (unfold is_u64; lia). destruct H as [Q1 Q2 Q3 Q4 Q5 Q6]. constructor.
  - unfold holders. cbn. rewrite (holders_insert s t WStore) by done. rewrite Hl. cbn. lia.
  - unfold writers. cbn. rewrite (writers_insert s t WStore) by done. cbn. rewrite length_app. cbn. lia.
  - intros _. cbn. apply last_snoc.
  - cbn. by destruct (sq_published s).
  - cbn. apply Forall_insert; [|done]. eapply Forall_impl; [exact Q5|]. intros pc Hpc. eapply bump_reader_ok; [by constructor|reflexivity|done].
  - cbn. eapply Forall_impl; [exact Q6|]. intros [[a b] v] (H1 & H2 & m & Hm & E). rewrite length_app. split; [done|]. split; [lia|].
    exists m. split; [done|]. by apply lookup_app_l_Some.
Qed.

Lemma seq_write_ok store t pc s : seq_ok s -> sq_threads s !! t = Some pc -> 2 * Z.of_nat (length (sq_published s)) < 2 ^ 64 ->
  seq_ok (seq_write_step store t pc s).
Proof.
  intros H Ht Hb. pose proof (qk_lock _ H) as Hlk. destruct pc as [| |b st ws|p| | |]; try done.
  - cbn [seq_write_step]. destruct p; cbn [spin_step SpinLock_try_lock]; [| |by destruct (Forall_lookup_1 _ _ _ _ (qk_readers _ H) Ht)].
    + destruct (sq_locked s) eqn:El; cbn [negb]; apply (move_ok s t (WLock SpTry)); try done; cbn; lia.
    + destruct (sq_locked s) eqn:El; apply (move_ok s t (WLock SpWatch)); try done; cbn; lia.
  - change (seq_ok (seq_write_step None t WBump s)). by apply bump_ok.
  - destruct store as [[i x]|]; [by apply store_ok|by apply publish_ok].
  - destruct (holding s t WUnlock H Ht eq_refl) as [Hh _]. cbn [seq_write_step SpinLock_unlock]. apply (move_ok s t WUnlock); try done. cbn. lia.
Qed.

Lemma published_mono s s' : seq_step s s' -> (length (sq_published s) <= length (sq_published s'))%nat.
Proof.
  intros [t s0|t s0|t pc s0|st t pc s0]; [done|done|..]; unfold seq_read_step, seq_write_step; repeat case_match; cbn; rewrite ?length_app; cbn; lia.
Qed.

Lemma seq_new_ok v n : seq_ok (SeqLock_new v n).
Proof.
  assert (forall f : seq_pc -> Z, f QIdle = 0 -> zsum f (replicate n QIdle) = 0) as Hz by (intros f Hf; induction n as [|m IH]; cbn; [done|rewrite Hf, IH; done]).
  constructor; try done.
  - unfold holders. cbn. by rewrite Hz.
  - unfold writers. cbn. by rewrite Hz.
  - cbn. by apply Forall_replicate.
Qed.

(** C24: Locks.  The spin lock of a sequence lock admits one writer at a time; and every
    value [read] returns is one that was there as a whole, published no earlier than the
    read began and no later than it returned: the one before its first load or that of
    a write that ended meanwhile, never a mixture of two, whatever the interleaving of
    any number of readers and writers and their word-wise copies, up to 2^63 writes. *)
Theorem seqlock_reads_consistent v n s : rtc seq_step (SeqLock_new v n) s -> 2 * Z.of_nat (length (sq_published s)) < 2 ^ 64 ->
  (forall t u pc pc', t <> u -> sq_threads s !! t = Some pc -> sq_threads s !! u = Some pc' -> holds pc + holds pc' <= 1) /\
  (forall i j w, (i, j, w) ∈ sq_reads s -> exists m, (i - 1 <= m < j)%nat /\ (j <= length (sq_published s))%nat /\ sq_published s !! m = Some w).
Proof.
  intros Hr Hb. assert (seq_ok s) as H.
  { revert Hb. apply (rtc_invariant seq_step (fun s => 2 * Z.of_nat (length (sq_published s)) < 2 ^ 64 -> seq_ok s) (SeqLock_new v n)); [intros _; apply seq_new_ok| |done].
    intros s1 s2 IH Hs Hb. pose proof (published_mono _ _ Hs). specialize (IH ltac:(lia)). destruct Hs as [t s1 Ht|t s1 Ht|t pc s1 Ht|st t pc s1 Ht].
    - apply (move_ok s1 t QIdle); try done. cbn. pose proof (qk_lock _ IH). lia.
    - apply (move_ok s1 t QIdle); try done. cbn. pose proof (qk_lock _ IH). lia.
    - by apply seq_read_ok.
    - apply seq_write_ok; [done..|lia]. }
  split.
  - intros t u pc pc' Hne Ht Hu. pose proof (qk_lock _ H). assert (holds pc + holds pc' <= holders s) by (apply (zsum_two holds _ t u); [by intros []|done..]).
    destruct (sq_locked s); lia.
  - intros i j w Hin. pose proof (qk_reads _ H) as Hq. rewrite Forall_forall in Hq. destruct (Hq _ Hin) as (_ & Hj & m & Hm & E). by exists m.
Qed.

(** Thread [t] makes its next access of [read] or [write]. *)
Inductive seq_act := ACallRead | ACallWrite | ANext (store : option (nat * Z)).

Definition seq_next (s : seq_state) (t : nat) (a : seq_act) : seq_state :=
  match sq_threads s !! t, a with
  | Some QIdle, ACallRead => sq_set s t RBefore
  | Some QIdle, ACallWrite => sq_set s t (WLock SpTry)
  | Some ((RBefore | RCopy _ _ _) as pc), ANext _ => seq_read_step t pc s
  | Some pc, ANext store => seq_write_step store t pc s
  | _, _ => s
  end.

Definition seq_run (s : seq_state) (sched : list (nat * seq_act)) : seq_state := foldl (fun s '(t, a) => seq_next s t a) s sched.

Lemma seq_run_steps s sched : rtc seq_step s (seq_run s sched).
Proof.
  revert s. induction sched as [|[t a] sched IH]; intros s; [done|]. cbn [seq_run foldl]. etrans; [|apply IH]. unfold seq_next.
  destruct (sq_threads s !! t) as [pc|] eqn:Ht; [|done]. destruct pc, a; try done; apply rtc_once; by constructor.
Qed.

(** A reader copies one word, a writer replaces both, the reader copies the second and
    starts over. *)
Definition torn_run : list (nat * seq_act) :=
  let next t := (t, ANext None) in
  [(0%nat, ACallRead); next 0%nat; next 0%nat; (1%nat, ACallWrite); next 1%nat; next 1%nat; (1%nat, ANext (Some (0%nat, 7))); (1%nat, ANext (Some (1%nat, 8)));
   next 1%nat; next 1%nat; next 0%nat; next 0%nat; next 0%nat; next 0%nat; next 0%nat; next 0%nat].

Lemma seqlock_reads_consistent_witness :
  sq_reads (seq_run (SeqLock_new [1; 2] 2) torn_run) = [(2%nat, 2%nat, [7; 8])] /\
  exists m, (1 <= m < 2)%nat /\ [[1; 2]; [7; 8]] !! m = Some [7; 8].
Proof.
  split; [vm_compute; reflexivity|].
  destruct (seqlock_reads_consistent [1; 2] 2 (seq_run (SeqLock_new [1; 2] 2) torn_run)) as [_ H].
  - apply seq_run_steps.
  - vm_compute. reflexivity.
  - destruct (H 2%nat 2%nat [7; 8]) as (m & Hm & _ & E); [vm_compute; left|]. exists m. split; [exact Hm|exact E].
Defined.

(** ** Progress *)

Lemma read_copies s t b st : sq_threads s !! t = Some (RCopy b st []) -> forall n, (n <= length (sq_value s))%nat ->
  seq_run s (replicate n (t, ANext None)) = sq_set s t (RCopy b st (take n (sq_value s))).
Proof.
  intros Ht. pose proof (lookup_lt_Some _ _ _ Ht) as Hlt. induction n as [|n IH]; intros Hn.
  - cbn. unfold sq_set. rewrite list_insert_id by done. by destruct s.
  - unfold seq_run in *. rewrite replicate_S_end, foldl_app, IH by lia. cbn [foldl]. unfold seq_next, sq_set. cbn [sq_threads].
    rewrite list_lookup_insert_eq by done. cbn [seq_read_step sq_value]. rewrite length_take, Nat.min_l by lia.
    destruct (lookup_lt_is_Some_2 (sq_value s) n) as [w Hw]; [lia|]. rewrite Hw. unfold sq_set. cbn. by rewrite list_insert_insert_eq, (take_S_r _ _ w).
Qed.

(** A read that no write interrupts returns, at its first attempt and with the value. *)
Lemma read_uncontended s t : seq_ok s -> sq_threads s !! t = Some RBefore -> writers s = 0 ->
  exists i, sq_reads (seq_run s (replicate (length (sq_value s) + 2) (t, ANext None))) = sq_reads s ++ [(i, i, sq_value s)].
Proof.
  intros H Ht Hw. pose proof (lookup_lt_Some _ _ _ Ht) as Hlt. pose proof (qk_sequence _ H) as Hsq. exists (length (sq_published s)).
  replace (length (sq_value s) + 2)%nat with (S (length (sq_value s) + 1)) by lia. rewrite replicate_S, replicate_add. unfold seq_run. cbn [foldl]. rewrite foldl_app.
  assert (seq_next s t (ANext None) = seq_read_step t RBefore s) as -> by (unfold seq_next; by rewrite Ht). cbn [seq_read_step]. assert (Z.land (sq_sequence s) 1 =? 0 = true) as ->.
  { apply Z.eqb_eq. change 1 with (Z.ones 1). rewrite Z.land_ones by lia. change (2 ^ 1) with 2. rewrite Hsq, Hw. Z.div_mod_to_equations. lia. }
  cbn [negb]. set (s1 := sq_set s t _). assert (sq_threads s1 !! t = Some (RCopy (sq_sequence s) (length (sq_published s)) [])) as Ht1 by (by apply list_lookup_insert_eq).
  pose proof (read_copies s1 t _ _ Ht1 (length (sq_value s)) ltac:(done)) as E. unfold seq_run in E. rewrite E. cbn [replicate foldl]. unfold seq_next, sq_set at 1.
  cbn [sq_threads sq_set]. rewrite list_lookup_insert_eq by (cbn; by rewrite length_insert). cbn [seq_read_step]. cbn. rewrite take_ge by lia.
  rewrite (proj2 (lookup_ge_None _ _)) by done. rewrite Z.eqb_refl. done.
Qed.
