(* ===== verification/IoApic.v ===== *)
(** * The I/O APIC

    crates/apic/src/ioapic.rs: the lists of I/O APICs and interrupt source overrides
    the firmware tables give, the resolution of a legacy interrupt line, the encoding
    of redirection entries and their programming through the two-register window of
    the device.  The device is its selected register and its register file. *)

From Stdlib Require Import ZArith Lia.
From stdpp Require Import prelude gmap list.
From S2P Require Import Prelude.

Local Open Scope Z_scope.

Definition MAX_IOAPICS : nat := 8.
Definition MAX_ISOS : nat := 16.
Definition KEYBOARD_VECTOR : Z := 0x21.
Definition ISA_IRQ_KEYBOARD : Z := 1.
Definition IOAPIC_DIRECT_MAP_BASE : Z := 0xffff800000000000.
Definition IOREGSEL_OFF : Z := 0x00.
Definition IOWIN_OFF : Z := 0x10.
Definition IOAPIC_REG_VERSION : Z := 0x01.
Definition IOAPIC_REG_REDIR_BASE : Z := 0x10.

Record IoApicInfo := { ioa_id : Z; ioa_phys_addr : Z; ioa_gsi_base : Z }.
Record IsoInfo := { iso_isa_irq : Z; iso_gsi : Z; iso_flags : Z }.

Definition IoApicInfo_zeroed : IoApicInfo := {| ioa_id := 0; ioa_phys_addr := 0; ioa_gsi_base := 0 |}.
Definition IsoInfo_zeroed : IsoInfo := {| iso_isa_irq := 0; iso_gsi := 0; iso_flags := 0 |}.

(** ** Fixed-capacity lists *)

Record fixed_list (X : Type) := { fl_entries : list X; fl_count : nat }.
Arguments fl_entries {_} _.
Arguments fl_count {_} _.

Notation IoApicList := (fixed_list IoApicInfo).
Notation IsoList := (fixed_list IsoInfo).

Definition IoApicList_new : IoApicList := {| fl_entries := replicate MAX_IOAPICS IoApicInfo_zeroed; fl_count := 0 |}.
Definition IsoList_new : IsoList := {| fl_entries := replicate MAX_ISOS IsoInfo_zeroed; fl_count := 0 |}.

(** [push] of both lists; an entry beyond the capacity is ignored. *)
Definition list_push {X} (cap : nat) (l : fixed_list X) (info : X) : fixed_list X :=
  if (fl_count l <? cap)%nat then {| fl_entries := <[fl_count l := info]> (fl_entries l); fl_count := S (fl_count l) |} else l.

Definition IoApicList_push : IoApicList -> IoApicInfo -> IoApicList := list_push MAX_IOAPICS.
Definition IsoList_push : IsoList -> IsoInfo -> IsoList := list_push MAX_ISOS.

Definition as_slice {X} (l : fixed_list X) : list X := take (fl_count l) (fl_entries l).

Definition IsoList_find (l : IsoList) (irq : Z) : option IsoInfo := snd <$> list_find (fun e => iso_isa_irq e = irq) (as_slice l).

Definition list_ok {X} (cap : nat) (l : fixed_list X) : Prop := length (fl_entries l) = cap /\ (fl_count l <= cap)%nat.

Lemma list_push_ok {X} cap (l : fixed_list X) x : list_ok cap l ->
  list_ok cap (list_push cap l x) /\ as_slice (list_push cap l x) = take cap (as_slice l ++ [x]).
Proof.
  intros [Hl Hc]. unfold list_push, as_slice. destruct (Nat.ltb_spec (fl_count l) cap) as [Hlt|Hge]; cbn.
  - split; [split; cbn; [by rewrite length_insert|lia]|]. rewrite take_S_r with (x := x) by (apply list_lookup_insert_eq; lia).
    rewrite take_insert_ge by lia. rewrite (take_ge (_ ++ _)); [done|]. rewrite length_app, length_take. cbn. lia.
  - split; [done|]. rewrite take_app_le by (rewrite length_take; lia). symmetry. apply take_ge. rewrite length_take. lia.
Qed.

(** ** Redirection entries *)

Definition redir_low_reg (gsi : Z) : Z := (IOAPIC_REG_REDIR_BASE + wrap32 (2 * gsi)) mod 256.
Definition redir_high_reg (gsi : Z) : Z := (IOAPIC_REG_REDIR_BASE + wrap32 (2 * gsi) + 1) mod 256.

Definition redir_entry_count (version_reg : Z) : Z := Z.land (Z.shiftr version_reg 16) 0xFF + 1.

Definition decode_iso_flags (flags : Z) : bool * bool :=
  (Z.land flags 3 =? 3, Z.land (Z.shiftr flags 2) 3 =? 3).

Definition resolve_isa_irq (irq : Z) (isos : IsoList) : Z * bool * bool :=
  match IsoList_find isos irq with
  | Some iso => let '(active_low, level) := decode_iso_flags (iso_flags iso) in (iso_gsi iso, active_low, level)
  | None => (irq, false, false)
  end.

Definition owns_gsi (info : IoApicInfo) (entry_count gsi : Z) : bool :=
  (ioa_gsi_base info <=? gsi) && (gsi <? wrap32 (ioa_gsi_base info + entry_count)).

Definition redir_low_value (vector : Z) (active_low level_triggered : bool) : Z :=
  let low := vector in
  let low := if active_low then Z.lor low (Z.shiftl 1 13) else low in
  if level_triggered then Z.lor low (Z.shiftl 1 15) else low.

Definition redir_high_value (dest_apic_id : Z) : Z := Z.shiftl (Z.land dest_apic_id 0xFF) 24.

(** ** The window *)

Record ioapic_dev := { dev_select : Z; dev_regs : gmap Z Z }.

(** The devices by the virtual address of their window. *)
Notation mmio := (gmap Z ioapic_dev).

Definition ioapic_virt (phys_addr : Z) : Z := wrap64 (IOAPIC_DIRECT_MAP_BASE + phys_addr).

(** A volatile store to the window: [IOREGSEL] selects, [IOWIN] writes the register. *)
Definition mmio_store (m : mmio) (virt off val : Z) : outcome mmio :=
  d ← expect (m !! virt);
  Done (<[virt := if off =? IOREGSEL_OFF then {| dev_select := val mod 256; dev_regs := dev_regs d |}
                  else {| dev_select := dev_select d; dev_regs := <[dev_select d := val]> (dev_regs d) |}]> m).

Definition mmio_load (m : mmio) (virt : Z) : outcome Z :=
  d ← expect (m !! virt); Done (default 0 (dev_regs d !! dev_select d)).

Definition ioapic_read (m : mmio) (virt reg : Z) : outcome (Z * mmio) :=
  m1 ← mmio_store m virt IOREGSEL_OFF reg; v ← mmio_load m1 virt; Done (v, m1).

Definition ioapic_write (m : mmio) (virt reg val : Z) : outcome mmio :=
  m1 ← mmio_store m virt IOREGSEL_OFF reg; mmio_store m1 virt IOWIN_OFF val.

Fixpoint ioapic_for_gsi (m : mmio) (gsi : Z) (ioapics : list IoApicInfo) : outcome (option IoApicInfo * mmio) :=
  match ioapics with
  | [] => Done (None, m)
  | info :: rest =>
      '(version, m1) ← ioapic_read m (ioapic_virt (ioa_phys_addr info)) IOAPIC_REG_VERSION;
      if owns_gsi info (redir_entry_count version) gsi then Done (Some info, m1) else ioapic_for_gsi m1 gsi rest
  end.

Definition route_irq (m : mmio) (gsi vector dest_apic_id : Z) (active_low level_triggered : bool) (ioapics : IoApicList) : outcome (bool * mmio) :=
  '(o, m1) ← ioapic_for_gsi m gsi (as_slice ioapics);
  match o with
  | None => Done (false, m1)
  | Some info =>
      let virt := ioapic_virt (ioa_phys_addr info) in
      let index := wrap32 (gsi - ioa_gsi_base info) in
      m2 ← ioapic_write m1 virt (redir_high_reg index) (redir_high_value dest_apic_id);
      m3 ← ioapic_write m2 virt (redir_low_reg index) (redir_low_value vector active_low level_triggered);
      Done (true, m3)
  end.

Definition init_keyboard_irq_routing (m : mmio) (bsp_apic_id : Z) (ioapics : IoApicList) (isos : IsoList) : outcome (bool * mmio) :=
  let '(gsi, active_low, level) := resolve_isa_irq ISA_IRQ_KEYBOARD isos in
  route_irq m gsi KEYBOARD_VECTOR bsp_apic_id active_low level ioapics.

(** ** What the hardware sees *)

Definition reg_of (m : mmio) (virt reg : Z) : option Z := d ← m !! virt; dev_regs d !! reg.

Definition same_windows (m m' : mmio) : Prop := forall v, is_Some (m !! v) <-> is_Some (m' !! v).

Definition version_of (m : mmio) (info : IoApicInfo) : Z := default 0 (reg_of m (ioapic_virt (ioa_phys_addr info)) IOAPIC_REG_VERSION).

(** The first I/O APIC of the list that serves the interrupt. *)
Definition gsi_owner (m : mmio) (gsi : Z) (l : list IoApicInfo) : option IoApicInfo :=
  snd <$> list_find (fun info => owns_gsi info (redir_entry_count (version_of m info)) gsi = true) l.

Definition mapped (m : mmio) (info : IoApicInfo) : Prop := is_Some (m !! ioapic_virt (ioa_phys_addr info)).

Lemma ioapic_read_spec m virt reg : is_Some (m !! virt) -> 0 <= reg < 256 ->
  exists m', ioapic_read m virt reg = Done (default 0 (reg_of m virt reg), m') /\ (forall v r, reg_of m' v r = reg_of m v r) /\ same_windows m m'.
Proof.
  intros [d Hd] Hr. unfold ioapic_read, mmio_store, mmio_load. rewrite Hd. cbn. rewrite lookup_insert_eq. cbn. eexists. split.
  - unfold reg_of. rewrite Hd. cbn. rewrite Z.mod_small by done. reflexivity.
  - split; intros v; [intros r; unfold reg_of|]; (destruct (decide (v = virt)) as [->|]; [rewrite lookup_insert_eq, Hd|by rewrite lookup_insert_ne]); done.
Qed.

Lemma ioapic_write_spec m virt reg val : is_Some (m !! virt) -> 0 <= reg < 256 ->
  exists m', ioapic_write m virt reg val = Done m' /\ same_windows m m' /\
    (forall v r, reg_of m' v r = if decide (v = virt /\ r = reg) then Some val else reg_of m v r).
Proof.
  intros [d Hd] Hr. unfold ioapic_write, mmio_store. rewrite Hd. cbn. rewrite lookup_insert_eq. cbn. rewrite insert_insert_eq, Z.mod_small by done. eexists.
  split; [reflexivity|]. split.
  - intros v. destruct (decide (v = virt)) as [->|]; [by rewrite lookup_insert_eq, Hd|by rewrite lookup_insert_ne].
  - intros v r. unfold reg_of. destruct (decide (v = virt)) as [->|].
    + rewrite lookup_insert_eq, Hd. cbn. destruct (decide (r = reg)) as [->|]; [rewrite lookup_insert_eq|rewrite lookup_insert_ne by done]; case_decide; naive_solver.
    + rewrite lookup_insert_ne by done. case_decide; [naive_solver|done].
Qed.

Lemma ioapic_for_gsi_spec gsi l : forall m, Forall (mapped m) l ->
  exists m', ioapic_for_gsi m gsi l = Done (gsi_owner m gsi l, m') /\ (forall v r, reg_of m' v r = reg_of m v r) /\ same_windows m m'.
Proof.
  induction l as [|info l IH]; intros m Hm; [by exists m|]. apply Forall_cons in Hm as [Hi Hl]. cbn [ioapic_for_gsi].
  destruct (ioapic_read_spec m _ IOAPIC_REG_VERSION Hi) as (m1 & E & Hr & Hs); [done|]. rewrite E. cbn. unfold gsi_owner. cbn.
  fold (version_of m info). destruct (owns_gsi info (redir_entry_count (version_of m info)) gsi) eqn:Eo; cbn; [rewrite decide_True by done; by exists m1|].
  rewrite decide_False by done. destruct (IH m1) as (m2 & E2 & Hr2 & Hs2). { eapply Forall_impl; [exact Hl|]. intros x Hx. by apply Hs. }
  exists m2. rewrite E2. split_and!; [|intros v r; by rewrite Hr2|intros v; etrans; [apply Hs|apply Hs2]]. do 2 f_equal. unfold gsi_owner.
  erewrite (list_find_ext _ (fun info => owns_gsi info (redir_entry_count (version_of m info)) gsi = true) l).
  - destruct (list_find _ l) as [[]|]; done.
  - intros x. unfold version_of. by rewrite Hr.
Qed.

Lemma redir_regs_range gsi : 0 <= redir_low_reg gsi < 256 /\ 0 <= redir_high_reg gsi < 256.
Proof. unfold redir_low_reg, redir_high_reg. split; apply Z.mod_pos_bound; lia. Qed.

(** [route_irq] programs the two registers of the entry at the first I/O APIC of the list
    that serves the interrupt, and no other register; without one it changes none. *)
Lemma route_irq_spec m gsi vector dest al lt ioapics : Forall (mapped m) (as_slice ioapics) ->
  let owner := gsi_owner m gsi (as_slice ioapics) in
  exists m', route_irq m gsi vector dest al lt ioapics = Done (bool_decide (is_Some owner), m') /\
    forall v r, reg_of m' v r = match owner with
      | None => reg_of m v r
      | Some info =>
          let index := wrap32 (gsi - ioa_gsi_base info) in
          if decide (v = ioapic_virt (ioa_phys_addr info) /\ r = redir_low_reg index) then Some (redir_low_value vector al lt)
          else if decide (v = ioapic_virt (ioa_phys_addr info) /\ r = redir_high_reg index) then Some (redir_high_value dest)
          else reg_of m v r
      end.
Proof.
  intros Hm owner. unfold route_irq. destruct (ioapic_for_gsi_spec gsi (as_slice ioapics) m Hm) as (m1 & E & Hr & Hs). rewrite E. fold owner. cbn.
  destruct owner as [info|] eqn:Eo; [|exists m1; split; [done|exact Hr]]. assert (mapped m info) as Hi.
  { unfold owner, gsi_owner in Eo. destruct (list_find _ _) as [[i x]|] eqn:Ef; [|done]. injection Eo as <-. apply list_find_Some in Ef as (Hx & _).
    exact (Forall_lookup_1 _ _ _ _ Hm Hx). }
  set (index := wrap32 (gsi - ioa_gsi_base info)). destruct (redir_regs_range index) as [Hlo Hhi].
  destruct (ioapic_write_spec m1 (ioapic_virt (ioa_phys_addr info)) (redir_high_reg index) (redir_high_value dest)) as (m2 & E2 & Hs2 & Hr2); [by apply Hs|done|].
  rewrite E2. cbn. destruct (ioapic_write_spec m2 (ioapic_virt (ioa_phys_addr info)) (redir_low_reg index) (redir_low_value vector al lt)) as (m3 & E3 & _ & Hr3);
    [by apply Hs2, Hs|done|]. rewrite E3. cbn. exists m3. split; [done|]. intros v r. by rewrite Hr3, Hr2, Hr.
Qed.

(** The fields of a redirection entry, as the device decodes them. *)
Lemma redir_low_decodes vector al lt : 0 <= vector < 256 ->
  Z.land (redir_low_value vector al lt) 0xFF = vector /\ Z.testbit (redir_low_value vector al lt) 13 = al /\
  Z.testbit (redir_low_value vector al lt) 15 = lt /\ Z.testbit (redir_low_value vector al lt) 16 = false /\
  Z.land (Z.shiftr (redir_low_value vector al lt) 8) 15 = 0.
Proof.
  intros Hv. unfold redir_low_value. split_and!.
  - apply Z.bits_inj'. intros i Hi. change 0xFF with (Z.ones 8). destruct (Z.ltb_spec i 8).
    + destruct al, lt; rewrite Z.land_spec, Z.ones_spec_low, ?Z.lor_spec, ?Z.shiftl_spec_low by lia; by rewrite ?orb_false_r, andb_true_r.
    + by rewrite Z.land_spec, Z.ones_spec_high, (testbit_small vector 8), andb_false_r by lia.
  - destruct al, lt; rewrite ?Z.lor_spec, (testbit_small vector 8) by lia; done.
  - destruct al, lt; rewrite ?Z.lor_spec, (testbit_small vector 8) by lia; done.
  - destruct al, lt; rewrite ?Z.lor_spec, (testbit_small vector 8) by lia; done.
  - assert (Z.shiftr vector 8 = 0) as E by (rewrite Z.shiftr_div_pow2 by lia; apply Z.div_small; lia).
    destruct al, lt; rewrite ?Z.shiftr_lor, E; done.
Qed.

Lemma redir_high_decodes dest : 0 <= dest < 256 -> Z.shiftr (redir_high_value dest) 24 = dest.
Proof.
  intros Hd. unfold redir_high_value. change 0xFF with (Z.ones 8). rewrite Z.land_ones, Z.mod_small by lia.
  rewrite Z.shiftr_shiftl_l by lia. apply Z.shiftl_0_r.
Qed.
