(* ===== verification/Acpi.v ===== *)
(** * The firmware tables

    [parse_madt] of crates/smp/src/acpi.rs: from the root pointer through the extended
    or the old root table to the interrupt controller table (MADT), and the walk of its
    entries into processors, I/O APICs and interrupt source overrides.  Memory is a
    partial function of the virtual address; a read outside it is a fault. *)

From Stdlib Require Import ZArith Lia.
From stdpp Require Import prelude list.
From S2P Require Import Prelude IoApic.

Local Open Scope Z_scope.

Definition MAX_CPUS : nat := 64.
Definition ACPI_DIRECT_MAP_BASE : Z := 0xffff800000000000.
(** b"RSD PTR ", b"XSDT", b"RSDT", b"APIC" *)
Definition RSDP_SIGNATURE : list Z := [82; 83; 68; 32; 80; 84; 82; 32].
Definition SIG_XSDT : list Z := [88; 83; 68; 84].
Definition SIG_RSDT : list Z := [82; 83; 68; 84].
Definition SIG_APIC : list Z := [65; 80; 73; 67].
Definition SDT_HEADER_LEN : Z := 36.
Definition MADT_ENTRY_START : Z := SDT_HEADER_LEN + 8.
Definition MADT_CPU_ENABLED : Z := 1.
Definition MADT_CPU_ONLINE_CAPABLE : Z := 2.

Record CpuEntry := { ce_acpi_uid : Z; ce_apic_id : Z; ce_is_bsp : bool }.

Definition CpuEntry_zeroed : CpuEntry := {| ce_acpi_uid := 0; ce_apic_id := 0; ce_is_bsp := false |}.

Record MadtInfo := { mi_cpus : list CpuEntry; mi_cpu_count : nat; mi_ioapics : IoApicList; mi_isos : IsoList }.

(** ** Reads *)

Notation memory := (Z -> option Z).

Definition phys_to_virt (phys : Z) : Z := wrap64 (ACPI_DIRECT_MAP_BASE + phys).

Fixpoint read_bytes (mem : memory) (virt : Z) (n : nat) : outcome (list Z) :=
  match n with
  | O => Done []
  | S n' => b ← expect (mem virt); bs ← read_bytes mem (virt + 1) n'; Done (b :: bs)
  end.

Definition read_u8 (mem : memory) (phys : Z) : outcome Z := expect (mem (phys_to_virt phys)).

Definition read_le (n : nat) (mem : memory) (phys : Z) : outcome Z := bs ← read_bytes mem (phys_to_virt phys) n; Done (of_le_bytes bs).

Definition read_u32 : memory -> Z -> outcome Z := read_le 4.
Definition read_u64 : memory -> Z -> outcome Z := read_le 8.

(** The loop of [rsdp_signature_valid] and [sdt_signature_is]. *)
Fixpoint signature_at (mem : memory) (phys : Z) (sig : list Z) : outcome bool :=
  match sig with
  | [] => Done true
  | c :: sig' => b ← read_u8 mem phys; if b =? c then signature_at mem (wrap64 (phys + 1)) sig' else Done false
  end.

Definition rsdp_signature_valid (mem : memory) (rsdp_phys : Z) : outcome bool := signature_at mem rsdp_phys RSDP_SIGNATURE.
Definition sdt_signature_is (mem : memory) (phys : Z) (sig : list Z) : outcome bool := signature_at mem phys sig.

(** ** Finding the table *)

(** The loop over the pointers: the next index, or the result. *)
Definition sdt_step (mem : memory) (sdt_phys : Z) (xsdt : bool) (entries idx : Z) : Z + outcome (option Z) :=
  if idx <? entries then
    let ptr_off := wrap64 (sdt_phys + SDT_HEADER_LEN + idx * (if xsdt then 8 else 4)) in
    match (if xsdt then read_u64 mem ptr_off else read_u32 mem ptr_off) with
    | Panic => inr Panic
    | Done table_phys =>
        if table_phys =? 0 then inl (idx + 1) else
        match sdt_signature_is mem table_phys SIG_APIC with
        | Panic => inr Panic
        | Done true => inr (Done (Some table_phys))
        | Done false => inl (idx + 1)
        end
    end
  else inr (Done None).

(** The result of a loop; the fuel is never used up (see [sdt_loop] and [madt_loop]). *)
Definition loop_result {S R} (r : S + outcome R) : outcome R := match r with inr o => o | inl _ => Panic end.

Definition find_table_in_sdt (mem : memory) (sdt_phys : Z) (xsdt : bool) : outcome (option Z) :=
  ok ← sdt_signature_is mem sdt_phys (if xsdt then SIG_XSDT else SIG_RSDT);
  if negb ok then Done None else
  len ← read_u32 mem (wrap64 (sdt_phys + 4));
  if len <? SDT_HEADER_LEN then Done None else
  let entries := (len - SDT_HEADER_LEN) / (if xsdt then 8 else 4) in
  loop_result (iterate (sdt_step mem sdt_phys xsdt entries) 64 0).

Definition find_madt (mem : memory) (rsdp_phys : Z) : outcome (option Z) :=
  revision ← read_u8 mem (wrap64 (rsdp_phys + 15));
  xsdt_phys ← (if 2 <=? revision then
                 length ← read_u32 mem (wrap64 (rsdp_phys + 20));
                 if 36 <=? length then read_u64 mem (wrap64 (rsdp_phys + 24)) else Done 0
               else Done 0);
  from_xsdt ← (if xsdt_phys =? 0 then Done None else find_table_in_sdt mem xsdt_phys true);
  match from_xsdt with
  | Some madt => Done (Some madt)
  | None =>
      rsdt_phys ← read_u32 mem (wrap64 (rsdp_phys + 16));
      if rsdt_phys =? 0 then Done None else find_table_in_sdt mem rsdt_phys false
  end.

(** ** The entries *)

Definition cpu_flags_usable (flags : Z) : bool := negb (Z.land flags (Z.lor MADT_CPU_ENABLED MADT_CPU_ONLINE_CAPABLE) =? 0).

Definition parse_lapic_entry (mem : memory) (entry : Z) : outcome (option CpuEntry) :=
  flags ← read_u32 mem (wrap64 (entry + 4));
  if negb (cpu_flags_usable flags) then Done None else
  uid ← read_u8 mem (wrap64 (entry + 2));
  id ← read_u8 mem (wrap64 (entry + 3));
  Done (Some {| ce_acpi_uid := uid; ce_apic_id := id; ce_is_bsp := false |}).

Definition parse_x2apic_entry (mem : memory) (entry : Z) : outcome (option CpuEntry) :=
  flags ← read_u32 mem (wrap64 (entry + 8));
  if negb (cpu_flags_usable flags) then Done None else
  uid ← read_u32 mem (wrap64 (entry + 12));
  id ← read_u32 mem (wrap64 (entry + 4));
  Done (Some {| ce_acpi_uid := uid; ce_apic_id := id; ce_is_bsp := false |}).

Definition byte_at (b : list Z) (i : nat) : Z := default 0 (b !! i).

Definition ioapic_from_bytes (b : list Z) : IoApicInfo :=
  {| ioa_id := byte_at b 2; ioa_phys_addr := of_le_bytes [byte_at b 4; byte_at b 5; byte_at b 6; byte_at b 7];
     ioa_gsi_base := of_le_bytes [byte_at b 8; byte_at b 9; byte_at b 10; byte_at b 11] |}.

Definition iso_from_bytes (b : list Z) : IsoInfo :=
  {| iso_isa_irq := byte_at b 3; iso_gsi := of_le_bytes [byte_at b 4; byte_at b 5; byte_at b 6; byte_at b 7];
     iso_flags := of_le_bytes [byte_at b 8; byte_at b 9] |}.

(** The byte loop of the two parsers below. *)
Fixpoint copy_entry (mem : memory) (entry : Z) (n : nat) : outcome (list Z) :=
  match n with
  | O => Done []
  | S n' => b ← read_u8 mem entry; bs ← copy_entry mem (wrap64 (entry + 1)) n'; Done (b :: bs)
  end.

Definition parse_ioapic_entry (mem : memory) (entry : Z) : outcome IoApicInfo := b ← copy_entry mem entry 12; Done (ioapic_from_bytes b).
Definition parse_iso_entry (mem : memory) (entry : Z) : outcome IsoInfo := b ← copy_entry mem entry 10; Done (iso_from_bytes b).

Definition push_cpu_bsp_first (cpus : list CpuEntry) (count : nat) (cpu : CpuEntry) : list CpuEntry * nat :=
  if (MAX_CPUS <=? count)%nat then (cpus, count) else
  let cpus' :=
    if ce_is_bsp cpu then
      if (count =? 0)%nat then <[O := cpu]> cpus
      else <[O := cpu]> (<[count := default CpuEntry_zeroed (cpus !! O)]> cpus)
    else <[count := cpu]> cpus in
  (cpus', S count).

Definition add_cpu (info : MadtInfo) (bsp_apic_id : Z) (o : option CpuEntry) : MadtInfo :=
  match o with
  | None => info
  | Some cpu =>
      let cpu := {| ce_acpi_uid := ce_acpi_uid cpu; ce_apic_id := ce_apic_id cpu; ce_is_bsp := ce_apic_id cpu =? bsp_apic_id |} in
      let '(cpus, count) := push_cpu_bsp_first (mi_cpus info) (mi_cpu_count info) cpu in
      {| mi_cpus := cpus; mi_cpu_count := count; mi_ioapics := mi_ioapics info; mi_isos := mi_isos info |}
  end.

(** [match (typ, len)]. *)
Definition madt_entry (mem : memory) (bsp_apic_id typ len entry : Z) (info : MadtInfo) : outcome MadtInfo :=
  if (typ =? 0) && (8 <=? len) then o ← parse_lapic_entry mem entry; Done (add_cpu info bsp_apic_id o)
  else if (typ =? 9) && (16 <=? len) then o ← parse_x2apic_entry mem entry; Done (add_cpu info bsp_apic_id o)
  else if (typ =? 1) && (12 <=? len) then
    i ← parse_ioapic_entry mem entry;
    Done {| mi_cpus := mi_cpus info; mi_cpu_count := mi_cpu_count info; mi_ioapics := IoApicList_push (mi_ioapics info) i; mi_isos := mi_isos info |}
  else if (typ =? 2) && (10 <=? len) then
    i ← parse_iso_entry mem entry;
    Done {| mi_cpus := mi_cpus info; mi_cpu_count := mi_cpu_count info; mi_ioapics := mi_ioapics info; mi_isos := IsoList_push (mi_isos info) i |}
  else Done info.

(** The body of the walk: the next offset, or none to leave the loop. *)
Definition madt_body (mem : memory) (bsp_apic_id madt_phys madt_len : Z) (info : MadtInfo) (off : Z) : outcome (MadtInfo * option Z) :=
  let entry := wrap64 (madt_phys + off) in
  typ ← read_u8 mem entry;
  len ← read_u8 mem (wrap64 (entry + 1));
  if (len <? 2) || (madt_len <? off + len) then Done (info, None) else
  info' ← madt_entry mem bsp_apic_id typ len entry info;
  Done (info', Some (off + len)).

Definition madt_step (mem : memory) (bsp_apic_id madt_phys madt_len : Z) (s : MadtInfo * Z) : (MadtInfo * Z) + outcome MadtInfo :=
  let '(info, off) := s in
  if off + 2 <=? madt_len then
    match madt_body mem bsp_apic_id madt_phys madt_len info off with
    | Panic => inr Panic
    | Done (info', None) => inr (Done info')
    | Done (info', Some off') => inl (info', off')
    end
  else inr (Done info).

Definition MadtInfo_new : MadtInfo :=
  {| mi_cpus := replicate MAX_CPUS CpuEntry_zeroed; mi_cpu_count := 0; mi_ioapics := IoApicList_new; mi_isos := IsoList_new |}.

Definition parse_madt (mem : memory) (bsp_apic_id rsdp_phys : Z) : outcome MadtInfo :=
  let info := MadtInfo_new in
  ok ← rsdp_signature_valid mem rsdp_phys;
  if negb ok then Done info else
  m ← find_madt mem rsdp_phys;
  match m with
  | None => Done info
  | Some madt_phys =>
      madt_len ← read_u32 mem (wrap64 (madt_phys + 4));
      if madt_len <? MADT_ENTRY_START then Done info else
      loop_result (iterate (madt_step mem bsp_apic_id madt_phys madt_len) 64 (info, MADT_ENTRY_START))
  end.

(** ** Tables in memory *)

(** The bytes [bs] are at physical address [phys], below the end of the direct map. *)
Record table_at (mem : memory) (phys : Z) (bs : list Z) : Prop := {
  ta_bytes : forall i b, bs !! i = Some b -> mem (ACPI_DIRECT_MAP_BASE + phys + Z.of_nat i) = Some b;
  ta_range : 0 <= phys /\ phys + Z.of_nat (length bs) <= 2 ^ 47;
  ta_byte : Forall (fun b => 0 <= b < 256) bs
}.

Lemma phys_to_virt_small p : 0 <= p < 2 ^ 47 -> phys_to_virt p = ACPI_DIRECT_MAP_BASE + p.
Proof. intros Hp. unfold phys_to_virt, ACPI_DIRECT_MAP_BASE. apply wrap64_small. unfold is_u64. lia. Qed.

Lemma table_at_app mem p l1 l2 : table_at mem p (l1 ++ l2) <-> table_at mem p l1 /\ table_at mem (p + Z.of_nat (length l1)) l2.
Proof.
  split.
  - intros [H1 H2 H3]. rewrite length_app in H2. apply Forall_app in H3 as [H3 H4]. split; (constructor; [|lia|done]).
    + intros i b Hi. apply H1. by apply lookup_app_l_Some.
    + intros i b Hi. rewrite <- (H1 (length l1 + i)%nat b); [f_equal; lia|]. by rewrite lookup_app_r, Nat.add_comm, Nat.add_sub by lia.
  - intros [[H1 H2 H3] [H4 H5 H6]]. constructor; [|rewrite length_app; lia|by apply Forall_app]. intros i b Hi.
    apply lookup_app_Some in Hi as [Hi|[Hge Hi]]; [by apply H1|]. rewrite <- (H4 _ _ Hi). f_equal. lia.
Qed.

Lemma read_u8_at mem p bs (o : nat) b : table_at mem p bs -> bs !! o = Some b -> read_u8 mem (wrap64 (p + Z.of_nat o)) = Done b.
Proof.
  intros [H1 H2 _] Hb. pose proof (lookup_lt_Some _ _ _ Hb). unfold read_u8. rewrite wrap64_small by (unfold is_u64; lia).
  rewrite phys_to_virt_small, Z.add_assoc, (H1 _ _ Hb) by lia. done.
Qed.

Lemma read_bytes_at mem n : forall p bs, table_at mem p bs -> (n <= length bs)%nat -> read_bytes mem (ACPI_DIRECT_MAP_BASE + p) n = Done (take n bs).
Proof.
  induction n as [|n IH]; intros p bs H Hn; [done|]. destruct bs as [|b bs]; [cbn in Hn; lia|]. change (b :: bs) with ([b] ++ bs) in H.
  apply table_at_app in H as [H1 H2]. cbn [read_bytes]. pose proof (ta_bytes _ _ _ H1 0%nat b eq_refl) as Hb. rewrite Z.add_0_r in Hb. rewrite Hb. cbn.
  rewrite <- Z.add_assoc, (IH (p + 1) bs) by (done || cbn in Hn; lia). done.
Qed.

Lemma read_le_at mem n p bs (o : nat) : table_at mem p bs -> (o + n <= length bs)%nat -> (0 < n)%nat ->
  read_le n mem (wrap64 (p + Z.of_nat o)) = Done (of_le_bytes (take n (drop o bs))).
Proof.
  intros H Hn Hpos. pose proof (ta_range _ _ _ H). unfold read_le. rewrite wrap64_small by (unfold is_u64; lia). rewrite phys_to_virt_small by lia.
  rewrite <- (take_drop o bs) in H. apply table_at_app in H as [_ H]. rewrite length_take, Nat.min_l in H by lia.
  rewrite (read_bytes_at mem n _ _ H) by (rewrite length_drop; lia). done.
Qed.

Lemma signature_at_spec mem sig : forall p bs, table_at mem p bs -> length bs = length sig -> signature_at mem p sig = Done (bool_decide (bs = sig)).
Proof.
  induction sig as [|c sig IH]; intros p bs H Hl; [apply nil_length_inv in Hl as ->; done|]. destruct bs as [|b bs]; [done|]. cbn [signature_at].
  pose proof (ta_range _ _ _ H) as Hr. cbn in Hr. pose proof (read_u8_at mem p _ 0 b H eq_refl) as E. rewrite Z.add_0_r, wrap64_small in E by (unfold is_u64; lia).
  rewrite E. cbn. change (b :: bs) with ([b] ++ bs) in H. apply table_at_app in H as [_ H]. cbn in Hl. destruct (Z.eqb_spec b c) as [->|Hne].
  - rewrite wrap64_small by (unfold is_u64; lia). rewrite (IH (p + 1) bs H) by lia. f_equal. apply bool_decide_ext. naive_solver.
  - symmetry. f_equal. apply bool_decide_eq_false. naive_solver.
Qed.

Lemma of_le_bytes_range bs : Forall (fun b => 0 <= b < 256) bs -> 0 <= of_le_bytes bs < 256 ^ Z.of_nat (length bs).
Proof.
  induction 1 as [|b bs Hb _ IH]; [cbn; lia|]. cbn [of_le_bytes length]. rewrite Nat2Z.inj_succ, Z.pow_succ_r by lia. lia.
Qed.

(** ** What a walk builds *)

Record info_ok (info : MadtInfo) : Prop := {
  ik_cpus : length (mi_cpus info) = MAX_CPUS /\ (mi_cpu_count info <= MAX_CPUS)%nat;
  ik_bsp : forall i c, (i < mi_cpu_count info)%nat -> mi_cpus info !! i = Some c -> ce_is_bsp c = true ->
    exists c0, mi_cpus info !! O = Some c0 /\ ce_is_bsp c0 = true;
  ik_ioapics : list_ok MAX_IOAPICS (mi_ioapics info);
  ik_isos : list_ok MAX_ISOS (mi_isos info)
}.

Lemma info_new_ok : info_ok MadtInfo_new.
Proof. constructor; [cbn; unfold MAX_CPUS; lia|cbn; lia|split; [done|cbn; lia]|split; [done|cbn; lia]]. Qed.

(** The processors of a list after a push: the old ones and the new one, in some order,
    the boot processor first. *)
Lemma push_cpu_spec cpus count cpu : length cpus = MAX_CPUS -> (count < MAX_CPUS)%nat ->
  exists cpus', push_cpu_bsp_first cpus count cpu = (cpus', S count) /\ length cpus' = MAX_CPUS /\
    take (S count) cpus' ≡ₚ take count cpus ++ [cpu] /\
    (ce_is_bsp cpu = true -> cpus' !! O = Some cpu) /\ (ce_is_bsp cpu = false -> (0 < count)%nat -> cpus' !! O = cpus !! O).
Proof.
  intros Hl Hc. unfold push_cpu_bsp_first. rewrite (proj2 (Nat.leb_gt _ _)) by done. eexists. split; [reflexivity|].
  assert (forall c, take (S count) (<[count := c]> cpus) = take count cpus ++ [c]) as Hins.
  { intros c. rewrite (take_S_r _ _ c) by (apply list_lookup_insert_eq; lia). by rewrite take_insert_ge. }
  destruct (ce_is_bsp cpu).
  - destruct (Nat.eqb_spec count 0) as [->|Hne]; [split_and!; [by rewrite length_insert|by rewrite Hins|intros _; apply list_lookup_insert_eq; lia|done]|].
    split_and!; [by rewrite !length_insert| |intros _; apply list_lookup_insert_eq; rewrite length_insert; lia|done].
    destruct cpus as [|c0 cpus]; [cbn in Hl; unfold MAX_CPUS in *; lia|]. cbn [lookup list_lookup default]. destruct count as [|count]; [done|].
    cbn. cbn in Hins. specialize (Hins c0). injection Hins as Hins. rewrite Hins. rewrite (Permutation_app_comm _ [c0]). cbn.
    rewrite (Permutation_app_comm _ [cpu]). apply Permutation_swap.
  - split_and!; [by rewrite length_insert|by rewrite Hins|done|]. intros _ Hpos. apply list_lookup_insert_ne. lia.
Qed.

Lemma add_cpu_ok info bsp o : info_ok info -> info_ok (add_cpu info bsp o).
Proof.
  intros H. destruct o as [cpu|]; [|done]. unfold add_cpu. set (c := {| ce_acpi_uid := _ |}). destruct H as [[K1 K1'] K2 K3 K4].
  destruct (decide (mi_cpu_count info < MAX_CPUS)%nat) as [Hlt|Hge].
  - destruct (push_cpu_spec (mi_cpus info) (mi_cpu_count info) c K1 Hlt) as (cpus' & -> & Hl & Hp & Hb & Hn). constructor; cbn; [lia| |done..].
    intros i x Hi Hx Hbx. destruct (ce_is_bsp c) eqn:Ec; [exists c; auto|]. assert (x ∈ take (S (mi_cpu_count info)) cpus') as Hin.
    { apply (list_elem_of_lookup_2 _ i). by rewrite lookup_take_lt. }
    rewrite Hp in Hin. apply elem_of_app in Hin as [Hin|Hin%list_elem_of_singleton]; [|by subst x; rewrite Ec in Hbx].
    apply list_elem_of_lookup in Hin as [j Hj]. apply lookup_take_Some in Hj as [Hj Hjlt].
    rewrite Hn by (done || lia). by eapply K2.
  - unfold push_cpu_bsp_first. rewrite (proj2 (Nat.leb_le _ _)) by lia. by constructor.
Qed.

(** ** The walk stays inside the table *)

Lemma copy_entry_at mem n : forall p bs, table_at mem p bs -> (n <= length bs)%nat -> copy_entry mem p n = Done (take n bs).
Proof.
  induction n as [|n IH]; intros p bs H Hn; [done|]. destruct bs as [|b bs]; [cbn in Hn; lia|]. pose proof (ta_range _ _ _ H) as Hr. cbn in Hr. cbn [copy_entry].
  pose proof (read_u8_at mem p _ 0 b H eq_refl) as E. rewrite Z.add_0_r, wrap64_small in E by (unfold is_u64; lia). rewrite E. cbn.
  change (b :: bs) with ([b] ++ bs) in H. apply table_at_app in H as [_ H]. rewrite wrap64_small by (unfold is_u64; lia).
  rewrite (IH (p + 1) bs H) by (cbn in Hn; lia). done.
Qed.

(** The entry parsers, on the bytes of the entry. *)
Definition lapic_of (b : list Z) : option CpuEntry :=
  if cpu_flags_usable (of_le_bytes (take 4 (drop 4 b))) then Some {| ce_acpi_uid := byte_at b 2; ce_apic_id := byte_at b 3; ce_is_bsp := false |} else None.

Definition x2apic_of (b : list Z) : option CpuEntry :=
  if cpu_flags_usable (of_le_bytes (take 4 (drop 8 b))) then
    Some {| ce_acpi_uid := of_le_bytes (take 4 (drop 12 b)); ce_apic_id := of_le_bytes (take 4 (drop 4 b)); ce_is_bsp := false |} else None.

Lemma read_u8_byte mem p bs (o : nat) : table_at mem p bs -> (o < length bs)%nat -> read_u8 mem (wrap64 (p + Z.of_nat o)) = Done (byte_at bs o).
Proof. intros H Ho. destruct (lookup_lt_is_Some_2 bs o Ho) as [b Hb]. rewrite (read_u8_at _ _ _ _ _ H Hb). unfold byte_at. by rewrite Hb. Qed.

Lemma parse_lapic_at mem p bs : table_at mem p bs -> (8 <= length bs)%nat -> parse_lapic_entry mem p = Done (lapic_of bs).
Proof.
  intros H Hl. unfold parse_lapic_entry, read_u32, lapic_of. change (p + 4) with (p + Z.of_nat 4). rewrite (read_le_at mem 4 p bs 4 H) by lia. cbn.
  destruct (cpu_flags_usable _); [|done]. cbn. change (p + 2) with (p + Z.of_nat 2). change (p + 3) with (p + Z.of_nat 3).
  rewrite !(read_u8_byte mem p bs) by (done || lia). done.
Qed.

Lemma parse_x2apic_at mem p bs : table_at mem p bs -> (16 <= length bs)%nat -> parse_x2apic_entry mem p = Done (x2apic_of bs).
Proof.
  intros H Hl. unfold parse_x2apic_entry, read_u32, x2apic_of. change (p + 8) with (p + Z.of_nat 8). change (p + 12) with (p + Z.of_nat 12).
  change (p + 4) with (p + Z.of_nat 4). rewrite (read_le_at mem 4 p bs 8 H), (read_le_at mem 4 p bs 12 H), (read_le_at mem 4 p bs 4 H) by lia. cbn.
  destruct (cpu_flags_usable _); done.
Qed.

(** One entry, on its bytes. *)
Definition entry_of (bsp : Z) (b : list Z) (info : MadtInfo) : MadtInfo :=
  let typ := byte_at b 0 in
  let len := Z.of_nat (length b) in
  if (typ =? 0) && (8 <=? len) then add_cpu info bsp (lapic_of b)
  else if (typ =? 9) && (16 <=? len) then add_cpu info bsp (x2apic_of b)
  else if (typ =? 1) && (12 <=? len) then
    {| mi_cpus := mi_cpus info; mi_cpu_count := mi_cpu_count info; mi_ioapics := IoApicList_push (mi_ioapics info) (ioapic_from_bytes b); mi_isos := mi_isos info |}
  else if (typ =? 2) && (10 <=? len) then
    {| mi_cpus := mi_cpus info; mi_cpu_count := mi_cpu_count info; mi_ioapics := mi_ioapics info; mi_isos := IsoList_push (mi_isos info) (iso_from_bytes b) |}
  else info.

Lemma byte_at_take b n i : (i < n)%nat -> byte_at (take n b) i = byte_at b i.
Proof. intros Hi. unfold byte_at. by rewrite lookup_take_lt. Qed.

Lemma madt_entry_at mem bsp p b info : table_at mem p b -> madt_entry mem bsp (byte_at b 0) (Z.of_nat (length b)) p info = Done (entry_of bsp b info).
Proof.
  intros H. unfold madt_entry, entry_of. destruct (Z.eqb_spec (byte_at b 0) 0) as [->|]; cbn [andb].
  { destruct (Z.leb_spec 8 (Z.of_nat (length b))); [|done]. by rewrite (parse_lapic_at mem p b) by (done || lia). }
  destruct (Z.eqb_spec (byte_at b 0) 9) as [->|]; cbn [andb].
  { destruct (Z.leb_spec 16 (Z.of_nat (length b))); [|done]. by rewrite (parse_x2apic_at mem p b) by (done || lia). }
  destruct (Z.eqb_spec (byte_at b 0) 1) as [->|]; cbn [andb].
  { destruct (Z.leb_spec 12 (Z.of_nat (length b))); [|done]. unfold parse_ioapic_entry. rewrite (copy_entry_at mem 12 p b) by (done || lia). cbn.
    do 3 f_equal. unfold ioapic_from_bytes. by rewrite !byte_at_take by lia. }
  destruct (Z.eqb_spec (byte_at b 0) 2) as [_|]; cbn [andb]; [|done]. destruct (Z.leb_spec 10 (Z.of_nat (length b))); [|done]. unfold parse_iso_entry.
  rewrite (copy_entry_at mem 10 p b) by (done || lia). cbn. do 3 f_equal. unfold iso_from_bytes. by rewrite !byte_at_take by lia.
Qed.

Lemma entry_of_ok bsp b info : info_ok info -> info_ok (entry_of bsp b info).
Proof.
  intros H. unfold entry_of. pose proof (fun o => add_cpu_ok info bsp o H) as Ha. destruct H as [K1 K2 K3 K4].
  repeat (case_match; [try done; constructor; cbn; try done; by apply list_push_ok|]). by constructor.
Qed.

(** The entries of a table body: records of a type, a length and a payload, up to the
    first one that does not fit. *)
Fixpoint records (fuel : nat) (bs : list Z) : list (list Z) :=
  match fuel with
  | O => []
  | S fuel' =>
      match bs with
      | _ :: len :: _ =>
          if (len <? 2) || (Z.of_nat (length bs) <? len) then []
          else take (Z.to_nat len) bs :: records fuel' (drop (Z.to_nat len) bs)
      | _ => []
      end
  end.

(** What the walk builds from a table body. *)
Definition walk (bsp : Z) (bs : list Z) (info : MadtInfo) : MadtInfo := foldl (fun i b => entry_of bsp b i) info (records (length bs) bs).

Lemma records_fuel n : forall m bs, (length bs <= n)%nat -> (length bs <= m)%nat -> records n bs = records m bs.
Proof.
  induction n as [|n IH]; intros [|m] bs Hn Hm; cbn; try done; [destruct bs; cbn in *; (done || lia)..|].
  destruct bs as [|t [|len bs]]; [done..|]. destruct (Z.ltb_spec len 2); [done|]. cbn [orb]. case_match; [done|]. f_equal. apply IH; rewrite length_drop; cbn in *; lia.
Qed.

Lemma records_cons bs t len rest : bs = t :: len :: rest -> 2 <= len <= Z.of_nat (length bs) ->
  records (length bs) bs = take (Z.to_nat len) bs :: records (length (drop (Z.to_nat len) bs)) (drop (Z.to_nat len) bs).
Proof.
  intros -> Hl. destruct (length (t :: len :: rest)) as [|n] eqn:E; [done|]. cbn [records]. rewrite E.
  rewrite (proj2 (Z.ltb_ge len 2)), (proj2 (Z.ltb_ge _ _)) by lia. cbn [orb]. f_equal. apply records_fuel; rewrite length_drop; lia.
Qed.

Lemma walk_step bsp bs t len rest info : bs = t :: len :: rest -> 2 <= len <= Z.of_nat (length bs) ->
  walk bsp bs info = walk bsp (drop (Z.to_nat len) bs) (entry_of bsp (take (Z.to_nat len) bs) info).
Proof. intros E Hl. unfold walk. by rewrite (records_cons bs t len rest E Hl). Qed.

Lemma walk_stop bsp bs info : match bs with _ :: len :: _ => len < 2 \/ Z.of_nat (length bs) < len | _ => True end -> walk bsp bs info = info.
Proof.
  intros H. unfold walk. destruct bs as [|t [|len bs]]; [done..|]. cbn [length records].
  change (Z.of_nat (S (S (length bs)))) with (Z.of_nat (length (t :: len :: bs))).
  assert ((len <? 2) || (Z.of_nat (length (t :: len :: bs)) <? len) = true) as -> by lia. done.
Qed.

(** The loop of [parse_madt] ends, reads nothing outside the table and builds what its
    entries say. *)
Lemma madt_loop mem bsp p hdr body info : table_at mem p (hdr ++ body) -> length hdr = 44%nat ->
  iterate (madt_step mem bsp p (44 + Z.of_nat (length body))) 64 (info, MADT_ENTRY_START) = inr (Done (walk bsp body info)).
Proof.
  intros H Hh. apply table_at_app in H as [_ H]. rewrite Hh in H. change (Z.of_nat 44) with 44 in H. pose proof (ta_range _ _ _ H) as Hr.
  set (I := fun s : MadtInfo * Z => exists pre rest, body = pre ++ rest /\ snd s = 44 + Z.of_nat (length pre) /\ walk bsp rest (fst s) = walk bsp body info).
  destruct (iterate_total (madt_step mem bsp p (44 + Z.of_nat (length body))) I (fun r => r = Done (walk bsp body info))
    (fun s => 44 + Z.of_nat (length body) - snd s) 64 (info, MADT_ENTRY_START)) as (r & E & ->); [| |change MADT_ENTRY_START with 44; cbn [snd]; lia|exact E].
  - intros [i off] (pre & rest & -> & Hoff & Hw). cbn [fst snd] in *. subst off. rewrite length_app in *. apply table_at_app in H as [_ H].
    cbn [madt_step]. destruct (Z.leb_spec (44 + Z.of_nat (length pre) + 2) (44 + Z.of_nat (length pre + length rest))) as [Hle|Hgt].
    2:{ rewrite walk_stop in Hw; [by rewrite Hw|]. destruct rest as [|? [|]]; [done..|cbn in Hgt; lia]. }
    destruct rest as [|t [|len rest]]; [cbn in Hle; lia..|]. set (bs := t :: len :: rest) in *. unfold madt_body.
    replace (p + (44 + Z.of_nat (length pre))) with (p + 44 + Z.of_nat (length pre) + Z.of_nat 0) by lia.
    rewrite (read_u8_at mem _ bs 0 t H eq_refl). rewrite Z.add_0_r, (wrap64_small (p + 44 + _)) by (unfold is_u64; lia).
    change (p + 44 + Z.of_nat (length pre) + 1) with (p + 44 + Z.of_nat (length pre) + Z.of_nat 1). rewrite (read_u8_at mem _ bs 1 len H eq_refl). cbn [mbind outcome_bind].
    pose proof (ta_byte _ _ _ H) as Hby. unfold bs in Hby. apply Forall_cons in Hby as [_ Hby]. apply Forall_cons in Hby as [Hlen _].
    destruct ((len <? 2) || (44 + Z.of_nat (length pre + length bs) <? 44 + Z.of_nat (length pre) + len)) eqn:Ebr.
    + rewrite walk_stop in Hw; [by rewrite Hw|]. change (len < 2 \/ Z.of_nat (length bs) < len). apply orb_true_iff in Ebr as [Ebr|Ebr]; apply Z.ltb_lt in Ebr; lia.
    + apply orb_false_iff in Ebr as [Eb1%Z.ltb_ge Eb2%Z.ltb_ge]. rewrite (walk_step bsp bs t len rest) in Hw by (done || lia). rewrite <- (take_drop (Z.to_nat len) bs) in H. apply table_at_app in H as [H _].
      pose proof (madt_entry_at mem bsp _ _ i H) as Eme. assert (byte_at bs 0 = t) as Et by done. clearbody bs.
      rewrite length_take, Nat.min_l, Z2Nat.id, byte_at_take, Et in Eme by lia. rewrite Eme. cbn [mbind outcome_bind]. split; [|cbn; lia].
      exists (pre ++ take (Z.to_nat len) bs), (drop (Z.to_nat len) bs). rewrite <- app_assoc, take_drop, length_app, length_take. cbn [fst snd]. split_and!; [done|lia|done].
  - exists [], body. done.
Qed.

(** ** The search for the table *)

(** A pointer the search passes over. *)
Definition other_table (mem : memory) (q : Z) : Prop :=
  q = 0 \/ exists sig, length sig = 4%nat /\ sig <> SIG_APIC /\ table_at mem q sig.

Definition ptr_size (xsdt : bool) : nat := if xsdt then 8 else 4.

(** A root table with the pointers [ptrs]. *)
Definition sdt_at (mem : memory) (p : Z) (xsdt : bool) (ptrs : list Z) : Prop :=
  exists hdr, length hdr = 28%nat /\ 36 + Z.of_nat (ptr_size xsdt * length ptrs) < 2 ^ 32 /\
    Forall (fun q => 0 <= q < 256 ^ Z.of_nat (ptr_size xsdt)) ptrs /\
    table_at mem p (((if xsdt then SIG_XSDT else SIG_RSDT) ++ to_le_bytes 4 (36 + Z.of_nat (ptr_size xsdt * length ptrs)) ++ hdr) ++
                    concat (to_le_bytes (ptr_size xsdt) <$> ptrs)).

(** The first pointer to an interrupt controller table. *)
Definition lists (mem : memory) (ptrs : list Z) (madt : Z) : Prop :=
  exists pre post, ptrs = pre ++ madt :: post /\ Forall (other_table mem) pre /\ madt <> 0 /\ table_at mem madt SIG_APIC.

Lemma concat_le_length n (ptrs : list Z) : length (concat (to_le_bytes n <$> ptrs)) = (n * length ptrs)%nat.
Proof. induction ptrs as [|q ptrs IH]; cbn; [lia|]. rewrite length_app, to_le_bytes_length, IH. lia. Qed.

(** The pointer at index [i]. *)
Lemma sdt_pointer mem p xsdt hdr ptrs i q : table_at mem p (hdr ++ concat (to_le_bytes (ptr_size xsdt) <$> ptrs)) -> length hdr = 36%nat ->
  Forall (fun q => 0 <= q < 256 ^ Z.of_nat (ptr_size xsdt)) ptrs -> ptrs !! i = Some q ->
  (if xsdt then read_u64 mem (wrap64 (p + SDT_HEADER_LEN + Z.of_nat i * 8)) else read_u32 mem (wrap64 (p + SDT_HEADER_LEN + Z.of_nat i * 4))) = Done q.
Proof.
  intros H Hh Hq Hi. rewrite <- (take_drop_middle ptrs i q Hi), fmap_app, fmap_cons, concat_app in H. cbn [concat] in H.
  apply table_at_app in H as [_ H]. apply table_at_app in H as [_ H]. apply table_at_app in H as [H _].
  rewrite Hh, concat_le_length, length_take, Nat.min_l in H by (apply lookup_lt_Some in Hi; lia).
  pose proof (Forall_lookup_1 _ _ _ _ Hq Hi) as Hr. unfold read_u64, read_u32, SDT_HEADER_LEN. destruct xsdt; cbn [ptr_size] in *.
  - replace (p + 36 + Z.of_nat i * 8) with (p + Z.of_nat 36 + Z.of_nat (8 * i) + Z.of_nat 0) by lia. rewrite (read_le_at _ 8 _ _ 0 H) by (rewrite ?to_le_bytes_length; lia).
    rewrite drop_0, take_ge by (by rewrite to_le_bytes_length). by rewrite of_to_le_bytes.
  - replace (p + 36 + Z.of_nat i * 4) with (p + Z.of_nat 36 + Z.of_nat (4 * i) + Z.of_nat 0) by lia. rewrite (read_le_at _ 4 _ _ 0 H) by (rewrite ?to_le_bytes_length; lia).
    rewrite drop_0, take_ge by (by rewrite to_le_bytes_length). by rewrite of_to_le_bytes.
Qed.

Lemma other_table_signature mem q : other_table mem q -> (q =? 0) = true \/ sdt_signature_is mem q SIG_APIC = Done false.
Proof.
  intros [->|(sig & Hl & Hne & H)]; [by left|right]. unfold sdt_signature_is. rewrite (signature_at_spec mem _ q sig H) by done. by rewrite bool_decide_eq_false_2.
Qed.

(** The step at an index the search passes over. *)
Lemma sdt_step_other mem p xsdt hdr ptrs i q : table_at mem p (hdr ++ concat (to_le_bytes (ptr_size xsdt) <$> ptrs)) -> length hdr = 36%nat ->
  Forall (fun q => 0 <= q < 256 ^ Z.of_nat (ptr_size xsdt)) ptrs -> ptrs !! i = Some q -> other_table mem q ->
  sdt_step mem p xsdt (Z.of_nat (length ptrs)) (Z.of_nat i) = inl (Z.of_nat i + 1).
Proof.
  intros H Hh Hq Hi Ho. unfold sdt_step. pose proof (lookup_lt_Some _ _ _ Hi). rewrite (proj2 (Z.ltb_lt _ _)) by lia.
  pose proof (sdt_pointer mem p xsdt hdr ptrs i q H Hh Hq Hi) as E. destruct (other_table_signature mem q Ho) as [Hz|Hs]; destruct xsdt; rewrite E;
    rewrite ?Hz; try done; destruct (q =? 0); rewrite ?Hs; done.
Qed.

Lemma sdt_loop mem p xsdt hdr ptrs : table_at mem p (hdr ++ concat (to_le_bytes (ptr_size xsdt) <$> ptrs)) -> length hdr = 36%nat ->
  Forall (fun q => 0 <= q < 256 ^ Z.of_nat (ptr_size xsdt)) ptrs ->
  (Forall (other_table mem) ptrs -> iterate (sdt_step mem p xsdt (Z.of_nat (length ptrs))) 64 0 = inr (Done None)) /\
  (forall madt, lists mem ptrs madt -> iterate (sdt_step mem p xsdt (Z.of_nat (length ptrs))) 64 0 = inr (Done (Some madt))).
Proof.
  intros H Hh Hq. pose proof (ta_range _ _ _ H) as Hr. rewrite length_app, concat_le_length in Hr.
  assert (Z.of_nat (length ptrs) < 2 ^ 64) as Hn by (destruct xsdt; cbn [ptr_size] in Hr; lia).
  assert (forall n r, (n <= length ptrs)%nat -> (forall i q, (i < n)%nat -> ptrs !! i = Some q -> other_table mem q) ->
    sdt_step mem p xsdt (Z.of_nat (length ptrs)) (Z.of_nat n) = inr r -> iterate (sdt_step mem p xsdt (Z.of_nat (length ptrs))) 64 0 = inr r) as Hgen.
  { intros n r Hle Hoth Hst. destruct (iterate_total (sdt_step mem p xsdt (Z.of_nat (length ptrs))) (fun i => exists k, i = Z.of_nat k /\ (k <= n)%nat)
      (fun r' => r' = r) (fun i => Z.of_nat n - i) 64 0) as (r' & E & ->); [|by exists O; split; [|lia]|cbn; lia|exact E].
    intros i (k & -> & Hk). destruct (decide (k = n)) as [->|Hne]; [by rewrite Hst|].
    destruct (lookup_lt_is_Some_2 ptrs k) as [q Hqk]; [lia|]. rewrite (sdt_step_other mem p xsdt hdr ptrs k q) by (try done; apply (Hoth k q); (done || lia)).
    split; [|lia]. exists (S k). lia. }
  split.
  - intros Hall. apply (Hgen (length ptrs)); [done| |]. { intros i q _ Hi. exact (Forall_lookup_1 _ _ _ _ Hall Hi). }
    unfold sdt_step. by rewrite Z.ltb_irrefl.
  - intros madt (pre & post & Ep & Hpre & Hnz & Hsig). apply (Hgen (length pre)).
    + rewrite Ep, length_app. lia.
    + intros i q Hi Hqi. rewrite Ep, lookup_app_l in Hqi by done. exact (Forall_lookup_1 _ _ _ _ Hpre Hqi).
    + assert (ptrs !! length pre = Some madt) as Hi by (rewrite Ep; by apply list_lookup_middle). pose proof (lookup_lt_Some _ _ _ Hi).
      pose proof (sdt_pointer mem p xsdt hdr ptrs (length pre) madt H Hh Hq Hi) as E. unfold sdt_step. rewrite (proj2 (Z.ltb_lt _ _)) by lia.
      unfold sdt_signature_is. destruct xsdt; rewrite E, (proj2 (Z.eqb_neq madt 0)), (signature_at_spec mem _ madt _ Hsig) by done; done.
Qed.

Lemma find_table_spec mem p xsdt ptrs : sdt_at mem p xsdt ptrs ->
  (Forall (other_table mem) ptrs -> find_table_in_sdt mem p xsdt = Done None) /\
  (forall madt, lists mem ptrs madt -> find_table_in_sdt mem p xsdt = Done (Some madt)).
Proof.
  intros (hdr & Hh & Hlt & Hq & H). set (len := 36 + Z.of_nat (ptr_size xsdt * length ptrs)) in *.
  set (pre := (if xsdt then SIG_XSDT else SIG_RSDT) ++ to_le_bytes 4 len ++ hdr) in *.
  assert (length pre = 36%nat) as Hpre by (unfold pre; rewrite !length_app, Hh; by destruct xsdt).
  destruct (sdt_loop mem p xsdt pre ptrs H Hpre Hq) as [L1 L2]. apply table_at_app in H as [H _].
  assert (find_table_in_sdt mem p xsdt = loop_result (iterate (sdt_step mem p xsdt (Z.of_nat (length ptrs))) 64 0)) as E.
  { unfold find_table_in_sdt, sdt_signature_is. unfold pre in H. apply table_at_app in H as [Hs H].
    rewrite (signature_at_spec mem _ p _ Hs) by (by destruct xsdt). rewrite bool_decide_eq_true_2 by done. run. cbn [negb]. unfold read_u32.
    replace (length (if xsdt then SIG_XSDT else SIG_RSDT)) with 4%nat in H by (by destruct xsdt).
    replace (p + 4) with (p + Z.of_nat 4 + Z.of_nat 0) by lia. rewrite (read_le_at mem 4 _ _ 0 H) by (rewrite ?length_app, ?to_le_bytes_length; lia).
    rewrite drop_0, take_app_le, take_ge by (by rewrite to_le_bytes_length). run. rewrite of_to_le_bytes by (unfold len; split; [lia|exact Hlt]).
    unfold SDT_HEADER_LEN. rewrite (proj2 (Z.ltb_ge _ _)) by lia.
    assert ((len - 36) / (if xsdt then 8 else 4) = Z.of_nat (length ptrs)) as -> by (unfold len; clear; destruct xsdt; cbn [ptr_size]; Z.div_mod_to_equations; lia).
    reflexivity. }
  rewrite E. split; [intros Ho; by rewrite L1|intros madt Hm; by rewrite (L2 madt)].
Qed.

(** The root pointer: the old structure, and its extension from revision 2 on. *)
Definition rsdp_at (mem : memory) (p rev rsdt : Z) (ext : list Z) : Prop :=
  exists misc, length misc = 7%nat /\ 0 <= rsdt < 2 ^ 32 /\ table_at mem p (((RSDP_SIGNATURE ++ misc) ++ [rev]) ++ to_le_bytes 4 rsdt ++ ext).

Definition rsdp_ext (len xsdt : Z) : list Z := to_le_bytes 4 len ++ to_le_bytes 8 xsdt.

(** Where firmware may put the interrupt controller table. *)
Inductive finds_madt (mem : memory) (rsdp madt : Z) : Prop :=
| via_rsdt rev rsdt ext ptrs :
    rsdp_at mem rsdp rev rsdt ext -> rev < 2 -> rsdt <> 0 -> sdt_at mem rsdt false ptrs -> lists mem ptrs madt -> finds_madt mem rsdp madt
| via_xsdt rev rsdt len xsdt ptrs :
    rsdp_at mem rsdp rev rsdt (rsdp_ext len xsdt) -> 2 <= rev -> 36 <= len < 2 ^ 32 -> 0 < xsdt < 2 ^ 64 ->
    sdt_at mem xsdt true ptrs -> lists mem ptrs madt -> finds_madt mem rsdp madt
| via_both rev rsdt len xsdt ptrs ptrs' :
    rsdp_at mem rsdp rev rsdt (rsdp_ext len xsdt) -> 2 <= rev -> 36 <= len < 2 ^ 32 -> 0 < xsdt < 2 ^ 64 ->
    sdt_at mem xsdt true ptrs -> Forall (other_table mem) ptrs -> rsdt <> 0 -> sdt_at mem rsdt false ptrs' -> lists mem ptrs' madt -> finds_madt mem rsdp madt.

Lemma rsdp_fields mem p rev rsdt ext : rsdp_at mem p rev rsdt ext ->
  rsdp_signature_valid mem p = Done true /\ read_u8 mem (wrap64 (p + 15)) = Done rev /\ read_u32 mem (wrap64 (p + 16)) = Done rsdt /\ table_at mem (p + 20) ext.
Proof.
  intros (misc & Hm & Hr & H). apply table_at_app in H as [H1 H2]. apply table_at_app in H1 as [H0 H1]. 
  assert (length (RSDP_SIGNATURE ++ misc) = 15%nat) as L1 by (rewrite length_app, Hm; done).
  assert (length ((RSDP_SIGNATURE ++ misc) ++ [rev]) = 16%nat) as L2 by (rewrite length_app, L1; done).
  rewrite L1 in H1. rewrite L2 in H2. change (Z.of_nat 15) with 15 in H1. change (Z.of_nat 16) with 16 in H2. split_and!.
  - apply table_at_app in H0 as [H0 _]. unfold rsdp_signature_valid. rewrite (signature_at_spec mem _ p _ H0) by done. by rewrite bool_decide_eq_true_2.
  - replace (p + 15) with (p + 15 + Z.of_nat 0) by lia. exact (read_u8_at mem _ _ 0 rev H1 eq_refl).
  - unfold read_u32. replace (p + 16) with (p + 16 + Z.of_nat 0) by lia. rewrite (read_le_at mem 4 _ _ 0 H2) by (rewrite ?length_app, ?to_le_bytes_length; lia).
    rewrite drop_0, take_app_le, take_ge by (by rewrite to_le_bytes_length). by rewrite of_to_le_bytes.
  - apply table_at_app in H2 as [_ H2]. rewrite to_le_bytes_length in H2. by replace (p + 20) with (p + 16 + Z.of_nat 4) by lia.
Qed.

Lemma rsdp_ext_fields mem p len xsdt : table_at mem (p + 20) (rsdp_ext len xsdt) -> 0 <= len < 2 ^ 32 -> 0 <= xsdt < 2 ^ 64 ->
  read_u32 mem (wrap64 (p + 20)) = Done len /\ read_u64 mem (wrap64 (p + 24)) = Done xsdt.
Proof.
  intros H Hl Hx. unfold read_u32, read_u64, rsdp_ext in *. split.
  - replace (p + 20) with (p + 20 + Z.of_nat 0) by lia. rewrite (read_le_at mem 4 _ _ 0 H) by (rewrite ?length_app, ?to_le_bytes_length; lia).
    rewrite drop_0, take_app_le, take_ge by (by rewrite to_le_bytes_length). by rewrite of_to_le_bytes.
  - replace (p + 24) with (p + 20 + Z.of_nat 4) by lia. rewrite (read_le_at mem 8 _ _ 4 H) by (rewrite ?length_app, ?to_le_bytes_length; lia).
    rewrite drop_app_ge, to_le_bytes_length, Nat.sub_diag, drop_0, take_ge by (by rewrite to_le_bytes_length). by rewrite of_to_le_bytes.
Qed.

Lemma find_madt_spec mem rsdp madt : finds_madt mem rsdp madt -> rsdp_signature_valid mem rsdp = Done true /\ find_madt mem rsdp = Done (Some madt).
Proof.
  intros [rev rsdt ext ptrs Hr Hv Hnz Hs Hl|rev rsdt len xsdt ptrs Hr Hv Hlen Hx Hs Hl|rev rsdt len xsdt ptrs ptrs' Hr Hv Hlen Hx Hs Ho Hnz Hs' Hl].
  all: destruct (rsdp_fields _ _ _ _ _ Hr) as (F1 & F2 & F3 & F4); split; [done|]; unfold find_madt; rewrite F2, ?F3; run.
  - rewrite (proj2 (Z.leb_gt _ _)) by done. run. cbn [Z.eqb]. run. rewrite (proj2 (Z.eqb_neq _ _)) by done. by apply (find_table_spec mem rsdt false ptrs Hs).
  - destruct (rsdp_ext_fields _ _ _ _ F4) as [E1 E2]; [lia..|]. rewrite (proj2 (Z.leb_le _ _)) by done. rewrite E1. run. rewrite (proj2 (Z.leb_le _ _)), E2 by lia. run.
    rewrite (proj2 (Z.eqb_neq xsdt 0)) by lia. rewrite (proj2 (find_table_spec mem xsdt true ptrs Hs) madt Hl). done.
  - destruct (rsdp_ext_fields _ _ _ _ F4) as [E1 E2]; [lia..|]. rewrite (proj2 (Z.leb_le _ _)) by done. rewrite E1. run. rewrite (proj2 (Z.leb_le _ _)), E2 by lia. run.
    rewrite (proj2 (Z.eqb_neq xsdt 0)) by lia. rewrite (proj1 (find_table_spec mem xsdt true ptrs Hs) Ho). run. rewrite (proj2 (Z.eqb_neq _ _)) by done.
    by apply (find_table_spec mem rsdt false ptrs' Hs').
Qed.

(** The interrupt controller table with the body [body]. *)
Definition madt_at (mem : memory) (p : Z) (body : list Z) : Prop :=
  exists hdr, length hdr = 36%nat /\ 44 + Z.of_nat (length body) < 2 ^ 32 /\
    table_at mem p ((SIG_APIC ++ to_le_bytes 4 (44 + Z.of_nat (length body)) ++ hdr) ++ body).

Lemma parse_madt_walk mem bsp rsdp madt body : finds_madt mem rsdp madt -> madt_at mem madt body ->
  parse_madt mem bsp rsdp = Done (walk bsp body MadtInfo_new).
Proof.
  intros Hf (hdr & Hh & Hlt & H). destruct (find_madt_spec _ _ _ Hf) as [E1 E2]. unfold parse_madt. rewrite E1. run. cbn [negb]. rewrite E2. run. unfold read_u32.
  pose proof H as H'. apply table_at_app in H' as [H' _]. apply table_at_app in H' as [_ H']. change (Z.of_nat (length SIG_APIC)) with 4 in H'.
  replace (madt + 4) with (madt + 4 + Z.of_nat 0) by lia. rewrite (read_le_at mem 4 _ _ 0 H') by (rewrite ?length_app, ?to_le_bytes_length; lia).
  rewrite drop_0, take_app_le, take_ge by (by rewrite to_le_bytes_length). run. rewrite of_to_le_bytes by (split; [lia|exact Hlt]).
  rewrite (proj2 (Z.ltb_ge _ _)) by (unfold MADT_ENTRY_START, SDT_HEADER_LEN; lia).
  rewrite (madt_loop mem bsp madt _ body MadtInfo_new H); [done|]. rewrite !length_app, to_le_bytes_length, Hh. done.
Qed.
