(* ===== verification/Firmware.v ===== *)
(** * From the firmware tables to the keyboard interrupt

    The entries of an interrupt controller table as firmware writes them, what
    [parse_madt] (Acpi.v) makes of any list of them, and the boot path of
    kernel/src/main.rs that routes the keyboard interrupt from the parsed table through
    the I/O APIC (IoApic.v). *)

From Stdlib Require Import ZArith Lia.
From stdpp Require Import prelude gmap list.
From S2P Require Import Prelude IoApic Acpi.

Local Open Scope Z_scope.

(** ** Entries *)

Inductive madt_kind :=
| MLapic (uid id flags : Z)
| MX2apic (id flags uid : Z)
| MIoApic (id addr gsi_base : Z)
| MIso (irq gsi flags : Z)
| MOther (typ : Z).

(** An entry, perhaps with bytes after the fields the kernel knows. *)
Record madt_item := { it_kind : madt_kind; it_pad : list Z }.

Definition kind_type (k : madt_kind) : Z :=
  match k with MLapic _ _ _ => 0 | MX2apic _ _ _ => 9 | MIoApic _ _ _ => 1 | MIso _ _ _ => 2 | MOther t => t end.

Definition kind_fields (k : madt_kind) : list Z :=
  match k with
  | MLapic uid id flags => [uid; id] ++ to_le_bytes 4 flags
  | MX2apic id flags uid => [0; 0] ++ to_le_bytes 4 id ++ to_le_bytes 4 flags ++ to_le_bytes 4 uid
  | MIoApic id addr gsi_base => [id; 0] ++ to_le_bytes 4 addr ++ to_le_bytes 4 gsi_base
  | MIso irq gsi flags => [0; irq] ++ to_le_bytes 4 gsi ++ to_le_bytes 2 flags
  | MOther _ => []
  end.

Definition item_payload (it : madt_item) : list Z := kind_fields (it_kind it) ++ it_pad it.

Definition encode_item (it : madt_item) : list Z := kind_type (it_kind it) :: 2 + Z.of_nat (length (item_payload it)) :: item_payload it.

Definition u32 (z : Z) : Prop := 0 <= z < 2 ^ 32.

(** Fields in range; an entry of another type is one the kernel does not know, or a
    known one that is too short. *)
Definition item_ok (it : madt_item) : Prop :=
  (length (item_payload it) < 254)%nat /\
  match it_kind it with
  | MLapic _ _ flags => u32 flags
  | MX2apic id flags uid => u32 id /\ u32 flags /\ u32 uid
  | MIoApic _ addr gsi_base => u32 addr /\ u32 gsi_base
  | MIso _ gsi flags => u32 gsi /\ 0 <= flags < 2 ^ 16
  | MOther t => let len := 2 + Z.of_nat (length (it_pad it)) in
      ~ (t = 0 /\ 8 <= len) /\ ~ (t = 9 /\ 16 <= len) /\ ~ (t = 1 /\ 12 <= len) /\ ~ (t = 2 /\ 10 <= len)
  end.

(** What each entry says. *)
Definition item_cpu (bsp : Z) (it : madt_item) : option CpuEntry :=
  match it_kind it with
  | MLapic uid id flags | MX2apic id flags uid =>
      if cpu_flags_usable flags then Some {| ce_acpi_uid := uid; ce_apic_id := id; ce_is_bsp := id =? bsp |} else None
  | _ => None
  end.

Definition item_ioapic (it : madt_item) : option IoApicInfo :=
  match it_kind it with MIoApic id addr gsi_base => Some {| ioa_id := id; ioa_phys_addr := addr; ioa_gsi_base := gsi_base |} | _ => None end.

Definition item_iso (it : madt_item) : option IsoInfo :=
  match it_kind it with MIso irq gsi flags => Some {| iso_isa_irq := irq; iso_gsi := gsi; iso_flags := flags |} | _ => None end.

Definition push_opt {X} (cap : nat) (l : fixed_list X) (o : option X) : fixed_list X := match o with Some x => list_push cap l x | None => l end.

Definition item_add (bsp : Z) (info : MadtInfo) (it : madt_item) : MadtInfo :=
  let '(cpus, count) := match item_cpu bsp it with
    | Some cpu => push_cpu_bsp_first (mi_cpus info) (mi_cpu_count info) cpu
    | None => (mi_cpus info, mi_cpu_count info) end in
  {| mi_cpus := cpus; mi_cpu_count := count; mi_ioapics := push_opt MAX_IOAPICS (mi_ioapics info) (item_ioapic it);
     mi_isos := push_opt MAX_ISOS (mi_isos info) (item_iso it) |}.

Lemma take_le n v l : take n (to_le_bytes n v ++ l) = to_le_bytes n v.
Proof. rewrite take_app_le, take_ge by (by rewrite to_le_bytes_length). done. Qed.

Lemma info_eta (info : MadtInfo) :
  {| mi_cpus := mi_cpus info; mi_cpu_count := mi_cpu_count info; mi_ioapics := mi_ioapics info; mi_isos := mi_isos info |} = info.
Proof. by destruct info. Qed.

Lemma item_length it : Z.of_nat (length (encode_item it)) = 2 + Z.of_nat (length (kind_fields (it_kind it)) + length (it_pad it)).
Proof. unfold encode_item, item_payload. cbn [length]. rewrite length_app. lia. Qed.

Lemma entry_of_item bsp info it : item_ok it -> entry_of bsp (encode_item it) info = item_add bsp info it.
Proof.
  intros [_ Hk]. pose proof (item_length it) as Hl. unfold entry_of, item_add, item_cpu, item_ioapic, item_iso. change (byte_at (encode_item it) 0) with (kind_type (it_kind it)).
  rewrite Hl. clear Hl. destruct it as [k pad]. unfold encode_item, item_payload. cbn [it_kind it_pad] in *.
  destruct k as [uid id flags|id flags uid|id addr gb|irq gsi flags|t]; cbn [kind_type push_opt].
  - rewrite (proj2 (Z.leb_le 8 _)) by (cbn [kind_fields length app to_le_bytes]; lia). cbn [Z.eqb andb].
    assert (forall l, lapic_of (0 :: l :: kind_fields (MLapic uid id flags) ++ pad) =
      if cpu_flags_usable flags then Some {| ce_acpi_uid := uid; ce_apic_id := id; ce_is_bsp := false |} else None) as ->.
    { intros l. unfold lapic_of. change (drop 4 _) with (to_le_bytes 4 flags ++ pad). by rewrite take_le, of_to_le_bytes. }
    destruct (cpu_flags_usable flags); cbn [add_cpu ce_acpi_uid ce_apic_id]; [by destruct (push_cpu_bsp_first _ _ _)|by rewrite info_eta].
  - rewrite (proj2 (Z.leb_le 16 _)) by (cbn [kind_fields length app to_le_bytes]; lia). cbn [Z.eqb andb]. destruct Hk as (H1 & H2 & H3).
    assert (forall l, x2apic_of (9 :: l :: kind_fields (MX2apic id flags uid) ++ pad) =
      if cpu_flags_usable flags then Some {| ce_acpi_uid := uid; ce_apic_id := id; ce_is_bsp := false |} else None) as ->.
    { intros l. unfold x2apic_of. change (drop 4 _) with (to_le_bytes 4 id ++ to_le_bytes 4 flags ++ to_le_bytes 4 uid ++ pad).
      change (drop 8 _) with (to_le_bytes 4 flags ++ to_le_bytes 4 uid ++ pad). change (drop 12 _) with (to_le_bytes 4 uid ++ pad). by rewrite !take_le, !of_to_le_bytes. }
    destruct (cpu_flags_usable flags); cbn [add_cpu ce_acpi_uid ce_apic_id]; [by destruct (push_cpu_bsp_first _ _ _)|by rewrite info_eta].
  - rewrite (proj2 (Z.leb_le 12 _)) by (cbn [kind_fields length app to_le_bytes]; lia). cbn [Z.eqb andb]. destruct Hk as [H1 H2]. unfold IoApicList_push. do 2 f_equal.
    unfold ioapic_from_bytes. f_equal; [exact (of_to_le_bytes 4 addr H1)|exact (of_to_le_bytes 4 gb H2)].
  - rewrite (proj2 (Z.leb_le 10 _)) by (cbn [kind_fields length app to_le_bytes]; lia). cbn [Z.eqb andb]. destruct Hk as [H1 H2]. unfold IsoList_push. do 2 f_equal.
    unfold iso_from_bytes. f_equal; [exact (of_to_le_bytes 4 gsi H1)|exact (of_to_le_bytes 2 flags H2)].
  - destruct Hk as (H1 & H2 & H3 & H4). cbn [kind_fields length Nat.add].
    assert (forall a b, ~ (t = a /\ b <= 2 + Z.of_nat (length pad)) -> (t =? a) && (b <=? 2 + Z.of_nat (length pad)) = false) as Hf by lia.
    rewrite !Hf by done. by rewrite info_eta.
Qed.

Lemma walk_items bsp items : Forall item_ok items -> forall info,
  walk bsp (concat (encode_item <$> items)) info = foldl (item_add bsp) info items.
Proof.
  induction 1 as [|it items Hit _ IH]; intros info; [done|]. cbn [fmap list_fmap concat foldl].
  pose proof (item_length it) as Hl. destruct Hit as [Hlen Hk]. pose proof Hlen as Hlen'. unfold item_payload in Hlen'. rewrite length_app in Hlen'.
  rewrite (walk_step bsp _ (kind_type (it_kind it)) (2 + Z.of_nat (length (item_payload it))) (item_payload it ++ concat (encode_item <$> items))); [|done|].
  2:{ cbn. rewrite length_app. lia. }
  assert (Z.to_nat (2 + Z.of_nat (length (item_payload it))) = length (encode_item it)) as -> by (unfold encode_item; cbn [length]; lia).
  rewrite take_app_length, drop_app_length, entry_of_item by done. apply IH.
Qed.

Lemma take_take_snoc {X} n (l : list X) x : take n (take n l ++ [x]) = take n (l ++ [x]).
Proof.
  destruct (decide (length l < n)%nat) as [Hl|Hl]; [by rewrite (take_ge l) by lia|].
  rewrite !take_app_le by (rewrite ?length_take; lia). by rewrite take_take, Nat.min_id.
Qed.

Lemma push_opt_slice {X} cap (l : fixed_list X) done (o : option X) : list_ok cap l -> as_slice l = take cap done ->
  list_ok cap (push_opt cap l o) /\ as_slice (push_opt cap l o) = take cap (done ++ option_list o).
Proof.
  intros Hok E. destruct o as [x|]; cbn [push_opt option_list option_rect]; [|by rewrite app_nil_r]. destruct (list_push_ok cap l x Hok) as [H1 H2].
  split; [done|]. by rewrite H2, E, take_take_snoc.
Qed.

(** The walk after the entries [items]. *)
Record walked (bsp : Z) (items : list madt_item) (info : MadtInfo) : Prop := {
  wk_length : length (mi_cpus info) = MAX_CPUS;
  wk_count : mi_cpu_count info = Nat.min MAX_CPUS (length (omap (item_cpu bsp) items));
  wk_cpus : take (mi_cpu_count info) (mi_cpus info) ≡ₚ take MAX_CPUS (omap (item_cpu bsp) items);
  wk_bsp : forall c, c ∈ take MAX_CPUS (omap (item_cpu bsp) items) -> ce_is_bsp c = true ->
    exists c0, mi_cpus info !! O = Some c0 /\ ce_is_bsp c0 = true;
  wk_ioapics : list_ok MAX_IOAPICS (mi_ioapics info) /\ as_slice (mi_ioapics info) = take MAX_IOAPICS (omap item_ioapic items);
  wk_isos : list_ok MAX_ISOS (mi_isos info) /\ as_slice (mi_isos info) = take MAX_ISOS (omap item_iso items)
}.

Lemma omap_snoc {X Y} (f : X -> option Y) l x : omap f (l ++ [x]) = omap f l ++ option_list (f x).
Proof. rewrite omap_app. cbn. by destruct (f x). Qed.

Lemma item_add_walked bsp items it info : walked bsp items info -> walked bsp (items ++ [it]) (item_add bsp info it).
Proof.
  intros [W1 W2 W3 W4 [W5 W5'] [W6 W6']]. unfold item_add.
  pose proof (push_opt_slice MAX_IOAPICS _ _ (item_ioapic it) W5 W5') as Hio. pose proof (push_opt_slice MAX_ISOS _ _ (item_iso it) W6 W6') as His.
  destruct (item_cpu bsp it) as [cpu|] eqn:Ec.
  2:{ constructor; cbn [mi_cpus mi_cpu_count mi_ioapics mi_isos]; rewrite ?omap_snoc, ?Ec; cbn [option_list option_rect]; rewrite ?app_nil_r; done. }
  set (l := omap (item_cpu bsp) items) in *. destruct (decide (length l < MAX_CPUS)%nat) as [Hlt|Hge].
  - rewrite Nat.min_r in W2 by lia. rewrite (take_ge l) in W3, W4 by lia.
    destruct (push_cpu_spec (mi_cpus info) (mi_cpu_count info) cpu W1) as (cpus' & -> & P1 & P2 & P3 & P4); [lia|].
    constructor; cbn [mi_cpus mi_cpu_count mi_ioapics mi_isos]; rewrite ?omap_snoc, ?Ec; cbn [option_list option_rect]; fold l; try done.
    + rewrite length_app. cbn [length]. lia.
    + rewrite P2, W3, take_ge; [done|]. rewrite length_app. cbn. lia.
    + intros c Hc Hb. rewrite take_ge in Hc by (rewrite length_app; cbn; lia). destruct (ce_is_bsp cpu) eqn:Eb; [exists cpu; auto|].
      apply elem_of_app in Hc as [Hc|Hc%list_elem_of_singleton]; [|congruence]. rewrite P4; [by eapply W4|done|]. rewrite W2. destruct l; [by apply elem_of_nil in Hc|cbn; lia].
  - assert (MAX_CPUS <= length l)%nat as Hge' by lia. unfold push_cpu_bsp_first. rewrite W2, Nat.min_l, Nat.leb_refl by lia.
    constructor; cbn [mi_cpus mi_cpu_count mi_ioapics mi_isos]; rewrite ?omap_snoc, ?Ec; cbn [option_list option_rect]; fold l; try done.
    + rewrite length_app. cbn [length]. lia.
    + rewrite take_app_le by done. by rewrite W2, Nat.min_l in W3 by lia.
    + rewrite take_app_le by done. exact W4.
Qed.

Lemma walk_walked bsp items : walked bsp items (foldl (item_add bsp) MadtInfo_new items).
Proof.
  induction items as [|it items IH] using rev_ind; [|rewrite foldl_app; by apply item_add_walked].
  constructor; try done; [intros c Hc; by apply elem_of_nil in Hc|by split; [split; [done|cbn; lia]|]..].
Qed.

(** ** The parsed table *)

(** The firmware tables are read as written.  Wherever the old or the extended root
    table puts the interrupt controller table, and whatever its entries, known ones
    with any padding and unknown ones in any order, [parse_madt] reads no byte outside
    the tables, ends, and returns the first 64 usable processors, the boot processor
    first if it is one of them, the first 8 I/O APICs and the first 16 overrides. *)
Theorem madt_parsed mem bsp rsdp madt items :
  finds_madt mem rsdp madt -> madt_at mem madt (concat (encode_item <$> items)) -> Forall item_ok items ->
  exists info, parse_madt mem bsp rsdp = Done info /\
    take (mi_cpu_count info) (mi_cpus info) ≡ₚ take 64 (omap (item_cpu bsp) items) /\
    mi_cpu_count info = Nat.min 64 (length (omap (item_cpu bsp) items)) /\
    (forall c, c ∈ take 64 (omap (item_cpu bsp) items) -> ce_is_bsp c = true -> exists c0, mi_cpus info !! O = Some c0 /\ ce_is_bsp c0 = true) /\
    as_slice (mi_ioapics info) = take 8 (omap item_ioapic items) /\
    as_slice (mi_isos info) = take 16 (omap item_iso items).
Proof.
  intros Hf Hm Hit. exists (foldl (item_add bsp) MadtInfo_new items). rewrite (parse_madt_walk mem bsp rsdp madt _ Hf Hm), walk_items by done.
  destruct (walk_walked bsp items) as [W1 W2 W3 W4 [_ W5] [_ W6]]. done.
Qed.

(** ** The keyboard interrupt at boot *)

(** [parse_madt] and the routing in [main]. *)
Definition keyboard_boot (mem : memory) (m : gmap Z ioapic_dev) (bsp_apic_id rsdp_phys : Z) : outcome (bool * gmap Z ioapic_dev) :=
  madt ← parse_madt mem bsp_apic_id rsdp_phys;
  init_keyboard_irq_routing m bsp_apic_id (mi_ioapics madt) (mi_isos madt).

(** The interrupt the table wires the keyboard to: its number, polarity and trigger. *)
Definition keyboard_line (items : list madt_item) : Z * bool * bool :=
  match list_find (fun e => iso_isa_irq e = 1) (take 16 (omap item_iso items)) with
  | Some (_, iso) => (iso_gsi iso, Z.land (iso_flags iso) 3 =? 3, Z.land (Z.shiftr (iso_flags iso) 2) 3 =? 3)
  | None => (1, false, false)
  end.

Lemma resolve_keyboard isos items : as_slice isos = take 16 (omap item_iso items) -> resolve_isa_irq ISA_IRQ_KEYBOARD isos = keyboard_line items.
Proof.
  intros E. unfold resolve_isa_irq, IsoList_find, keyboard_line. rewrite E. change ISA_IRQ_KEYBOARD with 1.
  by destruct (list_find _ _) as [[i iso]|].
Qed.

Lemma keyboard_line_u32 items : Forall item_ok items -> u32 (fst (fst (keyboard_line items))).
Proof.
  intros Hit. unfold keyboard_line. destruct (list_find _ _) as [[i iso]|] eqn:E; [|cbn; unfold u32; lia]. apply list_find_Some in E as (Hi & _).
  apply list_elem_of_lookup_2, elem_of_take in Hi as (j & Hj & _). apply list_elem_of_lookup_2, list_elem_of_omap in Hj as (it & Hin & Hs).
  rewrite Forall_forall in Hit. destruct (Hit it Hin) as [_ Hk]. unfold item_iso in Hs. destruct (it_kind it); try done. injection Hs as <-. apply Hk.
Qed.

(** The index of an interrupt at the I/O APIC that serves it. *)
Lemma owned_index info count gsi : 0 <= ioa_gsi_base info < 2 ^ 32 -> u32 gsi -> 0 <= count <= 120 -> owns_gsi info count gsi = true ->
  0 <= gsi - ioa_gsi_base info < 120 /\ redir_low_reg (wrap32 (gsi - ioa_gsi_base info)) = 16 + 2 * (gsi - ioa_gsi_base info) /\
  redir_high_reg (wrap32 (gsi - ioa_gsi_base info)) = 17 + 2 * (gsi - ioa_gsi_base info).
Proof.
  intros Hb Hg Hc Ho. unfold owns_gsi in Ho. apply andb_prop in Ho as [H1%Z.leb_le H2%Z.ltb_lt]. unfold u32 in Hg.
  assert (0 <= gsi - ioa_gsi_base info < 120) as Hi.
  { unfold wrap32, wrapw in H2. destruct (Z.lt_ge_cases (ioa_gsi_base info + count) (2 ^ 32)); [rewrite Z.mod_small in H2 by lia; lia|].
    rewrite <- (Z.mod_add _ (-1)), Z.mod_small in H2 by lia. lia. }
  split; [done|]. unfold redir_low_reg, redir_high_reg, IOAPIC_REG_REDIR_BASE. unfold wrap32, wrapw. rewrite (Z.mod_small (gsi - _)) by lia.
  rewrite (Z.mod_small (2 * _)) by lia. rewrite !Z.mod_small by lia. lia.
Qed.

(** C22: From the firmware tables to the interrupt controller.  When an I/O APIC of the table
    serves the line the table wires the keyboard to, booting programs exactly the two
    registers of that line there: vector 0x21, fixed delivery to the boot processor,
    unmasked, with the polarity and trigger the override asks for; no other register of
    any I/O APIC changes.  Otherwise it reports failure and changes none. *)
Theorem keyboard_irq_routed mem m bsp rsdp madt items :
  finds_madt mem rsdp madt -> madt_at mem madt (concat (encode_item <$> items)) -> Forall item_ok items -> 0 <= bsp < 256 ->
  Forall (fun info => mapped m info /\ redir_entry_count (version_of m info) <= 120) (take 8 (omap item_ioapic items)) ->
  let '(gsi, al, lt) := keyboard_line items in
  let owner := gsi_owner m gsi (take 8 (omap item_ioapic items)) in
  exists m', keyboard_boot mem m bsp rsdp = Done (bool_decide (is_Some owner), m') /\
    match owner with
    | None => forall v r, reg_of m' v r = reg_of m v r
    | Some info =>
        let v0 := ioapic_virt (ioa_phys_addr info) in
        let r0 := 16 + 2 * (gsi - ioa_gsi_base info) in
        exists low high, reg_of m' v0 r0 = Some low /\ reg_of m' v0 (r0 + 1) = Some high /\
          Z.land low 0xFF = 0x21 /\ Z.land (Z.shiftr low 8) 15 = 0 /\ Z.testbit low 13 = al /\ Z.testbit low 15 = lt /\ Z.testbit low 16 = false /\
          Z.shiftr high 24 = bsp /\
          (forall v r, ~ (v = v0 /\ r0 <= r <= r0 + 1) -> reg_of m' v r = reg_of m v r)
    end.
Proof.
  intros Hf Hm Hit Hbsp Hdev. pose proof (keyboard_line_u32 items Hit) as Hu. unfold keyboard_boot.
  rewrite (parse_madt_walk mem bsp rsdp madt _ Hf Hm), walk_items by done. destruct (walk_walked bsp items) as [_ _ _ _ [_ W5] [_ W6]]. run.
  unfold init_keyboard_irq_routing. rewrite (resolve_keyboard _ items W6). destruct (keyboard_line items) as [[gsi al] lt]. cbn [fst] in Hu. cbv zeta.
  change MAX_IOAPICS with 8%nat in W5. edestruct (route_irq_spec m gsi KEYBOARD_VECTOR bsp al lt) as (m' & E & Hr); [rewrite W5; eapply Forall_impl; [exact Hdev|by intros x []]|].
  cbv zeta in E, Hr. rewrite W5 in E, Hr. exists m'. split; [exact E|]. destruct (gsi_owner m gsi _) as [info|] eqn:Eo; [|exact Hr].
  unfold gsi_owner in Eo. destruct (list_find _ _) as [[i x]|] eqn:Ef; [|done]. injection Eo as <-. apply list_find_Some in Ef as (Hx & Hown & _).
  destruct (Forall_lookup_1 _ _ _ _ Hdev Hx) as [_ Hcnt]. assert (0 <= ioa_gsi_base x < 2 ^ 32) as Hb.
  { apply list_elem_of_lookup_2, elem_of_take in Hx as (j & Hj & _). apply list_elem_of_lookup_2, list_elem_of_omap in Hj as (it & Hin & Hs).
    rewrite Forall_forall in Hit. destruct (Hit it Hin) as [_ Hk]. unfold item_ioapic in Hs. destruct (it_kind it); try done. injection Hs as <-. apply Hk. }
  assert (0 <= redir_entry_count (version_of m x)) by (unfold redir_entry_count; change 0xFF with (Z.ones 8); rewrite Z.land_ones by lia; Z.div_mod_to_equations; lia).
  destruct (owned_index x _ gsi Hb Hu (conj H Hcnt) Hown) as (Hi & El & Eh). rewrite El, Eh in Hr.
  destruct (redir_low_decodes KEYBOARD_VECTOR al lt) as (D1 & D2 & D3 & D4 & D5); [done|]. pose proof (redir_high_decodes bsp Hbsp) as D6.
  eexists _, _. split; [rewrite Hr, decide_True by done; reflexivity|]. split; [rewrite Hr, decide_False, decide_True by lia; reflexivity|].
  split_and!; try done. intros v r Hne. rewrite Hr, !decide_False by lia. done.
Qed.

(** ** A machine *)

Definition load_tables (ts : list (Z * list Z)) : memory := fun v =>
  head (omap (fun '(p, bs) => let i := v - ACPI_DIRECT_MAP_BASE - p in if (0 <=? i) && (i <? 4096) then (bs : list Z) !! Z.to_nat i else None) ts).

Definition table_check (mem : memory) (p : Z) (bs : list Z) : bool :=
  forallb (fun i => bool_decide (mem (ACPI_DIRECT_MAP_BASE + p + Z.of_nat i) = bs !! i)) (seq 0 (length bs)) &&
  (0 <=? p) && (p + Z.of_nat (length bs) <=? 2 ^ 47) && forallb (fun b => (0 <=? b) && (b <? 256)) bs.

Lemma table_check_at mem p bs : table_check mem p bs = true -> table_at mem p bs.
Proof.
  unfold table_check. rewrite !andb_true_iff, !forallb_forall. intros [[[H1 H2%Z.leb_le] H3%Z.leb_le] H4]. constructor; [|done|].
  - intros i b Hi. specialize (H1 i). rewrite in_seq, bool_decide_eq_true in H1. rewrite H1; [done|]. apply lookup_lt_Some in Hi. lia.
  - apply Forall_forall. intros b Hb%list_elem_of_In. apply H4 in Hb. lia.
Qed.

Definition demo_items : list madt_item :=
  [ {| it_kind := MLapic 0 4 1; it_pad := [] |}; {| it_kind := MLapic 1 0 1; it_pad := [] |}; {| it_kind := MOther 4; it_pad := [255; 0; 0; 1] |};
    {| it_kind := MIoApic 2 0xFEC00000 0; it_pad := [] |}; {| it_kind := MIso 1 17 15; it_pad := [] |}; {| it_kind := MX2apic 300 0 7; it_pad := [] |} ].

Definition demo_sdt (sig : list Z) (body : list Z) : list Z := sig ++ to_le_bytes 4 (36 + Z.of_nat (length body)) ++ replicate 28 0 ++ body.

Definition demo_madt : list Z :=
  (SIG_APIC ++ to_le_bytes 4 (44 + Z.of_nat (length (concat (encode_item <$> demo_items)))) ++ replicate 36 0) ++ concat (encode_item <$> demo_items).

Definition demo_mem : memory := load_tables
  [ (0x1000, RSDP_SIGNATURE ++ replicate 7 0 ++ [0] ++ to_le_bytes 4 0x2000);
    (0x2000, demo_sdt SIG_RSDT (concat (to_le_bytes 4 <$> [0x3000; 0x4000])));
    (0x3000, [70; 65; 67; 80]); (0x4000, demo_madt) ].

Lemma demo_finds : finds_madt demo_mem 0x1000 0x4000.
Proof.
  apply (via_rsdt _ _ _ 0 0x2000 [] [0x3000; 0x4000]); [|lia|lia| |].
  - exists (replicate 7 0). split; [done|]. split; [lia|]. apply table_check_at. vm_compute. reflexivity.
  - exists (replicate 28 0). split; [done|]. split; [cbn; lia|]. split; [repeat constructor; cbn; lia|]. apply table_check_at. vm_compute. reflexivity.
  - exists [0x3000], []. split; [done|]. split; [|split; [done|apply table_check_at; vm_compute; reflexivity]]. constructor; [|constructor].
    right. exists [70; 65; 67; 80]. split; [done|]. split; [done|]. apply table_check_at. vm_compute. reflexivity.
Qed.

Lemma demo_madt_at : madt_at demo_mem 0x4000 (concat (encode_item <$> demo_items)).
Proof. exists (replicate 36 0). split; [done|]. split; [cbn; lia|]. apply table_check_at. vm_compute. reflexivity. Qed.

Lemma demo_items_ok : Forall item_ok demo_items.
Proof. repeat constructor; cbn; unfold u32; lia. Qed.

Lemma madt_parsed_witness : exists info, parse_madt demo_mem 0 0x1000 = Done info /\ mi_cpu_count info = 2%nat /\
  as_slice (mi_ioapics info) = [ {| ioa_id := 2; ioa_phys_addr := 0xFEC00000; ioa_gsi_base := 0 |} ].
Proof.
  destruct (madt_parsed demo_mem 0 0x1000 0x4000 demo_items) as (info & E & _ & Hc & _ & Hi & _).
  - exact demo_finds.
  - exact demo_madt_at.
  - exact demo_items_ok.
  - exists info. split; [exact E|]. split; [exact Hc|exact Hi].
Defined.

(** An I/O APIC of 24 entries, all masked. *)
Definition demo_ioapic : gmap Z ioapic_dev :=
  {[ ioapic_virt 0xFEC00000 := {| dev_select := 0; dev_regs := list_to_map ((1, 0x170011) :: ((fun i => (16 + 2 * i, 0x10000)) <$> seqZ 0 24)) |} ]}.

Lemma keyboard_irq_routed_witness : exists m' low, keyboard_boot demo_mem demo_ioapic 0 0x1000 = Done (true, m') /\
  reg_of m' (ioapic_virt 0xFEC00000) 50 = Some low /\ Z.land low 0xFF = 0x21.
Proof.
  assert (keyboard_line demo_items = (17, true, true)) as Ek by (vm_compute; reflexivity).
  assert (gsi_owner demo_ioapic 17 (take 8 (omap item_ioapic demo_items)) = Some {| ioa_id := 2; ioa_phys_addr := 0xFEC00000; ioa_gsi_base := 0 |}) as Eo
    by (vm_compute; reflexivity).
  pose proof (keyboard_irq_routed demo_mem demo_ioapic 0 0x1000 0x4000 demo_items demo_finds demo_madt_at demo_items_ok ltac:(lia)) as H.
  rewrite Ek in H. cbv beta iota zeta in H. rewrite Eo in H. destruct H as (m' & E & low & high & H1 & _ & H2 & _).
  - repeat constructor; [vm_compute; eauto|vm_compute; discriminate].
  - exists m', low. split; [exact E|]. split; [exact H1|exact H2].
Defined.
