(* ===== verification/Shootdown.v ===== *)
(** * TLB shootdown

    crates/proc/src/shootdown.rs with [activate_address_space] of process.rs: when one
    processor changes a mapping of an address space, the others that have it loaded
    must drop their cached translation before the call returns.  One address space;
    each processor has it loaded or not, caches translations of it, runs activations
    and mapping changes, and takes the interprocessor interrupt when it may.  A mapping
    is the number of times it was changed, so that an old translation is a smaller
    number.  Critical sections of the request slot are atomic; the lock that serializes
    the callers is explicit. *)

From Stdlib Require Import ZArith Lia.
From stdpp Require Import prelude list relations.
From S2P Require Import Prelude.

Local Open Scope Z_scope.

Definition MAX_SHOOTDOWN_CPUS : Z := 64.

Definition cpu_bit (cpu_id : Z) : Z := Z.shiftl 1 (cpu_id mod MAX_SHOOTDOWN_CPUS).

Definition ActiveCpuMask_mark_active (bits cpu_id : Z) : Z := Z.lor bits (cpu_bit cpu_id).
Definition ActiveCpuMask_mark_inactive (bits cpu_id : Z) : Z := Z.land bits (not64 (cpu_bit cpu_id)).

Record ShootdownRequest := { sr_target_mask : Z; sr_remaining : Z; sr_virt : Z }.

Definition remote_targets (active_mask self_id : Z) : Z := Z.land active_mask (not64 (cpu_bit self_id)).

(** [u64::count_ones]. *)
Definition count_ones (z : Z) : Z := zsum (fun i => if Z.testbit z i then 1 else 0) (seqZ 0 64).

(** ** Processors *)

(** Between the steps of an activation, of switching away, and of a mapping change of
    page [p] to version [v] followed by [shootdown_page]. *)
Inductive sd_pc :=
| PIdle
| PMarked
| PLeft
| ISnapshot (p v : Z)
| IFlush (p v mask : Z)
| ISerial (p v remote : Z)
| IFill (p v remote : Z)
| ISend (p v remote cpu : Z)
| IWait (p v remote : Z)
| IReturn (p v : Z).

(** In [shootdown_handler]. *)
Inductive hand_pc := HIdle | HRead | HFlush (virt : Z) | HDec.

Record sd_cpu := { sc_cr3 : bool; sc_tlb : Z -> option Z; sc_ipi : bool; sc_hand : hand_pc; sc_if : bool; sc_pc : sd_pc }.

Record sd_state := { sd_pt : Z -> Z; sd_active : Z; sd_serial : bool; sd_slot : option ShootdownRequest; sd_cpus : list sd_cpu }.

Definition sd_init (n : nat) : sd_state :=
  {| sd_pt := fun _ => 0; sd_active := 0; sd_serial := false; sd_slot := None;
     sd_cpus := replicate n {| sc_cr3 := false; sc_tlb := fun _ => None; sc_ipi := false; sc_hand := HIdle; sc_if := true; sc_pc := PIdle |} |}.

(** [INVLPG]: drops the entry of the loaded address space. *)
Definition flush_page (c : sd_cpu) (p : Z) : Z -> option Z :=
  if sc_cr3 c then (fun q => if q =? p then None else sc_tlb c q) else sc_tlb c.

Definition set_pc (c : sd_cpu) (pc : sd_pc) : sd_cpu :=
  {| sc_cr3 := sc_cr3 c; sc_tlb := sc_tlb c; sc_ipi := sc_ipi c; sc_hand := sc_hand c; sc_if := sc_if c; sc_pc := pc |}.
Definition set_hand (c : sd_cpu) (h : hand_pc) : sd_cpu :=
  {| sc_cr3 := sc_cr3 c; sc_tlb := sc_tlb c; sc_ipi := sc_ipi c; sc_hand := h; sc_if := sc_if c; sc_pc := sc_pc c |}.
Definition set_ipi (b : bool) (c : sd_cpu) : sd_cpu :=
  {| sc_cr3 := sc_cr3 c; sc_tlb := sc_tlb c; sc_ipi := b; sc_hand := sc_hand c; sc_if := sc_if c; sc_pc := sc_pc c |}.
Definition set_tlb (c : sd_cpu) (t : Z -> option Z) : sd_cpu :=
  {| sc_cr3 := sc_cr3 c; sc_tlb := t; sc_ipi := sc_ipi c; sc_hand := sc_hand c; sc_if := sc_if c; sc_pc := sc_pc c |}.

Definition put (s : sd_state) (d : nat) (c : sd_cpu) : sd_state :=
  {| sd_pt := sd_pt s; sd_active := sd_active s; sd_serial := sd_serial s; sd_slot := sd_slot s; sd_cpus := <[d := c]> (sd_cpus s) |}.

(** What an idle processor may start; [if_] is the interrupt flag during the call. *)
Inductive sd_call := CActivate | CLeave | CRemap (p : Z) (if_ : bool).

Section System.
(** [apic_id_for_cpu], and the identifiers of the local APICs. *)
Context (apic_id_for_cpu : Z -> option Z) (hw_id : nat -> Z).

(** [send_ipi]: the interrupt becomes pending at the processor with that identifier. *)
Definition send_ipi (a : Z) (cpus : list sd_cpu) : list sd_cpu := imap (fun e c => if hw_id e =? a then set_ipi true c else c) cpus.

(** The next step of [activate_address_space] on processor [d]: called with this address
    space ([here]) or with another one, each processor's slot telling which is loaded.
    The write of CR3 has the no-flush bit clear. *)
Definition activate_step (here : bool) (d : nat) (c : sd_cpu) (s : sd_state) : sd_state :=
  match sc_pc c with
  | PIdle =>
      if here then
        if sc_cr3 c then s else
        {| sd_pt := sd_pt s; sd_active := ActiveCpuMask_mark_active (sd_active s) (Z.of_nat d); sd_serial := sd_serial s; sd_slot := sd_slot s;
           sd_cpus := <[d := set_pc c PMarked]> (sd_cpus s) |}
      else
        if sc_cr3 c then put s d {| sc_cr3 := false; sc_tlb := sc_tlb c; sc_ipi := sc_ipi c; sc_hand := sc_hand c; sc_if := sc_if c; sc_pc := PLeft |} else s
  | PMarked => put s d {| sc_cr3 := true; sc_tlb := fun _ => None; sc_ipi := sc_ipi c; sc_hand := sc_hand c; sc_if := sc_if c; sc_pc := PIdle |}
  | PLeft =>
      {| sd_pt := sd_pt s; sd_active := ActiveCpuMask_mark_inactive (sd_active s) (Z.of_nat d); sd_serial := sd_serial s; sd_slot := sd_slot s;
         sd_cpus := <[d := set_pc c PIdle]> (sd_cpus s) |}
  | _ => s
  end.

(** The next step of [shootdown_page], from the snapshot its callers pass it. *)
Definition shootdown_step (d : nat) (c : sd_cpu) (s : sd_state) : sd_state :=
  match sc_pc c with
  | ISnapshot p v => put s d (set_pc c (IFlush p v (sd_active s)))
  | IFlush p v mask =>
      let remote := remote_targets mask (Z.of_nat d) in
      put s d (set_pc (set_tlb c (flush_page c p)) (if remote =? 0 then IReturn p v else ISerial p v remote))
  | ISerial p v remote =>
      if sd_serial s then s else
      {| sd_pt := sd_pt s; sd_active := sd_active s; sd_serial := true; sd_slot := sd_slot s; sd_cpus := <[d := set_pc c (IFill p v remote)]> (sd_cpus s) |}
  | IFill p v remote =>
      {| sd_pt := sd_pt s; sd_active := sd_active s; sd_serial := sd_serial s;
         sd_slot := Some {| sr_target_mask := remote; sr_remaining := count_ones remote; sr_virt := p |};
         sd_cpus := <[d := set_pc c (ISend p v remote 0)]> (sd_cpus s) |}
  | ISend p v remote cpu =>
      if cpu <? MAX_SHOOTDOWN_CPUS then
        let cpus := <[d := set_pc c (ISend p v remote (cpu + 1))]> (sd_cpus s) in
        {| sd_pt := sd_pt s; sd_active := sd_active s; sd_serial := sd_serial s; sd_slot := sd_slot s;
           sd_cpus := if negb (Z.land remote (Z.shiftl 1 cpu) =? 0) then
                        match apic_id_for_cpu cpu with Some a => send_ipi a cpus | None => cpus end
                      else cpus |}
      else put s d (set_pc c (IWait p v remote))
  | IWait p v remote =>
      if match sd_slot s with Some r => sr_remaining r =? 0 | None => true end then
        {| sd_pt := sd_pt s; sd_active := sd_active s; sd_serial := false; sd_slot := sd_slot s; sd_cpus := <[d := set_pc c (IReturn p v)]> (sd_cpus s) |}
      else s
  | IReturn p v => put s d {| sc_cr3 := sc_cr3 c; sc_tlb := sc_tlb c; sc_ipi := sc_ipi c; sc_hand := sc_hand c; sc_if := true; sc_pc := PIdle |}
  | _ => s
  end.

(** The next step of the code processor [d] runs outside its handler; a mapping change
    is the store to the page table and the call of [shootdown_page]. *)
Definition main_step (call : sd_call) (d : nat) (c : sd_cpu) (s : sd_state) : sd_state :=
  match sc_pc c with
  | PIdle =>
      match call with
      | CActivate => activate_step true d c s
      | CLeave => activate_step false d c s
      | CRemap p if_ =>
          {| sd_pt := fun q => if q =? p then sd_pt s p + 1 else sd_pt s q; sd_active := sd_active s; sd_serial := sd_serial s; sd_slot := sd_slot s;
             sd_cpus := <[d := {| sc_cr3 := sc_cr3 c; sc_tlb := sc_tlb c; sc_ipi := sc_ipi c; sc_hand := sc_hand c; sc_if := if_; sc_pc := ISnapshot p (sd_pt s p + 1) |}]> (sd_cpus s) |}
      end
  | PMarked | PLeft => activate_step true d c s
  | _ => shootdown_step d c s
  end.

Definition interruptible (c : sd_cpu) : bool := match sc_pc c with PMarked | PLeft => false | _ => sc_if c end.

(** The next step of [shootdown_handler], or its start. *)
Definition hand_step (d : nat) (c : sd_cpu) (s : sd_state) : sd_state :=
  match sc_hand c with
  | HIdle => if sc_ipi c && interruptible c then put s d (set_hand (set_ipi false c) HRead) else s
  | HRead =>
      let virt := match sd_slot s with
        | Some r => if negb (Z.land (sr_target_mask r) (cpu_bit (Z.of_nat d)) =? 0) then Some (sr_virt r) else None
        | None => None end in
      put s d (set_hand c (match virt with Some v => HFlush v | None => HDec end))
  | HFlush virt => put s d (set_hand (set_tlb c (flush_page c virt)) HDec)
  | HDec =>
      {| sd_pt := sd_pt s; sd_active := sd_active s; sd_serial := sd_serial s;
         sd_slot := (fun r => {| sr_target_mask := sr_target_mask r; sr_remaining := wrap64 (sr_remaining r - 1); sr_virt := sr_virt r |}) <$> sd_slot s;
         sd_cpus := <[d := set_hand c HIdle]> (sd_cpus s) |}
  end.

(** The processor walks the page table. *)
Definition fill_tlb (c : sd_cpu) (p v : Z) : sd_cpu := set_tlb c (fun q => if q =? p then Some v else sc_tlb c q).

Inductive sd_step : sd_state -> sd_state -> Prop :=
| sd_fill d c p s : sd_cpus s !! d = Some c -> sc_cr3 c = true -> sd_step s (put s d (fill_tlb c p (sd_pt s p)))
| sd_main call d c s : sd_cpus s !! d = Some c -> sc_hand c = HIdle -> sd_step s (main_step call d c s)
| sd_hand d c s : sd_cpus s !! d = Some c -> sd_step s (hand_step d c s).

(** ** The invariant *)

Definition stale (c : sd_cpu) (p v : Z) : Prop := sc_cr3 c = true /\ exists w, sc_tlb c p = Some w /\ w < v.

(** Every processor with an old translation is one of those [P] holds of. *)
Definition covers (P : Z -> sd_cpu -> Prop) (cpus : list sd_cpu) (p v : Z) : Prop :=
  forall d c, cpus !! d = Some c -> stale c p v -> P (Z.of_nat d) c.

Definition bits_ok (n : nat) (m : Z) : Prop := forall i, Z.testbit m i = true -> i < Z.of_nat n.

Definition handling (c : sd_cpu) : bool := sc_ipi c || match sc_hand c with HIdle => false | _ => true end.

Definition known (i : Z) : bool := match apic_id_for_cpu i with Some _ => true | None => false end.

(** A target that has yet to count itself off; interrupts went to those below [k]. *)
Definition busy (cpus : list sd_cpu) (r k i : Z) : bool :=
  Z.testbit r i && ((k <=? i) || negb (known i) || match cpus !! Z.to_nat i with Some c => handling c | None => false end).

Definition busy_count (cpus : list sd_cpu) (r k : Z) : Z := zsum (fun i => if busy cpus r k i then 1 else 0) (seqZ 0 64).

(** A target that has yet to flush. *)
Definition awaited (p r k : Z) (i : Z) (c : sd_cpu) : Prop :=
  Z.testbit r i = true /\ (k <= i \/ apic_id_for_cpu i = None \/ sc_ipi c = true \/ sc_hand c = HRead \/ sc_hand c = HFlush p).

Definition request (s : sd_state) (p r k : Z) : Prop :=
  sd_slot s = Some {| sr_target_mask := r; sr_remaining := busy_count (sd_cpus s) r k; sr_virt := p |}.

Definition sending (s : sd_state) (p v r k : Z) : Prop :=
  v <= sd_pt s p /\ bits_ok (length (sd_cpus s)) r /\ 0 <= k <= 64 /\ request s p r k /\ covers (awaited p r k) (sd_cpus s) p v.

Definition call_ok (s : sd_state) (e : sd_cpu) : Prop :=
  match sc_pc e with
  | PIdle => True
  | PMarked | PLeft => sc_cr3 e = false
  | ISnapshot p v => v <= sd_pt s p
  | IFlush p v r | ISerial p v r | IFill p v r => v <= sd_pt s p /\ bits_ok (length (sd_cpus s)) r /\ covers (fun d _ => Z.testbit r d = true) (sd_cpus s) p v
  | ISend p v r k => sending s p v r k
  | IWait p v r => sending s p v r 64
  | IReturn p v => v <= sd_pt s p /\ covers (fun _ _ => False) (sd_cpus s) p v
  end.

Definition owns (pc : sd_pc) : Z := match pc with IFill _ _ _ | ISend _ _ _ _ | IWait _ _ _ => 1 | _ => 0 end.

(** The page, the targets and the progress of the request in flight. *)
Definition request_of (pc : sd_pc) : option (Z * Z * Z) :=
  match pc with ISend p _ r k => Some (p, r, k) | IWait p _ r => Some (p, r, 64) | _ => None end.

Definition hand_ok (s : sd_state) (d : nat) (c : sd_cpu) : Prop :=
  handling c = true -> exists i e p r k, sd_cpus s !! i = Some e /\ request_of (sc_pc e) = Some (p, r, k) /\
    Z.testbit r (Z.of_nat d) = true /\ Z.of_nat d < k /\ known (Z.of_nat d) = true /\
    (sc_ipi c = true -> sc_hand c = HIdle) /\ (forall q, sc_hand c = HFlush q -> q = p).

Definition loads (c : sd_cpu) : Prop := sc_cr3 c = true \/ sc_pc c = PMarked \/ sc_pc c = PLeft.

Record sd_ok (s : sd_state) : Prop := {
  dk_length : (length (sd_cpus s) <= 64)%nat;
  dk_bits : 0 <= sd_active s /\ bits_ok (length (sd_cpus s)) (sd_active s);
  dk_active : forall d c, sd_cpus s !! d = Some c -> loads c -> Z.testbit (sd_active s) (Z.of_nat d) = true;
  dk_tlb : forall d c p w, sd_cpus s !! d = Some c -> sc_tlb c p = Some w -> w <= sd_pt s p;
  dk_lock : zsum (fun c => owns (sc_pc c)) (sd_cpus s) = if sd_serial s then 1 else 0;
  dk_call : forall d c, sd_cpus s !! d = Some c -> call_ok s c;
  dk_hand : forall d c, sd_cpus s !! d = Some c -> hand_ok s d c
}.

Lemma zsum_ext_in {X} (f g : X -> Z) l : (forall x, x ∈ l -> f x = g x) -> zsum f l = zsum g l.
Proof. induction l as [|x l IH]; intros H; [done|]. cbn. rewrite (H x), IH; [done| |left]. intros y Hy. apply H. by right. Qed.

Lemma zsum_change {X} (f g : X -> Z) l x : NoDup l -> x ∈ l -> (forall y, y ∈ l -> y <> x -> f y = g y) -> zsum f l = zsum g l + f x - g x.
Proof.
  induction 1 as [|y l Hy Hnd IH]; intros Hx H; [by apply elem_of_nil in Hx|]. cbn. apply elem_of_cons in Hx as [<-|Hx].
  - rewrite (zsum_ext_in f g l); [lia|]. intros z Hz. apply H; [by right|]. by intros ->.
  - rewrite IH, (H y); [lia|left|by intros ->|done|]. intros z Hz Hne. apply H; [by right|done].
Qed.

Lemma busy_count_ext cpus cpus' r k : (forall d, handling <$> cpus' !! d = handling <$> cpus !! d) -> busy_count cpus' r k = busy_count cpus r k.
Proof.
  intros H. apply zsum_ext_in. intros i _. unfold busy. specialize (H (Z.to_nat i)).
  destruct (cpus' !! Z.to_nat i), (cpus !! Z.to_nat i); try done. injection H as ->. done.
Qed.

Lemma covers_shrink (P P' : Z -> sd_cpu -> Prop) cpus cpus' p v :
  (forall d c', cpus' !! d = Some c' -> stale c' p v -> exists c, cpus !! d = Some c /\ stale c p v /\ (P (Z.of_nat d) c -> P' (Z.of_nat d) c')) ->
  covers P cpus p v -> covers P' cpus' p v.
Proof. intros H HP d c' Hd Hs. destruct (H d c' Hd Hs) as (c & Hc & Hst & Himp). eauto. Qed.

(** A processor that is not the one with the request moves, and the interrupts and the
    request stay as they are. *)
Lemma frame_ok s d c c' pt' active' : sd_ok s -> sd_cpus s !! d = Some c -> sc_ipi c' = sc_ipi c -> sc_hand c' = sc_hand c ->
  (forall p, sd_pt s p <= pt' p) -> (forall p w, sc_tlb c' p = Some w -> w <= pt' p) ->
  (forall p v, v <= sd_pt s p -> stale c' p v -> stale c p v) ->
  let s' := {| sd_pt := pt'; sd_active := active'; sd_serial := sd_serial s; sd_slot := sd_slot s; sd_cpus := <[d := c']> (sd_cpus s) |} in
  0 <= active' /\ bits_ok (length (sd_cpus s)) active' ->
  (forall e x, <[d := c']> (sd_cpus s) !! e = Some x -> loads x -> Z.testbit active' (Z.of_nat e) = true) ->
  (sc_pc c' = sc_pc c /\ sc_cr3 c' = sc_cr3 c) \/ (owns (sc_pc c) = 0 /\ owns (sc_pc c') = 0 /\ call_ok s' c') -> sd_ok s'.
Proof.
  intros [K1 K2 K3 K4 K5 K6 K7] Hd Hi Hh Hpt Htlb Hst s' Hbits Hact Hcall.
  assert (forall e, handling <$> <[d := c']> (sd_cpus s) !! e = handling <$> sd_cpus s !! e) as Hhd.
  { intros e. destruct (decide (e = d)) as [->|]; [rewrite list_lookup_insert_eq, Hd by (by eapply lookup_lt_Some); cbn; unfold handling; by rewrite Hi, Hh|].
    by rewrite list_lookup_insert_ne. }
  assert (forall P p v, v <= sd_pt s p -> (forall x x' i, sc_ipi x' = sc_ipi x -> sc_hand x' = sc_hand x -> P i x -> P i x') ->
    covers P (sd_cpus s) p v -> covers P (<[d := c']> (sd_cpus s)) p v) as Hcov.
  { intros P p v Hv HP. apply covers_shrink. intros e x' He Hs. apply list_lookup_insert_Some in He as [(<- & <- & _)|[_ He]]; [|by exists x'].
    exists c. split; [done|]. split; [by apply Hst|]. by apply HP. }
  assert (forall p v r k, sending s p v r k -> sending s' p v r k) as Hsend.
  { intros p v r k (S1 & S2 & S3 & S4 & S5). split_and!; [etrans; [exact S1|apply Hpt]|cbn; by rewrite length_insert|lia|lia| |].
    - unfold request in *. cbn. rewrite S4. by rewrite (busy_count_ext _ _ _ _ Hhd).
    - apply (Hcov _ p v S1); [|exact S5]. unfold awaited. intros x x' i -> ->. done. }
  assert (forall x x', sc_pc x' = sc_pc x -> sc_cr3 x' = sc_cr3 x -> call_ok s x -> call_ok s' x') as Hkeep.
  { intros x x' Ep Ec Hx. unfold call_ok in *. rewrite Ep, ?Ec.
    assert (forall P p v, (v <= sd_pt s p /\ bits_ok (length (sd_cpus s)) P /\ covers (fun d _ => Z.testbit P d = true) (sd_cpus s) p v) ->
      v <= sd_pt s' p /\ bits_ok (length (sd_cpus s')) P /\ covers (fun d _ => Z.testbit P d = true) (sd_cpus s') p v) as H3.
    { intros P p v (H1 & H2 & H3). split_and!; [etrans; [exact H1|apply Hpt]|cbn; by rewrite length_insert|by apply Hcov]. }
    destruct (sc_pc x); auto.
    - etrans; [exact Hx|apply Hpt].
    - destruct Hx as [H1 H2]. split; [etrans; [exact H1|apply Hpt]|by apply Hcov]. }
  constructor.
  - cbn. by rewrite length_insert.
  - cbn. by rewrite length_insert.
  - exact Hact.
  - intros e x p w He Hx. cbn in He. apply list_lookup_insert_Some in He as [(<- & <- & _)|[_ He]]; [by apply Htlb|]. specialize (K4 e x p w He Hx). specialize (Hpt p). cbn. lia.
  - cbn. rewrite (zsum_insert _ _ _ c) by done. destruct Hcall as [[-> _]|(-> & -> & _)]; lia.
  - intros e x He. cbn in He. apply list_lookup_insert_Some in He as [(<- & <- & _)|[_ He]]; [|by apply (Hkeep x x); [..|by apply (K6 e)]].
    destruct Hcall as [[Ep Ec]|(_ & _ & Hcall)]; [|done]. apply (Hkeep c); [done..|by apply (K6 d)].
  - intros e x He Hx. cbn in He. assert (exists y, sd_cpus s !! e = Some y /\ sc_ipi x = sc_ipi y /\ sc_hand x = sc_hand y) as (y & Hy & Ei & Eh).
    { apply list_lookup_insert_Some in He as [(<- & <- & _)|[_ He]]; [by exists c|by exists x]. }
    destruct (K7 e y Hy) as (i & z & p & r & k & Hz & Hreq & Hrest). { unfold handling in *. by rewrite <- Ei, <- Eh. }
    destruct (decide (i = d)) as [->|Hne]; [|exists i, z, p, r, k; rewrite Ei, Eh; cbn; by rewrite list_lookup_insert_ne].
    rewrite Hd in Hz. injection Hz as <-. destruct Hcall as [[Ep _]|(Ho & _)]; [|by destruct (sc_pc c)].
    exists d, c', p, r, k. rewrite Ei, Eh, Ep. split; [|by split]. cbn. apply list_lookup_insert_eq. by eapply lookup_lt_Some.
Qed.

(** ** Masks *)

Lemma shiftl_1_testbit d i : 0 <= d -> 0 <= i -> Z.testbit (Z.shiftl 1 d) i = (i =? d).
Proof.
  intros Hd Hi. rewrite Z.shiftl_spec by done. destruct (Z.eqb_spec i d) as [->|Hne]; [by rewrite Z.sub_diag|].
  destruct (Z.lt_ge_cases i d); [by rewrite Z.testbit_neg_r by lia|]. replace (i - d) with (Z.succ (i - d - 1)) by lia.
  apply Z.bits_above_log2; [done|]. cbn. lia.
Qed.

Lemma cpu_bit_testbit d i : 0 <= d < 64 -> 0 <= i -> Z.testbit (cpu_bit d) i = (i =? d).
Proof. intros Hd Hi. unfold cpu_bit, MAX_SHOOTDOWN_CPUS. rewrite Z.mod_small by done. apply shiftl_1_testbit; lia. Qed.

Lemma land_bit r d : 0 <= d -> negb (Z.land r (Z.shiftl 1 d) =? 0) = Z.testbit r d.
Proof.
  intros Hd. destruct (Z.testbit r d) eqn:E.
  - apply negb_true_iff, Z.eqb_neq. intros H. assert (Z.testbit (Z.land r (Z.shiftl 1 d)) d = true) as Ht; [|by rewrite H, Z.bits_0 in Ht].
    by rewrite Z.land_spec, E, shiftl_1_testbit, Z.eqb_refl by done.
  - apply negb_false_iff, Z.eqb_eq, Z.bits_inj'. intros i Hi. rewrite Z.land_spec, Z.bits_0, shiftl_1_testbit by done.
    destruct (Z.eqb_spec i d) as [->|]; [by rewrite E|apply andb_false_r].
Qed.

Lemma mark_active_testbit m d i : 0 <= d < 64 -> 0 <= i -> Z.testbit (ActiveCpuMask_mark_active m d) i = Z.testbit m i || (i =? d).
Proof. intros Hd Hi. unfold ActiveCpuMask_mark_active. by rewrite Z.lor_spec, cpu_bit_testbit. Qed.

Lemma without_testbit m d i : 0 <= d < 64 -> 0 <= i < 64 -> Z.testbit (Z.land m (not64 (cpu_bit d))) i = Z.testbit m i && negb (i =? d).
Proof.
  intros Hd Hi. unfold not64. rewrite Z.land_spec, Z.lxor_spec, cpu_bit_testbit, Z.ones_spec_low by lia. by rewrite xorb_true_r.
Qed.

Lemma without_bits m d n : bits_ok n m -> bits_ok n (Z.land m (not64 (cpu_bit d))).
Proof. intros H i Hi. apply H. rewrite Z.land_spec in Hi. by apply andb_prop in Hi as [Hi _]. Qed.

(** ** The steps outside the request *)

Lemma fill_ok s d c p : sd_ok s -> sd_cpus s !! d = Some c -> sc_cr3 c = true -> sd_ok (put s d (fill_tlb c p (sd_pt s p))).
Proof.
  intros H Hd Hc. apply (frame_ok s d c _ (sd_pt s) (sd_active s)); try done.
  - intros q w. cbn. destruct (Z.eqb_spec q p) as [->|]; [by intros [= <-]|]. by apply (dk_tlb _ H d c).
  - intros q v Hv [_ (w & Hw & Hlt)]. cbn in Hw. split; [done|]. destruct (Z.eqb_spec q p) as [->|]; [injection Hw as <-; lia|by exists w].
  - apply H.
  - intros e x He Hx. apply list_lookup_insert_Some in He as [(<- & <- & _)|[_ He]]; [|by apply (dk_active _ H e x)]. apply (dk_active _ H d c Hd). by left.
  - by left.
Qed.

(** The processors with the space loaded stay marked when [d] moves without loading it. *)
Lemma active_keep s d c c' : sd_ok s -> sd_cpus s !! d = Some c -> (loads c' -> loads c) ->
  forall e x, <[d := c']> (sd_cpus s) !! e = Some x -> loads x -> Z.testbit (sd_active s) (Z.of_nat e) = true.
Proof.
  intros H Hd Hl e x He Hx. apply list_lookup_insert_Some in He as [(<- & <- & _)|[_ He]]; [|by apply (dk_active _ H e x)].
  apply (dk_active _ H d c Hd). auto.
Qed.

Lemma cpu_range s d c : sd_ok s -> sd_cpus s !! d = Some c -> 0 <= Z.of_nat d < 64.
Proof. intros H Hd. apply lookup_lt_Some in Hd. pose proof (dk_length _ H). lia. Qed.

Lemma activate_ok s d c : sd_ok s -> sd_cpus s !! d = Some c -> sc_pc c = PIdle -> sd_ok (main_step CActivate d c s).
Proof.
  intros H Hd Hp. pose proof (cpu_range s d c H Hd) as Hr. unfold main_step, activate_step, shootdown_step. rewrite Hp. destruct (sc_cr3 c) eqn:Ec; [done|]. destruct (dk_bits _ H) as [Hb0 Hb].
  apply (frame_ok s d c); try done.
  - intros q w Hw. by apply (dk_tlb _ H d c).
  - split; [apply Z.lor_nonneg; split; [done|unfold cpu_bit; apply Z.shiftl_nonneg; lia]|]. intros i Hi. destruct (Z.lt_ge_cases i 0); [lia|].
    rewrite mark_active_testbit in Hi by lia. apply lookup_lt_Some in Hd. apply orb_prop in Hi as [Hi|Hi]; [by apply Hb|]. lia.
  - intros e x He Hx. rewrite mark_active_testbit by lia. apply orb_true_iff. apply list_lookup_insert_Some in He as [(<- & <- & _)|[_ He]]; [right; lia|left].
    by apply (dk_active _ H e x).
  - right. unfold call_ok. by rewrite Hp.
Qed.

Lemma leave_ok s d c : sd_ok s -> sd_cpus s !! d = Some c -> sc_pc c = PIdle -> sd_ok (main_step CLeave d c s).
Proof.
  intros H Hd Hp. unfold main_step, activate_step, shootdown_step. rewrite Hp. destruct (sc_cr3 c) eqn:Ec; [|done]. apply (frame_ok s d c _ (sd_pt s) (sd_active s)); try done.
  - intros q w Hw. by apply (dk_tlb _ H d c).
  - intros q v _ [Hx _]. done.
  - apply H.
  - apply (active_keep s d c _ H Hd). intros _. by left.
  - right. unfold call_ok. by rewrite Hp.
Qed.

Lemma remap_ok s d c p if_ : sd_ok s -> sd_cpus s !! d = Some c -> sc_pc c = PIdle -> sd_ok (main_step (CRemap p if_) d c s).
Proof.
  intros H Hd Hp. unfold main_step, activate_step, shootdown_step. rewrite Hp. apply (frame_ok s d c); try done.
  - intros q. destruct (Z.eqb_spec q p) as [->|]; lia.
  - intros q w Hw. pose proof (dk_tlb _ H d c q w Hd Hw). destruct (Z.eqb_spec q p) as [->|]; lia.
  - apply H.
  - apply (active_keep s d c _ H Hd). intros [Hl|[Hl|Hl]]; [by left|done..].
  - right. unfold call_ok. rewrite Hp. cbn. rewrite Z.eqb_refl. done.
Qed.

Lemma load_ok s d c call : sd_ok s -> sd_cpus s !! d = Some c -> sc_pc c = PMarked -> sd_ok (main_step call d c s).
Proof.
  intros H Hd Hp. unfold main_step, activate_step, shootdown_step. rewrite Hp. apply (frame_ok s d c _ (sd_pt s) (sd_active s)); try done.
  - intros q v _ [_ (w & Hw & _)]. done.
  - apply H.
  - apply (active_keep s d c _ H Hd). intros _. right. by left.
  - right. unfold call_ok. by rewrite Hp.
Qed.

Lemma unmark_ok s d c call : sd_ok s -> sd_cpus s !! d = Some c -> sc_pc c = PLeft -> sd_ok (main_step call d c s).
Proof.
  intros H Hd Hp. pose proof (cpu_range s d c H Hd) as Hr. destruct (dk_bits _ H) as [Hb0 Hb]. pose proof (dk_call _ H d c Hd) as Hcall. unfold call_ok in Hcall. rewrite Hp in Hcall.
  unfold main_step, activate_step, shootdown_step. rewrite Hp. apply (frame_ok s d c); try done.
  - intros q w Hw. by apply (dk_tlb _ H d c).
  - split; [apply Z.land_nonneg; by left|by apply without_bits].
  - intros e x He Hx. apply list_lookup_insert_Some in He as [(<- & <- & _)|[Hne He]]; [destruct Hx as [Hx|[Hx|Hx]]; cbn in Hx; congruence|].
    pose proof (cpu_range s e x H He). unfold ActiveCpuMask_mark_inactive. rewrite without_testbit, (dk_active _ H e x) by (done || lia). cbn. apply negb_true_iff, Z.eqb_neq. lia.
  - right. unfold call_ok. by rewrite Hp.
Qed.

Lemma snapshot_ok s d c call p v : sd_ok s -> sd_cpus s !! d = Some c -> sc_pc c = ISnapshot p v -> sd_ok (main_step call d c s).
Proof.
  intros H Hd Hp. pose proof (dk_call _ H d c Hd) as Hcall. unfold call_ok in Hcall. rewrite Hp in Hcall. unfold main_step, activate_step, shootdown_step. rewrite Hp.
  apply (frame_ok s d c _ (sd_pt s) (sd_active s)); try done.
  - intros q w Hw. by apply (dk_tlb _ H d c).
  - apply H.
  - apply (active_keep s d c _ H Hd). intros [Hl|[Hl|Hl]]; [by left|done..].
  - right. unfold call_ok. rewrite Hp. split; [done|]. split; [done|]. cbn. split; [done|]. rewrite length_insert. split; [apply H|].
    intros e x He [Hx _]. apply (active_keep s d c (set_pc c (IFlush p v (sd_active s))) H Hd) with (x := x); [|done|by left].
    intros [Hl|[Hl|Hl]]; [by left|done..].
Qed.

Lemma return_ok s d c call p v : sd_ok s -> sd_cpus s !! d = Some c -> sc_pc c = IReturn p v -> sd_ok (main_step call d c s).
Proof.
  intros H Hd Hp. unfold main_step, activate_step, shootdown_step. rewrite Hp. apply (frame_ok s d c _ (sd_pt s) (sd_active s)); try done.
  - intros q w Hw. by apply (dk_tlb _ H d c).
  - apply H.
  - apply (active_keep s d c _ H Hd). intros [Hl|[Hl|Hl]]; [by left|done..].
  - right. unfold call_ok. by rewrite Hp.
Qed.

Lemma flush_stale c p v : stale (set_tlb c (flush_page c p)) p v -> False.
Proof. intros [Hc (w & Hw & _)]. cbn in Hc, Hw. unfold flush_page in Hw. rewrite Hc, Z.eqb_refl in Hw. done. Qed.

Lemma flush_tlb_sub c p q w : flush_page c p q = Some w -> sc_tlb c q = Some w.
Proof. unfold flush_page. destruct (sc_cr3 c), (q =? p); done. Qed.

Lemma local_flush_ok s d c call p v m : sd_ok s -> sd_cpus s !! d = Some c -> sc_pc c = IFlush p v m -> sd_ok (main_step call d c s).
Proof.
  intros H Hd Hp. pose proof (cpu_range s d c H Hd) as Hr. pose proof (dk_call _ H d c Hd) as Hcall. unfold call_ok in Hcall. rewrite Hp in Hcall. destruct Hcall as (C1 & C2 & C3).
  unfold main_step, activate_step, shootdown_step. rewrite Hp. set (remote := remote_targets m (Z.of_nat d)). set (c' := set_pc _ _).
  assert (forall q w, sc_tlb c' q = Some w -> sc_tlb c q = Some w) as Hsub by (intros q w; apply flush_tlb_sub).
  assert (covers (fun e _ => Z.testbit remote e = true) (<[d := c']> (sd_cpus s)) p v) as Hcov.
  { intros e x He Hx. apply list_lookup_insert_Some in He as [(<- & <- & _)|[Hne He]]; [by destruct (flush_stale c p v)|]. pose proof (cpu_range s e x H He).
    unfold remote, remote_targets. rewrite without_testbit, (C3 e x He Hx) by lia. cbn. apply negb_true_iff, Z.eqb_neq. lia. }
  apply (frame_ok s d c _ (sd_pt s) (sd_active s)); try done.
  - intros q w Hw. apply (dk_tlb _ H d c); auto.
  - intros q u _ [Hc (w & Hw & Hlt)]. split; [done|]. exists w. auto.
  - apply H.
  - apply (active_keep s d c _ H Hd). intros [Hl|[Hl|Hl]]; [by left|..]; unfold c' in Hl; cbn in Hl; by destruct (remote =? 0).
  - right. rewrite Hp. split; [done|]. unfold c', call_ok. cbn [sc_pc set_pc]. destruct (Z.eqb_spec remote 0) as [E|]; (split; [done|]); cbn; split; try done.
    + intros e x He Hx. specialize (Hcov e x He Hx). cbn in Hcov. by rewrite E, Z.bits_0 in Hcov.
    + rewrite length_insert. split; [by apply without_bits|exact Hcov].
Qed.

(** ** The steps of the request *)

Lemma owns_nonneg pc : 0 <= owns pc.
Proof. by destruct pc. Qed.

Lemma owner_unique s d e c x : sd_ok s -> sd_cpus s !! d = Some c -> sd_cpus s !! e = Some x -> owns (sc_pc c) = 1 -> e <> d -> owns (sc_pc x) = 0.
Proof.
  intros H Hd He Hc Hne. pose proof (dk_lock _ H) as Hl.
  pose proof (zsum_two (fun c => owns (sc_pc c)) (sd_cpus s) d e c x (fun c => owns_nonneg (sc_pc c)) (not_eq_sym Hne) Hd He) as H2. cbn in H2.
  pose proof (owns_nonneg (sc_pc x)). destruct (sd_serial s); lia.
Qed.

Lemma free_owners s e x : sd_ok s -> sd_serial s = false -> sd_cpus s !! e = Some x -> owns (sc_pc x) = 0.
Proof.
  intros H Hf He. pose proof (dk_lock _ H) as Hl. rewrite Hf in Hl. pose proof (owns_nonneg (sc_pc x)).
  assert (owns (sc_pc x) <= zsum (fun c => owns (sc_pc c)) (sd_cpus s)) by (apply (zsum_elem (fun c => owns (sc_pc c))); [intros y; apply owns_nonneg|by eapply list_elem_of_lookup_2]).
  lia.
Qed.

(** Processor [d] is the only one that has, or takes, the request; translations do not
    change. *)
Lemma holder_ok s d c' s' : sd_ok s -> sd_cpus s' !! d = Some c' -> length (sd_cpus s') = length (sd_cpus s) -> sd_pt s' = sd_pt s -> sd_active s' = sd_active s ->
  (forall e x', sd_cpus s' !! e = Some x' -> exists x, sd_cpus s !! e = Some x /\ sc_cr3 x' = sc_cr3 x /\ sc_tlb x' = sc_tlb x /\
     (e = d -> owns (sc_pc x') = 1 \/ exists p v, sc_pc x' = IReturn p v) /\ (e <> d -> sc_pc x' = sc_pc x /\ owns (sc_pc x) = 0)) ->
  sd_serial s' = (owns (sc_pc c') =? 1) -> call_ok s' c' -> (forall e x', sd_cpus s' !! e = Some x' -> hand_ok s' e x') -> sd_ok s'.
Proof.
  intros [K1 K2 K3 K4 K5 K6 K7] Hd Hlen Hpt Hact Hrel Hser Hcall Hhand. constructor; try done.
  - by rewrite Hlen.
  - by rewrite Hlen, Hact.
  - intros e x' He Hx. rewrite Hact. destruct (Hrel e x' He) as (x & Hx0 & E1 & E2 & E3 & E4). apply (K3 e x Hx0). unfold loads in *. rewrite <- E1.
    destruct (decide (e = d)) as [Ed|Hne]; [|destruct (E4 Hne) as [<- _]; done]. destruct Hx as [Hx|Hx]; [by left|exfalso].
    destruct (E3 Ed) as [Ho|(p & v & Ho)]; destruct Hx as [Hx|Hx]; rewrite Hx in Ho; done.
  - intros e x' p w He Hx. rewrite Hpt. destruct (Hrel e x' He) as (x & Hx0 & _ & E2 & _). apply (K4 e x p w Hx0). by rewrite <- E2.
  - rewrite Hser. rewrite <- (take_drop_middle _ _ _ Hd), zsum_app. cbn [zsum].
    assert (forall l, (forall x, x ∈ l -> owns (sc_pc x) = 0) -> zsum (fun c => owns (sc_pc c)) l = 0) as Hz.
    { induction l as [|y l IH]; intros Hy; [done|]. cbn. rewrite Hy, IH; [done| |left]. intros z Hz. apply Hy. by right. }
    assert (forall e x, e <> d -> sd_cpus s' !! e = Some x -> owns (sc_pc x) = 0) as Hoth.
    { intros e x Hne He. destruct (Hrel e x He) as (y & _ & _ & _ & _ & E4). by destruct (E4 Hne) as [-> ?]. }
    rewrite !Hz.
    + destruct (sc_pc c'); cbn; done.
    + intros x [j Hj]%list_elem_of_lookup. rewrite lookup_drop in Hj. apply (Hoth (S d + j)%nat); [lia|done].
    + intros x [j Hj]%list_elem_of_lookup. apply lookup_take_Some in Hj as [Hj Hlt]. apply (Hoth j); [lia|done].
  - intros e x' He. destruct (decide (e = d)) as [->|Hne]; [congruence|]. destruct (Hrel e x' He) as (x & Hx & E1 & E2 & _ & E4). destruct (E4 Hne) as [Ep Eo].
    specialize (K6 e x Hx). unfold call_ok in *. rewrite Ep, Hpt, Hlen.
    assert (forall P p v, covers (fun i (_ : sd_cpu) => P i) (sd_cpus s) p v -> covers (fun i (_ : sd_cpu) => P i) (sd_cpus s') p v) as Hcov.
    { intros P p v. apply covers_shrink. intros j y' Hj Hs. destruct (Hrel j y' Hj) as (y & Hy & F1 & F2 & _). exists y. split; [done|]. split; [|done].
      unfold stale in *. by rewrite <- F1, <- F2. }
    destruct (sc_pc x); try done; try (by rewrite E1); destruct K6 as (H1 & H2); try destruct H2 as [H2 H3]; split_and?; auto; by apply (Hcov (fun _ => False)).
Qed.

Lemma request_owns pc q : request_of pc = Some q -> owns pc = 1.
Proof. by destruct pc. Qed.

(** Without a request in flight no handler runs and no interrupt is pending. *)
Lemma quiet_hands s : sd_ok s -> (forall e x, sd_cpus s !! e = Some x -> request_of (sc_pc x) = None) ->
  forall e x, sd_cpus s !! e = Some x -> handling x = false.
Proof.
  intros H Hno e x He. destruct (handling x) eqn:E; [|done]. destruct (dk_hand _ H e x He E) as (i & y & p & r & k & Hy & Hq & _). by rewrite (Hno i y Hy) in Hq.
Qed.

Lemma set_pc_rel s d c pc' : sd_ok s -> sd_cpus s !! d = Some c -> (owns pc' = 1 \/ exists p v, pc' = IReturn p v) ->
  (forall e x, sd_cpus s !! e = Some x -> e <> d -> owns (sc_pc x) = 0) ->
  forall e x', <[d := set_pc c pc']> (sd_cpus s) !! e = Some x' -> exists x, sd_cpus s !! e = Some x /\ sc_cr3 x' = sc_cr3 x /\ sc_tlb x' = sc_tlb x /\
     (e = d -> owns (sc_pc x') = 1 \/ exists p v, sc_pc x' = IReturn p v) /\ (e <> d -> sc_pc x' = sc_pc x /\ owns (sc_pc x) = 0).
Proof.
  intros H Hd Hp Ho e x' He. apply list_lookup_insert_Some in He as [(<- & <- & _)|[Hne He]]; [by exists c|]. exists x'. split_and!; try done.
  intros _. split; [done|]. eapply Ho; [done|]. by intros ->.
Qed.

Lemma covers_set_pc P (cpus : list sd_cpu) d c pc' p v : cpus !! d = Some c -> covers P cpus p v -> (forall i x, P i x -> P i (set_pc x pc')) -> covers P (<[d := set_pc c pc']> cpus) p v.
Proof.
  intros Hd HP Hset. revert HP. apply covers_shrink. intros e x' He Hs. apply list_lookup_insert_Some in He as [(<- & <- & _)|[_ He]]; [|by exists x'].
  exists c. split; [done|]. split; [exact Hs|]. apply Hset.
Qed.

Lemma handling_set_pc (cpus : list sd_cpu) d c pc' e : cpus !! d = Some c -> handling <$> <[d := set_pc c pc']> cpus !! e = handling <$> cpus !! e.
Proof.
  intros Hd. destruct (decide (e = d)) as [->|]; [by rewrite list_lookup_insert_eq, Hd by (by eapply lookup_lt_Some)|by rewrite list_lookup_insert_ne].
Qed.

Lemma lock_ok s d c call p v r : sd_ok s -> sd_cpus s !! d = Some c -> sc_pc c = ISerial p v r -> sd_ok (main_step call d c s).
Proof.
  intros H Hd Hp. pose proof (dk_call _ H d c Hd) as Hcall. unfold call_ok in Hcall. rewrite Hp in Hcall. destruct Hcall as (C1 & C2 & C3).
  unfold main_step, activate_step, shootdown_step. rewrite Hp. destruct (sd_serial s) eqn:Es; [done|]. pose proof (lookup_lt_Some _ _ _ Hd) as Hlt.
  eapply (holder_ok s d); [done|by apply list_lookup_insert_eq|by apply length_insert|done|done| |done| |].
  - apply set_pc_rel; [done..|by left|]. intros e x He _. by eapply free_owners.
  - cbn. rewrite length_insert. split; [done|]. split; [done|]. by apply covers_set_pc.
  - intros e x' He Hx. exfalso. assert (handling x' = false) as E; [|congruence]. pose proof (handling_set_pc (sd_cpus s) d c (IFill p v r) e Hd) as Eh. cbn in He.
    rewrite He in Eh. destruct (sd_cpus s !! e) as [x|] eqn:Hx0; [|done]. injection Eh as ->. eapply (quiet_hands s); [done| |done].
    intros j y Hy. pose proof (free_owners s j y H Es Hy) as Ho. by destruct (sc_pc y).
Qed.

Lemma request_ok s d c call p v r : sd_ok s -> sd_cpus s !! d = Some c -> sc_pc c = IFill p v r -> sd_ok (main_step call d c s).
Proof.
  intros H Hd Hp. pose proof (dk_call _ H d c Hd) as Hcall. unfold call_ok in Hcall. rewrite Hp in Hcall. destruct Hcall as (C1 & C2 & C3).
  assert (forall e x, sd_cpus s !! e = Some x -> e <> d -> owns (sc_pc x) = 0) as Hun by (intros e x He Hne; eapply (owner_unique s d e c x); [done..|by rewrite Hp|done]).
  assert (sd_serial s = true) as Es. { destruct (sd_serial s) eqn:Es; [done|]. pose proof (free_owners s d c H Es Hd) as Ho. by rewrite Hp in Ho. }
  unfold main_step, activate_step, shootdown_step. rewrite Hp. pose proof (lookup_lt_Some _ _ _ Hd) as Hlt.
  eapply (holder_ok s d); [done|by apply list_lookup_insert_eq|by apply length_insert|done|done| |done| |].
  - apply set_pc_rel; [done..|by left|exact Hun].
  - unfold call_ok. cbn [sc_pc set_pc]. split_and!; [done|cbn; by rewrite length_insert|lia|lia| |].
    + unfold request. cbn. do 2 f_equal. unfold count_ones, busy_count. apply zsum_ext_in. intros i Hi%elem_of_seqZ. unfold busy.
      rewrite (proj2 (Z.leb_le 0 i)) by lia. by rewrite andb_true_r.
    + cbn. intros e x He Hs. split; [|left; lia]. by apply (covers_set_pc (fun i _ => Z.testbit r i = true) (sd_cpus s) d c (ISend p v r 0) p v Hd C3 ltac:(done) e x).
  - intros e x' He Hx. exfalso. assert (handling x' = false) as E; [|congruence]. pose proof (handling_set_pc (sd_cpus s) d c (ISend p v r 0) e Hd) as Eh. cbn in He.
    rewrite He in Eh. destruct (sd_cpus s !! e) as [x|] eqn:Hx0; [|done]. injection Eh as ->. eapply (quiet_hands s); [done| |done].
    intros j y Hy. destruct (decide (j = d)) as [->|Hne]; [rewrite Hd in Hy; injection Hy as <-; by rewrite Hp|]. pose proof (Hun j y Hy Hne). by destruct (sc_pc y).
Qed.

(** The request in flight is that of its owner. *)
Lemma owner_request s d c e x : sd_ok s -> sd_cpus s !! d = Some c -> owns (sc_pc c) = 1 -> sd_cpus s !! e = Some x -> handling x = true ->
  exists p r k, request_of (sc_pc c) = Some (p, r, k) /\ Z.testbit r (Z.of_nat e) = true /\ Z.of_nat e < k /\ known (Z.of_nat e) = true /\
    (sc_ipi x = true -> sc_hand x = HIdle) /\ (forall q, sc_hand x = HFlush q -> q = p).
Proof.
  intros H Hd Ho He Hx. destruct (dk_hand _ H e x He Hx) as (i & y & p & r & k & Hy & Hq & Hrest). exists p, r, k.
  destruct (decide (i = d)) as [->|Hne]; [rewrite Hd in Hy; by injection Hy as <-|].
  pose proof (owner_unique s d i c y H Hd Hy Ho Hne) as Ho'. by rewrite (request_owns _ _ Hq) in Ho'.
Qed.

(** What [ISend] does to the processors: only the one it sends to changes. *)
Definition sent (k : Z) (x x' : sd_cpu) (e : nat) : Prop := x' = x \/ (Z.of_nat e = k /\ known k = true /\ x' = set_ipi true x).

Context (Hhw : forall k a, 0 <= k -> apic_id_for_cpu k = Some a -> forall e, hw_id e = a <-> Z.of_nat e = k).

Lemma send_rel cpus r k : 0 <= k -> forall e, exists f,
  (if negb (Z.land r (Z.shiftl 1 k) =? 0) then match apic_id_for_cpu k with Some a => send_ipi a cpus | None => cpus end else cpus) !! e = f <$> cpus !! e /\
  (forall x, sent k x (f x) e) /\ (Z.testbit r k = true -> known k = true -> Z.of_nat e = k -> forall x, sc_ipi (f x) = true) /\
  (Z.testbit r k = false -> forall x, f x = x).
Proof.
  intros Hk e. rewrite land_bit by done. destruct (Z.testbit r k) eqn:Er.
  - unfold known, sent. destruct (apic_id_for_cpu k) as [a|] eqn:Ea.
    + unfold send_ipi. rewrite list_lookup_imap. exists (fun c => if hw_id e =? a then set_ipi true c else c). split; [done|]. unfold known. rewrite Ea.
      destruct (Z.eqb_spec (hw_id e) a) as [E|E]; rewrite (Hhw k a Hk Ea e) in E; split_and!; try done; [by right|by left].
    + exists id. rewrite option_fmap_id. split_and!; try done. intros x. by left.
  - exists id. rewrite option_fmap_id. split_and!; try done. intros x. by left.
Qed.

Lemma handling_ipi x : handling (set_ipi true x) = true.
Proof. done. Qed.

Lemma busy_send cpus cpus' r k : 0 <= k < 64 -> bits_ok (length cpus) r ->
  (forall e, exists f, cpus' !! e = f <$> cpus !! e /\ (forall x, handling (f x) = handling x \/ (Z.of_nat e = k /\ known k = true)) /\
     (Z.testbit r k = true -> known k = true -> Z.of_nat e = k -> forall x, handling (f x) = true)) ->
  busy_count cpus' r (k + 1) = busy_count cpus r k.
Proof.
  intros Hk Hb Hrel. apply zsum_ext_in. intros i Hi%elem_of_seqZ. unfold busy. destruct (Z.testbit r i) eqn:Er; [|done]. cbn [andb].
  destruct (Hrel (Z.to_nat i)) as (f & Ef & Hf & Hset). rewrite Ef. destruct (Z.eqb_spec i k) as [->|Hne].
  - rewrite (proj2 (Z.leb_le k k)), (proj2 (Z.leb_gt (k + 1) k)) by lia. cbn [orb]. destruct (known k) eqn:Ek; [|done]. cbn [negb orb].
    destruct (lookup_lt_is_Some_2 cpus (Z.to_nat k)) as [x Hx]; [specialize (Hb k Er); lia|]. rewrite Hx. cbn. by rewrite (Hset Er eq_refl) by lia.
  - replace (k + 1 <=? i) with (k <=? i) by lia. destruct (cpus !! Z.to_nat i) as [x|]; [|done]. cbn. destruct (Hf x) as [->|[E _]]; [done|lia].
Qed.

Lemma awaited_send p r k e x x' : awaited p r k (Z.of_nat e) x -> sc_hand x' = sc_hand x -> (sc_ipi x = true -> sc_ipi x' = true) ->
  (Z.testbit r k = true -> known k = true -> Z.of_nat e = k -> sc_ipi x' = true) -> awaited p r (k + 1) (Z.of_nat e) x'.
Proof.
  intros [H1 H2] Hh Hi Hs. split; [done|]. rewrite Hh. destruct H2 as [Hle|[Hn|[Hip|H2]]]; [|by right; left|by right; right; left; auto|by right; right; right].
  destruct (decide (Z.of_nat e = k)) as [E|]; [|left; lia]. destruct (known k) eqn:Ek; [right; right; left; apply Hs; congruence|].
  right. left. unfold known in Ek. rewrite E. by destruct (apic_id_for_cpu k).
Qed.

Lemma request_facts s d c : sd_ok s -> sd_cpus s !! d = Some c -> owns (sc_pc c) = 1 ->
  owns (sc_pc c) = 1 /\ sd_serial s = true /\ forall e x, sd_cpus s !! e = Some x -> e <> d -> owns (sc_pc x) = 0.
Proof.
  intros H Hd Ho. split; [done|]. split; [|intros e x He Hne; by eapply (owner_unique s d e c x)].
  destruct (sd_serial s) eqn:Es; [done|]. pose proof (free_owners s d c H Es Hd). lia.
Qed.

Lemma send_done_ok s d c p v r : sd_ok s -> sd_cpus s !! d = Some c -> sc_pc c = ISend p v r 64 -> sd_ok (put s d (set_pc c (IWait p v r))).
Proof.
  intros H Hd Hp. pose proof (dk_call _ H d c Hd) as Hcall. unfold call_ok in Hcall. rewrite Hp in Hcall. destruct Hcall as (C1 & C2 & C3 & C4 & C5).
  destruct (request_facts s d c H Hd ltac:(by rewrite Hp)) as (Ho & Es & Hun). pose proof (lookup_lt_Some _ _ _ Hd) as Hlt.
  eapply (holder_ok s d); [done|by apply list_lookup_insert_eq|by apply length_insert|done|done| |exact Es| |].
  - apply set_pc_rel; [done..|by left|exact Hun].
  - split_and!; [done|cbn; by rewrite length_insert|lia|lia| |by apply covers_set_pc]. unfold request in *. cbn. rewrite C4.
    do 2 f_equal. symmetry. apply busy_count_ext. intros e. by apply handling_set_pc.
  - intros e x' He Hx. cbn in He. exists d, (set_pc c (IWait p v r)), p, r, 64. split; [by apply list_lookup_insert_eq|]. split; [done|].
    assert (exists x, sd_cpus s !! e = Some x /\ sc_ipi x' = sc_ipi x /\ sc_hand x' = sc_hand x) as (x & Hx0 & Ei & Eh).
    { apply list_lookup_insert_Some in He as [(<- & <- & _)|[_ He]]; [by exists c|by exists x']. }
    destruct (owner_request s d c e x H Hd Ho Hx0) as (p1 & r1 & k1 & Hq & Hrest); [unfold handling in *; by rewrite <- Ei, <- Eh|].
    rewrite Hp in Hq. injection Hq as <- <- <-. by rewrite Ei, Eh.
Qed.

Lemma send_ok s d c call p v r k : sd_ok s -> sd_cpus s !! d = Some c -> sc_pc c = ISend p v r k -> sd_ok (main_step call d c s).
Proof.
  intros H Hd Hp. pose proof (dk_call _ H d c Hd) as Hcall. unfold call_ok in Hcall. rewrite Hp in Hcall. destruct Hcall as (C1 & C2 & C3 & C4 & C5).
  destruct (request_facts s d c H Hd ltac:(by rewrite Hp)) as (Ho & Es & Hun). pose proof (lookup_lt_Some _ _ _ Hd) as Hlt.
  unfold main_step, activate_step, shootdown_step. rewrite Hp. unfold MAX_SHOOTDOWN_CPUS. destruct (Z.ltb_spec k 64) as [Hk|Hk].
  2:{ assert (k = 64) as -> by lia. by apply send_done_ok. }
  set (cpus1 := <[d := set_pc c (ISend p v r (k + 1))]> (sd_cpus s)). set (cpus' := if negb _ then _ else _).
  assert (forall e, exists f, cpus' !! e = f <$> cpus1 !! e /\ (forall x, sent k x (f x) e) /\
    (Z.testbit r k = true -> known k = true -> Z.of_nat e = k -> forall x, sc_ipi (f x) = true) /\ (Z.testbit r k = false -> forall x, f x = x)) as Hrel by (apply send_rel; lia).
  assert (length cpus' = length (sd_cpus s)) as Hlen.
  { unfold cpus'. destruct (negb _); [|apply length_insert]. destruct (apic_id_for_cpu k); [unfold send_ipi; rewrite length_imap|]; apply length_insert. }
  assert (forall e x', cpus' !! e = Some x' -> exists x1, cpus1 !! e = Some x1 /\ sent k x1 x' e /\
    (Z.testbit r k = true -> known k = true -> Z.of_nat e = k -> sc_ipi x' = true) /\ (Z.testbit r k = false -> x' = x1)) as Hx1.
  { intros e x' He. destruct (Hrel e) as (f & Ef & F1 & F2 & F3). rewrite Ef in He. destruct (cpus1 !! e) as [x1|]; [|done]. injection He as <-. exists x1. auto. }
  assert (exists c', cpus' !! d = Some c' /\ sc_pc c' = ISend p v r (k + 1)) as (c' & Hd' & Hpc').
  { destruct (Hrel d) as (f & Ef & F1 & _). unfold cpus1 in Ef. rewrite list_lookup_insert_eq in Ef by done. eexists. split; [exact Ef|].
    destruct (F1 (set_pc c (ISend p v r (k + 1)))) as [->|(_ & _ & ->)]; done. }
  eapply (holder_ok s d c'); [done|exact Hd'|exact Hlen|done|done| |by cbn; rewrite Hpc', Es| |].
  - intros e x' He. destruct (Hx1 e x' He) as (x1 & H1 & Hs & _). destruct (set_pc_rel s d c (ISend p v r (k + 1)) H Hd (or_introl eq_refl) Hun e x1 H1) as (x & Hx & R).
    exists x. split; [done|]. destruct Hs as [->|(_ & _ & ->)]; exact R.
  - unfold call_ok. rewrite Hpc'. split_and!; [done|cbn; by rewrite Hlen|lia|lia| |].
    + unfold request in *. cbn. rewrite C4. do 2 f_equal. symmetry. apply busy_send; [lia|done|]. intros e. destruct (Hrel e) as (f & Ef & F1 & F2 & _).
      destruct (decide (e = d)) as [->|Hne].
      * exists (fun x => f (set_pc x (ISend p v r (k + 1)))). rewrite Ef. unfold cpus1. rewrite list_lookup_insert_eq, Hd by done. split; [done|]. split.
        -- intros x. destruct (F1 (set_pc x (ISend p v r (k + 1)))) as [->|(E1 & E2 & _)]; [by left|by right].
        -- intros T1 T2 T3 x. unfold handling. by rewrite (F2 T1 T2 T3).
      * exists f. rewrite Ef. unfold cpus1. rewrite list_lookup_insert_ne by done. split; [done|]. split.
        -- intros x. destruct (F1 x) as [->|(E1 & E2 & _)]; [by left|by right].
        -- intros T1 T2 T3 x. unfold handling. by rewrite (F2 T1 T2 T3).
    + intros e x' He Hs. destruct (Hx1 e x' He) as (x1 & H1 & Hsent & F2 & _). assert (stale x1 p v) as Hs1 by (destruct Hsent as [->|(_ & _ & ->)]; exact Hs).
      assert (covers (awaited p r k) cpus1 p v) as Hcov by (by apply covers_set_pc). specialize (Hcov e x1 H1 Hs1).
      apply (awaited_send p r k e x1); [exact Hcov|destruct Hsent as [->|(_ & _ & ->)]; done..|exact F2].
  - intros e x' He Hx. exists d, c', p, r, (k + 1). split; [exact Hd'|]. split; [by rewrite Hpc'|]. destruct (Hx1 e x' He) as (x1 & H1 & Hsent & F2 & F3).
    assert (exists x, sd_cpus s !! e = Some x /\ sc_ipi x1 = sc_ipi x /\ sc_hand x1 = sc_hand x) as (x & Hx0 & Ei & Eh).
    { unfold cpus1 in H1. apply list_lookup_insert_Some in H1 as [(<- & <- & _)|[_ H1]]; [by exists c|by exists x1]. }
    destruct (handling x) eqn:Ehd.
    + destruct (owner_request s d c e x H Hd Ho Hx0 Ehd) as (p1 & r1 & k1 & Hq & Q1 & Q2 & Q3 & Q4 & Q5). rewrite Hp in Hq. injection Hq as <- <- <-.
      destruct Hsent as [->|(E & _ & _)]; [|lia]. rewrite Ei, Eh. split_and!; [done|lia|done..].
    + unfold handling in Ehd. apply orb_false_iff in Ehd as [Ehi Ehh]. destruct Hsent as [->|(E & Ek & ->)].
      * unfold handling in Hx. rewrite Ei, Eh, Ehi, Ehh in Hx. done.
      * assert (sc_hand x = HIdle) as Hidle by (by destruct (sc_hand x)). cbn. rewrite Eh, Hidle. destruct (Z.testbit r k) eqn:Er.
        -- rewrite E. split_and!; [done|lia|done|done|done].
        -- specialize (F3 eq_refl). unfold handling in Hx. rewrite F3, Ei, Eh, Ehi, Ehh in Hx. done.
Qed.

Lemma wait_ok s d c call p v r : sd_ok s -> sd_cpus s !! d = Some c -> sc_pc c = IWait p v r -> sd_ok (main_step call d c s).
Proof.
  intros H Hd Hp. pose proof (dk_call _ H d c Hd) as Hcall. unfold call_ok in Hcall. rewrite Hp in Hcall. destruct Hcall as (C1 & C2 & C3 & C4 & C5).
  destruct (request_facts s d c H Hd ltac:(by rewrite Hp)) as (Ho & Es & Hun). pose proof (lookup_lt_Some _ _ _ Hd) as Hlt.
  unfold main_step, activate_step, shootdown_step. rewrite Hp. unfold request in C4. rewrite C4. cbn [sr_remaining]. destruct (Z.eqb_spec (busy_count (sd_cpus s) r 64) 0) as [Hz|]; [|done].
  assert (forall e x, sd_cpus s !! e = Some x -> Z.testbit r (Z.of_nat e) = true -> apic_id_for_cpu (Z.of_nat e) <> None /\ handling x = false) as Hfree.
  { intros e x He Hr. pose proof (cpu_range s e x H He). destruct (busy (sd_cpus s) r 64 (Z.of_nat e)) eqn:Eb.
    - exfalso. pose proof (zsum_elem (fun i => if busy (sd_cpus s) r 64 i then 1 else 0) (seqZ 0 64) (Z.of_nat e)) as Hle. cbn beta in Hle. rewrite Eb in Hle.
      assert (1 <= 0); [|lia]. unfold busy_count in Hz. rewrite <- Hz. apply Hle; [intros i; by destruct (busy _ _ _ i)|]. apply elem_of_seqZ. lia.
    - unfold busy in Eb. rewrite Hr, Nat2Z.id, He in Eb. cbn [andb] in Eb. apply orb_false_iff in Eb as [Eb Eh]. apply orb_false_iff in Eb as [_ Ek].
      split; [|done]. unfold known in Ek. by destruct (apic_id_for_cpu (Z.of_nat e)). }
  eapply (holder_ok s d); [done|by apply list_lookup_insert_eq|by apply length_insert|done|done| |done| |].
  - apply set_pc_rel; [done..|right; eauto|exact Hun].
  - split; [done|]. cbn. intros e x He Hs. assert (covers (awaited p r 64) (<[d := set_pc c (IReturn p v)]> (sd_cpus s)) p v) as Hcov by (by apply covers_set_pc).
    destruct (Hcov e x He Hs) as [Hr Hcase]. assert (exists y, sd_cpus s !! e = Some y /\ sc_ipi x = sc_ipi y /\ sc_hand x = sc_hand y) as (y & Hy & Ei & Eh).
    { apply list_lookup_insert_Some in He as [(<- & <- & _)|[_ He]]; [by exists c|by exists x]. }
    destruct (Hfree e y Hy Hr) as [Ha Hh]. unfold handling in Hh. pose proof (cpu_range s e y H Hy). rewrite Ei, Eh in Hcase.
    destruct Hcase as [Hc|[Hc|[Hc|[Hc|Hc]]]]; [lia|done|rewrite Hc in Hh; done..| |]; rewrite Hc, orb_true_r in Hh; done.
  - intros e x' He Hx. exfalso. cbn in He. assert (exists y, sd_cpus s !! e = Some y /\ handling y = true) as (y & Hy & Ey).
    { apply list_lookup_insert_Some in He as [(<- & <- & _)|[_ He]]; [by exists c|by exists x']. }
    destruct (owner_request s d c e y H Hd Ho Hy Ey) as (p1 & r1 & k1 & Hq & Q1 & _). rewrite Hp in Hq. injection Hq as <- <- <-.
    destruct (Hfree e y Hy Q1) as [_ E]. congruence.
Qed.

(** ** The handler *)

Definition sends (pc : sd_pc) (p v r k : Z) : Prop := pc = ISend p v r k \/ (pc = IWait p v r /\ k = 64).

(** A step of the handler of processor [d], from the request's point of view. *)
Lemma hand_frame s d c c' slot' : sd_ok s -> sd_cpus s !! d = Some c -> handling c = true ->
  sc_pc c' = sc_pc c -> sc_cr3 c' = sc_cr3 c -> (forall q w, sc_tlb c' q = Some w -> sc_tlb c q = Some w) ->
  let s' := {| sd_pt := sd_pt s; sd_active := sd_active s; sd_serial := sd_serial s; sd_slot := slot'; sd_cpus := <[d := c']> (sd_cpus s) |} in
  (sc_ipi c' = true -> sc_hand c' = HIdle) ->
  (forall p v r k, sending s p v r k -> Z.testbit r (Z.of_nat d) = true -> Z.of_nat d < k -> known (Z.of_nat d) = true ->
     (sc_ipi c = true -> sc_hand c = HIdle) -> (forall q, sc_hand c = HFlush q -> q = p) ->
     request s' p r k /\ (stale c' p v -> awaited p r k (Z.of_nat d) c -> awaited p r k (Z.of_nat d) c') /\ forall q, sc_hand c' = HFlush q -> q = p) ->
  sd_ok s'.
Proof.
  intros H Hd Hc Ep Ec Ht s' Hih Hsend. pose proof (lookup_lt_Some _ _ _ Hd) as Hlt. pose proof H as [K1 K2 K3 K4 K5 K6 K7].
  assert (forall q v, stale c' q v -> stale c q v) as Hst. { intros q v [Hs (w & Hw & Hlw)]. split; [congruence|]. exists w. auto. }
  assert (forall e x', <[d := c']> (sd_cpus s) !! e = Some x' -> exists x, sd_cpus s !! e = Some x /\ sc_pc x' = sc_pc x /\ sc_cr3 x' = sc_cr3 x /\
    (forall q w, sc_tlb x' q = Some w -> sc_tlb x q = Some w)) as Hrel.
  { intros e x' He. apply list_lookup_insert_Some in He as [(<- & <- & _)|[_ He]]; [by exists c|by exists x']. }
  assert (forall P p v, covers (fun j (_ : sd_cpu) => P j) (sd_cpus s) p v -> covers (fun j (_ : sd_cpu) => P j) (<[d := c']> (sd_cpus s)) p v) as Hcov.
  { intros P p v. apply covers_shrink. intros e x' He Hs. apply list_lookup_insert_Some in He as [(<- & <- & _)|[_ He]]; [exists c; auto|by exists x']. }
  destruct (K7 d c Hd Hc) as (i & y & p & r & k & Hy & Hq & Q1 & Q2 & Q3 & Q4 & Q5). pose proof (request_owns _ _ Hq) as Hyo.
  assert (forall e x p0 v0 r0 k0, sd_cpus s !! e = Some x -> sends (sc_pc x) p0 v0 r0 k0 -> sending s p0 v0 r0 k0 -> sending s' p0 v0 r0 k0) as Hsd.
  { intros e x p0 v0 r0 k0 He Hx Hs0. assert (owns (sc_pc x) = 1) as Hxo by (by destruct Hx as [->|[-> _]]). destruct (decide (e = i)) as [->|Hne].
    2:{ pose proof (owner_unique s i e y x H Hy He Hyo Hne). lia. }
    assert (x = y) as -> by congruence. assert (Some (p0, r0, k0) = Some (p, r, k)) as E. { rewrite <- Hq. destruct Hx as [->|[-> ->]]; done. } injection E as -> -> ->.
    destruct (Hsend p v0 r k Hs0 Q1 Q2 Q3 Q4 Q5) as (R1 & R2 & _). destruct Hs0 as (S1 & S2 & S3 & S4 & S5). split_and!; [done|cbn; by rewrite length_insert|lia|lia|done|].
    revert S5. apply covers_shrink. intros j x' Hj Hs. apply list_lookup_insert_Some in Hj as [(<- & <- & _)|[_ Hj]]; [exists c; auto|by exists x']. }
  constructor; try done.
  - cbn. by rewrite length_insert.
  - cbn. by rewrite length_insert.
  - intros e x' He Hl. destruct (Hrel e x' He) as (x & Hx & E1 & E2 & _). apply (K3 e x Hx). unfold loads in *. by rewrite <- E1, <- E2.
  - intros e x' q w He Hw. destruct (Hrel e x' He) as (x & Hx & _ & _ & E3). by apply (K4 e x q w Hx), E3.
  - cbn. rewrite (zsum_insert _ _ _ c) by done. rewrite Ep. lia.
  - intros e x' He. destruct (Hrel e x' He) as (x & Hx & E1 & E2 & _). specialize (K6 e x Hx). specialize (Hsd e x). unfold call_ok, sends in *. rewrite E1, E2. cbn [sd_pt sd_cpus s'].
    destruct (sc_pc x); try done; try (rewrite length_insert; destruct K6 as (H1 & H2 & H3); split_and!; auto; fail).
    + by apply Hsd; [|left|].
    + by apply Hsd; [|right|].
    + destruct K6 as (H1 & H2). split; [done|]. by apply (Hcov (fun _ => False)).
  - assert (exists y', <[d := c']> (sd_cpus s) !! i = Some y' /\ sc_pc y' = sc_pc y) as (y' & Hy' & Ey').
    { destruct (decide (i = d)) as [->|Hne]; [exists c'; rewrite list_lookup_insert_eq by done; split; [done|congruence]|exists y; by rewrite list_lookup_insert_ne]. }
    intros e x' He Hx. apply list_lookup_insert_Some in He as [(<- & <- & _)|[Hne He]].
    + exists i, y', p, r, k. rewrite Ey'. split_and!; try done. assert (exists v, sending s p v r k) as (v & Hs0).
      { specialize (K6 i y Hy). unfold call_ok in K6. destruct (sc_pc y); try done; injection Hq as <- <- <-; eauto. }
      by destruct (Hsend p v r k Hs0 Q1 Q2 Q3 Q4 Q5) as (_ & _ & R3).
    + destruct (owner_request s i y e x' H Hy Hyo He Hx) as (p1 & r1 & k1 & Hq1 & Hrest). exists i, y', p1, r1, k1. by rewrite Ey'.
Qed.

Lemma request_keep s d c c' p r k : sd_cpus s !! d = Some c -> handling c' = handling c -> request s p r k -> request (put s d c') p r k.
Proof.
  intros Hd Hh Hr. unfold request in *. cbn. rewrite Hr. do 2 f_equal. symmetry. apply busy_count_ext. intros e.
  destruct (decide (e = d)) as [->|]; [rewrite list_lookup_insert_eq, Hd by (by eapply lookup_lt_Some); cbn; by rewrite Hh|by rewrite list_lookup_insert_ne].
Qed.

(** Counting off. *)
Lemma busy_done cpus d c r k : cpus !! d = Some c -> (d < 64)%nat -> Z.testbit r (Z.of_nat d) = true -> Z.of_nat d < k -> known (Z.of_nat d) = true ->
  handling c = true -> sc_ipi c = false -> busy_count (<[d := set_hand c HIdle]> cpus) r k = busy_count cpus r k - 1.
Proof.
  intros Hd H64 Hr Hk Hkn Hh Hi. unfold busy_count. rewrite (zsum_change _ (fun i => if busy cpus r k i then 1 else 0) _ (Z.of_nat d)).
  - unfold busy. rewrite Hr, Hkn, Nat2Z.id, Hd, list_lookup_insert_eq, Hh by (by eapply lookup_lt_Some). rewrite (proj2 (Z.leb_gt _ _)) by lia. unfold handling. cbn. rewrite Hi. cbn. lia.
  - apply NoDup_seqZ.
  - apply elem_of_seqZ. lia.
  - intros j Hj%elem_of_seqZ Hne. unfold busy. rewrite list_lookup_insert_ne; [done|lia].
Qed.

Lemma busy_count_range cpus r k : 0 <= busy_count cpus r k <= 64.
Proof.
  unfold busy_count. split; [apply zsum_nonneg; intros i; by destruct (busy _ _ _ i)|].
  assert (forall l, zsum (fun i => if busy cpus r k i then 1 else 0) l <= Z.of_nat (length l)) as Hl; [|apply (Hl (seqZ 0 64))].
  induction l as [|i l IH]; [done|]. cbn [zsum length]. destruct (busy cpus r k i); lia.
Qed.

Lemma hand_step_ok s d c : sd_ok s -> sd_cpus s !! d = Some c -> sd_ok (hand_step d c s).
Proof.
  intros H Hd. pose proof (cpu_range s d c H Hd) as Hr. unfold hand_step. destruct (sc_hand c) as [| |q|] eqn:Eh.
  - destruct (sc_ipi c) eqn:Ei; [|done]. destruct (interruptible c); [|done]. cbn [andb].
    apply (hand_frame s d c); try done; [by unfold handling; rewrite Ei|]. intros p v r k Hs _ _ _ _ _. split; [|split; [|done]].
    + apply (request_keep s d c); [done| |apply Hs]. unfold handling. by rewrite Ei.
    + intros _ [Ht _]. split; [done|]. cbn. tauto.
  - apply (hand_frame s d c); try done; [unfold handling; rewrite Eh; apply orb_true_r|cbn|].
    { intros Hi. destruct (dk_hand _ H d c Hd) as (? & ? & ? & ? & ? & ? & ? & ? & ? & ? & Hx & _); [unfold handling; by rewrite Hi|]. rewrite (Hx Hi) in Eh. done. }
    intros p v r k (_ & _ & _ & Hreq & _) Ht _ _ _ _. unfold request in Hreq. rewrite Hreq. cbn [sr_target_mask sr_virt]. unfold cpu_bit, MAX_SHOOTDOWN_CPUS.
    rewrite Z.mod_small, land_bit, Ht by lia. split; [|split].
    + rewrite <- Hreq. apply (request_keep s d c); [done| |done]. unfold handling. cbn. by rewrite Eh.
    + intros _ [_ Hcase]. split; [done|]. cbn. rewrite Eh in Hcase. destruct Hcase as [?|[?|[?|[?|?]]]]; [by left|by right; left|by right; right; left|by right; right; right; right..].
    + intros q [= ->]. done.
  - apply (hand_frame s d c); try done; [unfold handling; rewrite Eh; apply orb_true_r|intros q' w; apply flush_tlb_sub|cbn|].
    { intros Hi. destruct (dk_hand _ H d c Hd) as (? & ? & ? & ? & ? & ? & ? & ? & ? & ? & Hx & _); [unfold handling; by rewrite Hi|]. rewrite (Hx Hi) in Eh. done. }
    intros p v r k (_ & _ & _ & Hreq & _) _ _ _ _ Hq. split; [|split; [|done]].
    + apply (request_keep s d c); [done| |done]. unfold handling. cbn. by rewrite Eh.
    + intros Hs. exfalso. rewrite (Hq q Eh) in Hs. by apply (flush_stale c p v).
  - apply (hand_frame s d c); try done; [unfold handling; rewrite Eh; apply orb_true_r|]. intros p v r k (_ & _ & _ & Hreq & _) Ht Hk Hkn Hi _.
    assert (sc_ipi c = false) as Ei by (destruct (sc_ipi c); [rewrite Hi in Eh by done; done|done]).
    assert (handling c = true) as Hh by (unfold handling; rewrite Eh; apply orb_true_r). split; [|split; [|done]].
    + unfold request in *. cbn. rewrite Hreq. cbn. do 2 f_equal. pose proof (busy_done (sd_cpus s) d c r k Hd ltac:(lia) Ht Hk Hkn Hh Ei) as Eb. rewrite Eb.
      pose proof (busy_count_range (<[d := set_hand c HIdle]> (sd_cpus s)) r k). rewrite Eb in *. pose proof (busy_count_range (sd_cpus s) r k). apply wrap64_small. unfold is_u64. lia.
    + intros _ [_ Hcase]. exfalso. unfold known in Hkn. rewrite Eh, Ei in Hcase. destruct Hcase as [?|[E|[?|[?|?]]]]; [lia|by rewrite E in Hkn|done..].
Qed.

Lemma main_step_ok s call d c : sd_ok s -> sd_cpus s !! d = Some c -> sd_ok (main_step call d c s).
Proof.
  intros H Hd. destruct (sc_pc c) eqn:Ep.
  - destruct call; [by apply activate_ok|by apply leave_ok|by apply remap_ok].
  - by apply load_ok.
  - by apply unmark_ok.
  - by eapply snapshot_ok.
  - by eapply local_flush_ok.
  - by eapply lock_ok.
  - by eapply request_ok.
  - by eapply send_ok.
  - by eapply wait_ok.
  - by eapply return_ok.
Qed.

Lemma sd_init_ok n : (n <= 64)%nat -> sd_ok (sd_init n).
Proof.
  intros Hn. constructor; cbn.
  - by rewrite length_replicate.
  - split; [done|]. intros i Hi. by rewrite Z.bits_0 in Hi.
  - intros d c [-> _]%lookup_replicate [Hl|[Hl|Hl]]; done.
  - intros d c p w [-> _]%lookup_replicate. done.
  - clear Hn. induction n as [|n IH]; [done|]. cbn. done.
  - intros d c [-> _]%lookup_replicate. done.
  - intros d c [-> _]%lookup_replicate. done.
Qed.

(** C6: No processor keeps an old translation.  When [shootdown_page] returns after a change
    of the mapping of page [p], no processor that has the address space loaded caches
    what [p] was mapped to before the change, whatever processors activated the space,
    switched away from it, filled their TLBs and changed mappings of this or other
    pages meanwhile. *)
Theorem shootdown_no_stale n s i c p v : (n <= 64)%nat -> rtc sd_step (sd_init n) s -> sd_cpus s !! i = Some c -> sc_pc c = IReturn p v ->
  forall d x w, sd_cpus s !! d = Some x -> sc_cr3 x = true -> sc_tlb x p = Some w -> v <= w.
Proof.
  intros Hn Hrun Hi Hp d x w Hd Hc Hw. assert (sd_ok s) as H.
  { apply (rtc_invariant sd_step sd_ok (sd_init n)); [by apply sd_init_ok| |exact Hrun].
    intros y y' Hy Hs. destruct Hs as [e z q y Hz Hz1|call e z y Hz Hz1|e z y Hz]; [by apply fill_ok|by apply main_step_ok|by apply hand_step_ok]. }
  pose proof (dk_call _ H i c Hi) as Hcall. unfold call_ok in Hcall. rewrite Hp in Hcall. destruct Hcall as [_ Hcov].
  destruct (Z.lt_ge_cases w v) as [Hlt|]; [|done]. destruct (Hcov d x Hd). split; [done|]. by exists w.
Qed.

End System.

(** ** Schedules *)

Inductive sd_act := AFill (p : Z) | AMain (call : sd_call) | AHand.

Section Runs.
Context (apic : Z -> option Z) (hw : nat -> Z).

Definition sd_next (s : sd_state) (d : nat) (a : sd_act) : sd_state :=
  match sd_cpus s !! d with
  | None => s
  | Some c =>
      match a with
      | AFill p => if sc_cr3 c then put s d (fill_tlb c p (sd_pt s p)) else s
      | AMain call => match sc_hand c with HIdle => main_step apic hw call d c s | _ => s end
      | AHand => hand_step d c s
      end
  end.

Definition sd_run (s : sd_state) (sched : list (nat * sd_act)) : sd_state := foldl (fun s '(d, a) => sd_next s d a) s sched.

Lemma sd_run_steps s sched : rtc (sd_step apic hw) s (sd_run s sched).
Proof.
  revert s. induction sched as [|[d a] sched IH]; intros s; [done|]. cbn [sd_run foldl]. etrans; [|apply IH]. unfold sd_next.
  destruct (sd_cpus s !! d) as [c|] eqn:Hd; [|done]. destruct a as [p|call|].
  - destruct (sc_cr3 c) eqn:E; [|done]. apply rtc_once. by constructor.
  - destruct (sc_hand c) eqn:E; try done. apply rtc_once. by constructor.
  - apply rtc_once. by constructor.
Qed.

End Runs.

(** Two processors, each with its number as APIC identifier, with the space loaded. *)
Definition both_loaded : list (nat * sd_act) := let m d := (d, AMain CActivate) in [m 0%nat; m 0%nat; m 1%nat; m 1%nat].

(** Processor 0 changes page 4096, which processor 1 has cached; the interrupt makes it
    drop the entry, and it reads the new one. *)
Definition remap_run : list (nat * sd_act) :=
  both_loaded ++ [(1%nat, AFill 4096)] ++ replicate 70 (0%nat, AMain (CRemap 4096 false)) ++ replicate 4 (1%nat, AHand) ++ [(1%nat, AFill 4096)] ++
  [(0%nat, AMain CLeave)].

Lemma shootdown_no_stale_witness : exists s, rtc (sd_step (fun k => Some k) Z.of_nat) (sd_init 2) s /\
  (exists c, sd_cpus s !! 0%nat = Some c /\ sc_pc c = IReturn 4096 1) /\
  forall x w, sd_cpus s !! 1%nat = Some x -> sc_cr3 x = true -> sc_tlb x 4096 = Some w -> 1 <= w.
Proof.
  pose proof (sd_run_steps (fun k => Some k) Z.of_nat (sd_init 2) remap_run) as Hrun. exists (sd_run (fun k => Some k) Z.of_nat (sd_init 2) remap_run). split; [exact Hrun|].
  assert (exists c, sd_cpus (sd_run (fun k => Some k) Z.of_nat (sd_init 2) remap_run) !! 0%nat = Some c /\ sc_pc c = IReturn 4096 1) as (c & Hc & Hp).
  { eexists. split; [vm_compute; reflexivity|reflexivity]. }
  split; [exists c; split; [exact Hc|exact Hp]|]. intros x w. refine (shootdown_no_stale (fun k => Some k) Z.of_nat _ 2 _ 0 c 4096 1 _ Hrun Hc Hp 1%nat x w); [|lia].
  intros k a _ Ha e. injection Ha as <-. reflexivity.
Defined.

(** ** Two callers at once *)

(** Both processors change a mapping with interrupts off, as every system call and page
    fault does.  One gets the lock and waits for the other, which spins on the lock and
    never takes the interrupt. *)
Definition crossed_run : list (nat * sd_act) :=
  both_loaded ++ [(0%nat, AMain (CRemap 4096 false)); (1%nat, AMain (CRemap 8192 false))] ++
  replicate 2 (1%nat, AMain CLeave) ++ replicate 70 (0%nat, AMain CLeave).

Definition crossed (s : sd_state) : Prop := sd_serial s = true /\
  (exists r, sd_slot s = Some r /\ sr_remaining r = 1) /\
  exists c0 c1, sd_cpus s = [c0; c1] /\ (exists p v r, sc_pc c0 = IWait p v r) /\ (exists p v r, sc_pc c1 = ISerial p v r) /\
    sc_hand c0 = HIdle /\ sc_hand c1 = HIdle /\ sc_ipi c0 = false /\ sc_if c1 = false.

Lemma crossed_stays apic hw s s' : crossed s -> sd_step apic hw s s' -> crossed s'.
Proof.
  intros (Hs & (r & Hr & Hr1) & c0 & c1 & Ec & (p0 & v0 & r0 & P0) & (p1 & v1 & r1 & P1) & H0 & H1 & I0 & I1) Hstep.
  destruct Hstep as [d c p s Hd Hc|call d c s Hd Hc|d c s Hd]; rewrite Ec in Hd.
  - destruct d as [|[|d]]; [injection Hd as <-|injection Hd as <-|done]; split; try done; (split; [by exists r|]); cbn; rewrite Ec.
    + exists (fill_tlb c0 p (sd_pt s p)), c1. cbn. split_and!; eauto.
    + exists c0, (fill_tlb c1 p (sd_pt s p)). cbn. split_and!; eauto.
  - destruct d as [|[|d]]; [injection Hd as <-|injection Hd as <-|done]; unfold main_step, activate_step, shootdown_step.
    + rewrite P0, Hr, Hr1. split; [done|]. split; [by exists r|]. exists c0, c1. split_and!; eauto.
    + rewrite P1, Hs. split; [done|]. split; [by exists r|]. exists c0, c1. split_and!; eauto.
  - destruct d as [|[|d]]; [injection Hd as <-|injection Hd as <-|done]; unfold hand_step.
    + rewrite H0, I0. split; [done|]. split; [by exists r|]. exists c0, c1. split_and!; eauto.
    + rewrite H1. unfold interruptible. rewrite P1, I1, andb_false_r. split; [done|]. split; [by exists r|]. exists c0, c1. split_and!; eauto.
Qed.

Lemma shootdown_deadlock : exists s, rtc (sd_step (fun k => Some k) Z.of_nat) (sd_init 2) s /\
  forall s', rtc (sd_step (fun k => Some k) Z.of_nat) s s' -> crossed s'.
Proof.
  exists (sd_run (fun k => Some k) Z.of_nat (sd_init 2) crossed_run). split; [apply sd_run_steps|]. intros s' Hrun.
  refine (rtc_invariant _ crossed _ _ _ _ Hrun); [|intros y y' Hy Hs; by eapply crossed_stays].
  split; [reflexivity|]. split; [eexists; split; vm_compute; reflexivity|]. eexists _, _. split; [vm_compute; reflexivity|].
  split; [eexists _, _, _; reflexivity|]. split; [eexists _, _, _; reflexivity|].
  split; [reflexivity|]. split; [reflexivity|]. split; reflexivity.
Qed.
