(* ===== verification/CpuTable.v ===== *)
(** * The processors

    crates/smp/src: the table of processors (cpuinfo.rs), the start of the application
    processors from the list the firmware tables give (trampoline.rs) and their entry
    (ap_entry.rs).  The stacks and whether a processor reports back in time are
    arguments; interprocessor interrupts are recorded. *)

From Stdlib Require Import ZArith Lia.
From stdpp Require Import prelude list.
From S2P Require Import Prelude Acpi Shootdown.

Local Open Scope Z_scope.

Record CpuInfo := { ci_cpu_id : Z; ci_apic_id : Z; ci_online : bool; ci_stack_top : Z }.

Definition CpuInfo_zeroed : CpuInfo := {| ci_cpu_id := 0; ci_apic_id := 0; ci_online := false; ci_stack_top := 0 |}.

(** [CPU_TABLE] and [CPU_COUNT]. *)
Record cpu_table := { ct_table : list CpuInfo; ct_count : Z }.

Definition CPU_TABLE : cpu_table := {| ct_table := replicate MAX_CPUS CpuInfo_zeroed; ct_count := 0 |}.

(** The exchange loop raises the count to [cpu_id + 1]. *)
Definition register_cpu (t : cpu_table) (cpu_id apic_id stack_top : Z) : cpu_table :=
  if Z.of_nat MAX_CPUS <=? cpu_id then t else
  {| ct_table := <[Z.to_nat cpu_id := {| ci_cpu_id := cpu_id; ci_apic_id := apic_id; ci_online := false; ci_stack_top := stack_top |}]> (ct_table t);
     ct_count := Z.max (ct_count t) (cpu_id + 1) |}.

Definition set_online (c : CpuInfo) : CpuInfo :=
  {| ci_cpu_id := ci_cpu_id c; ci_apic_id := ci_apic_id c; ci_online := true; ci_stack_top := ci_stack_top c |}.

Definition set_cpu_online (t : cpu_table) (cpu_id : Z) : cpu_table :=
  if Z.of_nat MAX_CPUS <=? cpu_id then t else {| ct_table := alter set_online (Z.to_nat cpu_id) (ct_table t); ct_count := ct_count t |}.

Definition apic_id_to_cpu_id (t : cpu_table) (apic_id : Z) : option Z :=
  let count := Z.min (ct_count t) (Z.of_nat MAX_CPUS) in
  (fun '(_, c) => ci_cpu_id c) <$> list_find (fun c => ci_apic_id c = apic_id) (take (Z.to_nat count) (ct_table t)).

Definition apic_id_for_cpu (t : cpu_table) (cpu_id : Z) : option Z :=
  if Z.of_nat MAX_CPUS <=? cpu_id then None else
  if Z.min (ct_count t) (Z.of_nat MAX_CPUS) <=? cpu_id then None else ci_apic_id <$> ct_table t !! Z.to_nat cpu_id.

Definition stack_top (t : cpu_table) (cpu_id : Z) : option Z :=
  if Z.of_nat MAX_CPUS <=? cpu_id then None else
  c ← ct_table t !! Z.to_nat cpu_id; if ci_stack_top c =? 0 then None else Some (ci_stack_top c).

(** ** Starting the others *)

Inductive ap_ipi := SendInit (apic_id : Z) | SendSipi (apic_id vector : Z).

Definition TRAMPOLINE_PHYS : Z := 0x8000.
Definition trampoline_vector : Z := Z.shiftr TRAMPOLINE_PHYS 12 mod 256.

Section Start.
(** The stack of each processor, and whether [wait_for_ready] sees it arrive. *)
Context (stack_of : Z -> Z) (ready : Z -> bool).

(** The loop of [start_aps]. *)
Fixpoint start_loop (bsp_apic_id : Z) (cpus : list CpuEntry) (next_cpu_id started : Z) (t : cpu_table) : Z * cpu_table * list ap_ipi :=
  match cpus with
  | [] => (started, t, [])
  | cpu :: rest =>
      if ce_apic_id cpu =? bsp_apic_id then start_loop bsp_apic_id rest next_cpu_id started t else
      let t1 := register_cpu t next_cpu_id (ce_apic_id cpu) (stack_of next_cpu_id) in
      let ipis := [SendInit (ce_apic_id cpu); SendSipi (ce_apic_id cpu) trampoline_vector; SendSipi (ce_apic_id cpu) trampoline_vector] in
      let '(n, t2, log) := start_loop bsp_apic_id rest (next_cpu_id + 1) (if ready next_cpu_id then started + 1 else started) t1 in
      (n, t2, ipis ++ log)
  end.

Definition start_aps (bsp_apic_id : Z) (cpus : list CpuEntry) (t : cpu_table) : Z * cpu_table * list ap_ipi :=
  start_loop bsp_apic_id cpus 1 0 (set_cpu_online (register_cpu t 0 bsp_apic_id 0) 0).

(** [ap_entry_rust] up to the report, on the processor with identifier [apic_id]. *)
Definition ap_entry (t : cpu_table) (apic_id : Z) : outcome cpu_table :=
  cpu_id ← expect (apic_id_to_cpu_id t apic_id); Done (set_cpu_online t cpu_id).

(** ** What the table says *)

(** The identifiers by processor number: the boot processor, then the others. *)
Definition numbered (bsp : Z) (cpus : list CpuEntry) : list Z := bsp :: filter (fun a => a <> bsp) (ce_apic_id <$> cpus).

Record table_ok (t : cpu_table) (ids : list Z) : Prop := {
  tk_length : length (ct_table t) = MAX_CPUS;
  tk_count : ct_count t = Z.of_nat (length ids);
  tk_small : (length ids <= MAX_CPUS)%nat;
  tk_entry : forall k a, ids !! k = Some a -> exists c, ct_table t !! k = Some c /\ ci_cpu_id c = Z.of_nat k /\ ci_apic_id c = a
}.

Lemma register_ok t ids a stack : table_ok t ids -> (length ids < MAX_CPUS)%nat -> table_ok (register_cpu t (Z.of_nat (length ids)) a stack) (ids ++ [a]).
Proof.
  intros [K1 K2 K3 K4] Hl. unfold register_cpu. rewrite (proj2 (Z.leb_gt _ _)) by lia. rewrite Nat2Z.id. constructor; cbn.
  - by rewrite length_insert.
  - rewrite K2, length_app. cbn. lia.
  - rewrite length_app. cbn. lia.
  - intros k b Hk. apply lookup_app_Some in Hk as [Hk|[Hge Hk]].
    + rewrite list_lookup_insert_ne; [by apply K4|]. apply lookup_lt_Some in Hk. lia.
    + apply list_lookup_singleton_Some in Hk as [Hk <-]. assert (k = length ids) as -> by lia. rewrite list_lookup_insert_eq by lia. eexists. done.
Qed.

Lemma online_ok t ids k : table_ok t ids -> table_ok (set_cpu_online t k) ids.
Proof.
  intros [K1 K2 K3 K4]. unfold set_cpu_online. destruct (_ <=? k); [by constructor|]. constructor; cbn; try done; [by rewrite length_alter|].
  intros j a Hj. destruct (K4 j a Hj) as (c & Hc & E1 & E2). destruct (decide (j = Z.to_nat k)) as [->|Hne].
  - rewrite list_lookup_alter_eq, Hc. by exists (set_online c).
  - rewrite list_lookup_alter_ne by done. by exists c.
Qed.

(** Both lookups, on a table with distinct identifiers. *)
Lemma table_lookups t ids : table_ok t ids -> NoDup ids ->
  (forall k, 0 <= k -> apic_id_for_cpu t k = ids !! Z.to_nat k) /\
  (forall a k, apic_id_to_cpu_id t a = Some k <-> 0 <= k /\ ids !! Z.to_nat k = Some a).
Proof.
  intros [K1 K2 K3 K4] Hnd. split.
  - intros k Hk. unfold apic_id_for_cpu. rewrite K2. destruct (ids !! Z.to_nat k) as [a|] eqn:E.
    + pose proof (lookup_lt_Some _ _ _ E). rewrite !(proj2 (Z.leb_gt _ _)) by lia. destruct (K4 _ _ E) as (c & -> & _ & <-). done.
    + apply lookup_ge_None in E. destruct (_ <=? k); [done|]. rewrite (proj2 (Z.leb_le _ _)) by lia. done.
  - intros a k. unfold apic_id_to_cpu_id. rewrite K2, Z.min_l, Nat2Z.id by lia.
    assert (forall j c, take (length ids) (ct_table t) !! j = Some c -> ids !! j = Some (ci_apic_id c) /\ ci_cpu_id c = Z.of_nat j) as Hent.
    { intros j c Hj. apply lookup_take_Some in Hj as [Hj Hlt]. destruct (lookup_lt_is_Some_2 ids j Hlt) as [b Hb]. destruct (K4 j b Hb) as (c' & Hc' & E1 & E2).
      rewrite Hj in Hc'. injection Hc' as <-. by rewrite Hb, E2. }
    destruct (list_find _ _) as [[j c]|] eqn:Ef; cbn.
    + apply list_find_Some in Ef as (Hj & <- & _). destruct (Hent j c Hj) as [Hi Ec]. rewrite Ec. split; [intros [= <-]; split; [lia|by rewrite Nat2Z.id]|].
      intros [Hk Hi']. f_equal. pose proof (NoDup_lookup _ _ _ _ Hnd Hi Hi'). lia.
    + split; [done|]. intros [Hk Hi]. exfalso. apply list_find_None in Ef. destruct (K4 _ _ Hi) as (c & Hc & _ & Ea). rewrite Forall_forall in Ef. apply (Ef c); [|done].
      apply (list_elem_of_lookup_2 _ (Z.to_nat k)). rewrite lookup_take_lt; [done|]. by apply lookup_lt_Some in Hi.
Qed.

Definition ap_ipis (a : Z) : list ap_ipi := [SendInit a; SendSipi a trampoline_vector; SendSipi a trampoline_vector].

Lemma start_loop_spec bsp cpus : forall ids started t, table_ok t ids ->
  (length ids + length (filter (fun a => a <> bsp) (ce_apic_id <$> cpus)) <= MAX_CPUS)%nat ->
  let aps := filter (fun a => a <> bsp) (ce_apic_id <$> cpus) in
  let '(n, t', log) := start_loop bsp cpus (Z.of_nat (length ids)) started t in
  table_ok t' (ids ++ aps) /\ log = aps ≫= ap_ipis /\
  n = started + zsum (fun k => if ready k then 1 else 0) (seqZ (Z.of_nat (length ids)) (Z.of_nat (length aps))).
Proof.
  induction cpus as [|cpu cpus IH]; intros ids started t Ht Hl aps; unfold aps; clear aps; cbn [start_loop].
  - rewrite fmap_nil, filter_nil, app_nil_r. split; [done|]. split; [done|]. cbn [length]. rewrite seqZ_nil by lia. cbn [zsum]. lia.
  - rewrite fmap_cons, filter_cons in Hl |- *. destruct (Z.eqb_spec (ce_apic_id cpu) bsp) as [E|E].
    + rewrite decide_False in Hl |- * by (intros H; by apply H). by apply IH.
    + rewrite decide_True in Hl |- * by done. cbn [length] in Hl.
      pose proof (register_ok t ids (ce_apic_id cpu) (stack_of (Z.of_nat (length ids))) Ht ltac:(lia)) as Ht1.
      specialize (IH (ids ++ [ce_apic_id cpu]) (if ready (Z.of_nat (length ids)) then started + 1 else started) _ Ht1).
      rewrite length_app in IH. cbn [length] in IH. replace (Z.of_nat (length ids + 1)) with (Z.of_nat (length ids) + 1) in IH by lia. specialize (IH ltac:(lia)). cbv zeta in IH.
      destruct (start_loop _ _ _ _ _) as [[n t2] log]. destruct IH as (I1 & I2 & I3). split_and!.
      * by rewrite <- app_assoc in I1.
      * rewrite I2. done.
      * rewrite I3. cbn [length]. rewrite (seqZ_cons _ (Z.of_nat (S _))) by lia. cbn [zsum].
        replace (Z.pred (Z.of_nat (S (length (filter (fun a => a <> bsp) (ce_apic_id <$> cpus)))))) with (Z.of_nat (length (filter (fun a => a <> bsp) (ce_apic_id <$> cpus)))) by lia.
        unfold Z.succ. destruct (ready _); lia.
Qed.

Lemma ready_le k : forall m, zsum (fun i => if ready i then 1 else 0) (seqZ m (Z.of_nat k)) <= Z.of_nat k.
Proof.
  induction k as [|k IH]; intros m; [by rewrite seqZ_nil by lia|]. rewrite seqZ_cons by lia. cbn [zsum].
  replace (Z.pred (Z.of_nat (S k))) with (Z.of_nat k) by lia. specialize (IH (Z.succ m)). destruct (ready m); lia.
Qed.

(** The processors started.  Given distinct identifiers and at most 64 processors, every
    processor but the boot processor gets one INIT and two start-up interrupts, in the
    order of the list; the numbers they get are those of the list, the boot processor
    being 0; the two lookups of the table are inverse to each other; and each processor
    finds itself in the table when it arrives, even after others have. *)
Theorem start_aps_correct bsp cpus : NoDup (ce_apic_id <$> cpus) -> (length (numbered bsp cpus) <= 64)%nat ->
  let '(n, t, log) := start_aps bsp cpus CPU_TABLE in
  let ids := numbered bsp cpus in
  log = tail ids ≫= ap_ipis /\ 0 <= n <= Z.of_nat (length (tail ids)) /\
  (forall k, 0 <= k -> apic_id_for_cpu t k = ids !! Z.to_nat k) /\
  (forall a k, apic_id_to_cpu_id t a = Some k <-> 0 <= k /\ ids !! Z.to_nat k = Some a) /\
  (forall arrived a, a ∈ ids -> exists t', ap_entry (foldl set_cpu_online t arrived) a = Done t').
Proof.
  intros Hnd Hl. assert (table_ok CPU_TABLE []) as H0 by (constructor; [done|done|cbn; lia|done]).
  pose proof (online_ok _ _ 0 (register_ok CPU_TABLE [] bsp 0 H0 ltac:(cbn; unfold MAX_CPUS; lia))) as H1. cbn [app length] in H1.
  assert (NoDup (numbered bsp cpus)) as Hnn. { constructor; [|by apply NoDup_filter]. by rewrite list_elem_of_filter; intros [? _]. }
  unfold start_aps. pose proof (start_loop_spec bsp cpus [bsp] 0 _ H1) as Hs. cbv zeta in Hs. cbn [length] in Hs.
  change (Z.of_nat 1) with 1 in Hs. change (Z.of_nat 0) with 0 in Hs. destruct (start_loop _ _ 1 _ _) as [[n t] log]. destruct Hs as (Ht & -> & ->); [exact Hl|].
  change ([bsp] ++ _) with (numbered bsp cpus) in Ht. destruct (table_lookups t _ Ht Hnn) as [L1 L2]. split_and!; try done.
  - apply zsum_nonneg. intros k. by destruct (ready k).
  - cbn [tail numbered]. rewrite Z.add_0_l. apply ready_le.
  - intros arrived a Ha. assert (table_ok (foldl set_cpu_online t arrived) (numbered bsp cpus)) as Ht'.
    { clear L1 L2. revert t Ht. induction arrived as [|k arrived IH]; intros t Ht; [done|]. cbn. by apply IH, online_ok. }
    destruct (table_lookups _ _ Ht' Hnn) as [_ L2']. apply list_elem_of_lookup in Ha as [j Hj]. unfold ap_entry.
    rewrite (proj2 (L2' a (Z.of_nat j))) by (by rewrite Nat2Z.id; split; [lia|]). eauto.
Qed.

End Start.

(** The local APIC of each processor after start-up. *)
Definition hw_of (bsp : Z) (cpus : list CpuEntry) (e : nat) : Z := default (-1) (numbered bsp cpus !! e).

(** The table is what the shootdown protocol needs: an interrupt sent to the identifier
    it gives for a processor arrives at that processor and no other. *)
Lemma started_hw stack_of ready bsp cpus : NoDup (ce_apic_id <$> cpus) -> (length (numbered bsp cpus) <= 64)%nat ->
  Forall (fun a => 0 <= a) (numbered bsp cpus) ->
  forall k a, 0 <= k -> apic_id_for_cpu (snd (fst (start_aps stack_of ready bsp cpus CPU_TABLE))) k = Some a ->
  forall e, hw_of bsp cpus e = a <-> Z.of_nat e = k.
Proof.
  intros Hnd Hl Hpos k a Hk Ha e. assert (table_ok CPU_TABLE []) as H0 by (constructor; [done|done|cbn; lia|done]).
  pose proof (online_ok _ _ 0 (register_ok CPU_TABLE [] bsp 0 H0 ltac:(cbn; unfold MAX_CPUS; lia))) as H1. cbn [app length] in H1.
  assert (NoDup (numbered bsp cpus)) as Hnn. { constructor; [|by apply NoDup_filter]. by rewrite list_elem_of_filter; intros [? _]. }
  pose proof (start_loop_spec stack_of ready bsp cpus [bsp] 0 _ H1) as Hs. cbv zeta in Hs. cbn [length] in Hs.
  change (Z.of_nat 1) with 1 in Hs. change (Z.of_nat 0) with 0 in Hs. unfold start_aps in Ha. destruct (start_loop _ _ _ _ 1 _ _) as [[n t] log]. destruct Hs as (Ht & _ & _); [exact Hl|].
  change ([bsp] ++ _) with (numbered bsp cpus) in Ht. destruct (table_lookups t _ Ht Hnn) as [L1 _]. cbn [fst snd] in Ha. rewrite L1 in Ha by done.
  unfold hw_of. destruct (numbered bsp cpus !! e) as [b|] eqn:Eb; cbn.
  - split; [intros ->; pose proof (NoDup_lookup _ _ _ _ Hnn Ha Eb); lia|]. intros <-. rewrite Nat2Z.id in Ha. congruence.
  - pose proof (Forall_lookup_1 _ _ _ _ Hpos Ha) as Hp. cbn beta in Hp. split; [lia|]. intros <-. rewrite Nat2Z.id in Ha. congruence.
Qed.

(** Three processors, the boot processor with identifier 4; the last one is late. *)
Definition demo_cpus : list CpuEntry :=
  [ {| ce_acpi_uid := 1; ce_apic_id := 4; ce_is_bsp := true |}; {| ce_acpi_uid := 0; ce_apic_id := 0; ce_is_bsp := false |};
    {| ce_acpi_uid := 2; ce_apic_id := 9; ce_is_bsp := false |} ].

Lemma start_aps_correct_witness : exists n t log, start_aps (fun k => 0x10000 * k) (fun k => k =? 1) 4 demo_cpus CPU_TABLE = (n, t, log) /\
  log = [SendInit 0; SendSipi 0 8; SendSipi 0 8; SendInit 9; SendSipi 9 8; SendSipi 9 8] /\ apic_id_for_cpu t 2 = Some 9 /\
  exists t', ap_entry t 9 = Done t'.
Proof.
  pose proof (start_aps_correct (fun k => 0x10000 * k) (fun k => k =? 1) 4 demo_cpus) as H.
  destruct (start_aps _ _ 4 demo_cpus CPU_TABLE) as [[n t] log]. destruct H as (H1 & _ & H2 & _ & H3).
  - apply (bool_decide_unpack _). vm_compute. exact I.
  - vm_compute. lia.
  - exists n, t, log. split; [reflexivity|]. split; [exact H1|]. split; [exact (H2 2 ltac:(lia))|].
    apply (H3 [] 9). apply (bool_decide_unpack _). vm_compute. exact I.
Defined.
