(* ===== verification/Virtq.v ===== *)
(** * Split virtqueues (crates/virtio/src/queue.rs)

    The descriptor table, the available ring and the used ring in physical memory, with
    the accesses the driver makes to them through the direct map.  The second half is
    what the driver and the device see of a queue: the descriptors that are available,
    and the elements that are used, as lists that the rings hold. *)

From Stdlib Require Import ZArith Lia.
From stdpp Require Import prelude list.
From S2P Require Import Prelude Frames.

Local Open Scope Z_scope.

(** ** Physical memory *)

Notation pmem := (Z -> Z).

(** [write_bytes] and [copy_nonoverlapping]. *)
Definition copy_to (m : pmem) (a : Z) (bs : list Z) : pmem :=
  fun x => match (if a <=? x then bs !! Z.to_nat (x - a) else None) with Some b => b | None => m x end.

Definition copy_from (m : pmem) (a : Z) (n : nat) : list Z := (fun i => m (a + Z.of_nat i)) <$> seq 0 n.

(** A volatile access of [n] bytes. *)
Definition load (n : nat) (m : pmem) (a : Z) : Z := of_le_bytes (copy_from m a n).
Definition store (n : nat) (m : pmem) (a v : Z) : pmem := copy_to m a (to_le_bytes n v).

Definition wrap16 (z : Z) : Z := wrapw 16 z.

Definition VQ_DIRECT_MAP_BASE : Z := 0xffff800000000000.

(** The physical address a direct map address stands for. *)
Definition dm (va : Z) : Z := va - VQ_DIRECT_MAP_BASE.

Definition MAX_QUEUE_SIZE : Z := 256.

(** ** The queue *)

Record VirtqDesc := { vd_addr : Z; vd_len : Z; vd_flags : Z; vd_next : Z }.
Record VirtqUsedElem := { ue_id : Z; ue_len : Z }.

Definition VIRTQ_DESC_F_WRITE : Z := 2.
Definition AVAIL_IDX_OFF : Z := 2.
Definition AVAIL_RING_OFF : Z := 4.
Definition USED_IDX_OFF : Z := 2.
Definition USED_RING_OFF : Z := 4.

Definition ring_slot (idx queue_size : Z) : Z := idx mod queue_size.

Record Virtqueue := {
  vq_queue_size : Z;
  vq_desc_phys : Z; vq_avail_phys : Z; vq_used_phys : Z;
  vq_desc_va : Z; vq_avail_va : Z; vq_used_va : Z;
  vq_avail_idx : Z; vq_last_used_idx : Z
}.

Section New.
Context {A : Type} `{FrameAllocator A}.

Definition Virtqueue_new (a : A) (m : pmem) (queue_size : Z) : outcome (Virtqueue * pmem * A) :=
  _ ← assert_ (queue_size <=? MAX_QUEUE_SIZE);
  '(desc_phys, a) ← expect (fa_alloc_frame a);
  '(avail_phys, a) ← expect (fa_alloc_frame a);
  '(used_phys, a) ← expect (fa_alloc_frame a);
  let desc_va := wrap64 (VQ_DIRECT_MAP_BASE + desc_phys) in
  let avail_va := wrap64 (VQ_DIRECT_MAP_BASE + avail_phys) in
  let used_va := wrap64 (VQ_DIRECT_MAP_BASE + used_phys) in
  let m := copy_to m (dm desc_va) (replicate 4096 0) in
  let m := copy_to m (dm avail_va) (replicate 4096 0) in
  let m := copy_to m (dm used_va) (replicate 4096 0) in
  Done ({| vq_queue_size := queue_size;
           vq_desc_phys := desc_phys; vq_avail_phys := avail_phys; vq_used_phys := used_phys;
           vq_desc_va := desc_va; vq_avail_va := avail_va; vq_used_va := used_va;
           vq_avail_idx := 0; vq_last_used_idx := 0 |}, m, a).
End New.

(** The [k]-th of the four stores of [write_desc]. *)
Definition write_desc_field (q : Virtqueue) (m : pmem) (index : Z) (d : VirtqDesc) (k : nat) : pmem :=
  let p := vq_desc_va q + index * 16 in
  match k with
  | O => store 8 m (dm p) (vd_addr d)
  | 1%nat => store 4 m (dm (p + 8)) (vd_len d)
  | 2%nat => store 2 m (dm (p + 12)) (vd_flags d)
  | _ => store 2 m (dm (p + 14)) (vd_next d)
  end.

Definition write_desc (q : Virtqueue) (m : pmem) (index : Z) (d : VirtqDesc) : pmem :=
  foldl (fun m k => write_desc_field q m index d k) m (seq 0 4).

(** The two stores of [push_avail]; the index of the driver advances between them. *)
Definition push_avail_ring (q : Virtqueue) (m : pmem) (desc_index : Z) : Virtqueue * pmem :=
  let slot := ring_slot (vq_avail_idx q) (vq_queue_size q) in
  let m := store 2 m (dm (vq_avail_va q + AVAIL_RING_OFF + slot * 2)) desc_index in
  ({| vq_queue_size := vq_queue_size q;
      vq_desc_phys := vq_desc_phys q; vq_avail_phys := vq_avail_phys q; vq_used_phys := vq_used_phys q;
      vq_desc_va := vq_desc_va q; vq_avail_va := vq_avail_va q; vq_used_va := vq_used_va q;
      vq_avail_idx := wrap16 (vq_avail_idx q + 1); vq_last_used_idx := vq_last_used_idx q |}, m).

Definition push_avail_idx (q : Virtqueue) (m : pmem) : pmem := store 2 m (dm (vq_avail_va q + AVAIL_IDX_OFF)) (vq_avail_idx q).

Definition push_avail (q : Virtqueue) (m : pmem) (desc_index : Z) : Virtqueue * pmem :=
  let '(q, m) := push_avail_ring q m desc_index in (q, push_avail_idx q m).

Definition used_idx (q : Virtqueue) (m : pmem) : Z := load 2 m (dm (vq_used_va q + USED_IDX_OFF)).

(** The loads of [pop_used] past the check of the index. *)
Definition pop_elem (q : Virtqueue) : Z := vq_used_va q + USED_RING_OFF + ring_slot (vq_last_used_idx q) (vq_queue_size q) * 8.
Definition pop_id (q : Virtqueue) (m : pmem) : Z := load 4 m (dm (pop_elem q)).
Definition pop_len (q : Virtqueue) (m : pmem) : Z := load 4 m (dm (pop_elem q + 4)).

Definition pop_advance (q : Virtqueue) : Virtqueue :=
  {| vq_queue_size := vq_queue_size q;
     vq_desc_phys := vq_desc_phys q; vq_avail_phys := vq_avail_phys q; vq_used_phys := vq_used_phys q;
     vq_desc_va := vq_desc_va q; vq_avail_va := vq_avail_va q; vq_used_va := vq_used_va q;
     vq_avail_idx := vq_avail_idx q; vq_last_used_idx := wrap16 (vq_last_used_idx q + 1) |}.

Definition pop_used (q : Virtqueue) (m : pmem) : Virtqueue * option VirtqUsedElem :=
  let dev_idx := used_idx q m in
  if dev_idx =? vq_last_used_idx q then (q, None)
  else (pop_advance q, Some {| ue_id := pop_id q m; ue_len := pop_len q m |}).

Definition set_avail_flags (q : Virtqueue) (m : pmem) (flags : Z) : pmem := store 2 m (dm (vq_avail_va q + 0)) flags.
Definition used_flags (q : Virtqueue) (m : pmem) : Z := load 2 m (dm (vq_used_va q + 0)).

(** ** Accesses *)

(** The memories agree on the [n] bytes from [a]. *)
Definition same_on (m m' : pmem) (a n : Z) : Prop := forall x, a <= x < a + n -> m' x = m x.

Lemma copy_to_out m a bs x : ~ (a <= x < a + Z.of_nat (length bs)) -> copy_to m a bs x = m x.
Proof.
  intros Hx. unfold copy_to. destruct (Z.leb_spec a x) as [Hle|]; [|done]. rewrite lookup_ge_None_2 by lia. done.
Qed.

Lemma copy_to_in m a bs i b : bs !! i = Some b -> copy_to m a bs (a + Z.of_nat i) = b.
Proof.
  intros Hi. unfold copy_to. rewrite (proj2 (Z.leb_le _ _)) by lia. replace (Z.to_nat (a + Z.of_nat i - a)) with i by lia. by rewrite Hi.
Qed.

Lemma copy_from_same m m' a n : same_on m m' a (Z.of_nat n) -> copy_from m' a n = copy_from m a n.
Proof.
  intros H. unfold copy_from. apply list_fmap_ext. intros i k Hk. apply lookup_seq in Hk as [-> Hlt]. apply H. lia.
Qed.

Lemma copy_from_to m a bs : copy_from (copy_to m a bs) a (length bs) = bs.
Proof.
  apply list_eq. intros i. unfold copy_from. rewrite list_lookup_fmap. destruct (decide (i < length bs)%nat) as [Hi|Hi].
  - rewrite lookup_seq_lt by lia. cbn. destruct (lookup_lt_is_Some_2 bs i Hi) as [b Hb]. rewrite Hb. f_equal. by apply copy_to_in.
  - rewrite lookup_seq_ge by lia. rewrite lookup_ge_None_2 by lia. done.
Qed.

Lemma load_same n m m' a : same_on m m' a (Z.of_nat n) -> load n m' a = load n m a.
Proof. intros H. unfold load. by rewrite (copy_from_same m m'). Qed.

Lemma load_store n m a v : 0 <= v < 256 ^ Z.of_nat n -> load n (store n m a v) a = v.
Proof.
  intros Hv. unfold load, store. pose proof (copy_from_to m a (to_le_bytes n v)) as E. rewrite to_le_bytes_length in E. rewrite E. by apply of_to_le_bytes.
Qed.

Lemma store_same n m a v b k : a + Z.of_nat n <= b \/ b + k <= a -> same_on m (store n m a v) b k.
Proof. intros H x Hx. apply copy_to_out. rewrite to_le_bytes_length. lia. Qed.

Lemma copy_same m a bs b k : a + Z.of_nat (length bs) <= b \/ b + k <= a -> same_on m (copy_to m a bs) b k.
Proof. intros H x Hx. apply copy_to_out. lia. Qed.

Lemma same_on_sub m m' a n b k : same_on m m' a n -> a <= b -> b + k <= a + n -> same_on m m' b k.
Proof. intros H H1 H2 x Hx. apply H. lia. Qed.

Lemma same_on_refl m a n : same_on m m a n.
Proof. by intros x _. Qed.

Lemma same_on_trans m1 m2 m3 a n : same_on m1 m2 a n -> same_on m2 m3 a n -> same_on m1 m3 a n.
Proof. intros H1 H2 x Hx. rewrite H2 by done. by apply H1. Qed.

Lemma load_store_ne n k m a b v : a + Z.of_nat n <= b \/ b + Z.of_nat k <= a -> load k (store n m a v) b = load k m b.
Proof. intros H. apply load_same, store_same. done. Qed.

(** ** What the rings hold *)

(** Counters run free at 16 bits and the size of a queue divides their range, so the
    slot of a counter is that of the number of entries so far. *)
Lemma ring_slot_wrap k qs : 0 < qs -> (qs | 2 ^ 16) -> ring_slot (wrap16 k) qs = k mod qs.
Proof. intros H0 [c Hc]. unfold ring_slot, wrap16, wrapw. rewrite Hc. rewrite (Z.mul_comm c qs). rewrite Z.rem_mul_r by nia. rewrite Z.mul_comm, Z.mod_add by lia. apply Z.mod_mod. lia. Qed.

Lemma slot_ne k l qs : 0 < qs -> k < l < k + qs -> k mod qs <> l mod qs.
Proof.
  intros H0 H E. assert (l - k = qs * (l / qs - k / qs)) as Hd by (pose proof (Z.div_mod k qs ltac:(lia)); pose proof (Z.div_mod l qs ltac:(lia)); lia).
  destruct (Z.le_gt_cases (l / qs - k / qs) 0); nia.
Qed.

Lemma wrap16_add k n : wrap16 (wrap16 k + n) = wrap16 (k + n).
Proof. unfold wrap16, wrapw. apply Zplus_mod_idemp_l. Qed.

Lemma wrap16_inj k l : k <= l < k + 2 ^ 16 -> wrap16 k = wrap16 l -> k = l.
Proof. unfold wrap16, wrapw. intros H E. Z.div_mod_to_equations. lia. Qed.

Lemma wrap16_range k : 0 <= wrap16 k < 256 ^ 2.
Proof. unfold wrap16, wrapw. pose proof (Z.mod_pos_bound k (2 ^ 16) ltac:(lia)). lia. Qed.

Section Rings.
Context (q : Virtqueue).
Let qs := vq_queue_size q.
Let desc := dm (vq_desc_va q).
Let avail := dm (vq_avail_va q).
Let used := dm (vq_used_va q).

Definition desc_entry (m : pmem) (i : Z) : VirtqDesc :=
  {| vd_addr := load 8 m (desc + i * 16); vd_len := load 4 m (desc + i * 16 + 8);
     vd_flags := load 2 m (desc + i * 16 + 12); vd_next := load 2 m (desc + i * 16 + 14) |}.
Definition avail_entry (m : pmem) (k : Z) : Z := load 2 m (avail + AVAIL_RING_OFF + (k mod qs) * 2).
Definition used_entry (m : pmem) (k : Z) : VirtqUsedElem :=
  {| ue_id := load 4 m (used + USED_RING_OFF + (k mod qs) * 8); ue_len := load 4 m (used + USED_RING_OFF + (k mod qs) * 8 + 4) |}.

(** The driver made [na] descriptors available; the device has yet to look at [l]. *)
Definition avail_rep (m : pmem) (na : Z) (l : list Z) : Prop :=
  load 2 m (avail + AVAIL_IDX_OFF) = wrap16 na /\ forall i d, l !! i = Some d -> avail_entry m (na - Z.of_nat (length l) + Z.of_nat i) = d.

(** The device published [nu] used elements; the driver has yet to take [u], and [d] are
    written but not published. *)
Definition used_rep (m : pmem) (nu : Z) (u d : list VirtqUsedElem) : Prop :=
  load 2 m (used + USED_IDX_OFF) = wrap16 nu /\ forall i e, (u ++ d) !! i = Some e -> used_entry m (nu - Z.of_nat (length u) + Z.of_nat i) = e.

Hypothesis (Hqs : 0 < qs <= 256).

Lemma slot_range k : 0 <= k mod qs < qs.
Proof. apply Z.mod_pos_bound. lia. Qed.

Lemma avail_entry_same m m' k : same_on m m' avail 4096 -> avail_entry m' k = avail_entry m k.
Proof. intros H. unfold avail_entry. pose proof (slot_range k). apply load_same, (same_on_sub _ _ _ _ _ _ H); unfold AVAIL_RING_OFF; lia. Qed.

Lemma avail_rep_same m m' na l : same_on m m' avail 4096 -> avail_rep m na l -> avail_rep m' na l.
Proof.
  intros H [Hi He]. split.
  - rewrite <- Hi. apply load_same, (same_on_sub _ _ _ _ _ _ H); unfold AVAIL_IDX_OFF; lia.
  - intros i d Hd. rewrite (avail_entry_same m) by done. auto.
Qed.

Lemma used_entry_same m m' k : same_on m m' used 4096 -> used_entry m' k = used_entry m k.
Proof. intros H. unfold used_entry. pose proof (slot_range k). f_equal; apply load_same, (same_on_sub _ _ _ _ _ _ H); unfold USED_RING_OFF; lia. Qed.

Lemma used_rep_same m m' nu u d : same_on m m' used 4096 -> used_rep m nu u d -> used_rep m' nu u d.
Proof.
  intros H [Hi He]. split.
  - rewrite <- Hi. apply load_same, (same_on_sub _ _ _ _ _ _ H); unfold USED_IDX_OFF; lia.
  - intros i e Hd. rewrite (used_entry_same m) by done. auto.
Qed.

(** A store to a slot of the available ring. *)
Lemma avail_store_slot m k l v : 0 <= v < 2 ^ 16 ->
  avail_entry (store 2 m (avail + AVAIL_RING_OFF + (k mod qs) * 2) v) l = if k mod qs =? l mod qs then v else avail_entry m l.
Proof.
  intros Hv. unfold avail_entry. destruct (Z.eqb_spec (k mod qs) (l mod qs)) as [->|Hne]; [apply load_store; done|].
  rewrite load_store_ne by lia. done.
Qed.

Lemma avail_push_slot m na l v : avail_rep m na l -> Z.of_nat (length l) < qs -> 0 <= v < 2 ^ 16 ->
  let m' := store 2 m (avail + AVAIL_RING_OFF + (na mod qs) * 2) v in avail_rep m' na l /\ avail_entry m' na = v.
Proof.
  intros [Hi He] Hl Hv m'. pose proof (slot_range na) as Hr. split; [split|].
  - unfold m'. unfold AVAIL_IDX_OFF, AVAIL_RING_OFF in *. rewrite load_store_ne by lia. done.
  - intros i d Hd. unfold m'. rewrite avail_store_slot by done. pose proof (lookup_lt_Some _ _ _ Hd).
    rewrite (proj2 (Z.eqb_neq _ _)); [auto|]. apply not_eq_sym, slot_ne; lia.
  - unfold m'. rewrite avail_store_slot by done. by rewrite Z.eqb_refl.
Qed.

Lemma avail_push_idx m na l v : avail_rep m na l -> avail_entry m na = v ->
  avail_rep (store 2 m (avail + AVAIL_IDX_OFF) (wrap16 (na + 1))) (na + 1) (l ++ [v]).
Proof.
  intros [Hi He] Hv. split; [apply load_store, wrap16_range|]. intros i d Hd. rewrite length_app. cbn [length].
  unfold avail_entry. pose proof (slot_range (na + 1 - Z.of_nat (length l + 1) + Z.of_nat i)). unfold AVAIL_IDX_OFF, AVAIL_RING_OFF in *. rewrite load_store_ne by lia.
  apply lookup_app_Some in Hd as [Hd|[Hge Hd]].
  - rewrite <- (He _ _ Hd). unfold avail_entry, AVAIL_RING_OFF. do 4 f_equal. lia.
  - destruct (i - length l)%nat eqn:E; [|done]. injection Hd as <-. rewrite <- Hv. unfold avail_entry, AVAIL_RING_OFF. do 4 f_equal. lia.
Qed.

Lemma avail_take m na v l : avail_rep m na (v :: l) -> avail_rep m na l /\ avail_entry m (na - Z.of_nat (length (v :: l))) = v.
Proof.
  intros [Hi He]. split; [split; [done|]|].
  - intros i d Hd. rewrite <- (He (S i) d Hd). f_equal. cbn [length]. lia.
  - etrans; [|exact (He 0%nat v eq_refl)]. f_equal. lia.
Qed.

(** The device writes one element past the last, and publishes what it wrote. *)
Lemma used_write m nu u d e : used_rep m nu u d -> Z.of_nat (length (u ++ d)) < qs -> 0 <= ue_id e < 2 ^ 32 -> 0 <= ue_len e < 2 ^ 32 ->
  let k := nu + Z.of_nat (length d) in
  let p := used + USED_RING_OFF + (k mod qs) * 8 in
  used_rep (store 4 (store 4 m p (ue_id e)) (p + 4) (ue_len e)) nu u (d ++ [e]).
Proof.
  intros [Hi He] Hl H1 H2 k p. pose proof (slot_range k) as Hr. rewrite length_app in Hl. split.
  - unfold p, USED_IDX_OFF, USED_RING_OFF in *. rewrite !load_store_ne by lia. done.
  - intros i x Hx. rewrite app_assoc in Hx. apply lookup_app_Some in Hx as [Hx|[Hge Hx]].
    + rewrite <- (He _ _ Hx). apply lookup_lt_Some in Hx. rewrite length_app in Hx. set (j := nu - _ + _). unfold used_entry.
      pose proof (slot_range j). assert (k mod qs <> j mod qs) by (apply not_eq_sym, slot_ne; unfold j, k; lia).
      unfold p, USED_RING_OFF. f_equal; rewrite !load_store_ne by lia; done.
    + destruct (i - length (u ++ d))%nat eqn:E; [|done]. injection Hx as <-. rewrite length_app in *.
      replace (nu - Z.of_nat (length u) + Z.of_nat i) with k by (unfold k; lia). unfold used_entry. fold p.
      rewrite load_store_ne by lia. rewrite !load_store by (change (256 ^ Z.of_nat 4) with (2 ^ 32); done). by destruct e.
Qed.

Lemma used_publish m nu u d : used_rep m nu u d ->
  used_rep (store 2 m (used + USED_IDX_OFF) (wrap16 (nu + Z.of_nat (length d)))) (nu + Z.of_nat (length d)) (u ++ d) [].
Proof.
  intros [Hi He]. split; [apply load_store, wrap16_range|]. intros i e Hd. rewrite app_nil_r in Hd. rewrite <- (He _ _ Hd), length_app.
  replace (nu + Z.of_nat (length d) - Z.of_nat (length u + length d) + Z.of_nat i) with (nu - Z.of_nat (length u) + Z.of_nat i) by lia.
  set (k := nu - _ + _). pose proof (slot_range k). unfold used_entry, USED_IDX_OFF, USED_RING_OFF in *. f_equal; rewrite load_store_ne by lia; done.
Qed.

Lemma used_take m nu e u d : used_rep m nu (e :: u) d -> used_rep m nu u d /\ used_entry m (nu - Z.of_nat (length (e :: u))) = e.
Proof.
  intros [Hi He]. split; [split; [done|]|].
  - intros i x Hx. rewrite <- (He (S i) x Hx). f_equal. cbn [length]. lia.
  - etrans; [|exact (He 0%nat e eq_refl)]. f_equal. lia.
Qed.
End Rings.
