(* ===== verification/VirtioRx.v ===== *)
(** * Receiving frames (crates/virtio/src/net.rs)

    The receive half of the network driver: [fill_rx] posts the buffers and [poll_rx]
    drains the used ring, hands every frame to the callback and posts the buffer again.
    The device runs at the same time: it takes available descriptors in order, writes
    into the buffers it owns, completes them in any order and publishes completions one
    or several at a time, as the virtio specification has it.  The accesses of the two
    interleave one by one. *)

From Stdlib Require Import ZArith Lia.
From stdpp Require Import prelude list relations sorting.
From S2P Require Import Prelude Virtq.

Local Open Scope Z_scope.

Definition RX_BUFFER_COUNT : nat := 16.
Definition ETH_FRAME_MAX : Z := 1514.
Definition NET_HDR_LEN : Z := 12.
Definition BUF_LEN : Z := NET_HDR_LEN + ETH_FRAME_MAX.

(** ** Driver *)

(** The descriptor of receive buffer [b]. *)
Definition rx_desc (b : Z) : VirtqDesc := {| vd_addr := b; vd_len := BUF_LEN; vd_flags := VIRTQ_DESC_F_WRITE; vd_next := 0 |}.

(** [fill_rx] without the notification; it runs before the device is live. *)
Definition fill_rx_step (rx_bufs : list Z) (st : Virtqueue * pmem) (i : nat) : Virtqueue * pmem :=
  let '(rx, m) := st in
  let m := write_desc rx m (Z.of_nat i) (rx_desc (rx_bufs !!! i)) in
  push_avail rx m (wrap16 (Z.of_nat i)).

Definition fill_rx (rx_bufs : list Z) (rx : Virtqueue) (m : pmem) : Virtqueue * pmem :=
  foldl (fill_rx_step rx_bufs) (rx, m) (seq 0 RX_BUFFER_COUNT).

(** Where [poll_rx] is: the loads of [pop_used], the callback, the stores of [write_desc]
    and of [push_avail], the notification. *)
Inductive rx_pc :=
| RIdle
| RPop
| RReadId
| RReadLen (id : Z)
| RFrame (id total_len : Z)
| RDesc (id : Z) (k : nat)
| RRing (id : Z)
| RIdx (id : Z)
| RNotify.

(** ** Device *)

Record rx_device := { dv_seen : Z; dv_owned : list (Z * VirtqDesc); dv_next : Z }.

(** The frames the device completed but did not publish, those it published, and those
    the driver handed to its callback. *)
Record rx_state := {
  rx_mem : pmem; rx_q : Virtqueue; rx_at : rx_pc; rx_dev : rx_device;
  rx_pending : list (list Z); rx_received : list (list Z); rx_delivered : list (list Z)
}.

Section Rx.
Context (rx_bufs : list Z).

(** The frame [poll_rx] makes of a completion of buffer [id]. *)
Definition rx_frame (m : pmem) (id total_len : Z) : list Z :=
  let frame_len := Z.min (total_len - NET_HDR_LEN) ETH_FRAME_MAX in
  let data := wrap64 (VQ_DIRECT_MAP_BASE + rx_bufs !!! Z.to_nat id) in
  copy_from m (dm data + NET_HDR_LEN) (Z.to_nat frame_len).

Definition rx_goto (s : rx_state) (m : pmem) (q : Virtqueue) (pc : rx_pc) : rx_state :=
  {| rx_mem := m; rx_q := q; rx_at := pc; rx_dev := rx_dev s;
     rx_pending := rx_pending s; rx_received := rx_received s; rx_delivered := rx_delivered s |}.

(** The next access of [poll_rx]. *)
Definition poll_rx_step (s : rx_state) : rx_state :=
  let m := rx_mem s in
  let q := rx_q s in
  match rx_at s with
  | RIdle => rx_goto s m q RPop
  | RPop => rx_goto s m q (if used_idx q m =? vq_last_used_idx q then RNotify else RReadId)
  | RReadId => rx_goto s m q (RReadLen (pop_id q m))
  | RReadLen id => rx_goto s m (pop_advance q) (RFrame id (pop_len q m))
  | RFrame id total_len =>
      if (id <? Z.of_nat RX_BUFFER_COUNT) && (NET_HDR_LEN <=? total_len) then
        {| rx_mem := m; rx_q := q; rx_at := RDesc id 0; rx_dev := rx_dev s; rx_pending := rx_pending s; rx_received := rx_received s;
           rx_delivered := rx_delivered s ++ [rx_frame m id total_len] |}
      else rx_goto s m q RPop
  | RDesc id k =>
      rx_goto s (write_desc_field q m id (rx_desc (rx_bufs !!! Z.to_nat id)) k) q (if (k <? 3)%nat then RDesc id (S k) else RRing id)
  | RRing id => let '(q', m') := push_avail_ring q m (wrap16 id) in rx_goto s m' q' (RIdx id)
  | RIdx _ => rx_goto s (push_avail_idx q m) q RPop
  | RNotify => rx_goto s m q RIdle
  end.

(** The device as the specification has it: it takes the next available descriptor,
    writes into a device-writable buffer it owns, completes one, publishes. *)
Inductive rx_dev_step : rx_state -> rx_state -> Prop :=
| VTake s :
    let q := rx_q s in let m := rx_mem s in let dv := rx_dev s in
    load 2 m (dm (vq_avail_va q) + AVAIL_IDX_OFF) <> dv_seen dv ->
    let id := avail_entry q m (dv_seen dv) in
    rx_dev_step s {| rx_mem := m; rx_q := q; rx_at := rx_at s;
      rx_dev := {| dv_seen := wrap16 (dv_seen dv + 1); dv_owned := dv_owned dv ++ [(id, desc_entry q m id)]; dv_next := dv_next dv |};
      rx_pending := rx_pending s; rx_received := rx_received s; rx_delivered := rx_delivered s |}
| VWrite s id d off bs :
    (id, d) ∈ dv_owned (rx_dev s) -> Z.land (vd_flags d) VIRTQ_DESC_F_WRITE <> 0 ->
    0 <= off -> off + Z.of_nat (length bs) <= vd_len d ->
    rx_dev_step s {| rx_mem := copy_to (rx_mem s) (vd_addr d + off) bs; rx_q := rx_q s; rx_at := rx_at s; rx_dev := rx_dev s;
      rx_pending := rx_pending s; rx_received := rx_received s; rx_delivered := rx_delivered s |}
| VDone s o1 o2 id d len :
    let q := rx_q s in let m := rx_mem s in let dv := rx_dev s in
    dv_owned dv = o1 ++ (id, d) :: o2 -> NET_HDR_LEN <= len <= vd_len d ->
    let p := dm (vq_used_va q) + USED_RING_OFF + (dv_next dv mod vq_queue_size q) * 8 in
    rx_dev_step s {| rx_mem := store 4 (store 4 m p id) (p + 4) len; rx_q := q; rx_at := rx_at s;
      rx_dev := {| dv_seen := dv_seen dv; dv_owned := o1 ++ o2; dv_next := wrap16 (dv_next dv + 1) |};
      rx_pending := rx_pending s ++ [copy_from m (vd_addr d + NET_HDR_LEN) (Z.to_nat (len - NET_HDR_LEN))];
      rx_received := rx_received s; rx_delivered := rx_delivered s |}
| VPublish s :
    rx_dev_step s {| rx_mem := store 2 (rx_mem s) (dm (vq_used_va (rx_q s)) + USED_IDX_OFF) (dv_next (rx_dev s));
      rx_q := rx_q s; rx_at := rx_at s; rx_dev := rx_dev s;
      rx_pending := []; rx_received := rx_received s ++ rx_pending s; rx_delivered := rx_delivered s |}.

Inductive rx_step : rx_state -> rx_state -> Prop :=
| rx_driver s : rx_step s (poll_rx_step s)
| rx_device_acts s s' : rx_dev_step s s' -> rx_step s s'.

(** ** The invariant *)

(** The queue and the buffers are in frames of their own. *)
Record rx_layout (q : Virtqueue) : Prop := {
  rl_size : 16 <= vq_queue_size q <= 256;
  rl_pow : (vq_queue_size q | 2 ^ 16);
  rl_bufs : length rx_bufs = RX_BUFFER_COUNT;
  rl_nodup : NoDup (dm (vq_desc_va q) :: dm (vq_avail_va q) :: dm (vq_used_va q) :: rx_bufs);
  rl_frames : Forall (fun f => f mod 4096 = 0 /\ 0 < f < 2 ^ 44) (dm (vq_desc_va q) :: dm (vq_avail_va q) :: dm (vq_used_va q) :: rx_bufs)
}.

Definition buf (id : Z) : Z := rx_bufs !!! Z.to_nat id.

Definition used_elem (e : Z * list Z) : VirtqUsedElem := {| ue_id := e.1; ue_len := NET_HDR_LEN + Z.of_nat (length e.2) |}.

(** A completed buffer holds its frame behind the header. *)
Definition holds (m : pmem) (e : Z * list Z) : Prop :=
  Z.of_nat (length e.2) <= ETH_FRAME_MAX /\ copy_from m (buf e.1 + NET_HDR_LEN) (length e.2) = e.2.

(** The completion the driver took and has yet to hand on. *)
Definition held (pc : rx_pc) (h : list (Z * list Z)) : Prop :=
  match pc with
  | RFrame id len => exists f, h = [(id, f)] /\ len = NET_HDR_LEN + Z.of_nat (length f)
  | _ => h = []
  end.

(** The buffer the driver is about to post again. *)
Definition in_hand (pc : rx_pc) : list Z := match pc with RDesc id _ | RRing id | RIdx id => [id] | _ => [] end.

Definition pc_ok (pc : rx_pc) (q : Virtqueue) (m : pmem) (na : Z) (u : list (Z * list Z)) : Prop :=
  match pc with
  | RReadId => u <> []
  | RReadLen id => exists f u', u = (id, f) :: u'
  | RDesc _ k => (k < 4)%nat
  | RIdx id => avail_entry q m na = id
  | _ => True
  end.

(** [na] descriptors were made available of which the device has yet to take [l]; it
    published [nu] completions of which the driver has yet to take [u], and wrote [d]
    more; [h] is what the driver holds. *)
Record rx_inv (s : rx_state) (na nu : Z) (l : list Z) (u d h : list (Z * list Z)) : Prop := {
  ri_layout : rx_layout (rx_q s);
  ri_avail : avail_rep (rx_q s) (rx_mem s) na l;
  ri_used : used_rep (rx_q s) (rx_mem s) nu (used_elem <$> u) (used_elem <$> d);
  ri_descs : forall i, 0 <= i < 16 -> desc_entry (rx_q s) (rx_mem s) i = rx_desc (buf i);
  ri_seen : dv_seen (rx_dev s) = wrap16 (na - Z.of_nat (length l));
  ri_next : dv_next (rx_dev s) = wrap16 (nu + Z.of_nat (length d));
  ri_aidx : vq_avail_idx (rx_q s) = wrap16 (na + match rx_at s with RIdx _ => 1 | _ => 0 end);
  ri_last : vq_last_used_idx (rx_q s) = wrap16 (nu - Z.of_nat (length u));
  ri_owned : Forall (fun o => o.2 = rx_desc (buf o.1)) (dv_owned (rx_dev s));
  ri_perm : l ++ (dv_owned (rx_dev s)).*1 ++ d.*1 ++ u.*1 ++ h.*1 ++ in_hand (rx_at s) ≡ₚ seqZ 0 16;
  ri_holds : Forall (holds (rx_mem s)) (d ++ u ++ h);
  ri_held : held (rx_at s) h;
  ri_pc : pc_ok (rx_at s) (rx_q s) (rx_mem s) na u;
  ri_pending : rx_pending s = d.*2;
  ri_log : rx_received s = rx_delivered s ++ h.*2 ++ u.*2
}.

Definition rx_ok (s : rx_state) : Prop := exists na nu l u d h, rx_inv s na nu l u d h.

(** Stores within a frame leave the other frames alone. *)
Lemma frames_apart a b n x k : a mod 4096 = 0 -> b mod 4096 = 0 -> a <> b -> 0 <= x -> x + n <= 4096 -> k <= 4096 -> a + x + n <= b \/ b + k <= a + x.
Proof. intros Ha Hb Hne Hx Hn Hk. Z.div_mod_to_equations. nia. Qed.

Lemma layout_frame q f : rx_layout q -> f ∈ dm (vq_desc_va q) :: dm (vq_avail_va q) :: dm (vq_used_va q) :: rx_bufs -> f mod 4096 = 0 /\ 0 < f < 2 ^ 44.
Proof. intros H Hf. exact (proj1 (Forall_forall _ _) (rl_frames _ H) f Hf). Qed.

Lemma layout_desc q : rx_layout q -> dm (vq_desc_va q) mod 4096 = 0 /\ dm (vq_desc_va q) <> dm (vq_avail_va q) /\ dm (vq_desc_va q) <> dm (vq_used_va q).
Proof. intros H. split; [apply (layout_frame q); [done|left]|]. pose proof (rl_nodup _ H) as Hn. apply NoDup_cons in Hn as [Hn _]. rewrite !not_elem_of_cons in Hn. tauto. Qed.

Lemma layout_avail q : rx_layout q -> dm (vq_avail_va q) mod 4096 = 0 /\ dm (vq_avail_va q) <> dm (vq_used_va q).
Proof.
  intros H. split; [apply (layout_frame q); [done|right; left]|]. pose proof (rl_nodup _ H) as Hn. apply NoDup_cons in Hn as [_ Hn].
  apply NoDup_cons in Hn as [Hn _]. rewrite not_elem_of_cons in Hn. tauto.
Qed.

Lemma layout_used q : rx_layout q -> dm (vq_used_va q) mod 4096 = 0.
Proof. intros H. apply (layout_frame q); [done|]. right; right; left. Qed.

Lemma buf_elem i : length rx_bufs = RX_BUFFER_COUNT -> 0 <= i < 16 -> buf i ∈ rx_bufs.
Proof.
  intros Hl Hi. unfold buf. assert (Z.to_nat i < length rx_bufs)%nat as H by (rewrite Hl; unfold RX_BUFFER_COUNT; lia).
  apply list_elem_of_lookup_2 with (Z.to_nat i). by apply list_lookup_lookup_total_lt.
Qed.

Lemma layout_buf q i : rx_layout q -> 0 <= i < 16 -> buf i mod 4096 = 0 /\ 0 < buf i < 2 ^ 44 /\ dm (vq_desc_va q) <> buf i /\ dm (vq_avail_va q) <> buf i /\ dm (vq_used_va q) <> buf i.
Proof.
  intros H Hi. pose proof (buf_elem i (rl_bufs _ H) Hi) as Hb. split_and!.
  1-3: apply (layout_frame q); [done|]; by do 3 right.
  all: intros E; rewrite <- E in Hb; pose proof (rl_nodup _ H) as Hn; apply NoDup_cons in Hn as [Hn1 Hn]; apply NoDup_cons in Hn as [Hn2 Hn];
    apply NoDup_cons in Hn as [Hn3 Hn]; rewrite !not_elem_of_cons in Hn1; rewrite !not_elem_of_cons in Hn2; tauto.
Qed.

Lemma buf_inj q i j : rx_layout q -> 0 <= i < 16 -> 0 <= j < 16 -> buf i = buf j -> i = j.
Proof.
  intros H Hi Hj E. pose proof (rl_bufs _ H) as Hl. unfold RX_BUFFER_COUNT in Hl. pose proof (rl_nodup _ H) as Hn. do 3 apply NoDup_cons_1_2 in Hn.
  unfold buf in E. assert (Z.to_nat i = Z.to_nat j); [|lia].
  apply (NoDup_lookup _ _ _ (rx_bufs !!! Z.to_nat i) Hn); [|rewrite E]; apply list_lookup_lookup_total_lt; lia.
Qed.

Lemma same_frame n m a x v b k : a mod 4096 = 0 -> b mod 4096 = 0 -> a <> b -> 0 <= x -> x + Z.of_nat n <= 4096 -> k <= 4096 -> same_on m (store n m (a + x) v) b k.
Proof. intros. apply store_same. by apply frames_apart. Qed.

Lemma dm_add va x : dm (va + x) = dm va + x.
Proof. unfold dm. lia. Qed.

(** What a change of memory must leave alone for the parts of the invariant. *)
Lemma descs_same q m m' : rx_layout q -> same_on m m' (dm (vq_desc_va q)) 4096 ->
  (forall i, 0 <= i < 16 -> desc_entry q m i = rx_desc (buf i)) -> forall i, 0 <= i < 16 -> desc_entry q m' i = rx_desc (buf i).
Proof.
  intros Hl Hs H i Hi. rewrite <- (H i Hi). unfold desc_entry.
  f_equal; apply load_same, (same_on_sub _ _ _ _ _ _ Hs); lia.
Qed.

Lemma holds_same m m' e : same_on m m' (buf e.1) 4096 -> holds m e -> holds m' e.
Proof.
  intros Hs [H1 H2]. split; [done|]. rewrite <- H2 at 2. apply copy_from_same, (same_on_sub _ _ _ _ _ _ Hs); unfold NET_HDR_LEN, ETH_FRAME_MAX in *; lia.
Qed.

(** ** Facts of a state of the system *)

Lemma inv_size s na nu l u d h : rx_inv s na nu l u d h -> 0 < vq_queue_size (rx_q s) <= 256 /\ (vq_queue_size (rx_q s) | 2 ^ 16).
Proof. intros H. destruct (ri_layout _ _ _ _ _ _ _ H). split; [lia|done]. Qed.

Lemma inv_count s na nu l u d h : rx_inv s na nu l u d h ->
  (length l + length (dv_owned (rx_dev s)) + length d + length u + length h + length (in_hand (rx_at s)) = 16)%nat.
Proof. intros H. pose proof (Permutation_length (ri_perm _ _ _ _ _ _ _ H)) as E. rewrite !length_app, !length_fmap, length_seqZ in E. lia. Qed.

Lemma inv_id s na nu l u d h x : rx_inv s na nu l u d h ->
  x ∈ l ++ (dv_owned (rx_dev s)).*1 ++ d.*1 ++ u.*1 ++ h.*1 ++ in_hand (rx_at s) -> 0 <= x < 16.
Proof. intros H Hx. rewrite (ri_perm _ _ _ _ _ _ _ H) in Hx. apply elem_of_seqZ in Hx. lia. Qed.

Lemma inv_nodup s na nu l u d h : rx_inv s na nu l u d h -> NoDup (l ++ (dv_owned (rx_dev s)).*1 ++ d.*1 ++ u.*1 ++ h.*1 ++ in_hand (rx_at s)).
Proof. intros H. rewrite (ri_perm _ _ _ _ _ _ _ H). apply NoDup_seqZ. Qed.

(** A completion in [d], [u] or [h] is of one of the buffers. *)
Lemma inv_done_id s na nu l u d h e : rx_inv s na nu l u d h -> e ∈ d ++ u ++ h -> 0 <= e.1 < 16.
Proof.
  intros H He. apply (inv_id _ _ _ _ _ _ _ _ H). rewrite !elem_of_app in *.
  destruct He as [He|[He|He]]; apply (list_elem_of_fmap_2 fst) in He; tauto.
Qed.

(** A change of memory in frame [a] that keeps the rings and the completed buffers. *)
Lemma holds_frame s na nu l u d h m' : rx_inv s na nu l u d h ->
  (forall i, 0 <= i < 16 -> same_on (rx_mem s) m' (buf i) 4096) -> Forall (holds m') (d ++ u ++ h).
Proof.
  intros H Hs. apply Forall_forall. intros e He. apply holds_same with (rx_mem s).
  - apply Hs. by apply (inv_done_id s na nu l u d h).
  - exact (proj1 (Forall_forall _ _) (ri_holds _ _ _ _ _ _ _ H) e He).
Qed.

Lemma next_entry s na nu l e u d h : rx_inv s na nu l (e :: u) d h ->
  pop_id (rx_q s) (rx_mem s) = e.1 /\ pop_len (rx_q s) (rx_mem s) = NET_HDR_LEN + Z.of_nat (length e.2).
Proof.
  intros H. destruct (inv_size _ _ _ _ _ _ _ H) as [Hs Hp]. pose proof (ri_used _ _ _ _ _ _ _ H) as Hu. cbn [fmap list_fmap] in Hu.
  apply used_take in Hu as [_ E]. cbn [length] in E. rewrite length_fmap in E. pose proof (ri_last _ _ _ _ _ _ _ H) as El. cbn [length] in El.
  assert (ring_slot (vq_last_used_idx (rx_q s)) (vq_queue_size (rx_q s)) = (nu - Z.of_nat (S (length u))) mod vq_queue_size (rx_q s)) as Er
    by (rewrite El; apply ring_slot_wrap; [lia|done]).
  unfold pop_id, pop_len, pop_elem. rewrite Er. rewrite !dm_add. injection E as E1 E2. split; [exact E1|exact E2].
Qed.

(** ** Steps of the driver *)

Lemma pop_ok s na nu l u d h : rx_inv s na nu l u d h -> rx_at s = RPop -> rx_inv (poll_rx_step s) na nu l u d h.
Proof.
  intros H Hp. unfold poll_rx_step. rewrite Hp. pose proof (inv_count _ _ _ _ _ _ _ H) as Hc. destruct H. rewrite Hp in *.
  assert (used_idx (rx_q s) (rx_mem s) = wrap16 nu) as Eu by (unfold used_idx; rewrite dm_add; apply ri_used0).
  destruct (Z.eqb_spec (used_idx (rx_q s) (rx_mem s)) (vq_last_used_idx (rx_q s))) as [E|E]; constructor; try done.
  rewrite Eu, ri_last0 in E. cbn. intros ->. apply E. f_equal. cbn. lia.
Qed.

Lemma read_id_ok s na nu l u d h : rx_inv s na nu l u d h -> rx_at s = RReadId -> rx_inv (poll_rx_step s) na nu l u d h.
Proof.
  intros H Hp. unfold poll_rx_step. rewrite Hp. destruct u as [|[id f] u]; [pose proof (ri_pc _ _ _ _ _ _ _ H) as Hc; by rewrite Hp in Hc|].
  destruct (next_entry _ _ _ _ _ _ _ _ H) as [E1 _]. destruct H. rewrite Hp in *. constructor; try done. exists f, u. by rewrite E1.
Qed.

Lemma read_len_ok s na nu l u d h id : rx_inv s na nu l u d h -> rx_at s = RReadLen id -> exists u' h', rx_inv (poll_rx_step s) na nu l u' d h'.
Proof.
  intros H Hp. unfold poll_rx_step. rewrite Hp. pose proof (ri_pc _ _ _ _ _ _ _ H) as Hc. rewrite Hp in Hc. destruct Hc as (f & u' & ->).
  destruct (next_entry _ _ _ _ _ _ _ _ H) as [E1 E2]. pose proof (ri_held _ _ _ _ _ _ _ H) as Hh. rewrite Hp in Hh. cbn in Hh. subst h.
  destruct (inv_size _ _ _ _ _ _ _ H) as [Hs _]. exists u', [(id, f)]. destruct H. rewrite Hp in *. constructor; try done; cbn [rx_goto rx_q rx_mem rx_at rx_dev rx_pending rx_received rx_delivered].
  - by destruct ri_layout0.
  - change (used_rep (rx_q s) (rx_mem s) nu (used_elem <$> u') (used_elem <$> d)). cbn [fmap list_fmap] in ri_used0. by apply used_take in ri_used0 as [? _].
  - cbn [pop_advance vq_last_used_idx]. rewrite ri_last0, wrap16_add. f_equal. cbn [length]. lia.
  - rewrite <- ri_perm0. cbn. rewrite !app_nil_r. do 3 apply Permutation_app_head. apply Permutation_sym, Permutation_cons_append.
  - rewrite app_nil_r in ri_holds0. rewrite Forall_app in ri_holds0 |- *. destruct ri_holds0 as [? Hu]. apply Forall_cons in Hu as [? ?]. split; [done|]. rewrite Forall_app, Forall_singleton. done.
  - exists f. split; [done|]. exact E2.
Qed.

Lemma rx_frame_ok s na nu l u d h id len : rx_inv s na nu l u d h -> rx_at s = RFrame id len -> rx_inv (poll_rx_step s) na nu l u d [].
Proof.
  intros H Hp. pose proof (ri_held _ _ _ _ _ _ _ H) as Hh. rewrite Hp in Hh. destruct Hh as (f & -> & ->).
  assert (0 <= id < 16) as Hid by (apply (inv_done_id _ _ _ _ _ _ _ (id, f) H); set_solver).
  pose proof (ri_holds _ _ _ _ _ _ _ H) as Hf. rewrite !Forall_app, Forall_singleton in Hf. destruct Hf as (Hd & Hu & Hl & Hc). cbn [fst snd] in Hl, Hc.
  destruct (layout_buf _ id (ri_layout _ _ _ _ _ _ _ H) Hid) as (_ & Hb & _).
  assert (rx_frame (rx_mem s) id (NET_HDR_LEN + Z.of_nat (length f)) = f) as Ef.
  { unfold rx_frame. fold (buf id). rewrite wrap64_small by (unfold is_u64, VQ_DIRECT_MAP_BASE; lia). replace (dm (VQ_DIRECT_MAP_BASE + buf id)) with (buf id) by (unfold dm; lia).
    replace (Z.to_nat (Z.min _ _)) with (length f) by lia. done. }
  unfold poll_rx_step. rewrite Hp, Ef. rewrite (proj2 (Z.ltb_lt _ _)) by (unfold RX_BUFFER_COUNT; lia). rewrite (proj2 (Z.leb_le _ _)) by lia. cbn [andb].
  destruct H. rewrite Hp in *. constructor; try done; cbn [rx_q rx_mem rx_at rx_dev rx_pending rx_received rx_delivered].
  - rewrite app_nil_r, Forall_app. done.
  - cbn. lia.
  - rewrite ri_log0. cbn [fmap list_fmap snd]. by rewrite <- !app_assoc.
Qed.

(** Writing a field of a descriptor that is there already. *)
Lemma rewrite_desc q m id k : rx_layout q -> 0 <= id < 16 -> (k < 4)%nat ->
  (forall i, 0 <= i < 16 -> desc_entry q m i = rx_desc (buf i)) ->
  forall i, 0 <= i < 16 -> desc_entry q (write_desc_field q m id (rx_desc (buf id)) k) i = rx_desc (buf i).
Proof.
  intros Hl Hid Hk H i Hi. destruct (layout_buf q id Hl Hid) as (_ & Hb & _). assert (0 <= vd_addr (rx_desc (buf id)) < 256 ^ Z.of_nat 8) as Ha by (cbn; lia).
  pose proof (H i Hi) as Ei. unfold desc_entry in Ei |- *. injection Ei as E1 E2 E3 E4.
  destruct k as [|[|[|[|k]]]]; [..|lia]; cbn [write_desc_field]; rewrite ?dm_add; destruct (decide (i = id)) as [->|Hne];
    unfold rx_desc; cbn [vd_addr vd_len vd_flags vd_next] in *; f_equal; try (rewrite load_store; [done|done]); rewrite load_store_ne by lia; done.
Qed.

Lemma write_field_same q m id d k f : rx_layout q -> 0 <= id < 16 -> f mod 4096 = 0 -> dm (vq_desc_va q) <> f ->
  same_on m (write_desc_field q m id d k) f 4096.
Proof.
  intros Hl Hid Hf Hne. destruct (layout_desc q Hl) as [Ha _].
  destruct k as [|[|[|k]]]; cbn [write_desc_field]; rewrite !dm_add, <- ?Z.add_assoc; apply same_frame; try done; lia.
Qed.

Lemma desc_ok s na nu l u d h id k : rx_inv s na nu l u d h -> rx_at s = RDesc id k -> rx_inv (poll_rx_step s) na nu l u d h.
Proof.
  intros H Hp. pose proof (ri_pc _ _ _ _ _ _ _ H) as Hk. rewrite Hp in Hk. cbn in Hk. pose proof (ri_layout _ _ _ _ _ _ _ H) as Hl.
  assert (0 <= id < 16) as Hid by (apply (inv_id _ _ _ _ _ _ _ id H); rewrite Hp; cbn; set_solver).
  destruct (layout_desc _ Hl) as (_ & D1 & D2). destruct (layout_avail _ Hl) as (A1 & _). pose proof (layout_used _ Hl) as U1.
  destruct (inv_size _ _ _ _ _ _ _ H) as [Hs _]. unfold poll_rx_step. rewrite Hp. fold (buf id). set (m' := write_desc_field _ _ _ _ _).
  assert (forall f, f mod 4096 = 0 -> dm (vq_desc_va (rx_q s)) <> f -> same_on (rx_mem s) m' f 4096) as Hm by (intros; by apply write_field_same).
  pose proof (holds_frame _ _ _ _ _ _ _ m' H (fun i Hi => Hm _ (proj1 (layout_buf _ i Hl Hi)) (proj1 (proj2 (proj2 (layout_buf _ i Hl Hi)))))) as Hh.
  pose proof (rewrite_desc (rx_q s) (rx_mem s) id k Hl Hid Hk (ri_descs _ _ _ _ _ _ _ H)) as Hd.
  destruct H. rewrite Hp in *. constructor; try done; cbn [rx_goto rx_q rx_mem rx_at rx_dev rx_pending rx_received rx_delivered].
  - apply avail_rep_same with (rx_mem s); auto.
  - apply used_rep_same with (rx_mem s); auto.
  - by destruct (k <? 3)%nat.
  - by destruct (k <? 3)%nat.
  - by destruct (k <? 3)%nat.
  - destruct (Nat.ltb_spec k 3); cbn; [lia|done].
Qed.

Lemma ring_ok s na nu l u d h id : rx_inv s na nu l u d h -> rx_at s = RRing id -> rx_inv (poll_rx_step s) na nu l u d h.
Proof.
  intros H Hp. pose proof (ri_layout _ _ _ _ _ _ _ H) as Hl. destruct (inv_size _ _ _ _ _ _ _ H) as [Hs Hpow]. pose proof (inv_count _ _ _ _ _ _ _ H) as Hc. rewrite Hp in Hc. cbn in Hc.
  assert (0 <= id < 16) as Hid by (apply (inv_id _ _ _ _ _ _ _ id H); rewrite Hp; cbn; set_solver).
  destruct (layout_desc _ Hl) as (D0 & D1 & D2). destruct (layout_avail _ Hl) as (A1 & A2). pose proof (layout_used _ Hl) as U1. pose proof (rl_size _ Hl).
  unfold poll_rx_step. rewrite Hp. unfold push_avail_ring. rewrite (ri_aidx _ _ _ _ _ _ _ H), Hp, Z.add_0_r, ring_slot_wrap, !dm_add by (done || lia).
  replace (wrap16 id) with id by (unfold wrap16, wrapw; rewrite Z.mod_small; lia).
  pose proof (slot_range (rx_q s) Hs na) as Hr. pose proof (avail_push_slot (rx_q s) Hs (rx_mem s) na l id (ri_avail _ _ _ _ _ _ _ H) ltac:(lia) ltac:(lia)) as [Ha He].
  set (m' := store _ _ _ _) in *.
  assert (forall f, f mod 4096 = 0 -> dm (vq_avail_va (rx_q s)) <> f -> same_on (rx_mem s) m' f 4096) as Hm
    by (intros; unfold m'; rewrite <- Z.add_assoc; apply same_frame; unfold AVAIL_RING_OFF; try done; lia).
  pose proof (holds_frame _ _ _ _ _ _ _ m' H (fun i Hi => Hm _ (proj1 (layout_buf _ i Hl Hi)) (proj1 (proj2 (proj2 (proj2 (layout_buf _ i Hl Hi))))))) as Hh.
  destruct H. rewrite Hp in *. constructor; try done; cbn [rx_goto rx_q rx_mem rx_at rx_dev rx_pending rx_received rx_delivered].
  - by destruct ri_layout0.
  - apply (used_rep_same (rx_q s) Hs (rx_mem s)); auto.
  - apply (descs_same (rx_q s) (rx_mem s)); auto.
  - cbn [vq_avail_idx]. by rewrite wrap16_add.
Qed.

Lemma idx_ok s na nu l u d h id : rx_inv s na nu l u d h -> rx_at s = RIdx id -> rx_inv (poll_rx_step s) (na + 1) nu (l ++ [id]) u d h.
Proof.
  intros H Hp. pose proof (ri_layout _ _ _ _ _ _ _ H) as Hl. destruct (inv_size _ _ _ _ _ _ _ H) as [Hs Hpow].
  destruct (layout_desc _ Hl) as (D0 & D1 & D2). destruct (layout_avail _ Hl) as (A1 & A2). pose proof (layout_used _ Hl) as U1.
  pose proof (ri_pc _ _ _ _ _ _ _ H) as He. rewrite Hp in He. cbn [pc_ok] in He.
  unfold poll_rx_step. rewrite Hp. unfold push_avail_idx. rewrite (ri_aidx _ _ _ _ _ _ _ H), Hp, !dm_add.
  pose proof (avail_push_idx (rx_q s) Hs (rx_mem s) na l id (ri_avail _ _ _ _ _ _ _ H) He) as Ha. set (m' := store _ _ _ _) in *.
  assert (forall f, f mod 4096 = 0 -> dm (vq_avail_va (rx_q s)) <> f -> same_on (rx_mem s) m' f 4096) as Hm
    by (intros; unfold m'; apply same_frame; unfold AVAIL_IDX_OFF; try done; lia).
  pose proof (holds_frame _ _ _ _ _ _ _ m' H (fun i Hi => Hm _ (proj1 (layout_buf _ i Hl Hi)) (proj1 (proj2 (proj2 (proj2 (layout_buf _ i Hl Hi))))))) as Hh.
  destruct H. rewrite Hp in *. constructor; try done; cbn [rx_goto rx_q rx_mem rx_at rx_dev rx_pending rx_received rx_delivered].
  - apply used_rep_same with (rx_mem s); auto.
  - apply (descs_same (rx_q s) (rx_mem s)); auto.
  - rewrite ri_seen0. f_equal. rewrite length_app. cbn. lia.
  - by rewrite Z.add_0_r.
  - rewrite <- ri_perm0. cbn [in_hand]. rewrite !app_nil_r, <- app_assoc. apply Permutation_app_head. cbn. by rewrite Permutation_cons_append, <- !app_assoc.
Qed.

(** ** Steps of the device *)

Lemma pc_ok_same pc q m m' na u : 0 < vq_queue_size q <= 256 -> same_on m m' (dm (vq_avail_va q)) 4096 -> pc_ok pc q m na u -> pc_ok pc q m' na u.
Proof. intros Hq Hs H. destruct pc; try done. cbn [pc_ok] in *. by rewrite (avail_entry_same q Hq m). Qed.

Lemma rx_take_ok s na nu l u d h : rx_inv s na nu l u d h -> load 2 (rx_mem s) (dm (vq_avail_va (rx_q s)) + AVAIL_IDX_OFF) <> dv_seen (rx_dev s) ->
  exists id l', l = id :: l' /\ avail_entry (rx_q s) (rx_mem s) (dv_seen (rx_dev s)) = id.
Proof.
  intros H Hne. destruct (inv_size _ _ _ _ _ _ _ H) as [Hs Hpow]. pose proof (ri_seen _ _ _ _ _ _ _ H) as Es. rewrite (proj1 (ri_avail _ _ _ _ _ _ _ H)), Es in Hne.
  destruct l as [|id l']; [exfalso; apply Hne; f_equal; cbn; lia|]. exists id, l'. split; [done|].
  destruct (avail_take _ _ _ _ _ (ri_avail _ _ _ _ _ _ _ H)) as [_ E]. rewrite Es. etrans; [|exact E]. unfold avail_entry. by rewrite (ring_slot_wrap _ _ (proj1 Hs) Hpow : _ mod _ = _).
Qed.

Lemma dev_take_ok s na nu l u d h id l' : rx_inv s na nu l u d h -> l = id :: l' -> avail_entry (rx_q s) (rx_mem s) (dv_seen (rx_dev s)) = id ->
  rx_inv {| rx_mem := rx_mem s; rx_q := rx_q s; rx_at := rx_at s;
    rx_dev := {| dv_seen := wrap16 (dv_seen (rx_dev s) + 1); dv_owned := dv_owned (rx_dev s) ++ [(id, desc_entry (rx_q s) (rx_mem s) id)]; dv_next := dv_next (rx_dev s) |};
    rx_pending := rx_pending s; rx_received := rx_received s; rx_delivered := rx_delivered s |} na nu l' u d h.
Proof.
  intros H -> E. assert (0 <= id < 16) as Hid by (apply (inv_id _ _ _ _ _ _ _ id H); set_solver).
  destruct (avail_take _ _ _ _ _ (ri_avail _ _ _ _ _ _ _ H)) as [Ha _]. destruct H. constructor; try done; cbn [rx_q rx_mem rx_at rx_dev rx_pending rx_received rx_delivered dv_seen dv_owned dv_next].
  - rewrite ri_seen0, wrap16_add. f_equal. cbn [length]. lia.
  - rewrite Forall_app, Forall_singleton. split; [done|]. cbn. by apply ri_descs0.
  - rewrite <- ri_perm0, fmap_app. cbn [fmap list_fmap fst app]. rewrite <- !app_assoc. cbn [app]. symmetry. rewrite Permutation_middle. apply Permutation_app_head. apply Permutation_middle.
Qed.

Lemma dev_write_ok s na nu l u d h id x off bs : rx_inv s na nu l u d h -> (id, x) ∈ dv_owned (rx_dev s) -> 0 <= off -> off + Z.of_nat (length bs) <= vd_len x ->
  rx_inv {| rx_mem := copy_to (rx_mem s) (vd_addr x + off) bs; rx_q := rx_q s; rx_at := rx_at s; rx_dev := rx_dev s;
    rx_pending := rx_pending s; rx_received := rx_received s; rx_delivered := rx_delivered s |} na nu l u d h.
Proof.
  intros H Ho H0 Hn. pose proof (ri_layout _ _ _ _ _ _ _ H) as Hl. destruct (inv_size _ _ _ _ _ _ _ H) as [Hs _]. pose proof (inv_nodup _ _ _ _ _ _ _ H) as Hnd.
  pose proof (proj1 (Forall_forall _ _) (ri_owned _ _ _ _ _ _ _ H) _ Ho) as Ex. cbn in Ex. subst x. cbn [rx_desc vd_addr vd_len] in *.
  assert (id ∈ (dv_owned (rx_dev s)).*1) as Hin by (by apply (list_elem_of_fmap_2 fst) in Ho).
  assert (0 <= id < 16) as Hid by (apply (inv_id _ _ _ _ _ _ _ id H); set_solver).
  destruct (layout_buf _ id Hl Hid) as (B0 & _ & B1 & B2 & B3). destruct (layout_desc _ Hl) as (D0 & D1 & D2). destruct (layout_avail _ Hl) as (A1 & A2). pose proof (layout_used _ Hl) as U1.
  set (m' := copy_to _ _ _). assert (forall f, f mod 4096 = 0 -> buf id <> f -> same_on (rx_mem s) m' f 4096) as Hm
    by (intros; apply copy_same, frames_apart; unfold BUF_LEN, NET_HDR_LEN, ETH_FRAME_MAX in *; try done; lia).
  assert (Forall (holds m') (d ++ u ++ h)) as Hh.
  { apply Forall_forall. intros e He. pose proof (inv_done_id _ _ _ _ _ _ _ e H He) as Hei. apply holds_same with (rx_mem s); [|exact (proj1 (Forall_forall _ _) (ri_holds _ _ _ _ _ _ _ H) e He)].
    apply Hm; [apply (layout_buf _ e.1 Hl Hei)|]. intros E. apply (buf_inj _ id e.1 Hl Hid Hei) in E. subst id.
    apply NoDup_app in Hnd as (_ & _ & Hnd). apply NoDup_app in Hnd as (_ & Hnd & _). apply (Hnd e.1 Hin). rewrite !elem_of_app in He. rewrite !elem_of_app.
    destruct He as [He|[He|He]]; apply (list_elem_of_fmap_2 fst) in He; tauto. }
  destruct H. constructor; try done; cbn [rx_q rx_mem rx_at rx_dev rx_pending rx_received rx_delivered].
  - apply avail_rep_same with (rx_mem s); auto.
  - apply used_rep_same with (rx_mem s); auto.
  - apply (descs_same (rx_q s) (rx_mem s)); auto.
  - apply pc_ok_same with (rx_mem s); auto.
Qed.

Lemma dev_done_ok s na nu l u d h o1 o2 id x len : rx_inv s na nu l u d h -> dv_owned (rx_dev s) = o1 ++ (id, x) :: o2 -> NET_HDR_LEN <= len <= vd_len x ->
  let p := dm (vq_used_va (rx_q s)) + USED_RING_OFF + (dv_next (rx_dev s) mod vq_queue_size (rx_q s)) * 8 in
  let f := copy_from (rx_mem s) (vd_addr x + NET_HDR_LEN) (Z.to_nat (len - NET_HDR_LEN)) in
  rx_inv {| rx_mem := store 4 (store 4 (rx_mem s) p id) (p + 4) len; rx_q := rx_q s; rx_at := rx_at s;
    rx_dev := {| dv_seen := dv_seen (rx_dev s); dv_owned := o1 ++ o2; dv_next := wrap16 (dv_next (rx_dev s) + 1) |};
    rx_pending := rx_pending s ++ [f]; rx_received := rx_received s; rx_delivered := rx_delivered s |} na nu l u (d ++ [(id, f)]) h.
Proof.
  intros H Ho Hlen p f. pose proof (ri_layout _ _ _ _ _ _ _ H) as Hl. destruct (inv_size _ _ _ _ _ _ _ H) as [Hs Hpow]. pose proof (inv_count _ _ _ _ _ _ _ H) as Hc.
  pose proof (rl_size _ Hl). pose proof (ri_owned _ _ _ _ _ _ _ H) as Hx. rewrite Ho in Hx, Hc. rewrite Forall_app, Forall_cons in Hx. destruct Hx as (Ho1 & Ex & Ho2). cbn in Ex. subst x.
  rewrite length_app in Hc. cbn [length] in Hc. cbn [rx_desc vd_addr vd_len] in *.
  assert (0 <= id < 16) as Hid by (apply (inv_id _ _ _ _ _ _ _ id H); rewrite Ho, fmap_app; cbn; set_solver).
  destruct (layout_buf _ id Hl Hid) as (B0 & _ & B1 & B2 & B3). destruct (layout_desc _ Hl) as (D0 & D1 & D2). destruct (layout_avail _ Hl) as (A1 & A2). pose proof (layout_used _ Hl) as U1.
  assert (length f = Z.to_nat (len - NET_HDR_LEN)) as Hf by (unfold f, copy_from; by rewrite length_fmap, length_seq).
  assert (dv_next (rx_dev s) mod vq_queue_size (rx_q s) = (nu + Z.of_nat (length d)) mod vq_queue_size (rx_q s)) as En
    by (rewrite (ri_next _ _ _ _ _ _ _ H); by apply ring_slot_wrap; [lia|]).
  pose proof (slot_range (rx_q s) Hs (nu + Z.of_nat (length d))) as Hr. unfold BUF_LEN, NET_HDR_LEN, ETH_FRAME_MAX in Hlen.
  pose proof (used_write (rx_q s) Hs (rx_mem s) nu (used_elem <$> u) (used_elem <$> d) (used_elem (id, f)) (ri_used _ _ _ _ _ _ _ H)) as Hu.
  rewrite length_app, !length_fmap in Hu. cbn [used_elem ue_id ue_len fst snd] in Hu. rewrite Hf in Hu. unfold NET_HDR_LEN in Hu, Hf. specialize (Hu ltac:(lia) ltac:(lia) ltac:(lia)). cbv zeta in Hu.
  rewrite <- En in Hu. fold p in Hu. replace (12 + Z.of_nat (Z.to_nat (len - 12))) with len in Hu by lia. rewrite <- En in Hr. set (m' := store 4 _ (p + 4) len) in *.
  assert (forall a, a mod 4096 = 0 -> dm (vq_used_va (rx_q s)) <> a -> same_on (rx_mem s) m' a 4096) as Hm.
  { intros a Ha Hne. unfold m', p. apply same_on_trans with (store 4 (rx_mem s) p id); unfold p, USED_RING_OFF; rewrite <- !Z.add_assoc; apply same_frame; try done; lia. }
  pose proof (holds_frame _ _ _ _ _ _ _ m' H (fun i Hi => Hm _ (proj1 (layout_buf _ i Hl Hi)) (proj2 (proj2 (proj2 (proj2 (layout_buf _ i Hl Hi))))))) as Hh.
  destruct H. constructor; try done; cbn [rx_q rx_mem rx_at rx_dev rx_pending rx_received rx_delivered dv_seen dv_owned dv_next].
  - apply avail_rep_same with (rx_mem s); auto.
  - by rewrite fmap_app.
  - apply (descs_same (rx_q s) (rx_mem s)); auto.
  - rewrite ri_next0, wrap16_add, length_app. f_equal. cbn. lia.
  - by rewrite Forall_app.
  - rewrite <- ri_perm0, Ho, !fmap_app. cbn [fmap list_fmap fst]. apply Permutation_app_head. rewrite <- !app_assoc. apply Permutation_app_head. cbn. by rewrite <- !Permutation_middle.
  - rewrite <- app_assoc, Forall_app. rewrite Forall_app in Hh. destruct Hh as [? ?]. split; [done|]. cbn. apply Forall_cons. split; [|done]. split; cbn [fst snd].
    + unfold ETH_FRAME_MAX. lia.
    + rewrite Hf at 1. unfold f. apply (copy_from_same (rx_mem s)), (same_on_sub _ _ _ _ _ _ (Hm _ B0 B3)); unfold NET_HDR_LEN; lia.
  - apply pc_ok_same with (rx_mem s); auto.
  - by rewrite ri_pending0, fmap_app.
Qed.

Lemma dev_publish_ok s na nu l u d h : rx_inv s na nu l u d h ->
  rx_inv {| rx_mem := store 2 (rx_mem s) (dm (vq_used_va (rx_q s)) + USED_IDX_OFF) (dv_next (rx_dev s)); rx_q := rx_q s; rx_at := rx_at s; rx_dev := rx_dev s;
    rx_pending := []; rx_received := rx_received s ++ rx_pending s; rx_delivered := rx_delivered s |} na (nu + Z.of_nat (length d)) l (u ++ d) [] h.
Proof.
  intros H. pose proof (ri_layout _ _ _ _ _ _ _ H) as Hl. destruct (inv_size _ _ _ _ _ _ _ H) as [Hs _].
  destruct (layout_desc _ Hl) as (D0 & D1 & D2). destruct (layout_avail _ Hl) as (A1 & A2). pose proof (layout_used _ Hl) as U1.
  pose proof (used_publish (rx_q s) Hs (rx_mem s) nu _ _ (ri_used _ _ _ _ _ _ _ H)) as Hu. rewrite length_fmap, <- fmap_app in Hu. rewrite (ri_next _ _ _ _ _ _ _ H).
  set (m' := store _ _ _ _) in *. assert (forall a, a mod 4096 = 0 -> dm (vq_used_va (rx_q s)) <> a -> same_on (rx_mem s) m' a 4096) as Hm
    by (intros; unfold m'; apply same_frame; unfold USED_IDX_OFF; try done; lia).
  pose proof (holds_frame _ _ _ _ _ _ _ m' H (fun i Hi => Hm _ (proj1 (layout_buf _ i Hl Hi)) (proj2 (proj2 (proj2 (proj2 (layout_buf _ i Hl Hi))))))) as Hh.
  destruct H. constructor; try done; cbn [rx_q rx_mem rx_at rx_dev rx_pending rx_received rx_delivered].
  - apply avail_rep_same with (rx_mem s); auto.
  - apply (descs_same (rx_q s) (rx_mem s)); auto.
  - rewrite ri_next0. f_equal. cbn. lia.
  - rewrite ri_last0. f_equal. rewrite length_app. lia.
  - rewrite <- ri_perm0, fmap_app. apply Permutation_app_head, Permutation_app_head. cbn. rewrite <- app_assoc. apply perm_app_swap.
  - cbn [app]. rewrite !Forall_app. rewrite !Forall_app in Hh. tauto.
  - destruct (rx_at s); try done; cbn [pc_ok] in *; [by intros [-> ->]%app_nil|destruct ri_pc0 as (f & u' & ->); by exists f, (u' ++ d)|by rewrite (avail_entry_same (rx_q s) Hs (rx_mem s)) by auto].
  - by rewrite ri_log0, ri_pending0, fmap_app, <- !app_assoc.
Qed.

Lemma rx_step_ok s s' : rx_ok s -> rx_step s s' -> rx_ok s'.
Proof.
  intros (na & nu & l & u & d & h & H) Hs. destruct Hs as [s|s s' Hd].
  - destruct (rx_at s) eqn:Hp.
    + exists na, nu, l, u, d, h. unfold poll_rx_step. rewrite Hp. destruct H. rewrite Hp in *. by constructor.
    + exists na, nu, l, u, d, h. by apply pop_ok.
    + exists na, nu, l, u, d, h. by apply read_id_ok.
    + destruct (read_len_ok _ _ _ _ _ _ _ id H Hp) as (u' & h' & H'). by exists na, nu, l, u', d, h'.
    + exists na, nu, l, u, d, []. by eapply rx_frame_ok.
    + exists na, nu, l, u, d, h. by eapply desc_ok.
    + exists na, nu, l, u, d, h. by eapply ring_ok.
    + exists (na + 1), nu, (l ++ [id]), u, d, h. by apply idx_ok.
    + exists na, nu, l, u, d, h. unfold poll_rx_step. rewrite Hp. destruct H. rewrite Hp in *. by constructor.
  - destruct Hd as [s q m dv Hne id|s id x off bs Ho _ H0 Hn|s o1 o2 id x len q m dv Ho Hlen p|s].
    + destruct (rx_take_ok _ _ _ _ _ _ _ H Hne) as (i & l' & El & Ei). exists na, nu, l', u, d, h. unfold id, q, m, dv. rewrite Ei. by apply (dev_take_ok _ _ _ l).
    + exists na, nu, l, u, d, h. by apply (dev_write_ok _ _ _ _ _ _ _ id).
    + exists na, nu, l, u, (d ++ [(id, copy_from m (vd_addr x + NET_HDR_LEN) (Z.to_nat (len - NET_HDR_LEN)))]), h. by apply dev_done_ok.
    + exists na, (nu + Z.of_nat (length d)), l, (u ++ d), [], h. by apply dev_publish_ok.
Qed.

(** ** Posting the buffers *)

Definition with_idx (q : Virtqueue) (k : Z) : Virtqueue :=
  {| vq_queue_size := vq_queue_size q;
     vq_desc_phys := vq_desc_phys q; vq_avail_phys := vq_avail_phys q; vq_used_phys := vq_used_phys q;
     vq_desc_va := vq_desc_va q; vq_avail_va := vq_avail_va q; vq_used_va := vq_used_va q;
     vq_avail_idx := wrap16 k; vq_last_used_idx := vq_last_used_idx q |}.

Lemma write_desc_entry q m i b : 0 <= i -> 0 < b < 2 ^ 44 ->
  desc_entry q (write_desc q m i (rx_desc b)) i = rx_desc b /\ forall j, 0 <= j -> j <> i -> desc_entry q (write_desc q m i (rx_desc b)) j = desc_entry q m j.
Proof.
  intros Hi Hb. unfold write_desc. cbn [seq foldl write_desc_field]. rewrite !dm_add. unfold rx_desc at 1 2 3 4. cbn [vd_addr vd_len vd_flags vd_next]. unfold desc_entry. split.
  - unfold rx_desc. f_equal; repeat (rewrite load_store_ne by lia); apply load_store; first [done | change (256 ^ Z.of_nat 8) with (2 ^ 64); lia].
  - intros j Hj Hne. f_equal; repeat (rewrite load_store_ne by lia); done.
Qed.

Lemma write_desc_same q m i d f : rx_layout q -> 0 <= i < 16 -> f mod 4096 = 0 -> dm (vq_desc_va q) <> f -> same_on m (write_desc q m i d) f 4096.
Proof.
  intros Hl Hi Hf Hne. unfold write_desc. cbn [seq foldl].
  repeat (eapply same_on_trans; [|by apply write_field_same]). apply same_on_refl.
Qed.

(** What [n] rounds of [fill_rx] leave. *)
Record filled (q : Virtqueue) (m m' : pmem) (n : nat) : Prop := {
  fi_avail : avail_rep q m' (Z.of_nat n) (seqZ 0 (Z.of_nat n));
  fi_descs : forall i, 0 <= i < Z.of_nat n -> desc_entry q m' i = rx_desc (buf i);
  fi_used : same_on m m' (dm (vq_used_va q)) 4096
}.

Lemma fill_rx_filled q m n : rx_layout q -> vq_avail_idx q = 0 -> load 2 m (dm (vq_avail_va q) + AVAIL_IDX_OFF) = 0 -> (n <= 16)%nat ->
  exists m', foldl (fill_rx_step rx_bufs) (q, m) (seq 0 n) = (with_idx q (Z.of_nat n), m') /\ filled q m m' n.
Proof.
  intros Hl H0 Hz. pose proof (rl_size _ Hl) as Hs. pose proof (rl_pow _ Hl) as Hpow. destruct (layout_desc _ Hl) as (D0 & D1 & D2). destruct (layout_avail _ Hl) as (A1 & A2). pose proof (layout_used _ Hl) as U1.
  induction n as [|n IH]; intros Hn.
  - exists m. split; [cbn; destruct q; cbn in *; by subst|]. split; [split; [done|]|lia|apply same_on_refl]. intros i d Hd. done.
  - destruct (IH ltac:(lia)) as (m1 & E & [F1 F2 F3]). rewrite seq_S, foldl_app, E. cbn [foldl Nat.add]. unfold fill_rx_step.
    replace (wrap16 (Z.of_nat n)) with (Z.of_nat n) by (unfold wrap16, wrapw; rewrite Z.mod_small; lia).
    destruct (layout_buf q (Z.of_nat n) Hl ltac:(lia)) as (_ & Hb & _). replace (rx_bufs !!! n) with (buf (Z.of_nat n)) by (unfold buf; by rewrite Nat2Z.id).
    change (write_desc (with_idx q (Z.of_nat n))) with (write_desc q). set (m2 := write_desc q m1 _ _).
    destruct (write_desc_entry q m1 (Z.of_nat n) (buf (Z.of_nat n)) ltac:(lia) Hb) as [W1 W2]. fold m2 in W1, W2.
    assert (forall f, f mod 4096 = 0 -> dm (vq_desc_va q) <> f -> same_on m1 m2 f 4096) as S2 by (intros; apply write_desc_same; done || lia).
    assert (avail_rep q m2 (Z.of_nat n) (seqZ 0 (Z.of_nat n))) as R2 by (apply avail_rep_same with m1; [lia|by apply S2|done]).
    unfold push_avail, push_avail_ring. cbn [with_idx vq_queue_size vq_avail_idx vq_avail_va vq_desc_phys vq_avail_phys vq_used_phys vq_desc_va vq_used_va vq_last_used_idx].
    rewrite ring_slot_wrap by (done || lia). unfold push_avail_idx. cbn [vq_avail_va vq_avail_idx]. rewrite !dm_add, wrap16_add.
    destruct (avail_push_slot q ltac:(lia) m2 _ _ (Z.of_nat n) R2) as [R3 E3]; [rewrite length_seqZ; lia|lia|]. set (m3 := store 2 m2 _ _) in *.
    pose proof (avail_push_idx q ltac:(lia) m3 _ _ _ R3 E3) as R4. set (m4 := store 2 m3 _ _) in *. pose proof (slot_range q ltac:(lia) (Z.of_nat n)) as Hr.
    assert (forall f, f mod 4096 = 0 -> dm (vq_avail_va q) <> f -> same_on m2 m4 f 4096) as S4.
    { intros f Hf Hne. apply same_on_trans with m3; unfold m4, m3; rewrite <- ?Z.add_assoc; apply same_frame; unfold AVAIL_RING_OFF, AVAIL_IDX_OFF; try done; lia. }
    exists m4. replace (Z.of_nat (S n)) with (Z.of_nat n + 1) by lia. split; [done|]. split.
    + replace (Z.of_nat (S n)) with (Z.of_nat n + 1) by lia. rewrite seqZ_app by lia. done.
    + assert (forall i, 0 <= i < 16 -> desc_entry q m4 i = desc_entry q m2 i) as S5
        by (intros i Hi; unfold desc_entry; f_equal; apply load_same, (same_on_sub _ _ _ _ _ _ (S4 _ D0 (not_eq_sym D1))); lia).
      intros i Hi. rewrite S5 by lia. destruct (decide (i = Z.of_nat n)) as [->|Hne]; [done|]. rewrite W2 by lia. apply F2. lia.
    + apply same_on_trans with m1; [done|]. apply same_on_trans with m2; auto.
Qed.

(** The system when the device goes live. *)
Definition rx_start (q : Virtqueue) (m : pmem) : rx_state :=
  let '(q', m') := fill_rx rx_bufs q m in
  {| rx_mem := m'; rx_q := q'; rx_at := RIdle; rx_dev := {| dv_seen := 0; dv_owned := []; dv_next := 0 |};
     rx_pending := []; rx_received := []; rx_delivered := [] |}.

Record rx_fresh (q : Virtqueue) (m : pmem) : Prop := {
  rf_layout : rx_layout q;
  rf_idx : vq_avail_idx q = 0 /\ vq_last_used_idx q = 0;
  rf_zero : load 2 m (dm (vq_avail_va q) + AVAIL_IDX_OFF) = 0 /\ load 2 m (dm (vq_used_va q) + USED_IDX_OFF) = 0
}.

Lemma rx_start_ok q m : rx_fresh q m -> rx_ok (rx_start q m).
Proof.
  intros [Hl [I1 I2] [Z1 Z2]]. destruct (fill_rx_filled q m 16 Hl I1 Z1 ltac:(lia)) as (m' & E & [F1 F2 F3]).
  unfold rx_start, fill_rx. change RX_BUFFER_COUNT with 16%nat. rewrite E. exists 16, 0, (seqZ 0 16), [], [], [].
  assert (used_rep q m' 0 [] []) as Hu.
  { split; [|by intros i e Hi]. etrans; [|exact Z2]. apply load_same, (same_on_sub _ _ _ _ _ _ F3); unfold USED_IDX_OFF; lia. }
  split; cbn [rx_mem rx_q rx_at rx_dev dv_seen dv_owned dv_next rx_pending rx_received rx_delivered fmap list_fmap app in_hand].
  - destruct Hl as [L1 L2 L3 L4 L5]. split; [exact L1|exact L2|exact L3|exact L4|exact L5].
  - exact F1.
  - exact Hu.
  - exact F2.
  - by rewrite length_seqZ.
  - done.
  - done.
  - cbn [with_idx vq_last_used_idx]. by rewrite I2.
  - done.
  - by rewrite app_nil_r.
  - by apply Forall_nil.
  - done.
  - done.
  - done.
  - done.
Qed.

(** C5: Receiving is exact in every interleaving of [poll_rx] with a device that follows
    the specification, from [fill_rx] on a fresh queue of 16 to 256 entries (a power of two) whose rings and
    16 buffers are in distinct frames.  The frames
    handed to the callback are the frames the device published, in order and with their
    contents, but for those still in the ring or in the hand of the driver; when the loop
    finds the ring empty, all were handed on.  Each of the 16 buffers is in one place:
    posted, owned by the device, completed, or in the hand of the driver; and the device
    owns buffers with the descriptors [fill_rx] gave them. *)
Theorem rx_frames_exact q m s : rx_fresh q m -> rtc rx_step (rx_start q m) s ->
  (exists waiting, rx_received s = rx_delivered s ++ waiting) /\
  (rx_at s = RPop -> rx_at (poll_rx_step s) = RNotify -> rx_received s = rx_delivered s) /\
  (exists na posted completed, avail_rep (rx_q s) (rx_mem s) na posted /\
    posted ++ (dv_owned (rx_dev s)).*1 ++ completed ++ in_hand (rx_at s) ≡ₚ seqZ 0 16) /\
  Forall (fun o => 0 <= o.1 < 16 /\ o.2 = rx_desc (buf o.1)) (dv_owned (rx_dev s)).
Proof.
  intros Hf Hr. apply rx_start_ok in Hf as H0. destruct (rtc_invariant _ rx_ok _ _ H0 rx_step_ok Hr) as (na & nu & l & u & d & h & H). split_and!.
  - exists (h.*2 ++ u.*2). apply H.
  - intros Hp Hn. unfold poll_rx_step in Hn. rewrite Hp in Hn. cbn [rx_goto rx_at] in Hn.
    pose proof (inv_count _ _ _ _ _ _ _ H) as Hc. destruct H. rewrite Hp in ri_held0. cbn in ri_held0. subst h.
    assert (used_idx (rx_q s) (rx_mem s) = wrap16 nu) as Eu by (unfold used_idx; rewrite dm_add; apply ri_used0).
    rewrite Eu, ri_last0 in Hn. destruct (Z.eqb_spec (wrap16 nu) (wrap16 (nu - Z.of_nat (length u)))) as [E|]; [|done].
    symmetry in E. apply wrap16_inj in E; [|lia]. destruct u; [|cbn in E; lia]. by rewrite ri_log0, app_nil_r.
  - exists na, l, (d.*1 ++ u.*1 ++ h.*1). split; [apply H|]. rewrite <- (ri_perm _ _ _ _ _ _ _ H), <- !app_assoc. done.
  - apply Forall_forall. intros [i x] Ho. split; [|exact (proj1 (Forall_forall _ _) (ri_owned _ _ _ _ _ _ _ H) _ Ho)].
    apply (inv_id _ _ _ _ _ _ _ i H). apply (list_elem_of_fmap_2 fst) in Ho. cbn in Ho. set_solver.
Qed.

(** ** Running the system *)

Inductive rx_act := ADriver | ATake | AWrite (i : nat) (off : Z) (bs : list Z) | ADone (i : nat) (len : Z) | APublish.

Definition rx_exec (s : rx_state) (a : rx_act) : rx_state :=
  let q := rx_q s in let m := rx_mem s in let dv := rx_dev s in
  let mk m dv pending received := {| rx_mem := m; rx_q := q; rx_at := rx_at s; rx_dev := dv; rx_pending := pending; rx_received := received; rx_delivered := rx_delivered s |} in
  match a with
  | ADriver => poll_rx_step s
  | ATake =>
      if load 2 m (dm (vq_avail_va q) + AVAIL_IDX_OFF) =? dv_seen dv then s else
      let id := avail_entry q m (dv_seen dv) in
      mk m {| dv_seen := wrap16 (dv_seen dv + 1); dv_owned := dv_owned dv ++ [(id, desc_entry q m id)]; dv_next := dv_next dv |} (rx_pending s) (rx_received s)
  | AWrite i off bs =>
      match dv_owned dv !! i with
      | Some (id, d) =>
          if negb (Z.land (vd_flags d) VIRTQ_DESC_F_WRITE =? 0) && (0 <=? off) && (off + Z.of_nat (length bs) <=? vd_len d)
          then mk (copy_to m (vd_addr d + off) bs) dv (rx_pending s) (rx_received s) else s
      | None => s
      end
  | ADone i len =>
      match dv_owned dv !! i with
      | Some (id, d) =>
          if (NET_HDR_LEN <=? len) && (len <=? vd_len d) then
            let p := dm (vq_used_va q) + USED_RING_OFF + (dv_next dv mod vq_queue_size q) * 8 in
            mk (store 4 (store 4 m p id) (p + 4) len) {| dv_seen := dv_seen dv; dv_owned := take i (dv_owned dv) ++ drop (S i) (dv_owned dv); dv_next := wrap16 (dv_next dv + 1) |}
               (rx_pending s ++ [copy_from m (vd_addr d + NET_HDR_LEN) (Z.to_nat (len - NET_HDR_LEN))]) (rx_received s)
          else s
      | None => s
      end
  | APublish => mk (store 2 m (dm (vq_used_va q) + USED_IDX_OFF) (dv_next dv)) dv [] (rx_received s ++ rx_pending s)
  end.

Lemma rx_exec_steps s acts : rtc rx_step s (foldl rx_exec s acts).
Proof.
  induction acts as [|a acts IH] using rev_ind; [done|]. rewrite foldl_app. cbn [foldl]. etrans; [exact IH|]. generalize (foldl rx_exec s acts). clear. intros s.
  destruct a as [| |i off bs|i len|]; unfold rx_exec; cbv zeta.
  - apply rtc_once, rx_driver.
  - destruct (Z.eqb_spec (load 2 (rx_mem s) (dm (vq_avail_va (rx_q s)) + AVAIL_IDX_OFF)) (dv_seen (rx_dev s))); [done|]. apply rtc_once, rx_device_acts. by apply VTake.
  - destruct (dv_owned (rx_dev s) !! i) as [[id d]|] eqn:E; [|done]. destruct (_ && _) eqn:Eb; [|done]. rewrite !andb_true_iff, negb_true_iff, Z.eqb_neq, !Z.leb_le in Eb.
    destruct Eb as [[? ?] ?]. apply rtc_once, rx_device_acts. apply (VWrite s id d off bs); try done. by eapply list_elem_of_lookup_2.
  - destruct (dv_owned (rx_dev s) !! i) as [[id d]|] eqn:E; [|done]. destruct (_ && _) eqn:Eb; [|done]. rewrite !andb_true_iff, !Z.leb_le in Eb.
    apply rtc_once, rx_device_acts. apply (VDone s _ _ id d len); [|done]. by rewrite take_drop_middle.
  - apply rtc_once, rx_device_acts, VPublish.
Qed.
End Rx.

(** A queue of the given size in the three frames from 0x1000, buffers from 0x10000. *)
Definition demo_queue (size : Z) : Virtqueue :=
  {| vq_queue_size := size; vq_desc_phys := 0x1000; vq_avail_phys := 0x2000; vq_used_phys := 0x3000;
     vq_desc_va := VQ_DIRECT_MAP_BASE + 0x1000; vq_avail_va := VQ_DIRECT_MAP_BASE + 0x2000; vq_used_va := VQ_DIRECT_MAP_BASE + 0x3000;
     vq_avail_idx := 0; vq_last_used_idx := 0 |}.

Definition demo_bufs : list Z := (fun i => 0x10000 + i * 0x1000) <$> seqZ 0 16.

Lemma demo_fresh : rx_fresh demo_bufs (demo_queue 256) (fun _ => 0).
Proof.
  split; [split|done|done].
  - cbn. lia.
  - exists 256. reflexivity.
  - reflexivity.
  - refine (bool_decide_unpack _ _). vm_compute. exact I.
  - repeat (apply Forall_cons; split; [vm_compute; split; [reflexivity|split; reflexivity]|]). apply Forall_nil. exact I.
Qed.

(** Two buffers are taken and completed in the other order, in one publication. *)
Definition demo_acts : list rx_act :=
  [ATake; ATake; AWrite 1 12 [7; 8; 9]; ADone 1 15; AWrite 0 12 [1; 2]; ADone 0 14; APublish] ++ replicate 24 ADriver.

Lemma rx_frames_exact_witness : exists s, rtc (rx_step demo_bufs) (rx_start demo_bufs (demo_queue 256) (fun _ => 0)) s /\
  rx_delivered s = [[7; 8; 9]; [1; 2]] /\ exists waiting, rx_received s = rx_delivered s ++ waiting.
Proof.
  pose proof (rx_exec_steps demo_bufs (rx_start demo_bufs (demo_queue 256) (fun _ => 0)) demo_acts) as Hr.
  eexists. split; [exact Hr|]. split; [vm_compute; reflexivity|].
  destruct (rx_frames_exact demo_bufs _ _ _ demo_fresh Hr) as [H _]. exact H.
Defined.

(** A device whose queue is smaller than the number of buffers: [fill_rx] overwrites the
    first entries before the device runs, so that half of the buffers are never seen by
    it, and makes descriptors available that lie outside of its table. *)
Lemma fill_rx_small_queue : let '(q, m) := fill_rx demo_bufs (demo_queue 8) (fun _ => 0) in
  (avail_entry q m <$> seqZ 0 8) = seqZ 8 8 /\ load 2 m (dm (vq_avail_va q) + AVAIL_IDX_OFF) = 16.
Proof. vm_compute. split; reflexivity. Qed.
