(* ===== verification/VirtioTx.v ===== *)
(** * Transmitting frames (crates/virtio/src/net.rs)

    The transmit half of the network driver: one buffer, one descriptor, and a bounded
    wait for its completion.  The device takes the descriptor, sends what the buffer holds
    and publishes the completion, interleaved with the accesses of the driver. *)

From Stdlib Require Import ZArith Lia.
From stdpp Require Import prelude list relations.
From S2P Require Import Prelude Virtq VirtioRx.

Local Open Scope Z_scope.

Definition TX_POLLS : Z := 10000000.

(** Where [transmit] is: the stores to the buffer, to the descriptor and to the available
    ring, the notification, and the polls of the used ring that are left. *)
Inductive tx_pc :=
| TIdle
| THeader (frame : list Z)
| TCopy (frame : list Z)
| TDesc (len : Z) (k : nat)
| TRing
| TIdx
| TNotify
| TPoll (n : Z).

(** The frames of the calls so far, what they returned, and what the device sent. *)
Record tx_state := {
  tx_mem : pmem; tx_q : Virtqueue; tx_at : tx_pc; tx_dev : rx_device;
  tx_calls : list (list Z); tx_results : list bool; tx_sent : list (list Z)
}.

Section Tx.
Context (tx_buf : Z).

(** The descriptor of a packet of [len] bytes behind its header. *)
Definition tx_desc (len : Z) : VirtqDesc := {| vd_addr := tx_buf; vd_len := NET_HDR_LEN + len; vd_flags := 0; vd_next := 0 |}.

Definition buf_va : Z := wrap64 (VQ_DIRECT_MAP_BASE + tx_buf).

Definition tx_len (frame : list Z) : Z := Z.min (Z.of_nat (length frame)) ETH_FRAME_MAX.

Definition tx_goto (s : tx_state) (m : pmem) (q : Virtqueue) (pc : tx_pc) : tx_state :=
  {| tx_mem := m; tx_q := q; tx_at := pc; tx_dev := tx_dev s; tx_calls := tx_calls s; tx_results := tx_results s; tx_sent := tx_sent s |}.

Definition tx_return (s : tx_state) (q : Virtqueue) (r : bool) : tx_state :=
  {| tx_mem := tx_mem s; tx_q := q; tx_at := TIdle; tx_dev := tx_dev s; tx_calls := tx_calls s; tx_results := tx_results s ++ [r]; tx_sent := tx_sent s |}.

(** The next access of [transmit]; an idle driver is called with [frame]. *)
Definition transmit_step (frame : list Z) (s : tx_state) : tx_state :=
  let m := tx_mem s in
  let q := tx_q s in
  match tx_at s with
  | TIdle =>
      {| tx_mem := m; tx_q := q; tx_at := THeader frame; tx_dev := tx_dev s;
         tx_calls := tx_calls s ++ [frame]; tx_results := tx_results s; tx_sent := tx_sent s |}
  | THeader f => tx_goto s (copy_to m (dm buf_va) (replicate (Z.to_nat NET_HDR_LEN) 0)) q (TCopy f)
  | TCopy f => tx_goto s (copy_to m (dm (buf_va + NET_HDR_LEN)) (take (Z.to_nat (tx_len f)) f)) q (TDesc (tx_len f) 0)
  | TDesc len k => tx_goto s (write_desc_field q m 0 (tx_desc len) k) q (if (k <? 3)%nat then TDesc len (S k) else TRing)
  | TRing => let '(q', m') := push_avail_ring q m 0 in tx_goto s m' q' TIdx
  | TIdx => tx_goto s (push_avail_idx q m) q TNotify
  | TNotify => tx_goto s m q (TPoll TX_POLLS)
  | TPoll n =>
      if 0 <? n then
        match pop_used q m with
        | (q', Some _) => tx_return s q' true
        | (_, None) => tx_goto s m q (TPoll (n - 1))
        end
      else tx_return s q false
  end.

(** The device takes the next available descriptor, sends what one it owns covers and
    completes it, publishes its completions. *)
Inductive tx_dev_step : tx_state -> tx_state -> Prop :=
| XTake s :
    let q := tx_q s in let m := tx_mem s in let dv := tx_dev s in
    load 2 m (dm (vq_avail_va q) + AVAIL_IDX_OFF) <> dv_seen dv ->
    let id := avail_entry q m (dv_seen dv) in
    tx_dev_step s {| tx_mem := m; tx_q := q; tx_at := tx_at s;
      tx_dev := {| dv_seen := wrap16 (dv_seen dv + 1); dv_owned := dv_owned dv ++ [(id, desc_entry q m id)]; dv_next := dv_next dv |};
      tx_calls := tx_calls s; tx_results := tx_results s; tx_sent := tx_sent s |}
| XSend s o1 o2 id d :
    let q := tx_q s in let m := tx_mem s in let dv := tx_dev s in
    dv_owned dv = o1 ++ (id, d) :: o2 ->
    let p := dm (vq_used_va q) + USED_RING_OFF + (dv_next dv mod vq_queue_size q) * 8 in
    tx_dev_step s {| tx_mem := store 4 (store 4 m p id) (p + 4) 0; tx_q := q; tx_at := tx_at s;
      tx_dev := {| dv_seen := dv_seen dv; dv_owned := o1 ++ o2; dv_next := wrap16 (dv_next dv + 1) |};
      tx_calls := tx_calls s; tx_results := tx_results s; tx_sent := tx_sent s ++ [copy_from m (vd_addr d) (Z.to_nat (vd_len d))] |}
| XPublish s :
    tx_dev_step s {| tx_mem := store 2 (tx_mem s) (dm (vq_used_va (tx_q s)) + USED_IDX_OFF) (dv_next (tx_dev s));
      tx_q := tx_q s; tx_at := tx_at s; tx_dev := tx_dev s; tx_calls := tx_calls s; tx_results := tx_results s; tx_sent := tx_sent s |}.

Inductive tx_step : tx_state -> tx_state -> Prop :=
| tx_driver frame s : tx_step s (transmit_step frame s)
| tx_device_acts s s' : tx_dev_step s s' -> tx_step s s'.

(** ** The invariant *)

Record tx_layout (q : Virtqueue) : Prop := {
  tl_size : 0 < vq_queue_size q <= 256;
  tl_pow : (vq_queue_size q | 2 ^ 16);
  tl_desc : dm (vq_desc_va q) mod 4096 = 0;
  tl_avail : dm (vq_avail_va q) mod 4096 = 0;
  tl_used : dm (vq_used_va q) mod 4096 = 0;
  tl_buf : tx_buf mod 4096 = 0 /\ 0 < tx_buf < 2 ^ 44;
  tl_ne : NoDup [dm (vq_desc_va q); dm (vq_avail_va q); dm (vq_used_va q); tx_buf]
}.

(** What goes on the wire for a frame. *)
Definition packet (frame : list Z) : list Z := replicate (Z.to_nat NET_HDR_LEN) 0 ++ take (Z.to_nat ETH_FRAME_MAX) frame.

Definition tx_elem : VirtqUsedElem := {| ue_id := 0; ue_len := 0 |}.

(** Where the descriptor of the call is. *)
Inductive tx_phase := Mine | Posted | Owned | Sent | Completed.

Definition posted_of (ph : tx_phase) : list Z := match ph with Posted => [0] | _ => [] end.
Definition sent_of (ph : tx_phase) : list VirtqUsedElem := match ph with Sent => [tx_elem] | _ => [] end.
Definition completed_of (ph : tx_phase) : list VirtqUsedElem := match ph with Completed => [tx_elem] | _ => [] end.
Definition owned_of (ph : tx_phase) (len : Z) : list (Z * VirtqDesc) := match ph with Owned => [(0, tx_desc len)] | _ => [] end.

(** How far the call with frame [f] came. *)
Definition prepared (s : tx_state) (na : Z) (f : list Z) : Prop :=
  let m := tx_mem s in
  let body := copy_from m tx_buf (length (packet f)) = packet f in
  let d := desc_entry (tx_q s) m 0 in
  match tx_at s with
  | TIdle => True
  | THeader g => g = f
  | TCopy g => g = f /\ copy_from m tx_buf 12 = replicate 12 0
  | TDesc len k => body /\ len = tx_len f /\ (k < 4)%nat /\ ((0 < k)%nat -> vd_addr d = tx_buf) /\ ((1 < k)%nat -> vd_len d = NET_HDR_LEN + len) /\ ((2 < k)%nat -> vd_flags d = 0)
  | TRing => body /\ d = tx_desc (tx_len f)
  | TIdx => body /\ d = tx_desc (tx_len f) /\ avail_entry (tx_q s) m na = 0
  | TNotify | TPoll _ => body /\ d = tx_desc (tx_len f)
  end.

Definition polling (pc : tx_pc) : bool := match pc with TNotify | TPoll _ => true | _ => false end.

(** The calls are [past] and, unless the driver is idle, [f]. *)
Record tx_inv (s : tx_state) (na nu : Z) (ph : tx_phase) (past : list (list Z)) (f : list Z) : Prop := {
  ti_layout : tx_layout (tx_q s);
  ti_avail : avail_rep (tx_q s) (tx_mem s) na (posted_of ph);
  ti_used : used_rep (tx_q s) (tx_mem s) nu (completed_of ph) (sent_of ph);
  ti_seen : dv_seen (tx_dev s) = wrap16 (na - Z.of_nat (length (posted_of ph)));
  ti_next : dv_next (tx_dev s) = wrap16 (nu + Z.of_nat (length (sent_of ph)));
  ti_aidx : vq_avail_idx (tx_q s) = wrap16 (na + match tx_at s with TIdx => 1 | _ => 0 end);
  ti_last : vq_last_used_idx (tx_q s) = wrap16 (nu - Z.of_nat (length (completed_of ph)));
  ti_owned : dv_owned (tx_dev s) = owned_of ph (tx_len f);
  ti_phase : ph = Mine <-> polling (tx_at s) = false;
  ti_prepared : prepared s na f;
  ti_calls : tx_calls s = past ++ match tx_at s with TIdle => [] | _ => [f] end;
  ti_sent : tx_sent s = (packet <$> past) ++ match ph with Sent | Completed => [packet f] | _ => [] end;
  ti_results : tx_results s = replicate (length past) true
}.

(** Exact as long as no call ran out of polls. *)
Definition tx_ok (s : tx_state) : Prop := Forall (eq true) (tx_results s) -> exists na nu ph past f, tx_inv s na nu ph past f.

Lemma tl_apart q : tx_layout q ->
  (dm (vq_desc_va q) <> dm (vq_avail_va q) /\ dm (vq_desc_va q) <> dm (vq_used_va q) /\ dm (vq_desc_va q) <> tx_buf) /\
  (dm (vq_avail_va q) <> dm (vq_used_va q) /\ dm (vq_avail_va q) <> tx_buf) /\ dm (vq_used_va q) <> tx_buf.
Proof. intros H. pose proof (tl_ne _ H) as Hn. rewrite !NoDup_cons, !not_elem_of_cons in Hn. tauto. Qed.

Lemma dm_buf q : tx_layout q -> dm buf_va = tx_buf.
Proof. intros H. destruct (tl_buf _ H) as [_ Hb]. unfold dm, buf_va. rewrite wrap64_small by (unfold is_u64, VQ_DIRECT_MAP_BASE; lia). lia. Qed.

Lemma copy_from_app m a n k : copy_from m a (n + k) = copy_from m a n ++ copy_from m (a + Z.of_nat n) k.
Proof.
  unfold copy_from. rewrite seq_app, fmap_app. f_equal. apply list_eq. intros i. rewrite !list_lookup_fmap.
  destruct (decide (i < k)%nat); [rewrite !lookup_seq_lt by lia; cbn; do 2 f_equal; lia|rewrite !lookup_seq_ge by lia; done].
Qed.

Lemma take_tx_len (f : list Z) : take (Z.to_nat (tx_len f)) f = take (Z.to_nat ETH_FRAME_MAX) f.
Proof.
  unfold tx_len. destruct (Z.le_gt_cases (Z.of_nat (length f)) ETH_FRAME_MAX).
  - rewrite !take_ge; [done|lia|lia].
  - by replace (Z.min _ _) with ETH_FRAME_MAX by lia.
Qed.

Lemma packet_length f : Z.of_nat (length (packet f)) = NET_HDR_LEN + tx_len f.
Proof. unfold packet. rewrite length_app, length_replicate, length_take. unfold tx_len, NET_HDR_LEN, ETH_FRAME_MAX. lia. Qed.

Lemma tx_len_range f : 0 <= tx_len f <= ETH_FRAME_MAX.
Proof. unfold tx_len, ETH_FRAME_MAX. lia. Qed.

(** The memory of a call outside of the rings. *)
Lemma prepared_same s m' na f : tx_layout (tx_q s) -> same_on (tx_mem s) m' (dm (vq_desc_va (tx_q s))) 4096 -> same_on (tx_mem s) m' (dm (vq_avail_va (tx_q s))) 4096 ->
  same_on (tx_mem s) m' tx_buf 4096 -> prepared s na f ->
  prepared {| tx_mem := m'; tx_q := tx_q s; tx_at := tx_at s; tx_dev := tx_dev s; tx_calls := tx_calls s; tx_results := tx_results s; tx_sent := tx_sent s |} na f.
Proof.
  intros Hl Hd Ha Hb H. unfold prepared in *. cbn [tx_mem tx_q tx_at].
  assert (desc_entry (tx_q s) m' 0 = desc_entry (tx_q s) (tx_mem s) 0) as Ed by (unfold desc_entry; f_equal; apply load_same, (same_on_sub _ _ _ _ _ _ Hd); lia).
  pose proof (packet_length f) as Ep. pose proof (tx_len_range f) as Er. unfold NET_HDR_LEN, ETH_FRAME_MAX in *.
  assert (copy_from m' tx_buf (length (packet f)) = copy_from (tx_mem s) tx_buf (length (packet f))) as Eb by (apply copy_from_same, (same_on_sub _ _ _ _ _ _ Hb); lia).
  assert (copy_from m' tx_buf 12 = copy_from (tx_mem s) tx_buf 12) as Eh by (apply copy_from_same, (same_on_sub _ _ _ _ _ _ Hb); lia).
  rewrite Ed, Eb, Eh, (avail_entry_same (tx_q s) (tl_size _ Hl) (tx_mem s) m' na Ha). exact H.
Qed.

(** ** Steps of the driver *)

(** A step that changes the memory of the call only. *)
Lemma local_ok s na nu past f m' pc : tx_inv s na nu Mine past f ->
  same_on (tx_mem s) m' (dm (vq_avail_va (tx_q s))) 4096 -> same_on (tx_mem s) m' (dm (vq_used_va (tx_q s))) 4096 ->
  tx_at s <> TIdle -> tx_at s <> TIdx -> pc <> TIdle -> pc <> TIdx -> polling pc = false ->
  prepared (tx_goto s m' (tx_q s) pc) na f -> tx_inv (tx_goto s m' (tx_q s) pc) na nu Mine past f.
Proof.
  intros H Ha Hu H1 H2 H3 H4 H5 Hp. pose proof (tl_size _ (ti_layout _ _ _ _ _ _ H)) as Hs. destruct H. constructor; try done; cbn [tx_goto tx_mem tx_q tx_at tx_dev tx_calls tx_results tx_sent].
  - by apply avail_rep_same with (tx_mem s).
  - by apply used_rep_same with (tx_mem s).
  - rewrite ti_aidx0. by destruct (tx_at s), pc.
  - rewrite ti_calls0. by destruct (tx_at s), pc.
Qed.

Lemma call_ok s na nu ph past f frame : tx_inv s na nu ph past f -> tx_at s = TIdle -> tx_inv (transmit_step frame s) na nu Mine past frame.
Proof.
  intros H Hp. unfold transmit_step. rewrite Hp. assert (ph = Mine) as -> by (apply (ti_phase _ _ _ _ _ _ H); by rewrite Hp).
  destruct H. rewrite Hp in *. constructor; try done; cbn [tx_mem tx_q tx_at tx_dev tx_calls tx_results tx_sent]. by rewrite ti_calls0, app_nil_r.
Qed.

Lemma header_ok s na nu past f g : tx_inv s na nu Mine past f -> tx_at s = THeader g -> tx_inv (transmit_step [] s) na nu Mine past f.
Proof.
  intros H Hp. unfold transmit_step. rewrite Hp. pose proof (ti_layout _ _ _ _ _ _ H) as Hl. rewrite (dm_buf _ Hl). pose proof (ti_prepared _ _ _ _ _ _ H) as Hg. unfold prepared in Hg. rewrite Hp in Hg. subst g.
  destruct (tl_apart _ Hl) as ((A1 & A2 & A3) & (A4 & A5) & A6). destruct (tl_buf _ Hl) as [B0 _].
  assert (forall a, a mod 4096 = 0 -> tx_buf <> a -> same_on (tx_mem s) (copy_to (tx_mem s) tx_buf (replicate (Z.to_nat NET_HDR_LEN) 0)) a 4096) as Hm.
  { intros a Ha Hne. apply copy_same. rewrite length_replicate. pose proof (frames_apart tx_buf a 12 0 4096 B0 Ha Hne). unfold NET_HDR_LEN. lia. }
  apply local_ok; try done; try (by rewrite Hp).
  - apply Hm; [apply Hl|done].
  - apply Hm; [apply Hl|done].
  - split; [done|]. exact (copy_from_to (tx_mem s) tx_buf (replicate 12 0)).
Qed.

Lemma copy_ok s na nu past f g : tx_inv s na nu Mine past f -> tx_at s = TCopy g -> tx_inv (transmit_step [] s) na nu Mine past f.
Proof.
  intros H Hp. unfold transmit_step. rewrite Hp. pose proof (ti_layout _ _ _ _ _ _ H) as Hl. rewrite dm_add, (dm_buf _ Hl). pose proof (ti_prepared _ _ _ _ _ _ H) as Hg. unfold prepared in Hg. rewrite Hp in Hg. destruct Hg as [-> Hh].
  destruct (tl_apart _ Hl) as ((A1 & A2 & A3) & (A4 & A5) & A6). destruct (tl_buf _ Hl) as [B0 _]. rewrite take_tx_len. set (bs := take _ f). pose proof (tx_len_range f) as Er.
  assert (Z.of_nat (length bs) = tx_len f) as Eb by (unfold bs; rewrite length_take; unfold tx_len, ETH_FRAME_MAX; lia).
  set (m' := copy_to _ _ _). unfold NET_HDR_LEN, ETH_FRAME_MAX in *.
  assert (forall a, a mod 4096 = 0 -> tx_buf <> a -> same_on (tx_mem s) m' a 4096) as Hm by (intros a Ha Hne; apply copy_same, frames_apart; try done; lia).
  apply local_ok; try done; try (by rewrite Hp).
  - apply Hm; [apply Hl|done].
  - apply Hm; [apply Hl|done].
  - unfold prepared. cbn [tx_goto tx_at tx_mem tx_q]. split_and!; try done; try lia. unfold packet. fold bs. rewrite length_app, length_replicate, copy_from_app. f_equal.
    + etrans; [|exact Hh]. apply copy_from_same, copy_same. lia.
    + exact (copy_from_to (tx_mem s) (tx_buf + 12) bs).
Qed.

Lemma tx_field_same q m d k f : tx_layout q -> f mod 4096 = 0 -> dm (vq_desc_va q) <> f -> same_on m (write_desc_field q m 0 d k) f 4096.
Proof.
  intros Hl Hf Hne. pose proof (tl_desc _ Hl) as Ha.
  destruct k as [|[|[|k]]]; cbn [write_desc_field]; rewrite !dm_add, <- ?Z.add_assoc; apply same_frame; try done; lia.
Qed.

Lemma tx_desc_ok s na nu past f len k : tx_inv s na nu Mine past f -> tx_at s = TDesc len k -> tx_inv (transmit_step [] s) na nu Mine past f.
Proof.
  intros H Hp. unfold transmit_step. rewrite Hp. pose proof (ti_layout _ _ _ _ _ _ H) as Hl. pose proof (ti_prepared _ _ _ _ _ _ H) as Hg. unfold prepared in Hg. rewrite Hp in Hg.
  destruct Hg as (Hb & -> & Hk & G1 & G2 & G3). destruct (tl_apart _ Hl) as ((A1 & A2 & A3) & (A4 & A5) & A6). destruct (tl_buf _ Hl) as [B0 B1]. pose proof (tx_len_range f) as Er. pose proof (packet_length f) as Ep.
  set (m' := write_desc_field _ _ _ _ _). assert (forall a, a mod 4096 = 0 -> dm (vq_desc_va (tx_q s)) <> a -> same_on (tx_mem s) m' a 4096) as Hm by (intros; by apply tx_field_same).
  assert (copy_from m' tx_buf (length (packet f)) = packet f) as Hb'
    by (rewrite <- Hb at 2; apply copy_from_same, (same_on_sub _ _ _ _ _ _ (Hm _ B0 A3)); unfold NET_HDR_LEN, ETH_FRAME_MAX in *; lia).
  apply local_ok; try done; try (by rewrite Hp); try (by destruct (k <? 3)%nat); try (apply Hm; [apply Hl|done]).
  assert (0 <= tx_buf < 256 ^ Z.of_nat 8 /\ 0 <= NET_HDR_LEN + tx_len f < 256 ^ Z.of_nat 4) as [R1 R2].
  { change (256 ^ Z.of_nat 8) with (2 ^ 64). change (256 ^ Z.of_nat 4) with (2 ^ 32). unfold NET_HDR_LEN, ETH_FRAME_MAX in *. lia. }
  unfold prepared. cbn [tx_goto tx_at tx_mem tx_q]. unfold desc_entry in *. cbn [vd_addr vd_len vd_flags vd_next] in *.
  destruct k as [|[|[|[|k]]]]; [..|lia]; cbn [Nat.ltb Nat.leb] in *; unfold m' in *; cbn [write_desc_field tx_desc vd_addr vd_len vd_flags vd_next] in *; rewrite ?dm_add in *;
    (split; [exact Hb'|]).
  1-3: split_and!; try done; try lia; intros _; first [rewrite load_store_ne by lia; auto with lia | apply load_store; done].
  unfold tx_desc. f_equal; first [apply load_store; done | rewrite load_store_ne by lia; auto with lia].
Qed.

Lemma tx_ring_ok s na nu past f : tx_inv s na nu Mine past f -> tx_at s = TRing -> tx_inv (transmit_step [] s) na nu Mine past f.
Proof.
  intros H Hp. pose proof (ti_layout _ _ _ _ _ _ H) as Hl. pose proof (tl_size _ Hl) as Hs. destruct (tl_apart _ Hl) as ((A1 & A2 & A3) & (A4 & A5) & A6). destruct (tl_buf _ Hl) as [B0 B1].
  pose proof (ti_prepared _ _ _ _ _ _ H) as Hg. unfold prepared in Hg. rewrite Hp in Hg. destruct Hg as [Hb Hd].
  unfold transmit_step. rewrite Hp. unfold push_avail_ring. rewrite (ti_aidx _ _ _ _ _ _ H), Hp, Z.add_0_r, ring_slot_wrap, !dm_add by (lia || apply Hl).
  pose proof (slot_range (tx_q s) Hs na) as Hr. pose proof (avail_push_slot (tx_q s) Hs (tx_mem s) na [] 0 (ti_avail _ _ _ _ _ _ H) ltac:(cbn; lia) ltac:(lia)) as [Ha He].
  set (m' := store _ _ _ _) in *. pose proof (tl_avail _ Hl) as T1.
  assert (forall a, a mod 4096 = 0 -> dm (vq_avail_va (tx_q s)) <> a -> same_on (tx_mem s) m' a 4096) as Hm
    by (intros; unfold m'; rewrite <- Z.add_assoc; apply same_frame; unfold AVAIL_RING_OFF; try done; lia).
  pose proof (packet_length f) as Ep. pose proof (tx_len_range f) as Er. unfold NET_HDR_LEN, ETH_FRAME_MAX in Ep, Er.
  destruct H. rewrite Hp in *. constructor; try done; cbn [tx_goto tx_mem tx_q tx_at tx_dev tx_calls tx_results tx_sent].
  - by destruct Hl.
  - apply (used_rep_same (tx_q s) Hs (tx_mem s)); [apply Hm; [apply Hl|done]|done].
  - cbn [vq_avail_idx]. by rewrite wrap16_add.
  - split_and!; [|rewrite <- Hd|exact He].
    + rewrite <- Hb at 2. apply copy_from_same, (same_on_sub _ _ _ _ _ _ (Hm _ B0 A5)); lia.
    + pose proof (Hm _ (tl_desc _ Hl) (not_eq_sym A1)) as Hs'. unfold desc_entry. f_equal; apply load_same, (same_on_sub _ _ _ _ _ _ Hs'); cbn; lia.
Qed.

Lemma tx_idx_ok s na nu past f : tx_inv s na nu Mine past f -> tx_at s = TIdx -> tx_inv (transmit_step [] s) (na + 1) nu Posted past f.
Proof.
  intros H Hp. pose proof (ti_layout _ _ _ _ _ _ H) as Hl. pose proof (tl_size _ Hl) as Hs. destruct (tl_apart _ Hl) as ((A1 & A2 & A3) & (A4 & A5) & A6). destruct (tl_buf _ Hl) as [B0 B1].
  pose proof (ti_prepared _ _ _ _ _ _ H) as Hg. unfold prepared in Hg. rewrite Hp in Hg. destruct Hg as (Hb & Hd & He).
  unfold transmit_step. rewrite Hp. unfold push_avail_idx. rewrite (ti_aidx _ _ _ _ _ _ H), Hp, !dm_add.
  pose proof (avail_push_idx (tx_q s) Hs (tx_mem s) na [] 0 (ti_avail _ _ _ _ _ _ H) He) as Ha. set (m' := store _ _ _ _) in *. pose proof (tl_avail _ Hl) as T1.
  assert (forall a, a mod 4096 = 0 -> dm (vq_avail_va (tx_q s)) <> a -> same_on (tx_mem s) m' a 4096) as Hm
    by (intros; unfold m'; apply same_frame; unfold AVAIL_IDX_OFF; try done; lia).
  pose proof (packet_length f) as Ep. pose proof (tx_len_range f) as Er. unfold NET_HDR_LEN, ETH_FRAME_MAX in Ep, Er.
  destruct H. rewrite Hp in *. constructor; try done; cbn [tx_goto tx_mem tx_q tx_at tx_dev tx_calls tx_results tx_sent].
  - apply used_rep_same with (tx_mem s); [done|apply Hm; [apply Hl|done]|done].
  - rewrite ti_seen0. f_equal. cbn. lia.
  - by rewrite Z.add_0_r.
  - split.
    + rewrite <- Hb at 2. apply copy_from_same, (same_on_sub _ _ _ _ _ _ (Hm _ B0 A5)); lia.
    + rewrite <- Hd. pose proof (Hm _ (tl_desc _ Hl) (not_eq_sym A1)) as Hs'. unfold desc_entry. f_equal; apply load_same, (same_on_sub _ _ _ _ _ _ Hs'); cbn; lia.
Qed.

Lemma notify_ok s na nu ph past f : tx_inv s na nu ph past f -> tx_at s = TNotify -> tx_inv (transmit_step [] s) na nu ph past f.
Proof.
  intros H Hp. unfold transmit_step. rewrite Hp. destruct H. unfold prepared in *. rewrite Hp in *. constructor; done.
Qed.

Lemma poll_ok s na nu ph past f n : tx_inv s na nu ph past f -> tx_at s = TPoll n -> 0 < n -> exists ph' past', tx_inv (transmit_step [] s) na nu ph' past' f.
Proof.
  intros H Hp Hn. pose proof (tl_size _ (ti_layout _ _ _ _ _ _ H)) as Hs. unfold transmit_step. rewrite Hp, (proj2 (Z.ltb_lt _ _)) by done. unfold pop_used.
  assert (used_idx (tx_q s) (tx_mem s) = wrap16 nu) as Eu by (unfold used_idx; rewrite dm_add; apply H). rewrite Eu, (ti_last _ _ _ _ _ _ H).
  assert (ph = Completed \/ completed_of ph = []) as [->|Ec] by (destruct ph; auto).
  - assert (wrap16 nu <> wrap16 (nu - Z.of_nat (length (completed_of Completed)))) as Hne by (intros E; symmetry in E; apply wrap16_inj in E; cbn in *; lia).
    rewrite (proj2 (Z.eqb_neq _ _)) by done. exists Mine, (past ++ [f]). destruct H. unfold prepared in *. rewrite Hp in *.
    constructor; try done; cbn [tx_return tx_mem tx_q tx_at tx_dev tx_calls tx_results tx_sent].
    + by destruct ti_layout0.
    + change (used_rep (tx_q s) (tx_mem s) nu [] []). by apply used_take in ti_used0 as [? _].
    + cbn [pop_advance vq_last_used_idx]. rewrite ti_last0, wrap16_add. f_equal. cbn. lia.
    + by rewrite app_nil_r.
    + by rewrite ti_sent0, app_nil_r, fmap_app.
    + by rewrite ti_results0, length_app, replicate_add.
  - exists ph, past. rewrite Ec. cbn [length Z.of_nat]. rewrite Z.sub_0_r, Z.eqb_refl.
    destruct H. unfold prepared in *. rewrite Hp in *. constructor; done.
Qed.

(** ** Steps of the device *)

Lemma busy_prepared s na nu ph past f : tx_inv s na nu ph past f -> ph <> Mine ->
  copy_from (tx_mem s) tx_buf (length (packet f)) = packet f /\ desc_entry (tx_q s) (tx_mem s) 0 = tx_desc (tx_len f) /\ tx_at s <> TIdx /\ tx_at s <> TIdle.
Proof.
  intros H Hne. pose proof (ti_phase _ _ _ _ _ _ H) as Hp. pose proof (ti_prepared _ _ _ _ _ _ H) as Hg. unfold prepared in Hg.
  destruct (tx_at s); cbn [polling] in Hp; try (exfalso; tauto); by destruct Hg.
Qed.

Lemma xtake_ok s na nu ph past f : tx_inv s na nu ph past f -> load 2 (tx_mem s) (dm (vq_avail_va (tx_q s)) + AVAIL_IDX_OFF) <> dv_seen (tx_dev s) ->
  let id := avail_entry (tx_q s) (tx_mem s) (dv_seen (tx_dev s)) in
  tx_inv {| tx_mem := tx_mem s; tx_q := tx_q s; tx_at := tx_at s;
    tx_dev := {| dv_seen := wrap16 (dv_seen (tx_dev s) + 1); dv_owned := dv_owned (tx_dev s) ++ [(id, desc_entry (tx_q s) (tx_mem s) id)]; dv_next := dv_next (tx_dev s) |};
    tx_calls := tx_calls s; tx_results := tx_results s; tx_sent := tx_sent s |} na nu Owned past f.
Proof.
  intros H Hne id. pose proof (ti_layout _ _ _ _ _ _ H) as Hl. rewrite (proj1 (ti_avail _ _ _ _ _ _ H)), (ti_seen _ _ _ _ _ _ H) in Hne.
  assert (ph = Posted) as -> by (destruct ph; try done; cbn in Hne; rewrite Z.sub_0_r in Hne; done).
  destruct (busy_prepared _ _ _ _ _ _ H) as (Hb & Hd & Hi & Hj); [done|].
  assert (id = 0) as Eid.
  { unfold id. destruct (avail_take _ _ _ _ _ (ti_avail _ _ _ _ _ _ H)) as [_ E]. etrans; [|exact E]. rewrite (ti_seen _ _ _ _ _ _ H). unfold avail_entry.
    by rewrite (ring_slot_wrap _ _ (proj1 (tl_size _ Hl)) (tl_pow _ Hl) : _ mod _ = _). }
  rewrite Eid, Hd. destruct H. constructor; try done; cbn [tx_mem tx_q tx_at tx_dev dv_seen dv_owned dv_next tx_calls tx_results tx_sent].
  - by apply avail_take in ti_avail0 as [? _].
  - rewrite ti_seen0, wrap16_add. f_equal. cbn. lia.
  - by rewrite ti_owned0.
  - split; [done|]. intros E. apply ti_phase0 in E. done.
Qed.

Lemma xsend_ok s na nu ph past f o1 o2 id d : tx_inv s na nu ph past f -> dv_owned (tx_dev s) = o1 ++ (id, d) :: o2 ->
  let p := dm (vq_used_va (tx_q s)) + USED_RING_OFF + (dv_next (tx_dev s) mod vq_queue_size (tx_q s)) * 8 in
  tx_inv {| tx_mem := store 4 (store 4 (tx_mem s) p id) (p + 4) 0; tx_q := tx_q s; tx_at := tx_at s;
    tx_dev := {| dv_seen := dv_seen (tx_dev s); dv_owned := o1 ++ o2; dv_next := wrap16 (dv_next (tx_dev s) + 1) |};
    tx_calls := tx_calls s; tx_results := tx_results s; tx_sent := tx_sent s ++ [copy_from (tx_mem s) (vd_addr d) (Z.to_nat (vd_len d))] |} na nu Sent past f.
Proof.
  intros H Ho p. pose proof (ti_layout _ _ _ _ _ _ H) as Hl. pose proof (tl_size _ Hl) as Hs. rewrite (ti_owned _ _ _ _ _ _ H) in Ho.
  assert (ph = Owned) as -> by (destruct ph; try (symmetry in Ho; apply app_nil in Ho as [_ ?]); done).
  destruct o1 as [|x o1]; [|injection Ho as _ Ho; symmetry in Ho; by apply app_nil in Ho as [_ ?]]. injection Ho as <- <- <-.
  destruct (busy_prepared _ _ _ _ _ _ H) as (Hb & Hd & Hi & Hj); [done|]. destruct (tl_apart _ Hl) as ((A1 & A2 & A3) & (A4 & A5) & A6). destruct (tl_buf _ Hl) as [B0 B1].
  pose proof (packet_length f) as Ep. cbn [tx_desc vd_addr vd_len]. replace (Z.to_nat (NET_HDR_LEN + tx_len f)) with (length (packet f)) by lia. rewrite Hb.
  assert (dv_next (tx_dev s) mod vq_queue_size (tx_q s) = (nu + 0) mod vq_queue_size (tx_q s)) as En by (rewrite (ti_next _ _ _ _ _ _ H); apply ring_slot_wrap; [lia|apply Hl]).
  pose proof (slot_range (tx_q s) Hs (nu + 0)) as Hr.
  pose proof (used_write (tx_q s) Hs (tx_mem s) nu [] [] tx_elem (ti_used _ _ _ _ _ _ H)) as Hu. cbn [length Z.of_nat app tx_elem ue_id ue_len] in Hu. specialize (Hu ltac:(lia) ltac:(lia) ltac:(lia)). cbv zeta in Hu.
  change (nu + Z.of_nat 0) with (nu + 0) in Hu. rewrite <- En in Hu, Hr. fold p in Hu. set (m' := store 4 _ (p + 4) 0) in *.
  assert (forall a, a mod 4096 = 0 -> dm (vq_used_va (tx_q s)) <> a -> same_on (tx_mem s) m' a 4096) as Hm.
  { intros a Ha Hne. pose proof (tl_used _ Hl). unfold m', p. apply same_on_trans with (store 4 (tx_mem s) p 0); unfold p, USED_RING_OFF; rewrite <- !Z.add_assoc; apply same_frame; try done; lia. }
  pose proof (prepared_same s m' na f Hl (Hm _ (tl_desc _ Hl) (not_eq_sym A2)) (Hm _ (tl_avail _ Hl) (not_eq_sym A4)) (Hm _ B0 A6) (ti_prepared _ _ _ _ _ _ H)) as Hp.
  destruct H. constructor; try done; cbn [tx_mem tx_q tx_at tx_dev dv_seen dv_owned dv_next tx_calls tx_results tx_sent].
  - apply avail_rep_same with (tx_mem s); [done|apply Hm; [apply Hl|done]|done].
  - rewrite ti_next0, wrap16_add. f_equal. cbn. lia.
  - split; [done|]. intros E. apply ti_phase0 in E. done.
  - rewrite ti_sent0. by rewrite app_nil_r.
Qed.

Lemma xpublish_ok s na nu ph past f : tx_inv s na nu ph past f -> exists nu' ph',
  tx_inv {| tx_mem := store 2 (tx_mem s) (dm (vq_used_va (tx_q s)) + USED_IDX_OFF) (dv_next (tx_dev s)); tx_q := tx_q s; tx_at := tx_at s; tx_dev := tx_dev s;
    tx_calls := tx_calls s; tx_results := tx_results s; tx_sent := tx_sent s |} na nu' ph' past f.
Proof.
  intros H. pose proof (ti_layout _ _ _ _ _ _ H) as Hl. pose proof (tl_size _ Hl) as Hs. destruct (tl_apart _ Hl) as ((A1 & A2 & A3) & (A4 & A5) & A6). destruct (tl_buf _ Hl) as [B0 B1].
  exists (nu + Z.of_nat (length (sent_of ph))), (match ph with Sent => Completed | _ => ph end). pose proof (used_publish (tx_q s) Hs (tx_mem s) nu _ _ (ti_used _ _ _ _ _ _ H)) as Hu.
  rewrite (ti_next _ _ _ _ _ _ H). set (m' := store 2 _ _ _) in *. pose proof (tl_used _ Hl) as T1.
  assert (forall a, a mod 4096 = 0 -> dm (vq_used_va (tx_q s)) <> a -> same_on (tx_mem s) m' a 4096) as Hm
    by (intros; unfold m'; apply same_frame; unfold USED_IDX_OFF; try done; lia).
  pose proof (prepared_same s m' na f Hl (Hm _ (tl_desc _ Hl) (not_eq_sym A2)) (Hm _ (tl_avail _ Hl) (not_eq_sym A4)) (Hm _ B0 A6) (ti_prepared _ _ _ _ _ _ H)) as Hp.
  assert (avail_rep (tx_q s) m' na (posted_of ph)) as Ha by (apply avail_rep_same with (tx_mem s); [done|apply Hm; [apply Hl|done]|apply H]).
  destruct H. destruct ph; constructor; try done; cbn [tx_mem tx_q tx_at tx_dev sent_of completed_of length Z.of_nat] in *;
    rewrite ?Z.add_0_r, ?Z.sub_0_r in *; try done; try (rewrite ti_next0; done); try (rewrite ti_last0; f_equal; lia).
  split; [done|]. intros E. by apply ti_phase0 in E.
Qed.

Lemma tx_step_ok s s' : tx_ok s -> tx_step s s' -> tx_ok s'.
Proof.
  intros H Hs Hr. destruct Hs as [frame s|s s' Hd].
  - assert (Forall (eq true) (tx_results s)) as Hr0.
    { revert Hr. unfold transmit_step. destruct (tx_at s); try done. case_match; [|cbn; by rewrite Forall_app; intros []]. destruct (pop_used _ _) as [? [|]]; [|done]. cbn. by rewrite Forall_app; intros []. }
    destruct (H Hr0) as (na & nu & ph & past & f & Hi). destruct (tx_at s) eqn:Hp.
    1: exists na, nu, Mine, past, frame; by eapply call_ok.
    1-5: assert (ph = Mine) as -> by (apply (ti_phase _ _ _ _ _ _ Hi); by rewrite Hp);
      replace (transmit_step frame s) with (transmit_step [] s) by (unfold transmit_step; by rewrite Hp).
    + exists na, nu, Mine, past, f. by eapply header_ok.
    + exists na, nu, Mine, past, f. by eapply copy_ok.
    + exists na, nu, Mine, past, f. by eapply tx_desc_ok.
    + exists na, nu, Mine, past, f. by apply tx_ring_ok.
    + exists (na + 1), nu, Posted, past, f. by apply tx_idx_ok.
    + exists na, nu, ph, past, f. replace (transmit_step frame s) with (transmit_step [] s) by (unfold transmit_step; by rewrite Hp). by apply notify_ok.
    + replace (transmit_step frame s) with (transmit_step [] s) in * by (unfold transmit_step; by rewrite Hp). destruct (Z.le_gt_cases n 0) as [Hn|Hn].
      * unfold transmit_step in Hr. rewrite Hp, (proj2 (Z.ltb_ge _ _)) in Hr by done. cbn in Hr. apply Forall_app in Hr as [_ Hr]. by apply Forall_inv in Hr.
      * destruct (poll_ok _ _ _ _ _ _ _ Hi Hp ltac:(lia)) as (ph' & past' & H'). by exists na, nu, ph', past', f.
  - assert (tx_results s' = tx_results s) as E by (by destruct Hd). rewrite E in Hr. destruct (H Hr) as (na & nu & ph & past & f & Hi).
    destruct Hd as [s q m dv Hne id|s o1 o2 id d q m dv Ho p|s].
    + exists na, nu, Owned, past, f. by eapply xtake_ok.
    + exists na, nu, Sent, past, f. by eapply xsend_ok.
    + destruct (xpublish_ok _ _ _ _ _ _ Hi) as (nu' & ph' & H'). by exists na, nu', ph', past, f.
Qed.

Definition tx_start (q : Virtqueue) (m : pmem) : tx_state :=
  {| tx_mem := m; tx_q := q; tx_at := TIdle; tx_dev := {| dv_seen := 0; dv_owned := []; dv_next := 0 |}; tx_calls := []; tx_results := []; tx_sent := [] |}.

Record tx_fresh (q : Virtqueue) (m : pmem) : Prop := {
  tf_layout : tx_layout q;
  tf_idx : vq_avail_idx q = 0 /\ vq_last_used_idx q = 0;
  tf_zero : load 2 m (dm (vq_avail_va q) + AVAIL_IDX_OFF) = 0 /\ load 2 m (dm (vq_used_va q) + USED_IDX_OFF) = 0
}.

Lemma tx_start_ok q m : tx_fresh q m -> tx_ok (tx_start q m).
Proof.
  intros [Hl [I1 I2] [Z1 Z2]] _. exists 0, 0, Mine, [], []. by constructor.
Qed.

(** C35: As long as no call of [transmit] runs out of polls, the device sends the frames of
    the calls in order, each once, behind an empty header and cut to the largest frame,
    at most the last one missing; and when a call has returned, its frame was sent.  For
    every interleaving with the device, from a fresh queue. *)
Theorem tx_frames_exact q m s : tx_fresh q m -> rtc tx_step (tx_start q m) s -> Forall (eq true) (tx_results s) ->
  (exists waiting, packet <$> tx_calls s = tx_sent s ++ waiting /\ (length waiting <= 1)%nat) /\
  (tx_at s = TIdle -> tx_sent s = packet <$> tx_calls s).
Proof.
  intros Hf Hr Ht. destruct (rtc_invariant _ tx_ok _ _ (tx_start_ok q m Hf) tx_step_ok Hr Ht) as (na & nu & ph & past & f & H).
  pose proof (ti_phase _ _ _ _ _ _ H) as Hph. rewrite (ti_calls _ _ _ _ _ _ H), (ti_sent _ _ _ _ _ _ H), fmap_app. split.
  - exists (match tx_at s, ph with TIdle, _ => [] | _, (Sent | Completed) => [] | _, _ => [packet f] end).
    destruct (tx_at s) eqn:E, ph; cbn [polling] in Hph; try (by pose proof (proj2 Hph eq_refl)); rewrite <- ?app_assoc; (split; [done|cbn; lia]).
  - intros E. rewrite E in *. by rewrite (proj2 Hph eq_refl).
Qed.

(** A device that does not answer: the polls run out. *)
Lemma polls_run_out n : 0 <= n -> forall s, tx_at s = TPoll n -> used_idx (tx_q s) (tx_mem s) = vq_last_used_idx (tx_q s) -> rtc tx_step s (tx_return s (tx_q s) false).
Proof.
  intros Hn. pattern n. apply natlike_ind; [|clear n Hn; intros n Hn IH|done].
  - intros s Hp _. apply rtc_once. replace (tx_return s (tx_q s) false) with (transmit_step [] s) by (unfold transmit_step; by rewrite Hp). apply tx_driver.
  - intros s Hp Hu. eapply rtc_l; [apply (tx_driver [])|]. unfold transmit_step, pop_used. rewrite Hp, Hu, Z.eqb_refl, (proj2 (Z.ltb_lt _ _)) by lia.
    replace (Z.succ n - 1) with n by lia. exact (IH (tx_goto s (tx_mem s) (tx_q s) (TPoll n)) eq_refl Hu).
Qed.

(** ** Running the system *)

Inductive tx_act := BDriver (frame : list Z) | BTake | BSend | BPublish.

Definition tx_exec (s : tx_state) (a : tx_act) : tx_state :=
  let q := tx_q s in let m := tx_mem s in let dv := tx_dev s in
  let mk m dv sent := {| tx_mem := m; tx_q := q; tx_at := tx_at s; tx_dev := dv; tx_calls := tx_calls s; tx_results := tx_results s; tx_sent := sent |} in
  match a with
  | BDriver frame => transmit_step frame s
  | BTake =>
      if load 2 m (dm (vq_avail_va q) + AVAIL_IDX_OFF) =? dv_seen dv then s else
      let id := avail_entry q m (dv_seen dv) in
      mk m {| dv_seen := wrap16 (dv_seen dv + 1); dv_owned := dv_owned dv ++ [(id, desc_entry q m id)]; dv_next := dv_next dv |} (tx_sent s)
  | BSend =>
      match dv_owned dv with
      | (id, d) :: o =>
          let p := dm (vq_used_va q) + USED_RING_OFF + (dv_next dv mod vq_queue_size q) * 8 in
          mk (store 4 (store 4 m p id) (p + 4) 0) {| dv_seen := dv_seen dv; dv_owned := o; dv_next := wrap16 (dv_next dv + 1) |}
             (tx_sent s ++ [copy_from m (vd_addr d) (Z.to_nat (vd_len d))])
      | [] => s
      end
  | BPublish => mk (store 2 m (dm (vq_used_va q) + USED_IDX_OFF) (dv_next dv)) dv (tx_sent s)
  end.

Lemma tx_exec_steps s acts : rtc tx_step s (foldl tx_exec s acts).
Proof.
  induction acts as [|a acts IH] using rev_ind; [done|]. rewrite foldl_app. cbn [foldl]. etrans; [exact IH|]. generalize (foldl tx_exec s acts). clear. intros s.
  destruct a as [frame| | |]; unfold tx_exec; cbv zeta.
  - apply rtc_once, tx_driver.
  - destruct (Z.eqb_spec (load 2 (tx_mem s) (dm (vq_avail_va (tx_q s)) + AVAIL_IDX_OFF)) (dv_seen (tx_dev s))); [done|]. apply rtc_once, tx_device_acts. by apply XTake.
  - destruct (dv_owned (tx_dev s)) as [|[id d] o] eqn:E; [done|]. apply rtc_once, tx_device_acts. by apply (XSend s [] o id d).
  - apply rtc_once, tx_device_acts, XPublish.
Qed.
End Tx.

Lemma demo_tx_fresh : tx_fresh 0x10000 (demo_queue 256) (fun _ => 0).
Proof.
  split; [split|done|done]; try done.
  - exists 256. reflexivity.
  - apply (bool_decide_unpack _). vm_compute. exact I.
Qed.

Definition demo_call (frame : list Z) : list tx_act := replicate 10 (BDriver frame).

Lemma tx_frames_exact_witness : exists s, rtc (tx_step 0x10000) (tx_start (demo_queue 256) (fun _ => 0)) s /\ Forall (eq true) (tx_results s) /\
  tx_sent s = [replicate 12 0 ++ [5; 6]; replicate 12 0 ++ [7]] /\ (tx_at s = TIdle -> tx_sent s = packet <$> tx_calls s).
Proof.
  pose proof (tx_exec_steps 0x10000 (tx_start (demo_queue 256) (fun _ => 0))
    (demo_call [5; 6] ++ [BTake; BDriver []; BSend; BPublish; BDriver []] ++ demo_call [7] ++ [BTake; BSend; BPublish; BDriver []])) as Hr.
  eexists. split; [exact Hr|]. assert (forall rs, rs = [true; true] -> Forall (eq true) rs) as Ht by (intros rs ->; repeat constructor).
  split; [apply Ht; vm_compute; reflexivity|]. split; [vm_compute; reflexivity|].
  eapply (tx_frames_exact 0x10000 _ _ _ demo_tx_fresh Hr). apply Ht. vm_compute. reflexivity.
Defined.

(** The first call runs out of polls while its descriptor is still with the device; the
    second one writes over the buffer.  The frame of the first is never sent and that of
    the second goes out twice; and the second returns on the completion of the first. *)
Lemma transmit_after_timeout : exists s, rtc (tx_step 0x10000) (tx_start (demo_queue 256) (fun _ => 0)) s /\
  tx_calls s = [[5; 6]; [7; 8]] /\ tx_results s = [false; true] /\ tx_sent s = [packet [7; 8]; packet [7; 8]].
Proof.
  pose proof (tx_exec_steps 0x10000 (tx_start (demo_queue 256) (fun _ => 0)) (demo_call [5; 6])) as H1.
  pose proof (polls_run_out 0x10000 TX_POLLS ltac:(done) (foldl (tx_exec 0x10000) (tx_start (demo_queue 256) (fun _ => 0)) (demo_call [5; 6]))
    ltac:(reflexivity) ltac:(vm_compute; reflexivity)) as H2.
  eexists. split; [etrans; [exact H1|]; etrans; [exact H2|]; apply (tx_exec_steps 0x10000 _ (demo_call [7; 8] ++ [BTake; BSend; BPublish; BDriver []; BTake; BSend]))|].
  vm_compute. done.
Qed.
