(* ===== verification/Pci.v ===== *)
(** * PCI configuration space (crates/pci/src/config.rs, lib.rs, msix.rs)

    Access to configuration space through the two ports, the scan of all buses, the
    decoding and sizing of base address registers, the walk of the capability list and
    the set-up of MSI-X.  The hardware is the host bridge (the latched address and the
    data port) with the functions behind it: 64 registers each, with the bits that can be
    written and those that are cleared by writing a one. *)

From Stdlib Require Import ZArith Lia.
From stdpp Require Import prelude list.
From S2P Require Import Prelude.

Local Open Scope Z_scope.

(** ** Hardware *)

Record pci_func := { pf_reg : Z -> Z; pf_writable : Z -> Z; pf_w1c : Z -> Z }.

Definition not32 (z : Z) : Z := Z.lxor z (Z.ones 32).

(** A write of a register. *)
Definition reg_write (old writable w1c v : Z) : Z :=
  Z.lor (Z.land (Z.land old (not32 writable)) (not32 (Z.land v w1c))) (Z.land v writable).

Definition func_write (f : pci_func) (off v : Z) : pci_func :=
  {| pf_reg := fun o => if o =? off then reg_write (pf_reg f off) (pf_writable f off) (pf_w1c f off) v else pf_reg f o;
     pf_writable := pf_writable f; pf_w1c := pf_w1c f |}.

Notation bdf := (Z * Z * Z)%type.

Record pci_machine := { pm_address : Z; pm_func : bdf -> option pci_func }.

(** The function and register an address selects. *)
Definition selects (a : Z) : bdf * Z :=
  (Z.land (Z.shiftr a 16) 0xff, Z.land (Z.shiftr a 11) 0x1f, Z.land (Z.shiftr a 8) 7, Z.land a 0xfc).

Definition PCI_CONFIG_ADDRESS : Z := 0xCF8.
Definition PCI_CONFIG_DATA : Z := 0xCFC.

Definition set_func (s : pci_machine) (k : bdf) (f : pci_func) : pci_machine :=
  {| pm_address := pm_address s; pm_func := fun k' => if decide (k' = k) then Some f else pm_func s k' |}.

Definition outl (s : pci_machine) (port val : Z) : pci_machine :=
  if port =? PCI_CONFIG_ADDRESS then {| pm_address := val; pm_func := pm_func s |}
  else if port =? PCI_CONFIG_DATA then
    let '(k, off) := selects (pm_address s) in
    match pm_func s k with Some f => set_func s k (func_write f off val) | None => s end
  else s.

(** A read with nothing behind it gives ones. *)
Definition inl_ (s : pci_machine) (port : Z) : Z :=
  if port =? PCI_CONFIG_DATA then
    let '(k, off) := selects (pm_address s) in
    match pm_func s k with Some f => pf_reg f off | None => 0xffffffff end
  else 0xffffffff.

(** ** Access to configuration space *)

Definition config_address (bus device function offset : Z) : Z :=
  Z.lor (Z.lor (Z.lor (Z.lor (Z.shiftl 1 31) (Z.shiftl bus 16)) (Z.shiftl (Z.land device 0x1f) 11)) (Z.shiftl (Z.land function 0x07) 8)) (Z.land offset 0xfc).

Definition pci_config_read_u32 (s : pci_machine) (k : bdf) (off : Z) : Z * pci_machine :=
  let '(bus, dev, func) := k in
  let s := outl s PCI_CONFIG_ADDRESS (config_address bus dev func off) in
  (inl_ s PCI_CONFIG_DATA, s).

Definition pci_config_write_u32 (s : pci_machine) (k : bdf) (off val : Z) : pci_machine :=
  let '(bus, dev, func) := k in
  let s := outl s PCI_CONFIG_ADDRESS (config_address bus dev func off) in
  outl s PCI_CONFIG_DATA val.

Definition pci_config_read_u16 (s : pci_machine) (k : bdf) (off : Z) : Z * pci_machine :=
  let '(dword, s) := pci_config_read_u32 s k (Z.land off 0xfc) in
  (wrapw 16 (Z.shiftr dword (Z.land off 2 * 8)), s).

Definition pci_config_read_u8 (s : pci_machine) (k : bdf) (off : Z) : Z * pci_machine :=
  let '(dword, s) := pci_config_read_u32 s k (Z.land off 0xfc) in
  (wrapw 8 (Z.shiftr dword (Z.land off 3 * 8)), s).

Definition pci_config_write_u16 (s : pci_machine) (k : bdf) (off val : Z) : pci_machine :=
  let aligned := Z.land off 0xfc in
  let shift := Z.land off 2 * 8 in
  let '(dword, s) := pci_config_read_u32 s k aligned in
  let dword := Z.land dword (not32 (wrap32 (Z.shiftl 0xffff shift))) in
  let dword := Z.lor dword (wrap32 (Z.shiftl val shift)) in
  pci_config_write_u32 s k aligned dword.

(** ** Functions found *)

Definition MAX_PCI_DEVICES : nat := 32.

Record PciDevice := {
  pd_bus : Z; pd_device : Z; pd_function : Z;
  pd_vendor_id : Z; pd_device_id : Z;
  pd_class : Z; pd_subclass : Z; pd_prog_if : Z; pd_header_type : Z;
  pd_bars : list Z; pd_bar_is_mmio : list bool; pd_bar_sizes : list Z;
  pd_has_msix : bool; pd_msix_table_size : Z
}.

Definition PciDevice_EMPTY : PciDevice :=
  {| pd_bus := 0; pd_device := 0; pd_function := 0; pd_vendor_id := 0xffff; pd_device_id := 0xffff;
     pd_class := 0; pd_subclass := 0; pd_prog_if := 0; pd_header_type := 0;
     pd_bars := replicate 6 0; pd_bar_is_mmio := replicate 6 false; pd_bar_sizes := replicate 6 0;
     pd_has_msix := false; pd_msix_table_size := 0 |}.

Definition pd_bdf (d : PciDevice) : bdf := (pd_bus d, pd_device d, pd_function d).

Record PciTable := { pt_devices : list PciDevice; pt_count : nat }.

Definition PCI_TABLE : PciTable := {| pt_devices := replicate MAX_PCI_DEVICES PciDevice_EMPTY; pt_count := 0 |}.

Definition bar_is_io (bar_low : Z) : bool := Z.land bar_low 1 =? 1.

Definition bar_is_mmio_64 (bar_low : Z) : bool := (Z.land bar_low 1 =? 0) && (Z.land (Z.shiftr bar_low 1) 3 =? 2).

Definition size32_from_masked_readback (masked : Z) : Z := if masked =? 0 then 0 else wrap32 (not32 masked + 1).

Definition size64_from_masked_readback (masked_lo masked_hi : Z) : Z :=
  let masked := Z.lor (Z.shiftl masked_hi 32) masked_lo in
  if masked =? 0 then 0 else wrap64 (not64 masked + 1).

Definition push_device (table : PciTable) (dev : PciDevice) : PciTable :=
  if (pt_count table <? MAX_PCI_DEVICES)%nat then {| pt_devices := <[pt_count table := dev]> (pt_devices table); pt_count := S (pt_count table) |}
  else table.

(** What [decode_bars] has of a device: its addresses, kinds and sizes. *)
Record bar_arrays := { ba_bars : list Z; ba_is_mmio : list bool; ba_sizes : list Z }.

Definition bar_set (b : bar_arrays) (i : nat) (base : Z) (mmio : bool) (size : Z) : bar_arrays :=
  {| ba_bars := <[i := base]> (ba_bars b); ba_is_mmio := <[i := mmio]> (ba_is_mmio b); ba_sizes := <[i := size]> (ba_sizes b) |}.

(** Reads a register, its value after a write of ones, and writes it back. *)
Definition size_bar (s : pci_machine) (k : bdf) (off : Z) : Z * Z * pci_machine :=
  let '(original, s) := pci_config_read_u32 s k off in
  let s := pci_config_write_u32 s k off 0xffffffff in
  let '(rb, s) := pci_config_read_u32 s k off in
  (original, rb, pci_config_write_u32 s k off original).

Definition OFF_COMMAND : Z := 0x04.
Definition OFF_STATUS : Z := 0x06.
Definition OFF_BAR0 : Z := 0x10.
Definition OFF_CAP_PTR : Z := 0x34.

(** One round of the loop of [decode_bars]. *)
Definition bar_step (k : bdf) (st : nat * bar_arrays * pci_machine) : (nat * bar_arrays * pci_machine) + (bar_arrays * pci_machine) :=
  let '(i, b, s) := st in
  if (i <? 6)%nat then
    let off := OFF_BAR0 + Z.of_nat i * 4 in
    let '(original, readback, s) := size_bar s k off in
    if bar_is_io original then
      inl (S i, bar_set b i (Z.land original (not32 3)) false (size32_from_masked_readback (Z.land readback (not32 3))), s)
    else if bar_is_mmio_64 original then
      let '(original_hi, readback_hi, s) := size_bar s k (off + 4) in
      inl (S (S i), bar_set b i (Z.lor (Z.shiftl original_hi 32) (Z.land original (not32 0xf))) true (size64_from_masked_readback (Z.land readback (not32 0xf)) readback_hi), s)
    else
      inl (S i, bar_set b i (Z.land original (not32 0xf)) true (size32_from_masked_readback (Z.land readback (not32 0xf))), s)
  else inr (b, s).

(** At most 8 rounds, of which 7 are enough: each but the last handles a register. *)
Definition decode_bars (s : pci_machine) (k : bdf) : outcome (bar_arrays * pci_machine) :=
  let '(command, s) := pci_config_read_u16 s k OFF_COMMAND in
  let s := pci_config_write_u16 s k OFF_COMMAND (Z.land command (Z.lxor 3 0xffff)) in
  let b := {| ba_bars := replicate 6 0; ba_is_mmio := replicate 6 false; ba_sizes := replicate 6 0 |} in
  match iterate (bar_step k) 3 (0%nat, b, s) with
  | inr (b, s) => Done (b, pci_config_write_u16 s k OFF_COMMAND command)
  | inl _ => Panic
  end.

(** One round of the walk of [find_capability], which makes at most 49 of 64. *)
Definition cap_step (k : bdf) (cap_id : Z) (st : Z * Z * pci_machine) : (Z * Z * pci_machine) + (option Z * pci_machine) :=
  let '(ptr, guard, s) := st in
  if negb (ptr =? 0) && (guard <? 48) then
    let '(id, s) := pci_config_read_u8 s k ptr in
    if id =? cap_id then inr (Some ptr, s)
    else
      let '(next, s) := pci_config_read_u8 s k (wrapw 8 (ptr + 1)) in
      inl (Z.land next 0xfc, guard + 1, s)
  else inr (None, s).

Definition find_capability (s : pci_machine) (k : bdf) (cap_id : Z) : outcome (option Z * pci_machine) :=
  let '(status, s) := pci_config_read_u16 s k OFF_STATUS in
  if Z.land status 0x10 =? 0 then Done (None, s)
  else
    let '(ptr, s) := pci_config_read_u8 s k OFF_CAP_PTR in
    match iterate (cap_step k cap_id) 6 (Z.land ptr 0xfc, 0, s) with inr r => Done r | inl _ => Panic end.

(** ** MSI-X *)

Definition MSIX_CAP_ID : Z := 0x11.

Record MsixCap := { mc_cap_offset : Z; mc_table_size : Z; mc_table_bir : Z; mc_table_offset : Z; mc_pba_bir : Z; mc_pba_offset : Z }.

Definition msix_message_address (dest_apic_id : Z) : Z := Z.lor 0xFEE00000 (Z.shiftl dest_apic_id 12).
Definition msix_message_data (vector : Z) : Z := vector.
Definition msix_table_size_from_control (msg_ctrl : Z) : Z := Z.land msg_ctrl 0x07ff + 1.

Definition read_msix_cap (s : pci_machine) (k : bdf) (cap_offset : Z) : MsixCap * pci_machine :=
  let '(msg_ctrl, s) := pci_config_read_u16 s k (wrapw 8 (cap_offset + 0x02)) in
  let '(table, s) := pci_config_read_u32 s k (wrapw 8 (cap_offset + 0x04)) in
  let '(pba, s) := pci_config_read_u32 s k (wrapw 8 (cap_offset + 0x08)) in
  ({| mc_cap_offset := cap_offset; mc_table_size := msix_table_size_from_control msg_ctrl;
      mc_table_bir := Z.land table 7; mc_table_offset := Z.land table (not32 7);
      mc_pba_bir := Z.land pba 7; mc_pba_offset := Z.land pba (not32 7) |}, s).

(** ** The scan *)

Definition probe_function (s : pci_machine) (k : bdf) : outcome (option PciDevice * pci_machine) :=
  let '(vendor_id, s) := pci_config_read_u16 s k 0x00 in
  if vendor_id =? 0xffff then Done (None, s)
  else
    let '(device_id, s) := pci_config_read_u16 s k 0x02 in
    let '(class, s) := pci_config_read_u8 s k 0x0b in
    let '(subclass, s) := pci_config_read_u8 s k 0x0a in
    let '(prog_if, s) := pci_config_read_u8 s k 0x09 in
    let '(header_type, s) := pci_config_read_u8 s k 0x0e in
    let mk b has size :=
      {| pd_bus := k.1.1; pd_device := k.1.2; pd_function := k.2; pd_vendor_id := vendor_id; pd_device_id := device_id;
         pd_class := class; pd_subclass := subclass; pd_prog_if := prog_if; pd_header_type := header_type;
         pd_bars := ba_bars b; pd_bar_is_mmio := ba_is_mmio b; pd_bar_sizes := ba_sizes b;
         pd_has_msix := has; pd_msix_table_size := size |} in
    if Z.land header_type 0x7f =? 0 then
      '(b, s) ← decode_bars s k;
      '(cap, s) ← find_capability s k MSIX_CAP_ID;
      match cap with
      | Some c => let '(msix, s) := read_msix_cap s k c in Done (Some (mk b true (mc_table_size msix)), s)
      | None => Done (Some (mk b false 0), s)
      end
    else Done (Some (mk {| ba_bars := replicate 6 0; ba_is_mmio := replicate 6 false; ba_sizes := replicate 6 0 |} false 0), s).

(** The loop over the functions of a device past the first. *)
Definition scan_function (bus device : Z) (st : PciTable * pci_machine) (function : Z) : outcome (PciTable * pci_machine) :=
  let '(table, s) := st in
  '(dev, s) ← probe_function s (bus, device, function);
  Done (match dev with Some dev => push_device table dev | None => table end, s).

Definition scan_device (bus : Z) (st : PciTable * pci_machine) (device : Z) : outcome (PciTable * pci_machine) :=
  let '(table, s) := st in
  '(dev0, s) ← probe_function s (bus, device, 0);
  match dev0 with
  | None => Done (table, s)
  | Some dev0 =>
      let multifunction := negb (Z.land (pd_header_type dev0) 0x80 =? 0) in
      let table := push_device table dev0 in
      if multifunction then foldM (scan_function bus device) (table, s) (seqZ 1 7) else Done (table, s)
  end.

Definition scan_bus (st : PciTable * pci_machine) (bus : Z) : outcome (PciTable * pci_machine) := foldM (scan_device bus) st (seqZ 0 32).

Definition enumerate_pci (table : PciTable) (s : pci_machine) : outcome (PciTable * pci_machine) :=
  foldM scan_bus ({| pt_devices := pt_devices table; pt_count := 0 |}, s) (seqZ 0 256).

Definition pci_get (table : PciTable) (index : nat) : option PciDevice := if (index <? pt_count table)%nat then pt_devices table !! index else None.

Definition find_device (table : PciTable) (vendor_id device_id : Z) : option PciDevice :=
  snd <$> list_find (fun d => pd_vendor_id d = vendor_id /\ pd_device_id d = device_id) (take (pt_count table) (pt_devices table)).

(** ** Accesses *)

Definition valid_bdf (k : bdf) : Prop := 0 <= k.1.1 < 256 /\ 0 <= k.1.2 < 32 /\ 0 <= k.2 < 8.

(** The offset of the register a byte is in. *)
Definition dword_of (off : Z) : Z := Z.land off 0xfc.

Lemma dword_of_idemp off : dword_of (dword_of off) = dword_of off.
Proof. unfold dword_of. by rewrite <- Z.land_assoc. Qed.

Lemma dword_of_range off : 0 <= off -> 0 <= dword_of off < 256 /\ dword_of off mod 4 = 0.
Proof.
  intros H. unfold dword_of. change 0xfc with (Z.shiftl (Z.ones 6) 2). assert (Z.land off (Z.shiftl (Z.ones 6) 2) = Z.shiftl (Z.shiftr off 2 mod 2 ^ 6) 2) as -> by bitwise.
  rewrite Z.shiftl_mul_pow2, Z.shiftr_div_pow2 by lia. pose proof (Z.mod_pos_bound (off / 2 ^ 2) (2 ^ 6)). change (2 ^ 2) with 4 in *. split; [lia|]. apply Z.mod_mul. lia.
Qed.

Lemma config_address_sum b d f off : 0 <= b < 256 -> 0 <= d < 32 -> 0 <= f < 8 -> 0 <= off ->
  config_address b d f off = 2 ^ 31 + b * 2 ^ 16 + d * 2 ^ 11 + f * 2 ^ 8 + dword_of off.
Proof.
  intros Hb Hd Hf Ho. pose proof (dword_of_range off Ho) as [Hr _]. unfold config_address. fold (dword_of off).
  change (Z.land d 0x1f) with (Z.land d (Z.ones 5)). change (Z.land f 7) with (Z.land f (Z.ones 3)). rewrite !Z.land_ones, !Z.mod_small by lia. rewrite <- !Z.lor_assoc.
  rewrite (lor_disjoint_add f _ 8), (lor_disjoint_add d _ 11), (lor_disjoint_add b _ 16), (lor_disjoint_add 1 _ 31) by lia.
  lia.
Qed.

Lemma selects_address k off : valid_bdf k -> 0 <= off -> selects (config_address k.1.1 k.1.2 k.2 off) = (k, dword_of off).
Proof.
  destruct k as [[b d] f]. unfold valid_bdf, selects. cbn [fst snd]. intros (Hb & Hd & Hf) Ho. pose proof (dword_of_range off Ho) as [Hr _].
  change 0xff with (Z.ones 8). change 0x1f with (Z.ones 5). change 7 with (Z.ones 3). rewrite config_address_sum by done. rewrite !Z.land_ones, !Z.shiftr_div_pow2 by lia.
  assert (forall x, Z.land (256 * x + dword_of off) 0xfc = dword_of off) as E.
  { intros x. rewrite <- (dword_of_idemp off) at 2. unfold dword_of at 2. change 0xfc with (Z.land (Z.ones 8) 0xfc). rewrite !Z.land_assoc, !Z.land_ones by lia.
    f_equal. rewrite Z.add_comm, Z.mul_comm. by rewrite Z.mod_add. }
  f_equal; [repeat f_equal; Z.div_mod_to_equations; lia|]. etrans; [|apply (E (2 ^ 23 + b * 2 ^ 8 + d * 2 ^ 3 + f))]. f_equal. lia.
Qed.

(** The register of a function, and the machine after a write to it. *)
Definition reg (s : pci_machine) (k : bdf) (off : Z) : Z := match pm_func s k with Some f => pf_reg f (dword_of off) | None => 0xffffffff end.

(** Functions are the same when their registers are; the latched address of the host
    bridge does not matter. *)
Definition feq (f g : pci_func) : Prop := (forall o, pf_reg f o = pf_reg g o) /\ (forall o, pf_writable f o = pf_writable g o) /\ (forall o, pf_w1c f o = pf_w1c g o).

#[export] Instance feq_equiv : Equivalence feq.
Proof.
  split.
  - by intros f.
  - intros f g (H1 & H2 & H3). by split_and!.
  - intros f g h (H1 & H2 & H3) (H4 & H5 & H6). split_and!; intros o; [by rewrite H1|by rewrite H2|by rewrite H3].
Qed.

Definition same_bus (s s' : pci_machine) : Prop := forall k, option_Forall2 feq (pm_func s k) (pm_func s' k).

#[export] Instance same_bus_equiv : Equivalence same_bus.
Proof.
  split.
  - intros s k. reflexivity.
  - intros s t H k. symmetry. apply H.
  - intros s t u H1 H2 k. etrans; [apply H1|apply H2].
Qed.

(** Only function [k] changes, to [f]. *)
Definition bus_set (s s' : pci_machine) (k : bdf) (f : pci_func) : Prop :=
  (exists g, pm_func s' k = Some g /\ feq f g) /\ forall k', k' <> k -> option_Forall2 feq (pm_func s k') (pm_func s' k').

#[export] Instance reg_proper : Proper (same_bus ==> eq ==> eq ==> eq) reg.
Proof. intros s s' H k _ <- off _ <-. unfold reg. destruct (H k) as [f g (E & _)|]; [apply E|done]. Qed.

Lemma read_u32_spec s k off : valid_bdf k -> 0 <= off ->
  exists s', pci_config_read_u32 s k off = (reg s k off, s') /\ same_bus s s'.
Proof.
  intros Hk Ho. destruct k as [[b d] f]. unfold pci_config_read_u32, reg. exists {| pm_address := config_address b d f off; pm_func := pm_func s |}. split; [|intros k; cbn; reflexivity].
  unfold outl, inl_. cbn [Z.eqb Pos.eqb PCI_CONFIG_ADDRESS PCI_CONFIG_DATA pm_address pm_func]. pose proof (selects_address (b, d, f) off Hk Ho) as E. cbn [fst snd] in E. by rewrite E.
Qed.

#[export] Instance func_write_proper : Proper (feq ==> eq ==> eq ==> feq) func_write.
Proof. intros f g (H1 & H2 & H3) off _ <- v _ <-. split_and!; intros o; cbn; rewrite ?H1, ?H2, ?H3; done. Qed.

Lemma write_u32_spec s k f off v : valid_bdf k -> 0 <= off -> pm_func s k = Some f -> bus_set s (pci_config_write_u32 s k off v) k (func_write f (dword_of off) v).
Proof.
  intros Hk Ho Hf. destruct k as [[b d] n]. unfold pci_config_write_u32, outl. cbn [Z.eqb Pos.eqb PCI_CONFIG_ADDRESS PCI_CONFIG_DATA pm_address pm_func].
  pose proof (selects_address (b, d, n) off Hk Ho) as Es. cbn [fst snd] in Es. rewrite Es, Hf. split; cbn [set_func pm_func].
  - rewrite decide_True by done. eexists. split; [done|reflexivity].
  - intros k' Hne. rewrite decide_False by done. reflexivity.
Qed.

Lemma bus_set_reg s s' k f off : bus_set s s' k f -> reg s' k off = pf_reg f (dword_of off).
Proof. intros [(g & E & H & _) _]. unfold reg. by rewrite E, H. Qed.

Lemma bus_set_trans s s1 s2 k f g : bus_set s s1 k f -> bus_set s1 s2 k g -> bus_set s s2 k g.
Proof. intros [_ H1] [H2 H3]. split; [done|]. intros k' Hne. etrans; [by apply H1|by apply H3]. Qed.

Lemma bus_set_same s s1 s2 k f : bus_set s s1 k f -> same_bus s1 s2 -> bus_set s s2 k f.
Proof.
  intros [(g & E & H) H1] H2. split.
  - pose proof (H2 k) as Hk. rewrite E in Hk. inversion Hk as [x y Hxy|]; subst. exists y. split; [done|]. by etrans.
  - intros k' Hne. etrans; [by apply H1|apply H2].
Qed.

Lemma same_bus_set s s1 s2 k f : same_bus s s1 -> bus_set s1 s2 k f -> bus_set s s2 k f.
Proof. intros H [H1 H2]. split; [done|]. intros k' Hne. etrans; [apply H|by apply H2]. Qed.

Lemma bus_set_feq s s' k f g : bus_set s s' k f -> feq f g -> bus_set s s' k g.
Proof. intros [(x & E & H) H1] Hg. split; [|done]. exists x. split; [done|]. etrans; [by symmetry|done]. Qed.

(** A write that leaves the function as it was. *)
Lemma bus_set_id s s' k f : pm_func s k = Some f -> bus_set s s' k f -> same_bus s s'.
Proof. intros Hf [(g & E & H) H1] k'. destruct (decide (k' = k)) as [->|Hne]; [rewrite Hf, E; by constructor|by apply H1]. Qed.

(** The bytes and words of a register. *)
Definition reg16 (s : pci_machine) (k : bdf) (off : Z) : Z := wrapw 16 (Z.shiftr (reg s k off) (Z.land off 2 * 8)).
Definition reg8 (s : pci_machine) (k : bdf) (off : Z) : Z := wrapw 8 (Z.shiftr (reg s k off) (Z.land off 3 * 8)).

Lemma reg_dword s k off : reg s k (Z.land off 0xfc) = reg s k off.
Proof. unfold reg. by rewrite (dword_of_idemp off : dword_of (Z.land off 0xfc) = _). Qed.

Lemma read_u16_spec s k off : valid_bdf k -> 0 <= off -> exists s', pci_config_read_u16 s k off = (reg16 s k off, s') /\ same_bus s s'.
Proof.
  intros Hk Ho. unfold pci_config_read_u16, reg16. destruct (read_u32_spec s k (Z.land off 0xfc) Hk) as (s' & E & H); [apply (dword_of_range off Ho)|].
  rewrite E, reg_dword. by exists s'.
Qed.

Lemma read_u8_spec s k off : valid_bdf k -> 0 <= off -> exists s', pci_config_read_u8 s k off = (reg8 s k off, s') /\ same_bus s s'.
Proof.
  intros Hk Ho. unfold pci_config_read_u8, reg8. destruct (read_u32_spec s k (Z.land off 0xfc) Hk) as (s' & E & H); [apply (dword_of_range off Ho)|].
  rewrite E, reg_dword. by exists s'.
Qed.
