(* ===== verification/PciSpec.v ===== *)
(** * What the PCI scan finds and leaves behind

    Base address registers are described by what the hardware decodes (kind, base, size);
    capability lists by their entries.  The scan is shown to read these back for every
    function, and to leave every register as it was but for status bits that a write
    clears. *)

From Stdlib Require Import ZArith Lia Btauto.
From stdpp Require Import prelude list.
From S2P Require Import Prelude Pci.

Local Open Scope Z_scope.

(** ** Registers at bit level *)

Lemma testbit_not32 z i : 0 <= i -> Z.testbit (not32 z) i = xorb (Z.testbit z i) (i <? 32).
Proof. intros Hi. unfold not32. rewrite Z.lxor_spec, testbit_ones by lia. by rewrite (proj2 (Z.leb_le 0 i)). Qed.

(** Equality of 32-bit values by their bits below 32. *)
Lemma u32_bits a b : 0 <= a < 2 ^ 32 -> 0 <= b < 2 ^ 32 -> (forall i, 0 <= i < 32 -> Z.testbit a i = Z.testbit b i) -> a = b.
Proof.
  intros Ha Hb H. apply Z.bits_inj'. intros i Hi. destruct (Z.lt_ge_cases i 32); [apply H; lia|].
  by rewrite !(testbit_small _ 32) by lia.
Qed.

Lemma u32_of_bits a : 0 <= a -> (forall i, 32 <= i -> Z.testbit a i = false) -> 0 <= a < 2 ^ 32.
Proof.
  intros Ha H. split; [done|]. destruct (decide (a = 0)) as [->|]; [lia|]. apply Z.log2_lt_pow2; [lia|].
  destruct (Z.lt_ge_cases (Z.log2 a) 32) as [|Hge]; [done|]. pose proof (H _ Hge) as E. rewrite Z.bit_log2 in E by lia. done.
Qed.

Lemma not32_range z : 0 <= z < 2 ^ 32 -> 0 <= not32 z < 2 ^ 32.
Proof.
  intros Hz. apply u32_of_bits; [unfold not32; apply Z.lxor_nonneg; split; intros; [done|lia]|].
  intros i Hi. rewrite testbit_not32, (testbit_small z 32) by lia. by rewrite (proj2 (Z.ltb_ge i 32)).
Qed.

Lemma reg_write_range o w x v : 0 <= o < 2 ^ 32 -> 0 <= w < 2 ^ 32 -> 0 <= x < 2 ^ 32 -> 0 <= v -> 0 <= reg_write o w x v < 2 ^ 32.
Proof.
  intros Ho Hw Hx Hv. unfold reg_write. apply lor_range; [lia| |].
  - apply land_range; [lia| |]; [apply land_range; [lia|done|apply not32_range; done]|]. apply not32_range. rewrite Z.land_comm. by apply land_range; [lia| |].
  - rewrite Z.land_comm. by apply land_range; [lia| |].
Qed.

Lemma reg_write_bit o w x v i : 0 <= i < 32 ->
  Z.testbit (reg_write o w x v) i = (Z.testbit o i && negb (Z.testbit w i) && negb (Z.testbit v i && Z.testbit x i)) || (Z.testbit v i && Z.testbit w i).
Proof. intros Hi. unfold reg_write. rewrite Z.lor_spec, !Z.land_spec, !testbit_not32, Z.land_spec by lia. rewrite (proj2 (Z.ltb_lt i 32)) by lia. by rewrite !xorb_true_r. Qed.

(** Writing a register and then what it held restores it. *)
Lemma reg_write_restore o w v : 0 <= o < 2 ^ 32 -> 0 <= w < 2 ^ 32 -> 0 <= v -> reg_write (reg_write o w 0 v) w 0 o = o.
Proof.
  intros Ho Hw Hv. pose proof (reg_write_range o w 0 v Ho Hw ltac:(lia) Hv). apply u32_bits; [apply reg_write_range; lia|done|].
  intros i Hi. rewrite !reg_write_bit, Z.testbit_0_l by done. btauto.
Qed.

Lemma reg_write_ones_bit o w i : 0 <= i < 32 -> Z.testbit (reg_write o w 0 0xffffffff) i = Z.testbit o i || Z.testbit w i.
Proof.
  intros Hi. rewrite reg_write_bit, Z.testbit_0_l by done. change 0xffffffff with (Z.ones 32). rewrite testbit_ones by lia.
  rewrite (proj2 (Z.leb_le 0 i)), (proj2 (Z.ltb_lt i 32)) by lia. btauto.
Qed.

(** The two writes of the command half of register 4, its status half going along. *)
Lemma command_restored d w x : 0 <= d < 2 ^ 32 -> 0 <= w < 2 ^ 32 -> 0 <= x < 2 ^ 32 ->
  (forall i, 0 <= i < 32 -> Z.testbit x i = true -> 16 <= i /\ Z.testbit w i = false) ->
  let c := wrapw 16 (Z.shiftr d 0) in
  let half v := Z.land v (not32 (wrap32 (Z.shiftl 0xffff 0))) in
  let d1 := reg_write d w x (Z.lor (half d) (wrap32 (Z.shiftl (Z.land c (Z.lxor 3 0xffff)) 0))) in
  reg_write d1 w x (Z.lor (half d1) (wrap32 (Z.shiftl c 0))) = Z.land d (not32 x).
Proof.
  intros Hd Hw Hx Hxw c half d1. assert (0 <= c < 2 ^ 16) as Hc by (unfold c, wrapw; apply Z.mod_pos_bound; lia).
  assert (forall v, 0 <= v -> 0 <= half v) as Hh by (intros v Hv; apply Z.land_nonneg; by left).
  assert (forall v, 0 <= v -> 0 <= Z.lor (half v) (wrap32 (Z.shiftl c 0)) /\ 0 <= Z.lor (half v) (wrap32 (Z.shiftl (Z.land c (Z.lxor 3 0xffff)) 0))) as Hn.
  { intros v Hv. split; apply Z.lor_nonneg; (split; [by apply Hh|]); unfold wrap32, wrapw; apply Z.mod_pos_bound; lia. }
  assert (0 <= d1 < 2 ^ 32) as Hd1 by (apply reg_write_range; try done; apply Hn; lia).
  apply u32_bits; [apply reg_write_range; try done; apply Hn; lia|apply land_range; [lia|done|by apply not32_range]|].
  intros i Hi. assert (forall v, Z.testbit (half v) i = Z.testbit v i && (16 <=? i)) as Eh.
  { intros v. unfold half. change (wrap32 (Z.shiftl 0xffff 0)) with (Z.ones 16). rewrite Z.land_spec, testbit_not32, testbit_ones, (proj2 (Z.leb_le 0 i)), (proj2 (Z.ltb_lt i 32)) by lia.
    destruct (Z.ltb_spec i 16), (Z.leb_spec 16 i); try lia; cbn; btauto. }
  assert (forall v, Z.testbit (wrap32 (Z.shiftl v 0)) i = Z.testbit v i) as Es.
  { intros v. unfold wrap32, wrapw. rewrite Z.shiftl_0_r, testbit_mod_pow2, (proj2 (Z.ltb_lt i 32)) by lia. done. }
  assert (Z.testbit c i = (i <? 16) && Z.testbit d i) as Ec by (unfold c, wrapw; rewrite Z.shiftr_0_r, testbit_mod_pow2 by lia; done).
  assert (Z.testbit (Z.lxor 3 0xffff) i = (i <? 16) && (2 <=? i)) as E3.
  { change (Z.lxor 3 0xffff) with (Z.shiftl (Z.ones 14) 2). rewrite testbit_shiftl, testbit_ones by lia. bit_cases; done. }
  rewrite reg_write_bit, Z.lor_spec, Eh, Es, Ec by done. unfold d1. rewrite reg_write_bit, Z.lor_spec, Eh, Es, !Z.land_spec, Ec, E3, testbit_not32, (proj2 (Z.ltb_lt i 32)) by lia.
  destruct (Z.testbit x i) eqn:Ex; [destruct (Hxw i Hi Ex) as [H16 Ew]; rewrite Ew|]; destruct (Z.ltb_spec i 16), (Z.leb_spec 16 i); try lia; btauto.
Qed.

(** ** Functions *)

(** Registers have 32 bits; bits that a one clears are in the status register, of which
    the one that announces capabilities is not one. *)
Record func_ok (f : pci_func) : Prop := {
  fo_reg : forall o, 0 <= pf_reg f o < 2 ^ 32;
  fo_writable : forall o, 0 <= pf_writable f o < 2 ^ 32;
  fo_w1c : 0 <= pf_w1c f 4 < 2 ^ 32;
  fo_w1c_other : forall o, o <> 4 -> pf_w1c f o = 0;
  fo_status : forall i, 0 <= i < 32 -> Z.testbit (pf_w1c f 4) i = true -> 16 <= i /\ Z.testbit (pf_writable f 4) i = false;
  fo_caplist : Z.testbit (pf_w1c f 4) 20 = false
}.

Definition has (s : pci_machine) (k : bdf) (f : pci_func) : Prop := exists g, pm_func s k = Some g /\ feq f g.

Lemma has_reg s k f off : has s k f -> reg s k off = pf_reg f (dword_of off).
Proof. intros (g & E & H & _). unfold reg. by rewrite E, H. Qed.

Lemma has_feq s s' k f : option_Forall2 feq (pm_func s k) (pm_func s' k) -> has s k f -> has s' k f.
Proof. intros H (g & E & Hg). rewrite E in H. inversion H as [x y Hxy|]; subst. exists y. split; [done|]. by etrans. Qed.

Lemma has_same s s' k f : same_bus s s' -> has s k f -> has s' k f.
Proof. intros H. apply has_feq, H. Qed.

Lemma bus_set_has s s' k f : bus_set s s' k f -> has s' k f.
Proof. intros [H _]. exact H. Qed.

Lemma has_write s k f off v : valid_bdf k -> 0 <= off -> has s k f -> bus_set s (pci_config_write_u32 s k off v) k (func_write f (dword_of off) v).
Proof.
  intros Hk Ho (g & E & Hg). pose proof (write_u32_spec s k g off v Hk Ho E) as H. apply (bus_set_feq _ _ _ _ _ H). by rewrite Hg.
Qed.

Lemma func_write_twice f off v u : func_ok f -> off <> 4 -> 0 <= v -> u = pf_reg f off -> feq (func_write (func_write f off v) off u) f.
Proof.
  intros Hf Hne Hv ->. split_and!; intros o; try done. cbn. rewrite Z.eqb_refl. destruct (Z.eqb_spec o off) as [->|]; [|done].
  rewrite (fo_w1c_other _ Hf) by done. apply reg_write_restore; [apply Hf|apply Hf|done].
Qed.

Lemma size_bar_spec s k f off : valid_bdf k -> func_ok f -> has s k f -> 0 <= off -> dword_of off = off -> off <> 4 ->
  exists s', size_bar s k off = (pf_reg f off, reg_write (pf_reg f off) (pf_writable f off) 0 0xffffffff, s') /\ same_bus s s'.
Proof.
  intros Hk Hf Hs Ho Hd Hne. unfold size_bar. destruct (read_u32_spec s k off Hk Ho) as (s1 & -> & H1). pose proof (has_same _ _ _ _ H1 Hs) as Hs1.
  pose proof (has_write s1 k f off 0xffffffff Hk Ho Hs1) as H2. set (s2 := pci_config_write_u32 s1 k off 0xffffffff) in *. pose proof (bus_set_has _ _ _ _ H2) as Hs2.
  destruct (read_u32_spec s2 k off Hk Ho) as (s3 & -> & H3). pose proof (has_same _ _ _ _ H3 Hs2) as Hs3. rewrite (has_reg _ _ _ off Hs), (has_reg _ _ _ off Hs2), Hd in *.
  cbn [func_write pf_reg]. rewrite Z.eqb_refl, (fo_w1c_other _ Hf) by done. eexists. split; [reflexivity|].
  pose proof (has_write s3 k _ off (pf_reg f off) Hk Ho Hs3) as H4. rewrite Hd in H4. apply (bus_set_feq _ _ _ _ f) in H4; [|by apply func_write_twice; [..|lia|]].
  destruct Hs as (g & E & Hg). apply (bus_set_id s _ k g E). apply (bus_set_feq _ _ _ f); [|done].
  apply (same_bus_set _ s1); [done|]. apply (bus_set_trans _ s3 _ _ (func_write f off 0xffffffff)); [|done]. by apply (bus_set_same _ s2).
Qed.

(** ** Base address registers *)

(** What the hardware decodes. *)
Inductive pci_bar := BarNone | BarIo (base size : Z) | BarMem (base size : Z) (prefetch : bool) | BarMem64 (base size : Z) (prefetch : bool).

Definition pow2_size (lo hi size : Z) : Prop := exists n, lo <= n <= hi /\ size = 2 ^ n.

(** The registers of one, at register [o]: the base with the type bits, of which the bits
    that select the region can be written. *)
Definition bar_at (f : pci_func) (o : Z) (b : pci_bar) : Prop :=
  match b with
  | BarNone => pf_reg f o = 0 /\ pf_writable f o = 0
  | BarIo base size =>
      pow2_size 2 31 size /\ base mod size = 0 /\ 0 <= base < 2 ^ 32 /\ pf_reg f o = base + 1 /\ pf_writable f o = 2 ^ 32 - size
  | BarMem base size p =>
      pow2_size 4 31 size /\ base mod size = 0 /\ 0 <= base < 2 ^ 32 /\ pf_reg f o = base + (if p then 8 else 0) /\ pf_writable f o = 2 ^ 32 - size
  | BarMem64 base size p =>
      pow2_size 4 63 size /\ base mod size = 0 /\ 0 <= base < 2 ^ 64 /\
      pf_reg f o = base mod 2 ^ 32 + 4 + (if p then 8 else 0) /\ pf_reg f (o + 4) = base / 2 ^ 32 /\
      pf_writable f o = (2 ^ 64 - size) mod 2 ^ 32 /\ pf_writable f (o + 4) = (2 ^ 64 - size) / 2 ^ 32
  end.

Definition bar_width (b : pci_bar) : nat := match b with BarMem64 _ _ _ => 2 | _ => 1 end.

Fixpoint bars_from (f : pci_func) (i : nat) (bars : list pci_bar) : Prop :=
  match bars with
  | [] => i = 6%nat
  | b :: rest => bar_at f (OFF_BAR0 + Z.of_nat i * 4) b /\ bars_from f (i + bar_width b) rest
  end.

(** What the arrays of a device hold for them. *)
Definition bar_entries (b : pci_bar) : list (Z * bool * Z) :=
  match b with
  | BarNone => [(0, true, 0)]
  | BarIo base size => [(base, false, size)]
  | BarMem base size _ => [(base, true, size)]
  | BarMem64 base size _ => [(base, true, size); (0, false, 0)]
  end.

Definition arrays_of (l : list (Z * bool * Z)) : bar_arrays := {| ba_bars := l.*1.*1; ba_is_mmio := l.*1.*2; ba_sizes := l.*2 |}.

Lemma land_not32_ones x n : 0 <= x < 2 ^ 32 -> 0 <= n <= 32 -> Z.land x (not32 (Z.ones n)) = x - x mod 2 ^ n.
Proof.
  intros Hx Hn. replace (x - x mod 2 ^ n) with (Z.shiftl (Z.shiftr x n) n)
    by (rewrite Z.shiftl_mul_pow2, Z.shiftr_div_pow2 by lia; pose proof (Z.div_mod x (2 ^ n) ltac:(lia)); lia).
  apply Z.bits_inj'. intros i Hi. rewrite Z.land_spec, testbit_not32, testbit_ones, testbit_shiftl by lia. rewrite (proj2 (Z.leb_le 0 i)) by lia.
  destruct (Z.ltb_spec i n), (Z.leb_spec n i), (Z.ltb_spec i 32); try lia; cbn; rewrite ?andb_false_r, ?andb_true_r; try done.
  - rewrite testbit_shiftr by lia. f_equal. lia.
  - rewrite testbit_shiftr by lia. replace (i - n + n) with i by lia. by rewrite (testbit_small x 32) by lia.
Qed.

(** A register holding a base aligned to [2 ^ n] with type bits [t] below, after ones were
    written to the bits above. *)
Lemma lor_mask c t n : 0 <= n <= 32 -> 0 <= t < 2 ^ n -> 0 <= c -> c * 2 ^ n + t < 2 ^ 32 -> Z.lor (c * 2 ^ n + t) (2 ^ 32 - 2 ^ n) = 2 ^ 32 - 2 ^ n + t.
Proof.
  intros Hn Ht Hc Hlt. assert (2 ^ 32 = 2 ^ (32 - n) * 2 ^ n) as E by (rewrite <- Z.pow_add_r by lia; f_equal; lia).
  assert (0 <= c < 2 ^ (32 - n)) as Hc' by nia. assert (2 ^ 32 - 2 ^ n = Z.ones (32 - n) * 2 ^ n) as Ew by (rewrite Z.ones_equiv, E; lia).
  rewrite Ew, <- !(lor_disjoint_add _ t n) by lia. rewrite <- Z.shiftl_mul_pow2 by lia. apply Z.bits_inj'. intros i Hi.
  rewrite !Z.lor_spec, !testbit_shiftl by lia. destruct (Z.leb_spec n i); [|cbn; btauto]. rewrite testbit_ones by lia. cbn [andb].
  destruct (Z.ltb_spec (i - n) (32 - n)) as [|Hge]; [rewrite (proj2 (Z.leb_le 0 (i - n))) by lia; cbn; btauto|].
  rewrite (testbit_small c (32 - n)) by lia. rewrite andb_false_r. by rewrite orb_false_r.
Qed.

Lemma readback_eq o w : 0 <= o < 2 ^ 32 -> 0 <= w < 2 ^ 32 -> reg_write o w 0 0xffffffff = Z.lor o w.
Proof.
  intros Ho Hw. apply u32_bits; [apply reg_write_range; lia|by apply lor_range|]. intros i Hi. by rewrite reg_write_ones_bit, Z.lor_spec.
Qed.

(** The base and the masked readback of a register of 32 bits whose type bits are the low
    [j] ones. *)
Lemma decode_reg f o base t n j : func_ok f -> 0 <= j <= n -> n <= 32 -> 0 <= t < 2 ^ j -> 0 <= base -> base mod 2 ^ n = 0 -> pf_reg f o = base + t -> pf_writable f o = 2 ^ 32 - 2 ^ n ->
  Z.land (pf_reg f o) (not32 (Z.ones j)) = base /\
  Z.land (reg_write (pf_reg f o) (pf_writable f o) 0 0xffffffff) (not32 (Z.ones j)) = 2 ^ 32 - 2 ^ n /\ pf_reg f o mod 2 ^ j = t.
Proof.
  intros Hf Hj Hn Ht Hb Hm Er Ew. pose proof (fo_reg _ Hf o) as Ho. pose proof (fo_writable _ Hf o) as Hw.
  assert (2 ^ n = 2 ^ (n - j) * 2 ^ j) as E by (rewrite <- Z.pow_add_r by lia; f_equal; lia).
  assert (2 ^ 32 = 2 ^ (32 - n) * 2 ^ n) as E32 by (rewrite <- Z.pow_add_r by lia; f_equal; lia).
  assert (2 ^ j <= 2 ^ n) as Hle by (apply Z.pow_le_mono_r; lia).
  apply Z.mod_divide in Hm as [c Hc]; [|lia]. assert (base mod 2 ^ j = 0) as Hmj by (rewrite Hc, E, Z.mul_assoc; apply Z.mod_mul; lia).
  assert ((base + t) mod 2 ^ j = t) as Et by (rewrite <- Z.add_mod_idemp_l, Hmj by lia; apply Z.mod_small; lia).
  rewrite readback_eq, Er by done. rewrite Er in Ho. split_and!.
  - rewrite land_not32_ones, Et by lia. lia.
  - rewrite Ew, Hc, lor_mask by (nia || lia). rewrite Ew in Hw. rewrite land_not32_ones; [|pose proof (Z.pow_pos_nonneg 2 n); lia|lia].
    assert ((2 ^ 32 - 2 ^ n + t) mod 2 ^ j = t) as ->; [|lia]. rewrite E32. replace (2 ^ (32 - n) * 2 ^ n - 2 ^ n + t) with (t + ((2 ^ (32 - n) - 1) * 2 ^ (n - j)) * 2 ^ j) by (rewrite E; ring).
    rewrite Z.mod_add by lia. apply Z.mod_small. lia.
  - done.
Qed.

Lemma size32_mask n : 0 <= n < 32 -> size32_from_masked_readback (2 ^ 32 - 2 ^ n) = 2 ^ n.
Proof.
  intros Hn. assert (0 < 2 ^ n < 2 ^ 32) as H by (split; [lia|apply Z.pow_lt_mono_r; lia]). unfold size32_from_masked_readback. rewrite (proj2 (Z.eqb_neq _ _)) by lia.
  assert (not32 (2 ^ 32 - 2 ^ n) = 2 ^ n - 1) as ->.
  { unfold not32. apply u32_bits.
    - change (0 <= not32 (2 ^ 32 - 2 ^ n) < 2 ^ 32). apply not32_range. lia.
    - lia.
    - intros i Hi. replace (2 ^ n - 1) with (Z.ones n) by (rewrite Z.ones_equiv; lia).
      assert (2 ^ 32 - 2 ^ n = Z.shiftl (Z.ones (32 - n)) n) as ->.
      { rewrite Z.shiftl_mul_pow2, Z.ones_equiv by lia. assert (2 ^ 32 = 2 ^ (32 - n) * 2 ^ n) by (rewrite <- Z.pow_add_r by lia; f_equal; lia). lia. }
      rewrite Z.lxor_spec, testbit_shiftl, !testbit_ones by lia. bit_cases; done. }
  unfold wrap32, wrapw. rewrite Z.mod_small; lia.
Qed.

Lemma size64_mask n lo hi : 0 <= n < 64 -> 0 <= lo < 2 ^ 32 -> 0 <= hi < 2 ^ 32 -> hi * 2 ^ 32 + lo = 2 ^ 64 - 2 ^ n -> size64_from_masked_readback lo hi = 2 ^ n.
Proof.
  intros Hn Hlo Hhi E. assert (0 < 2 ^ n < 2 ^ 64) as H by (split; [lia|apply Z.pow_lt_mono_r; lia]). unfold size64_from_masked_readback.
  rewrite lor_disjoint_add, E by lia. rewrite (proj2 (Z.eqb_neq _ _)) by lia.
  assert (not64 (2 ^ 64 - 2 ^ n) = 2 ^ n - 1) as ->.
  { replace (2 ^ n - 1) with (Z.ones n) by (rewrite Z.ones_equiv; lia). unfold not64.
    assert (2 ^ 64 - 2 ^ n = Z.shiftl (Z.ones (64 - n)) n) as ->.
    { rewrite Z.shiftl_mul_pow2, Z.ones_equiv by lia. assert (2 ^ 64 = 2 ^ (64 - n) * 2 ^ n) by (rewrite <- Z.pow_add_r by lia; f_equal; lia). lia. }
    apply Z.bits_inj'. intros i Hi. rewrite Z.lxor_spec, testbit_shiftl, !testbit_ones by lia. bit_cases; done. }
  unfold wrap64, wrapw. rewrite Z.mod_small; lia.
Qed.

Lemma type_bits x : Z.land x 1 = x mod 16 mod 2 /\ Z.land (Z.shiftr x 1) 3 = x mod 16 / 2 mod 4.
Proof.
  change 1 with (Z.ones 1) at 1. change 3 with (Z.ones 2). rewrite !Z.land_ones, Z.shiftr_div_pow2 by lia.
  change (2 ^ 1) with 2. change (2 ^ 2) with 4. split; Z.div_mod_to_equations; lia.
Qed.

(** The arrays with the entries of the registers so far. *)
Definition filled_to (l : list (Z * bool * Z)) : bar_arrays := arrays_of (l ++ replicate (6 - length l) (0, false, 0)).

Lemma bar_set_filled l e : (length l < 6)%nat -> bar_set (filled_to l) (length l) e.1.1 e.1.2 e.2 = filled_to (l ++ [e]).
Proof.
  intros Hl. do 6 (destruct l as [|? l]; [reflexivity|]). cbn in Hl. lia.
Qed.

Lemma filled_skip l : (length l < 6)%nat -> filled_to (l ++ [(0, false, 0)]) = filled_to l.
Proof.
  intros Hl. unfold filled_to. rewrite length_app. cbn [length]. replace (6 - length l)%nat with (S (6 - (length l + 1)))%nat by lia. cbn [replicate]. by rewrite <- app_assoc.
Qed.

Lemma bar_offset i : (i < 7)%nat -> let o := OFF_BAR0 + Z.of_nat i * 4 in 0 <= o /\ dword_of o = o /\ o <> 4.
Proof. intros Hi. do 7 (destruct i as [|i]; [done|]). lia. Qed.

(** A register pair of 64 bits. *)
Lemma mem64_decode f o base n (p : bool) : func_ok f -> 4 <= n <= 63 -> base mod 2 ^ n = 0 -> 0 <= base < 2 ^ 64 ->
  pf_reg f o = base mod 2 ^ 32 + 4 + (if p then 8 else 0) -> pf_reg f (o + 4) = base / 2 ^ 32 ->
  pf_writable f o = (2 ^ 64 - 2 ^ n) mod 2 ^ 32 -> pf_writable f (o + 4) = (2 ^ 64 - 2 ^ n) / 2 ^ 32 ->
  pf_reg f o mod 16 = 4 + (if p then 8 else 0) /\
  Z.lor (Z.shiftl (pf_reg f (o + 4)) 32) (Z.land (pf_reg f o) (not32 0xf)) = base /\
  size64_from_masked_readback (Z.land (reg_write (pf_reg f o) (pf_writable f o) 0 0xffffffff) (not32 0xf)) (reg_write (pf_reg f (o + 4)) (pf_writable f (o + 4)) 0 0xffffffff) = 2 ^ n.
Proof.
  intros Hf Hn Hm Hr Er Eh Ew Ewh. pose proof (Z.div_mod base (2 ^ 32) ltac:(lia)) as Eb. pose proof (Z.mod_pos_bound base (2 ^ 32) ltac:(lia)) as Hlo.
  set (lo := base mod 2 ^ 32) in *. set (hi := base / 2 ^ 32) in *. assert (0 <= hi < 2 ^ 32) as Hhi by (unfold hi; split; [apply Z.div_pos; lia|apply Z.div_lt_upper_bound; lia]).
  set (t := if p then 8 else 0) in *. assert (0 <= 4 + t < 16) as Ht by (unfold t; destruct p; lia). apply Z.mod_divide in Hm as [c Hc]; [|lia].
  assert (exists n1 n2, 4 <= n1 <= 32 /\ 0 <= n2 <= 32 /\ lo mod 2 ^ n1 = 0 /\ hi mod 2 ^ n2 = 0 /\ pf_writable f o = 2 ^ 32 - 2 ^ n1 /\
    pf_writable f (o + 4) = 2 ^ 32 - 2 ^ n2 /\ (2 ^ 32 - 2 ^ n2) * 2 ^ 32 + (2 ^ 32 - 2 ^ n1) = 2 ^ 64 - 2 ^ n) as (n1 & n2 & N1 & N2 & M1 & M2 & W1 & W2 & Es).
  { destruct (Z.le_gt_cases 32 n) as [Hge|Hlt].
    - assert (2 ^ n = 2 ^ (n - 32) * 2 ^ 32) as E by (rewrite <- Z.pow_add_r by lia; f_equal; lia). assert (lo = 0) as Elo by (unfold lo; rewrite Hc, E, Z.mul_assoc; apply Z.mod_mul; lia).
      assert (hi = c * 2 ^ (n - 32)) as Ehi by (unfold hi; rewrite Hc, E, Z.mul_assoc; apply Z.div_mul; lia).
      assert (2 ^ 64 - 2 ^ n = (2 ^ 32 - 2 ^ (n - 32)) * 2 ^ 32) as E2 by (rewrite E; lia).
      exists 32, (n - 32). rewrite Elo, Ehi, Ew, Ewh, E2, Z.mod_mul, Z.div_mul, Z.mod_mul by lia. split_and!; (done || lia).
    - assert (2 ^ 32 = 2 ^ (32 - n) * 2 ^ n) as E by (rewrite <- Z.pow_add_r by lia; f_equal; lia). assert (0 < 2 ^ n < 2 ^ 32) by (split; [lia|apply Z.pow_lt_mono_r; lia]).
      exists n, 0. rewrite Ew, Ewh. change (2 ^ 0) with 1. replace (2 ^ 64 - 2 ^ n) with ((2 ^ 32 - 2 ^ n) + (2 ^ 32 - 1) * 2 ^ 32) by lia.
      rewrite Z.mod_add, Z.div_add, (Z.mod_small (2 ^ 32 - 2 ^ n)), (Z.div_small (2 ^ 32 - 2 ^ n)), Z.mod_1_r by lia. split_and!; try (done || lia).
      assert (lo = (c - hi * 2 ^ (32 - n)) * 2 ^ n) as -> by (rewrite E in Eb; lia). apply Z.mod_mul. lia. }
  destruct (decode_reg f o lo (4 + t) n1 4 Hf ltac:(lia) ltac:(lia) ltac:(lia) ltac:(lia) M1 ltac:(lia) W1) as (D1 & D2 & D3).
  destruct (decode_reg f (o + 4) hi 0 n2 0 Hf ltac:(lia) ltac:(lia) ltac:(lia) ltac:(lia) M2 ltac:(lia) W2) as (_ & D5 & _).
  change (not32 (Z.ones 4)) with (not32 0xf) in *. change (not32 (Z.ones 0)) with (Z.ones 32) in D5. rewrite Z.land_ones in D5 by lia.
  rewrite Z.mod_small in D5 by (apply reg_write_range; try apply Hf; lia). rewrite D1, D2, D5, Eh. split_and!.
  - done.
  - rewrite lor_disjoint_add by lia. lia.
  - apply size64_mask; [lia| | |done]; pose proof (Z.pow_pos_nonneg 2 n1); pose proof (Z.pow_pos_nonneg 2 n2); pose proof (fo_writable _ Hf o); pose proof (fo_writable _ Hf (o + 4)); lia.
Qed.

Lemma bar_step_spec s k f l b : valid_bdf k -> func_ok f -> has s k f -> (length l + bar_width b <= 6)%nat ->
  bar_at f (OFF_BAR0 + Z.of_nat (length l) * 4) b ->
  exists s', bar_step k (length l, filled_to l, s) = inl ((length l + bar_width b)%nat, filled_to (l ++ bar_entries b), s') /\ same_bus s s'.
Proof.
  intros Hk Hf Hs Hw Hb. set (i := length l) in *. assert (1 <= bar_width b)%nat by (destruct b; cbn; lia). destruct (bar_offset i ltac:(lia)) as (O1 & O2 & O3).
  unfold bar_step. rewrite (proj2 (Nat.ltb_lt i 6)) by lia. set (o := OFF_BAR0 + _) in *. destruct (size_bar_spec s k f o Hk Hf Hs O1 O2 O3) as (s1 & -> & H1).
  pose proof (type_bits (pf_reg f o)) as [T1 T2]. unfold bar_is_io, bar_is_mmio_64. rewrite T1, T2. destruct b as [|base size|base size p|base size p]; cbn [bar_at bar_width bar_entries] in *.
  - destruct Hb as [Er Ew]. rewrite Er, Ew. cbn. exists s1. split; [|done]. rewrite Nat.add_1_r. by rewrite <- (bar_set_filled l (0, true, 0)) by lia.
  - destruct Hb as ((n & Hn & ->) & Hm & Hr & Er & Ew).
    destruct (decode_reg f o base 1 n 2 Hf ltac:(lia) ltac:(lia) ltac:(lia) ltac:(lia) Hm Er Ew) as (D1 & D2 & D3).
    change (not32 (Z.ones 2)) with (not32 3) in *. rewrite D1, D2, size32_mask by lia. replace (pf_reg f o mod 16 mod 2) with 1 by (change (2 ^ 2) with 4 in D3; Z.div_mod_to_equations; lia). cbn [Z.eqb Pos.eqb].
    exists s1. split; [|done]. rewrite Nat.add_1_r. by rewrite <- (bar_set_filled l (base, false, 2 ^ n)) by lia.
  - destruct Hb as ((n & Hn & ->) & Hm & Hr & Er & Ew).
    destruct (decode_reg f o base (if p then 8 else 0) n 4 Hf ltac:(lia) ltac:(lia) ltac:(destruct p; lia) ltac:(lia) Hm Er Ew) as (D1 & D2 & D3).
    change (not32 (Z.ones 4)) with (not32 0xf) in *. change (2 ^ 4) with 16 in D3. rewrite D1, D2, D3, size32_mask by lia.
    exists s1. split; [|done]. rewrite Nat.add_1_r. rewrite <- (bar_set_filled l (base, true, 2 ^ n)) by lia. by destruct p.
  - destruct Hb as ((n & Hn & ->) & Hm & Hr & Er & Eh & Ew & Ewh).
    destruct (bar_offset (S i) ltac:(lia)) as (P1 & P2 & P3). replace (OFF_BAR0 + Z.of_nat (S i) * 4) with (o + 4) in * by (unfold o; lia).
    destruct (size_bar_spec s1 k f (o + 4) Hk Hf (has_same _ _ _ _ H1 Hs) P1 P2 P3) as (s2 & -> & H2).
    destruct (mem64_decode f o base n p Hf Hn Hm Hr Er Eh Ew Ewh) as (D1 & D2 & D3). rewrite D1, D2, D3.
    exists s2. split; [|by etrans]. replace (l ++ _) with ((l ++ [(base, true, 2 ^ n)]) ++ [(0, false, 0)]) by (by rewrite <- app_assoc).
    rewrite filled_skip by (rewrite length_app; cbn; lia). rewrite <- (bar_set_filled l (base, true, 2 ^ n)) by lia. rewrite Nat.add_comm. by destruct p.
Qed.

Lemma bar_entries_length b : length (bar_entries b) = bar_width b.
Proof. by destruct b. Qed.

Lemma bars_from_length f bars : forall i, bars_from f i bars -> (i + length bars <= 6)%nat.
Proof. induction bars as [|b bars IH]; intros i; cbn; [lia|]. intros [_ H]. apply IH in H. destruct b; cbn in *; lia. Qed.

Lemma entries_length f bars : forall i, bars_from f i bars -> (i + length (bars ≫= bar_entries) = 6)%nat.
Proof.
  induction bars as [|b bars IH]; intros i; cbn [bars_from]; [cbn; lia|]. intros [_ Hr]. apply IH in Hr. rewrite bind_cons, length_app, bar_entries_length. lia.
Qed.

Lemma bar_loop_spec k f bars s0 : valid_bdf k -> func_ok f -> has s0 k f -> bars_from f 0 bars ->
  exists s', iterate (bar_step k) 3 (0%nat, filled_to [], s0) = inr (filled_to (bars ≫= bar_entries), s') /\ same_bus s0 s'.
Proof.
  intros Hk Hf H0 Hb0.
  destruct (iterate_total (bar_step k)
    (fun st => exists l rest, st.1 = (length l, filled_to l) /\ bars_from f (length l) rest /\ (bars ≫= bar_entries) = l ++ (rest ≫= bar_entries) /\ same_bus s0 st.2)
    (fun r => r.1 = filled_to (bars ≫= bar_entries) /\ same_bus s0 r.2) (fun st => 6 - Z.of_nat st.1.1) 3 (0%nat, filled_to [], s0)) as ([b s'] & E & H1 & H2).
  - intros [ib s] (l & rest & E & Hb & El & Hs). cbn [fst snd] in *. subst ib. pose proof (bars_from_length _ _ _ Hb). destruct rest as [|b rest].
    + cbn in Hb. unfold bar_step. rewrite Hb. cbn [Nat.ltb Nat.leb]. split; [|done]. cbn in El. by rewrite El, app_nil_r.
    + destruct Hb as [Hb Hr]. pose proof (bars_from_length _ _ _ Hr). destruct (bar_step_spec s k f l b Hk Hf (has_same _ _ _ _ Hs H0) ltac:(lia) Hb) as (s1 & -> & Hs1).
      split; [|cbn [fst]; destruct b; cbn in *; lia]. exists (l ++ bar_entries b), rest. cbn [fst snd]. rewrite length_app, bar_entries_length. split_and!; try done.
      * rewrite El. cbn. by rewrite <- app_assoc.
      * by etrans.
  - by exists [], bars.
  - done.
  - exists s'. cbn [fst snd] in *. subst b. done.
Qed.

(** ** The command register *)

Definition clear_status (f : pci_func) : pci_func :=
  {| pf_reg := fun o => if o =? 4 then Z.land (pf_reg f 4) (not32 (pf_w1c f 4)) else pf_reg f o; pf_writable := pf_writable f; pf_w1c := pf_w1c f |}.

(** What a write of the command half writes to register 4. *)
Definition command_value (d v : Z) : Z := Z.lor (Z.land d (not32 (wrap32 (Z.shiftl 0xffff 0)))) (wrap32 (Z.shiftl v 0)).

Lemma write_command s k f v : valid_bdf k -> has s k f -> bus_set s (pci_config_write_u16 s k OFF_COMMAND v) k (func_write f 4 (command_value (pf_reg f 4) v)).
Proof.
  intros Hk Hs. unfold pci_config_write_u16. change (Z.land OFF_COMMAND 0xfc) with 4. change (Z.land OFF_COMMAND 2 * 8) with 0.
  destruct (read_u32_spec s k 4 Hk ltac:(lia)) as (s1 & -> & H1). rewrite (has_reg _ _ _ 4 Hs). change (dword_of 4) with 4.
  apply (same_bus_set _ s1); [done|]. apply (has_write s1 k f 4); [done|lia|by apply (has_same s)].
Qed.

Lemma command_value_nonneg d v : 0 <= d -> 0 <= command_value d v.
Proof. intros Hd. apply Z.lor_nonneg. split; [apply Z.land_nonneg; by left|]. unfold wrap32, wrapw. apply Z.mod_pos_bound. lia. Qed.

Lemma func_write_ok f v : func_ok f -> 0 <= v -> func_ok (func_write f 4 v).
Proof. intros Hf Hv. destruct Hf. split; cbn; try done. intros o. case_match; [|done]. by apply reg_write_range. Qed.

Lemma bars_from_write f v bars : forall i, bars_from f i bars -> bars_from (func_write f 4 v) i bars.
Proof.
  induction bars as [|b bars IH]; intros i; cbn [bars_from]; [done|]. intros [Hb Hr]. split; [|by apply IH].
  assert (forall x, 16 <= x -> pf_reg (func_write f 4 v) x = pf_reg f x) as E by (intros x Hx; cbn; by rewrite (proj2 (Z.eqb_neq x 4)) by lia).
  unfold bar_at in *. rewrite !E by (unfold OFF_BAR0; lia). done.
Qed.

Lemma decode_bars_spec s k f bars : valid_bdf k -> func_ok f -> has s k f -> bars_from f 0 bars ->
  exists s', decode_bars s k = Done (arrays_of (bars ≫= bar_entries), s') /\ bus_set s s' k (clear_status f).
Proof.
  intros Hk Hf Hs Hb. unfold decode_bars. destruct (read_u16_spec s k OFF_COMMAND Hk ltac:(done)) as (s1 & -> & H1). pose proof (has_same _ _ _ _ H1 Hs) as Hs1.
  assert (reg16 s k OFF_COMMAND = wrapw 16 (Z.shiftr (pf_reg f 4) 0)) as -> by (unfold reg16; by rewrite (has_reg _ _ _ _ Hs)). set (c := wrapw 16 _).
  pose proof (write_command s1 k f (Z.land c (Z.lxor 3 0xffff)) Hk Hs1) as H2. set (v1 := command_value _ _) in H2. set (s2 := pci_config_write_u16 s1 _ _ _) in *.
  pose proof (fo_reg _ Hf 4) as Hd. assert (func_ok (func_write f 4 v1)) as Hf1 by (apply func_write_ok; [done|apply command_value_nonneg; lia]).
  destruct (bar_loop_spec k (func_write f 4 v1) bars s2 Hk Hf1 (bus_set_has _ _ _ _ H2) (bars_from_write f v1 bars 0 Hb)) as (s3 & E & H3).
  change (filled_to []) with {| ba_bars := replicate 6 0; ba_is_mmio := replicate 6 false; ba_sizes := replicate 6 0 |} in E. rewrite E.
  assert (filled_to (bars ≫= bar_entries) = arrays_of (bars ≫= bar_entries)) as ->.
  { unfold filled_to. pose proof (entries_length _ _ _ Hb) as Hl. cbn [Nat.add] in Hl. by rewrite Hl, Nat.sub_diag, app_nil_r. }
  eexists. split; [reflexivity|]. pose proof (write_command s3 k _ c Hk (has_same _ _ _ _ H3 (bus_set_has _ _ _ _ H2))) as H4.
  apply (same_bus_set _ s1); [done|]. apply (bus_set_trans _ s3 _ _ (func_write f 4 v1)); [by apply (bus_set_same _ s2)|].
  apply (bus_set_feq _ _ _ _ _ H4). split_and!; intros o; try done. cbn [clear_status pf_reg func_write]. rewrite Z.eqb_refl. destruct (Z.eqb_spec o 4) as [->|]; [|done].
  apply command_restored; apply Hf.
Qed.

(** ** Capabilities *)

Definition word16 (f : pci_func) (off : Z) : Z := wrapw 16 (Z.shiftr (pf_reg f (dword_of off)) (Z.land off 2 * 8)).
Definition byte (f : pci_func) (off : Z) : Z := wrapw 8 (Z.shiftr (pf_reg f (dword_of off)) (Z.land off 3 * 8)).

(** The entries of the list from [ptr]: where each is, and its identifier. *)
Fixpoint cap_chain (f : pci_func) (ptr : Z) (caps : list (Z * Z)) : Prop :=
  match caps with
  | [] => ptr = 0
  | (p, id) :: rest => p = ptr /\ 0x40 <= ptr <= 0xfc /\ byte f ptr = id /\ cap_chain f (Z.land (byte f (wrapw 8 (ptr + 1))) 0xfc) rest
  end.

Definition caps_of (f : pci_func) (caps : list (Z * Z)) : Prop :=
  if Z.testbit (pf_reg f 4) 20 then (length caps <= 48)%nat /\ cap_chain f (Z.land (byte f OFF_CAP_PTR) 0xfc) caps else caps = [].

(** The first one with the identifier. *)
Definition cap_offset (caps : list (Z * Z)) (id : Z) : option Z := (fun x => x.2.1) <$> list_find (fun c => c.2 = id) caps.

Lemma read_byte s k f off : valid_bdf k -> has s k f -> 0 <= off -> exists s', pci_config_read_u8 s k off = (byte f off, s') /\ same_bus s s'.
Proof. intros Hk Hs Ho. destruct (read_u8_spec s k off Hk Ho) as (s' & E & H). exists s'. split; [|done]. rewrite E. unfold reg8. by rewrite (has_reg _ _ _ _ Hs). Qed.

Lemma read_word s k f off : valid_bdf k -> has s k f -> 0 <= off -> exists s', pci_config_read_u16 s k off = (word16 f off, s') /\ same_bus s s'.
Proof. intros Hk Hs Ho. destruct (read_u16_spec s k off Hk Ho) as (s' & E & H). exists s'. split; [|done]. rewrite E. unfold reg16. by rewrite (has_reg _ _ _ _ Hs). Qed.

Lemma status_bit d : (Z.land (wrapw 16 (Z.shiftr d 16)) 0x10 =? 0) = negb (Z.testbit d 20).
Proof.
  assert (Z.land (wrapw 16 (Z.shiftr d 16)) 0x10 = if Z.testbit d 20 then 2 ^ 4 else 0) as ->; [|by destruct (Z.testbit d 20)].
  apply Z.bits_inj'. intros i Hi. rewrite Z.land_spec. change (Z.testbit 0x10 i) with (Z.testbit (2 ^ 4) i). unfold wrapw. rewrite testbit_mod_pow2, testbit_shiftr, testbit_pow2 by lia.
  destruct (Z.eqb_spec 4 i) as [<-|Hne]; [change (4 + 16) with 20; by destruct (Z.testbit d 20)|].
  rewrite andb_false_r. destruct (Z.testbit d 20); [rewrite testbit_pow2 by lia; by rewrite (proj2 (Z.eqb_neq 4 i))|by rewrite Z.testbit_0_l].
Qed.

Lemma find_capability_spec s k f caps id : valid_bdf k -> has s k f -> caps_of f caps ->
  exists s', find_capability s k id = Done (cap_offset caps id, s') /\ same_bus s s'.
Proof.
  intros Hk Hs Hc. unfold find_capability. destruct (read_word s k f OFF_STATUS Hk Hs ltac:(done)) as (s1 & -> & H1).
  change (word16 f OFF_STATUS) with (wrapw 16 (Z.shiftr (pf_reg f 4) 16)). rewrite status_bit. unfold caps_of in Hc. destruct (Z.testbit (pf_reg f 4) 20); cbn [negb]; [|subst caps; by exists s1].
  destruct Hc as [Hl Hc]. pose proof (has_same _ _ _ _ H1 Hs) as Hs1. destruct (read_byte s1 k f OFF_CAP_PTR Hk Hs1 ltac:(done)) as (s2 & -> & H2).
  assert (same_bus s s2) as H02 by (by etrans).
  destruct (iterate_total (cap_step k id)
    (fun st => exists past rest, caps = past ++ rest /\ Forall (fun c => c.2 <> id) past /\ cap_chain f st.1.1 rest /\ st.1.2 = Z.of_nat (length past) /\ same_bus s st.2)
    (fun r => r.1 = cap_offset caps id /\ same_bus s r.2) (fun st => 48 - st.1.2) 6 (Z.land (byte f OFF_CAP_PTR) 0xfc, 0, s2)) as ([o s'] & E & Ho & Hs').
  - intros [[ptr guard] t] (past & rest & Ec & Hp & Hr & Eg & Ht). cbn [fst snd] in *. unfold cap_step. destruct rest as [|[p pid] rest].
    + cbn in Hr. subst ptr. cbn [Z.eqb negb andb]. split; [|done]. cbn. unfold cap_offset. rewrite app_nil_r in Ec. rewrite Ec. by rewrite (proj2 (list_find_None _ past)).
    + destruct Hr as (-> & Hr0 & Hb & Hr). assert (length past + S (length rest) <= 48)%nat as Hlen by (rewrite Ec, length_app in Hl; cbn in Hl; lia).
      rewrite (proj2 (Z.eqb_neq ptr 0)), (proj2 (Z.ltb_lt guard 48)) by lia. cbn [negb andb]. pose proof (has_same _ _ _ _ Ht Hs) as Hst.
      destruct (read_byte t k f ptr Hk Hst ltac:(lia)) as (t1 & -> & T1). rewrite Hb. destruct (Z.eqb_spec pid id) as [->|Hne].
      * split; [|by etrans]. cbn. unfold cap_offset. rewrite Ec, list_find_app_r; [|by apply list_find_None]. cbn. by rewrite decide_True.
      * assert (same_bus s t1) as Ht1 by (by etrans). destruct (read_byte t1 k f (wrapw 8 (ptr + 1)) Hk (has_same _ _ _ _ Ht1 Hs)) as (t2 & -> & T2); [unfold wrapw; apply Z.mod_pos_bound; lia|].
        cbn [fst snd]. split; [|lia]. exists (past ++ [(ptr, pid)]), rest. split_and!; try done.
        -- by rewrite <- app_assoc.
        -- rewrite Forall_app, Forall_singleton. done.
        -- rewrite length_app. cbn. lia.
        -- by etrans.
  - exists [], caps. split_and!; done.
  - done.
  - rewrite E. exists s'. cbn [fst snd] in *. by subst o.
Qed.

(** ** One function *)

(** A function with what its registers encode. *)
Record pci_desc := { fd_func : pci_func; fd_bars : list pci_bar; fd_caps : list (Z * Z) }.

Definition header_type (f : pci_func) : Z := byte f 0x0e.
Definition general (f : pci_func) : bool := Z.land (header_type f) 0x7f =? 0.

Record desc_ok (d : pci_desc) : Prop := {
  do_func : func_ok (fd_func d);
  do_vendor : word16 (fd_func d) 0 <> 0xffff;
  do_bars : general (fd_func d) = true -> bars_from (fd_func d) 0 (fd_bars d);
  do_caps : general (fd_func d) = true -> caps_of (fd_func d) (fd_caps d)
}.

(** What the table should say of it. *)
Definition device_of (k : bdf) (d : pci_desc) : PciDevice :=
  let f := fd_func d in
  let b := if general f then arrays_of (fd_bars d ≫= bar_entries) else arrays_of (replicate 6 (0, false, 0)) in
  let msix := if general f then cap_offset (fd_caps d) MSIX_CAP_ID else None in
  {| pd_bus := k.1.1; pd_device := k.1.2; pd_function := k.2; pd_vendor_id := word16 f 0x00; pd_device_id := word16 f 0x02;
     pd_class := byte f 0x0b; pd_subclass := byte f 0x0a; pd_prog_if := byte f 0x09; pd_header_type := header_type f;
     pd_bars := ba_bars b; pd_bar_is_mmio := ba_is_mmio b; pd_bar_sizes := ba_sizes b;
     pd_has_msix := bool_decide (is_Some msix);
     pd_msix_table_size := match msix with Some c => Z.land (word16 f (wrapw 8 (c + 2))) 0x7ff + 1 | None => 0 end |}.

Definition clear_desc (d : pci_desc) : pci_desc := {| fd_func := clear_status (fd_func d); fd_bars := fd_bars d; fd_caps := fd_caps d |}.

Lemma clear_reg f o : o <> 4 -> pf_reg (clear_status f) o = pf_reg f o.
Proof. intros H. cbn. by rewrite (proj2 (Z.eqb_neq o 4)). Qed.

Lemma clear_byte f off : dword_of off <> 4 -> byte (clear_status f) off = byte f off.
Proof. intros H. unfold byte. by rewrite clear_reg. Qed.

Lemma clear_word f off : dword_of off <> 4 -> word16 (clear_status f) off = word16 f off.
Proof. intros H. unfold word16. by rewrite clear_reg. Qed.

Lemma clear_capbit f : func_ok f -> Z.testbit (pf_reg (clear_status f) 4) 20 = Z.testbit (pf_reg f 4) 20.
Proof. intros Hf. cbn -[Z.testbit]. rewrite Z.land_spec, testbit_not32, (fo_caplist _ Hf) by lia. by rewrite andb_true_r. Qed.

Lemma dword_ne4 off : 8 <= off < 256 -> dword_of off <> 4.
Proof.
  intros H E. assert (dword_of off = off - off mod 4) as E2; [|rewrite E2 in E; Z.div_mod_to_equations; lia].
  unfold dword_of. change 0xfc with (Z.land (Z.ones 8) (not32 (Z.ones 2))). rewrite Z.land_assoc, Z.land_ones, Z.mod_small, land_not32_ones by lia. done.
Qed.

Lemma clear_chain f caps : forall ptr, cap_chain f ptr caps -> cap_chain (clear_status f) ptr caps.
Proof.
  induction caps as [|[p id] caps IH]; intros ptr; cbn [cap_chain]; [done|]. intros (-> & Hr & Hb & Hc).
  replace (wrapw 8 (ptr + 1)) with (ptr + 1) in * by (unfold wrapw; rewrite Z.mod_small; lia).
  rewrite !clear_byte by (apply dword_ne4; lia). auto.
Qed.

Lemma chain_range f caps : forall ptr, cap_chain f ptr caps -> Forall (fun c => 0x40 <= c.1 <= 0xfc) caps.
Proof. induction caps as [|[p id] caps IH]; intros ptr; cbn [cap_chain]; [done|]. intros (-> & Hr & _ & Hc). constructor; [done|]. by eapply IH. Qed.

Lemma cap_offset_range f caps id c : caps_of f caps -> cap_offset caps id = Some c -> 0x40 <= c <= 0xfc.
Proof.
  unfold caps_of, cap_offset. intros H E. apply fmap_Some in E as ([i x] & E & ->). apply list_find_Some in E as (E & _).
  destruct (Z.testbit _ _); [|by subst]. destruct H as [_ H]. apply chain_range in H. exact (Forall_lookup_1 _ _ _ _ H E).
Qed.

Lemma clear_desc_ok d : desc_ok d -> desc_ok (clear_desc d).
Proof.
  intros [Hf Hv Hb Hc]. assert (general (clear_status (fd_func d)) = general (fd_func d)) as Eg by done. split; cbn [clear_desc fd_func fd_bars fd_caps].
  - destruct Hf. split; try done. intros o. cbn. case_match; [|done]. apply land_range; [lia|done|by apply not32_range].
  - by rewrite clear_word.
  - rewrite Eg. intros E. specialize (Hb E). clear -Hb. generalize 0%nat, Hb. clear. intros i. revert i. induction (fd_bars d) as [|b bars IH]; intros i; cbn [bars_from]; [done|].
    intros [H1 H2]. split; [|by apply IH]. unfold bar_at in *. rewrite !clear_reg by (unfold OFF_BAR0; lia). done.
  - rewrite Eg. intros E. specialize (Hc E). unfold caps_of in *. rewrite clear_capbit by done. case_match; [|done]. destruct Hc as [Hl Hc]. split; [done|]. rewrite clear_byte by done. by apply clear_chain.
Qed.

Lemma clear_device k d : desc_ok d -> device_of k (clear_desc d) = device_of k d.
Proof.
  intros H. unfold device_of. cbn [clear_desc fd_func fd_bars fd_caps]. assert (general (clear_status (fd_func d)) = general (fd_func d)) as -> by done.
  f_equal; try done. destruct (general (fd_func d)) eqn:Eg; [|done]. destruct (cap_offset (fd_caps d) MSIX_CAP_ID) as [c|] eqn:Ec; [|done].
  pose proof (cap_offset_range _ _ _ _ (do_caps _ H Eg) Ec). rewrite clear_word; [done|]. unfold wrapw. rewrite Z.mod_small by lia. apply dword_ne4. lia.
Qed.

Lemma has_refl s k f : pm_func s k = Some f -> has s k f.
Proof. intros H. exists f. split; [done|reflexivity]. Qed.

Lemma read_msix_spec s k f c : valid_bdf k -> has s k f -> 0 <= c ->
  exists cap s', read_msix_cap s k c = (cap, s') /\ mc_table_size cap = Z.land (word16 f (wrapw 8 (c + 2))) 0x7ff + 1 /\ same_bus s s'.
Proof.
  intros Hk Hs Hc. assert (forall x, 0 <= wrapw 8 x) as Hw by (intros x; unfold wrapw; apply Z.mod_pos_bound; lia). unfold read_msix_cap.
  destruct (read_word s k f (wrapw 8 (c + 2)) Hk Hs (Hw _)) as (s1 & -> & H1). destruct (read_u32_spec s1 k (wrapw 8 (c + 4)) Hk (Hw _)) as (s2 & -> & H2).
  destruct (read_u32_spec s2 k (wrapw 8 (c + 8)) Hk (Hw _)) as (s3 & -> & H3). eexists _, s3. split; [reflexivity|]. split; [done|]. by do 2 (etrans; [done|]).
Qed.

Lemma probe_spec s k d : valid_bdf k -> has s k (fd_func d) -> desc_ok d ->
  exists s' f', probe_function s k = Done (Some (device_of k d), s') /\ bus_set s s' k f' /\ (f' = fd_func d \/ f' = clear_status (fd_func d)).
Proof.
  intros Hk Hs Hd. unfold probe_function. set (f := fd_func d) in *.
  destruct (read_word s k f 0x00 Hk Hs ltac:(lia)) as (s1 & -> & H1). rewrite (proj2 (Z.eqb_neq _ _)) by apply Hd. apply (has_same _ _ _ _ H1) in Hs as Hs1.
  destruct (read_word s1 k f 0x02 Hk Hs1 ltac:(lia)) as (s2 & -> & H2). apply (has_same _ _ _ _ H2) in Hs1 as Hs2.
  destruct (read_byte s2 k f 0x0b Hk Hs2 ltac:(lia)) as (s3 & -> & H3). apply (has_same _ _ _ _ H3) in Hs2 as Hs3.
  destruct (read_byte s3 k f 0x0a Hk Hs3 ltac:(lia)) as (s4 & -> & H4). apply (has_same _ _ _ _ H4) in Hs3 as Hs4.
  destruct (read_byte s4 k f 0x09 Hk Hs4 ltac:(lia)) as (s5 & -> & H5). apply (has_same _ _ _ _ H5) in Hs4 as Hs5.
  destruct (read_byte s5 k f 0x0e Hk Hs5 ltac:(lia)) as (s6 & -> & H6). apply (has_same _ _ _ _ H6) in Hs5 as Hs6.
  assert (same_bus s s6) as H06 by (by do 5 (etrans; [done|])). clear s1 s2 s3 s4 s5 H1 H2 H3 H4 H5 H6 Hs1 Hs2 Hs3 Hs4 Hs5.
  unfold device_of. fold f. change (Z.land (byte f 0x0e) 0x7f =? 0) with (general f). destruct (general f) eqn:Eg.
  - destruct (decode_bars_spec s6 k f (fd_bars d) Hk (do_func _ Hd) Hs6 (do_bars _ Hd Eg)) as (s7 & -> & H7). run.
    pose proof (do_caps _ (clear_desc_ok d Hd) Eg) as Hcc. cbn [clear_desc fd_func fd_caps] in Hcc. fold f in Hcc. pose proof (bus_set_has _ _ _ _ H7) as Hs7.
    destruct (find_capability_spec s7 k (clear_status f) (fd_caps d) MSIX_CAP_ID Hk Hs7 Hcc) as (s8 & -> & H8). run. destruct (cap_offset (fd_caps d) MSIX_CAP_ID) as [c|] eqn:Ec.
    + pose proof (cap_offset_range _ _ _ _ Hcc Ec) as Hr. destruct (read_msix_spec s8 k (clear_status f) c Hk (has_same _ _ _ _ H8 Hs7) ltac:(lia)) as (cap & s9 & -> & Em & H9).
      rewrite clear_word in Em; [|unfold wrapw; rewrite Z.mod_small by lia; apply dword_ne4; lia]. rewrite Em.
      exists s9, (clear_status f). split; [done|]. split; [|by right]. apply (same_bus_set _ s6); [done|]. apply (bus_set_same _ s7); [done|]. by etrans.
    + exists s8, (clear_status f). split; [done|]. split; [|by right]. apply (same_bus_set _ s6); [done|]. by apply (bus_set_same _ s7).
  - exists s6, f. split; [done|]. split; [|by left]. split; [done|]. intros k' _. apply H06.
Qed.

Lemma probe_absent s k : valid_bdf k -> pm_func s k = None -> exists s', probe_function s k = Done (None, s') /\ same_bus s s'.
Proof.
  intros Hk E. unfold probe_function. destruct (read_u16_spec s k 0 Hk ltac:(lia)) as (s1 & -> & H1). unfold reg16, reg. rewrite E. exists s1. done.
Qed.

(** ** The scan *)

Section Scan.
Context (D : bdf -> option pci_desc).

(** The functions are described, and nothing else is there. *)
Definition described (s : pci_machine) : Prop :=
  forall k, valid_bdf k -> match D k with Some d => desc_ok d /\ (has s k (fd_func d) \/ has s k (clear_status (fd_func d))) | None => pm_func s k = None end.

Lemma probe_described s k : valid_bdf k -> described s -> exists s', probe_function s k = Done (device_of k <$> D k, s') /\ described s'.
Proof.
  intros Hk Hs. pose proof (Hs k Hk) as Hd. destruct (D k) as [d|] eqn:Ed.
  - destruct Hd as [Hd Hh]. assert (exists s' f', probe_function s k = Done (Some (device_of k d), s') /\ bus_set s s' k f' /\ (feq f' (fd_func d) \/ feq f' (clear_status (fd_func d)))) as (s' & f' & E & Hb & Hf).
    { destruct Hh as [Hh|Hh].
      - destruct (probe_spec s k d Hk Hh Hd) as (s' & f' & E & Hb & Hf). exists s', f'. split; [done|]. split; [done|]. destruct Hf as [-> | ->]; [by left|by right].
      - destruct (probe_spec s k (clear_desc d) Hk Hh (clear_desc_ok d Hd)) as (s' & f' & E & Hb & Hf). rewrite clear_device in E by done. exists s', f'. split; [done|]. split; [done|]. right.
        destruct Hf as [-> | ->]; [done|]. split_and!; intros o; try done. cbn. destruct (Z.eqb_spec o 4); [|done]. rewrite <- Z.land_assoc. f_equal. apply Z.land_diag. }
    exists s'. split; [done|]. intros k' Hk'. destruct (decide (k' = k)) as [->|Hne].
    + rewrite Ed. split; [done|]. pose proof (bus_set_has _ _ _ _ Hb) as (g & Eg & Hg). destruct Hf as [Hf|Hf]; [left|right]; exists g; (split; [done|]); by rewrite <- Hf.
    + pose proof (Hs k' Hk') as H'. destruct Hb as [_ Hb]. specialize (Hb k' Hne). destruct (D k') as [d'|].
      * destruct H' as [Hd' [H'|H']]; (split; [done|]); apply (has_feq _ _ _ _ Hb) in H'; auto.
      * rewrite H' in Hb. by inversion Hb.
  - destruct (probe_absent s k Hk Hd) as (s' & E & Hb). exists s'. split; [done|]. intros k' Hk'. pose proof (Hs k' Hk') as H'. specialize (Hb k'). destruct (D k') as [d'|].
    + destruct H' as [Hd' [H'|H']]; (split; [done|]); apply (has_feq _ _ _ _ Hb) in H'; auto.
    + rewrite H' in Hb. by inversion Hb.
Qed.

(** The functions the scan visits, in order: those of a device past the first only when
    the first says there are more. *)
Definition device_keys (bus device : Z) : list bdf :=
  match D (bus, device, 0) with
  | Some d => (bus, device, 0) :: (if Z.land (header_type (fd_func d)) 0x80 =? 0 then [] else (fun f => (bus, device, f)) <$> seqZ 1 7)
  | None => []
  end.

Definition bus_keys (bus : Z) : list bdf := seqZ 0 32 ≫= device_keys bus.

Definition found (ks : list bdf) : list PciDevice := omap (fun k => device_of k <$> D k) ks.

Definition lists (table : PciTable) (l : list PciDevice) : Prop :=
  length (pt_devices table) = MAX_PCI_DEVICES /\ pt_count table = Nat.min MAX_PCI_DEVICES (length l) /\ take (pt_count table) (pt_devices table) = take MAX_PCI_DEVICES l.

Lemma push_lists table l dev : lists table l -> lists (push_device table dev) (l ++ [dev]).
Proof.
  intros (H1 & H2 & H3). unfold push_device, lists, MAX_PCI_DEVICES in *. destruct (Nat.ltb_spec (pt_count table) 32) as [Hlt|Hge]; cbn [pt_count pt_devices].
  - split_and!; cbn [pt_count pt_devices].
    + by rewrite length_insert.
    + rewrite length_app. cbn [length]. lia.
    + rewrite (take_ge (l ++ [dev])) by (rewrite length_app; cbn [length]; lia). rewrite (take_ge l) in H3 by lia. rewrite (take_S_r _ _ dev) by (apply list_lookup_insert_eq; lia).
      by rewrite take_insert_ge, H3 by lia.
  - split_and!; [done|rewrite length_app; lia|]. rewrite take_app_le by lia. done.
Qed.

Lemma scan_device_spec bus device table s l : 0 <= bus < 256 -> 0 <= device < 32 -> described s -> lists table l ->
  exists st, scan_device bus (table, s) device = Done st /\ lists st.1 (l ++ found (device_keys bus device)) /\ described st.2.
Proof.
  intros Hb Hd Hs Hl. unfold scan_device, device_keys. destruct (probe_described s (bus, device, 0) ltac:(unfold valid_bdf; cbn; lia) Hs) as (s1 & -> & H1). run.
  destruct (D (bus, device, 0)) as [d|] eqn:Ed; cbn [fmap option_fmap option_map]; [|eexists; split; [done|]; by rewrite app_nil_r].
  change (pd_header_type (device_of (bus, device, 0) d)) with (header_type (fd_func d)). pose proof (push_lists _ _ (device_of (bus, device, 0) d) Hl) as Hl1.
  destruct (Z.land (header_type (fd_func d)) 0x80 =? 0); cbn [negb].
  - eexists. split; [done|]. split; [|done]. unfold found. cbn [omap list_omap]. by rewrite Ed.
  - destruct (foldM_total (scan_function bus device)
      (fun past st => lists st.1 (l ++ found ((bus, device, 0) :: ((fun f => (bus, device, f)) <$> past))) /\ described st.2) (seqZ 1 7) [] (push_device table (device_of (bus, device, 0) d), s1)) as (st & E & H2).
    + intros past f [t u] Hf [Ht Hu]. apply elem_of_seqZ in Hf. cbn [fst snd] in *. unfold scan_function. destruct (probe_described u (bus, device, f) ltac:(unfold valid_bdf; cbn; lia) Hu) as (u1 & -> & H3). run.
      eexists. split; [done|]. cbn [fst snd]. split; [|done]. rewrite fmap_app, app_comm_cons. unfold found in *. rewrite omap_app, app_assoc. cbn [fmap list_fmap omap list_omap].
      destruct (D (bus, device, f)) as [d'|]; cbn [fmap option_fmap option_map]; [by apply push_lists|by rewrite app_nil_r].
    + cbn [fst snd]. split; [|done]. unfold found. cbn [omap list_omap fmap list_fmap]. by rewrite Ed.
    + exists st. split; [done|]. done.
Qed.

Lemma found_app ks ks' : found (ks ++ ks') = found ks ++ found ks'.
Proof. apply omap_app. Qed.

Lemma scan_bus_spec bus table s l : 0 <= bus < 256 -> described s -> lists table l ->
  exists st, scan_bus (table, s) bus = Done st /\ lists st.1 (l ++ found (bus_keys bus)) /\ described st.2.
Proof.
  intros Hb Hs Hl. unfold scan_bus, bus_keys.
  destruct (foldM_total (scan_device bus) (fun past st => lists st.1 (l ++ found (past ≫= device_keys bus)) /\ described st.2) (seqZ 0 32) [] (table, s)) as (st & E & H).
  - intros past d [t u] Hd [Ht Hu]. apply elem_of_seqZ in Hd. cbn [fst snd] in *. destruct (scan_device_spec bus d t u _ Hb ltac:(lia) Hu Ht) as (st & -> & H1 & H2).
    exists st. split; [done|]. rewrite bind_app, found_app, app_assoc. cbn. by rewrite app_nil_r.
  - cbn. by rewrite app_nil_r.
  - by exists st.
Qed.

(** C34: On a machine whose functions have well-formed configuration spaces (windows of a
    power of two of bytes, a capability list that ends) the scan of the buses terminates
    without a panic and lists the first 32 functions it reaches, in order: function 0 of
    every device that is there, and the functions 1 to 7 that are there of a device whose
    function 0 has the multifunction bit.  Each is listed with its identifiers and, if its
    header is a general one, with the bases, kinds and sizes of all its base address
    registers of 32 and 64 bits and the size of its MSI-X table.  Sizing writes ones to the registers and restores them: every
    register is afterwards as before, but for status bits that are cleared by being
    written back. *)
Theorem pci_scan_exact table s : length (pt_devices table) = MAX_PCI_DEVICES ->
  (forall k, valid_bdf k -> match D k with Some d => desc_ok d /\ has s k (fd_func d) | None => pm_func s k = None end) ->
  let l := found (seqZ 0 256 ≫= bus_keys) in
  exists table' s', enumerate_pci table s = Done (table', s') /\
    pt_count table' = Nat.min 32 (length l) /\ take (pt_count table') (pt_devices table') = take 32 l /\
    (forall k, valid_bdf k -> D k = None -> pm_func s' k = None) /\
    (forall k d o, valid_bdf k -> D k = Some d ->
      reg s' k o = reg s k o \/ (dword_of o = 4 /\ reg s' k o = Z.land (reg s k o) (not32 (pf_w1c (fd_func d) 4)))).
Proof.
  intros Ht Hs l. assert (described s) as Hd.
  { intros k Hk. specialize (Hs k Hk). destruct (D k); [|done]. destruct Hs as [? ?]. split; [done|]. by left. }
  destruct (foldM_total scan_bus (fun past st => lists st.1 (found (past ≫= bus_keys)) /\ described st.2) (seqZ 0 256) [] ({| pt_devices := pt_devices table; pt_count := 0 |}, s)) as ([table' s'] & E & (_ & H1 & H2) & H3).
  - intros past b [t u] Hb [Hl Hu]. apply elem_of_seqZ in Hb. cbn [fst snd] in *. destruct (scan_bus_spec b t u _ ltac:(lia) Hu Hl) as (st & -> & G1 & G2).
    exists st. split; [done|]. rewrite bind_app, found_app. cbn. by rewrite app_nil_r.
  - split; [|done]. by split_and!.
  - cbn [fst snd] in *. exists table', s'. split; [exact E|]. split; [exact H1|]. split; [exact H2|]. split.
    + intros k Hk Ek. specialize (H3 k Hk). by rewrite Ek in H3.
    + intros k d o Hk Ek. specialize (H3 k Hk). specialize (Hs k Hk). rewrite Ek in H3, Hs. destruct Hs as [_ Hs], H3 as [_ [H3|H3]]; rewrite (has_reg _ _ _ o H3), (has_reg _ _ _ o Hs); [by left|].
      cbn [clear_status pf_reg]. destruct (Z.eqb_spec (dword_of o) 4) as [Eo|]; [right; by rewrite Eo|by left].
Qed.
End Scan.

(** ** A machine with one network device *)

Definition demo_func : pci_func :=
  {| pf_reg := fun o =>
       if o =? 0 then 0x10411af4 else if o =? 4 then 0x20100007 else if o =? 8 then 0x02000001 else if o =? 0x10 then 0xc001 else if o =? 0x14 then 0xfebd1000
       else if o =? 0x20 then 0xc else if o =? 0x24 then 8 else if o =? 0x34 then 0x98 else if o =? 0x84 then 0x09 else if o =? 0x98 then 0x00028411 else 0;
     pf_writable := fun o =>
       if o =? 4 then 7 else if o =? 0x10 then 2 ^ 32 - 32 else if o =? 0x14 then 2 ^ 32 - 4096 else if o =? 0x20 then 2 ^ 32 - 0x4000 else if o =? 0x24 then 2 ^ 32 - 1 else 0;
     pf_w1c := fun o => if o =? 4 then 0xf9000000 else 0 |}.

Definition demo_desc : pci_desc :=
  {| fd_func := demo_func;
     fd_bars := [BarIo 0xc000 32; BarMem 0xfebd1000 4096 false; BarNone; BarNone; BarMem64 0x800000000 0x4000 true];
     fd_caps := [(0x98, 0x11); (0x84, 0x09)] |}.

Definition demo_bus (k : bdf) : option pci_desc := if decide (k = (0, 3, 0)) then Some demo_desc else None.

Definition demo_machine : pci_machine := {| pm_address := 0; pm_func := fun k => fd_func <$> demo_bus k |}.

Lemma demo_func_ok : func_ok demo_func.
Proof.
  split; [intros o; cbn; repeat case_match; lia|intros o; cbn; repeat case_match; lia|cbn; lia| | |reflexivity].
  { intros o Ho. unfold demo_func. cbn [pf_w1c]. by rewrite (proj2 (Z.eqb_neq o 4)). }
  assert (forallb (fun i => implb (Z.testbit 0xf9000000 i) ((16 <=? i) && negb (Z.testbit 7 i))) (seqZ 0 32) = true) as H by (vm_compute; reflexivity).
  rewrite forallb_forall in H. intros i Hi. specialize (H i ltac:(apply list_elem_of_In, elem_of_seqZ; lia)). change (pf_w1c demo_func 4) with 0xf9000000. change (pf_writable demo_func 4) with 7.
  intros E. rewrite E in H. cbn [implb] in H. apply andb_true_iff in H as [H1 H2]. apply Z.leb_le in H1. apply negb_true_iff in H2. done.
Qed.

Lemma demo_desc_ok : desc_ok demo_desc.
Proof.
  split; [exact demo_func_ok|vm_compute; discriminate| |]; intros _.
  - cbn [fd_bars demo_desc bars_from bar_at bar_width fd_func Nat.add]. split_and!; try (vm_compute; done); first [exists 5; split; [lia|reflexivity]|exists 12; split; [lia|reflexivity]|exists 14; split; [lia|reflexivity]].
  - vm_compute. repeat split; try done; lia.
Qed.

Lemma pci_scan_exact_witness : exists table s, enumerate_pci PCI_TABLE demo_machine = Done (table, s) /\
  take (pt_count table) (pt_devices table) = [device_of (0, 3, 0) demo_desc] /\
  pd_bars (device_of (0, 3, 0) demo_desc) = [0xc000; 0xfebd1000; 0; 0; 0x800000000; 0] /\ pd_msix_table_size (device_of (0, 3, 0) demo_desc) = 3.
Proof.
  destruct (pci_scan_exact demo_bus PCI_TABLE demo_machine) as (table & s & E & _ & H & _).
  - reflexivity.
  - intros k Hk. unfold demo_machine, has, pm_func. unfold demo_bus. destruct (decide (k = (0, 3, 0))) as [->|]; [|reflexivity].
    split; [exact demo_desc_ok|]. exists demo_func. split; reflexivity.
  - exists table, s. split; [exact E|]. rewrite H. split; [vm_compute; reflexivity|]. split; vm_compute; reflexivity.
Defined.

(** Sizing the registers of a function that recorded an aborted transaction loses the
    record: the write of the command register writes the status bits back. *)
Lemma decode_bars_clears_status : exists b s, decode_bars demo_machine (0, 3, 0) = Done (b, s) /\ Z.testbit (reg demo_machine (0, 3, 0) 4) 29 = true /\ Z.testbit (reg s (0, 3, 0) 4) 29 = false.
Proof. eexists _, _. split; [vm_compute; reflexivity|]. split; vm_compute; reflexivity. Qed.
