(* ===== verification/KernelMap.v ===== *)
(** * The kernel's own page tables (crates/paging/src/init.rs, table.rs)

    The tables that [PagingInit::init] builds before it loads CR3: the direct map of the
    physical memory the boot loader reports, the window of the APICs, the sections of the
    kernel image and the page of the AP trampoline.  What the tables translate is stated
    through the list of pages the code asks for, in order. *)

From Stdlib Require Import ZArith Lia.
From stdpp Require Import prelude list gmap.
From S2P Require Import Prelude Paging Frames PageTable.

Local Open Scope Z_scope.

(** ** What the boot loader and the linker say *)

Record LimineMemMapEntry := { mm_base : Z; mm_length : Z; mm_type : Z }.

Definition LIMINE_MEMMAP_USABLE : Z := 0.
Definition LIMINE_MEMMAP_ACPI_RECLAIMABLE : Z := 2.
Definition LIMINE_MEMMAP_BOOTLOADER_RECLAIMABLE : Z := 5.
Definition LIMINE_MEMMAP_EXECUTABLE_AND_MODULES : Z := 6.
Definition LIMINE_MEMMAP_FRAMEBUFFER : Z := 14.

(** The start and end symbols of the sections of the image. *)
Record sections := { ks_text : Z * Z; ks_rodata : Z * Z; ks_data : Z * Z; ks_bss : Z * Z }.

Definition KM_DIRECT_MAP_BASE : Z := 0xffff800000000000.
Definition KERNEL_BASE : Z := 0xffffffff80000000.
Definition AP_TRAMPOLINE_PHYS : Z := 0x8000.

(** ** Building the tables *)

Section Build.
Context {A : Type} `{FrameAllocator A}.

(** A [while phys < end] loop that adds [step]; the fuel is one round more than the range
    has steps. *)
Fixpoint map_range (fuel : nat) (step : Z) (body : pt_state A -> Z -> outcome (pt_state A)) (s : pt_state A) (phys end_ : Z) : outcome (pt_state A) :=
  match fuel with
  | O => Panic
  | S n => if phys <? end_ then s ← body s phys; map_range n step body s (PhysAddr_add phys step) end_ else Done s
  end.

Definition range_fuel (step phys end_ : Z) : nat := S (S (Z.to_nat ((end_ - phys) / step))).

(** [PageTableBuilder::new] *)
Definition PageTableBuilder_new (s : pt_state A) : outcome (Z * pt_state A) :=
  '(pml4_frame, a) ← expect (fa_alloc_frame (pt_alloc s));
  let root := PhysAddr_new pml4_frame in
  Done (root, {| tabs := <[root := PageTable_zero]> (tabs s); pt_alloc := a |}).

Section Builder.
Context (root : Z).

Definition map_region_4k (s : pt_state A) (phys_start phys_end flags : Z) : outcome (pt_state A) :=
  let phys := PhysAddr_align_down_4k phys_start in
  let end_ := PhysAddr_align_up_4k phys_end in
  map_range (range_fuel 4096 phys end_) 4096 (fun s phys => map_page_internal s root (wrap64 (KM_DIRECT_MAP_BASE + phys)) phys flags) s phys end_.

Definition map_huge_page_2m (s : pt_state A) (virt phys flags : Z) : outcome (pt_state A) := map_huge_2m s root virt phys flags.

(** The 1 GiB page falls back to one 2 MiB page. *)
Definition map_huge_page_1g (s : pt_state A) (virt phys flags : Z) : outcome (pt_state A) := map_huge_page_2m s virt phys flags.

Definition map_region_2m (s : pt_state A) (phys_start phys_end flags : Z) : outcome (pt_state A) :=
  let aligned_start := PhysAddr_align_up_2m phys_start in
  let aligned_end := PhysAddr_align_down_2m phys_end in
  s ← (if aligned_start <? aligned_end
       then map_range (range_fuel 0x200000 aligned_start aligned_end) 0x200000
              (fun s phys => map_huge_page_2m s (wrap64 (KM_DIRECT_MAP_BASE + phys)) phys flags) s aligned_start aligned_end
       else Done s);
  s ← (if phys_start <? aligned_start then map_region_4k s phys_start aligned_start flags else Done s);
  if aligned_end <? phys_end then map_region_4k s aligned_end phys_end flags else Done s.

Definition mappable (mem_type : Z) : bool :=
  (mem_type =? LIMINE_MEMMAP_USABLE) || (mem_type =? LIMINE_MEMMAP_BOOTLOADER_RECLAIMABLE) || (mem_type =? LIMINE_MEMMAP_ACPI_RECLAIMABLE) ||
  (mem_type =? LIMINE_MEMMAP_EXECUTABLE_AND_MODULES) || (mem_type =? LIMINE_MEMMAP_FRAMEBUFFER).

Definition ram_flags : Z := with_no_execute (with_global (with_writable (with_present PageFlags_new))).
Definition mmio_flags : Z := with_no_execute (with_write_through (with_global (with_writable (with_present PageFlags_new)))).

(** One round of [map_direct_memory]. *)
Definition map_entry (s : pt_state A) (entry : LimineMemMapEntry) : outcome (pt_state A) :=
  if negb (mappable (mm_type entry)) then Done s
  else
    let phys_start := PhysAddr_new (mm_base entry) in
    let phys_end := PhysAddr_new (wrap64 (mm_base entry + mm_length entry)) in
    let flags := if mm_type entry =? LIMINE_MEMMAP_FRAMEBUFFER then mmio_flags else ram_flags in
    let aligned_start_1g := PhysAddr_align_up_1g phys_start in
    let aligned_end_1g := PhysAddr_align_down_1g phys_end in
    if aligned_start_1g <? aligned_end_1g then
      s ← map_range (range_fuel 0x40000000 aligned_start_1g aligned_end_1g) 0x40000000
            (fun s addr => map_huge_page_1g s (wrap64 (KM_DIRECT_MAP_BASE + addr)) addr flags) s aligned_start_1g aligned_end_1g;
      s ← (if phys_start <? aligned_start_1g then map_region_2m s phys_start aligned_start_1g flags else Done s);
      if aligned_end_1g <? phys_end then map_region_2m s aligned_end_1g phys_end flags else Done s
    else map_region_2m s phys_start phys_end flags.

Definition map_direct_memory (s : pt_state A) (memmap : list LimineMemMapEntry) : outcome (pt_state A) := foldM map_entry s memmap.

Definition map_apic_mmio (s : pt_state A) : outcome (pt_state A) := map_region_2m s (PhysAddr_new 0xFEC00000) (PhysAddr_new 0xFF000000) mmio_flags.

(** One section: the pages from its start, by steps of a page through its physical range. *)
Definition map_section (kernel_phys_base : Z) (s : pt_state A) (flags : Z) (sec : Z * Z) : outcome (pt_state A) :=
  let '(start, end_) := sec in
  let phys_start := PhysAddr_new (wrap64 (wrap64 (start - KERNEL_BASE) + kernel_phys_base)) in
  let len := wrap64 (phys_start + wrap64 (end_ - start)) - phys_start in
  foldM (fun s i => map_page_internal s root (wrap64 (wrap64 (i - kernel_phys_base) + KERNEL_BASE)) (PhysAddr_new i) flags) s
    ((fun k => phys_start + k * 4096) <$> seqZ 0 ((len + 4095) / 4096)).

Definition ktext_flags : Z := with_global (with_present PageFlags_new).
Definition krodata_flags : Z := with_no_execute (with_global (with_present PageFlags_new)).
Definition kdata_flags : Z := with_no_execute (with_global (with_writable (with_present PageFlags_new))).

Definition map_kernel_sections (kernel_phys_base : Z) (ks : sections) (s : pt_state A) : outcome (pt_state A) :=
  s ← map_section kernel_phys_base s ktext_flags (ks_text ks);
  s ← map_section kernel_phys_base s krodata_flags (ks_rodata ks);
  s ← map_section kernel_phys_base s kdata_flags (ks_data ks);
  map_section kernel_phys_base s kdata_flags (ks_bss ks).

Definition map_ap_trampoline_identity (s : pt_state A) : outcome (pt_state A) :=
  map_page_internal s root AP_TRAMPOLINE_PHYS (PhysAddr_new AP_TRAMPOLINE_PHYS) (with_global (with_writable (with_present PageFlags_new))).
End Builder.
End Build.
