(* ===== verification/KernelMapSpec.v ===== *)
(** * What the kernel's page tables translate

    The pages a table is asked for, as a list of leaves of 4 KiB and 2 MiB; the tables that
    such a list builds, how many frames they take, and what they translate; then the lists
    behind the direct map, the APIC window, the kernel image and the trampoline page. *)

From Stdlib Require Import ZArith Lia.
From stdpp Require Import prelude list gmap.
From S2P Require Import Prelude Paging Frames PageTable KernelMap.

Local Open Scope Z_scope.

(** ** Leaves *)

Record leaf := { lf_virt : Z; lf_phys : Z; lf_flags : Z; lf_huge : bool }.

(** The 2 MiB block of an address, within the 48 translated bits. *)
Definition vblock (v : Z) : Z := v mod 2 ^ 48 / 2 ^ 21.

Definition covers (l : leaf) (v : Z) : bool := if lf_huge l then vblock v =? vblock (lf_virt l) else vpage v =? vpage (lf_virt l).

(** The last leaf of a list that covers the address. *)
Definition hit (ls : list leaf) (v : Z) : option leaf := foldl (fun o l => if covers l v then Some l else o) None ls.

Definition leaf_pte (l : leaf) : Z := PageTableEntry_new_page (lf_phys l) (if lf_huge l then with_huge_page (lf_flags l) else lf_flags l).
Definition leaf_off (l : leaf) (v : Z) : Z := if lf_huge l then Z.land v 0x1FFFFF else VirtAddr_page_offset v.

(** The tables a leaf needs below the root. *)
Definition leaf_tables (l : leaf) : gset (list nat) :=
  let v := lf_virt l in {[ [ix4 v] ]} ∪ {[ [ix4 v; ix3 v] ]} ∪ (if lf_huge l then ∅ else {[ [ix4 v; ix3 v; ix2 v] ]}).
Definition tables_of (ls : list leaf) : gset (list nat) := ⋃ (leaf_tables <$> ls).

Record good_leaf (l : leaf) : Prop := {
  gl_flags : is_flags (lf_flags l);
  gl_present : Z.testbit (lf_flags l) 0 = true;
  gl_small : Z.testbit (lf_flags l) 7 = false;
  gl_phys : 0 <= lf_phys l < 2 ^ 48;
  gl_aligned : lf_phys l mod (if lf_huge l then 0x200000 else 4096) = 0
}.

(** No block is asked for both as one page and in small pages. *)
Definition uniform (ls : list leaf) : Prop := forall l l', l ∈ ls -> l' ∈ ls -> vblock (lf_virt l) = vblock (lf_virt l') -> lf_huge l = lf_huge l'.

Lemma hit_snoc ls l v : hit (ls ++ [l]) v = if covers l v then Some l else hit ls v.
Proof. unfold hit. by rewrite foldl_app. Qed.

Lemma hit_elem ls v l : hit ls v = Some l -> l ∈ ls /\ covers l v = true.
Proof.
  induction ls as [|x ls IH] using rev_ind; [done|]. rewrite hit_snoc. destruct (covers x v) eqn:E.
  - intros [= <-]. split; [set_solver|done].
  - intros Hh. destruct (IH Hh). split; [set_solver|done].
Qed.

Lemma hit_covered ls v l : l ∈ ls -> covers l v = true -> is_Some (hit ls v).
Proof.
  induction ls as [|x ls IH] using rev_ind; [by intros ?%elem_of_nil|]. rewrite hit_snoc. intros Hl Hc. destruct (covers x v) eqn:E; [done|].
  apply elem_of_app in Hl as [Hl|Hl]; [by apply IH|]. apply list_elem_of_singleton in Hl as ->. congruence.
Qed.

Lemma tables_of_snoc ls l : tables_of (ls ++ [l]) = tables_of ls ∪ leaf_tables l.
Proof. unfold tables_of. rewrite fmap_app, union_list_app_L. cbn. by rewrite (right_id_L ∅ (∪)). Qed.

Lemma elem_of_tables_of p ls : p ∈ tables_of ls <-> exists l, l ∈ ls /\ p ∈ leaf_tables l.
Proof. unfold tables_of. rewrite elem_of_union_list. setoid_rewrite list_elem_of_fmap. naive_solver. Qed.

(** The block of an address is its path through the first three levels. *)
Lemma vblock_indices v : vblock v = VirtAddr_pml4_index v * 2 ^ 18 + VirtAddr_pdpt_index v * 2 ^ 9 + VirtAddr_pd_index v.
Proof.
  unfold vblock, VirtAddr_pml4_index, VirtAddr_pdpt_index, VirtAddr_pd_index. masks. rewrite !Z.land_ones, !Z.shiftr_div_pow2 by lia.
  assert (v / 2 ^ 39 = v / 2 ^ 21 / 2 ^ 18) as -> by (by rewrite Z.div_div by lia).
  assert (v / 2 ^ 30 = v / 2 ^ 21 / 2 ^ 9) as -> by (by rewrite Z.div_div by lia).
  Z.div_mod_to_equations. lia.
Qed.

Lemma vblock_path v w : vblock v = vblock w <-> ix4 v = ix4 w /\ ix3 v = ix3 w /\ ix2 v = ix2 w.
Proof.
  pose proof (index_range v 39). pose proof (index_range v 30). pose proof (index_range v 21).
  pose proof (index_range w 39). pose proof (index_range w 30). pose proof (index_range w 21).
  rewrite !vblock_indices. unfold ix4, ix3, ix2, VirtAddr_pml4_index, VirtAddr_pdpt_index, VirtAddr_pd_index in *. lia.
Qed.

(** ** Tables *)

Section Tables.
Context {A : Type} `{FrameAllocatorLaws A}.
Context (root : Z) (F : nat).
Implicit Types (s : pt_state A) (P : gset (list nat)).

(** The tables below the root are those of [P], and the frames they took are counted. *)
Record holds_tables s P : Prop := {
  ht_wf : pt_wf s root;
  ht_giant i j e : pentry (tabs s) root [i] j = Some e -> is_huge_page e = false;
  ht_paths p : (length p <= 3)%nat -> is_Some (walk (tabs s) root p) <-> p = [] \/ p ∈ P;
  ht_frames : (F <= size (fa_free (pt_alloc s)) + size P)%nat
}.

(** An entry that is present is followed without an allocation. *)
Lemma ensure_present s pg g index user f : pt_wf s root -> (length pg <= 2)%nat -> walk (tabs s) root pg = Some g -> 0 <= index < 512 ->
  walk (tabs s) root (pg ++ [Z.to_nat index]) = Some f -> ensure_next_table s g index user = Done (f, s).
Proof.
  intros Hwf Hl Hg Hi. rewrite walk_app, Hg. cbn. unfold ensure_next_table. rewrite read_table_entry by done.
  destruct (entry_at (tabs s) g (Z.to_nat index)) as [e|]; [|done]. cbn. destruct (is_present e); [|done]. destruct (is_huge_page e); [done|]. by intros [= <-].
Qed.

Lemma walk_same s s' pg i p : (length p <= 4)%nat -> p <> pg ++ [i] ->
  (forall p j, (length p <= 3)%nat -> (p, j) <> (pg, i) -> pentry (tabs s') root p j = pentry (tabs s) root p j) ->
  walk (tabs s') root p = walk (tabs s) root p.
Proof.
  intros Hl Hn He. destruct p as [|j p _] using rev_ind; [done|]. rewrite length_app in Hl. cbn in Hl. rewrite !walk_snoc.
  rewrite He; [done|lia|]. by intros [= -> ->].
Qed.

(** One [ensure_next_table]: the table is there afterwards, and no translation changes. *)
Lemma ensure_step s P pg g index : holds_tables s P -> (length pg <= 2)%nat -> walk (tabs s) root pg = Some g -> 0 <= index < 512 ->
  (forall e, pentry (tabs s) root pg (Z.to_nat index) = Some e -> is_huge_page e = false) ->
  match ensure_next_table s g index false with
  | Done (n, s') => holds_tables s' (P ∪ {[pg ++ [Z.to_nat index]]}) /\ walk (tabs s') root (pg ++ [Z.to_nat index]) = Some n /\
      (forall w, mapping (tabs s') root w = mapping (tabs s) root w) /\
      (forall p j, (length p <= 3)%nat -> (p, j) <> (pg, Z.to_nat index) -> pentry (tabs s') root p j = pentry (tabs s) root p j)
  | Panic => (F < size (P ∪ {[pg ++ [Z.to_nat index]]}))%nat
  end.
Proof.
  intros [Hwf Hgi Hp Hf] Hl Hg Hi Hh. set (i := Z.to_nat index) in *. destruct (walk (tabs s) root (pg ++ [i])) as [f|] eqn:Hw.
  { rewrite (ensure_present s pg g index false f) by done. assert (pg ++ [i] ∈ P) as Hin.
    { destruct (proj1 (Hp (pg ++ [i]) ltac:(rewrite length_app; cbn; lia))) as [?|?]; [by rewrite Hw|by destruct pg|done]. }
    assert (P ∪ {[pg ++ [i]]} = P) as -> by set_solver. by split_and!. }
  assert (pg ++ [i] ∉ P) as Hnin.
  { intros Hin. destruct (proj2 (Hp (pg ++ [i]) ltac:(rewrite length_app; cbn; lia)) (or_intror Hin)) as [? ?]. congruence. }
  assert (size (P ∪ {[pg ++ [i]]}) = S (size P)) as Hsz by (rewrite size_union by set_solver; rewrite size_singleton; lia).
  pose proof (ensure_next_table_spec s root pg g index false Hwf Hl Hg Hi Hh) as Hpost. fold i in Hpost.
  destruct (ensure_next_table s g index false) as [[n s']|] eqn:E; [|cbn in Hpost; rewrite Hpost, size_empty in Hf; rewrite Hsz; lia].
  pose proof (fun w => ensure_mapping s root pg i n s' w Hl Hpost) as Hm. destruct Hpost as (Hwf' & Hw' & _ & Hc & Heq & Habs).
  assert (pentry (tabs s) root pg i = None) as Hno.
  { destruct Habs as [?| ->]; [done|]. congruence. }
  split_and!; [|done|done|done]. split.
  - done.
  - intros a j e. destruct (decide (([a], j) = (pg, i))) as [[= <- ->]|Hne]; [|rewrite Heq by (done || cbn; lia); by apply Hgi].
    intros He. rewrite walk_snoc, He in Hw'. cbn in Hw'. by destruct (is_huge_page e).
  - intros p Hlp. rewrite elem_of_union, elem_of_singleton. destruct (decide (p = pg ++ [i])) as [->|Hne].
    + split; [by right; right|]. intros _. by rewrite Hw'.
    + rewrite (walk_same s s' pg i p) by (done || lia). rewrite Hp by done. naive_solver.
  - rewrite Hsz. lia.
Qed.

Lemma walk_to_pd_step s P v : holds_tables s P ->
  match walk_to_pd s root v with
  | Done (pd, s') => holds_tables s' (P ∪ {[ [ix4 v] ]} ∪ {[ [ix4 v; ix3 v] ]}) /\ walk (tabs s') root [ix4 v; ix3 v] = Some pd /\
      (forall w, mapping (tabs s') root w = mapping (tabs s) root w) /\
      (forall p j, (2 <= length p <= 3)%nat -> pentry (tabs s') root p j = pentry (tabs s) root p j)
  | Panic => (F < size (P ∪ {[ [ix4 v] ]} ∪ {[ [ix4 v; ix3 v] ]}))%nat
  end.
Proof.
  intros Hs. unfold walk_to_pd.
  pose proof (ensure_step s P [] root (VirtAddr_pml4_index v) Hs ltac:(cbn; lia) eq_refl (index_range v 39) ltac:(intros e; apply top_not_huge, Hs)) as H1.
  destruct (ensure_next_table s root _ false) as [[pdpt s1]|]; run; fold (ix4 v) in H1; cbn [app] in H1.
  2:{ eapply Nat.lt_le_trans; [exact H1|]. apply subseteq_size. set_solver. }
  destruct H1 as (Hs1 & Hw1 & Hm1 & Hp1).
  pose proof (ensure_step s1 _ [ix4 v] pdpt (VirtAddr_pdpt_index v) Hs1 ltac:(cbn; lia) Hw1 (index_range v 30) ltac:(intros e; apply (ht_giant _ _ Hs1))) as H2.
  destruct (ensure_next_table s1 pdpt _ false) as [[pd s2]|]; fold (ix3 v) in H2; cbn [app] in H2; [|done].
  destruct H2 as (Hs2 & Hw2 & Hm2 & Hp2). split_and!; [done|done|intros w; by rewrite Hm2, Hm1|].
  intros p j Hl. rewrite Hp2, Hp1; [done|lia|by intros [= -> _]; cbn in Hl; lia|lia|by intros [= -> _]; cbn in Hl; lia].
Qed.

(** Writing a leaf into the table of a block keeps the tables. *)
Lemma leaf_write s P v pt e : holds_tables s P -> walk (tabs s) root [ix4 v; ix3 v; ix2 v] = Some pt -> is_present e = true ->
  exists s', write_table s pt (VirtAddr_pt_index v) e = Done s' /\ holds_tables s' P /\
    forall w, mapping (tabs s') root w = if decide (vpage w = vpage v) then Some (e, VirtAddr_page_offset w) else mapping (tabs s) root w.
Proof.
  intros [Hwf Hgi Hp Hf] Hw He. destruct (write_leaf_mapping s root v pt e Hwf Hw He) as (s' & E & Hwf' & Ha & Hm). exists s'. split_and!; [done| |done].
  destruct (wf_table _ _ Hwf [ix4 v; ix3 v; ix2 v] pt ltac:(simpl; lia) Hw) as (t & Ht & _).
  rewrite (write_table_set s pt (VirtAddr_pt_index v) e t (index_range v 12) Ht) in E. injection E as <-.
  destruct (leaf_set s root [ix4 v; ix3 v; ix2 v] pt (Z.to_nat (VirtAddr_pt_index v)) e Hwf eq_refl Hw) as [_ Hpe].
  { unfold ENTRIES. pose proof (index_range v 12). unfold VirtAddr_pt_index. lia. }
  split; [done| | |done].
  - intros i j e'. rewrite Hpe by (cbn; lia). rewrite decide_False by done. apply Hgi.
  - intros p Hl. rewrite (walk_same s _ [ix4 v; ix3 v; ix2 v] (Z.to_nat (VirtAddr_pt_index v)) p); [by apply Hp|lia|intros ->; cbn in Hl; lia|].
    intros p' j Hl' Hne. rewrite Hpe by done. by rewrite decide_False.
Qed.

Lemma walk_blocked tb p i : (forall e, pentry tb root p i = Some e -> is_huge_page e = true) -> walk tb root (p ++ [i]) = None.
Proof. intros Hb. rewrite walk_snoc. destruct (pentry tb root p i) as [e|]; [|done]. cbn [mbind option_bind]. by rewrite (Hb e eq_refl). Qed.

(** An entry of a page directory that maps a block: no table is below it, before or after. *)
Lemma block_set s v pd e : pt_wf s root -> walk (tabs s) root [ix4 v; ix3 v] = Some pd -> is_present e = true -> is_huge_page e = true ->
  (forall e', pentry (tabs s) root [ix4 v; ix3 v] (ix2 v) = Some e' -> is_huge_page e' = true) ->
  forall p j, (length p <= 3)%nat -> pentry (set_entry (tabs s) pd (ix2 v) e) root p j =
    if decide ((p, j) = ([ix4 v; ix3 v], ix2 v)) then Some e else pentry (tabs s) root p j.
Proof.
  intros Hwf Hw Hp Hh Hb. set (pg := [ix4 v; ix3 v]) in *.
  assert (pentry (set_entry (tabs s) pd (ix2 v) e) root pg (ix2 v) = Some e) as Hself.
  { unfold pentry. rewrite (walk_set_frame s root pg pd (ix2 v) e [] root pg); [|done|cbn; lia|done|done|cbn; lia|intros Hpre%prefix_length; rewrite length_app in Hpre; cbn in Hpre; lia].
    rewrite Hw. destruct (wf_table _ _ Hwf pg pd ltac:(cbn; lia) Hw) as (t & Ht & Hlt). cbn [mbind option_bind].
    rewrite (entry_at_set_eq (tabs s) pd (ix2 v) e t Ht); [cbn; by rewrite Hp|]. rewrite Hlt. unfold ix2, ENTRIES. pose proof (index_range v 21). unfold VirtAddr_pd_index. lia. }
  intros p j Hl. destruct (decide _) as [[= -> ->]|Hne]; [done|]. destruct (decide (p = pg ++ [ix2 v])) as [->|Hnp].
  - assert (walk (set_entry (tabs s) pd (ix2 v) e) root (pg ++ [ix2 v]) = None) as Hn1 by (apply walk_blocked; rewrite Hself; by intros e' [= <-]).
    unfold pentry. by rewrite Hn1, (walk_blocked _ _ _ Hb).
  - apply (pentry_set_frame s root pg pd (ix2 v) e p j); [done|cbn; lia|done|done| |done].
    intros [r ->]. rewrite length_app in Hl. destruct r as [|x r]; [by rewrite app_nil_r in Hnp|cbn in Hl; lia].
Qed.

Lemma block_wf s v pd e : pt_wf s root -> walk (tabs s) root [ix4 v; ix3 v] = Some pd -> is_present e = true -> is_huge_page e = true ->
  (forall e', pentry (tabs s) root [ix4 v; ix3 v] (ix2 v) = Some e' -> is_huge_page e' = true) ->
  let s' := {| tabs := set_entry (tabs s) pd (ix2 v) e; pt_alloc := pt_alloc s |} in
  pt_wf s' root /\ forall p, (length p <= 4)%nat -> walk (tabs s') root p = walk (tabs s) root p.
Proof.
  intros Hwf Hw Hp Hh Hb s'. pose proof (block_set s v pd e Hwf Hw Hp Hh Hb) as Hpe.
  assert (forall p, (length p <= 4)%nat -> walk (tabs s') root p = walk (tabs s) root p) as Hwk.
  { intros p Hl. destruct (decide (p = [ix4 v; ix3 v] ++ [ix2 v])) as [->|Hne].
    - rewrite (walk_blocked _ _ _ Hb). apply walk_blocked. unfold s'. cbn [tabs]. rewrite Hpe by (cbn; lia). rewrite decide_True by done. by intros e' [= <-].
    - apply (walk_same s s' [ix4 v; ix3 v] (ix2 v)); [done|done|]. intros p' j Hl' Hn. unfold s'. cbn [tabs]. rewrite Hpe by done. by rewrite decide_False. }
  assert (pd <> root) as Hgr.
  { intros ->. pose proof (wf_tree _ _ Hwf [ix4 v; ix3 v] [] root ltac:(cbn; lia) ltac:(cbn; lia) Hw eq_refl). done. }
  split; [|done]. constructor; cbn [pt_alloc s'].
  - apply Hwf.
  - intros p f Hl Hf. rewrite Hwk in Hf by lia. destruct (wf_table _ _ Hwf p f Hl Hf) as (t & Ht & Hlt). unfold s'; cbn [tabs]; unfold set_entry.
    destruct (decide (f = pd)) as [->|]; [rewrite lookup_alter_eq, Ht; eexists; split; [done|]; by rewrite length_insert|rewrite lookup_alter_ne by done; eauto].
  - intros p q f Hl Hq. rewrite !Hwk by lia. by apply wf_tree.
  - intros p f Hl. rewrite Hwk by lia. by apply wf_live.
  - intros j e'. unfold s'. cbn [tabs]. rewrite entry_at_set_ne by congruence. apply (wf_top _ _ Hwf).
Qed.

Lemma block_write s P v pd e : holds_tables s P -> walk (tabs s) root [ix4 v; ix3 v] = Some pd -> is_present e = true -> is_huge_page e = true ->
  (forall e', pentry (tabs s) root [ix4 v; ix3 v] (ix2 v) = Some e' -> is_huge_page e' = true) ->
  exists s', write_table s pd (VirtAddr_pd_index v) e = Done s' /\ holds_tables s' P /\
    forall w, mapping (tabs s') root w = if decide (vblock w = vblock v) then Some (e, Z.land w 0x1FFFFF) else mapping (tabs s) root w.
Proof.
  intros [Hwf Hgi Hp Hf] Hw He Hh Hb. destruct (wf_table _ _ Hwf [ix4 v; ix3 v] pd ltac:(cbn; lia) Hw) as (t & Ht & _).
  rewrite (write_table_set s pd (VirtAddr_pd_index v) e t (index_range v 21) Ht). fold (ix2 v). eexists. split; [done|].
  destruct (block_wf s v pd e Hwf Hw He Hh Hb) as [Hwf' Hwk]. pose proof (block_set s v pd e Hwf Hw He Hh Hb) as Hpe. split.
  - split; [done| | |done].
    + intros i j e'. cbn [tabs]. rewrite Hpe by (cbn; lia). rewrite decide_False by done. apply Hgi.
    + intros p Hl. rewrite Hwk by lia. by apply Hp.
  - intros w. cbn [tabs]. unfold mapping. rewrite !Hpe by (cbn; lia).
    rewrite (decide_False (P := ([], ix4 w) = _)), (decide_False (P := ([ix4 w], ix3 w) = _)), (decide_False (P := ([ix4 w; ix3 w; ix2 w], ix1 w) = _)) by done.
    destruct (decide (vblock w = vblock v)) as [(H4 & H3 & H2)%vblock_path|Hne].
    + rewrite H4, H3, H2, decide_True by done. change [ix4 v; ix3 v] with ([ix4 v] ++ [ix3 v]) in Hw. rewrite walk_snoc in Hw.
      destruct (pentry (tabs s) root [ix4 v] (ix3 v)) as [e3|] eqn:E3; [|done]. cbn in Hw. destruct (is_huge_page e3) eqn:Hh3; [done|].
      pose proof E3 as E3'. unfold pentry in E3'. change [ix4 v] with ([] ++ [ix4 v]) in E3'. rewrite walk_snoc in E3'.
      destruct (pentry (tabs s) root [] (ix4 v)) as [e4|]; [|done]. cbn. by rewrite Hh3, Hh.
    + rewrite decide_False; [done|]. intros [= E4 E3 E2]. apply Hne. by apply vblock_path.
Qed.

(** ** Lists of leaves *)

Definition map_leaf s (l : leaf) : outcome (pt_state A) :=
  if lf_huge l then map_huge_2m s root (lf_virt l) (lf_phys l) (lf_flags l) else map_page_internal s root (lf_virt l) (lf_phys l) (lf_flags l).

(** The tables translate by the last leaf that covers an address, and only so. *)
Record maps s (ls : list leaf) : Prop := {
  mp_tables : holds_tables s (tables_of ls);
  mp_map v : mapping (tabs s) root v = (fun l => (leaf_pte l, leaf_off l v)) <$> hit ls v
}.

Lemma leaf_pte_bits l : good_leaf l -> is_present (leaf_pte l) = true /\ is_huge_page (leaf_pte l) = lf_huge l.
Proof.
  intros [Hf Hp Hs _ _]. unfold leaf_pte. rewrite is_present_bit, is_huge_bit, !new_page_bits by lia. change ((12 <=? 0) && (0 <? 48)) with false. change ((12 <=? 7) && (7 <? 48)) with false.
  rewrite !andb_false_l, !orb_false_r. destruct (lf_huge l); [|done]. unfold with_huge_page. rewrite !Z.lor_spec, Hp, Hs. done.
Qed.

Lemma map_huge_step s ls l : maps s ls -> good_leaf l -> uniform (ls ++ [l]) -> lf_huge l = true ->
  match map_leaf s l with Done s' => maps s' (ls ++ [l]) | Panic => (F < size (tables_of (ls ++ [l])))%nat end.
Proof.
  intros [Ht Hm] Hg Hu Hh. unfold map_leaf, map_huge_2m. rewrite Hh, tables_of_snoc. destruct (leaf_pte_bits l Hg) as [Hp Hb]. rewrite Hh in Hb.
  assert (tables_of ls ∪ leaf_tables l = tables_of ls ∪ {[ [ix4 (lf_virt l)] ]} ∪ {[ [ix4 (lf_virt l); ix3 (lf_virt l)] ]}) as Hset by (unfold leaf_tables; rewrite Hh; set_solver).
  rewrite Hset. pose proof (walk_to_pd_step s (tables_of ls) (lf_virt l) Ht) as Hw. destruct (walk_to_pd s root (lf_virt l)) as [[pd s1]|]; run; [|done].
  destruct Hw as (H1 & W1 & M1 & P1).
  destruct (block_write s1 _ (lf_virt l) pd (leaf_pte l) H1 W1 Hp Hb) as (s2 & E & H2 & M2).
  - intros e He. rewrite P1 in He by (cbn; lia). destruct (is_huge_page e) eqn:Hhe; [done|]. exfalso.
    assert (is_Some (walk (tabs s) root ([ix4 (lf_virt l); ix3 (lf_virt l)] ++ [ix2 (lf_virt l)]))) as Hs by (rewrite (walk_next _ _ _ _ e) by done; done).
    apply (ht_paths _ _ Ht) in Hs as [Hs|Hs]; [done| |cbn; lia]. apply elem_of_tables_of in Hs as (l' & Hl' & Hs). unfold leaf_tables in Hs.
    destruct (lf_huge l') eqn:Hh'; [set_solver|]. assert (vblock (lf_virt l) = vblock (lf_virt l')) as Hv by (apply vblock_path; set_solver).
    pose proof (Hu l l' ltac:(set_solver) ltac:(set_solver) Hv). congruence.
  - unfold leaf_pte in E. rewrite Hh in E. rewrite E. split; [by rewrite tables_of_snoc, Hset|]. intros w. rewrite M2, M1, Hm, hit_snoc. unfold covers. rewrite Hh.
    destruct (decide (vblock w = vblock (lf_virt l))) as [->|Hne]; [rewrite Z.eqb_refl; cbn; by unfold leaf_off; rewrite Hh|by rewrite (proj2 (Z.eqb_neq _ _) Hne)].
Qed.

Lemma mapping_block s v e : pentry (tabs s) root [ix4 v; ix3 v] (ix2 v) = Some e -> is_huge_page e = true -> mapping (tabs s) root v = Some (e, Z.land v 0x1FFFFF).
Proof.
  intros He Hh. pose proof He as Hw. unfold pentry in Hw at 1. change [ix4 v; ix3 v] with ([ix4 v] ++ [ix3 v]) in Hw. rewrite walk_snoc in Hw.
  destruct (pentry (tabs s) root [ix4 v] (ix3 v)) as [e3|] eqn:E3; [|done]. cbn [mbind option_bind] in Hw. destruct (is_huge_page e3) eqn:Hh3; [done|].
  pose proof E3 as W3. unfold pentry in W3 at 1. change [ix4 v] with ([] ++ [ix4 v]) in W3. rewrite walk_snoc in W3.
  destruct (pentry (tabs s) root [] (ix4 v)) as [e4|] eqn:E4; [|done]. unfold mapping. rewrite E4, E3. cbn [mbind option_bind]. rewrite Hh3, He. cbn [mbind option_bind]. by rewrite Hh.
Qed.

Lemma map_page_step s ls l : maps s ls -> Forall good_leaf ls -> good_leaf l -> uniform (ls ++ [l]) -> lf_huge l = false ->
  match map_leaf s l with Done s' => maps s' (ls ++ [l]) | Panic => (F < size (tables_of (ls ++ [l])))%nat end.
Proof.
  intros [Ht Hm] Hgs Hg Hu Hh. unfold map_leaf, map_page_internal. rewrite Hh, tables_of_snoc. destruct (leaf_pte_bits l Hg) as [Hp Hb]. set (v := lf_virt l) in *.
  assert (tables_of ls ∪ leaf_tables l = tables_of ls ∪ {[ [ix4 v] ]} ∪ {[ [ix4 v; ix3 v] ]} ∪ {[ [ix4 v; ix3 v; ix2 v] ]}) as Hset by (unfold leaf_tables; rewrite Hh; set_solver).
  rewrite Hset. pose proof (walk_to_pd_step s (tables_of ls) v Ht) as Hw. destruct (walk_to_pd s root v) as [[pd s1]|]; run.
  2:{ eapply Nat.lt_le_trans; [exact Hw|]. apply subseteq_size. set_solver. }
  destruct Hw as (H1 & W1 & M1 & P1).
  pose proof (ensure_step s1 _ [ix4 v; ix3 v] pd (VirtAddr_pd_index v) H1 ltac:(cbn; lia) W1 (index_range v 21)) as H2. fold (ix2 v) in H2. cbn [app] in H2.
  assert (forall e, pentry (tabs s1) root [ix4 v; ix3 v] (ix2 v) = Some e -> is_huge_page e = false) as Hnh.
  { intros e He. rewrite P1 in He by (cbn; lia). destruct (is_huge_page e) eqn:Hhe; [|done]. exfalso. pose proof (mapping_block s v e He Hhe) as Hmv. rewrite Hm in Hmv.
    destruct (hit ls v) as [l'|] eqn:El; [|done]. injection Hmv as <- _. destruct (hit_elem _ _ _ El) as [Hl' Hc].
    rewrite (proj2 (leaf_pte_bits l' (proj1 (Forall_forall _ _) Hgs l' Hl'))) in Hhe. unfold covers in Hc. rewrite Hhe in Hc. apply Z.eqb_eq in Hc.
    pose proof (Hu l l' ltac:(set_solver) ltac:(set_solver) Hc). congruence. }
  specialize (H2 Hnh). destruct (ensure_next_table s1 pd (VirtAddr_pd_index v) false) as [[pt s2]|]; run; [|done]. destruct H2 as (H2 & W2 & M2 & _).
  destruct (leaf_write s2 _ v pt (leaf_pte l) H2 W2 Hp) as (s3 & E & H3 & M3). unfold leaf_pte in E. rewrite Hh in E. rewrite E.
  split; [by rewrite tables_of_snoc, Hset|]. intros w. rewrite M3, M2, M1, Hm, hit_snoc. unfold covers. rewrite Hh. fold v.
  destruct (decide (vpage w = vpage v)) as [->|Hne]; [rewrite Z.eqb_refl; cbn; by unfold leaf_off; rewrite Hh|by rewrite (proj2 (Z.eqb_neq _ _) Hne)].
Qed.

Lemma map_leaf_step s ls l : maps s ls -> Forall good_leaf ls -> good_leaf l -> uniform (ls ++ [l]) ->
  match map_leaf s l with Done s' => maps s' (ls ++ [l]) | Panic => (F < size (tables_of (ls ++ [l])))%nat end.
Proof. destruct (lf_huge l) eqn:Hh; intros; [by apply map_huge_step|by apply map_page_step]. Qed.

Lemma map_leaves_ok ls : forall s past, maps s past -> Forall good_leaf (past ++ ls) -> uniform (past ++ ls) -> (size (tables_of (past ++ ls)) <= F)%nat ->
  exists s', foldM map_leaf s ls = Done s' /\ maps s' (past ++ ls).
Proof.
  induction ls as [|l ls IH]; intros s past Hs Hg Hu HF; cbn [foldM]; [exists s; by rewrite app_nil_r|].
  change (l :: ls) with ([l] ++ ls) in *. rewrite (assoc_L (++)) in Hg, Hu, HF |- *.
  apply Forall_app in Hg as Hg'. destruct Hg' as [Hg1 _]. apply Forall_app in Hg1 as [Hgp Hgl]. rewrite Forall_singleton in Hgl.
  pose proof (map_leaf_step s past l Hs Hgp Hgl ltac:(intros x y Hx Hy; apply Hu; set_solver)) as Hm.
  destruct (map_leaf s l) as [s1|]; run; [by apply IH|]. exfalso. apply (Nat.lt_irrefl F). eapply Nat.lt_le_trans; [exact Hm|]. etrans; [|exact HF].
  apply subseteq_size. intros p. rewrite !elem_of_tables_of. intros (x & Hx & Hp). exists x. split; [apply elem_of_app; by left|done].
Qed.
End Tables.

(** ** Ranges *)

Definition dn (k a : Z) : Z := a / k * k.
Definition up (k a : Z) : Z := (a + k - 1) / k * k.

(** Physical addresses below 2 ^ 47, where sums stay in the 52 bits of an address. *)
Definition is_phys (a : Z) : Prop := 0 <= a <= 2 ^ 47.

Lemma align_down_dn a : is_phys a -> PhysAddr_align_down_4k a = dn 4096 a /\ PhysAddr_align_down_2m a = dn 0x200000 a /\ PhysAddr_align_down_1g a = dn 0x40000000 a.
Proof.
  unfold is_phys, dn, PhysAddr_align_down_4k, PhysAddr_align_down_2m, PhysAddr_align_down_1g. intros Ha. masks.
  rewrite !land_not_ones by (unfold is_u64; lia). change (2 ^ 12) with 4096. change (2 ^ 21) with 0x200000. change (2 ^ 30) with 0x40000000. Z.div_mod_to_equations. lia.
Qed.

Lemma align_up_up a : is_phys a -> PhysAddr_align_up_4k a = up 4096 a /\ PhysAddr_align_up_2m a = up 0x200000 a /\ PhysAddr_align_up_1g a = up 0x40000000 a.
Proof.
  unfold is_phys, up, PhysAddr_align_up_4k, PhysAddr_align_up_2m, PhysAddr_align_up_1g. intros Ha.
  rewrite !wrap64_small by (unfold is_u64; lia).
  replace (not64 0xFFF) with (not64 (Z.ones 12)) by done. replace (not64 0x1FFFFF) with (not64 (Z.ones 21)) by done. replace (not64 0x3FFFFFFF) with (not64 (Z.ones 30)) by done.
  rewrite !land_not_ones by (unfold is_u64; lia). change (2 ^ 12) with 4096. change (2 ^ 21) with 0x200000. change (2 ^ 30) with 0x40000000. Z.div_mod_to_equations. lia.
Qed.

Lemma PhysAddr_new_id a : is_phys a -> PhysAddr_new a = a.
Proof. unfold is_phys, PhysAddr_new. intros Ha. masks. rewrite Z.land_ones by lia. apply Z.mod_small. lia. Qed.

Definition range_list (start end_ step : Z) : list Z := (fun i => start + i * step) <$> seqZ 0 ((end_ - start + step - 1) / step).

Lemma elem_of_range_list x start end_ step : 0 < step -> x ∈ range_list start end_ step <-> start <= x < end_ /\ (x - start) mod step = 0.
Proof.
  intros Hs. unfold range_list. rewrite list_elem_of_fmap. setoid_rewrite elem_of_seqZ. split.
  - intros (i & -> & Hi). replace (start + i * step - start) with (i * step) by lia. rewrite Z.mod_mul by lia. split; [|done].
    assert (i + 1 <= (end_ - start + step - 1) / step) by lia. assert ((i + 1) * step <= end_ - start + step - 1) by (Z.div_mod_to_equations; nia). nia.
  - intros [Hx Hm]. exists ((x - start) / step). split; [Z.div_mod_to_equations; lia|]. split; [apply Z.div_pos; lia|]. rewrite Z.add_0_l.
    Z.div_mod_to_equations. nia.
Qed.

Section Loops.
Context {A : Type} `{FrameAllocatorLaws A}.
Implicit Types (s : pt_state A).

Lemma range_list_step start end_ step : 0 < step -> start < end_ -> range_list start end_ step = start :: range_list (start + step) end_ step.
Proof.
  intros Hs Hl. unfold range_list. replace (end_ - start + step - 1) with (end_ - (start + step) + step - 1 + 1 * step) by lia. rewrite Z.div_add by lia.
  assert (0 <= (end_ - (start + step) + step - 1) / step) by (apply Z.div_pos; lia).
  rewrite seqZ_cons by lia. cbn [fmap list_fmap]. f_equal; [lia|]. replace (Z.pred _) with ((end_ - (start + step) + step - 1) / step) by lia.
  apply list_eq. intros i. rewrite !list_lookup_fmap. destruct (decide (Z.of_nat i < (end_ - (start + step) + step - 1) / step)).
  - rewrite !lookup_seqZ_lt by lia. cbn. f_equal. lia.
  - by rewrite !lookup_seqZ_ge by lia.
Qed.

Lemma range_list_nil start end_ step : 0 < step -> end_ <= start -> range_list start end_ step = [].
Proof. intros Hs Hl. unfold range_list. rewrite seqZ_nil; [done|]. pose proof (Z.div_lt_upper_bound (end_ - start + step - 1) step 1). lia. Qed.

Lemma map_range_list (body : pt_state A -> Z -> outcome (pt_state A)) step end_ : 0 < step <= 2 ^ 30 -> is_phys end_ ->
  forall n s phys, 0 <= phys -> (end_ - phys) / step + 1 < Z.of_nat n -> (0 < n)%nat -> map_range n step body s phys end_ = foldM body s (range_list phys end_ step).
Proof.
  unfold is_phys. intros Hs He. induction n as [|n IH]; intros s phys Hp Hn Hpos; [lia|]. cbn [map_range]. destruct (Z.ltb_spec phys end_) as [Hl|Hl].
  - rewrite (range_list_step phys) by lia. cbn [foldM]. destruct (body s phys) as [s'|]; run; [|done].
    assert (PhysAddr_add phys step = phys + step) as ->.
    { unfold PhysAddr_add. rewrite wrap64_small by (unfold is_u64; lia). unfold PhysAddr_new. masks. rewrite Z.land_ones by lia. apply Z.mod_small. lia. }
    replace (end_ - phys) with (end_ - (phys + step) + 1 * step) in Hn by lia. rewrite Z.div_add in Hn by lia.
    assert (-1 <= (end_ - (phys + step)) / step) by (apply Z.div_le_lower_bound; lia). apply IH; lia.
  - by rewrite range_list_nil by lia.
Qed.

Lemma map_range_run (body : pt_state A -> Z -> outcome (pt_state A)) s step phys end_ : 0 < step <= 2 ^ 30 -> is_phys end_ -> 0 <= phys ->
  map_range (range_fuel step phys end_) step body s phys end_ = foldM body s (range_list phys end_ step).
Proof. intros Hs He Hp. apply map_range_list; [done|done|done| |]; unfold range_fuel; lia. Qed.

(** ** The pages of each part *)

Definition direct_leaf (flags : Z) (huge : bool) (phys : Z) : leaf := {| lf_virt := wrap64 (KM_DIRECT_MAP_BASE + phys); lf_phys := phys; lf_flags := flags; lf_huge := huge |}.

Definition leaves_4k (start end_ flags : Z) : list leaf := direct_leaf flags false <$> range_list (dn 4096 start) (up 4096 end_) 4096.

Definition leaves_2m (start end_ flags : Z) : list leaf :=
  (direct_leaf flags true <$> range_list (up 0x200000 start) (dn 0x200000 end_) 0x200000) ++
  (if start <? up 0x200000 start then leaves_4k start (up 0x200000 start) flags else []) ++
  (if dn 0x200000 end_ <? end_ then leaves_4k (dn 0x200000 end_) end_ flags else []).

Definition entry_end (e : LimineMemMapEntry) : Z := mm_base e + mm_length e.

Definition entry_flags (e : LimineMemMapEntry) : Z := if mm_type e =? LIMINE_MEMMAP_FRAMEBUFFER then mmio_flags else ram_flags.

(** Does the entry hold a whole aligned GiB? *)
Definition has_gib (e : LimineMemMapEntry) : bool := up 0x40000000 (mm_base e) <? dn 0x40000000 (entry_end e).

Definition leaves_entry (e : LimineMemMapEntry) : list leaf :=
  if negb (mappable (mm_type e)) then []
  else if has_gib e then
    (direct_leaf (entry_flags e) true <$> range_list (up 0x40000000 (mm_base e)) (dn 0x40000000 (entry_end e)) 0x40000000) ++
    (if mm_base e <? up 0x40000000 (mm_base e) then leaves_2m (mm_base e) (up 0x40000000 (mm_base e)) (entry_flags e) else []) ++
    (if dn 0x40000000 (entry_end e) <? entry_end e then leaves_2m (dn 0x40000000 (entry_end e)) (entry_end e) (entry_flags e) else [])
  else leaves_2m (mm_base e) (entry_end e) (entry_flags e).

Definition section_leaf (kernel_phys_base flags start k : Z) : leaf :=
  {| lf_virt := start + k * 4096; lf_phys := start - KERNEL_BASE + kernel_phys_base + k * 4096; lf_flags := flags; lf_huge := false |}.

Definition leaves_section (kernel_phys_base flags : Z) (sec : Z * Z) : list leaf :=
  section_leaf kernel_phys_base flags sec.1 <$> seqZ 0 ((sec.2 - sec.1 + 4095) / 4096).

Definition trampoline_flags : Z := with_global (with_writable (with_present PageFlags_new)).
Definition trampoline_leaf : leaf := {| lf_virt := AP_TRAMPOLINE_PHYS; lf_phys := AP_TRAMPOLINE_PHYS; lf_flags := trampoline_flags; lf_huge := false |}.

Definition leaves_kernel (kernel_phys_base : Z) (ks : sections) : list leaf :=
  leaves_section kernel_phys_base ktext_flags (ks_text ks) ++ leaves_section kernel_phys_base krodata_flags (ks_rodata ks) ++
  leaves_section kernel_phys_base kdata_flags (ks_data ks) ++ leaves_section kernel_phys_base kdata_flags (ks_bss ks).

Definition leaves_all (memmap : list LimineMemMapEntry) (kernel_phys_base : Z) (ks : sections) : list leaf :=
  (memmap ≫= leaves_entry) ++ leaves_2m 0xFEC00000 0xFF000000 mmio_flags ++ leaves_kernel kernel_phys_base ks ++ [trampoline_leaf].

Lemma up_phys k a : is_phys a -> k = 4096 \/ k = 0x200000 \/ k = 0x40000000 -> is_phys (up k a) /\ a <= up k a /\ up k a mod k = 0.
Proof. unfold is_phys, up. intros Ha [->|[->| ->]]; rewrite Z.mod_mul by lia; (split; [|split; [|done]]); Z.div_mod_to_equations; lia. Qed.

Lemma dn_phys k a : is_phys a -> k = 4096 \/ k = 0x200000 \/ k = 0x40000000 -> is_phys (dn k a) /\ dn k a <= a /\ dn k a mod k = 0.
Proof. unfold is_phys, dn. intros Ha [->|[->| ->]]; rewrite Z.mod_mul by lia; (split; [|split; [|done]]); Z.div_mod_to_equations; lia. Qed.

Section Root.
Context (root : Z).

Lemma region_4k_leaves s start end_ flags : is_phys start -> is_phys end_ -> map_region_4k root s start end_ flags = foldM (map_leaf root) s (leaves_4k start end_ flags).
Proof.
  intros Hs He. unfold map_region_4k, leaves_4k. rewrite (proj1 (align_down_dn start Hs)), (proj1 (align_up_up end_ He)), foldM_fmap.
  apply map_range_run; [lia|by apply up_phys; auto|apply (dn_phys 4096 start Hs); auto].
Qed.

Lemma foldM_if {X} (f : pt_state A -> X -> outcome (pt_state A)) s (b : bool) l : foldM f s (if b then l else []) = if b then foldM f s l else Done s.
Proof. by destruct b. Qed.

Lemma region_2m_leaves s start end_ flags : is_phys start -> is_phys end_ -> map_region_2m root s start end_ flags = foldM (map_leaf root) s (leaves_2m start end_ flags).
Proof.
  intros Hs He. unfold map_region_2m, leaves_2m. rewrite (proj1 (proj2 (align_down_dn end_ He))), (proj1 (proj2 (align_up_up start Hs))).
  destruct (up_phys 0x200000 start Hs ltac:(auto)) as (U1 & U2 & _). destruct (dn_phys 0x200000 end_ He ltac:(auto)) as (D1 & D2 & _).
  rewrite !foldM_app, foldM_fmap. unfold map_huge_page_2m.
  assert ((if up 0x200000 start <? dn 0x200000 end_ then map_range (range_fuel 0x200000 (up 0x200000 start) (dn 0x200000 end_)) 0x200000
      (fun s phys => map_huge_2m s root (wrap64 (KM_DIRECT_MAP_BASE + phys)) phys flags) s (up 0x200000 start) (dn 0x200000 end_) else Done s) =
    foldM (fun s x => map_leaf root s (direct_leaf flags true x)) s (range_list (up 0x200000 start) (dn 0x200000 end_) 0x200000)) as ->.
  { destruct (Z.ltb_spec (up 0x200000 start) (dn 0x200000 end_)); [by apply map_range_run; [lia|done|unfold is_phys in *; lia]|by rewrite range_list_nil by lia]. }
  destruct (foldM _ s (range_list _ _ _)) as [s1|]; run; [|done]. rewrite foldM_app, !foldM_if. rewrite (region_4k_leaves s1) by done.
  destruct (if start <? up 0x200000 start then _ else _) as [s2|]; run; [|done]. by rewrite foldM_if, region_4k_leaves.
Qed.

Lemma entry_leaves s e : (mappable (mm_type e) = true -> is_phys (mm_base e) /\ is_phys (entry_end e)) -> map_entry root s e = foldM (map_leaf root) s (leaves_entry e).
Proof.
  intros Hm. unfold map_entry, leaves_entry, has_gib. destruct (mappable (mm_type e)); cbn [negb]; [|done]. destruct (Hm eq_refl) as [Hs He].
  fold (entry_end e). rewrite (wrap64_small (entry_end e)) by (unfold is_u64, is_phys in *; lia). rewrite !PhysAddr_new_id by done. fold (entry_flags e).
  rewrite (proj2 (proj2 (align_down_dn _ He))), (proj2 (proj2 (align_up_up _ Hs))).
  destruct (up_phys 0x40000000 _ Hs ltac:(auto)) as (U1 & U2 & _). destruct (dn_phys 0x40000000 _ He ltac:(auto)) as (D1 & D2 & _).
  destruct (Z.ltb_spec (up 0x40000000 (mm_base e)) (dn 0x40000000 (entry_end e))); [|by apply region_2m_leaves].
  rewrite map_range_run by (done || unfold is_phys in *; lia). rewrite foldM_app, foldM_fmap. unfold map_huge_page_1g, map_huge_page_2m.
  change (foldM (fun s addr => map_huge_2m s root (wrap64 (KM_DIRECT_MAP_BASE + addr)) addr (entry_flags e)) s) with (foldM (fun s x => map_leaf root s (direct_leaf (entry_flags e) true x)) s).
  destruct (foldM _ s (range_list _ _ _)) as [s1|]; run; [|done]. rewrite foldM_app, !foldM_if, !region_2m_leaves by done.
  destruct (if mm_base e <? _ then _ else _) as [s2|]; run; [|done]. by rewrite foldM_if, region_2m_leaves.
Qed.

Lemma direct_leaves memmap : forall s, Forall (fun e => mappable (mm_type e) = true -> is_phys (mm_base e) /\ is_phys (entry_end e)) memmap ->
  map_direct_memory root s memmap = foldM (map_leaf root) s (memmap ≫= leaves_entry).
Proof.
  unfold map_direct_memory. induction memmap as [|e l IH]; intros s Hf; [done|]. apply Forall_cons in Hf as [H1 Hf].
  rewrite bind_cons, foldM_app. cbn [foldM]. rewrite entry_leaves by done. destruct (foldM _ s (leaves_entry e)) as [s'|]; run; [by apply IH|done].
Qed.

(** A section lies in the image, from a page boundary on. *)
Record good_section (kernel_phys_base : Z) (sec : Z * Z) : Prop := {
  gs_range : KERNEL_BASE <= sec.1 /\ sec.1 <= sec.2 /\ sec.2 < KERNEL_BASE + 2 ^ 30;
  gs_aligned : sec.1 mod 4096 = 0;
  gs_base : kernel_phys_base mod 4096 = 0 /\ 0 <= kernel_phys_base < 2 ^ 46
}.

Lemma section_leaves kernel_phys_base s flags sec : good_section kernel_phys_base sec ->
  map_section root kernel_phys_base s flags sec = foldM (map_leaf root) s (leaves_section kernel_phys_base flags sec).
Proof.
  intros [Hr Ha Hb]. destruct sec as [start end_]. cbn [fst snd] in *. unfold map_section, leaves_section, KERNEL_BASE in *. cbn [fst snd].
  rewrite (wrap64_small (start - _)) by (unfold is_u64; lia). rewrite (wrap64_small (start - _ + _)) by (unfold is_u64; lia). rewrite PhysAddr_new_id by (unfold is_phys; lia).
  rewrite (wrap64_small (end_ - start)) by (unfold is_u64; lia). rewrite (wrap64_small (_ + (end_ - start))) by (unfold is_u64; lia).
  replace (start - 0xffffffff80000000 + kernel_phys_base + (end_ - start) - (start - 0xffffffff80000000 + kernel_phys_base)) with (end_ - start) by lia.
  rewrite !foldM_fmap. apply foldM_ext. intros s' k Hk. apply elem_of_seqZ in Hk. unfold map_leaf, section_leaf, KERNEL_BASE. cbn [lf_huge lf_virt lf_phys lf_flags].
  assert (k * 4096 < end_ - start) by (Z.div_mod_to_equations; lia).
  rewrite (wrap64_small (_ - kernel_phys_base)) by (unfold is_u64; lia). rewrite wrap64_small by (unfold is_u64; lia). rewrite PhysAddr_new_id by (unfold is_phys; lia).
  f_equal. lia.
Qed.

Lemma kernel_sections_leaves kernel_phys_base ks s : (forall sec, sec ∈ [ks_text ks; ks_rodata ks; ks_data ks; ks_bss ks] -> good_section kernel_phys_base sec) ->
  map_kernel_sections root kernel_phys_base ks s = foldM (map_leaf root) s (leaves_kernel kernel_phys_base ks).
Proof.
  intros Hg. unfold map_kernel_sections, leaves_kernel. rewrite foldM_app, section_leaves by (apply Hg; set_solver).
  destruct (foldM _ s _) as [s1|]; run; [|done]. rewrite foldM_app, section_leaves by (apply Hg; set_solver).
  destruct (foldM _ s1 _) as [s2|]; run; [|done]. rewrite foldM_app, section_leaves by (apply Hg; set_solver).
  destruct (foldM _ s2 _) as [s3|]; run; [|done]. apply section_leaves, Hg. set_solver.
Qed.
End Root.
End Loops.

(** ** The pages of an entry *)

(** The window of the APICs, as if it were an entry of the map. *)
Definition apic_entry : LimineMemMapEntry := {| mm_base := 0xFEC00000; mm_length := 0x400000; mm_type := LIMINE_MEMMAP_FRAMEBUFFER |}.

Definition good_entry (e : LimineMemMapEntry) : Prop := 0 <= mm_base e /\ 0 < mm_length e /\ entry_end e <= 2 ^ 46.

(** Where a leaf of the direct map lies: a large page inside its entry, a small one in a
    block that the entry meets and does not fill. *)
Definition inside (e : LimineMemMapEntry) (l : leaf) : Prop :=
  (exists phys, l = direct_leaf (entry_flags e) (lf_huge l) phys) /\ 0 <= lf_phys l < 2 ^ 46 + 0x200000 /\
  if lf_huge l then lf_phys l mod 0x200000 = 0 /\ mm_base e <= lf_phys l /\ lf_phys l + 0x200000 <= entry_end e
  else lf_phys l mod 4096 = 0 /\ (exists x, mm_base e <= x < entry_end e /\ x / 0x200000 = lf_phys l / 0x200000) /\
       (lf_phys l / 0x200000 * 0x200000 < mm_base e \/ entry_end e < lf_phys l / 0x200000 * 0x200000 + 0x200000).

Lemma leaves_2m_inside e start end_ l : good_entry e -> mm_base e <= start -> start < end_ -> end_ <= entry_end e ->
  start mod 0x200000 = 0 \/ start = mm_base e -> end_ mod 0x200000 = 0 \/ end_ = entry_end e ->
  l ∈ leaves_2m start end_ (entry_flags e) -> inside e l.
Proof.
  unfold good_entry, leaves_2m, leaves_4k, inside, dn, up. intros Hg H1 H2 H3 Hs He. rewrite !elem_of_app, list_elem_of_fmap. intros [(x & -> & Hx)|[Hl|Hl]].
  - apply elem_of_range_list in Hx; [|lia]. cbn [direct_leaf lf_huge lf_phys]. split_and!; [by exists x|..]; Z.div_mod_to_equations; lia.
  - destruct (Z.ltb_spec start ((start + 0x200000 - 1) / 0x200000 * 0x200000)) as [Hlt|]; [|by apply elem_of_nil in Hl]. apply list_elem_of_fmap in Hl as (x & -> & Hx).
    apply elem_of_range_list in Hx; [|lia]. cbn [direct_leaf lf_huge lf_phys]. split_and!; [by exists x|..]; try (Z.div_mod_to_equations; lia).
    + exists start. split; [lia|]. Z.div_mod_to_equations; lia.
  - destruct (Z.ltb_spec (end_ / 0x200000 * 0x200000) end_) as [Hlt|]; [|by apply elem_of_nil in Hl]. apply list_elem_of_fmap in Hl as (x & -> & Hx).
    apply elem_of_range_list in Hx; [|lia]. cbn [direct_leaf lf_huge lf_phys]. split_and!; [by exists x|..]; try (Z.div_mod_to_equations; lia).
    + exists (end_ - 1). split; [lia|]. Z.div_mod_to_equations; lia.
Qed.

Lemma leaves_entry_inside e l : good_entry e -> l ∈ leaves_entry e -> mappable (mm_type e) = true /\ inside e l.
Proof.
  intros Hg. pose proof Hg as (G1 & G2 & G3). unfold entry_end in G3. assert (entry_end e = mm_base e + mm_length e) as Ee by done. unfold leaves_entry. destruct (mappable (mm_type e)); cbn [negb]; [|by intros ?%elem_of_nil]. intros Hl. split; [done|]. revert Hl.
  unfold has_gib. destruct (Z.ltb_spec (up 0x40000000 (mm_base e)) (dn 0x40000000 (entry_end e))) as [Hlt|_]; [|apply leaves_2m_inside; try done; try lia; by right].
  rewrite !elem_of_app, list_elem_of_fmap. intros [(x & -> & Hx)|[Hl|Hl]].
  - apply elem_of_range_list in Hx; [|lia]. unfold inside, up, dn in *. cbn [direct_leaf lf_huge lf_phys]. split_and!; [by exists x|..]; Z.div_mod_to_equations; lia.
  - destruct (Z.ltb_spec (mm_base e) (up 0x40000000 (mm_base e))); [|by apply elem_of_nil in Hl].
    apply (leaves_2m_inside e (mm_base e) (up 0x40000000 (mm_base e))); [done|lia|done| |by right| |done]; unfold up, dn in *; [|left]; Z.div_mod_to_equations; lia.
  - destruct (Z.ltb_spec (dn 0x40000000 (entry_end e)) (entry_end e)); [|by apply elem_of_nil in Hl].
    apply (leaves_2m_inside e (dn 0x40000000 (entry_end e)) (entry_end e)); [done| |done|lia| |by right|done]; unfold up, dn in *; [|left]; Z.div_mod_to_equations; lia.
Qed.

(** The pages of an entry that reaches a boundary of a 2 MiB block lie inside the entry,
    rounded out to small pages. *)
Definition tight (e : LimineMemMapEntry) (l : leaf) : Prop :=
  up 0x200000 (mm_base e) <= dn 0x200000 (entry_end e) ->
  dn 4096 (mm_base e) <= lf_phys l /\ lf_phys l + (if lf_huge l then 0x200000 else 4096) <= up 4096 (entry_end e).

Lemma leaves_2m_tight start end_ flags l : up 0x200000 start <= dn 0x200000 end_ -> l ∈ leaves_2m start end_ flags ->
  dn 4096 start <= lf_phys l /\ lf_phys l + (if lf_huge l then 0x200000 else 4096) <= up 4096 end_.
Proof.
  unfold leaves_2m, leaves_4k. rewrite !elem_of_app, list_elem_of_fmap. intros Hc [(x & -> & Hx)|[Hl|Hl]].
  - apply elem_of_range_list in Hx; [|lia]. cbn [direct_leaf lf_huge lf_phys]. unfold up, dn in *. Z.div_mod_to_equations; lia.
  - destruct (Z.ltb_spec start (up 0x200000 start)); [|by apply elem_of_nil in Hl]. apply list_elem_of_fmap in Hl as (x & -> & Hx).
    apply elem_of_range_list in Hx; [|lia]. cbn [direct_leaf lf_huge lf_phys]. unfold up, dn in *. Z.div_mod_to_equations; lia.
  - destruct (Z.ltb_spec (dn 0x200000 end_) end_); [|by apply elem_of_nil in Hl]. apply list_elem_of_fmap in Hl as (x & -> & Hx).
    apply elem_of_range_list in Hx; [|lia]. cbn [direct_leaf lf_huge lf_phys]. unfold up, dn in *. Z.div_mod_to_equations; lia.
Qed.

Lemma leaves_entry_tight e l : good_entry e -> l ∈ leaves_entry e -> tight e l.
Proof.
  intros (G1 & G2 & G3) Hl Hc. unfold leaves_entry in Hl. destruct (negb _); [by apply elem_of_nil in Hl|]. unfold has_gib in Hl.
  destruct (Z.ltb_spec (up 0x40000000 (mm_base e)) (dn 0x40000000 (entry_end e))) as [Hlt|_]; [|by apply (leaves_2m_tight _ _ (entry_flags e))].
  rewrite !elem_of_app, list_elem_of_fmap in Hl. destruct Hl as [(x & -> & Hx)|[Hl|Hl]].
  - apply elem_of_range_list in Hx; [|lia]. cbn [direct_leaf lf_huge lf_phys]. unfold up, dn in *. Z.div_mod_to_equations; lia.
  - destruct (Z.ltb_spec (mm_base e) (up 0x40000000 (mm_base e))); [|by apply elem_of_nil in Hl].
    apply leaves_2m_tight in Hl; [|unfold up, dn in *; Z.div_mod_to_equations; lia]. unfold up, dn in *. Z.div_mod_to_equations; lia.
  - destruct (Z.ltb_spec (dn 0x40000000 (entry_end e)) (entry_end e)); [|by apply elem_of_nil in Hl].
    apply leaves_2m_tight in Hl; [|unfold up, dn in *; Z.div_mod_to_equations; lia]. unfold up, dn in *. Z.div_mod_to_equations; lia.
Qed.

Lemma direct_virt a : 0 <= a < 2 ^ 47 -> wrap64 (KM_DIRECT_MAP_BASE + a) = KM_DIRECT_MAP_BASE + a.
Proof. intros Ha. apply wrap64_small. unfold is_u64, KM_DIRECT_MAP_BASE. lia. Qed.

Lemma direct_block a : 0 <= a < 2 ^ 47 -> vblock (KM_DIRECT_MAP_BASE + a) = 2 ^ 26 + a / 0x200000.
Proof.
  intros Ha. unfold vblock, KM_DIRECT_MAP_BASE. assert ((0xffff800000000000 + a) mod 2 ^ 48 = 2 ^ 47 + a) as ->; [symmetry; apply (Z.mod_unique_pos _ _ 0xffff); lia|].
  change (2 ^ 47) with (2 ^ 26 * 2 ^ 21). change 0x200000 with (2 ^ 21). rewrite Z.add_comm, Z.div_add by lia. lia.
Qed.

Lemma direct_page a : 0 <= a < 2 ^ 47 -> vpage (KM_DIRECT_MAP_BASE + a) = 2 ^ 35 + a / 4096.
Proof.
  intros Ha. unfold vpage, KM_DIRECT_MAP_BASE. assert ((0xffff800000000000 + a) mod 2 ^ 48 = 2 ^ 47 + a) as ->; [symmetry; apply (Z.mod_unique_pos _ _ 0xffff); lia|].
  change (2 ^ 47) with (2 ^ 35 * 2 ^ 12). change 4096 with (2 ^ 12). rewrite Z.add_comm, Z.div_add by lia. lia.
Qed.

(** Without a whole GiB, every address of the entry is on one of its pages. *)
Lemma leaves_entry_cover e a : good_entry e -> mappable (mm_type e) = true -> has_gib e = false -> mm_base e <= a < entry_end e ->
  exists l, l ∈ leaves_entry e /\ covers l (KM_DIRECT_MAP_BASE + a) = true.
Proof.
  intros (G1 & G2 & G3) Hm Hgib Ha. unfold leaves_entry. rewrite Hm, Hgib. cbn [negb]. unfold leaves_2m. unfold entry_end in *. set (b := mm_base e + mm_length e) in *.
  destruct (decide (up 0x200000 (mm_base e) <= a < dn 0x200000 b)) as [Hi|Ho].
  - exists (direct_leaf (entry_flags e) true (dn 0x200000 a)). split.
    + apply elem_of_app. left. apply list_elem_of_fmap. eexists. split; [done|]. apply elem_of_range_list; [lia|]. unfold up, dn in *. Z.div_mod_to_equations; lia.
    + unfold covers. cbn [direct_leaf lf_huge lf_virt]. assert (0 <= dn 0x200000 a <= a) by (unfold dn; Z.div_mod_to_equations; lia).
      rewrite direct_virt, !direct_block by lia. apply Z.eqb_eq. unfold dn. rewrite Z.div_mul by lia. done.
  - exists (direct_leaf (entry_flags e) false (dn 4096 a)). split.
    + rewrite !elem_of_app. right. destruct (decide (a < up 0x200000 (mm_base e))) as [Hlo|Hhi].
      * left. rewrite (proj2 (Z.ltb_lt _ _)) by lia. apply list_elem_of_fmap. eexists. split; [done|]. apply elem_of_range_list; [lia|]. unfold up, dn in *. Z.div_mod_to_equations; lia.
      * right. rewrite (proj2 (Z.ltb_lt _ _)) by lia. apply list_elem_of_fmap. eexists. split; [done|]. apply elem_of_range_list; [lia|]. unfold up, dn in *. Z.div_mod_to_equations; lia.
    + unfold covers. cbn [direct_leaf lf_huge lf_virt]. assert (0 <= dn 4096 a <= a) by (unfold dn; Z.div_mod_to_equations; lia).
      rewrite direct_virt, !direct_page by lia. apply Z.eqb_eq. unfold dn. rewrite Z.div_mul by lia. done.
Qed.

(** ** What an access finds *)

(** The physical address of an access, and whether its page can be written, executed and
    reached from user mode. *)
Definition resolve (m : Z * Z) : Z * (bool * bool * bool) :=
  (PhysAddr_add (PageTableEntry_frame m.1) m.2, (is_writable m.1, negb (is_no_execute m.1), is_user_accessible m.1)).

Definition access {A} (s : pt_state A) (root v : Z) : option (Z * (bool * bool * bool)) := resolve <$> mapping (tabs s) root v.

Definition perms (flags : Z) : bool * bool * bool := (Z.testbit flags 1, negb (Z.testbit flags 63), Z.testbit flags 2).

Lemma leaf_flags_ok l : good_leaf l -> is_flags (if lf_huge l then with_huge_page (lf_flags l) else lf_flags l).
Proof.
  intros [[H0 Hf] _ _ _ _]. destruct (lf_huge l); [|done]. split; [unfold with_huge_page, HUGE_PAGE; apply Z.lor_nonneg; lia|].
  intros i Hi Hn. unfold with_huge_page, HUGE_PAGE. rewrite Z.lor_spec, Hf by done. rewrite testbit_pow2 by lia. apply Z.eqb_neq. lia.
Qed.

Lemma resolve_leaf l v : good_leaf l -> lf_phys l < 2 ^ 47 ->
  resolve (leaf_pte l, leaf_off l v) = (lf_phys l + v mod (if lf_huge l then 0x200000 else 4096), perms (lf_flags l)).
Proof.
  intros Hg Hp. pose proof (leaf_flags_ok l Hg) as Hf. destruct Hg as [_ _ _ Hr Ha]. unfold resolve, perms. cbn [fst snd]. f_equal.
  - unfold leaf_pte. rewrite frame_new_page by done. rewrite Z.mod_small by done. unfold leaf_off, VirtAddr_page_offset, PhysAddr_add, PhysAddr_new.
    assert (lf_phys l mod 2 ^ 12 = 0) as -> by (change (2 ^ 12) with 4096; destruct (lf_huge l); [Z.div_mod_to_equations; lia|done]). rewrite Z.sub_0_r. masks.
    destruct (lf_huge l); rewrite (Z.land_ones v) by lia; [change (2 ^ 21) with 0x200000|change (2 ^ 12) with 4096];
      (rewrite wrap64_small by (unfold is_u64; Z.div_mod_to_equations; lia)); rewrite Z.land_ones by lia; apply Z.mod_small; Z.div_mod_to_equations; lia.
  - unfold leaf_pte. rewrite is_writable_bit, is_nx_bit, is_user_bit, !new_page_bits by lia.
    change ((12 <=? 1) && (1 <? 48)) with false. change ((12 <=? 63) && (63 <? 48)) with false. change ((12 <=? 2) && (2 <? 48)) with false.
    rewrite !andb_false_l, !orb_false_r. destruct (lf_huge l); [|done]. unfold with_huge_page. rewrite !Z.lor_spec. change (Z.testbit HUGE_PAGE 1) with false. change (Z.testbit HUGE_PAGE 63) with false.
    change (Z.testbit HUGE_PAGE 2) with false. by rewrite !orb_false_r.
Qed.

(** Of canonical addresses, the low 48 bits say which. *)
Lemma canonical_low v w : is_u64 v -> is_u64 w -> VirtAddr_is_canonical v = true -> VirtAddr_is_canonical w = true -> v mod 2 ^ 48 = w mod 2 ^ 48 -> v = w.
Proof.
  unfold is_u64, VirtAddr_is_canonical. rewrite !Z.shiftr_div_pow2 by lia. intros Hv Hw Cv Cw. apply orb_true_iff in Cv, Cw. rewrite !Z.eqb_eq in Cv, Cw.
  Z.div_mod_to_equations. lia.
Qed.

Lemma covers_addr l v : is_u64 v -> VirtAddr_is_canonical v = true -> is_u64 (lf_virt l) -> VirtAddr_is_canonical (lf_virt l) = true ->
  let k := if lf_huge l then 0x200000 else 4096 in lf_virt l mod k = 0 -> covers l v = true -> v = lf_virt l + v mod k.
Proof.
  intros Hv Cv Hl Cl k Ha Hc. assert (v - v mod k = lf_virt l) as <-; [|lia]. assert (v mod k <= v) by (apply Z.mod_le; [unfold is_u64 in Hv; lia|destruct (lf_huge l); done]).
  assert (0 <= v mod k < k) by (apply Z.mod_pos_bound; by destruct (lf_huge l)). apply canonical_low; [unfold is_u64 in *; lia|done| |done|].
  - unfold VirtAddr_is_canonical in *. rewrite !Z.shiftr_div_pow2 in * by lia. apply orb_true_iff in Cv. apply orb_true_iff. rewrite !Z.eqb_eq in *. unfold k in *. destruct (lf_huge l); Z.div_mod_to_equations; lia.
  - unfold covers, vblock, vpage, k in *. change (2 ^ 21) with 0x200000 in *. change (2 ^ 12) with 4096 in *. change (2 ^ 48) with 281474976710656 in *. destruct (lf_huge l); apply Z.eqb_eq in Hc; Z.div_mod_to_equations; lia.
Qed.

(** ** All the pages together *)

Record good_boot (memmap : list LimineMemMapEntry) (kernel_phys_base : Z) (ks : sections) : Prop := {
  gb_entries e : e ∈ memmap -> mappable (mm_type e) = true -> good_entry e;
  gb_apart e e' : e ∈ memmap -> e' ∈ memmap -> mappable (mm_type e) = true -> mappable (mm_type e') = true ->
    e = e' \/ entry_end e <= mm_base e' \/ entry_end e' <= mm_base e;
  gb_apic e : e ∈ memmap -> mappable (mm_type e) = true -> entry_end e <= 0xFEC00000 \/ 0xFF000000 <= mm_base e;
  gb_sections sec : sec ∈ [ks_text ks; ks_rodata ks; ks_data ks; ks_bss ks] -> good_section kernel_phys_base sec;
  gb_order : (ks_text ks).2 <= (ks_rodata ks).1 /\ (ks_rodata ks).2 <= (ks_data ks).1 /\ (ks_data ks).2 <= (ks_bss ks).1
}.

(** The sections with the flags of their pages. *)
Definition section_flags (ks : sections) : list ((Z * Z) * Z) :=
  [(ks_text ks, ktext_flags); (ks_rodata ks, krodata_flags); (ks_data ks, kdata_flags); (ks_bss ks, kdata_flags)].

Section Boot.
Context (memmap : list LimineMemMapEntry) (kernel_phys_base : Z) (ks : sections) (HB : good_boot memmap kernel_phys_base ks).

Lemma leaves_apic : leaves_2m 0xFEC00000 0xFF000000 mmio_flags = leaves_entry apic_entry.
Proof. reflexivity. Qed.

(** The entries of the direct map: those that are mapped, and the APIC window. *)
Definition direct_entry (e : LimineMemMapEntry) : Prop := (e ∈ memmap /\ mappable (mm_type e) = true) \/ e = apic_entry.

Lemma direct_entry_good e : direct_entry e -> good_entry e /\ mappable (mm_type e) = true.
Proof. intros [[H1 H2]| ->]; [split; [by apply (gb_entries _ _ _ HB)|done]|split; [|done]; unfold good_entry, entry_end; cbn; lia]. Qed.

Lemma direct_entry_apart e e' : direct_entry e -> direct_entry e' -> e = e' \/ entry_end e <= mm_base e' \/ entry_end e' <= mm_base e.
Proof.
  intros [[H1 H2]| ->] [[H3 H4]| ->]; [by apply (gb_apart _ _ _ HB)| | |by left]; right.
  - destruct (gb_apic _ _ _ HB e H1 H2); [by left|by right].
  - destruct (gb_apic _ _ _ HB e' H3 H4); [by right|by left].
Qed.

(** A leaf of the list is a page of an entry, of a section, or the trampoline. *)
Inductive leaf_kind (l : leaf) : Prop :=
| kind_direct e : direct_entry e -> inside e l -> tight e l -> leaf_kind l
| kind_section sec flags k : (sec, flags) ∈ section_flags ks -> 0 <= k < (sec.2 - sec.1 + 4095) / 4096 -> l = section_leaf kernel_phys_base flags sec.1 k -> leaf_kind l
| kind_trampoline : l = trampoline_leaf -> leaf_kind l.

Lemma leaf_kinds l : l ∈ leaves_all memmap kernel_phys_base ks -> leaf_kind l.
Proof.
  unfold leaves_all, leaves_kernel. rewrite leaves_apic, !elem_of_app, list_elem_of_singleton, list_elem_of_bind.
  assert (forall sec flags, (sec, flags) ∈ section_flags ks -> l ∈ leaves_section kernel_phys_base flags sec -> leaf_kind l) as Hsec.
  { intros sec flags Hin Hl. apply list_elem_of_fmap in Hl as (k & -> & Hk). apply elem_of_seqZ in Hk. by apply (kind_section _ sec flags k); [|lia|]. }
  intros [(e & Hl & He)|[Hl|[[Hl|[Hl|[Hl|Hl]]]| ->]]]; [| |eapply Hsec; [|exact Hl]; unfold section_flags; set_solver..|by apply kind_trampoline].
  - destruct (mappable (mm_type e)) eqn:Hm; [|unfold leaves_entry in Hl; rewrite Hm in Hl; by apply elem_of_nil in Hl].
    pose proof (gb_entries _ _ _ HB e He Hm) as Hg. apply (kind_direct _ e); [left; done|by apply leaves_entry_inside|by apply leaves_entry_tight].
  - assert (good_entry apic_entry) as Hg by (apply (direct_entry_good apic_entry); by right).
    apply (kind_direct _ apic_entry); [by right|by apply leaves_entry_inside|by apply leaves_entry_tight].
Qed.

(** The flags in use: present, small, and no other bit than a flag's. *)
Definition kernel_flags (f : Z) : Prop := f ∈ [ram_flags; mmio_flags; ktext_flags; krodata_flags; kdata_flags; trampoline_flags].

Lemma kernel_flags_ok f : kernel_flags f -> is_flags f /\ Z.testbit f 0 = true /\ Z.testbit f 7 = false.
Proof.
  unfold kernel_flags. rewrite !elem_of_cons, elem_of_nil. intros Hf.
  assert (f = ram_flags \/ f = mmio_flags \/ f = ktext_flags \/ f = krodata_flags \/ f = kdata_flags \/ f = trampoline_flags) as Hf' by tauto. clear Hf.
  destruct Hf' as [->|[->|[->|[->|[->| ->]]]]]; (split_and!; [|done|done]); (split; [vm_compute; discriminate|]).
  all: intros i Hi Hn; unfold ram_flags, mmio_flags, ktext_flags, krodata_flags, kdata_flags, trampoline_flags, with_writable, with_present, with_global, with_no_execute, with_write_through,
    PRESENT, WRITABLE, GLOBAL, NO_EXECUTE, WRITE_THROUGH, PageFlags_new; autorewrite with bits; bit_cases; done.
Qed.

Definition page_size (l : leaf) : Z := if lf_huge l then 0x200000 else 4096.

Record placed (l : leaf) : Prop := {
  pl_good : good_leaf l;
  pl_phys : lf_phys l < 2 ^ 47;
  pl_virt : is_u64 (lf_virt l) /\ VirtAddr_is_canonical (lf_virt l) = true /\ lf_virt l mod page_size l = 0
}.

Lemma kernel_canonical v : 2 ^ 64 - 2 ^ 47 <= v < 2 ^ 64 -> is_u64 v /\ VirtAddr_is_canonical v = true.
Proof. intros Hv. split; [unfold is_u64; lia|]. unfold VirtAddr_is_canonical. apply orb_true_iff. right. rewrite Z.shiftr_div_pow2 by lia. apply Z.eqb_eq. Z.div_mod_to_equations; lia. Qed.

Lemma direct_placed e l : inside e l -> placed l.
Proof.
  intros ((phys & El) & Hr & Hi). rewrite El in *. cbn [direct_leaf lf_huge lf_phys] in *. set (h := lf_huge l) in *. clearbody h. clear El.
  assert (phys mod page_size (direct_leaf (entry_flags e) h phys) = 0) as Ha by (unfold page_size; cbn [direct_leaf lf_huge]; destruct h; lia).
  destruct (kernel_flags_ok (entry_flags e)) as (F1 & F2 & F3); [unfold kernel_flags, entry_flags; destruct (_ =? _); set_solver|].
  split; cbn [direct_leaf lf_huge lf_phys lf_virt lf_flags]; [|lia|].
  - split; [exact F1|exact F2|exact F3|cbn [direct_leaf lf_phys]; lia|exact Ha].
  - rewrite direct_virt by lia. destruct (kernel_canonical (KM_DIRECT_MAP_BASE + phys)) as [C1 C2]; [unfold KM_DIRECT_MAP_BASE; lia|]. split_and!; [done|done|].
    unfold page_size in *. cbn [direct_leaf lf_huge] in *. unfold KM_DIRECT_MAP_BASE. destruct h; Z.div_mod_to_equations; lia.
Qed.

Lemma section_placed sec flags k : (sec, flags) ∈ section_flags ks -> 0 <= k < (sec.2 - sec.1 + 4095) / 4096 -> placed (section_leaf kernel_phys_base flags sec.1 k).
Proof.
  intros Hin Hk. destruct (gb_sections _ _ _ HB sec) as [Hr Ha Hb]; [unfold section_flags in Hin; set_solver|].
  destruct (kernel_flags_ok flags) as (F1 & F2 & F3); [unfold section_flags, kernel_flags in *; set_solver|].
  assert (0 <= k * 4096 < sec.2 - sec.1) by (Z.div_mod_to_equations; lia). unfold KERNEL_BASE in *.
  split; cbn [section_leaf lf_huge lf_phys lf_virt lf_flags]; [|unfold KERNEL_BASE; lia|].
  - split; [exact F1|exact F2|exact F3|cbn [section_leaf lf_phys]; unfold KERNEL_BASE; lia|]. cbn [section_leaf lf_huge lf_phys]. unfold KERNEL_BASE. Z.div_mod_to_equations; lia.
  - destruct (kernel_canonical (sec.1 + k * 4096)) as [C1 C2]; [lia|]. split_and!; [done|done|]. unfold page_size. cbn [section_leaf lf_huge]. Z.div_mod_to_equations; lia.
Qed.

Lemma kind_placed l : leaf_kind l -> placed l.
Proof.
  intros [e He Hi _|sec flags k Hin Hk ->| ->]; [by eapply direct_placed|by apply section_placed|].
  destruct (kernel_flags_ok trampoline_flags) as (F1 & F2 & F3); [unfold kernel_flags; set_solver|]. split; [|done|done]. split; [exact F1|exact F2|exact F3|done|done].
Qed.

Lemma inside_block e l : inside e l -> vblock (lf_virt l) = 2 ^ 26 + lf_phys l / 0x200000 /\ 0 <= lf_phys l / 0x200000 <= 2 ^ 25.
Proof. intros ((phys & ->) & Hr & _). cbn [direct_leaf lf_virt lf_phys] in *. rewrite direct_virt, direct_block by lia. split; [done|]. Z.div_mod_to_equations; lia. Qed.

Lemma huge_apart l l' : leaf_kind l -> leaf_kind l' -> lf_huge l = true -> lf_huge l' = false -> vblock (lf_virt l) <> vblock (lf_virt l').
Proof.
  intros [e He Hi _|sec flags k Hin Hk ->| ->] Hl' Hh Hh'; [|done|done]. destruct (inside_block e l Hi) as [-> Hr]. destruct Hl' as [e' He' Hi' _|sec flags k Hin Hk ->| ->].
  - destruct (inside_block e' l' Hi') as [-> Hr']. intros Heq. destruct Hi as (_ & _ & Hi), Hi' as (_ & _ & Hi'). rewrite Hh in Hi. rewrite Hh' in Hi'. destruct Hi' as (_ & (x & Hx & Hb) & Hn).
    destruct (direct_entry_apart e e' He He') as [<-|Hd]; Z.div_mod_to_equations; lia.
  - destruct (gb_sections _ _ _ HB sec) as [Hs Ha Hb]; [unfold section_flags in Hin; set_solver|]. assert (0 <= k * 4096 < sec.2 - sec.1) by (Z.div_mod_to_equations; lia).
    unfold vblock, KERNEL_BASE in *. cbn [section_leaf lf_virt]. assert (2 ^ 48 - 2 ^ 31 <= (sec.1 + k * 4096) mod 2 ^ 48) by (Z.div_mod_to_equations; lia). Z.div_mod_to_equations; lia.
  - change (vblock (lf_virt trampoline_leaf)) with 0. lia.
Qed.

Lemma leaves_uniform : uniform (leaves_all memmap kernel_phys_base ks).
Proof.
  intros l l' Hl%leaf_kinds Hl'%leaf_kinds Hv. destruct (lf_huge l) eqn:E, (lf_huge l') eqn:E'; try done; exfalso; [by apply (huge_apart l l')|by apply (huge_apart l' l)].
Qed.
End Boot.
