(* ===== verification/KernelBoot.v ===== *)
(** * Turning the kernel's paging on (crates/paging/src/init.rs, tlb.rs; crates/arch-x86_64)

    [PagingInit] end to end: the CPU features it finds, the control registers it sets, the
    tables it builds ([KernelMap]) and loads, and what an access to memory finds when it is
    done.  The CPU raises a fault where the architecture says so, which is a panic here. *)

From Stdlib Require Import ZArith Lia.
From stdpp Require Import prelude list gmap.
From S2P Require Import Prelude Paging Frames PageTable KernelMap KernelMapSpec.

Local Open Scope Z_scope.

(** ** The CPU *)

(** A CPUID leaf: EAX, EBX, ECX, EDX. *)
Record cpuid_regs := { q_eax : Z; q_ebx : Z; q_ecx : Z; q_edx : Z }.

(** The registers that the code reads and writes, and the answers of CPUID, of which the
    leaf with the size of the save area depends on XCR0. *)
Record cpu_state := {
  c_cpuid : Z -> Z -> Z -> cpuid_regs;
  c_efer : Z; c_cr3 : Z; c_cr4 : Z; c_xcr0 : Z
}.

Definition cpuid_count (c : cpu_state) (leaf_ sub : Z) : cpuid_regs :=
  c_cpuid c (if leaf_ =? 0x0D then c_xcr0 c else 0) leaf_ sub.

Definition set_regs (c : cpu_state) (efer cr3 cr4 xcr0 : Z) : cpu_state :=
  {| c_cpuid := c_cpuid c; c_efer := efer; c_cr3 := cr3; c_cr4 := cr4; c_xcr0 := xcr0 |}.

Definition write_efer (c : cpu_state) (v : Z) : cpu_state := set_regs c v (c_cr3 c) (c_cr4 c) (c_xcr0 c).
Definition install_page_table (c : cpu_state) (cr3 : Z) : cpu_state := set_regs c (c_efer c) cr3 (c_cr4 c) (c_xcr0 c).

Record CpuFeatures := {
  sse4_2 : bool; avx2 : bool; avx512f : bool; rdtscp : bool; clflushopt : bool; clwb : bool; prefetchw : bool; prefetchwt1 : bool;
  pcid : bool; invpcid : bool; x2apic : bool; rtm : bool; umip : bool; smep : bool; smap : bool; pku : bool; la57 : bool; fsgsbase : bool;
  xsave : bool; osxsave : bool; rdrand : bool; rdseed : bool; ibrs_ibpb : bool
}.

Definition feature_bit (value n : Z) : bool := negb (Z.land value (Z.shiftl 1 n) =? 0).

Definition detect_cpu_features (c : cpu_state) : CpuFeatures :=
  let max_basic := q_eax (cpuid_count c 0 0) in
  let leaf1 := cpuid_count c 1 0 in
  let max_extended := q_eax (cpuid_count c 0x80000000 0) in
  let leaf7 := cpuid_count c 7 0 in
  let leaf_ext := cpuid_count c 0x80000001 0 in
  let f7 value n := (7 <=? max_basic) && feature_bit value n in
  let fe value n := (0x80000001 <=? max_extended) && feature_bit value n in
  let osx := feature_bit (q_ecx leaf1) 27 in
  let xmm_ymm := Z.land (c_xcr0 c) 6 =? 6 in
  let opmask_zmm := Z.land (c_xcr0 c) 0xE0 =? 0xE0 in
  {| sse4_2 := feature_bit (q_ecx leaf1) 20; avx2 := osx && f7 (q_ebx leaf7) 5 && xmm_ymm; avx512f := osx && f7 (q_ebx leaf7) 16 && (xmm_ymm && opmask_zmm);
     rdtscp := fe (q_edx leaf_ext) 27; clflushopt := f7 (q_ebx leaf7) 23; clwb := f7 (q_ebx leaf7) 24; prefetchw := fe (q_ecx leaf_ext) 8; prefetchwt1 := f7 (q_ecx leaf7) 0;
     pcid := feature_bit (q_ecx leaf1) 17; invpcid := f7 (q_ebx leaf7) 10; x2apic := feature_bit (q_ecx leaf1) 21; rtm := f7 (q_ebx leaf7) 11; umip := f7 (q_ecx leaf7) 2;
     smep := f7 (q_ebx leaf7) 7; smap := f7 (q_ebx leaf7) 20; pku := f7 (q_ecx leaf7) 3; la57 := f7 (q_ecx leaf7) 16; fsgsbase := f7 (q_ebx leaf7) 0;
     xsave := feature_bit (q_ecx leaf1) 26; osxsave := osx; rdrand := feature_bit (q_ecx leaf1) 30; rdseed := f7 (q_ebx leaf7) 18; ibrs_ibpb := f7 (q_edx leaf7) 26 |}.

(** The bits of CR4 that the code sets and that not every CPU has: PCIDE, OSXSAVE, SMEP and
    SMAP. *)
Definition cr4_supported (c : cpu_state) (v : Z) : bool :=
  let f := detect_cpu_features c in
  implb (Z.testbit v 17) (pcid f) && implb (Z.testbit v 18) (xsave f) && implb (Z.testbit v 20) (smep f) && implb (Z.testbit v 21) (smap f).

(** Setting a bit that the CPU does not have faults, and so does setting PCIDE unless the
    low bits of CR3 are zero. *)
Definition write_cr4 (c : cpu_state) (v : Z) : outcome cpu_state :=
  if negb (cr4_supported c v) then Panic else
  if Z.testbit v 17 && negb (Z.testbit (c_cr4 c) 17) && negb (Z.land (c_cr3 c) 0xFFF =? 0) then Panic
  else Done (set_regs c (c_efer c) (c_cr3 c) v (c_xcr0 c)).

(** XSETBV faults unless CR4.OSXSAVE is set. *)
Definition xsetbv (c : cpu_state) (v : Z) : outcome cpu_state :=
  if Z.testbit (c_cr4 c) 18 then Done (set_regs c (c_efer c) (c_cr3 c) (c_cr4 c) v) else Panic.

(** Toggling PGE flushes the TLB; the register ends as it was. *)
Definition flush_global (c : cpu_state) : outcome cpu_state :=
  let cr4 := c_cr4 c in
  c ← write_cr4 c (Z.land cr4 (not64 (Z.shiftl 1 7)));
  write_cr4 c cr4.

Definition CR4_FPU_BITS : Z := Z.lor (Z.lor (Z.shiftl 1 9) (Z.shiftl 1 10)) (Z.shiftl 1 18).
Definition XCR0_X87_SSE : Z := 3.
Definition XSAVE_X87_SSE_SIZE : Z := 576.

Definition enable_xcr0_x87_sse (c : cpu_state) : outcome cpu_state := xsetbv c XCR0_X87_SSE.
Definition xsave_area_size (c : cpu_state) : Z := q_ebx (cpuid_count c 0x0D 0).

(** ** The boot processor's initialisation *)

Section Init.
Context {A : Type} `{FrameAllocator A}.

(** The CPU, the tables, the words that the paging crate publishes, and the bytes on the
    serial port. *)
Record boot_state := {
  b_cpu : cpu_state; b_tables : pt_state A;
  PCID_ENABLED : bool; INVPCID_AVAILABLE : bool; BSP_CR4 : Z; KERNEL_IMAGE_VA_OFFSET : Z;
  b_serial : list Z
}.

Definition with_cpu (b : boot_state) (c : cpu_state) : boot_state :=
  {| b_cpu := c; b_tables := b_tables b; PCID_ENABLED := PCID_ENABLED b; INVPCID_AVAILABLE := INVPCID_AVAILABLE b;
     BSP_CR4 := BSP_CR4 b; KERNEL_IMAGE_VA_OFFSET := KERNEL_IMAGE_VA_OFFSET b; b_serial := b_serial b |}.
Definition with_tables (b : boot_state) (t : pt_state A) : boot_state :=
  {| b_cpu := b_cpu b; b_tables := t; PCID_ENABLED := PCID_ENABLED b; INVPCID_AVAILABLE := INVPCID_AVAILABLE b;
     BSP_CR4 := BSP_CR4 b; KERNEL_IMAGE_VA_OFFSET := KERNEL_IMAGE_VA_OFFSET b; b_serial := b_serial b |}.
Definition serial_marker (b : boot_state) (byte : Z) : boot_state :=
  {| b_cpu := b_cpu b; b_tables := b_tables b; PCID_ENABLED := PCID_ENABLED b; INVPCID_AVAILABLE := INVPCID_AVAILABLE b;
     BSP_CR4 := BSP_CR4 b; KERNEL_IMAGE_VA_OFFSET := KERNEL_IMAGE_VA_OFFSET b; b_serial := b_serial b ++ [byte] |}.
Definition set_pcid_support (b : boot_state) (p i : bool) : boot_state :=
  {| b_cpu := b_cpu b; b_tables := b_tables b; PCID_ENABLED := p; INVPCID_AVAILABLE := i;
     BSP_CR4 := BSP_CR4 b; KERNEL_IMAGE_VA_OFFSET := KERNEL_IMAGE_VA_OFFSET b; b_serial := b_serial b |}.
Definition publish_bsp_cr4 (b : boot_state) (cr4 : Z) : boot_state :=
  {| b_cpu := b_cpu b; b_tables := b_tables b; PCID_ENABLED := PCID_ENABLED b; INVPCID_AVAILABLE := INVPCID_AVAILABLE b;
     BSP_CR4 := cr4; KERNEL_IMAGE_VA_OFFSET := KERNEL_IMAGE_VA_OFFSET b; b_serial := b_serial b |}.
Definition set_kernel_image_va_offset (b : boot_state) (offset : Z) : boot_state :=
  {| b_cpu := b_cpu b; b_tables := b_tables b; PCID_ENABLED := PCID_ENABLED b; INVPCID_AVAILABLE := INVPCID_AVAILABLE b;
     BSP_CR4 := BSP_CR4 b; KERNEL_IMAGE_VA_OFFSET := offset; b_serial := b_serial b |}.

Definition apply_bsp_cr4_on_ap (b : boot_state) (ap : cpu_state) : outcome cpu_state := if BSP_CR4 b =? 0 then Done ap else write_cr4 ap (BSP_CR4 b).

Definition enable_features (features : CpuFeatures) (b : boot_state) : outcome boot_state :=
  let b := with_cpu b (write_efer (b_cpu b) (Z.lor (c_efer (b_cpu b)) (Z.shiftl 1 11))) in
  let b := serial_marker b 97 in
  let cr4 := c_cr4 (b_cpu b) in
  let b := serial_marker b 98 in
  let new_cr4 := Z.lor cr4 (Z.shiftl 1 7) in
  let new_cr4 := Z.lor new_cr4 CR4_FPU_BITS in
  '(new_cr4, b, pcid_enabled) ←
    (if pcid features then
       let cr3 := c_cr3 (b_cpu b) in
       let b := serial_marker b 99 in
       if negb (Z.land cr3 0xFFF =? 0) then Panic else Done (Z.lor new_cr4 (Z.shiftl 1 17), b, true)
     else Done (new_cr4, b, false));
  c ← write_cr4 (b_cpu b) new_cr4;
  let b := serial_marker (with_cpu b c) 100 in
  c ← enable_xcr0_x87_sse (b_cpu b);
  let b := with_cpu b c in
  _ ← assert_ (xsave_area_size (b_cpu b) <=? XSAVE_X87_SSE_SIZE);
  Done (set_pcid_support b pcid_enabled (invpcid features)).

Definition enable_supervisor_protections (features : CpuFeatures) (b : boot_state) : outcome boot_state :=
  let cr4 := c_cr4 (b_cpu b) in
  let cr4 := if smep features then Z.lor cr4 (Z.shiftl 1 20) else cr4 in
  let cr4 := if smap features then Z.lor cr4 (Z.shiftl 1 21) else cr4 in
  c ← write_cr4 (b_cpu b) cr4;
  Done (with_cpu b c).

Definition PagingInit_init (features : CpuFeatures) (memmap : list LimineMemMapEntry) (kernel_phys_base : Z) (ks : sections) (b : boot_state) : outcome boot_state :=
  b ← enable_features features b;
  let b := serial_marker b 49 in
  '(root, t) ← PageTableBuilder_new (b_tables b);
  let b := serial_marker (with_tables b t) 50 in
  t ← map_direct_memory root (b_tables b) memmap;
  t ← map_apic_mmio root t;
  let b := serial_marker (with_tables b t) 51 in
  t ← map_kernel_sections root kernel_phys_base ks (b_tables b);
  let b := serial_marker (with_tables b t) 52 in
  t ← map_ap_trampoline_identity root (b_tables b);
  let b := serial_marker (with_tables b t) 53 in
  let cr3 := make_cr3 root 0 false in
  let b := serial_marker b 54 in
  c ← flush_global (install_page_table (b_cpu b) cr3);
  b ← enable_supervisor_protections features (with_cpu b c);
  let b := publish_bsp_cr4 b (c_cr4 (b_cpu b)) in
  Done (serial_marker b 55).

(** The entry point of the crate. *)
Definition paging_init (memmap : list LimineMemMapEntry) (kernel_phys_base : Z) (ks : sections) (b : boot_state) : outcome boot_state :=
  let b := serial_marker b 120 in
  let b := set_kernel_image_va_offset b (wrap64 (KERNEL_BASE - kernel_phys_base)) in
  let features := detect_cpu_features (b_cpu b) in
  let b := serial_marker b 121 in
  PagingInit_init features memmap kernel_phys_base ks b.
End Init.
Arguments boot_state A : clear implicits.

(** ** The tables *)

Section Spec.
Context {A : Type} `{FrameAllocatorLaws A}.
Context (memmap : list LimineMemMapEntry) (kernel_phys_base : Z) (ks : sections) (HB : good_boot memmap kernel_phys_base ks).

Definition kernel_leaves : list leaf := leaves_all memmap kernel_phys_base ks.

(** A zeroed root holds nothing. *)
Lemma maps_nothing (s : pt_state A) root : fa_ok (pt_alloc s) -> root ∉ fa_free (pt_alloc s) -> tabs s !! root = Some PageTable_zero -> maps root (size (fa_free (pt_alloc s))) s [].
Proof.
  intros Ha Hr Hz. destruct (pt_wf_new s root Ha Hr Hz) as [Hwf Hn].
  assert (forall i p, walk (tabs s) root (i :: p) = None) as Hw.
  { intros i p. cbn. destruct (entry_at (tabs s) root i) as [e|] eqn:He; cbn; [|done]. by rewrite (entry_at_zero _ _ _ _ Hz He). }
  split; [split|].
  - done.
  - intros i j e. unfold pentry. by rewrite Hw.
  - intros p _. destruct p as [|i p]; [split; [by left|done]|]. rewrite Hw. split; [by intros [? ?]|]. intros [?|Hin]; [done|]. unfold tables_of in Hin. set_solver.
  - unfold tables_of. cbn. rewrite size_empty. lia.
  - intros v. by rewrite (proj1 (Hn v)).
Qed.

Lemma foldM_app_Done {S X} (f : S -> X -> outcome S) s l k r : foldM f s (l ++ k) = Done r -> exists s', foldM f s l = Done s' /\ foldM f s' k = Done r.
Proof. rewrite foldM_app. intros (s' & H1 & H2)%bind_Done. by exists s'. Qed.

Lemma tables_built (s : pt_state A) : fa_ok (pt_alloc s) -> (S (size (tables_of kernel_leaves)) <= size (fa_free (pt_alloc s)))%nat ->
  exists root t0 t1 t2 t3 t4, PageTableBuilder_new s = Done (root, t0) /\ map_direct_memory root t0 memmap = Done t1 /\ map_apic_mmio root t1 = Done t2 /\
    map_kernel_sections root kernel_phys_base ks t2 = Done t3 /\ map_ap_trampoline_identity root t3 = Done t4 /\
    root mod 4096 = 0 /\ 0 < root < 2 ^ 44 /\ maps root (size (fa_free (pt_alloc t0))) t4 kernel_leaves.
Proof.
  intros Ha Hs. unfold PageTableBuilder_new. destruct (fa_alloc_frame (pt_alloc s)) as [[f a']|] eqn:E.
  2:{ rewrite (fa_alloc_None _ Ha E), size_empty in Hs. lia. }
  destruct (fa_alloc_Some _ _ _ Ha E) as (Hok & Hin & Hfr & Hal & Hr). run. rewrite (PhysAddr_new_id f) by (unfold is_phys; lia).
  set (t0 := {| tabs := <[f := PageTable_zero]> (tabs s); pt_alloc := a' |}).
  assert (size (fa_free (pt_alloc s)) = S (size (fa_free a'))) as Hsz by (rewrite Hfr; by apply size_remove).
  pose proof (maps_nothing t0 f Hok ltac:(cbn; rewrite Hfr; set_solver) ltac:(apply lookup_insert_eq)) as HM.
  destruct (map_leaves_ok f _ kernel_leaves t0 [] HM) as (t4 & Ht & Hm).
  - apply Forall_forall. intros l Hl. by apply (pl_good l), (kind_placed memmap kernel_phys_base ks HB), leaf_kinds.
  - by apply leaves_uniform.
  - cbn [pt_alloc t0 app]. lia.
  - unfold kernel_leaves, leaves_all in Ht. apply foldM_app_Done in Ht as (t1 & T1 & Ht). apply foldM_app_Done in Ht as (t2 & T2 & Ht). apply foldM_app_Done in Ht as (t3 & T3 & Ht).
    exists f, t0, t1, t2, t3, t4. split; [done|]. split_and!; try done; try lia.
    + rewrite direct_leaves; [done|]. apply Forall_forall. intros e He Hme. pose proof (gb_entries _ _ _ HB e He Hme) as (G1 & G2 & G3). unfold is_phys, entry_end in *. lia.
    + unfold map_apic_mmio. by rewrite !PhysAddr_new_id, region_2m_leaves by (unfold is_phys; lia).
    + rewrite kernel_sections_leaves; [done|]. apply (gb_sections _ _ _ HB).
    + cbn [foldM] in Ht. destruct (map_leaf f t3 trampoline_leaf) as [t|] eqn:E4; [|done]. cbn in Ht. injection Ht as <-. exact E4.
Qed.

(** What a canonical address hits, by the kind of the page.  In the direct map it is an
    address of an entry, rounded out to small pages when the entry reaches a boundary of
    a 2 MiB block, and to its block otherwise. *)
Definition hit_direct (v : Z) (x : Z * (bool * bool * bool)) : Prop := exists e a, direct_entry memmap e /\ v = KM_DIRECT_MAP_BASE + a /\
  0 <= a /\ dn 0x200000 (mm_base e) <= a < up 0x200000 (entry_end e) /\
  (up 0x200000 (mm_base e) <= dn 0x200000 (entry_end e) -> dn 4096 (mm_base e) <= a < up 4096 (entry_end e)) /\ x = (a, (true, false, false)).
Definition hit_section (v : Z) (x : Z * (bool * bool * bool)) : Prop := exists sec flags, (sec, flags) ∈ section_flags ks /\
  sec.1 <= v < up 4096 sec.2 /\ x = (v - KERNEL_BASE + kernel_phys_base, perms flags).
Definition hit_trampoline (v : Z) (x : Z * (bool * bool * bool)) : Prop := AP_TRAMPOLINE_PHYS <= v < AP_TRAMPOLINE_PHYS + 4096 /\ x = (v, (true, true, false)).

Lemma hit_kinds l v : l ∈ kernel_leaves -> is_u64 v -> VirtAddr_is_canonical v = true -> covers l v = true ->
  let x := resolve (leaf_pte l, leaf_off l v) in hit_direct v x \/ hit_section v x \/ hit_trampoline v x.
Proof.
  intros Hl Hv Cv Hc x. apply (leaf_kinds memmap kernel_phys_base ks HB) in Hl as Hk. destruct (kind_placed memmap kernel_phys_base ks HB l Hk) as [Hg Hp (P1 & P2 & P3)].
  assert (x = (lf_phys l + v mod page_size l, perms (lf_flags l))) as -> by (by apply resolve_leaf).
  pose proof (covers_addr l v Hv Cv P1 P2 P3 Hc) as Ev. fold (page_size l) in Ev. assert (0 <= v mod page_size l < page_size l) as Hm by (apply Z.mod_pos_bound; unfold page_size; by destruct (lf_huge l)).
  set (off := v mod page_size l) in *. clearbody off. destruct Hk as [e He Hi Ht|sec flags k Hin Hk ->| ->].
  - left. destruct (direct_entry_good memmap kernel_phys_base ks HB e He) as [(G1 & G2 & G3) _]. exists e, (lf_phys l + off). pose proof Hi as ((phys & El) & Hr & Hi').
    assert (lf_virt l = KM_DIRECT_MAP_BASE + lf_phys l) as Hvl by (rewrite El; cbn [direct_leaf lf_virt lf_phys] in *; rewrite El in Hr; cbn [direct_leaf lf_phys] in Hr; by apply direct_virt; lia).
    assert (perms (lf_flags l) = (true, false, false)) as ->.
    { rewrite El. cbn [direct_leaf lf_flags]. unfold entry_flags. by destruct (_ =? _). }
    assert (dn 0x200000 (mm_base e) <= lf_phys l + off < up 0x200000 (entry_end e)) as Hb.
    { unfold page_size, dn, up in *; destruct (lf_huge l); [|destruct Hi' as (Hal & (y & Hy & Eb) & _)]; Z.div_mod_to_equations; lia. }
    split_and!; [done|lia|lia|lia|lia| |done]. intros Hcr. specialize (Ht Hcr). unfold page_size in Hm. destruct (lf_huge l); lia.
  - right; left. exists sec, flags. cbn [section_leaf lf_phys lf_virt lf_flags page_size lf_huge] in *. split_and!; [done|lia| |]; unfold page_size in Hm; cbn [section_leaf lf_huge] in Hm.
    + unfold up. Z.div_mod_to_equations; lia.
    + f_equal. lia.
  - right; right. cbn [trampoline_leaf lf_phys lf_virt lf_flags] in *. unfold page_size in Hm. cbn [trampoline_leaf lf_huge] in Hm. split; [unfold AP_TRAMPOLINE_PHYS in *; lia|]. f_equal. lia.
Qed.

(** What memory looks like through the tables at [root]. *)
Record memory_ready (t : pt_state A) (root : Z) : Prop := {
  mr_direct e a : e ∈ memmap -> mappable (mm_type e) = true -> has_gib e = false -> mm_base e <= a < entry_end e ->
    access t root (KM_DIRECT_MAP_BASE + a) = Some (a, (true, false, false));
  mr_apic a : 0xFEC00000 <= a < 0xFF000000 -> access t root (KM_DIRECT_MAP_BASE + a) = Some (a, (true, false, false));
  mr_image sec flags v : (sec, flags) ∈ section_flags ks -> sec.1 <= v < sec.2 -> access t root v = Some (v - KERNEL_BASE + kernel_phys_base, perms flags);
  mr_trampoline v : AP_TRAMPOLINE_PHYS <= v < AP_TRAMPOLINE_PHYS + 4096 -> access t root v = Some (v, (true, true, false));
  mr_only v x : is_u64 v -> VirtAddr_is_canonical v = true -> access t root v = Some x -> hit_direct v x \/ hit_section v x \/ hit_trampoline v x
}.

Lemma access_hit t root F v : maps root F t kernel_leaves -> access t root v = (fun l => resolve (leaf_pte l, leaf_off l v)) <$> hit kernel_leaves v.
Proof. intros [_ Hm]. unfold access. rewrite Hm. by destruct (hit kernel_leaves v). Qed.

(** An address on one of the pages is mapped, as its kind says. *)
Lemma access_covered t root F v l : maps root F t kernel_leaves -> is_u64 v -> VirtAddr_is_canonical v = true -> l ∈ kernel_leaves -> covers l v = true ->
  exists x, access t root v = Some x /\ (hit_direct v x \/ hit_section v x \/ hit_trampoline v x).
Proof.
  intros Hm Hv Cv Hl Hc. destruct (hit_covered kernel_leaves v l Hl Hc) as [l' Hh]. rewrite (access_hit t root F v Hm), Hh. eexists. split; [done|].
  destruct (hit_elem _ _ _ Hh). by apply hit_kinds.
Qed.

Lemma section_bounds sec flags : (sec, flags) ∈ section_flags ks -> good_section kernel_phys_base sec.
Proof. intros Hin. apply (gb_sections _ _ _ HB). unfold section_flags in Hin. set_solver. Qed.

(** The pages of two sections do not meet. *)
Lemma sections_apart sec flags sec' flags' v : (sec, flags) ∈ section_flags ks -> (sec', flags') ∈ section_flags ks -> sec.1 <= v < sec.2 -> sec'.1 <= v < up 4096 sec'.2 -> flags = flags'.
Proof.
  intros H1 H2 Hv Hv'. pose proof (gs_aligned _ _ (section_bounds _ _ H1)) as Ha. pose proof (gs_range _ _ (section_bounds _ _ H2)) as Hr. pose proof (gb_order _ _ _ HB) as Ho.
  pose proof (gs_range _ _ (gb_sections _ _ _ HB (ks_rodata ks) ltac:(set_solver))). pose proof (gs_range _ _ (gb_sections _ _ _ HB (ks_data ks) ltac:(set_solver))).
  assert (up 4096 sec'.2 <= sec.1 \/ sec.1 < sec'.2) as Hd by (unfold up; Z.div_mod_to_equations; lia).
  unfold section_flags in H1, H2. rewrite !elem_of_cons, elem_of_nil in H1, H2.
  destruct H1 as [[= -> ->]|[[= -> ->]|[[= -> ->]|[[= -> ->]|[]]]]], H2 as [[= -> ->]|[[= -> ->]|[[= -> ->]|[[= -> ->]|[]]]]]; try done; exfalso; lia.
Qed.

(** An address of an entry without a whole GiB. *)
Lemma direct_ready t root F e a : maps root F t kernel_leaves -> direct_entry memmap e -> has_gib e = false -> mm_base e <= a < entry_end e ->
  access t root (KM_DIRECT_MAP_BASE + a) = Some (a, (true, false, false)).
Proof.
  intros Hm He Hgib Ha. destruct (direct_entry_good _ _ _ HB e He) as [Hg Hmap]. destruct (leaves_entry_cover e a Hg Hmap Hgib Ha) as (l & Hl & Hc). destruct Hg as (G1 & G2 & G3).
  destruct (kernel_canonical (KM_DIRECT_MAP_BASE + a)) as [C1 C2]; [unfold KM_DIRECT_MAP_BASE; lia|].
  destruct (access_covered t root F (KM_DIRECT_MAP_BASE + a) l Hm C1 C2) as (x & -> & Hx); [|done|].
  { unfold kernel_leaves, leaves_all. rewrite leaves_apic, !elem_of_app, list_elem_of_bind. destruct He as [[He _]| ->]; [left; eauto|by right; left]. }
  destruct Hx as [(e' & a' & _ & Ea & _ & _ & _ & ->)|[(sec & flags & Hin & Hr & _)|[Hr _]]]; [do 2 f_equal; lia| |unfold AP_TRAMPOLINE_PHYS, KM_DIRECT_MAP_BASE in Hr; lia].
  pose proof (gs_range _ _ (section_bounds _ _ Hin)). unfold KERNEL_BASE, KM_DIRECT_MAP_BASE in *. lia.
Qed.

Lemma image_ready t root F sec flags v : maps root F t kernel_leaves -> (sec, flags) ∈ section_flags ks -> sec.1 <= v < sec.2 ->
  access t root v = Some (v - KERNEL_BASE + kernel_phys_base, perms flags).
Proof.
  intros Hm Hin Hv. pose proof (gs_range _ _ (section_bounds _ _ Hin)) as Hr. pose proof (gs_aligned _ _ (section_bounds _ _ Hin)) as Ha. unfold KERNEL_BASE in Hr.
  destruct (kernel_canonical v) as [C1 C2]; [lia|].
  destruct (access_covered t root F v (section_leaf kernel_phys_base flags sec.1 ((v - sec.1) / 4096)) Hm C1 C2) as (x & -> & Hx).
  { unfold kernel_leaves, leaves_all, leaves_kernel. rewrite !elem_of_app. right; right; left. assert (section_leaf kernel_phys_base flags sec.1 ((v - sec.1) / 4096) ∈ leaves_section kernel_phys_base flags sec) as Hl.
    { apply list_elem_of_fmap. eexists. split; [done|]. apply elem_of_seqZ. Z.div_mod_to_equations; lia. }
    unfold section_flags in Hin. rewrite !elem_of_cons, elem_of_nil in Hin. destruct Hin as [[= -> ->]|[[= -> ->]|[[= -> ->]|[[= -> ->]|[]]]]]; auto. }
  { unfold covers. cbn [section_leaf lf_huge lf_virt]. apply Z.eqb_eq. unfold vpage. change (2 ^ 12) with 4096. assert (sec.1 + (v - sec.1) / 4096 * 4096 = v - v mod 4096) as -> by (Z.div_mod_to_equations; lia).
    change (2 ^ 48) with 281474976710656. Z.div_mod_to_equations; lia. }
  destruct Hx as [(e' & a' & He' & Ea & _ & Hr' & _ & _)|[(sec' & flags' & Hin' & Hv' & ->)|[Hr' _]]]; [| |unfold AP_TRAMPOLINE_PHYS in Hr'; lia].
  + destruct (direct_entry_good _ _ _ HB e' He') as [(G1 & G2 & G3) _]. unfold KM_DIRECT_MAP_BASE, up in *. Z.div_mod_to_equations; lia.
  + by rewrite (sections_apart sec flags sec' flags' v Hin Hin' Hv Hv').
Qed.

Lemma trampoline_ready t root F v : maps root F t kernel_leaves -> AP_TRAMPOLINE_PHYS <= v < AP_TRAMPOLINE_PHYS + 4096 -> access t root v = Some (v, (true, true, false)).
Proof.
  intros Hm Hv. unfold AP_TRAMPOLINE_PHYS in Hv. assert (is_u64 v /\ VirtAddr_is_canonical v = true) as [C1 C2].
  { split; [unfold is_u64; lia|]. unfold VirtAddr_is_canonical. rewrite Z.shiftr_div_pow2, Z.div_small by lia. done. }
  destruct (access_covered t root F v trampoline_leaf Hm C1 C2) as (x & -> & Hx).
  { unfold kernel_leaves, leaves_all. rewrite !elem_of_app. do 3 right. by apply list_elem_of_singleton. }
  { unfold covers. cbn [trampoline_leaf lf_huge lf_virt]. apply Z.eqb_eq. unfold vpage. rewrite Z.mod_small by lia. change (AP_TRAMPOLINE_PHYS mod 2 ^ 48 / 2 ^ 12) with 8. change (2 ^ 12) with 4096. Z.div_mod_to_equations; lia. }
  destruct Hx as [(e' & a' & _ & Ea & Hr' & _)|[(sec' & flags' & Hin' & Hv' & _)|[_ ->]]]; [unfold KM_DIRECT_MAP_BASE in Ea; lia| |done].
  pose proof (gs_range _ _ (section_bounds _ _ Hin')). unfold KERNEL_BASE in *. lia.
Qed.

Lemma memory_is_ready t root F : maps root F t kernel_leaves -> memory_ready t root.
Proof.
  intros Hm. split.
  - intros e a He Hmap. apply (direct_ready t root F e a Hm). by left.
  - intros a Ha. by apply (direct_ready t root F apic_entry a Hm); [right|..].
  - intros sec flags v. by apply image_ready with F.
  - intros v. by apply trampoline_ready with F.
  - intros v x Hv Cv Hx. rewrite (access_hit t root F v Hm) in Hx. destruct (hit kernel_leaves v) as [l|] eqn:Hh; [|done]. injection Hx as <-. destruct (hit_elem _ _ _ Hh). by apply hit_kinds.
Qed.

(** ** The registers *)

(** What the initialisation leaves on the processor and in the published words. *)
Record cpu_ready (f : CpuFeatures) (b b' : boot_state A) : Prop := {
  cr_nx : Z.testbit (c_efer (b_cpu b')) 11 = true;
  cr_xcr0 : c_xcr0 (b_cpu b') = XCR0_X87_SSE;
  cr_cr4 i : 0 <= i -> Z.testbit (c_cr4 (b_cpu b')) i = Z.testbit (c_cr4 (b_cpu b)) i || (i =? 7) || (i =? 9) || (i =? 10) || (i =? 18) ||
    (pcid f && (i =? 17)) || (smep f && (i =? 20)) || (smap f && (i =? 21));
  cr_words : PCID_ENABLED b' = pcid f /\ INVPCID_AVAILABLE b' = invpcid f /\ BSP_CR4 b' = c_cr4 (b_cpu b');
  cr_serial : b_serial b' = b_serial b ++ [120; 121; 97; 98] ++ (if pcid f then [99] else []) ++ [100; 49; 50; 51; 52; 53; 54; 55]
}.

(** CR4 on the way to the new tables. *)
Definition early_cr4 (f : CpuFeatures) (cr4 : Z) : Z :=
  let v := Z.lor (Z.lor cr4 (Z.shiftl 1 7)) CR4_FPU_BITS in if pcid f then Z.lor v (Z.shiftl 1 17) else v.

Lemma early_cr4_bits f cr4 i : 0 <= i -> Z.testbit (early_cr4 f cr4) i = Z.testbit cr4 i || (i =? 7) || (i =? 9) || (i =? 10) || (i =? 18) || (pcid f && (i =? 17)).
Proof.
  intros Hi. unfold early_cr4, CR4_FPU_BITS. change (Z.shiftl 1 7) with (2 ^ 7). change (Z.shiftl 1 9) with (2 ^ 9). change (Z.shiftl 1 10) with (2 ^ 10). change (Z.shiftl 1 18) with (2 ^ 18). change (Z.shiftl 1 17) with (2 ^ 17).
  destruct (pcid f); rewrite !Z.lor_spec, !testbit_pow2, ?(Z.eqb_sym i) by lia; cbn [andb]; rewrite ?orb_false_r, ?orb_assoc; done.
Qed.

(** What CPUID says of these bits does not change with the registers. *)
Lemma supported_regs c efer cr3 cr4 xcr0 v : cr4_supported (set_regs c efer cr3 cr4 xcr0) v = cr4_supported c v.
Proof. reflexivity. Qed.

Lemma early_supported c (f := detect_cpu_features c) : xsave f = true -> cr4_supported c (c_cr4 c) = true -> cr4_supported c (early_cr4 f (c_cr4 c)) = true.
Proof.
  intros Hx. unfold cr4_supported. fold f. rewrite !early_cr4_bits by lia. cbn [Z.eqb Pos.eqb]. rewrite Hx. rewrite !orb_false_r, ?andb_false_r, ?orb_false_r.
  destruct (Z.testbit (c_cr4 c) 17), (Z.testbit (c_cr4 c) 18), (Z.testbit (c_cr4 c) 20), (Z.testbit (c_cr4 c) 21), (pcid f), (smep f), (smap f); done.
Qed.

Lemma write_cr4_ok c v : cr4_supported c v = true -> (Z.testbit v 17 = true -> Z.testbit (c_cr4 c) 17 = true \/ Z.land (c_cr3 c) 0xFFF = 0) -> write_cr4 c v = Done (set_regs c (c_efer c) (c_cr3 c) v (c_xcr0 c)).
Proof.
  intros Hsu Hv. unfold write_cr4. rewrite Hsu. cbn [negb]. destruct (Z.testbit v 17); [|done]. destruct (Hv eq_refl) as [->| ->]; [done|]. by rewrite andb_false_r.
Qed.

Lemma enable_features_ok (b : boot_state A) (f := detect_cpu_features (b_cpu b)) : xsave f = true -> cr4_supported (b_cpu b) (c_cr4 (b_cpu b)) = true -> (pcid f = true -> Z.land (c_cr3 (b_cpu b)) 0xFFF = 0) -> q_ebx (c_cpuid (b_cpu b) XCR0_X87_SSE 0x0D 0) <= XSAVE_X87_SSE_SIZE ->
  enable_features f b = Done (set_pcid_support
    {| b_cpu := set_regs (b_cpu b) (Z.lor (c_efer (b_cpu b)) (Z.shiftl 1 11)) (c_cr3 (b_cpu b)) (early_cr4 f (c_cr4 (b_cpu b))) XCR0_X87_SSE; b_tables := b_tables b;
       PCID_ENABLED := PCID_ENABLED b; INVPCID_AVAILABLE := INVPCID_AVAILABLE b; BSP_CR4 := BSP_CR4 b; KERNEL_IMAGE_VA_OFFSET := KERNEL_IMAGE_VA_OFFSET b;
       b_serial := b_serial b ++ [97; 98] ++ (if pcid f then [99] else []) ++ [100] |} (pcid f) (invpcid f)).
Proof.
  intros Hxs Hsu Hp Hx. unfold enable_features.
  set (b1 := serial_marker (serial_marker (with_cpu b _) 97) 98).
  change (c_cr4 (b_cpu (serial_marker _ 97))) with (c_cr4 (b_cpu b)). change (c_cr3 (b_cpu b1)) with (c_cr3 (b_cpu b)).
  set (b2 := if pcid f then serial_marker b1 99 else b1).
  assert (b_cpu b2 = write_efer (b_cpu b) (Z.lor (c_efer (b_cpu b)) (Z.shiftl 1 11))) as Hc by (unfold b2; by destruct (pcid f)).
  assert ((if pcid f then if negb (Z.land (c_cr3 (b_cpu b)) 0xFFF =? 0) then Panic else Done (Z.lor (Z.lor (Z.lor (c_cr4 (b_cpu b)) (Z.shiftl 1 7)) CR4_FPU_BITS) (Z.shiftl 1 17), serial_marker b1 99, true)
    else Done (Z.lor (Z.lor (c_cr4 (b_cpu b)) (Z.shiftl 1 7)) CR4_FPU_BITS, b1, false)) = Done (early_cr4 f (c_cr4 (b_cpu b)), b2, pcid f)) as ->.
  { unfold b2, early_cr4. destruct (pcid f); [by rewrite Hp|done]. }
  run. rewrite Hc, write_cr4_ok.
  2:{ unfold write_efer. rewrite supported_regs. by apply early_supported. }
  2:{ cbn [write_efer set_regs c_cr4 c_cr3]. rewrite early_cr4_bits by lia. destruct (pcid f); [right; by apply Hp|]. cbn. rewrite !orb_false_r. by left. }
  run. unfold enable_xcr0_x87_sse, xsetbv. cbn [b_cpu serial_marker with_cpu set_regs c_cr4]. rewrite early_cr4_bits by lia. rewrite orb_true_r. cbn [orb]. run.
  unfold assert_, xsave_area_size, cpuid_count. cbn [b_cpu serial_marker with_cpu set_regs c_cpuid c_xcr0 write_efer Z.eqb Pos.eqb]. rewrite (proj2 (Z.leb_le _ _) Hx). run. do 2 f_equal.
  unfold b2, b1. destruct (pcid f); unfold with_cpu, serial_marker, set_regs; cbn; by rewrite <- ?app_assoc.
Qed.

Definition late_cr4 (f : CpuFeatures) (cr4 : Z) : Z :=
  let v := if smep f then Z.lor cr4 (Z.shiftl 1 20) else cr4 in if smap f then Z.lor v (Z.shiftl 1 21) else v.

Lemma late_cr4_bits f cr4 i : 0 <= i -> Z.testbit (late_cr4 f cr4) i = Z.testbit cr4 i || (smep f && (i =? 20)) || (smap f && (i =? 21)).
Proof.
  intros Hi. unfold late_cr4. change (Z.shiftl 1 20) with (2 ^ 20). change (Z.shiftl 1 21) with (2 ^ 21).
  destruct (smep f), (smap f); rewrite ?Z.lor_spec, ?testbit_pow2, ?(Z.eqb_sym i) by lia; cbn [andb]; by rewrite ?orb_false_r.
Qed.

Lemma make_cr3_root root : root mod 4096 = 0 -> 0 < root < 2 ^ 44 -> make_cr3 root 0 false = root /\ Z.land root 0xFFF = 0.
Proof.
  intros Ha Hr. split.
  - unfold make_cr3. rewrite Z.land_0_l, Z.lor_0_r. unfold PhysAddr_frame_bits, shl64. masks. rewrite Z.land_ones, Z.shiftr_div_pow2, Z.shiftl_mul_pow2 by lia.
    rewrite Z.mod_small by (Z.div_mod_to_equations; lia). rewrite wrap64_small by (unfold is_u64; Z.div_mod_to_equations; lia). change (2 ^ 12) with 4096. Z.div_mod_to_equations; lia.
  - masks. rewrite Z.land_ones by lia. exact Ha.
Qed.

Lemma flush_global_ok c : cr4_supported c (c_cr4 c) = true -> Z.land (c_cr3 c) 0xFFF = 0 -> flush_global c = Done c.
Proof.
  intros Hsu Hc. unfold flush_global. rewrite write_cr4_ok; [|..|by right].
  - run. rewrite write_cr4_ok by (done || by right). by destruct c.
  - revert Hsu. unfold cr4_supported. rewrite !Z.land_spec. by rewrite !andb_true_r.
Qed.

Lemma late_supported c (f := detect_cpu_features c) v : cr4_supported c v = true -> cr4_supported c (late_cr4 f v) = true.
Proof.
  unfold cr4_supported. fold f. rewrite !late_cr4_bits by lia. cbn [Z.eqb Pos.eqb]. rewrite ?andb_false_r, ?orb_false_r, ?andb_true_r.
  destruct (Z.testbit v 17), (Z.testbit v 18), (Z.testbit v 20), (Z.testbit v 21), (pcid f), (xsave f), (smep f), (smap f); done.
Qed.

(** C2: Turning paging on, on a CPU with XSAVE whose save area for x87 and SSE has at most
    the size the kernel reserves, whose CR4 has no bit that the CPU lacks and whose CR3 has
    its low bits clear if there are PCIDs, with a memory map of mapped entries that lie below 2^46, apart from
    each other and from the APIC window, and page-aligned kernel sections in order: it never
    faults or panics when the early frames suffice for the tables the map needs, and leaves
    the machine as follows.  CR3 holds the new root; every address of the memory the boot
    loader reports as usable (in entries without a whole aligned GiB) and of the APIC window
    is reached at its place in the direct map, writable and never executable; the sections
    of the kernel are mapped to the image, text executable and not writable, the others not
    executable, constants not writable; the trampoline page is mapped at its own address; no
    page is reachable from user mode.  Nothing else is mapped but what rounding adds: to
    small pages at the ends of a section and of an entry of the map, and to its 2 MiB block
    for an entry that does not reach a boundary of blocks.  NXE, PGE, the FPU bits and, where
    the CPU has them, PCIDE, SMEP and SMAP are set, and the published CR4 is the one in
    force. *)
Theorem paging_init_exact (b : boot_state A) :
  let f := detect_cpu_features (b_cpu b) in
  xsave f = true -> cr4_supported (b_cpu b) (c_cr4 (b_cpu b)) = true -> (pcid f = true -> Z.land (c_cr3 (b_cpu b)) 0xFFF = 0) -> q_ebx (c_cpuid (b_cpu b) XCR0_X87_SSE 0x0D 0) <= XSAVE_X87_SSE_SIZE ->
  fa_ok (pt_alloc (b_tables b)) -> (S (size (tables_of kernel_leaves)) <= size (fa_free (pt_alloc (b_tables b))))%nat ->
  exists b', paging_init memmap kernel_phys_base ks b = Done b' /\ cpu_ready f b b' /\ memory_ready (b_tables b') (c_cr3 (b_cpu b')).
Proof.
  intros f Hxs Hsu Hp Hx Ha Hs. pose proof (early_supported (b_cpu b) Hxs Hsu) as Hes. destruct (tables_built (b_tables b) Ha Hs) as (root & t0 & t1 & t2 & t3 & t4 & E0 & E1 & E2 & E3 & E4 & Hal & Hr & Hm).
  destruct (make_cr3_root root Hal Hr) as [Hcr3 Hlow]. unfold paging_init.
  set (b1 := serial_marker (set_kernel_image_va_offset (serial_marker b 120) _) 121). change (detect_cpu_features (b_cpu (set_kernel_image_va_offset _ _))) with f.
  unfold PagingInit_init. change f with (detect_cpu_features (b_cpu b1)). rewrite (enable_features_ok b1) by done. change (detect_cpu_features (b_cpu b1)) with f. run. cbn [b_tables serial_marker set_pcid_support with_tables]. change (b_tables b1) with (b_tables b).
  rewrite E0. run. cbn [b_tables serial_marker with_tables]. rewrite E1. run. rewrite E2. run. cbn [b_tables serial_marker with_tables]. rewrite E3. run.
  cbn [b_tables serial_marker with_tables]. rewrite E4. run. rewrite Hcr3. rewrite flush_global_ok by (exact Hes || done). run.
  unfold enable_supervisor_protections. cbn [b_cpu with_cpu install_page_table set_regs c_cr4 serial_marker with_tables set_pcid_support]. fold (late_cr4 f (early_cr4 f (c_cr4 (b_cpu b1)))).
  rewrite write_cr4_ok by (exact (late_supported (b_cpu b) _ Hes) || by right). run. eexists. split; [done|]. split.
  - split.
    + change (Z.testbit (Z.lor (c_efer (b_cpu b)) (Z.shiftl 1 11)) 11 = true). rewrite Z.lor_spec. apply orb_true_r.
    + done.
    + intros i Hi. cbn [b_cpu serial_marker publish_bsp_cr4 with_cpu set_regs c_cr4]. rewrite late_cr4_bits, early_cr4_bits by done. done.
    + done.
    + cbn [b_serial serial_marker publish_bsp_cr4 with_cpu with_tables set_pcid_support b1 set_kernel_image_va_offset]. by rewrite <- !app_assoc.
  - cbn [b_tables serial_marker publish_bsp_cr4 with_cpu with_tables b_cpu set_regs c_cr3 install_page_table]. by eapply memory_is_ready.
Qed.
End Spec.

(** ** A machine *)

(** A CPU with every feature of leaf 7 and a save area of 576 bytes. *)
Definition demo_cpuid (_ leaf_ _ : Z) : cpuid_regs :=
  if leaf_ =? 0x0D then {| q_eax := 0; q_ebx := 576; q_ecx := 0; q_edx := 0 |}
  else {| q_eax := 0x80000008; q_ebx := 0xFFFFFFFF; q_ecx := 0xFFFFFFFF; q_edx := 0xFFFFFFFF |}.

Definition demo_boot : boot_state BumpAllocator :=
  {| b_cpu := {| c_cpuid := demo_cpuid; c_efer := 0x500; c_cr3 := 0x5000; c_cr4 := 0x20; c_xcr0 := 1 |};
     b_tables := {| tabs := ∅; pt_alloc := {| bump_n := 129; bump_next := 1 |} |};
     PCID_ENABLED := false; INVPCID_AVAILABLE := false; BSP_CR4 := 0; KERNEL_IMAGE_VA_OFFSET := 0; b_serial := [] |}.

Definition demo_sections : sections :=
  {| ks_text := (KERNEL_BASE, KERNEL_BASE + 0x1800); ks_rodata := (KERNEL_BASE + 0x2000, KERNEL_BASE + 0x2100);
     ks_data := (KERNEL_BASE + 0x3000, KERNEL_BASE + 0x3010); ks_bss := (KERNEL_BASE + 0x4000, KERNEL_BASE + 0x5000) |}.

Definition demo_map : list LimineMemMapEntry :=
  [{| mm_base := 0x200000; mm_length := 0x401000; mm_type := LIMINE_MEMMAP_USABLE |};
   {| mm_base := 0x601000; mm_length := 0x1000; mm_type := 1 |};
   {| mm_base := 0x800000; mm_length := 0x3000; mm_type := LIMINE_MEMMAP_FRAMEBUFFER |}].

Lemma demo_good : good_boot demo_map 0x2000000 demo_sections.
Proof.
  assert (forall e, e ∈ demo_map -> mappable (mm_type e) = true ->
    e = {| mm_base := 0x200000; mm_length := 0x401000; mm_type := LIMINE_MEMMAP_USABLE |} \/ e = {| mm_base := 0x800000; mm_length := 0x3000; mm_type := LIMINE_MEMMAP_FRAMEBUFFER |}) as Hc.
  { intros e He Hm. unfold demo_map in He. rewrite !elem_of_cons, elem_of_nil in He. destruct He as [->|[->|[->|[]]]]; [by left|done|by right]. }
  split.
  - intros e He Hm. destruct (Hc e He Hm) as [->| ->]; unfold good_entry, entry_end; cbn; lia.
  - intros e e' He He' Hm Hm'. destruct (Hc e He Hm) as [->| ->], (Hc e' He' Hm') as [->| ->]; unfold entry_end; cbn; lia || by left.
  - intros e He Hm. destruct (Hc e He Hm) as [->| ->]; unfold entry_end; cbn; lia.
  - intros sec Hs. rewrite !elem_of_cons, elem_of_nil in Hs. destruct Hs as [->|[->|[->|[->|[]]]]]; split; unfold KERNEL_BASE; cbn; lia || done.
  - unfold KERNEL_BASE; cbn; lia.
Qed.

Lemma paging_init_exact_witness : exists b', paging_init demo_map 0x2000000 demo_sections demo_boot = Done b' /\
  access (b_tables b') (c_cr3 (b_cpu b')) (KM_DIRECT_MAP_BASE + 0x600fff) = Some (0x600fff, (true, false, false)) /\
  access (b_tables b') (c_cr3 (b_cpu b')) (KERNEL_BASE + 0x17ff) = Some (0x20017ff, (false, true, false)) /\ BSP_CR4 b' = 0x3606a0.
Proof.
  destruct (paging_init_exact demo_map 0x2000000 demo_sections demo_good demo_boot) as (b' & E & C & M).
  - reflexivity.
  - reflexivity.
  - reflexivity.
  - vm_compute. discriminate.
  - split; cbn; lia.
  - apply (bool_decide_unpack _). vm_compute. exact I.
  - exists b'. split; [exact E|]. split_and!.
    + apply (mr_direct _ _ _ _ _ M {| mm_base := 0x200000; mm_length := 0x401000; mm_type := LIMINE_MEMMAP_USABLE |}); [left|done|done|unfold entry_end; cbn; lia].
    + apply (mr_image _ _ _ _ _ M (KERNEL_BASE, KERNEL_BASE + 0x1800) ktext_flags); [left|unfold KERNEL_BASE; cbn; lia].
    + destruct (cr_words _ _ _ C) as (_ & _ & ->). apply Z.bits_inj'. intros i Hi. rewrite (cr_cr4 _ _ _ C i Hi). change 0x3606a0 with (Z.lor 0x20 (Z.lor (2 ^ 7) (Z.lor (2 ^ 9) (Z.lor (2 ^ 10) (Z.lor (2 ^ 18) (Z.lor (2 ^ 17) (Z.lor (2 ^ 20) (2 ^ 21)))))))).
      rewrite !Z.lor_spec, !testbit_pow2, !(Z.eqb_sym _ i) by lia. cbn [pcid smep smap]. by rewrite !orb_assoc.
Defined.

(** An entry that holds a whole aligned GiB: of each GiB only the first 2 MiB are mapped. *)
Lemma gib_entry_unmapped : match paging_init [{| mm_base := 0x100000000; mm_length := 0x80000000; mm_type := LIMINE_MEMMAP_USABLE |}] 0x2000000 demo_sections demo_boot with
  | Done b' => access (b_tables b') (c_cr3 (b_cpu b')) (KM_DIRECT_MAP_BASE + 0x1001fffff) = Some (0x1001fffff, (true, false, false)) /\
      access (b_tables b') (c_cr3 (b_cpu b')) (KM_DIRECT_MAP_BASE + 0x100200000) = None /\ access (b_tables b') (c_cr3 (b_cpu b')) (KM_DIRECT_MAP_BASE + 0x17fffffff) = None
  | Panic => False end.
Proof. vm_compute. by split. Qed.

(** An entry inside one 2 MiB block: the whole block is mapped, also what is reserved. *)
Lemma small_entry_maps_block : match paging_init [{| mm_base := 0x201000; mm_length := 0x2000; mm_type := LIMINE_MEMMAP_USABLE |}] 0x2000000 demo_sections demo_boot with
  | Done b' => access (b_tables b') (c_cr3 (b_cpu b')) (KM_DIRECT_MAP_BASE + 0x200000) = Some (0x200000, (true, false, false)) /\
      access (b_tables b') (c_cr3 (b_cpu b')) (KM_DIRECT_MAP_BASE + 0x3fffff) = Some (0x3fffff, (true, false, false))
  | Panic => False end.
Proof. vm_compute. by split. Qed.

(** A CPU without XSAVE: the features are looked up, but OSXSAVE is set all the same. *)
Lemma no_xsave_faults : let c := {| c_cpuid := fun x l u => let q := demo_cpuid x l u in {| q_eax := q_eax q; q_ebx := q_ebx q; q_ecx := Z.clearbit (q_ecx q) 26; q_edx := q_edx q |};
    c_efer := 0x500; c_cr3 := 0x5000; c_cr4 := 0x20; c_xcr0 := 1 |} in
  xsave (detect_cpu_features c) = false /\ paging_init demo_map 0x2000000 demo_sections (with_cpu demo_boot c) = Panic.
Proof. split; vm_compute; reflexivity. Qed.
