(* ===== verification/VirtioInit.v ===== *)
(** * Bringing up the network device (crates/virtio/src/device.rs, lib.rs, net.rs)

    The walk of the device's capabilities, the handshake over the common configuration
    structure, the set-up of the two queues and of their interrupt, up to the moment the
    device goes live.  The device is the hardware side of that structure as the virtio
    specification has it: registers that depend on a selector, a reset that takes some
    reads to finish, and the right to refuse a set of features. *)

From Stdlib Require Import ZArith Lia.
From stdpp Require Import prelude list.
From S2P Require Import Prelude Frames Virtq VirtioRx VirtioTx Pci PciSpec.

Local Open Scope Z_scope.

(** ** The device *)

Record vqueue := { qr_size : Z; qr_msix : Z; qr_enable : Z; qr_notify_off : Z; qr_desc : Z; qr_driver : Z; qr_device : Z }.

(** Where its structures are, what it offers and accepts, how many reads of the status a
    reset takes, and its registers. *)
Record vdev := {
  ve_common : Z; ve_notify : Z; ve_config : Z;
  ve_features : Z * Z; ve_accepts : Z * Z -> bool; ve_reset_reads : nat; ve_offered : list vqueue; ve_config_bytes : Z -> Z;
  ve_feature_select : Z; ve_driver_select : Z; ve_driver : Z * Z;
  ve_status : Z; ve_resetting : option nat; ve_queue_select : Z; ve_queues : list vqueue; ve_notified : list (Z * Z)
}.

(** Sets the registers, keeping what the device is. *)
Definition ve_set (d : vdev) (fs ds : Z) (drv : Z * Z) (st : Z) (rs : option nat) (qs : Z) (queues : list vqueue) (nt : list (Z * Z)) : vdev :=
  {| ve_common := ve_common d; ve_notify := ve_notify d; ve_config := ve_config d;
     ve_features := ve_features d; ve_accepts := ve_accepts d; ve_reset_reads := ve_reset_reads d; ve_offered := ve_offered d; ve_config_bytes := ve_config_bytes d;
     ve_feature_select := fs; ve_driver_select := ds; ve_driver := drv; ve_status := st; ve_resetting := rs; ve_queue_select := qs; ve_queues := queues; ve_notified := nt |}.

(** A device after its reset. *)
Definition ve_fresh (d : vdev) : vdev := ve_set d 0 0 (0, 0) 0 None 0 (ve_offered d) [].

Definition CFG_DEVICE_FEATURE_SELECT : Z := 0.
Definition CFG_DEVICE_FEATURE : Z := 4.
Definition CFG_DRIVER_FEATURE_SELECT : Z := 8.
Definition CFG_DRIVER_FEATURE : Z := 12.
Definition CFG_DEVICE_STATUS : Z := 20.
Definition CFG_QUEUE_SELECT : Z := 22.
Definition CFG_QUEUE_SIZE : Z := 24.
Definition CFG_QUEUE_MSIX_VECTOR : Z := 26.
Definition CFG_QUEUE_ENABLE : Z := 28.
Definition CFG_QUEUE_NOTIFY_OFF : Z := 30.
Definition CFG_QUEUE_DESC : Z := 32.
Definition CFG_QUEUE_DRIVER : Z := 40.
Definition CFG_QUEUE_DEVICE : Z := 48.

Definition selected_queue (d : vdev) : option vqueue := ve_queues d !! Z.to_nat (ve_queue_select d).

(** A read of the structure; the last read of a reset finishes it. *)
Definition common_read (d : vdev) (off : Z) : Z * vdev :=
  if off =? CFG_DEVICE_FEATURE then ((if ve_feature_select d =? 0 then (ve_features d).1 else if ve_feature_select d =? 1 then (ve_features d).2 else 0), d)
  else if off =? CFG_DEVICE_STATUS then
    match ve_resetting d with
    | Some (S n) => (ve_status d, ve_set d (ve_feature_select d) (ve_driver_select d) (ve_driver d) (ve_status d) (Some n) (ve_queue_select d) (ve_queues d) (ve_notified d))
    | Some O => (0, ve_fresh d)
    | None => (ve_status d, d)
    end
  else if off =? CFG_QUEUE_SIZE then (match selected_queue d with Some q => qr_size q | None => 0 end, d)
  else if off =? CFG_QUEUE_NOTIFY_OFF then (match selected_queue d with Some q => qr_notify_off q | None => 0 end, d)
  else (0, d).

Definition queue_write (q : vqueue) (off v : Z) : vqueue :=
  {| qr_size := if off =? CFG_QUEUE_SIZE then v else qr_size q;
     qr_msix := if off =? CFG_QUEUE_MSIX_VECTOR then v else qr_msix q;
     qr_enable := if off =? CFG_QUEUE_ENABLE then v else qr_enable q;
     qr_notify_off := qr_notify_off q;
     qr_desc := if off =? CFG_QUEUE_DESC then v else qr_desc q;
     qr_driver := if off =? CFG_QUEUE_DRIVER then v else qr_driver q;
     qr_device := if off =? CFG_QUEUE_DEVICE then v else qr_device q |}.

(** A write; the device keeps FEATURES_OK only for features it accepts, and a reset shows
    in the status until it is done. *)
Definition common_write (d : vdev) (off v : Z) : vdev :=
  let upd fs ds drv st rs qs queues := ve_set d fs ds drv st rs qs queues (ve_notified d) in
  let fs := ve_feature_select d in let ds := ve_driver_select d in let drv := ve_driver d in let st := ve_status d in
  let rs := ve_resetting d in let qs := ve_queue_select d in let queues := ve_queues d in
  if off =? CFG_DEVICE_FEATURE_SELECT then upd v ds drv st rs qs queues
  else if off =? CFG_DRIVER_FEATURE_SELECT then upd fs v drv st rs qs queues
  else if off =? CFG_DRIVER_FEATURE then upd fs ds (if ds =? 0 then (v, drv.2) else if ds =? 1 then (drv.1, v) else drv) st rs qs queues
  else if off =? CFG_DEVICE_STATUS then
    if v =? 0 then (if st =? 0 then ve_fresh d else upd fs ds drv st (Some (ve_reset_reads d)) qs queues)
    else upd fs ds drv (if negb (Z.land v 8 =? 0) && negb (ve_accepts d drv) then Z.land v (Z.lxor 8 0xff) else v) rs qs queues
  else if off =? CFG_QUEUE_SELECT then upd fs ds drv st rs v queues
  else upd fs ds drv st rs qs (alter (fun q => queue_write q off v) (Z.to_nat qs) queues).

(** ** The transport *)

Record CapLoc := { cl_bar : Z; cl_offset : Z; cl_length : Z; cl_notify_multiplier : Z; cl_present : bool }.
Record VirtioCaps := { vc_common : CapLoc; vc_notify : CapLoc; vc_device : CapLoc }.
Record VirtioTransport := { vt_common_va : Z; vt_notify_base_va : Z; vt_notify_multiplier : Z; vt_device_cfg_va : Z }.

Definition CapLoc_default : CapLoc := {| cl_bar := 0; cl_offset := 0; cl_length := 0; cl_notify_multiplier := 0; cl_present := false |}.
Definition VirtioCaps_default : VirtioCaps := {| vc_common := CapLoc_default; vc_notify := CapLoc_default; vc_device := CapLoc_default |}.

Definition VIRTIO_PCI_CAP_VENDOR : Z := 0x09.
Definition STATUS_ACKNOWLEDGE : Z := 1.
Definition STATUS_DRIVER : Z := 2.
Definition STATUS_DRIVER_OK : Z := 4.
Definition STATUS_FEATURES_OK : Z := 8.
Definition STATUS_FAILED : Z := 128.
Definition VIRTIO_NET_F_MAC_BIT : Z := 32.
Definition VIRTIO_F_VERSION_1_BIT : Z := 1.

Definition cfg_va (bar_phys offset : Z) : Z := wrap64 (VQ_DIRECT_MAP_BASE + bar_phys + offset).
Definition notify_addr (notify_base_va queue_notify_off multiplier : Z) : Z := wrap64 (notify_base_va + queue_notify_off * multiplier).
Definition negotiate_features (device_lo device_hi : Z) : Z * Z := (Z.land device_lo VIRTIO_NET_F_MAC_BIT, Z.land device_hi VIRTIO_F_VERSION_1_BIT).
Definition has_version_1 (driver_hi : Z) : bool := negb (Z.land driver_hi VIRTIO_F_VERSION_1_BIT =? 0).

(** [read_cap_u32]: four byte reads, the offsets wrapping at eight bits. *)
Definition read_cap_u32 (s : pci_machine) (k : bdf) (off : Z) : Z * pci_machine :=
  let '(b0, s) := pci_config_read_u8 s k off in
  let '(b1, s) := pci_config_read_u8 s k (wrapw 8 (off + 1)) in
  let '(b2, s) := pci_config_read_u8 s k (wrapw 8 (off + 2)) in
  let '(b3, s) := pci_config_read_u8 s k (wrapw 8 (off + 3)) in
  (Z.lor (Z.lor (Z.lor b0 (Z.shiftl b1 8)) (Z.shiftl b2 16)) (Z.shiftl b3 24), s).

(** A vendor capability: what [walk_virtio_caps] does at one. *)
Definition read_vendor_cap (s : pci_machine) (k : bdf) (ptr : Z) (caps : VirtioCaps) : VirtioCaps * pci_machine :=
  let '(cfg_type, s) := pci_config_read_u8 s k (wrapw 8 (ptr + 3)) in
  let '(bar, s) := pci_config_read_u8 s k (wrapw 8 (ptr + 4)) in
  let '(offset, s) := read_cap_u32 s k (wrapw 8 (ptr + 8)) in
  let '(len, s) := read_cap_u32 s k (wrapw 8 (ptr + 12)) in
  let loc m := {| cl_bar := bar; cl_offset := offset; cl_length := len; cl_notify_multiplier := m; cl_present := true |} in
  if cfg_type =? 1 then ({| vc_common := loc 0; vc_notify := vc_notify caps; vc_device := vc_device caps |}, s)
  else if cfg_type =? 2 then
    let '(m, s) := read_cap_u32 s k (wrapw 8 (ptr + 16)) in
    ({| vc_common := vc_common caps; vc_notify := loc m; vc_device := vc_device caps |}, s)
  else if cfg_type =? 4 then ({| vc_common := vc_common caps; vc_notify := vc_notify caps; vc_device := loc 0 |}, s)
  else (caps, s).

Definition vcap_step (k : bdf) (st : Z * Z * VirtioCaps * pci_machine) : (Z * Z * VirtioCaps * pci_machine) + (VirtioCaps * pci_machine) :=
  let '(ptr, guard, caps, s) := st in
  if negb (ptr =? 0) && (guard <? 48) then
    let '(id, s) := pci_config_read_u8 s k ptr in
    let '(next, s) := pci_config_read_u8 s k (wrapw 8 (ptr + 1)) in
    let '(caps, s) := if id =? VIRTIO_PCI_CAP_VENDOR then read_vendor_cap s k ptr caps else (caps, s) in
    inl (Z.land next 0xfc, guard + 1, caps, s)
  else inr (caps, s).

(** At most 64 rounds; the guard stops the walk after 48. *)
Definition walk_virtio_caps (s : pci_machine) (k : bdf) : outcome (VirtioCaps * pci_machine) :=
  let '(ptr, s) := pci_config_read_u8 s k 0x34 in
  match iterate (vcap_step k) 6 (Z.land ptr 0xfc, 0, VirtioCaps_default, s) with inr r => Done r | inl _ => Panic end.

Definition VirtioTransport_new (bars : list Z) (caps : VirtioCaps) : outcome VirtioTransport :=
  common_bar ← expect (bars !! Z.to_nat (cl_bar (vc_common caps)));
  notify_bar ← expect (bars !! Z.to_nat (cl_bar (vc_notify caps)));
  device_bar ← expect (bars !! Z.to_nat (cl_bar (vc_device caps)));
  Done {| vt_common_va := cfg_va common_bar (cl_offset (vc_common caps));
          vt_notify_base_va := cfg_va notify_bar (cl_offset (vc_notify caps));
          vt_notify_multiplier := cl_notify_multiplier (vc_notify caps);
          vt_device_cfg_va := cfg_va device_bar (cl_offset (vc_device caps)) |}.

(** Volatile accesses to the common structure reach the device at the physical address. *)
Definition mmio_read (d : vdev) (va : Z) : Z * vdev := common_read d (dm va - ve_common d).
Definition mmio_write (d : vdev) (va v : Z) : vdev := common_write d (dm va - ve_common d) v.

Section Transport.
Context (t : VirtioTransport).

Definition status (d : vdev) : Z * vdev := mmio_read d (vt_common_va t + CFG_DEVICE_STATUS).
Definition set_status (d : vdev) (v : Z) : vdev := mmio_write d (vt_common_va t + CFG_DEVICE_STATUS) v.

Definition device_feature (d : vdev) (select : Z) : Z * vdev :=
  let d := mmio_write d (vt_common_va t + CFG_DEVICE_FEATURE_SELECT) select in
  mmio_read d (vt_common_va t + CFG_DEVICE_FEATURE).

Definition set_driver_feature (d : vdev) (select value : Z) : vdev :=
  let d := mmio_write d (vt_common_va t + CFG_DRIVER_FEATURE_SELECT) select in
  mmio_write d (vt_common_va t + CFG_DRIVER_FEATURE) value.

Definition RESET_SPINS : Z := 1000000.

Definition reset_step (st : Z * vdev) : (Z * vdev) + vdev :=
  let '(spins, d) := st in
  let '(v, d) := status d in
  if negb (v =? 0) && (spins <? RESET_SPINS) then inl (spins + 1, d) else inr d.

(** The reset loop makes at most a million and one of the 2 ^ 20 rounds. *)
Definition negotiate (d : vdev) : outcome (bool * vdev) :=
  let d := set_status d 0 in
  match iterate reset_step 20 (0, d) with
  | inl _ => Panic
  | inr d =>
      let d := set_status d STATUS_ACKNOWLEDGE in
      let d := set_status d (Z.lor STATUS_ACKNOWLEDGE STATUS_DRIVER) in
      let '(dev_lo, d) := device_feature d 0 in
      let '(dev_hi, d) := device_feature d 1 in
      let '(drv_lo, drv_hi) := negotiate_features dev_lo dev_hi in
      if negb (has_version_1 drv_hi) then Done (false, set_status d (Z.lor (Z.lor STATUS_ACKNOWLEDGE STATUS_DRIVER) STATUS_FAILED))
      else
        let d := set_driver_feature d 0 drv_lo in
        let d := set_driver_feature d 1 drv_hi in
        let d := set_status d (Z.lor (Z.lor STATUS_ACKNOWLEDGE STATUS_DRIVER) STATUS_FEATURES_OK) in
        let '(v, d) := status d in
        if Z.land v STATUS_FEATURES_OK =? 0 then Done (false, set_status d (Z.lor (Z.lor STATUS_ACKNOWLEDGE STATUS_DRIVER) STATUS_FAILED))
        else Done (true, d)
  end.

Definition set_driver_ok (d : vdev) : vdev :=
  set_status d (Z.lor (Z.lor (Z.lor STATUS_ACKNOWLEDGE STATUS_DRIVER) STATUS_FEATURES_OK) STATUS_DRIVER_OK).

Definition setup_queue (d : vdev) (queue_index queue_size desc_phys avail_phys used_phys msix_vector : Z) : Z * vdev :=
  let base := vt_common_va t in
  let d := mmio_write d (base + CFG_QUEUE_SELECT) queue_index in
  let d := mmio_write d (base + CFG_QUEUE_SIZE) queue_size in
  let d := mmio_write d (base + CFG_QUEUE_DESC) desc_phys in
  let d := mmio_write d (base + CFG_QUEUE_DRIVER) avail_phys in
  let d := mmio_write d (base + CFG_QUEUE_DEVICE) used_phys in
  let d := mmio_write d (base + CFG_QUEUE_MSIX_VECTOR) msix_vector in
  let '(notify_off, d) := mmio_read d (base + CFG_QUEUE_NOTIFY_OFF) in
  (notify_off, mmio_write d (base + CFG_QUEUE_ENABLE) 1).

Definition queue_size (d : vdev) (queue_index : Z) : Z * vdev :=
  let d := mmio_write d (vt_common_va t + CFG_QUEUE_SELECT) queue_index in
  mmio_read d (vt_common_va t + CFG_QUEUE_SIZE).

(** The write goes to the notification structure: which address, which queue. *)
Definition notify_queue (d : vdev) (queue_index notify_off : Z) : vdev :=
  let addr := notify_addr (vt_notify_base_va t) notify_off (vt_notify_multiplier t) in
  ve_set d (ve_feature_select d) (ve_driver_select d) (ve_driver d) (ve_status d) (ve_resetting d) (ve_queue_select d) (ve_queues d)
    (ve_notified d ++ [(dm addr - ve_notify d, queue_index)]).

Definition read_device_config (d : vdev) (n : nat) : list Z := (fun i => ve_config_bytes d (dm (vt_device_cfg_va t + i) - ve_config d)) <$> seqZ 0 (Z.of_nat n).
End Transport.

(** ** Negotiation *)

Section Negotiation.
Context (t : VirtioTransport).

Lemma mmio_read_eq d off : dm (vt_common_va t) = ve_common d -> mmio_read d (vt_common_va t + off) = common_read d off.
Proof. intros H. unfold mmio_read. rewrite dm_add. f_equal. lia. Qed.

Lemma mmio_write_eq d off v : dm (vt_common_va t) = ve_common d -> mmio_write d (vt_common_va t + off) v = common_write d off v.
Proof. intros H. unfold mmio_write. rewrite dm_add. f_equal. lia. Qed.

Lemma reset_loop d : dm (vt_common_va t) = ve_common d -> Z.of_nat (ve_reset_reads d) < RESET_SPINS -> iterate (reset_step t) 20 (0, set_status t d 0) = inr (ve_fresh d).
Proof.
  intros Hc Hr. unfold set_status. rewrite mmio_write_eq by done. change (common_write d CFG_DEVICE_STATUS 0) with
    (if ve_status d =? 0 then ve_fresh d else ve_set d (ve_feature_select d) (ve_driver_select d) (ve_driver d) (ve_status d) (Some (ve_reset_reads d)) (ve_queue_select d) (ve_queues d) (ve_notified d)).
  assert (forall st, st = ve_fresh d -> reset_step t (0, st) = inr (ve_fresh d)) as Hz by (intros st ->; unfold reset_step, status; by rewrite mmio_read_eq).
  destruct (Z.eqb_spec (ve_status d) 0) as [E0|Hne]; [by apply iterate_first, Hz|].
  destruct (iterate_total (reset_step t)
    (fun st => exists n, st.2 = ve_set d (ve_feature_select d) (ve_driver_select d) (ve_driver d) (ve_status d) (Some n) (ve_queue_select d) (ve_queues d) (ve_notified d) /\
       st.1 + Z.of_nat n = Z.of_nat (ve_reset_reads d) /\ 0 <= st.1)
    (fun r => r = ve_fresh d) (fun st => RESET_SPINS - st.1) 20
    (0, ve_set d (ve_feature_select d) (ve_driver_select d) (ve_driver d) (ve_status d) (Some (ve_reset_reads d)) (ve_queue_select d) (ve_queues d) (ve_notified d))) as (r & E & ->); [|by exists (ve_reset_reads d)|done|done].
  intros [sp st] (n & Es & En & Hsp). cbn [fst snd] in *. subst st. unfold reset_step, status. rewrite mmio_read_eq by done. destruct n as [|n]; [done|].
  change (common_read _ CFG_DEVICE_STATUS) with (ve_status d, ve_set d (ve_feature_select d) (ve_driver_select d) (ve_driver d) (ve_status d) (Some n) (ve_queue_select d) (ve_queues d) (ve_notified d)).
  cbv iota beta. rewrite (proj2 (Z.eqb_neq _ _)), (proj2 (Z.ltb_lt _ _)) by (done || lia). cbn [negb andb fst snd]. split; [exists n; split; [done|lia]|lia].
Qed.

(** One access of a device in a known state. *)
Ltac write_reg d off v d' := rewrite (mmio_write_eq d) by done; change (common_write d off v) with d'.
Ltac read_reg d off r := rewrite (mmio_read_eq d) by done; change (common_read d off) with r; cbv iota beta.

(** The features the driver asks for: of those offered, the address and version 1. *)
Definition wanted (d : vdev) : Z * Z := negotiate_features (ve_features d).1 (ve_features d).2.

(** What the handshake leaves: a device that is ready for its queues, or one it gave up. *)
Lemma negotiate_spec d : dm (vt_common_va t) = ve_common d -> Z.of_nat (ve_reset_reads d) < RESET_SPINS -> ve_notified d = [] ->
  let ok := has_version_1 (wanted d).2 && ve_accepts d (wanted d) in
  negotiate t d = Done (ok, if ok then ve_set d 1 1 (wanted d) 11 None 0 (ve_offered d) []
                            else if has_version_1 (wanted d).2 then ve_set d 1 1 (wanted d) 131 None 0 (ve_offered d) []
                            else ve_set d 1 0 (0, 0) 131 None 0 (ve_offered d) []).
Proof.
  intros Hc Hr Hn ok. unfold negotiate. rewrite reset_loop by done. unfold set_status, device_feature, set_driver_feature, status.
  change (Z.lor STATUS_ACKNOWLEDGE STATUS_DRIVER) with 3. change (Z.lor 3 STATUS_FAILED) with 131. change (Z.lor 3 STATUS_FEATURES_OK) with 11.
  rewrite (mmio_write_eq (ve_fresh d)) by done. change (common_write (ve_fresh d) CFG_DEVICE_STATUS STATUS_ACKNOWLEDGE) with (ve_set d 0 0 (0, 0) 1 None 0 (ve_offered d) []).
  write_reg (ve_set d 0 0 (0, 0) 1 None 0 (ve_offered d) []) CFG_DEVICE_STATUS 3 (ve_set d 0 0 (0, 0) 3 None 0 (ve_offered d) []).
  write_reg (ve_set d 0 0 (0, 0) 3 None 0 (ve_offered d) []) CFG_DEVICE_FEATURE_SELECT 0 (ve_set d 0 0 (0, 0) 3 None 0 (ve_offered d) []).
  read_reg (ve_set d 0 0 (0, 0) 3 None 0 (ve_offered d) []) CFG_DEVICE_FEATURE ((ve_features d).1, (ve_set d 0 0 (0, 0) 3 None 0 (ve_offered d) [])).
  write_reg (ve_set d 0 0 (0, 0) 3 None 0 (ve_offered d) []) CFG_DEVICE_FEATURE_SELECT 1 (ve_set d 1 0 (0, 0) 3 None 0 (ve_offered d) []).
  read_reg (ve_set d 1 0 (0, 0) 3 None 0 (ve_offered d) []) CFG_DEVICE_FEATURE ((ve_features d).2, (ve_set d 1 0 (0, 0) 3 None 0 (ve_offered d) [])).
  change (negotiate_features (ve_features d).1 (ve_features d).2) with (wanted d). destruct (wanted d) as [lo hi] eqn:Ew. cbn [fst snd] in *. unfold ok. destruct (has_version_1 hi) eqn:Ev; cbn [negb andb].
  - write_reg (ve_set d 1 0 (0, 0) 3 None 0 (ve_offered d) []) CFG_DRIVER_FEATURE_SELECT 0 (ve_set d 1 0 (0, 0) 3 None 0 (ve_offered d) []).
    write_reg (ve_set d 1 0 (0, 0) 3 None 0 (ve_offered d) []) CFG_DRIVER_FEATURE lo (ve_set d 1 0 (lo, 0) 3 None 0 (ve_offered d) []).
    write_reg (ve_set d 1 0 (lo, 0) 3 None 0 (ve_offered d) []) CFG_DRIVER_FEATURE_SELECT 1 (ve_set d 1 1 (lo, 0) 3 None 0 (ve_offered d) []).
    write_reg (ve_set d 1 1 (lo, 0) 3 None 0 (ve_offered d) []) CFG_DRIVER_FEATURE hi (ve_set d 1 1 (lo, hi) 3 None 0 (ve_offered d) []).
    write_reg (ve_set d 1 1 (lo, hi) 3 None 0 (ve_offered d) []) CFG_DEVICE_STATUS 11 (ve_set d 1 1 (lo, hi) (if negb (ve_accepts d (lo, hi)) then 3 else 11) None 0 (ve_offered d) []).
    destruct (ve_accepts d (lo, hi)); cbn [negb andb].
    + read_reg (ve_set d 1 1 (lo, hi) 11 None 0 (ve_offered d) []) CFG_DEVICE_STATUS (11, (ve_set d 1 1 (lo, hi) 11 None 0 (ve_offered d) [])).
      done.
    + read_reg (ve_set d 1 1 (lo, hi) 3 None 0 (ve_offered d) []) CFG_DEVICE_STATUS (3, (ve_set d 1 1 (lo, hi) 3 None 0 (ve_offered d) [])).
      change (Z.land 3 STATUS_FEATURES_OK =? 0) with true. cbv iota. write_reg (ve_set d 1 1 (lo, hi) 3 None 0 (ve_offered d) []) CFG_DEVICE_STATUS 131 (ve_set d 1 1 (lo, hi) (if negb (Z.land 131 8 =? 0) && negb (ve_accepts d (lo, hi)) then Z.land 131 (Z.lxor 8 0xff) else 131) None 0 (ve_offered d) []).
      done.
  - write_reg (ve_set d 1 0 (0, 0) 3 None 0 (ve_offered d) []) CFG_DEVICE_STATUS 131 (ve_set d 1 0 (0, 0) 131 None 0 (ve_offered d) []).
    done.
Qed.

(** ** Queues *)

Definition programmed (q : vqueue) (size desc avail used vector : Z) : vqueue :=
  {| qr_size := size; qr_msix := vector; qr_enable := 1; qr_notify_off := qr_notify_off q; qr_desc := desc; qr_driver := avail; qr_device := used |}.

Lemma queue_size_spec d i q : dm (vt_common_va t) = ve_common d -> ve_queues d !! Z.to_nat i = Some q ->
  queue_size t d i = (qr_size q, ve_set d (ve_feature_select d) (ve_driver_select d) (ve_driver d) (ve_status d) (ve_resetting d) i (ve_queues d) (ve_notified d)).
Proof.
  intros Hc Hq. unfold queue_size. rewrite mmio_write_eq by done. set (d1 := common_write _ _ _).
  change d1 with (ve_set d (ve_feature_select d) (ve_driver_select d) (ve_driver d) (ve_status d) (ve_resetting d) i (ve_queues d) (ve_notified d)). rewrite mmio_read_eq by done.
  unfold common_read. change (CFG_QUEUE_SIZE =? CFG_DEVICE_FEATURE) with false. change (CFG_QUEUE_SIZE =? CFG_DEVICE_STATUS) with false. change (CFG_QUEUE_SIZE =? CFG_QUEUE_SIZE) with true. cbv iota.
  unfold selected_queue. cbn [ve_set ve_queues ve_queue_select]. by rewrite Hq.
Qed.

(** A write to a register of the selected queue. *)
Lemma queue_reg_write d fs ds drv st rs i qs nt off v : dm (vt_common_va t) = ve_common d ->
  off ∈ [CFG_QUEUE_SIZE; CFG_QUEUE_DESC; CFG_QUEUE_DRIVER; CFG_QUEUE_DEVICE; CFG_QUEUE_MSIX_VECTOR; CFG_QUEUE_ENABLE] ->
  mmio_write (ve_set d fs ds drv st rs i qs nt) (vt_common_va t + off) v = ve_set d fs ds drv st rs i (alter (fun q => queue_write q off v) (Z.to_nat i) qs) nt.
Proof. intros Hc Ho. rewrite mmio_write_eq by done. rewrite !elem_of_cons in Ho. by destruct Ho as [->|[->|[->|[->|[->|[->|Ho]]]]]]; [..|apply elem_of_nil in Ho]. Qed.

Lemma alter_insert_same {A} (f : A -> A) (l : list A) n x : l !! n = Some x -> alter f n l = <[n := f x]> l.
Proof. intros H. apply list_eq. intros j. destruct (decide (n = j)) as [->|]; [rewrite list_lookup_alter_eq, list_lookup_insert_eq, H; [done|by eapply lookup_lt_Some]|by rewrite list_lookup_alter_ne, list_lookup_insert_ne]. Qed.

Lemma alter_insert_twice {A} (f : A -> A) (l : list A) n x : (n < length l)%nat -> alter f n (<[n := x]> l) = <[n := f x]> l.
Proof. intros H. rewrite (alter_insert_same _ _ _ x) by (by apply list_lookup_insert_eq). by rewrite list_insert_insert_eq. Qed.

Lemma setup_queue_spec d i q size desc avail used vector : dm (vt_common_va t) = ve_common d -> ve_queues d !! Z.to_nat i = Some q ->
  setup_queue t d i size desc avail used vector = (qr_notify_off q,
    ve_set d (ve_feature_select d) (ve_driver_select d) (ve_driver d) (ve_status d) (ve_resetting d) i (<[Z.to_nat i := programmed q size desc avail used vector]> (ve_queues d)) (ve_notified d)).
Proof.
  intros Hc Hq. unfold setup_queue. rewrite (mmio_write_eq d) by done.
  change (common_write d CFG_QUEUE_SELECT i) with (ve_set d (ve_feature_select d) (ve_driver_select d) (ve_driver d) (ve_status d) (ve_resetting d) i (ve_queues d) (ve_notified d)).
  rewrite !queue_reg_write by (done || set_solver). rewrite mmio_read_eq by done.
  assert (Z.to_nat i < length (ve_queues d))%nat as Hlt by (by eapply lookup_lt_Some).
  rewrite (alter_insert_same _ (ve_queues d) _ q) by exact Hq. rewrite !alter_insert_twice by exact Hlt.
  change (common_read ?e CFG_QUEUE_NOTIFY_OFF) with (match selected_queue e with Some q => qr_notify_off q | None => 0 end, e). cbv iota beta.
  rewrite queue_reg_write by (done || set_solver). f_equal.
  - unfold selected_queue. cbn [ve_set ve_queues ve_queue_select]. by rewrite list_lookup_insert_eq by exact Hlt.
  - by rewrite alter_insert_twice by exact Hlt.
Qed.
End Negotiation.
