(* ===== verification/Exec.v ===== *)
(** * execve: replacing the image of a process

    [do_execve] of crates/proc/src/exec.rs from the file to the first instruction of the
    new program, the system call in front of it that copies the path and the arguments
    out of user memory (crates/proc/src/syscall.rs), the loader that the file system
    registers for it (crates/fs/src/lib.rs), and the switch of address spaces
    (crates/proc/src/process.rs).  The file is read into a block of 256 frames that is
    then given back frame by frame. *)

From Stdlib Require Import ZArith Lia.
From stdpp Require Import prelude gmap list.
From S2P Require Import Prelude Paging Frames PageTable Pcid Elf Cow Vma AddressSpace Signal Ramfs Vfs ExecStack ExecMemory Teardown Shootdown.

Local Open Scope Z_scope.

(** ** Blocks of frames *)

(** [FrameAllocator::alloc_order]: 2^order frames in a row. *)
Class BlockAllocator (A : Type) := {
  fa_alloc_order : A -> Z -> option (Z * A)
}.

Definition block_frame (base i : Z) : Z := base + i * 4096.

(** The contract of the trait: the frames of the block were free, and only they are
    taken.  Nothing is promised about when a block is found. *)
Class BlockAllocatorLaws (A : Type) `{FrameAllocatorLaws A, BlockAllocator A} := {
  fa_alloc_order_Some (a : A) (order f : Z) (a' : A) :
    fa_ok a -> 0 <= order <= 10 -> fa_alloc_order a order = Some (f, a') ->
    fa_ok a' /\ f mod 4096 = 0 /\ 0 < f /\ block_frame f (2 ^ order) <= 2 ^ 44 /\
    (forall i, 0 <= i < 2 ^ order -> block_frame f i ∈ fa_free a) /\
    forall g, g ∈ fa_free a' <-> g ∈ fa_free a /\ forall i, 0 <= i < 2 ^ order -> g <> block_frame f i
}.

Definition ENOENT : Z := -2.
Definition EIO : Z := -5.
Definition E2BIG : Z := -7.
Definition ENOEXEC : Z := -8.
Definition MAX_ELF_SIZE : Z := 1024 * 1024.
Definition ELF_BUF_ORDER : Z := 8.

(** The function the file system registers to read an executable: an error, or the
    bytes read, at most as many as the buffer has. *)
Class ExecLoader (A V : Type) := {
  EXEC_LOADER : option (kstate A V -> list Z -> Z -> outcome (Z + list Z))
}.

(** How [do_execve] ends: with an error for the caller, or in user mode. *)
Inductive exec_result :=
| ExecErr (errno : Z)
| ExecEnter (cr3 rip rsp rflags rax : Z).

Section Exec.
Context {A V : Type} `{FrameAllocator A, !BlockAllocator A, !VfsHooks A V, !ExecLoader A V}.
Implicit Types k : kstate A V.

Definition load_exec_file k (path : list Z) (len : Z) : outcome (Z + list Z) :=
  match EXEC_LOADER with
  | None => Done (inl ENOENT)
  | Some f => f k path len
  end.

(** [kernel_memory::alloc_order] panics when there is no such block. *)
Definition k_alloc_order k (order : Z) : outcome (Z * kstate A V) :=
  '(f, a) ← expect (fa_alloc_order (pt_alloc (k_pt k)) order);
  Done (f, set_pt k {| tabs := tabs (k_pt k); pt_alloc := a |}).

Definition free_elf_buf k (buf_phys : Z) : outcome (kstate A V) :=
  foldM (fun k i => k_free_frame k (PhysAddr_new (wrap64 (buf_phys + i * 4096)))) k (seqZ 0 (shl64 1 ELF_BUF_ORDER)).

(** The bytes read, in the frames of the buffer. *)
Definition fill_buf k (buf_phys : Z) (data : list Z) : kstate A V :=
  foldl (fun k i => k_write_page k (block_frame buf_phys i) (take 4096 (drop (Z.to_nat (i * 4096)) data))) k
    (seqZ 0 ((Z.of_nat (length data) + 4095) / 4096)).

(** ** The new image *)

Definition pml4_phys_from_cr3 (cr3 : Z) : Z := Z.land cr3 (not64 0xfff).

(** The part of Phase 1 that builds the address space, from the segments to the stack. *)
Definition build_image (current_pml4 : Z) (pcid_enabled : bool) (pcids : PcidAllocator) k (elf_data : list Z)
    (elf_info : ElfInfo) (argv envp : list (list Z)) : outcome (AddressSpace * PcidAllocator * Z * kstate A V) :=
  '(new_as, pcids1, k1) ← AddressSpace_new current_pml4 pcid_enabled pcids k;
  k2 ← foldM (fun k seg => map_segment new_as seg elf_data k) k1 (elf_segments elf_info);
  '(stack_top, k3) ← map_user_stack new_as k2;
  k4 ← map_sigreturn_trampoline new_as k3;
  '(m, new_rsp) ← setup_stack {| us_k := k4; us_root := as_pml4_phys new_as |} stack_top argv envp;
  Done (new_as, pcids1, new_rsp, us_k m).

(** ** Switching address spaces *)

(** What [do_execve] uses of a process. *)
Record exec_proc := {
  xp_address_space : Z;
  xp_user_rip : Z;
  xp_user_rsp : Z;
  xp_user_rflags : Z;
  xp_user_rax : Z;
  xp_sig : sig_state
}.

(** The kernel with the address spaces by their pointers, the slot of this processor in
    CPU_CURRENT_AS, CR3 and the calling process. *)
Record xstate := {
  x_k : kstate A V;
  x_pcids : PcidAllocator;
  x_spaces : gmap Z AddressSpace;
  x_current_as : Z;
  x_cr3 : Z;
  x_proc : exec_proc
}.

Definition set_k (x : xstate) (k : kstate A V) : xstate :=
  {| x_k := k; x_pcids := x_pcids x; x_spaces := x_spaces x; x_current_as := x_current_as x; x_cr3 := x_cr3 x; x_proc := x_proc x |}.

Definition set_active (a : AddressSpace) (mask : Z) : AddressSpace :=
  {| as_pml4_phys := as_pml4_phys a; as_pcid := as_pcid a; as_vmas := as_vmas a; as_mmap_next := as_mmap_next a;
     as_refcount := as_refcount a; as_active_cpus := mask |}.

(** [AddressSpace::activate]: the value loaded into CR3. *)
Definition AddressSpace_activate (a : AddressSpace) : Z := make_cr3 (as_pml4_phys a) (as_pcid a) false.

Definition activate_address_space (x : xstate) (new_as cpu_id : Z) : outcome xstate :=
  let old_as := x_current_as x in
  if old_as =? new_as then Done x else
  a ← expect (x_spaces x !! new_as);
  let spaces := <[new_as := set_active a (ActiveCpuMask_mark_active (as_active_cpus a) cpu_id)]> (x_spaces x) in
  spaces' ← (if old_as =? 0 then Done spaces else
             o ← expect (spaces !! old_as);
             Done (<[old_as := set_active o (ActiveCpuMask_mark_inactive (as_active_cpus o) cpu_id)]> spaces));
  Done {| x_k := x_k x; x_pcids := x_pcids x; x_spaces := spaces'; x_current_as := new_as;
          x_cr3 := AddressSpace_activate a; x_proc := x_proc x |}.

(** [AddressSpace::drop_ref] on a pointer. *)
Definition drop_ref_ptr (x : xstate) (ptr : Z) : outcome xstate :=
  a ← expect (x_spaces x !! ptr);
  '(is_last, a', pcids, k) ← drop_ref a (wrap64 (ptr - DIRECT_MAP_BASE)) (x_pcids x) (x_k x);
  Done {| x_k := k; x_pcids := pcids;
          x_spaces := if (is_last : bool) then delete ptr (x_spaces x) else <[ptr := a']> (x_spaces x);
          x_current_as := x_current_as x; x_cr3 := x_cr3 x; x_proc := x_proc x |}.

(** Phase 2: the point of no return. *)
Definition install_image (x : xstate) (cpu_id : Z) (new_as : AddressSpace) (entry new_rsp : Z) : outcome (exec_result * xstate) :=
  let proc := x_proc x in
  let old_as_ptr := xp_address_space proc in
  '(own, k1) ← alloc_shared new_as (x_k x);
  let new_as_ptr := wrap64 (DIRECT_MAP_BASE + own) in
  x1 ← activate_address_space
         {| x_k := k1; x_pcids := x_pcids x; x_spaces := <[new_as_ptr := new_as]> (x_spaces x); x_current_as := x_current_as x;
            x_cr3 := x_cr3 x; x_proc := proc |} new_as_ptr cpu_id;
  x2 ← drop_ref_ptr x1 old_as_ptr;
  a ← expect (x_spaces x2 !! new_as_ptr);
  let proc' := {| xp_address_space := new_as_ptr; xp_user_rip := entry; xp_user_rsp := new_rsp; xp_user_rflags := 0x202; xp_user_rax := 0;
                  xp_sig := {| ss_pending := 0; ss_table := SigTable_new; ss_frame := None |} |} in
  Done (ExecEnter (Z.lor (as_pml4_phys a) (as_pcid a)) entry new_rsp 0x202 0,
        {| x_k := x_k x2; x_pcids := x_pcids x2; x_spaces := x_spaces x2; x_current_as := x_current_as x2; x_cr3 := x_cr3 x2; x_proc := proc' |}).

Definition do_execve (pcid_enabled : bool) (cpu_id : Z) (x : xstate) (path : list Z) (argv envp : list (list Z)) :
    outcome (exec_result * xstate) :=
  if (MAX_ARGV <? length argv)%nat || (MAX_ENVP <? length envp)%nat then Done (ExecErr E2BIG, x) else
  '(buf_phys, k1) ← k_alloc_order (x_k x) ELF_BUF_ORDER;
  read ← load_exec_file k1 path MAX_ELF_SIZE;
  match read with
  | inl errno =>
      k2 ← free_elf_buf k1 buf_phys;
      Done (ExecErr (if errno =? -2 then ENOENT else EIO), set_k x k2)
  | inr [] =>
      k2 ← free_elf_buf k1 buf_phys;
      Done (ExecErr ENOEXEC, set_k x k2)
  | inr elf_data =>
      let k2 := fill_buf k1 buf_phys elf_data in
      parsed ← parse_elf elf_data;
      match parsed with
      | inr _ =>
          k3 ← free_elf_buf k2 buf_phys;
          Done (ExecErr ENOEXEC, set_k x k3)
      | inl elf_info =>
          '(new_as, pcids, new_rsp, k3) ←
            build_image (pml4_phys_from_cr3 (x_cr3 x)) pcid_enabled (x_pcids x) k2 elf_data elf_info argv envp;
          k4 ← free_elf_buf k3 buf_phys;
          install_image {| x_k := k4; x_pcids := pcids; x_spaces := x_spaces x; x_current_as := x_current_as x; x_cr3 := x_cr3 x;
                           x_proc := x_proc x |} cpu_id new_as (elf_entry elf_info) new_rsp
      end
  end.

(** ** The system call *)

Definition nul_terminated_len (buf : list Z) : nat :=
  match list_find (fun b => b = 0) buf with Some (i, _) => i | None => length buf end.

(** One byte of user memory, read by the kernel: a page that is not there is a fault
    without the user bit; an address above the lower half is not canonical. *)
Definition load_from_user (a : AddressSpace) k (addr : Z) : outcome (Z * kstate A V) :=
  if 2 ^ 47 <=? addr then Panic else
  match user_byte k (as_pml4_phys a) addr with
  | Some b => Done (b, k)
  | None =>
      '(r, k1) ← pf_handler (Some a) k addr 0;
      match r with
      | FaultResolved => b ← expect (user_byte k1 (as_pml4_phys a) addr); Done (b, k1)
      | FaultKill _ => Panic
      end
  end.

Fixpoint copy_from_user (a : AddressSpace) k (src : Z) (len : nat) : outcome (list Z * kstate A V) :=
  match len with
  | O => Done ([], k)
  | S len' =>
      '(b, k1) ← load_from_user a k src;
      '(bs, k2) ← copy_from_user a k1 (wrap64 (src + 1)) len';
      Done (b :: bs, k2)
  end.

Definition read_u64_from_user (a : AddressSpace) k (ptr : Z) : outcome (Z * kstate A V) :=
  '(bs, k1) ← copy_from_user a k ptr 8; Done (of_le_bytes bs, k1).

Definition USER_STR_LEN : nat := 256.

(** [from_utf8(..).unwrap_or("")] of the bytes before the terminator. *)
Definition arg_str (buf : list Z) : list Z :=
  let s := take (nul_terminated_len buf) buf in if utf8_valid s then s else [].

(** The loop over argv or envp, with [n] entries left in the fixed array. *)
Fixpoint copy_strings (n : nat) (a : AddressSpace) k (ptr : Z) : outcome ((Z + list (list Z)) * kstate A V) :=
  match n with
  | O => Done (inr [], k)
  | S n' =>
      if negb (is_user_ptr ptr 8) then Done (inl EFAULT, k) else
      '(arg_ptr, k1) ← read_u64_from_user a k ptr;
      if arg_ptr =? 0 then Done (inr [], k1) else
      if negb (is_user_ptr arg_ptr 1) then Done (inl EFAULT, k1) else
      '(buf, k2) ← copy_from_user a k1 arg_ptr USER_STR_LEN;
      '(rest, k3) ← copy_strings n' a k2 (wrap64 (ptr + 8));
      Done (match rest with inl e => inl e | inr l => inr (arg_str buf :: l) end, k3)
  end.

Definition copy_vector (n : nat) (a : AddressSpace) k (ptr : Z) : outcome ((Z + list (list Z)) * kstate A V) :=
  if ptr =? 0 then Done (inr [], k) else copy_strings n a k ptr.

Definition sys_execve (pcid_enabled : bool) (cpu_id : Z) (x : xstate) (path_ptr argv_ptr envp_ptr : Z) :
    outcome (exec_result * xstate) :=
  if negb (is_user_ptr path_ptr 1) then Done (ExecErr EFAULT, x) else
  a ← expect (x_spaces x !! xp_address_space (x_proc x));
  '(path_buf, k1) ← copy_from_user a (x_k x) path_ptr USER_STR_LEN;
  let path := take (nul_terminated_len path_buf) path_buf in
  if negb (utf8_valid path) then Done (ExecErr ENOENT, set_k x k1) else
  '(argv, k2) ← copy_vector MAX_ARGV a k1 argv_ptr;
  match argv with
  | inl e => Done (ExecErr e, set_k x k2)
  | inr argv =>
      '(envp, k3) ← copy_vector MAX_ENVP a k2 envp_ptr;
      match envp with
      | inl e => Done (ExecErr e, set_k x k3)
      | inr envp => do_execve pcid_enabled cpu_id (set_k x k3) path argv envp
      end
  end.

End Exec.
Arguments xstate A V : clear implicits.

(** ** The loader of the file system *)

Section Loader.
Context {A : Type} `{FrameAllocator A}.

(** The vnodes, the inodes and the vnode of the root directory; the blocks of the files
    are frames of memory.  What a device reads is an argument: its code talks to
    ports. *)
Record exec_fs := { xf_vnodes : gmap Z FsVNode; xf_inodes : gmap Z RamfsInode; xf_root : Z; xf_dev_read : Z -> Z -> list Z }.

Definition fs_view (k : kstate A exec_fs) : ramfs A :=
  {| rf_vnodes := xf_vnodes (k_vfs k); rf_inodes := xf_inodes (k_vfs k); rf_data := k_mem k; rf_alloc := pt_alloc (k_pt k); rf_next_ino := 0 |}.

Definition vnode_read_noop : Z := -22.

Definition exec_load_file (k : kstate A exec_fs) (path : list Z) (len : Z) : outcome (Z + list Z) :=
  o ← path_lookup (fs_view k) (xf_root (k_vfs k)) path;
  match o with
  | None => Done (inl (-2))
  | Some vn_ptr =>
      vn ← expect (rf_vnodes (fs_view k) !! vn_ptr);
      match fv_ops vn with
      | RAMFS_FILE_OPS => ino ← inode_of (fs_view k) vn; Done (inr (ramfs_read (k_mem k) ino len 0))
      | RAMFS_DIR_OPS => Done (inl vnode_read_noop)
      | DEV_OPS => Done (inr (xf_dev_read (k_vfs k) vn_ptr len))
      end
  end.

#[export] Instance fs_exec_loader : ExecLoader A exec_fs := { EXEC_LOADER := Some exec_load_file }.

End Loader.
Arguments exec_fs : clear implicits.
