(* ===== verification/ExecBlocks.v ===== *)
(** * The buffer of execve

    The block of frames that [do_execve] reads the file into: what the allocator of the
    kernel promises about it, that freeing it frame by frame gives the frames back, and
    that the blocks it is taken from never come back. *)

From Stdlib Require Import ZArith Lia.
From stdpp Require Import prelude gmap list.
From S2P Require Import Prelude Paging Frames PageTable Buddy BuddySpec BuddyInit UserMap Cow Vma AddressSpace Loader Spaces Fork ExecStack ExecMemory Teardown Exec.

Local Open Scope Z_scope.

(** ** The buddy allocator as a block allocator *)

#[export] Instance NumaBuddy_BlockAllocator : BlockAllocator (NumaBuddy * fmem) := {
  fa_alloc_order s order := match NumaBuddy_alloc_order s.1 s.2 order with Done r => r | Panic => None end
}.

(** How many blocks of 256 frames a list of each order holds, and all of them. *)
Definition block_val (j : nat) : Z := match j with 8%nat => 1 | 9%nat => 2 | 10%nat => 4 | _ => 0 end.
Definition list_len (ls : list (list Z)) (j : nat) : Z := Z.of_nat (length (default [] (ls !! j))).
Definition big (ls : list (list Z)) : Z := list_len ls 8 + 2 * list_len ls 9 + 4 * list_len ls 10.

(** The blocks of 256 frames in the lists below an order. *)
Definition val_below (j : nat) : Z := match j with 9%nat => 1 | 10%nat => 3 | 11%nat => 7 | _ => 0 end.

Lemma list_len_insert ls j l i : (j < length ls)%nat -> list_len (<[j := l]> ls) i = if decide (i = j) then Z.of_nat (length l) else list_len ls i.
Proof.
  intros Hj. unfold list_len. case_decide as E; [subst; by rewrite list_lookup_insert_eq|by rewrite list_lookup_insert_ne].
Qed.

Lemma big_insert ls j l l' : ls !! j = Some l -> big (<[j := l']> ls) = big ls + block_val j * (Z.of_nat (length l') - Z.of_nat (length l)).
Proof.
  intros Hj. pose proof (lookup_lt_Some _ _ _ Hj) as Hlt. assert (list_len ls j = Z.of_nat (length l)) as <- by (unfold list_len; by rewrite Hj).
  unfold big. rewrite !list_len_insert by done. unfold block_val.
  destruct (decide (8 = j)%nat) as [<-|]; [by repeat case_decide; lia|]. destruct (decide (9 = j)%nat) as [<-|]; [by repeat case_decide; lia|].
  destruct (decide (10 = j)%nat) as [<-|]; [by repeat case_decide; lia|]. do 11 (destruct j as [|j]; [try done; lia|]). lia.
Qed.

Lemma big_nonneg ls : 0 <= big ls.
Proof. unfold big, list_len. lia. Qed.

Lemma split_down_big k : forall n mem ls frame order,
  nrep n mem ls -> (order + k <= 10)%nat -> block_ok (order + k) frame -> NoDup (block_frames (order + k) frame ++ frames ls) ->
  exists n' mem' ls', split_down n mem frame order k = Done (n', mem') /\ nrep n' mem' ls' /\
    big ls' = big ls + val_below (order + k) - val_below order.
Proof.
  induction k as [|k IH]; intros n mem ls frame order Hn Hk Hb Hnd; cbn [split_down].
  - rewrite Nat.add_0_r in *. exists n, mem, ls. split_and!; [done..|lia].
  - rewrite Nat.add_succ_r in *. destruct (block_ok_split _ _ Hb) as [Hb1 Hb2]. pose proof (block_size_pos (order + k)) as Hpos.
    rewrite shl64_block by lia. rewrite wrap64_small by (destruct Hb2 as (? & _ & ?); unfold is_u64; lia).
    rewrite block_frames_S, <- (assoc_L (++)) in Hnd. pose proof Hnd as (_ & Hdis & Hnd2)%NoDup_app.
    destruct (push_order_spec n mem ls (order + k) _ Hn ltac:(lia) Hb2 Hnd2) as (l & n1 & mem1 & Hlk & Hpush & Hn1 & Hfc & _ & Hperm).
    rewrite Hpush. run. destruct (IH n1 mem1 _ frame order Hn1 ltac:(lia) Hb1) as (n' & mem' & ls' & Hs & Hn' & Hbig).
    { by rewrite Hperm. }
    exists n', mem', ls'. split_and!; [done..|]. rewrite Hbig, (big_insert ls _ l) by done. cbn [length].
    assert (val_below (S (order + k)) = val_below (order + k) + block_val (order + k)) as ->; [|lia].
    assert (order + k <= 10)%nat as Hle by lia. generalize dependent (order + k)%nat. intros j. intros. do 11 (destruct j as [|j]; [done|]). lia.
Qed.

Lemma alloc_search_big k : forall n mem ls order source, nrep n mem ls -> (order <= source)%nat -> (source + k = 11)%nat ->
  match alloc_search n mem order source k with
  | Done (Some (f, (n', mem'))) => exists ls' s, nrep n' mem' ls' /\ (source <= s <= 10)%nat /\ list_len ls s > 0 /\
      big ls' = big ls - block_val s + val_below s - val_below order
  | _ => True
  end.
Proof.
  induction k as [|k IH]; intros n mem ls order source Hn Hos Hk; cbn [alloc_search]; [done|].
  pose proof Hn as [Hl Hlen Hnd _]. destruct (lookup_lt_is_Some_2 (free_lists n) source) as [head Hh]; [apply Forall2_length in Hl; lia|].
  rewrite Hh. run. pose proof (pop_order_spec n mem ls source head Hn Hh) as Hp. destruct (FreeList_pop head mem) as [[[b head']|]|]; run; [| |done].
  - destruct Hp as (l & Hlk & Hb & Hn1 & Hperm). replace source with (order + (source - order))%nat in Hb, Hperm at 1 by lia.
    destruct (split_down_big (source - order) _ mem _ b order Hn1) as (n' & mem' & ls' & -> & Hn' & Hbig); [lia|done| |].
    { replace (order + (source - order))%nat with source in * by lia. by rewrite <- Hperm. }
    run. exists ls', source. replace (order + (source - order))%nat with source in * by lia.
    split_and!; [destruct Hn'; by constructor|lia|lia|unfold list_len; rewrite Hlk; cbn; lia|].
    rewrite Hbig, (big_insert ls _ (b :: l)) by done. cbn [length]. lia.
  - pose proof (IH n mem ls order (S source) Hn ltac:(lia) ltac:(lia)) as Hr. destruct (alloc_search n mem order (S source) k) as [[[f [n' mem']]|]|]; [|done..].
    destruct Hr as (ls' & s & H1 & H2 & H3). exists ls', s. split_and!; [done|lia|lia|apply H3..].
Qed.

(** One allocation of the kernel, of any order. *)
Lemma alloc_order_brep b mem ls order : brep b mem ls -> 0 <= order <= 10 ->
  match NumaBuddy_alloc_order b mem order with
  | Done None => forall j, (Z.to_nat order <= j <= 10)%nat -> default [] (ls !! j) = []
  | Done (Some (f, (b', mem'))) => exists ls' n', brep b' mem' ls' /\ nodes b' !! 0%nat = Some (Some n') /\ block_ok (Z.to_nat order) f /\
      frames ls ≡ₚ block_frames (Z.to_nat order) f ++ frames ls' /\
      exists s, (Z.to_nat order <= s <= 10)%nat /\ list_len ls s > 0 /\ big ls' = big ls - block_val s + val_below s - val_below (Z.to_nat order)
  | Panic => False
  end.
Proof.
  intros [Hlen Hn Hc] Ho. unfold NumaBuddy_alloc_order, node0 in *. destruct (lookup_lt_is_Some_2 (nodes b) 0%nat) as [[n|] Hs].
  { rewrite Hlen. unfold MAX_NUMA_NODES. lia. }
  2:{ rewrite Hs in *. run. intros j Hj. destruct (ls !! j) as [l|] eqn:El; [|done]. cbn. pose proof (nrep_new_inv _ _ _ Hn) as Hf.
      destruct l as [|f l]; [done|]. exfalso. apply (not_elem_of_nil f). rewrite <- Hf. eapply (frames_elem 0 ls j); [exact El|apply list_elem_of_here|apply block_frames_self]. }
  rewrite Hs in *. run. unfold BuddyNode_alloc_order, MAX_ORDER. rewrite (proj2 (Z.ltb_ge 10 order)) by lia.
  pose proof (alloc_search_spec (Z.to_nat (10 + 1 - order)) n mem ls (Z.to_nat order) (Z.to_nat order) Hn ltac:(lia) ltac:(lia)) as Ha.
  pose proof (alloc_search_big (Z.to_nat (10 + 1 - order)) n mem ls (Z.to_nat order) (Z.to_nat order) Hn ltac:(lia) ltac:(lia)) as Hb.
  destruct (alloc_search n mem _ _ _) as [[[f [n' mem']]|]|]; run; [| |done].
  - destruct Ha as (ls' & Hn' & Hok & Hfc & Hp). destruct Hb as (ls2 & s & Hn2 & Hs2 & Hl2 & Hb2).
    assert (ls2 = ls') as -> by (by rewrite <- (lists_of_spec _ _ _ Hn'), <- (lists_of_spec _ _ _ Hn2)).
    exists ls', n'. split_and!; [|cbn; apply list_lookup_insert_eq; rewrite Hlen; unfold MAX_NUMA_NODES; lia|done|done|by exists s].
    apply brep_set_node0; [done..|]. rewrite Hfc, Hc, Hp, length_app. unfold block_frames at 1. rewrite length_fmap, length_seqZ, wrap64_sub_l. f_equal. rewrite Nat2Z.inj_add, Z2Nat.id by lia. lia.
  - intros j Hj. by rewrite Ha.
Qed.

#[export] Program Instance NumaBuddy_block_laws : BlockAllocatorLaws (NumaBuddy * fmem).
Next Obligation.
  intros [b mem] order f [b' mem'] (ls & n & Hb & _) Ho Ha. cbn in Ha. pose proof (alloc_order_brep b mem ls order Hb Ho) as Hs.
  destruct (NumaBuddy_alloc_order b mem order) as [r|]; [|done]. subst r. destruct Hs as (ls' & n' & Hb' & Hn' & Hok & Hp & _).
  assert (NoDup (block_frames (Z.to_nat order) f ++ frames ls')) as Hnd by (rewrite <- Hp; apply Hb). apply NoDup_app in Hnd as (_ & Hdis & _).
  assert (forall g, g ∈ block_frames (Z.to_nat order) f <-> exists i, 0 <= i < 2 ^ order /\ g = block_frame f i) as Hbf.
  { intros g. rewrite elem_of_block_frames, Z2Nat.id by lia. unfold block_frame. naive_solver. }
  pose proof (block_ok_frame _ f f Hok (block_frames_self _ f)) as (Hp0 & Hal & _). destruct Hok as (Hpos & _ & Hr).
  rewrite block_size_frames, Z2Nat.id in Hr by lia.
  split_and!; [by exists ls', n'|done|done|unfold block_frame; lia| |].
  - intros i Hi. cbn. rewrite elem_of_buddy_free by done. rewrite Hp. apply elem_of_app. left. apply Hbf. by exists i.
  - intros g. cbn. rewrite !elem_of_buddy_free by done. rewrite Hp, elem_of_app, Hbf. split.
    + intros Hg. split; [by right|]. intros i Hi ->. apply (Hdis (block_frame f i)); [|done]. apply Hbf. by exists i.
    + intros [[(i & Hi & ->)|?] Hn]; [by destruct (Hn i Hi)|done].
Qed.

(** ** Taking and giving back the buffer *)

Section Buffer.
Context {A V : Type} `{FrameReturnLaws A, !BlockAllocator A, !BlockAllocatorLaws A}.
Implicit Types k : kstate A V.

(** Only the allocator is another one. *)
Definition realloc k (al : A) : kstate A V := set_pt k {| tabs := tabs (k_pt k); pt_alloc := al |}.

(** A frame of the buffer. *)
Definition in_buf (buf g : Z) : Prop := exists i, 0 <= i < 256 /\ g = block_frame buf i.

Lemma in_buf_dec buf g : in_buf buf g \/ forall i, 0 <= i < 256 -> g <> block_frame buf i.
Proof.
  unfold in_buf, block_frame. destruct (decide (buf <= g /\ (g - buf) mod 4096 = 0 /\ (g - buf) / 4096 < 256)) as [(Hb & Hm & Hd)|Hn].
  - left. exists ((g - buf) / 4096). Z.div_mod_to_equations. lia.
  - right. intros i Hi ->. apply Hn. replace (buf + i * 4096 - buf) with (i * 4096) by lia. rewrite Z.mod_mul, Z.div_mul by lia. lia.
Qed.

Lemma k_alloc_order_spec k : fa_ok (pt_alloc (k_pt k)) ->
  match k_alloc_order k ELF_BUF_ORDER with
  | Done (buf, k1) => exists al, k1 = realloc k al /\ fa_ok al /\ buf mod 4096 = 0 /\ 0 < buf /\ block_frame buf 256 <= 2 ^ 44 /\
      (forall g, in_buf buf g -> g ∈ k_free k) /\ forall g, g ∈ k_free k1 <-> g ∈ k_free k /\ ~ in_buf buf g
  | Panic => fa_alloc_order (pt_alloc (k_pt k)) ELF_BUF_ORDER = None
  end.
Proof.
  intros Hok. unfold k_alloc_order. destruct (fa_alloc_order (pt_alloc (k_pt k)) ELF_BUF_ORDER) as [[f al]|] eqn:E; run; [|done].
  destruct (fa_alloc_order_Some (pt_alloc (k_pt k)) ELF_BUF_ORDER f al Hok ltac:(unfold ELF_BUF_ORDER; lia) E) as (Hok' & Hal & Hp & Hr & Hin & Hf). change (2 ^ ELF_BUF_ORDER) with 256 in *.
  exists al. split_and!; [done..| |].
  - intros g (i & Hi & ->). by apply Hin.
  - intros g. change (k_free (set_pt k _)) with (fa_free al). rewrite Hf. apply and_iff_compat_l. unfold in_buf. split.
    + intros Hn (i & Hi & ->). by apply (Hn i).
    + intros Hn i Hi ->. apply Hn. by exists i.
Qed.

(** [n] frames of the buffer are back. *)
Lemma free_frames_loop k buf : fa_ok (pt_alloc (k_pt k)) -> buf mod 4096 = 0 -> 0 < buf -> block_frame buf 256 <= 2 ^ 44 ->
  (forall g, in_buf buf g -> g ∉ k_free k) -> forall n, (n <= 256)%nat ->
  exists al, foldM (fun k i => k_free_frame k (PhysAddr_new (wrap64 (buf + i * 4096)))) k (seqZ 0 (Z.of_nat n)) = Done (realloc k al) /\ fa_ok al /\
    forall g, g ∈ fa_free al <-> g ∈ k_free k \/ exists i, 0 <= i < Z.of_nat n /\ g = block_frame buf i.
Proof.
  intros Hok Hal Hp Hr Hn n. unfold block_frame in *. induction n as [|n IH]; intros Hle.
  - exists (pt_alloc (k_pt k)). split_and!; [by destruct k as [[] ? ? ? ?]|done|]. intros g. split; [by left|]. intros [?|(i & Hi & _)]; [done|lia].
  - destruct (IH ltac:(lia)) as (al & E & Hok1 & Hf). replace (Z.of_nat (S n)) with (Z.of_nat n + 1) by lia. rewrite seqZ_app by lia.
    rewrite foldM_app, E. cbn [mbind outcome_bind]. rewrite (seqZ_cons (0 + Z.of_nat n)) by lia. rewrite seqZ_nil by lia. cbn [foldM].
    rewrite wrap64_small by (unfold is_u64; lia). replace (0 + Z.of_nat n) with (Z.of_nat n) by lia. set (f := buf + Z.of_nat n * 4096).
    assert (can_free (realloc k al) f) as Hcf.
    { split_and!; [|unfold f; Z.div_mod_to_equations; lia|unfold f; lia|unfold f; lia]. change (f ∉ fa_free al). rewrite Hf. intros [Hin|(i & Hi & E2)].
      - apply (Hn f); [|done]. exists (Z.of_nat n). unfold f, block_frame. lia.
      - unfold f, block_frame in E2. lia. }
    destruct (k_free_frame_spec (realloc k al) f Hok1 Hcf) as (al2 & -> & Hok2 & Hf2). run. exists al2. split_and!; [done..|].
    intros g. rewrite Hf2, elem_of_union, elem_of_singleton. change (k_free (realloc k al)) with (fa_free al). rewrite Hf. unfold f, block_frame. split.
    + intros [->|[?|(i & Hi & ->)]]; [right; exists (Z.of_nat n); lia|by left|right; exists i; lia].
    + intros [?|(i & Hi & ->)]; [by right; left|]. destruct (decide (i = Z.of_nat n)) as [->|]; [by left|]. right. right. exists i. lia.
Qed.

Lemma free_elf_buf_spec k buf : fa_ok (pt_alloc (k_pt k)) -> buf mod 4096 = 0 -> 0 < buf -> block_frame buf 256 <= 2 ^ 44 ->
  (forall g, in_buf buf g -> g ∉ k_free k) ->
  exists al, free_elf_buf k buf = Done (realloc k al) /\ fa_ok al /\ forall g, g ∈ fa_free al <-> g ∈ k_free k \/ in_buf buf g.
Proof. intros Hok Hal Hp Hr Hn. exact (free_frames_loop k buf Hok Hal Hp Hr Hn 256 ltac:(lia)). Qed.

(** The state a failed execve leaves: the frames that were free are free, and nothing
    in use was touched. *)
Record restored k k' : Prop := {
  rs_ok : fa_ok (pt_alloc (k_pt k'));
  rs_free : k_free k' = k_free k;
  rs_rest : tabs (k_pt k') = tabs (k_pt k) /\ k_cow k' = k_cow k /\ k_vfs k' = k_vfs k /\ k_shoot k' = k_shoot k;
  rs_mem g : g ∉ k_free k -> page_of k' g = page_of k g
}.

(** Filling the buffer writes frames of the buffer only. *)
Lemma fill_buf_spec k buf data : Z.of_nat (length data) <= MAX_ELF_SIZE ->
  k_pt (fill_buf k buf data) = k_pt k /\ k_cow (fill_buf k buf data) = k_cow k /\ k_vfs (fill_buf k buf data) = k_vfs k /\
  k_shoot (fill_buf k buf data) = k_shoot k /\ forall g, ~ in_buf buf g -> page_of (fill_buf k buf data) g = page_of k g.
Proof.
  unfold MAX_ELF_SIZE. intros Hl. unfold fill_buf. set (l := seqZ 0 _). assert (Forall (fun i => 0 <= i < 256) l) as Hr.
  { apply Forall_forall. intros i Hi%elem_of_seqZ. Z.div_mod_to_equations. lia. }
  generalize dependent l. intros l. revert k. induction l as [|i l IH]; intros k Hr; cbn [foldl]; [done|]. apply Forall_cons in Hr as [Hi Hr].
  destruct (IH (k_write_page k (block_frame buf i) (take 4096 (drop (Z.to_nat (i * 4096)) data))) Hr) as (-> & -> & -> & -> & Hp). split_and!; [done..|].
  intros g Hg. rewrite Hp by done. apply page_of_write_ne. intros ->. apply Hg. by exists i.
Qed.

(** The buffer is taken, perhaps filled, and given back. *)
Lemma buffer_restored k k1 buf : k_alloc_order k ELF_BUF_ORDER = Done (buf, k1) -> fa_ok (pt_alloc (k_pt k)) -> forall k2,
  k_pt k2 = k_pt k1 -> k_cow k2 = k_cow k1 -> k_vfs k2 = k_vfs k1 -> k_shoot k2 = k_shoot k1 -> (forall g, ~ in_buf buf g -> page_of k2 g = page_of k1 g) ->
  exists k3, free_elf_buf k2 buf = Done k3 /\ restored k k3.
Proof.
  intros E Hok k2 Hpt Hc Hv Hs Hm. pose proof (k_alloc_order_spec k Hok) as Ha. rewrite E in Ha. destruct Ha as (al & -> & Hok1 & Hal & Hp & Hr & Hin & Hf).
  assert (forall g, in_buf buf g -> g ∉ k_free k2) as Hnf.
  { intros g Hg. unfold k_free. rewrite Hpt. intros Hx. by apply Hf in Hx as [_ ?]. }
  destruct (free_elf_buf_spec k2 buf ltac:(by rewrite Hpt) Hal Hp Hr Hnf) as (al2 & -> & Hok2 & Hf2). eexists. split; [reflexivity|]. constructor.
  - done.
  - apply set_eq. intros g. change (g ∈ fa_free al2 <-> g ∈ k_free k). rewrite Hf2. unfold k_free at 1. rewrite Hpt. change (fa_free (pt_alloc (k_pt (realloc k al)))) with (k_free (realloc k al)).
    rewrite Hf. split; [intros [[? _]|Hb]; [done|by apply Hin]|]. intros Hg. destruct (in_buf_dec buf g) as [Hb|Hb]; [by right|]. left. split; [done|]. intros (i & Hi & ->). by apply (Hb i).
  - cbn. by rewrite Hpt, Hc, Hv, Hs.
  - intros g Hg. change (page_of k2 g = page_of k g). rewrite Hm; [done|]. intros Hb. by apply Hg, Hin.
Qed.

End Buffer.

(** ** Blocks that never come back *)

(** The blocks of 256 frames an allocator can still hand out. *)
Definition big_blocks (s : NumaBuddy * fmem) : Z := big (lists_of (node0 s.1) s.2).

Lemma big_blocks_brep b mem ls : brep b mem ls -> big_blocks (b, mem) = big ls.
Proof. intros Hb. unfold big_blocks. cbn. by rewrite (lists_of_spec _ _ _ (br_node _ _ _ Hb)). Qed.

Lemma big_alloc s order f s' : buddy_ok s -> order = 8 -> fa_alloc_order s order = Some (f, s') -> big_blocks s' = big_blocks s - 1.
Proof.
  destruct s as [b mem], s' as [b' mem']. intros (ls & n & Hb & _) -> E. cbn in E. cbn [fst snd] in Hb. pose proof (alloc_order_brep b mem ls 8 Hb ltac:(lia)) as Ha.
  destruct (NumaBuddy_alloc_order b mem 8) as [r|]; [|done]. subst r. destruct Ha as (ls' & n' & Hb' & _ & _ & _ & s & Hs & _ & Hbig).
  rewrite (big_blocks_brep b mem ls Hb), (big_blocks_brep b' mem' ls' Hb'), Hbig. change (Z.to_nat 8) with 8%nat in *. cbn [val_below].
  do 8 (destruct s as [|s]; [lia|]). do 3 (destruct s as [|s]; [cbn; lia|]). lia.
Qed.

Lemma big_alloc_None s : buddy_ok s -> fa_alloc_order s 8 = None <-> big_blocks s = 0.
Proof.
  destruct s as [b mem]. intros (ls & n & Hb & _). cbn [fst snd] in Hb. cbn. rewrite (big_blocks_brep b mem ls Hb). pose proof (alloc_order_brep b mem ls 8 Hb ltac:(lia)) as Ha.
  change (Z.to_nat 8) with 8%nat in Ha. unfold big.
  destruct (NumaBuddy_alloc_order b mem 8) as [[[f [b' mem']]|]|]; [|split; [intros _|done]|done].
  - destruct Ha as (ls' & n' & _ & _ & _ & _ & s & Hs & Hl & _). split; [done|]. unfold list_len in *.
    do 8 (destruct s as [|s]; [lia|]). do 3 (destruct s as [|s]; [lia|]). lia.
  - unfold list_len. by rewrite !Ha by lia.
Qed.

Lemma big_free s f s' : buddy_ok s -> f ∉ fa_free s -> f mod 4096 = 0 -> 0 < f < 2 ^ 44 -> fa_free_frame s f = Done s' ->
  buddy_ok s' /\ big_blocks s' = big_blocks s.
Proof.
  destruct s as [b mem]. intros (ls & n & Hb & Hn) Hf Hal Hr E. cbn in E, Hf. cbn [fst snd] in Hb, Hn. rewrite elem_of_buddy_free in Hf by done.
  assert (block_ok 0 f) as Hok by (apply block_ok_0; split; [done|]; Z.div_mod_to_equations; lia).
  destruct (free_frame_brep b mem ls f n Hb Hn Hok Hf) as (b1 & mem1 & ls1 & E1 & Hb1 & _ & n1 & Hn1). rewrite E1 in E. injection E as <-.
  split; [by exists ls1, n1|]. rewrite (big_blocks_brep b mem ls Hb), (big_blocks_brep b1 mem1 ls1 Hb1).
  unfold NumaBuddy_free_frame in E1. rewrite Hn in E1. revert E1. run. unfold BuddyNode_free_order. cbn [Z.ltb]. change (MAX_ORDER <? 0) with false. cbn [free_loop andb].
  destruct Hb as [Hlen Hnr Hc]. assert (node0 b = n) as E0 by (unfold node0; by rewrite Hn). rewrite E0 in Hnr.
  destruct (push_order_spec n mem ls 0 f Hnr ltac:(lia) Hok) as (l & n2 & mem2 & Hlk & Hpush & Hn2 & _).
  { rewrite block_frames_0. cbn. constructor; [done|apply Hnr]. }
  change (Z.to_nat 0) with 0%nat. rewrite Hpush. run. intros [= <- <-].
  assert (nrep n2 mem2 ls1) as Hn3.
  { destruct Hb1 as [_ Hb1 _]. unfold node0, set_node0 in Hb1. cbn [nodes] in Hb1.
    rewrite list_lookup_insert_eq in Hb1 by (rewrite Hlen; unfold MAX_NUMA_NODES; lia). destruct Hb1. by constructor. }
  rewrite <- (lists_of_spec _ _ _ Hn3), (lists_of_spec _ _ _ Hn2), (big_insert ls 0 l) by done. cbn [block_val]. lia.
Qed.

Section UsedUp.
Context {V : Type} `{!VfsHooks (NumaBuddy * fmem) V, !ExecLoader (NumaBuddy * fmem) V}.
Implicit Types (k : kstate (NumaBuddy * fmem) V) (x : xstate (NumaBuddy * fmem) V).

Lemma free_loop_big k buf : fa_ok (pt_alloc (k_pt k)) -> buf mod 4096 = 0 -> 0 < buf -> block_frame buf 256 <= 2 ^ 44 ->
  (forall g, in_buf buf g -> g ∉ k_free k) -> forall k', free_elf_buf k buf = Done k' -> big_blocks (pt_alloc (k_pt k')) = big_blocks (pt_alloc (k_pt k)).
Proof.
  intros Hok Hal Hp Hr Hn k'. unfold free_elf_buf. change (shl64 1 ELF_BUF_ORDER) with (Z.of_nat 256).
  assert (forall n, (n <= 256)%nat -> forall al, foldM (fun k i => k_free_frame k (PhysAddr_new (wrap64 (buf + i * 4096)))) k (seqZ 0 (Z.of_nat n)) = Done (realloc k al) ->
    big_blocks al = big_blocks (pt_alloc (k_pt k))) as Hall.
  { induction n as [|n IH]; intros Hle al; [cbn; intros E; injection E as E; by rewrite E|].
    destruct (free_frames_loop k buf Hok Hal Hp Hr Hn n ltac:(lia)) as (al0 & E0 & Hok0 & Hf0). replace (Z.of_nat (S n)) with (Z.of_nat n + 1) by lia.
    rewrite seqZ_app by lia. rewrite foldM_app, E0. cbn [mbind outcome_bind]. rewrite (seqZ_cons (0 + Z.of_nat n)) by lia. rewrite seqZ_nil by lia. cbn [foldM].
    unfold block_frame in *. rewrite wrap64_small by (unfold is_u64; lia). rewrite PhysAddr_new_frame by lia. replace (0 + Z.of_nat n) with (Z.of_nat n) by lia.
    set (f := buf + Z.of_nat n * 4096). unfold k_free_frame. cbn [realloc set_pt k_pt pt_alloc]. intros E.
    destruct (fa_free_frame al0 f) as [al1|] eqn:E1; [|done]. revert E. run. intros E. assert (al1 = al) as <- by (by injection E).
    rewrite <- (IH ltac:(lia) al0 E0). apply (big_free al0 f al1); [exact Hok0| |unfold f; rewrite Z.mod_add by lia; exact Hal|unfold f; lia|exact E1].
    rewrite Hf0. intros [Hin|(i & Hi & Ei)]; [|unfold f in Ei; lia]. apply (Hn f); [|done]. exists (Z.of_nat n). unfold f, block_frame. lia. }
  intros E. destruct (free_elf_buf_spec k buf Hok Hal Hp Hr Hn) as (al & E1 & _ & _). unfold free_elf_buf in E1. change (shl64 1 ELF_BUF_ORDER) with (Z.of_nat 256) in E1.
  rewrite E1 in E. injection E as <-. by apply (Hall 256%nat).
Qed.

(** A file that is not found: the call fails and costs a block. *)
Lemma failed_execve pcid_enabled cpu x path argv envp : fa_ok (pt_alloc (k_pt (x_k x))) ->
  (length argv <= MAX_ARGV)%nat -> (length envp <= MAX_ENVP)%nat -> (forall al, load_exec_file (realloc (x_k x) al) path MAX_ELF_SIZE = Done (inl (-2))) ->
  match do_execve pcid_enabled cpu x path argv envp with
  | Done (r, x') => r = ExecErr ENOENT /\ (exists k', x' = set_k x k' /\ restored (x_k x) k') /\ big_blocks (pt_alloc (k_pt (x_k x'))) = big_blocks (pt_alloc (k_pt (x_k x))) - 1
  | Panic => big_blocks (pt_alloc (k_pt (x_k x))) = 0
  end.
Proof.
  intros Hok Ha He Hl. unfold do_execve. rewrite (proj2 (Nat.ltb_ge _ _)), (proj2 (Nat.ltb_ge _ _)) by done. cbn [orb].
  pose proof (k_alloc_order_spec (x_k x) Hok) as Hs. destruct (k_alloc_order (x_k x) ELF_BUF_ORDER) as [[buf k1]|] eqn:E; run; [|by apply big_alloc_None].
  destruct (buffer_restored (x_k x) k1 buf E Hok k1 eq_refl eq_refl eq_refl eq_refl ltac:(done)) as (k2 & E2 & Hr). destruct Hs as (al & -> & Hok1 & Hal & Hp & Hr2 & Hin & Hf).
  rewrite Hl. run. rewrite E2. run. split_and!; [done|by exists k2|]. cbn [set_k x_k].
  rewrite (free_loop_big (realloc (x_k x) al) buf Hok1 Hal Hp Hr2 ltac:(intros g Hg Hx; by apply Hf in Hx as [_ ?]) k2 E2). cbn [realloc set_pt k_pt pt_alloc].
  unfold k_alloc_order in E. destruct (fa_alloc_order (pt_alloc (k_pt (x_k x))) ELF_BUF_ORDER) as [[f al']|] eqn:Eo; [|done]. revert E. run. intros [= -> ->]. by apply (big_alloc _ ELF_BUF_ORDER buf).
Qed.

(** Calls of execve in a row. *)
Fixpoint execves (n : nat) (pcid_enabled : bool) (cpu : Z) x (path : list Z) : outcome (xstate (NumaBuddy * fmem) V) :=
  match n with
  | O => Done x
  | S n' => '(_, x') ← do_execve pcid_enabled cpu x path [] []; execves n' pcid_enabled cpu x' path
  end.

Lemma restored_trans k1 k2 k3 : restored k1 k2 -> restored k2 k3 -> restored k1 k3.
Proof.
  intros [O1 F1 (T1 & C1 & V1 & S1) M1] [O2 F2 (T2 & C2 & V2 & S2) M2]. constructor; [done|congruence|by rewrite T2, C2, V2, S2|].
  intros g Hg. rewrite M2 by (by rewrite F1). by apply M1.
Qed.

(** As many failing calls of execve as there are blocks of 256 frames succeed in failing,
    and every frame that was free is free again; the next call stops the kernel. *)
Theorem execve_uses_up_blocks pcid_enabled cpu path n : forall x, fa_ok (pt_alloc (k_pt (x_k x))) ->
  (forall k, load_exec_file k path MAX_ELF_SIZE = Done (inl (-2))) -> big_blocks (pt_alloc (k_pt (x_k x))) = Z.of_nat n ->
  (exists k', execves n pcid_enabled cpu x path = Done (set_k x k') /\ restored (x_k x) k') /\ execves (S n) pcid_enabled cpu x path = Panic.
Proof.
  induction n as [|n IH]; intros x Hok Hl Hb;
    pose proof (failed_execve pcid_enabled cpu x path [] [] Hok ltac:(cbn; lia) ltac:(cbn; lia) ltac:(intros; apply Hl)) as Hf.
  - split; [exists (x_k x); split; [by destruct x|by constructor]|]. cbn [execves]. destruct (do_execve pcid_enabled cpu x path [] []) as [[r x']|]; [|done].
    destruct Hf as (_ & _ & Hf). pose proof (big_nonneg (lists_of (node0 (pt_alloc (k_pt (x_k x'))).1) (pt_alloc (k_pt (x_k x'))).2)) as Hz. unfold big_blocks in *. lia.
  - cbn [execves]. destruct (do_execve pcid_enabled cpu x path [] []) as [[r x']|]; run; [|lia]. destruct Hf as (-> & (k' & -> & Hr) & Hf).
    destruct (IH (set_k x k') (rs_ok _ _ Hr) Hl) as [(k2 & E & Hr2) Hp]; [cbn [set_k x_k] in Hf |- *; lia|]. split; [|exact Hp].
    exists k2. split; [exact E|]. by eapply restored_trans.
Qed.
End UsedUp.
