(* ===== verification/ExecImage.v ===== *)
(** * The image that execve builds

    Phase 1 of [do_execve]: a new address space filled with the segments of the file, the
    stack and the trampoline page.  Each of these is one page after the other, with a
    fresh frame; the invariant [built] says what the space maps, with which contents, and
    where every frame taken has gone. *)

From Stdlib Require Import ZArith Lia.
From stdpp Require Import prelude gmap list.
From S2P Require Import Prelude Paging Frames PageTable UserMap Pcid Elf Cow Vma AddressSpace Loader Faults Spaces ExecStack ExecMemory Fork Teardown Exec.

Local Open Scope Z_scope.

(** ** What a space maps *)

(** The permissions and the bytes of each page. *)
Definition pimage : Type := Z -> option (Z * (nat -> option Z)).

Section Image.
Context {A V : Type} `{FrameAllocatorLaws A}.
Implicit Types (k : kstate A V) (a : AddressSpace) (img : pimage).

(** The leaf of page [w] has permissions [fl] and a frame of its own with bytes [c]. *)
Definition page_ready k (root w fl : Z) (c : nat -> option Z) : Prop :=
  exists f, k_uleaf k root w = Some (PageTableEntry_new_page f fl) /\ f ∉ k_free k /\ f mod 4096 = 0 /\ 0 < f < 2 ^ 44 /\
    ~ utable (tabs (k_pt k)) root f /\ is_flags fl /\ forall j, (j < 4096)%nat -> page_of k f !! j = c j.

(** A frame of some page of the space. *)
Definition leaf_frame k (root g : Z) : Prop := exists w e, is_user w /\ k_uleaf k root w = Some e /\ PageTableEntry_frame e = g.

(** The space of [a], built from [k0] with at most [n] frames, maps exactly [img]. *)
Record built a (r : Z) k0 (n : nat) img k : Prop := {
  bu_two : two_spaces (k_pt k) (as_pml4_phys a) r;
  bu_mem_ok : mem_ok k;
  bu_size : (size (k_free k0) <= size (k_free k) + n)%nat;
  bu_none w : is_user w -> img (vpage w) = None -> k_uleaf k (as_pml4_phys a) w = None;
  bu_some w fl c : is_user w -> img (vpage w) = Some (fl, c) -> page_ready k (as_pml4_phys a) w fl c;
  bu_once w w' e e' : is_user w -> is_user w' -> k_uleaf k (as_pml4_phys a) w = Some e -> k_uleaf k (as_pml4_phys a) w' = Some e' ->
    PageTableEntry_frame e = PageTableEntry_frame e' -> vpage w = vpage w';
  bu_frames g : g ∈ k_free k0 <-> g ∈ k_free k \/ utable (tabs (k_pt k)) (as_pml4_phys a) g \/ leaf_frame k (as_pml4_phys a) g;
  bu_other p j : (length p <= 3)%nat -> pentry (tabs (k_pt k)) r p j = pentry (tabs (k_pt k0)) r p j;
  bu_kernel p : (length p <= 3)%nat -> ~ user_path p -> walk (tabs (k_pt k)) (as_pml4_phys a) p = walk (tabs (k_pt k0)) r p;
  bu_mem g : g ∉ k_free k0 -> page_of k g = page_of k0 g;
  bu_rest : k_cow k = k_cow k0 /\ k_vfs k = k_vfs k0 /\ k_shoot k = k_shoot k0
}.

Lemma built_ext a r k0 n n' img img' k : (forall p, img p = img' p) -> (n <= n')%nat -> built a r k0 n img k -> built a r k0 n' img' k.
Proof.
  intros He Hn [B1 B2 B3 B4 B5 B6 B7 B8 BK B9 B10]. constructor; try done; [lia|intros w Hw E; apply B4; [done|by rewrite He]|].
  intros w fl c Hw E. apply B5; [done|by rewrite He].
Qed.

Lemma built_leaf a r k0 n img k w e : built a r k0 n img k -> is_user w -> k_uleaf k (as_pml4_phys a) w = Some e ->
  exists fl c, img (vpage w) = Some (fl, c) /\ page_ready k (as_pml4_phys a) w fl c.
Proof.
  intros Hb Hw He. destruct (img (vpage w)) as [[fl c]|] eqn:E; [exists fl, c; split; [done|by apply (bu_some _ _ _ _ _ _ Hb)]|].
  rewrite (bu_none _ _ _ _ _ _ Hb w Hw E) in He. done.
Qed.

(** The empty space of [AddressSpace::new]. *)
Lemma built_new a cur k0 k1 : space_wf (k_pt k0) cur -> mem_ok k0 -> new_space k0 cur k1 a -> built a cur k0 1 (fun _ => None) k1.
Proof.
  intros Hs Hm Hn. destruct (new_space_wf k0 cur k1 a Hs Hn) as (Hwf & Hnone & Hu). destruct (new_space_other k0 cur k1 a cur Hs Hs Hn) as (Hwf' & Ht & Ha & Hb).
  pose proof Hn as [[Hin Hfr] _ _ _ _ _ (_ & Hmem & Hc & Hv & Hsh) _]. constructor.
  - constructor; [done..|]. apply Hb. by right.
  - intros f. unfold page_of. rewrite Hmem. apply Hm.
  - rewrite (size_remove _ _ Hin), Hfr. lia.
  - intros w Hw _. by apply Hnone.
  - done.
  - intros w w' e e' Hw _ He. rewrite Hnone in He by done. done.
  - intros g. rewrite Hfr, Hu, elem_of_difference, elem_of_singleton. split.
    + intros Hg. destruct (decide (g = as_pml4_phys a)); [by right; left|by left].
    + intros [[? _]|[->|(w & e & Hw & He & _)]]; [done|done|]. by rewrite Hnone in He by done.
  - intros p j Hp. by apply pentry_agree.
  - intros [|i p] Hp Hk; [by destruct Hk|]. cbn in Hp, Hk. rewrite (new_space_walk k0 cur k1 a i p Hs Hn) by lia. by rewrite decide_False.
  - intros g _. unfold page_of. by rewrite Hmem.
  - done.
Qed.

Lemma two_spaces_alloc k k1 f r r' : two_spaces (k_pt k) r r' -> k_alloc_frame k = Done (f, k1) -> two_spaces (k_pt k1) r r'.
Proof.
  intros [H1 H2 H3 H4] E. pose proof (k_alloc_frame_spec k r H1) as Ha. pose proof (k_alloc_frame_spec k r' H2) as Hb. rewrite E in Ha, Hb.
  destruct Ha as (Ha & _ & _ & _ & _ & Ht & _), Hb as (Hb & _). constructor; [done..| |]; by rewrite Ht.
Qed.

(** One more page: a frame that was free is mapped at [v], and tables are added. *)
Record page_step a r k (f v fl : Z) k' : Prop := {
  ps_two : two_spaces (k_pt k') (as_pml4_phys a) r;
  ps_size : (size (k_free k) <= size (k_free k') + 4)%nat;
  ps_frame : f ∈ k_free k /\ f mod 4096 = 0 /\ 0 < f < 2 ^ 44 /\ PageTableEntry_frame (PageTableEntry_new_page f fl) = f;
  ps_free g : g ∈ k_free k' -> g ∈ k_free k /\ g <> f;
  ps_tables g : utable (tabs (k_pt k')) (as_pml4_phys a) g -> g <> f /\ (g ∈ k_free k \/ utable (tabs (k_pt k)) (as_pml4_phys a) g);
  ps_exact g : g ∈ k_free k /\ g <> f \/ utable (tabs (k_pt k)) (as_pml4_phys a) g <-> g ∈ k_free k' \/ utable (tabs (k_pt k')) (as_pml4_phys a) g;
  ps_leaf w : k_uleaf k' (as_pml4_phys a) w = if decide (vpage w = vpage v) then Some (PageTableEntry_new_page f fl) else k_uleaf k (as_pml4_phys a) w;
  ps_other p j : (length p <= 3)%nat -> pentry (tabs (k_pt k')) r p j = pentry (tabs (k_pt k)) r p j;
  ps_kernel p : (length p <= 3)%nat -> ~ user_path p -> walk (tabs (k_pt k')) (as_pml4_phys a) p = walk (tabs (k_pt k)) (as_pml4_phys a) p;
  ps_mem g : g <> f -> page_of k' g = page_of k g;
  ps_rest : k_cow k' = k_cow k /\ k_vfs k' = k_vfs k /\ k_shoot k' = k_shoot k
}.

(** The frame [f] is taken from [k] and written: [k2]. *)
Record frame_filled k f k1 k2 (c : nat -> option Z) : Prop := {
  ff_alloc : k_alloc_frame k = Done (f, k1);
  ff_pt : k_pt k2 = k_pt k1;
  ff_rest : k_cow k2 = k_cow k1 /\ k_vfs k2 = k_vfs k1 /\ k_shoot k2 = k_shoot k1;
  ff_mem g : g <> f -> page_of k2 g = page_of k1 g;
  ff_len : length (page_of k2 f) = 4096%nat;
  ff_bytes j : (j < 4096)%nat -> page_of k2 f !! j = c j
}.

Lemma map_fresh_page a r k f k1 k2 c v fl :
  two_spaces (k_pt k) (as_pml4_phys a) r -> frame_filled k f k1 k2 c -> is_user v -> is_flags fl -> Z.testbit fl 0 = true ->
  match k_map_page k2 a v f fl with
  | Done k' => page_step a r k f v fl k' /\ forall g, page_of k' g = page_of k2 g
  | Panic => (size (k_free k) < 4)%nat
  end.
Proof.
  intros B1 [Ha Hpt (Hc & Hvf & Hsh) Hpg _ _] Hv Hfl Hpr. set (root := as_pml4_phys a) in *.
  pose proof (two_spaces_alloc k k1 f _ _ B1 Ha) as Ht1. rewrite <- Hpt in Ht1.
  pose proof (k_alloc_frame_spec k root (ts_one _ _ _ B1)) as Hs. rewrite Ha in Hs. destruct Hs as (_ & Hf & Hfr & Hal & Hr & Htb & Hm1 & Hc1 & Hv1 & Hs1).
  assert (tabs (k_pt k2) = tabs (k_pt k)) as Htb2 by (by rewrite Hpt). assert (k_free k2 = k_free k ∖ {[f]}) as Hfr2 by (unfold k_free; rewrite Hpt; exact Hfr).
  assert (forall g, g ∈ k_free k2 <-> g ∈ k_free k /\ g <> f) as Hin2 by (intros g; by rewrite Hfr2, elem_of_difference, elem_of_singleton).
  pose proof (k_map_page_two k2 a r v f fl Ht1 Hv ltac:(lia) Hfl Hpr) as Hm. pose proof (size_remove _ _ Hf) as Hsz. rewrite <- Hfr2 in Hsz.
  destruct (k_map_page k2 a v f fl) as [k'|]; [|lia]. destruct Hm as (M1 & M2 & M3 & M4 & M5 & M6 & M7 & M8 & M9 & M10). fold root in M1, M2, M3, M10.
  assert (forall g, page_of k' g = page_of k2 g) as Hp' by (intros g; unfold page_of; by rewrite M6). split; [|done].
  constructor; fold root.
  - exact M1.
  - lia.
  - split_and!; [done..|lia|lia|]. rewrite frame_new_page by done. change (2 ^ 12) with 4096. rewrite Hal, Z.mod_small by lia. lia.
  - intros g Hg. apply Hin2. by apply (os_free _ _ _ M2).
  - intros g Hg. destruct (os_new _ _ _ M2 g Hg) as [Hi%Hin2|Hi]; [split; [apply Hi|by left; apply Hi]|]. rewrite Htb2 in Hi. split; [|by right].
    intros ->. destruct Hi as (p & Hp & _ & Hw). by apply (wf_live _ _ (sw_wf _ _ (ts_one _ _ _ B1)) p f Hp Hw).
  - intros g. rewrite <- Hin2, <- Htb2. apply M3.
  - intros w. rewrite M10. unfold k_uleaf. by rewrite Htb2.
  - intros p j Hp. by rewrite M4, Htb2 by done.
  - intros p Hp Hk. rewrite (os_kernel _ _ _ M2) by done. by rewrite Htb2.
  - intros g Hg. rewrite Hp', Hpg by done. unfold page_of. by rewrite Hm1.
  - by rewrite M7, M8, M9, Hc, Hvf, Hsh, Hc1, Hv1, Hs1.
Qed.

(** The frames of pages, after the step. *)
Lemma step_leaf_frames a r k f v fl k' : page_step a r k f v fl k' -> is_user v -> k_uleaf k (as_pml4_phys a) v = None ->
  forall g, leaf_frame k' (as_pml4_phys a) g <-> leaf_frame k (as_pml4_phys a) g \/ g = f.
Proof.
  intros Hst Hv Hn g. pose proof (ps_frame _ _ _ _ _ _ _ Hst) as (_ & _ & _ & Hff). split.
  - intros (w & e & Hw & He & <-). rewrite (ps_leaf _ _ _ _ _ _ _ Hst) in He. case_decide; [injection He as <-; by right|]. left. by exists w, e.
  - intros [(w & e & Hw & He & <-)| ->].
    + exists w, e. split_and!; [done| |done]. rewrite (ps_leaf _ _ _ _ _ _ _ Hst), decide_False; [done|]. intros E. by rewrite (uleaf_vpage_k k _ w v E), Hn in He.
    + exists v, (PageTableEntry_new_page f fl). split_and!; [done|by rewrite (ps_leaf _ _ _ _ _ _ _ Hst), decide_True|done].
Qed.

Definition img_add img (p fl : Z) (c : nat -> option Z) : pimage := fun q => if decide (q = p) then Some (fl, c) else img q.

Lemma built_page a r k0 n img k f k1 k2 v fl c :
  built a r k0 n img k -> is_user v -> img (vpage v) = None -> is_flags fl -> Z.testbit fl 0 = true -> frame_filled k f k1 k2 c ->
  match k_map_page k2 a v f fl with
  | Done k' => built a r k0 (n + 4) (img_add img (vpage v) fl c) k'
  | Panic => (size (k_free k0) < n + 4)%nat
  end.
Proof.
  intros Hb Hv Hi Hfl Hpr Hff. pose proof Hb as [B1 B2 B3 B4 B5 B6 B7 B8 BK B9 [B10 [B11 B12]]].
  pose proof (map_fresh_page a r k f k1 k2 c v fl B1 Hff Hv Hfl Hpr) as Hm. destruct (k_map_page k2 a v f fl) as [k'|]; [|lia]. destruct Hm as [Hst Hp'].
  pose proof (step_leaf_frames a r k f v fl k' Hst Hv ltac:(by apply B4)) as Hlf. destruct Hst as [S1 S2 (Hf & Hal & Hr & Hnf) S4 S5 S6 S7 S8 SK S9 (S10 & S11 & S12)].
  destruct Hff as [_ _ _ _ Hlen Hby]. rewrite <- Hp' in Hlen. constructor.
  - exact S1.
  - intros g. destruct (decide (g = f)) as [->|]; [done|]. rewrite S9 by done. apply B2.
  - lia.
  - intros w Hw E. unfold img_add in E. case_decide as Ew; [done|]. rewrite S7, decide_False by done. by apply B4.
  - intros w fl' c' Hw E. unfold img_add in E. case_decide as Ew.
    + injection E as <- <-. exists f. rewrite S7, decide_True by done.
      split_and!; [done|by intros [_ Hx]%S4|done|lia|lia|by intros [? _]%S5|done|intros j Hj; rewrite Hp'; by apply Hby].
    + destruct (B5 w fl' c' Hw E) as (g & G1 & G2 & G3 & G4 & G5 & G6 & G7). exists g. rewrite S7, decide_False by done. assert (g <> f) by (by intros ->).
      split_and!; [done|intros [Hx _]%S4; by apply G2|done|lia|lia|intros [_ [Hx|Hx]]%S5; [by apply G2|by apply G5]|done|]. intros j Hj. rewrite S9 by done. by apply G7.
  - assert (forall w e, is_user w -> k_uleaf k (as_pml4_phys a) w = Some e -> PageTableEntry_frame e <> f) as Hne.
    { intros w e Hw He. destruct (built_leaf _ _ _ _ _ _ w e Hb Hw He) as (fl' & c' & _ & g & G1 & G2 & G3 & G4 & _ & G6 & _). rewrite He in G1. injection G1 as ->.
      rewrite frame_new_page by done. change (2 ^ 12) with 4096. rewrite G3, Z.mod_small by lia. rewrite Z.sub_0_r. by intros ->. }
    intros w w' e e' Hw Hw'. rewrite !S7. repeat case_decide; [congruence| | |by apply B6].
    + intros [= <-] He' E. rewrite Hnf in E. by destruct (Hne w' e' Hw' He').
    + intros He [= <-] E. rewrite Hnf in E. by destruct (Hne w e Hw He).
  - intros g. rewrite Hlf, B7. pose proof (S6 g) as Hx. destruct (decide (g = f)) as [->|]; [|tauto]. split; [by right; right; right|by left].
  - intros p j Hp. rewrite S8 by done. by apply B8.
  - intros p Hp Hk. rewrite SK by done. by apply BK.
  - intros g Hg. rewrite S9; [by apply B9|]. intros ->. apply Hg, B7. by left.
  - by rewrite S10, S11, S12.
Qed.

(** ** Filling a frame *)

Lemma overwrite_length page bytes : length page = 4096%nat -> (length bytes <= 4096)%nat -> length (overwrite page bytes) = 4096%nat.
Proof. intros Hp Hb. unfold overwrite. rewrite length_app, length_drop. lia. Qed.

Lemma zeroed_filled k f k1 : mem_ok k -> k_alloc_frame k = Done (f, k1) -> (forall g, page_of k1 g = page_of k g) ->
  frame_filled k f k1 (k_write_page k1 f zero_page) (fun _ => Some 0).
Proof.
  intros Hm Ha Hp. constructor; try done.
  - intros g Hg. by apply page_of_write_ne.
  - rewrite page_of_write_eq. apply overwrite_length; [rewrite Hp; apply Hm|by rewrite zero_page_length].
  - intros j Hj. rewrite page_of_write_eq, overwrite_lookup, zero_page_length, decide_True by done. by apply lookup_replicate_2.
Qed.

Lemma filled_write k f k1 k2 c c' src : frame_filled k f k1 k2 c -> (length src <= 4096)%nat ->
  (forall j, (j < 4096)%nat -> (if decide (j < length src)%nat then src !! j else c j) = c' j) -> frame_filled k f k1 (k_write_page k2 f src) c'.
Proof.
  intros [F1 F2 F3 F4 F5 F6] Hl Hc. constructor; try done.
  - intros g Hg. rewrite page_of_write_ne by done. by apply F4.
  - rewrite page_of_write_eq. by apply overwrite_length.
  - intros j Hj. rewrite page_of_write_eq, overwrite_lookup, <- Hc by done. case_decide; [done|by apply F6].
Qed.

Lemma filled_ext k f k1 k2 c c' : frame_filled k f k1 k2 c -> (forall j, (j < 4096)%nat -> c j = c' j) -> frame_filled k f k1 k2 c'.
Proof. intros [F1 F2 F3 F4 F5 F6] Hc. constructor; try done. intros j Hj. rewrite <- Hc by done. by apply F6. Qed.

(** Taking a frame for a page of the space. *)
Lemma built_alloc a r k0 n img k : built a r k0 n img k ->
  match k_alloc_frame k with
  | Done (f, k1) => PhysAddr_new f = f /\ frame_filled k f k1 (k_write_page k1 f zero_page) (fun _ => Some 0)
  | Panic => (size (k_free k0) < n + 4)%nat
  end.
Proof.
  intros Hb. pose proof (k_alloc_frame_spec k _ (ts_one _ _ _ (bu_two _ _ _ _ _ _ Hb))) as Ha. pose proof (bu_size _ _ _ _ _ _ Hb) as Hs.
  destruct (k_alloc_frame k) as [[f k1]|] eqn:E; [|rewrite Ha, size_empty in Hs; lia]. destruct Ha as (_ & _ & _ & _ & Hr & _ & Hm & _).
  split; [by apply PhysAddr_new_frame|]. apply zeroed_filled; [apply (bu_mem_ok _ _ _ _ _ _ Hb)|done|]. intros g. unfold page_of. by rewrite Hm.
Qed.

(** ** Segments *)

(** A later image over an earlier one. *)
Definition img_or img (img' : pimage) : pimage := fun p => match img' p with Some x => Some x | None => img p end.

(** The first [i] pages of a segment. *)
Definition seg_part (seg : LoadSegment) (data : list Z) (i : nat) : pimage := fun p =>
  if decide (seg_vaddr seg / 4096 <= p < seg_vaddr seg / 4096 + Z.of_nat i) then
    Some (user_flags_from_elf (seg_flags seg), fun j => seg_byte seg data (p * 4096 + Z.of_nat j - seg_vaddr seg))
  else None.

Definition seg_pages (seg : LoadSegment) : nat := page_count (seg_vaddr seg) (seg_end seg).
Definition seg_img (seg : LoadSegment) (data : list Z) : pimage := seg_part seg data (seg_pages seg).

Lemma slice_length (data : list Z) s e src : slice data s e = Done src -> Z.of_nat (length src) <= Z.max 0 (e - s).
Proof. unfold slice. destruct ((s <=? e) && (e <=? Z.of_nat (length data))) eqn:E; [|done]. intros [= <-]. rewrite length_take. lia. Qed.

(** The frame of a page of a segment, before it is mapped. *)
Lemma segment_filled a seg data k f k1 i : seg_ok (Z.of_nat (length data)) seg -> Z.of_nat (length data) < 2 ^ 63 ->
  seg_vaddr seg + Z.of_nat i * 4096 < seg_end seg -> PhysAddr_new f = f ->
  frame_filled k f k1 (k_write_page k1 f zero_page) (fun _ => Some 0) ->
  exists k3, frame_filled k f k1 k3 (fun j => seg_byte seg data (Z.of_nat i * 4096 + Z.of_nat j)) /\
    map_segment_page a seg data k (seg_vaddr seg + Z.of_nat i * 4096) =
    k_map_page k3 a (seg_vaddr seg + Z.of_nat i * 4096) f (user_flags_from_elf (seg_flags seg)).
Proof.
  intros Hseg Hlen Hin Hpa Hz. pose proof (seg_end_eq _ seg Hseg) as (_ & _ & Htop). pose proof (so_vaddr _ _ Hseg) as [Hv0 _]. unfold USER_TOP in Htop.
  unfold map_segment_page. rewrite (ff_alloc _ _ _ _ _ Hz). run.
  replace (wrap64 (seg_vaddr seg + Z.of_nat i * 4096 - seg_vaddr seg)) with (Z.of_nat i * 4096) by (rewrite wrap64_small by (unfold is_u64; lia); lia).
  set (ps := Z.of_nat i * 4096) in *. destruct (Z.ltb_spec ps (seg_filesz seg)) as [Hlt|Hge].
  - destruct (segment_copy _ seg data (page_of k1 f) ps Hseg eq_refl Hlen ltac:(lia) Hlt) as (src & Hsl & Hby). rewrite Hsl. run.
    exists (k_write_page (k_write_page k1 f zero_page) f src). rewrite Hpa. split; [|done]. destruct Hz as [F1 F2 F3 F4 F5 F6].
    assert (length src <= 4096)%nat as Hls.
    { apply slice_length in Hsl. rewrite (wrap64_small (_ + Z.min _ _)) in Hsl; [lia|]. destruct Hseg as [_ _ Hsz [Hd1 Hd2]].
      rewrite (wrap64_small (seg_filesz seg - ps)), (wrap64_small (seg_data_off seg + ps)) by (unfold is_u64; lia). unfold is_u64. lia. }
    constructor; try done.
    + intros g Hg. rewrite page_of_write_ne by done. by apply F4.
    + rewrite page_of_write_eq. by apply overwrite_length.
    + intros j Hj. rewrite !page_of_write_eq. by apply Hby.
  - exists (k_write_page k1 f zero_page). rewrite Hpa. split; [|done]. apply (filled_ext _ _ _ _ _ _ Hz). intros j Hj.
    unfold seg_byte. by rewrite (proj2 (Z.ltb_ge _ _)) by lia.
Qed.

Definition seg_range (seg : LoadSegment) (p : Z) : Prop := seg_vaddr seg / 4096 <= p < seg_vaddr seg / 4096 + Z.of_nat (seg_pages seg).

Lemma seg_pages_eq len seg : seg_ok len seg -> seg_vaddr seg + Z.of_nat (seg_pages seg) * 4096 = seg_end seg.
Proof.
  intros Hseg. pose proof (seg_end_eq _ seg Hseg) as (Hend & Hem & Htop). pose proof (so_vaddr _ _ Hseg) as [Hv0 Hvm]. pose proof (so_sizes _ _ Hseg).
  unfold seg_pages, page_count. Z.div_mod_to_equations. lia.
Qed.

Lemma built_segment a r k0 n img k seg data : seg_ok (Z.of_nat (length data)) seg -> Z.of_nat (length data) < 2 ^ 63 ->
  built a r k0 n img k -> (forall p, seg_range seg p -> img p = None) ->
  match map_segment a seg data k with
  | Done k' => built a r k0 (n + 4 * seg_pages seg) (img_or img (seg_img seg data)) k'
  | Panic => (size (k_free k0) < n + 4 * seg_pages seg)%nat
  end.
Proof.
  intros Hseg Hlen Hb Hfree. pose proof (seg_pages_eq _ seg Hseg) as Hn. pose proof (seg_end_eq _ seg Hseg) as (_ & _ & Htop). unfold USER_TOP in Htop.
  pose proof (so_vaddr _ _ Hseg) as [Hv0 Hvm]. unfold map_segment. fold (seg_end seg). fold (seg_pages seg).
  pose proof (page_loop_inv (map_segment_page a seg data) (fun i k => built a r k0 (n + 4 * i) (img_or img (seg_part seg data i)) k)
    (size (k_free k0) < n + 4 * seg_pages seg)%nat (seg_vaddr seg) (seg_end seg) (seg_pages seg) 0 k) as Hl.
  rewrite Z.add_0_r in Hl. apply Hl; [|done|intros; lia|lia|].
  - clear Hl. intros i ki Hi Hki. set (v := seg_vaddr seg + Z.of_nat i * 4096).
    assert (vpage v = seg_vaddr seg / 4096 + Z.of_nat i) as Hvp by (unfold v; rewrite vpage_user by lia; by rewrite Z.div_add).
    pose proof (built_alloc _ _ _ _ _ _ Hki) as Ha. destruct (k_alloc_frame ki) as [[f k1]|] eqn:Ef.
    2: { unfold map_segment_page. rewrite Ef. run. lia. }
    destruct Ha as [Hpa Hz]. destruct (segment_filled a seg data ki f k1 i Hseg Hlen ltac:(lia) Hpa Hz) as (k3 & Hf3 & E3). fold v in E3. rewrite E3.
    apply (filled_ext _ _ _ _ _ (fun j => seg_byte seg data (vpage v * 4096 + Z.of_nat j - seg_vaddr seg))) in Hf3.
    2: { intros j _. f_equal. rewrite Hvp. Z.div_mod_to_equations. lia. }
    destruct (user_flags_ok (seg_flags seg)) as [Hfl Hpr].
    assert (img_or img (seg_part seg data i) (vpage v) = None) as Hnone.
    { unfold img_or, seg_part. rewrite Hvp, decide_False by lia. apply Hfree. unfold seg_range. lia. }
    pose proof (built_page a r k0 _ _ ki f k1 k3 v _ _ Hki ltac:(apply is_user_low; unfold v; lia) Hnone Hfl Hpr Hf3) as Hp.
    destruct (k_map_page k3 a v f _) as [k'|]; [|lia]. eapply built_ext; [|apply Nat.eq_le_incl|exact Hp]; [|lia].
    intros p. unfold img_add, img_or, seg_part. case_decide as E.
    + by rewrite E, Hvp, decide_True by lia.
    + rewrite Hvp in E. destruct (decide (seg_vaddr seg / 4096 <= p < seg_vaddr seg / 4096 + Z.of_nat i)) as [Hd|Hd].
      * by rewrite decide_True by lia.
      * by rewrite decide_False by lia.
  - eapply built_ext; [|apply Nat.eq_le_incl|exact Hb]; [|lia]. intros p. unfold img_or, seg_part. by rewrite decide_False by lia.
Qed.

(** Segments one after the other. *)
Fixpoint segs_apart (segs : list LoadSegment) : Prop :=
  match segs with
  | [] => True
  | s :: l => Forall (fun s' => forall p, seg_range s p -> ~ seg_range s' p) l /\ segs_apart l
  end.

Definition total_pages (segs : list LoadSegment) : nat := foldr (fun s n => seg_pages s + n)%nat 0%nat segs.

Definition segs_img (data : list Z) (segs : list LoadSegment) img : pimage := foldl (fun i s => img_or i (seg_img s data)) img segs.

Lemma built_segments a r k0 data segs : Forall (seg_ok (Z.of_nat (length data))) segs -> Z.of_nat (length data) < 2 ^ 63 -> segs_apart segs ->
  forall n img k, built a r k0 n img k -> (forall s p, s ∈ segs -> seg_range s p -> img p = None) ->
  match foldM (fun k seg => map_segment a seg data k) k segs with
  | Done k' => built a r k0 (n + 4 * total_pages segs) (segs_img data segs img) k'
  | Panic => (size (k_free k0) < n + 4 * total_pages segs)%nat
  end.
Proof.
  intros Hok Hlen. induction Hok as [|s segs Hs Hok IH]; intros Hap n img k Hb Hfree; cbn [foldM].
  { by rewrite Nat.add_0_r. }
  destruct Hap as [Hap1 Hap]. cbn [total_pages foldr]. fold (total_pages segs).
  pose proof (built_segment a r k0 n img k s data Hs Hlen Hb ltac:(intros p; apply Hfree, list_elem_of_here)) as H1.
  destruct (map_segment a s data k) as [k1|]; run; [|lia]. pose proof (IH Hap _ _ k1 H1) as H2.
  assert (forall s' p, s' ∈ segs -> seg_range s' p -> img_or img (seg_img s data) p = None) as Hfree'.
  { intros s' p Hin Hp. unfold img_or, seg_img, seg_part. rewrite decide_False; [apply (Hfree s'); [by apply list_elem_of_further|done]|].
    intros Hr. rewrite Forall_forall in Hap1. by apply (Hap1 s' Hin p). }
  specialize (H2 Hfree'). destruct (foldM _ k1 segs) as [k'|]; [|lia]. cbn [segs_img foldl]. eapply built_ext; [done| |exact H2]. lia.
Qed.

(** ** The stack and the trampoline *)

Definition zero_bytes : nat -> option Z := fun _ => Some 0.

Definition stack_part (i : nat) : pimage := fun p =>
  if decide (USTACK_BOTTOM / 4096 <= p < USTACK_BOTTOM / 4096 + Z.of_nat i) then Some (stack_flags, zero_bytes) else None.

Definition tramp_flags : Z := with_user_accessible (with_present PageFlags_new).

Definition tramp_bytes : nat -> option Z := fun j => if decide (j < 9)%nat then SIGRETURN_TRAMPOLINE_CODE !! j else Some 0.

Definition tramp_page : Z := SIGRETURN_TRAMPOLINE_VA / 4096.

Lemma built_stack a r k0 n img k : built a r k0 n img k -> (forall p, USTACK_BOTTOM / 4096 <= p < USTACK_BOTTOM / 4096 + 64 -> img p = None) ->
  match map_user_stack a k with
  | Done (top, k') => top = USTACK_TOP - 8 /\ built a r k0 (n + 256) (img_or img (stack_part 64)) k'
  | Panic => (size (k_free k0) < n + 256)%nat
  end.
Proof.
  intros Hb Hfree. unfold map_user_stack.
  assert (forall i, (i <= 64)%nat -> match foldM (map_stack_page a) k (seqZ 0 (Z.of_nat i)) with
    | Done k' => built a r k0 (n + 4 * i) (img_or img (stack_part i)) k' | Panic => (size (k_free k0) < n + 4 * i)%nat end) as Hall.
  { induction i as [|i IH]; intros Hi.
    { cbn. eapply built_ext; [|apply Nat.eq_le_incl|exact Hb]; [|lia]. intros p. unfold img_or, stack_part. by rewrite decide_False by lia. }
    specialize (IH ltac:(lia)). replace (Z.of_nat (S i)) with (Z.of_nat i + 1) by lia. rewrite seqZ_app by lia. rewrite foldM_app.
    destruct (foldM (map_stack_page a) k (seqZ 0 (Z.of_nat i))) as [ki|]; cbn [mbind outcome_bind]; [|lia].
    rewrite (seqZ_cons (0 + Z.of_nat i)) by lia. rewrite seqZ_nil by lia. cbn [foldM]. unfold map_stack_page.
    pose proof (built_alloc _ _ _ _ _ _ IH) as Ha. destruct (k_alloc_frame ki) as [[f k1]|] eqn:Ef; run; [|lia]. destruct Ha as [Hpa Hz]. rewrite Hpa.
    set (v := wrap64 (USTACK_TOP - USTACK_SIZE + (0 + Z.of_nat i) * 4096)).
    assert (is_user v /\ vpage v = USTACK_BOTTOM / 4096 + Z.of_nat i) as [Hv Hvp].
    { unfold v, USTACK_BOTTOM, USTACK_TOP, USTACK_SIZE. rewrite wrap64_small by (unfold is_u64; lia). split; [apply is_user_low; lia|].
      rewrite vpage_user by lia. clear. Z.div_mod_to_equations. lia. }
    destruct stack_flags_ok as [Hfl Hpr]. assert (img_or img (stack_part i) (vpage v) = None) as Hnone.
    { unfold img_or, stack_part. rewrite Hvp, decide_False by lia. apply Hfree. lia. }
    pose proof (built_page a r k0 _ _ ki f k1 _ v _ _ IH Hv Hnone Hfl Hpr Hz) as Hp. destruct (k_map_page _ a v f stack_flags) as [k'|]; run; [|lia].
    eapply built_ext; [|apply Nat.eq_le_incl|exact Hp]; [|lia]. intros p. unfold img_add, img_or, stack_part. rewrite Hvp. case_decide as E; [by rewrite decide_True by lia|].
    destruct (decide (USTACK_BOTTOM / 4096 <= p < USTACK_BOTTOM / 4096 + Z.of_nat i)) as [Hd|Hd]; [by rewrite decide_True by lia|by rewrite decide_False by lia]. }
  specialize (Hall 64%nat ltac:(lia)). change (Z.of_nat 64) with USTACK_PAGES in Hall.
  destruct (foldM (map_stack_page a) k (seqZ 0 USTACK_PAGES)) as [k'|]; run; [|lia]. split; [done|]. exact Hall.
Qed.

Lemma built_trampoline a r k0 n img k : built a r k0 n img k -> img tramp_page = None ->
  match map_sigreturn_trampoline a k with
  | Done k' => built a r k0 (n + 4) (img_add img tramp_page tramp_flags tramp_bytes) k'
  | Panic => (size (k_free k0) < n + 4)%nat
  end.
Proof.
  intros Hb Hnone. unfold map_sigreturn_trampoline. pose proof (built_alloc _ _ _ _ _ _ Hb) as Ha.
  destruct (k_alloc_frame k) as [[f k1]|] eqn:Ef; run; [|lia]. destruct Ha as [Hpa Hz]. rewrite Hpa.
  assert (is_user SIGRETURN_TRAMPOLINE_VA /\ vpage SIGRETURN_TRAMPOLINE_VA = tramp_page) as [Hv Hvp].
  { unfold tramp_page, SIGRETURN_TRAMPOLINE_VA. split; [apply is_user_low; lia|]. by rewrite vpage_user by lia. }
  rewrite <- Hvp in Hnone. rewrite <- Hvp. apply (built_page a r k0 n img k f k1); [done..| |done|].
  - split; [vm_compute; discriminate|]. intros i Hi Hn. unfold tramp_flags, with_user_accessible, with_present, PRESENT, USER_ACCESSIBLE, PageFlags_new. autorewrite with bits. bit_cases; done.
  - apply (filled_write _ _ _ _ _ _ _ Hz); [cbn; lia|done].
Qed.
End Image.
