(* ===== verification/ExecStart.v ===== *)
(** * Phase 1 of execve: the image with its stack

    [setup_stack] writes the pages of the stack and nothing else, so the image that
    [build_image] of Exec.v returns has the segments of the file, the trampoline and a
    stack with the arguments, and every frame taken is a table or a page of it. *)

From Stdlib Require Import ZArith Lia.
From stdpp Require Import prelude gmap list.
From S2P Require Import Prelude Paging Frames PageTable UserMap Pcid Elf Cow Vma AddressSpace Loader Faults Spaces ExecStack ExecMemory Fork Teardown Exec ExecBlocks ExecImage.

Local Open Scope Z_scope.

(** ** Writes to the stack *)

Section Writes.
Context {A V : Type} `{FrameAllocator A}.
Implicit Types (k : kstate A V).

(** The frame [g] backs an address of the range. *)
Definition backs k (root lo hi g : Z) : Prop := exists x, lo <= x < hi /\ translate (k_pt k) root x = Done (Some (g + x mod 4096)).

(** Only frames that back the range were written. *)
Record stable k0 (root lo hi : Z) k : Prop := {
  sb_pt : k_pt k = k_pt k0;
  sb_rest : k_cow k = k_cow k0 /\ k_vfs k = k_vfs k0 /\ k_shoot k = k_shoot k0;
  sb_len : forall f, length (page_of k f) = 4096%nat;
  sb_mem g : ~ backs k0 root lo hi g -> page_of k g = page_of k0 g
}.

Lemma stable_write_at k0 k root lo hi a f bytes : stable k0 root lo hi k -> lo <= a < hi -> translate (k_pt k) root a = Done (Some (f + a mod 4096)) ->
  f mod 4096 = 0 -> a mod 4096 + Z.of_nat (length bytes) <= 4096 -> stable k0 root lo hi (k_write_at k (f + a mod 4096) bytes).
Proof.
  intros [S1 S2 S3 S4] Ha Ht Hf Hl. unfold k_write_at. destruct (frame_split f a Hf) as [-> ->]. pose proof (Z.mod_pos_bound a 4096 ltac:(lia)) as Hm.
  set (page' := _ ++ _).
  assert (length page' = 4096%nat) as Hlen by (unfold page'; rewrite !length_app, length_take, length_drop, S3; lia).
  assert (forall g, page_of (set_mem k (<[f := page']> (k_mem k))) g = if decide (g = f) then page' else page_of k g) as Hpg.
  { intros g. unfold page_of, set_mem. cbn [k_mem]. case_decide as E; [subst; by rewrite lookup_insert_eq|by rewrite lookup_insert_ne]. }
  constructor; [done|done| |].
  - intros g. rewrite Hpg. by case_decide.
  - intros g Hg. rewrite Hpg, decide_False; [by apply S4|]. intros ->. apply Hg. exists a. split; [done|]. by rewrite <- S1.
Qed.

Lemma stable_write_loop k0 root lo hi fuel : forall k a data,
  (length data <= fuel)%nat -> mapped k root lo hi -> stable k0 root lo hi k -> 0 <= lo -> hi < 2 ^ 63 -> lo <= a -> a + Z.of_nat (length data) <= hi ->
  forall k', write_bytes_loop fuel k root a data = Done k' -> stable k0 root lo hi k'.
Proof.
  induction fuel as [|fuel IH]; intros k a data Hf Hm Hs Hlo Hhi Ha Hah k'; [by intros [= <-]|].
  destruct data as [|b data]; [by intros [= <-]|]. cbn [write_bytes_loop]. set (all := b :: data) in *. assert (0 < Z.of_nat (length all)) as Hpos by (cbn; lia).
  change 0xFFF with (Z.ones 12). rewrite Z.land_ones by lia. change (2 ^ 12) with 4096. pose proof (Z.mod_pos_bound a 4096 ltac:(lia)) as Hmod.
  set (n := Z.min (4096 - a mod 4096) (Z.of_nat (length all))). assert (0 < n <= Z.of_nat (length all)) as Hn by lia.
  pose proof Hm as (F & HF & _). destruct (HF a ltac:(lia)) as (Htr & Hal & _). unfold virt_to_phys_via_pagewalk. rewrite Htr. run.
  assert (length (take (Z.to_nat n) all) = Z.to_nat n) as Hlt by (rewrite length_take; lia).
  destruct (write_at_byte k root lo hi a (take (Z.to_nat n) all) (F (a / 4096) + a mod 4096) Hm Ha) as [Hm1 _]; [lia|intros E; rewrite E in Hlt; cbn in Hlt; lia|lia|exact Htr|].
  rewrite wrap64_small by (unfold is_u64; lia).
  apply IH; [rewrite length_drop; cbn in *; lia|done| |done|done|lia|rewrite length_drop; lia].
  apply stable_write_at; [done|lia|done|done|lia].
Qed.

(** The interface of ExecStack.v, with what stays as it was. *)
Definition stable_laws k0 (root lo hi : Z) : UserMemoryLaws (uspace A V).
Proof.
  refine {| um_range s l h := lo = l /\ hi = h /\ us_root s = root /\ mapped (us_k s) root lo hi /\ stable k0 root lo hi (us_k s) |}.
  intros m l h a bs (<- & <- & Hr & Hm & Hs) Hlo Hhi Ha Hah. cbn [um_write um_byte uspace_memory]. rewrite Hr. unfold write_bytes_to_user.
  destruct (write_bytes_loop_spec root lo hi (length bs) (us_k m) a bs ltac:(lia) Hm Hlo Hhi Ha Hah) as (k' & E & Hm' & Hb). rewrite E. run.
  eexists. split; [reflexivity|]. cbn [us_k us_root]. split; [|exact Hb].
  split_and!; [done..|]. exact (stable_write_loop k0 root lo hi (length bs) (us_k m) a bs ltac:(lia) Hm Hs Hlo Hhi Ha Hah k' E).
Defined.

(** The documented limits of the arguments. *)
Record args_fit (argv envp : list (list Z)) : Prop := {
  af_argv : (length argv <= MAX_ARGV)%nat;
  af_envp : (length envp <= MAX_ENVP)%nat;
  af_len : Forall (fun s => Z.of_nat (length s) <= 256) (argv ++ envp)
}.

Lemma setup_stack_stable k root argv envp : mapped k root USTACK_BOTTOM (USTACK_TOP - 8) -> (forall f, length (page_of k f) = 4096%nat) -> args_fit argv envp ->
  exists m rsp ptrs, setup_stack {| us_k := k; us_root := root |} (USTACK_TOP - 8) argv envp = Done (m, rsp) /\ us_root m = root /\
    stable k root USTACK_BOTTOM (USTACK_TOP - 8) (us_k m) /\ stack_image m rsp argv envp ptrs /\ USTACK_BOTTOM <= rsp < USTACK_TOP - 8 /\
    stack_within (USTACK_TOP - 8) rsp argv envp ptrs.
Proof.
  intros Hm Hl [Ha He Hlen]. apply strings_size_bound in Hlen. rewrite length_app in Hlen. unfold MAX_ARGV, MAX_ENVP in *.
  assert (stable k root USTACK_BOTTOM (USTACK_TOP - 8) k) as Hst by (by constructor).
  destruct (@setup_stack_spec _ _ (stable_laws k root USTACK_BOTTOM (USTACK_TOP - 8)) {| us_k := k; us_root := root |} USTACK_BOTTOM (USTACK_TOP - 8) argv envp)
    as (m & rsp & ptrs & E & Hr & Hsi & Hrsp); [done|unfold USTACK_BOTTOM, USTACK_TOP, USTACK_SIZE; lia..|].
  destruct Hr as (_ & _ & Hroot & _ & Hs). by exists m, rsp, ptrs.
Qed.
End Writes.

(** ** The layout of an image *)

Definition stack_page (p : Z) : Prop := USTACK_BOTTOM / 4096 <= p < USTACK_BOTTOM / 4096 + 64.

#[export] Instance stack_page_dec p : Decision (stack_page p).
Proof. unfold stack_page. apply _. Defined.

(** The segments overlap neither each other nor the stack nor the trampoline. *)
Record layout_ok (segs : list LoadSegment) : Prop := {
  lo_apart : segs_apart segs;
  lo_free s p : s ∈ segs -> seg_range s p -> ~ stack_page p /\ p <> tramp_page
}.

Definition exec_img (data : list Z) (segs : list LoadSegment) : pimage :=
  img_add (img_or (segs_img data segs (fun _ => None)) (stack_part 64)) tramp_page tramp_flags tramp_bytes.

Lemma tramp_not_stack : ~ stack_page tramp_page.
Proof. unfold stack_page, tramp_page, SIGRETURN_TRAMPOLINE_VA, USTACK_BOTTOM, USTACK_TOP, USTACK_SIZE. vm_compute. intros [H _]. by apply H. Qed.

Lemma segs_img_out data segs p : (forall s, s ∈ segs -> ~ seg_range s p) -> forall img, segs_img data segs img p = img p.
Proof.
  induction segs as [|s segs IH]; intros Hn img; cbn [segs_img foldl]; [done|]. fold (segs_img data segs (img_or img (seg_img s data))). rewrite IH.
  - unfold img_or, seg_img, seg_part. rewrite decide_False; [done|]. apply (Hn s), list_elem_of_here.
  - intros s' Hs'. apply Hn. by apply list_elem_of_further.
Qed.

Lemma segs_img_in data segs s p : segs_apart segs -> s ∈ segs -> seg_range s p -> forall img, segs_img data segs img p = seg_img s data p.
Proof.
  induction segs as [|s' segs IH]; intros Hap Hin Hp img; [by apply not_elem_of_nil in Hin|]. destruct Hap as [Hap1 Hap]. cbn [segs_img foldl].
  fold (segs_img data segs (img_or img (seg_img s' data))). apply elem_of_cons in Hin as [->|Hin]; [|by apply IH].
  rewrite segs_img_out; [|intros s2 Hs2 Hr; rewrite Forall_forall in Hap1; by apply (Hap1 s2 Hs2 p)].
  unfold img_or, seg_img, seg_part. by rewrite decide_True.
Qed.

(** What the image has on each kind of page. *)
Lemma exec_img_cases data segs : layout_ok segs ->
  (forall s p, s ∈ segs -> seg_range s p -> exec_img data segs p = seg_img s data p) /\
  (forall p, stack_page p -> exec_img data segs p = Some (stack_flags, zero_bytes)) /\
  exec_img data segs tramp_page = Some (tramp_flags, tramp_bytes) /\
  (forall p, (forall s, s ∈ segs -> ~ seg_range s p) -> ~ stack_page p -> p <> tramp_page -> exec_img data segs p = None).
Proof.
  intros [Hap Hfree]. unfold exec_img, img_add, img_or, stack_part. split_and!.
  - intros s p Hs Hp. destruct (Hfree s p Hs Hp) as [Hn1 Hn2]. rewrite decide_False, decide_False by done. by apply segs_img_in.
  - intros p Hp. rewrite decide_False by (intros ->; by apply tramp_not_stack). by rewrite decide_True.
  - by rewrite decide_True.
  - intros p Hs H1 H2. rewrite decide_False, decide_False by done. by apply segs_img_out.
Qed.

Section Phase1.
Context {A V : Type} `{FrameAllocatorLaws A}.
Implicit Types (k : kstate A V) (a : AddressSpace) (img : pimage).

Lemma stack_page_addr x : USTACK_BOTTOM <= x < USTACK_TOP -> is_user x /\ vpage x = x / 4096 /\ stack_page (x / 4096).
Proof.
  unfold stack_page, USTACK_BOTTOM, USTACK_TOP, USTACK_SIZE. intros Hx. split_and!; [apply is_user_low; lia|apply vpage_user; lia|Z.div_mod_to_equations; lia..].
Qed.

(** Where a page of the image is. *)
Lemma ready_translate k root w fl c : space_wf (k_pt k) root -> is_user w -> page_ready k root w fl c ->
  exists f, translate (k_pt k) root w = Done (Some (f + w mod 4096)) /\ f mod 4096 = 0 /\ k_uleaf k root w = Some (PageTableEntry_new_page f fl) /\
    PageTableEntry_frame (PageTableEntry_new_page f fl) = f /\ PageTableEntry_flags (PageTableEntry_new_page f fl) = fl /\
    (forall j, (j < 4096)%nat -> page_of k f !! j = c j) /\ user_byte k root w = c (Z.to_nat (w mod 4096)).
Proof.
  intros Hs Hw (f & Hu & Hf & Hal & Hr & _ & Hfl & Hb). pose proof (Z.mod_pos_bound w 4096 ltac:(lia)) as Hm.
  assert (PageTableEntry_frame (PageTableEntry_new_page f fl) = f) as Hff by (rewrite frame_new_page by done; change (2 ^ 12) with 4096; rewrite Hal, Z.mod_small by lia; lia).
  exists f. split_and!; [|done|done|done|by rewrite flags_new_page|done|].
  - rewrite translate_uleaf by done. fold (k_uleaf k root w). rewrite Hu. cbn [mbind option_bind]. rewrite Hff. by rewrite add_page_offset by lia.
  - rewrite user_byte_leaf by done. rewrite Hu. cbn [mbind option_bind]. rewrite Hff. apply Hb. lia.
Qed.

Lemma built_mapped a r k0 n img k : built a r k0 n img k -> (forall p, stack_page p -> is_Some (img p)) -> mapped k (as_pml4_phys a) USTACK_BOTTOM USTACK_TOP.
Proof.
  intros Hb Hi. set (F := fun p => match k_uleaf k (as_pml4_phys a) (p * 4096) with Some e => PageTableEntry_frame e | None => 0 end).
  assert (forall x, USTACK_BOTTOM <= x < USTACK_TOP -> is_user x /\ exists e, k_uleaf k (as_pml4_phys a) x = Some e /\ F (x / 4096) = PageTableEntry_frame e /\
    translate (k_pt k) (as_pml4_phys a) x = Done (Some (F (x / 4096) + x mod 4096)) /\ F (x / 4096) mod 4096 = 0) as Hall.
  { intros x Hx. destruct (stack_page_addr x Hx) as (Hu & Hv & Hp). split; [done|]. destruct (Hi _ Hp) as [[fl c] Hc]. rewrite <- Hv in Hc.
    destruct (ready_translate k _ x fl c (ts_one _ _ _ (bu_two _ _ _ _ _ _ Hb)) Hu (bu_some _ _ _ _ _ _ Hb x fl c Hu Hc)) as (f & Ht & Hal & Hl & Hff & _).
    assert (F (x / 4096) = f) as HF.
    { unfold F. rewrite (uleaf_vpage_k k _ (x / 4096 * 4096) x), Hl; [done|]. unfold USTACK_BOTTOM, USTACK_TOP, USTACK_SIZE in Hx. rewrite Hv, vpage_user by (Z.div_mod_to_equations; lia). by rewrite Z.div_mul. }
    eexists. rewrite HF. split_and!; [exact Hl|by rewrite Hff|exact Ht|done]. }
  exists F. split.
  - intros x Hx. destruct (Hall x Hx) as (_ & e & _ & _ & Ht & Hal). split_and!; [done..|]. rewrite (bu_mem_ok _ _ _ _ _ _ Hb). lia.
  - intros x y Hx Hy E. destruct (Hall x Hx) as (Hux & e & He & Fx & _). destruct (Hall y Hy) as (Huy & e' & He' & Fy & _).
    destruct (stack_page_addr x Hx) as (_ & <- & _). destruct (stack_page_addr y Hy) as (_ & <- & _).
    apply (bu_once _ _ _ _ _ _ Hb x y e e'); try done. by rewrite <- Fx, <- Fy.
Qed.

(** The image after the stack was written. *)
Definition written img k (root : Z) : pimage := fun p =>
  match img p with
  | Some (fl, c) => Some (fl, if decide (stack_page p) then fun j => user_byte k root (p * 4096 + Z.of_nat j) else c)
  | None => None
  end.

Lemma backs_leaf a r k0 n img k g hi : built a r k0 n img k -> (forall p, stack_page p -> is_Some (img p)) -> hi <= USTACK_TOP ->
  backs k (as_pml4_phys a) USTACK_BOTTOM hi g -> exists x e, USTACK_BOTTOM <= x < USTACK_TOP /\ is_user x /\ k_uleaf k (as_pml4_phys a) x = Some e /\ PageTableEntry_frame e = g.
Proof.
  intros Hb Hi Hhi (x & Hx & Ht). assert (USTACK_BOTTOM <= x < USTACK_TOP) as Hx' by lia. destruct (stack_page_addr x Hx') as (Hu & Hv & Hp).
  destruct (Hi _ Hp) as [[fl c] Hc]. rewrite <- Hv in Hc.
  destruct (ready_translate k _ x fl c (ts_one _ _ _ (bu_two _ _ _ _ _ _ Hb)) Hu (bu_some _ _ _ _ _ _ Hb x fl c Hu Hc)) as (f & Ht' & _ & Hl & Hff & _).
  rewrite Ht in Ht'. assert (g = f) as -> by (injection Ht' as Ht'; lia). by exists x, (PageTableEntry_new_page f fl).
Qed.

Lemma built_written a r k0 n img k k5 : built a r k0 n img k -> (forall p, stack_page p -> is_Some (img p)) ->
  stable k (as_pml4_phys a) USTACK_BOTTOM (USTACK_TOP - 8) k5 -> built a r k0 n (written img k5 (as_pml4_phys a)) k5.
Proof.
  intros Hb Hi [Hpt (Hc & Hv & Hs) Hlen Hm]. pose proof (backs_leaf a r k0 n img k) as Hbk. pose proof (fun g => Hbk g (USTACK_TOP - 8) Hb Hi ltac:(lia)) as Hbl. clear Hbk.
  assert (forall w, k_uleaf k5 (as_pml4_phys a) w = k_uleaf k (as_pml4_phys a) w) as Hul by (intros w; unfold k_uleaf; by rewrite Hpt).
  assert (k_free k5 = k_free k) as Hfr by (unfold k_free; by rewrite Hpt). pose proof Hb as [B1 B2 B3 B4 B5 B6 B7 B8 BK B9 (B10 & B11 & B12)].
  constructor; rewrite ?Hpt, ?Hfr; try done.
  - intros w Hw E. rewrite Hul. apply B4; [done|]. unfold written in E. by destruct (img (vpage w)) as [[fl c]|].
  - intros w fl c' Hw E. unfold written in E. destruct (img (vpage w)) as [[fl0 c]|] eqn:Ei; [|done]. injection E as -> <-.
    destruct (B5 w fl c Hw Ei) as (f & G1 & G2 & G3 & G4 & G5 & G6 & G7). exists f. rewrite Hul, Hfr, Hpt. split_and!; [done..|lia|lia|done|done|]. intros j Hj. case_decide as Hp.
    + assert (is_user (vpage w * 4096 + Z.of_nat j) /\ vpage (vpage w * 4096 + Z.of_nat j) = vpage w) as [Hu Hvp].
      { unfold stack_page, USTACK_BOTTOM, USTACK_TOP, USTACK_SIZE in Hp. revert Hp. generalize (vpage w). intros p Hp.
        assert (0 <= p * 4096 + Z.of_nat j < 2 ^ 47) as Hr by (clear -Hp Hj; Z.div_mod_to_equations; lia). split; [by apply is_user_low|]. rewrite vpage_user by lia. clear -Hj. Z.div_mod_to_equations. lia. }
      rewrite user_byte_leaf by (try done; rewrite Hpt; apply B1). rewrite (uleaf_vpage_k k5 _ _ w Hvp), Hul, G1. cbn [mbind option_bind].
      rewrite frame_new_page by done. change (2 ^ 12) with 4096. rewrite G3, (Z.mod_small f) by lia. rewrite Z.sub_0_r. f_equal.
      rewrite Z.add_comm, Z.mod_add, Z.mod_small by lia. lia.
    + rewrite Hm; [by apply G7|]. intros (x & e & Hx & Hu & He & Hfe)%Hbl. apply Hp.
      assert (vpage w = vpage x) as -> by (apply (B6 w x _ e Hw Hu G1 He); rewrite Hfe, frame_new_page by done; change (2 ^ 12) with 4096; rewrite G3, Z.mod_small by lia; lia).
      destruct (stack_page_addr x Hx) as (_ & -> & Hp'). done.
  - intros w w' e e'. rewrite !Hul. apply B6.
  - intros g. rewrite B7. unfold leaf_frame. by setoid_rewrite Hul.
  - intros g Hg. rewrite Hm; [by apply B9|]. intros (x & e & Hx & Hu & He & Hfe)%Hbl. apply Hg, B7. right. right. by exists x, e.
  - by rewrite Hc, Hv, Hs.
Qed.

(** How many frames Phase 1 takes after the buffer. *)
Definition image_cost (segs : list LoadSegment) : nat := 1 + 4 * total_pages segs + 256 + 4.

(** Phase 1: the image is built, or there were too few frames. *)
Lemma build_image_spec cur pcid_enabled pcids k0 data info argv envp :
  space_wf (k_pt k0) cur -> mem_ok k0 -> (pcid_enabled = true -> PcidAllocator_alloc pcids <> None) ->
  Forall (seg_ok (Z.of_nat (length data))) (elf_segments info) -> Z.of_nat (length data) < 2 ^ 63 -> layout_ok (elf_segments info) -> args_fit argv envp ->
  match build_image cur pcid_enabled pcids k0 data info argv envp with
  | Done (a, pcids', rsp, k) => built a cur k0 (image_cost (elf_segments info)) (written (exec_img data (elf_segments info)) k (as_pml4_phys a)) k /\
      as_refcount a = 1 /\ as_active_cpus a = 0 /\ as_vmas a = replicate MAX_VMAS None /\
      USTACK_BOTTOM <= rsp < USTACK_TOP - 8 /\ exists ptrs, stack_image {| us_k := k; us_root := as_pml4_phys a |} rsp argv envp ptrs /\
        stack_within (USTACK_TOP - 8) rsp argv envp ptrs
  | Panic => (size (k_free k0) < image_cost (elf_segments info))%nat
  end.
Proof.
  intros Hs Hm Hp Hok Hlen Hlay Hargs. unfold build_image, image_cost. pose proof (AddressSpace_new_spec k0 cur pcid_enabled pcids Hs Hp) as Hn.
  destruct (AddressSpace_new cur pcid_enabled pcids k0) as [[[a pcids1] k1]|]; run; [|rewrite Hn, size_empty; lia].
  pose proof (built_new a cur k0 k1 Hs Hm Hn) as B1. pose proof (ns_fields _ _ _ _ Hn) as (Hf1 & _ & Hf2 & Hf3). destruct (exec_img_cases data _ Hlay) as (_ & Hst & _ & _).
  pose proof (built_segments a cur k0 data (elf_segments info) Hok Hlen (lo_apart _ Hlay) 1 _ k1 B1 ltac:(done)) as B2.
  destruct (foldM _ k1 (elf_segments info)) as [k2|]; run; [|lia].
  assert (forall p, stack_page p \/ p = tramp_page -> segs_img data (elf_segments info) (fun _ => None) p = None) as Hout.
  { intros p Hpg. apply segs_img_out. intros s Hs' Hr. destruct (lo_free _ Hlay s p Hs' Hr) as [N1 N2]. tauto. }
  pose proof (built_stack a cur k0 _ _ k2 B2 ltac:(intros p Hpg; apply Hout; by left)) as B3.
  destruct (map_user_stack a k2) as [[top k3]|]; run; [|lia]. destruct B3 as [-> B3].
  pose proof (built_trampoline a cur k0 _ _ k3 B3) as B4. unfold img_or at 1, stack_part at 1 in B4. rewrite decide_False in B4 by apply tramp_not_stack.
  specialize (B4 ltac:(apply Hout; by right)). destruct (map_sigreturn_trampoline a k3) as [k4|]; run; [|lia].
  fold (exec_img data (elf_segments info)) in B4.
  assert (forall p, stack_page p -> is_Some (exec_img data (elf_segments info) p)) as Hi by (intros p Hpg; rewrite Hst by done; eauto).
  pose proof (built_mapped _ _ _ _ _ _ B4 Hi) as Hmap. apply (mapped_sub _ _ _ _ USTACK_BOTTOM (USTACK_TOP - 8)) in Hmap; [|lia|lia].
  destruct (setup_stack_stable k4 (as_pml4_phys a) argv envp Hmap (bu_mem_ok _ _ _ _ _ _ B4) Hargs) as (m & rsp & ptrs & -> & Hroot & Hstb & Hsi & Hrsp & Hwi). run.
  split_and!; [by apply (built_written a cur k0 _ _ k4)|done|done|done|lia|lia|]. exists ptrs. split; [|done]. rewrite <- Hroot. by destruct m.
Qed.
End Phase1.
