(* ===== verification/ExecSpec.v ===== *)
(** * What execve does

    The theorems on [do_execve]: a call that fails leaves the process and the memory in
    use as they were; a call that succeeds enters the new program in a space that holds
    exactly the segments of the file, the stack with the arguments and the trampoline,
    and gives back the frames of the old space. *)

From Stdlib Require Import ZArith Lia.
From stdpp Require Import prelude gmap list.
From S2P Require Import Prelude Paging Frames PageTable UserMap Pcid Elf Cow Vma AddressSpace Loader Faults Spaces Signal ExecStack ExecMemory Fork Teardown Shootdown Exec ExecBlocks ExecImage ExecStart.

Local Open Scope Z_scope.

Section Image.
Context {A V : Type} `{FrameAllocatorLaws A}.
Implicit Types (k : kstate A V).

(** The permissions a user address is mapped with. *)
Definition flags_at k (root x : Z) : option Z := PageTableEntry_flags <$> k_uleaf k root x.

(** The memory of a new program. *)
Record image_at k (root : Z) (data : list Z) (segs : list LoadSegment) (argv envp : list (list Z)) (rsp : Z) : Prop := {
  ia_segment s x : s ∈ segs -> seg_vaddr s <= x < seg_end s ->
    user_byte k root x = seg_byte s data (x - seg_vaddr s) /\ flags_at k root x = Some (user_flags_from_elf (seg_flags s));
  ia_trampoline x : SIGRETURN_TRAMPOLINE_VA <= x < SIGRETURN_TRAMPOLINE_VA + 4096 ->
    user_byte k root x = tramp_bytes (Z.to_nat (x - SIGRETURN_TRAMPOLINE_VA)) /\ flags_at k root x = Some tramp_flags;
  ia_stack x : USTACK_BOTTOM <= x < USTACK_TOP -> flags_at k root x = Some stack_flags;
  ia_args : exists ptrs, stack_image {| us_k := k; us_root := root |} rsp argv envp ptrs;
  ia_none x : is_user x -> (forall s, s ∈ segs -> ~ seg_range s (vpage x)) -> ~ stack_page (vpage x) -> vpage x <> tramp_page -> k_uleaf k root x = None
}.

Lemma seg_addr len s x : seg_ok len s -> seg_vaddr s <= x < seg_end s -> is_user x /\ vpage x = x / 4096 /\ seg_range s (x / 4096).
Proof.
  intros Hs Hx. pose proof (seg_pages_eq _ s Hs) as Hn. pose proof (seg_end_eq _ s Hs) as (_ & _ & Htop). pose proof (so_vaddr _ _ Hs) as [Hv0 Hvm]. unfold USER_TOP in Htop.
  split_and!; [apply is_user_low; lia|apply vpage_user; lia|]. unfold seg_range. clear -Hn Hx Hvm. Z.div_mod_to_equations. lia.
Qed.

(** An address of a page of the built space. *)
Lemma built_byte a r k0 n img k x fl c : built a r k0 n img k -> is_user x -> img (vpage x) = Some (fl, c) ->
  user_byte k (as_pml4_phys a) x = c (Z.to_nat (x mod 4096)) /\ flags_at k (as_pml4_phys a) x = Some fl.
Proof.
  intros Hb Hx Hc. destruct (ready_translate k _ x fl c (ts_one _ _ _ (bu_two _ _ _ _ _ _ Hb)) Hx (bu_some _ _ _ _ _ _ Hb x fl c Hx Hc)) as (f & _ & _ & Hl & _ & Hfl & _ & Hby).
  split; [done|]. unfold flags_at. rewrite Hl. cbn. by rewrite Hfl.
Qed.

Lemma built_image a r k0 n data segs k argv envp rsp ptrs : Forall (seg_ok (Z.of_nat (length data))) segs -> layout_ok segs ->
  built a r k0 n (written (exec_img data segs) k (as_pml4_phys a)) k -> stack_image {| us_k := k; us_root := as_pml4_phys a |} rsp argv envp ptrs ->
  image_at k (as_pml4_phys a) data segs argv envp rsp.
Proof.
  intros Hok Hlay Hb Hsi. destruct (exec_img_cases data segs Hlay) as (Hseg & Hstk & Htr & Hnone). constructor.
  - intros s x Hs Hx. rewrite Forall_forall in Hok. destruct (seg_addr _ s x (Hok s Hs) Hx) as (Hu & Hv & Hr). destruct (so_vaddr _ _ (Hok s Hs)) as [_ Hvm].
    destruct (lo_free _ Hlay s _ Hs Hr) as [Hns _]. pose proof (Hseg s _ Hs Hr) as Ei. unfold seg_img, seg_part in Ei. rewrite decide_True in Ei by exact Hr.
    destruct (built_byte a r k0 n _ k x (user_flags_from_elf (seg_flags s)) (fun j => seg_byte s data (x / 4096 * 4096 + Z.of_nat j - seg_vaddr s)) Hb Hu) as [E1 E2].
    { unfold written. by rewrite Hv, Ei, decide_False. }
    split; [|done]. rewrite E1. f_equal. rewrite Z2Nat.id by (apply Z.mod_pos_bound; lia). clear. Z.div_mod_to_equations. lia.
  - intros x Hx. assert (x / 4096 = tramp_page) as Hp by (clear -Hx; unfold tramp_page, SIGRETURN_TRAMPOLINE_VA in *; Z.div_mod_to_equations; lia).
    assert (is_user x /\ vpage x = tramp_page) as [Hu Hv] by (unfold SIGRETURN_TRAMPOLINE_VA in Hx; split; [apply is_user_low; lia|by rewrite vpage_user by lia]).
    destruct (built_byte a r k0 n _ k x tramp_flags tramp_bytes Hb Hu) as [E1 E2]; [unfold written; by rewrite Hv, Htr, decide_False by apply tramp_not_stack|].
    split; [|done]. rewrite E1. do 2 f_equal. clear -Hx. unfold SIGRETURN_TRAMPOLINE_VA in *. Z.div_mod_to_equations. lia.
  - intros x Hx. destruct (stack_page_addr x Hx) as (Hu & Hv & Hp). eapply (built_byte a r k0 n _ k x stack_flags); [exact Hb|done|]. unfold written. by rewrite Hv, Hstk.
  - by exists ptrs.
  - intros x Hx H1 H2 H3. apply (bu_none _ _ _ _ _ _ Hb x Hx). unfold written. by rewrite Hnone.
Qed.

(** The memory of the program is read through its tables only. *)
Lemma image_keep k k' root data segs argv envp rsp ptrs : Forall (seg_ok (Z.of_nat (length data))) segs ->
  image_at k root data segs argv envp rsp -> stack_image {| us_k := k; us_root := root |} rsp argv envp ptrs -> stack_within (USTACK_TOP - 8) rsp argv envp ptrs -> USTACK_BOTTOM <= rsp ->
  (forall x, is_user x -> user_byte k' root x = user_byte k root x /\ k_uleaf k' root x = k_uleaf k root x) -> image_at k' root data segs argv envp rsp.
Proof.
  intros Hok [I1 I2 I3 I4 I5] Hsi Hwi Hrsp Hk. assert (forall x, is_user x -> flags_at k' root x = flags_at k root x) as Hfl by (intros x Hx; unfold flags_at; by rewrite (proj2 (Hk x Hx))).
  constructor.
  - intros s x Hs Hx. rewrite Forall_forall in Hok. destruct (seg_addr _ s x (Hok s Hs) Hx) as (Hu & _). rewrite (proj1 (Hk x Hu)), Hfl by done. by apply I1.
  - intros x Hx. assert (is_user x) as Hu by (apply is_user_low; unfold SIGRETURN_TRAMPOLINE_VA in Hx; lia). rewrite (proj1 (Hk x Hu)), Hfl by done. by apply I2.
  - intros x Hx. destruct (stack_page_addr x Hx) as (Hu & _). rewrite Hfl by done. by apply I3.
  - exists ptrs. apply (stack_image_keep _ _ USTACK_BOTTOM (USTACK_TOP - 8) _ _ _ _ Hsi Hwi Hrsp). intros x Hx. cbn. apply Hk. apply stack_page_addr. lia.
  - intros x Hx H1 H2 H3. rewrite (proj2 (Hk x Hx)). by apply I5.
Qed.
End Image.

(** ** The buffer around Phase 1 *)

Section Buffered.
Context {A V : Type} `{FrameReturnLaws A, !BlockAllocator A, !BlockAllocatorLaws A}.
Implicit Types (k : kstate A V) (a : AddressSpace).

Lemma fill_buf_mem_ok k buf data : mem_ok k -> mem_ok (fill_buf k buf data).
Proof.
  unfold fill_buf. generalize (seqZ 0 ((Z.of_nat (length data) + 4095) / 4096)). intros l. revert k. induction l as [|i l IH]; intros k Hm; cbn [foldl]; [done|].
  apply IH. intros g. set (bs := take 4096 _). assert (length bs <= 4096)%nat as Hb by (unfold bs; rewrite length_take; lia).
  destruct (decide (g = block_frame buf i)) as [->|]; [rewrite page_of_write_eq; by apply overwrite_length|by rewrite page_of_write_ne].
Qed.

(** The state with the buffer taken: [k2] is [k] but for the frames of the buffer. *)
Record buffered k (buf : Z) k2 : Prop := {
  bf_ok : fa_ok (pt_alloc (k_pt k2));
  bf_buf : buf mod 4096 = 0 /\ 0 < buf /\ block_frame buf 256 <= 2 ^ 44;
  bf_in g : in_buf buf g -> g ∈ k_free k;
  bf_free g : g ∈ k_free k2 <-> g ∈ k_free k /\ ~ in_buf buf g;
  bf_rest : tabs (k_pt k2) = tabs (k_pt k) /\ k_cow k2 = k_cow k /\ k_vfs k2 = k_vfs k /\ k_shoot k2 = k_shoot k;
  bf_mem g : ~ in_buf buf g -> page_of k2 g = page_of k g
}.

Lemma buffer_taken k buf k1 data : fa_ok (pt_alloc (k_pt k)) -> k_alloc_order k ELF_BUF_ORDER = Done (buf, k1) -> Z.of_nat (length data) <= MAX_ELF_SIZE ->
  buffered k buf (fill_buf k1 buf data).
Proof.
  intros Hok E Hl. pose proof (k_alloc_order_spec k Hok) as Ha. rewrite E in Ha. destruct Ha as (al & -> & Hok1 & Hal & Hp & Hr & Hin & Hf).
  destruct (fill_buf_spec (realloc k al) buf data Hl) as (Hpt & Hc & Hv & Hs & Hm). constructor; rewrite ?Hpt; try done.
  - intros g. unfold k_free at 1. rewrite Hpt. apply Hf.
Qed.

Lemma size_cover (X Y B : gset Z) : X ⊆ Y ∪ B -> (size X <= size Y + size B)%nat.
Proof. intros Hs%subseteq_size. rewrite size_union_alt in Hs. pose proof (subseteq_size (B ∖ Y) B ltac:(set_solver)). lia. Qed.

Lemma buffered_size k buf k2 : buffered k buf k2 -> (size (k_free k) <= size (k_free k2) + 256)%nat.
Proof.
  intros Hb. set (B := list_to_set ((fun i => block_frame buf i) <$> seqZ 0 256) : gset Z).
  assert (size B <= 256)%nat as HB.
  { unfold B. rewrite size_list_to_set by (apply NoDup_fmap_2; [intros i j; unfold block_frame; lia|apply NoDup_seqZ]). by rewrite length_fmap, length_seqZ. }
  assert (k_free k ⊆ k_free k2 ∪ B) as Hsub.
  { intros g Hg. apply elem_of_union. destruct (in_buf_dec buf g) as [(i & Hi & ->)|Hn].
    - right. unfold B. apply elem_of_list_to_set, list_elem_of_fmap. exists i. split; [done|]. apply elem_of_seqZ. lia.
    - left. apply (bf_free _ _ _ Hb). split; [done|]. intros (i & Hi & ->). by apply (Hn i). }
  apply size_cover in Hsub. lia.
Qed.

Lemma buffered_space k buf k2 r : buffered k buf k2 -> space_wf (k_pt k) r -> space_wf (k_pt k2) r.
Proof.
  intros Hb Hs. apply (space_agree (k_pt k)); [done|by intros g _; rewrite (proj1 (bf_rest _ _ _ Hb))|apply (bf_ok _ _ _ Hb)|].
  intros g (p & Hp & Hw) Hin. change (g ∈ k_free k2) in Hin. apply (bf_free _ _ _ Hb) in Hin as [Hin _]. by apply (wf_live _ _ (sw_wf _ _ Hs) p g Hp Hw).
Qed.

(** A table of the built space is one of its own or one of the kernel half of [r]. *)
Lemma built_reach a r k0 n img k g : built a r k0 n img k -> reach (tabs (k_pt k)) (as_pml4_phys a) g ->
  utable (tabs (k_pt k)) (as_pml4_phys a) g \/ exists p, (length p <= 3)%nat /\ ~ user_path p /\ walk (tabs (k_pt k0)) r p = Some g.
Proof.
  intros Hb (p & Hp & Hg). assert (user_path p \/ ~ user_path p) as [Hu|Hu] by (destruct p as [|i p]; [by left|cbn; lia]); [by left; exists p|].
  right. exists p. split_and!; [done..|]. by rewrite <- (bu_kernel _ _ _ _ _ _ Hb p Hp Hu).
Qed.

Lemma built_reach_other a r k0 n img k g : built a r k0 n img k -> reach (tabs (k_pt k)) r g <-> reach (tabs (k_pt k0)) r g.
Proof.
  intros Hb. pose proof (walk_pentry (tabs (k_pt k0)) (tabs (k_pt k)) r ltac:(intros p j Hp; apply (bu_other _ _ _ _ _ _ Hb); lia)) as Hw.
  split; intros (p & Hp & Hg); exists p; (split; [done|]); [by rewrite <- Hw|by rewrite Hw].
Qed.

(** Giving the buffer back after Phase 1: the image is built from the state before it. *)
Lemma built_release a r k buf k2 n img k5 : buffered k buf k2 -> space_wf (k_pt k) r -> built a r k2 n img k5 ->
  exists k6, free_elf_buf k5 buf = Done k6 /\ built a r k (size (k_free k)) img k6 /\ tabs (k_pt k6) = tabs (k_pt k5) /\ k_mem k6 = k_mem k5 /\
    forall g, in_buf buf g -> g ∈ k_free k6.
Proof.
  intros Hbf Hs Hb. pose proof Hbf as [F1 (F2 & F3 & F4) F5 F6 (F7 & F8 & F9 & F10) F11]. pose proof Hb as [B1 B2 B3 B4 B5 B6 B7 B8 BK B9 (B10 & B11 & B12)].
  assert (forall g, g ∈ k_free k5 -> g ∈ k_free k /\ ~ in_buf buf g) as Hfr5 by (intros g Hg; apply F6, B7; by left).
  destruct (free_elf_buf_spec k5 buf (wf_alloc _ _ (sw_wf _ _ (ts_one _ _ _ B1))) F2 F3 F4 ltac:(intros g Hg Hin; by apply Hfr5 in Hin as [_ ?])) as (al & E & Hok & Hf).
  exists (realloc k5 al). split; [done|]. split; [|split_and!; [done|done|intros g Hg; apply Hf; by right]]. assert (forall g, g ∈ k_free (realloc k5 al) <-> g ∈ k_free k5 \/ in_buf buf g) as Hf6 by exact Hf.
  assert (forall g, g ∈ k_free (realloc k5 al) -> g ∈ k_free k) as Hsub by (intros g [Hg|Hg]%Hf6; [by apply Hfr5|by apply F5]).
  assert (forall p g, (length p <= 3)%nat -> walk (tabs (k_pt k)) r p = Some g -> g ∉ k_free (realloc k5 al)) as Hold.
  { intros p g Hp Hg Hin%Hsub. by apply (wf_live _ _ (sw_wf _ _ Hs) p g Hp Hg). }
  assert (forall g, reach (tabs (k_pt k5)) (as_pml4_phys a) g -> g ∉ k_free (realloc k5 al)) as Hnew.
  { intros g Hg Hin. destruct (built_reach a r k2 n img k5 g Hb Hg) as [Hu|(p & Hp & _ & Hw)]; [|rewrite F7 in Hw; by apply (Hold p g Hp Hw)].
    apply Hf6 in Hin as [Hin|Hin]; [destruct Hg as (p & Hp & Hg); by apply (wf_live _ _ (sw_wf _ _ (ts_one _ _ _ B1)) p g Hp Hg)|].
    assert (g ∈ k_free k2) as Hg2 by (apply B7; right; by left). by apply F6 in Hg2 as [_ ?]. }
  assert (two_spaces (k_pt (realloc k5 al)) (as_pml4_phys a) r) as Ht.
  { destruct B1 as [T1 T2 T3 T4]. constructor; [| |done|done].
    - by apply (space_agree (k_pt k5)).
    - apply (space_agree (k_pt k5)); [done..|]. intros g Hg. apply (built_reach_other a r k2 n img k5 g Hb) in Hg as (p & Hp & Hg). rewrite F7 in Hg. by apply (Hold p g). }
  constructor; try done.
  - lia.
  - intros w fl c Hw Hc. destruct (B5 w fl c Hw Hc) as (f & G1 & G2 & G3 & G4 & G5 & G6 & G7). exists f. split_and!; [exact G1| |done|lia|lia|exact G5|done|exact G7].
    rewrite Hf6. intros [?|Hin]; [done|]. assert (f ∈ k_free k2) as Hg2; [|by apply F6 in Hg2 as [_ ?]].
    apply B7. right. right. exists w, (PageTableEntry_new_page f fl). split_and!; [done..|]. rewrite frame_new_page by done. change (2 ^ 12) with 4096. rewrite G3, Z.mod_small by lia. lia.
  - intros g. rewrite Hf6. change (leaf_frame (realloc k5 al) (as_pml4_phys a) g) with (leaf_frame k5 (as_pml4_phys a) g). change (tabs (k_pt (realloc k5 al))) with (tabs (k_pt k5)).
    pose proof (B7 g) as Hg. rewrite F6 in Hg. split.
    + intros Hin. destruct (in_buf_dec buf g) as [Hi|Hi]; [by left; right|]. assert (~ in_buf buf g) as Hn by (intros (i & Hi2 & ->); by apply (Hi i)). tauto.
    + intros [[?|Hi]|?]; [tauto|by apply F5|tauto].
  - intros p j Hp. rewrite <- F7. by apply B8.
  - intros p Hp Hk. rewrite <- F7. by apply BK.
  - intros g Hg. change (page_of k5 g = page_of k g). rewrite B9; [apply F11|]; [intros Hi; by apply Hg, F5|]. intros Hg2. apply F6 in Hg2 as [? _]. done.
  - cbn. by rewrite B10, B11, B12.
Qed.
End Buffered.
