(* ===== verification/ExecSwitch.v ===== *)
(** * From the old program to the new one

    Phase 2 of [do_execve]: the built image becomes the address space of the process and
    of the processor, and the reference to the old one is dropped.  With Phase 1 this
    gives the theorems on [do_execve] as a whole and on the system call. *)

From Stdlib Require Import ZArith Lia.
From stdpp Require Import prelude gmap list.
From S2P Require Import Prelude Paging Frames PageTable UserMap Pcid Elf Cow Vma AddressSpace Loader Faults Spaces Signal ExecStack ExecMemory Fork Teardown Shootdown Exec ExecBlocks ExecImage ExecStart ExecSpec.

Local Open Scope Z_scope.

Section Switch.
Context {A V : Type} `{FrameReturnLaws A}.
Implicit Types (k : kstate A V) (a new old : AddressSpace).

(** ** The old space after Phase 1 *)

(** A space whose tables are as they were, with fewer frames free. *)
Lemma owned_agree k k' r : owned_space k r -> space_wf (k_pt k') r -> (forall p j, (length p <= 3)%nat -> pentry (tabs (k_pt k')) r p j = pentry (tabs (k_pt k)) r p j) ->
  k_cow k' = k_cow k -> (forall g, g ∈ k_free k' -> g ∈ k_free k) -> owned_space k' r /\ forall f, gives_back k' r f <-> gives_back k r f.
Proof.
  intros [O1 O2 O3 O4 O5] Hs Hpe Hc Hf. pose proof (walk_pentry (tabs (k_pt k)) (tabs (k_pt k')) r ltac:(intros p j Hp; apply Hpe; lia)) as Hw.
  assert (forall w, k_uleaf k' r w = k_uleaf k r w) as Hul by (intros w; apply Hpe; cbn; lia).
  assert (forall g, utable (tabs (k_pt k')) r g <-> utable (tabs (k_pt k)) r g) as Hut.
  { intros g. split; intros (p & Hp & Hu & Hg); exists p; (split_and!; [done..|]); [by rewrite <- Hw|by rewrite Hw]. }
  assert (forall e, item_freed k' (Leaf e) <-> item_freed k (Leaf e)) as Hit by (intros e; cbn; by rewrite Hc).
  split.
  - constructor; [done|intros g Hg%Hut; by apply O2| | |].
    + intros w e Hw' He Hi%Hit. rewrite Hul in He. destruct (O3 w e Hw' He Hi) as (C1 & C2 & C3). split_and!; [by intros ?%Hf|done|lia|lia].
    + intros w w' e e'. rewrite !Hul. apply O4.
    + intros w e Hw'. rewrite Hul, Hut. by apply O5.
  - intros f. unfold gives_back. rewrite Hut. by setoid_rewrite Hul; setoid_rewrite Hit.
Qed.

(** What is given back is not free. *)
Lemma gives_back_used k r f : owned_space k r -> gives_back k r f -> f ∉ k_free k.
Proof.
  intros Ho [(p & Hp & _ & Hw)|(w & e & Hw & He & Hi & <-)]; [by apply (wf_live _ _ (sw_wf _ _ (ow_wf _ _ Ho)) p f Hp Hw)|].
  by apply (ow_leaf _ _ Ho w e Hw He Hi).
Qed.

Lemma new_page_nonneg f fl : 0 < f < 2 ^ 44 -> is_flags fl -> 0 <= PageTableEntry_new_page f fl.
Proof.
  intros _ [Hp _]. unfold PageTableEntry_new_page. apply Z.lor_nonneg. split; [|done]. unfold shl64. apply wrap64_range.
Qed.

(** The caller of execve: its space is the one the processor uses, the frames are its own. *)
Record caller_ok k old (own : Z) : Prop := {
  co_owned : owned_space k (as_pml4_phys old);
  co_cow : cow_ok (k_cow k);
  co_mem : mem_ok k;
  co_own : can_free k own;
  co_own_back : ~ gives_back k (as_pml4_phys old) own;
  co_own_table : ~ reach (tabs (k_pt k)) (as_pml4_phys old) own;
  co_pages w e : is_user w -> k_uleaf k (as_pml4_phys old) w = Some e -> ~ reach (tabs (k_pt k)) (as_pml4_phys old) (PageTableEntry_frame e)
}.

(** The new space with a frame of its own, next to the old one. *)
Record switched k old (own : Z) new (own' : Z) k7 : Prop := {
  sw_two : two_spaces (k_pt k7) (as_pml4_phys new) (as_pml4_phys old);
  sw_owned : owned_space k7 (as_pml4_phys old) /\ forall f, gives_back k7 (as_pml4_phys old) f <-> gives_back k (as_pml4_phys old) f;
  sw_keeps : keeps k7 (as_pml4_phys old) own (as_pml4_phys new);
  sw_free g : g ∈ k_free k7 <-> g ∈ k_free k /\ ~ utable (tabs (k_pt k7)) (as_pml4_phys new) g /\ ~ leaf_frame k7 (as_pml4_phys new) g /\ g <> own';
  sw_new g : utable (tabs (k_pt k7)) (as_pml4_phys new) g \/ leaf_frame k7 (as_pml4_phys new) g \/ g = own' -> g ∈ k_free k;
  sw_own' : 0 < own' < 2 ^ 44;
  sw_old p j : (length p <= 3)%nat -> pentry (tabs (k_pt k7)) (as_pml4_phys old) p j = pentry (tabs (k_pt k)) (as_pml4_phys old) p j;
  sw_mem g : g ∉ k_free k -> page_of k7 g = page_of k g;
  sw_rest : k_cow k7 = k_cow k /\ k_vfs k7 = k_vfs k /\ k_shoot k7 = k_shoot k
}.

Lemma built_not_free a r k0 n img k g : built a r k0 n img k -> utable (tabs (k_pt k)) (as_pml4_phys a) g \/ leaf_frame k (as_pml4_phys a) g -> g ∉ k_free k.
Proof.
  intros Hb [(p & Hp & _ & Hw)|(w & e & Hw & He & <-)]; [by apply (wf_live _ _ (sw_wf _ _ (ts_one _ _ _ (bu_two _ _ _ _ _ _ Hb))) p g Hp Hw)|].
  destruct (built_leaf _ _ _ _ _ _ w e Hb Hw He) as (fl & c & _ & f & G1 & G2 & G3 & G4 & _ & G6 & _). rewrite He in G1. injection G1 as ->.
  rewrite frame_new_page by done. change (2 ^ 12) with 4096. rewrite G3, Z.mod_small by lia. by rewrite Z.sub_0_r.
Qed.

Lemma built_switched k old own new n img k6 own' k7 : caller_ok k old own -> built new (as_pml4_phys old) k n img k6 -> k_alloc_frame k6 = Done (own', k7) ->
  switched k old own new own' k7.
Proof.
  intros [C1 C2 C3 C4 C5 C6 C7] Hb Ha. pose proof Hb as [B1 B2 B3 B4 B5 B6 B7 B8 BK B9 (B10 & B11 & B12)].
  pose proof (k_alloc_frame_spec k6 _ (ts_one _ _ _ B1)) as Hs. rewrite Ha in Hs. destruct Hs as (_ & Hf & Hfr & _ & Hr & Htb & Hm & Hc & Hv & Hsh).
  pose proof (two_spaces_alloc k6 k7 own' _ _ B1 Ha) as Ht. assert (forall g, g ∈ k_free k7 <-> g ∈ k_free k6 /\ g <> own') as Hf7 by (intros g; by rewrite Hfr, elem_of_difference, elem_of_singleton).
  assert (forall g, leaf_frame k7 (as_pml4_phys new) g <-> leaf_frame k6 (as_pml4_phys new) g) as Hlf by (intros g; unfold leaf_frame, k_uleaf; by rewrite Htb).
  destruct (owned_agree k k7 (as_pml4_phys old) C1 (ts_two _ _ _ Ht)) as [Hown Hgb]; [intros p j Hp; rewrite Htb; by apply B8|congruence|intros g [Hg _]%Hf7; apply B7; by left|].
  assert (forall f, gives_back k (as_pml4_phys old) f \/ f = own -> f ∉ k_free k) as Hused by (intros f [Hg| ->]; [by apply (gives_back_used k (as_pml4_phys old))|apply C4]).
  constructor; [done|done| | | |done| | |by rewrite Hc, Hv, Hsh].
  - constructor; [by apply two_spaces_sym| | |].
    + intros w e Hw He. unfold k_uleaf in He. rewrite Htb in He. fold (k_uleaf k6 (as_pml4_phys new) w) in He. destruct (built_leaf _ _ _ _ _ _ w e Hb Hw He) as (fl & c & _ & f & G1 & G2 & G3 & G4 & _ & G6 & _).
      rewrite He in G1. injection G1 as ->. split; [by apply new_page_nonneg|]. rewrite Hf7, frame_new_page by done. change (2 ^ 12) with 4096. rewrite G3, Z.mod_small by lia. rewrite Z.sub_0_r. tauto.
    + intros f Hgf Hre. rewrite Hgb in Hgf. rewrite Htb in Hre. destruct (built_reach _ _ _ _ _ _ f Hb Hre) as [Hu|(p & Hp & Hk & Hw)].
      * apply (Hused f Hgf), B7. right. by left.
      * assert (reach (tabs (k_pt k)) (as_pml4_phys old) f) as Hr2 by (by exists p). destruct Hgf as [[(q & Hq & Hu & Hw')|(w & e & Hw1 & He & _ & <-)]| ->]; [|by apply (C7 w e)|done].
        assert (p = q) as -> by (by apply (wf_tree _ _ (sw_wf _ _ (ow_wf _ _ C1)) p q f)). done.
    + intros f w e Hgf Hw He Hfe. rewrite Hgb in Hgf. apply (Hused f Hgf), B7. right. right. exists w, e. unfold k_uleaf in He. rewrite Htb in He. done.
  - intros g. rewrite Hf7, Htb, Hlf. pose proof (B7 g) as Hg. pose proof (built_not_free _ _ _ _ _ _ g Hb) as Hn. tauto.
  - intros g. rewrite Htb, Hlf, B7. intros [?|[?| ->]]; [tauto|tauto|by left].
  - intros p j Hp. rewrite Htb. by apply B8.
  - intros g Hg. unfold page_of. rewrite Hm. by apply B9.
Qed.
End Switch.

(** ** Installing the image *)

Section Install.
Context {A V : Type} `{FrameReturnLaws A, !BlockAllocator A, !BlockAllocatorLaws A, !VfsHooks A V, !ExecLoader A V}.
Implicit Types (k : kstate A V) (x : xstate A V) (old new : AddressSpace).

(** The process runs in the space [old], whose descriptor is in the frame [own]. *)
Record exec_ready x old (own : Z) : Prop := {
  er_caller : caller_ok (x_k x) old own;
  er_ptr : xp_address_space (x_proc x) = DIRECT_MAP_BASE + own;
  er_space : x_spaces x !! (DIRECT_MAP_BASE + own) = Some old;
  er_slot : x_current_as x = DIRECT_MAP_BASE + own;
  er_cr3 : pml4_phys_from_cr3 (x_cr3 x) = as_pml4_phys old
}.

(** The process after execve: registers of the first instruction, no signal state. *)
Definition new_proc (own entry rsp : Z) : exec_proc :=
  {| xp_address_space := DIRECT_MAP_BASE + own; xp_user_rip := entry; xp_user_rsp := rsp; xp_user_rflags := 0x202; xp_user_rax := 0;
     xp_sig := {| ss_pending := 0; ss_table := SigTable_new; ss_frame := None |} |}.

(** What Phase 2 leaves of the old space: nothing, or one reference less for its siblings. *)
Definition old_left x old (own cpu : Z) x' : Prop :=
  if as_refcount old =? 1 then x_spaces x' !! (DIRECT_MAP_BASE + own) = None
  else (exists o, x_spaces x' !! (DIRECT_MAP_BASE + own) = Some o /\ as_pml4_phys o = as_pml4_phys old /\ as_refcount o = wrap32 (as_refcount old - 1) /\
          as_active_cpus o = ActiveCpuMask_mark_inactive (as_active_cpus old) cpu) /\
       space_wf (k_pt (x_k x')) (as_pml4_phys old) /\
       forall y, is_user y -> k_uleaf (x_k x') (as_pml4_phys old) y = k_uleaf (x_k x) (as_pml4_phys old) y.

(** The state in which the new program starts. *)
Record installed x old (own cpu : Z) x' new (own' entry rsp : Z) : Prop := {
  in_proc : x_proc x' = new_proc own' entry rsp;
  in_space : x_spaces x' !! (DIRECT_MAP_BASE + own') = Some new /\ as_active_cpus new = cpu_bit cpu /\ as_refcount new = 1 /\ as_vmas new = replicate MAX_VMAS None;
  in_cpu : x_current_as x' = DIRECT_MAP_BASE + own' /\ x_cr3 x' = AddressSpace_activate new;
  in_wf : space_wf (k_pt (x_k x')) (as_pml4_phys new) /\ leaves_live (x_k x') (as_pml4_phys new);
  in_old : old_left x old own cpu x';
  in_spaces p : p <> DIRECT_MAP_BASE + own -> p <> DIRECT_MAP_BASE + own' -> x_spaces x' !! p = x_spaces x !! p;
  in_frames g : g ∈ k_free (x_k x') <->
    (g ∈ k_free (x_k x) \/ as_refcount old = 1 /\ (gives_back (x_k x) (as_pml4_phys old) g \/ g = own)) /\
    ~ (utable (tabs (k_pt (x_k x'))) (as_pml4_phys new) g \/ leaf_frame (x_k x') (as_pml4_phys new) g \/ g = own');
  in_mem g : g ∉ k_free (x_k x) -> page_of (x_k x') g = page_of (x_k x) g
}.

Lemma cpu_bit_lor cpu : ActiveCpuMask_mark_active 0 cpu = cpu_bit cpu.
Proof. by unfold ActiveCpuMask_mark_active. Qed.

(** Dropping the old space, or one reference to it. *)
Lemma drop_old k old own new own' k7 a pcids : caller_ok k old own -> switched k old own new own' k7 ->
  as_pml4_phys a = as_pml4_phys old -> as_refcount a = as_refcount old ->
  exists b o pcids' k8, drop_ref a own pcids k7 = Done (b, o, pcids', k8) /\ b = (as_refcount old =? 1) /\
    as_pml4_phys o = as_pml4_phys old /\ as_refcount o = wrap32 (as_refcount old - 1) /\ as_active_cpus o = as_active_cpus a /\
    space_wf (k_pt k8) (as_pml4_phys new) /\ leaves_live k8 (as_pml4_phys new) /\
    (forall p j, (length p <= 3)%nat -> pentry (tabs (k_pt k8)) (as_pml4_phys new) p j = pentry (tabs (k_pt k7)) (as_pml4_phys new) p j) /\
    k_mem k8 = k_mem k7 /\
    (forall g, g ∈ k_free k8 <-> g ∈ k_free k7 \/ as_refcount old = 1 /\ (gives_back k (as_pml4_phys old) g \/ g = own)) /\
    (as_refcount old <> 1 -> k8 = k7).
Proof.
  intros Hc Hsw Hr Href. destruct (sw_owned _ _ _ _ _ _ Hsw) as [Ho Hgb]. destruct (decide (as_refcount old = 1)) as [Hone|Hone].
  - destruct (drop_ref_last a own pcids k7) as (o & k8 & E & Hd).
    + by rewrite Hr.
    + rewrite (proj1 (sw_rest _ _ _ _ _ _ Hsw)). apply Hc.
    + by rewrite Href.
    + destruct (co_own _ _ _ Hc) as (C1 & C2 & C3). split_and!; [|done|lia|lia]. intros Hin%(sw_free _ _ _ _ _ _ Hsw). tauto.
    + rewrite Hr, Hgb. apply Hc.
    + pose proof (sw_keeps _ _ _ _ _ _ Hsw) as Hk. rewrite <- Hr in Hk. destruct (dropped_keeps a own k7 k8 (as_pml4_phys new)) as (D1 & D2 & D3 & _); [rewrite Hr; apply Ho|done|done|].
      eexists true, o, _, k8. assert (o = snd (AddressSpace_dec_ref a)) as ->.
      { unfold drop_ref in E. unfold AddressSpace_dec_ref in E. rewrite Href, Hone in E. change (1 =? 1) with true in E. cbv iota beta zeta in E.
        destruct (free_user_mappings _ k7) as [k1|]; [|done]. revert E. run. destruct (k_free_frame k1 _) as [k2|]; [|done]. run. destruct (k_free_frame k2 _) as [k3|]; [|done]. run.
        intros [= <- _]. unfold AddressSpace_dec_ref. cbn. by rewrite Href, Hone. }
      split_and!; [exact E|by rewrite Hone|done|cbn; by rewrite Href|done|done|done|done|apply Hd| |done].
      intros g. rewrite (dr_free _ _ _ _ Hd g), Hr, Hgb. tauto.
  - eexists false, _, pcids, k7. unfold drop_ref, AddressSpace_dec_ref. rewrite Href, (proj2 (Z.eqb_neq _ 1) Hone). cbn [as_pml4_phys as_refcount as_active_cpus].
    split_and!; [reflexivity|done|done|done|done|apply Hsw|apply Hsw|done|done|tauto|done].
Qed.

Lemma ptr_small own : 0 < own < 2 ^ 44 -> wrap64 (DIRECT_MAP_BASE + own) = DIRECT_MAP_BASE + own /\ wrap64 (DIRECT_MAP_BASE + own - DIRECT_MAP_BASE) = own /\ DIRECT_MAP_BASE + own <> 0.
Proof. intros Ho. unfold DIRECT_MAP_BASE. rewrite !wrap64_small by (unfold is_u64; lia). lia. Qed.

Lemma activate_new x old own new own' cpu k7 pcids : exec_ready x old own -> 0 < own < 2 ^ 44 -> 0 < own' < 2 ^ 44 -> own <> own' ->
  activate_address_space {| x_k := k7; x_pcids := pcids; x_spaces := <[DIRECT_MAP_BASE + own' := new]> (x_spaces x); x_current_as := x_current_as x; x_cr3 := x_cr3 x;
    x_proc := x_proc x |} (DIRECT_MAP_BASE + own') cpu =
  Done {| x_k := k7; x_pcids := pcids;
    x_spaces := <[DIRECT_MAP_BASE + own := set_active old (ActiveCpuMask_mark_inactive (as_active_cpus old) cpu)]>
      (<[DIRECT_MAP_BASE + own' := set_active new (ActiveCpuMask_mark_active (as_active_cpus new) cpu)]> (x_spaces x));
    x_current_as := DIRECT_MAP_BASE + own'; x_cr3 := AddressSpace_activate new; x_proc := x_proc x |}.
Proof.
  intros [_ _ R3 R4 _] Ho Ho' Hne. unfold activate_address_space. cbn [x_current_as x_spaces x_k x_pcids x_cr3 x_proc]. rewrite R4.
  rewrite (proj2 (Z.eqb_neq _ _)) by lia. rewrite lookup_insert_eq. run. rewrite (proj2 (Z.eqb_neq (DIRECT_MAP_BASE + own) 0)) by (unfold DIRECT_MAP_BASE; lia).
  rewrite insert_insert_eq. rewrite lookup_insert_ne by lia. rewrite R3. by run.
Qed.

Lemma install_spec x old own cpu new n img k6 pcids entry rsp : exec_ready x old own -> built new (as_pml4_phys old) (x_k x) n img k6 -> k_free k6 <> ∅ ->
  as_refcount new = 1 -> as_active_cpus new = 0 -> as_vmas new = replicate MAX_VMAS None ->
  exists x' own', install_image {| x_k := k6; x_pcids := pcids; x_spaces := x_spaces x; x_current_as := x_current_as x; x_cr3 := x_cr3 x; x_proc := x_proc x |} cpu new entry rsp =
      Done (ExecEnter (Z.lor (as_pml4_phys new) (as_pcid new)) entry rsp 0x202 0, x') /\
    installed x old own cpu x' (set_active new (cpu_bit cpu)) own' entry rsp /\
    forall y, is_user y -> user_byte (x_k x') (as_pml4_phys new) y = user_byte k6 (as_pml4_phys new) y /\ k_uleaf (x_k x') (as_pml4_phys new) y = k_uleaf k6 (as_pml4_phys new) y.
Proof.
  intros Hrd Hb Hne Hr1 Hac Hvm. pose proof (er_caller _ _ _ Hrd) as Hc. unfold install_image. cbn [x_proc x_k x_pcids x_spaces x_current_as x_cr3]. rewrite (er_ptr _ _ _ Hrd).
  pose proof (k_alloc_frame_spec k6 _ (ts_one _ _ _ (bu_two _ _ _ _ _ _ Hb))) as Ha. unfold alloc_shared.
  destruct (k_alloc_frame k6) as [[own' k7]|] eqn:Ek; [|done]. destruct Ha as (_ & Hin & _ & _ & _ & Htb & Hm & _). pose proof (built_switched _ _ _ _ _ _ _ _ _ Hc Hb Ek) as Hsw. run.
  pose proof (sw_own' _ _ _ _ _ _ Hsw) as Ho'. destruct (co_own _ _ _ Hc) as (Ho1 & _ & Ho2).
  assert (own <> own') as Hoo by (intros <-; apply Ho1, (sw_new _ _ _ _ _ _ Hsw); by right; right).
  destruct (ptr_small own' Ho') as (-> & _ & _). destruct (ptr_small own Ho2) as (_ & Hsub & _).
  rewrite (activate_new x old own new own' cpu k7 pcids Hrd Ho2 Ho' Hoo). run. unfold drop_ref_ptr. cbn [x_proc x_k x_pcids x_spaces x_current_as x_cr3].
  rewrite lookup_insert_eq. run. rewrite Hsub. set (oldi := set_active old _).
  destruct (drop_old (x_k x) old own new own' k7 oldi pcids Hc Hsw eq_refl eq_refl) as (b & o & pcids' & k8 & -> & -> & O1 & O2 & O3 & W1 & W2 & W3 & W4 & W5 & W6). run.
  cbn [x_proc x_k x_pcids x_spaces x_current_as x_cr3]. rewrite Hac, cpu_bit_lor.
  set (sp := if as_refcount old =? 1 then _ else _).
  assert (forall p, sp !! p = if decide (p = DIRECT_MAP_BASE + own) then (if as_refcount old =? 1 then None else Some o)
    else if decide (p = DIRECT_MAP_BASE + own') then Some (set_active new (cpu_bit cpu)) else x_spaces x !! p) as Hsp.
  { intros p. unfold sp. destruct (as_refcount old =? 1); repeat case_decide; subst; rewrite ?lookup_delete_eq, ?lookup_insert_eq, ?lookup_delete_ne, ?lookup_insert_ne by lia; rewrite ?lookup_insert_eq; try done; by rewrite lookup_insert_ne by lia. }
  rewrite Hsp, decide_False, decide_True by lia. run. cbn [as_pml4_phys as_pcid set_active].
  assert (forall y, k_uleaf k8 (as_pml4_phys new) y = k_uleaf k7 (as_pml4_phys new) y) as Hul by (intros y; apply W3; cbn; lia).
  assert (forall y, k_uleaf k7 (as_pml4_phys new) y = k_uleaf k6 (as_pml4_phys new) y) as Hul7 by (intros y; unfold k_uleaf; by rewrite Htb).
  eexists _, own'. split; [reflexivity|]. split.
  - constructor; cbn [x_proc x_k x_pcids x_spaces x_current_as x_cr3 as_pml4_phys set_active].
    + done.
    + rewrite Hsp, decide_False, decide_True by lia. done.
    + done.
    + done.
    + unfold old_left. cbn [x_spaces x_k]. rewrite Hsp, decide_True by done. destruct (as_refcount old =? 1) eqn:E1; [done|]. apply Z.eqb_neq in E1. rewrite (W6 E1).
      split_and!; [by exists o|apply Hsw|]. intros y Hy. apply (sw_old _ _ _ _ _ _ Hsw). cbn; lia.
    + intros p H1' H2'. by rewrite Hsp, decide_False, decide_False.
    + intros g. rewrite W5, (sw_free _ _ _ _ _ _ Hsw). pose proof (walk_pentry (tabs (k_pt k7)) (tabs (k_pt k8)) (as_pml4_phys new) ltac:(intros p j Hp; apply W3; lia)) as Hw.
      assert (utable (tabs (k_pt k8)) (as_pml4_phys new) g <-> utable (tabs (k_pt k7)) (as_pml4_phys new) g) as ->.
      { split; intros (p & Hp & Hu & Hg); exists p; (split_and!; [done..|]); [by rewrite <- Hw|by rewrite Hw]. }
      assert (leaf_frame k8 (as_pml4_phys new) g <-> leaf_frame k7 (as_pml4_phys new) g) as -> by (unfold leaf_frame; by setoid_rewrite Hul).
      pose proof (sw_new _ _ _ _ _ _ Hsw g) as Hnew. pose proof (gives_back_used (x_k x) (as_pml4_phys old) g (co_owned _ _ _ Hc)) as Hgu.
      assert (g = own -> g ∉ k_free (x_k x)) as Hou by (by intros ->). tauto.
    + intros g Hg. unfold page_of. rewrite W4. by apply (sw_mem _ _ _ _ _ _ Hsw).
  - cbn [x_k]. intros y Hy. rewrite Hul, Hul7. split; [|done]. rewrite !user_byte_leaf by (done || apply Hb). rewrite Hul, Hul7. unfold page_of. by rewrite W4, Hm.
Qed.

(** ** The file *)

(** Reading the file gives [res], whatever the allocator is. *)
Definition loads k (path : list Z) (res : Z + list Z) : Prop := forall al, load_exec_file (realloc k al) path MAX_ELF_SIZE = Done res.

(** The error that the arguments and the file call for, if any. *)
Definition exec_error (argv envp : list (list Z)) (res : Z + list Z) : option Z :=
  if (MAX_ARGV <? length argv)%nat || (MAX_ENVP <? length envp)%nat then Some E2BIG else
  match res with
  | inl e => Some (if e =? -2 then ENOENT else EIO)
  | inr [] => Some ENOEXEC
  | inr data => match parse_elf data with Done (inr _) => Some ENOEXEC | _ => None end
  end.

Lemma install_enters x cpu new entry rsp r x' : install_image x cpu new entry rsp = Done (r, x') -> exists cr3, r = ExecEnter cr3 entry rsp 0x202 0.
Proof.
  unfold install_image. destruct (alloc_shared new (x_k x)) as [[own k1]|]; run; [|done].
  destruct (activate_address_space _ _ _) as [x1|]; run; [|done]. destruct (drop_ref_ptr x1 _) as [x2|]; run; [|done].
  destruct (x_spaces x2 !! _) as [a|]; run; [|done]. intros [= <- _]. by eexists.
Qed.

(** A process reads what it read before a failed execve. *)
Lemma restored_reads k k' r : restored k k' -> space_wf (k_pt k) r -> space_wf (k_pt k') r /\ (leaves_live k r -> forall y, is_user y -> user_byte k' r y = user_byte k r y).
Proof.
  intros [R1 R2 (R3 & R4 & R5 & R6) R7] Hs. assert (space_wf (k_pt k') r) as Hs'.
  { apply (space_agree (k_pt k)); [done|by intros g _; rewrite R3|done|]. intros g (p & Hp & Hw). change (g ∉ k_free k'). rewrite R2. by apply (wf_live _ _ (sw_wf _ _ Hs) p g Hp Hw). }
  split; [done|]. intros Hl y Hy. rewrite !user_byte_leaf by done. assert (k_uleaf k' r y = k_uleaf k r y) as -> by (unfold k_uleaf; by rewrite R3).
  destruct (k_uleaf k r y) as [e|] eqn:He; cbn [mbind option_bind]; [|done]. rewrite R7; [done|]. by apply (Hl y e Hy He).
Qed.

(** ** execve *)

(** C12: a failed execve changes nothing.  execve fails exactly when the arguments or the
    file call for it: E2BIG for more than 32 arguments or environment strings, ENOENT when
    the file is not found, EIO when it cannot be read, ENOEXEC when it is empty or is not
    an executable the parser accepts.  Then the process, the address spaces and CR3 are
    unchanged, exactly the frames that were free are free, no frame in use has been
    written, and every address space is well formed and reads as before.  The only other
    way not to enter the program is a panic of the kernel, when no block of 256 frames is
    left to read the file into. *)
Theorem execve_fails_cleanly pcid_enabled cpu x path argv envp res :
  fa_ok (pt_alloc (k_pt (x_k x))) -> loads (x_k x) path res -> (forall data, res = inr data -> byte_list data /\ Z.of_nat (length data) <= MAX_ELF_SIZE) ->
  match exec_error argv envp res with
  | Some e =>
      match do_execve pcid_enabled cpu x path argv envp with
      | Done (r, x') => r = ExecErr e /\ exists k', x' = set_k x k' /\ restored (x_k x) k' /\
          forall root, space_wf (k_pt (x_k x)) root -> space_wf (k_pt k') root /\
            (leaves_live (x_k x) root -> forall y, is_user y -> user_byte k' root y = user_byte (x_k x) root y)
      | Panic => fa_alloc_order (pt_alloc (k_pt (x_k x))) ELF_BUF_ORDER = None
      end
  | None => forall e x', do_execve pcid_enabled cpu x path argv envp <> Done (ExecErr e, x')
  end.
Proof.
  intros Hok Hl Hd. unfold exec_error, do_execve. destruct ((MAX_ARGV <? length argv)%nat || (MAX_ENVP <? length envp)%nat).
  { split; [done|]. exists (x_k x). assert (restored (x_k x) (x_k x)) as Hr by done. split_and!; [by destruct x|done|]. intros root. by apply restored_reads. }
  pose proof (k_alloc_order_spec (x_k x) Hok) as Ha. destruct (k_alloc_order (x_k x) ELF_BUF_ORDER) as [[buf k1]|] eqn:Eb; run; [|by destruct (match res with inl _ => _ | inr _ => _ end)].
  assert (load_exec_file k1 path MAX_ELF_SIZE = Done res) as -> by (destruct Ha as (al & -> & _); apply Hl). run.
  assert (forall k2, k_pt k2 = k_pt k1 -> k_cow k2 = k_cow k1 -> k_vfs k2 = k_vfs k1 -> k_shoot k2 = k_shoot k1 -> (forall g, ~ in_buf buf g -> page_of k2 g = page_of k1 g) -> forall e,
    match (k3 ← free_elf_buf k2 buf; Done (ExecErr e, set_k x k3)) with
    | Done (r, x') => r = ExecErr e /\ exists k', x' = set_k x k' /\ restored (x_k x) k' /\ forall root, space_wf (k_pt (x_k x)) root -> space_wf (k_pt k') root /\
        (leaves_live (x_k x) root -> forall y, is_user y -> user_byte k' root y = user_byte (x_k x) root y)
    | Panic => fa_alloc_order (pt_alloc (k_pt (x_k x))) ELF_BUF_ORDER = None
    end) as Hfail.
  { intros k2 P1 P2 P3 P4 P5 e. destruct (buffer_restored (x_k x) k1 buf Eb Hok k2 P1 P2 P3 P4 P5) as (k3 & -> & Hr). run. split; [done|]. exists k3. split_and!; [done..|]. intros root. by apply restored_reads. }
  destruct res as [err|[|b data]]; [by apply Hfail|by apply Hfail|]. destruct (Hd _ eq_refl) as [Hby Hlen]. set (all := b :: data) in *.
  pose proof (parse_elf_safe all Hby ltac:(unfold MAX_ELF_SIZE in Hlen; lia)) as Hp. destruct (fill_buf_spec k1 buf all Hlen) as (F1 & F2 & F3 & F4 & F5).
  destruct (parse_elf all) as [[info|err]|]; [|by apply Hfail|done]. run. intros e x'.
  destruct (build_image _ _ _ _ _ _ _ _) as [[[[new pc] rsp] k3]|]; run; [|done]. destruct (free_elf_buf k3 buf) as [k4|]; run; [|done].
  intros (cr3 & ?)%install_enters. done.
Qed.

End Install.
