(* ===== verification/ExecDemo.v ===== *)
(** * Examples of execve

    A process of one page over the buddy allocator, with a block of 1024 free frames,
    that executes the small file of Elf.v: the theorems of ExecSwitch.v at concrete
    inputs. *)

From Stdlib Require Import ZArith Lia.
From stdpp Require Import prelude gmap list.
From S2P Require Import Prelude Paging Frames PageTable Buddy BuddySpec BuddyInit UserMap Pcid Elf Cow Vma AddressSpace Loader Faults Spaces Signal ExecStack ExecMemory Fork Teardown Shootdown Exec ExecBlocks ExecImage ExecStart ExecSpec ExecSwitch.

Local Open Scope Z_scope.

(** ** The allocator: thirty frames and a block of 4 MiB *)

Definition give_block (s : NumaBuddy * fmem) (f order : Z) : NumaBuddy * fmem :=
  match BuddyNode_free_order (node0 s.1) s.2 f order with Done (n, mem) => (set_node0 s.1 n, mem) | Panic => s end.

Lemma give_block_spec s f order : fa_ok s -> 0 <= order <= MAX_ORDER -> block_ok (Z.to_nat order) f -> (forall g, g ∈ block_frames (Z.to_nat order) f -> g ∉ fa_free s) ->
  fa_ok (give_block s f order) /\ forall g, g ∈ fa_free (give_block s f order) <-> g ∈ block_frames (Z.to_nat order) f \/ g ∈ fa_free s.
Proof.
  destruct s as [b mem]. intros (ls & n & Hb & Hn) Ho Hok Hd. cbn [fst snd] in *. unfold give_block. cbn [fst snd].
  destruct (free_order_spec (node0 b) mem ls f order (br_node _ _ _ Hb) Ho Hok) as (n' & mem' & ls' & -> & Hn' & Hfc & Hp).
  { apply NoDup_app. split_and!; [|intros g Hg Hin; apply (Hd g Hg); cbn; by rewrite elem_of_buddy_free|apply Hb].
    apply NoDup_fmap_2; [intros i j; lia|apply NoDup_seqZ]. }
  assert (brep (set_node0 b n') mem' ls') as Hb'.
  { apply brep_set_node0; [apply Hb|done|]. rewrite Hfc, (br_count _ _ _ Hb), Hp, length_app. unfold block_frames. rewrite length_fmap, length_seqZ, Z2Nat.id, wrap64_add_l by lia.
    f_equal. rewrite Nat2Z.inj_add, Z2Nat.id by lia. lia. }
  split.
  - exists ls', n'. split; [done|]. cbn. apply list_lookup_insert_eq. rewrite (br_len _ _ _ Hb). unfold MAX_NUMA_NODES. lia.
  - intros g. cbn. rewrite !elem_of_buddy_free by done. by rewrite Hp, elem_of_app.
Qed.

Definition big_buddy : NumaBuddy * fmem := give_block demo_buddy 0x400000 10.

Lemma big_buddy_ok : fa_ok big_buddy /\ 0x1000 ∉ fa_free big_buddy /\ 0x200000 ∉ fa_free big_buddy /\ (3 <= size (fa_free big_buddy))%nat /\
  forall f, f ∈ fa_free big_buddy -> f mod 4096 = 0 /\ (0x2000 <= f < 0x20000 \/ 0x400000 <= f < 0x800000).
Proof.
  assert (3 <= size (fa_free big_buddy))%nat as Hsz by (apply Nat.leb_le; vm_compute; reflexivity). revert Hsz.
  destruct demo_buddy_page as (A1 & _ & _ & _ & A5).
  assert (forall g, g ∈ block_frames 10 0x400000 -> g mod 4096 = 0 /\ 0x400000 <= g < 0x800000) as Hbl.
  { intros g (j & -> & Hj)%elem_of_block_frames. change (2 ^ Z.of_nat 10) with 1024 in Hj. rewrite Z.mod_add by lia. split; [done|lia]. }
  destruct (give_block_spec demo_buddy 0x400000 10 A1) as [G1 G2]; [unfold MAX_ORDER; lia|split_and!; [lia|reflexivity|vm_compute; discriminate]|intros g [_ Hg]%Hbl [_ Hg']%A5; lia|].
  unfold big_buddy. revert G1 G2. generalize (give_block demo_buddy 0x400000 10). intros bb G1 G2 Hsz. change (Z.to_nat 10) with 10%nat in G2.
  assert (forall f, f ∈ fa_free bb -> f mod 4096 = 0 /\ (0x2000 <= f < 0x20000 \/ 0x400000 <= f < 0x800000)) as Hall.
  { intros f [[? ?]%Hbl|[? ?]%A5]%G2; (split; [done|lia]). }
  split_and!; [done|intros [_ ?]%Hall; lia|intros [_ ?]%Hall; lia|exact Hsz|done].
Qed.

(** ** The process *)

(** A file system with one executable. *)
Definition demo_path : list Z := [47; 97].

#[export] Instance one_file : ExecLoader (NumaBuddy * fmem) unit := {
  EXEC_LOADER := Some (fun _ path _ => Done (if decide (path = demo_path) then inr demo_elf else inl (-2)))
}.

Definition exec_machine : xstate (NumaBuddy * fmem) unit :=
  {| x_k := one_page big_buddy; x_pcids := PcidAllocator_new; x_spaces := {[ DIRECT_MAP_BASE + 0x300000 := empty_space ]}; x_current_as := DIRECT_MAP_BASE + 0x300000;
     x_cr3 := 0x1000; x_proc := {| xp_address_space := DIRECT_MAP_BASE + 0x300000; xp_user_rip := 0x400000; xp_user_rsp := 0; xp_user_rflags := 0x202; xp_user_rax := 0;
       xp_sig := {| ss_pending := 2; ss_table := SigTable_new; ss_frame := None |} |} |}.

Lemma exec_machine_ready : exec_ready exec_machine empty_space 0x300000.
Proof.
  destruct big_buddy_ok as (A1 & A2 & A3 & A4 & A5). destruct (one_page_ok _ A1 A2 A3 A4) as (Hs & Hl & Hm & Hu & Hsub & Ht).
  assert (forall w e, is_user w -> k_uleaf (one_page big_buddy) 0x1000 w = Some e -> e = one_entry /\ PageTableEntry_frame e = 0x200000) as Hone.
  { intros w e Hw He. rewrite Hu in He by exact Hw. case_decide; [|done]. injection He as <-. split; [done|apply one_entry_frame]. }
  assert (forall g, utable (tabs (k_pt (one_page big_buddy))) 0x1000 g -> g mod 4096 = 0 /\ (0 < g < 0x20000 \/ 0x400000 <= g < 0x800000)) as Htab.
  { intros g [->|Hin%A5]%Ht; [by split; [|left]|]. split; [apply Hin|lia]. }
  assert (forall g, reach (tabs (k_pt (one_page big_buddy))) 0x1000 g -> is_Some (tabs (k_pt (one_page big_buddy)) !! g)) as Hre.
  { intros g (p & Hp & Hg). destruct (wf_table _ _ (sw_wf _ _ Hs) p g Hp Hg) as (t & Htt & _). by exists t. }
  constructor; [|reflexivity|apply lookup_singleton_eq|reflexivity|vm_compute; reflexivity]. cbn [x_k exec_machine].
  constructor; change (as_pml4_phys empty_space) with 0x1000.
  - constructor; [exact Hs|intros g Hg%Htab; split; [apply Hg|lia]|..].
    + intros w e Hw He _. destruct (Hone w e Hw He) as [-> Hf]. destruct (Hl w _ Hw He) as [_ Hn]. rewrite Hf in Hn |- *. split_and!; [exact Hn|reflexivity|lia|lia].
    + intros w w' e e' Hw Hw' He He' _. rewrite Hu in He, He' by done. do 2 case_decide; try discriminate; congruence.
    + intros w e Hw He Hut%Htab. destruct (Hone w e Hw He) as [_ Hf]. rewrite Hf in Hut. lia.
  - apply cow_table_ok.
  - exact Hm.
  - split_and!; [|reflexivity|lia|lia]. intros Hin%Hsub%A5. lia.
  - intros [Hut%Htab|(w & e & Hw & He & _ & Hf)]; [lia|]. destruct (Hone w e Hw He) as [_ Hf']. rewrite Hf' in Hf. discriminate Hf.
  - intros Hr%Hre. assert (tabs (k_pt (one_page big_buddy)) !! 0x300000 = None) as E by (vm_compute; reflexivity). rewrite E in Hr. destruct Hr as [t Hr]. discriminate Hr.
  - intros w e Hw He Hr%Hre. destruct (Hone w e Hw He) as [_ Hf]. rewrite Hf in Hr.
    assert (tabs (k_pt (one_page big_buddy)) !! 0x200000 = None) as E by (vm_compute; reflexivity). rewrite E in Hr. destruct Hr as [t Hr]. discriminate Hr.
Qed.

Definition demo_info : ElfInfo := {| elf_entry := 0x401010; elf_segments := [demo_seg] |}.

Lemma demo_layout : layout_ok [demo_seg].
Proof.
  assert (forall p, seg_range demo_seg p -> p = 0x401) as Hr by (intros p Hp; unfold seg_range in Hp; change (seg_vaddr demo_seg / 4096) with 0x401 in Hp; change (Z.of_nat (seg_pages demo_seg)) with 1 in Hp; lia).
  constructor; [cbn; split; [constructor|done]|]. intros s p ->%list_elem_of_singleton ->%Hr. split; [|discriminate]. unfold stack_page. change (USTACK_BOTTOM / 4096) with 0x7ffffffb0. lia.
Qed.

Lemma demo_args : args_fit [[97]; [98; 99]] [].
Proof. constructor; [apply Nat.leb_le; reflexivity..|]. repeat constructor; cbn; lia. Qed.


Lemma execve_fails_cleanly_witness :
  match do_execve false 0 exec_machine [47; 98] [] [] with
  | Done (r, x') => r = ExecErr ENOENT /\ x_proc x' = x_proc exec_machine /\ k_free (x_k x') = k_free (x_k exec_machine)
  | Panic => False
  end.
Proof.
  pose proof (execve_fails_cleanly false 0 exec_machine [47; 98] [] [] (inl (-2))) as Hx.
  specialize (Hx (wf_alloc _ _ (sw_wf _ _ (ow_wf _ _ (co_owned _ _ _ (er_caller _ _ _ exec_machine_ready))))) ltac:(intros al; reflexivity) ltac:(discriminate)).
  change (exec_error [] [] (inl (-2))) with (Some ENOENT) in Hx. cbv iota in Hx.
  destruct (do_execve false 0 exec_machine [47; 98] [] []) as [[r x']|].
  - destruct Hx as (-> & k' & -> & Hr & _). split_and!; [reflexivity|reflexivity|]. exact (rs_free _ _ Hr).
  - vm_compute in Hx. discriminate Hx.
Defined.
