(* ===== verification/ExecCall.v ===== *)
(** * The system call in front of execve

    [sys_execve] of crates/proc/src/syscall.rs copies the path and the two vectors of
    strings out of user memory, 256 bytes each; the loader of the file system reads a file
    of ramfs.  A program that keeps its strings where 256 bytes can be read gets the
    execve it asked for; near the end of its memory it stops the kernel. *)

From Stdlib Require Import ZArith Lia.
From stdpp Require Import prelude gmap list.
From S2P Require Import Prelude Paging Frames PageTable Buddy BuddySpec BuddyInit UserMap Pcid Elf Cow Vma AddressSpace Loader Faults Spaces Signal Ramfs Vfs ExecStack ExecMemory Fork Teardown Exec ExecBlocks ExecImage ExecStart ExecSpec ExecSwitch ExecDemo.

Local Open Scope Z_scope.

(** ** Copying from user memory *)

Section Copy.
Context {A V : Type} `{FrameAllocator A, !BlockAllocator A, !VfsHooks A V, !ExecLoader A V}.
Implicit Types (k : kstate A V) (a : AddressSpace) (x : xstate A V).

Definition user_mem a k : uspace A V := {| us_k := k; us_root := as_pml4_phys a |}.

Lemma copy_bytes a k bs : forall src, bytes_at (user_mem a k) src bs -> 0 <= src -> src + Z.of_nat (length bs) <= 2 ^ 47 -> copy_from_user a k src (length bs) = Done (bs, k).
Proof.
  induction bs as [|b bs IH]; intros src Hb Hs Hl; cbn [length copy_from_user]; [done|]. cbn [length] in Hl.
  unfold load_from_user. rewrite (proj2 (Z.leb_gt _ _)) by lia. pose proof (Hb 0%nat b eq_refl) as H0'. rewrite Z.add_0_r in H0'. cbn in H0'. rewrite H0'. run.
  rewrite wrap64_small by (unfold is_u64; lia). rewrite IH; [by run| |lia|lia]. change (b :: bs) with ([b] ++ bs) in Hb. by apply bytes_at_app in Hb as [_ Hb].
Qed.

(** A string of a program, in a place where [USER_STR_LEN] bytes can be read. *)
Definition user_string a k (p : Z) (s : list Z) : Prop :=
  exists rest, bytes_at (user_mem a k) p (s ++ 0 :: rest) /\ length (s ++ 0 :: rest) = USER_STR_LEN /\ Forall (fun b => b <> 0) s /\ utf8_valid s = true /\
    USER_MIN <= p /\ p + Z.of_nat USER_STR_LEN <= 2 ^ 47.

(** A null-terminated vector of them. *)
Definition user_vector a k (p : Z) (ss : list (list Z)) : Prop :=
  (p = 0 /\ ss = []) \/
  exists ptrs, bytes_at (user_mem a k) p (words_bytes (ptrs ++ [0])) /\ Forall2 (user_string a k) ptrs ss /\ USER_MIN <= p /\ p + 8 * (Z.of_nat (length ss) + 1) <= 2 ^ 47.

Lemma nul_len s rest : Forall (fun b => b <> 0) s -> nul_terminated_len (s ++ 0 :: rest) = length s.
Proof.
  intros Hs. unfold nul_terminated_len. assert (list_find (fun b => b = 0) (s ++ 0 :: rest) = Some (length s, 0)) as ->; [|done].
  apply list_find_Some. rewrite list_lookup_middle by done. split_and!; [done|done|]. intros j y Hj Hlt. rewrite lookup_app_l in Hj by done. rewrite Forall_lookup in Hs. by apply (Hs j).
Qed.

Lemma user_ptr_ok p n : 0 <= n -> USER_MIN <= p -> p + n <= 2 ^ 47 -> is_user_ptr p n = true.
Proof.
  intros Hn Hp Hl. unfold is_user_ptr, checked_add, USER_MIN, SYSCALL_USER_TOP in *. rewrite (proj2 (Z.ltb_lt _ _)) by lia.
  rewrite (proj2 (Z.leb_le _ _)), (proj2 (Z.leb_le _ _)) by lia. done.
Qed.

Lemma copy_string a k p s : user_string a k p s -> exists buf, copy_from_user a k p USER_STR_LEN = Done (buf, k) /\
  take (nul_terminated_len buf) buf = s /\ arg_str buf = s /\ is_user_ptr p 1 = true /\ p <> 0 /\ 0 <= p < 2 ^ 64.
Proof.
  intros (rest & Hb & Hl & Hz & Hu & Hp & Ht). exists (s ++ 0 :: rest). pose proof (copy_bytes a k (s ++ 0 :: rest) p Hb) as Hc. rewrite Hl in Hc. unfold USER_MIN in Hp.
  assert (take (nul_terminated_len (s ++ 0 :: rest)) (s ++ 0 :: rest) = s) as Htk by (rewrite nul_len by done; apply take_app_length).
  split_and!; [apply Hc; lia|done|unfold arg_str; by rewrite Htk, Hu| |lia|lia|lia]. apply user_ptr_ok; [lia|unfold USER_MIN; lia|unfold USER_STR_LEN in Ht; lia].
Qed.

Lemma read_user_word a k p v : 0 <= v < 2 ^ 64 -> bytes_at (user_mem a k) p (to_le_bytes 8 v) -> 0 <= p -> p + 8 <= 2 ^ 47 -> read_u64_from_user a k p = Done (v, k).
Proof.
  intros Hv Hb Hp Ht. unfold read_u64_from_user. pose proof (copy_bytes a k _ p Hb Hp) as Hc. rewrite to_le_bytes_length in Hc. rewrite Hc by lia. run.
  by rewrite of_to_le_bytes by (cbn; lia).
Qed.

Lemma copy_strings_spec a k ptrs ss : Forall2 (user_string a k) ptrs ss -> forall n p, (length ss <= n)%nat -> bytes_at (user_mem a k) p (words_bytes (ptrs ++ [0])) ->
  USER_MIN <= p -> p + 8 * (Z.of_nat (length ss) + 1) <= 2 ^ 47 -> copy_strings n a k p = Done (inr ss, k).
Proof.
  induction 1 as [|q s ptrs ss Hq Hall IH]; intros n p Hn Hb Hp Ht; cbn [length] in *; (destruct n as [|n]; [done || lia|]); cbn [copy_strings]; unfold USER_MIN in Hp;
    rewrite user_ptr_ok by (unfold USER_MIN; lia); cbn [negb]; unfold words_bytes in Hb; cbn [app fmap list_fmap concat] in Hb; apply bytes_at_app in Hb as [Hw Hb].
  - rewrite (read_user_word a k p 0) by (done || lia). by run.
  - destruct (copy_string a k q s Hq) as (buf & E & _ & Es & Eu & Hq0 & Hqr). rewrite (read_user_word a k p q) by (done || lia). run.
    rewrite (proj2 (Z.eqb_neq q 0)) by done. rewrite Eu. cbn [negb]. rewrite E. run. rewrite wrap64_small by (unfold is_u64; lia).
    rewrite (IH n (p + 8)); [run; by rewrite Es|lia| |unfold USER_MIN; lia|lia]. by rewrite to_le_bytes_length in Hb.
Qed.

Lemma copy_vector_spec n a k p ss : user_vector a k p ss -> (length ss <= n)%nat -> copy_vector n a k p = Done (inr ss, k).
Proof.
  unfold copy_vector. intros [[-> ->]|(ptrs & Hb & Hall & Hp & Ht)] Hn; [done|]. rewrite (proj2 (Z.eqb_neq p 0)) by (unfold USER_MIN in Hp; lia). by apply (copy_strings_spec a k ptrs).
Qed.

(** The system call passes on the strings that the program has in its memory. *)
Theorem sys_execve_copies pcid_enabled cpu x a path_ptr argv_ptr envp_ptr path argv envp : x_spaces x !! xp_address_space (x_proc x) = Some a ->
  user_string a (x_k x) path_ptr path -> user_vector a (x_k x) argv_ptr argv -> user_vector a (x_k x) envp_ptr envp ->
  (length argv <= MAX_ARGV)%nat -> (length envp <= MAX_ENVP)%nat ->
  sys_execve pcid_enabled cpu x path_ptr argv_ptr envp_ptr = do_execve pcid_enabled cpu x path argv envp.
Proof.
  intros Ha Hp Hv He Hla Hle. destruct (copy_string a (x_k x) path_ptr path Hp) as (buf & E & Et & _ & Eu & _). unfold sys_execve. rewrite Eu. cbn [negb]. rewrite Ha. run. rewrite E. run.
  rewrite Et. destruct Hp as (rest & _ & _ & _ & Hu & _). rewrite Hu. cbn [negb]. rewrite (copy_vector_spec MAX_ARGV a _ _ argv Hv Hla). run.
  rewrite (copy_vector_spec MAX_ENVP a _ _ envp He Hle). run. by destruct x.
Qed.
End Copy.

(** ** The loader *)

Section FsLoader.
Context {A : Type} `{FrameAllocator A}.

Lemma walk_path_same (s s' : ramfs A) : rf_vnodes s' = rf_vnodes s -> rf_inodes s' = rf_inodes s -> forall parts c, walk_path s' c parts = walk_path s c parts.
Proof.
  intros Hv Hi. induction parts as [|[|b part] parts IH]; intros c; cbn [walk_path]; [done|done|].
  assert (vnode_lookup s' c (b :: part) = vnode_lookup s c (b :: part)) as -> by (unfold vnode_lookup, ramfs_dir_lookup, inode_of; by rewrite Hv, Hi).
  destruct (vnode_lookup s c (b :: part)) as [[next|]|]; run; [apply IH|done|done].
Qed.

(** What the file system reads does not depend on the free frames. *)
Lemma fs_loads (k : kstate A exec_fs) path res : exec_load_file k path MAX_ELF_SIZE = Done res -> loads k path res.
Proof.
  intros E al. unfold load_exec_file. cbn [EXEC_LOADER fs_exec_loader]. rewrite <- E. unfold exec_load_file.
  assert (path_lookup (fs_view (realloc k al)) (xf_root (k_vfs (realloc k al))) path = path_lookup (fs_view k) (xf_root (k_vfs k)) path) as ->; [|done].
  unfold path_lookup. cbn [realloc set_pt k_vfs]. destruct (negb (starts_with_slash path)), (xf_root (k_vfs k) =? 0); [done..|]. destruct (trim_slashes path); [done|]. by apply walk_path_same.
Qed.
End FsLoader.

(** ** The end of the mapped memory *)

(** The path is an empty string sixteen bytes before the end of the only page: a valid
    user pointer, but the copy of 256 bytes runs into the next page. *)
Lemma execve_end_of_memory_panics : is_user_ptr 0x400ff0 1 = true /\ user_byte (x_k exec_machine) 0x1000 0x400ff0 = Some 0 /\
  sys_execve false 0 exec_machine 0x400ff0 0 0 = Panic.
Proof. split_and!; vm_compute; reflexivity. Qed.
